(* ===== verification/_CoqProject ===== *)
-Q . S2P
Prelude.v
MapSum.v
Ctype.v
Vaddr.v
Bitmap.v
DList.v
DListAlgo.v
DListSort.v
Runqueue.v
Kernel.v
SchedInv.v
SchedPres.v
Sched.v
Arith64.v
Random.v
Mem.v
Sort.v
Str.v
Hash.v
Intq.v
Serial.v
Palloc.v
Malloc.v
Alloc.v
Args.v
ArgsSpec.v
Disk.v
DiskInit.v
RamDisk.v
BufCache.v
CacheInv.v
CacheOps.v
FileSys.v
FileIO.v
CacheFlush.v
FsDemo.v
Directory.v
FileRef.v
FsRuns.v
Swap.v
SwapInv.v
Pagedir.v
PagedirInv.v
PagedirSpec.v
UserSpace.v
Files.v
Loader.v
LoaderSpec.v
Syscall.v
SyscallSpec.v
SyscallVm.v
Frames.v
FramesSpec.v
Process.v
ProcessSpec.v
Stdio.v
StdioSpec.v
Vga.v
Console.v
Descriptors.v
Kbd.v
Rtc.v
Ustar.v
FsUtil.v
Boot.v
Delay.v
