(* ===== verification/Prelude.v ===== *)
(** * A verification development for the Pintos kernel of this repository

    The program is the Pintos teaching operating system under src/pintos/src
    with one team's solutions to its projects: a priority scheduler with an
    alarm, user programs and system calls, demand paging with swap, and a
    buffer cache.  The development models the C code of the kernel and of its
    library as executable definitions, one file per component, and proves what
    makes each component correct; where the code does not do what it says, a
    theorem shows the run in which it goes wrong.

    ** How the code is modelled

    A C function is a Rocq function on the state it uses.  Code that can go
    wrong returns [res]: an assertion that fails ([AssertFailed]), an access
    outside the memory it owns ([BadAccess], [NullAccess]), a kernel panic and
    the end of the running thread ([ThreadExits]) are values, so that a theorem
    that a call returns [Ok] says that none of them happens.  Stateful code is
    in the monad [M] defined here.  A word is a [Z] in its range; wherever C
    arithmetic can wrap it is written out with [u32], [s32] and the like.
    Structures live at addresses that an allocator returned, in finite maps
    from addresses to records; a [struct list] is the sequence of the elements
    it links, a view that [DList] justifies for every operation of list.c at
    pointer level.  Hardware (the UART, the ATA channel, the display, the
    paging unit with its translation buffer) is modelled at the level of the
    registers and memory words the drivers touch.

    A loop with no structural bound takes fuel and running out of it is the
    fault [NoFuel].  No theorem assumes that fuel suffices by itself: each
    states a bound (the length of a string, the number of elements of a list,
    of pages of a segment, of rounds of the clock hand) from which on the
    result does not depend on it, and proves that the call returns.

    Components that call one another through an interface are proved against
    a class: [BlockDevice] (disks, provided by [Disk] and by [RamDisk]),
    [Allocator] and [AllocatorRoom] (malloc, provided by [Alloc] from [Malloc]),
    [UserMem] (the memory of a user program, provided by [UserSpace]), [Files]
    (the file system as user programs see it).

    ** Files and the code they model

    Library (lib/, lib/kernel/):
    - [Prelude]: round.h, the ASSERT macro, words, the monads and the tactics;
      [MapSum]: sums over finite maps; [Mem]: byte memory.
    - [Ctype]: ctype.h.  [Arith64]: arithmetic.c.  [Random]: random.c.
      [Sort]: stdlib.c.  [Str]: string.c.
    - [Stdio], [StdioSpec]: stdio.c.  [Console]: both console.c files.
    - [DList], [DListAlgo], [DListSort]: list.c.  [Bitmap]: bitmap.c.
      [Hash]: hash.c.

    Threads (threads/):
    - [Vaddr]: vaddr.h, pte.h.  [Runqueue]: the priority arrays of thread.c.
    - [Kernel]: thread.c, synch.c, the scheduling side of interrupt.c and
      timer.c; [SchedInv], [SchedPres], [Sched]: the invariant, its
      preservation and the theorems on every interleaving.
    - [Palloc]: palloc.c.  [Malloc]: malloc.c.  [Alloc]: its interface.

    Devices (devices/):
    - [Intq]: intq.c.  [Serial]: serial.c, input.c.  [Vga]: vga.c.
    - [Disk], [DiskInit]: disk.c.  [RamDisk]: a disk and an allocator for runs.
    - [Kbd]: kbd.c.  [Rtc]: rtc.c.  [Delay]: calibration and delays of timer.c.

    Start-up and tools (threads/init.c, lib/ustar.c, filesys/fsutil.c):
    - [Boot]: the kernel command line of init.c.
    - [Ustar]: ustar.c.  [FsUtil]: fsutil.c.

    File system (filesys/):
    - [BufCache], [CacheInv], [CacheOps], [CacheFlush]: buf_cache.c.
    - [FileSys], [FileIO], [FileRef]: inode.c, file.c, free-map.c.
    - [Directory]: directory.c, filesys.c.  [FsDemo], [FsRuns]: theorems and runs.

    User programs and virtual memory (userprog/, vm/):
    - [Pagedir], [PagedirInv], [PagedirSpec]: pagedir.c, paging_init of
      threads/init.c, and the processor's paging unit.
    - [UserSpace]: the bytes user programs see.  [Files]: the file system
      interface of this part.
    - [Args], [ArgsSpec]: arg_parse, arg_push of process.c.
    - [Loader], [LoaderSpec]: load of process.c.
    - [Descriptors]: gdt.c, tss.c, the IDT, the handler tables and the interrupt
      controller of threads/interrupt.c, exception_init and kill of exception.c.
    - [Frames], [FramesSpec]: frame.c, page.c, page_fault of exception.c, the
      lazy load_segment of process.c and munmap of syscall.c.
    - [Process], [ProcessSpec]: process_execute, start_process, process_wait,
      process_exit and thread_exit as steps of concurrent threads.
    - [Syscall], [SyscallSpec], [SyscallVm]: syscall.c, over any address space
      and over the page tables.
    - [Swap], [SwapInv]: vm/swap.c.

    ** What the theorems show

    - Scheduling: under every interleaving of threads and interrupts one thread
      runs, the run queue holds exactly the ready threads, waiters are blocked,
      a lock has one owner, the highest priority runs after a yield, and
      threads leave the run queue in priority order.
    - Memory: live pages and blocks never overlap; the page allocator and
      malloc keep their invariants for every sequence of calls.
    - Containers: lists are sorted and spliced as sequences, hash tables refine
      finite maps, bitmaps arrays of bits.
    - Devices: the disk driver refines an array of sectors whatever the timing
      of the drives; the interrupt queue is a bounded FIFO; bytes cross the
      serial port in order; the display shows the last lines printed.
    - File data: sector-aligned reads and writes through the cache refine
      plain file contents and are durable after write-behind; the counts of an
      inode are those of its open files.
    - Address spaces: page directories refine finite maps, keep the kernel
      mapped and leak no page; what one process writes no other sees; a loaded
      program is in memory as its file says; its arguments are on its stack.
    - Demand paging: handling a fault changes nothing that the program can see,
      and a page loaded on its first touch holds what an eager load would have
      put there; eviction, as written, does not look at the frame it evicts.
    - Processes: a parent that waits for its child gets the status the child
      exited with, and gets it whatever the interleaving; with two children
      a wait can return the status of the other child, or never return.
    - Command line and tools: the kernel does what its command line says; a tar
      header is parsed back to what it was made from and a damaged one is
      refused; fsutil_append writes the archive of a file, with a faulty end.
    - Descriptors: a segment descriptor decodes to the base, limit and rights it
      was made from, and every gate of the IDT is well formed after any sequence
      of registrations.
    - Keyboard and clock: text typed on the keyboard arrives in the input buffer;
      rtc_get_time is a month ahead of the calendar; the calibration of the
      busy-wait loop is within given bounds.
    - System calls: the table of open files refines a finite map from
      descriptors to files, for every call with arguments in the program's
      memory.
    - Defects: a lost wake-up in sema_up, a panic of the alarm, stale copies in
      the cache, wrapped sizes, truncated remainders and others are shown by
      theorems, many of them on concrete runs.

    ** Bounds

    Machine sizes are the real ones (4096-byte pages, 512-byte sectors, 64
    priorities, 64-byte queues and buffers).  The sequences of operations that
    theorems quantify over are unbounded.  Theorems on paging assume fewer than
    2^18 pages of RAM, the most that fits above PHYS_BASE.  Theorems on file
    data assume accesses that start on a sector boundary, outside of which the
    cache is shown to return stale data.

    ** Not modelled

    Assembly (the boot loader, start.S, switch.S, intr-stubs.S): no C.  The order
    of the start-up calls in main of threads/init.c, its help text and the
    ports that reboot and power off the machine; debug output (backtraces);
    the system call stubs of the user library, which are inline assembly; mmap,
    whose search for the open file is undefined; what statistics print; the
    example programs, tests and build tools.
*)

From stdpp Require Export base tactics option list list_numbers numbers gmap.
From Stdlib Require Export ZArith Lia.

(** ** Machine integers

    The kernel is compiled for 32-bit x86 (ILP32): [size_t], [unsigned],
    [unsigned long], pointers and [uintptr_t] are 32 bits wide, [off_t] and
    [int] are signed 32-bit.  A C value is a [Z]; every place where the C
    code can wrap is written with [u32] (or [u64], [u8]). *)

#[global] Open Scope Z_scope.

(** [zlia] is [lia] after replacing every quotient and remainder by its
    Euclidean equations. *)
Ltac zlia := Z.to_euclidean_division_equations; lia.

(** [zcases] splits on every boolean comparison of the goal and discards
    the arithmetically impossible cases. *)
Ltac zcases :=
  repeat match goal with
  | |- context [?a <=? ?b] => destruct (Z.leb_spec a b); simpl
  | |- context [?a <? ?b] => destruct (Z.ltb_spec a b); simpl
  | |- context [?a =? ?b] => destruct (Z.eqb_spec a b); simpl
  end; try lia.

Definition u8 (z : Z) : Z := z mod 2 ^ 8.
Definition u16 (z : Z) : Z := z mod 2 ^ 16.
Definition u32 (z : Z) : Z := z mod 2 ^ 32.
Definition u64 (z : Z) : Z := z mod 2 ^ 64.

(** The signed 32-bit (64-bit) value with the same low bits. *)
Definition s32 (z : Z) : Z := (z + 2 ^ 31) mod 2 ^ 32 - 2 ^ 31.
Definition s64 (z : Z) : Z := (z + 2 ^ 63) mod 2 ^ 64 - 2 ^ 63.

(** ** Faults and the result monad

    Every way a kernel function can stop without returning is a value:
    a failed [ASSERT], a [PANIC], an access outside the modelled memory
    (undefined behaviour in C), one through a null pointer, a [thread_exit()], a divide error (#DE), a
    wait for an event that nothing in the modelled system will cause, and,
    for loops whose bound is not structural, an exhausted fuel.  Theorems about total
    correctness exclude every one of them. *)

Inductive fault : Type :=
  | AssertFailed
  | KernelPanic
  | BadAccess
  | NullAccess
  | ThreadExits
  | DivideError
  | WaitsForever
  | NoFuel.

Inductive res (A : Type) : Type :=
  | Ok (a : A)
  | Fail (e : fault).
Arguments Ok {A} a.
Arguments Fail {A} e.

#[global] Instance fault_eq_dec : EqDecision fault.
Proof. solve_decision. Defined.

#[global] Instance res_ret : MRet res := fun A a => Ok a.
#[global] Instance res_bind : MBind res :=
  fun A B f m => match m with Ok a => f a | Fail e => Fail e end.

(** [ASSERT (cond)] of lib/debug.h: panics when [cond] is false. *)
Definition ASSERT (b : bool) : res unit :=
  if b then Ok tt else Fail AssertFailed.

Lemma bind_Ok {A B} (m : res A) (f : A -> res B) b :
  (m ≫= f) = Ok b <-> exists a, m = Ok a /\ f a = Ok b.
Proof.
  destruct m as [a|e]; simpl; split.
  - intros H; eauto.
  - by intros (a' & [= <-] & H).
  - done.
  - by intros (a' & ? & ?).
Qed.

Lemma ASSERT_Ok b u : ASSERT b = Ok u <-> b = true.
Proof. destruct u, b; simpl; intuition congruence. Qed.

Lemma ASSERT_true b : b = true -> ASSERT b = Ok tt.
Proof. by intros ->. Qed.

Lemma bind_ASSERT {B} b (f : unit -> res B) :
  b = true -> (ASSERT b ≫= f) = f tt.
Proof. by intros ->. Qed.

(** [inv_res] opens every successful bind and assertion in the context. *)
Ltac inv_res :=
  repeat match goal with
  | H : (_ ≫= _) = Ok _ |- _ =>
      apply bind_Ok in H; destruct H as (? & ? & ?)
  | H : ASSERT _ = Ok _ |- _ => apply ASSERT_Ok in H
  | H : Ok _ = Ok _ |- _ => injection H; clear H; intros; subst
  | H : mret _ = Ok _ |- _ => injection H; clear H; intros; subst
  | H : Fail _ = Ok _ |- _ => discriminate H
  | p : _ * _ |- _ => destruct p
  | u : unit |- _ => destruct u
  end; simplify_eq/=.

(** ** State passing

    [M S A] is a computation on a component's state [S] that either faults or
    returns a value and the new state. *)

Definition M (S A : Type) : Type := S -> res (A * S).
#[global] Instance M_ret S : MRet (M S) := fun A a s => Ok (a, s).
#[global] Instance M_bind S : MBind (M S) :=
  fun A B f m s => match m s with Ok (a, s') => f a s' | Fail e => Fail e end.

Definition fail {S A} (e : fault) : M S A := fun _ => Fail e.
Definition liftM {S A} (r : res A) : M S A :=
  fun s => match r with Ok a => Ok (a, s) | Fail e => Fail e end.
Definition get {S} : M S S := fun s => Ok (s, s).
Definition gets {S A} (f : S -> A) : M S A := fun s => Ok (f s, s).
Definition modify {S} (f : S -> S) : M S unit := fun s => Ok (tt, f s).
Definition assertM {S} (b : bool) : M S unit := liftM (ASSERT b).

Lemma bindM_Ok {S A B} (m : M S A) (f : A -> M S B) s b s' :
  (m ≫= f) s = Ok (b, s') <-> exists a s1, m s = Ok (a, s1) /\ f a s1 = Ok (b, s').
Proof.
  unfold mbind, M_bind. destruct (m s) as [[a s1]|e]; split.
  - eauto.
  - by intros (a' & s1' & [= <- <-] & H).
  - done.
  - by intros (a' & s1' & ? & ?).
Qed.

(** Running one step of a computation whose outcome is known. *)
Lemma bindM_step {S A B} (m : M S A) (f : A -> M S B) s a s1 :
  m s = Ok (a, s1) -> (m ≫= f) s = f a s1.
Proof. unfold mbind, M_bind. by intros ->. Qed.

Lemma bindM_assert {S B} b (f : unit -> M S B) s :
  b = true -> (assertM b ≫= f) s = f tt s.
Proof. by intros ->. Qed.

(** *** Computations that only read *)

Definition readonly {S A} (m : M S A) : Prop := forall s x s', m s = Ok (x, s') -> s' = s.

Lemma readonly_ret {S A} (a : A) : readonly (mret a : M S A).
Proof. by intros s x s' [= _ <-]. Qed.
Lemma readonly_fail {S A} e : readonly (fail e : M S A).
Proof. by intros s x s'. Qed.
Lemma readonly_gets {S A} (f : S -> A) : readonly (gets f).
Proof. by intros s x s' [= _ <-]. Qed.
Lemma readonly_lift {S A} (r : res A) : readonly (liftM r : M S A).
Proof. unfold liftM. intros s x s'. destruct r; [|done]. by intros [= _ <-]. Qed.
Lemma readonly_assert {S} b : readonly (assertM b : M S unit).
Proof. apply readonly_lift. Qed.
Lemma readonly_bind {S A B} (m : M S A) (f : A -> M S B) :
  readonly m -> (forall a, readonly (f a)) -> readonly (m ≫= f).
Proof.
  intros Hm Hf s x s' (a & s1 & H1 & H2)%bindM_Ok. apply Hm in H1 as ->. by apply Hf in H2.
Qed.

Create HintDb readonly discriminated.
#[export] Hint Resolve readonly_ret readonly_fail readonly_gets readonly_lift readonly_assert readonly_bind : readonly.

(** Decides [readonly] of a computation built from reads, binds and matches. *)
Ltac solve_readonly :=
  repeat first [progress intros | solve [eauto with readonly] | apply readonly_bind | case_match].

(** ** C arrays

    [arr_get]/[arr_set] read and write one element; an index outside the
    array is undefined behaviour, hence [BadAccess]. *)

Section arrays.
Context {A : Type}.
Implicit Types l : list A.

Definition in_range (i : Z) (l : list A) : bool :=
  (0 <=? i) && (i <? Z.of_nat (length l)).

Definition arr_get (l : list A) (i : Z) : res A :=
  if 0 <=? i then
    match l !! Z.to_nat i with Some x => Ok x | None => Fail BadAccess end
  else Fail BadAccess.

Definition arr_set (l : list A) (i : Z) (x : A) : res (list A) :=
  if in_range i l then Ok (<[Z.to_nat i := x]> l) else Fail BadAccess.

Lemma arr_get_Ok l i x :
  arr_get l i = Ok x <-> 0 <= i /\ l !! Z.to_nat i = Some x.
Proof.
  unfold arr_get. destruct (Z.leb_spec 0 i).
  - destruct (l !! Z.to_nat i); intuition congruence.
  - split; [done|lia].
Qed.

Lemma arr_get_ok l i :
  0 <= i < Z.of_nat (length l) -> exists x, arr_get l i = Ok x.
Proof.
  intros Hi. destruct (lookup_lt_is_Some_2 l (Z.to_nat i)) as [x Hx]; [lia|].
  exists x. apply arr_get_Ok; auto with lia.
Qed.

Lemma arr_set_Ok l i x l' :
  arr_set l i x = Ok l' <->
  0 <= i < Z.of_nat (length l) /\ l' = <[Z.to_nat i := x]> l.
Proof.
  unfold arr_set, in_range.
  destruct (Z.leb_spec 0 i), (Z.ltb_spec i (Z.of_nat (length l))); simpl;
    intuition (try congruence; try lia).
Qed.

Lemma arr_set_ok l i x :
  0 <= i < Z.of_nat (length l) ->
  arr_set l i x = Ok (<[Z.to_nat i := x]> l).
Proof. intros. by apply arr_set_Ok. Qed.
End arrays.

(** ** Lists *)

Lemma filter_none {A} (P : A -> Prop) `{forall x, Decision (P x)} (l : list A) :
  Forall (fun x => ~ P x) l -> filter P l = [].
Proof.
  induction 1 as [|x l Hx _ IH]; [done|]. by rewrite filter_cons_False.
Qed.

Lemma filter_all {A} (P : A -> Prop) `{forall x, Decision (P x)} (l : list A) :
  Forall P l -> filter P l = l.
Proof. induction 1 as [|x l Hx _ IH]; [done|]. by rewrite filter_cons_True, IH. Qed.

(** Exchanging two elements. *)
Lemma insert_perm {A} (l : list A) i x y :
  l !! i = Some x -> x :: <[i := y]> l ≡ₚ y :: l.
Proof.
  revert i. induction l as [|z l IH]; intros [|i] Hi; simplify_eq/=.
  - apply Permutation_swap.
  - rewrite Permutation_swap, (IH i Hi). apply Permutation_swap.
Qed.

Lemma insert_swap_perm {A} (l : list A) i j x y :
  l !! i = Some x -> l !! j = Some y -> <[j := x]> (<[i := y]> l) ≡ₚ l.
Proof.
  intros Hi Hj. destruct (decide (i = j)) as [->|Hne].
  - assert (x = y) as -> by congruence. by rewrite !list_insert_id by (by rewrite ?list_insert_id).
  - apply (inj (cons y)). rewrite insert_perm by (by rewrite list_lookup_insert_ne).
    by rewrite insert_perm.
Qed.

(** Ordered insertion before the first element that [e] is less than: what
    [list_insert_ordered] does to the sequence of a list. *)
Fixpoint insert_seq {A} (less : A -> A -> bool) (e : A) (ys : list A) : list A :=
  match ys with
  | [] => [e]
  | y :: ys => if less e y then e :: y :: ys else y :: insert_seq less e ys
  end.

Lemma insert_seq_perm {A} less (e : A) ys : insert_seq less e ys ≡ₚ e :: ys.
Proof.
  induction ys as [|y ys IH]; simpl; [done|]. destruct (less e y); [done|].
  rewrite IH. constructor.
Qed.

(** ** lib/round.h *)

Definition ROUND_UP (x step : Z) : Z := (x + step - 1) / step * step.
Definition DIV_ROUND_UP (x step : Z) : Z := (x + step - 1) / step.
Definition ROUND_DOWN (x step : Z) : Z := x / step * step.

Lemma DIV_ROUND_UP_spec x step :
  0 <= x -> 0 < step ->
  x <= DIV_ROUND_UP x step * step < x + step.
Proof.
  intros. unfold DIV_ROUND_UP.
  pose proof (Z.div_mod (x + step - 1) step).
  pose proof (Z.mod_pos_bound (x + step - 1) step). nia.
Qed.

Lemma ROUND_UP_spec x step :
  0 <= x -> 0 < step ->
  x <= ROUND_UP x step < x + step /\ (step | ROUND_UP x step).
Proof.
  intros. split; [by apply DIV_ROUND_UP_spec|].
  unfold ROUND_UP. by apply Z.divide_factor_r.
Qed.

(** ** Words *)

Lemma u32_small z : 0 <= z < 2 ^ 32 -> u32 z = z.
Proof. apply Z.mod_small. Qed.

Lemma u32_range z : 0 <= u32 z < 2 ^ 32.
Proof. apply Z.mod_pos_bound. lia. Qed.

Lemma u8_range z : 0 <= u8 z < 2 ^ 8.
Proof. apply Z.mod_pos_bound. lia. Qed.

Lemma u64_range z : 0 <= u64 z < 2 ^ 64.
Proof. apply Z.mod_pos_bound. lia. Qed.

Lemma u64_small z : 0 <= z < 2 ^ 64 -> u64 z = z.
Proof. apply Z.mod_small. Qed.

Lemma s32_small z : - 2 ^ 31 <= z < 2 ^ 31 -> s32 z = z.
Proof. intros. unfold s32. rewrite Z.mod_small; lia. Qed.

Lemma s32_range z : - 2 ^ 31 <= s32 z < 2 ^ 31.
Proof. unfold s32. pose proof (Z.mod_pos_bound (z + 2 ^ 31) (2 ^ 32)). lia. Qed.

(** Bits of a word above its width are zero. *)
Lemma word_testbit_high w z i :
  0 <= w <= i -> 0 <= z < 2 ^ w -> Z.testbit z i = false.
Proof.
  intros Hi Hz. rewrite <- (Z.mod_small z (2 ^ w)) by done.
  apply Z.mod_pow2_bits_high; lia.
Qed.

Lemma u32_testbit z i :
  0 <= i -> Z.testbit (u32 z) i = (i <? 32) && Z.testbit z i.
Proof.
  intros. unfold u32. destruct (Z.ltb_spec i 32); simpl.
  - by rewrite Z.mod_pow2_bits_low.
  - by rewrite Z.mod_pow2_bits_high by lia.
Qed.

(** Two words agree when their bits agree below the width. *)
Lemma word_bits_inj w a b :
  0 <= w -> 0 <= a < 2 ^ w -> 0 <= b < 2 ^ w ->
  (forall i, 0 <= i < w -> Z.testbit a i = Z.testbit b i) -> a = b.
Proof.
  intros Hw Ha Hb Hab. apply Z.bits_inj'. intros i Hi.
  destruct (Z.lt_ge_cases i w); [by apply Hab|].
  by rewrite !(word_testbit_high w) by lia.
Qed.

Lemma lor_range w a b :
  0 <= w -> 0 <= a < 2 ^ w -> 0 <= b < 2 ^ w -> 0 <= Z.lor a b < 2 ^ w.
Proof.
  intros Hw Ha Hb.
  assert (Z.lor a b = Z.lor a b mod 2 ^ w) as ->; [|apply Z.mod_pos_bound; lia].
  apply Z.bits_inj'. intros i Hi. destruct (Z.lt_ge_cases i w).
  - by rewrite Z.mod_pow2_bits_low.
  - rewrite Z.mod_pow2_bits_high, Z.lor_spec by lia.
    by rewrite !(word_testbit_high w) by lia.
Qed.

Lemma land_range w a b :
  0 <= w -> 0 <= a < 2 ^ w -> 0 <= Z.land a b < 2 ^ w.
Proof.
  intros Hw Ha.
  assert (Z.land a b = Z.land a b mod 2 ^ w) as ->; [|apply Z.mod_pos_bound; lia].
  apply Z.bits_inj'. intros i Hi. destruct (Z.lt_ge_cases i w).
  - by rewrite Z.mod_pow2_bits_low.
  - rewrite Z.mod_pow2_bits_high, Z.land_spec by lia.
    by rewrite (word_testbit_high w a) by lia.
Qed.
