(* ===== verification/MapSum.v ===== *)
(** * Sums over finite maps

    Counting arguments over the threads of the kernel and the open files of
    the file system add up a weight over a finite map. *)

From S2P Require Import Prelude.

(** ** Sums over a finite map *)

Section msum.
Context {K : Type} `{Countable K} {A : Type} (f : A -> Z).

Definition msum (m : gmap K A) : Z := map_fold (fun _ x acc => f x + acc) 0 m.

Lemma msum_empty : msum ∅ = 0.
Proof. apply map_fold_empty. Qed.

Lemma msum_insert_fresh m k x : m !! k = None -> msum (<[k := x]> m) = f x + msum m.
Proof.
  intros Hk. unfold msum. rewrite map_fold_insert_L; [done| |done].
  intros; lia.
Qed.

Lemma msum_delete m k x : m !! k = Some x -> msum m = f x + msum (delete k m).
Proof.
  intros Hk. rewrite <- (msum_insert_fresh _ k) by apply lookup_delete_eq.
  by rewrite insert_delete_id.
Qed.

Lemma msum_insert m k x y :
  m !! k = Some y -> msum (<[k := x]> m) = msum m - f y + f x.
Proof.
  intros Hk. rewrite <- (insert_delete_eq m k x), msum_insert_fresh by apply lookup_delete_eq.
  rewrite (msum_delete m k y Hk). lia.
Qed.

Lemma msum_nonneg m : (forall k x, m !! k = Some x -> 0 <= f x) -> 0 <= msum m.
Proof.
  induction m as [|k x m Hk IH] using map_ind; intros Hf.
  - by rewrite msum_empty.
  - rewrite msum_insert_fresh by done. pose proof (Hf k x (lookup_insert_eq _ _ _)).
    assert (0 <= msum m); [|lia]. apply IH. intros k' y Hy. apply (Hf k').
    rewrite lookup_insert_ne by congruence. done.
Qed.

(** With nonnegative terms no single term exceeds the sum, nor do two. *)
Lemma msum_ge m k x :
  (forall k x, m !! k = Some x -> 0 <= f x) -> m !! k = Some x -> f x <= msum m.
Proof.
  intros Hf Hk. rewrite (msum_delete m k x Hk).
  assert (0 <= msum (delete k m)); [|lia]. apply msum_nonneg.
  intros k' y [_ Hy]%lookup_delete_Some. by eapply Hf.
Qed.

Lemma msum_ge2 m k1 x1 k2 x2 :
  (forall k x, m !! k = Some x -> 0 <= f x) ->
  m !! k1 = Some x1 -> m !! k2 = Some x2 -> k1 <> k2 -> f x1 + f x2 <= msum m.
Proof.
  intros Hf H1 H2 Hne. rewrite (msum_delete m k1 x1 H1).
  assert (f x2 <= msum (delete k1 m)); [|lia].
  assert (delete k1 m !! k2 = Some x2) as H2' by (by rewrite lookup_delete_ne).
  rewrite (msum_delete _ k2 x2 H2').
  assert (0 <= msum (delete k2 (delete k1 m))); [|lia]. apply msum_nonneg.
  intros k' y [_ [_ Hy]%lookup_delete_Some]%lookup_delete_Some. by eapply Hf.
Qed.
End msum.
