(* ===== verification/Ctype.v ===== *)
(** * Character classes: lib/ctype.h

    Characters are the values of [int]; [EOF] and negative characters belong
    to no class. *)

From S2P Require Import Prelude.

Definition islower (c : Z) : bool := (97 <=? c) && (c <=? 122).
Definition isupper (c : Z) : bool := (65 <=? c) && (c <=? 90).
Definition isalpha (c : Z) : bool := islower c || isupper c.
Definition isdigit (c : Z) : bool := (48 <=? c) && (c <=? 57).
Definition isalnum (c : Z) : bool := isalpha c || isdigit c.
Definition isxdigit (c : Z) : bool :=
  isdigit c || ((97 <=? c) && (c <=? 102)) || ((65 <=? c) && (c <=? 70)).
Definition isspace (c : Z) : bool :=
  (c =? 32) || (c =? 12) || (c =? 10) || (c =? 13) || (c =? 9) || (c =? 11).
Definition isblank (c : Z) : bool := (c =? 32) || (c =? 9).
Definition isgraph (c : Z) : bool := (32 <? c) && (c <? 127).
Definition isprint (c : Z) : bool := (32 <=? c) && (c <? 127).
Definition iscntrl (c : Z) : bool := ((0 <=? c) && (c <? 32)) || (c =? 127).
Definition isascii (c : Z) : bool := (0 <=? c) && (c <? 128).
Definition ispunct (c : Z) : bool := isprint c && negb (isalnum c) && negb (isspace c).
Definition tolower (c : Z) : Z := if isupper c then c - 65 + 97 else c.
Definition toupper (c : Z) : Z := if islower c then c - 97 + 65 else c.
