(* ===== verification/Vaddr.v ===== *)
(** * Virtual addresses and x86 page-table entries

    Models threads/vaddr.h and threads/pte.h: page offset and page number
    arithmetic, the kernel's 1:1 physical mapping and the encoding of page
    directory and page table entries.  A pointer is its 32-bit address. *)

From S2P Require Import Prelude.

(** ** threads/vaddr.h *)

Definition LOADER_PHYS_BASE : Z := 0xc0000000.
Definition PHYS_BASE : Z := LOADER_PHYS_BASE.
Definition NULL : Z := 0.

Definition BITMASK (shift cnt : Z) : Z :=
  u32 (Z.shiftl (Z.shiftl 1 cnt - 1) shift).

Definition PGSHIFT : Z := 0.
Definition PGBITS : Z := 12.
Definition PGSIZE : Z := Z.shiftl 1 PGBITS.
Definition PGMASK : Z := BITMASK PGSHIFT PGBITS.

Definition pg_ofs (va : Z) : Z := Z.land va PGMASK.
Definition pg_no (va : Z) : Z := Z.shiftr va PGBITS.
Definition pg_round_up (va : Z) : Z :=
  Z.land (u32 (va + PGSIZE - 1)) (u32 (Z.lnot PGMASK)).
Definition pg_round_down (va : Z) : Z := Z.land va (u32 (Z.lnot PGMASK)).

Definition is_user_vaddr (vaddr : Z) : bool := vaddr <? PHYS_BASE.
Definition is_kernel_vaddr (vaddr : Z) : bool := PHYS_BASE <=? vaddr.

Definition ptov (paddr : Z) : res Z :=
  ASSERT (paddr <? PHYS_BASE);; Ok (u32 (paddr + PHYS_BASE)).
Definition vtop (vaddr : Z) : res Z :=
  ASSERT (is_kernel_vaddr vaddr);; Ok (u32 (vaddr - PHYS_BASE)).

(** ** threads/pte.h *)

Definition PTSHIFT : Z := PGBITS.
Definition PTBITS : Z := 10.
Definition PTSPAN : Z := Z.shiftl (Z.shiftl 1 PTBITS) PGBITS.
Definition PTMASK : Z := BITMASK PTSHIFT PTBITS.
Definition PDSHIFT : Z := PTSHIFT + PTBITS.
Definition PDBITS : Z := 10.

Definition pt_no (va : Z) : Z := Z.shiftr (Z.land va PTMASK) PTSHIFT.
Definition pd_no (va : Z) : Z := Z.shiftr va PDSHIFT.

Definition PTE_FLAGS : Z := 0x00000fff.
Definition PTE_ADDR : Z := 0xfffff000.
Definition PTE_P : Z := 0x1.
Definition PTE_W : Z := 0x2.
Definition PTE_U : Z := 0x4.
Definition PTE_A : Z := 0x20.
Definition PTE_D : Z := 0x40.

Definition pde_create (pt : Z) : res Z :=
  ASSERT (pg_ofs pt =? 0);;
  p ← vtop pt;
  Ok (Z.lor (Z.lor (Z.lor p PTE_U) PTE_P) PTE_W).

Definition pde_get_pt (pde : Z) : res Z :=
  ASSERT (negb (Z.land pde PTE_P =? 0));;
  ptov (Z.land pde PTE_ADDR).

Definition pte_create_kernel (page : Z) (writable : bool) : res Z :=
  ASSERT (pg_ofs page =? 0);;
  p ← vtop page;
  Ok (Z.lor (Z.lor p PTE_P) (if writable then PTE_W else 0)).

Definition pte_create_user (page : Z) (writable : bool) : res Z :=
  p ← pte_create_kernel page writable;
  Ok (Z.lor p PTE_U).

Definition pte_get_page (pte : Z) : res Z := ptov (Z.land pte PTE_ADDR).

(** ** Arithmetic readings of the bit operations *)

Lemma PGSIZE_eq : PGSIZE = 4096. Proof. done. Qed.

Lemma pg_ofs_mod va : pg_ofs va = va mod 4096.
Proof. unfold pg_ofs. change PGMASK with (Z.ones 12). by rewrite Z.land_ones. Qed.

Lemma pg_no_div va : pg_no va = va / 4096.
Proof. unfold pg_no. by rewrite Z.shiftr_div_pow2. Qed.

(** Masking a word with the complement of the low [n] ones clears them. *)
Lemma land_clear_low va n m :
  0 <= va < 2 ^ 32 -> 0 <= n <= 32 -> m = 2 ^ 32 - 2 ^ n ->
  Z.land va m = va - va mod 2 ^ n.
Proof.
  intros Hva Hn ->.
  assert (Z.land va (2 ^ 32 - 2 ^ n) = Z.ldiff va (Z.ones n)) as ->.
  { apply Z.bits_inj'. intros i Hi.
    rewrite Z.land_spec, Z.ldiff_spec, Z.testbit_ones_nonneg by lia.
    destruct (Z.lt_ge_cases i 32).
    - f_equal.
      replace (2 ^ 32 - 2 ^ n) with (Z.ones (32 - n) * 2 ^ n).
      2: { rewrite Z.ones_equiv, <- Z.sub_1_r, Z.mul_sub_distr_r, <- Z.pow_add_r by lia.
           by replace (32 - n + n) with 32 by lia; rewrite Z.mul_1_l. }
      rewrite Z.mul_pow2_bits by lia.
      destruct (Z.ltb_spec i n).
      + by rewrite Z.testbit_neg_r by lia.
      + rewrite Z.ones_spec_low by lia. done.
    - by rewrite (word_testbit_high 32 va) by lia. }
  rewrite Z.ldiff_ones_r, Z.shiftl_mul_pow2, Z.shiftr_div_pow2 by lia.
  pose proof (Z.div_mod va (2 ^ n)). lia.
Qed.

Lemma pg_round_down_arith va :
  0 <= va < 2 ^ 32 -> pg_round_down va = va - va mod 4096.
Proof. intros. by apply (land_clear_low va 12). Qed.

Lemma pg_round_up_arith va :
  0 <= va < 2 ^ 32 ->
  pg_round_up va = u32 (va + 4095) - u32 (va + 4095) mod 4096.
Proof.
  intros. unfold pg_round_up.
  replace (va + PGSIZE - 1) with (va + 4095) by (rewrite PGSIZE_eq; lia).
  apply (land_clear_low _ 12); [apply u32_range|done|done].
Qed.

Lemma PTE_ADDR_clear pte :
  0 <= pte < 2 ^ 32 -> Z.land pte PTE_ADDR = pte - pte mod 4096.
Proof. intros. by apply (land_clear_low pte 12). Qed.

Lemma pt_no_arith va : 0 <= va -> pt_no va = va / 4096 mod 1024.
Proof.
  intros. unfold pt_no. change PTMASK with (Z.shiftl (Z.ones 10) 12).
  rewrite Z.shiftr_land, Z.shiftr_shiftl_l by done.
  change PTSHIFT with 12. rewrite Z.shiftl_0_r, Z.land_ones by done.
  by rewrite Z.shiftr_div_pow2.
Qed.

Lemma pd_no_arith va : pd_no va = va / 4194304.
Proof. unfold pd_no. by rewrite Z.shiftr_div_pow2. Qed.

(** Or-ing flags below [2 ^ 12] into a page-aligned address adds them. *)
Lemma lor_flags a f :
  a mod 4096 = 0 -> 0 <= f < 4096 -> Z.lor a f = a + f.
Proof.
  intros Ha Hf.
  assert (Z.land a f = 0) as Hd.
  { apply Z.bits_inj'. intros i Hi. rewrite Z.land_spec, Z.bits_0.
    destruct (Z.lt_ge_cases i 12).
    - rewrite <- (Z.mod_pow2_bits_low a 12 i) by lia.
      change (2 ^ 12) with 4096. by rewrite Ha, Z.bits_0.
    - rewrite (word_testbit_high 12 f) by (change (2 ^ 12) with 4096; lia).
      by rewrite andb_false_r. }
  by rewrite Z.add_nocarry_lxor, Z.lxor_lor.
Qed.

Lemma ptov_ok p : 0 <= p < 2 ^ 30 -> ptov p = Ok (p + PHYS_BASE).
Proof.
  intros. unfold ptov. rewrite bind_ASSERT.
  - unfold PHYS_BASE, LOADER_PHYS_BASE. by rewrite u32_small by lia.
  - apply Z.ltb_lt. unfold PHYS_BASE, LOADER_PHYS_BASE. zlia.
Qed.

Lemma vtop_ok v :
  PHYS_BASE <= v < 2 ^ 32 -> vtop v = Ok (v - PHYS_BASE).
Proof.
  intros. unfold vtop, is_kernel_vaddr. rewrite bind_ASSERT by (apply Z.leb_le; lia).
  unfold PHYS_BASE, LOADER_PHYS_BASE in *. by rewrite u32_small by lia.
Qed.

(** The flag word of the entry a [pte_create_*] builds. *)
Lemma pte_create_user_arith page w :
  PHYS_BASE <= page < 2 ^ 32 -> page mod 4096 = 0 ->
  pte_create_user page w = Ok (page - PHYS_BASE + (if w then 7 else 5)).
Proof.
  intros Hp Hal. unfold pte_create_user, pte_create_kernel.
  rewrite bind_ASSERT by (rewrite pg_ofs_mod; by apply Z.eqb_eq).
  rewrite vtop_ok by done. simpl. f_equal.
  rewrite <- !Z.lor_assoc, lor_flags; [by destruct w| |by destruct w].
  unfold PHYS_BASE, LOADER_PHYS_BASE. zlia.
Qed.

Lemma pde_create_arith pt :
  PHYS_BASE <= pt < 2 ^ 32 -> pt mod 4096 = 0 ->
  pde_create pt = Ok (pt - PHYS_BASE + 7).
Proof.
  intros Hp Hal. unfold pde_create.
  rewrite bind_ASSERT by (rewrite pg_ofs_mod; by apply Z.eqb_eq).
  rewrite vtop_ok by done. simpl. f_equal.
  rewrite <- !Z.lor_assoc, lor_flags; [done| |done].
  unfold PHYS_BASE, LOADER_PHYS_BASE. zlia.
Qed.

(** ** Properties *)

(** Every address splits into page directory index, page table index and
    page offset, each within the range the hardware indexes with. *)
Lemma vaddr_decompose va :
  0 <= va < 2 ^ 32 ->
  va = pd_no va * PTSPAN + pt_no va * PGSIZE + pg_ofs va /\
  0 <= pd_no va < 1024 /\ 0 <= pt_no va < 1024 /\ 0 <= pg_ofs va < PGSIZE.
Proof.
  intros Hva. rewrite pd_no_arith, pt_no_arith, pg_ofs_mod by lia.
  change PTSPAN with 4194304. change PGSIZE with 4096. zlia.
Qed.

Lemma pg_round_down_spec va :
  0 <= va < 2 ^ 32 ->
  pg_ofs (pg_round_down va) = 0 /\
  pg_round_down va <= va < pg_round_down va + PGSIZE /\
  va = pg_round_down va + pg_ofs va.
Proof.
  intros. rewrite !pg_ofs_mod, pg_round_down_arith by done.
  change PGSIZE with 4096. zlia.
Qed.

Lemma pg_round_up_spec va :
  0 <= va <= 2 ^ 32 - PGSIZE ->
  pg_ofs (pg_round_up va) = 0 /\ va <= pg_round_up va < va + PGSIZE.
Proof.
  change PGSIZE with 4096. intros.
  rewrite pg_ofs_mod, pg_round_up_arith by lia. rewrite u32_small by lia. zlia.
Qed.

(** Rounding up inside the last page of the address space wraps to 0. *)
Lemma pg_round_up_wraps va :
  2 ^ 32 - PGSIZE < va < 2 ^ 32 -> pg_round_up va = 0.
Proof.
  change PGSIZE with 4096. intros. rewrite pg_round_up_arith by lia.
  assert (u32 (va + 4095) = va + 4095 - 2 ^ 32) as ->; [|zlia].
  unfold u32. zlia.
Qed.

Lemma vtop_ptov p :
  0 <= p < 2 ^ 30 -> (v ← ptov p; vtop v) = Ok p.
Proof.
  intros. rewrite ptov_ok by done. simpl.
  rewrite vtop_ok by (unfold PHYS_BASE, LOADER_PHYS_BASE; lia). f_equal. lia.
Qed.

(** The entry [pte_create_user] builds points back to its page, is present
    and user-accessible, and is writable exactly when asked; it starts with
    clear accessed and dirty bits. *)
Lemma pte_user_roundtrip page w :
  PHYS_BASE <= page < 2 ^ 32 -> pg_ofs page = 0 ->
  exists pte, pte_create_user page w = Ok pte /\
    0 <= pte < 2 ^ 32 /\
    pte_get_page pte = Ok page /\
    Z.land pte PTE_P = PTE_P /\ Z.land pte PTE_U = PTE_U /\
    Z.land pte PTE_W = (if w then PTE_W else 0) /\
    Z.land pte PTE_A = 0 /\ Z.land pte PTE_D = 0.
Proof.
  rewrite pg_ofs_mod. intros Hp Hal. eexists. split; [by apply pte_create_user_arith|].
  set (fl := if w then 7 else 5). assert (0 <= fl < 8) by (destruct w; subst fl; lia).
  unfold PHYS_BASE, LOADER_PHYS_BASE in *.
  assert (Hmod : (page - 3221225472) mod 4096 = 0) by zlia.
  assert (Hfl : forall m, 0 <= m < 4096 ->
     Z.land (page - 3221225472 + fl) m = Z.land fl m).
  { intros m Hm. rewrite <- lor_flags, Z.land_lor_distr_l by lia.
    assert (Z.land (page - 3221225472) m = 0) as ->; [|done].
    apply Z.bits_inj'. intros i Hi. rewrite Z.land_spec, Z.bits_0.
    destruct (Z.lt_ge_cases i 12).
    - rewrite <- (Z.mod_pow2_bits_low _ 12 i) by lia. change (2 ^ 12) with 4096.
      by rewrite Hmod, Z.bits_0.
    - rewrite (word_testbit_high 12 m) by (change (2 ^ 12) with 4096; lia).
      by rewrite andb_false_r. }
  rewrite !Hfl by done. split; [lia|]. split; [|by destruct w].
  unfold pte_get_page. rewrite PTE_ADDR_clear by lia.
  replace ((page - 3221225472 + fl) mod 4096) with fl by zlia.
  rewrite ptov_ok by zlia. unfold PHYS_BASE, LOADER_PHYS_BASE. f_equal. zlia.
Qed.

Lemma pde_roundtrip pt :
  PHYS_BASE <= pt < 2 ^ 32 -> pg_ofs pt = 0 ->
  (pde ← pde_create pt; pde_get_pt pde) = Ok pt.
Proof.
  rewrite pg_ofs_mod. intros Hp Hal. rewrite pde_create_arith by done. simpl.
  unfold PHYS_BASE, LOADER_PHYS_BASE in *.
  unfold pde_get_pt. rewrite PTE_ADDR_clear by lia.
  rewrite bind_ASSERT.
  - rewrite ptov_ok by zlia. unfold PHYS_BASE, LOADER_PHYS_BASE. f_equal. zlia.
  - change PTE_P with (Z.ones 1). rewrite Z.land_ones by done.
    apply negb_true_iff, Z.eqb_neq. change (2 ^ 1) with 2. zlia.
Qed.
