(* ===== verification/Bitmap.v ===== *)
(** * Bitmaps

    Models lib/kernel/bitmap.c: an array of 32-bit elements seen from the
    outside as an array of bits.  The abstract view is [bm_get b i], the
    [i]-th bit; [bm_wf] ties the element array to the bit count.  Every
    operation is shown to act on the abstract view as its comment says;
    [bitmap_scan] is shown to find the first group. *)

From S2P Require Import Prelude.

(** ** Data and element arithmetic *)

Definition CHAR_BIT : Z := 8.
Definition sizeof_elem_type : Z := 4.
Definition ELEM_BITS : Z := sizeof_elem_type * CHAR_BIT.

Record bitmap : Type := mk_bitmap {
  bit_cnt : Z;        (* Number of bits. *)
  bits : list Z;      (* Elements that represent bits. *)
}.

Definition BITMAP_ERROR : Z := 2 ^ 32 - 1.

Definition elem_idx (bit_idx : Z) : Z := bit_idx / ELEM_BITS.
Definition bit_mask (bit_idx : Z) : Z := Z.shiftl 1 (bit_idx mod ELEM_BITS).
Definition elem_cnt (n : Z) : Z := u32 (n + ELEM_BITS - 1) / ELEM_BITS.
Definition byte_cnt (n : Z) : Z := u32 (sizeof_elem_type * elem_cnt n).
Definition last_mask (b : bitmap) : Z :=
  let last_bits := bit_cnt b mod ELEM_BITS in
  if negb (last_bits =? 0) then Z.shiftl 1 last_bits - 1 else u32 (-1).

(** ** Single bits *)

Definition with_bits (b : bitmap) (l : list Z) : bitmap :=
  mk_bitmap (bit_cnt b) l.

Definition bitmap_size (b : bitmap) : Z := bit_cnt b.

Definition bitmap_mark (b : bitmap) (bit_idx : Z) : res bitmap :=
  let idx := elem_idx bit_idx in
  let mask := bit_mask bit_idx in
  e ← arr_get (bits b) idx;
  l ← arr_set (bits b) idx (Z.lor e mask);
  Ok (with_bits b l).

Definition bitmap_reset (b : bitmap) (bit_idx : Z) : res bitmap :=
  let idx := elem_idx bit_idx in
  let mask := bit_mask bit_idx in
  e ← arr_get (bits b) idx;
  l ← arr_set (bits b) idx (Z.land e (u32 (Z.lnot mask)));
  Ok (with_bits b l).

Definition bitmap_flip (b : bitmap) (bit_idx : Z) : res bitmap :=
  let idx := elem_idx bit_idx in
  let mask := bit_mask bit_idx in
  e ← arr_get (bits b) idx;
  l ← arr_set (bits b) idx (Z.lxor e mask);
  Ok (with_bits b l).

Definition bitmap_set (b : bitmap) (idx : Z) (value : bool) : res bitmap :=
  ASSERT (idx <? bit_cnt b);;
  if value then bitmap_mark b idx else bitmap_reset b idx.

Definition bitmap_test (b : bitmap) (idx : Z) : res bool :=
  ASSERT (idx <? bit_cnt b);;
  e ← arr_get (bits b) (elem_idx idx);
  Ok (negb (Z.land e (bit_mask idx) =? 0)).

(** ** Groups of bits

    The C loops run [i] from 0 to [cnt - 1]; the fixpoints recurse on the
    number of iterations left. *)

Fixpoint set_multiple_loop (n : nat) (b : bitmap) (start i : Z) (value : bool)
    : res bitmap :=
  match n with
  | O => Ok b
  | S n => b' ← bitmap_set b (u32 (start + i)) value;
           set_multiple_loop n b' start (i + 1) value
  end.

Definition bitmap_set_multiple (b : bitmap) (start cnt : Z) (value : bool)
    : res bitmap :=
  ASSERT (start <=? bit_cnt b);;
  ASSERT (u32 (start + cnt) <=? bit_cnt b);;
  set_multiple_loop (Z.to_nat cnt) b start 0 value.

Definition bitmap_set_all (b : bitmap) (value : bool) : res bitmap :=
  bitmap_set_multiple b 0 (bitmap_size b) value.

Fixpoint count_loop (n : nat) (b : bitmap) (start i : Z) (value : bool)
    (value_cnt : Z) : res Z :=
  match n with
  | O => Ok value_cnt
  | S n => t ← bitmap_test b (u32 (start + i));
           count_loop n b start (i + 1) value
             (if Bool.eqb t value then u32 (value_cnt + 1) else value_cnt)
  end.

Definition bitmap_count (b : bitmap) (start cnt : Z) (value : bool) : res Z :=
  ASSERT (start <=? bit_cnt b);;
  ASSERT (u32 (start + cnt) <=? bit_cnt b);;
  count_loop (Z.to_nat cnt) b start 0 value 0.

Fixpoint contains_loop (n : nat) (b : bitmap) (start i : Z) (value : bool)
    : res bool :=
  match n with
  | O => Ok false
  | S n => t ← bitmap_test b (u32 (start + i));
           if Bool.eqb t value then Ok true
           else contains_loop n b start (i + 1) value
  end.

Definition bitmap_contains (b : bitmap) (start cnt : Z) (value : bool)
    : res bool :=
  ASSERT (start <=? bit_cnt b);;
  ASSERT (u32 (start + cnt) <=? bit_cnt b);;
  contains_loop (Z.to_nat cnt) b start 0 value.

Definition bitmap_any (b : bitmap) (start cnt : Z) : res bool :=
  bitmap_contains b start cnt true.

Definition bitmap_none (b : bitmap) (start cnt : Z) : res bool :=
  r ← bitmap_contains b start cnt true; Ok (negb r).

Definition bitmap_all (b : bitmap) (start cnt : Z) : res bool :=
  r ← bitmap_contains b start cnt false; Ok (negb r).

(** [for (i = start; i <= last; i++)]: [last - start + 1] iterations. *)
Fixpoint scan_loop (n : nat) (b : bitmap) (i cnt : Z) (value : bool) : res Z :=
  match n with
  | O => Ok BITMAP_ERROR
  | S n => r ← bitmap_contains b i cnt (negb value);
           if negb r then Ok i else scan_loop n b (i + 1) cnt value
  end.

Definition bitmap_scan (b : bitmap) (start cnt : Z) (value : bool) : res Z :=
  ASSERT (start <=? bit_cnt b);;
  if cnt <=? bit_cnt b then
    let last := bit_cnt b - cnt in
    scan_loop (Z.to_nat (last - start + 1)) b start cnt value
  else Ok BITMAP_ERROR.

Definition bitmap_scan_and_flip (b : bitmap) (start cnt : Z) (value : bool)
    : res (bitmap * Z) :=
  idx ← bitmap_scan b start cnt value;
  if negb (idx =? BITMAP_ERROR) then
    b' ← bitmap_set_multiple b idx cnt (negb value);
    Ok (b', idx)
  else Ok (b, idx).

(** ** Creation

    [malloc_b] and [malloc_bits] are the outcomes of the two [malloc] calls:
    whether the header was obtained, and the (uninitialised) contents of the
    element array, [None] for a null pointer. *)

Definition bitmap_create (malloc_b : bool) (malloc_bits : option (list Z))
    (n : Z) : res (option bitmap) :=
  if malloc_b then
    match malloc_bits with
    | Some junk => b ← bitmap_set_all (mk_bitmap n junk) false; Ok (Some b)
    | None =>
        if n =? 0 then b ← bitmap_set_all (mk_bitmap n []) false; Ok (Some b)
        else Ok None
    end
  else Ok None.

Definition sizeof_bitmap : Z := 8.
Definition bitmap_buf_size (n : Z) : Z := u32 (sizeof_bitmap + byte_cnt n).

(** [block] is the storage after the header, as elements. *)
Definition bitmap_create_in_buf (n : Z) (block : list Z) (block_size : Z)
    : res bitmap :=
  ASSERT (bitmap_buf_size n <=? block_size);;
  bitmap_set_all (mk_bitmap n block) false.

(** ** The abstract view *)

Definition bm_get (b : bitmap) (i : Z) : bool :=
  Z.testbit (nth (Z.to_nat (i / 32)) (bits b) 0) (i mod 32).

Definition bm_wf (b : bitmap) : Prop :=
  0 <= bit_cnt b < 2 ^ 32 /\
  bit_cnt b <= 32 * Z.of_nat (length (bits b)) /\
  Forall (fun e => 0 <= e < 2 ^ 32) (bits b).

(** [b'] is [b] with bit [i] replaced by [v]. *)
Definition bm_update (b : bitmap) (i : Z) (v : bool) (b' : bitmap) : Prop :=
  bm_wf b' /\ bit_cnt b' = bit_cnt b /\
  forall j, 0 <= j -> bm_get b' j = if j =? i then v else bm_get b j.

(** [b'] is [b] with the [cnt] bits from [start] replaced by [v]. *)
Definition bm_fill (b : bitmap) (start cnt : Z) (v : bool) (b' : bitmap) : Prop :=
  bm_wf b' /\ bit_cnt b' = bit_cnt b /\
  forall j, 0 <= j ->
    bm_get b' j = if (start <=? j) && (j <? start + cnt) then v else bm_get b j.

(** The [cnt] bits from [start] all equal [v]. *)
Definition bm_group (b : bitmap) (start cnt : Z) (v : bool) : Prop :=
  forall j, start <= j < start + cnt -> bm_get b j = v.

(** *** One element *)

Lemma bit_mask_testbit i k :
  0 <= k -> Z.testbit (bit_mask i) k = (k =? i mod 32).
Proof.
  intros. unfold bit_mask. change ELEM_BITS with 32.
  rewrite Z.shiftl_1_l, Z.pow2_bits_eqb by zlia. apply Z.eqb_sym.
Qed.

Lemma bit_mask_range i : 0 <= bit_mask i < 2 ^ 32.
Proof.
  unfold bit_mask. change ELEM_BITS with 32. rewrite Z.shiftl_1_l.
  split; [lia|]. apply Z.pow_lt_mono_r; zlia.
Qed.

(** A read-modify-write of the element holding bit [i] that changes only
    that bit, from [o] to [v o], changes only that bit of the bitmap. *)
Lemma elem_update b i (f : Z -> Z) (v : bool -> bool) :
  bm_wf b -> 0 <= i < bit_cnt b ->
  (forall e, 0 <= e < 2 ^ 32 ->
     0 <= f e < 2 ^ 32 /\
     forall k, 0 <= k < 32 -> Z.testbit (f e) k =
       if k =? i mod 32 then v (Z.testbit e k) else Z.testbit e k) ->
  exists b',
    (e ← arr_get (bits b) (elem_idx i);
     l ← arr_set (bits b) (elem_idx i) (f e);
     Ok (with_bits b l)) = Ok b' /\ bm_update b i (v (bm_get b i)) b'.
Proof.
  intros (Hn & Hlen & Hw) Hi Hf. unfold elem_idx. change ELEM_BITS with 32.
  assert (Hr : 0 <= i / 32 < Z.of_nat (length (bits b))) by zlia.
  destruct (arr_get_ok _ _ Hr) as [e He]. rewrite He; simpl.
  rewrite arr_set_ok by done; simpl. eexists; split; [done|].
  apply arr_get_Ok in He as [_ He].
  assert (Hwe : 0 <= e < 2 ^ 32) by (by eapply Forall_lookup_1 in Hw).
  destruct (Hf e Hwe) as [Hfe Hbits].
  split_and!; [split_and!|..]; simpl; try lia.
  - by rewrite length_insert.
  - by apply Forall_insert.
  - intros j Hj. unfold bm_get, with_bits; simpl.
    rewrite !nth_lookup, list_lookup_insert.
    destruct (decide _) as [[Hij _]|Hne].
    + assert (j / 32 = i / 32) as Hq by zlia. rewrite Hq, He; simpl.
      rewrite Hbits by zlia.
      destruct (Z.eqb_spec (j mod 32) (i mod 32)), (Z.eqb_spec j i);
        subst; try zlia; done.
    + destruct (Z.eqb_spec j i) as [->|]; [|done]. exfalso. apply Hne. split; [done|lia].
Qed.

Lemma bitmap_mark_spec b i :
  bm_wf b -> 0 <= i < bit_cnt b ->
  exists b', bitmap_mark b i = Ok b' /\ bm_update b i true b'.
Proof.
  intros. apply (elem_update b i (fun e => Z.lor e (bit_mask i)) (fun _ => true));
    [done..|].
  intros e He. split.
  - apply lor_range; [lia|done|apply bit_mask_range].
  - intros k Hk. rewrite Z.lor_spec, bit_mask_testbit by lia.
    destruct (k =? i mod 32); [by rewrite orb_true_r|by rewrite orb_false_r].
Qed.

Lemma bitmap_reset_spec b i :
  bm_wf b -> 0 <= i < bit_cnt b ->
  exists b', bitmap_reset b i = Ok b' /\ bm_update b i false b'.
Proof.
  intros. apply (elem_update b i (fun e => Z.land e (u32 (Z.lnot (bit_mask i))))
    (fun _ => false)); [done..|].
  intros e He. split.
  - by apply land_range.
  - intros k Hk. rewrite Z.land_spec, u32_testbit, Z.lnot_spec, bit_mask_testbit by lia.
    destruct (Z.ltb_spec k 32); [simpl|lia].
    destruct (k =? i mod 32); [by rewrite andb_false_r|by rewrite andb_true_r].
Qed.

Lemma bitmap_flip_spec b i :
  bm_wf b -> 0 <= i < bit_cnt b ->
  exists b', bitmap_flip b i = Ok b' /\ bm_update b i (negb (bm_get b i)) b'.
Proof.
  intros. apply (elem_update b i (fun e => Z.lxor e (bit_mask i)) negb); [done..|].
  intros e He. split.
  - assert (Z.lxor e (bit_mask i) = Z.lxor e (bit_mask i) mod 2 ^ 32) as ->;
      [|apply Z.mod_pos_bound; lia].
    apply Z.bits_inj'. intros k Hk. destruct (Z.lt_ge_cases k 32).
    + by rewrite Z.mod_pow2_bits_low.
    + rewrite Z.mod_pow2_bits_high, Z.lxor_spec by lia.
      pose proof (bit_mask_range i). by rewrite !(word_testbit_high 32) by lia.
  - intros k Hk. rewrite Z.lxor_spec, bit_mask_testbit by lia.
    destruct (k =? i mod 32); [by rewrite xorb_true_r|by rewrite xorb_false_r].
Qed.

Lemma bitmap_set_spec b i v :
  bm_wf b -> 0 <= i < bit_cnt b ->
  exists b', bitmap_set b i v = Ok b' /\ bm_update b i v b'.
Proof.
  intros. unfold bitmap_set. rewrite bind_ASSERT by (apply Z.ltb_lt; lia).
  destruct v; [by apply bitmap_mark_spec|by apply bitmap_reset_spec].
Qed.

Lemma bitmap_test_spec b i :
  bm_wf b -> 0 <= i < bit_cnt b -> bitmap_test b i = Ok (bm_get b i).
Proof.
  intros (Hn & Hlen & Hw) Hi. unfold bitmap_test, elem_idx. change ELEM_BITS with 32.
  rewrite bind_ASSERT by (apply Z.ltb_lt; lia).
  assert (Hr : 0 <= i / 32 < Z.of_nat (length (bits b))) by zlia.
  destruct (arr_get_ok _ _ Hr) as [e He]. rewrite He; simpl. f_equal.
  apply arr_get_Ok in He as [_ He]. unfold bm_get.
  rewrite (nth_lookup_Some _ _ _ _ He).
  destruct (Z.testbit e (i mod 32)) eqn:Ht.
  - apply negb_true_iff, Z.eqb_neq. intros Hz.
    apply (f_equal (fun z => Z.testbit z (i mod 32))) in Hz.
    rewrite Z.land_spec, Ht, bit_mask_testbit, Z.bits_0, Z.eqb_refl in Hz by zlia.
    done.
  - apply negb_false_iff, Z.eqb_eq, Z.bits_inj'. intros k Hk.
    rewrite Z.land_spec, bit_mask_testbit, Z.bits_0 by lia.
    destruct (Z.eqb_spec k (i mod 32)); subst; [by rewrite Ht|by rewrite andb_false_r].
Qed.

(** *** Groups *)

Lemma set_multiple_loop_spec n b start i v :
  bm_wf b -> 0 <= start -> 0 <= i -> start + i + Z.of_nat n <= bit_cnt b ->
  exists b', set_multiple_loop n b start i v = Ok b' /\
    bm_fill b (start + i) (Z.of_nat n) v b'.
Proof.
  revert b i. induction n as [|n IH]; intros b i Hb Hs Hi Hn; simpl.
  - exists b. split; [done|]. split_and!; [done..|]. intros j Hj.
    by zcases.
  - pose proof Hb as (Hc & _ & _).
    rewrite u32_small by lia.
    destruct (bitmap_set_spec b (start + i) v) as (b1 & -> & Hb1 & Hc1 & Hg1);
      [done|lia|]. simpl.
    destruct (IH b1 (i + 1)) as (b2 & -> & Hb2 & Hc2 & Hg2); [done|lia..|].
    exists b2. split; [done|]. split_and!; [done|congruence|].
    intros j Hj. rewrite Hg2, Hg1 by done.
    by zcases.
Qed.

Lemma bitmap_set_multiple_spec b start cnt v :
  bm_wf b -> 0 <= start -> 0 <= cnt -> start + cnt <= bit_cnt b ->
  exists b', bitmap_set_multiple b start cnt v = Ok b' /\ bm_fill b start cnt v b'.
Proof.
  intros Hb Hs Hc Hn. pose proof Hb as (Hbc & _ & _). unfold bitmap_set_multiple.
  rewrite bind_ASSERT by (apply Z.leb_le; lia).
  rewrite u32_small, bind_ASSERT by (try apply Z.leb_le; lia).
  destruct (set_multiple_loop_spec (Z.to_nat cnt) b start 0 v) as (b' & ? & Hf);
    [done|lia..|].
  exists b'. split; [done|]. by rewrite Z.add_0_r, Z2Nat.id in Hf by lia.
Qed.

Lemma bitmap_set_all_spec b v :
  bm_wf b ->
  exists b', bitmap_set_all b v = Ok b' /\ bm_wf b' /\ bit_cnt b' = bit_cnt b /\
    bm_group b' 0 (bit_cnt b) v.
Proof.
  intros Hb. pose proof Hb as (Hbc & _ & _).
  destruct (bitmap_set_multiple_spec b 0 (bitmap_size b) v) as (b' & ? & ? & ? & Hg);
    unfold bitmap_size in *; [done|lia..|].
  exists b'. split_and!; [done..|]. intros j Hj. rewrite Hg by lia.
  by zcases.
Qed.

Lemma contains_loop_spec n b start i v :
  bm_wf b -> 0 <= start -> 0 <= i -> start + i + Z.of_nat n <= bit_cnt b ->
  exists r, contains_loop n b start i v = Ok r /\
    (r = true <-> exists j, start + i <= j < start + i + Z.of_nat n /\ bm_get b j = v).
Proof.
  revert i. induction n as [|n IH]; intros i Hb Hs Hi Hn; simpl.
  - exists false. split; [done|]. split; [done|]. intros (j & ? & _). lia.
  - pose proof Hb as (Hc & _ & _). rewrite u32_small, bitmap_test_spec by (try done; lia).
    simpl. destruct (Bool.eqb_spec (bm_get b (start + i)) v) as [He|He].
    + exists true. split; [done|]. split; [|done]. intros _. exists (start + i).
      split; [lia|done].
    + destruct (IH (i + 1)) as (r & -> & Hr); [done|lia..|].
      exists r. split; [done|]. rewrite Hr. split.
      * intros (j & ? & ?). exists j. split; [lia|done].
      * intros (j & ? & Hj). exists j. split; [|done].
        destruct (decide (j = start + i)); [subst; congruence|lia].
Qed.

Lemma bitmap_contains_spec b start cnt v :
  bm_wf b -> 0 <= start -> 0 <= cnt -> start + cnt <= bit_cnt b ->
  exists r, bitmap_contains b start cnt v = Ok r /\
    (r = true <-> exists j, start <= j < start + cnt /\ bm_get b j = v).
Proof.
  intros Hb Hs Hc Hn. pose proof Hb as (Hbc & _ & _). unfold bitmap_contains.
  rewrite bind_ASSERT by (apply Z.leb_le; lia).
  rewrite u32_small, bind_ASSERT by (try apply Z.leb_le; lia).
  destruct (contains_loop_spec (Z.to_nat cnt) b start 0 v) as (r & ? & Hr);
    [done|lia..|].
  exists r. split; [done|]. by rewrite Z.add_0_r, Z2Nat.id in Hr by lia.
Qed.

(** The negated test of [bitmap_scan] and [bitmap_all]. *)
Lemma bitmap_contains_negb b start cnt v :
  bm_wf b -> 0 <= start -> 0 <= cnt -> start + cnt <= bit_cnt b ->
  exists r, bitmap_contains b start cnt (negb v) = Ok r /\
    (r = false <-> bm_group b start cnt v).
Proof.
  intros Hb Hs Hc Hn.
  destruct (bitmap_contains_spec b start cnt (negb v)) as (r & ? & Hr); [done..|].
  exists r. split; [done|]. split.
  - intros -> j Hj. destruct (bm_get b j) eqn:E, v; try done; exfalso;
      (assert (false = true) by (apply Hr; eauto)); done.
  - intros Hg. destruct r; [|done]. destruct Hr as [Hr _].
    destruct Hr as (j & Hj & E); [done|]. rewrite (Hg j Hj) in E. by destruct v.
Qed.

Lemma bitmap_all_spec b start cnt :
  bm_wf b -> 0 <= start -> 0 <= cnt -> start + cnt <= bit_cnt b ->
  exists r, bitmap_all b start cnt = Ok r /\ (r = true <-> bm_group b start cnt true).
Proof.
  intros. destruct (bitmap_contains_negb b start cnt true) as (r & E & Hr); [done..|].
  exists (negb r). unfold bitmap_all. simpl in E. rewrite E. split; [done|].
  rewrite <- Hr. by destruct r.
Qed.

(** *** Counting *)

Fixpoint count_bits (n : nat) (b : bitmap) (start : Z) (v : bool) : Z :=
  match n with
  | O => 0
  | S n => (if Bool.eqb (bm_get b start) v then 1 else 0) + count_bits n b (start + 1) v
  end.

Lemma count_bits_bound n b start v : 0 <= count_bits n b start v <= Z.of_nat n.
Proof.
  revert start. induction n as [|n IH]; intros start; simpl; [lia|].
  specialize (IH (start + 1)). destruct (Bool.eqb _ _); lia.
Qed.

Lemma count_loop_spec n b start i v acc :
  bm_wf b -> 0 <= start -> 0 <= i -> start + i + Z.of_nat n <= bit_cnt b ->
  0 <= acc -> acc + Z.of_nat n < 2 ^ 32 ->
  count_loop n b start i v acc = Ok (acc + count_bits n b (start + i) v).
Proof.
  revert i acc. induction n as [|n IH]; intros i acc Hb Hs Hi Hn Ha Hao; simpl.
  - f_equal. lia.
  - pose proof Hb as (Hc & _ & _). rewrite (u32_small (start + i)), bitmap_test_spec by (try done; lia).
    simpl. rewrite (u32_small (acc + 1)) by lia.
    rewrite IH; try done; try lia; [|destruct (Bool.eqb _ _); lia..].
    f_equal. rewrite Z.add_assoc. destruct (Bool.eqb _ _); lia.
Qed.

Lemma bitmap_count_spec b start cnt v :
  bm_wf b -> 0 <= start -> 0 <= cnt -> start + cnt <= bit_cnt b ->
  bitmap_count b start cnt v = Ok (count_bits (Z.to_nat cnt) b start v).
Proof.
  intros Hb Hs Hc Hn. pose proof Hb as (Hbc & _ & _). unfold bitmap_count.
  rewrite bind_ASSERT by (apply Z.leb_le; lia).
  rewrite u32_small, bind_ASSERT by (try apply Z.leb_le; lia).
  rewrite count_loop_spec by (try done; lia). f_equal. by rewrite Z.add_0_r.
Qed.

(** *** Scanning *)

Lemma scan_loop_spec n b i cnt v :
  bm_wf b -> 0 <= i -> 0 <= cnt -> i + cnt + Z.of_nat n <= bit_cnt b + 1 ->
  exists r, scan_loop n b i cnt v = Ok r /\
    ((r = BITMAP_ERROR /\ forall k, i <= k < i + Z.of_nat n -> ~ bm_group b k cnt v) \/
     (i <= r < i + Z.of_nat n /\ bm_group b r cnt v /\
      forall k, i <= k < r -> ~ bm_group b k cnt v)).
Proof.
  revert i. induction n as [|n IH]; intros i Hb Hi Hc Hn; simpl.
  - exists BITMAP_ERROR. split; [done|]. left. split; [done|]. intros; lia.
  - destruct (bitmap_contains_negb b i cnt v) as (r & -> & Hr); [done|lia..|].
    simpl. destruct r; simpl.
    + assert (~ bm_group b i cnt v) as Hni by (intros Hg; by apply Hr in Hg).
      destruct (IH (i + 1)) as (r & -> & Hcase); [done|lia..|].
      exists r. split; [done|].
      destruct Hcase as [[-> Hno]|(? & ? & Hmin)]; [left|right].
      * split; [done|]. intros k Hk. destruct (decide (k = i)); [by subst|apply Hno; lia].
      * split_and!; [lia|lia|done|]. intros k Hk.
        destruct (decide (k = i)); [by subst|apply Hmin; lia].
    + exists i. split; [done|]. right. split_and!; [lia|lia|by apply Hr|]. intros; lia.
Qed.

(** What [bitmap_scan] promises: the first group at or after [start], or
    [BITMAP_ERROR] when there is none. *)
Definition scan_post (b : bitmap) (start cnt : Z) (v : bool) (r : Z) : Prop :=
  (r = BITMAP_ERROR /\
     forall k, start <= k -> k + cnt <= bit_cnt b -> ~ bm_group b k cnt v) \/
  (r <> BITMAP_ERROR /\ start <= r /\ r + cnt <= bit_cnt b /\ bm_group b r cnt v /\
     forall k, start <= k < r -> ~ bm_group b k cnt v).

Lemma bitmap_scan_total b start cnt v :
  bm_wf b -> bit_cnt b < BITMAP_ERROR -> 0 <= start <= bit_cnt b -> 0 <= cnt ->
  exists r, bitmap_scan b start cnt v = Ok r /\ scan_post b start cnt v r.
Proof.
  intros Hb Hlim Hs Hc. unfold bitmap_scan.
  rewrite bind_ASSERT by (apply Z.leb_le; lia).
  destruct (Z.leb_spec cnt (bit_cnt b)).
  2: { exists BITMAP_ERROR. split; [done|]. left. split; [done|]. intros; lia. }
  destruct (Z.lt_ge_cases (bit_cnt b - cnt) start).
  { exists BITMAP_ERROR. split.
    - by replace (Z.to_nat _) with O by lia.
    - left. split; [done|]. intros; lia. }
  destruct (scan_loop_spec (Z.to_nat (bit_cnt b - cnt - start + 1)) b start cnt v)
    as (r & -> & [[-> Hno]|(? & ? & ?)]); [done|lia..| |].
  - exists BITMAP_ERROR. split; [done|]. left. split; [done|].
    intros k ? ?. apply Hno. lia.
  - exists r. split; [done|]. right. split_and!; try done; try lia.
Qed.

(** What [bitmap_scan_and_flip] leaves behind. *)
Definition flip_post (b : bitmap) (start cnt : Z) (v : bool) (b' : bitmap) (r : Z) : Prop :=
  scan_post b start cnt v r /\
  if r =? BITMAP_ERROR then b' = b else bm_fill b r cnt (negb v) b'.

Lemma bitmap_scan_and_flip_total b start cnt v :
  bm_wf b -> bit_cnt b < BITMAP_ERROR -> 0 <= start <= bit_cnt b -> 0 <= cnt ->
  exists b' r, bitmap_scan_and_flip b start cnt v = Ok (b', r) /\
    flip_post b start cnt v b' r.
Proof.
  intros Hb Hlim Hs Hc. unfold bitmap_scan_and_flip.
  destruct (bitmap_scan_total b start cnt v) as (r & -> & Hp); [done..|]. simpl.
  unfold flip_post. destruct (Z.eqb_spec r BITMAP_ERROR) as [Hr|Hr]; simpl.
  - exists b, r. by rewrite Hr, Z.eqb_refl, <- Hr.
  - destruct Hp as [[]|(? & ? & ? & ? & ?)]; [done|].
    destruct (bitmap_set_multiple_spec b r cnt (negb v)) as (b' & -> & Hf); [done|lia..|].
    exists b', r. split; [done|]. split; [right; auto|].
    by destruct (Z.eqb_spec r BITMAP_ERROR).
Qed.

(** Filling is undone by filling with the old value of a uniform group. *)
Lemma bm_fill_back b start cnt v b1 b2 :
  bm_group b start cnt v -> bm_fill b start cnt (negb v) b1 ->
  bm_fill b1 start cnt v b2 -> forall j, 0 <= j -> bm_get b2 j = bm_get b j.
Proof.
  intros Hg (_ & _ & H1) (_ & _ & H2) j Hj. rewrite H2 by done.
  destruct ((start <=? j) && (j <? start + cnt)) eqn:E.
  - apply andb_true_iff in E as [?%Z.leb_le ?%Z.ltb_lt]. symmetry. apply Hg. lia.
  - rewrite H1 by done. by rewrite E.
Qed.

(** ** Properties *)

(** On a well-formed bitmap every in-range [bitmap_set] succeeds, stays
    well-formed and changes exactly the named bit: afterwards [bitmap_test]
    reads the new value there and the old value everywhere else. *)
Theorem bitmap_set_test b i v :
  bm_wf b -> 0 <= i < bit_cnt b ->
  exists b', bitmap_set b i v = Ok b' /\ bm_wf b' /\
    forall j, 0 <= j < bit_cnt b ->
      bitmap_test b' j = if j =? i then Ok v else bitmap_test b j.
Proof.
  intros Hb Hi. destruct (bitmap_set_spec b i v Hb Hi) as (b' & -> & Hb' & Hc & Hg).
  exists b'. split_and!; [done..|]. intros j Hj.
  rewrite !bitmap_test_spec, Hg by (try done; lia). by destruct (j =? i).
Qed.


Definition demo_bitmap : bitmap := mk_bitmap 40 [0xffffff0f; 0].

Lemma bitmap_set_test_witness :
  exists b', bitmap_set demo_bitmap 33 true = Ok b' /\ bm_wf b' /\
    forall j, 0 <= j < 40 ->
      bitmap_test b' j = if j =? 33 then Ok true else bitmap_test demo_bitmap j.
Proof.
  apply (bitmap_set_test demo_bitmap 33 true).
  - split_and!; simpl; try lia. repeat constructor; lia.
  - simpl; lia.
Defined.

