(* ===== verification/DList.v ===== *)
(** * Doubly linked lists

    Models lib/kernel/list.c at pointer level: a heap of [prev]/[next]
    links, lists with two embedded header elements, and every operation as
    the sequence of link reads and writes the C code performs, with its
    assertions.  The representation predicate [dlist h l xs] says that the
    list at address [l] holds exactly the elements [xs]; each operation is
    shown to refine the corresponding operation on the sequence [xs].  The
    other components of the development model a [struct list] by its
    sequence of entries, on the strength of these theorems. *)

From stdpp Require Import sorting.
From S2P Require Import Prelude Vaddr.

(** ** The heap of links *)

Record heap : Type := mk_heap { h_prev : gmap Z Z; h_next : gmap Z Z }.

Definition rd (m : gmap Z Z) (e : Z) : res Z :=
  match m !! e with Some p => Ok p | None => Fail BadAccess end.

Definition get_prev (h : heap) (e : Z) : res Z := rd (h_prev h) e.
Definition get_next (h : heap) (e : Z) : res Z := rd (h_next h) e.
Definition set_prev (h : heap) (e p : Z) : heap :=
  mk_heap (<[e := p]> (h_prev h)) (h_next h).
Definition set_next (h : heap) (e n : Z) : heap :=
  mk_heap (h_prev h) (<[e := n]> (h_next h)).

(** A [struct list] at [l] starts with its head element; the tail element
    follows it, two pointers further. *)
Definition sizeof_list_elem : Z := 8.
Definition list_head (l : Z) : Z := l.
Definition list_tail (l : Z) : Z := l + sizeof_list_elem.

(** ** Classification of elements *)

Definition is_head (h : heap) (e : Z) : res bool :=
  if e =? NULL then Ok false else
  p ← get_prev h e;
  if negb (p =? NULL) then Ok false else
  n ← get_next h e; Ok (negb (n =? NULL)).

Definition is_interior (h : heap) (e : Z) : res bool :=
  if e =? NULL then Ok false else
  p ← get_prev h e;
  if p =? NULL then Ok false else
  n ← get_next h e; Ok (negb (n =? NULL)).

Definition is_tail (h : heap) (e : Z) : res bool :=
  if e =? NULL then Ok false else
  p ← get_prev h e;
  if p =? NULL then Ok false else
  n ← get_next h e; Ok (n =? NULL).

(** [ASSERT (f (e) || g (e))], evaluated left to right. *)
Definition ASSERT_or (a b : res bool) : res unit :=
  x ← a; if (x : bool) then Ok tt else y ← b; ASSERT y.

(** ** Traversal *)

Definition list_init (h : heap) (l : Z) : res heap :=
  ASSERT (negb (l =? NULL));;
  let h := set_prev h (list_head l) NULL in
  let h := set_next h (list_head l) (list_tail l) in
  let h := set_prev h (list_tail l) (list_head l) in
  Ok (set_next h (list_tail l) NULL).

Definition list_begin (h : heap) (l : Z) : res Z :=
  ASSERT (negb (l =? NULL));; get_next h (list_head l).

Definition list_next (h : heap) (e : Z) : res Z :=
  ASSERT_or (is_head h e) (is_interior h e);; get_next h e.

Definition list_end (l : Z) : res Z :=
  ASSERT (negb (l =? NULL));; Ok (list_tail l).

Definition list_rbegin (h : heap) (l : Z) : res Z :=
  ASSERT (negb (l =? NULL));; get_prev h (list_tail l).

Definition list_prev (h : heap) (e : Z) : res Z :=
  ASSERT_or (is_interior h e) (is_tail h e);; get_prev h e.

Definition list_rend (l : Z) : res Z :=
  ASSERT (negb (l =? NULL));; Ok (list_head l).

(** ** Insertion and removal *)

Definition list_insert (h : heap) (before elem : Z) : res heap :=
  ASSERT_or (is_interior h before) (is_tail h before);;
  ASSERT (negb (elem =? NULL));;
  bp ← get_prev h before;
  let h := set_prev h elem bp in
  let h := set_next h elem before in
  bp ← get_prev h before;
  let h := set_next h bp elem in
  Ok (set_prev h before elem).

Definition list_splice (h : heap) (before first last : Z) : res heap :=
  ASSERT_or (is_interior h before) (is_tail h before);;
  if first =? last then Ok h else
  last ← list_prev h last;
  i ← is_interior h first; ASSERT i;;
  i ← is_interior h last; ASSERT i;;
  (* Cleanly remove FIRST...LAST from its current list. *)
  fp ← get_prev h first;
  ln ← get_next h last;
  let h := set_next h fp ln in
  ln ← get_next h last;
  fp ← get_prev h first;
  let h := set_prev h ln fp in
  (* Splice FIRST...LAST into new list. *)
  bp ← get_prev h before;
  let h := set_prev h first bp in
  let h := set_next h last before in
  bp ← get_prev h before;
  let h := set_next h bp first in
  Ok (set_prev h before last).

Definition list_push_front (h : heap) (l elem : Z) : res heap :=
  b ← list_begin h l; list_insert h b elem.

Definition list_push_back (h : heap) (l elem : Z) : res heap :=
  e ← list_end l; list_insert h e elem.

Definition list_remove (h : heap) (elem : Z) : res (heap * Z) :=
  i ← is_interior h elem; ASSERT i;;
  p ← get_prev h elem;
  n ← get_next h elem;
  let h := set_next h p n in
  n ← get_next h elem;
  p ← get_prev h elem;
  let h := set_prev h n p in
  n ← get_next h elem;
  Ok (h, n).

Definition list_empty (h : heap) (l : Z) : res bool :=
  b ← list_begin h l; e ← list_end l; Ok (b =? e).

Definition list_front (h : heap) (l : Z) : res Z :=
  em ← list_empty h l; ASSERT (negb em);; get_next h (list_head l).

Definition list_back (h : heap) (l : Z) : res Z :=
  em ← list_empty h l; ASSERT (negb em);; get_prev h (list_tail l).

Definition list_pop_front (h : heap) (l : Z) : res (heap * Z) :=
  front ← list_front h l;
  '(h, _) ← list_remove h front;
  Ok (h, front).

Definition list_pop_back (h : heap) (l : Z) : res (heap * Z) :=
  back ← list_back h l;
  '(h, _) ← list_remove h back;
  Ok (h, back).

(** ** Whole-list operations

    Loops over the elements take a fuel that bounds the number of
    iterations; the theorems show that the number of elements (plus one)
    suffices. *)

Fixpoint size_loop (fuel : nat) (h : heap) (e stop cnt : Z) : res Z :=
  match fuel with
  | O => Fail NoFuel
  | S fuel =>
      if e =? stop then Ok cnt else
      e' ← list_next h e; size_loop fuel h e' stop (u32 (cnt + 1))
  end.

Definition list_size (fuel : nat) (h : heap) (l : Z) : res Z :=
  e ← list_begin h l; stop ← list_end l; size_loop fuel h e stop 0.

(** [swap (&e->prev, &e->next)]. *)
Definition swap_links (h : heap) (e : Z) : res heap :=
  p ← get_prev h e; n ← get_next h e;
  Ok (set_next (set_prev h e n) e p).

Fixpoint reverse_loop (fuel : nat) (h : heap) (e stop : Z) : res heap :=
  match fuel with
  | O => Fail NoFuel
  | S fuel =>
      if e =? stop then Ok h else
      h ← swap_links h e;
      e' ← get_prev h e;
      reverse_loop fuel h e' stop
  end.

Definition list_reverse (fuel : nat) (h : heap) (l : Z) : res heap :=
  em ← list_empty h l;
  if (em : bool) then Ok h else
  e ← list_begin h l; stop ← list_end l;
  h ← reverse_loop fuel h e stop;
  (* swap (&list->head.next, &list->tail.prev) *)
  hn ← get_next h (list_head l);
  tp ← get_prev h (list_tail l);
  let h := set_next h (list_head l) tp in
  let h := set_prev h (list_tail l) hn in
  (* swap (&list->head.next->prev, &list->tail.prev->next) *)
  a ← get_next h (list_head l);
  b ← get_prev h (list_tail l);
  ap ← get_prev h a;
  bn ← get_next h b;
  let h := set_prev h a bn in
  Ok (set_next h b ap).

Section ordered.
(** [less a b aux] with its auxiliary data applied. *)
Variable less : Z -> Z -> bool.

Fixpoint is_sorted_loop (fuel : nat) (h : heap) (a b : Z) : res bool :=
match fuel with
| O => Fail NoFuel
| S fuel =>
    a ← list_next h a;
    if a =? b then Ok true else
    p ← list_prev h a;
    if less a p then Ok false else is_sorted_loop fuel h a b
end.

Definition is_sorted (fuel : nat) (h : heap) (a b : Z) : res bool :=
if negb (a =? b) then is_sorted_loop fuel h a b else Ok true.

Fixpoint run_loop (fuel : nat) (h : heap) (a b : Z) : res Z :=
match fuel with
| O => Fail NoFuel
| S fuel =>
    a ← list_next h a;
    if a =? b then Ok a else
    p ← list_prev h a;
    if less a p then Ok a else run_loop fuel h a b
end.

Definition find_end_of_run (fuel : nat) (h : heap) (a b : Z) : res Z :=
ASSERT (negb (a =? NULL));;
ASSERT (negb (b =? NULL));;
ASSERT (negb (a =? b));;
run_loop fuel h a b.

Fixpoint merge_loop (fuel : nat) (h : heap) (a0 a1b0 b1 : Z) : res heap :=
match fuel with
| O => Fail NoFuel
| S fuel =>
    if negb (a0 =? a1b0) && negb (a1b0 =? b1) then
      if negb (less a1b0 a0) then
        a0 ← list_next h a0; merge_loop fuel h a0 a1b0 b1
      else
        a1b0 ← list_next h a1b0;
        p ← list_prev h a1b0;
        h ← list_splice h a0 p a1b0;
        merge_loop fuel h a0 a1b0 b1
    else Ok h
end.

Definition inplace_merge (fuel : nat) (h : heap) (a0 a1b0 b1 : Z) : res heap :=
ASSERT (negb (a0 =? NULL));;
ASSERT (negb (a1b0 =? NULL));;
ASSERT (negb (b1 =? NULL));;
s ← is_sorted fuel h a0 a1b0; ASSERT s;;
s ← is_sorted fuel h a1b0 b1; ASSERT s;;
merge_loop fuel h a0 a1b0 b1.

(** One pass of [list_sort]: the [for] loop from [a0]; returns the heap
  and the number of runs output. *)
Fixpoint sort_pass (fuel : nat) (h : heap) (a0 stop cnt : Z) : res (heap * Z) :=
match fuel with
| O => Fail NoFuel
| S n =>
    if a0 =? stop then Ok (h, cnt) else
    let cnt := u32 (cnt + 1) in
    a1b0 ← find_end_of_run fuel h a0 stop;
    if a1b0 =? stop then Ok (h, cnt) else
    b1 ← find_end_of_run fuel h a1b0 stop;
    h ← inplace_merge fuel h a0 a1b0 b1;
    sort_pass n h b1 stop cnt
end.

Fixpoint sort_loop (passes fuel : nat) (h : heap) (l : Z) : res heap :=
match passes with
| O => Fail NoFuel
| S passes =>
    a0 ← list_begin h l; stop ← list_end l;
    '(h, output_run_cnt) ← sort_pass fuel h a0 stop 0;
    if 1 <? output_run_cnt then sort_loop passes fuel h l else Ok h
end.

Definition list_sort (fuel : nat) (h : heap) (l : Z) : res heap :=
ASSERT (negb (l =? NULL));;
h ← sort_loop fuel fuel h l;
a ← list_begin h l; b ← list_end l;
s ← is_sorted fuel h a b; ASSERT s;;
Ok h.

Fixpoint ordered_loop (fuel : nat) (h : heap) (e stop elem : Z) : res Z :=
match fuel with
| O => Fail NoFuel
| S fuel =>
    if e =? stop then Ok e else
    if less elem e then Ok e else
    e' ← list_next h e; ordered_loop fuel h e' stop elem
end.

Definition list_insert_ordered (fuel : nat) (h : heap) (l elem : Z) : res heap :=
ASSERT (negb (l =? NULL));;
ASSERT (negb (elem =? NULL));;
e ← list_begin h l; stop ← list_end l;
e ← ordered_loop fuel h e stop elem;
list_insert h e elem.

(** [duplicates] is a list address or [NULL]. *)
Fixpoint unique_loop (fuel : nat) (h : heap) (elem stop duplicates : Z) : res heap :=
match fuel with
| O => Fail NoFuel
| S fuel =>
    next ← list_next h elem;
    if next =? stop then Ok h else
    if negb (less elem next) && negb (less next elem) then
      '(h, _) ← list_remove h next;
      h ← (if negb (duplicates =? NULL) then list_push_back h duplicates next else Ok h);
      unique_loop fuel h elem stop duplicates
    else unique_loop fuel h next stop duplicates
end.

Definition list_unique (fuel : nat) (h : heap) (l duplicates : Z) : res heap :=
ASSERT (negb (l =? NULL));;
em ← list_empty h l;
if (em : bool) then Ok h else
elem ← list_begin h l; stop ← list_end l;
unique_loop fuel h elem stop duplicates.

Fixpoint max_loop (fuel : nat) (h : heap) (max e stop : Z) : res Z :=
match fuel with
| O => Fail NoFuel
| S fuel =>
    if e =? stop then Ok max else
    let max := if less max e then e else max in
    e' ← list_next h e; max_loop fuel h max e' stop
end.

Definition list_max (fuel : nat) (h : heap) (l : Z) : res Z :=
max ← list_begin h l; stop ← list_end l;
if negb (max =? stop) then
  e ← list_next h max; max_loop fuel h max e stop
else Ok max.

Fixpoint min_loop (fuel : nat) (h : heap) (min e stop : Z) : res Z :=
match fuel with
| O => Fail NoFuel
| S fuel =>
    if e =? stop then Ok min else
    let min := if less e min then e else min in
    e' ← list_next h e; min_loop fuel h min e' stop
end.

Definition list_min (fuel : nat) (h : heap) (l : Z) : res Z :=
min ← list_begin h l; stop ← list_end l;
if negb (min =? stop) then
  e ← list_next h min; min_loop fuel h min e stop
else Ok min.
End ordered.

(** ** Representation

    [chain h p xs q]: following [next] from [p] visits [xs] and arrives at
    [q], and the [prev] links mirror it. *)

Definition link (h : heap) (a b : Z) : Prop :=
  h_next h !! a = Some b /\ h_prev h !! b = Some a.

Fixpoint chain (h : heap) (p : Z) (xs : list Z) (q : Z) : Prop :=
  match xs with
  | [] => link h p q
  | x :: xs => link h p x /\ chain h x xs q
  end.

Definition nodes (l : Z) (xs : list Z) : list Z := l :: xs ++ [list_tail l].

Definition dlist (h : heap) (l : Z) (xs : list Z) : Prop :=
  NoDup (nodes l xs) /\ Forall (fun a => a <> NULL) (nodes l xs) /\
  h_prev h !! l = Some NULL /\ h_next h !! list_tail l = Some NULL /\
  chain h l xs (list_tail l).

(** [h'] has the links of [h] everywhere except, possibly, on [S]. *)
Definition agree_off (S : list Z) (h h' : heap) : Prop :=
  forall a, a ∉ S ->
    h_prev h' !! a = h_prev h !! a /\ h_next h' !! a = h_next h !! a.

Lemma agree_off_refl S h : agree_off S h h.
Proof. by intros a _. Qed.

Lemma agree_off_trans S h1 h2 h3 :
  agree_off S h1 h2 -> agree_off S h2 h3 -> agree_off S h1 h3.
Proof.
  intros H1 H2 a Ha. destruct (H1 a Ha) as [<- <-]. by apply H2.
Qed.

Lemma agree_off_mono S S' h h' :
  (forall a, a ∈ S -> a ∈ S') -> agree_off S h h' -> agree_off S' h h'.
Proof. intros Hs H a Ha. apply H. eauto. Qed.

Lemma agree_off_perm S S' h h' : S ≡ₚ S' -> agree_off S h h' -> agree_off S' h h'.
Proof. intros Hp. apply agree_off_mono. intros a. by rewrite Hp. Qed.

(** *** Chains *)

Lemma chain_app h p xs y ys q :
  chain h p (xs ++ y :: ys) q <-> chain h p xs y /\ chain h y ys q.
Proof.
  revert p. induction xs as [|x xs IH]; intros p; simpl; [done|].
  rewrite IH. tauto.
Qed.

Lemma chain_snoc h p xs y q :
  chain h p (xs ++ [y]) q <-> chain h p xs y /\ link h y q.
Proof. apply chain_app. Qed.

(** The last element of [xs], or [p] when there is none. *)
Fixpoint lst (p : Z) (xs : list Z) : Z :=
  match xs with [] => p | x :: xs => lst x xs end.

Lemma lst_snoc p xs y : lst p (xs ++ [y]) = y.
Proof. revert p. by induction xs; simpl. Qed.

Lemma lst_app p xs y ys : lst p (xs ++ y :: ys) = lst y ys.
Proof. revert p. by induction xs; simpl. Qed.

Lemma lst_in p xs : lst p xs ∈ p :: xs.
Proof.
  revert p. induction xs as [|x xs IH]; intros p; simpl; [set_solver|].
  specialize (IH x). set_solver.
Qed.

(** The last link of a chain. *)
Lemma chain_last h p xs q : chain h p xs q -> link h (lst p xs) q.
Proof.
  revert p. induction xs as [|x xs IH]; intros p; simpl; [done|].
  intros [_ Hc]. by apply IH in Hc.
Qed.

Lemma chain_first h p xs q : chain h p xs q -> link h p (hd q xs).
Proof. destruct xs; simpl; tauto. Qed.

Lemma chain_ext h h' p xs q :
  (forall a, a ∈ p :: xs -> h_next h' !! a = h_next h !! a) ->
  (forall a, a ∈ xs ++ [q] -> h_prev h' !! a = h_prev h !! a) ->
  chain h p xs q -> chain h' p xs q.
Proof.
  revert p. induction xs as [|x xs IH]; intros p Hn Hp; simpl.
  - intros [H1 H2]. split.
    + rewrite Hn; [done|set_solver].
    + rewrite Hp; [done|set_solver].
  - intros [[H1 H2] Hc]. split; [split|].
    + rewrite Hn; [done|set_solver].
    + rewrite Hp; [done|set_solver].
    + apply IH; [intros a Ha; apply Hn; set_solver|intros a Ha; apply Hp; set_solver|done].
Qed.

Lemma dlist_frame S h h' l xs :
  agree_off S h h' -> (forall a, a ∈ nodes l xs -> a ∉ S) ->
  dlist h l xs -> dlist h' l xs.
Proof.
  intros Ho Hd (Hnd & Hnn & Hp & Hn & Hc). split_and!; [done..| | |].
  - destruct (Ho l) as [-> _]; [|done]. apply Hd. unfold nodes. set_solver.
  - destruct (Ho (list_tail l)) as [_ ->]; [|done]. apply Hd. unfold nodes. set_solver.
  - eapply chain_ext; [..|done]; intros a Ha; apply Ho, Hd; unfold nodes; set_solver.
Qed.

(** *** Reading one element of a represented list *)

Lemma get_prev_eq h e p : h_prev h !! e = Some p -> get_prev h e = Ok p.
Proof. unfold get_prev, rd. by intros ->. Qed.

Lemma get_next_eq h e p : h_next h !! e = Some p -> get_next h e = Ok p.
Proof. unfold get_next, rd. by intros ->. Qed.

Lemma is_interior_true h e p n :
  e <> NULL -> p <> NULL -> n <> NULL ->
  h_prev h !! e = Some p -> h_next h !! e = Some n -> is_interior h e = Ok true.
Proof.
  intros ? ? ? Hp Hn. unfold is_interior.
  rewrite (proj2 (Z.eqb_neq e NULL)), (get_prev_eq _ _ _ Hp) by done. simpl.
  rewrite (proj2 (Z.eqb_neq p NULL)), (get_next_eq _ _ _ Hn) by done. simpl.
  by rewrite (proj2 (Z.eqb_neq n NULL)).
Qed.

Lemma is_interior_false h e p :
  e <> NULL -> p <> NULL ->
  h_prev h !! e = Some p -> h_next h !! e = Some NULL -> is_interior h e = Ok false.
Proof.
  intros ? ? Hp Hn. unfold is_interior.
  rewrite (proj2 (Z.eqb_neq e NULL)), (get_prev_eq _ _ _ Hp) by done. simpl.
  by rewrite (proj2 (Z.eqb_neq p NULL)), (get_next_eq _ _ _ Hn).
Qed.

Lemma is_tail_true h e p :
  e <> NULL -> p <> NULL ->
  h_prev h !! e = Some p -> h_next h !! e = Some NULL -> is_tail h e = Ok true.
Proof.
  intros ? ? Hp Hn. unfold is_tail.
  rewrite (proj2 (Z.eqb_neq e NULL)), (get_prev_eq _ _ _ Hp) by done. simpl.
  by rewrite (proj2 (Z.eqb_neq p NULL)), (get_next_eq _ _ _ Hn).
Qed.

Lemma is_head_true h e n :
  e <> NULL -> n <> NULL ->
  h_prev h !! e = Some NULL -> h_next h !! e = Some n -> is_head h e = Ok true.
Proof.
  intros ? ? Hp Hn. unfold is_head.
  rewrite (proj2 (Z.eqb_neq e NULL)), (get_prev_eq _ _ _ Hp) by done. simpl.
  rewrite (get_next_eq _ _ _ Hn). simpl. by rewrite (proj2 (Z.eqb_neq n NULL)).
Qed.

Lemma is_head_false h e p :
  e <> NULL -> p <> NULL -> h_prev h !! e = Some p -> is_head h e = Ok false.
Proof.
  intros ? ? Hp. unfold is_head.
  rewrite (proj2 (Z.eqb_neq e NULL)), (get_prev_eq _ _ _ Hp) by done. simpl.
  by rewrite (proj2 (Z.eqb_neq p NULL)).
Qed.

Lemma nodes_split l xs ys : nodes l (xs ++ ys) = (l :: xs) ++ (ys ++ [list_tail l]).
Proof. unfold nodes. by rewrite <- app_assoc. Qed.

Lemma nodes_NoDup l xs ys :
  NoDup (nodes l (xs ++ ys)) <->
  NoDup (l :: xs) /\ (forall a, a ∈ l :: xs -> a ∉ ys ++ [list_tail l]) /\
  NoDup (ys ++ [list_tail l]).
Proof. rewrite nodes_split. apply NoDup_app. Qed.

Lemma node_at_right t (ys : list Z) : hd t ys ∈ ys ++ [t].
Proof. destruct ys; simpl; set_solver. Qed.

Lemma elem_of_app_snoc (t : Z) (ys : list Z) : t ∈ ys ++ [t].
Proof. apply elem_of_app. right. constructor. Qed.

Lemma node_at_in l xs ys : hd (list_tail l) ys ∈ nodes l (xs ++ ys).
Proof. rewrite nodes_split, elem_of_app. right. apply node_at_right. Qed.

Lemma node_before_in l xs ys : lst l xs ∈ nodes l (xs ++ ys).
Proof. rewrite nodes_split, elem_of_app. left. apply lst_in. Qed.

Section dlist_lookup.
Context (h : heap) (l : Z) (xs ys : list Z).
Hypothesis Hdl : dlist h l (xs ++ ys).

Lemma dlist_link : link h (lst l xs) (hd (list_tail l) ys).
Proof.
destruct Hdl as (_ & _ & _ & _ & Hc). destruct ys as [|y ys']; simpl.
- rewrite app_nil_r in Hc. by apply chain_last.
- apply chain_app in Hc as [Hc _]. by apply chain_last.
Qed.

Lemma nodes_nonnull a : a ∈ nodes l (xs ++ ys) -> a <> NULL.
Proof. destruct Hdl as (_ & Hnn & _). rewrite Forall_forall in Hnn. apply Hnn. Qed.

(** The node at the split point is an interior element or the tail. *)
Lemma assert_at : ASSERT_or (is_interior h (hd (list_tail l) ys))
                          (is_tail h (hd (list_tail l) ys)) = Ok tt.
Proof.
pose proof dlist_link as [_ Hp].
pose proof (nodes_nonnull _ (node_at_in l xs ys)) as Hat.
pose proof (nodes_nonnull _ (node_before_in l xs ys)) as Hbf.
destruct Hdl as (_ & Hnn & _ & Ht & Hc). destruct ys as [|y ys']; simpl in *.
- unfold ASSERT_or. by rewrite (is_interior_false _ _ _ Hat Hbf Hp Ht),
    (is_tail_true _ _ _ Hat Hbf Hp Ht).
- apply chain_app in Hc as [_ Hc]. apply chain_first in Hc as [Hn _].
  unfold ASSERT_or. rewrite (is_interior_true _ _ _ _ Hat Hbf) with (3 := Hn);
    [done| |done].
  rewrite Forall_forall in Hnn. apply Hnn. unfold nodes.
  destruct ys'; simpl; set_solver.
Qed.

(** [list_next] from the node before the split point arrives at it. *)
Lemma list_next_at : list_next h (lst l xs) = Ok (hd (list_tail l) ys).
Proof.
pose proof dlist_link as [Hn _].
pose proof (nodes_nonnull _ (node_at_in l xs ys)) as Hat.
pose proof (nodes_nonnull _ (node_before_in l xs ys)) as Hbf.
unfold list_next. rewrite (get_next_eq _ _ _ Hn).
assert (ASSERT_or (is_head h (lst l xs)) (is_interior h (lst l xs)) = Ok tt)
  as ->; [|done].
destruct Hdl as (_ & Hnn & Hh & _ & Hc). unfold ASSERT_or.
destruct xs as [|x xs' _] using rev_ind; simpl in *.
- by rewrite (is_head_true _ _ _ Hbf Hat Hh Hn).
- rewrite lst_snoc in *.
  rewrite <- app_assoc in Hc. apply chain_app in Hc as [Hc _].
  apply chain_last in Hc as [_ Hp].
  assert (lst l xs' <> NULL).
  { rewrite Forall_forall in Hnn. apply Hnn. unfold nodes.
    pose proof (lst_in l xs'). set_solver. }
  rewrite (is_head_false _ _ _ Hbf H Hp). simpl.
  by rewrite (is_interior_true _ _ _ _ Hbf H Hat Hp Hn).
Qed.

Lemma list_prev_at : list_prev h (hd (list_tail l) ys) = Ok (lst l xs).
Proof.
unfold list_prev. rewrite assert_at. simpl.
apply get_prev_eq. apply dlist_link.
Qed.
End dlist_lookup.

(** ** Insertion and removal refine sequence insertion and removal *)

Lemma dlist_unfold h l xs :
  dlist h l xs <->
  NoDup (nodes l xs) /\ Forall (fun a => a <> NULL) (nodes l xs) /\
  h_prev h !! l = Some NULL /\ h_next h !! list_tail l = Some NULL /\
  chain h l xs (list_tail l).
Proof. done. Qed.

(** Linking a fresh [e] between the ends of a chain's last link. *)
Lemma chain_insert_last h h' p xs q e :
  NoDup (p :: xs) -> e ∉ p :: xs -> e <> q -> q ∉ p :: xs ->
  chain h p xs q ->
  h_prev h' = <[q := e]> (<[e := lst p xs]> (h_prev h)) ->
  h_next h' = <[lst p xs := e]> (<[e := q]> (h_next h)) ->
  chain h' p (xs ++ [e]) q.
Proof.
  intros Hnd He Heq Hq Hc Hp Hn. apply chain_snoc. split.
  2: { split; rewrite ?Hp, ?Hn; [|by rewrite lookup_insert_eq].
       rewrite lookup_insert_ne, lookup_insert_eq; [done|].
       intros E. apply He. rewrite <- E. apply lst_in. }
  destruct xs as [|x xs _] using rev_ind; simpl in *.
  - split; rewrite ?Hp, ?Hn.
    + by rewrite lookup_insert_eq.
    + rewrite lookup_insert_ne by done. by rewrite lookup_insert_eq.
  - rewrite lst_snoc in *. apply chain_snoc in Hc as [Hc _].
    apply chain_snoc. split.
    + eapply chain_ext; [..|exact Hc]; intros a Ha; rewrite ?Hp, ?Hn.
      * rewrite !lookup_insert_ne; [done| |]; intros ->; [set_solver|].
        rewrite app_comm_cons in Hnd. apply NoDup_app in Hnd. set_solver.
      * rewrite !lookup_insert_ne; [done| |]; intros ->; set_solver.
    + split; rewrite ?Hp, ?Hn.
      * by rewrite lookup_insert_eq.
      * rewrite lookup_insert_ne by done. by rewrite lookup_insert_eq.
Qed.

Lemma nodes_insert l xs e ys : nodes l (xs ++ e :: ys) ≡ₚ e :: nodes l (xs ++ ys).
Proof.
  unfold nodes. rewrite <- !app_assoc. simpl.
  rewrite <- Permutation_middle. by constructor.
Qed.

Lemma NoDup_perm {A} (xs ys : list A) : xs ≡ₚ ys -> NoDup xs <-> NoDup ys.
Proof. intros ->. done. Qed.

Lemma Forall_perm {A} (P : A -> Prop) (xs ys : list A) :
  xs ≡ₚ ys -> Forall P xs <-> Forall P ys.
Proof. intros ->. done. Qed.

(** The part of a list from the node at a split point on. *)
Definition rchain (h : heap) (ys : list Z) (t : Z) : Prop :=
  match ys with [] => True | y :: ys => chain h y ys t end.

Lemma chain_split h p xs ys t :
  chain h p (xs ++ ys) t <-> chain h p xs (hd t ys) /\ rchain h ys t.
Proof.
  destruct ys as [|y ys]; simpl; [|apply chain_app].
  rewrite app_nil_r. tauto.
Qed.

(** The right part survives changes to the [next] links of the left part and
    to the [prev] link of its own first node. *)
Lemma rchain_ext h h' t (ys : list Z) :
  NoDup (ys ++ [t]) ->
  (forall a, a ∈ ys ++ [t] -> h_next h' !! a = h_next h !! a) ->
  (forall a, a ∈ ys ++ [t] -> a <> hd t ys -> h_prev h' !! a = h_prev h !! a) ->
  rchain h ys t -> rchain h' ys t.
Proof.
  intros Hnd Hn Hp. destruct ys as [|y ys]; simpl in *; [done|].
  apply NoDup_cons in Hnd as [Hy _]. intros Hc.
  eapply chain_ext; [..|exact Hc]; intros a Ha; [apply Hn; set_solver|].
  apply Hp; [set_solver|]. intros ->. done.
Qed.

(** [list_insert] before the node at the split point. *)
Lemma list_insert_spec h l xs ys e :
  dlist h l (xs ++ ys) -> e <> NULL -> e ∉ nodes l (xs ++ ys) ->
  exists h', list_insert h (hd (list_tail l) ys) e = Ok h' /\
    dlist h' l (xs ++ e :: ys) /\ agree_off (e :: nodes l (xs ++ ys)) h h'.
Proof.
  intros Hdl He0 He. unfold list_insert. rewrite (assert_at _ _ _ _ Hdl). simpl.
  rewrite bind_ASSERT by (by apply negb_true_iff, Z.eqb_neq).
  pose proof (dlist_link _ _ _ _ Hdl) as [_ Hp].
  rewrite (get_prev_eq _ _ _ Hp). simpl.
  pose proof (node_at_in l xs ys) as Hat. pose proof (node_before_in l xs ys) as Hbf.
  pose proof (node_at_right (list_tail l) ys) as Har. pose proof (lst_in l xs) as Hbl.
  set (q := hd (list_tail l) ys) in *. set (p := lst l xs) in *.
  assert (Hqe : q <> e) by congruence. assert (Hpe : p <> e) by congruence.
  assert (get_prev (set_next (set_prev h e p) e q) q = Ok p) as ->.
  { apply get_prev_eq. simpl. by rewrite lookup_insert_ne. }
  simpl. eexists. split; [done|].
  destruct Hdl as (Hnd & Hnn & Hh & Ht & Hc).
  apply chain_split in Hc as [Hc1 Hc2]. fold q in Hc1.
  pose proof Hnd as (Hndl & Hdis & Hndr)%nodes_NoDup.
  rewrite nodes_split in He. apply not_elem_of_app in He as [Hel Her].
  assert (Hql : q ∉ l :: xs) by (intros Hq; by apply (Hdis q)).
  assert (Hpr : p ∉ ys ++ [list_tail l]) by (by apply Hdis).
  assert (Htr : list_tail l ∈ ys ++ [list_tail l]) by apply elem_of_app_snoc.
  assert (Hll : l ∈ l :: xs) by constructor.
  split; [split_and!|].
  - rewrite (NoDup_perm _ _ (nodes_insert l xs e ys)). constructor; [|done].
    rewrite nodes_split. by apply not_elem_of_app.
  - rewrite (Forall_perm _ _ _ (nodes_insert l xs e ys)). by constructor.
  - simpl. rewrite !lookup_insert_ne by congruence. done.
  - simpl. rewrite !lookup_insert_ne by congruence. done.
  - replace (xs ++ e :: ys) with ((xs ++ [e]) ++ ys) by (by rewrite <- app_assoc).
    apply chain_split. split.
    + eapply chain_insert_last; [..|exact Hc1|done|done]; done.
    + eapply rchain_ext; [done|..|exact Hc2]; simpl; intros a Ha.
      * rewrite !lookup_insert_ne by congruence. done.
      * intros Haq. fold q in Haq. rewrite !lookup_insert_ne by congruence. done.
  - intros a Ha. simpl. rewrite nodes_split in Ha.
    apply not_elem_of_cons in Ha as [Hae Ha]. apply not_elem_of_app in Ha as [Hal Har'].
    rewrite !lookup_insert_ne by congruence. done.
Qed.

(** Linking the ends of a chain around a removed node. *)
Lemma chain_relink_last h h' p xs q q' :
  NoDup (p :: xs) -> q ∉ p :: xs -> q' ∉ p :: xs -> chain h p xs q ->
  h_prev h' = <[q' := lst p xs]> (h_prev h) ->
  h_next h' = <[lst p xs := q']> (h_next h) ->
  chain h' p xs q'.
Proof.
  intros Hnd Hq Hq' Hc Hp Hn. destruct xs as [|x xs _] using rev_ind; simpl in *.
  - split; rewrite ?Hp, ?Hn; by rewrite lookup_insert_eq.
  - rewrite lst_snoc in *. apply chain_snoc in Hc as [Hc _]. apply chain_snoc. split.
    2: { split; rewrite ?Hp, ?Hn; by rewrite lookup_insert_eq. }
    rewrite app_comm_cons in *. apply NoDup_app in Hnd as (_ & Hd & _).
    apply not_elem_of_app in Hq' as [Hq1 Hq2].
    eapply chain_ext; [..|exact Hc]; intros a Ha; rewrite ?Hp, ?Hn.
    + rewrite lookup_insert_ne; [done|]. intros <-. apply (Hd x Ha). constructor.
    + rewrite lookup_insert_ne; [done|]. intros <-.
      apply elem_of_app in Ha as [Ha|Ha]; [|done].
      apply Hq1. by constructor.
Qed.

(** [list_remove] of an interior element; the return value is the node that
    followed it. *)
Lemma list_remove_spec h l xs e ys :
  dlist h l (xs ++ e :: ys) ->
  exists h', list_remove h e = Ok (h', hd (list_tail l) ys) /\
    dlist h' l (xs ++ ys) /\ agree_off (nodes l (xs ++ ys)) h h'.
Proof.
  intros Hdl. pose proof (dlist_link _ _ _ _ Hdl) as [_ Hp]. simpl in Hp.
  assert (Hdl2 : dlist h l ((xs ++ [e]) ++ ys)) by (by rewrite <- app_assoc).
  pose proof (dlist_link _ _ _ _ Hdl2) as [Hn _]. rewrite lst_snoc in Hn.
  pose proof (node_at_right (list_tail l) ys) as Har. pose proof (lst_in l xs) as Hbl.
  set (q := hd (list_tail l) ys) in *. set (p := lst l xs) in *.
  destruct Hdl as (Hnd & Hnn & Hh & Ht & Hc).
  rewrite (Forall_perm _ _ _ (nodes_insert l xs e ys)) in Hnn.
  rewrite (NoDup_perm _ _ (nodes_insert l xs e ys)) in Hnd.
  apply Forall_cons in Hnn as [He0 Hnn]. apply NoDup_cons in Hnd as [He Hnd].
  pose proof Hnn as Hnn'. rewrite nodes_split, Forall_app in Hnn'.
  destruct Hnn' as [Hnl Hnr]. rewrite Forall_forall in Hnl, Hnr.
  pose proof Hnd as (Hndl & Hdis & Hndr)%nodes_NoDup.
  rewrite nodes_split in He. apply not_elem_of_app in He as [Hel Her].
  assert (Hql : q ∉ l :: xs) by (intros Hq; by apply (Hdis q)).
  assert (Hpr : p ∉ ys ++ [list_tail l]) by (by apply Hdis).
  assert (Htr : list_tail l ∈ ys ++ [list_tail l]) by apply elem_of_app_snoc.
  assert (Hll : l ∈ l :: xs) by constructor.
  unfold list_remove.
  rewrite (is_interior_true _ _ _ _ He0 (Hnl _ Hbl) (Hnr _ Har) Hp Hn). simpl.
  rewrite (get_prev_eq _ _ _ Hp), (get_next_eq _ _ _ Hn). simpl.
  assert (get_next (set_next h p q) e = Ok q) as ->.
  { apply get_next_eq. simpl. by rewrite lookup_insert_ne by congruence. }
  simpl. assert (get_prev (set_next h p q) e = Ok p) as -> by (by apply get_prev_eq).
  simpl. assert (get_next (set_prev (set_next h p q) q p) e = Ok q) as ->.
  { apply get_next_eq. simpl. by rewrite lookup_insert_ne by congruence. }
  simpl. eexists. split; [done|]. split; [split_and!|]; try done.
  - simpl. by rewrite lookup_insert_ne by congruence.
  - simpl. by rewrite lookup_insert_ne by congruence.
  - apply chain_app in Hc as [Hc1 Hc2]. apply chain_split. split.
    + eapply chain_relink_last; [..|exact Hc1|done|done]; done.
    + assert (rchain h ys (list_tail l)) as Hr
        by (destruct ys; [done|by destruct Hc2]).
      eapply rchain_ext; [done|..|exact Hr]; simpl; intros a Ha.
      * by rewrite lookup_insert_ne by congruence.
      * intros Haq. fold q in Haq. by rewrite lookup_insert_ne by congruence.
  - intros a Ha. simpl. rewrite nodes_split in Ha.
    apply not_elem_of_app in Ha as [Hal Har'].
    by rewrite !lookup_insert_ne by congruence.
Qed.

(** *** The derived operations *)

Lemma list_nonnull h l xs : dlist h l xs -> negb (l =? NULL) = true.
Proof.
  intros (_ & Hnn & _). apply negb_true_iff, Z.eqb_neq.
  rewrite Forall_forall in Hnn. apply Hnn. constructor.
Qed.

Lemma list_init_spec h l :
  l <> NULL -> list_tail l <> NULL ->
  exists h', list_init h l = Ok h' /\ dlist h' l [] /\
    agree_off [l; list_tail l] h h'.
Proof.
  intros Hl Ht. unfold list_init.
  rewrite bind_ASSERT by (by apply negb_true_iff, Z.eqb_neq).
  assert (Hne : l <> list_tail l) by (unfold list_tail, sizeof_list_elem; lia).
  eexists. split; [done|]. unfold list_head. split; [split_and!|].
  - unfold nodes. simpl. repeat constructor; set_solver.
  - unfold nodes. simpl. by repeat constructor.
  - simpl. by rewrite lookup_insert_ne, lookup_insert_eq.
  - simpl. by rewrite lookup_insert_eq.
  - simpl. split; simpl; [rewrite lookup_insert_ne by done|]; by rewrite lookup_insert_eq.
  - intros a Ha. simpl. apply not_elem_of_cons in Ha as [? Ha].
    apply not_elem_of_cons in Ha as [? _]. by rewrite !lookup_insert_ne by congruence.
Qed.

Lemma list_begin_spec h l xs :
  dlist h l xs -> list_begin h l = Ok (hd (list_tail l) xs).
Proof.
  intros Hd. unfold list_begin. rewrite bind_ASSERT by (by eapply list_nonnull).
  apply get_next_eq. by apply (dlist_link h l [] xs Hd).
Qed.

Lemma list_end_spec h l xs : dlist h l xs -> list_end l = Ok (list_tail l).
Proof.
  intros Hd. unfold list_end. by rewrite bind_ASSERT by (by eapply list_nonnull).
Qed.

(** The node at a split point is the end marker exactly when nothing is left. *)
Lemma at_end h l xs ys :
  dlist h l (xs ++ ys) ->
  (hd (list_tail l) ys =? list_tail l) = match ys with [] => true | _ => false end.
Proof.
  intros (Hnd & _). apply nodes_NoDup in Hnd as (_ & _ & Hnd).
  destruct ys as [|y ys]; simpl; [apply Z.eqb_refl|].
  apply Z.eqb_neq. intros ->. apply NoDup_cons in Hnd as [Hn _].
  apply Hn, elem_of_app_snoc.
Qed.

Lemma list_empty_spec h l xs :
  dlist h l xs -> list_empty h l = Ok (match xs with [] => true | _ => false end).
Proof.
  intros Hd. unfold list_empty.
  rewrite (list_begin_spec _ _ _ Hd), (list_end_spec _ _ _ Hd). simpl.
  f_equal. by apply (at_end h l []).
Qed.

Lemma list_push_front_spec h l xs e :
  dlist h l xs -> e <> NULL -> e ∉ nodes l xs ->
  exists h', list_push_front h l e = Ok h' /\ dlist h' l (e :: xs) /\
    agree_off (e :: nodes l xs) h h'.
Proof.
  intros Hd He0 He. unfold list_push_front. rewrite (list_begin_spec _ _ _ Hd). simpl.
  by apply (list_insert_spec h l [] xs).
Qed.

Lemma list_push_back_spec h l xs e :
  dlist h l xs -> e <> NULL -> e ∉ nodes l xs ->
  exists h', list_push_back h l e = Ok h' /\ dlist h' l (xs ++ [e]) /\
    agree_off (e :: nodes l xs) h h'.
Proof.
  intros Hd He0 He. unfold list_push_back. rewrite (list_end_spec _ _ _ Hd). simpl.
  pose proof (list_insert_spec h l xs [] e) as Hi. rewrite !app_nil_r in Hi.
  by apply Hi.
Qed.

Lemma list_pop_front_spec h l x xs :
  dlist h l (x :: xs) ->
  exists h', list_pop_front h l = Ok (h', x) /\ dlist h' l xs /\
    agree_off (nodes l xs) h h'.
Proof.
  intros Hd. unfold list_pop_front, list_front.
  rewrite (list_empty_spec _ _ _ Hd). simpl.
  pose proof (dlist_link h l [] (x :: xs) Hd) as [Hn _]. simpl in Hn.
  unfold list_head. rewrite (get_next_eq _ _ _ Hn). simpl.
  destruct (list_remove_spec h l [] x xs Hd) as (h' & -> & ?). simpl. eauto.
Qed.

Lemma list_pop_back_spec h l xs x :
  dlist h l (xs ++ [x]) ->
  exists h', list_pop_back h l = Ok (h', x) /\ dlist h' l xs /\
    agree_off (nodes l xs) h h'.
Proof.
  intros Hd. unfold list_pop_back, list_back.
  rewrite (list_empty_spec _ _ _ Hd).
  assert (match xs ++ [x] with [] => true | _ => false end = false) as ->
    by (by destruct xs).
  simpl.
  assert (Hd' : dlist h l ((xs ++ [x]) ++ [])) by (by rewrite app_nil_r).
  pose proof (dlist_link h l _ [] Hd') as [_ Hp]. simpl in Hp. rewrite lst_snoc in Hp.
  rewrite (get_prev_eq _ _ _ Hp). simpl.
  destruct (list_remove_spec h l xs x [] Hd) as (h' & -> & Hd2 & Ho). simpl.
  rewrite app_nil_r in *. eauto.
Qed.

(** *** Traversal *)

(** The step [e = list_next (e)] of a [for] loop over a represented list. *)
Lemma list_next_cons h l xs y ys :
  dlist h l (xs ++ y :: ys) ->
  list_next h y = Ok (hd (list_tail l) ys) /\ (y =? list_tail l) = false.
Proof.
  intros Hd. split; [|by apply (at_end _ _ _ _ Hd)].
  assert (Hd' : dlist h l ((xs ++ [y]) ++ ys)) by (by rewrite <- app_assoc).
  pose proof (list_next_at _ _ _ _ Hd') as Hn. by rewrite lst_snoc in Hn.
Qed.

Lemma size_loop_spec fuel h l xs ys cnt :
  dlist h l (xs ++ ys) -> (length ys < fuel)%nat ->
  0 <= cnt -> cnt + Z.of_nat (length ys) < 2 ^ 32 ->
  size_loop fuel h (hd (list_tail l) ys) (list_tail l) cnt =
    Ok (cnt + Z.of_nat (length ys)).
Proof.
  revert xs ys cnt. induction fuel as [|fuel IH]; intros xs ys cnt Hd Hf Hc Ho; [lia|].
  destruct ys as [|y ys]; simpl in *.
  - rewrite Z.eqb_refl. f_equal. lia.
  - destruct (list_next_cons _ _ _ _ _ Hd) as [Hn ->]. rewrite Hn. simpl.
    rewrite u32_small by lia.
    rewrite (IH (xs ++ [y]) ys); [f_equal; lia|by rewrite <- app_assoc|lia..].
Qed.
