(* ===== verification/DListAlgo.v ===== *)
(** * Whole-list algorithms of lib/kernel/list.c

    Specifications of the operations of [DList] that walk or reorder a whole
    list: splicing, reversal, ordered insertion, minimum and maximum,
    duplicate removal and the natural merge sort.  Each is shown to return
    within a fuel given by the number of elements and to refine a function
    on the sequence of elements. *)

From S2P Require Import Prelude Vaddr DList.

(** ** Splicing

    Moving the single element [e] is removing it and inserting it again; this
    is the only way the kernel uses [list_splice] ([inplace_merge]). *)

Lemma list_splice_single h h1 h2 before e n n' :
  e <> n -> list_prev h n = Ok e -> is_interior h e = Ok true ->
  ASSERT_or (is_interior h before) (is_tail h before) = Ok tt ->
  list_remove h e = Ok (h1, n') -> list_insert h1 before e = Ok h2 ->
  list_splice h before e n = Ok h2.
Proof.
  intros Hne Hp Hi Hb Hr Hs. unfold list_splice. rewrite Hb. simpl.
  rewrite (proj2 (Z.eqb_neq e n)) by done. rewrite Hp. simpl. rewrite Hi. simpl.
  unfold list_remove in Hr. rewrite Hi in Hr. simpl in Hr.
  destruct (get_prev h e) as [fp|]; simpl in *; [|done].
  destruct (get_next h e) as [ln|]; simpl in *; [|done].
  destruct (get_next (set_next h fp ln) e) as [ln'|]; simpl in *; [|done].
  destruct (get_prev (set_next h fp ln) e) as [fp'|]; simpl in *; [|done].
  destruct (get_next (set_prev (set_next h fp ln) ln' fp') e); simpl in *; [|done].
  injection Hr as <- <-. unfold list_insert in Hs.
  apply bind_Ok in Hs as (? & _ & Hs). apply bind_Ok in Hs as (? & _ & Hs).
  exact Hs.
Qed.

(** Moving [e] from its place to just before the earlier node [y]. *)
Lemma list_splice_forward h l xs y ys e ws :
  dlist h l (xs ++ y :: ys ++ e :: ws) ->
  exists h', list_splice h y e (hd (list_tail l) ws) = Ok h' /\
    dlist h' l (xs ++ e :: y :: ys ++ ws) /\
    agree_off (nodes l (xs ++ y :: ys ++ e :: ws)) h h'.
Proof.
  intros Hd.
  assert (Hd1 : dlist h l ((xs ++ y :: ys) ++ e :: ws)) by (by rewrite <- app_assoc).
  assert (Hd2 : dlist h l ((xs ++ y :: ys ++ [e]) ++ ws))
    by (rewrite <- app_assoc; simpl; by rewrite <- app_assoc).
  destruct (list_remove_spec h l (xs ++ y :: ys) e ws Hd1) as (h1 & Hr & Hdr & Ho1).
  rewrite <- app_assoc in Hdr, Ho1. simpl in Hdr, Ho1.
  pose proof (nodes_insert l (xs ++ y :: ys) e ws) as Hperm.
  rewrite <- !app_assoc in Hperm. simpl in Hperm.
  pose proof Hd as (Hnd & Hnn & _).
  rewrite (NoDup_perm _ _ Hperm) in Hnd. rewrite (Forall_perm _ _ _ Hperm) in Hnn.
  apply NoDup_cons in Hnd as [Hin _]. apply Forall_cons in Hnn as [He _].
  destruct (list_insert_spec h1 l xs (y :: ys ++ ws) e Hdr He Hin) as (h2 & Hi & Hdi & Ho2).
  simpl in Hi. exists h2. split_and!.
  - eapply list_splice_single; [..|exact Hr|exact Hi].
    + destruct Hd1 as (Hnd & _). apply nodes_NoDup in Hnd as (_ & _ & Hnd).
      apply NoDup_cons in Hnd as [Hx _]. intros E. apply Hx. rewrite E.
      apply node_at_right.
    + pose proof (list_prev_at _ _ _ _ Hd2) as Hp. simpl in Hp.
      by rewrite app_comm_cons, app_assoc, lst_snoc in Hp.
    + unfold list_remove in Hr. destruct (is_interior h e) as [[]|]; done.
    + exact (assert_at h l xs (y :: ys ++ e :: ws) Hd).
  - done.
  - eapply agree_off_perm; [symmetry; exact Hperm|].
    eapply agree_off_trans; [|exact Ho2].
    eapply agree_off_mono; [|exact Ho1]. intros a Ha. by constructor.
Qed.

(** ** Ordered insertion *)

Section ordered.
Context (less : Z -> Z -> bool).

Lemma ordered_loop_spec fuel h l xs ys e :
dlist h l (xs ++ ys) -> (length ys < fuel)%nat ->
exists ys1 ys2, ys = ys1 ++ ys2 /\ insert_seq less e ys = ys1 ++ e :: ys2 /\
  ordered_loop less fuel h (hd (list_tail l) ys) (list_tail l) e =
    Ok (hd (list_tail l) ys2).
Proof.
revert xs ys. induction fuel as [|fuel IH]; intros xs ys Hd Hf; [lia|].
destruct ys as [|y ys]; simpl in *.
- exists [], []. by rewrite Z.eqb_refl.
- destruct (list_next_cons _ _ _ _ _ Hd) as [Hn ->]. destruct (less e y).
  + by exists [], (y :: ys).
  + rewrite Hn. simpl.
    destruct (IH (xs ++ [y]) ys) as (ys1 & ys2 & -> & -> & ->);
      [by rewrite <- app_assoc|lia|].
    by exists (y :: ys1), ys2.
Qed.

Lemma list_insert_ordered_spec fuel h l xs e :
dlist h l xs -> e <> NULL -> e ∉ nodes l xs -> (length xs < fuel)%nat ->
exists h', list_insert_ordered less fuel h l e = Ok h' /\
  dlist h' l (insert_seq less e xs) /\ agree_off (e :: nodes l xs) h h'.
Proof.
intros Hd He0 He Hf. unfold list_insert_ordered.
rewrite bind_ASSERT by (by eapply list_nonnull).
rewrite bind_ASSERT by (by apply negb_true_iff, Z.eqb_neq).
rewrite (list_begin_spec _ _ _ Hd), (list_end_spec _ _ _ Hd). simpl.
destruct (ordered_loop_spec fuel h l [] xs e Hd Hf) as (ys1 & ys2 & -> & -> & ->).
simpl. by apply list_insert_spec.
Qed.

(** ** Extremal elements *)

Definition max_seq (m : Z) (ys : list Z) : Z :=
foldl (fun m e => if less m e then e else m) m ys.
Definition min_seq (m : Z) (ys : list Z) : Z :=
foldl (fun m e => if less e m then e else m) m ys.

Lemma max_loop_spec fuel h l xs ys m :
dlist h l (xs ++ ys) -> (length ys < fuel)%nat ->
max_loop less fuel h m (hd (list_tail l) ys) (list_tail l) = Ok (max_seq m ys).
Proof.
revert xs ys m. induction fuel as [|fuel IH]; intros xs ys m Hd Hf; [lia|].
destruct ys as [|y ys]; simpl in *; [by rewrite Z.eqb_refl|].
destruct (list_next_cons _ _ _ _ _ Hd) as [-> ->]. simpl.
apply (IH (xs ++ [y])); [by rewrite <- app_assoc|lia].
Qed.

Lemma min_loop_spec fuel h l xs ys m :
dlist h l (xs ++ ys) -> (length ys < fuel)%nat ->
min_loop less fuel h m (hd (list_tail l) ys) (list_tail l) = Ok (min_seq m ys).
Proof.
revert xs ys m. induction fuel as [|fuel IH]; intros xs ys m Hd Hf; [lia|].
destruct ys as [|y ys]; simpl in *; [by rewrite Z.eqb_refl|].
destruct (list_next_cons _ _ _ _ _ Hd) as [-> ->]. simpl.
apply (IH (xs ++ [y])); [by rewrite <- app_assoc|lia].
Qed.

Lemma list_max_spec fuel h l xs :
dlist h l xs -> (length xs < fuel)%nat ->
list_max less fuel h l =
  Ok (match xs with [] => list_tail l | x :: ys => max_seq x ys end).
Proof.
intros Hd Hf. unfold list_max.
rewrite (list_begin_spec _ _ _ Hd), (list_end_spec _ _ _ Hd). simpl.
rewrite (at_end h l [] xs Hd). destruct xs as [|x xs]; simpl; [done|].
destruct (list_next_cons h l [] x xs Hd) as [-> _]. simpl in *.
apply (max_loop_spec fuel h l [x] xs); [done|lia].
Qed.

Lemma list_min_spec fuel h l xs :
dlist h l xs -> (length xs < fuel)%nat ->
list_min less fuel h l =
  Ok (match xs with [] => list_tail l | x :: ys => min_seq x ys end).
Proof.
intros Hd Hf. unfold list_min.
rewrite (list_begin_spec _ _ _ Hd), (list_end_spec _ _ _ Hd). simpl.
rewrite (at_end h l [] xs Hd). destruct xs as [|x xs]; simpl; [done|].
destruct (list_next_cons h l [] x xs Hd) as [-> _]. simpl in *.
apply (min_loop_spec fuel h l [x] xs); [done|lia].
Qed.
End ordered.

(** ** Reversal *)

(** Consecutive nodes of [ns] are linked. *)
Fixpoint links (h : heap) (ns : list Z) : Prop :=
  match ns with
  | [] => True
  | a :: ns => match ns with [] => True | b :: _ => link h a b end /\ links h ns
  end.

Lemma chain_links h p xs q : chain h p xs q <-> links h (p :: xs ++ [q]).
Proof.
  revert p. induction xs as [|x xs IH]; intros p; simpl; [tauto|].
  rewrite IH. simpl. tauto.
Qed.

Lemma links_ext h h' ns :
  (forall a, a ∈ ns -> h_prev h' !! a = h_prev h !! a /\ h_next h' !! a = h_next h !! a) ->
  links h ns -> links h' ns.
Proof.
  induction ns as [|a ns IH]; simpl; [done|]. intros He [Hl Hs]. split.
  - destruct ns as [|b ns]; [done|]. destruct Hl as [H1 H2].
    destruct (He a) as [_ E1]; [constructor|].
    destruct (He b) as [E2 _]; [do 2 constructor|]. split; congruence.
  - apply IH; [|done]. intros b Hb. apply He. by constructor.
Qed.

Lemma links_snoc h ns a b : links h (ns ++ [a]) -> link h a b -> links h (ns ++ [a; b]).
Proof.
  induction ns as [|n ns IH]; simpl; [tauto|]. intros [H1 H2] Hl. split; [|by apply IH].
  by destruct ns.
Qed.

Lemma swap_links_spec h e p n :
  h_prev h !! e = Some p -> h_next h !! e = Some n ->
  swap_links h e = Ok (set_next (set_prev h e n) e p).
Proof.
  intros Hp Hn. unfold swap_links.
  by rewrite (get_prev_eq _ _ _ Hp), (get_next_eq _ _ _ Hn).
Qed.

(** State of the reversal loop after the elements [us] of [us ++ vs]: the
    processed elements are linked backwards, the first one points on to the
    head, the last one back to the next element to process, and every other
    node is as in [h0]. *)
Record rev_inv (h0 h : heap) (l : Z) (us vs : list Z) : Prop := {
  ri_links : links h (reverse us);
  ri_first : us <> [] -> h_next h !! hd l us = Some l;
  ri_last : us <> [] -> h_prev h !! lst l us = Some (hd (list_tail l) vs);
  ri_rest : agree_off us h0 h;
}.

Lemma hd_app_ne {A} (d : A) us vs : us <> [] -> hd d (us ++ vs) = hd d us.
Proof. by destruct us. Qed.

Lemma reverse_cons_hd l us : us <> [] -> exists rs, reverse us = lst l us :: rs.
Proof.
  destruct us as [|u us _] using rev_ind; [done|]. intros _.
  rewrite reverse_snoc, lst_snoc. eauto.
Qed.

Lemma rev_inv_step h0 h l us v vs :
  dlist h0 l (us ++ v :: vs) -> rev_inv h0 h l us (v :: vs) ->
  exists h', swap_links h v = Ok h' /\
    get_prev h' v = Ok (hd (list_tail l) vs) /\ rev_inv h0 h' l (us ++ [v]) vs.
Proof.
  intros Hd [Hl Hf Hla Hr].
  pose proof (dlist_link _ _ _ _ Hd) as [_ Hp]. simpl in Hp.
  assert (Hd2 : dlist h0 l ((us ++ [v]) ++ vs)) by (by rewrite <- app_assoc).
  pose proof (dlist_link _ _ _ _ Hd2) as [Hn _]. rewrite lst_snoc in Hn.
  destruct Hd as (Hnd & _). apply nodes_NoDup in Hnd as (Hnd & Hdis & _).
  assert (Hv : v ∉ us).
  { intros Hv. apply (Hdis v); [by constructor|]. apply elem_of_app. left. constructor. }
  destruct (Hr v Hv) as [E1 E2]. rewrite Hp in E1. rewrite Hn in E2.
  rewrite (swap_links_spec _ _ _ _ E1 E2). eexists. split; [done|]. split.
  { apply get_prev_eq. simpl. by rewrite lookup_insert_eq. }
  assert (Hag : agree_off [v] h (set_next (set_prev h v (hd (list_tail l) vs)) v (lst l us))).
  { intros a Ha. apply not_elem_of_cons in Ha as [Ha _]. simpl.
    by rewrite !lookup_insert_ne by congruence. }
  split.
  - rewrite reverse_snoc. simpl. split.
    + destruct (decide (us = [])) as [->|Hne]; [done|].
      destruct (reverse_cons_hd l us Hne) as (rs & Hrs). rewrite Hrs.
      split; simpl; [by rewrite lookup_insert_eq|].
      rewrite lookup_insert_ne; [by apply Hla|]. intros ->.
      apply Hv. rewrite <- elem_of_reverse, Hrs. constructor.
    + eapply links_ext; [|exact Hl]. intros a Ha. apply Hag.
      apply not_elem_of_cons. split; [|by apply not_elem_of_nil].
      intros ->. apply Hv. by apply elem_of_reverse.
  - intros _. destruct us as [|u us]; simpl in *; [by rewrite lookup_insert_eq|].
    rewrite lookup_insert_ne; [by apply Hf|]. intros ->. apply Hv. constructor.
  - intros _. rewrite lst_snoc. simpl. by rewrite lookup_insert_eq.
  - eapply agree_off_trans; [eapply agree_off_mono; [|exact Hr]|
      eapply agree_off_mono; [|exact Hag]]; intros a Ha; apply elem_of_app; auto.
Qed.

Lemma reverse_loop_spec fuel h0 h l us vs :
  dlist h0 l (us ++ vs) -> rev_inv h0 h l us vs -> (length vs < fuel)%nat ->
  exists h', reverse_loop fuel h (hd (list_tail l) vs) (list_tail l) = Ok h' /\
    rev_inv h0 h' l (us ++ vs) [].
Proof.
  revert h us vs. induction fuel as [|fuel IH]; intros h us vs Hd Hi Hf; [lia|].
  simpl. rewrite (at_end _ _ _ _ Hd). destruct vs as [|v vs]; simpl in *.
  - exists h. by rewrite app_nil_r.
  - destruct (rev_inv_step _ _ _ _ _ _ Hd Hi) as (h1 & -> & E & Hi1). simpl.
    rewrite E. simpl. destruct (IH h1 (us ++ [v]) vs) as (h2 & -> & Hi2);
      [by rewrite <- app_assoc|done|lia|].
    exists h2. split; [done|]. by rewrite <- app_assoc in Hi2.
Qed.

Lemma reverse_ends l (x : Z) xs :
  exists rs, reverse (x :: xs) = lst l (x :: xs) :: rs /\
    (rs = [] /\ xs = [] \/ exists rs', rs = rs' ++ [x]).
Proof.
  destruct xs as [|y ys _] using rev_ind.
  - exists []. auto.
  - exists (reverse ys ++ [x]). split; [|eauto].
    rewrite app_comm_cons, reverse_snoc, lst_snoc. by rewrite reverse_cons.
Qed.

(** The four final assignments reconnect the headers. *)
Lemma reverse_finish h0 h1 l x xs :
  dlist h0 l (x :: xs) -> rev_inv h0 h1 l (x :: xs) [] ->
  let z := lst l (x :: xs) in
  let h2 := set_prev (set_next h1 l z) (list_tail l) x in
  dlist (set_next (set_prev h2 z l) x (list_tail l)) l (reverse (x :: xs)).
Proof.
  intros Hd [Hl Hf Hla Hr] z h2. pose proof Hd as (Hnd & Hnn & Hh & Ht & _).
  pose proof (nodes_NoDup l (x :: xs) []) as Hs. rewrite app_nil_r in Hs.
  apply Hs in Hnd as Hnd'. destruct Hnd' as (Hndl & Hdis & _). clear Hs.
  assert (Hlx : l ∉ x :: xs) by (by apply NoDup_cons in Hndl as [? _]).
  assert (Htx : list_tail l ∉ l :: x :: xs).
  { intros H. apply (Hdis _ H). simpl. constructor. }
  assert (Hzin : z ∈ x :: xs) by (subst z; simpl; apply lst_in).
  apply not_elem_of_cons in Htx as [Htl Htx].
  assert (Hxin : x ∈ x :: xs) by constructor.
  destruct (Hr l Hlx) as [Hlp Hln]. destruct (Hr _ Htx) as [Htp Htn].
  assert (Hp : nodes l (reverse (x :: xs)) ≡ₚ nodes l (x :: xs))
    by (unfold nodes; constructor; by rewrite reverse_Permutation).
  split_and!.
  - by rewrite (NoDup_perm _ _ Hp).
  - by rewrite (Forall_perm _ _ _ Hp).
  - simpl. rewrite !lookup_insert_ne by congruence. by rewrite Hlp.
  - simpl. rewrite !lookup_insert_ne by congruence. by rewrite Htn.
  - destruct (reverse_ends l x xs) as (rs & Hrs & Hcase).
    fold z in Hrs. rewrite Hrs in Hl |- *.
    assert (Hndr : NoDup (z :: rs)).
    { rewrite <- Hrs. rewrite (NoDup_perm _ _ (reverse_Permutation (x :: xs))).
      by apply NoDup_cons in Hndl as [_ ?]. }
    simpl. split; [split; simpl|].
    + rewrite lookup_insert_ne by congruence. by rewrite lookup_insert_eq.
    + by rewrite lookup_insert_eq.
    + destruct Hcase as [[-> ->]|[rs' ->]].
      * subst z. simpl. split; simpl; [by rewrite lookup_insert_eq|].
        rewrite lookup_insert_ne by congruence. by rewrite lookup_insert_eq.
      * apply chain_snoc. split.
        2: { split; simpl; [by rewrite lookup_insert_eq|].
             rewrite lookup_insert_ne by congruence. by rewrite lookup_insert_eq. }
        apply chain_links in Hl. apply NoDup_cons in Hndr as [Hz Hndr'].
        assert (Hsub : forall a, a ∈ z :: rs' ++ [x] -> a ∈ x :: xs).
        { intros a Ha. rewrite <- Hrs in Ha. by rewrite elem_of_reverse in Ha. }
        apply NoDup_app in Hndr' as (_ & Hx & _).
        eapply chain_ext; [..|exact Hl]; intros a Ha; simpl.
        -- rewrite !lookup_insert_ne; [done| |].
           ++ intros <-. apply Hlx, Hsub. rewrite elem_of_cons in *.
              rewrite elem_of_app. tauto.
           ++ intros <-. apply elem_of_cons in Ha as [Ha|Ha].
              ** apply Hz. rewrite <- Ha. apply elem_of_app_snoc.
              ** apply (Hx x Ha). constructor.
        -- rewrite !lookup_insert_ne; [done| |].
           ++ intros <-. apply Htx, Hsub. by constructor.
           ++ intros <-. done.
Qed.

Lemma list_reverse_spec fuel h l xs :
  dlist h l xs -> (length xs < fuel)%nat ->
  exists h', list_reverse fuel h l = Ok h' /\ dlist h' l (reverse xs) /\
    agree_off (nodes l xs) h h'.
Proof.
  intros Hd Hf. unfold list_reverse. rewrite (list_empty_spec _ _ _ Hd). simpl.
  destruct xs as [|x xs].
  { exists h. split_and!; [done|done|apply agree_off_refl]. }
  rewrite (list_begin_spec _ _ _ Hd), (list_end_spec _ _ _ Hd). cbn [mbind res_bind].
  destruct (reverse_loop_spec fuel h h l [] (x :: xs)) as (h1 & -> & Hi);
    [done|split; try done; apply agree_off_refl|done|]. cbn [mbind res_bind app] in *.
  pose proof (reverse_finish _ _ _ _ _ Hd Hi) as Hfin. cbv zeta in Hfin.
  destruct Hi as [_ Hfst Hlast Hr].
  specialize (Hfst ltac:(done)). specialize (Hlast ltac:(done)). cbn [hd] in *.
  pose proof (dlist_link h l [] (x :: xs) Hd) as [Hn _]. cbn [hd lst] in Hn.
  assert (Hd0 : dlist h l ((x :: xs) ++ [])) by (by rewrite app_nil_r).
  pose proof (dlist_link h l (x :: xs) [] Hd0) as [_ Hp]. cbn [hd] in Hp.
  set (z := lst l (x :: xs)) in *.
  pose proof Hd as (Hnd & _).
  pose proof (proj1 (nodes_NoDup l (x :: xs) []) ltac:(by rewrite app_nil_r)) as (Hl & Hdis & _).
  assert (Hlx : l ∉ x :: xs) by (by apply NoDup_cons in Hl as [? _]).
  assert (Htx : list_tail l ∉ l :: x :: xs).
  { intros H. apply (Hdis _ H). simpl. constructor. }
  apply not_elem_of_cons in Htx as [Htl Htx].
  assert (Hzin : z ∈ x :: xs) by (subst z; simpl; apply lst_in).
  assert (Hxin : x ∈ x :: xs) by constructor.
  destruct (Hr l Hlx) as [_ Eln]. destruct (Hr _ Htx) as [Etp _].
  rewrite Hn in Eln. rewrite Hp in Etp. unfold list_head.
  rewrite (get_next_eq _ _ _ Eln), (get_prev_eq _ _ _ Etp). cbn [mbind res_bind].
  rewrite (get_next_eq _ l z) by (simpl; by rewrite lookup_insert_eq).
  cbn [mbind res_bind].
  rewrite (get_prev_eq _ (list_tail l) x) by (simpl; by rewrite lookup_insert_eq).
  cbn [mbind res_bind].
  rewrite (get_prev_eq _ z (list_tail l)) by (simpl; by rewrite lookup_insert_ne by congruence).
  cbn [mbind res_bind].
  rewrite (get_next_eq _ x l) by (simpl; by rewrite lookup_insert_ne by congruence).
  cbn [mbind res_bind]. eexists. split; [done|]. split; [exact Hfin|].
  intros a Ha. unfold nodes in Ha. apply not_elem_of_cons in Ha as [Ha1 Ha2].
  apply not_elem_of_app in Ha2 as [Ha2 Ha3]. apply not_elem_of_cons in Ha3 as [Ha3 _].
  simpl. rewrite !lookup_insert_ne by congruence. by apply Hr.
Qed.

(** ** Removing adjacent duplicates *)

Section unique.
Context (less : Z -> Z -> bool).

(** Elements kept after [e] and elements removed, in order. *)
Fixpoint uniq_seq (e : Z) (ys : list Z) : list Z * list Z :=
match ys with
| [] => ([], [])
| y :: ys =>
    if negb (less e y) && negb (less y e)
    then let (k, d) := uniq_seq e ys in (k, y :: d)
    else let (k, d) := uniq_seq y ys in (y :: k, d)
end.

Lemma uniq_seq_perm e ys : (uniq_seq e ys).1 ++ (uniq_seq e ys).2 ≡ₚ ys.
Proof.
revert e. induction ys as [|y ys IH]; intros e; simpl; [done|].
destruct (_ && _).
- specialize (IH e). destruct (uniq_seq e ys); simpl in *.
  rewrite <- Permutation_middle. by rewrite IH.
- specialize (IH y). destruct (uniq_seq y ys); simpl in *. by rewrite IH.
Qed.

(** With a duplicates list [dl]: the removed elements are appended to it. *)
Lemma unique_loop_spec fuel h l dl xs e ys ds :
dlist h l (xs ++ e :: ys) -> dlist h dl ds -> dl <> NULL ->
(forall a, a ∈ nodes l (xs ++ e :: ys) -> a ∉ nodes dl ds) ->
(length ys < fuel)%nat ->
exists h', unique_loop less fuel h e (list_tail l) dl = Ok h' /\
  dlist h' l (xs ++ e :: (uniq_seq e ys).1) /\
  dlist h' dl (ds ++ (uniq_seq e ys).2).
Proof.
revert h xs e ys ds. induction fuel as [|fuel IH]; intros h xs e ys ds Hd Hdd Hdl Hx Hf;
  [lia|].
cbn [unique_loop]. destruct (list_next_cons _ _ _ _ _ Hd) as [-> _].
assert (Hd2 : dlist h l ((xs ++ [e]) ++ ys)) by (by rewrite <- app_assoc).
cbn [mbind res_bind]. rewrite (at_end _ _ _ _ Hd2).
destruct ys as [|y ys]; cbn [hd uniq_seq].
{ exists h. simpl. by rewrite app_nil_r. }
destruct (negb (less e y) && negb (less y e)).
- destruct (list_remove_spec h l (xs ++ [e]) y ys Hd2) as (h1 & -> & Hd3 & Ho1).
  cbn [mbind res_bind]. rewrite <- app_assoc in Hd3, Ho1. simpl in Hd3, Ho1.
  rewrite (proj2 (Z.eqb_neq dl NULL)) by done. cbn [negb].
  pose proof (nodes_insert l (xs ++ [e]) y ys) as Hp.
  rewrite <- !app_assoc in Hp. simpl in Hp.
  assert (Hsub : forall a, a ∈ nodes l (xs ++ e :: ys) -> a ∉ nodes dl ds).
  { intros a Ha. apply Hx. rewrite Hp. by constructor. }
  assert (Hdd1 : dlist h1 dl ds).
  { eapply dlist_frame; [exact Ho1| |exact Hdd]. intros a Ha Hb. by apply (Hsub a). }
  assert (Hyn : y ∉ nodes dl ds) by (apply Hx; rewrite Hp; constructor).
  assert (Hy0 : y <> NULL).
  { destruct Hd as (_ & Hnn & _). rewrite Forall_forall in Hnn. apply Hnn.
    rewrite Hp. constructor. }
  destruct (list_push_back_spec h1 dl ds y Hdd1 Hy0 Hyn) as (h2 & -> & Hdd2 & Ho2).
  cbn [mbind res_bind].
  assert (Hyl : y ∉ nodes l (xs ++ e :: ys)).
  { destruct Hd as (Hnd & _). rewrite (NoDup_perm _ _ Hp) in Hnd.
    by apply NoDup_cons in Hnd as [? _]. }
  assert (Hd4 : dlist h2 l (xs ++ e :: ys)).
  { eapply dlist_frame; [exact Ho2| |exact Hd3]. intros a Ha.
    apply not_elem_of_cons. split; [congruence|by apply Hsub]. }
  destruct (IH h2 xs e ys (ds ++ [y])) as (h3 & -> & ? & ?); [done..| |simpl in *; lia|].
  + intros a Ha. pose proof (nodes_insert dl ds y []) as Hq. rewrite app_nil_r in Hq.
    rewrite Hq, not_elem_of_cons. split; [congruence|by apply Hsub].
  + exists h3. destruct (uniq_seq e ys). simpl in *. by rewrite <- app_assoc in *.
- destruct (IH h (xs ++ [e]) y ys ds) as (h3 & -> & ? & ?);
    [done..|by rewrite <- app_assoc|simpl in *; lia|].
  exists h3. destruct (uniq_seq y ys). simpl in *. by rewrite <- app_assoc in *.
Qed.

Lemma list_unique_spec fuel h l dl xs ds :
dlist h l xs -> dlist h dl ds -> dl <> NULL ->
(forall a, a ∈ nodes l xs -> a ∉ nodes dl ds) -> (length xs < fuel)%nat ->
exists h', list_unique less fuel h l dl = Ok h' /\
  dlist h' l (match xs with [] => [] | x :: ys => x :: (uniq_seq x ys).1 end) /\
  dlist h' dl (match xs with [] => ds | x :: ys => ds ++ (uniq_seq x ys).2 end).
Proof.
intros Hd Hdd Hdl Hx Hf. unfold list_unique.
rewrite bind_ASSERT by (by eapply list_nonnull).
rewrite (list_empty_spec _ _ _ Hd). cbn [mbind res_bind].
destruct xs as [|x xs]; [by exists h|].
rewrite (list_begin_spec _ _ _ Hd), (list_end_spec _ _ _ Hd). cbn [mbind res_bind hd].
apply (unique_loop_spec fuel h l dl [] x xs ds); try done. simpl in *; lia.
Qed.
End unique.
