(* ===== verification/DListSort.v ===== *)
(** * The natural merge sort of lib/kernel/list.c

    [list_sort] repeatedly merges adjacent nondecreasing runs in place until
    one run is left.  The pointer-level loops of [DList] are related to
    functions on sequences, and the sort is shown to terminate within a fuel
    linear in the number of elements, to pass all its own assertions and to
    return a sorted permutation. *)

From S2P Require Import Prelude Vaddr DList DListAlgo.

Section sort.
Context (less : Z -> Z -> bool).

(** ** Sequence-level counterparts *)

(** [sorted_from a ys]: no element of [a :: ys] is less than its predecessor. *)
Fixpoint sorted_from (a : Z) (ys : list Z) : bool :=
match ys with [] => true | y :: ys => negb (less y a) && sorted_from y ys end.

Definition sorted_seq (xs : list Z) : bool :=
match xs with [] => true | x :: xs => sorted_from x xs end.

(** The rest of the run that starts at [a], and what follows it. *)
Fixpoint run_split (a : Z) (ys : list Z) : list Z * list Z :=
match ys with
| [] => ([], [])
| y :: ys' =>
    if less y a then ([], ys)
    else let (r, s) := run_split y ys' in (y :: r, s)
end.

Fixpoint merge_seq (xs : list Z) : list Z -> list Z :=
fix inner (ys : list Z) :=
  match xs, ys with
  | [], _ => ys
  | _, [] => xs
  | x :: xs', y :: ys' =>
      if less y x then y :: inner ys' else x :: merge_seq xs' ys
  end.

Lemma merge_seq_nil_r xs : merge_seq xs [] = xs.
Proof. by destruct xs. Qed.

Lemma merge_seq_nil_l ys : merge_seq [] ys = ys.
Proof. by destruct ys. Qed.

Lemma merge_seq_cons x xs y ys :
merge_seq (x :: xs) (y :: ys) =
  if less y x then y :: merge_seq (x :: xs) ys else x :: merge_seq xs (y :: ys).
Proof. done. Qed.

Arguments merge_seq : simpl never.

Lemma merge_seq_perm xs ys : merge_seq xs ys ≡ₚ xs ++ ys.
Proof.
revert ys. induction xs as [|x xs IHx]; intros ys; [by rewrite merge_seq_nil_l|].
induction ys as [|y ys IHy]; [by rewrite merge_seq_nil_r, app_nil_r|].
rewrite merge_seq_cons. destruct (less y x).
- rewrite IHy. rewrite <- Permutation_middle. done.
- simpl. by rewrite IHx.
Qed.

(** ** Navigation inside a represented list *)

Section nav.
Context (h : heap) (l : Z) (xs : list Z).
Abbreviation t := (list_tail l).

(** A range [as] before [ws] is empty exactly when its ends meet. *)
Lemma range_end (ys ws : list Z) :
dlist h l (xs ++ ys ++ ws) ->
(hd t (ys ++ ws) =? hd t ws) = match ys with [] => true | _ => false end.
Proof.
intros (Hnd & _). apply nodes_NoDup in Hnd as (_ & _ & Hnd).
destruct ys as [|y ys]; simpl; [apply Z.eqb_refl|].
apply Z.eqb_neq. intros E. simpl in Hnd. apply NoDup_cons in Hnd as [Hn _].
apply Hn. rewrite E, <- app_assoc, elem_of_app. right. apply node_at_right.
Qed.

Lemma list_prev_cons y z ys :
dlist h l (xs ++ y :: z :: ys) -> list_prev h z = Ok y.
Proof.
intros Hd. assert (Hd' : dlist h l ((xs ++ [y]) ++ z :: ys))
by (by rewrite <- app_assoc).
pose proof (list_prev_at _ _ _ _ Hd') as Hp. by rewrite lst_snoc in Hp.
Qed.

Lemma node_nonnull (ys : list Z) :
dlist h l (xs ++ ys) -> negb (hd t ys =? NULL) = true.
Proof.
intros (_ & Hnn & _). apply negb_true_iff, Z.eqb_neq.
rewrite Forall_forall in Hnn. apply Hnn, node_at_in.
Qed.
End nav.

(** ** The loops *)

Lemma dlist_shift h l xs y ys :
dlist h l (xs ++ y :: ys) -> dlist h l ((xs ++ [y]) ++ ys).
Proof. by rewrite <- app_assoc. Qed.

Lemma is_sorted_loop_spec fuel h l xs a ys ws :
dlist h l (xs ++ a :: ys ++ ws) -> (length ys < fuel)%nat ->
is_sorted_loop less fuel h a (hd (list_tail l) ws) = Ok (sorted_from a ys).
Proof.
revert xs a ys. induction fuel as [|fuel IH]; intros xs a ys Hd Hf; [lia|].
simpl. destruct (list_next_cons _ _ _ _ _ Hd) as [-> _]. simpl.
pose proof (dlist_shift _ _ _ _ _ Hd) as Hd'.
rewrite (range_end _ _ _ _ _ Hd'). destruct ys as [|y ys]; simpl in *; [done|].
rewrite (list_prev_cons _ _ _ _ _ _ Hd). simpl. destruct (less y a); [done|].
simpl. apply (IH (xs ++ [a])); [done|lia].
Qed.

Lemma is_sorted_spec fuel h l xs ys ws :
dlist h l (xs ++ ys ++ ws) -> (length ys < fuel)%nat ->
is_sorted less fuel h (hd (list_tail l) (ys ++ ws)) (hd (list_tail l) ws) =
  Ok (sorted_seq ys).
Proof.
intros Hd Hf. unfold is_sorted. rewrite (range_end _ _ _ _ _ Hd).
destruct ys as [|y ys]; simpl in *; [done|].
apply (is_sorted_loop_spec fuel h l xs); [done|lia].
Qed.

Lemma run_split_app a ys r s : run_split a ys = (r, s) -> ys = r ++ s.
Proof.
revert a r s. induction ys as [|y ys IH]; intros a r s; simpl; [by intros [= <- <-]|].
destruct (less y a); [by intros [= <- <-]|].
destruct (run_split y ys) as [r' s'] eqn:E. intros [= <- <-]. simpl.
by rewrite (IH _ _ _ E) at 1.
Qed.

Lemma run_split_sorted a ys r s : run_split a ys = (r, s) -> sorted_from a r = true.
Proof.
revert a r s. induction ys as [|y ys IH]; intros a r s; simpl; [by intros [= <- <-]|].
destruct (less y a) eqn:El; [by intros [= <- <-]|].
destruct (run_split y ys) as [r' s'] eqn:E. intros [= <- <-]. simpl.
by rewrite El, (IH _ _ _ E).
Qed.

Lemma run_loop_spec fuel h l xs a ys :
dlist h l (xs ++ a :: ys) -> (length ys < fuel)%nat ->
run_loop less fuel h a (list_tail l) = Ok (hd (list_tail l) (run_split a ys).2).
Proof.
revert xs a ys. induction fuel as [|fuel IH]; intros xs a ys Hd Hf; [lia|].
simpl. destruct (list_next_cons _ _ _ _ _ Hd) as [-> _]. simpl.
pose proof (dlist_shift _ _ _ _ _ Hd) as Hd'.
rewrite (at_end _ _ _ _ Hd'). destruct ys as [|y ys]; simpl in *; [done|].
rewrite (list_prev_cons _ _ _ _ _ _ Hd). simpl. destruct (less y a); [done|].
rewrite (IH (xs ++ [a]) y ys); [|done|lia]. by destruct (run_split y ys).
Qed.

Lemma find_end_of_run_spec fuel h l xs a ys :
dlist h l (xs ++ a :: ys) -> (length ys < fuel)%nat ->
find_end_of_run less fuel h a (list_tail l) =
  Ok (hd (list_tail l) (run_split a ys).2).
Proof.
intros Hd Hf. unfold find_end_of_run.
rewrite bind_ASSERT by (exact (node_nonnull _ _ _ _ Hd)).
assert (Hd0 : dlist h l ((xs ++ a :: ys) ++ [])) by (by rewrite app_nil_r).
rewrite bind_ASSERT by (exact (node_nonnull _ _ _ _ Hd0)).
rewrite bind_ASSERT by (apply negb_true_iff; by apply (at_end _ _ _ _ Hd)).
by apply (run_loop_spec fuel h l xs).
Qed.

Lemma merge_loop_spec fuel h l xs as_ bs ws :
dlist h l (xs ++ as_ ++ bs ++ ws) -> (length as_ + length bs < fuel)%nat ->
exists h', merge_loop less fuel h (hd (list_tail l) (as_ ++ bs ++ ws))
             (hd (list_tail l) (bs ++ ws)) (hd (list_tail l) ws) = Ok h' /\
  dlist h' l (xs ++ merge_seq as_ bs ++ ws) /\
  agree_off (nodes l (xs ++ as_ ++ bs ++ ws)) h h'.
Proof.
revert h xs as_ bs. induction fuel as [|fuel IH]; intros h xs as_ bs Hd Hf; [lia|].
simpl. rewrite (range_end _ _ _ _ _ Hd).
assert (Hd2 : dlist h l ((xs ++ as_) ++ bs ++ ws)) by (by rewrite <- app_assoc).
rewrite (range_end _ _ _ _ _ Hd2).
destruct as_ as [|a as_]; [exists h; rewrite merge_seq_nil_l;
  by split_and!; [|simpl in Hd|apply agree_off_refl]|].
destruct bs as [|b bs]; [exists h; rewrite merge_seq_nil_r;
  by split_and!; [|simpl in Hd|apply agree_off_refl]|].
simpl in *. rewrite merge_seq_cons. destruct (less b a); simpl.
- pose proof (list_next_cons _ _ _ _ _ Hd2) as [-> _]. simpl.
  assert (list_prev h (hd (list_tail l) (bs ++ ws)) = Ok b) as ->.
  { pose proof (list_prev_at _ _ _ _ (dlist_shift _ _ _ _ _ Hd2)) as Hp.
    by rewrite lst_snoc in Hp. }
  simpl. destruct (list_splice_forward _ _ _ _ _ _ _ Hd) as (h1 & -> & Hd1 & Ho1).
  simpl. destruct (IH h1 (xs ++ [b]) (a :: as_) bs) as (h2 & E & Hd3 & Ho2);
    [by rewrite <- app_assoc|simpl; lia|]. simpl in E. rewrite E.
  exists h2. split_and!; [done|by rewrite <- app_assoc in Hd3|].
  eapply agree_off_trans; [exact Ho1|]. eapply agree_off_perm; [|exact Ho2].
  unfold nodes. constructor. rewrite <- !app_assoc. apply Permutation_app_head.
  do 2 (simpl; rewrite <- ?app_assoc).
  apply (Permutation_middle (a :: as_) (bs ++ ws ++ [list_tail l]) b).
- pose proof (list_next_cons _ _ _ _ _ Hd) as [-> _]. simpl.
  destruct (IH h (xs ++ [a]) as_ (b :: bs)) as (h2 & E & Hd3 & Ho2);
    [by rewrite <- app_assoc|simpl; lia|]. simpl in E. rewrite E.
  exists h2. split_and!; [done|by rewrite <- app_assoc in Hd3|].
  by rewrite <- app_assoc in Ho2.
Qed.

Lemma inplace_merge_spec fuel h l xs as_ bs ws :
dlist h l (xs ++ as_ ++ bs ++ ws) -> (length as_ + length bs < fuel)%nat ->
sorted_seq as_ = true -> sorted_seq bs = true ->
exists h', inplace_merge less fuel h (hd (list_tail l) (as_ ++ bs ++ ws))
             (hd (list_tail l) (bs ++ ws)) (hd (list_tail l) ws) = Ok h' /\
  dlist h' l (xs ++ merge_seq as_ bs ++ ws) /\
  agree_off (nodes l (xs ++ as_ ++ bs ++ ws)) h h'.
Proof.
intros Hd Hf Ha Hb. unfold inplace_merge.
assert (Hd2 : dlist h l ((xs ++ as_) ++ bs ++ ws)) by (by rewrite <- app_assoc).
assert (Hd3 : dlist h l ((xs ++ as_ ++ bs) ++ ws)) by (by rewrite <- !app_assoc).
rewrite bind_ASSERT by (exact (node_nonnull _ _ _ _ Hd)).
rewrite bind_ASSERT by (exact (node_nonnull _ _ _ _ Hd2)).
rewrite bind_ASSERT by (exact (node_nonnull _ _ _ _ Hd3)).
rewrite (is_sorted_spec _ _ _ _ _ _ Hd), Ha by lia. simpl.
rewrite (is_sorted_spec _ _ _ _ _ _ Hd2), Hb by lia. simpl.
by apply merge_loop_spec.
Qed.

(** ** One pass

  [pass ys ys' k]: a pass over [ys] leaves [ys'] and outputs [k] runs. *)
Inductive pass : list Z -> list Z -> nat -> Prop :=
| pass_nil : pass [] [] 0
| pass_one a ys : run_split a ys = (ys, []) -> pass (a :: ys) (a :: ys) 1
| pass_two a ys r b s r' ws ws' k :
    run_split a ys = (r, b :: s) -> run_split b s = (r', ws) ->
    pass ws ws' k ->
    pass (a :: ys) (merge_seq (a :: r) (b :: r') ++ ws') (S k).

Lemma pass_perm ys ys' k : pass ys ys' k -> ys' ≡ₚ ys.
Proof.
induction 1 as [| |a ys r b s r' ws ws' k H1 H2 _ IH]; [done..|].
rewrite merge_seq_perm, IH.
rewrite (run_split_app _ _ _ _ H1), (run_split_app _ _ _ _ H2).
by rewrite <- app_assoc.
Qed.

Lemma pass_length ys ys' k : pass ys ys' k -> (k <= length ys)%nat.
Proof.
induction 1 as [| |a ys r b s r' ws ws' k H1 H2 _ IH]; simpl; [lia..|].
rewrite (run_split_app _ _ _ _ H1), (run_split_app _ _ _ _ H2).
rewrite length_app. simpl. rewrite length_app. lia.
Qed.

Lemma sort_pass_spec fuel h l xs ys cnt :
dlist h l (xs ++ ys) -> (length ys < fuel)%nat ->
0 <= cnt -> cnt + Z.of_nat (length ys) < 2 ^ 32 ->
exists h' ys' k,
  sort_pass less fuel h (hd (list_tail l) ys) (list_tail l) cnt =
    Ok (h', cnt + Z.of_nat k) /\
  pass ys ys' k /\ dlist h' l (xs ++ ys') /\ agree_off (nodes l (xs ++ ys)) h h'.
Proof.
revert h xs ys cnt. induction fuel as [|fuel IH]; intros h xs ys cnt Hd Hf Hc Ho; [lia|].
cbn [sort_pass]. rewrite (at_end _ _ _ _ Hd). destruct ys as [|a ys].
{ exists h, [], 0%nat. rewrite Z.add_0_r. split_and!; try done. constructor. }
cbn [hd]. rewrite (find_end_of_run_spec (S fuel) h l xs a ys Hd) by (simpl in *; lia).
cbn [mbind res_bind]. destruct (run_split a ys) as [r s] eqn:E1. cbn [snd].
pose proof (run_split_app _ _ _ _ E1) as Hys.
pose proof (run_split_sorted _ _ _ _ E1) as Hs1.
assert (Hd1 : dlist h l ((xs ++ a :: r) ++ s)) by (by rewrite Hys in Hd; rewrite <- app_assoc).
rewrite (at_end _ _ _ _ Hd1). rewrite u32_small by (simpl in *; lia).
destruct s as [|b s].
{ exists h, (a :: ys), 1%nat. rewrite app_nil_r in Hys. subst r.
  split_and!; try done. by constructor. }
cbn [hd]. simpl in Hf, Ho. rewrite Hys, length_app in Hf, Ho. simpl in Hf, Ho.
rewrite (find_end_of_run_spec (S fuel) h l (xs ++ a :: r) b s Hd1) by lia.
cbn [mbind res_bind]. destruct (run_split b s) as [r' ws] eqn:E2. cbn [snd].
pose proof (run_split_app _ _ _ _ E2) as Hs. rewrite Hs, length_app in Hf, Ho.
pose proof (run_split_sorted _ _ _ _ E2) as Hs2.
rewrite Hs in Hd1. rewrite <- app_assoc in Hd1.
destruct (inplace_merge_spec (S fuel) h l xs (a :: r) (b :: r') ws) as (h1 & Em & Hd2 & Ho1);
  [done|simpl; lia|done|done|].
cbn [hd app] in Em. rewrite Em. cbn [mbind res_bind].
destruct (IH h1 (xs ++ merge_seq (a :: r) (b :: r')) ws (cnt + 1))
  as (h2 & ws' & k & -> & Hp & Hd3 & Ho2); [by rewrite <- app_assoc|lia..|].
exists h2, (merge_seq (a :: r) (b :: r') ++ ws'), (S k). split_and!.
- f_equal. f_equal. lia.
- by econstructor.
- by rewrite <- app_assoc in Hd3.
- assert (Hn : nodes l (xs ++ a :: ys) = nodes l (xs ++ (a :: r) ++ (b :: r') ++ ws))
    by (by rewrite Hys, Hs).
  rewrite Hn. eapply agree_off_trans; [exact Ho1|].
  eapply agree_off_perm; [|exact Ho2]. unfold nodes. constructor.
  apply Permutation_app_tail. rewrite <- app_assoc. apply Permutation_app_head.
  rewrite merge_seq_perm. by rewrite <- app_assoc.
Qed.

(** ** Progress

  [descents a ys] counts the places of [a :: ys] where a run ends; a
  nonempty sequence has one run more. *)
Fixpoint descents (a : Z) (ys : list Z) : nat :=
match ys with
| [] => 0
| y :: ys => (if less y a then 1 else 0) + descents y ys
end.

Definition nruns (xs : list Z) : nat :=
match xs with [] => 0 | x :: xs => S (descents x xs) end.

Lemma nruns_length xs : (nruns xs <= length xs)%nat.
Proof.
destruct xs as [|x xs]; simpl; [lia|]. apply le_n_S. revert x.
induction xs as [|y xs IH]; intros x; simpl; [lia|].
specialize (IH y). destruct (less y x); lia.
Qed.

Lemma descents_app a ys b zs :
descents a (ys ++ b :: zs) =
  (descents a ys + (if less b (lst a ys) then 1 else 0) + descents b zs)%nat.
Proof.
revert a. induction ys as [|y ys IH]; intros a; simpl; [lia|]. rewrite IH. lia.
Qed.

Lemma descents_sorted a ys : sorted_from a ys = true <-> descents a ys = 0%nat.
Proof.
revert a. induction ys as [|y ys IH]; intros a; simpl; [done|].
destruct (less y a); simpl; [done|]. apply IH.
Qed.

(** Appending a sorted sequence adds at most one run. *)
Lemma nruns_app xs ys : (nruns (xs ++ ys) <= nruns xs + nruns ys)%nat.
Proof.
destruct xs as [|x xs]; [done|]. destruct ys as [|y ys]; simpl.
- rewrite app_nil_r. lia.
- rewrite descents_app. destruct (less y (lst x xs)); lia.
Qed.

Lemma nruns_sorted xs : sorted_seq xs = true -> (nruns xs <= 1)%nat.
Proof.
destruct xs; simpl; [lia|]. intros H%descents_sorted. lia.
Qed.

(** A run ends where it does because the next element is smaller. *)
Lemma run_split_desc a ys r b s :
run_split a ys = (r, b :: s) -> less b (lst a r) = true.
Proof.
revert a r. induction ys as [|y ys IH]; intros a r; simpl; [done|].
destruct (less y a) eqn:El; [by intros [= <- <- <-]|].
destruct (run_split y ys) as [r' s'] eqn:E. intros [= <- ->]. simpl. eauto.
Qed.

Hypothesis less_asym : forall a b, less a b = true -> less b a = false.

(** Merging sorted sequences: the heads bound the result from below. *)
Lemma merge_sorted_from m xs ys :
sorted_from m xs = true -> sorted_from m ys = true ->
sorted_from m (merge_seq xs ys) = true.
Proof.
revert m ys. induction xs as [|x xs IHx]; intros m ys; [by rewrite merge_seq_nil_l|].
revert m. induction ys as [|y ys IHy]; intros m; [by rewrite merge_seq_nil_r|].
rewrite merge_seq_cons. intros Hx Hy.
simpl in Hx, Hy. apply andb_true_iff in Hx as [Hxm Hx], Hy as [Hym Hy].
destruct (less y x) eqn:El; simpl.
- rewrite Hym. simpl. apply IHy; [|done]. simpl. by rewrite (less_asym _ _ El), Hx.
- rewrite Hxm. simpl. apply IHx; [done|]. simpl. by rewrite El.
Qed.

Lemma merge_sorted xs ys :
sorted_seq xs = true -> sorted_seq ys = true -> sorted_seq (merge_seq xs ys) = true.
Proof.
destruct xs as [|x xs]; [by rewrite merge_seq_nil_l|].
destruct ys as [|y ys]; [by rewrite merge_seq_nil_r|].
rewrite merge_seq_cons. simpl. intros Hx Hy. destruct (less y x) eqn:El; simpl.
- apply merge_sorted_from; [simpl|done]. by rewrite (less_asym _ _ El).
- apply merge_sorted_from; [done|]. simpl. by rewrite El.
Qed.

(** A pass leaves at most as many runs as it outputs, and it outputs about
  half of the runs it finds. *)
Lemma pass_nruns ys ys' k :
pass ys ys' k -> (nruns ys' <= k /\ 2 * k <= nruns ys + 1)%nat.
Proof.
induction 1 as [|a ys H1|a ys r b s r' ws ws' k H1 H2 _ IH].
- simpl. lia.
- apply run_split_sorted in H1. apply descents_sorted in H1. simpl. lia.
- pose proof (run_split_sorted _ _ _ _ H1) as S1.
  pose proof (run_split_sorted _ _ _ _ H2) as S2. split.
  + etrans; [apply nruns_app|].
    pose proof (nruns_sorted _ (merge_sorted (a :: r) (b :: r') S1 S2)). lia.
  + rewrite (run_split_app _ _ _ _ H1). simpl. rewrite descents_app.
    rewrite (run_split_desc _ _ _ _ _ H1), (run_split_app _ _ _ _ H2).
    destruct ws as [|w ws]; [rewrite app_nil_r; simpl in *; lia|].
    rewrite descents_app, (run_split_desc _ _ _ _ _ H2). simpl in *. lia.
Qed.

(** A pass that outputs at most one run has sorted the list. *)
Lemma pass_done ys ys' k : pass ys ys' k -> (k <= 1)%nat -> sorted_seq ys' = true.
Proof.
destruct 1 as [|a ys H1|a ys r b s r' ws ws' k H1 H2 H3]; intros Hk; [done| |].
- simpl. by eapply run_split_sorted.
- assert (k = 0%nat) as -> by lia. inversion H3; subst. rewrite app_nil_r.
  apply merge_sorted; simpl; by eapply run_split_sorted.
Qed.

Lemma sort_loop_spec passes fuel h l xs :
dlist h l xs -> (length xs < fuel)%nat -> (nruns xs < passes)%nat ->
Z.of_nat (length xs) < 2 ^ 32 ->
exists h' ys, sort_loop less passes fuel h l = Ok h' /\ dlist h' l ys /\
  ys ≡ₚ xs /\ sorted_seq ys = true /\ agree_off (nodes l xs) h h'.
Proof.
revert h xs. induction passes as [|passes IH]; intros h xs Hd Hf Hp Ho; [lia|].
cbn [sort_loop]. rewrite (list_begin_spec _ _ _ Hd), (list_end_spec _ _ _ Hd).
cbn [mbind res_bind].
destruct (sort_pass_spec fuel h l [] xs 0) as (h1 & ys & k & -> & Hps & Hd1 & Ho1);
  [done|lia..|]. cbn [mbind res_bind]. rewrite Z.add_0_l.
pose proof (pass_nruns _ _ _ Hps) as [Hr1 Hr2]. simpl in Hd1.
pose proof (pass_perm _ _ _ Hps) as Hperm.
destruct (Z.ltb_spec 1 (Z.of_nat k)).
- destruct (IH h1 ys) as (h2 & zs & -> & ? & Hzp & ? & Ho2);
    [done|rewrite Hperm; lia|lia|rewrite Hperm; lia|].
  exists h2, zs. split_and!; [done..|by rewrite Hzp|done|].
  eapply agree_off_trans; [exact Ho1|]. eapply agree_off_perm; [|exact Ho2].
  unfold nodes. constructor. by apply Permutation_app_tail.
- exists h1, ys. split_and!; try done. eapply pass_done; [done|lia].
Qed.

Lemma list_sort_spec fuel h l xs :
dlist h l xs -> (length xs < fuel)%nat -> Z.of_nat (length xs) < 2 ^ 32 ->
exists h' ys, list_sort less fuel h l = Ok h' /\ dlist h' l ys /\
  ys ≡ₚ xs /\ sorted_seq ys = true /\ agree_off (nodes l xs) h h'.
Proof.
intros Hd Hf Ho. unfold list_sort. rewrite bind_ASSERT by (by eapply list_nonnull).
pose proof (nruns_length xs).
destruct (sort_loop_spec fuel fuel h l xs) as (h' & ys & -> & Hd' & Hp & Hs & Ha);
  [done|lia..|]. simpl.
rewrite (list_begin_spec _ _ _ Hd'), (list_end_spec _ _ _ Hd'). simpl.
assert (Hd0 : dlist h' l ([] ++ ys ++ [])) by (by rewrite app_nil_r).
pose proof (is_sorted_spec fuel h' l [] ys [] Hd0) as E.
rewrite app_nil_r in E. simpl in E. rewrite E by (rewrite Hp; lia).
rewrite Hs. simpl. eauto 10.
Qed.
End sort.
