(* ===== verification/Runqueue.v ===== *)
(** * The priority run queue

    Models the scheduler's data structure of threads/thread.c and
    threads/thread.h: a [prio_array] is 64 FIFO queues, a bitmap of the
    non-empty ones (bit [PRI_MAX - p] for priority [p]) and a count; the
    [runqueue] holds an active and an expired array.  The queues hold
    thread addresses; that [list_push_back] and [list_pop_front] act on the
    linked lists as on these sequences is shown in [DList].

    The specification is the sequence [pa_view] of (priority, thread) pairs
    in the order in which threads will be removed: insertion is a stable
    ordered insertion into it ([pq_insert]), removal takes its head. *)

From stdpp Require Import sorting.
From S2P Require Import Prelude Bitmap.

Definition PRI_MIN : Z := 0.
Definition PRI_DEFAULT : Z := 31.
Definition PRI_MAX : Z := 63.

Record prio_array : Type := mk_prio_array {
  num : Z;                     (* the number of tasks *)
  map : bitmap;                (* non-empty queues, highest priority first *)
  queue : list (list Z);       (* one queue per priority *)
}.

(** [active] and [expired] are pointers into [arrays]: here its indices. *)
Record runqueue : Type := mk_runqueue {
  active : Z;
  expired : Z;
  arrays : list prio_array;
}.

(** ** Operations *)

(** [maparr], 64 words: the bitmap header takes two of them. *)
Definition maparr_block : list Z := replicate 62 0.
Definition sizeof_maparr : Z := 4 * (PRI_MAX + 1).

Definition prioarr_init : res prio_array :=
  m ← bitmap_create_in_buf (PRI_MAX + 1) maparr_block sizeof_maparr;
  Ok (mk_prio_array 0 m (replicate (Z.to_nat (PRI_MAX + 1)) [])).

Definition runqueue_init : res runqueue :=
  a0 ← prioarr_init;
  a1 ← prioarr_init;
  Ok (mk_runqueue 0 1 [a0; a1]).

Definition prioarr_empty (arr : prio_array) : bool := num arr =? 0.

Definition runqueue_empty (rq : runqueue) : res bool :=
  a ← arr_get (arrays rq) (active rq);
  if prioarr_empty a then
    e ← arr_get (arrays rq) (expired rq);
    Ok (prioarr_empty e)
  else Ok false.

Definition prioarr_insert (p_arr : prio_array) (t priority : Z) : res prio_array :=
  m ← bitmap_mark (map p_arr) (u32 (PRI_MAX - priority));
  q ← arr_get (queue p_arr) priority;
  qs ← arr_set (queue p_arr) priority (q ++ [t]);
  Ok (mk_prio_array (s32 (num p_arr + 1)) m qs).

Definition prioarr_remove (p_arr : prio_array) : res (Z * prio_array) :=
  ASSERT (negb (num p_arr =? 0));;
  first_bit ← bitmap_scan (map p_arr) 0 1 true;
  let highest_prio := s32 (PRI_MAX - first_bit) in
  q ← arr_get (queue p_arr) highest_prio;
  match q with
  | [] => Fail AssertFailed
  | t :: q' =>
      qs ← arr_set (queue p_arr) highest_prio q';
      m ← (if decide (q' = []) then bitmap_reset (map p_arr) first_bit
           else Ok (map p_arr));
      Ok (t, mk_prio_array (s32 (num p_arr - 1)) m qs)
  end.

Definition with_array (rq : runqueue) (i : Z) (a : prio_array) : res runqueue :=
  l ← arr_set (arrays rq) i a;
  Ok (mk_runqueue (active rq) (expired rq) l).

Definition active_insert (rq : runqueue) (t priority : Z) : res runqueue :=
  a ← arr_get (arrays rq) (active rq);
  a' ← prioarr_insert a t priority;
  with_array rq (active rq) a'.

(** The thread's new time slice; [expired_insert] stores it in the thread. *)
Definition recompute_tslice (priority : Z) : Z := u32 (priority + 5).

Definition expired_insert (rq : runqueue) (t priority : Z) : res (Z * runqueue) :=
  let timeslice := recompute_tslice priority in
  a ← arr_get (arrays rq) (expired rq);
  a' ← prioarr_insert a t priority;
  rq' ← with_array rq (expired rq) a';
  Ok (timeslice, rq').

Definition active_remove (rq : runqueue) : res (Z * runqueue) :=
  a ← arr_get (arrays rq) (active rq);
  '(t, a') ← prioarr_remove a;
  rq' ← with_array rq (active rq) a';
  Ok (t, rq').

Definition prioarr_swap (rq : runqueue) : res runqueue :=
  a ← arr_get (arrays rq) (active rq);
  ASSERT (num a =? 0);;
  Ok (mk_runqueue (expired rq) (active rq) (arrays rq)).

(** ** The specification: a stable priority queue *)

Abbreviation entry := (Z * Z)%type.     (* (priority, thread) *)

Fixpoint pq_insert (p t : Z) (l : list entry) : list entry :=
  match l with
  | [] => [(p, t)]
  | (p', t') :: l' =>
      if p <=? p' then (p', t') :: pq_insert p t l' else (p, t) :: l
  end.

Fixpoint view_from (p : Z) (qs : list (list Z)) : list entry :=
  match qs with
  | [] => []
  | q :: qs => view_from (p + 1) qs ++ ((p,.) <$> q)
  end.

Definition pa_view (a : prio_array) : list entry := view_from 0 (queue a).

Definition pa_wf (a : prio_array) : Prop :=
  length (queue a) = 64%nat /\ bm_wf (map a) /\ bit_cnt (map a) = 64 /\
  num a = Z.of_nat (length (pa_view a)) /\ num a < 2 ^ 31 /\
  forall p q, queue a !! p = Some q ->
    bm_get (map a) (63 - Z.of_nat p) = bool_decide (q <> []).

Lemma view_from_app p qs1 qs2 :
  view_from p (qs1 ++ qs2) =
  view_from (p + Z.of_nat (length qs1)) qs2 ++ view_from p qs1.
Proof.
  revert p. induction qs1 as [|q qs1 IH]; intros p; simpl.
  - by rewrite Z.add_0_r, app_nil_r.
  - rewrite IH, (assoc_L (++)). do 3 f_equal. lia.
Qed.

Lemma view_from_bounds p qs e :
  e ∈ view_from p qs -> p <= e.1 < p + Z.of_nat (length qs).
Proof.
  revert p. induction qs as [|q qs IH]; intros p; simpl.
  - by intros ?%elem_of_nil.
  - intros [He|He]%elem_of_app.
    + apply IH in He. lia.
    + apply list_elem_of_fmap in He as (t & -> & _). simpl. lia.
Qed.

Lemma view_from_mid p qs1 q qs2 :
  view_from p (qs1 ++ q :: qs2) =
  view_from (p + Z.of_nat (length qs1) + 1) qs2 ++
  ((p + Z.of_nat (length qs1),.) <$> q) ++ view_from p qs1.
Proof. by rewrite view_from_app; simpl; rewrite <- (assoc_L (++)). Qed.

Lemma pq_insert_app p t l1 l2 :
  Forall (fun e => p <= e.1) l1 ->
  pq_insert p t (l1 ++ l2) = l1 ++ pq_insert p t l2.
Proof.
  induction 1 as [|[p' t'] l1 Hp Hl IH]; simpl; [done|].
  apply Z.leb_le in Hp. simpl in Hp. by rewrite Hp, IH.
Qed.

Lemma pq_insert_low p t l :
  Forall (fun e => e.1 < p) l -> pq_insert p t l = (p, t) :: l.
Proof.
  destruct 1 as [|[p' t'] l Hp Hl]; simpl; [done|].
  simpl in Hp. destruct (Z.leb_spec p p'); [lia|done].
Qed.

Lemma pq_insert_perm p t l : pq_insert p t l ≡ₚ (p, t) :: l.
Proof.
  induction l as [|[p' t'] l IH]; simpl; [done|].
  destruct (p <=? p'); [|done]. rewrite IH. apply Permutation_swap.
Qed.

Lemma view_insert qs p q t :
  qs !! p = Some q ->
  view_from 0 (<[p := q ++ [t]]> qs) =
  pq_insert (Z.of_nat p) t (view_from 0 qs).
Proof.
  intros Hq. destruct (list_elem_of_split_length qs p q Hq) as (l1 & l2 & -> & ->).
  rewrite insert_app_r_alt, Nat.sub_diag by lia. simpl.
  rewrite !view_from_mid, fmap_app. simpl. rewrite Z.add_0_l.
  rewrite !pq_insert_app.
  - rewrite pq_insert_low; [by rewrite <- !(assoc_L (++))|].
    apply Forall_forall. intros e He%view_from_bounds. lia.
  - apply Forall_forall. intros e (x & -> & _)%list_elem_of_fmap. simpl. lia.
  - apply Forall_forall. intros e He%view_from_bounds. lia.
Qed.

Lemma view_remove qs p t q :
  qs !! p = Some (t :: q) ->
  (forall k q', (p < k)%nat -> qs !! k = Some q' -> q' = []) ->
  view_from 0 qs = (Z.of_nat p, t) :: view_from 0 (<[p := q]> qs).
Proof.
  intros Hq Hhi.
  destruct (list_elem_of_split_length qs p (t :: q) Hq) as (l1 & l2 & -> & ->).
  assert (view_from (Z.of_nat (length l1) + 1) l2 = []) as Hnil.
  { assert (Forall (fun q' => q' = []) l2) as Hl2.
    { apply Forall_forall. intros q' [k Hk]%list_elem_of_lookup.
      apply (Hhi (length l1 + S k)%nat q'); [lia|].
      rewrite lookup_app_r by lia. by replace (_ - _)%nat with (S k) by lia. }
    clear -Hl2. generalize (Z.of_nat (length l1) + 1).
    induction Hl2 as [|q' l2 -> _ IH]; intros z; simpl; [done|]. by rewrite IH. }
  rewrite insert_app_r_alt, Nat.sub_diag by lia. simpl.
  by rewrite !view_from_mid, Z.add_0_l, Hnil.
Qed.

Lemma view_nil_queue qs p q t :
  view_from 0 qs = [] -> qs !! p = Some q -> t ∈ q -> False.
Proof.
  intros Hv Hq Ht.
  destruct (list_elem_of_split_length qs p q Hq) as (l1 & l2 & -> & _).
  rewrite view_from_mid in Hv. apply app_eq_nil in Hv as [_ Hv].
  apply app_eq_nil in Hv as [Hv _]. destruct q; [by apply elem_of_nil in Ht|done].
Qed.

(** The head of the view has the highest priority. *)
Lemma view_head p qs p0 t l :
  view_from p qs = (p0, t) :: l -> forall e, e ∈ l -> e.1 <= p0.
Proof.
  revert p l. induction qs as [|q qs IH]; intros p l E e He; simpl in E; [done|].
  destruct (view_from (p + 1) qs) as [|[p1 t1] l1] eqn:E1; simpl in E.
  - destruct q as [|u q]; simplify_eq/=.
    apply list_elem_of_fmap in He as (? & -> & _). simpl. lia.
  - injection E as -> -> <-. apply elem_of_app in He as [He|He].
    + by apply (IH _ _ E1).
    + assert ((p0, t) ∈ view_from (p + 1) qs) as Hin by (rewrite E1; left).
      apply view_from_bounds in Hin. apply list_elem_of_fmap in He as (? & -> & _).
      simpl in *. lia.
Qed.

(** ** The operations refine it *)

Lemma prioarr_init_spec :
  exists a, prioarr_init = Ok a /\ pa_wf a /\ pa_view a = [].
Proof.
  eexists. split; [by vm_compute|]. split; [|done].
  split_and!; try done.
  - split_and!; simpl; try lia. by repeat constructor.
  - intros p q Hq. assert (p < 64)%nat by (by apply lookup_lt_Some in Hq).
    simpl in Hq. do 64 (destruct p as [|p]; [by simplify_eq/=|]). lia.
Qed.

Lemma prioarr_insert_spec a t p :
  pa_wf a -> 0 <= p <= PRI_MAX -> num a < 2 ^ 31 - 1 ->
  exists a', prioarr_insert a t p = Ok a' /\ pa_wf a' /\
    pa_view a' = pq_insert p t (pa_view a).
Proof.
  intros (Hlen & Hbm & Hcnt & Hnum & Hlt & Hbit) Hp Hroom.
  unfold prioarr_insert, PRI_MAX in *. rewrite u32_small by lia.
  destruct (bitmap_mark_spec (map a) (63 - p)) as (m & -> & Hm & Hmc & Hmg); [done|lia|].
  destruct (lookup_lt_is_Some_2 (queue a) (Z.to_nat p)) as [q Hq]; [lia|].
  cbn [mbind res_bind].
  assert (arr_get (queue a) p = Ok q) as -> by (apply arr_get_Ok; auto with lia).
  cbn [mbind res_bind]. rewrite arr_set_ok by lia. cbn [mbind res_bind].
  eexists. split; [done|].
  assert (view_from 0 (<[Z.to_nat p:=q ++ [t]]> (queue a)) =
          pq_insert p t (pa_view a)) as Hv.
  { rewrite (view_insert _ _ _ _ Hq). by rewrite Z2Nat.id by lia. }
  unfold pa_wf, pa_view. simpl. rewrite Hv. split; [|done].
  rewrite length_insert, s32_small, pq_insert_perm by lia. simpl.
  split_and!; try done; try lia.
  intros k q' Hk. rewrite Hmg by (apply lookup_lt_Some in Hk; rewrite length_insert in Hk; lia).
  destruct (decide (k = Z.to_nat p)) as [->|Hne].
  - rewrite list_lookup_insert_eq in Hk by lia. simplify_eq.
    destruct (Z.eqb_spec (63 - Z.of_nat (Z.to_nat p)) (63 - p)); [|lia].
    symmetry. apply bool_decide_eq_true. by destruct q.
  - rewrite list_lookup_insert_ne in Hk by done.
    destruct (Z.eqb_spec (63 - Z.of_nat k) (63 - p)); [lia|]. by apply Hbit.
Qed.

(** The scan of the bitmap stops at the highest non-empty priority. *)
Lemma prioarr_scan a :
  pa_wf a -> num a <> 0 ->
  exists b q t, bitmap_scan (map a) 0 1 true = Ok b /\ 0 <= b < 64 /\
    queue a !! Z.to_nat (63 - b) = Some (t :: q) /\
    forall k q', (Z.to_nat (63 - b) < k)%nat -> queue a !! k = Some q' -> q' = [].
Proof.
  intros (Hlen & Hbm & Hcnt & Hnum & Hlt & Hbit) Hne.
  assert (forall b, 0 <= b < 64 -> exists q, queue a !! Z.to_nat (63 - b) = Some q /\
    bm_get (map a) b = bool_decide (q <> [])) as Hq.
  { intros b Hb. destruct (lookup_lt_is_Some_2 (queue a) (Z.to_nat (63 - b))) as [q Hq]; [lia|].
    exists q. split; [done|]. rewrite <- (Hbit _ _ Hq). f_equal. lia. }
  destruct (bitmap_scan_total (map a) 0 1 true) as (r & -> & Hr);
    [done|unfold BITMAP_ERROR; lia..|].
  destruct Hr as [[-> Hno]|(_ & Hr0 & Hr1 & Hg & Hlow)].
  - exfalso. assert (pa_view a <> []) as Hv by (intros E; rewrite E in Hnum; simpl in Hnum; lia).
    destruct (pa_view a) as [|[p t] l] eqn:E; [done|].
    assert ((p, t) ∈ pa_view a) as Hin by (rewrite E; left).
    apply view_from_bounds in Hin as Hp. simpl in Hp.
    destruct (Hq (63 - p)) as (q & Hlk & Hget); [lia|].
    apply (Hno (63 - p)); [lia..|]. intros j Hj. replace j with (63 - p) by lia.
    rewrite Hget. apply bool_decide_eq_true. intros ->.
    destruct (list_elem_of_split_length _ _ _ Hlk) as (l1 & l2 & Hqs & Hl1).
    unfold pa_view in Hin. rewrite Hqs, view_from_mid in Hin.
    rewrite !elem_of_app in Hin. destruct Hin as [Hin|[Hin|Hin]].
    + apply view_from_bounds in Hin. simpl in Hin. lia.
    + by apply elem_of_nil in Hin.
    + apply view_from_bounds in Hin. simpl in Hin. lia.
  - rewrite Hcnt in Hr1. destruct (Hq r) as (q & Hlk & Hget); [lia|].
    rewrite (Hg r) in Hget by lia. symmetry in Hget. apply bool_decide_eq_true in Hget.
    destruct q as [|t q]; [done|]. exists r, q, t. split_and!; try done; try lia.
    intros k q' Hk Hlk'. pose proof (lookup_lt_Some _ _ _ Hlk').
    destruct (decide (q' = [])) as [|Hq']; [done|]. exfalso.
    apply (Hlow (63 - Z.of_nat k)); [lia|]. intros j Hj.
    replace j with (63 - Z.of_nat k) by lia. rewrite (Hbit _ _ Hlk').
    by apply bool_decide_eq_true.
Qed.

Lemma prioarr_remove_spec a :
  pa_wf a -> num a <> 0 ->
  exists p t l a', pa_view a = (p, t) :: l /\
    prioarr_remove a = Ok (t, a') /\ pa_wf a' /\ pa_view a' = l.
Proof.
  intros Hwf Hne. destruct (prioarr_scan a Hwf Hne) as (b & q & t & Hscan & Hb & Hq & Hhi).
  destruct Hwf as (Hlen & Hbm & Hcnt & Hnum & Hlt & Hbit).
  pose proof (view_remove _ _ _ _ Hq Hhi) as Hview.
  exists (Z.of_nat (Z.to_nat (63 - b))), t, (view_from 0 (<[Z.to_nat (63 - b):=q]> (queue a))).
  unfold prioarr_remove, PRI_MAX.
  rewrite bind_ASSERT by (by apply negb_true_iff, Z.eqb_neq).
  rewrite Hscan. cbn [mbind res_bind]. cbv zeta. rewrite (s32_small (63 - b)) by lia.
  assert (arr_get (queue a) (63 - b) = Ok (t :: q)) as -> by (apply arr_get_Ok; auto with lia).
  cbn [mbind res_bind]. rewrite arr_set_ok by lia. cbn [mbind res_bind].
  assert (exists m, (if decide (q = []) then bitmap_reset (map a) b else Ok (map a)) = Ok m /\
    bm_wf m /\ bit_cnt m = 64 /\ forall j, 0 <= j ->
      bm_get m j = if j =? b then bool_decide (q <> []) else bm_get (map a) j)
    as (m & -> & Hm & Hmc & Hmg).
  { destruct (decide (q = [])) as [->|Hne'].
    - destruct (bitmap_reset_spec (map a) b) as (m & -> & Hm & Hmc & Hmg); [done|lia|].
      exists m. split_and!; try done. congruence.
    - exists (map a). split_and!; try done. intros j Hj. destruct (Z.eqb_spec j b) as [->|]; [|done].
      pose proof (Hbit _ _ Hq) as Hx. replace (63 - Z.of_nat (Z.to_nat (63 - b))) with b in Hx by lia.
      rewrite Hx. rewrite !bool_decide_true by done. done. }
  cbn [mbind res_bind]. eexists. split; [done|]. split; [done|].
  unfold pa_wf, pa_view. simpl. split; [|done].
  unfold pa_view in Hnum. rewrite Hview in Hnum. simpl in Hnum.
  rewrite length_insert, s32_small by lia. split_and!; try done; try lia.
  intros k q' Hk. rewrite Hmg by (apply lookup_lt_Some in Hk; rewrite length_insert in Hk; lia).
  destruct (decide (k = Z.to_nat (63 - b))) as [->|Hne'].
  - rewrite list_lookup_insert_eq in Hk by lia. simplify_eq.
    by destruct (Z.eqb_spec (63 - Z.of_nat (Z.to_nat (63 - b))) b); [|lia].
  - rewrite list_lookup_insert_ne in Hk by done.
    destruct (Z.eqb_spec (63 - Z.of_nat k) b); [lia|]. by apply Hbit.
Qed.

(** ** The run queue

    [rq_rep rq la le]: the active array holds [la], the expired one [le]. *)

Definition next_thread_to_run (rq : runqueue) (idle_thread : Z) : res (Z * runqueue) :=
  empty ← runqueue_empty rq;
  if (empty : bool) then Ok (idle_thread, rq)
  else
    a ← arr_get (arrays rq) (active rq);
    rq' ← (if prioarr_empty a then prioarr_swap rq else Ok rq);
    active_remove rq'.

Definition rq_rep (rq : runqueue) (la le : list entry) : Prop :=
  exists a e, length (arrays rq) = 2%nat /\ active rq <> expired rq /\
    arr_get (arrays rq) (active rq) = Ok a /\ arr_get (arrays rq) (expired rq) = Ok e /\
    pa_wf a /\ pa_wf e /\ pa_view a = la /\ pa_view e = le.

Lemma arr_get_set {A} (l l' : list A) i j x :
  arr_set l i x = Ok l' -> 0 <= j ->
  arr_get l' j = if i =? j then Ok x else arr_get l j.
Proof.
  intros [Hi ->]%arr_set_Ok Hj. destruct (Z.eqb_spec i j) as [->|Hne].
  - apply arr_get_Ok. split; [lia|]. apply list_lookup_insert_eq. lia.
  - unfold arr_get. destruct (Z.leb_spec 0 j); [|lia].
    by rewrite list_lookup_insert_ne by lia.
Qed.

Lemma with_array_active rq la le a' :
  rq_rep rq la le -> pa_wf a' ->
  exists rq', with_array rq (active rq) a' = Ok rq' /\ rq_rep rq' (pa_view a') le.
Proof.
  intros (a & e & Hlen & Hne & Ha & He & Hwa & Hwe & Hva & Hve) Hw. unfold with_array.
  apply arr_get_Ok in Ha as [Ha0 Ha1]. pose proof (lookup_lt_Some _ _ _ Ha1).
  rewrite arr_set_ok by lia. simpl. eexists. split; [done|].
  exists a', e. simpl. rewrite length_insert. apply arr_get_Ok in He as He'. 
  assert (arr_set (arrays rq) (active rq) a' =
    Ok (<[Z.to_nat (active rq):=a']> (arrays rq))) as Hs by (apply arr_set_ok; lia).
  rewrite !(arr_get_set _ _ _ _ _ Hs) by lia.
  rewrite Z.eqb_refl. destruct (Z.eqb_spec (active rq) (expired rq)); [done|].
  by split_and!.
Qed.

Lemma rq_rep_head rq p t la le :
  rq_rep rq ((p, t) :: la) le -> forall e, e ∈ la -> e.1 <= p.
Proof.
  intros (a & e & _ & _ & _ & _ & _ & _ & Hv & _). by apply (view_head 0 (queue a) p t la).
Qed.

Lemma runqueue_init_spec : exists rq, runqueue_init = Ok rq /\ rq_rep rq [] [].
Proof.
  destruct prioarr_init_spec as (a & Ha & Hw & Hv). unfold runqueue_init.
  rewrite Ha. simpl. eexists. split; [done|]. exists a, a. split_and!; try done.
Qed.

Lemma active_insert_spec rq la le t p :
  rq_rep rq la le -> 0 <= p <= PRI_MAX -> Z.of_nat (length la) < 2 ^ 31 - 1 ->
  exists rq', active_insert rq t p = Ok rq' /\ rq_rep rq' (pq_insert p t la) le.
Proof.
  intros Hrep Hp Hroom. pose proof Hrep as (a & e & _ & _ & Ha & _ & Hwa & _ & Hva & _).
  unfold active_insert. rewrite Ha. simpl.
  destruct (prioarr_insert_spec a t p) as (a' & -> & Hwa' & Hv'); [done..| |].
  { destruct Hwa as (_ & _ & _ & -> & _ & _). by rewrite Hva. }
  simpl. destruct (with_array_active rq la le a' Hrep Hwa') as (rq' & -> & Hrep').
  exists rq'. split; [done|]. by rewrite Hv', Hva in Hrep'.
Qed.

Lemma rep_empty a : pa_wf a -> prioarr_empty a = bool_decide (pa_view a = []).
Proof.
  intros (_ & _ & _ & Hn & _). unfold prioarr_empty. rewrite Hn.
  case_bool_decide as H; [by rewrite H|]. destruct (pa_view a); [done|].
  apply Z.eqb_neq. simpl. lia.
Qed.

Lemma runqueue_empty_spec rq la le :
  rq_rep rq la le -> runqueue_empty rq = Ok (bool_decide (la = [] /\ le = [])).
Proof.
  intros (a & e & _ & _ & Ha & He & Hwa & Hwe & Hva & Hve). unfold runqueue_empty.
  rewrite Ha, He. simpl. rewrite !rep_empty, Hva, Hve by done.
  repeat case_bool_decide; naive_solver.
Qed.

Lemma active_remove_spec rq p t la le :
  rq_rep rq ((p, t) :: la) le ->
  exists rq', active_remove rq = Ok (t, rq') /\ rq_rep rq' la le.
Proof.
  intros Hrep. pose proof Hrep as (a & e & _ & _ & Ha & _ & Hwa & _ & Hva & _).
  unfold active_remove. rewrite Ha. simpl.
  destruct (prioarr_remove_spec a Hwa) as (p' & t' & l & a' & E & -> & Hwa' & Hv').
  { destruct Hwa as (_ & _ & _ & -> & _). rewrite Hva. simpl. lia. }
  rewrite Hva in E. simplify_eq. simpl.
  destruct (with_array_active rq _ _ a' Hrep Hwa') as (rq' & -> & Hrep'). by exists rq'.
Qed.

Lemma prioarr_swap_spec rq le :
  rq_rep rq [] le -> exists rq', prioarr_swap rq = Ok rq' /\ rq_rep rq' le [].
Proof.
  intros (a & e & Hl & Hne & Ha & He & Hwa & Hwe & Hva & Hve). unfold prioarr_swap.
  rewrite Ha. simpl. destruct (Hwa) as (_ & _ & _ & Hn & _). rewrite Hva in Hn.
  rewrite Hn. simpl. eexists. split; [done|]. by exists e, a.
Qed.

Lemma next_thread_to_run_spec rq la le idle :
  rq_rep rq la le ->
  match la, le with
  | [], [] => next_thread_to_run rq idle = Ok (idle, rq)
  | (_, t) :: la', _ => exists rq', next_thread_to_run rq idle = Ok (t, rq') /\ rq_rep rq' la' le
  | [], (_, t) :: le' => exists rq', next_thread_to_run rq idle = Ok (t, rq') /\ rq_rep rq' le' []
  end.
Proof.
  intros Hrep. unfold next_thread_to_run. rewrite (runqueue_empty_spec _ _ _ Hrep).
  pose proof Hrep as (a & e & _ & _ & Ha & _ & Hwa & _ & Hva & _).
  destruct la as [|[p t] la]; [destruct le as [|[p t] le]|]; cbn [mbind res_bind].
  - by rewrite bool_decide_true.
  - rewrite bool_decide_false by naive_solver. rewrite Ha. simpl.
    rewrite rep_empty, Hva by done. rewrite bool_decide_true by done.
    destruct (prioarr_swap_spec rq _ Hrep) as (rq' & -> & Hrep'). simpl.
    by eapply active_remove_spec.
  - rewrite bool_decide_false by naive_solver. rewrite Ha. simpl.
    rewrite rep_empty, Hva by done. rewrite bool_decide_false by done.
    by eapply active_remove_spec.
Qed.

(** ** Properties *)

(** Inserting a sequence of (thread, priority) pairs, then removing [n]. *)
Fixpoint insert_all (rq : runqueue) (l : list entry) : res runqueue :=
  match l with
  | [] => Ok rq
  | (p, t) :: l => rq' ← active_insert rq t p; insert_all rq' l
  end.

Fixpoint remove_n (n : nat) (rq : runqueue) : res (list Z) :=
  match n with
  | O => Ok []
  | S n => '(t, rq') ← next_thread_to_run rq 0;
           l ← remove_n n rq'; Ok (t :: l)
  end.

(** Stable: by decreasing priority, first come first served within one. *)
Definition by_priority (l : list entry) : list entry :=
  foldl (fun acc e => pq_insert e.1 e.2 acc) [] l.

Lemma insert_all_spec rq la l :
  rq_rep rq la [] -> Forall (fun e => 0 <= e.1 <= PRI_MAX) l ->
  Z.of_nat (length la + length l) < 2 ^ 31 ->
  exists rq', insert_all rq l = Ok rq' /\
    rq_rep rq' (foldl (fun acc e => pq_insert e.1 e.2 acc) la l) [].
Proof.
  intros Hrep Hl. revert rq la Hrep. induction Hl as [|[p t] l Hp Hl IH];
    intros rq la Hrep Hroom; simpl; [by exists rq|].
  destruct (active_insert_spec rq la [] t p) as (rq' & -> & Hrep'); [done|done|simpl in *; lia|].
  apply IH in Hrep'; [done|]. rewrite pq_insert_perm. simpl in *. lia.
Qed.

Lemma remove_n_spec rq l :
  rq_rep rq l [] -> remove_n (length l) rq = Ok (snd <$> l).
Proof.
  revert rq. induction l as [|[p t] l IH]; intros rq Hrep; simpl; [done|].
  pose proof (next_thread_to_run_spec rq _ _ 0 Hrep) as (rq' & -> & Hrep'). simpl.
  by rewrite (IH rq' Hrep').
Qed.

Lemma by_priority_perm_acc l acc :
  foldl (fun acc e => pq_insert e.1 e.2 acc) acc l ≡ₚ l ++ acc.
Proof.
  revert acc. induction l as [|[p t] l IH]; intros acc; simpl; [done|].
  rewrite IH, pq_insert_perm. by rewrite Permutation_middle.
Qed.

Lemma by_priority_perm l : by_priority l ≡ₚ l.
Proof. unfold by_priority. by rewrite by_priority_perm_acc, app_nil_r. Qed.

Lemma pq_insert_sorted p t l :
  Sorted (fun a b => b.1 <= a.1) l -> Sorted (fun a b => b.1 <= a.1) (pq_insert p t l).
Proof.
  induction 1 as [|[p' t'] l Hs IH Hh]; simpl; [by repeat constructor|].
  destruct (Z.leb_spec p p').
  - constructor; [done|]. destruct l as [|[p2 t2] l]; simpl; [by constructor|].
    destruct (Z.leb_spec p p2); constructor; simpl; [|done].
    by inversion Hh.
  - constructor; [by constructor|]. constructor. simpl. lia.
Qed.

Lemma pq_insert_filter p p' t l :
  Sorted (fun a b => b.1 <= a.1) l ->
  filter (fun e => e.1 = p) (pq_insert p' t l) =
  filter (fun e => e.1 = p) (l ++ [(p', t)]).
Proof.
  intros Hs. apply Sorted_StronglySorted in Hs; [|intros [] [] []; simpl; lia].
  induction Hs as [|[p1 t1] l Hs IH Hf]; [done|]. simpl.
  destruct (Z.leb_spec p' p1).
  - rewrite !filter_cons. by rewrite IH.
  - change ((p1, t1) :: l ++ [(p', t)]) with (((p1, t1) :: l) ++ [(p', t)]).
    rewrite filter_app, !(filter_cons _ (p', t)), filter_nil. simpl.
    case_decide as Hp; [|by rewrite app_nil_r].
    subst p. rewrite (filter_none _ ((p1, t1) :: l)); [done|].
    constructor; simpl; [lia|].
    eapply Forall_impl; [exact Hf|]. intros [? ?]; simpl. lia.
Qed.

Lemma by_priority_acc l acc :
  Sorted (fun a b => b.1 <= a.1) acc ->
  let r := foldl (fun acc e => pq_insert e.1 e.2 acc) acc l in
  Sorted (fun a b => b.1 <= a.1) r /\
  forall p, filter (fun e => e.1 = p) r = filter (fun e => e.1 = p) (acc ++ l).
Proof.
  revert acc. induction l as [|[p' t] l IH]; intros acc Hs; simpl.
  - by rewrite app_nil_r.
  - destruct (IH _ (pq_insert_sorted p' t acc Hs)) as [Hs' Hf]. split; [done|].
    intros p. rewrite Hf, filter_app, pq_insert_filter by done.
    by rewrite <- filter_app, <- (assoc_L (++)).
Qed.

(** C7. Priority scheduling with FIFO within a priority: for every sequence
    of insertions with valid priorities into a fresh run queue, every call
    succeeds and the threads come out of [next_thread_to_run] ordered by
    decreasing priority, those of equal priority in order of insertion (the
    stable order [by_priority]), every one of them exactly once. *)
Theorem runqueue_priority_order l :
  Forall (fun e => 0 <= e.1 <= PRI_MAX) l -> Z.of_nat (length l) < 2 ^ 31 ->
  exists rq rq', runqueue_init = Ok rq /\ insert_all rq l = Ok rq' /\
    remove_n (length l) rq' = Ok (snd <$> by_priority l) /\
    by_priority l ≡ₚ l /\ Sorted (fun a b => b.1 <= a.1) (by_priority l) /\
    forall p, filter (fun e => e.1 = p) (by_priority l) = filter (fun e => e.1 = p) l.
Proof.
  intros Hl Hroom. destruct runqueue_init_spec as (rq & Hi & Hrep).
  destruct (insert_all_spec rq [] l Hrep Hl) as (rq' & Hins & Hrep'); [simpl; lia|].
  exists rq, rq'. split_and!; [exact Hi|exact Hins|..].
  - replace (length l) with (length (by_priority l))
      by (by rewrite by_priority_perm). exact (remove_n_spec rq' _ Hrep').
  - apply by_priority_perm.
  - by apply (by_priority_acc l []); constructor.
  - by apply (by_priority_acc l []); constructor.
Qed.

Lemma runqueue_priority_order_witness :
  exists rq rq', runqueue_init = Ok rq /\
    insert_all rq [(31, 100); (63, 200); (31, 300); (0, 400)] = Ok rq' /\
    remove_n 4 rq' = Ok [200; 100; 300; 400].
Proof.
  destruct (runqueue_priority_order [(31, 100); (63, 200); (31, 300); (0, 400)])
    as (rq & rq' & H1 & H2 & H3 & _).
  - repeat constructor; simpl; unfold PRI_MAX; lia.
  - simpl; lia.
  - exists rq, rq'. auto.
Defined.
