(* ===== verification/Kernel.v ===== *)
(** * The kernel's threads: state and operations

    Models threads/thread.c, threads/synch.c, the scheduling side of
    threads/interrupt.c and devices/timer.c.

    One record [kstate] holds the static variables of these files, the
    [struct thread]s, and the semaphores, locks and condition variables.  What a thread still has to do after a context switch
    is on its kernel stack: here a list of [frame]s, one constructor per
    point of the code at which a function can be suspended (by a switch, or
    by an interrupt while interrupts are on).  A C function that may switch
    is a function on [kstate] that first pushes the frames of the code that
    follows it and then runs up to and including the switch; [exec_frame]
    resumes a popped frame.  A thread's own code is an arbitrary client
    ([F_body]): it may call any operation in any order.

    Wait lists and the run queue are sequences of thread addresses ([DList]
    relates sequences to the linked lists). *)

From S2P Require Import Prelude Vaddr Bitmap Runqueue.

(** ** Data *)

Inductive intr_level : Type := INTR_OFF | INTR_ON.

Inductive thread_status : Type :=
  | THREAD_RUNNING | THREAD_READY | THREAD_BLOCKED | THREAD_DYING.

#[global] Instance intr_level_eq_dec : EqDecision intr_level.
Proof. solve_decision. Defined.
#[global] Instance thread_status_eq_dec : EqDecision thread_status.
Proof. solve_decision. Defined.

(** The locks of the kernel, by where they are stored: a static or heap
    object at an address, [tid_lock], the [lock] and [lock_spt] members of a
    [struct thread]. *)
Inductive lref : Type :=
  | LAt (a : Z) | LTid | LThread (t : Z) | LSpt (t : Z).

(** Semaphores likewise: a free-standing one, the one inside a lock, the
    [struct semaphore_elem] on the stack of a thread in [cond_wait], the
    [sema_pf] member of a thread, [idle_started]. *)
Inductive sref : Type :=
  | SAt (a : Z) | SLock (l : lref) | SWaiter (t : Z) | SPf (t : Z) | SIdle.

#[global] Instance lref_eq_dec : EqDecision lref.
Proof. solve_decision. Defined.
#[global] Instance sref_eq_dec : EqDecision sref.
Proof. solve_decision. Defined.

#[global] Instance lref_countable : Countable lref.
Proof.
  refine (inj_countable'
    (fun l => match l with
      | LAt a => (0, a) | LTid => (1, 0) | LThread t => (2, t)
      | LSpt t => (3, t) end)
    (fun p => match p with
      | (0, a) => LAt a | (1, _) => LTid | (2, t) => LThread t
      | (_, t) => LSpt t end) _).
  by intros [].
Defined.

#[global] Instance sref_countable : Countable sref.
Proof.
  refine (inj_countable'
    (fun s => match s with
      | SAt a => (0, a, LTid) | SLock l => (1, 0, l) | SWaiter t => (2, t, LTid)
      | SPf t => (3, t, LTid) | SIdle => (4, 0, LTid) end)
    (fun p => match p with
      | (0, a, _) => SAt a | (1, _, l) => SLock l | (2, t, _) => SWaiter t
      | (3, t, _) => SPf t | (_, _, _) => SIdle end) _).
  by intros [].
Defined.

(** What a new kernel thread runs: [idle], or client code. *)
Inductive thread_func : Type := FuncIdle | FuncClient.

(** Suspended code, named after the function it is the rest of. *)
Inductive frame : Type :=
  | F_body                                       (* the thread's own code *)
  | F_thread_exit                                (* kernel_thread: after function () *)
  | F_kernel_thread (f : thread_func)            (* entry through switch_entry *)
  | F_init_tid                                   (* thread_init: in allocate_tid *)
  | F_init_store (id : Z)                        (* thread_init: tid obtained *)
  | F_thread_start (page : Z)                    (* main: thread_start () *)
  | F_start_wait                                 (* thread_start: intr_enable; sema_down *)
  | F_set_level (old : intr_level)               (* intr_set_level (old_level) *)
  | F_iret                                       (* return from an interrupt *)
  | F_idle_start                                 (* idle: idle_thread = ...; sema_up *)
  | F_idle_loop                                  (* idle: the for loop *)
  | F_idle_hlt                                   (* idle: sti; hlt *)
  | F_create_tid (t : Z) (f : thread_func)       (* allocate_tid: lock acquired *)
  | F_create_tail (t tid : Z) (f : thread_func)  (* thread_create: tid obtained *)
  | F_sema_down (sm : sref)                      (* a call of sema_down *)
  | F_sema_down_loop (sm : sref) (old : intr_level)
  | F_sema_up_tail (sm : sref) (old : intr_level)
  | F_set_holder (l : lref)                      (* lock_acquire: semaphore downed *)
  | F_lock_acquire (l : lref)                    (* a call of lock_acquire *)
  | F_cond_broadcast (c : Z) (l : lref)          (* cond_broadcast: the loop *)
  | F_sleep_tail (old : intr_level).             (* timer_sleep: after thread_block *)

#[global] Instance thread_func_eq_dec : EqDecision thread_func.
Proof. solve_decision. Defined.
#[global] Instance frame_eq_dec : EqDecision frame.
Proof. solve_decision. Defined.

Record thread : Type := mk_thread {
  tid : Z;
  status : thread_status;
  name : list Z;
  stack : Z;                    (* saved stack pointer *)
  priority : Z;
  timeslice : Z;
  pagedir : Z;
  exit_status : Z;
  exited_by_exit_call : bool;
  is_userprog : bool;
  next_fd : Z;
  parent : Z;
  mmid : Z;
  max_code_seg_addr : Z;
  magic : Z;
  eax : Z;                      (* value returned by the last call *)
  kstack : list frame;          (* contents of the kernel stack, top first *)
}.

Record semaphore : Type := mk_semaphore {
  value : Z;
  waiters : list Z;
}.

Record blocked_thread : Type := mk_blocked_thread {
  bt_t : Z;
  unblockable_time : Z;
}.

Record kstate : Type := mk_kstate {
  threads : gmap Z thread;   (* struct threads, by address *)
  all_list : list Z;   (* all_list *)
  idle_thread : Z;   (* idle_thread *)
  initial_thread : Z;   (* initial_thread *)
  run_queue : option runqueue;   (* run_queue; None before runqueue_init *)
  cur : Z;   (* the running thread (its stack is in use) *)
  idle_ticks : Z;   (* statistics *)
  kernel_ticks : Z;
  user_ticks : Z;
  thread_ticks : Z;   (* timer ticks since last yield *)
  next_tid : Z;   (* allocate_tid's counter *)
  level : intr_level;   (* the CPU's interrupt flag *)
  in_external_intr : bool;   (* interrupt.c *)
  yield_on_return : bool;
  cr3 : Z;   (* the active page directory *)
  ticks : Z;   (* timer.c *)
  block_list : list blocked_thread;
  alarm_started : bool;
  semas : gmap sref semaphore;   (* initialised semaphores *)
  holders : gmap lref Z;   (* initialised locks: the holder member *)
  conds : gmap Z (list Z);   (* condition variables: their waiters *)
}.

Definition set_threads (x : gmap Z thread) (s : kstate) : kstate :=
  mk_kstate x (all_list s) (idle_thread s) (initial_thread s) (run_queue s)
    (cur s) (idle_ticks s) (kernel_ticks s) (user_ticks s) (thread_ticks s)
    (next_tid s) (level s) (in_external_intr s) (yield_on_return s) (cr3 s)
    (ticks s) (block_list s) (alarm_started s) (semas s) (holders s) (conds s).
Definition set_all_list (x : list Z) (s : kstate) : kstate :=
  mk_kstate (threads s) x (idle_thread s) (initial_thread s) (run_queue s)
    (cur s) (idle_ticks s) (kernel_ticks s) (user_ticks s) (thread_ticks s)
    (next_tid s) (level s) (in_external_intr s) (yield_on_return s) (cr3 s)
    (ticks s) (block_list s) (alarm_started s) (semas s) (holders s) (conds s).
Definition set_idle_thread (x : Z) (s : kstate) : kstate :=
  mk_kstate (threads s) (all_list s) x (initial_thread s) (run_queue s)
    (cur s) (idle_ticks s) (kernel_ticks s) (user_ticks s) (thread_ticks s)
    (next_tid s) (level s) (in_external_intr s) (yield_on_return s) (cr3 s)
    (ticks s) (block_list s) (alarm_started s) (semas s) (holders s) (conds s).
Definition set_initial_thread (x : Z) (s : kstate) : kstate :=
  mk_kstate (threads s) (all_list s) (idle_thread s) x (run_queue s) (cur s)
    (idle_ticks s) (kernel_ticks s) (user_ticks s) (thread_ticks s)
    (next_tid s) (level s) (in_external_intr s) (yield_on_return s) (cr3 s)
    (ticks s) (block_list s) (alarm_started s) (semas s) (holders s) (conds s).
Definition set_run_queue (x : option runqueue) (s : kstate) : kstate :=
  mk_kstate (threads s) (all_list s) (idle_thread s) (initial_thread s) x
    (cur s) (idle_ticks s) (kernel_ticks s) (user_ticks s) (thread_ticks s)
    (next_tid s) (level s) (in_external_intr s) (yield_on_return s) (cr3 s)
    (ticks s) (block_list s) (alarm_started s) (semas s) (holders s) (conds s).
Definition set_cur (x : Z) (s : kstate) : kstate :=
  mk_kstate (threads s) (all_list s) (idle_thread s) (initial_thread s)
    (run_queue s) x (idle_ticks s) (kernel_ticks s) (user_ticks s)
    (thread_ticks s) (next_tid s) (level s) (in_external_intr s)
    (yield_on_return s) (cr3 s) (ticks s) (block_list s) (alarm_started s)
    (semas s) (holders s) (conds s).
Definition set_idle_ticks (x : Z) (s : kstate) : kstate :=
  mk_kstate (threads s) (all_list s) (idle_thread s) (initial_thread s)
    (run_queue s) (cur s) x (kernel_ticks s) (user_ticks s) (thread_ticks s)
    (next_tid s) (level s) (in_external_intr s) (yield_on_return s) (cr3 s)
    (ticks s) (block_list s) (alarm_started s) (semas s) (holders s) (conds s).
Definition set_kernel_ticks (x : Z) (s : kstate) : kstate :=
  mk_kstate (threads s) (all_list s) (idle_thread s) (initial_thread s)
    (run_queue s) (cur s) (idle_ticks s) x (user_ticks s) (thread_ticks s)
    (next_tid s) (level s) (in_external_intr s) (yield_on_return s) (cr3 s)
    (ticks s) (block_list s) (alarm_started s) (semas s) (holders s) (conds s).
Definition set_user_ticks (x : Z) (s : kstate) : kstate :=
  mk_kstate (threads s) (all_list s) (idle_thread s) (initial_thread s)
    (run_queue s) (cur s) (idle_ticks s) (kernel_ticks s) x (thread_ticks s)
    (next_tid s) (level s) (in_external_intr s) (yield_on_return s) (cr3 s)
    (ticks s) (block_list s) (alarm_started s) (semas s) (holders s) (conds s).
Definition set_thread_ticks (x : Z) (s : kstate) : kstate :=
  mk_kstate (threads s) (all_list s) (idle_thread s) (initial_thread s)
    (run_queue s) (cur s) (idle_ticks s) (kernel_ticks s) (user_ticks s) x
    (next_tid s) (level s) (in_external_intr s) (yield_on_return s) (cr3 s)
    (ticks s) (block_list s) (alarm_started s) (semas s) (holders s) (conds s).
Definition set_next_tid (x : Z) (s : kstate) : kstate :=
  mk_kstate (threads s) (all_list s) (idle_thread s) (initial_thread s)
    (run_queue s) (cur s) (idle_ticks s) (kernel_ticks s) (user_ticks s)
    (thread_ticks s) x (level s) (in_external_intr s) (yield_on_return s)
    (cr3 s) (ticks s) (block_list s) (alarm_started s) (semas s) (holders s)
    (conds s).
Definition set_level (x : intr_level) (s : kstate) : kstate :=
  mk_kstate (threads s) (all_list s) (idle_thread s) (initial_thread s)
    (run_queue s) (cur s) (idle_ticks s) (kernel_ticks s) (user_ticks s)
    (thread_ticks s) (next_tid s) x (in_external_intr s) (yield_on_return s)
    (cr3 s) (ticks s) (block_list s) (alarm_started s) (semas s) (holders s)
    (conds s).
Definition set_in_external_intr (x : bool) (s : kstate) : kstate :=
  mk_kstate (threads s) (all_list s) (idle_thread s) (initial_thread s)
    (run_queue s) (cur s) (idle_ticks s) (kernel_ticks s) (user_ticks s)
    (thread_ticks s) (next_tid s) (level s) x (yield_on_return s) (cr3 s)
    (ticks s) (block_list s) (alarm_started s) (semas s) (holders s) (conds s).
Definition set_yield_on_return (x : bool) (s : kstate) : kstate :=
  mk_kstate (threads s) (all_list s) (idle_thread s) (initial_thread s)
    (run_queue s) (cur s) (idle_ticks s) (kernel_ticks s) (user_ticks s)
    (thread_ticks s) (next_tid s) (level s) (in_external_intr s) x (cr3 s)
    (ticks s) (block_list s) (alarm_started s) (semas s) (holders s) (conds s).
Definition set_cr3 (x : Z) (s : kstate) : kstate :=
  mk_kstate (threads s) (all_list s) (idle_thread s) (initial_thread s)
    (run_queue s) (cur s) (idle_ticks s) (kernel_ticks s) (user_ticks s)
    (thread_ticks s) (next_tid s) (level s) (in_external_intr s)
    (yield_on_return s) x (ticks s) (block_list s) (alarm_started s) (semas s)
    (holders s) (conds s).
Definition set_ticks (x : Z) (s : kstate) : kstate :=
  mk_kstate (threads s) (all_list s) (idle_thread s) (initial_thread s)
    (run_queue s) (cur s) (idle_ticks s) (kernel_ticks s) (user_ticks s)
    (thread_ticks s) (next_tid s) (level s) (in_external_intr s)
    (yield_on_return s) (cr3 s) x (block_list s) (alarm_started s) (semas s)
    (holders s) (conds s).
Definition set_block_list (x : list blocked_thread) (s : kstate) : kstate :=
  mk_kstate (threads s) (all_list s) (idle_thread s) (initial_thread s)
    (run_queue s) (cur s) (idle_ticks s) (kernel_ticks s) (user_ticks s)
    (thread_ticks s) (next_tid s) (level s) (in_external_intr s)
    (yield_on_return s) (cr3 s) (ticks s) x (alarm_started s) (semas s)
    (holders s) (conds s).
Definition set_alarm_started (x : bool) (s : kstate) : kstate :=
  mk_kstate (threads s) (all_list s) (idle_thread s) (initial_thread s)
    (run_queue s) (cur s) (idle_ticks s) (kernel_ticks s) (user_ticks s)
    (thread_ticks s) (next_tid s) (level s) (in_external_intr s)
    (yield_on_return s) (cr3 s) (ticks s) (block_list s) x (semas s)
    (holders s) (conds s).
Definition set_semas (x : gmap sref semaphore) (s : kstate) : kstate :=
  mk_kstate (threads s) (all_list s) (idle_thread s) (initial_thread s)
    (run_queue s) (cur s) (idle_ticks s) (kernel_ticks s) (user_ticks s)
    (thread_ticks s) (next_tid s) (level s) (in_external_intr s)
    (yield_on_return s) (cr3 s) (ticks s) (block_list s) (alarm_started s) x
    (holders s) (conds s).
Definition set_holders (x : gmap lref Z) (s : kstate) : kstate :=
  mk_kstate (threads s) (all_list s) (idle_thread s) (initial_thread s)
    (run_queue s) (cur s) (idle_ticks s) (kernel_ticks s) (user_ticks s)
    (thread_ticks s) (next_tid s) (level s) (in_external_intr s)
    (yield_on_return s) (cr3 s) (ticks s) (block_list s) (alarm_started s)
    (semas s) x (conds s).
Definition set_conds (x : gmap Z (list Z)) (s : kstate) : kstate :=
  mk_kstate (threads s) (all_list s) (idle_thread s) (initial_thread s)
    (run_queue s) (cur s) (idle_ticks s) (kernel_ticks s) (user_ticks s)
    (thread_ticks s) (next_tid s) (level s) (in_external_intr s)
    (yield_on_return s) (cr3 s) (ticks s) (block_list s) (alarm_started s)
    (semas s) (holders s) x.
(** ** Access to threads and objects *)

Definition THREAD_MAGIC : Z := 0xcd6abf4b.

Definition from_option_res {A} (o : option A) : res A :=
  match o with Some x => Ok x | None => Fail BadAccess end.

Definition get_thread (s : kstate) (t : Z) : res thread :=
  from_option_res (threads s !! t).

Definition put_thread (t : Z) (th : thread) (s : kstate) : kstate :=
  set_threads (<[t := th]> (threads s)) s.

Definition with_status (th : thread) (x : thread_status) : thread :=
  mk_thread (tid th) x (name th) (stack th) (priority th) (timeslice th)
    (pagedir th) (exit_status th) (exited_by_exit_call th) (is_userprog th)
    (next_fd th) (parent th) (mmid th) (max_code_seg_addr th) (magic th)
    (eax th) (kstack th).
Definition with_tid (th : thread) (x : Z) : thread :=
  mk_thread x (status th) (name th) (stack th) (priority th) (timeslice th)
    (pagedir th) (exit_status th) (exited_by_exit_call th) (is_userprog th)
    (next_fd th) (parent th) (mmid th) (max_code_seg_addr th) (magic th)
    (eax th) (kstack th).
Definition with_priority (th : thread) (x : Z) : thread :=
  mk_thread (tid th) (status th) (name th) (stack th) x (timeslice th)
    (pagedir th) (exit_status th) (exited_by_exit_call th) (is_userprog th)
    (next_fd th) (parent th) (mmid th) (max_code_seg_addr th) (magic th)
    (eax th) (kstack th).
Definition with_stack (th : thread) (x : Z) : thread :=
  mk_thread (tid th) (status th) (name th) x (priority th) (timeslice th)
    (pagedir th) (exit_status th) (exited_by_exit_call th) (is_userprog th)
    (next_fd th) (parent th) (mmid th) (max_code_seg_addr th) (magic th)
    (eax th) (kstack th).
Definition with_kstack (th : thread) (x : list frame) : thread :=
  mk_thread (tid th) (status th) (name th) (stack th) (priority th) (timeslice th)
    (pagedir th) (exit_status th) (exited_by_exit_call th) (is_userprog th)
    (next_fd th) (parent th) (mmid th) (max_code_seg_addr th) (magic th)
    (eax th) x.

Definition with_eax (th : thread) (x : Z) : thread :=
  mk_thread (tid th) (status th) (name th) (stack th) (priority th) (timeslice th)
    (pagedir th) (exit_status th) (exited_by_exit_call th) (is_userprog th)
    (next_fd th) (parent th) (mmid th) (max_code_seg_addr th) (magic th)
    x (kstack th).

Definition set_status (t : Z) (x : thread_status) (s : kstate) : res kstate :=
  th ← get_thread s t; Ok (put_thread t (with_status th x) s).

(** Push suspended code on the running thread's stack. *)
Definition push (f : frame) (s : kstate) : res kstate :=
  th ← get_thread s (cur s);
  Ok (put_thread (cur s) (with_kstack th (f :: kstack th)) s).

Definition get_sema (s : kstate) (sm : sref) : res semaphore :=
  from_option_res (semas s !! sm).
Definition put_sema (sm : sref) (x : semaphore) (s : kstate) : kstate :=
  set_semas (<[sm := x]> (semas s)) s.

(** ** interrupt.c: the interrupt flag *)

Definition intr_get_level (s : kstate) : intr_level := level s.
Definition intr_context (s : kstate) : bool := in_external_intr s.
Definition is_off (s : kstate) : bool := bool_decide (intr_get_level s = INTR_OFF).

Definition intr_enable (s : kstate) : res kstate :=
  ASSERT (negb (intr_context s));;
  Ok (set_level INTR_ON s).

Definition intr_disable (s : kstate) : intr_level * kstate :=
  (intr_get_level s, set_level INTR_OFF s).

Definition intr_set_level (l : intr_level) (s : kstate) : res kstate :=
  match l with
  | INTR_ON => intr_enable s
  | INTR_OFF => Ok (snd (intr_disable s))
  end.

Definition intr_yield_on_return (s : kstate) : res kstate :=
  ASSERT (intr_context s);;
  Ok (set_yield_on_return true s).

(** ** thread.c: identity *)

Definition running_thread (s : kstate) : Z := cur s.

Definition is_thread (s : kstate) (t : Z) : res bool :=
  if t =? NULL then Ok false
  else th ← get_thread s t; Ok (magic th =? THREAD_MAGIC).

Definition thread_current (s : kstate) : res Z :=
  let t := running_thread s in
  b ← is_thread s t;
  ASSERT b;;
  th ← get_thread s t;
  ASSERT (bool_decide (status th = THREAD_RUNNING));;
  Ok t.

Definition thread_tid (s : kstate) : res Z :=
  t ← thread_current s; th ← get_thread s t; Ok (tid th).
Definition thread_name (s : kstate) : res (list Z) :=
  t ← thread_current s; th ← get_thread s t; Ok (name th).
Definition thread_get_priority (s : kstate) : res Z :=
  t ← thread_current s; th ← get_thread s t; Ok (priority th).

Definition thread_set_priority (new_priority : Z) (s : kstate) : res kstate :=
  t ← thread_current s; th ← get_thread s t;
  Ok (put_thread t (with_priority th new_priority) s).

(** ** thread.c: switching *)

(** process.c [process_activate]: the page tables of the running thread;
    [pagedir_activate (NULL)] loads [base_page_dir], here address 0. *)
Definition process_activate (s : kstate) : res kstate :=
  t ← thread_current s; th ← get_thread s t; Ok (set_cr3 (pagedir th) s).

Definition schedule_tail (prev : Z) (s : kstate) : res kstate :=
  ASSERT (is_off s);;
  s ← set_status (running_thread s) THREAD_RUNNING s;
  let s := set_thread_ticks 0 s in
  s ← process_activate s;
  if prev =? NULL then Ok s
  else
    p ← get_thread s prev;
    if bool_decide (status p = THREAD_DYING) && negb (prev =? initial_thread s) then
      ASSERT (negb (prev =? running_thread s));;
      Ok (set_threads (delete prev (threads s)) s)
    else Ok s.

Definition schedule (s : kstate) : res kstate :=
  let c := running_thread s in
  rq ← from_option_res (run_queue s);
  '(next, rq') ← next_thread_to_run rq (idle_thread s);
  let s := set_run_queue (Some rq') s in
  ASSERT (is_off s);;
  th ← get_thread s c;
  ASSERT (negb (bool_decide (status th = THREAD_RUNNING)));;
  b ← is_thread s next;
  ASSERT b;;
  if negb (c =? next) then schedule_tail c (set_cur next s)
  else schedule_tail NULL s.

Definition thread_block (s : kstate) : res kstate :=
  ASSERT (negb (intr_context s));;
  ASSERT (is_off s);;
  t ← thread_current s;
  s ← set_status t THREAD_BLOCKED s;
  schedule s.

(** [active_insert (&run_queue, t)]. *)
Definition rq_insert (t : Z) (s : kstate) : res kstate :=
  th ← get_thread s t;
  rq ← from_option_res (run_queue s);
  rq' ← active_insert rq t (priority th);
  Ok (set_run_queue (Some rq') s).

Definition thread_yield (s : kstate) : res kstate :=
  c ← thread_current s;
  ASSERT (negb (intr_context s));;
  let '(old_level, s) := intr_disable s in
  s ← push (F_set_level old_level) s;
  s ← (if negb (c =? idle_thread s) then rq_insert c s else Ok s);
  s ← set_status c THREAD_READY s;
  schedule s.

Definition thread_unblock (t : Z) (s : kstate) : res kstate :=
  b ← is_thread s t;
  ASSERT b;;
  let '(old_level, s) := intr_disable s in
  th ← get_thread s t;
  ASSERT (bool_decide (status th = THREAD_BLOCKED));;
  s ← rq_insert t s;
  s ← set_status t THREAD_READY s;
  c ← thread_current s;
  cth ← get_thread s c;
  if negb (c =? idle_thread s) && (priority cth <? priority th) then
    s ← push (F_set_level old_level) s;
    thread_yield s
  else intr_set_level old_level s.

(** [thread_exit] after [process_exit ()], whose kernel calls are calls of
    the thread's own code in this model. *)
Definition thread_exit (s : kstate) : res kstate :=
  ASSERT (negb (intr_context s));;
  let '(_, s) := intr_disable s in
  c ← thread_current s;
  let s := set_all_list (filter (fun x => x <> c) (all_list s)) s in
  s ← set_status c THREAD_DYING s;
  schedule s.

(** [func] is applied to every thread of [all_list], which it must not
    change. *)
Definition thread_foreach (func : Z -> kstate -> res kstate) (s : kstate) : res kstate :=
  ASSERT (is_off s);;
  foldl (fun r t => s ← r; func t s) (Ok s) (all_list s).

Definition thread_tick (s : kstate) : res kstate :=
  t ← thread_current s;
  th ← get_thread s t;
  let s := if t =? idle_thread s then set_idle_ticks (s64 (idle_ticks s + 1)) s
           else if negb (pagedir th =? NULL) then set_user_ticks (s64 (user_ticks s + 1)) s
           else set_kernel_ticks (s64 (kernel_ticks s + 1)) s in
  let s := set_thread_ticks (u32 (thread_ticks s + 1)) s in
  if timeslice th <=? thread_ticks s then intr_yield_on_return s else Ok s.

(** ** synch.c *)

Definition sema_init (sm : sref) (v : Z) (s : kstate) : kstate :=
  put_sema sm (mk_semaphore v []) s.

(** The [while] loop of [sema_down] and what follows it. *)
Definition sema_down_loop (sm : sref) (old_level : intr_level) (s : kstate) : res kstate :=
  x ← get_sema s sm;
  if value x =? 0 then
    c ← thread_current s;
    let s := put_sema sm (mk_semaphore (value x) (waiters x ++ [c])) s in
    s ← push (F_sema_down_loop sm old_level) s;
    thread_block s
  else
    let s := put_sema sm (mk_semaphore (value x - 1) (waiters x)) s in
    intr_set_level old_level s.

Definition sema_down (sm : sref) (s : kstate) : res kstate :=
  ASSERT (negb (intr_context s));;
  let '(old_level, s) := intr_disable s in
  sema_down_loop sm old_level s.

Definition sema_try_down (sm : sref) (s : kstate) : res (bool * kstate) :=
  let '(old_level, s) := intr_disable s in
  x ← get_sema s sm;
  let '(success, s) :=
    if 0 <? value x then (true, put_sema sm (mk_semaphore (value x - 1) (waiters x)) s)
    else (false, s) in
  s ← intr_set_level old_level s;
  Ok (success, s).

(** A call followed by more code: in an external interrupt no call switches
    ([thread_block] and [thread_yield] assert it), so the code that follows
    simply runs next; in a thread it is a frame. *)
Definition call_then (f : frame) (call rest : kstate -> res kstate) (s : kstate) : res kstate :=
  if intr_context s then s ← call s; rest s
  else s ← push f s; call s.

Definition sema_up_tail (sm : sref) (old_level : intr_level) (s : kstate) : res kstate :=
  x ← get_sema s sm;
  let s := put_sema sm (mk_semaphore (u32 (value x + 1)) (waiters x)) s in
  intr_set_level old_level s.

(** When the waiter is unblocked the rest of [sema_up] runs as a frame: it
    comes after a possible switch inside [thread_unblock]. *)
Definition sema_up (sm : sref) (s : kstate) : res kstate :=
  let '(old_level, s) := intr_disable s in
  x ← get_sema s sm;
  match waiters x with
  | [] => sema_up_tail sm old_level s
  | t :: ws =>
      let s := put_sema sm (mk_semaphore (value x) ws) s in
      call_then (F_sema_up_tail sm old_level) (thread_unblock t)
        (sema_up_tail sm old_level) s
  end.

Definition put_holder (l : lref) (t : Z) (s : kstate) : kstate :=
  set_holders (<[l := t]> (holders s)) s.

Definition lock_init (l : lref) (s : kstate) : kstate :=
  sema_init (SLock l) 1 (put_holder l NULL s).

Definition lock_held_by_current_thread (l : lref) (s : kstate) : res bool :=
  h ← from_option_res (holders s !! l);
  c ← thread_current s;
  Ok (h =? c).

Definition lock_acquire (l : lref) (s : kstate) : res kstate :=
  ASSERT (negb (intr_context s));;
  b ← lock_held_by_current_thread l s;
  ASSERT (negb b);;
  s ← push (F_set_holder l) s;
  sema_down (SLock l) s.

Definition set_holder (l : lref) (s : kstate) : res kstate :=
  c ← thread_current s;
  _ ← from_option_res (holders s !! l);
  Ok (put_holder l c s).

Definition lock_try_acquire (l : lref) (s : kstate) : res (bool * kstate) :=
  b ← lock_held_by_current_thread l s;
  ASSERT (negb b);;
  '(success, s) ← sema_try_down (SLock l) s;
  if (success : bool) then s ← set_holder l s; Ok (true, s)
  else Ok (false, s).

Definition lock_release (l : lref) (s : kstate) : res kstate :=
  b ← lock_held_by_current_thread l s;
  ASSERT b;;
  sema_up (SLock l) (put_holder l NULL s).

Definition cond_init (c : Z) (s : kstate) : kstate :=
  set_conds (<[c := []]> (conds s)) s.

(** [waiter] lives on the current thread's stack: the list holds the thread. *)
Definition cond_wait (c : Z) (l : lref) (s : kstate) : res kstate :=
  ASSERT (negb (intr_context s));;
  b ← lock_held_by_current_thread l s;
  ASSERT b;;
  t ← thread_current s;
  let s := sema_init (SWaiter t) 0 s in
  ws ← from_option_res (conds s !! c);
  let s := set_conds (<[c := ws ++ [t]]> (conds s)) s in
  s ← push (F_lock_acquire l) s;
  s ← push (F_sema_down (SWaiter t)) s;
  lock_release l s.

Definition cond_signal (c : Z) (l : lref) (s : kstate) : res kstate :=
  ASSERT (negb (intr_context s));;
  b ← lock_held_by_current_thread l s;
  ASSERT b;;
  ws ← from_option_res (conds s !! c);
  match ws with
  | [] => Ok s
  | w :: ws => sema_up (SWaiter w) (set_conds (<[c := ws]> (conds s)) s)
  end.

Definition cond_broadcast (c : Z) (l : lref) (s : kstate) : res kstate :=
  ws ← from_option_res (conds s !! c);
  match ws with
  | [] => Ok s
  | _ => s ← push (F_cond_broadcast c l) s; cond_signal c l s
  end.

(** ** thread.c: creation *)

(** [init_thread]: the empty lists [open_files], [childs], [locks],
    [sup_page_table], [mf_table] and the null [file] belong to the process
    and memory components. *)
Definition init_thread (t : Z) (nm : list Z) (prio : Z) (s : kstate) : res kstate :=
  ASSERT (negb (t =? NULL));;
  ASSERT ((PRI_MIN <=? prio) && (prio <=? PRI_MAX));;
  let par := match threads s !! running_thread s with
             | Some r => if magic r =? THREAD_MAGIC then running_thread s else NULL
             | None => NULL
             end in
  let th := mk_thread 0 THREAD_BLOCKED (take 15 nm) (t + PGSIZE) prio (u32 (prio + 5))
              NULL (-1) false false 2 par 0 0 THREAD_MAGIC 0 [] in
  let s := put_thread t th s in
  let s := set_all_list (all_list s ++ [t]) s in
  let s := lock_init (LThread t) s in
  let s := lock_init (LSpt t) s in
  Ok (sema_init (SPf t) 1 s).

Definition alloc_frame (t size : Z) (s : kstate) : res kstate :=
  b ← is_thread s t;
  ASSERT b;;
  ASSERT (size mod 4 =? 0);;
  th ← get_thread s t;
  Ok (put_thread t (with_stack th (stack th - size)) s).

(** [page] is the result of [palloc_get_page (PAL_ZERO)]. *)
Definition thread_create (page : Z) (nm : list Z) (prio : Z) (f : thread_func)
    (s : kstate) : res kstate :=
  if page =? NULL then Ok s
  else
    s ← init_thread page nm prio s;
    s ← push (F_create_tid page f) s;
    lock_acquire LTid s.

(** [allocate_tid] once the lock is held. *)
Definition create_tid (t : Z) (f : thread_func) (s : kstate) : res kstate :=
  let tid := next_tid s in
  let s := set_next_tid (s32 (next_tid s + 1)) s in
  s ← push (F_create_tail t tid f) s;
  lock_release LTid s.

(** The three frames put on the new stack make its first switch enter
    [kernel_thread (function, aux)]. *)
Definition create_tail (t id : Z) (f : thread_func) (s : kstate) : res kstate :=
  th ← get_thread s t;
  let s := put_thread t (with_tid th id) s in
  let '(old_level, s) := intr_disable s in
  s ← alloc_frame t 12 s;
  s ← alloc_frame t 4 s;
  s ← alloc_frame t 28 s;
  th ← get_thread s t;
  let s := put_thread t (with_kstack th [F_kernel_thread f]) s in
  s ← intr_set_level old_level s;
  thread_unblock t s.

(** The end of [thread_init]: [initial_thread->tid = allocate_tid ()]. *)
Definition init_tid (s : kstate) : res kstate :=
  let id := next_tid s in
  let s := set_next_tid (s32 (next_tid s + 1)) s in
  s ← push (F_init_store id) s;
  lock_release LTid s.

Definition init_store (id : Z) (s : kstate) : res kstate :=
  th ← get_thread s (initial_thread s);
  Ok (put_thread (initial_thread s) (with_tid th id) s).

Definition kernel_thread (f : thread_func) (s : kstate) : res kstate :=
  s ← intr_enable s;
  s ← push F_thread_exit s;
  push (match f with FuncIdle => F_idle_start | FuncClient => F_body end) s.

Definition idle_name : list Z := [105; 100; 108; 101].
Definition main_name : list Z := [109; 97; 105; 110].

Definition thread_start (page : Z) (s : kstate) : res kstate :=
  rq ← runqueue_init;
  let s := set_run_queue (Some rq) s in
  let s := sema_init SIdle 0 s in
  s ← push F_start_wait s;
  thread_create page idle_name PRI_MIN FuncIdle s.

Definition start_wait (s : kstate) : res kstate :=
  s ← intr_enable s;
  sema_down SIdle s.

Definition idle_start (s : kstate) : res kstate :=
  t ← thread_current s;
  let s := set_idle_thread t s in
  s ← push F_idle_loop s;
  sema_up SIdle s.

Definition idle_loop (s : kstate) : res kstate :=
  let '(_, s) := intr_disable s in
  s ← push F_idle_hlt s;
  thread_block s.

(** [sti; hlt]: the loop goes on after the next interrupt. *)
Definition idle_hlt (s : kstate) : res kstate := push F_idle_loop (set_level INTR_ON s).

(** ** timer.c *)

Definition timer_ticks (s : kstate) : res (Z * kstate) :=
  let '(old_level, s) := intr_disable s in
  let t := ticks s in
  s ← intr_set_level old_level s;
  Ok (t, s).

Definition cmp_func (bt1 bt2 : blocked_thread) : bool :=
  if unblockable_time bt2 <=? unblockable_time bt1 then false else true.

(** [malloc_ok]: whether [malloc] returned memory; it is not checked. *)
Definition timer_sleep (malloc_ok : bool) (n : Z) (s : kstate) : res kstate :=
  '(start, s) ← timer_ticks s;
  ASSERT (bool_decide (intr_get_level s = INTR_ON));;
  if malloc_ok then
    c ← thread_current s;
    let bt := mk_blocked_thread c (s64 (start + n)) in
    let '(old_level, s) := intr_disable s in
    let s := set_block_list (insert_seq cmp_func bt (block_list s)) s in
    s ← push (F_sleep_tail old_level) s;
    thread_block s
  else Fail BadAccess.

Definition alarmclock_init (s : kstate) : kstate :=
  set_alarm_started true (set_block_list [] s).

Definition check_unblockable (s : kstate) : res kstate :=
  if alarm_started s then
    match block_list s with
    | [] => Ok s
    | bt :: rest =>
        '(now, s) ← timer_ticks s;
        if unblockable_time bt <=? now then
          let '(old_level, s) := intr_disable s in
          let s := set_block_list rest s in
          call_then (F_set_level old_level) (thread_unblock (bt_t bt))
            (intr_set_level old_level) s
        else Ok s
    end
  else Ok s.

Definition set_eax (v : Z) (s : kstate) : res kstate :=
  th ← get_thread s (cur s); Ok (put_thread (cur s) (with_eax th v) s).

(** ** Resuming a thread *)

Definition exec_frame (f : frame) : kstate -> res kstate :=
  match f with
  | F_body => Ok
  | F_thread_exit => thread_exit
  | F_kernel_thread g => kernel_thread g
  | F_init_tid => init_tid
  | F_init_store id => init_store id
  | F_thread_start page => thread_start page
  | F_start_wait => start_wait
  | F_set_level old => intr_set_level old
  | F_iret => fun s => Ok (set_level INTR_ON s)
  | F_idle_start => idle_start
  | F_idle_loop => idle_loop
  | F_idle_hlt => idle_hlt
  | F_create_tid t g => create_tid t g
  | F_create_tail t id g => create_tail t id g
  | F_sema_down sm => sema_down sm
  | F_sema_down_loop sm old => sema_down_loop sm old
  | F_sema_up_tail sm old => sema_up_tail sm old
  | F_set_holder l => set_holder l
  | F_lock_acquire l => lock_acquire l
  | F_cond_broadcast c l => cond_broadcast c l
  | F_sleep_tail old => intr_set_level old
  end.

(** ** Interrupts *)

(** The external interrupt handlers: the timer, and a disk channel, which
    ups its completion semaphore. *)
Inductive handler : Type :=
  | H_timer | H_disk (a : Z).

Definition timer_interrupt (s : kstate) : res kstate :=
  let s := set_ticks (s64 (ticks s + 1)) s in
  s ← check_unblockable s;
  thread_tick s.

Definition run_handler (h : handler) : kstate -> res kstate :=
  match h with
  | H_timer => timer_interrupt
  | H_disk a => sema_up (SAt a)
  end.

(** [intr_handler] for an external interrupt, entered with interrupts off
    through an interrupt gate. *)
Definition intr_handler (h : handler) (s : kstate) : res kstate :=
  ASSERT (is_off s);;
  ASSERT (negb (intr_context s));;
  let s := set_in_external_intr true s in
  let s := set_yield_on_return false s in
  s ← run_handler h s;
  ASSERT (is_off s);;
  ASSERT (intr_context s);;
  let s := set_in_external_intr false s in
  if yield_on_return s then thread_yield s else Ok s.

(** The interrupt gate saves the flags and turns interrupts off. *)
Definition interrupt (h : handler) (s : kstate) : res kstate :=
  s ← push F_iret s;
  intr_handler h (set_level INTR_OFF s).

(** ** Runs of the kernel *)

(** The calls a thread's own code can make. *)
Inductive call : Type :=
  | C_return                                    (* the thread function returns *)
  | C_thread_create (page : Z) (nm : list Z) (prio : Z)
  | C_thread_yield | C_thread_exit | C_set_priority (p : Z)
  | C_intr_set_level (l : intr_level)
  | C_sema_init (a v : Z) | C_sema_down (a : Z) | C_sema_try_down (a : Z) | C_sema_up (a : Z)
  | C_lock_init (l : lref) | C_lock_acquire (l : lref) | C_lock_try_acquire (l : lref)
  | C_lock_release (l : lref)
  | C_cond_init (c : Z) | C_cond_wait (c : Z) (l : lref) | C_cond_signal (c : Z) (l : lref)
  | C_cond_broadcast (c : Z) (l : lref)
  | C_alarmclock_init | C_timer_sleep (malloc_ok : bool) (n : Z).

Definition bool_ret (r : res (bool * kstate)) : res kstate :=
  '(b, s) ← r; set_eax (if (b : bool) then 1 else 0) s.

Definition exec_call (c : call) (s : kstate) : res kstate :=
  match c with
  | C_return => Ok s
  | C_thread_create page nm prio => thread_create page nm prio FuncClient s
  | C_thread_yield => thread_yield s
  | C_thread_exit => thread_exit s
  | C_set_priority p => thread_set_priority p s
  | C_intr_set_level l => intr_set_level l s
  | C_sema_init a v => Ok (sema_init (SAt a) v s)
  | C_sema_down a => sema_down (SAt a) s
  | C_sema_try_down a => bool_ret (sema_try_down (SAt a) s)
  | C_sema_up a => sema_up (SAt a) s
  | C_lock_init l => Ok (lock_init l s)
  | C_lock_acquire l => lock_acquire l s
  | C_lock_try_acquire l => bool_ret (lock_try_acquire l s)
  | C_lock_release l => lock_release l s
  | C_cond_init c => Ok (cond_init c s)
  | C_cond_wait c l => cond_wait c l s
  | C_cond_signal c l => cond_signal c l s
  | C_cond_broadcast c l => cond_broadcast c l s
  | C_alarmclock_init => Ok (alarmclock_init s)
  | C_timer_sleep m n => timer_sleep m n s
  end.

(** An event: the running thread goes on with its suspended kernel code, its
    own code makes a call, or a device interrupts. *)
Inductive event : Type := E_run | E_call (c : call) | E_intr (h : handler).

(** [pop s] takes the top frame off the running thread's stack. *)
Definition pop (s : kstate) : option (frame * kstate) :=
  th ← threads s !! cur s;
  match kstack th with
  | [] => None
  | f :: k => Some (f, put_thread (cur s) (with_kstack th k) s)
  end.

(** [None]: the event is not possible in this state (the thread is not in
    its own code, has nothing suspended, or interrupts are off). *)
Definition exec_event (e : event) (s : kstate) : option (res kstate) :=
  match e with
  | E_run =>
      match pop s with
      | Some (F_body, _) | None => None
      | Some (f, s') => Some (exec_frame f s')
      end
  | E_call c =>
      match pop s, c with
      | Some (F_body, s'), C_return => Some (Ok s')
      | Some (F_body, _), _ => Some (exec_call c s)
      | _, _ => None
      end
  | E_intr h =>
      match intr_get_level s with
      | INTR_ON => Some (interrupt h s)
      | INTR_OFF => None
      end
  end.

Fixpoint run (es : list event) (s : kstate) : option (res kstate) :=
  match es with
  | [] => Some (Ok s)
  | e :: es =>
      match exec_event e s with
      | Some (Ok s') => run es s'
      | r => r
      end
  end.

(** ** Start-up *)

(** Static storage before [thread_init]; the loader's stack page is [main]. *)
Definition blank (main : Z) : kstate :=
  mk_kstate ∅ [] NULL NULL None main 0 0 0 0 1 INTR_OFF false false 0 0 [] false ∅ ∅ ∅.

(** [thread_init], up to the call of [allocate_tid].  The initial thread
    goes on to call [thread_start], for which [palloc_get_page] returns
    [idle_page], and then runs the rest of [main]. *)
Definition thread_init (main idle_page : Z) : res kstate :=
  let s := blank main in
  ASSERT (is_off s);;
  let s := lock_init LTid s in
  let s := set_all_list [] s in
  let s := set_initial_thread (running_thread s) s in
  s ← init_thread main main_name PRI_DEFAULT s;
  s ← set_status main THREAD_RUNNING s;
  s ← push F_thread_exit s;
  s ← push F_body s;
  s ← push (F_thread_start idle_page) s;
  s ← push F_init_tid s;
  lock_acquire LTid s.
