(* ===== verification/SchedInv.v ===== *)
(** * The invariant of the thread system

    Holds between any two events of a run of [Kernel]: exactly one thread
    runs; the run queue holds exactly the ready threads, each in the queue
    of its priority; every thread on a wait list is blocked and suspended
    in the code that put it there; and every lock has at most one owner.

    Ownership is counted.  A frame that will give the lock back to its
    semaphore ([sema_up]'s tail) or that will take the holder's place
    ([lock_acquire] after [sema_down]) carries one token; a [sema_down] of
    the lock that has not yet completed cancels the token of the
    [lock_acquire] below it.  The semaphore's value, the holder and the
    tokens of all stacks add up to at most one ([tok_inv]).  The same count
    shows that [idle_thread] and the run queue are set up at most once and
    that a thread under construction has a single creator. *)

From S2P Require Import Prelude MapSum Vaddr Bitmap Runqueue Kernel.

(** ** Tokens *)

Inductive resource : Type := RLock (l : lref) | RIdle | RNew (t : Z) | RStart.
#[global] Instance resource_eq_dec : EqDecision resource.
Proof. solve_decision. Defined.

Definition idle_token (f : thread_func) (r : resource) : Z :=
  if decide (f = FuncIdle /\ r = RIdle) then 1 else 0.

(** One token when [sm] is the semaphore of the lock [r]. *)
Definition sema_token (sm : sref) (r : resource) : Z :=
  match r with
  | RLock l => if decide (sm = SLock l) then 1 else 0
  | _ => 0
  end.

(** A thread under construction belongs to the code constructing it. *)
Definition new_token (t : Z) (r : resource) : Z :=
  if decide (r = RNew t) then 1 else 0.

Definition weight (r : resource) (f : frame) : Z :=
  match f with
  | F_set_holder l => if decide (r = RLock l) then 1 else 0
  | F_sema_down_loop sm _ => - sema_token sm r
  | F_sema_down sm => - sema_token sm r
  | F_sema_up_tail sm _ => sema_token sm r
  | F_thread_start _ => idle_token FuncIdle r + if decide (r = RStart) then 1 else 0
  | F_idle_start => idle_token FuncIdle r
  | F_kernel_thread g => idle_token g r
  | F_create_tid t g | F_create_tail t _ g => idle_token g r + new_token t r
  | _ => 0
  end.

Fixpoint toks (r : resource) (k : list frame) : Z :=
  match k with
  | [] => 0
  | f :: k => weight r f + toks r k
  end.

Definition all_toks (s : kstate) (r : resource) : Z :=
  msum (fun th => toks r (kstack th)) (threads s).

(** A [sema_down] of a lock's semaphore is always a call of [lock_acquire];
    a new thread starts on an empty stack. *)
Definition top_ok (f : frame) (k : list frame) : Prop :=
  match f with
  | F_sema_down_loop (SLock l) _ | F_sema_down (SLock l) =>
      exists k', k = F_set_holder l :: k'
  | F_kernel_thread _ => k = []
  | F_idle_start => k = [F_thread_exit]
  | _ => True
  end.

Fixpoint kstack_ok (k : list frame) : Prop :=
  match k with
  | [] => True
  | f :: k => top_ok f k /\ kstack_ok k
  end.

(** The only negative weight is cancelled by the frame below. *)
Lemma weight_top r f k :
  top_ok f k ->
  0 <= weight r f \/
  exists l k', r = RLock l /\ weight r f = -1 /\ k = F_set_holder l :: k'.
Proof.
  intros Hf. destruct f; simpl in *; unfold idle_token, sema_token, new_token; destruct r;
    repeat case_decide; simplify_eq; try (left; lia); right; destruct Hf; eauto.
Qed.

Lemma toks_nonneg r k : kstack_ok k -> 0 <= toks r k.
Proof.
  enough (kstack_ok k -> 0 <= toks r k /\
    forall l k', k = F_set_holder l :: k' -> r = RLock l -> 1 <= toks r k) by tauto.
  induction k as [|g k IH]; simpl; [done|]. intros [Hg Hk].
  destruct (IH Hk) as [Hk0 Hk1].
  destruct (weight_top r g k Hg) as [?|(l & k' & -> & Hw & ->)].
  - split; [lia|]. intros l k' [= -> ->] ->. simpl. rewrite decide_True by done. lia.
  - specialize (Hk1 l k' eq_refl eq_refl). split; [lia|].
    intros l' k'' [= -> ->] _. exfalso. revert Hw. simpl. case_decide; lia.
Qed.

(** ** The invariant *)

(** Addresses [palloc_get_page] can return. *)
Definition page_addr (t : Z) : Prop := 0 < t < 2 ^ 32 /\ t mod PGSIZE = 0.

Definition pages_inv (s : kstate) : Prop :=
  forall t th, threads s !! t = Some th ->
    page_addr t /\ magic th = THREAD_MAGIC /\ kstack_ok (kstack th).

Definition no_running (s : kstate) : Prop :=
  forall t th, threads s !! t = Some th -> status th <> THREAD_RUNNING.

Definition one_running (s : kstate) : Prop :=
  (exists th, threads s !! cur s = Some th /\ status th = THREAD_RUNNING) /\
  forall t th, threads s !! t = Some th -> status th = THREAD_RUNNING -> t = cur s.

(** The run queue holds exactly the ready threads, except that the idle
    thread need not be in it. *)
Definition rq_inv (s : kstate) : Prop :=
  match run_queue s with
  | None => forall t th, threads s !! t = Some th -> status th <> THREAD_READY
  | Some rq => exists la, rq_rep rq la [] /\ NoDup la.*2 /\
      (forall p t, (p, t) ∈ la ->
        exists th, threads s !! t = Some th /\ status th = THREAD_READY /\ priority th = p) /\
      (forall t th, threads s !! t = Some th -> status th = THREAD_READY ->
        t ∈ la.*2 \/ t = idle_thread s)
  end.

(** Thread [w] is blocked in the code whose suspension is [f]. *)
Definition blocked_in (s : kstate) (w : Z) (f : intr_level -> frame) : Prop :=
  exists th old k, threads s !! w = Some th /\ status th = THREAD_BLOCKED /\
    kstack th = f old :: k.

(** Wait lists, thread [x] exempted while it is being put on one. *)
Definition wait_inv (x : option Z) (s : kstate) : Prop :=
  (forall sm v, semas s !! sm = Some v -> NoDup (waiters v) /\
    forall w, w ∈ waiters v -> Some w <> x -> blocked_in s w (F_sema_down_loop sm)) /\
  NoDup (bt_t <$> block_list s) /\
  (forall bt, bt ∈ block_list s -> Some (bt_t bt) <> x -> blocked_in s (bt_t bt) F_sleep_tail).

Definition bit (b : bool) : Z := if b then 1 else 0.

(** [d r] is the number of tokens in transit: held by the code that is
    executing rather than by a stack. *)
Definition tok_inv (d : resource -> Z) (s : kstate) : Prop :=
  (forall l v h, semas s !! SLock l = Some v -> holders s !! l = Some h ->
    0 <= value v /\ value v + bit (negb (h =? NULL)) + all_toks s (RLock l) + d (RLock l) <= 1) /\
  (forall l, is_Some (semas s !! SLock l) <-> is_Some (holders s !! l)) /\
  bit (negb (idle_thread s =? NULL)) + all_toks s RIdle + d RIdle <= 1 /\
  bit (bool_decide (is_Some (run_queue s))) + all_toks s RStart + d RStart <= 1.

(** A thread named by suspended creation code is blocked on an empty stack. *)
Definition new_inv (d : resource -> Z) (s : kstate) : Prop :=
  forall t, let n := all_toks s (RNew t) + d (RNew t) in
    n <= 1 /\ (1 <= n -> exists th, threads s !! t = Some th /\
                status th = THREAD_BLOCKED /\ kstack th = []).

(** The idle thread is always in its loop, perhaps interrupted. *)
Definition soft (f : frame) : Prop :=
  match f with F_iret | F_set_level _ | F_sema_up_tail _ _ => True | _ => False end.

Definition idle_stack (k : list frame) : Prop :=
  exists ks f, k = ks ++ [f; F_thread_exit] /\ Forall soft ks /\
    (f = F_idle_loop \/ f = F_idle_hlt).

(** Thread [y] is exempted while it executes its loop. *)
Definition idle_inv (y : Z) (s : kstate) : Prop :=
  idle_thread s = NULL \/ idle_thread s = y \/
  exists th, threads s !! idle_thread s = Some th /\ idle_stack (kstack th) /\
    status th <> THREAD_DYING.

(** What holds of the data while kernel code runs. *)
Definition kdata (x : option Z) (y : Z) (d : resource -> Z) (s : kstate) : Prop :=
  pages_inv s /\ rq_inv s /\ wait_inv x s /\ tok_inv d s /\ new_inv d s /\ idle_inv y s.

Definition kmid (x : option Z) (y : Z) (d : resource -> Z) (s : kstate) : Prop :=
  one_running s /\ kdata x y d s.

Definition no_tokens : resource -> Z := fun _ => 0.

(** Between events. *)
Definition kinv (s : kstate) : Prop :=
  kmid None NULL no_tokens s /\ in_external_intr s = false.

(** ** Consequences *)

Lemma idle_stack_top k f k' :
  idle_stack k -> k = f :: k' -> soft f /\ idle_stack k' \/
    (f = F_idle_loop \/ f = F_idle_hlt) /\ k' = [F_thread_exit].
Proof.
  intros (ks & g & -> & Hks & Hg) E. destruct ks as [|f' ks]; simplify_eq/=.
  - by right.
  - left. inversion Hks; subst. split; [done|]. by exists ks, g.
Qed.

Lemma blocked_in_not_idle s w f th :
  blocked_in s w f -> threads s !! w = Some th -> idle_stack (kstack th) ->
  (forall old, ~ soft (f old) /\ f old <> F_idle_loop /\ f old <> F_idle_hlt) -> False.
Proof.
  intros (th' & old & k & Hw & _ & Hk) Hth Hi Hf. simplify_eq.
  destruct (Hf old) as (? & ? & ?).
  destruct (idle_stack_top _ _ _ Hi Hk) as [[]|[[] _]]; done.
Qed.

(** No list names [t]. *)
Definition not_waiting (s : kstate) (t : Z) : Prop :=
  (forall sm v, semas s !! sm = Some v -> t ∉ waiters v) /\ t ∉ (bt_t <$> block_list s).

Lemma not_waiting_of x s t th :
  wait_inv x s -> Some t <> x -> threads s !! t = Some th ->
  status th <> THREAD_BLOCKED \/ kstack th = [] \/ idle_stack (kstack th) ->
  not_waiting s t.
Proof.
  intros (Hw & _ & Hb) Hx Ht Hc.
  assert (forall f, blocked_in s t f ->
    (forall old, ~ soft (f old) /\ f old <> F_idle_loop /\ f old <> F_idle_hlt) -> False) as Hno.
  { intros f Hf Hs. destruct Hc as [Hc|[Hc|Hc]].
    - destruct Hf as (? & ? & ? & ? & ? & ?). congruence.
    - destruct Hf as (? & ? & ? & ? & ? & ?). congruence.
    - by eapply blocked_in_not_idle. }
  split.
  - intros sm v Hv Hin. apply (Hno (F_sema_down_loop sm)); [by eapply Hw|]. intros ?; split_and!; [by intros []|done..].
  - intros (bt & -> & Hin)%list_elem_of_fmap. apply (Hno F_sleep_tail); [by eapply Hb|]. intros ?; split_and!; [by intros []|done..].
Qed.

Lemma all_toks_nonneg s r : pages_inv s -> 0 <= all_toks s r.
Proof.
  intros Hp. apply msum_nonneg. intros t th Ht. by apply toks_nonneg, (Hp t).
Qed.

Lemma toks_le_all s r t th :
  pages_inv s -> threads s !! t = Some th -> toks r (kstack th) <= all_toks s r.
Proof.
  intros Hp Ht. apply (msum_ge (fun th => toks r (kstack th)) _ t th); [|done].
  intros t' th' Ht'. by apply toks_nonneg, (Hp t').
Qed.

(** ** Updating one thread *)

Lemma all_toks_put s t th th' r :
  threads s !! t = Some th ->
  all_toks (put_thread t th' s) r =
  all_toks s r - toks r (kstack th) + toks r (kstack th').
Proof. intros Ht. by apply (msum_insert (fun th => toks r (kstack th))). Qed.

Lemma pages_put s t th th' :
  pages_inv s -> threads s !! t = Some th -> magic th' = magic th ->
  kstack_ok (kstack th') -> pages_inv (put_thread t th' s).
Proof.
  intros Hp Ht Hm Hk u thu. simpl. intros [[<- <-]|[? Hu]]%lookup_insert_Some.
  - rewrite Hm. destruct (Hp t th Ht) as (? & ? & ?). done.
  - by apply Hp.
Qed.

Lemma rq_put s t th th' :
  rq_inv s -> threads s !! t = Some th -> status th <> THREAD_READY ->
  status th' <> THREAD_READY -> rq_inv (put_thread t th' s).
Proof.
  unfold rq_inv. intros Hrq Ht Hn Hn'. simpl. destruct (run_queue s) as [rq|].
  - destruct Hrq as (la & Hrep & Hnd & Hin & Hout). exists la. split_and!; try done.
    + intros p u Hu. destruct (Hin p u Hu) as (thu & Hu' & Hs & Hp).
      exists thu. split; [|done]. rewrite lookup_insert_ne; [done|]. intros ->. by simplify_eq.
    + intros u thu [[<- <-]|[? Hu]]%lookup_insert_Some Hs; [done|]. by eapply Hout.
  - intros u thu [[<- <-]|[? Hu]]%lookup_insert_Some; [done|]. by eapply Hrq.
Qed.

Lemma blocked_in_put s t th' w f :
  blocked_in s w f -> w <> t -> blocked_in (put_thread t th' s) w f.
Proof.
  intros (th & old & k & Hw & ? & ?) Hne. exists th, old, k. split; [|done].
  simpl. by rewrite lookup_insert_ne.
Qed.

Lemma wait_put x s t th' :
  wait_inv x s -> Some t = x \/ not_waiting s t -> wait_inv x (put_thread t th' s).
Proof.
  intros (Hw & Hnd & Hb) Hnw. split_and!; simpl; [|done|].
  - intros sm v Hv. destruct (Hw sm v Hv) as [Hnd' Hw']. split; [done|].
    intros w Hin Hx. apply blocked_in_put; [by apply Hw'|]. intros ->.
    destruct Hnw as [|[Hnw _]]; [done|]. by eapply Hnw.
  - intros bt Hin Hx. apply blocked_in_put; [by apply Hb|]. intros <-.
    destruct Hnw as [|[_ Hnw]]; [done|]. by apply Hnw, list_elem_of_fmap_2.
Qed.

Lemma tok_put d d' s t th th' :
  tok_inv d s -> threads s !! t = Some th ->
  (forall r, toks r (kstack th') + d' r <= toks r (kstack th) + d r) ->
  tok_inv d' (put_thread t th' s).
Proof.
  intros (Hl & Hd & Hi & Hs) Ht Hle. split_and!; simpl.
  - intros l v h Hv Hh. destruct (Hl l v h Hv Hh). split; [done|].
    rewrite (all_toks_put _ _ th) by done. specialize (Hle (RLock l)). lia.
  - done.
  - rewrite (all_toks_put _ _ th) by done. specialize (Hle RIdle). lia.
  - rewrite (all_toks_put _ _ th) by done. specialize (Hle RStart). lia.
Qed.

Lemma new_put d d' s t th th' :
  new_inv d s -> threads s !! t = Some th ->
  (forall r, toks r (kstack th') + d' r <= toks r (kstack th) + d r) ->
  status th <> THREAD_BLOCKED \/ kstack th <> [] \/
    all_toks (put_thread t th' s) (RNew t) + d' (RNew t) <= 0 \/
    (status th' = THREAD_BLOCKED /\ kstack th' = []) ->
  new_inv d' (put_thread t th' s).
Proof.
  intros Hn Ht Hle Hc u. destruct (Hn u) as [Hu1 Hu2].
  assert (all_toks (put_thread t th' s) (RNew u) + d' (RNew u) <=
    all_toks s (RNew u) + d (RNew u)).
  { rewrite (all_toks_put _ _ th) by done. specialize (Hle (RNew u)). lia. }
  simpl. split; [lia|]. intros Hge. destruct Hu2 as (thu & Hu & Hs & Hk); [lia|].
  destruct (decide (u = t)) as [->|Hne].
  - simplify_eq. destruct Hc as [|[|[|[]]]]; [done|done|lia|].
    exists th'. by rewrite lookup_insert_eq.
  - exists thu. by rewrite lookup_insert_ne.
Qed.

Lemma idle_put y s t th th' :
  idle_inv y s -> threads s !! t = Some th ->
  (t = idle_thread s -> t = y \/ (idle_stack (kstack th) -> status th <> THREAD_DYING ->
    idle_stack (kstack th') /\ status th' <> THREAD_DYING)) ->
  idle_inv y (put_thread t th' s).
Proof.
  intros [Hi|[Hi|(thi & Hi & Hs & Hst)]] Ht Hc; [by left|by right; left|].
  destruct (decide (t = idle_thread s)) as [E|Hne].
  - destruct (Hc E) as [->|Hc']; [by right; left|]. right; right. exists th'.
    simpl. rewrite E, lookup_insert_eq. rewrite E in Ht. simplify_eq. by destruct Hc'.
  - right; right. exists thi. simpl. by rewrite lookup_insert_ne.
Qed.
