(* ===== verification/SchedPres.v ===== *)
(** * Every kernel operation preserves the invariant

    One lemma per operation of [Kernel]: if the operation is entered in a
    state that satisfies the invariant (with the tokens its caller passes
    it) and returns, the invariant holds again. *)

From S2P Require Import Prelude MapSum Vaddr Bitmap Runqueue Kernel SchedInv.

Definition kpost (s s' : kstate) : Prop :=
  kmid None NULL no_tokens s' /\ in_external_intr s' = in_external_intr s.

(** ** Opening the accessors *)

Lemma from_option_Ok {A} (o : option A) x : from_option_res o = Ok x -> o = Some x.
Proof. destruct o; simpl; congruence. Qed.

Lemma get_thread_Ok s t th : get_thread s t = Ok th -> threads s !! t = Some th.
Proof. apply from_option_Ok. Qed.

Lemma get_sema_Ok s sm x : get_sema s sm = Ok x -> semas s !! sm = Some x.
Proof. apply from_option_Ok. Qed.

Lemma push_Ok f s s' :
  push f s = Ok s' ->
  exists th, threads s !! cur s = Some th /\
    s' = put_thread (cur s) (with_kstack th (f :: kstack th)) s.
Proof. unfold push. intros H. inv_res. eexists. split; [by apply get_thread_Ok|done]. Qed.

Lemma set_status_Ok t x s s' :
  set_status t x s = Ok s' ->
  exists th, threads s !! t = Some th /\ s' = put_thread t (with_status th x) s.
Proof. unfold set_status. intros H. inv_res. eexists. split; [by apply get_thread_Ok|done]. Qed.

Lemma is_thread_Ok s t : is_thread s t = Ok true ->
  exists th, threads s !! t = Some th /\ t <> NULL.
Proof.
  unfold is_thread. destruct (Z.eqb_spec t NULL); [done|]. intros H. inv_res.
  eexists. split; [by apply get_thread_Ok|done].
Qed.

Lemma thread_current_Ok s c :
  thread_current s = Ok c -> c = cur s /\ exists th, threads s !! cur s = Some th.
Proof.
  unfold thread_current, running_thread. intros H. inv_res. split; [done|].
  eexists. by apply get_thread_Ok.
Qed.

Lemma intr_enable_Ok s s' :
  intr_enable s = Ok s' -> s' = set_level INTR_ON s.
Proof. unfold intr_enable. intros H. by inv_res. Qed.

Lemma intr_set_level_Ok l s s' :
  intr_set_level l s = Ok s' -> s' = set_level l s.
Proof. destruct l; simpl; [by intros [= <-]|apply intr_enable_Ok]. Qed.

(** [open_ops] turns every successful accessor call of the context into the
    state change it makes. *)
Ltac open_ops :=
  repeat (inv_res; match goal with
  | H : get_thread _ _ = Ok _ |- _ => apply get_thread_Ok in H
  | H : get_sema _ _ = Ok _ |- _ => apply get_sema_Ok in H
  | H : from_option_res _ = Ok _ |- _ => apply from_option_Ok in H
  | H : push _ _ = Ok _ |- _ => apply push_Ok in H as (? & ? & ->)
  | H : set_status _ _ _ = Ok _ |- _ => apply set_status_Ok in H as (? & ? & ->)
  | H : thread_current _ = Ok _ |- _ => apply thread_current_Ok in H as [-> [? ?]]
  | H : is_thread _ _ = Ok true |- _ => apply is_thread_Ok in H as (? & ? & ?)
  | H : intr_enable _ = Ok _ |- _ => apply intr_enable_Ok in H as ->
  | H : intr_set_level _ _ = Ok _ |- _ => apply intr_set_level_Ok in H as ->
  end); inv_res.

(** ** The pieces *)

Lemma wait_weaken x s : wait_inv None s -> wait_inv x s.
Proof. intros (Hw & ? & Hb). split_and!; naive_solver. Qed.

Lemma kdata_mono x y d d' s :
  kdata x y d s -> (forall r, d' r <= d r) -> kdata x y d' s.
Proof.
  intros (Hp & Hr & Hw & (Hl & Hh & Hi & Hs) & Hn & Hid) Hd.
  split; [done|]. split; [done|]. split; [done|]. split; [split_and!|split]; [|done| | | |done].
  - intros l v h Hv Hh'. destruct (Hl l v h Hv Hh'). specialize (Hd (RLock l)). lia.
  - specialize (Hd RIdle). lia.
  - specialize (Hd RStart). lia.
  - intros t. specialize (Hd (RNew t)). destruct (Hn t) as [? Hn']. split; [lia|].
    intros ?. apply Hn'. lia.
Qed.

Lemma kmid_mono x y d d' s :
  kmid x y d s -> (forall r, d' r <= d r) -> kmid x y d' s.
Proof. intros [Ho Hk] Hd. split; [done|]. by eapply kdata_mono. Qed.

Lemma cur_not_idle_stack x y d s : kmid x y d s -> cur s <> NULL.
Proof.
  intros [[(th & Hc & _) _] (Hp & _)] E. destruct (Hp _ _ Hc) as [[? _] _].
  unfold NULL in E. lia.
Qed.

(** The running thread changes its own thread structure. *)
Lemma kmid_put_cur x y d d' s th th' :
  kmid x y d s -> threads s !! cur s = Some th ->
  status th' = status th -> magic th' = magic th -> kstack_ok (kstack th') ->
  (forall r, toks r (kstack th') + d' r <= toks r (kstack th) + d r) ->
  (cur s = idle_thread s -> cur s = y \/ (idle_stack (kstack th) -> idle_stack (kstack th'))) ->
  kmid x y d' (put_thread (cur s) th' s).
Proof.
  intros [[(th0 & Hc & Hst) Hone] (Hp & Hr & Hw & Ht & Hn & Hi)] Hth Hs Hm Hk Hle Hid.
  simplify_eq. rewrite Hst in Hs. split; [split|split_and!].
  - exists th'. simpl. by rewrite lookup_insert_eq.
  - simpl. intros t thu [[<- <-]|[? Hu]]%lookup_insert_Some Hsu; [done|]. by eapply Hone.
  - by eapply pages_put.
  - eapply rq_put; [done..| |]; congruence.
  - apply wait_put; [done|]. destruct (decide (Some (cur s) = x)) as [|Hx]; [by left|right].
    eapply not_waiting_of; [done..|]. left. congruence.
  - by eapply tok_put.
  - eapply new_put; [done..|]. left. congruence.
  - eapply idle_put; [done..|]. intros E. destruct (Hid E) as [|Hid']; [by left|right].
    intros Hi1 Hi2. split; [by apply Hid'|congruence].
Qed.

Lemma kmid_push x y d d' s th f :
  kmid x y d s -> threads s !! cur s = Some th -> top_ok f (kstack th) ->
  (forall r, weight r f + d' r <= d r) ->
  cur s <> idle_thread s \/ cur s = y \/ soft f ->
  kmid x y d' (put_thread (cur s) (with_kstack th (f :: kstack th)) s).
Proof.
  intros Hk Hth Htop Hw Hid. pose proof Hk as [_ (Hp & _)].
  eapply kmid_put_cur; [done..| | |]; simpl.
  - split; [done|]. by apply (Hp _ _ Hth).
  - intros r. specialize (Hw r). lia.
  - intros E. destruct Hid as [?|[?|Hs]]; [done|by left|right].
    intros (ks & g & -> & Hks & Hg). exists (f :: ks), g. split; [done|].
    split; [by constructor|done].
Qed.

Lemma kmid_push0 x y d s th f :
  kmid x y d s -> threads s !! cur s = Some th -> top_ok f (kstack th) ->
  (forall r, weight r f = 0) -> cur s <> idle_thread s \/ cur s = y \/ soft f ->
  kmid x y d (put_thread (cur s) (with_kstack th (f :: kstack th)) s).
Proof.
  intros Hk Hth Htop Hw Hid. eapply kmid_push; [done..| |done].
  intros r. rewrite Hw. lia.
Qed.

(** ** Switching *)

(** A thread other than the idle one, which must not be dying, is freed. *)
Lemma kdata_delete y s t th :
  kdata None y no_tokens s -> threads s !! t = Some th ->
  status th = THREAD_DYING ->
  kdata None y no_tokens (set_threads (delete t (threads s)) s).
Proof.
  intros (Hp & Hr & (Hw & Hnd & Hb) & (Hl & Hh & Hi & Hrs) & Hn & Hid) Ht Hst.
  assert (forall r, all_toks (set_threads (delete t (threads s)) s) r <= all_toks s r) as Hle.
  { intros r. unfold all_toks. simpl. rewrite (msum_delete _ (threads s) t th Ht).
    pose proof (toks_nonneg r (kstack th)) as Hx. destruct (Hp _ _ Ht) as (_ & _ & Hk).
    specialize (Hx Hk). lia. }
  assert (forall w f, blocked_in s w f ->
    blocked_in (set_threads (delete t (threads s)) s) w f) as Hbi.
  { intros w f (thw & old & k & Hw' & Hs & ?). exists thw, old, k. split; [|done].
    simpl. rewrite lookup_delete_ne; [done|]. intros ->. congruence. }
  split; [|split; [|split; [|split; [|split]]]].
  - intros u thu. simpl. intros [_ Hu]%lookup_delete_Some. by apply Hp.
  - unfold rq_inv in *. simpl. destruct (run_queue s) as [rq|].
    + destruct Hr as (la & Hrep & Hnd' & Hin & Hout). exists la. split_and!; try done.
      * intros p u Hu. destruct (Hin p u Hu) as (thu & Hu' & Hs & Hpp). exists thu.
        rewrite lookup_delete_ne; [done|]. intros ->. congruence.
      * intros u thu [_ Hu]%lookup_delete_Some. by apply Hout.
    + intros u thu [_ Hu]%lookup_delete_Some. by eapply Hr.
  - split; [|split; [done|]]; simpl.
    + intros sm v Hv. destruct (Hw sm v Hv) as [? Hw']. split; [done|]. auto.
    + auto.
  - split; [|split; [done|split]]; simpl.
    + intros l v h Hv Hh'. destruct (Hl l v h Hv Hh'). specialize (Hle (RLock l)). lia.
    + specialize (Hle RIdle). lia.
    + specialize (Hle RStart). lia.
  - intros u. destruct (Hn u) as [? Hn']. pose proof (Hle (RNew u)). split; [lia|].
    intros Hge. destruct Hn' as (thu & Hu & Hs & ?); [lia|]. exists thu. simpl.
    rewrite lookup_delete_ne; [done|]. intros ->. congruence.
  - destruct Hid as [?|[?|(thi & Hi' & ? & Hni)]]; [by left|by right; left|right; right].
    exists thi. simpl. rewrite lookup_delete_ne; [done|]. intros ->. congruence.
Qed.

Lemma next_thread_cases rq la idle nx rq' :
  rq_rep rq la [] -> next_thread_to_run rq idle = Ok (nx, rq') ->
  (la = [] /\ nx = idle /\ rq' = rq) \/
  (exists p la', la = (p, nx) :: la' /\ rq_rep rq' la' []).
Proof.
  intros Hrep Hnx. pose proof (next_thread_to_run_spec rq la [] idle Hrep) as Hspec.
  destruct la as [|[p t] la'].
  - left. rewrite Hnx in Hspec. by simplify_eq.
  - right. destruct Hspec as (rq2 & E & Hrep'). rewrite Hnx in E. simplify_eq. eauto.
Qed.

Lemma tok_rq d s rq rq' :
  tok_inv d s -> run_queue s = Some rq -> tok_inv d (set_run_queue (Some rq') s).
Proof.
  intros (Hl & Hh & Hi & Hs) Hrq. split; [exact Hl|]. split; [exact Hh|]. split; [exact Hi|].
  rewrite Hrq in Hs. exact Hs.
Qed.

(** The scheduled thread starts to run. *)
Lemma kmid_run d s rq nx rq' thn :
  kdata None NULL d s -> no_running s -> (forall r, 0 <= d r) ->
  run_queue s = Some rq -> next_thread_to_run rq (idle_thread s) = Ok (nx, rq') ->
  threads s !! nx = Some thn -> nx <> NULL ->
  kmid None NULL no_tokens
    (put_thread nx (with_status thn THREAD_RUNNING) (set_cur nx (set_run_queue (Some rq') s))).
Proof.
  intros (Hp & Hr & Hw & Ht & Hn & Hid) Hnr Hd Hrq Hnx Hthn Hnull.
  unfold rq_inv in Hr. rewrite Hrq in Hr. destruct Hr as (la & Hrep & Hnd & Hin & Hout).
  pose proof (next_thread_cases _ _ _ _ _ Hrep Hnx) as Hcase.
  assert (status thn <> THREAD_BLOCKED \/ idle_stack (kstack thn)) as Hready.
  { destruct Hcase as [(-> & -> & ->)|(p & la' & -> & Hrep')].
    - right. destruct Hid as [?|[?|(thi & ? & ? & ?)]]; congruence.
    - left. destruct (Hin p nx) as (th' & ? & ? & ?); [left|]. congruence. }
  set (s1 := set_cur nx (set_run_queue (Some rq') s)).
  assert (threads s1 !! nx = Some thn) as Hthn1 by done.
  split; [split|split; [|split; [|split; [|split; [|split]]]]].
  - eexists. simpl. by rewrite lookup_insert_eq.
  - simpl. intros t th [[<- <-]|[? Hu]]%lookup_insert_Some Hs; [done|].
    exfalso. by eapply Hnr.
  - eapply (pages_put s1); [done..|]. simpl. by destruct (Hp nx thn Hthn) as (_ & _ & ?).
  - unfold rq_inv. simpl.
    destruct Hcase as [(-> & -> & ->)|(p & la' & -> & Hrep')].
    + exists []. split_and!; try done.
      * by intros ? ? ?%elem_of_nil.
      * intros t th [[<- <-]|[? Hu]]%lookup_insert_Some Hs; [done|]. by apply (Hout t th).
    + simpl in Hnd. apply NoDup_cons in Hnd as [Hnin Hnd].
      exists la'. split_and!; try done.
      * intros q t Hq. destruct (Hin q t) as (th & ? & ? & ?); [by right|].
        exists th. rewrite lookup_insert_ne; [done|]. intros ->. apply Hnin.
        apply list_elem_of_fmap. by exists (q, t).
      * intros t th [[<- <-]|[? Hu]]%lookup_insert_Some Hs; [done|].
        destruct (Hout t th Hu Hs) as [Hx|]; [|by right].
        apply elem_of_cons in Hx as [Hx|]; [by simpl in *; congruence|by left].
  - apply (wait_put _ s1); [exact Hw|]. right. eapply (not_waiting_of None s1);
      [exact Hw|done|exact Hthn1|]. naive_solver.
  - eapply (tok_put d _ s1); [by eapply (tok_rq _ s)|exact Hthn1|]. simpl. intros r.
    specialize (Hd r). unfold no_tokens. lia.
  - eapply (new_put d _ s1); [exact Hn|exact Hthn1| |].
    + simpl. intros r. specialize (Hd r). unfold no_tokens. lia.
    + destruct Hready as [?|(ks & f & E & _)]; [by left|]. right; left. rewrite E. by destruct ks.
  - eapply (idle_put _ s1); [exact Hid|exact Hthn1|]. simpl. intros _. right.
    intros ? ?. by split.
Qed.

Lemma schedule_ok d s s' :
  kdata None NULL d s -> no_running s -> (forall r, 0 <= d r) ->
  schedule s = Ok s' -> kpost s s'.
Proof.
  intros Hk Hnr Hd H. unfold schedule, running_thread in H.
  apply bind_Ok in H as (rq & Hrq & H). apply from_option_Ok in Hrq.
  apply bind_Ok in H as ([nx rq'] & Hnx & H). cbv zeta in H.
  apply bind_Ok in H as (u1 & _ & H). apply bind_Ok in H as (thc & Hthc & H).
  apply bind_Ok in H as (u2 & _ & H). apply bind_Ok in H as (b & Hb & H).
  apply bind_Ok in H as (u3 & ->%ASSERT_Ok & H).
  apply is_thread_Ok in Hb as (thn & Hthn & Hnull). simpl in Hthn.
  pose proof (kmid_run d s rq nx rq' thn Hk Hnr Hd Hrq Hnx Hthn Hnull) as Hrun.
  set (s2 := put_thread nx _ _) in Hrun.
  assert (exists prev, schedule_tail prev (set_cur nx (set_run_queue (Some rq') s)) = Ok s')
    as (prev & H').
  { destruct (Z.eqb_spec (cur s) nx) as [E|E]; simpl in H; [|by eexists].
    exists NULL. rewrite <- H. f_equal. rewrite <- E. by destruct s. }
  clear H. unfold schedule_tail in H'.
  apply bind_Ok in H' as (u4 & _ & H'). apply bind_Ok in H' as (s3 & Hs3 & H').
  apply set_status_Ok in Hs3 as (thn' & Hthn' & ->). cbv zeta in H'.
  unfold running_thread in *. simpl in Hthn'. rewrite Hthn in Hthn'.
  injection Hthn' as <-. apply bind_Ok in H' as (s4 & Hs4 & H').
  unfold process_activate in Hs4. open_ops.
  assert (kpost s (set_cr3 (pagedir x) (set_thread_ticks 0 s2))) as Hpost by (split; done).
  destruct (Z.eqb_spec prev NULL); [by inv_res|].
  apply bind_Ok in H' as (pth & Hpth%get_thread_Ok & H').
  destruct (bool_decide_reflect (status pth = THREAD_DYING)); simpl in H'; [|by inv_res].
  destruct (negb (prev =? initial_thread s)); [|by inv_res]. inv_res.
  split; [|done]. destruct Hpost as [[Ho Hkd] _]. split.
  - destruct Ho as [(th & Hc & Hs) Hone]. split.
    + exists th. simpl in *. rewrite lookup_delete_ne; [done|]. intros <-.
      simplify_eq/=. congruence.
    + intros t tht. simpl. intros [_ Hu]%lookup_delete_Some. by apply Hone.
  - by eapply (kdata_delete _ (set_cr3 _ (set_thread_ticks 0 s2))).
Qed.

(** ** Joining the run queue *)

Lemma pages_bound (l : list Z) :
  NoDup l -> Forall page_addr l -> Z.of_nat (length l) <= 2 ^ 20.
Proof.
  intros Hnd Hp.
  assert (NoDup ((fun t => t / PGSIZE) <$> l)) as Hnd'.
  { apply NoDup_fmap_2_strong; [|done]. rewrite Forall_forall in Hp.
    intros t u Ht Hu E. apply Hp in Ht as [_ Ht]. apply Hp in Hu as [_ Hu].
    unfold PGSIZE in *. zlia. }
  assert ((fun t => t / PGSIZE) <$> l ⊆ seqZ 0 (2 ^ 20)) as Hsub.
  { intros q (t & -> & Ht)%list_elem_of_fmap. rewrite Forall_forall in Hp.
    apply Hp in Ht as [Ht _]. apply elem_of_seqZ. change PGSIZE with 4096. rewrite Z.add_0_l. split; [apply Z.div_pos; lia|apply Z.div_lt_upper_bound; lia]. }
  apply NoDup_submseteq, submseteq_length in Hsub; [|done].
  rewrite length_fmap, length_seqZ in Hsub. lia.
Qed.

Lemma prioarr_insert_range a t p a' :
  pa_wf a -> prioarr_insert a t p = Ok a' -> 0 <= p <= PRI_MAX.
Proof.
  intros (Hlen & _) H. unfold prioarr_insert in H. inv_res.
  match goal with H : arr_get _ _ = Ok _ |- _ =>
    apply arr_get_Ok in H as [? Hq%lookup_lt_Some] end.
  unfold PRI_MAX. lia.
Qed.

Lemma active_insert_Ok rq la t p rq' :
  rq_rep rq la [] -> Z.of_nat (length la) < 2 ^ 31 - 1 ->
  active_insert rq t p = Ok rq' -> rq_rep rq' (pq_insert p t la) [].
Proof.
  intros Hrep Hroom H.
  assert (0 <= p <= PRI_MAX) as Hp.
  { pose proof Hrep as (a & e & _ & _ & Ha & _ & Hwa & _). unfold active_insert in H.
    rewrite Ha in H. cbn [mbind res_bind] in H. apply bind_Ok in H as (a' & H & _).
    by eapply prioarr_insert_range. }
  destruct (active_insert_spec rq la [] t p Hrep Hp Hroom) as (rq2 & E & Hrep').
  congruence.
Qed.

Lemma rq_ready s t th rq rq' :
  pages_inv s -> rq_inv s -> threads s !! t = Some th -> status th <> THREAD_READY ->
  run_queue s = Some rq -> active_insert rq t (priority th) = Ok rq' ->
  rq_inv (put_thread t (with_status th THREAD_READY) (set_run_queue (Some rq') s)).
Proof.
  intros Hp Hr Ht Hs Hrq Hins. unfold rq_inv in Hr. rewrite Hrq in Hr.
  destruct Hr as (la & Hrep & Hnd & Hin & Hout).
  assert (t ∉ la.*2) as Hnot.
  { intros ([p u] & -> & Hu)%list_elem_of_fmap. destruct (Hin p u Hu) as (? & ? & ? & ?).
    simpl in *. congruence. }
  exists (pq_insert (priority th) t la). split_and!.
  - eapply active_insert_Ok; [done| |done]. rewrite <- (length_fmap snd).
    assert (Z.of_nat (length la.*2) <= 2 ^ 20); [|lia]. apply pages_bound; [done|].
    apply Forall_forall. intros u ([p u'] & -> & Hu)%list_elem_of_fmap.
    destruct (Hin p u' Hu) as (thu & Hu' & _). by apply (Hp _ _ Hu').
  - rewrite pq_insert_perm. simpl. by apply NoDup_cons.
  - intros p u Hu. rewrite pq_insert_perm in Hu. simpl.
    apply elem_of_cons in Hu as [[= -> ->]|Hu].
    + eexists. rewrite lookup_insert_eq. done.
    + destruct (Hin p u Hu) as (thu & ? & ? & ?). exists thu.
      rewrite lookup_insert_ne; [done|]. intros ->. congruence.
  - intros u thu. simpl. rewrite pq_insert_perm. simpl.
    intros [[<- <-]|[? Hu]]%lookup_insert_Some Hs'; [left; left|].
    destruct (Hout u thu Hu Hs'); [left; by right|by right].
Qed.

Lemma rq_ready_idle s th :
  rq_inv s -> threads s !! idle_thread s = Some th -> status th <> THREAD_READY ->
  (exists rq, run_queue s = Some rq) ->
  rq_inv (put_thread (idle_thread s) (with_status th THREAD_READY) s).
Proof.
  intros Hr Ht Hs (rq & Hrq). unfold rq_inv in *. simpl. rewrite Hrq in *.
  destruct Hr as (la & Hrep & Hnd & Hin & Hout). exists la. split_and!; try done.
  - intros p u Hu. destruct (Hin p u Hu) as (thu & ? & ? & ?). exists thu.
    rewrite lookup_insert_ne; [done|]. intros <-. congruence.
  - intros u thu [[<- <-]|[? Hu]]%lookup_insert_Some Hs'; [by right|]. by eapply Hout.
Qed.

(** ** The running thread stops running *)

(** The list the running thread has joined names the frame on its stack. *)
Definition self_wait (s : kstate) : Prop :=
  forall th, threads s !! cur s = Some th ->
    (forall sm v, semas s !! sm = Some v -> cur s ∈ waiters v ->
      exists old k, kstack th = F_sema_down_loop sm old :: k) /\
    (cur s ∈ (bt_t <$> block_list s) -> exists old k, kstack th = F_sleep_tail old :: k).

Lemma no_running_put s th th' :
  one_running s -> threads s !! cur s = Some th -> status th' <> THREAD_RUNNING ->
  no_running (put_thread (cur s) th' s).
Proof.
  intros [_ Hone] Hth Hst t tht. simpl. intros [[<- <-]|[? Hu]]%lookup_insert_Some; [done|].
  intros Hs. by apply Hone in Hu; [|done].
Qed.

Lemma thread_block_ok d s s' :
  kmid (Some (cur s)) NULL d s -> self_wait s -> (forall r, 0 <= d r) ->
  thread_block s = Ok s' -> kpost s s'.
Proof.
  intros Hk Hself Hd H. unfold thread_block in H.
  apply bind_Ok in H as (? & _ & H). apply bind_Ok in H as (? & _ & H).
  apply bind_Ok in H as (c & [-> _]%thread_current_Ok & H).
  apply bind_Ok in H as (s1 & (th & Hth & ->)%set_status_Ok & H).
  destruct Hk as [Hone (Hp & Hr & Hw & Ht & Hn & Hi)].
  assert (status th = THREAD_RUNNING) as Hst.
  { destruct Hone as [(th0 & ? & ?) _]. congruence. }
  eapply (schedule_ok d) in H; [exact H| | |done].
  2: { eapply no_running_put; [done..|]. done. }
  split; [|split; [|split; [|split; [|split]]]].
  - eapply pages_put; [done..|]. simpl. by apply (Hp _ _ Hth).
  - eapply rq_put; [done..| |]; simpl; congruence.
  - destruct (Hself th Hth) as [Hs1 Hs2].
    pose proof (wait_put _ s (cur s) (with_status th THREAD_BLOCKED) Hw (or_introl eq_refl))
      as (Hw1 & Hw2 & Hw3). split; [|split; [done|]].
    + intros sm v Hv. destruct (Hw1 sm v Hv) as [Hnd Hw1']. split; [done|].
      intros w Hin _. destruct (decide (w = cur s)) as [->|Hne]; [|apply Hw1'; congruence].
      destruct (Hs1 sm v Hv Hin) as (old & k & Hstk).
      eexists _, old, k. simpl. by rewrite lookup_insert_eq.
    + intros bt Hin _. destruct (decide (bt_t bt = cur s)) as [E|Hne]; [|apply Hw3; [done|congruence]].
      destruct Hs2 as (old & k & Hstk). { rewrite <- E. by apply list_elem_of_fmap_2. }
      rewrite E. eexists _, old, k. simpl. by rewrite lookup_insert_eq.
  - eapply tok_put; [done..|]. simpl. intros r. lia.
  - eapply new_put; [done..| |]; simpl; [intros r; lia|]. left. congruence.
  - eapply idle_put; [done..|]. intros _. by right.
Qed.

Lemma rq_insert_Ok t s s' :
  rq_insert t s = Ok s' ->
  exists th rq rq', threads s !! t = Some th /\ run_queue s = Some rq /\
    active_insert rq t (priority th) = Ok rq' /\ s' = set_run_queue (Some rq') s.
Proof.
  unfold rq_insert. intros H. apply bind_Ok in H as (th & Hth%get_thread_Ok & H).
  apply bind_Ok in H as (rq & Hrq%from_option_Ok & H).
  apply bind_Ok in H as (rq' & Hrq' & H). injection H as <-. eauto 10.
Qed.

(** The running thread becomes ready. *)
Lemma kdata_yield d s th s' :
  kmid None NULL d s -> threads s !! cur s = Some th ->
  (exists rq rq', run_queue s = Some rq /\ active_insert rq (cur s) (priority th) = Ok rq' /\
     s' = set_run_queue (Some rq') s) \/
  (cur s = idle_thread s /\ (exists rq, run_queue s = Some rq) /\ s' = s) ->
  kdata None NULL d (put_thread (cur s) (with_status th THREAD_READY) s').
Proof.
  intros [Hone (Hp & Hr & Hw & Ht & Hn & Hi)] Hth Hs'.
  assert (status th = THREAD_RUNNING) as Hst.
  { destruct Hone as [(th0 & ? & ?) _]. congruence. }
  assert (threads s' = threads s /\ semas s' = semas s /\ holders s' = holders s /\
    block_list s' = block_list s /\ idle_thread s' = idle_thread s /\
    bool_decide (is_Some (run_queue s')) = bool_decide (is_Some (run_queue s)) /\
    rq_inv (put_thread (cur s) (with_status th THREAD_READY) s'))
    as (E1 & E2 & E3 & E4 & E5 & E6 & Hrq).
  { destruct Hs' as [(rq & rq' & Hrq & Hins & ->)|(E & Hrq & ->)].
    - split_and!; try done; [by rewrite Hrq|]. eapply rq_ready; try done. congruence.
    - split_and!; try done. rewrite E in *. apply rq_ready_idle; try done. congruence. }
  assert (wait_inv None (put_thread (cur s) (with_status th THREAD_READY) s)) as Hw'.
  { apply wait_put; [done|]. right. eapply not_waiting_of; [done..|]. left. congruence. }
  assert (tok_inv d (put_thread (cur s) (with_status th THREAD_READY) s)) as Ht'.
  { eapply tok_put; [done..|]. simpl. intros r. lia. }
  assert (new_inv d (put_thread (cur s) (with_status th THREAD_READY) s)) as Hn'.
  { eapply new_put; [done..| |]; simpl; [intros r; lia|]. left. congruence. }
  assert (idle_inv NULL (put_thread (cur s) (with_status th THREAD_READY) s)) as Hi'.
  { eapply idle_put; [done..|]. intros _. right. intros ? _. by split. }
  assert (pages_inv (put_thread (cur s) (with_status th THREAD_READY) s)) as Hp'.
  { eapply pages_put; [done..|]. simpl. by apply (Hp _ _ Hth). }
  unfold kdata, pages_inv, wait_inv, tok_inv, new_inv, idle_inv, blocked_in, all_toks in *.
  cbn in *. rewrite E1, E2, E3, E4, E5, E6. done.
Qed.

Lemma top_ok_soft f k : soft f -> top_ok f k.
Proof. by destruct f. Qed.

Lemma weight_set_level r old : weight r (F_set_level old) = 0.
Proof. done. Qed.

Lemma thread_yield_ok d s s' :
  kmid None NULL d s -> (forall r, 0 <= d r) -> thread_yield s = Ok s' -> kpost s s'.
Proof.
  intros Hk Hd H. unfold thread_yield in H. cbn [intr_disable] in H.
  apply bind_Ok in H as (c & [-> _]%thread_current_Ok & H).
  apply bind_Ok in H as (? & _ & H).
  apply bind_Ok in H as (s1 & (th & Hth & ->)%push_Ok & H). simpl in Hth.
  assert (kmid None NULL d (put_thread (cur s)
    (with_kstack th (F_set_level (intr_get_level s) :: kstack th)) (set_level INTR_OFF s))) as Hk1.
  { eapply (kmid_push _ _ _ _ (set_level INTR_OFF s)); [exact Hk|done..| |by right; right].
    intros r. rewrite weight_set_level. lia. }
  cbn in H, Hk1. set (s1 := put_thread _ _ _) in *.
  change (cur s) with (cur s1) in H. change (idle_thread s) with (idle_thread s1) in H.
  set (th1 := with_kstack th (F_set_level (intr_get_level s) :: kstack th)).
  assert (threads s1 !! cur s1 = Some th1) as Hth1 by (unfold s1; simpl; by rewrite lookup_insert_eq).
  apply bind_Ok in H as (s2 & Hs2 & H).
  apply bind_Ok in H as (s3 & (th3 & Hth3 & ->)%set_status_Ok & H).
  assert ((exists rq rq', run_queue s1 = Some rq /\
       active_insert rq (cur s1) (priority th1) = Ok rq' /\ s2 = set_run_queue (Some rq') s1) \/
    (cur s1 = idle_thread s1 /\ (exists rq, run_queue s1 = Some rq) /\ s2 = s1)) as Hcase.
  { destruct (Z.eqb_spec (cur s1) (idle_thread s1)) as [E|E]; simpl in Hs2.
    - right. split; [done|]. injection Hs2 as ->. split; [|done].
      unfold schedule in H. apply bind_Ok in H as (rq & Hrq%from_option_Ok & _). by exists rq.
    - left. apply rq_insert_Ok in Hs2 as (th' & rq & rq' & Ht' & ? & ? & ->).
      exists rq, rq'. 
      assert (Some th' = Some th1) as [= ->] by (etrans; [symmetry; exact Ht'|exact Hth1]).
      done. }
  assert (threads s2 = threads s1 /\ cur s2 = cur s1 /\
    in_external_intr s2 = in_external_intr s) as (E1 & E2 & E3).
  { destruct Hcase as [(? & ? & _ & _ & ->)|(_ & _ & ->)]; done. }
  assert (th3 = th1) as -> by (rewrite E1 in Hth3; congruence).
  eapply (schedule_ok d) in H; [| | |done].
  - destruct H as [? Hx]. split; [done|]. rewrite Hx. done.
  - by apply kdata_yield.
  - rewrite <- E2 in *. intros t tht. simpl. rewrite E1, E2.
    apply (no_running_put s1 th1); [by destruct Hk1|by rewrite <- E2|done].
Qed.

(** ** Unblocking *)

Lemma thread_unblock_ok d s t s' :
  kmid None NULL d s -> (forall r, 0 <= d r) -> not_waiting s t ->
  all_toks s (RNew t) + d (RNew t) <= 0 ->
  thread_unblock t s = Ok s' -> kpost s s'.
Proof.
  intros Hk Hd Hnw Hnew H. unfold thread_unblock in H. cbn [intr_disable] in H.
  apply bind_Ok in H as (b & Hb & H). apply bind_Ok in H as (? & ->%ASSERT_Ok & H).
  apply bind_Ok in H as (th & Hth%get_thread_Ok & H).
  apply bind_Ok in H as (? & Hst%ASSERT_Ok & H). apply bool_decide_eq_true in Hst.
  apply bind_Ok in H as (s1 & (th' & rq & rq' & Hth' & Hrq & Hins & ->)%rq_insert_Ok & H).
  apply bind_Ok in H as (s2 & (th2 & Hth2 & ->)%set_status_Ok & H).
  simpl in Hth, Hth', Hth2, Hrq.
  rewrite Hth in Hth', Hth2. injection Hth' as <-. injection Hth2 as <-.
  apply bind_Ok in H as (c & [-> _]%thread_current_Ok & H).
  apply bind_Ok in H as (cth & Hcth%get_thread_Ok & H).
  set (s2 := put_thread t _ _) in *.
  assert (kmid None NULL d s2) as Hk2.
  { destruct Hk as [[Hc Hone] (Hp & Hr & Hw & Ht & Hn & Hi)].
    assert (t <> cur s) as Hne.
    { intros ->. destruct Hc as (th0 & ? & ?). congruence. }
    split; [split|split; [|split; [|split; [|split; [|split]]]]].
    - destruct Hc as (th0 & ? & ?). exists th0. unfold s2. simpl. by rewrite lookup_insert_ne.
    - intros u thu. unfold s2. simpl. intros [[<- <-]|[? Hu]]%lookup_insert_Some; [done|]. by apply Hone.
    - eapply pages_put; [exact Hp|done..|]. simpl. by apply (Hp _ _ Hth).
    - unfold s2. eapply (rq_ready (set_level INTR_OFF s)); try done. congruence.
    - eapply (wait_put _ (set_run_queue (Some rq') (set_level INTR_OFF s))); [exact Hw|by right].
    - eapply (tok_put d _ (set_run_queue (Some rq') (set_level INTR_OFF s))); [by eapply tok_rq|done|].
      simpl. intros r. lia.
    - eapply (new_put d _ (set_run_queue (Some rq') (set_level INTR_OFF s))); [exact Hn|done| |].
      + simpl. intros r. lia.
      + right; right; left. rewrite (all_toks_put _ t th) by done. simpl.
        change (all_toks (set_run_queue (Some rq') (set_level INTR_OFF s)) (RNew t))
          with (all_toks s (RNew t)). lia.
    - eapply (idle_put _ (set_run_queue (Some rq') (set_level INTR_OFF s))); [exact Hi|done|].
      intros _. right. intros ? ?. by split. }
  destruct (negb _ && _).
  - apply bind_Ok in H as (s3 & (th3 & Hth3 & ->)%push_Ok & H).
    eapply (thread_yield_ok d) in H; [exact H| |done].
    eapply kmid_push; [done..| |by right; right]. intros r. rewrite weight_set_level. lia.
  - apply intr_set_level_Ok in H as ->. split; [|done].
    eapply kmid_mono; [exact Hk2|]. done.
Qed.

(** ** Semaphores *)

Lemma sema_token_range sm r : 0 <= sema_token sm r <= 1.
Proof. unfold sema_token. destruct r; try case_decide; lia. Qed.

Lemma kmid_put_sema x y d d' s sm v v' :
  kmid x y d s -> semas s !! sm = Some v -> NoDup (waiters v') ->
  (forall w, w ∈ waiters v' -> Some w <> x -> blocked_in s w (F_sema_down_loop sm)) ->
  (forall l, sm = SLock l -> 0 <= value v') ->
  (forall r, sema_token sm r * value v' + d' r <= sema_token sm r * value v + d r) ->
  kmid x y d' (put_sema sm v' s).
Proof.
  intros [Ho (Hp & Hr & (Hw & Hnd & Hb) & (Hl & Hh & Hi & Hrs) & Hn & Hid)] Hv Hnd' Hw' Hpos Hle.
  split; [exact Ho|]. split; [exact Hp|]. split; [exact Hr|]. split; [|split; [|split]].
  - split; [|by split]. simpl. intros sm' u [[<- <-]|[? Hu]]%lookup_insert_Some; [by split|].
    by apply Hw.
  - split; [|split; [|split]]; simpl.
    + intros l u h [[E <-]|[Hne Hu]]%lookup_insert_Some Hh'.
      * subst sm. destruct (Hl l v h Hv Hh') as [_ Hx]. split; [by eapply Hpos|].
        specialize (Hle (RLock l)). simpl in Hle. rewrite decide_True in Hle by done.
        unfold all_toks in *. simpl. lia.
      * destruct (Hl l u h Hu Hh') as [? Hx]. split; [done|].
        specialize (Hle (RLock l)). simpl in Hle. rewrite decide_False in Hle by done.
        unfold all_toks in *. simpl. lia.
    + intros l. rewrite <- Hh. destruct (decide (sm = SLock l)) as [->|].
      * rewrite lookup_insert_eq, Hv. split; intros _; by eexists.
      * by rewrite lookup_insert_ne.
    + specialize (Hle RIdle). simpl in Hle. unfold all_toks in *. simpl. lia.
    + specialize (Hle RStart). simpl in Hle. unfold all_toks in *. simpl. lia.
  - intros t. destruct (Hn t) as [Hn1 Hn2]. specialize (Hle (RNew t)). simpl in Hle.
    unfold all_toks in *. simpl. split; [lia|]. intros ?. apply Hn2. lia.
  - exact Hid.
Qed.

Lemma kmid_weaken_x x y d s : kmid None y d s -> kmid x y d s.
Proof.
  intros [Ho (Hp & Hr & Hw & Ht & Hn & Hid)]. split; [done|].
  split; [done|]. split; [done|]. split; [by apply wait_weaken|]. done.
Qed.

Lemma cur_not_waiting y d s : kmid None y d s -> not_waiting s (cur s).
Proof.
  intros [[(th & Hth & Hst) _] (_ & _ & Hw & _)].
  eapply not_waiting_of; [done..|]. left. congruence.
Qed.

Lemma lock_value y d s l v :
  kmid None y d s -> semas s !! SLock l = Some v ->
  0 <= value v /\ value v + d (RLock l) <= 1.
Proof.
  intros [_ (Hp & _ & _ & (Hl & Hh & _) & _)] Hv.
  destruct (proj1 (Hh l)) as [h Hh']; [by eexists|].
  destruct (Hl l v h Hv Hh') as [? Hx]. pose proof (all_toks_nonneg s (RLock l) Hp).
  split; [done|]. unfold bit in Hx. destruct (negb (h =? NULL)); lia.
Qed.

Lemma sema_down_loop_ok d s s' sm old th :
  kmid None NULL d s -> (forall r, - sema_token sm r <= d r) ->
  cur s <> idle_thread s -> threads s !! cur s = Some th ->
  top_ok (F_sema_down_loop sm old) (kstack th) ->
  sema_down_loop sm old s = Ok s' -> kpost s s'.
Proof.
  intros Hk Hd Hni Hth Htop H. unfold sema_down_loop in H.
  apply bind_Ok in H as (v & Hv%get_sema_Ok & H).
  pose proof (cur_not_waiting _ _ _ Hk) as [Hnw1 Hnw2].
  destruct (Z.eqb_spec (value v) 0) as [E|E].
  - apply bind_Ok in H as (c & [-> _]%thread_current_Ok & H). cbv zeta in H.
    apply bind_Ok in H as (s2 & (th' & Hth' & ->)%push_Ok & H).
    simpl in Hth'. rewrite Hth in Hth'. injection Hth' as <-. cbn [cur put_sema set_semas] in H.
    set (s1 := put_sema sm _ s) in H.
    assert (kmid (Some (cur s)) NULL d s1) as Hk1.
    { eapply kmid_put_sema; [by apply kmid_weaken_x|done|..]; simpl.
      - apply NoDup_app. split_and!; [|intros w Hw ->%list_elem_of_singleton; by eapply Hnw1|
          apply NoDup_singleton].
        destruct Hk as [_ (_ & _ & (Hw & _) & _)]. by apply (Hw sm).
      - intros w [Hin|Hin]%elem_of_app Hx.
        + destruct Hk as [_ (_ & _ & (Hw & _) & _)]. by apply (Hw sm v).
        + apply list_elem_of_singleton in Hin. congruence.
      - intros l ->. by apply (lock_value _ _ _ _ _ Hk Hv).
      - intros r. lia. }
    assert (kmid (Some (cur s)) NULL (fun r => d r + sema_token sm r)
      (put_thread (cur s1) (with_kstack th (F_sema_down_loop sm old :: kstack th)) s1)) as Hk2.
    { eapply kmid_push; [exact Hk1|done|done| |by left]. intros r. simpl. lia. }
    eapply thread_block_ok in H; [exact H|exact Hk2| |].
    + intros thx. simpl. rewrite lookup_insert_eq. intros [= <-]. simpl. split.
      * intros sm' v' [[<- <-]|[? Hu]]%lookup_insert_Some Hin; [eauto|].
        exfalso. by eapply Hnw1.
      * done.
    + intros r. specialize (Hd r). simpl. lia.
  - apply intr_set_level_Ok in H as ->. split; [|done].
    eapply (kmid_put_sema _ _ d); [exact Hk|done|..]; simpl.
    + destruct Hk as [_ (_ & _ & (Hw & _) & _)]. by apply (Hw sm).
    + destruct Hk as [_ (_ & _ & (Hw & _) & _)]. intros w Hin Hx. by apply (Hw sm v).
    + intros l ->. destruct (lock_value _ _ _ _ _ Hk Hv). lia.
    + intros r. specialize (Hd r). pose proof (sema_token_range sm r). unfold no_tokens. nia.
Qed.

Lemma sema_down_ok d s s' sm th :
  kmid None NULL d s -> (forall r, - sema_token sm r <= d r) ->
  cur s <> idle_thread s -> threads s !! cur s = Some th ->
  top_ok (F_sema_down sm) (kstack th) ->
  sema_down sm s = Ok s' -> kpost s s'.
Proof.
  intros Hk Hd Hni Hth Htop H. unfold sema_down in H. cbn [intr_disable] in H.
  apply bind_Ok in H as (? & _ & H).
  eapply (sema_down_loop_ok d) in H; [exact H|exact Hk|done..].
Qed.

Lemma sema_up_tail_ok d s s' sm old :
  kmid None NULL d s -> (forall r, sema_token sm r <= d r) ->
  sema_up_tail sm old s = Ok s' -> kpost s s'.
Proof.
  intros Hk Hd H. unfold sema_up_tail in H.
  apply bind_Ok in H as (v & Hv%get_sema_Ok & H). apply intr_set_level_Ok in H as ->.
  split; [|done]. eapply (kmid_put_sema _ _ d); [exact Hk|done|..]; simpl.
  - destruct Hk as [_ (_ & _ & (Hw & _) & _)]. by apply (Hw sm).
  - destruct Hk as [_ (_ & _ & (Hw & _) & _)]. intros w Hin Hx. by apply (Hw sm v).
  - intros l ->. apply u32_range.
  - intros r. pose proof (Hd r) as Hdr. unfold no_tokens. 
    destruct r as [l| | |]; simpl in *; [|lia..]. case_decide; [|lia]. subst sm.
    destruct (lock_value _ _ _ _ _ Hk Hv). rewrite u32_small by lia. lia.
Qed.

(** A thread that waits is on one list only and is not under construction. *)
Lemma popped_not_waiting y d s sm v t ws :
  kmid None y d s -> semas s !! sm = Some v -> waiters v = t :: ws ->
  not_waiting (put_sema sm (mk_semaphore (value v) ws) s) t /\
  exists th old k, threads s !! t = Some th /\ status th = THREAD_BLOCKED /\
    kstack th = F_sema_down_loop sm old :: k.
Proof.
  intros [_ (_ & _ & (Hw & _ & Hb) & _)] Hv Hws.
  destruct (Hw sm v Hv) as [Hnd Hin]. rewrite Hws in Hnd, Hin.
  apply NoDup_cons in Hnd as [Hnot _].
  destruct (Hin t) as (th & old & k & Ht & Hs & Hk); [left|done|].
  split; [split|by eauto 10].
  - intros sm' v'. simpl. intros [[<- <-]|[Hne Hu]]%lookup_insert_Some; [done|].
    intros Hin'. destruct (Hw sm' v' Hu) as [_ Hx].
    destruct (Hx t Hin') as (th' & old' & k' & ? & _ & ?); [done|]. congruence.
  - simpl. intros (bt & -> & Hbt)%list_elem_of_fmap.
    destruct (Hb bt Hbt) as (th' & old' & k' & ? & _ & ?); [done|]. congruence.
Qed.

Lemma new_zero d s t th :
  new_inv d s -> threads s !! t = Some th -> kstack th <> [] ->
  all_toks s (RNew t) + d (RNew t) <= 0.
Proof.
  intros Hn Ht Hk. destruct (Hn t) as [_ Hn2].
  destruct (Z_lt_ge_dec (all_toks s (RNew t) + d (RNew t)) 1) as [|Hge]; [lia|].
  destruct Hn2 as (th' & ? & _ & ?); [lia|]. congruence.
Qed.

Lemma sema_up_ok d s s' sm :
  kmid None NULL d s -> (forall r, sema_token sm r <= d r) ->
  (in_external_intr s = true -> forall r, sema_token sm r = 0) ->
  sema_up sm s = Ok s' -> kpost s s'.
Proof.
  intros Hk Hd Hext H. unfold sema_up in H. cbn [intr_disable] in H.
  apply bind_Ok in H as (v & Hv%get_sema_Ok & H). simpl in Hv.
  destruct (waiters v) as [|t ws] eqn:Hws.
  { eapply (sema_up_tail_ok d) in H; [exact H|exact Hk|done]. }
  destruct (popped_not_waiting _ _ _ _ _ _ _ Hk Hv Hws) as [Hnw (th & oldw & k & Ht & Hst & Hks)].
  cbv zeta in H. set (s1 := put_sema sm _ _) in H.
  assert (kmid None NULL d s1) as Hk1.
  { eapply (kmid_put_sema _ _ d _ (set_level INTR_OFF s)); [exact Hk|exact Hv|..]; simpl.
    - destruct Hk as [_ (_ & _ & (Hw & _) & _)]. destruct (Hw sm v Hv) as [Hnd _].
      rewrite Hws in Hnd. by apply NoDup_cons in Hnd as [_ ?].
    - intros w Hin _. destruct Hk as [_ (_ & _ & (Hw & _) & _)]. apply (Hw sm v Hv); [|done].
      rewrite Hws. by right.
    - intros l ->. by apply (lock_value _ _ _ _ _ Hk Hv).
    - intros r. lia. }
  unfold call_then in H. change (intr_context s1) with (in_external_intr s) in H.
  destruct (in_external_intr s) eqn:Ectx.
  - apply bind_Ok in H as (s2 & Hs2 & H).
    eapply (thread_unblock_ok no_tokens) in Hs2 as [Hk2 Hx2].
    + eapply (sema_up_tail_ok no_tokens) in H as [? Hx]; [|exact Hk2|].
      * split; [done|]. rewrite Hx, Hx2. done.
      * intros r. rewrite Hext by done. done.
    + eapply kmid_mono; [exact Hk1|]. intros r. unfold no_tokens.
      pose proof (sema_token_range sm r). specialize (Hd r). lia.
    + done.
    + exact Hnw.
    + destruct Hk1 as [_ (_ & _ & _ & _ & Hn & _)].
      assert (all_toks s1 (RNew t) + d (RNew t) <= 0).
      { apply (new_zero d s1 t th Hn Ht). by rewrite Hks. }
      unfold no_tokens.
      specialize (Hd (RNew t)). simpl in Hd. lia.
  - apply bind_Ok in H as (s2 & (thc & Hthc & ->)%push_Ok & H).
    assert (kmid None NULL (fun r => d r - sema_token sm r)
      (put_thread (cur s1) (with_kstack thc (F_sema_up_tail sm (intr_get_level s) :: kstack thc)) s1))
      as Hk2.
    { eapply kmid_push; [exact Hk1|done|done| |by right; right]. intros r. simpl. lia. }
    assert (t <> cur s1) as Hne.
    { intros ->. destruct Hk1 as [[(th0 & ? & ?) _] _]. simpl in *. congruence. }
    eapply thread_unblock_ok in H as [? Hx]; [|exact Hk2|..].
    + split; [done|]. by rewrite Hx.
    + intros r. specialize (Hd r). simpl. lia.
    + exact Hnw.
    + destruct Hk2 as [_ (_ & _ & _ & _ & Hn & _)].
      refine (new_zero _ _ _ th Hn _ _); [|by rewrite Hks].
      simpl. by rewrite lookup_insert_ne.
Qed.

Lemma sema_try_down_ok d s s' sm b :
  kmid None NULL d s -> (forall r, 0 <= d r) ->
  sema_try_down sm s = Ok (b, s') ->
  kmid None NULL (fun r => if b then d r + sema_token sm r else d r) s' /\
  in_external_intr s' = in_external_intr s.
Proof.
  intros Hk Hd H. unfold sema_try_down in H. cbn [intr_disable] in H.
  apply bind_Ok in H as (v & Hv%get_sema_Ok & H). simpl in Hv.
  destruct (Z.ltb_spec 0 (value v)); apply bind_Ok in H as (s1 & ->%intr_set_level_Ok & H);
    injection H as <- <-; (split; [|done]).
  - eapply (kmid_put_sema _ _ d _ (set_level INTR_OFF s)); [exact Hk|exact Hv|..]; simpl.
    + destruct Hk as [_ (_ & _ & (Hw & _) & _)]. by apply (Hw sm).
    + destruct Hk as [_ (_ & _ & (Hw & _) & _)]. intros w Hin Hx. by apply (Hw sm v).
    + intros l ->. lia.
    + intros r. cbv beta iota. rewrite Z.mul_sub_distr_l. lia.
  - exact Hk.
Qed.

(** Initialising a semaphore that is not a lock's. *)
Lemma sema_init_data x y d s sm n :
  kdata x y d s -> (forall l, sm <> SLock l) -> kdata x y d (sema_init sm n s).
Proof.
  intros (Hp & Hr & (Hw & Hnd & Hb) & (Hl & Hh & Hi & Hrs) & Hn & Hid) Hsm.
  split; [exact Hp|]. split; [exact Hr|]. split; [|split; [|by split]].
  - split; [|by split]. simpl. intros sm' u [[<- <-]|[? Hu]]%lookup_insert_Some; [|by apply Hw].
    split; [by apply NoDup_nil|]. by intros w ?%elem_of_nil.
  - split; [|split; [|by split]]; simpl.
    + intros l u h. rewrite lookup_insert_ne by done. apply Hl.
    + intros l. by rewrite lookup_insert_ne.
Qed.

Lemma sema_init_ok d s sm n :
  kmid None NULL d s -> (forall l, sm <> SLock l) ->
  kmid None NULL d (sema_init sm n s).
Proof. intros [Ho Hk] Hsm. split; [exact Ho|]. by apply sema_init_data. Qed.

(** ** Locks *)

Lemma kmid_put_holder x y d d' s l h h' :
  kmid x y d s -> holders s !! l = Some h ->
  (forall r, (if decide (r = RLock l) then bit (negb (h' =? NULL)) else 0) + d' r <=
             (if decide (r = RLock l) then bit (negb (h =? NULL)) else 0) + d r) ->
  kmid x y d' (put_holder l h' s).
Proof.
  intros [Ho (Hp & Hr & Hw & (Hl & Hh & Hi & Hrs) & Hn & Hid)] Hh' Hle.
  split; [exact Ho|]. split; [exact Hp|]. split; [exact Hr|]. split; [exact Hw|].
  split; [|split; [|exact Hid]].
  - split; [|split; [|split]]; simpl.
    + intros l' v u Hv [[<- <-]|[Hne Hu]]%lookup_insert_Some.
      * destruct (Hl l v h Hv Hh') as [? Hx]. split; [done|].
        specialize (Hle (RLock l)). rewrite !decide_True in Hle by done.
        unfold all_toks in *. simpl. lia.
      * destruct (Hl l' v u Hv Hu) as [? Hx]. split; [done|].
        specialize (Hle (RLock l')). rewrite !decide_False in Hle by congruence.
        unfold all_toks in *. simpl. lia.
    + intros l'. rewrite Hh. destruct (decide (l = l')) as [->|].
      * rewrite lookup_insert_eq, Hh'. split; intros _; by eexists.
      * by rewrite lookup_insert_ne.
    + specialize (Hle RIdle). rewrite !decide_False in Hle by done. unfold all_toks in *. simpl. lia.
    + specialize (Hle RStart). rewrite !decide_False in Hle by done. unfold all_toks in *. simpl. lia.
  - intros t. destruct (Hn t) as [Hn1 Hn2]. specialize (Hle (RNew t)). rewrite !decide_False in Hle by done.
    unfold all_toks in *. simpl. split; [lia|]. intros ?. apply Hn2. lia.
Qed.

Lemma bit_range b : 0 <= bit b <= 1.
Proof. destruct b; simpl; lia. Qed.

Definition lock_token (l : lref) (r : resource) : Z := if decide (r = RLock l) then 1 else 0.

Lemma sema_token_lock l r : sema_token (SLock l) r = lock_token l r.
Proof.
  unfold sema_token, lock_token. destruct r; repeat case_decide; congruence.
Qed.

Lemma lock_acquire_ok d s s' l :
  kmid None NULL d s -> (forall r, 0 <= d r) -> cur s <> idle_thread s ->
  lock_acquire l s = Ok s' -> kpost s s'.
Proof.
  intros Hk Hd Hni H. unfold lock_acquire in H.
  apply bind_Ok in H as (? & _ & H). apply bind_Ok in H as (b & _ & H).
  apply bind_Ok in H as (? & _ & H).
  apply bind_Ok in H as (s1 & (th & Hth & ->)%push_Ok & H).
  eapply (sema_down_ok (fun r => d r - lock_token l r)) in H; [exact H|..].
  - eapply kmid_push; [exact Hk|done|done| |by left]. intros r. simpl.
    unfold lock_token. lia.
  - intros r. rewrite sema_token_lock. specialize (Hd r). lia.
  - exact Hni.
  - simpl. by rewrite lookup_insert_eq.
  - simpl. eauto.
Qed.

Lemma set_holder_ok d s s' l :
  kmid None NULL d s -> (forall r, lock_token l r <= d r) ->
  set_holder l s = Ok s' -> kpost s s'.
Proof.
  intros Hk Hd H. unfold set_holder in H.
  apply bind_Ok in H as (c & [-> _]%thread_current_Ok & H).
  apply bind_Ok in H as (h & Hh%from_option_Ok & H). injection H as <-.
  split; [|done]. eapply kmid_put_holder; [exact Hk|done|]. intros r. specialize (Hd r).
  pose proof (bit_range (negb (h =? NULL))). pose proof (bit_range (negb (cur s =? NULL))).
  unfold lock_token, no_tokens in *. case_decide; lia.
Qed.

Lemma held_Ok l s b :
  lock_held_by_current_thread l s = Ok b ->
  exists h, holders s !! l = Some h /\ b = (h =? cur s).
Proof.
  unfold lock_held_by_current_thread. intros H.
  apply bind_Ok in H as (h & Hh%from_option_Ok & H).
  apply bind_Ok in H as (c & [-> _]%thread_current_Ok & H). injection H as <-. eauto.
Qed.

Lemma lock_release_ok d s s' l :
  kmid None NULL d s -> (forall r, 0 <= d r) -> in_external_intr s = false ->
  lock_release l s = Ok s' -> kpost s s'.
Proof.
  intros Hk Hd Hext H. unfold lock_release in H.
  apply bind_Ok in H as (b & (h & Hh & ->)%held_Ok & H).
  apply bind_Ok in H as (? & E%ASSERT_Ok & H). apply Z.eqb_eq in E as ->.
  eapply (sema_up_ok (fun r => d r + lock_token l r)) in H; [exact H|..].
  - eapply kmid_put_holder; [exact Hk|done|]. intros r. simpl.
    pose proof (cur_not_idle_stack _ _ _ _ Hk) as Hnn. apply Z.eqb_neq in Hnn. rewrite Hnn.
    unfold lock_token. case_decide; simpl; lia.
  - intros r. rewrite sema_token_lock. specialize (Hd r). lia.
  - simpl. congruence.
Qed.
