(* ===== verification/Sched.v ===== *)
(** * The thread system: creation, interrupts, and what holds of every run

    The remaining operations preserve the invariant of [SchedInv]; hence it
    holds in every state reachable by any sequence of client calls, context
    switches and interrupts.  The properties at the end read it off, and
    exhibit two runs in which the code does not do what its comments say. *)

From stdpp Require Import sorting.
From S2P Require Import Prelude MapSum Vaddr Bitmap Runqueue Kernel SchedInv SchedPres.

(** ** Locks and condition variables, continued *)

Lemma kmid_eax x y d s s' v :
  kmid x y d s -> set_eax v s = Ok s' -> kmid x y d s' /\ in_external_intr s' = in_external_intr s.
Proof.
  intros Hk H. unfold set_eax in H. apply bind_Ok in H as (th & Hth%get_thread_Ok & H).
  injection H as <-. split; [|done]. eapply kmid_put_cur; [exact Hk|done..| | |]; simpl.
  - destruct Hk as [_ (Hp & _)]. by apply (Hp _ _ Hth).
  - intros r. lia.
  - intros _. by right.
Qed.

Lemma bool_ret_ok (r : res (bool * kstate)) s s' :
  (forall b s1, r = Ok (b, s1) -> kpost s s1) -> bool_ret r = Ok s' -> kpost s s'.
Proof.
  intros Hr H. unfold bool_ret in H. apply bind_Ok in H as ([b s1] & -> & H).
  destruct (Hr b s1 eq_refl) as [Hk Hx]. eapply kmid_eax in H as [? Hx']; [|exact Hk].
  split; [done|]. congruence.
Qed.

Lemma lock_try_acquire_ok s s' l b :
  kmid None NULL no_tokens s -> lock_try_acquire l s = Ok (b, s') -> kpost s s'.
Proof.
  intros Hk H. unfold lock_try_acquire in H.
  apply bind_Ok in H as (b0 & _ & H). apply bind_Ok in H as (? & _ & H).
  apply bind_Ok in H as ([b1 s1] & Hs1 & H).
  apply (sema_try_down_ok no_tokens) in Hs1 as [Hk1 Hx1]; [|done..].
  destruct b1.
  - apply bind_Ok in H as (s2 & Hs2 & H). injection H as <- <-.
    eapply set_holder_ok in Hs2 as [? Hx2]; [split; [done|congruence]|exact Hk1|].
    intros r. cbv beta iota. rewrite sema_token_lock. unfold no_tokens. lia.
  - injection H as <- <-. by split.
Qed.

Lemma cond_wait_ok s s' c l :
  kmid None NULL no_tokens s -> in_external_intr s = false -> cur s <> idle_thread s ->
  cond_wait c l s = Ok s' -> kpost s s'.
Proof.
  intros Hk Hext Hni H. unfold cond_wait in H.
  apply bind_Ok in H as (? & _ & H). apply bind_Ok in H as (b & _ & H).
  apply bind_Ok in H as (? & _ & H). apply bind_Ok in H as (t & [-> _]%thread_current_Ok & H).
  cbv zeta in H. apply bind_Ok in H as (ws & _ & H).
  apply bind_Ok in H as (s1 & (th & Hth & ->)%push_Ok & H).
  apply bind_Ok in H as (s2 & (th' & Hth' & ->)%push_Ok & H).
  set (s0 := set_conds _ _) in *.
  assert (kmid None NULL no_tokens s0) as Hk0.
  { change (kmid None NULL no_tokens (sema_init (SWaiter (cur s)) 0 s)). by apply sema_init_ok. }
  eapply (lock_release_ok no_tokens) in H; [exact H| |done|done].
  eapply kmid_push0; [|exact Hth'|done| |by left].
  - by eapply kmid_push0; [exact Hk0|exact Hth|done|done|left].
  - by intros [].
Qed.

Lemma cond_signal_ok s s' c l :
  kmid None NULL no_tokens s -> in_external_intr s = false ->
  cond_signal c l s = Ok s' -> kpost s s'.
Proof.
  intros Hk Hext H. unfold cond_signal in H.
  apply bind_Ok in H as (? & _ & H). apply bind_Ok in H as (b & _ & H).
  apply bind_Ok in H as (? & _ & H). apply bind_Ok in H as (ws & _ & H).
  destruct ws as [|w ws]; [injection H as <-; by split|].
  eapply (sema_up_ok no_tokens) in H; [exact H|exact Hk|..].
  - intros r. by destruct r.
  - simpl. congruence.
Qed.

Lemma cond_broadcast_ok s s' c l :
  kmid None NULL no_tokens s -> in_external_intr s = false -> cur s <> idle_thread s ->
  cond_broadcast c l s = Ok s' -> kpost s s'.
Proof.
  intros Hk Hext Hni H. unfold cond_broadcast in H. apply bind_Ok in H as (ws & _ & H).
  destruct ws as [|w ws]; [injection H as <-; by split|].
  apply bind_Ok in H as (s1 & (th & Hth & ->)%push_Ok & H).
  eapply cond_signal_ok in H; [exact H| |done].
  by eapply kmid_push0; [exact Hk|exact Hth|done|done|left].
Qed.

(** ** Creation *)

(** The contract of [palloc_get_page] as [thread_create] relies on it: a
    page that holds no live thread, and whose locks nobody still uses. *)
Definition fresh_page (s : kstate) (page : Z) : Prop :=
  page = NULL \/
  (page_addr page /\ threads s !! page = None /\
   all_toks s (RLock (LThread page)) <= 0 /\ all_toks s (RLock (LSpt page)) <= 0).

Lemma lock_init_data x y d s l :
  kdata x y d s -> all_toks s (RLock l) + d (RLock l) <= 0 -> kdata x y d (lock_init l s).
Proof.
  intros (Hp & Hr & (Hw & Hnd & Hb) & (Hl & Hh & Hi & Hrs) & Hn & Hid) Hz.
  split; [exact Hp|]. split; [exact Hr|]. split; [|split; [|by split]].
  - split; [|by split]. simpl. intros sm' u [[<- <-]|[? Hu]]%lookup_insert_Some; [|by apply Hw].
    split; [by apply NoDup_nil|]. by intros w ?%elem_of_nil.
  - split; [|split; [|by split]]; simpl.
    + intros l' u h [[E <-]|[Hne Hu]]%lookup_insert_Some [[<- <-]|[Hne' Hh']]%lookup_insert_Some;
        try congruence.
      * unfold all_toks in *. simpl. lia.
      * by apply Hl.
    + intros l'. destruct (decide (l = l')) as [->|Hne].
      * rewrite !lookup_insert_eq. split; intros _; by eexists.
      * rewrite !lookup_insert_ne by congruence. apply Hh.
Qed.

Lemma all_toks_insert_fresh s t th r :
  threads s !! t = None -> all_toks (put_thread t th s) r = toks r (kstack th) + all_toks s r.
Proof. intros Ht. by apply (msum_insert_fresh (fun th => toks r (kstack th))). Qed.

Lemma new_token_0 t r : (forall u, r <> RNew u) -> new_token t r = 0.
Proof. intros Hr. unfold new_token. by rewrite decide_False by apply Hr. Qed.

(** A new blocked thread; its creator holds the token for it. *)
Lemma put_new_data x y d s t th :
  kdata x y d s -> page_addr t -> threads s !! t = None ->
  status th = THREAD_BLOCKED -> kstack th = [] -> magic th = THREAD_MAGIC ->
  (idle_thread s <> t \/ idle_thread s = NULL) ->
  kdata x y (fun r => d r + new_token t r) (put_thread t th s).
Proof.
  intros (Hp & Hr & (Hw & Hnd & Hb) & (Hl & Hh & Hi & Hrs) & Hn & Hid) Ht Hnone Hst Hks Hm Hidle.
  assert (forall r, all_toks (put_thread t th s) r = all_toks s r) as Hall.
  { intros r. rewrite all_toks_insert_fresh, Hks by done. done. }
  assert (forall w f, blocked_in s w f -> blocked_in (put_thread t th s) w f) as Hbi.
  { intros w f Hx. apply blocked_in_put; [done|]. intros ->.
    destruct Hx as (? & ? & ? & ? & _). congruence. }
  split; [|split; [|split; [|split; [|split]]]].
  - intros u thu. simpl. intros [[<- <-]|[? Hu]]%lookup_insert_Some; [|by apply Hp].
    by rewrite Hks, Hm.
  - unfold rq_inv in *. simpl. destruct (run_queue s) as [rq|].
    + destruct Hr as (la & Hrep & Hnd' & Hin & Hout). exists la. split_and!; try done.
      * intros p u Hu. destruct (Hin p u Hu) as (thu & Hu' & ? & ?). exists thu.
        rewrite lookup_insert_ne; [done|]. intros ->. congruence.
      * intros u thu [[<- <-]|[? Hu]]%lookup_insert_Some Hs; [congruence|]. by eapply Hout.
    + intros u thu [[<- <-]|[? Hu]]%lookup_insert_Some; [congruence|]. by eapply Hr.
  - split; [|split; [done|]]; simpl.
    + intros sm v Hv. destruct (Hw sm v Hv) as [? Hw']. split; [done|]. auto.
    + auto.
  - split; [|split; [done|split]]; simpl; [|rewrite Hall, new_token_0 by done; lia..].
    intros l v h Hv Hh'. destruct (Hl l v h Hv Hh'). rewrite Hall, new_token_0 by done. lia.
  - intros u. rewrite Hall. simpl. unfold new_token. destruct (Hn u) as [Hn1 Hn2].
    destruct (decide (RNew u = RNew t)) as [[= ->]|Hne].
    + split.
      * destruct (Z_lt_ge_dec (all_toks s (RNew t) + d (RNew t)) 1) as [|Hge]; [lia|].
        destruct Hn2 as (? & ? & _); [lia|]. congruence.
      * intros _. exists th. by rewrite lookup_insert_eq.
    + split; [lia|]. intros Hge. destruct Hn2 as (thu & ? & ?); [lia|]. exists thu.
      rewrite lookup_insert_ne; [done|]. congruence.
  - destruct Hid as [?|[?|(thi & ? & ?)]]; [by left|by right; left|right; right].
    exists thi. simpl. destruct Hidle as [Hne|E].
    + by rewrite lookup_insert_ne.
    + rewrite lookup_insert_ne; [done|]. unfold page_addr, NULL in *. lia.
Qed.

Lemma init_thread_data y d s s' t nm prio :
  kdata None y d s -> (y = NULL \/ idle_thread s = NULL) ->
  page_addr t -> threads s !! t = None ->
  all_toks s (RLock (LThread t)) + d (RLock (LThread t)) <= 0 ->
  all_toks s (RLock (LSpt t)) + d (RLock (LSpt t)) <= 0 ->
  init_thread t nm prio s = Ok s' ->
  kdata None y (fun r => d r + new_token t r) s' /\
  cur s' = cur s /\ idle_thread s' = idle_thread s /\
  in_external_intr s' = in_external_intr s /\
  (exists th, status th = THREAD_BLOCKED /\ threads s' = <[t := th]> (threads s)).
Proof.
  intros Hk Hy Ht Hnone Hz1 Hz2 H. unfold init_thread in H.
  apply bind_Ok in H as (? & _ & H). apply bind_Ok in H as (? & _ & H). cbv zeta in H.
  injection H as <-. split; [|split_and!; try done; eexists; split; [|done]; done].
  apply sema_init_data; [|done].
  set (th := mk_thread _ _ _ _ _ _ _ _ _ _ _ _ _ _ _ _ _).
  assert (kdata None y (fun r => d r + new_token t r) (put_thread t th s)) as Hk1.
  { apply put_new_data; try done. destruct Hk as (_ & _ & _ & _ & _ & Hid).
    destruct Hy as [->|]; [|by right].
    destruct Hid as [?|[?|(thi & Hi & _)]]; [by right|by right|left]. congruence. }
  assert (forall r, all_toks (put_thread t th s) r = all_toks s r) as Hall.
  { intros r. by rewrite all_toks_insert_fresh. }
  apply lock_init_data.
  - apply lock_init_data; [exact Hk1|].
    change (all_toks (put_thread t th s) (RLock (LThread t)) +
      (d (RLock (LThread t)) + new_token t (RLock (LThread t))) <= 0).
    rewrite Hall, new_token_0 by done. lia.
  - change (all_toks (put_thread t th s) (RLock (LSpt t)) +
      (d (RLock (LSpt t)) + new_token t (RLock (LSpt t))) <= 0).
    rewrite Hall, new_token_0 by done. lia.
Qed.

Lemma idle_token_range f r : 0 <= idle_token f r <= 1.
Proof. unfold idle_token. case_decide; lia. Qed.
Lemma new_token_range t r : 0 <= new_token t r <= 1.
Proof. unfold new_token. case_decide; lia. Qed.

Lemma thread_create_ok d s s' page nm prio f :
  kmid None NULL d s -> (forall r, idle_token f r <= d r) ->
  (forall l, d (RLock l) = 0) ->
  in_external_intr s = false -> cur s <> idle_thread s -> fresh_page s page ->
  thread_create page nm prio f s = Ok s' -> kpost s s'.
Proof.
  intros Hk Hd Hdl Hext Hni Hfresh H. unfold thread_create in H.
  destruct (Z.eqb_spec page NULL) as [|Hpn].
  { injection H as <-. split; [|done]. eapply kmid_mono; [exact Hk|].
    intros r. pose proof (idle_token_range f r). specialize (Hd r). unfold no_tokens. lia. }
  destruct Hfresh as [?|(Hpage & Hnone & Hz1 & Hz2)]; [done|].
  apply bind_Ok in H as (s1 & Hs1 & H).
  destruct Hk as [[(thc & Hthc & Hst) Hone] Hkd].
  eapply init_thread_data in Hs1 as (Hk1 & E1 & E2 & E3 & (th & Hth & E4));
    [|exact Hkd|by left|done|done|rewrite Hdl; lia|rewrite Hdl; lia].
  apply bind_Ok in H as (s2 & (th' & Hth' & ->)%push_Ok & H).
  assert (kmid None NULL (fun r => d r + new_token page r) s1) as Hkm1.
  { split; [|exact Hk1]. split.
    - exists thc. rewrite E1, E4. rewrite lookup_insert_ne; [done|]. congruence.
    - intros t tht. rewrite E1, E4. intros [[<- <-]|[? Hu]]%lookup_insert_Some Hs; [congruence|].
      by eapply Hone. }
  eapply (lock_acquire_ok (fun r => d r - idle_token f r)) in H.
  - destruct H as [? Hx]. split; [done|]. rewrite Hx. exact E3.
  - eapply kmid_push; [exact Hkm1|exact Hth'|done| |left; congruence].
    intros r. simpl. lia.
  - intros r. specialize (Hd r). simpl. lia.
  - simpl. congruence.
Qed.

Lemma create_tid_ok d s s' t f :
  kmid None NULL d s -> (forall r, idle_token f r + new_token t r <= d r) ->
  in_external_intr s = false -> cur s <> idle_thread s ->
  create_tid t f s = Ok s' -> kpost s s'.
Proof.
  intros Hk Hd Hext Hni H. unfold create_tid in H. cbv zeta in H.
  apply bind_Ok in H as (s1 & (th & Hth & ->)%push_Ok & H).
  eapply (lock_release_ok (fun r => d r - (idle_token f r + new_token t r))) in H;
    [exact H| | |exact Hext].
  - eapply kmid_push; [exact Hk|exact Hth|done| |by left]. intros r. simpl. lia.
  - intros r. specialize (Hd r). simpl. lia.
Qed.

(** The creator changes the thread it owns. *)
Lemma kmid_put_new d d' s t th th' :
  kmid None NULL d s -> threads s !! t = Some th ->
  status th = THREAD_BLOCKED -> kstack th = [] ->
  status th' = THREAD_BLOCKED -> magic th' = magic th ->
  (kstack th' = [] /\ d' = d) \/
  (exists f, kstack th' = [F_kernel_thread f] /\ (forall r, idle_token f r + d' r <= d r) /\
     all_toks s (RNew t) + d' (RNew t) <= 0) ->
  kmid None NULL d' (put_thread t th' s).
Proof.
  intros [[(thc & Hc & Hsc) Hone] (Hp & Hr & Hw & Ht & Hn & Hid)] Hth Hst Hks Hst' Hm Hcase.
  assert (forall r, toks r (kstack th') + d' r <= toks r (kstack th) + d r) as Hle.
  { intros r. rewrite Hks. destruct Hcase as [[-> ->]|(f & -> & Hle & _)]; simpl; [lia|].
    specialize (Hle r). lia. }
  assert (t <> cur s) as Hne by congruence.
  split; [split|split; [|split; [|split; [|split; [|split]]]]].
  - exists thc. simpl. by rewrite lookup_insert_ne.
  - simpl. intros u thu [[<- <-]|[? Hu]]%lookup_insert_Some Hs; [congruence|]. by eapply Hone.
  - eapply pages_put; [done..|]. destruct Hcase as [[-> _]|(f & -> & _)]; simpl; done.
  - eapply rq_put; [done..| |]; congruence.
  - apply wait_put; [done|]. right. eapply not_waiting_of; [done..|]. by right; left.
  - by eapply tok_put.
  - eapply new_put; [done..|]. right; right.
    destruct Hcase as [[? _]|(f & Hk' & _ & Hz)]; [by right|left].
    rewrite (all_toks_put _ _ th), Hks, Hk' by done. simpl. unfold idle_token.
    rewrite decide_False by naive_solver. lia.
  - eapply idle_put; [done..|]. intros _. right. rewrite Hks.
    intros (ks & f & E & _). by destruct ks.
Qed.

Lemma alloc_frame_Ok t n s s' :
  alloc_frame t n s = Ok s' ->
  exists th, threads s !! t = Some th /\ s' = put_thread t (with_stack th (stack th - n)) s.
Proof.
  unfold alloc_frame. intros H. apply bind_Ok in H as (b & _ & H).
  apply bind_Ok in H as (? & _ & H). apply bind_Ok in H as (? & _ & H).
  apply bind_Ok in H as (th & Hth%get_thread_Ok & H). injection H as <-. eauto.
Qed.

(** A blocked thread on an empty stack, all the way through [create_tail]. *)
Lemma create_tail_ok d s s' t id f :
  kmid None NULL d s -> (forall r, idle_token f r + new_token t r <= d r) ->
  create_tail t id f s = Ok s' -> kpost s s'.
Proof.
  intros Hk Hd H. unfold create_tail in H. cbn [intr_disable] in H.
  assert (d (RNew t) >= 1) as Hd1.
  { specialize (Hd (RNew t)). unfold new_token in Hd. rewrite decide_True in Hd by done.
    pose proof (idle_token_range f (RNew t)). lia. }
  apply bind_Ok in H as (th & Hth%get_thread_Ok & H).
  assert (status th = THREAD_BLOCKED /\ kstack th = [] /\ all_toks s (RNew t) <= 0)
    as (Hst & Hks & Hz).
  { destruct Hk as [_ (Hp & _ & _ & _ & Hn & _)]. destruct (Hn t) as [Hn1 Hn2].
    destruct Hn2 as (th' & ? & ? & ?); [pose proof (all_toks_nonneg s (RNew t) Hp); lia|].
    simplify_eq. split_and!; [done..|lia]. }
  set (P := fun u => exists th, kmid None NULL d u /\ threads u !! t = Some th /\
    status th = THREAD_BLOCKED /\ kstack th = [] /\
    all_toks u (RNew t) <= 0 /\ in_external_intr u = in_external_intr s).
  assert (forall u th th', P u -> threads u !! t = Some th -> status th' = status th ->
    magic th' = magic th -> kstack th' = kstack th -> P (put_thread t th' u)) as Hput.
  { intros u tu tu' (tx & Hku & Htu & Hsu & Hksu & Hzu & Hxu) Htu' Hs' Hm' Hk'.
    assert (tx = tu) as -> by congruence.
    exists tu'. split_and!; try done; try congruence.
    - eapply kmid_put_new; [exact Hku|done..|congruence|done|]. left. split; congruence.
    - simpl. by rewrite lookup_insert_eq.
    - rewrite (all_toks_put _ _ tu) by done. rewrite Hk'. lia. }
  assert (P (set_level INTR_OFF (put_thread t (with_tid th id) s))) as HP1.
  { apply (Hput s th (with_tid th id)); try done. exists th. done. }
  apply bind_Ok in H as (s1 & (t1 & Ht1 & ->)%alloc_frame_Ok & H).
  eapply (Hput _ _ (with_stack t1 (stack t1 - 12))) in HP1; [|exact Ht1|done..].
  apply bind_Ok in H as (s2 & (t2 & Ht2 & ->)%alloc_frame_Ok & H).
  eapply (Hput _ _ (with_stack t2 (stack t2 - 4))) in HP1; [|exact Ht2|done..].
  apply bind_Ok in H as (s3 & (t3 & Ht3 & ->)%alloc_frame_Ok & H).
  eapply (Hput _ _ (with_stack t3 (stack t3 - 28))) in HP1; [|exact Ht3|done..].
  apply bind_Ok in H as (t4 & Ht4%get_thread_Ok & H).
  set (s4 := put_thread t _ (put_thread _ _ (put_thread _ _ _))) in *.
  destruct HP1 as (tx & Hk4 & Htx & Hs4 & Hks4 & Hz4 & Hx4).
  assert (tx = t4) as -> by congruence.
  apply bind_Ok in H as (s5 & ->%intr_set_level_Ok & H).
  assert (not_waiting s4 t) as Hnw.
  { destruct Hk4 as [_ (_ & _ & Hw & _)]. eapply not_waiting_of; [done..|]. by right; left. }
  eapply (thread_unblock_ok no_tokens) in H as [? Hx]; [split; [done|by rewrite Hx]|..]; [|done| |].
  - change (kmid None NULL no_tokens (put_thread t (with_kstack t4 [F_kernel_thread f]) s4)).
    eapply kmid_put_new; [exact Hk4|exact Htx|done|done|done|done|].
    right. exists f. split; [done|]. split; [|unfold no_tokens; lia].
    intros r. specialize (Hd r). pose proof (new_token_range t r). unfold no_tokens. lia.
  - exact Hnw.
  - change (all_toks (put_thread t (with_kstack t4 [F_kernel_thread f]) s4) (RNew t) + 0 <= 0).
    rewrite (all_toks_put _ _ t4), Hks4 by done. simpl. unfold idle_token.
    rewrite decide_False by naive_solver. lia.
Qed.

Lemma kernel_thread_ok d s s' th f :
  kmid None NULL d s -> (forall r, idle_token f r <= d r) ->
  cur s <> idle_thread s -> threads s !! cur s = Some th -> kstack th = [] ->
  kernel_thread f s = Ok s' -> kpost s s'.
Proof.
  intros Hk Hd Hni Hth Hks H. unfold kernel_thread in H.
  apply bind_Ok in H as (s1 & ->%intr_enable_Ok & H).
  apply bind_Ok in H as (s2 & (t1 & Ht1 & ->)%push_Ok & H).
  apply push_Ok in H as (t2 & Ht2 & ->).
  simpl in Ht1. rewrite Hth in Ht1. injection Ht1 as <-.
  cbn in Ht2. rewrite lookup_insert_eq in Ht2. injection Ht2 as <-.
  split; [|done]. eapply (kmid_push _ _ d).
  - eapply kmid_push0; [exact Hk|exact Hth|done|done|by left].
  - simpl. by rewrite lookup_insert_eq.
  - simpl. rewrite Hks. by destruct f.
  - intros r. specialize (Hd r). unfold no_tokens. destruct f; simpl in *; [lia|].
    pose proof (idle_token_range FuncClient r). lia.
  - by left.
Qed.

(** The run queue is created, once. *)
Lemma thread_start_ok d s s' page :
  kmid None NULL d s -> (forall r, weight r (F_thread_start page) <= d r) ->
  (forall l, d (RLock l) = 0) ->
  in_external_intr s = false -> cur s <> idle_thread s -> fresh_page s page ->
  thread_start page s = Ok s' -> kpost s s'.
Proof.
  intros Hk Hd Hdl Hext Hni Hfresh H. unfold thread_start in H.
  apply bind_Ok in H as (rq & Hrq & H). cbv zeta in H.
  assert (rq_rep rq [] []) as Hrep.
  { destruct runqueue_init_spec as (rq' & Hrq' & Hrep). congruence. }
  clear Hrq.
  apply bind_Ok in H as (s1 & (th & Hth & ->)%push_Ok & H).
  set (s0 := sema_init SIdle 0 _) in *.
  set (d' := fun r => if decide (r = RStart) then 0 else d r).
  assert (kmid None NULL d' s0) as Hk0.
  { apply sema_init_ok; [|done].
    destruct Hk as [Ho (Hp & Hr & Hw & (Hl & Hh & Hi & Hrs) & Hn & Hid)].
    pose proof (Hd RStart) as HdS. simpl in HdS.
    assert (idle_token FuncIdle RStart = 0) as E0 by (unfold idle_token; by rewrite decide_False by naive_solver).
    rewrite E0 in HdS. pose proof (all_toks_nonneg s RStart Hp).
    assert (run_queue s = None) as Hnone.
    { destruct (run_queue s); [|done]. rewrite bool_decide_true in Hrs by (by eexists).
      simpl in Hrs. lia. }
    rewrite Hnone in Hrs. simpl in Hrs.
    split; [exact Ho|]. split; [exact Hp|]. split; [|split; [exact Hw|split; [|split; [|exact Hid]]]].
    - unfold rq_inv in *. rewrite Hnone in Hr. simpl.
      exists []. split; [exact Hrep|]. split; [by apply NoDup_nil|]. split.
      + intros ? ? Hnil. by apply elem_of_nil in Hnil.
      + intros t tht Ht Hs. exfalso. exact (Hr t tht Ht Hs).
    - split; [|split; [done|split]].
      + intros l v h Hv Hh'. unfold d'. rewrite decide_False by done. by apply Hl.
      + unfold d'. rewrite decide_False by done. exact Hi.
      + unfold d'. rewrite decide_True by done. simpl. unfold all_toks in *. simpl. lia.
    - intros t. unfold d'. rewrite decide_False by done. apply Hn. }
  eapply (thread_create_ok d') in H; [exact H| | | |exact Hext|exact Hni|].
  - eapply kmid_push0; [exact Hk0|exact Hth|done|done|by left].
  - intros r. specialize (Hd r). unfold d'. simpl in Hd. repeat case_decide; [|lia].
    subst r. unfold idle_token. rewrite decide_False by naive_solver. lia.
  - intros l. unfold d'. by rewrite decide_False.
  - destruct Hfresh as [?|(? & ? & ? & ?)]; [by left|right].
    simpl in Hth. split_and!; try done.
    + simpl. rewrite lookup_insert_ne; [done|]. congruence.
    + rewrite (all_toks_put s0 _ th) by done. simpl. unfold all_toks in *. simpl. lia.
    + rewrite (all_toks_put s0 _ th) by done. simpl. unfold all_toks in *. simpl. lia.
Qed.

(** ** The idle thread *)

(** Once its loop frame is on its stack the idle thread needs no exemption. *)
Lemma kmid_restore x d s th :
  kmid x (cur s) d s -> threads s !! cur s = Some th ->
  idle_thread s <> cur s \/ idle_stack (kstack th) -> kmid x NULL d s.
Proof.
  intros [[(thc & Hc & Hst) Ho] (Hp & Hr & Hw & Ht & Hn & Hid)] Hth Hi.
  split; [split; [by exists thc|done]|].
  split; [done|]. split; [done|]. split; [done|]. split; [done|]. split; [done|].
  destruct Hid as [?|[E|?]]; [by left| |by right; right].
  destruct Hi as [?|Hi]; [done|]. right; right. exists th. rewrite E.
  split; [done|]. split; [done|]. congruence.
Qed.

Lemma idle_frame_ok d s th f :
  kmid None (cur s) d s -> threads s !! cur s = Some th ->
  idle_thread s <> cur s \/ kstack th = [F_thread_exit] ->
  f = F_idle_loop \/ f = F_idle_hlt ->
  kmid None NULL d (put_thread (cur s) (with_kstack th (f :: kstack th)) s).
Proof.
  intros Hk Hth Hid Hf. eapply kmid_restore.
  - simpl. eapply kmid_push0; [exact Hk|exact Hth|..].
    + by destruct Hf as [-> | ->].
    + by destruct Hf as [-> | ->].
    + by right; left.
  - simpl. by rewrite lookup_insert_eq.
  - destruct Hid as [|E]; [by left|right]. simpl. rewrite E. exists [], f. done.
Qed.

Lemma idle_start_ok d s s' th :
  kmid None NULL d s -> (forall r, idle_token FuncIdle r <= d r) ->
  in_external_intr s = false -> threads s !! cur s = Some th ->
  kstack th = [F_thread_exit] -> idle_start s = Ok s' -> kpost s s'.
Proof.
  intros Hk Hd Hext Hth Hks H. unfold idle_start in H.
  apply bind_Ok in H as (c & [-> _]%thread_current_Ok & H). cbv zeta in H.
  apply bind_Ok in H as (s1 & (th' & Hth' & ->)%push_Ok & H).
  simpl in Hth'. rewrite Hth in Hth'. injection Hth' as <-.
  eapply (sema_up_ok no_tokens) in H; [exact H| | |simpl; congruence].
  2: { by intros []. }
  apply (idle_frame_ok _ (set_idle_thread (cur s) s)); [|done|by right|by left].
  pose proof (cur_not_idle_stack _ _ _ _ Hk) as Hnn.
  destruct Hk as [Ho (Hp & Hr & Hw & (Hl & Hh & Hi & Hrs) & Hn & Hid)].
  pose proof (Hd RIdle) as HdI. unfold idle_token in HdI. rewrite decide_True in HdI by done.
  pose proof (all_toks_nonneg s RIdle Hp).
  assert (idle_thread s = NULL) as Hnull.
  { destruct (Z.eqb_spec (idle_thread s) NULL); [done|]. simpl in Hi. lia. }
  rewrite Hnull in Hi. simpl in Hi.
  assert (forall r, 0 <= d r) as Hd0.
  { intros r. pose proof (idle_token_range FuncIdle r). specialize (Hd r). lia. }
  split; [exact Ho|]. split; [exact Hp|]. split; [|split; [exact Hw|split; [|split]]].
  - unfold rq_inv in *. simpl. destruct (run_queue s); [|done].
    destruct Hr as (la & Hrep & Hnd & Hin & Hout). exists la. split_and!; try done.
    intros t tht Ht Hs. destruct (Hout t tht Ht Hs) as [|E]; [by left|].
    destruct (Hp _ _ Ht) as [[? _] _]. rewrite E, Hnull in *. unfold NULL in *. lia.
  - split; [|split; [done|split]]; simpl.
    + intros l v h Hv Hh'. destruct (Hl l v h Hv Hh'). specialize (Hd0 (RLock l)).
      unfold no_tokens, all_toks in *. simpl. lia.
    + apply Z.eqb_neq in Hnn. rewrite Hnn. unfold no_tokens, all_toks in *. simpl. lia.
    + specialize (Hd0 RStart). unfold no_tokens, all_toks in *. simpl. lia.
  - intros t. destruct (Hn t) as [Hn1 Hn2]. specialize (Hd0 (RNew t)).
    unfold no_tokens, all_toks in *. simpl. split; [lia|]. intros. apply Hn2. lia.
  - by right; left.
Qed.

Lemma idle_loop_ok s s' th :
  kmid None (cur s) no_tokens s -> threads s !! cur s = Some th ->
  idle_thread s <> cur s \/ kstack th = [F_thread_exit] ->
  idle_loop s = Ok s' -> kpost s s'.
Proof.
  intros Hk Hth Hid H. unfold idle_loop in H. cbn [intr_disable] in H.
  apply bind_Ok in H as (s1 & (th' & Hth' & ->)%push_Ok & H).
  simpl in Hth'. rewrite Hth in Hth'. injection Hth' as <-.
  pose proof (idle_frame_ok _ (set_level INTR_OFF s) th F_idle_hlt Hk Hth Hid) as Hk1.
  specialize (Hk1 (or_intror eq_refl)).
  pose proof (cur_not_waiting _ _ _ Hk1) as [Hnw1 Hnw2].
  eapply (thread_block_ok no_tokens) in H; [exact H| |..].
  - by apply kmid_weaken_x.
  - intros tx _. split; [|done]. intros sm v Hv Hin. exfalso. by eapply Hnw1.
  - done.
Qed.

(** ** The alarm clock *)

Lemma timer_sleep_ok s s' m n :
  kmid None NULL no_tokens s -> cur s <> idle_thread s ->
  timer_sleep m n s = Ok s' -> kpost s s'.
Proof.
  intros Hk Hni H. unfold timer_sleep, timer_ticks in H. cbn [intr_disable] in H.
  apply bind_Ok in H as ([start s1] & Hs1 & H).
  apply bind_Ok in Hs1 as (s2 & ->%intr_set_level_Ok & Hs1). injection Hs1 as <- <-.
  apply bind_Ok in H as (? & _ & H). destruct m; [|done].
  apply bind_Ok in H as (c & [-> _]%thread_current_Ok & H). cbv zeta in H.
  cbn [cur set_level] in H.
  apply bind_Ok in H as (s3 & (th & Hth & ->)%push_Ok & H).
  set (bt := mk_blocked_thread (cur s) _) in *. set (s0 := set_block_list _ _) in *.
  pose proof (cur_not_waiting _ _ _ Hk) as [Hnw1 Hnw2].
  assert (kmid (Some (cur s)) NULL no_tokens s0) as Hk0.
  { destruct Hk as [Ho (Hp & Hr & (Hw & Hnd & Hb) & Ht & Hn & Hid)].
    split; [exact Ho|]. split; [exact Hp|]. split; [exact Hr|]. split; [|done]. split; [|split].
    - intros sm v Hv. destruct (Hw sm v Hv) as [? Hw']. split; [done|]. intros w Hin _. by apply Hw'.
    - simpl. rewrite insert_seq_perm. simpl. by apply NoDup_cons.
    - simpl. intros b. rewrite insert_seq_perm. intros [->|Hin]%elem_of_cons Hx; [done|].
      by apply Hb. }
  eapply (thread_block_ok no_tokens) in H; [exact H| | |done].
  - eapply kmid_push0; [exact Hk0|exact Hth|done|done|by left].
  - intros tx. simpl. rewrite lookup_insert_eq. intros [= <-]. simpl. split; [|by eauto].
    intros sm v Hv Hin. exfalso. by eapply Hnw1.
Qed.

Lemma check_unblockable_ok s s' :
  kmid None NULL no_tokens s -> in_external_intr s = true ->
  check_unblockable s = Ok s' -> kpost s s'.
Proof.
  intros Hk Hext H. unfold check_unblockable in H.
  destruct (alarm_started s); [|injection H as <-; by split].
  destruct (block_list s) as [|bt rest] eqn:Hbl; [injection H as <-; by split|].
  unfold timer_ticks in H. cbn [intr_disable] in H.
  apply bind_Ok in H as ([now s1] & Hs1 & H).
  apply bind_Ok in Hs1 as (s2 & ->%intr_set_level_Ok & Hs1). injection Hs1 as <- <-.
  destruct (_ <=? _); [|injection H as <-; by split]. cbv zeta in H.
  unfold call_then in H. cbn [intr_context in_external_intr set_block_list set_level] in H.
  rewrite Hext in H.
  apply bind_Ok in H as (s2 & Hs2 & H). apply intr_set_level_Ok in H as ->.
  set (s0 := set_block_list rest _) in Hs2.
  destruct Hk as [Ho (Hp & Hr & (Hw & Hnd & Hb) & Ht & Hn & Hid)].
  rewrite Hbl in Hnd, Hb. simpl in Hnd. apply NoDup_cons in Hnd as [Hnot Hnd].
  destruct (Hb bt) as (th & old & k & Hth & Hst & Hks); [left|done|].
  eapply (thread_unblock_ok no_tokens) in Hs2 as [Hk2 Hx]; [split; [exact Hk2|exact Hx]|..].
  - split; [exact Ho|]. split; [exact Hp|]. split; [exact Hr|]. split; [|done].
    split; [exact Hw|]. split; [exact Hnd|]. intros b Hin. apply Hb. by right.
  - done.
  - split; [|exact Hnot]. intros sm v Hv Hin. destruct (Hw sm v Hv) as [_ Hw'].
    destruct (Hw' _ Hin) as (th' & old' & k' & ? & _ & ?); [done|]. congruence.
  - apply (new_zero no_tokens s _ th); [done..|by rewrite Hks].
Qed.

(** ** Interrupts *)

Lemma thread_tick_ok s s' :
  kmid None NULL no_tokens s -> thread_tick s = Ok s' -> kpost s s'.
Proof.
  intros Hk H. unfold thread_tick in H.
  apply bind_Ok in H as (c & [-> _]%thread_current_Ok & H).
  apply bind_Ok in H as (th & _ & H). cbv zeta in H.
  assert (forall u, kpost s u -> forall n, kpost s (set_thread_ticks n u)) as Hset by done.
  set (s1 := if cur s =? idle_thread s then _ else _) in H.
  assert (kpost s s1) as Hp1.
  { unfold s1. destruct (_ =? _); [by split|]. destruct (negb _); by split. }
  destruct (_ <=? _).
  - unfold intr_yield_on_return in H. apply bind_Ok in H as (? & _ & H). injection H as <-.
    exact Hp1.
  - injection H as <-. exact Hp1.
Qed.

Lemma run_handler_ok h s s' :
  kmid None NULL no_tokens s -> in_external_intr s = true ->
  run_handler h s = Ok s' -> kpost s s'.
Proof.
  intros Hk Hext H. destruct h as [|a]; simpl in H.
  - unfold timer_interrupt in H. cbv zeta in H. apply bind_Ok in H as (s1 & Hs1 & H).
    eapply check_unblockable_ok in Hs1 as [Hk1 Hx1]; [|exact Hk|exact Hext].
    apply thread_tick_ok in H as [? Hx]; [|done]. split; [done|]. by rewrite Hx, Hx1.
  - eapply (sema_up_ok no_tokens) in H; [exact H|exact Hk|..].
    + by intros [].
    + by intros _ [].
Qed.

Lemma interrupt_ok h s s' :
  kinv s -> interrupt h s = Ok s' -> kinv s'.
Proof.
  intros [Hk Hext] H. unfold interrupt in H.
  apply bind_Ok in H as (s1 & (th & Hth & ->)%push_Ok & H). unfold intr_handler in H.
  apply bind_Ok in H as (? & _ & H). apply bind_Ok in H as (? & _ & H). cbv zeta in H.
  apply bind_Ok in H as (s2 & Hs2 & H).
  apply run_handler_ok in Hs2 as [Hk2 Hx2]; [| |done].
  2: { eapply kmid_push0; [exact Hk|exact Hth|done|done|by right; right]. }
  apply bind_Ok in H as (? & _ & H). apply bind_Ok in H as (? & _ & H).
  destruct (yield_on_return _).
  - eapply (thread_yield_ok no_tokens) in H as [? Hx]; [|exact Hk2|done]. by split; [|rewrite Hx].
  - injection H as <-. by split.
Qed.

(** ** Exit, priority *)

Lemma thread_exit_ok s s' :
  kmid None NULL no_tokens s -> cur s <> idle_thread s ->
  thread_exit s = Ok s' -> kpost s s'.
Proof.
  intros [Hone (Hp & Hr & Hw & Ht & Hn & Hi)] Hni H. unfold thread_exit in H.
  cbn [intr_disable] in H.
  apply bind_Ok in H as (? & _ & H). apply bind_Ok in H as (c & [-> _]%thread_current_Ok & H).
  cbv zeta in H. apply bind_Ok in H as (s1 & (th & Hth & ->)%set_status_Ok & H).
  simpl in Hth. set (s0 := set_all_list _ _) in H.
  assert (status th = THREAD_RUNNING) as Hst by (destruct Hone as [(? & ? & ?) _]; congruence).
  eapply (schedule_ok no_tokens) in H; [exact H| | |done].
  - split; [|split; [|split; [|split; [|split]]]].
    + eapply (pages_put s0); [exact Hp|exact Hth|done|]. simpl. by apply (Hp _ _ Hth).
    + eapply (rq_put s0); [exact Hr|exact Hth|congruence|done].
    + apply (wait_put _ s0); [exact Hw|]. right.
      eapply (not_waiting_of None s); [exact Hw|done|exact Hth|]. left. congruence.
    + eapply (tok_put no_tokens _ s0); [exact Ht|exact Hth|]. simpl. done.
    + eapply (new_put no_tokens _ s0); [exact Hn|exact Hth|done|]. left. congruence.
    + eapply (idle_put _ s0); [exact Hi|exact Hth|]. done.
  - eapply (no_running_put s0); [exact Hone|exact Hth|done].
Qed.

Lemma set_priority_ok s s' p :
  kmid None NULL no_tokens s -> thread_set_priority p s = Ok s' -> kpost s s'.
Proof.
  intros Hk H. unfold thread_set_priority in H.
  apply bind_Ok in H as (c & [-> _]%thread_current_Ok & H).
  apply bind_Ok in H as (th & Hth%get_thread_Ok & H). injection H as <-. split; [|done].
  eapply kmid_put_cur; [exact Hk|done..| | |]; simpl.
  - destruct Hk as [_ (Hp & _)]. by apply (Hp _ _ Hth).
  - done.
  - intros _. by right.
Qed.

(** ** Events *)

Lemma pop_ok s f s' :
  kmid None NULL no_tokens s -> pop s = Some (f, s') ->
  cur s' = cur s /\ idle_thread s' = idle_thread s /\
  in_external_intr s' = in_external_intr s /\
  exists th k, threads s !! cur s = Some th /\ kstack th = f :: k /\
    s' = put_thread (cur s) (with_kstack th k) s /\
    threads s' !! cur s' = Some (with_kstack th k) /\ top_ok f k /\
    kmid None (if decide (f = F_idle_loop \/ f = F_idle_hlt) then cur s else NULL)
      (fun r => weight r f) s' /\
    (cur s = idle_thread s -> soft f \/
      (f = F_idle_loop \/ f = F_idle_hlt) /\ k = [F_thread_exit]).
Proof.
  intros Hk H. pose proof Hk as [[(th & Hth & Hst) _] (Hp & _ & _ & _ & _ & Hid)].
  unfold pop in H. rewrite Hth in H. simpl in H.
  destruct (kstack th) as [|g k] eqn:Hks; [done|]. injection H as -> <-.
  split_and!; try done. exists th, k.
  destruct (Hp _ _ Hth) as (_ & _ & Hok). rewrite Hks in Hok. destruct Hok as [Htop Hok].
  assert (cur s = idle_thread s -> soft f /\ idle_stack k \/
      (f = F_idle_loop \/ f = F_idle_hlt) /\ k = [F_thread_exit]) as Hidle.
  { intros E. destruct Hid as [Hn|[Hn|(thi & Hi & Hs & _)]].
    - exfalso. destruct (Hp _ _ Hth) as [[? _] _]. rewrite E, Hn in *. unfold NULL in *. lia.
    - exfalso. destruct (Hp _ _ Hth) as [[? _] _]. rewrite E, Hn in *. unfold NULL in *. lia.
    - rewrite <- E in Hi. assert (thi = th) as -> by congruence.
      rewrite Hks in Hs. by eapply idle_stack_top. }
  split_and!; try done.
  - simpl. by rewrite lookup_insert_eq.
  - assert (kmid None (if decide (f = F_idle_loop \/ f = F_idle_hlt) then cur s else NULL)
      no_tokens s) as Hk'.
    { case_decide; [|done]. destruct Hk as [Ho (? & ? & ? & ? & ? & Hid')].
      split; [done|]. do 5 (split; [done|]).
      destruct Hid' as [?|[?|?]]; [by left|by left|by right; right]. }
    eapply kmid_put_cur; [exact Hk'|done..| | |]; simpl.
    + done.
    + intros r. rewrite Hks. unfold no_tokens. simpl. lia.
    + intros E. destruct (Hidle E) as [[Hs Hk2]|[Hf _]]; [right; intros _; done|].
      left. by rewrite decide_True.
  - intros E. destruct (Hidle E) as [[? _]|?]; [by left|by right].
Qed.

(** A change to members the scheduler does not look at. *)
Lemma kmid_put_same x y d s t th th' :
  kmid x y d s -> threads s !! t = Some th ->
  status th' = status th -> priority th' = priority th -> magic th' = magic th ->
  kstack th' = kstack th -> kmid x y d (put_thread t th' s).
Proof.
  intros [[(thc & Hc & Hst) Hone] (Hp & Hr & (Hw & Hnd & Hb) & Ht & Hn & Hid)] Hth Es Ep Em Ek.
  assert (forall u thu, threads s !! u = Some thu -> exists thu',
    threads (put_thread t th' s) !! u = Some thu' /\ status thu' = status thu /\
    priority thu' = priority thu /\ kstack thu' = kstack thu) as Hsame.
  { intros u thu Hu. simpl. destruct (decide (u = t)) as [->|Hne].
    - exists th'. rewrite lookup_insert_eq. simplify_eq. done.
    - exists thu. by rewrite lookup_insert_ne. }
  assert (forall w f, blocked_in s w f -> blocked_in (put_thread t th' s) w f) as Hbi.
  { intros w f (thw & old & k & Hw' & ? & ?). destruct (Hsame _ _ Hw') as (thw' & ? & ? & _ & ?).
    exists thw', old, k. split_and!; [done|congruence..]. }
  split; [split|split; [|split; [|split; [|split; [|split]]]]].
  - destruct (Hsame _ _ Hc) as (? & ? & ? & _). eexists. split; [done|]. congruence.
  - simpl. intros u thu [[<- <-]|[? Hu]]%lookup_insert_Some Hs; [|by eapply Hone].
    eapply Hone; [done|]. congruence.
  - eapply pages_put; [done..|]. rewrite Ek. by apply (Hp _ _ Hth).
  - unfold rq_inv in *. change (run_queue (put_thread t th' s)) with (run_queue s).
    destruct (run_queue s) as [rq|].
    + destruct Hr as (la & Hrep & Hnd' & Hin & Hout). exists la. split; [done|]. split; [done|]. split.
      * intros p u Hu. destruct (Hin p u Hu) as (thu & Hu' & ? & ?).
        destruct (Hsame _ _ Hu') as (thu' & ? & ? & ? & _). exists thu'. split_and!; congruence.
      * simpl. intros u thu [[<- <-]|[? Hu]]%lookup_insert_Some Hs; [|by eapply Hout].
        eapply Hout; [done|]. congruence.
    + simpl. intros u thu [[<- <-]|[? Hu]]%lookup_insert_Some; [rewrite Es|]; by eapply Hr.
  - split; [|split; [done|]].
    + intros sm v Hv. destruct (Hw sm v Hv) as [? Hw']. split; [done|]. auto.
    + auto.
  - eapply tok_put; [done..|]. rewrite Ek. lia.
  - assert (forall r, all_toks (put_thread t th' s) r = all_toks s r) as Hall.
    { intros r. rewrite (all_toks_put _ _ th), Ek by done. lia. }
    intros u. destruct (Hn u) as [Hn1 Hn2]. rewrite Hall. split; [done|]. intros Hge.
    destruct (Hn2 Hge) as (thu & Hu & ? & ?). destruct (Hsame _ _ Hu) as (thu' & ? & ? & _ & ?).
    exists thu'. split_and!; [done|congruence..].
  - eapply idle_put; [done..|]. intros _. right. intros. rewrite Ek, Es. done.
Qed.

(** What the allocator and the clients owe the thread system. *)
Definition event_ok (s : kstate) (e : event) : Prop :=
  match e with
  | E_call (C_thread_create page _ _) => fresh_page s page
  | E_call (C_lock_init l) => all_toks s (RLock l) <= 0
  | E_run => forall page s', pop s = Some (F_thread_start page, s') -> fresh_page s page
  | _ => True
  end.

Lemma exec_frame_ok s f s' s'' :
  kinv s -> event_ok s E_run -> pop s = Some (f, s') -> f <> F_body ->
  exec_frame f s' = Ok s'' -> kinv s''.
Proof.
  intros [Hk Hext] Hev Hpop Hnb H.
  enough (kpost s' s'') as [? Hx].
  { split; [done|]. rewrite Hx. destruct (pop_ok _ _ _ Hk Hpop) as (_ & _ & -> & _). done. }
  destruct (pop_ok _ _ _ Hk Hpop) as (Ec & Ei & Ex & th & k & Hth & Hks & -> & Hth' & Htop & Hk' & Hidle).
  set (s1 := put_thread _ _ s) in *. rewrite Hext in Ex. rewrite <- Ec, <- Ei in Hidle.
  destruct f; simpl in H, Htop;
    try (rewrite decide_False in Hk' by (intros [?|?]; discriminate));
    try (assert (cur s1 <> idle_thread s1) as Hni
      by (intros E; destruct (Hidle E) as [[]|[[?|?] _]]; discriminate)).
  - done.
  - by eapply thread_exit_ok in H.
  - eapply kernel_thread_ok in H; [exact H|exact Hk'|done|done|exact Hth'|done].
  - unfold init_tid in H. cbv zeta in H.
    apply bind_Ok in H as (s2 & (t2 & Ht2 & ->)%push_Ok & H).
    eapply (lock_release_ok no_tokens) in H; [exact H| |done|exact Ex].
    eapply kmid_push0; [exact Hk'|exact Ht2|done|done|by left].
  - unfold init_store in H. apply bind_Ok in H as (ti & Hti%get_thread_Ok & H).
    injection H as <-. split; [|done].
    eapply kmid_put_same; [exact Hk'|exact Hti|done..].
  - eapply (thread_start_ok (fun r => weight r (F_thread_start page))) in H;
      [exact H|exact Hk'|done| |exact Ex|done|].
    + intros l. simpl. unfold idle_token. rewrite !decide_False by naive_solver. done.
    + destruct (Hev page s1 Hpop) as [?|(? & ? & ? & ?)]; [by left|right].
      split_and!; [done| | |]; [simpl; rewrite lookup_insert_ne; [done|congruence]|..];
        unfold s1; rewrite (all_toks_put _ _ th) by done; rewrite Hks; simpl; unfold idle_token;
        rewrite !decide_False by naive_solver; lia.
  - unfold start_wait in H. apply bind_Ok in H as (s2 & ->%intr_enable_Ok & H).
    eapply sema_down_ok in H; [exact H|exact Hk'|..]; [by intros []|done|exact Hth'|done].
  - apply intr_set_level_Ok in H as ->. by split.
  - injection H as <-. by split.
  - eapply idle_start_ok in H; [exact H|exact Hk'|done|exact Ex|exact Hth'|done].
  - rewrite decide_True in Hk' by (by left). eapply idle_loop_ok in H; [exact H| |exact Hth'|].
    + rewrite Ec. exact Hk'.
    + destruct (decide (idle_thread s1 = cur s1)) as [E|]; [right|by left].
      destruct (Hidle (eq_sym E)) as [[]|[_ ?]]; done.
  - rewrite decide_True in Hk' by (by right). unfold idle_hlt in H.
    apply push_Ok in H as (t2 & Ht2 & ->). split; [|done].
    apply (idle_frame_ok _ (set_level INTR_ON s1)); [exact Hk'|done| |by left].
    destruct (decide (idle_thread s1 = cur s1)) as [E|]; [right|by left].
    destruct (Hidle (eq_sym E)) as [[]|[_ Hk2]]. rewrite Hk2 in Hth'.
    simpl in Ht2. rewrite lookup_insert_eq in Ht2. by injection Ht2 as <-.
  - eapply create_tid_ok in H; [exact H|exact Hk'|done|exact Ex|done].
  - eapply create_tail_ok in H; [exact H|exact Hk'|done].
  - eapply sema_down_ok in H; [exact H|exact Hk'|done|done|exact Hth'|exact Htop].
  - eapply sema_down_loop_ok in H; [exact H|exact Hk'|done|done|exact Hth'|exact Htop].
  - eapply sema_up_tail_ok in H; [exact H|exact Hk'|done].
  - eapply set_holder_ok in H; [exact H|exact Hk'|done].
  - eapply lock_acquire_ok in H; [exact H|exact Hk'|done|done].
  - eapply cond_broadcast_ok in H; [exact H|exact Hk'|exact Ex|done].
  - apply intr_set_level_Ok in H as ->. by split.
Qed.

Lemma kinv_of_kpost s s' : in_external_intr s = false -> kpost s s' -> kinv s'.
Proof. intros Hx [Hk Hx']. split; [done|]. congruence. Qed.

Lemma exec_call_ok s s0 c s' :
  kinv s -> event_ok s (E_call c) -> pop s = Some (F_body, s0) ->
  exec_call c s = Ok s' -> kinv s'.
Proof.
  intros [Hk Hext] Hev Hpop H. apply (kinv_of_kpost s); [done|].
  assert (cur s <> idle_thread s) as Hni.
  { destruct (pop_ok _ _ _ Hk Hpop) as (_ & _ & _ & th & k & _ & _ & _ & _ & _ & _ & Hidle).
    intros E. destruct (Hidle E) as [[]|[[?|?] _]]; done. }
  assert (Hself : forall v, s' = v -> kmid None NULL no_tokens v ->
    in_external_intr v = in_external_intr s -> kpost s s') by (intros v -> ? ?; by split).
  destruct c; simpl in H, Hev.
  - injection H as <-. by split.
  - by eapply thread_create_ok in H; [exact H|exact Hk|..].
  - by eapply thread_yield_ok in H.
  - by eapply thread_exit_ok in H.
  - by eapply set_priority_ok in H.
  - apply intr_set_level_Ok in H as ->. by split.
  - injection H as <-. split; [|done]. by apply sema_init_ok.
  - pose proof Hk as [[(th & Hth & _) _] _].
    eapply sema_down_ok in H; [exact H|exact Hk|by intros []|done|exact Hth|done].
  - eapply bool_ret_ok; [|exact H]. intros b s1 Hs1.
    apply (sema_try_down_ok no_tokens) in Hs1 as [Hk1 Hx1]; [|done..]. split; [|done].
    eapply kmid_mono; [exact Hk1|]. intros r. by destruct b, r.
  - eapply (sema_up_ok no_tokens) in H; [exact H|exact Hk|by intros []|congruence].
  - injection H as <-. split; [|done]. destruct Hk as [Ho Hk]. split; [exact Ho|].
    apply lock_init_data; [done|]. unfold no_tokens. lia.
  - by eapply lock_acquire_ok in H.
  - eapply bool_ret_ok; [|exact H]. intros b s1 Hs1. by eapply lock_try_acquire_ok.
  - by eapply lock_release_ok in H.
  - injection H as <-. by split.
  - by eapply cond_wait_ok in H.
  - by eapply cond_signal_ok in H.
  - by eapply cond_broadcast_ok in H.
  - injection H as <-. split; [|done].
    destruct Hk as [Ho (Hp & Hr & (Hw & Hnd & Hb) & Hk)].
    split; [exact Ho|]. split; [exact Hp|]. split; [exact Hr|]. split; [|exact Hk].
    split; [exact Hw|]. split; [by apply NoDup_nil|]. intros bt Hin. by apply elem_of_nil in Hin.
  - by eapply timer_sleep_ok in H.
Qed.

#[global] Instance call_eq_dec : EqDecision call.
Proof. solve_decision. Defined.

Lemma exec_event_ok s e s' :
  kinv s -> event_ok s e -> exec_event e s = Some (Ok s') -> kinv s'.
Proof.
  intros Hk Hev H. destruct e as [|c|h]; unfold exec_event in H.
  - destruct (pop s) as [[f s1]|] eqn:Hpop; [|discriminate H].
    assert (f <> F_body /\ exec_frame f s1 = Ok s') as [Hf Hx].
    { destruct f; first [split; [discriminate|exact (Some_inj _ _ H)]|discriminate H]. }
    by eapply exec_frame_ok.
  - destruct (pop s) as [[f s1]|] eqn:Hpop; [|discriminate H].
    destruct f; try discriminate H.
    destruct (decide (c = C_return)) as [->|Hc].
    + apply Some_inj in H. injection H as <-. destruct Hk as [Hk Hext].
      destruct (pop_ok _ _ _ Hk Hpop) as (Ec & Ei & Ex & th & k & ? & ? & ? & ? & ? & Hk' & ?).
      rewrite decide_False in Hk' by (intros [?|?]; discriminate).
      split; [|congruence]. eapply kmid_mono; [exact Hk'|done].
    + eapply exec_call_ok; [exact Hk|exact Hev|exact Hpop|].
      destruct c; first [exact (Some_inj _ _ H)|by destruct Hc].
  - destruct (intr_get_level s); [discriminate H|]. apply Some_inj in H. by eapply interrupt_ok.
Qed.

(** ** Start-up and reachable states *)

Definition start_tokens (r : resource) : Z := weight r (F_thread_start 0).

Lemma start_tokens_0 r : r <> RIdle -> r <> RStart -> start_tokens r = 0.
Proof.
  intros. unfold start_tokens. simpl. unfold idle_token.
  rewrite !decide_False by naive_solver. done.
Qed.

Lemma blank_data main : kdata None NULL start_tokens (blank main).
Proof.
  assert (forall r, all_toks (blank main) r = 0) as Hall by (intros; apply msum_empty).
  split; [|split; [|split; [|split; [|split]]]].
  - intros t th Ht. simpl in Ht. by rewrite lookup_empty in Ht.
  - intros t th Ht. simpl in Ht. by rewrite lookup_empty in Ht.
  - split; [|split].
    + intros sm v Hv. simpl in Hv. by rewrite lookup_empty in Hv.
    + apply NoDup_nil_2.
    + intros bt Hin. by apply elem_of_nil in Hin.
  - split; [|split; [|split]].
    + intros l v h Hv. simpl in Hv. by rewrite lookup_empty in Hv.
    + intros l. simpl. rewrite !lookup_empty. done.
    + rewrite Hall. done.
    + rewrite Hall. done.
  - intros t. rewrite Hall, start_tokens_0 by done. split; [lia|]. intros; lia.
  - by left.
Qed.

(** The initial thread, alone, becomes the running one. *)
Lemma first_thread d s main th :
  kdata None NULL (fun r => d r + new_token main r) s ->
  threads s = {[main := th]} -> cur s = main -> idle_thread s = NULL -> d (RNew main) = 0 ->
  status th = THREAD_BLOCKED ->
  kmid None NULL d (put_thread main (with_status th THREAD_RUNNING) s).
Proof.
  intros (Hp & Hr & Hw & Ht & Hn & Hid) Hone Ecur Eidle Hd Hst.
  assert (threads s !! main = Some th) as Hmain by (by rewrite Hone, lookup_singleton_eq).
  assert (kstack th = []) as Hks.
  { destruct (Hn main) as [_ Hn2]. destruct Hn2 as (thx & Hx & _ & Hks); [|congruence].
    pose proof (all_toks_nonneg s (RNew main) Hp). rewrite Hd. unfold new_token.
    rewrite decide_True by done. lia. }
  assert (forall r, toks r (kstack (with_status th THREAD_RUNNING)) + d r <=
    toks r (kstack th) + (d r + new_token main r)) as Hle.
  { intros r. pose proof (new_token_range main r). simpl. lia. }
  split; [split|split; [|split; [|split; [|split; [|split]]]]].
  - eexists. simpl. by rewrite Ecur, lookup_insert_eq.
  - intros t tht. simpl. rewrite Ecur, Hone.
    intros [[<- <-]|[? Hu]]%lookup_insert_Some Hs; [done|].
    by apply lookup_singleton_Some in Hu as [-> _].
  - eapply pages_put; [done|exact Hmain|done|]. simpl. by rewrite Hks.
  - eapply rq_put; [done|exact Hmain|congruence|done].
  - apply wait_put; [done|]. right. eapply not_waiting_of; [exact Hw|done|exact Hmain|].
    by right; left.
  - eapply tok_put; [exact Ht|exact Hmain|exact Hle].
  - eapply new_put; [exact Hn|exact Hmain|exact Hle|]. right; right; left.
    rewrite (all_toks_put _ _ th) by done. rewrite Hd. unfold all_toks. rewrite Hone.
    rewrite <- insert_empty, msum_insert_fresh, msum_empty by apply lookup_empty.
    simpl. rewrite Hks. simpl. lia.
  - by left.
Qed.

Lemma thread_init_ok main idle_page s :
  page_addr main -> thread_init main idle_page = Ok s -> kinv s.
Proof.
  intros Hpage H. unfold thread_init in H.
  apply bind_Ok in H as (? & _ & H). cbv zeta in H.
  set (s0 := set_initial_thread _ _) in H.
  assert (forall r, all_toks s0 r = 0) as Hall by (intros; apply msum_empty).
  assert (kdata None NULL start_tokens s0) as Hk0.
  { apply (lock_init_data _ _ _ (blank main)); [apply blank_data|].
    rewrite start_tokens_0, Z.add_0_r by done. apply Z.eq_le_incl, msum_empty. }
  apply bind_Ok in H as (s1 & Hs1 & H).
  eapply init_thread_data in Hs1 as (Hk1 & E1 & E2 & E3 & (th & Hst & E4));
    [|exact Hk0|by left|done|apply lookup_empty|by rewrite Hall, start_tokens_0..].
  change (threads s0) with (∅ : gmap Z thread) in E4. rewrite insert_empty in E4.
  apply bind_Ok in H as (s2 & (th1 & Hth1 & ->)%set_status_Ok & H).
  rewrite E4, lookup_singleton_eq in Hth1. injection Hth1 as <-.
  assert (cur s1 = main) as Ecur by (by rewrite E1).
  assert (idle_thread s1 = NULL) as Eidle by (by rewrite E2).
  pose proof (first_thread start_tokens s1 main th Hk1 E4 Ecur Eidle
    (start_tokens_0 (RNew main) ltac:(done) ltac:(done)) Hst) as Hk2.
  set (s2 := put_thread main (with_status th THREAD_RUNNING) s1) in *.
  assert (cur s2 <> idle_thread s2) as Hni.
  { change (cur s1 <> idle_thread s1). rewrite Ecur, Eidle. unfold page_addr, NULL in *. lia. }
  assert (in_external_intr s2 = false) as Hx2 by (change (in_external_intr s1 = false); by rewrite E3).
  clearbody s2. clear -H Hk2 Hni Hx2.
  apply bind_Ok in H as (s3 & (t3 & Ht3 & ->)%push_Ok & H).
  apply (kmid_push0 _ _ _ _ t3 F_thread_exit) in Hk2; [|exact Ht3|done|done|by left].
  apply bind_Ok in H as (s4 & (t4 & Ht4 & ->)%push_Ok & H).
  apply (kmid_push0 _ _ _ _ t4 F_body) in Hk2; [|exact Ht4|done|done|by left].
  apply bind_Ok in H as (s5 & (t5 & Ht5 & ->)%push_Ok & H).
  apply (kmid_push _ _ _ no_tokens _ t5 (F_thread_start idle_page)) in Hk2;
    [|exact Ht5|done|intros r; unfold start_tokens, no_tokens; simpl; lia|by left].
  apply bind_Ok in H as (s6 & (t6 & Ht6 & ->)%push_Ok & H).
  apply (kmid_push0 _ _ _ _ t6 F_init_tid) in Hk2; [|exact Ht6|done|done|by left].
  eapply lock_acquire_ok in H; [|exact Hk2|done|done].
  by eapply kinv_of_kpost; [|exact H].
Qed.

Inductive reachable (main idle_page : Z) : kstate -> Prop :=
  | reach_init s : thread_init main idle_page = Ok s -> reachable main idle_page s
  | reach_step s e s' :
      reachable main idle_page s -> event_ok s e -> exec_event e s = Some (Ok s') ->
      reachable main idle_page s'.

Lemma reachable_kinv main idle_page s :
  page_addr main -> reachable main idle_page s -> kinv s.
Proof.
  intros Hp. induction 1 as [s Hs|s e s' _ IH Hev Hs]; [by eapply thread_init_ok|].
  by eapply exec_event_ok.
Qed.

(** ** Properties *)

(** Thread [t] owns lock [l]: it is the recorded holder, or it has passed
    [sema_down] and is about to record itself, or it has erased itself as
    the holder and is about to up the semaphore. *)
Definition owns (s : kstate) (l : lref) (t : Z) : Prop :=
  (t <> NULL /\ holders s !! l = Some t) \/
  exists th, threads s !! t = Some th /\ 0 < toks (RLock l) (kstack th).

Lemma kinv_owner s l v t :
  kinv s -> semas s !! SLock l = Some v -> owns s l t ->
  value v = 0 /\ forall t', owns s l t' -> t' = t.
Proof.
  intros [[_ (Hp & _ & _ & (Hl & Hh & _) & _)] _] Hv Ht.
  destruct (proj1 (Hh l)) as [h Hh']; [by eexists|].
  destruct (Hl l v h Hv Hh') as [Hv0 Hsum]. unfold no_tokens in Hsum.
  pose proof (all_toks_nonneg s (RLock l) Hp) as Hnn.
  assert (forall u, u <> NULL -> holders s !! l = Some u -> bit (negb (h =? NULL)) = 1) as Hb.
  { intros u Hu Hu'. rewrite Hh' in Hu'. injection Hu' as ->.
    apply Z.eqb_neq in Hu. by rewrite Hu. }
  pose proof (bit_range (negb (h =? NULL))) as Hbr.
  assert (forall k th, threads s !! k = Some th -> 0 <= toks (RLock l) (kstack th)) as Htn.
  { intros k th Hk. by apply toks_nonneg, (Hp k). }
  destruct Ht as [[Hn Hold]|(th & Hth & Htk)].
  - rewrite (Hb t Hn Hold) in Hsum. split; [lia|]. intros t' [[_ Ho]|(th' & Hth' & Htk')].
    + congruence.
    + pose proof (toks_le_all s (RLock l) t' th' Hp Hth'). lia.
  - pose proof (toks_le_all s (RLock l) t th Hp Hth). split; [lia|].
    intros t' [[Hn' Ho]|(th' & Hth' & Htk')].
    + rewrite (Hb t' Hn' Ho) in Hsum. lia.
    + destruct (decide (t' = t)) as [|Hne]; [done|].
      pose proof (msum_ge2 (fun th => toks (RLock l) (kstack th)) (threads s) t' th' t th
        Htn Hth' Hth Hne). unfold all_toks in *. simpl in *. lia.
Qed.

(** C1. Mutual exclusion: in every state the kernel can reach, under every
    interleaving of client calls, context switches and timer and disk
    interrupts, at most one thread owns a lock, and while one does the
    lock's semaphore is zero. *)
Theorem lock_mutual_exclusion main idle_page s l v t1 t2 :
  page_addr main -> reachable main idle_page s ->
  semas s !! SLock l = Some v -> owns s l t1 -> owns s l t2 ->
  t1 = t2 /\ value v = 0.
Proof.
  intros Hp Hr Hv H1 H2. apply reachable_kinv in Hr; [|done].
  destruct (kinv_owner s l v t1 Hr Hv H1) as [Hz Huniq].
  split; [symmetry; by apply Huniq|done].
Qed.

(** C2. In every reachable state exactly one thread has status RUNNING, the
    one whose stack is in use; a thread is READY exactly when it is in the
    run queue (the idle thread, which need not be queued, apart), each once
    and in the queue of its own priority; nothing is in the expired array. *)
Theorem run_queue_is_ready_set main idle_page s rq :
  page_addr main -> reachable main idle_page s -> run_queue s = Some rq ->
  (forall t, (exists th, threads s !! t = Some th /\ status th = THREAD_RUNNING) <-> t = cur s) /\
  exists la, rq_rep rq la [] /\ NoDup la.*2 /\
    (forall p t, (p, t) ∈ la -> exists th, threads s !! t = Some th /\
       status th = THREAD_READY /\ priority th = p) /\
    (forall t th, threads s !! t = Some th -> status th = THREAD_READY ->
       t ∈ la.*2 \/ t = idle_thread s).
Proof.
  intros Hp Hr Hrq. apply reachable_kinv in Hr as [[[(th & Hc & Hs) Hone] (_ & Hr & _)] _]; [|done].
  unfold rq_inv in Hr. rewrite Hrq in Hr. split; [|done].
  intros t. split; [|by intros ->; exists th]. intros (th' & Ht & Hs'). by eapply Hone.
Qed.

(** In every reachable state every thread on a semaphore's wait list is
    BLOCKED, suspended in [sema_down] of that very semaphore, on no other
    semaphore's list, only once on this one, and not in the alarm list; so
    [sema_up] never unblocks a thread that is not waiting. *)
Theorem waiters_blocked main idle_page s sm v w :
  page_addr main -> reachable main idle_page s ->
  semas s !! sm = Some v -> w ∈ waiters v ->
  blocked_in s w (F_sema_down_loop sm) /\ NoDup (waiters v) /\
  (forall sm' v', semas s !! sm' = Some v' -> w ∈ waiters v' -> sm' = sm) /\
  w ∉ (bt_t <$> block_list s).
Proof.
  intros Hp Hr Hv Hin. apply reachable_kinv in Hr as [[_ (_ & _ & (Hw & _ & Hb) & _)] _]; [|done].
  destruct (Hw sm v Hv) as [Hnd Hw']. pose proof (Hw' w Hin ltac:(done)) as Hbl.
  pose proof Hbl as (th & old & k & Hth & _ & Hk). split_and!; try done.
  - intros sm' v' Hv' Hin'. destruct (Hw sm' v' Hv') as [_ Hx].
    destruct (Hx w Hin' ltac:(done)) as (th' & ? & ? & ? & _ & ?). congruence.
  - intros (bt & -> & Hbt)%list_elem_of_fmap.
    destruct (Hb bt Hbt ltac:(done)) as (th' & ? & ? & ? & _ & ?). congruence.
Qed.

(** *** The highest priority runs *)

(** [t] is ready and not the idle thread. *)
Definition ready (s : kstate) (t : Z) (th : thread) : Prop :=
  threads s !! t = Some th /\ status th = THREAD_READY /\ t <> idle_thread s.

Definition runs_highest (s : kstate) : Prop :=
  forall t th thc, ready s t th -> threads s !! cur s = Some thc -> priority th <= priority thc.

Lemma schedule_tail_frame prev s s' :
  schedule_tail prev s = Ok s' ->
  cur s' = cur s /\ idle_thread s' = idle_thread s /\
  exists th, threads s !! cur s = Some th /\
    (forall t u, threads s' !! t = Some u ->
      (t = cur s /\ u = with_status th THREAD_RUNNING) \/ (t <> cur s /\ threads s !! t = Some u)).
Proof.
  intros H. unfold schedule_tail in H.
  apply bind_Ok in H as (? & _ & H). apply bind_Ok in H as (s1 & (th & Hth & ->)%set_status_Ok & H).
  cbv zeta in H. apply bind_Ok in H as (s2 & Hs2 & H). unfold process_activate in Hs2.
  apply bind_Ok in Hs2 as (? & _ & Hs2). apply bind_Ok in Hs2 as (? & _ & Hs2).
  injection Hs2 as <-. unfold running_thread in *.
  assert (forall t u, <[cur s := with_status th THREAD_RUNNING]> (threads s) !! t = Some u ->
      (t = cur s /\ u = with_status th THREAD_RUNNING) \/ (t <> cur s /\ threads s !! t = Some u)) as Hx.
  { intros t u [[<- <-]|[? ?]]%lookup_insert_Some; [by left|by right]. }
  destruct (prev =? NULL); [injection H as <-; eauto 10|].
  apply bind_Ok in H as (p & _ & H). destruct (_ && _); [|injection H as <-; eauto 10].
  apply bind_Ok in H as (? & _ & H). injection H as <-. split; [done|]. split; [done|].
  exists th. split; [done|]. simpl. intros t u [_ Hu]%lookup_delete_Some. by apply Hx.
Qed.

Lemma schedule_highest s s' : rq_inv s -> schedule s = Ok s' -> runs_highest s'.
Proof.
  intros Hrq H. unfold schedule, running_thread in H.
  apply bind_Ok in H as (rq & Erq%from_option_Ok & H).
  apply bind_Ok in H as ([nx rq'] & Hnx & H). cbv zeta in H.
  apply bind_Ok in H as (? & _ & H). apply bind_Ok in H as (thc & Hthc & H).
  apply bind_Ok in H as (? & _ & H). apply bind_Ok in H as (b & _ & H).
  apply bind_Ok in H as (? & _ & H).
  assert (exists prev u, schedule_tail prev u = Ok s' /\ threads u = threads s /\
    cur u = nx /\ idle_thread u = idle_thread s) as (prev & u & Hu & Et & Ec & Ei).
  { destruct (Z.eqb_spec (cur s) nx) as [E|E]; simpl in H; [|by eauto 10].
    by eexists _, (set_run_queue (Some rq') s). }
  apply schedule_tail_frame in Hu as (Ec' & Ei' & thn & Hthn & Hfr).
  unfold rq_inv in Hrq. rewrite Erq in Hrq. destruct Hrq as (la & Hrep & _ & Hin & Hout).
  intros t th thx (Ht & Hs & Hni) Hx. rewrite Ec', Ec in *. rewrite Et in *.
  destruct (Hfr nx thx Hx) as [[_ ->]|[? _]]; [|done]. simpl.
  destruct (Hfr t th Ht) as [[_ ->]|[Hne Ht']]; [done|].
  destruct (Hout t th Ht' Hs) as [Hla|Hla]; [|by rewrite Ei', Ei in Hni].
  destruct (next_thread_cases _ _ _ _ _ Hrep Hnx) as [(-> & _)|(p & la' & -> & _)].
  { by apply elem_of_nil in Hla. }
  destruct (Hin p nx) as (thn' & Hn' & _ & Hpn); [left|].
  rewrite Hthn in Hn'. injection Hn' as <-. rewrite Hpn.
  apply list_elem_of_fmap in Hla as ([q t'] & Eq & Hq). simpl in Eq. subst t'.
  apply elem_of_cons in Hq as [[= -> ->]|Hq]; [done|].
  destruct (Hin q t) as (th' & Ht'' & _ & <-); [by right|].
  rewrite Ht' in Ht''. injection Ht'' as <-. by apply (rq_rep_head _ _ _ _ _ Hrep _ Hq).
Qed.

Lemma thread_yield_highest s s' :
  kmid None NULL no_tokens s -> thread_yield s = Ok s' -> runs_highest s'.
Proof.
  intros Hk H. unfold thread_yield in H. cbn [intr_disable] in H.
  apply bind_Ok in H as (c & [-> _]%thread_current_Ok & H). apply bind_Ok in H as (? & _ & H).
  apply bind_Ok in H as (s1 & (th & Hth & ->)%push_Ok & H). simpl in Hth.
  cbn in H. set (th1 := with_kstack th _) in H. set (s1 := put_thread _ _ _) in H.
  assert (kmid None NULL no_tokens s1) as Hk1.
  { eapply (kmid_push0 _ _ _ (set_level INTR_OFF s)); [exact Hk|exact Hth|done|done|by right; right]. }
  assert (threads s1 !! cur s1 = Some th1) as Hth1 by (unfold s1; simpl; by rewrite lookup_insert_eq).
  apply bind_Ok in H as (s2 & Hs2 & H). apply bind_Ok in H as (s3 & (t3 & Ht3 & ->)%set_status_Ok & H).
  eapply schedule_highest; [|exact H].
  assert (kdata None NULL no_tokens (put_thread (cur s1) (with_status th1 THREAD_READY) s2)) as Hk2.
  { apply kdata_yield; [done|done|].
    destruct (Z.eqb_spec (cur s) (idle_thread s)) as [E|E]; simpl in Hs2.
    - right. injection Hs2 as <-. split; [exact E|]. split; [|done].
      unfold schedule in H. apply bind_Ok in H as (rq & Hrq%from_option_Ok & _). by exists rq.
    - left. apply rq_insert_Ok in Hs2 as (t2 & rq & rq' & Ht2 & ? & ? & ->). exists rq, rq'.
      assert (Some t2 = Some th1) as [= ->] by (etrans; [symmetry; exact Ht2|exact Hth1]). done. }
  assert (Some t3 = Some th1) as [= ->]; [|apply Hk2].
  rewrite <- Ht3, <- Hth1. destruct (negb (cur s =? idle_thread s)); [|by injection Hs2 as <-].
  by apply rq_insert_Ok in Hs2 as (? & ? & ? & _ & _ & _ & ->).
Qed.

(** C15. Priority scheduling: when in a reachable state the running thread
    yields and the call returns into some thread, that thread's priority is
    at least that of every ready thread. *)
Theorem yield_runs_highest main idle_page s s' :
  page_addr main -> reachable main idle_page s ->
  thread_yield s = Ok s' ->
  forall t th thc, ready s' t th -> threads s' !! cur s' = Some thc -> priority th <= priority thc.
Proof.
  intros Hp Hr H. apply reachable_kinv in Hr as [Hk _]; [|done].
  exact (thread_yield_highest s s' Hk H).
Qed.

(** *** Concrete runs *)

#[global] Instance page_addr_dec t : Decision (page_addr t).
Proof. unfold page_addr. apply _. Defined.

#[global] Instance fresh_page_dec s page : Decision (fresh_page s page).
Proof. unfold fresh_page. apply _. Defined.

#[global] Instance event_ok_dec s e : Decision (event_ok s e).
Proof.
  destruct e as [|c|h]; [|destruct c; simpl; apply _|left; done].
  simpl. destruct (pop s) as [[f s']|]; [|left; done].
  destruct f; try (left; intros page u E; discriminate).
  destruct (decide (fresh_page s page)) as [H|H].
  - left. by intros page' u [= <- <-].
  - right. intros Hx. apply H. by eapply Hx.
Defined.

(** [run] that also checks what the allocator and the clients owe. *)
Fixpoint run_checked (es : list event) (s : kstate) : option kstate :=
  match es with
  | [] => Some s
  | e :: es =>
      if decide (event_ok s e) then
        match exec_event e s with
        | Some (Ok s') => run_checked es s'
        | _ => None
        end
      else None
  end.

Lemma run_checked_reachable main idle_page es s s' :
  reachable main idle_page s -> run_checked es s = Some s' -> reachable main idle_page s'.
Proof.
  revert s. induction es as [|e es IH]; intros s Hr H; cbn [run_checked] in H.
  - by injection H as <-.
  - destruct (decide (event_ok s e)); [|done].
    destruct (exec_event e s) as [[s1|?]|] eqn:E; try done.
    eapply IH; [|exact H]. by eapply reach_step.
Qed.

Definition main_page : Z := 0x10000.
Definition idle_page : Z := 0x11000.
Definition other_page : Z := 0x12000.

Definition from_boot (es : list event) : option kstate :=
  match thread_init main_page idle_page with
  | Ok s => run_checked es s
  | Fail _ => None
  end.

Lemma from_boot_reachable es s :
  from_boot es = Some s -> reachable main_page idle_page s.
Proof.
  unfold from_boot. destruct (thread_init main_page idle_page) as [s0|] eqn:E; [|done].
  apply run_checked_reachable. by apply reach_init.
Qed.

(** Start-up until [main] is back in its own code: [idle] has set itself up
    and is blocked. *)
Definition boot : list event := replicate 13 E_run.

(** [main] holds a lock; a thread of higher priority blocks on it. *)
Definition contention : list event :=
  boot ++ [E_call (C_lock_init (LAt 256)); E_call (C_lock_acquire (LAt 256)); E_run;
           E_call (C_thread_create other_page [116] 40)] ++ replicate 4 E_run ++
  [E_call (C_lock_acquire (LAt 256))].

Definition state_after (es : list event) : kstate := default (blank NULL) (from_boot es).

Lemma state_after_reachable es :
  bool_decide (is_Some (from_boot es)) = true -> reachable main_page idle_page (state_after es).
Proof.
  intros [s Hs]%bool_decide_eq_true. unfold state_after. rewrite Hs.
  by apply from_boot_reachable with es.
Qed.

Lemma lock_mutual_exclusion_witness :
  owns (state_after contention) (LAt 256) main_page /\
  (main_page = main_page /\ value (mk_semaphore 0 [other_page]) = 0).
Proof.
  assert (owns (state_after contention) (LAt 256) main_page) as Ho.
  { left. split; [done|]. vm_compute. reflexivity. }
  split; [exact Ho|].
  apply (lock_mutual_exclusion main_page idle_page (state_after contention) (LAt 256)).
  - unfold page_addr, main_page. split; [lia|reflexivity].
  - apply state_after_reachable. vm_compute. reflexivity.
  - vm_compute. reflexivity.
  - exact Ho.
  - exact Ho.
Defined.

Lemma waiters_blocked_witness :
  blocked_in (state_after contention) other_page (F_sema_down_loop (SLock (LAt 256))).
Proof.
  apply (waiters_blocked main_page idle_page (state_after contention) (SLock (LAt 256))
    (mk_semaphore 0 [other_page]) other_page).
  - unfold page_addr, main_page. split; [lia|reflexivity].
  - apply state_after_reachable. vm_compute. reflexivity.
  - vm_compute. reflexivity.
  - left.
Defined.

(** A ready thread of lower priority than [main]. *)
Definition two_ready : list event :=
  boot ++ [E_call (C_thread_create other_page [116] 10)] ++ replicate 3 E_run.

Lemma run_queue_is_ready_set_witness :
  exists rq la, run_queue (state_after two_ready) = Some rq /\ rq_rep rq la [] /\ NoDup la.*2.
Proof.
  destruct (run_queue (state_after two_ready)) as [rq|] eqn:E; [|by vm_compute in E].
  destruct (run_queue_is_ready_set main_page idle_page (state_after two_ready) rq)
    as (_ & la & H1 & H2 & _).
  - unfold page_addr, main_page. split; [lia|reflexivity].
  - apply state_after_reachable. vm_compute. reflexivity.
  - exact E.
  - exists rq, la. split; [reflexivity|]. split; [exact H1|exact H2].
Defined.

Lemma yield_runs_highest_witness :
  exists s', thread_yield (state_after two_ready) = Ok s' /\
    forall t th thc, ready s' t th -> threads s' !! cur s' = Some thc -> priority th <= priority thc.
Proof.
  destruct (thread_yield (state_after two_ready)) as [s'|e] eqn:E; [|by vm_compute in E].
  exists s'. split; [reflexivity|].
  apply (yield_runs_highest main_page idle_page (state_after two_ready) s').
  - unfold page_addr, main_page. split; [lia|reflexivity].
  - apply state_after_reachable. vm_compute. reflexivity.
  - exact E.
Defined.

(** *** Where the code departs from its comments *)

(** A thread of higher priority waits for a semaphore that [main] ups. *)
Definition wakeup : list event :=
  boot ++ [E_call (C_sema_init 512 0); E_call (C_thread_create other_page [116] 40)] ++
  replicate 4 E_run ++ [E_call (C_sema_down 512)] ++ replicate 2 E_run ++
  [E_call (C_sema_up 512)] ++ replicate 4 E_run.


(** [thread_unblock] of a higher-priority thread in an interrupt handler. *)
Lemma unblock_in_interrupt s t th thc rq la :
  in_external_intr s = true -> one_running s ->
  run_queue s = Some rq -> rq_rep rq la [] -> Z.of_nat (length la) < 2 ^ 31 - 1 ->
  threads s !! t = Some th -> magic th = THREAD_MAGIC -> status th = THREAD_BLOCKED ->
  t <> NULL -> 0 <= priority th <= PRI_MAX ->
  threads s !! cur s = Some thc -> magic thc = THREAD_MAGIC -> cur s <> NULL ->
  cur s <> idle_thread s -> priority thc < priority th ->
  thread_unblock t s = Fail AssertFailed.
Proof.
  intros Hext [(th0 & Hc0 & Hrun) _] Hrq Hrep Hlen Ht Hm Hst Hn Hpr Hc Hmc Hcn Hni Hlt.
  assert (th0 = thc) as -> by congruence.
  assert (t <> cur s) as Hne by congruence.
  destruct (active_insert_spec rq la [] t (priority th) Hrep Hpr Hlen) as (rq' & Hins & _).
  unfold thread_unblock, is_thread, get_thread. rewrite (proj2 (Z.eqb_neq t NULL)) by done.
  rewrite Ht. cbn -[active_insert]. rewrite Hm. cbn -[active_insert].
  rewrite Ht. cbn -[active_insert]. rewrite Hst, bool_decide_true by done.
  cbn -[active_insert].
  unfold rq_insert, get_thread. cbn -[active_insert]. rewrite Ht. cbn -[active_insert].
  rewrite Hrq. cbn -[active_insert]. rewrite Hins. cbn.
  unfold set_status, get_thread. cbn. rewrite Ht. cbn.
  unfold thread_current, is_thread, running_thread, get_thread. cbn.
  rewrite (proj2 (Z.eqb_neq (cur s) NULL)) by done.
  rewrite lookup_insert_ne, Hc by done. cbn. rewrite Hmc. cbn.
  rewrite Hrun, bool_decide_true by done. cbn.
  rewrite lookup_insert_ne, Hc by done. cbn.
  rewrite (proj2 (Z.eqb_neq (cur s) (idle_thread s))) by done.
  rewrite (proj2 (Z.ltb_lt _ _) Hlt). cbn.
  unfold push, get_thread. cbn. rewrite lookup_insert_ne, Hc by done. cbn.
  unfold thread_yield, thread_current, is_thread, running_thread, get_thread. cbn.
  rewrite (proj2 (Z.eqb_neq (cur s) NULL)) by done.
  rewrite lookup_insert_eq. cbn. rewrite Hmc. cbn.
  rewrite Hrun, bool_decide_true by done. cbn. unfold intr_context. cbn. rewrite Hext. done.
Qed.

(** C18. A timer interrupt that finds a due sleeper of higher priority than
    the (non-idle) running thread stops the kernel: [check_unblockable]
    calls [thread_unblock], which calls [thread_yield], which asserts that
    it is not in an interrupt.  Stated of every reachable state. *)
Theorem alarm_preempting_panics main idle_page s bt rest th thc :
  page_addr main -> reachable main idle_page s ->
  alarm_started s = true -> block_list s = bt :: rest ->
  unblockable_time bt <= s64 (ticks s + 1) -> is_Some (run_queue s) ->
  threads s !! bt_t bt = Some th -> 0 <= priority th <= PRI_MAX ->
  threads s !! cur s = Some thc -> cur s <> idle_thread s -> priority thc < priority th ->
  interrupt H_timer s = Fail AssertFailed.
Proof.
  intros Hp Hr Hal Hbl Hdue [rq Hrq] Ht Hpr Hc Hni Hlt.
  apply reachable_kinv in Hr as [Hk Hext]; [|done].
  pose proof Hk as [Hone (Hpg & Hrqi & (_ & _ & Hb) & _)].
  destruct (Hb bt) as (th' & old & k & Ht' & Hst & _); [rewrite Hbl; left|done|].
  assert (th' = th) as -> by congruence.
  unfold rq_inv in Hrqi. rewrite Hrq in Hrqi. destruct Hrqi as (la & Hrep & Hnd & Hin & _).
  assert (Z.of_nat (length la) < 2 ^ 31 - 1) as Hlen.
  { rewrite <- (length_fmap snd). assert (Z.of_nat (length la.*2) <= 2 ^ 20); [|lia].
    apply pages_bound; [done|]. apply Forall_forall.
    intros u ([p u'] & -> & Hu)%list_elem_of_fmap.
    destruct (Hin p u' Hu) as (thu & Hu' & _). by apply (Hpg _ _ Hu'). }
  unfold interrupt, push, get_thread. rewrite Hc. cbn [from_option_res mbind res_bind].
  unfold intr_handler, is_off, intr_get_level, intr_context. cbn [level set_level].
  rewrite bool_decide_true by done. cbn [ASSERT mbind res_bind in_external_intr set_level put_thread set_threads].
  rewrite Hext. cbn [negb ASSERT mbind res_bind run_handler]. unfold timer_interrupt. cbv zeta.
  unfold check_unblockable.
  cbn [alarm_started block_list ticks set_ticks set_yield_on_return set_in_external_intr
       set_level put_thread set_threads].
  rewrite Hal, Hbl. unfold timer_ticks. cbn [intr_disable intr_get_level level ticks set_ticks
    set_yield_on_return set_in_external_intr set_level put_thread set_threads
    intr_set_level snd mbind res_bind].
  rewrite (proj2 (Z.leb_le _ _) Hdue). unfold call_then.
  cbn [intr_context in_external_intr set_block_list set_level set_ticks set_yield_on_return
       set_in_external_intr put_thread set_threads].
  set (thc' := with_kstack thc (F_iret :: kstack thc)).
  assert (bt_t bt <> cur s) as Hne.
  { intros E. rewrite E in Ht. destruct Hone as [(? & ? & ?) _]. congruence. }
  erewrite (unblock_in_interrupt _ (bt_t bt) th thc' rq la); try done; cbn.
  - destruct Hone as [(t0 & Ht0 & Hs0) Hone]. assert (t0 = thc) as -> by congruence. split.
    + exists thc'. cbn. by rewrite lookup_insert_eq.
    + cbn. intros u thu [[<- <-]|[? Hu]]%lookup_insert_Some Hs; [done|]. by eapply Hone.
  - by rewrite lookup_insert_ne.
  - by apply (Hpg _ _ Ht).
  - destruct (Hpg _ _ Ht) as [[? _] _]. unfold NULL. lia.
  - by rewrite lookup_insert_eq.
  - by apply (Hpg _ _ Hc).
  - destruct (Hpg _ _ Hc) as [[? _] _]. unfold NULL. lia.
Qed.

(** A thread of priority 40 sleeps one tick; [main] goes on. *)
Definition alarm : list event :=
  boot ++ [E_call C_alarmclock_init; E_call (C_thread_create other_page [116] 40)] ++
  replicate 4 E_run ++ [E_call (C_timer_sleep true 1)] ++ replicate 2 E_run.

Lemma alarm_preempting_panics_witness :
  interrupt H_timer (state_after alarm) = Fail AssertFailed.
Proof.
  eapply (alarm_preempting_panics main_page idle_page (state_after alarm)
    (mk_blocked_thread other_page 1) []).
  - unfold page_addr, main_page. split; [lia|reflexivity].
  - apply state_after_reachable. vm_compute. reflexivity.
  - vm_compute. reflexivity.
  - vm_compute. reflexivity.
  - vm_compute. discriminate.
  - vm_compute. by eexists.
  - vm_compute. reflexivity.
  - vm_compute. split; discriminate.
  - vm_compute. reflexivity.
  - vm_compute. discriminate.
  - vm_compute. reflexivity.
Defined.
