(* ===== verification/Arith64.v ===== *)
(** * 64-bit division

    Models lib/arithmetic.c, the division routines GCC calls for 64-bit
    operands: [nlz] by binary search, [udiv64] with one or two 32-bit DIVL
    instructions, and the signed and remainder variants.  The quotient is
    shown to be exact for all operands and DIVL never to trap; the remainder
    routines are shown to be exact only when the remainder fits their
    declared 32-bit return type. *)

From S2P Require Import Prelude.

(** ** Definitions *)

(** The DIVL instruction traps when the quotient does not fit. *)
Definition divl (n d : Z) : res Z :=
  if (d =? 0) || (2 ^ 32 <=? n / d) then Fail DivideError else Ok (n / d).

Definition nlz_step (limit k : Z) (nx : Z * Z) : Z * Z :=
  let '(n, x) := nx in
  if x <=? limit then (n + k, u32 (Z.shiftl x k)) else (n, x).

Definition nlz (x : Z) : Z :=
  let st := nlz_step 0x0000FFFF 16 (0, x) in
  let st := nlz_step 0x00FFFFFF 8 st in
  let st := nlz_step 0x0FFFFFFF 4 st in
  let '(n, x) := nlz_step 0x3FFFFFFF 2 st in
  if x <=? 0x7FFFFFFF then n + 1 else n.

Definition udiv64 (n d : Z) : res Z :=
  if Z.shiftr d 32 =? 0 then
    let b := Z.shiftl 1 32 in
    let n1 := u32 (Z.shiftr n 32) in
    let n0 := u32 n in
    let d0 := u32 d in
    if d0 =? 0 then Fail DivideError
    else
      q ← divl (u64 (b * (n1 mod d0) + n0)) d0;
      Ok (u64 (q + b * (n1 / d0)))
  else if n <? d then Ok 0
  else
    let d1 := u32 (Z.shiftr d 32) in
    let s := nlz d1 in
    q0 ← divl (Z.shiftr n 1) (u32 (Z.shiftr (u64 (Z.shiftl d s)) 32));
    let q := Z.shiftr q0 (31 - s) in
    if u64 (n - u64 (u64 (q - 1) * d)) <? d then Ok (u64 (q - 1)) else Ok q.

Definition umod64 (n d : Z) : res Z :=
  q ← udiv64 n d; Ok (u32 (u64 (n - u64 (d * q)))).

Definition sdiv64 (n d : Z) : res Z :=
  let n_abs := if 0 <=? n then u64 n else u64 (- u64 n) in
  let d_abs := if 0 <=? d then u64 d else u64 (- u64 d) in
  q_abs ← udiv64 n_abs d_abs;
  Ok (if Bool.eqb (n <? 0) (d <? 0) then s64 q_abs else s64 (- s64 q_abs)).

Definition smod64 (n d : Z) : res Z :=
  q ← sdiv64 n d; Ok (s32 (s64 (n - s64 (d * q)))).

Definition __divdi3 (n d : Z) : res Z := q ← sdiv64 n d; Ok (s64 q).
Definition __moddi3 (n d : Z) : res Z := r ← smod64 n d; Ok (s64 r).
Definition __udivdi3 (n d : Z) : res Z := q ← udiv64 n d; Ok (u64 q).
Definition __umoddi3 (n d : Z) : res Z := r ← umod64 n d; Ok (u64 r).

(** ** Leading zeros *)

(** What one step keeps: the shifted value and the room left above it. *)
Definition nlz_inv (x0 room : Z) (nx : Z * Z) : Prop :=
  0 <= nx.1 /\ nx.2 = x0 * 2 ^ nx.1 /\ 2 ^ (31 - room) <= nx.2 < 2 ^ 32.

Lemma nlz_step_inv x0 k limit nx :
  0 < k <= 16 -> limit = 2 ^ (32 - k) - 1 -> 0 < x0 ->
  nlz_inv x0 (2 * k - 1) nx -> nlz_inv x0 (k - 1) (nlz_step limit k nx).
Proof.
  intros Hk -> Hx0 (Hn & Hx & Hlo & Hhi). destruct nx as [n x]. unfold nlz_step, nlz_inv.
  simpl in *. destruct (Z.leb_spec x (2 ^ (32 - k) - 1)); simpl.
  - assert (x * 2 ^ k < 2 ^ 32).
    { replace 32 with ((32 - k) + k) by lia. rewrite Z.pow_add_r by lia. nia. }
    assert (2 ^ (31 - (k - 1)) <= x * 2 ^ k).
    { replace (31 - (k - 1)) with ((31 - (2 * k - 1)) + k) by lia.
      rewrite Z.pow_add_r by lia. nia. }
    assert (0 < 2 ^ (31 - (2 * k - 1))) by (apply Z.pow_pos_nonneg; lia).
    rewrite Z.shiftl_mul_pow2, u32_small by nia. split_and!; try lia.
    rewrite Z.pow_add_r by lia. nia.
  - split_and!; try lia. replace (31 - (k - 1)) with (32 - k) by lia. lia.
Qed.

(** [nlz x] shifts the highest set bit of a nonzero word to bit 31. *)
Lemma nlz_spec x :
  0 < x < 2 ^ 32 -> 0 <= nlz x <= 31 /\ 2 ^ 31 <= x * 2 ^ nlz x < 2 ^ 32.
Proof.
  intros Hx. unfold nlz.
  assert (nlz_inv x 31 (0, x)) as H by (unfold nlz_inv; simpl; lia).
  apply (nlz_step_inv x 16 0x0000FFFF) in H; [|lia..].
  apply (nlz_step_inv x 8 0x00FFFFFF) in H; [|lia..].
  apply (nlz_step_inv x 4 0x0FFFFFFF) in H; [|lia..].
  apply (nlz_step_inv x 2 0x3FFFFFFF) in H; [|lia..].
  destruct (nlz_step 0x3FFFFFFF 2 _) as [n y]. destruct H as (Hn & Hy & Hlo & Hhi).
  simpl in Hn, Hy. replace (2 ^ (31 - (2 - 1))) with (2 ^ 30) in Hlo by reflexivity.
  simpl in Hlo, Hhi.
  assert (2 ^ 31 <= x * 2 ^ (if y <=? 0x7FFFFFFF then n + 1 else n) < 2 ^ 32) as Hmain.
  { destruct (Z.leb_spec y 0x7FFFFFFF); [rewrite Z.pow_add_r by lia|]; lia. }
  split; [|exact Hmain]. split; [destruct (y <=? _); lia|].
  destruct (Z.le_gt_cases (if y <=? 0x7FFFFFFF then n + 1 else n) 31) as [|Hgt]; [done|].
  exfalso. assert (2 ^ 32 <= 2 ^ (if y <=? 0x7FFFFFFF then n + 1 else n)); [|nia].
  apply Z.pow_le_mono_r; lia.
Qed.

(** ** Unsigned division *)

(** Dividing by [d] with its low [k + 1] bits cleared gives the quotient or
    one more. *)
Lemma quotient_estimate n d k :
  0 <= k <= 31 -> 0 <= n < 2 ^ 64 -> 0 < d ->
  2 ^ 31 <= d / 2 ^ (k + 1) ->
  n / d <= n / (2 ^ (k + 1) * (d / 2 ^ (k + 1))) <= n / d + 1.
Proof.
  intros Hk Hn Hd Hv.
  assert (0 < 2 ^ (k + 1)) as Hp by (apply Z.pow_pos_nonneg; lia).
  set (p := 2 ^ (k + 1)) in *. set (v := d / p) in *. set (D := p * v).
  pose proof (Z.div_mod d p ltac:(lia)) as Hdm.
  pose proof (Z.mod_pos_bound d p Hp) as Hmod. fold v in Hdm.
  assert (0 < D) as HD by (unfold D; nia).
  assert (D <= d <= D + p - 1) as HDd by (unfold D; lia).
  split; [apply Z.div_le_compat_l; lia|].
  set (Q := n / d). apply Z.lt_succ_r, Z.nle_gt. intros Hge.
  pose proof (Z.div_mod n d ltac:(lia)) as Hq. fold Q in Hq.
  pose proof (Z.mod_pos_bound n d ltac:(lia)) as Hqm.
  assert (0 <= Q) by (unfold Q; apply Z.div_pos; lia).
  assert ((Q + 2) * D <= n) as Hlow.
  { pose proof (Z.mul_div_le n D HD). nia. }
  assert (D < (Q + 1) * (p - 1)) as Hkey by nia.
  assert (p * 2 ^ 31 <= D) as HDlow by (unfold D; nia).
  assert (2 ^ 31 <= Q) as HQ by nia.
  assert (Q * D < 2 ^ 64) by nia.
  destruct (Z.eq_dec k 0) as [->|Hk0].
  - change (2 ^ (0 + 1)) with 2 in p. subst p. nia.
  - assert (4 <= p); [|nia]. unfold p. change 4 with (2 ^ 2). apply Z.pow_le_mono_r; lia.
Qed.

Lemma divl_ok n d : 0 < d -> 0 <= n -> n / d < 2 ^ 32 -> divl n d = Ok (n / d).
Proof.
  intros Hd Hn Hq. unfold divl. destruct (Z.eqb_spec d 0); [lia|].
  by destruct (Z.leb_spec (2 ^ 32) (n / d)); [lia|].
Qed.

Lemma udiv64_small n d :
  0 <= n < 2 ^ 64 -> 0 < d < 2 ^ 32 -> udiv64 n d = Ok (n / d).
Proof.
  intros Hn Hd. unfold udiv64. rewrite Z.shiftr_div_pow2, Z.div_small by lia.
  rewrite Z.eqb_refl. change (Z.shiftl 1 32) with (2 ^ 32).
  rewrite Z.shiftr_div_pow2 by lia.
  pose proof (Z.div_mod n (2 ^ 32) ltac:(lia)) as Hdm.
  pose proof (Z.mod_pos_bound n (2 ^ 32) ltac:(lia)) as Hm.
  assert (0 <= n / 2 ^ 32 < 2 ^ 32) as Hn1.
  { split; [apply Z.div_pos; lia|apply Z.div_lt_upper_bound; lia]. }
  rewrite (u32_small (n / 2 ^ 32)), (u32_small d) by lia. unfold u32.
  set (n1 := n / 2 ^ 32) in *. set (n0 := n mod 2 ^ 32) in *.
  destruct (Z.eqb_spec d 0); [lia|]. cbv zeta.
  pose proof (Z.mod_pos_bound n1 d ltac:(lia)) as Hr.
  pose proof (Z.div_mod n1 d ltac:(lia)) as Hn1d.
  rewrite u64_small by nia.
  assert ((2 ^ 32 * (n1 mod d) + n0) / d < 2 ^ 32) as Hfit.
  { apply Z.div_lt_upper_bound; nia. }
  rewrite divl_ok; [|lia|nia|done]. simpl. f_equal.
  assert (n / d = (2 ^ 32 * (n1 mod d) + n0) / d + 2 ^ 32 * (n1 / d)) as E.
  { rewrite <- Z.div_add by lia. f_equal. rewrite Hdm at 1. nia. }
  change (Z.pow_pos 2 32) with (2 ^ 32). rewrite <- E. apply u64_small.
  split; [apply Z.div_pos; lia|]. apply Z.div_lt_upper_bound; nia.
Qed.

Lemma udiv64_big n d :
  0 <= n < 2 ^ 64 -> 2 ^ 32 <= d < 2 ^ 64 -> udiv64 n d = Ok (n / d).
Proof.
  intros Hn Hd. unfold udiv64. rewrite !Z.shiftr_div_pow2 by lia.
  assert (0 < d / 2 ^ 32 < 2 ^ 32) as Hd1.
  { split; [apply Z.div_str_pos; lia|apply Z.div_lt_upper_bound; lia]. }
  destruct (Z.eqb_spec (d / 2 ^ 32) 0); [lia|].
  destruct (Z.ltb_spec n d); [by rewrite Z.div_small by lia|]. cbv zeta.
  rewrite (u32_small (d / 2 ^ 32)) by lia.
  destruct (nlz_spec (d / 2 ^ 32) Hd1) as [Hs Hlz]. set (s := nlz (d / 2 ^ 32)) in *.
  set (k := 31 - s). assert (0 <= k <= 31) as Hk by lia.
  pose proof (Z.div_mod d (2 ^ 32) ltac:(lia)) as Hdm.
  pose proof (Z.mod_pos_bound d (2 ^ 32) ltac:(lia)) as Hm.
  assert (0 < 2 ^ s) as Hps by (apply Z.pow_pos_nonneg; lia).
  assert (d * 2 ^ s < 2 ^ 64) as Hfit.
  { assert (2 ^ 32 = 2 ^ (32 - s) * 2 ^ s) as E by (rewrite <- Z.pow_add_r by lia; f_equal; lia).
    assert (d / 2 ^ 32 < 2 ^ (32 - s)) by nia.
    assert (d < 2 ^ 32 * 2 ^ (32 - s)) by lia.
    change (2 ^ 64) with (2 ^ 32 * 2 ^ 32). rewrite E at 2. nia. }
  rewrite Z.shiftl_mul_pow2, u64_small by nia.
  rewrite ?Z.shiftr_div_pow2 by lia.
  assert (d * 2 ^ s / 2 ^ 32 = d / 2 ^ (k + 1)) as Ev.
  { replace 32 with ((k + 1) + s) by lia. rewrite Z.pow_add_r by lia.
    rewrite Z.mul_comm, (Z.mul_comm (2 ^ (k + 1))). apply Z.div_mul_cancel_l; [|lia].
    apply Z.pow_nonzero; lia. }
  rewrite Ev. set (v := d / 2 ^ (k + 1)) in *.
  assert (2 ^ 31 <= v < 2 ^ 32) as Hv.
  { rewrite <- Ev. split; [apply Z.div_le_lower_bound; nia|apply Z.div_lt_upper_bound; nia]. }
  rewrite u32_small by lia. change (2 ^ 1) with 2.
  assert (n / 2 / v < 2 ^ 32) as Hq32.
  { apply Z.div_lt_upper_bound; [lia|]. assert (n / 2 < 2 ^ 63); [|nia].
    apply Z.div_lt_upper_bound; lia. }
  rewrite divl_ok; [|lia|apply Z.div_pos; lia|done]. cbn [mbind res_bind].
  fold k. rewrite ?Z.shiftr_div_pow2 by lia.
  assert (n / 2 / v / 2 ^ k = n / (2 ^ (k + 1) * v)) as Eq.
  { assert (0 < 2 ^ k) by (apply Z.pow_pos_nonneg; lia).
    rewrite !Z.div_div by lia. f_equal. rewrite Z.pow_add_r by lia. lia. }
  rewrite Eq. destruct (quotient_estimate n d k) as [Hlo Hhi]; [lia|lia|lia|exact (proj1 Hv)|].
  fold v in Hlo, Hhi. set (q := n / (2 ^ (k + 1) * v)) in *.
  pose proof (Z.div_mod n d ltac:(lia)) as Hnd.
  pose proof (Z.mod_pos_bound n d ltac:(lia)) as Hr.
  assert (1 <= n / d) as HQ1 by (apply Z.div_le_lower_bound; lia).
  assert (n / d < 2 ^ 32) as HQ2 by (apply Z.div_lt_upper_bound; nia).
  rewrite (u64_small (q - 1)) by lia.
  assert (0 <= (q - 1) * d <= n) by nia.
  rewrite (u64_small ((q - 1) * d)), u64_small by lia.
  destruct (Z.ltb_spec (n - (q - 1) * d) d); f_equal; nia.
Qed.

Lemma udiv64_spec n d :
  0 <= n < 2 ^ 64 -> 0 < d < 2 ^ 64 -> udiv64 n d = Ok (n / d).
Proof.
  intros Hn Hd. destruct (Z.lt_ge_cases d (2 ^ 32)).
  - apply udiv64_small; lia.
  - apply udiv64_big; lia.
Qed.

(** ** Signed division and remainders *)

Lemma s64_small z : - 2 ^ 63 <= z < 2 ^ 63 -> s64 z = z.
Proof. intros. unfold s64. rewrite Z.mod_small; lia. Qed.

Lemma s64_u64 z : s64 (u64 z) = s64 z.
Proof. unfold s64, u64. by rewrite Z.add_mod_idemp_l by lia. Qed.

(** The two's complement absolute value, exact also for the least value. *)
Lemma abs_u64 n :
  - 2 ^ 63 <= n < 2 ^ 63 -> (if 0 <=? n then u64 n else u64 (- u64 n)) = Z.abs n.
Proof.
  intros Hn. destruct (Z.leb_spec 0 n).
  - rewrite u64_small, Z.abs_eq by lia. done.
  - replace (u64 n) with (n + 2 ^ 64).
    + replace (- (n + 2 ^ 64)) with (- n + (-1) * 2 ^ 64) by lia. unfold u64.
      rewrite Z.mod_add, Z.mod_small by lia. lia.
    + unfold u64. rewrite <- (Z.mod_add n 1), Z.mul_1_l, Z.mod_small by lia. done.
Qed.

Lemma sdiv64_spec n d :
  - 2 ^ 63 <= n < 2 ^ 63 -> - 2 ^ 63 <= d < 2 ^ 63 -> d <> 0 ->
  ~ (n = - 2 ^ 63 /\ d = -1) -> sdiv64 n d = Ok (Z.quot n d).
Proof.
  intros Hn Hd Hd0 Hov. unfold sdiv64. rewrite !abs_u64 by done.
  rewrite udiv64_spec by lia. simpl. f_equal.
  assert (0 <= Z.abs n / Z.abs d <= Z.abs n) as Hq.
  { split; [apply Z.div_pos; lia|]. apply Z.div_le_upper_bound; nia. }
  assert (Z.quot n d = Z.sgn n * Z.sgn d * (Z.abs n / Z.abs d)) as Eq.
  { apply Z.quot_div. done. }
  destruct (Z.ltb_spec n 0), (Z.ltb_spec d 0); simpl; rewrite Eq.
  - rewrite (Z.sgn_neg n), (Z.sgn_neg d) by lia.
    assert (Z.abs n / Z.abs d < 2 ^ 63).
    { apply Z.div_lt_upper_bound; [lia|]. destruct (Z.eq_dec n (- 2 ^ 63)); [|nia].
      assert (2 <= Z.abs d) by lia. nia. }
    rewrite s64_small; lia.
  - rewrite (Z.sgn_neg n), (Z.sgn_pos d) by lia.
    destruct (Z.eq_dec (Z.abs n / Z.abs d) (2 ^ 63)) as [->|]; [done|].
    rewrite (s64_small (Z.abs n / Z.abs d)), s64_small by lia. lia.
  - rewrite (Z.sgn_neg d) by lia.
    assert (Z.abs n / Z.abs d < 2 ^ 63) by lia.
    rewrite (s64_small (Z.abs n / Z.abs d)), s64_small by lia.
    destruct (Z.eq_dec n 0) as [->|]; [by rewrite Z.div_0_l by lia|].
    rewrite (Z.sgn_pos n) by lia. lia.
  - rewrite (Z.sgn_pos d) by lia.
    rewrite s64_small by lia.
    destruct (Z.eq_dec n 0) as [->|]; [by rewrite Z.div_0_l by lia|].
    rewrite (Z.sgn_pos n) by lia. lia.
Qed.

(** ** Properties *)

(** The 64-bit division routines return the exact quotient and never
    trap: [__udivdi3] for every unsigned dividend and nonzero divisor,
    [__divdi3] (truncating toward zero) for every signed pair except the one
    whose quotient does not exist in 64 bits. *)
Theorem div64_exact :
  (forall n d, 0 <= n < 2 ^ 64 -> 0 < d < 2 ^ 64 -> __udivdi3 n d = Ok (n / d)) /\
  (forall n d, - 2 ^ 63 <= n < 2 ^ 63 -> - 2 ^ 63 <= d < 2 ^ 63 -> d <> 0 ->
     ~ (n = - 2 ^ 63 /\ d = -1) -> __divdi3 n d = Ok (Z.quot n d)).
Proof.
  split; intros n d Hn Hd.
  - unfold __udivdi3. rewrite udiv64_spec by done. simpl. f_equal. apply u64_small.
    split; [apply Z.div_pos; lia|]. apply Z.div_lt_upper_bound; nia.
  - intros Hd0 Hov. unfold __divdi3. rewrite sdiv64_spec by done. simpl. f_equal.
    apply s64_small. pose proof (Z.quot_rem n d Hd0) as Hqr.
    pose proof (Z.rem_bound_abs n d Hd0) as Hr.
    assert (Z.abs (Z.quot n d) <= Z.abs n).
    { rewrite <- Z.quot_abs by done. apply Z.quot_le_upper_bound; nia. }
    destruct (Z.eq_dec (Z.quot n d) (2 ^ 63)) as [E|]; [|lia].
    exfalso. rewrite E in *. nia.
Qed.

(** The remainder routines return the remainder reduced to 32 bits:
    [umod64] is declared to return [uint32_t] and [smod64] [int32_t].  So
    they are exact when the remainder fits, as it does for every divisor up
    to 2^32 (2^31), and wrong otherwise. *)
Theorem mod64_truncated :
  (forall n d, 0 <= n < 2 ^ 64 -> 0 < d < 2 ^ 64 -> __umoddi3 n d = Ok (u32 (n mod d))) /\
  (forall n d, 0 <= n < 2 ^ 64 -> 0 < d <= 2 ^ 32 -> __umoddi3 n d = Ok (n mod d)) /\
  __umoddi3 (2 ^ 32) (2 ^ 33) = Ok 0.
Proof.
  assert (forall n d, 0 <= n < 2 ^ 64 -> 0 < d < 2 ^ 64 ->
    __umoddi3 n d = Ok (u32 (n mod d))) as Hmod.
  { intros n d Hn Hd. unfold __umoddi3, umod64. rewrite udiv64_spec by done. simpl.
    pose proof (Z.div_mod n d ltac:(lia)) as Hdm.
    pose proof (Z.mod_pos_bound n d ltac:(lia)) as Hr.
    assert (0 <= n / d) by (apply Z.div_pos; lia).
    f_equal. rewrite (u64_small (d * (n / d))) by nia.
    rewrite (u64_small (n - _)) by nia. rewrite u64_small; [f_equal; lia|].
    pose proof (u32_range (n - d * (n / d))). lia. }
  split_and!.
  - exact Hmod.
  - intros n d Hn Hd. rewrite Hmod by lia. f_equal. apply u32_small.
    pose proof (Z.mod_pos_bound n d ltac:(lia)). lia.
  - reflexivity.
Qed.

Lemma div64_exact_witness :
  __udivdi3 (2 ^ 64 - 1) (2 ^ 32 + 1) = Ok (2 ^ 32 - 1) /\ __divdi3 (-7) 2 = Ok (-3).
Proof.
  split; [apply (proj1 div64_exact)|apply (proj2 div64_exact)]; lia.
Defined.

Lemma mod64_truncated_witness :
  __umoddi3 (2 ^ 64 - 1) (2 ^ 63) = Ok (2 ^ 32 - 1) /\ __umoddi3 (2 ^ 40 + 5) 1000 = Ok 781.
Proof.
  split; [apply (proj1 mod64_truncated)|apply (proj1 (proj2 mod64_truncated))]; lia.
Defined.
