(* ===== verification/Random.v ===== *)
(** * The pseudo-random number generator

    Models lib/random.c: RC4 over a 256-byte state.  The state array is
    shown to remain a permutation of the bytes, so every index the
    generator computes is in bounds and every byte it returns is a byte. *)

From S2P Require Import Prelude.

Record rng : Type := mk_rng {
  s : list Z;           (* S[] *)
  s_i : Z;
  s_j : Z;
  inited : bool;
}.

Definition swap_byte (l : list Z) (a b : Z) : res (list Z) :=
  x ← arr_get l a;
  y ← arr_get l b;
  l ← arr_set l a y;
  arr_set l b x.

(** Byte [k] of the little-endian representation of [seed]. *)
Definition seed_byte (seed k : Z) : Z := u8 (Z.shiftr seed (8 * k)).

(** [for (i = j = 0; i < 256; i++)], [n] iterations left. *)
Fixpoint init_loop (n : nat) (seed : Z) (l : list Z) (i j : Z) : res (list Z) :=
  match n with
  | O => Ok l
  | S n =>
      x ← arr_get l i;
      let j := u8 (j + (x + seed_byte seed (i mod 4))) in
      l ← swap_byte l i j;
      init_loop n seed l (i + 1) j
  end.

Definition random_init (seed : Z) : res rng :=
  l ← init_loop 256 seed (seqZ 0 256) 0 0;
  Ok (mk_rng l 0 0 true).

Definition next_byte (g : rng) : res (Z * rng) :=
  let i := u8 (s_i g + 1) in
  x ← arr_get (s g) i;
  let j := u8 (s_j g + x) in
  l ← swap_byte (s g) i j;
  a ← arr_get l i;
  b ← arr_get l j;
  let s_k := u8 (a + b) in
  v ← arr_get l s_k;
  Ok (v, mk_rng l i j (inited g)).

Fixpoint bytes_loop (n : nat) (g : rng) : res (list Z * rng) :=
  match n with
  | O => Ok ([], g)
  | S n => '(b, g) ← next_byte g;
           '(bs, g) ← bytes_loop n g;
           Ok (b :: bs, g)
  end.

Definition random_bytes (size : nat) (g : rng) : res (list Z * rng) :=
  g ← (if inited g then Ok g else random_init 0);
  bytes_loop size g.

Definition random_ulong (g : rng) : res (Z * rng) :=
  '(bs, g) ← random_bytes 4 g;
  Ok (foldr (fun b acc => b + 256 * acc) 0 bs, g).

(** ** The state stays a permutation *)

Definition rc4_perm (l : list Z) : Prop := l ≡ₚ seqZ 0 256.

Definition rng_wf (g : rng) : Prop :=
  inited g = true -> rc4_perm (s g) /\ 0 <= s_i g < 256 /\ 0 <= s_j g < 256.

Lemma rc4_perm_length l : rc4_perm l -> length l = 256%nat.
Proof. unfold rc4_perm. intros Hl. by rewrite Hl, length_seqZ. Qed.

Lemma rc4_get l i : rc4_perm l -> 0 <= i < 256 -> exists x, arr_get l i = Ok x /\ 0 <= x < 256.
Proof.
  intros Hl Hi. destruct (arr_get_ok l i) as [x Hx].
  { rewrite rc4_perm_length by done. lia. }
  exists x. split; [done|]. apply arr_get_Ok in Hx as [_ Hx%list_elem_of_lookup_2].
  unfold rc4_perm in Hl. rewrite Hl in Hx. by apply elem_of_seqZ in Hx.
Qed.

Lemma swap_byte_ok l a b :
  rc4_perm l -> 0 <= a < 256 -> 0 <= b < 256 ->
  exists l', swap_byte l a b = Ok l' /\ rc4_perm l'.
Proof.
  intros Hl Ha Hb. unfold swap_byte.
  destruct (rc4_get l a Hl Ha) as (x & Hx & _), (rc4_get l b Hl Hb) as (y & Hy & _).
  rewrite Hx, Hy. cbn [mbind res_bind].
  pose proof (rc4_perm_length l Hl).
  rewrite arr_set_ok by lia. cbn [mbind res_bind].
  rewrite arr_set_ok by (rewrite length_insert; lia). eexists. split; [done|].
  apply arr_get_Ok in Hx as [_ Hx], Hy as [_ Hy]. unfold rc4_perm.
  by rewrite insert_swap_perm.
Qed.

Lemma init_loop_ok n seed l i j :
  rc4_perm l -> 0 <= i -> i + Z.of_nat n <= 256 ->
  exists l', init_loop n seed l i j = Ok l' /\ rc4_perm l'.
Proof.
  revert l i j. induction n as [|n IH]; intros l i j Hl Hi Hn; [by exists l|].
  cbn [init_loop]. destruct (rc4_get l i Hl) as (x & -> & _); [lia|]. cbn [mbind res_bind].
  cbv zeta. destruct (swap_byte_ok l i (u8 (j + (x + seed_byte seed (i mod 4)))) Hl)
    as (l' & -> & Hl'); [lia|apply u8_range|].
  apply IH; [done|lia..].
Qed.

Lemma random_init_ok seed :
  exists g, random_init seed = Ok g /\ rng_wf g /\ inited g = true.
Proof.
  unfold random_init. destruct (init_loop_ok 256 seed (seqZ 0 256) 0 0) as (l & -> & Hl);
    [unfold rc4_perm; reflexivity|lia|lia|]. simpl. eexists. split; [done|]. split; [|done]. intros _. simpl. split; [done|lia].
Qed.

Lemma next_byte_ok g :
  rng_wf g -> inited g = true ->
  exists b g', next_byte g = Ok (b, g') /\ 0 <= b < 256 /\ rng_wf g' /\ inited g' = true.
Proof.
  intros Hg Hi. destruct (Hg Hi) as (Hl & H1 & H2). unfold next_byte. cbv zeta.
  destruct (rc4_get (s g) (u8 (s_i g + 1)) Hl (u8_range _)) as (x & -> & _). cbn [mbind res_bind].
  destruct (swap_byte_ok (s g) (u8 (s_i g + 1)) (u8 (s_j g + x)) Hl (u8_range _) (u8_range _))
    as (l & -> & Hl'). cbn [mbind res_bind].
  destruct (rc4_get l _ Hl' (u8_range (s_i g + 1))) as (a & -> & _). cbn [mbind res_bind].
  destruct (rc4_get l _ Hl' (u8_range (s_j g + x))) as (b & -> & _). cbn [mbind res_bind].
  destruct (rc4_get l _ Hl' (u8_range (a + b))) as (v & -> & Hv). cbn [mbind res_bind].
  eexists _, _. split; [done|]. split; [done|]. split; [|done].
  intros _. simpl. split; [done|]. split; apply u8_range.
Qed.

Lemma bytes_loop_ok n g :
  rng_wf g -> inited g = true ->
  exists bs g', bytes_loop n g = Ok (bs, g') /\ length bs = n /\
    Forall (fun b => 0 <= b < 256) bs /\ rng_wf g' /\ inited g' = true.
Proof.
  revert g. induction n as [|n IH]; intros g Hg Hi; simpl; [by eexists [], g|].
  destruct (next_byte_ok g Hg Hi) as (b & g1 & -> & Hb & Hg1 & Hi1). cbn [mbind res_bind].
  destruct (IH g1 Hg1 Hi1) as (bs & g2 & -> & Hlen & Hbs & ?). cbn [mbind res_bind].
  eexists _, _. split; [done|]. simpl. split_and!; [lia|by constructor|tauto..].
Qed.

(** ** Properties *)

(** The generator never leaves its 256-byte state array: from any
    well-formed state (in particular the initial, unseeded one)
    [random_bytes] returns exactly the requested number of bytes, each below
    256, and leaves a state whose array is still a permutation of the bytes. *)
Theorem random_bytes_total n g :
  rng_wf g ->
  exists bs g', random_bytes n g = Ok (bs, g') /\ length bs = n /\
    Forall (fun b => 0 <= b < 256) bs /\ rng_wf g' /\ s g' ≡ₚ seqZ 0 256.
Proof.
  intros Hg. unfold random_bytes.
  assert (exists g1, (if inited g then Ok g else random_init 0) = Ok g1 /\
    rng_wf g1 /\ inited g1 = true) as (g1 & -> & Hg1 & Hi1).
  { destruct (inited g) eqn:E; [by exists g|apply random_init_ok]. }
  cbn [mbind res_bind]. destruct (bytes_loop_ok n g1 Hg1 Hi1) as (bs & g2 & E & ? & ? & Hg2 & Hi2).
  exists bs, g2. split_and!; try done. by destruct (Hg2 Hi2).
Qed.

(** The static state before the first use. *)
Definition rng_boot : rng := mk_rng (replicate 256 0) 0 0 false.

Lemma random_bytes_total_witness :
  rng_wf rng_boot /\ exists bs g', random_bytes 4 rng_boot = Ok (bs, g') /\ length bs = 4%nat.
Proof.
  assert (rng_wf rng_boot) as H by (intros E; discriminate E).
  split; [exact H|]. destruct (random_bytes_total 4 rng_boot H) as (bs & g' & H1 & H2 & _).
  exists bs, g'. split; [exact H1|exact H2].
Defined.
