(* ===== verification/Mem.v ===== *)
(** * Byte memory

    Memory as the C code sees it: a partial map from addresses to bytes.
    Reading or writing outside its domain is [BadAccess].  [bytes_at m p bs]
    says that the bytes [bs] are stored from address [p] on. *)

From S2P Require Import Prelude.

Abbreviation mem := (gmap Z Z).

Definition load (m : mem) (p : Z) : res Z :=
  match m !! p with Some b => Ok b | None => Fail BadAccess end.

Definition store (m : mem) (p b : Z) : res mem :=
  match m !! p with Some _ => Ok (<[p := u8 b]> m) | None => Fail BadAccess end.

Definition is_byte (b : Z) : Prop := 0 <= b < 256.

Fixpoint bytes_at (m : mem) (p : Z) (bs : list Z) : Prop :=
  match bs with
  | [] => True
  | b :: bs => m !! p = Some b /\ bytes_at m (p + 1) bs
  end.

(** [m'] is [m] with the bytes [bs] written at [p]. *)
Fixpoint write_at (m : mem) (p : Z) (bs : list Z) : mem :=
  match bs with
  | [] => m
  | b :: bs => <[p := b]> (write_at m (p + 1) bs)
  end.

Definition owned (m : mem) (p n : Z) : Prop :=
  forall a, p <= a < p + n -> is_Some (m !! a).

Lemma load_Ok m p b : m !! p = Some b -> load m p = Ok b.
Proof. unfold load. by intros ->. Qed.

Lemma store_Ok m p b : is_Some (m !! p) -> is_byte b -> store m p b = Ok (<[p := b]> m).
Proof.
  unfold store, is_byte, u8. intros [x ->] Hb. by rewrite Z.mod_small by lia.
Qed.

Lemma bytes_at_app m p bs cs :
  bytes_at m p (bs ++ cs) <-> bytes_at m p bs /\ bytes_at m (p + Z.of_nat (length bs)) cs.
Proof.
  revert p. induction bs as [|b bs IH]; intros p; simpl.
  - rewrite Z.add_0_r. tauto.
  - rewrite IH. replace (p + 1 + Z.of_nat (length bs)) with (p + Z.of_nat (S (length bs))) by lia.
    tauto.
Qed.

Lemma bytes_at_lookup m p bs i b :
  bytes_at m p bs -> bs !! i = Some b -> m !! (p + Z.of_nat i) = Some b.
Proof.
  revert p i. induction bs as [|c bs IH]; intros p i Hb Hi; [done|].
  destruct Hb as [Hb Hbs], i as [|i]; simplify_eq/=.
  - by rewrite Z.add_0_r.
  - replace (p + Z.of_nat (S i)) with (p + 1 + Z.of_nat i) by lia. by apply IH.
Qed.

Lemma bytes_at_owned m p bs : bytes_at m p bs -> owned m p (Z.of_nat (length bs)).
Proof.
  intros Hb a Ha. destruct (lookup_lt_is_Some_2 bs (Z.to_nat (a - p))) as [b Hlk]; [lia|].
  apply (bytes_at_lookup m p) in Hlk; [|done].
  replace (p + Z.of_nat (Z.to_nat (a - p))) with a in Hlk by lia. by eexists.
Qed.

(** Writes outside a range leave it alone. *)
Lemma bytes_at_insert_ne m p bs a b :
  bytes_at m p bs -> a < p \/ p + Z.of_nat (length bs) <= a -> bytes_at (<[a := b]> m) p bs.
Proof.
  revert p. induction bs as [|c bs IH]; intros p; simpl; [done|].
  intros [Hc Hbs] Ha. split; [by rewrite lookup_insert_ne by lia|].
  apply IH; [done|lia].
Qed.

Lemma write_at_lookup m p bs a :
  write_at m p bs !! a =
  if decide (p <= a < p + Z.of_nat (length bs)) then bs !! Z.to_nat (a - p) else m !! a.
Proof.
  revert p. induction bs as [|b bs IH]; intros p; simpl.
  - by rewrite decide_False by lia.
  - destruct (decide (a = p)) as [->|Hne].
    + rewrite lookup_insert_eq, decide_True by lia. by rewrite Z.sub_diag.
    + rewrite lookup_insert_ne, IH by done. case_decide as H1; case_decide as H2; try lia; [|done].
      replace (Z.to_nat (a - p)) with (S (Z.to_nat (a - (p + 1)))) by lia. done.
Qed.

Lemma bytes_at_intro m p bs :
  (forall i b, bs !! i = Some b -> m !! (p + Z.of_nat i) = Some b) -> bytes_at m p bs.
Proof.
  revert p. induction bs as [|b bs IH]; intros p Hb; simpl; [done|]. split.
  - rewrite <- (Z.add_0_r p). by apply (Hb 0%nat).
  - apply IH. intros i c Hi. replace (p + 1 + Z.of_nat i) with (p + Z.of_nat (S i)) by lia.
    by apply Hb.
Qed.

Lemma write_at_bytes m p bs : bytes_at (write_at m p bs) p bs.
Proof.
  apply bytes_at_intro. intros i b Hi. pose proof (lookup_lt_Some _ _ _ Hi).
  rewrite write_at_lookup, decide_True by lia. rewrite <- Hi. f_equal. lia.
Qed.

Lemma owned_write_at m p bs q n : owned m q n -> owned (write_at m p bs) q n.
Proof.
  intros Ho a Ha. rewrite write_at_lookup. case_decide; [|by apply Ho].
  apply lookup_lt_is_Some_2. lia.
Qed.

Lemma write_at_snoc m p bs b :
  write_at m p (bs ++ [b]) = <[p + Z.of_nat (length bs) := b]> (write_at m p bs).
Proof.
  apply map_eq. intros a. rewrite write_at_lookup, length_app. simpl.
  destruct (decide (a = p + Z.of_nat (length bs))) as [->|Hne].
  - rewrite lookup_insert_eq, decide_True by lia.
    replace (Z.to_nat _) with (length bs) by lia. by apply list_lookup_middle.
  - rewrite lookup_insert_ne, write_at_lookup by done.
    case_decide; case_decide; try lia; [|done]. by rewrite lookup_app_l by lia.
Qed.

(** ** C strings *)

(** [str] is stored at [p], followed by a null byte. *)
Definition cstr (m : mem) (p : Z) (str : list Z) : Prop :=
  bytes_at m p (str ++ [0]) /\ 0 ∉ str.

Lemma cstr_cons m p c str : cstr m p (c :: str) -> c <> 0 /\ m !! p = Some c /\ cstr m (p + 1) str.
Proof.
  intros [[Hc Hb] Hn]. rewrite not_elem_of_cons in Hn. split; [by destruct Hn|].
  split; [done|]. split; [done|]. by destruct Hn.
Qed.

Lemma cstr_nil m p : cstr m p [] -> m !! p = Some 0.
Proof. by intros [[H _] _]. Qed.

(** Deciding it, for concrete memories. *)
Definition cstr_b (m : mem) (p : Z) (s : list Z) : bool :=
  forallb (fun i => bool_decide (m !! (p + Z.of_nat i) = (s ++ [0]) !! i)) (seq 0 (S (length s))) && bool_decide (0 ∉ s).

Lemma cstr_b_ok m p s : cstr_b m p s = true -> cstr m p s.
Proof.
  unfold cstr_b. rewrite andb_true_iff, forallb_forall, bool_decide_eq_true. intros [Hb Hn]. split; [|done].
  apply bytes_at_intro. intros i b Hi. specialize (Hb i). rewrite bool_decide_eq_true in Hb. rewrite Hb; [done|].
  apply in_seq. apply lookup_lt_Some in Hi. rewrite length_app in Hi. cbn [length] in Hi. lia.
Qed.
