(* ===== verification/Sort.v ===== *)
(** * Sorting, searching, number parsing

    Models lib/stdlib.c: heap sort ([sort], [qsort]), binary search and
    [atoi].  An array of [cnt] elements of [size] bytes is the list of its
    elements, [compare] a function on elements; [do_swap] exchanges two
    elements byte by byte, here as wholes. *)

From stdpp Require Import sorting.
From S2P Require Import Prelude Mem Ctype.

Section sort.
Context {A : Type} `{Inhabited A} (compare : A -> A -> Z).

(** ** Definitions *)

Definition do_swap (a : list A) (a_idx b_idx : Z) : res (list A) :=
x ← arr_get a (a_idx - 1);
y ← arr_get a (b_idx - 1);
a ← arr_set a (a_idx - 1) y;
arr_set a (b_idx - 1) x.

Definition do_compare (a : list A) (a_idx b_idx : Z) : res Z :=
x ← arr_get a (a_idx - 1);
y ← arr_get a (b_idx - 1);
Ok (compare x y).

(** [idx <= cnt && do_compare (idx, max) > 0 ? idx : max] *)
Definition larger (a : list A) (cnt idx max : Z) : res Z :=
if idx <=? cnt then
  c ← do_compare a idx max;
  Ok (if 0 <? c then idx else max)
else Ok max.

Fixpoint heapify (fuel : nat) (a : list A) (i cnt : Z) : res (list A) :=
match fuel with
| O => Fail NoFuel
| S fuel =>
    let left := u32 (2 * i) in
    let right := u32 (2 * i + 1) in
    max ← larger a cnt left i;
    max ← larger a cnt right max;
    if max =? i then Ok a
    else a ← do_swap a i max; heapify fuel a max cnt
end.

(** [for (i = n; i > 0; i--)] *)
Fixpoint build_loop (n : nat) (fuel : nat) (a : list A) (cnt : Z) : res (list A) :=
match n with
| O => Ok a
| S n' => a ← heapify fuel a (Z.of_nat n) cnt; build_loop n' fuel a cnt
end.

(** [for (i = n + 1; i > 1; i--)] *)
Fixpoint sort_loop (n : nat) (fuel : nat) (a : list A) : res (list A) :=
match n with
| O => Ok a
| S n' =>
    a ← do_swap a 1 (Z.of_nat (S n));
    a ← heapify fuel a 1 (Z.of_nat n);
    sort_loop n' fuel a
end.

Definition sort (fuel : nat) (a : list A) : res (list A) :=
let cnt := Z.of_nat (length a) in
a ← build_loop (Z.to_nat (cnt / 2)) fuel a cnt;
sort_loop (length a - 1) fuel a.

(** Indices stand for [first], [last] and [middle]; [None] is a null pointer. *)
Fixpoint binary_search_loop (fuel : nat) (key : A) (a : list A) (first last : Z)
  : res (option Z) :=
match fuel with
| O => Fail NoFuel
| S fuel =>
    if first <? last then
      let range := last - first in
      let middle := first + range / 2 in
      x ← arr_get a middle;
      let cmp := compare key x in
      if cmp <? 0 then binary_search_loop fuel key a first middle
      else if 0 <? cmp then binary_search_loop fuel key a (middle + 1) last
      else Ok (Some middle)
    else Ok None
end.

Definition binary_search (fuel : nat) (key : A) (a : list A) : res (option Z) :=
binary_search_loop fuel key a 0 (Z.of_nat (length a)).

(** ** What [compare] must satisfy *)

Definition le (x y : A) : Prop := compare x y <= 0.

Hypothesis compare_sym : forall x y, 0 < compare x y <-> compare y x < 0.
Hypothesis le_trans : forall x y z, le x y -> le y z -> le x z.

Lemma le_refl x : le x x.
Proof. unfold le. destruct (Z.le_gt_cases (compare x x) 0); [done|]. apply compare_sym in H0 as ?. lia. Qed.

Lemma le_total x y : 0 < compare x y -> le y x.
Proof. intros Hc. apply compare_sym in Hc. unfold le. lia. Qed.

(** ** Elements by 1-based index *)

Abbreviation el a k := (a !!! Z.to_nat (k - 1)).

Lemma arr_get_el (a : list A) k :
1 <= k <= Z.of_nat (length a) -> arr_get a (k - 1) = Ok (el a k).
Proof.
intros Hk. apply arr_get_Ok. split; [lia|]. apply list_lookup_lookup_total_lt. lia.
Qed.

Definition swapped (a : list A) (i j : Z) : list A :=
<[Z.to_nat (j - 1) := el a i]> (<[Z.to_nat (i - 1) := el a j]> a).

Lemma do_swap_spec a i j :
1 <= i <= Z.of_nat (length a) -> 1 <= j <= Z.of_nat (length a) ->
do_swap a i j = Ok (swapped a i j).
Proof.
intros Hi Hj. unfold do_swap. rewrite !arr_get_el by done. cbn [mbind res_bind].
rewrite arr_set_ok by lia. cbn [mbind res_bind].
by rewrite arr_set_ok by (rewrite length_insert; lia).
Qed.

Lemma swapped_perm a i j :
1 <= i <= Z.of_nat (length a) -> 1 <= j <= Z.of_nat (length a) -> swapped a i j ≡ₚ a.
Proof.
intros Hi Hj. apply insert_swap_perm; apply list_lookup_lookup_total_lt; lia.
Qed.

Lemma swapped_length a i j : length (swapped a i j) = length a.
Proof. unfold swapped. by rewrite !length_insert. Qed.

Lemma swapped_el a i j k :
1 <= i <= Z.of_nat (length a) -> 1 <= j <= Z.of_nat (length a) -> 1 <= k ->
el (swapped a i j) k = if decide (k = j) then el a i else if decide (k = i) then el a j else el a k.
Proof.
intros Hi Hj Hk. unfold swapped. case_decide as Hkj; [subst k|].
- apply list_lookup_total_insert_eq. rewrite length_insert. lia.
- rewrite list_lookup_total_insert_ne by lia. case_decide as Hki; [subst k|].
  + apply list_lookup_total_insert_eq. lia.
  + by rewrite list_lookup_total_insert_ne by lia.
Qed.

(** ** Heaps *)

(** Node [k] is at least its children among the first [cnt] elements. *)
Definition node_ok (a : list A) (cnt k : Z) : Prop :=
forall c, c = 2 * k \/ c = 2 * k + 1 -> c <= cnt -> le (el a c) (el a k).

Definition heap (a : list A) (lo cnt : Z) : Prop :=
forall k, lo <= k -> node_ok a cnt k.

(** A heap except that node [i] may be too small. *)
Definition heap_but (a : list A) (lo cnt i : Z) : Prop :=
(forall k, lo <= k -> k <> i -> node_ok a cnt k) /\
(forall p c, lo <= p -> i = 2 * p \/ i = 2 * p + 1 ->
   c = 2 * i \/ c = 2 * i + 1 -> c <= cnt -> le (el a c) (el a p)).

Lemma larger_spec a cnt idx mx :
cnt <= Z.of_nat (length a) -> 1 <= idx -> 1 <= mx <= cnt ->
exists r, larger a cnt idx mx = Ok r /\ 1 <= r <= cnt /\ (r = mx \/ r = idx) /\
  le (el a mx) (el a r) /\ (idx <= cnt -> le (el a idx) (el a r)).
Proof.
intros Hlen Hidx Hmx. unfold larger. destruct (Z.leb_spec idx cnt).
- unfold do_compare. rewrite !arr_get_el by lia. cbn [mbind res_bind].
  destruct (Z.ltb_spec 0 (compare (el a idx) (el a mx))) as [Hc|Hc]; eexists; (split; [done|]).
  + split; [lia|]. split; [by right|]. split; [by apply le_total|]. intros _. apply le_refl.
  + split; [lia|]. split; [by left|]. split; [apply le_refl|]. done.
- exists mx. split; [done|]. split; [lia|]. split; [by left|]. split; [apply le_refl|lia].
Qed.

Lemma heap_but_done a lo cnt i : heap_but a lo cnt i -> node_ok a cnt i -> heap a lo cnt.
Proof.
intros [Hb _] Hi k Hk. destruct (decide (k = i)) as [->|]; [done|]. by apply Hb.
Qed.

Lemma heap_but_step a lo cnt i r :
1 <= lo <= i -> cnt <= Z.of_nat (length a) -> r <= cnt ->
heap_but a lo cnt i -> r = 2 * i \/ r = 2 * i + 1 -> le (el a i) (el a r) ->
(forall c, c = 2 * i \/ c = 2 * i + 1 -> c <= cnt -> le (el a c) (el a r)) ->
heap_but (swapped a i r) lo cnt r.
Proof.
intros Hlo Hlen Hr [Hb Hp] Hri Hir Hmax. split.
- intros k Hk Hkr c Hc Hcc. rewrite !swapped_el by lia.
  destruct (decide (k = r)); [lia|]. destruct (decide (k = i)) as [->|Hki].
  + destruct (decide (c = r)); [done|]. rewrite decide_False by lia. by apply Hmax.
  + destruct (decide (c = r)); [lia|]. destruct (decide (c = i)) as [->|].
    * by apply (Hp k r).
    * by apply (Hb k).
- intros p c Hpl Hpr Hc Hcc. rewrite !swapped_el by lia.
  assert (p = i) as -> by lia. rewrite !decide_False by lia.
  rewrite (decide_True (P := i = i)) by done. apply (Hb r); lia.
Qed.

Lemma heapify_spec fuel a lo i cnt :
1 <= lo <= i -> i <= cnt -> cnt <= Z.of_nat (length a) -> cnt < 2 ^ 31 - 1 ->
cnt - i < Z.of_nat fuel -> heap_but a lo cnt i ->
exists a', heapify fuel a i cnt = Ok a' /\ a' ≡ₚ a /\ heap a' lo cnt /\
  (forall k, cnt < k -> el a' k = el a k) /\
  (forall P : A -> Prop, (forall k, 1 <= k <= cnt -> P (el a k)) ->
     forall k, 1 <= k <= cnt -> P (el a' k)).
Proof.
revert a i. induction fuel as [|fuel IH]; intros a i Hlo Hi Hlen Hsz Hf Hb; [lia|].
cbn [heapify]. cbv zeta. rewrite !u32_small by lia.
destruct (larger_spec a cnt (2 * i) i) as (m1 & -> & Hm1 & Hm1' & Hge1 & Hl1); [lia..|].
cbn [mbind res_bind].
destruct (larger_spec a cnt (2 * i + 1) m1) as (m2 & -> & Hm2 & Hm2' & Hge2 & Hl2); [lia..|].
cbn [mbind res_bind].
assert (le (el a i) (el a m2)) as Hii by (by eapply le_trans).
assert (forall c, c = 2 * i \/ c = 2 * i + 1 -> c <= cnt -> le (el a c) (el a m2)) as Hmax.
{ intros c [-> | ->] Hc; [|by apply Hl2]. eapply le_trans; [by apply Hl1|done]. }
destruct (Z.eqb_spec m2 i) as [->|Hne].
- exists a. split_and!; try done. apply (heap_but_done _ _ _ i); [done|]. exact Hmax.
- rewrite do_swap_spec by lia. cbn [mbind res_bind].
  assert (m2 = 2 * i \/ m2 = 2 * i + 1) as Hm by lia.
  destruct (IH (swapped a i m2) m2) as (a' & -> & Hperm & Hheap & Hsame & HP);
    [lia|lia|rewrite swapped_length; lia|lia|lia|by apply heap_but_step; try lia|].
  exists a'. split_and!; try done.
  + rewrite Hperm. apply swapped_perm; lia.
  + intros k Hk. rewrite Hsame, swapped_el by lia. by rewrite !decide_False by lia.
  + intros P HPa k Hk. apply HP; [|done]. intros k' Hk'. rewrite swapped_el by lia.
    repeat case_decide; apply HPa; lia.
Qed.

Lemma heap_but_of_heap a i cnt : 1 <= i -> heap a (i + 1) cnt -> heap_but a i cnt i.
Proof.
intros Hi Hh. split.
- intros k Hk Hne. apply Hh. lia.
- intros p c Hp Hip. lia.
Qed.

Lemma build_loop_spec n fuel a cnt :
cnt = Z.of_nat (length a) -> cnt < 2 ^ 31 - 1 -> Z.of_nat n <= cnt -> cnt <= Z.of_nat fuel ->
heap a (Z.of_nat n + 1) cnt ->
exists a', build_loop n fuel a cnt = Ok a' /\ a' ≡ₚ a /\ heap a' 1 cnt.
Proof.
revert a. induction n as [|n IH]; intros a Hc Hsz Hn Hf Hh; [by exists a|].
cbn [build_loop].
destruct (heapify_spec fuel a (Z.of_nat (S n)) (Z.of_nat (S n)) cnt)
  as (a1 & -> & Hp1 & Hh1 & _); [lia..|by apply heap_but_of_heap; [lia|]|].
cbn [mbind res_bind].
destruct (IH a1) as (a2 & -> & Hp2 & Hh2); [by rewrite Hp1|lia..| |].
- by replace (Z.of_nat n + 1) with (Z.of_nat (S n)) by lia.
- exists a2. split_and!; [done| |done]. by rewrite Hp2.
Qed.

(** The root of a heap is its maximum. *)
Lemma heap_root a cnt k : heap a 1 cnt -> 1 <= k <= cnt -> le (el a k) (el a 1).
Proof.
intros Hh. induction (Z.lt_wf 0 k) as [k _ IH]. intros Hk.
destruct (decide (k = 1)) as [->|]; [apply le_refl|].
assert (1 <= k / 2 < k) by zlia. eapply le_trans; [|apply (IH (k / 2)); lia].
apply (Hh (k / 2)); [lia| |lia]. zlia.
Qed.

(** The last [cnt - n] elements are in place. *)
Definition tail_sorted (a : list A) (n cnt : Z) : Prop :=
(forall j k, n < j -> j <= k -> k <= cnt -> le (el a j) (el a k)) /\
(forall j k, 1 <= j <= n -> n < k <= cnt -> le (el a j) (el a k)).

Lemma heapsort_loop_spec n fuel a :
Z.of_nat (length a) < 2 ^ 31 - 1 -> Z.of_nat (length a) <= Z.of_nat fuel ->
(S n <= length a)%nat -> heap a 1 (Z.of_nat (S n)) ->
tail_sorted a (Z.of_nat (S n)) (Z.of_nat (length a)) ->
exists a', sort_loop n fuel a = Ok a' /\ a' ≡ₚ a /\
  forall j k, 1 <= j -> j <= k -> k <= Z.of_nat (length a) -> le (el a' j) (el a' k).
Proof.
revert a. induction n as [|n IH]; intros a Hsz Hf Hn Hh [Ht1 Ht2].
{ exists a. split_and!; try done. intros j k Hj Hjk Hk.
  destruct (decide (j = 1)) as [->|]; [|apply Ht1; lia].
  destruct (decide (k = 1)) as [->|]; [apply le_refl|]. apply Ht2; lia. }
cbn [sort_loop]. set (i := Z.of_nat (S (S n))) in *. set (cnt := Z.of_nat (length a)) in *.
rewrite do_swap_spec by lia. cbn [mbind res_bind]. set (b := swapped a 1 i).
assert (length b = length a) as Hlb by apply swapped_length.
assert (forall k, 1 <= k -> el b k =
  if decide (k = i) then el a 1 else if decide (k = 1) then el a i else el a k) as Hel.
{ intros k Hk. apply swapped_el; lia. }
assert (tail_sorted b (Z.of_nat (S n)) cnt) as [Hb1 Hb2].
{ split.
  - intros j k Hj Hjk Hk. rewrite !Hel by lia. rewrite !(decide_False (P := _ = 1)) by lia.
    destruct (decide (j = i)) as [->|]; destruct (decide (k = i)) as [->|].
    + apply le_refl.
    + apply Ht2; lia.
    + lia.
    + apply Ht1; lia.
  - intros j k Hj Hk. rewrite !Hel by lia. rewrite (decide_False (P := j = i)) by lia.
    rewrite (decide_False (P := k = 1)) by lia.
    destruct (decide (k = i)) as [->|].
    + case_decide; apply (heap_root a i); (done || lia).
    + case_decide; apply Ht2; lia. }
destruct (heapify_spec fuel b 1 1 (Z.of_nat (S n))) as (c & -> & Hpc & Hhc & Hsame & HP);
  [lia|lia|lia|lia|lia| |].
{ apply heap_but_of_heap; [lia|]. intros k Hk c Hc Hcn. rewrite !Hel by lia.
  rewrite !decide_False by lia. apply Hh; lia. }
cbn [mbind res_bind].
assert (length c = length a) as Hlc by (by rewrite Hpc).
destruct (IH c) as (a' & -> & Hpa & Hs); [lia|lia|lia|done| |].
- rewrite Hlc. fold cnt. split.
  + intros j k Hj Hjk Hk. rewrite !Hsame by lia. by apply Hb1.
  + intros j k Hj Hk. rewrite (Hsame k) by lia.
    apply (HP (fun x => le x (el b k))); [|done]. intros j' Hj'. by apply Hb2.
- exists a'. split; [done|]. split.
  + rewrite Hpa, Hpc. apply swapped_perm; lia.
  + by rewrite Hlc in Hs.
Qed.

Lemma sort_total fuel a :
Z.of_nat (length a) < 2 ^ 31 - 1 -> (length a <= fuel)%nat ->
exists a', sort fuel a = Ok a' /\ a' ≡ₚ a /\ StronglySorted le a'.
Proof.
intros Hsz Hf. unfold sort. cbv zeta.
destruct (build_loop_spec (Z.to_nat (Z.of_nat (length a) / 2)) fuel a (Z.of_nat (length a)))
  as (b & -> & Hpb & Hhb); [done|done|zlia|lia| |].
{ intros k Hk c Hc Hcc. exfalso. zlia. }
cbn [mbind res_bind]. assert (length b = length a) as Hlb by (by rewrite Hpb).
destruct (decide (length b = 0)%nat) as [H0|H0].
{ exists b. rewrite H0. split; [done|]. split; [done|].
  apply nil_length_inv in H0 as ->. constructor. }
destruct (heapsort_loop_spec (length b - 1) fuel b) as (a' & -> & Hpa & Hs); [lia|lia|lia| | |].
- by replace (Z.of_nat (S (length b - 1))) with (Z.of_nat (length a)) by lia.
- split; intros; lia.
- exists a'. split; [done|]. split; [by rewrite Hpa|].
  assert (length a' = length b) as Hla by (by rewrite Hpa).
  clear -Hs Hla. revert Hs. rewrite <- Hla. clear Hla.
  induction a' as [|x a' IH]; intros Hs; constructor.
  + apply IH. intros j k Hj Hjk Hk. specialize (Hs (j + 1) (k + 1)).
    replace (Z.to_nat (j + 1 - 1)) with (S (Z.to_nat (j - 1))) in Hs by lia.
    replace (Z.to_nat (k + 1 - 1)) with (S (Z.to_nat (k - 1))) in Hs by lia.
    apply Hs; simpl in *; lia.
  + apply Forall_forall. intros y [k Hk]%list_elem_of_lookup.
    pose proof (lookup_lt_Some _ _ _ Hk). specialize (Hs 1 (Z.of_nat (S (S k)))).
    replace (Z.to_nat (Z.of_nat (S (S k)) - 1)) with (S k) in Hs by lia.
    simpl in Hs. rewrite (list_lookup_total_correct _ _ _ Hk) in Hs. apply Hs; lia.
Qed.

(** ** Binary search *)

Lemma cmp_lt_trans k x y : compare k x < 0 -> le x y -> compare k y < 0.
Proof.
intros Hkx Hxy. destruct (Z.lt_ge_cases (compare k y) 0) as [|Hge]; [done|]. exfalso.
assert (le y k) as Hyk.
{ destruct (Z.eq_dec (compare k y) 0) as [E|]; [|apply le_total; lia].
  unfold le. destruct (Z.le_gt_cases (compare y k) 0); [done|].
  assert (compare k y < 0) by (by apply compare_sym). lia. }
assert (le x k) as Hxk by (by eapply le_trans).
apply compare_sym in Hkx. unfold le in Hxk. lia.
Qed.

Lemma cmp_gt_trans k x y : 0 < compare k y -> le x y -> 0 < compare k x.
Proof.
intros Hky Hxy. destruct (Z.le_gt_cases (compare k x) 0) as [Hle|]; [|done]. exfalso.
assert (le k y) as Hl by (by eapply le_trans). unfold le in Hl. lia.
Qed.

Lemma sorted_lookup a i j x y :
StronglySorted le a -> (i <= j)%nat -> a !! i = Some x -> a !! j = Some y -> le x y.
Proof.
intros Hs. revert i j. induction Hs as [|z a Hs IH Hz]; intros i j Hij Hi Hj; [done|].
destruct i as [|i], j as [|j]; simplify_eq/=.
- apply le_refl.
- rewrite Forall_forall in Hz. apply Hz. by eapply list_elem_of_lookup_2.
- lia.
- eapply IH; [|done..]. lia.
Qed.

Lemma binary_search_loop_spec fuel key a first last :
StronglySorted le a -> 0 <= first <= last -> last <= Z.of_nat (length a) ->
last - first < Z.of_nat fuel ->
(forall i x, a !! i = Some x -> compare key x = 0 -> first <= Z.of_nat i < last) ->
exists r, binary_search_loop fuel key a first last = Ok r /\
  match r with
  | Some m => exists x, arr_get a m = Ok x /\ compare key x = 0
  | None => forall x, x ∈ a -> compare key x <> 0
  end.
Proof.
intros Hs. revert first last. induction fuel as [|fuel IH]; intros first last Hf Hl Hfu Hin.
{ lia. }
cbn [binary_search_loop]. destruct (Z.ltb_spec first last) as [Hlt|Hge].
2: { exists None. split; [done|]. intros x [i Hx]%list_elem_of_lookup Hc.
     specialize (Hin i x Hx Hc). lia. }
cbv zeta. set (middle := first + (last - first) / 2).
assert (first <= middle < last) as Hm by (unfold middle; zlia).
destruct (arr_get_ok a middle) as [x Hx]; [lia|]. rewrite Hx. cbn [mbind res_bind].
apply arr_get_Ok in Hx as Hx'. destruct Hx' as [_ Hlk].
destruct (Z.ltb_spec (compare key x) 0) as [Hc|Hc].
{ apply IH; [lia..|]. intros i y Hy Hcy. specialize (Hin i y Hy Hcy) as Hr. split; [lia|].
  destruct (Z.lt_ge_cases (Z.of_nat i) middle) as [|Hi]; [done|]. exfalso.
  assert (compare key y < 0); [|lia]. eapply cmp_lt_trans; [done|].
  eapply (sorted_lookup a (Z.to_nat middle) i); [done|lia|done|done]. }
destruct (Z.ltb_spec 0 (compare key x)) as [Hc'|Hc'].
{ apply IH; [lia..|]. intros i y Hy Hcy. specialize (Hin i y Hy Hcy) as Hr. split; [|lia].
  destruct (Z.lt_ge_cases middle (Z.of_nat i)) as [|Hi]; [lia|]. exfalso.
  assert (0 < compare key y); [|lia]. eapply cmp_gt_trans; [done|].
  eapply (sorted_lookup a i (Z.to_nat middle)); [done|lia|done|done]. }
exists (Some middle). split; [done|]. exists x. split; [done|lia].
Qed.
End sort.

(** ** ctype.h and [atoi] *)

Fixpoint skip_space (fuel : nat) (m : mem) (s : Z) : res Z :=
  match fuel with
  | O => Fail NoFuel
  | S fuel => c ← load m s; if isspace c then skip_space fuel m (s + 1) else Ok s
  end.

Fixpoint digits_loop (fuel : nat) (m : mem) (s value : Z) : res Z :=
  match fuel with
  | O => Fail NoFuel
  | S fuel =>
      c ← load m s;
      if isdigit c then digits_loop fuel m (s + 1) (s32 (value * 10 - (c - 48)))
      else Ok value
  end.

Definition atoi (fuel : nat) (m : mem) (s : Z) : res Z :=
  ASSERT (negb (s =? 0));;
  s ← skip_space fuel m s;
  c ← load m s;
  let '(negative, s) :=
    if c =? 43 then (false, s + 1) else if c =? 45 then (true, s + 1) else (false, s) in
  value ← digits_loop fuel m s 0;
  Ok (if negative then value else s32 (- value)).

Definition dec_value (ds : list Z) : Z := foldl (fun v d => v * 10 + d) 0 ds.

Lemma foldl_digits_ge ds w :
  Forall (fun d => 0 <= d <= 9) ds -> 0 <= w ->
  w <= foldl (fun v d => v * 10 + d) w ds.
Proof.
  intros Hd. revert w. induction Hd as [|e ds He _ IH]; intros w Hw; simpl; [lia|].
  etrans; [|apply IH; lia]. lia.
Qed.

Lemma digits_loop_spec fuel m s v ds c0 rest :
  bytes_at m s (((fun d => 48 + d) <$> ds) ++ c0 :: rest) -> isdigit c0 = false ->
  Forall (fun d => 0 <= d <= 9) ds -> (length ds < fuel)%nat -> 0 <= v ->
  foldl (fun v d => v * 10 + d) v ds <= 2 ^ 31 ->
  digits_loop fuel m s (- v) = Ok (- foldl (fun v d => v * 10 + d) v ds).
Proof.
  intros Hb Hc0 Hds. revert fuel s v Hb. induction Hds as [|d ds Hd Hds IH];
    intros [|fuel] s v Hb Hf Hv Hmax; simpl in Hf; try lia; destruct Hb as [Hc Hb]; cbn [digits_loop].
  - rewrite (load_Ok _ _ _ Hc). simpl. by rewrite Hc0.
  - rewrite (load_Ok _ _ _ Hc). cbn [mbind res_bind].
    assert (isdigit (48 + d) = true) as ->.
    { unfold isdigit. apply andb_true_iff. split; apply Z.leb_le; lia. }
    simpl in Hmax.
    pose proof (foldl_digits_ge ds (v * 10 + d) Hds ltac:(lia)).
    replace (- v * 10 - (48 + d - 48)) with (- (v * 10 + d)) by lia.
    rewrite s32_small by lia. apply IH; [done|lia|lia|done].
Qed.

Lemma skip_space_spec fuel m s sp c0 rest :
  bytes_at m s (sp ++ c0 :: rest) -> Forall (fun c => isspace c = true) sp ->
  isspace c0 = false -> (length sp < fuel)%nat ->
  skip_space fuel m s = Ok (s + Z.of_nat (length sp)).
Proof.
  intros Hb Hsp Hc0. revert fuel s Hb. induction Hsp as [|c sp Hc Hsp IH];
    intros [|fuel] s Hb Hf; simpl in Hf; try lia; destruct Hb as [Hl Hb]; cbn [skip_space].
  - rewrite (load_Ok _ _ _ Hl). simpl. rewrite Hc0. f_equal. lia.
  - rewrite (load_Ok _ _ _ Hl). simpl. rewrite Hc, IH by (try done; lia). f_equal.
    cbn [length]. lia.
Qed.

(** ** Properties *)

(** C13. Heap sort: for any comparison that is a total preorder, [sort]
    terminates on every array of fewer than 2^31 - 1 elements, stays within
    its bounds, and leaves a sorted permutation of the input. *)
Theorem sort_correct {A} `{Inhabited A} (compare : A -> A -> Z) fuel a :
  (forall x y, 0 < compare x y <-> compare y x < 0) ->
  (forall x y z, compare x y <= 0 -> compare y z <= 0 -> compare x z <= 0) ->
  Z.of_nat (length a) < 2 ^ 31 - 1 -> (length a <= fuel)%nat ->
  exists a', sort compare fuel a = Ok a' /\ a' ≡ₚ a /\
    StronglySorted (fun x y => compare x y <= 0) a'.
Proof. intros Hsym Htr Hsz Hf. by apply sort_total. Qed.

(** Binary search: on a sorted array [binary_search] terminates, a
    non-null result is an element equal to the key, and a null result means
    that there is none. *)
Theorem binary_search_correct {A} (compare : A -> A -> Z) fuel key a :
  (forall x y, 0 < compare x y <-> compare y x < 0) ->
  (forall x y z, compare x y <= 0 -> compare y z <= 0 -> compare x z <= 0) ->
  StronglySorted (fun x y => compare x y <= 0) a -> (length a < fuel)%nat ->
  exists r, binary_search compare fuel key a = Ok r /\
    match r with
    | Some m => exists x, arr_get a m = Ok x /\ compare key x = 0
    | None => forall x, x ∈ a -> compare key x <> 0
    end.
Proof.
  intros Hsym Htr Hs Hf. apply binary_search_loop_spec; try done; try lia.
  intros i x Hx _. apply lookup_lt_Some in Hx. lia.
Qed.

(** [atoi] on white space, an optional sign, decimal digits and a
    non-digit returns the signed value, for every value an [int] can hold,
    the least one included (it accumulates the negated value). *)
Lemma atoi_correct fuel m s sp sign ds c0 rest :
  s <> 0 -> Forall (fun c => isspace c = true) sp -> Forall (fun d => 0 <= d <= 9) ds ->
  ds <> [] -> isdigit c0 = false -> sign ∈ [[]; [43]; [45]] ->
  bytes_at m s (sp ++ sign ++ ((fun d => 48 + d) <$> ds) ++ c0 :: rest) ->
  (length sp + length ds < fuel)%nat ->
  dec_value ds <= (if decide (sign = [45]) then 2 ^ 31 else 2 ^ 31 - 1) ->
  atoi fuel m s = Ok (if decide (sign = [45]) then - dec_value ds else dec_value ds).
Proof.
  intros Hs0 Hsp Hds Hne Hc0 Hsign Hb Hf Hmax. unfold atoi.
  rewrite bind_ASSERT by (by apply negb_true_iff, Z.eqb_neq).
  pose proof (foldl_digits_ge ds 0 Hds ltac:(lia)) as Hnn. fold (dec_value ds) in Hnn.
  assert (forall p, bytes_at m p (((fun d => 48 + d) <$> ds) ++ c0 :: rest) ->
    digits_loop fuel m p 0 = Ok (- dec_value ds)) as Hdig.
  { intros p Hp. apply (digits_loop_spec fuel m p 0 ds c0 rest); try done; [lia|].
    fold (dec_value ds). case_decide; lia. }
  destruct ds as [|d ds']; [done|]. inversion Hds as [|? ? Hd Hds']; subst.
  assert (forall c, c = 43 \/ c = 45 \/ 48 <= c <= 57 -> isspace c = false) as Hnsp.
  { intros c Hc. unfold isspace. rewrite !orb_false_iff, !Z.eqb_neq. lia. }
  set (ds := d :: ds') in *.
  rewrite !elem_of_cons, elem_of_nil in Hsign.
  destruct Hsign as [->|[->|[->|[]]]]; simpl in Hb.
  - rewrite (skip_space_spec fuel m s sp (48 + d) (((fun d => 48 + d) <$> ds') ++ c0 :: rest))
      by (first [done|apply Hnsp; lia|lia]).
    cbn [mbind res_bind]. apply bytes_at_app in Hb as [_ Hb].
    rewrite (load_Ok m _ (48 + d)) by apply Hb. cbn [mbind res_bind].
    rewrite !(proj2 (Z.eqb_neq (48 + d) _)) by lia. rewrite Hdig by exact Hb. cbn [mbind res_bind].
    rewrite decide_False in * by done. rewrite s32_small by lia. f_equal. lia.
  - rewrite (skip_space_spec fuel m s sp 43 (((fun d => 48 + d) <$> ds) ++ c0 :: rest))
      by (first [done|apply Hnsp; lia|lia]).
    cbn [mbind res_bind]. apply bytes_at_app in Hb as [_ [Hc Hb]].
    rewrite (load_Ok m _ 43) by exact Hc. cbn [mbind res_bind].
    change (43 =? 43) with true. cbv iota. rewrite Hdig by exact Hb. cbn [mbind res_bind].
    rewrite decide_False in * by done. rewrite s32_small by lia. f_equal. lia.
  - rewrite (skip_space_spec fuel m s sp 45 (((fun d => 48 + d) <$> ds) ++ c0 :: rest))
      by (first [done|apply Hnsp; lia|lia]).
    cbn [mbind res_bind]. apply bytes_at_app in Hb as [_ [Hc Hb]].
    rewrite (load_Ok m _ 45) by exact Hc. cbn [mbind res_bind].
    change (45 =? 43) with false. change (45 =? 45) with true. cbv iota.
    rewrite Hdig by exact Hb. cbn [mbind res_bind]. by rewrite decide_True.
Qed.

(** *** Witnesses *)

Lemma sort_correct_witness :
  exists a', sort Z.sub 5 [3; 1; 2; 3; 0] = Ok a' /\ a' ≡ₚ [3; 1; 2; 3; 0] /\
    StronglySorted (fun x y => x - y <= 0) a'.
Proof. apply (sort_correct Z.sub 5 [3; 1; 2; 3; 0]); simpl; lia. Defined.

Lemma binary_search_correct_witness :
  exists r, binary_search Z.sub 6 7 [1; 3; 7; 9] = Ok r /\
    match r with
    | Some m => exists x, arr_get [1; 3; 7; 9] m = Ok x /\ 7 - x = 0
    | None => forall x, x ∈ [1; 3; 7; 9] -> 7 - x <> 0
    end.
Proof.
  apply (binary_search_correct Z.sub 6 7 [1; 3; 7; 9]); [lia..| |simpl; lia].
  repeat constructor; lia.
Defined.

(** " -2147483648" *)
Definition atoi_mem : mem := write_at ∅ 64 [32; 45; 50; 49; 52; 55; 52; 56; 51; 54; 52; 56; 0].

Example atoi_least : atoi 20 atoi_mem 64 = Ok (- 2 ^ 31).
Proof.
  apply (atoi_correct 20 atoi_mem 64 [32] [45] [2; 1; 4; 7; 4; 8; 3; 6; 4; 8] 0 []).
  - done.
  - repeat constructor.
  - repeat constructor; lia.
  - done.
  - done.
  - right. right. left.
  - vm_compute. tauto.
  - simpl; lia.
  - simpl. vm_compute. discriminate.
Qed.
