(* ===== verification/Str.v ===== *)
(** * Strings and memory blocks

    Models lib/string.c over the byte memory of [Mem].  Loops bounded by a
    size argument recurse on it; loops that run to a null byte take fuel,
    and every specification shows that fuel above the string's length is
    enough.  Specifications are in terms of the sequences stored in memory
    ([bytes_at], [cstr]). *)

From S2P Require Import Prelude Vaddr Mem.

(** ** Blocks *)

Fixpoint copy_up (n : nat) (m : mem) (dst src : Z) : res mem :=
  match n with
  | O => Ok m
  | S n => b ← load m src; m ← store m dst b; copy_up n m (dst + 1) (src + 1)
  end.

Fixpoint copy_down (n : nat) (m : mem) (dst src : Z) : res mem :=
  match n with
  | O => Ok m
  | S n => b ← load m (src - 1); m ← store m (dst - 1) b; copy_down n m (dst - 1) (src - 1)
  end.

Definition block_ok (p size : Z) : bool := negb (p =? NULL) || (size =? 0).

(** Both return the memory and the returned pointer. *)
Definition memcpy (m : mem) (dst src size : Z) : res (mem * Z) :=
  ASSERT (block_ok dst size);;
  ASSERT (block_ok src size);;
  m ← copy_up (Z.to_nat size) m dst src;
  Ok (m, dst).

Definition memmove (m : mem) (dst src size : Z) : res (mem * Z) :=
  ASSERT (block_ok dst size);;
  ASSERT (block_ok src size);;
  if dst <? src then
    m ← copy_up (Z.to_nat size) m dst src;
    Ok (m, dst + size)
  else
    m ← copy_down (Z.to_nat size) m (dst + size) (src + size);
    Ok (m, dst).

Fixpoint memcmp_loop (n : nat) (m : mem) (a b : Z) : res Z :=
  match n with
  | O => Ok 0
  | S n => x ← load m a; y ← load m b;
           if negb (x =? y) then Ok (if y <? x then 1 else -1)
           else memcmp_loop n m (a + 1) (b + 1)
  end.

Definition memcmp (m : mem) (a b size : Z) : res Z :=
  ASSERT (block_ok a size);;
  ASSERT (block_ok b size);;
  memcmp_loop (Z.to_nat size) m a b.

Fixpoint memchr_loop (n : nat) (m : mem) (block ch : Z) : res Z :=
  match n with
  | O => Ok NULL
  | S n => x ← load m block;
           if x =? ch then Ok block else memchr_loop n m (block + 1) ch
  end.

Definition memchr (m : mem) (block ch size : Z) : res Z :=
  ASSERT (block_ok block size);;
  memchr_loop (Z.to_nat size) m block (u8 ch).

Fixpoint memset_loop (n : nat) (m : mem) (dst value : Z) : res mem :=
  match n with
  | O => Ok m
  | S n => m ← store m dst value; memset_loop n m (dst + 1) value
  end.

Definition memset (m : mem) (dst value size : Z) : res (mem * Z) :=
  ASSERT (block_ok dst size);;
  m ← memset_loop (Z.to_nat size) m dst value;
  Ok (m, dst).

(** ** Strings *)

Fixpoint strcmp_loop (fuel : nat) (m : mem) (a b : Z) : res Z :=
  match fuel with
  | O => Fail NoFuel
  | S fuel =>
      x ← load m a; y ← load m b;
      if negb (x =? 0) && (x =? y) then strcmp_loop fuel m (a + 1) (b + 1)
      else Ok (if x <? y then -1 else if y <? x then 1 else 0)
  end.

Definition strcmp (fuel : nat) (m : mem) (a b : Z) : res Z :=
  ASSERT (negb (a =? NULL));;
  ASSERT (negb (b =? NULL));;
  strcmp_loop fuel m a b.

Fixpoint strchr_loop (fuel : nat) (m : mem) (string c : Z) : res Z :=
  match fuel with
  | O => Fail NoFuel
  | S fuel =>
      x ← load m string;
      if x =? c then Ok string
      else if x =? 0 then Ok NULL
      else strchr_loop fuel m (string + 1) c
  end.

Definition strchr (fuel : nat) (m : mem) (string c : Z) : res Z :=
  ASSERT (negb (string =? NULL));;
  strchr_loop fuel m string (u8 c).

(** [strcspn] and [strspn]: [in_set] tells them apart. *)
Fixpoint span_loop (fuel : nat) (m : mem) (string set length : Z) (in_set : bool) : res Z :=
  match fuel with
  | O => Fail NoFuel
  | S fuel' =>
      x ← load m (string + length);
      if x =? 0 then Ok length
      else
        r ← strchr fuel m set x;
        if Bool.eqb (negb (r =? NULL)) in_set then span_loop fuel' m string set (length + 1) in_set
        else Ok length
  end.

Definition strcspn (fuel : nat) (m : mem) (string stop : Z) : res Z :=
  span_loop fuel m string stop 0 false.
Definition strspn (fuel : nat) (m : mem) (string skip : Z) : res Z :=
  span_loop fuel m string skip 0 true.

Fixpoint strpbrk (fuel : nat) (m : mem) (string stop : Z) : res Z :=
  match fuel with
  | O => Fail NoFuel
  | S fuel' =>
      x ← load m string;
      if x =? 0 then Ok NULL
      else
        r ← strchr fuel m stop x;
        if negb (r =? NULL) then Ok string else strpbrk fuel' m (string + 1) stop
  end.

Fixpoint strrchr_loop (fuel : nat) (m : mem) (string c p : Z) : res Z :=
  match fuel with
  | O => Fail NoFuel
  | S fuel =>
      x ← load m string;
      if x =? 0 then Ok p
      else strrchr_loop fuel m (string + 1) c (if x =? c then string else p)
  end.

Definition strrchr (fuel : nat) (m : mem) (string c : Z) : res Z :=
  strrchr_loop fuel m string (u8 c) NULL.

Fixpoint strlen_loop (fuel : nat) (m : mem) (p : Z) : res Z :=
  match fuel with
  | O => Fail NoFuel
  | S fuel => x ← load m p; if x =? 0 then Ok p else strlen_loop fuel m (p + 1)
  end.

Definition strlen (fuel : nat) (m : mem) (string : Z) : res Z :=
  ASSERT (negb (string =? NULL));;
  p ← strlen_loop fuel m string;
  Ok (p - string).

Fixpoint strnlen_loop (fuel : nat) (m : mem) (string maxlen length : Z) : res Z :=
  match fuel with
  | O => Fail NoFuel
  | S fuel =>
      x ← load m (string + length);
      if x =? 0 then Ok length
      else if length <? maxlen then strnlen_loop fuel m string maxlen (length + 1)
      else Ok length
  end.

Definition strnlen (fuel : nat) (m : mem) (string maxlen : Z) : res Z :=
  strnlen_loop fuel m string maxlen 0.

Fixpoint strstr_loop (n : nat) (m : mem) (haystack needle needle_len i : Z) : res Z :=
  match n with
  | O => Ok NULL
  | S n => r ← memcmp m (haystack + i) needle needle_len;
           if r =? 0 then Ok (haystack + i)
           else strstr_loop n m haystack needle needle_len (i + 1)
  end.

Definition strstr (fuel : nat) (m : mem) (haystack needle : Z) : res Z :=
  haystack_len ← strlen fuel m haystack;
  needle_len ← strlen fuel m needle;
  if needle_len <=? haystack_len then
    strstr_loop (Z.to_nat (haystack_len - needle_len + 1)) m haystack needle needle_len 0
  else Ok NULL.

Definition strlcpy (fuel : nat) (m : mem) (dst src size : Z) : res (mem * Z) :=
  ASSERT (negb (dst =? NULL));;
  ASSERT (negb (src =? NULL));;
  src_len ← strlen fuel m src;
  if 0 <? size then
    let dst_len := if src_len <? size - 1 then src_len else size - 1 in
    '(m, _) ← memcpy m dst src dst_len;
    m ← store m (dst + dst_len) 0;
    Ok (m, src_len)
  else Ok (m, src_len).

Definition strlcat (fuel : nat) (m : mem) (dst src size : Z) : res (mem * Z) :=
  ASSERT (negb (dst =? NULL));;
  ASSERT (negb (src =? NULL));;
  src_len ← strlen fuel m src;
  dst_len ← strlen fuel m dst;
  if (0 <? size) && (dst_len <? size) then
    let copy_cnt := if src_len <? size - dst_len - 1 then src_len else size - dst_len - 1 in
    '(m, _) ← memcpy m (dst + dst_len) src copy_cnt;
    m ← store m (dst + dst_len + copy_cnt) 0;
    Ok (m, u32 (src_len + dst_len))
  else Ok (m, u32 (src_len + dst_len)).

(** *** Tokens *)

(** Skip delimiters; [None] at the end of the string. *)
Fixpoint skip_delims (fuel : nat) (m : mem) (s delimiters : Z) : res (option Z * Z) :=
  match fuel with
  | O => Fail NoFuel
  | S fuel' =>
      x ← load m s;
      r ← strchr fuel m delimiters x;
      if negb (r =? NULL) then
        if x =? 0 then Ok (None, s) else skip_delims fuel' m (s + 1) delimiters
      else Ok (Some s, s)
  end.

Fixpoint skip_token (fuel : nat) (m : mem) (s delimiters : Z) : res Z :=
  match fuel with
  | O => Fail NoFuel
  | S fuel' =>
      x ← load m s;
      r ← strchr fuel m delimiters x;
      if r =? NULL then skip_token fuel' m (s + 1) delimiters else Ok s
  end.

(** [save] is the value of [*save_ptr]; returns memory, token, new [*save_ptr]. *)
Definition strtok_r (fuel : nat) (m : mem) (s delimiters save : Z) : res (mem * Z * Z) :=
  ASSERT (negb (delimiters =? NULL));;
  let s := if s =? NULL then save else s in
  ASSERT (negb (s =? NULL));;
  '(t, s) ← skip_delims fuel m s delimiters;
  match t with
  | None => Ok (m, NULL, s)
  | Some token =>
      s ← skip_token fuel m s delimiters;
      x ← load m s;
      if negb (x =? 0) then
        m ← store m s 0;
        Ok (m, token, s + 1)
      else Ok (m, token, s)
  end.

(** ** Specifications: blocks *)

Lemma write_at_insert_lt m p bs a b :
  a < p -> write_at (<[a := b]> m) p bs = <[a := b]> (write_at m p bs).
Proof.
  intros Ha. apply map_eq. intros k. rewrite write_at_lookup.
  destruct (decide (k = a)) as [->|Hne].
  - by rewrite decide_False, !lookup_insert_eq by lia.
  - by rewrite !lookup_insert_ne, write_at_lookup by done.
Qed.

(** Copying upward is right when the destination is not inside the source. *)
Lemma copy_up_spec m dst src bs :
  bytes_at m src bs -> owned m dst (Z.of_nat (length bs)) -> Forall is_byte bs ->
  dst <= src \/ src + Z.of_nat (length bs) <= dst ->
  copy_up (length bs) m dst src = Ok (write_at m dst bs).
Proof.
  intros Hs Ho Hb. revert m dst src Hs Ho.
  induction Hb as [|b bs Hb Hbs IH]; intros m dst src Hs Ho Hd; simpl; [done|].
  destruct Hs as [Hs Hss]. rewrite (load_Ok _ _ _ Hs). cbn [mbind res_bind].
  rewrite store_Ok; [|apply Ho; simpl; lia|done]. cbn [mbind res_bind].
  rewrite IH; [by rewrite write_at_insert_lt by lia|..].
  - simpl in Hd. apply bytes_at_insert_ne; [done|lia].
  - intros a Ha. destruct (decide (a = dst)) as [->|]; [lia|].
    rewrite lookup_insert_ne by done. apply Ho. simpl. lia.
  - simpl in Hd. lia.
Qed.

(** Copying downward is right when the source is not above the destination. *)
Lemma copy_down_spec m dst src bs :
  bytes_at m src bs -> owned m dst (Z.of_nat (length bs)) -> Forall is_byte bs ->
  src <= dst ->
  copy_down (length bs) m (dst + Z.of_nat (length bs)) (src + Z.of_nat (length bs)) =
  Ok (write_at m dst bs).
Proof.
  intros Hs Ho Hb Hd. revert m Hs Ho. induction bs as [|b bs IH] using rev_ind;
    intros m Hs Ho; [done|].
  apply Forall_app in Hb as [Hbs Hb]. inversion Hb as [|? ? Hb0]; subst.
  apply bytes_at_app in Hs as [Hs [Hlast _]]. rewrite length_app in *. simpl in *.
  rewrite Nat.add_1_r. cbn [copy_down].
  replace (src + Z.of_nat (S (length bs)) - 1) with (src + Z.of_nat (length bs)) by lia.
  replace (dst + Z.of_nat (S (length bs)) - 1) with (dst + Z.of_nat (length bs)) by lia.
  rewrite (load_Ok _ _ _ Hlast). cbn [mbind res_bind].
  rewrite store_Ok; [|apply Ho; lia|done]. cbn [mbind res_bind].
  rewrite IH; [|done| |].
  - f_equal. rewrite write_at_snoc. apply map_eq. intros k.
    rewrite write_at_lookup. destruct (decide (k = dst + Z.of_nat (length bs))) as [->|Hne].
    + by rewrite decide_False, !lookup_insert_eq by lia.
    + by rewrite !lookup_insert_ne, write_at_lookup by done.
  - apply bytes_at_insert_ne; [done|lia].
  - intros a Ha. destruct (decide (a = dst + Z.of_nat (length bs))) as [->|]; [lia|].
    rewrite lookup_insert_ne by done. apply Ho. lia.
Qed.

Lemma block_ok_intro p size : p <> NULL -> block_ok p size = true.
Proof. intros H. unfold block_ok. apply Z.eqb_neq in H. by rewrite H. Qed.

Lemma memcpy_spec m dst src bs :
  dst <> NULL -> src <> NULL ->
  bytes_at m src bs -> owned m dst (Z.of_nat (length bs)) -> Forall is_byte bs ->
  dst <= src \/ src + Z.of_nat (length bs) <= dst ->
  memcpy m dst src (Z.of_nat (length bs)) = Ok (write_at m dst bs, dst).
Proof.
  intros Hd Hs Hb Ho Hbs Hov. unfold memcpy. rewrite !bind_ASSERT by (by apply block_ok_intro).
  by rewrite Nat2Z.id, copy_up_spec.
Qed.

Fixpoint cmp_seq (xs ys : list Z) : Z :=
  match xs, ys with
  | x :: xs, y :: ys => if x =? y then cmp_seq xs ys else if y <? x then 1 else -1
  | _, _ => 0
  end.

Lemma memcmp_loop_spec m a b xs ys :
  bytes_at m a xs -> bytes_at m b ys -> length xs = length ys ->
  memcmp_loop (length xs) m a b = Ok (cmp_seq xs ys).
Proof.
  revert a b ys. induction xs as [|x xs IH]; intros a b [|y ys] Hx Hy Hlen; try done.
  destruct Hx as [Hx Hxs], Hy as [Hy Hys]. simpl. rewrite (load_Ok _ _ _ Hx). cbn [mbind res_bind].
  rewrite (load_Ok _ _ _ Hy). cbn [mbind res_bind].
  destruct (Z.eqb_spec x y); simpl; [|done]. apply IH; [done..|]. simpl in Hlen. lia.
Qed.

Lemma cmp_seq_0 xs ys : length xs = length ys -> cmp_seq xs ys = 0 <-> xs = ys.
Proof.
  revert ys. induction xs as [|x xs IH]; intros [|y ys] Hlen; try done. simpl.
  destruct (Z.eqb_spec x y) as [->|Hne].
  - rewrite IH by (simpl in Hlen; lia). split; congruence.
  - destruct (y <? x); split; congruence.
Qed.

(** ** Specifications: strings *)

Lemma strlen_loop_spec fuel m p str :
  cstr m p str -> (length str < fuel)%nat ->
  strlen_loop fuel m p = Ok (p + Z.of_nat (length str)).
Proof.
  revert p fuel. induction str as [|c str IH]; intros p [|fuel] Hs Hf; simpl in *; try lia.
  - rewrite (load_Ok _ _ _ (cstr_nil _ _ Hs)). simpl. f_equal. lia.
  - apply cstr_cons in Hs as (Hc & Hm & Hs). rewrite (load_Ok _ _ _ Hm). cbn [mbind res_bind].
    rewrite (proj2 (Z.eqb_neq c 0)) by done. rewrite IH by (try done; lia). f_equal. lia.
Qed.

Lemma strlen_spec fuel m p str :
  p <> NULL -> cstr m p str -> (length str < fuel)%nat ->
  strlen fuel m p = Ok (Z.of_nat (length str)).
Proof.
  intros Hp Hs Hf. unfold strlen. rewrite bind_ASSERT by (by apply negb_true_iff, Z.eqb_neq).
  rewrite (strlen_loop_spec _ _ _ _ Hs Hf). simpl. f_equal. lia.
Qed.

Lemma strnlen_loop_spec m q max t fuel (pre : list Z) :
  cstr m (q + Z.of_nat (length pre)) t -> Z.of_nat (length pre + length t) <= max -> (length t < fuel)%nat ->
  strnlen_loop fuel m q max (Z.of_nat (length pre)) = Ok (Z.of_nat (length pre + length t)).
Proof.
  revert pre fuel. induction t as [|c t IH]; intros pre [|fuel] Hc Hm Hf; cbn [length] in *; try lia; cbn [strnlen_loop].
  - rewrite (load_Ok _ _ _ (cstr_nil _ _ Hc)). simpl. by rewrite Nat.add_0_r.
  - apply cstr_cons in Hc as (Hc0 & Hl & Hc). rewrite (load_Ok _ _ _ Hl). cbn [mbind res_bind].
    rewrite (proj2 (Z.eqb_neq c 0)), (proj2 (Z.ltb_lt _ _)) by (done || lia).
    replace (Z.of_nat (length pre) + 1) with (Z.of_nat (length (pre ++ [c]))) by (rewrite length_app; simpl; lia).
    rewrite IH.
    + f_equal. rewrite length_app. simpl. lia.
    + rewrite length_app. simpl. by replace (q + Z.of_nat (length pre + 1)) with (q + Z.of_nat (length pre) + 1) by lia.
    + rewrite length_app. simpl. lia.
    + lia.
Qed.

(** Position of the first [c]. *)
Fixpoint index_of (c : Z) (l : list Z) : option nat :=
  match l with
  | [] => None
  | x :: l => if x =? c then Some O else S <$> index_of c l
  end.

Lemma index_of_None c l : index_of c l = None <-> c ∉ l.
Proof.
  induction l as [|x l IH]; simpl.
  - split; [intros _; apply not_elem_of_nil|done].
  - rewrite not_elem_of_cons. destruct (Z.eqb_spec x c) as [->|Hne].
    + split; [done|]. by intros [].
    + rewrite fmap_None, IH. split; [by split|]. by intros [].
Qed.

Definition opt_ptr (p : Z) (o : option nat) : Z :=
  match o with Some i => p + Z.of_nat i | None => NULL end.

Lemma strchr_loop_spec fuel m p str c :
  cstr m p str -> (length str < fuel)%nat ->
  strchr_loop fuel m p c = Ok (opt_ptr p (index_of c (str ++ [0]))).
Proof.
  revert p fuel. induction str as [|x str IH]; intros p [|fuel] Hs Hf;
    try (simpl in Hf; lia); cbn [strchr_loop app index_of].
  - rewrite (load_Ok _ _ _ (cstr_nil _ _ Hs)). cbn [mbind res_bind].
    destruct (0 =? c); [|done]. unfold opt_ptr. by rewrite Nat2Z.inj_0, Z.add_0_r.
  - apply cstr_cons in Hs as (Hc & Hm & Hs). rewrite (load_Ok _ _ _ Hm). cbn [mbind res_bind].
    destruct (x =? c); [unfold opt_ptr; by rewrite Nat2Z.inj_0, Z.add_0_r|].
    rewrite (proj2 (Z.eqb_neq x 0)) by done. rewrite IH by (try done; simpl in Hf; lia).
    destruct (index_of c (str ++ [0])); [|done]. unfold opt_ptr. cbn. f_equal. lia.
Qed.

(** [strchr] as a membership test, the way its callers use it: a null byte
    is in every string. *)
Lemma strchr_mem fuel m p str c :
  0 < p -> cstr m p str -> (length str < fuel)%nat -> is_byte c ->
  exists r, strchr fuel m p c = Ok r /\
    (r =? NULL) = negb (bool_decide (c ∈ str \/ c = 0)).
Proof.
  intros Hp Hs Hf Hc. unfold strchr.
  rewrite bind_ASSERT by (apply negb_true_iff, Z.eqb_neq; unfold NULL; lia).
  assert (u8 c = c) as -> by (unfold u8; rewrite Z.mod_small; unfold is_byte in Hc; lia).
  rewrite (strchr_loop_spec _ _ _ _ _ Hs Hf). eexists. split; [done|].
  unfold opt_ptr. destruct (index_of c (str ++ [0])) as [i|] eqn:E.
  - rewrite bool_decide_true. { simpl. apply Z.eqb_neq. unfold NULL. lia. }
    destruct (decide (c ∈ str ++ [0])) as [Hin|Hin%index_of_None]; [|congruence].
    apply elem_of_app in Hin as [?|Hin]; [by left|right]. by apply list_elem_of_singleton in Hin.
  - apply index_of_None in E. rewrite bool_decide_false; [done|].
    intros [?|?]; apply E, elem_of_app; [by left|right]. by apply list_elem_of_singleton.
Qed.

Lemma memset_loop_spec n m dst v :
  owned m dst (Z.of_nat n) -> is_byte v -> memset_loop n m dst v = Ok (write_at m dst (replicate n v)).
Proof.
  revert m dst. induction n as [|n IH]; intros m dst Ho Hv; [done|]. cbn [memset_loop replicate write_at].
  rewrite store_Ok by (first [apply Ho; lia|done]). cbn [mbind res_bind]. rewrite IH; [|intros a Ha|done].
  - by rewrite write_at_insert_lt by lia.
  - destruct (decide (a = dst)) as [->|]; [lia|]. rewrite lookup_insert_ne by done. apply Ho. lia.
Qed.

(** Comparing a string with a literal that is not longer than [memcmp] looks. *)
Lemma memcmp_prefix m a b pat str :
  cstr m a str -> bytes_at m b pat -> 0 ∉ pat ->
  exists r, memcmp_loop (length pat) m a b = Ok r /\ (r =? 0) = bool_decide (pat `prefix_of` str).
Proof.
  revert a b str. induction pat as [|y pat IH]; intros a b str Hs Hb Hn; cbn [length memcmp_loop].
  { eexists. split; [done|]. symmetry. apply bool_decide_true, prefix_nil. }
  destruct Hb as [Hy Hb]. apply not_elem_of_cons in Hn as [Hy0 Hn]. destruct str as [|x str].
  - rewrite (load_Ok _ _ _ (cstr_nil _ _ Hs)). cbn [mbind res_bind]. rewrite (load_Ok _ _ _ Hy). cbn [mbind res_bind].
    rewrite (proj2 (Z.eqb_neq 0 y)) by done. cbn [negb]. eexists. split; [done|].
    rewrite bool_decide_false by apply prefix_nil_not. by destruct (y <? 0).
  - apply cstr_cons in Hs as (Hx0 & Hx & Hs). rewrite (load_Ok _ _ _ Hx). cbn [mbind res_bind].
    rewrite (load_Ok _ _ _ Hy). cbn [mbind res_bind]. destruct (Z.eqb_spec x y) as [->|Hne]; cbn [negb].
    + destruct (IH _ _ _ Hs Hb Hn) as (r & -> & Hr). eexists. split; [done|]. rewrite Hr.
      apply bool_decide_ext. split; [apply prefix_cons|apply prefix_cons_inv_2].
    + eexists. split; [done|]. rewrite bool_decide_false by (intros H; by apply prefix_cons_inv_1 in H).
      by destruct (y <? x).
Qed.

Lemma strcmp_loop_spec fuel m a b s t :
  cstr m a s -> cstr m b t -> (length s < fuel)%nat ->
  exists r, strcmp_loop fuel m a b = Ok r /\ (r =? 0) = bool_decide (s = t).
Proof.
  revert a b s t. induction fuel as [|fuel IH]; intros a b s t Hs Ht Hf; [lia|]. cbn [strcmp_loop].
  assert (exists x, m !! a = Some x /\ (x = 0 /\ s = [] \/ exists s', s = x :: s' /\ x <> 0 /\ cstr m (a + 1) s')) as (x & Hx & Hs').
  { destruct s as [|x s]; [eexists; split; [by apply cstr_nil|by left]|]. apply cstr_cons in Hs as (? & ? & ?).
    eexists. split; [done|right]. by eexists. }
  assert (exists y, m !! b = Some y /\ (y = 0 /\ t = [] \/ exists t', t = y :: t' /\ y <> 0 /\ cstr m (b + 1) t')) as (y & Hy & Ht').
  { destruct t as [|y t]; [eexists; split; [by apply cstr_nil|by left]|]. apply cstr_cons in Ht as (? & ? & ?).
    eexists. split; [done|right]. by eexists. }
  rewrite (load_Ok _ _ _ Hx). cbn [mbind res_bind]. rewrite (load_Ok _ _ _ Hy). cbn [mbind res_bind].
  assert ((Z.eqb (if x <? y then -1 else if y <? x then 1 else 0) 0) = (x =? y)) as Hcmp.
  { destruct (Z.ltb_spec x y), (Z.ltb_spec y x), (Z.eqb_spec x y); lia || done. }
  destruct Hs' as [[-> ->]|(s' & -> & Hx0 & Hs')], Ht' as [[-> ->]|(t' & -> & Hy0 & Ht')];
    try (rewrite (proj2 (Z.eqb_neq x 0)) by done); cbn [negb andb Z.eqb];
    destruct (Z.eqb_spec x y) as [Hxy|Hne] || idtac; try done.
  all: try (eexists; split; [done|]; rewrite ?Hcmp; symmetry; first [by apply bool_decide_true|apply bool_decide_false; congruence]).
  - eexists. split; [done|]. rewrite Hcmp, bool_decide_false by done. apply Z.eqb_neq. done.
  - eexists. split; [done|]. rewrite Hcmp, bool_decide_false by done. apply Z.eqb_neq. done.
  - subst y. destruct (IH _ _ _ _ Hs' Ht') as (r & -> & Hr); [cbn [length] in Hf; lia|]. eexists. split; [done|]. rewrite Hr.
    apply bool_decide_ext. split; congruence.
Qed.

Lemma strlcpy_fits fuel m dst src str size :
  dst <> NULL -> src <> NULL -> cstr m src str -> Forall is_byte str -> (length str < fuel)%nat ->
  Z.of_nat (length str) < size -> owned m dst size -> dst + size <= src \/ src + Z.of_nat (length str) < dst ->
  strlcpy fuel m dst src size = Ok (write_at m dst (str ++ [0]), Z.of_nat (length str)).
Proof.
  intros Hd Hs Hc Hb Hf Hlen Ho Hov. unfold strlcpy.
  rewrite !bind_ASSERT by (by apply negb_true_iff, Z.eqb_neq). rewrite (strlen_spec _ _ _ _ Hs Hc Hf). cbn [mbind res_bind].
  rewrite (proj2 (Z.ltb_lt 0 size)) by lia.
  replace (if Z.of_nat (length str) <? size - 1 then _ else _) with (Z.of_nat (length str)) by (destruct (Z.ltb_spec (Z.of_nat (length str)) (size - 1)); lia).
  rewrite memcpy_spec; [|done|done| | |done|lia].
  - cbn [mbind res_bind]. rewrite store_Ok; [|..|unfold is_byte; lia].
    + cbn [mbind res_bind]. by rewrite write_at_snoc.
    + rewrite write_at_lookup, decide_False by lia. apply Ho. lia.
  - apply (bytes_at_app _ _ _ [0]), Hc.
  - intros a Ha. apply Ho. lia.
Qed.

(** ** Tokens *)

(** [str] without leading delimiters; its first run of non-delimiters. *)
Fixpoint ltrim (ds str : list Z) : list Z :=
  match str with
  | [] => []
  | c :: str' => if decide (c ∈ ds) then ltrim ds str' else str
  end.

Fixpoint token_of (ds str : list Z) : list Z :=
  match str with
  | [] => []
  | c :: str => if decide (c ∈ ds) then [] else c :: token_of ds str
  end.

(** What is left after the token and the delimiter that ends it. *)
Definition after_token (ds str : list Z) : list Z :=
  tail (drop (length (token_of ds str)) str).

Lemma ltrim_suffix ds str : exists pre, str = pre ++ ltrim ds str /\ Forall (fun c => c ∈ ds) pre.
Proof.
  induction str as [|c str IH]; simpl; [by exists []|]. case_decide; [|by exists []].
  destruct IH as (pre & E & Hp). exists (c :: pre). simpl. split; [congruence|by constructor].
Qed.

Lemma token_of_prefix ds str : exists suf, str = token_of ds str ++ suf.
Proof.
  induction str as [|c str IH]; simpl; [by exists []|]. case_decide; [by eexists|].
  destruct IH as (suf & E). exists suf. simpl. congruence.
Qed.

Lemma token_of_no_delim ds str : Forall (fun c => c ∉ ds) (token_of ds str).
Proof. induction str as [|c str IH]; simpl; [done|]. case_decide; by constructor. Qed.

Lemma cstr_app m p s1 s2 : cstr m p (s1 ++ s2) -> cstr m (p + Z.of_nat (length s1)) s2.
Proof.
  intros [Hb Hn]. rewrite <- (assoc_L (++)), bytes_at_app in Hb. split; [by destruct Hb|].
  intros H. apply Hn, elem_of_app. by right.
Qed.

Section strtok.
Context (m : mem) (dp : Z) (ds : list Z).
Hypothesis (Hdp : 0 < dp) (Hds : cstr m dp ds).

Lemma skip_delims_spec fuel p str :
  cstr m p str -> Forall is_byte str -> (length str + length ds < fuel)%nat ->
  skip_delims fuel m p dp =
  let q := p + Z.of_nat (length str - length (ltrim ds str)) in
  Ok (match ltrim ds str with [] => None | _ => Some q end, q).
Proof.
  revert p fuel. induction str as [|c str IH]; intros p [|fuel] Hs Hb Hf; simpl in Hf; try lia;
    cbn [skip_delims].
  - rewrite (load_Ok _ _ _ (cstr_nil _ _ Hs)). cbn [mbind res_bind].
    destruct (strchr_mem (S fuel) m dp ds 0) as (r & -> & Hr); [done|done|lia|unfold is_byte; lia|].
    cbn [mbind res_bind]. rewrite Hr, bool_decide_true by (by right). simpl.
    do 2 f_equal. lia.
  - apply cstr_cons in Hs as (Hc & Hm & Hs). inversion Hb; subst.
    rewrite (load_Ok _ _ _ Hm). cbn [mbind res_bind].
    destruct (strchr_mem (S fuel) m dp ds c) as (r & -> & Hr); [done|done|lia|done|].
    cbn [mbind res_bind ltrim]. rewrite Hr, negb_involutive. destruct (decide (c ∈ ds)) as [Hin|Hin].
    + rewrite bool_decide_true by (by left). rewrite (proj2 (Z.eqb_neq c 0)) by done.
      rewrite IH by (try done; lia). cbv zeta.
      destruct (ltrim_suffix ds str) as (pre & E & _). apply (f_equal length) in E.
      rewrite length_app in E.
      replace (p + 1 + Z.of_nat (length str - length (ltrim ds str)))
        with (p + Z.of_nat (length (c :: str) - length (ltrim ds str))) by (cbn [length]; lia).
      done.
    + rewrite bool_decide_false by naive_solver. rewrite Nat.sub_diag.
      by rewrite Nat2Z.inj_0, Z.add_0_r.
Qed.

Lemma skip_token_spec fuel p str :
  cstr m p str -> Forall is_byte str -> (length str + length ds < fuel)%nat ->
  skip_token fuel m p dp = Ok (p + Z.of_nat (length (token_of ds str))).
Proof.
  revert p fuel. induction str as [|c str IH]; intros p [|fuel] Hs Hb Hf; simpl in Hf; try lia;
    cbn [skip_token token_of].
  - rewrite (load_Ok _ _ _ (cstr_nil _ _ Hs)). cbn [mbind res_bind].
    destruct (strchr_mem (S fuel) m dp ds 0) as (r & -> & Hr); [done|done|lia|unfold is_byte; lia|].
    cbn [mbind res_bind]. rewrite Hr, bool_decide_true by (by right). simpl. f_equal. lia.
  - apply cstr_cons in Hs as (Hc & Hm & Hs). inversion Hb; subst.
    rewrite (load_Ok _ _ _ Hm). cbn [mbind res_bind].
    destruct (strchr_mem (S fuel) m dp ds c) as (r & -> & Hr); [done|done|lia|done|].
    cbn [mbind res_bind]. rewrite Hr. destruct (decide (c ∈ ds)) as [Hin|Hin].
    + rewrite bool_decide_true by (by left). simpl. f_equal. lia.
    + rewrite bool_decide_false by naive_solver. cbn [negb].
      rewrite IH by (try done; lia). cbn [length]. f_equal. lia.
Qed.
End strtok.

(** Cutting a string at [e] leaves the part before and the part after. *)
Lemma cstr_cut m p t c rest :
  cstr m p (t ++ c :: rest) ->
  let e := p + Z.of_nat (length t) in
  cstr (<[e := 0]> m) p t /\ cstr (<[e := 0]> m) (e + 1) rest.
Proof.
  intros [Hb Hn] e. rewrite <- (assoc_L (++)), bytes_at_app in Hb. destruct Hb as [Ht [_ Hr]].
  split; split.
  - apply bytes_at_app. split; [apply bytes_at_insert_ne; [done|lia]|].
    simpl. by rewrite lookup_insert_eq.
  - intros H. apply Hn, elem_of_app. by left.
  - apply bytes_at_insert_ne; [done|lia].
  - intros H. apply Hn, elem_of_app. right. by right.
Qed.

Lemma strtok_r_total fuel m s dp save ds str :
  let p := if s =? NULL then save else s in
  0 < p -> 0 < dp -> cstr m dp ds -> cstr m p str -> Forall is_byte str ->
  (length str + length ds < fuel)%nat ->
  (ltrim ds str = [] /\ strtok_r fuel m s dp save = Ok (m, NULL, p + Z.of_nat (length str))) \/
  (ltrim ds str <> [] /\ exists m' q save',
     strtok_r fuel m s dp save = Ok (m', q, save') /\
     q = p + Z.of_nat (length str - length (ltrim ds str)) /\
     cstr m' q (token_of ds (ltrim ds str)) /\
     cstr m' save' (after_token ds (ltrim ds str)) /\
     (forall a, a < p \/ p + Z.of_nat (length str) <= a -> m' !! a = m !! a) /\
     p <= save' /\ save' + Z.of_nat (length (after_token ds (ltrim ds str))) <= p + Z.of_nat (length str)).
Proof.
  intros p Hp Hdp Hds Hs Hb Hf. unfold strtok_r.
  rewrite bind_ASSERT by (apply negb_true_iff, Z.eqb_neq; unfold NULL; lia). fold p.
  cbv zeta. rewrite bind_ASSERT by (apply negb_true_iff, Z.eqb_neq; unfold NULL; lia).
  rewrite (skip_delims_spec m dp ds Hdp Hds fuel p str Hs Hb Hf). cbv zeta. cbn [mbind res_bind].
  destruct (ltrim_suffix ds str) as (pre & E & _). set (rest := ltrim ds str) in *.
  assert (length str = length pre + length rest)%nat as Hlen
    by (rewrite E at 1; by rewrite length_app).
  destruct rest as [|c0 rest'] eqn:Erest.
  { left. split; [done|]. do 2 f_equal. simpl. lia. }
  right. split; [done|]. rewrite <- Erest in *. clear Erest. 
  assert (cstr m (p + Z.of_nat (length str - length rest)) rest) as Hrest.
  { rewrite E in Hs. apply cstr_app in Hs.
    by replace (length str - length rest)%nat with (length pre) by lia. }
  set (q := p + Z.of_nat (length str - length rest)) in *.
  assert (Forall is_byte rest) as Hbr by (rewrite E in Hb; by apply Forall_app in Hb as [_ ?]).
  rewrite (skip_token_spec m dp ds Hdp Hds fuel q rest Hrest Hbr) by lia. cbn [mbind res_bind].
  destruct (token_of_prefix ds rest) as (suf & Es). set (t := token_of ds rest) in *.
  unfold after_token. fold t.
  assert (drop (length t) rest = suf) as -> by (rewrite Es at 1; by apply drop_app_length).
  destruct suf as [|c suf].
  - rewrite app_nil_r in Es. rewrite Es in Hrest.
    assert (m !! (q + Z.of_nat (length t)) = Some 0) as H0.
    { destruct Hrest as [Hx _]. apply bytes_at_app in Hx as [_ [Hx _]]. done. }
    rewrite (load_Ok _ _ _ H0). cbn. eexists _, _, _. split; [done|]. split; [done|].
    split; [done|]. split; [split; [by simpl|apply not_elem_of_nil]|]. split; [done|].
    rewrite <- Es in *. simpl. lia.
  - rewrite Es in Hrest.
    assert (m !! (q + Z.of_nat (length t)) = Some c) as Hc.
    { destruct Hrest as [Hx _]. rewrite <- (assoc_L (++)) in Hx.
      by apply bytes_at_app in Hx as [_ [Hx _]]. }
    assert (c <> 0) as Hc0.
    { destruct Hrest as [_ Hn]. intros ->. apply Hn, elem_of_app. right. left. }
    rewrite (load_Ok _ _ _ Hc). cbn [mbind res_bind].
    rewrite (proj2 (Z.eqb_neq c 0)) by done. cbn [negb].
    rewrite store_Ok; [|by eexists|unfold is_byte; lia]. cbn [mbind res_bind].
    destruct (cstr_cut _ _ _ _ _ Hrest) as [H1 H2].
    eexists _, _, _. split; [done|]. split; [done|]. split; [exact H1|]. split; [exact H2|].
    assert (length rest = length t + S (length suf))%nat by (rewrite Es, length_app; done).
    split; [|simpl; lia]. intros a Ha. rewrite lookup_insert_ne; [done|]. lia.
Qed.

(** ** Properties *)

(** [memmove] copies correctly however the two blocks overlap: the
    memory afterwards holds the bytes the source block held before.  It
    returns [dst + size], not [dst], when it copies upward, although its
    comment promises [DST]. *)
Theorem memmove_overlap m dst src bs :
  dst <> NULL -> src <> NULL -> bytes_at m src bs ->
  owned m dst (Z.of_nat (length bs)) -> Forall is_byte bs ->
  memmove m dst src (Z.of_nat (length bs)) =
  Ok (write_at m dst bs, if dst <? src then dst + Z.of_nat (length bs) else dst).
Proof.
  intros Hd Hs Hb Ho Hbs. unfold memmove. rewrite !bind_ASSERT by (by apply block_ok_intro).
  rewrite Nat2Z.id. destruct (Z.ltb_spec dst src).
  - by rewrite copy_up_spec by (try done; lia).
  - by rewrite copy_down_spec by (try done; lia).
Qed.

(** [strtok_r] finds the next token: with [ltrim] the string without
    its leading delimiters, it returns a null pointer exactly when that is
    empty; otherwise a pointer to a null-terminated nonempty run of
    non-delimiters, leaves [*save_ptr] at the text after the delimiter that
    ended it, and changes no byte outside the string. *)
Theorem strtok_r_next_token fuel m s dp save ds str :
  let p := if s =? NULL then save else s in
  0 < p -> 0 < dp -> cstr m dp ds -> cstr m p str -> Forall is_byte str ->
  (length str + length ds < fuel)%nat ->
  (ltrim ds str = [] /\ strtok_r fuel m s dp save = Ok (m, NULL, p + Z.of_nat (length str))) \/
  (exists m' q save' t, t = token_of ds (ltrim ds str) /\ t <> [] /\
     Forall (fun c => c ∉ ds) t /\
     strtok_r fuel m s dp save = Ok (m', q, save') /\
     q = p + Z.of_nat (length str - length (ltrim ds str)) /\
     cstr m' q t /\ cstr m' save' (after_token ds (ltrim ds str)) /\
     (forall a, a < p \/ p + Z.of_nat (length str) <= a -> m' !! a = m !! a)).
Proof.
  intros p Hp Hdp Hds Hs Hb Hf.
  destruct (strtok_r_total fuel m s dp save ds str Hp Hdp Hds Hs Hb Hf)
    as [H|(Hne & m' & q & save' & H1 & H2 & H3 & H4 & H5 & _)]; [by left|right].
  exists m', q, save', (token_of ds (ltrim ds str)). split_and!; try done.
  - intros E. apply Hne. clear -E. induction str as [|c str IH]; [done|]. simpl in *.
    case_decide; [by apply IH|]. simpl in E. rewrite decide_False in E by done. done.
  - apply token_of_no_delim.
Qed.

(** " ab  c" and the delimiter string " ". *)
Definition demo_mem : mem :=
  write_at (write_at ∅ 100 [32; 97; 98; 32; 32; 99; 0]) 200 [32; 0].

Lemma memmove_overlap_witness :
  memmove demo_mem 101 100 5 = Ok (write_at demo_mem 101 [32; 97; 98; 32; 32], 101).
Proof.
  apply (memmove_overlap demo_mem 101 100 [32; 97; 98; 32; 32]).
  - done.
  - done.
  - vm_compute. tauto.
  - intros a Ha. assert (a = 101 \/ a = 102 \/ a = 103 \/ a = 104 \/ a = 105) as Hc by (simpl in Ha; lia).
    destruct Hc as [->|[->|[->|[->| ->]]]]; vm_compute; eexists; reflexivity.
  - repeat constructor; lia.
Defined.

Lemma strtok_r_next_token_witness :
  (ltrim [32] [32; 97; 98; 32; 32; 99] = [] /\
   strtok_r 20 demo_mem 100 200 0 = Ok (demo_mem, NULL, 106)) \/
  (exists m' q save' t, t = [97; 98] /\ t <> [] /\ Forall (fun c => c ∉ [32]) t /\
     strtok_r 20 demo_mem 100 200 0 = Ok (m', q, save') /\ q = 101 /\
     cstr m' q t /\ cstr m' save' [32; 99] /\
     (forall a, a < 100 \/ 106 <= a -> m' !! a = demo_mem !! a)).
Proof.
  apply (strtok_r_next_token 20 demo_mem 100 200 0 [32] [32; 97; 98; 32; 32; 99]).
  - done.
  - done.
  - split; [vm_compute; tauto|]. intros H. repeat (apply elem_of_cons in H as [H|H]; [done|]).
    by apply elem_of_nil in H.
  - split; [vm_compute; tauto|]. intros H. repeat (apply elem_of_cons in H as [H|H]; [done|]).
    by apply elem_of_nil in H.
  - repeat constructor; lia.
  - simpl; lia.
Defined.
