(* ===== verification/Hash.v ===== *)
(** * Hash tables: lib/kernel/hash.c

    [Hash.hash] is [struct hash]: the element count, the bucket count and the
    bucket array.  A bucket is the sequence of the elements linked into its
    [struct list] (the pointer-level lists are those of [DList]); an element is
    the address of its [struct hash_elem].  [hash_fn] and [less] stand for the
    table's [hash] and [less] callbacks, applied to its [aux].

    The table is proved to implement a finite map from keys to elements, for
    every outcome of every [malloc]. *)

From S2P Require Import Prelude Mem Str.

Record hash : Type := mk_hash {
  elem_cnt : Z;
  bucket_cnt : Z;
  buckets : list (list Z);
}.

(** [malloc] as the table sees it: the requested byte count to the block, an
    array of uninitialised [struct list] (16 bytes each), or a null pointer. *)
Definition allocator : Type := Z -> option (list (list Z)).
Definition sizeof_list : Z := 16.

(** What [malloc] promises: the block holds what was asked for. *)
Definition malloc_ok (malloc : allocator) : Prop :=
  forall size b, 0 <= size -> malloc size = Some b -> Z.of_nat (length b) = size / sizeof_list.

(** ** Bucket counts *)

Definition turn_off_least_1bit (x : Z) : Z := Z.land x (u32 (x - 1)).
Definition is_power_of_2 (x : Z) : bool :=
  negb (x =? 0) && (turn_off_least_1bit x =? 0).

Fixpoint power_loop (fuel : nat) (x : Z) : res Z :=
  match fuel with
  | O => Fail NoFuel
  | S fuel => if is_power_of_2 x then Ok x else power_loop fuel (turn_off_least_1bit x)
  end.

Definition MIN_ELEMS_PER_BUCKET : Z := 1.
Definition BEST_ELEMS_PER_BUCKET : Z := 2.
Definition MAX_ELEMS_PER_BUCKET : Z := 4.

(** ** Fowler-Noll-Vo hashing *)

Definition FNV_32_PRIME : Z := 16777619.
Definition FNV_32_BASIS : Z := 2166136261.

Definition fnv_step (hash byte : Z) : Z := Z.lxor (u32 (hash * FNV_32_PRIME)) byte.

Fixpoint hash_bytes_loop (n : nat) (m : mem) (buf hash : Z) : res Z :=
  match n with
  | O => Ok hash
  | S n => b ← load m buf; hash_bytes_loop n m (buf + 1) (fnv_step hash b)
  end.

Definition hash_bytes (m : mem) (buf size : Z) : res Z :=
  _ ← ASSERT (negb (buf =? 0)); hash_bytes_loop (Z.to_nat size) m buf FNV_32_BASIS.

Fixpoint hash_string_loop (fuel : nat) (m : mem) (s hash : Z) : res Z :=
  match fuel with
  | O => Fail NoFuel
  | S fuel =>
      b ← load m s;
      if b =? 0 then Ok hash else hash_string_loop fuel m (s + 1) (fnv_step hash b)
  end.

Definition hash_string (fuel : nat) (m : mem) (s : Z) : res Z :=
  _ ← ASSERT (negb (s =? 0)); hash_string_loop fuel m s FNV_32_BASIS.

(** The four bytes of [i], least significant first, are hashed. *)
Definition int_bytes (i : Z) : list Z :=
  (fun k => Z.land (Z.shiftr (u32 i) (8 * k)) 255) <$> [0; 1; 2; 3].

Definition hash_int (i : Z) : Z := foldl fnv_step FNV_32_BASIS (int_bytes i).

Section table.
Context (hash_fn : Z -> Z) (less : Z -> Z -> bool).

(** ** Internal helpers *)

Definition find_bucket (h : hash) (e : Z) : Z :=
  Z.land (hash_fn e) (u32 (bucket_cnt h - 1)).

Fixpoint find_elem (bucket : list Z) (e : Z) : option Z :=
  match bucket with
  | [] => None
  | hi :: bucket =>
      if negb (less hi e) && negb (less e hi) then Some hi else find_elem bucket e
  end.

Definition insert_elem (h : hash) (bucket e : Z) : res hash :=
  b ← arr_get (buckets h) bucket;
  bs ← arr_set (buckets h) bucket (e :: b);
  Ok (mk_hash (u32 (elem_cnt h + 1)) (bucket_cnt h) bs).

(** [list_remove]: an element is unlinked from the bucket it is linked in. *)
Definition unlink (e : Z) (bucket : list Z) : list Z := filter (fun x => x <> e) bucket.

Definition remove_elem (h : hash) (e : Z) : hash :=
  mk_hash (u32 (elem_cnt h - 1)) (bucket_cnt h) (unlink e <$> buckets h).

(** ** Rehashing *)

(** [for (i = 0; i < n; i++) list_init (&b[i])] *)
Fixpoint init_loop (n : nat) (i : Z) (bs : list (list Z)) : res (list (list Z)) :=
  match n with
  | O => Ok bs
  | S n => bs ← arr_set bs i []; init_loop n (i + 1) bs
  end.

(** Moves the elements of one old bucket to the front of their new ones. *)
Fixpoint move_elems (es : list Z) (h : hash) : res hash :=
  match es with
  | [] => Ok h
  | e :: es =>
      let i := find_bucket h e in
      b ← arr_get (buckets h) i;
      bs ← arr_set (buckets h) i (e :: b);
      move_elems es (mk_hash (elem_cnt h) (bucket_cnt h) bs)
  end.

Fixpoint move_loop (n : nat) (i : Z) (old : list (list Z)) (h : hash) : res hash :=
  match n with
  | O => Ok h
  | S n => es ← arr_get old i; h ← move_elems es h; move_loop n (i + 1) old h
  end.

Definition rehash (malloc : allocator) (h : hash) : res hash :=
  let old_buckets := buckets h in
  let old_bucket_cnt := bucket_cnt h in
  let ideal := elem_cnt h / BEST_ELEMS_PER_BUCKET in
  new_bucket_cnt ← power_loop 33 (if ideal <? 4 then 4 else ideal);
  if new_bucket_cnt =? old_bucket_cnt then Ok h
  else
    match malloc (u32 (sizeof_list * new_bucket_cnt)) with
    | None => Ok h
    | Some new_buckets =>
        new_buckets ← init_loop (Z.to_nat new_bucket_cnt) 0 new_buckets;
        move_loop (Z.to_nat old_bucket_cnt) 0 old_buckets
          (mk_hash (elem_cnt h) new_bucket_cnt new_buckets)
    end.

(** ** The operations *)

Definition hash_insert (malloc : allocator) (h : hash) (new : Z) : res (hash * option Z) :=
  let bucket := find_bucket h new in
  b ← arr_get (buckets h) bucket;
  let old := find_elem b new in
  h ← match old with None => insert_elem h bucket new | Some _ => Ok h end;
  h ← rehash malloc h;
  Ok (h, old).

Definition hash_replace (malloc : allocator) (h : hash) (new : Z) : res (hash * option Z) :=
  let bucket := find_bucket h new in
  b ← arr_get (buckets h) bucket;
  let old := find_elem b new in
  let h := match old with None => h | Some o => remove_elem h o end in
  h ← insert_elem h bucket new;
  h ← rehash malloc h;
  Ok (h, old).

Definition hash_find (h : hash) (e : Z) : res (option Z) :=
  b ← arr_get (buckets h) (find_bucket h e); Ok (find_elem b e).

Definition hash_delete (malloc : allocator) (h : hash) (e : Z) : res (hash * option Z) :=
  b ← arr_get (buckets h) (find_bucket h e);
  let found := find_elem b e in
  match found with
  | Some o => h ← rehash malloc (remove_elem h o); Ok (h, found)
  | None => Ok (h, found)
  end.

Definition hash_size (h : hash) : Z := elem_cnt h.
Definition hash_empty (h : hash) : bool := elem_cnt h =? 0.

(** The callbacks of [hash_clear] and [hash_apply] act on a state [S]. *)
Section actions.
Context {S : Type}.

Definition pop_all (destructor : Z -> S -> S) (bucket : list Z) (s : S) : S :=
  foldl (fun s e => destructor e s) s bucket.

Fixpoint clear_loop (n : nat) (i : Z) (destructor : option (Z -> S -> S))
    (bs : list (list Z)) (s : S) : res (list (list Z) * S) :=
  match n with
  | O => Ok (bs, s)
  | Datatypes.S n =>
      b ← arr_get bs i;
      let s := match destructor with Some d => pop_all d b s | None => s end in
      bs ← arr_set bs i [];
      clear_loop n (i + 1) destructor bs s
  end.

Definition hash_clear (h : hash) (destructor : option (Z -> S -> S)) (s : S) : res (hash * S) :=
  '(bs, s) ← clear_loop (Z.to_nat (bucket_cnt h)) 0 destructor (buckets h) s;
  Ok (mk_hash 0 (bucket_cnt h) bs, s).

Definition hash_destroy (h : hash) (destructor : option (Z -> S -> S)) (s : S) : res S :=
  match destructor with
  | Some _ => '(_, s) ← hash_clear h destructor s; Ok s
  | None => Ok s
  end.

Fixpoint apply_loop (n : nat) (i : Z) (action : Z -> S -> S) (bs : list (list Z)) (s : S) : res S :=
  match n with
  | O => Ok s
  | Datatypes.S n =>
      b ← arr_get bs i; apply_loop n (i + 1) action bs (foldl (fun s e => action e s) s b)
  end.

Definition hash_apply (h : hash) (action : Z -> S -> S) (s : S) : res S :=
  apply_loop (Z.to_nat (bucket_cnt h)) 0 action (buckets h) s.
End actions.

(** [hash_init] gets 4 uninitialised buckets and clears them. *)
Definition hash_init (malloc : allocator) : res (option hash) :=
  match malloc (sizeof_list * 4) with
  | Some bs => '(h, _) ← hash_clear (mk_hash 0 4 bs) None tt; Ok (Some h)
  | None => Ok None
  end.

(** ** Iterators

    [it_elem] is the iterator's position: before the first element of its
    bucket (the list head), at an element, or the null pointer at the end. *)

Inductive position : Type := AtHead | AtElem (e : Z) | AtEnd.

Record hash_iterator : Type := mk_iterator { it_bucket : Z; it_elem : position }.

Definition hash_first : hash_iterator := mk_iterator 0 AtHead.

(** The elements after [e] in [b]. *)
Fixpoint after (e : Z) (b : list Z) : list Z :=
  match b with [] => [] | x :: b => if x =? e then b else after e b end.

(** The while loop of [hash_next]: [rest] is what follows the position in
    bucket [i]. *)
Fixpoint next_loop (fuel : nat) (h : hash) (i : Z) (rest : list Z) : res (hash_iterator) :=
  match fuel with
  | O => Fail NoFuel
  | S fuel =>
      match rest with
      | e :: _ => Ok (mk_iterator i (AtElem e))
      | [] =>
          let i := i + 1 in
          if bucket_cnt h <=? i then Ok (mk_iterator i AtEnd)
          else b ← arr_get (buckets h) i; next_loop fuel h i b
      end
  end.

Definition hash_cur (it : hash_iterator) : option Z :=
  match it_elem it with AtElem e => Some e | _ => None end.

Definition hash_next (h : hash) (it : hash_iterator) : res (hash_iterator * option Z) :=
  b ← (match it_elem it with AtEnd => Fail BadAccess | _ => arr_get (buckets h) (it_bucket it) end);
  it ← next_loop (S (Z.to_nat (bucket_cnt h))) h (it_bucket it)
         (match it_elem it with AtElem e => after e b | _ => b end);
  Ok (it, hash_cur it).

(** The documented iteration idiom: the elements [hash_next] returns until it
    returns a null pointer. *)
Fixpoint iterate (fuel : nat) (h : hash) (it : hash_iterator) : res (list Z) :=
  match fuel with
  | O => Fail NoFuel
  | S fuel =>
      '(it, e) ← hash_next h it;
      match e with
      | None => Ok []
      | Some e => es ← iterate fuel h it; Ok (e :: es)
      end
  end.

End table.

(** ** Bucket counts are powers of two *)

Lemma turn_off_bit x i :
  0 < x < 2 ^ 32 -> 0 <= i -> (2 ^ i | x) -> (2 ^ (i + 1) | turn_off_least_1bit x).
Proof.
  intros Hx Hi [q ->]. assert (0 < 2 ^ i) by (apply Z.pow_pos_nonneg; lia).
  assert (0 < 2 ^ (i + 1)) by (apply Z.pow_pos_nonneg; lia).
  unfold turn_off_least_1bit. rewrite u32_small by lia.
  apply Z.mod_divide; [lia|]. rewrite <- Z.land_ones by lia. apply Z.bits_inj'. intros k Hk.
  rewrite Z.bits_0, Z.land_spec, Z.testbit_ones_nonneg, Z.land_spec by lia.
  destruct (Z.ltb_spec k (i + 1)); [|apply andb_false_r]. rewrite andb_true_r.
  destruct (Z.lt_ge_cases k i) as [Hlt|Hge]; [by rewrite Z.mul_pow2_bits_low|].
  assert (k = 0 + i) as -> by lia.
  rewrite <- (Z.div_pow2_bits (q * 2 ^ i)), <- (Z.div_pow2_bits (q * 2 ^ i - 1)) by lia.
  rewrite Z.div_mul, !Z.bit0_odd by lia.
  assert ((q * 2 ^ i - 1) / 2 ^ i = q - 1) as ->.
  { symmetry. apply Z.div_unique with (2 ^ i - 1); lia. }
  rewrite Z.odd_sub. by destruct (Z.odd q).
Qed.

(** Below the top bit, turning off a bit keeps the logarithm. *)
Lemma turn_off_log2 x :
  0 < x < 2 ^ 32 -> is_power_of_2 x = false ->
  0 < turn_off_least_1bit x <= x /\ Z.log2 (turn_off_least_1bit x) = Z.log2 x.
Proof.
  unfold is_power_of_2. intros Hx Hp.
  rewrite (proj2 (Z.eqb_neq x 0)) in Hp by lia. simpl in Hp. apply Z.eqb_neq in Hp.
  pose proof (Z.log2_spec x ltac:(lia)) as Hl. pose proof (Z.log2_nonneg x).
  unfold turn_off_least_1bit in *. rewrite u32_small in * by lia.
  assert (x <> 2 ^ Z.log2 x) as Hne.
  { intros He. apply Hp. rewrite He at 2. rewrite Z.sub_1_r, <- Z.ones_equiv, Z.land_ones by
      apply Z.log2_nonneg. rewrite He at 1. apply Z.mod_same. lia. }
  assert (0 <= Z.land x (x - 1)) by (apply Z.land_nonneg; lia).
  assert (Z.log2 (x - 1) = Z.log2 x) as Hlog by (apply Z.log2_unique; lia).
  assert (Z.log2 (Z.land x (x - 1)) = Z.log2 x) as ->.
  { apply Z.log2_bits_unique.
    - rewrite Z.land_spec, Z.bit_log2, <- Hlog by lia. by rewrite Z.bit_log2 by lia.
    - intros m Hm. by rewrite Z.land_spec, (Z.bits_above_log2 x) by lia. }
  split; [|done]. split; [lia|]. apply Z.ldiff_le; [lia|].
  apply Z.bits_inj'. intros m _. rewrite Z.bits_0, Z.ldiff_spec, Z.land_spec.
  by destruct (Z.testbit x m), (Z.testbit (x - 1) m).
Qed.

Lemma is_power_of_2_log2 x :
  0 < x < 2 ^ 32 -> is_power_of_2 x = true -> x = 2 ^ Z.log2 x.
Proof.
  unfold is_power_of_2, turn_off_least_1bit. intros Hx [_ Hp]%andb_true_iff.
  apply Z.eqb_eq in Hp. rewrite u32_small in Hp by lia. pose proof (Z.log2_spec x ltac:(lia)).
  pose proof (Z.log2_nonneg x).
  destruct (decide (x = 2 ^ Z.log2 x)) as [|Hne]; [done|].
  assert (Z.log2 (x - 1) = Z.log2 x) as Hlog by (apply Z.log2_unique; lia).
  assert (Z.testbit (Z.land x (x - 1)) (Z.log2 x) = true) as Ht.
  { rewrite Z.land_spec, Z.bit_log2, <- Hlog by lia. by rewrite Z.bit_log2 by lia. }
  by rewrite Hp, Z.bits_0 in Ht.
Qed.

(** The loop of [rehash] ends within 33 rounds, at the largest power of two
    not above its start. *)
Lemma power_loop_from fuel x i :
  0 < x < 2 ^ 32 -> 0 <= i -> (2 ^ i | x) -> 33 - i <= Z.of_nat fuel ->
  power_loop fuel x = Ok (2 ^ Z.log2 x).
Proof.
  revert x i. induction fuel as [|fuel IH]; intros x i Hx Hi Hd Hf; simpl.
  - apply Z.divide_pos_le in Hd; [|lia].
    pose proof (Z.pow_le_mono_r 2 32 i). lia.
  - destruct (is_power_of_2 x) eqn:Hp; [by rewrite <- is_power_of_2_log2|].
    pose proof (turn_off_log2 x Hx Hp) as [Hb <-].
    apply (IH _ (i + 1)); [lia|lia| |lia]. by apply turn_off_bit.
Qed.

Lemma power_loop_spec x : 0 < x < 2 ^ 32 -> power_loop 33 x = Ok (2 ^ Z.log2 x).
Proof. intros. apply (power_loop_from _ _ 0); [done|lia|apply Z.divide_1_l|lia]. Qed.

(** The bucket count [rehash] aims at. *)
Definition ideal_log (elem_cnt : Z) : Z :=
  let ideal := elem_cnt / BEST_ELEMS_PER_BUCKET in
  Z.log2 (if ideal <? 4 then 4 else ideal).

Lemma ideal_log_range n : 0 <= n < 2 ^ 28 -> 2 <= ideal_log n < 27.
Proof.
  intros Hn. unfold ideal_log, BEST_ELEMS_PER_BUCKET.
  destruct (Z.ltb_spec (n / 2) 4) as [|Hge]; [by vm_compute|].
  assert (n / 2 < 2 ^ 27) by (apply Z.div_lt_upper_bound; lia).
  split; [apply Z.log2_le_pow2|apply Z.log2_lt_pow2]; lia.
Qed.

(** ** The table as a set of elements *)

Section refinement.
Context {K : Type} `{Countable K} (key : Z -> K).
Context (hash_fn : Z -> Z) (less : Z -> Z -> bool).

(** The contract of the callbacks in hash.h: [hash] returns an [unsigned] that
    depends on the key only, and [less] orders the keys, so that elements
    neither of which is less than the other have the same key. *)
Hypothesis hash_range : forall e, 0 <= hash_fn e < 2 ^ 32.
Hypothesis hash_key : forall a b, key a = key b -> hash_fn a = hash_fn b.
Hypothesis less_key : forall a b, less a b = false /\ less b a = false <-> key a = key b.

Definition shape (h : hash) : Prop :=
  exists k, 2 <= k < 32 /\ bucket_cnt h = 2 ^ k /\ Z.of_nat (length (buckets h)) = 2 ^ k.

Definition placed (h : hash) : Prop :=
  forall i b e, buckets h !! i = Some b -> e ∈ b -> find_bucket hash_fn h e = Z.of_nat i.

(** The elements of [h] are [l], in some order. *)
Definition holds (h : hash) (l : list Z) : Prop :=
  shape h /\ placed h /\ concat (buckets h) ≡ₚ l.

Lemma find_bucket_mod h k e :
  2 <= k < 32 -> bucket_cnt h = 2 ^ k -> find_bucket hash_fn h e = hash_fn e mod 2 ^ k.
Proof.
  intros Hk Hb. unfold find_bucket. rewrite Hb, u32_small.
  - by rewrite Z.sub_1_r, <- Z.ones_equiv, Z.land_ones by lia.
  - pose proof (Z.pow_lt_mono_r 2 k 32). pose proof (Z.pow_pos_nonneg 2 k). lia.
Qed.

Lemma shape_get h e :
  shape h -> exists b, arr_get (buckets h) (find_bucket hash_fn h e) = Ok b.
Proof.
  intros (k & Hk & Hb & Hl). apply arr_get_ok. rewrite (find_bucket_mod h k) by done.
  rewrite Hl. apply Z.mod_pos_bound. lia.
Qed.

Lemma elem_of_concat (bs : list (list Z)) x : x ∈ concat bs <-> exists b, b ∈ bs /\ x ∈ b.
Proof.
  induction bs as [|b bs IH]; simpl.
  - split; [intros []%not_elem_of_nil|intros (b & []%not_elem_of_nil & _)].
  - rewrite elem_of_app, IH. setoid_rewrite elem_of_cons. naive_solver.
Qed.

Lemma concat_insert_perm (bs : list (list Z)) i b e :
  bs !! i = Some b -> concat (<[i := e :: b]> bs) ≡ₚ e :: concat bs.
Proof.
  revert i. induction bs as [|c bs IH]; intros [|i] Hi; simplify_eq/=; [done|].
  rewrite (IH i Hi). by rewrite Permutation_middle.
Qed.

(** Pushing an element on its own bucket. *)
Lemma holds_push h l e b c :
  holds h l -> arr_get (buckets h) (find_bucket hash_fn h e) = Ok b ->
  exists bs, arr_set (buckets h) (find_bucket hash_fn h e) (e :: b) = Ok bs /\
             holds (mk_hash c (bucket_cnt h) bs) (e :: l).
Proof.
  intros ((k & Hk & Hb & Hl) & Hp & Hc) Hget. apply arr_get_Ok in Hget as [H0 Hget].
  pose proof (lookup_lt_Some _ _ _ Hget). eexists. split; [apply arr_set_ok; lia|].
  split; [|split].
  - exists k. simpl. by rewrite length_insert.
  - intros i b' e' Hi He'. simpl in Hi. apply list_lookup_insert_Some in Hi as [(<- & <- & _)|[? Hi]].
    + unfold find_bucket in *. simpl. apply elem_of_cons in He' as [->|He']; [lia|].
      by apply (Hp _ _ _ Hget).
    + by apply (Hp _ _ _ Hi).
  - simpl. rewrite concat_insert_perm by done. by f_equiv.
Qed.

Lemma init_loop_spec n (bs : list (list Z)) i :
  (i + n = length bs)%nat ->
  init_loop n (Z.of_nat i) bs = Ok (take i bs ++ replicate n []).
Proof.
  revert bs i. induction n as [|n IH]; intros bs i Hi; simpl.
  - by rewrite app_nil_r, take_ge by lia.
  - rewrite arr_set_ok by lia. cbn [mbind res_bind]. rewrite Nat2Z.id.
    replace (Z.of_nat i + 1) with (Z.of_nat (S i)) by lia.
    rewrite IH by (rewrite length_insert; lia). f_equal.
    rewrite (take_S_r _ _ []) by (by rewrite list_lookup_insert_eq by lia).
    rewrite take_insert_ge by lia. by rewrite <- (assoc_L (++)).
Qed.

Lemma move_elems_spec es h l :
  holds h l ->
  exists h', move_elems hash_fn es h = Ok h' /\ holds h' (es ++ l) /\ elem_cnt h' = elem_cnt h /\
             bucket_cnt h' = bucket_cnt h.
Proof.
  revert h l. induction es as [|e es IH]; intros h l Hh; simpl; [by eexists|].
  destruct (shape_get h e) as [b Hb]; [apply Hh|]. rewrite Hb. cbn [mbind res_bind].
  destruct (holds_push h l e b (elem_cnt h) Hh Hb) as (bs & -> & Hh'). cbn [mbind res_bind].
  destruct (IH _ _ Hh') as (h' & -> & Hh'' & Hcnt). exists h'. split; [done|]. split; [|done].
  destruct Hh'' as (? & ? & Hc). split; [done|]. split; [done|].
  by rewrite Hc, <- Permutation_middle.
Qed.

Lemma move_loop_spec n i old h l :
  holds h l -> (i + n = length old)%nat ->
  exists h', move_loop hash_fn n (Z.of_nat i) old h = Ok h' /\
             holds h' (concat (drop i old) ++ l) /\ elem_cnt h' = elem_cnt h /\
             bucket_cnt h' = bucket_cnt h.
Proof.
  revert i h l. induction n as [|n IH]; intros i h l Hh Hi; simpl.
  - exists h. by rewrite drop_ge by lia.
  - destruct (lookup_lt_is_Some_2 old i) as [es Hes]; [lia|].
    assert (arr_get old (Z.of_nat i) = Ok es) as ->.
    { apply arr_get_Ok. rewrite Nat2Z.id. split; [lia|done]. }
    cbn [mbind res_bind]. destruct (move_elems_spec es h l Hh) as (h1 & -> & Hh1 & Hc1).
    cbn [mbind res_bind]. replace (Z.of_nat i + 1) with (Z.of_nat (S i)) by lia.
    destruct (IH (S i) h1 _ Hh1) as (h2 & -> & (? & ? & Hc2) & Hcnt); [lia|].
    exists h2. split; [done|]. split; [|destruct Hcnt, Hc1; split; congruence].
    split; [done|]. split; [done|].
    rewrite Hc2, (drop_S _ _ _ Hes). simpl. by rewrite !(assoc_L (++)), (Permutation_app_comm es).
Qed.

(** Rehashing keeps the elements, whether or not [malloc] succeeds. *)
Lemma rehash_spec malloc h l :
  malloc_ok malloc -> holds h l -> elem_cnt h = Z.of_nat (length l) -> Z.of_nat (length l) < 2 ^ 28 ->
  exists h', rehash hash_fn malloc h = Ok h' /\ holds h' l /\ elem_cnt h' = elem_cnt h /\
             (bucket_cnt h' = bucket_cnt h \/ bucket_cnt h' = 2 ^ ideal_log (elem_cnt h)).
Proof.
  intros Hm Hh Hcnt Hl. unfold rehash. set (x := if _ <? 4 then _ else _).
  assert (0 < x < 2 ^ 32) as Hx.
  { subst x. unfold BEST_ELEMS_PER_BUCKET. rewrite Hcnt.
    assert (Z.of_nat (length l) / 2 < 2 ^ 27) by (apply Z.div_lt_upper_bound; lia). zcases. }
  rewrite power_loop_spec by done. cbn [mbind res_bind].
  destruct (ideal_log_range (elem_cnt h)) as [Hlo Hhi]; [lia|].
  change (Z.log2 x) with (ideal_log (elem_cnt h)). set (k := ideal_log (elem_cnt h)) in *.
  destruct (Z.eqb_spec (2 ^ k) (bucket_cnt h)) as [|Hne]; [by exists h; auto|].
  assert (0 < 2 ^ k < 2 ^ 27) by (split; [apply Z.pow_pos_nonneg|apply Z.pow_lt_mono_r]; lia).
  unfold sizeof_list. rewrite u32_small by lia.
  destruct (malloc (16 * 2 ^ k)) as [nb|] eqn:Hnb; [|by exists h; auto].
  apply Hm in Hnb; [|lia]. unfold sizeof_list in Hnb. rewrite Z.mul_comm, Z.div_mul in Hnb by lia.
  change 0 with (Z.of_nat 0). rewrite init_loop_spec by lia. cbn [mbind res_bind].
  rewrite take_0. simpl app. destruct Hh as ((j & Hj & Hbj & Hlj) & Hp & Hperm).
  destruct (move_loop_spec (Z.to_nat (bucket_cnt h)) 0 (buckets h)
    (mk_hash (elem_cnt h) (2 ^ k) (replicate (Z.to_nat (2 ^ k)) [])) [])
    as (h' & Hr & Hh' & Hc').
  { split; [|split].
    - exists k. simpl. rewrite length_replicate. lia.
    - intros i b e Hi He. simpl in Hi. apply lookup_replicate in Hi as [-> _]. by apply not_elem_of_nil in He.
    - simpl. by induction (Z.to_nat (2 ^ k)). }
  { lia. }
  exists h'. split; [exact Hr|]. destruct Hc' as [Hc' Hb']. simpl in Hc', Hb'.
  split; [|auto]. destruct Hh' as (? & ? & Hperm'). split; [done|]. split; [done|].
  by rewrite Hperm', app_nil_r, drop_0.
Qed.

(** ** The table as a finite map *)

Definition abs (l : list Z) : gmap K Z := list_to_map ((fun e => (key e, e)) <$> l).

(** Table [h] implements the map [M] from keys to elements. *)
Definition tbl (h : hash) (M : gmap K Z) : Prop :=
  exists l, holds h l /\ elem_cnt h = Z.of_nat (length l) /\ NoDup (key <$> l) /\ M = abs l.

Lemma abs_keys l : ((fun e => (key e, e)) <$> l).*1 = key <$> l.
Proof. by rewrite <- list_fmap_compose. Qed.

Lemma abs_lookup l k e : NoDup (key <$> l) -> abs l !! k = Some e <-> e ∈ l /\ key e = k.
Proof.
  intros Hn. unfold abs. rewrite <- elem_of_list_to_map by (by rewrite abs_keys).
  rewrite list_elem_of_fmap. naive_solver.
Qed.

Lemma abs_None l k : abs l !! k = None <-> k ∉ key <$> l.
Proof. unfold abs. by rewrite <- not_elem_of_list_to_map, abs_keys. Qed.

Lemma abs_perm l l' : NoDup (key <$> l) -> l ≡ₚ l' -> abs l = abs l'.
Proof. intros Hn Hp. apply list_to_map_proper; [by rewrite abs_keys|by f_equiv]. Qed.

Lemma abs_size l : NoDup (key <$> l) -> size (abs l) = length l.
Proof.
  induction l as [|e l IH]; simpl; [done|]. rewrite NoDup_cons. intros [He Hn].
  unfold abs. simpl. rewrite map_size_insert_None; [by f_equal; apply IH|by apply abs_None].
Qed.

Lemma tbl_size h M : tbl h M -> elem_cnt h = Z.of_nat (size M).
Proof. intros (l & _ & -> & Hn & ->). by rewrite abs_size. Qed.

Lemma find_elem_spec b e :
  match find_elem less b e with
  | Some o => o ∈ b /\ key o = key e
  | None => Forall (fun x => key x <> key e) b
  end.
Proof.
  induction b as [|x b IH]; simpl; [done|].
  destruct (less x e) eqn:Hx, (less e x) eqn:He; simpl.
  1-3: destruct (find_elem less b e); [destruct IH; split; [by right|done]|];
       constructor; [rewrite <- less_key; intuition congruence|done].
  split; [by left|by apply less_key].
Qed.

(** The bucket an element belongs in is the only place to look. *)
Lemma tbl_find h M e :
  tbl h M -> exists b, arr_get (buckets h) (find_bucket hash_fn h e) = Ok b /\
                       find_elem less b e = M !! key e.
Proof.
  intros (l & (Hs & Hp & Hc) & _ & Hn & ->).
  destruct (shape_get h e Hs) as [b Hb]. exists b. split; [done|].
  apply arr_get_Ok in Hb as [H0 Hb]. pose proof (find_elem_spec b e) as Hf.
  destruct (find_elem less b e) as [o|].
  - symmetry. apply abs_lookup; [done|]. destruct Hf as [Ho Hk]. split; [|done].
    rewrite <- Hc, elem_of_concat. exists b. split; [by eapply list_elem_of_lookup_2|done].
  - symmetry. apply abs_None. intros (x & Hk & Hx)%list_elem_of_fmap.
    rewrite <- Hc in Hx. apply elem_of_concat in Hx as (b' & [i Hi]%list_elem_of_lookup & Hx).
    pose proof (Hp i b' x Hi Hx) as Hf'. unfold find_bucket in *.
    rewrite (hash_key x e) in Hf' by done. rewrite Hf', Nat2Z.id, Hi in Hb. simplify_eq.
    rewrite Forall_forall in Hf. by apply (Hf x).
Qed.

Lemma tbl_insert h M e :
  tbl h M -> M !! key e = None -> Z.of_nat (size M) < 2 ^ 28 ->
  exists h', insert_elem h (find_bucket hash_fn h e) e = Ok h' /\ tbl h' (<[key e := e]> M).
Proof.
  intros (l & Hh & Hcnt & Hn & ->) He Hs. rewrite abs_size in Hs by done.
  unfold insert_elem. destruct (shape_get h e) as [b Hb]; [apply Hh|]. rewrite Hb. cbn [mbind res_bind].
  destruct (holds_push h l e b (u32 (elem_cnt h + 1)) Hh Hb) as (bs & -> & Hh').
  cbn [mbind res_bind]. eexists. split; [done|]. exists (e :: l). split; [done|].
  split; [simpl length; simpl; rewrite u32_small by lia; lia|]. split; [|done].
  simpl. apply NoDup_cons. split; [by apply abs_None|done].
Qed.

Lemma unlink_perm o l : NoDup l -> o ∈ l -> o :: unlink o l ≡ₚ l.
Proof.
  unfold unlink. induction l as [|x l IH]; intros Hn Ho; [by apply not_elem_of_nil in Ho|].
  apply NoDup_cons in Hn as [Hx Hn]. apply elem_of_cons in Ho as [->|Ho].
  - rewrite filter_cons_False by tauto. f_equiv.
    clear IH Hn. induction l as [|y l IH]; [done|]. apply not_elem_of_cons in Hx as [? Hx].
    rewrite filter_cons_True by done. f_equiv. by apply IH.
  - rewrite filter_cons_True by (intros ->; done). rewrite Permutation_swap. f_equiv. by apply IH.
Qed.

Lemma concat_unlink o bs : concat (unlink o <$> bs) = unlink o (concat bs).
Proof.
  induction bs as [|b bs IH]; [done|]. rewrite fmap_cons. cbn [concat]. rewrite IH.
  symmetry. apply filter_app.
Qed.

Lemma tbl_remove h M o :
  tbl h M -> M !! key o = Some o -> Z.of_nat (size M) <= 2 ^ 28 ->
  tbl (remove_elem h o) (delete (key o) M).
Proof.
  intros (l & ((k & Hk & Hb & Hl) & Hp & Hc) & Hcnt & Hn & ->) Ho Hs. rewrite abs_size in Hs by done.
  apply abs_lookup in Ho as [Ho _]; [|done].
  pose proof (unlink_perm o l (NoDup_fmap_1 _ _ Hn) Ho) as Hpm.
  assert (NoDup (key <$> o :: unlink o l)) as Hn' by (by rewrite Hpm).
  exists (unlink o l). split; [split; [|split]|].
  - exists k. simpl. by rewrite length_fmap.
  - intros i b e Hi He. simpl in Hi. apply list_lookup_fmap_Some in Hi as (b' & -> & Hi).
    apply list_elem_of_filter in He as [_ He]. by apply (Hp i b').
  - simpl. rewrite concat_unlink. unfold unlink. by rewrite Hc.
  - apply Permutation_length in Hpm. simpl in Hpm. simpl in Hn'. apply NoDup_cons in Hn' as [Hk' Hn'].
    split; [simpl; rewrite u32_small by lia; lia|]. split; [done|].
    rewrite (abs_perm l (o :: unlink o l)) by (done || by symmetry; apply unlink_perm; [eapply NoDup_fmap_1|]).
    unfold abs at 1. simpl. rewrite delete_insert_id; [done|]. by apply abs_None.
Qed.

Lemma tbl_rehash malloc h M :
  malloc_ok malloc -> tbl h M -> Z.of_nat (size M) < 2 ^ 28 ->
  exists h', rehash hash_fn malloc h = Ok h' /\ tbl h' M.
Proof.
  intros Hm (l & Hh & Hcnt & Hn & ->) Hs. rewrite abs_size in Hs by done.
  destruct (rehash_spec malloc h l Hm Hh Hcnt Hs) as (h' & Hr & Hh' & Hc & _).
  exists h'. split; [done|]. exists l. by rewrite Hc.
Qed.

(** ** Operation sequences *)

Inductive hash_op : Type :=
  | Insert (e : Z) | Replace (e : Z) | Find (e : Z) | Delete (e : Z).

Definition hash_step (malloc : allocator) (h : hash) (op : hash_op) : res (hash * option Z) :=
  match op with
  | Insert e => hash_insert hash_fn less malloc h e
  | Replace e => hash_replace hash_fn less malloc h e
  | Find e => r ← hash_find hash_fn less h e; Ok (h, r)
  | Delete e => hash_delete hash_fn less malloc h e
  end.

Fixpoint hash_run (h : hash) (ops : list (allocator * hash_op)) : res (hash * list (option Z)) :=
  match ops with
  | [] => Ok (h, [])
  | (malloc, op) :: ops =>
      '(h, r) ← hash_step malloc h op; '(h, rs) ← hash_run h ops; Ok (h, r :: rs)
  end.

(** What the comments of hash.c promise, on a map from keys to elements. *)
Definition map_step (M : gmap K Z) (op : hash_op) : gmap K Z * option Z :=
  match op with
  | Insert e => (match M !! key e with Some _ => M | None => <[key e := e]> M end, M !! key e)
  | Replace e => (<[key e := e]> M, M !! key e)
  | Find e => (M, M !! key e)
  | Delete e => (delete (key e) M, M !! key e)
  end.

Fixpoint map_run (M : gmap K Z) (ops : list hash_op) : gmap K Z * list (option Z) :=
  match ops with
  | [] => (M, [])
  | op :: ops =>
      let '(M, r) := map_step M op in let '(M, rs) := map_run M ops in (M, r :: rs)
  end.

Lemma tbl_key h M k e : tbl h M -> M !! k = Some e -> key e = k.
Proof. intros (l & _ & _ & Hn & ->) He. by apply abs_lookup in He as [_ ?]. Qed.

Lemma map_step_size M op : (size (map_step M op).1 <= S (size M))%nat.
Proof.
  destruct op as [e|e|e|e]; simpl; [| |lia|].
  - destruct (M !! key e) eqn:He; [lia|]. by rewrite map_size_insert_None.
  - rewrite map_size_insert. destruct (M !! key e); simpl; lia.
  - rewrite map_size_delete. destruct (M !! key e); simpl; lia.
Qed.

Lemma hash_step_refines malloc h M op :
  malloc_ok malloc -> tbl h M -> Z.of_nat (size M) + 1 < 2 ^ 28 ->
  exists h', hash_step malloc h op = Ok (h', (map_step M op).2) /\ tbl h' (map_step M op).1.
Proof.
  intros Hm Ht Hs. pose proof (map_step_size M op) as Hsz. destruct op as [e|e|e|e]; simpl in *;
    destruct (tbl_find h M e Ht) as (b & Hb & Hf);
    unfold hash_insert, hash_replace, hash_find, hash_delete; rewrite Hb; cbn [mbind res_bind];
    rewrite Hf.
  - destruct (M !! key e) as [o|] eqn:He; cbn [mbind res_bind].
    + destruct (tbl_rehash malloc h M Hm Ht) as (h' & -> & Ht'); [lia|]. by exists h'.
    + destruct (tbl_insert h M e Ht He) as (h1 & -> & Ht1); [lia|]. cbn [mbind res_bind].
      destruct (tbl_rehash malloc h1 _ Hm Ht1) as (h' & -> & Ht'); [lia|]. by exists h'.
  - set (h1 := match M !! key e with Some _ => _ | None => _ end).
    assert (tbl h1 (delete (key e) M)) as Ht1.
    { subst h1. destruct (M !! key e) as [o|] eqn:He; [|by rewrite delete_id].
      pose proof (tbl_key h M _ _ Ht He) as Hk. rewrite <- Hk. apply tbl_remove; [done| |lia].
      by rewrite Hk. }
    assert (find_bucket hash_fn h e = find_bucket hash_fn h1 e) as ->.
    { subst h1. by destruct (M !! key e). }
    assert (size (delete (key e) M) <= size M)%nat.
    { rewrite map_size_delete. destruct (M !! key e); simpl; lia. }
    destruct (tbl_insert h1 _ e Ht1) as (h2 & -> & Ht2); [by rewrite lookup_delete_eq|lia|].
    rewrite insert_delete_eq in Ht2. cbn [mbind res_bind].
    destruct (tbl_rehash malloc h2 _ Hm Ht2) as (h' & -> & Ht'); [lia|]. by exists h'.
  - by exists h.
  - destruct (M !! key e) as [o|] eqn:He.
    + pose proof (tbl_key h M _ _ Ht He) as Hk.
      assert (tbl (remove_elem h o) (delete (key e) M)) as Ht1.
      { rewrite <- Hk. apply tbl_remove; [done| |lia]. by rewrite Hk. }
      destruct (tbl_rehash malloc _ _ Hm Ht1) as (h' & -> & Ht'); [lia|]. by exists h'.
    + exists h. by rewrite delete_id.
Qed.

Lemma hash_run_refines ops h M :
  Forall (fun o => malloc_ok (fst o)) ops -> tbl h M ->
  Z.of_nat (size M) + Z.of_nat (length ops) < 2 ^ 28 ->
  exists h', hash_run h ops = Ok (h', (map_run M ops.*2).2) /\ tbl h' (map_run M ops.*2).1.
Proof.
  revert h M. induction ops as [|[malloc op] ops IH]; intros h M Hm Ht Hs; [by exists h|].
  rewrite fmap_cons. cbn [hash_run map_run snd]. apply Forall_cons in Hm as [Hm Hms]. simpl in Hm, Hs. pose proof (map_step_size M op) as Hsz.
  destruct (hash_step_refines malloc h M op Hm Ht) as (h1 & -> & Ht1); [lia|].
  destruct (map_step M op) as [M1 r]. cbn [mbind res_bind].
  destruct (IH h1 M1 Hms Ht1) as (h' & -> & Ht'); [simpl in *; lia|]. cbn [mbind res_bind].
  destruct (map_run M1 ops.*2) as [M2 rs]. by exists h'.
Qed.

Lemma map_run_size ops M : (size (map_run M ops).1 <= size M + length ops)%nat.
Proof.
  revert M. induction ops as [|op ops IH]; intros M; simpl; [lia|].
  pose proof (map_step_size M op). destruct (map_step M op) as [M1 r]. specialize (IH M1).
  destruct (map_run M1 ops) as [M2 rs]. simpl in *. lia.
Qed.

Lemma clear_loop_spec n (bs : list (list Z)) i :
  (i + n = length bs)%nat ->
  clear_loop n (Z.of_nat i) None bs tt = Ok (take i bs ++ replicate n [], tt).
Proof.
  intros Hi. pose proof (init_loop_spec n bs i Hi) as Hil. revert bs i Hi Hil.
  induction n as [|n IH]; intros bs i Hi Hil; simpl in *.
  - by injection Hil as <-.
  - destruct (arr_get_ok bs (Z.of_nat i)) as [b ->]; [lia|]. cbn [mbind res_bind].
    rewrite arr_set_ok in * by lia. cbn [mbind res_bind] in *.
    replace (Z.of_nat i + 1) with (Z.of_nat (S i)) in * by lia.
    pose proof (init_loop_spec n (<[Z.to_nat (Z.of_nat i):=[]]> bs) (S i)) as Hil'.
    rewrite IH; [|rewrite length_insert; lia|apply Hil'; rewrite length_insert; lia].
    rewrite Hil' in Hil by (rewrite length_insert; lia). by injection Hil as <-.
Qed.

Lemma hash_init_tbl malloc h :
  malloc_ok malloc -> hash_init malloc = Ok (Some h) -> tbl h ∅.
Proof.
  unfold hash_init. intros Hm. destruct (malloc _) as [bs|] eqn:Hbs; [|done]. apply Hm in Hbs; [|by vm_compute].
  change (16 * 4 / 16) with 4 in Hbs. change (_ / _) with 4 in Hbs.
  unfold hash_clear. simpl bucket_cnt. simpl buckets.
  change (clear_loop (Z.to_nat 4) 0) with (@clear_loop unit 4 (Z.of_nat 0)).
  rewrite clear_loop_spec by lia. cbn [mbind res_bind]. intros [= <-]. exists [].
  split; [split; [|split]|].
  - by exists 2.
  - intros i b e Hi He. change ((replicate 4 [] : list (list Z)) !! i = Some b) in Hi.
    apply lookup_replicate in Hi as [-> _]. by apply not_elem_of_nil in He.
  - done.
  - split; [done|]. split; [constructor|done].
Qed.

(** ** Iteration *)

(** What an iterator has still to visit. *)
Definition remaining (h : hash) (it : hash_iterator) : list Z :=
  match it_elem it with
  | AtHead => concat (drop (Z.to_nat (it_bucket it)) (buckets h))
  | AtElem e =>
      after e (nth (Z.to_nat (it_bucket it)) (buckets h) []) ++
      concat (drop (S (Z.to_nat (it_bucket it))) (buckets h))
  | AtEnd => []
  end.

Definition it_valid (h : hash) (it : hash_iterator) : Prop :=
  it_elem it <> AtEnd /\ 0 <= it_bucket it < bucket_cnt h.

Lemma after_suffix e b1 b2 : e ∉ b1 -> after e (b1 ++ e :: b2) = b2.
Proof.
  induction b1 as [|x b1 IH]; simpl; intros Hn; [by rewrite Z.eqb_refl|].
  apply not_elem_of_cons in Hn as [Hx Hn]. rewrite (proj2 (Z.eqb_neq x e)) by congruence. by apply IH.
Qed.

Lemma after_tail e b : exists b1, b = b1 ++ after e b.
Proof.
  induction b as [|x b [b1 IH]]; simpl; [by exists []|]. destruct (x =? e); [by exists [x]|].
  exists (x :: b1). by rewrite IH at 1.
Qed.

Lemma bucket_NoDup (bs : list (list Z)) i b : NoDup (concat bs) -> bs !! i = Some b -> NoDup b.
Proof.
  revert i. induction bs as [|c bs IH]; intros [|i] Hn Hi; simplify_eq/=;
    apply NoDup_app in Hn as (? & _ & ?); [done|by eapply IH].
Qed.

Lemma next_loop_spec fuel h i b1 rest :
  shape h -> NoDup (concat (buckets h)) -> buckets h !! i = Some (b1 ++ rest) ->
  (length (buckets h) - i < fuel)%nat ->
  exists it, next_loop fuel h (Z.of_nat i) rest = Ok it /\
    match rest ++ concat (drop (S i) (buckets h)) with
    | [] => hash_cur it = None
    | e :: es => hash_cur it = Some e /\ it_valid h it /\ remaining h it = es
    end.
Proof.
  intros (k & Hk & Hb & Hl) Hn. revert i b1 rest.
  induction fuel as [|fuel IH]; intros i b1 rest Hi Hf; [lia|]. cbn [next_loop].
  pose proof (lookup_lt_Some _ _ _ Hi). destruct rest as [|e rest].
  - destruct (Z.leb_spec (bucket_cnt h) (Z.of_nat i + 1)).
    + eexists. split; [done|]. by rewrite drop_ge by lia.
    + destruct (lookup_lt_is_Some_2 (buckets h) (S i)) as [b Hb']; [lia|].
      assert (arr_get (buckets h) (Z.of_nat i + 1) = Ok b) as ->.
      { apply arr_get_Ok. split; [lia|]. by replace (Z.to_nat _) with (S i) by lia. }
      cbn [mbind res_bind]. replace (Z.of_nat i + 1) with (Z.of_nat (S i)) by lia.
      destruct (IH (S i) [] b Hb') as (it & -> & Hit); [lia|]. exists it. split; [done|].
      by rewrite (drop_S _ _ _ Hb').
  - eexists. split; [done|]. simpl. split; [done|]. split; [split; simpl; [done|lia]|].
    unfold remaining. simpl. rewrite Nat2Z.id, (nth_lookup_Some _ _ _ _ Hi).
    rewrite after_suffix; [done|]. pose proof (bucket_NoDup _ _ _ Hn Hi) as Hnb.
    apply NoDup_app in Hnb as (_ & Hd & _). intros He. apply (Hd e He). by left.
Qed.

Lemma hash_next_spec h it :
  shape h -> NoDup (concat (buckets h)) -> it_valid h it ->
  exists it', hash_next h it = Ok (it', hash_cur it') /\
    match remaining h it with
    | [] => hash_cur it' = None
    | e :: es => hash_cur it' = Some e /\ it_valid h it' /\ remaining h it' = es
    end.
Proof.
  intros Hs Hn [Hend Hr]. destruct it as [i p]. simpl in Hend, Hr.
  pose proof Hs as (k & Hk & Hb & Hl).
  destruct (lookup_lt_is_Some_2 (buckets h) (Z.to_nat i)) as [b Hb']; [lia|].
  assert (arr_get (buckets h) i = Ok b) as Hget by (apply arr_get_Ok; split; [lia|done]).
  assert (exists b1 rest, b = b1 ++ rest /\
            rest = match p with AtElem e => after e b | _ => b end /\
            remaining h (mk_iterator i p) = rest ++ concat (drop (S (Z.to_nat i)) (buckets h)))
    as (b1 & rest & Hbr & Hrest & ->).
  { destruct p as [|e|]; [| |done].
    - exists [], b. split; [done|]. split; [done|]. unfold remaining. simpl. by rewrite (drop_S _ _ _ Hb').
    - destruct (after_tail e b) as [b1 Hb1]. exists b1, (after e b). split; [done|]. split; [done|].
      unfold remaining. simpl. by rewrite (nth_lookup_Some _ _ _ _ Hb'). }
  destruct (next_loop_spec (S (Z.to_nat (bucket_cnt h))) h (Z.to_nat i) b1 rest Hs Hn)
    as (it & Hl' & Hit); [by rewrite <- Hbr|lia|]. rewrite Z2Nat.id in Hl' by lia.
  unfold hash_next. simpl it_elem. simpl it_bucket. destruct p as [|e|]; [| |done];
    rewrite Hget; cbn [mbind res_bind]; rewrite <- Hrest, Hl'; cbn [mbind res_bind];
    exists it; split; done.
Qed.

Lemma iterate_spec h fuel it :
  shape h -> NoDup (concat (buckets h)) -> it_valid h it -> (length (remaining h it) < fuel)%nat ->
  iterate fuel h it = Ok (remaining h it).
Proof.
  intros Hs Hn. revert it. induction fuel as [|fuel IH]; intros it Hv Hf; [lia|]. cbn [iterate].
  destruct (hash_next_spec h it Hs Hn Hv) as (it' & -> & Hit). cbn [mbind res_bind].
  destruct (remaining h it) as [|e es]; [by rewrite Hit|].
  destruct Hit as (-> & Hv' & Hr). rewrite IH, Hr; [done|done|]. rewrite Hr. simpl in Hf. lia.
Qed.

Lemma tbl_iterate h M fuel :
  tbl h M -> (size M < fuel)%nat ->
  exists es, iterate fuel h hash_first = Ok es /\ es ≡ₚ (map_to_list M).*2.
Proof.
  intros (l & (Hs & Hp & Hc) & Hcnt & Hn & ->) Hf. rewrite abs_size in Hf by done.
  exists (concat (buckets h)). assert (remaining h hash_first = concat (buckets h)) as Hr by done.
  split.
  - rewrite <- Hr. apply iterate_spec; [done| | |by rewrite Hr, Hc].
    + rewrite Hc. by eapply NoDup_fmap_1.
    + destruct Hs as (k & ? & Hb & ?). split; [done|]. simpl. rewrite Hb. lia.
  - rewrite Hc. unfold abs. rewrite map_to_list_to_map by (by rewrite abs_keys).
    rewrite <- list_fmap_compose. by rewrite list_fmap_id.
Qed.

Lemma tbl_buckets h M : tbl h M -> exists k, 2 <= k /\ bucket_cnt h = 2 ^ k.
Proof. intros (l & ((k & Hk & Hb & _) & _) & _). exists k. split; [lia|done]. Qed.
End refinement.

(** ** FNV hashing *)

Lemma hash_bytes_loop_spec m buf bs acc :
  bytes_at m buf bs -> hash_bytes_loop (length bs) m buf acc = Ok (foldl fnv_step acc bs).
Proof.
  revert buf acc. induction bs as [|b bs IH]; intros buf acc; simpl; [done|].
  intros [Hb Hbs]. rewrite (load_Ok _ _ _ Hb). cbn [mbind res_bind]. by apply IH.
Qed.

Lemma hash_string_loop_spec fuel m s str acc :
  cstr m s str -> (length str < fuel)%nat ->
  hash_string_loop fuel m s acc = Ok (foldl fnv_step acc str).
Proof.
  revert s str acc. induction fuel as [|fuel IH]; intros s str acc Hs Hf; [lia|]. simpl.
  destruct str as [|c str].
  - by rewrite (load_Ok _ _ _ (cstr_nil _ _ Hs)).
  - apply cstr_cons in Hs as (Hc & Hm & Hs). rewrite (load_Ok _ _ _ Hm). cbn [mbind res_bind].
    rewrite (proj2 (Z.eqb_neq c 0)) by done. simpl in Hf. by rewrite (IH (s + 1) str) by (done || lia).
Qed.

(** ** Properties *)

(** C3. The hash table implements a finite map.  Whatever sequence of
    insertions, replacements, look-ups and deletions is applied to a freshly
    initialised table, and whichever of the [malloc]s of its rehashes fail, the
    operations return and their results are those of the map from keys to
    elements; [hash_size] is the map's size, the number of buckets remains a
    power of two of at least 4, and the documented iteration idiom visits every
    element of the map exactly once. *)
Theorem hash_table_refines_map {K} `{Countable K} (key hash_fn : Z -> _) (less : Z -> Z -> bool)
    (malloc : allocator) (h : hash) (ops : list (allocator * hash_op)) (fuel : nat)
    (Hrange : forall e, 0 <= hash_fn e < 2 ^ 32)
    (Hhash : forall a b, (key a : K) = key b -> hash_fn a = hash_fn b)
    (Hless : forall a b, less a b = false /\ less b a = false <-> key a = key b)
    (Hinit : malloc_ok malloc) (Hh : hash_init malloc = Ok (Some h))
    (Hops : Forall (fun o => malloc_ok (fst o)) ops)
    (Hlen : Z.of_nat (length ops) < 2 ^ 28) (Hfuel : (length ops < fuel)%nat) :
  let M := (map_run key ∅ ops.*2).1 in
  exists h', hash_run hash_fn less h ops = Ok (h', (map_run key ∅ ops.*2).2) /\
    hash_size h' = Z.of_nat (size M) /\
    (exists k, 2 <= k /\ bucket_cnt h' = 2 ^ k) /\
    (exists es, iterate fuel h' hash_first = Ok es /\ es ≡ₚ (map_to_list M).*2).
Proof.
  intros M. pose proof (hash_init_tbl key hash_fn malloc h Hinit Hh) as Ht.
  destruct (hash_run_refines key hash_fn less Hrange Hhash Hless ops h ∅ Hops Ht)
    as (h' & Hrun & Ht'); [rewrite map_size_empty; lia|].
  exists h'. split; [exact Hrun|]. split; [exact (tbl_size key hash_fn h' _ Ht')|].
  split; [exact (tbl_buckets key hash_fn h' _ Ht')|].
  apply (tbl_iterate key hash_fn h' _ fuel Ht').
  pose proof (map_run_size key ops.*2 ∅) as Hs. rewrite map_size_empty, length_fmap in Hs. lia.
Qed.

Definition demo_malloc : allocator := fun size => Some (replicate (Z.to_nat (size / 16)) [9; 9]).
Definition demo_ops : list (allocator * hash_op) :=
  ((fun e => (demo_malloc, Insert e)) <$> [1; 5; 9; 13; 17; 21; 25; 29; 33; 37; 41; 45; 49; 53; 57; 61]) ++
  [(demo_malloc, Insert 5); (fun _ => None, Delete 13); (demo_malloc, Find 13); (demo_malloc, Find 61)].

Lemma demo_malloc_ok : malloc_ok demo_malloc.
Proof.
  intros size b Hs [= <-]. rewrite length_replicate. unfold sizeof_list.
  rewrite Z2Nat.id; [done|]. by apply Z.div_pos.
Qed.

Lemma hash_table_refines_map_witness :
  let M := (map_run (fun e => e) ∅ demo_ops.*2).1 in
  exists h', hash_run u32 Z.ltb (mk_hash 0 4 [[]; []; []; []]) demo_ops =
             Ok (h', (map_run (fun e => e) ∅ demo_ops.*2).2) /\
    hash_size h' = Z.of_nat (size M) /\
    (exists k, 2 <= k /\ bucket_cnt h' = 2 ^ k) /\
    (exists es, iterate 50 h' hash_first = Ok es /\ es ≡ₚ (map_to_list M).*2).
Proof.
  apply (hash_table_refines_map (fun e : Z => e) u32 Z.ltb demo_malloc).
  - exact u32_range.
  - intros a b ->. reflexivity.
  - intros a b. rewrite !Z.ltb_ge. lia.
  - exact demo_malloc_ok.
  - reflexivity.
  - repeat constructor; try exact demo_malloc_ok. intros ? ? ? [=].
  - vm_compute. reflexivity.
  - vm_compute. lia.
Defined.

(** [hash_string] hashes exactly the bytes before the terminator: it
    equals [hash_bytes] over [strlen] bytes, the FNV-1 fold of the string. *)
Theorem hash_string_is_hash_bytes (fuel : nat) (m : mem) (s : Z) (str : list Z)
    (Hs : 0 < s) (Hstr : cstr m s str) (Hfuel : (length str < fuel)%nat) :
  exists n, strlen fuel m s = Ok n /\
    hash_string fuel m s = hash_bytes m s n /\
    hash_string fuel m s = Ok (foldl fnv_step FNV_32_BASIS str).
Proof.
  exists (Z.of_nat (length str)). split; [apply strlen_spec; [intros ->; exact (Z.lt_irrefl _ Hs)|done|done]|].
  unfold hash_string, hash_bytes. rewrite !bind_ASSERT by (apply negb_true_iff, Z.eqb_neq; lia).
  rewrite (hash_string_loop_spec _ _ _ _ _ Hstr Hfuel), Nat2Z.id.
  destruct Hstr as [Hb _]. apply bytes_at_app in Hb as [Hb _].
  by rewrite (hash_bytes_loop_spec _ _ _ _ Hb).
Qed.

Definition demo_string : mem := write_at ∅ 100 [112; 105; 110; 116; 111; 115; 0].

Lemma hash_string_is_hash_bytes_witness :
  exists n, strlen 10 demo_string 100 = Ok n /\
    hash_string 10 demo_string 100 = hash_bytes demo_string 100 n /\
    hash_string 10 demo_string 100 =
      Ok (foldl fnv_step FNV_32_BASIS [112; 105; 110; 116; 111; 115]).
Proof.
  apply (hash_string_is_hash_bytes 10 demo_string 100 [112; 105; 110; 116; 111; 115]).
  - lia.
  - split; [exact (write_at_bytes ∅ 100 [112; 105; 110; 116; 111; 115; 0])|].
    apply (bool_decide_unpack _). vm_compute. exact I.
  - simpl. lia.
Defined.
