(* ===== verification/Intq.v ===== *)
(** * Interrupt queues: devices/intq.c

    [intq] is [struct intq]: a circular buffer of 64 bytes shared between
    kernel threads and interrupt handlers, with the thread waiting for each of
    its two conditions and the holder of its lock.  Every call runs with
    interrupts off; [env] says who calls.  A thread that has to sleep leaves
    the queue with itself registered ([Slept]) and calls again once woken; the
    thread a call wakes up is part of the call's outcome. *)

From S2P Require Import Prelude.

Definition INTQ_BUFSIZE : Z := 64.

Record intq : Type := mk_intq {
  q_lock : option Z;         (* holder of the lock *)
  not_full : option Z;       (* thread waiting for not-full *)
  not_empty : option Z;      (* thread waiting for not-empty *)
  q_buf : list Z;
  q_head : Z;
  q_tail : Z;
}.

(** The caller: the interrupt level, whether it is an interrupt handler, and
    the running thread. *)
Record env : Type := mk_env { e_off : bool; e_ctx : bool; e_cur : Z }.

Inductive condition : Type := NotFull | NotEmpty.

Inductive outcome (A : Type) : Type :=
  | Done (a : A) (woken : option Z)  (* returned [a], after waking [woken] *)
  | Slept                            (* blocked on the condition, holding the lock *)
  | LockWait.                        (* blocked on the lock *)
Arguments Done {A} a woken.
Arguments Slept {A}.
Arguments LockWait {A}.

Definition next (pos : Z) : Z := Z.rem (s32 (pos + 1)) INTQ_BUFSIZE.

Definition intq_init (q : intq) : intq := mk_intq None None None (q_buf q) 0 0.

Definition intq_empty (e : env) (q : intq) : res bool :=
  _ ← ASSERT (e_off e); Ok (q_head q =? q_tail q).

Definition intq_full (e : env) (q : intq) : res bool :=
  _ ← ASSERT (e_off e); Ok (next (q_head q) =? q_tail q).

Definition get_waiter (c : condition) (q : intq) : option Z :=
  match c with NotFull => not_full q | NotEmpty => not_empty q end.

Definition set_waiter (c : condition) (t : option Z) (q : intq) : intq :=
  match c with
  | NotFull => mk_intq (q_lock q) t (not_empty q) (q_buf q) (q_head q) (q_tail q)
  | NotEmpty => mk_intq (q_lock q) (not_full q) t (q_buf q) (q_head q) (q_tail q)
  end.

Definition set_lock (h : option Z) (q : intq) : intq :=
  mk_intq h (not_full q) (not_empty q) (q_buf q) (q_head q) (q_tail q).

(** Whether the condition is false, so that a thread may wait for it. *)
Definition lacks (c : condition) (e : env) (q : intq) : res bool :=
  match c with NotEmpty => intq_empty e q | NotFull => intq_full e q end.

(** [wait], up to and including [thread_block]. *)
Definition wait (c : condition) (e : env) (q : intq) : res intq :=
  _ ← ASSERT (negb (e_ctx e));
  _ ← ASSERT (e_off e);
  l ← lacks c e q;
  _ ← ASSERT l;
  Ok (set_waiter c (Some (e_cur e)) q).

(** [signal]: the waiting thread, if any, is unblocked and forgotten. *)
Definition signal (c : condition) (e : env) (q : intq) : res (intq * option Z) :=
  _ ← ASSERT (e_off e);
  l ← lacks c e q;
  _ ← ASSERT (negb l);
  match get_waiter c q with
  | Some t => Ok (set_waiter c None q, Some t)
  | None => Ok (q, None)
  end.

(** One round of the while loop of [intq_getc]/[intq_putc] when the queue is
    empty/full: [lock_acquire], which blocks while another thread has the lock
    and asserts that the caller does not, then [wait]. *)
Definition sleep {A} (c : condition) (e : env) (q : intq) : res (intq * outcome A) :=
  _ ← ASSERT (negb (e_ctx e));
  match q_lock q with
  | Some h => if h =? e_cur e then Fail AssertFailed else Ok (q, LockWait)
  | None => q ← wait c e (set_lock (Some (e_cur e)) q); Ok (q, Slept)
  end.

(** The return from [wait]: [lock_release], before the condition is tested
    again. *)
Definition wake (e : env) (q : intq) : intq :=
  match q_lock q with
  | Some h => if h =? e_cur e then set_lock None q else q
  | None => q
  end.

Definition intq_getc (e : env) (q : intq) : res (intq * outcome Z) :=
  _ ← ASSERT (e_off e);
  empty ← intq_empty e q;
  if (empty : bool) then sleep NotEmpty e q
  else
    byte ← arr_get (q_buf q) (q_tail q);
    let q := mk_intq (q_lock q) (not_full q) (not_empty q) (q_buf q) (q_head q) (next (q_tail q)) in
    '(q, t) ← signal NotFull e q;
    Ok (q, Done byte t).

Definition intq_putc (e : env) (q : intq) (byte : Z) : res (intq * outcome unit) :=
  _ ← ASSERT (e_off e);
  full ← intq_full e q;
  if (full : bool) then sleep NotFull e q
  else
    b ← arr_set (q_buf q) (q_head q) (u8 byte);
    let q := mk_intq (q_lock q) (not_full q) (not_empty q) b (next (q_head q)) (q_tail q) in
    '(q, t) ← signal NotEmpty e q;
    Ok (q, Done tt t).

(** ** The queue as a bounded sequence *)

(** [contents q] is what the queue holds, oldest byte first. *)
Definition intq_wf (q : intq) : Prop :=
  length (q_buf q) = 64%nat /\ 0 <= q_head q < 64 /\ 0 <= q_tail q < 64.

Definition count (q : intq) : Z := (q_head q - q_tail q) mod 64.

Definition contents (q : intq) : list Z :=
  (fun i => nth (Z.to_nat ((q_tail q + Z.of_nat i) mod 64)) (q_buf q) 0) <$> seq 0 (Z.to_nat (count q)).

Lemma next_mod pos : 0 <= pos < 64 -> next pos = (pos + 1) mod 64.
Proof.
  intros. unfold next, INTQ_BUFSIZE. rewrite s32_small by lia. apply Z.rem_mod_nonneg; lia.
Qed.

Lemma contents_length q : length (contents q) = Z.to_nat (count q).
Proof. unfold contents. by rewrite length_fmap, length_seq. Qed.

Lemma count_range q : 0 <= count q < 64.
Proof. unfold count. apply Z.mod_pos_bound. lia. Qed.

Lemma empty_iff q : intq_wf q -> (q_head q =? q_tail q) = bool_decide (contents q = []).
Proof.
  intros (_ & Hh & Ht). pose proof (contents_length q) as Hl. pose proof (count_range q).
  destruct (Z.eqb_spec (q_head q) (q_tail q)) as [He|Hne].
  - rewrite bool_decide_true; [done|]. unfold contents, count. by rewrite He, Z.sub_diag.
  - rewrite bool_decide_false; [done|]. intros Hc. rewrite Hc in Hl. simpl in Hl.
    unfold count in *. zlia.
Qed.

Lemma full_iff q : intq_wf q -> (next (q_head q) =? q_tail q) = (length (contents q) =? 63)%nat.
Proof.
  intros (_ & Hh & Ht). rewrite contents_length, next_mod by done. unfold count.
  destruct (Z.eqb_spec ((q_head q + 1) mod 64) (q_tail q)), (Nat.eqb_spec (Z.to_nat ((q_head q - q_tail q) mod 64)) 63);
    zlia.
Qed.

(** Appending at the head and taking from the tail. *)
Lemma contents_putc q b :
  intq_wf q -> (length (contents q) < 63)%nat ->
  contents (mk_intq (q_lock q) (not_full q) (not_empty q) (<[Z.to_nat (q_head q) := b]> (q_buf q))
              (next (q_head q)) (q_tail q)) = contents q ++ [b].
Proof.
  intros (Hb & Hh & Ht) Hl. rewrite contents_length in Hl. pose proof (count_range q) as Hc.
  unfold contents at 1. unfold count at 1. simpl. rewrite next_mod by done.
  assert (((q_head q + 1) mod 64 - q_tail q) mod 64 = count q + 1) as -> by (unfold count in *; zlia).
  replace (Z.to_nat (count q + 1)) with (S (Z.to_nat (count q))) by lia.
  rewrite seq_S, fmap_app. simpl. f_equal.
  - unfold contents. apply list_fmap_ext. intros i j Hij. apply lookup_seq in Hij as [-> Hi].
    simpl. rewrite nth_lookup, list_lookup_insert_ne, <- nth_lookup; [done|].
    unfold count in *. zlia.
  - f_equal. rewrite nth_lookup.
    replace (Z.to_nat ((q_tail q + Z.of_nat (Z.to_nat (count q))) mod 64)) with (Z.to_nat (q_head q))
      by (unfold count in *; zlia).
    by rewrite list_lookup_insert_eq by lia.
Qed.

Lemma contents_getc q :
  intq_wf q -> contents q <> [] ->
  exists b, arr_get (q_buf q) (q_tail q) = Ok b /\
    contents q = b :: contents (mk_intq (q_lock q) (not_full q) (not_empty q) (q_buf q)
                                  (q_head q) (next (q_tail q))).
Proof.
  intros (Hb & Hh & Ht) Hne. pose proof (count_range q) as Hc.
  assert (0 < count q) as Hpos.
  { destruct (Z.eq_dec (count q) 0) as [H0|]; [|lia]. exfalso. apply Hne.
    apply nil_length_inv. by rewrite contents_length, H0. }
  destruct (arr_get_ok (q_buf q) (q_tail q)) as [b Hget]; [lia|]. exists b. split; [done|].
  apply arr_get_Ok in Hget as [_ Hget].
  unfold contents. unfold count at 2. simpl. rewrite next_mod by done.
  assert ((q_head q - (q_tail q + 1) mod 64) mod 64 = count q - 1) as -> by (unfold count in *; zlia).
  replace (Z.to_nat (count q)) with (S (Z.to_nat (count q - 1))) by lia.
  cbn [seq]. rewrite fmap_cons. f_equal.
  - rewrite nth_lookup. replace (Z.to_nat ((q_tail q + Z.of_nat 0) mod 64)) with (Z.to_nat (q_tail q)) by zlia.
    by rewrite Hget.
  - rewrite <- fmap_S_seq, <- list_fmap_compose. apply list_fmap_ext. intros i j _. simpl. f_equal. zlia.
Qed.

(** The monitor invariant: a thread is registered as a waiter only while the
    condition it waits for is false, so no wake-up is lost. *)
Definition monitor_ok (q : intq) : Prop :=
  intq_wf q /\
  (not_empty q <> None -> contents q = []) /\
  (not_full q <> None -> length (contents q) = 63%nat).

Lemma monitor_init q : length (q_buf q) = 64%nat -> monitor_ok (intq_init q).
Proof. intros Hb. split; [split; [done|simpl; lia]|done]. Qed.

(** ** Traces of calls *)

Inductive qop : Type := Put (b : Z) | Get.

(** The result of a call: [None] when the caller went to sleep. *)
Definition q_call (e : env) (q : intq) (op : qop) : res (intq * option Z) :=
  let q := wake e q in
  match op with
  | Put b => '(q, r) ← intq_putc e q b; Ok (q, match r with Done _ _ => Some (u8 b) | _ => None end)
  | Get => '(q, r) ← intq_getc e q; Ok (q, match r with Done b _ => Some b | _ => None end)
  end.

Fixpoint q_run (q : intq) (ops : list (env * qop)) : res (intq * list (option Z)) :=
  match ops with
  | [] => Ok (q, [])
  | (e, op) :: ops =>
      '(q, r) ← q_call e q op; '(q, rs) ← q_run q ops; Ok (q, r :: rs)
  end.

(** A first-in first-out queue of at most 63 bytes. *)
Definition fifo_call (bs : list Z) (op : qop) : list Z * option Z :=
  match op with
  | Put b => if (length bs <? 63)%nat then (bs ++ [u8 b], Some (u8 b)) else (bs, None)
  | Get => match bs with [] => ([], None) | b :: bs => (bs, Some b) end
  end.

Fixpoint fifo_run (bs : list Z) (ops : list qop) : list Z * list (option Z) :=
  match ops with
  | [] => (bs, [])
  | op :: ops =>
      let '(bs, r) := fifo_call bs op in let '(bs, rs) := fifo_run bs ops in (bs, r :: rs)
  end.

(** Calls by threads, with interrupts off. *)
Definition by_thread (e : env) : Prop := e_off e = true /\ e_ctx e = false.

Lemma wake_same e q : contents (wake e q) = contents q /\ (intq_wf q -> intq_wf (wake e q)) /\
  not_empty (wake e q) = not_empty q /\ not_full (wake e q) = not_full q /\
  q_lock (wake e q) <> Some (e_cur e).
Proof.
  unfold wake. destruct (q_lock q) as [h|] eqn:Hl; [|by rewrite Hl].
  destruct (Z.eqb_spec h (e_cur e)); [done|]. rewrite Hl. split; [done|]. split; [done|].
  split; [done|]. split; [done|]. congruence.
Qed.

Lemma lacks_spec c e q :
  e_off e = true -> intq_wf q ->
  lacks c e q = Ok (match c with NotEmpty => bool_decide (contents q = [])
                               | NotFull => (length (contents q) =? 63)%nat end).
Proof.
  intros He Hq. destruct c; unfold lacks, intq_full, intq_empty; rewrite He; cbn [mbind res_bind ASSERT].
  - by rewrite full_iff.
  - by rewrite empty_iff.
Qed.

(** Falling asleep registers the thread, unless another one has the lock. *)
Lemma sleep_ok {A} c e q :
  by_thread e -> monitor_ok q -> lacks c e q = Ok true -> q_lock q <> Some (e_cur e) ->
  exists q' r, sleep (A := A) c e q = Ok (q', r) /\ contents q' = contents q /\ monitor_ok q' /\
    (forall a t, r <> Done a t).
Proof.
  intros [Ho Hc] (Hw & Hne & Hnf) Hlk Hl. unfold sleep. rewrite Hc. cbn [mbind res_bind ASSERT negb].
  destruct (q_lock q) as [h|] eqn:Hlock.
  - rewrite (proj2 (Z.eqb_neq h (e_cur e))) by congruence. exists q, LockWait. done.
  - unfold wait. rewrite Hc, Ho. cbn [mbind res_bind ASSERT negb].
    assert (lacks c e (set_lock (Some (e_cur e)) q) = Ok true) as -> by (by destruct c).
    cbn [mbind res_bind ASSERT]. eexists _, Slept. split; [done|].
    rewrite lacks_spec in Hlk by done. injection Hlk as Hlk. destruct c; simpl.
    + apply Nat.eqb_eq in Hlk. done.
    + apply bool_decide_eq_true in Hlk. done.
Qed.

(** A signal after a change that makes the condition true. *)
Lemma signal_ok c e q :
  e_off e = true -> intq_wf q -> lacks c e q = Ok false ->
  (match c with NotFull => not_empty q <> None -> contents q = []
              | NotEmpty => not_full q <> None -> length (contents q) = 63%nat end) ->
  exists q' t, signal c e q = Ok (q', t) /\ contents q' = contents q /\ monitor_ok q'.
Proof.
  intros Ho Hw Hlk Hm. unfold signal. rewrite Ho, Hlk. cbn [mbind res_bind ASSERT negb].
  destruct c; simpl; [destruct (not_full q) eqn:E|destruct (not_empty q) eqn:E];
    eexists _, _; (split; [done|]); (split; [done|]); (split; [done|]); simpl; rewrite ?E; done.
Qed.

(** A call that finds room, or a byte, returns; it may be an interrupt
    handler's. *)
Lemma putc_room e q b :
  e_off e = true -> monitor_ok q -> (length (contents q) < 63)%nat ->
  exists q' t, intq_putc e q b = Ok (q', Done tt t) /\
    contents q' = contents q ++ [u8 b] /\ monitor_ok q'.
Proof.
  intros He (Hw & Hne & Hnf) Hroom. unfold intq_putc. rewrite He. cbn [mbind res_bind ASSERT].
  pose proof (lacks_spec NotFull e q He Hw) as HF. simpl in HF. rewrite HF. cbn [mbind res_bind].
  rewrite (proj2 (Nat.eqb_neq _ _)) by lia. destruct Hw as (Hbl & Hh & Ht).
  rewrite arr_set_ok by lia. cbn [mbind res_bind].
  pose proof (contents_putc q (u8 b) (conj Hbl (conj Hh Ht)) Hroom) as Hput.
  set (q1 := mk_intq _ _ _ _ _ _) in *.
  assert (intq_wf q1) as Hw1.
  { split; [simpl; by rewrite length_insert|]. simpl. rewrite next_mod by done. zlia. }
  destruct (signal_ok NotEmpty e q1) as (q' & t & -> & Hc' & Hm'); [done|done| | |].
  { rewrite lacks_spec by done. rewrite Hput, bool_decide_false; [done|]. by intros [_ ?]%app_nil. }
  { intros Hn. specialize (Hnf Hn). lia. }
  cbn [mbind res_bind]. exists q', t. by rewrite Hc', Hput.
Qed.

Lemma getc_some e q b bs :
  e_off e = true -> monitor_ok q -> contents q = b :: bs ->
  exists q' t, intq_getc e q = Ok (q', Done b t) /\ contents q' = bs /\ monitor_ok q'.
Proof.
  intros He (Hw & Hne & Hnf) Hbs. unfold intq_getc. rewrite He. cbn [mbind res_bind ASSERT].
  pose proof (lacks_spec NotEmpty e q He Hw) as HE. simpl in HE. rewrite HE. cbn [mbind res_bind].
  rewrite bool_decide_false by (by rewrite Hbs).
  destruct (contents_getc q Hw) as (b' & -> & Hcons); [by rewrite Hbs|]. cbn [mbind res_bind].
  set (q1 := mk_intq _ _ _ _ _ _) in *. rewrite Hbs in Hcons. injection Hcons as <- Hcons.
  destruct Hw as (Hbl & Hh & Ht).
  assert (intq_wf q1) as Hw1. { split; [done|]. simpl. rewrite next_mod by done. zlia. }
  destruct (signal_ok NotFull e q1) as (q' & t & -> & Hc' & Hm'); [done|done| | |].
  { rewrite lacks_spec by done. do 2 f_equal. apply Nat.eqb_neq.
    pose proof (contents_length q) as Hl. pose proof (count_range q).
    rewrite Hbs in Hl. rewrite <- Hcons. simpl in *. lia. }
  { intros Hn. by rewrite (Hne Hn) in Hbs. }
  cbn [mbind res_bind]. exists q', t. by rewrite Hc'.
Qed.

Lemma q_call_refines e q op :
  by_thread e -> monitor_ok q ->
  exists q', q_call e q op = Ok (q', (fifo_call (contents q) op).2) /\
    contents q' = (fifo_call (contents q) op).1 /\ monitor_ok q'.
Proof.
  intros He (Hw & Hne & Hnf). destruct (wake_same e q) as (Hwc & Hww & Hwn & Hwf & Hwl).
  specialize (Hww Hw). unfold q_call. set (q0 := wake e q) in *. rewrite <- Hwc, <- Hwn, <- Hwf in *.
  assert (monitor_ok q0) as Hm by done. clearbody q0. clear q Hw Hwc Hwn Hwf. rename q0 into q.
  pose proof (contents_length q) as Hlen. pose proof (count_range q) as Hcr.
  destruct op as [b|]; cbn [fifo_call].
  - destruct (Nat.ltb_spec (length (contents q)) 63) as [Hroom|Hfull].
    + destruct (putc_room e q b (proj1 He) Hm Hroom) as (q' & t & -> & Hc' & Hm'). by exists q'.
    + pose proof (lacks_spec NotFull e q (proj1 He) Hww) as HF.
      rewrite (proj2 (Nat.eqb_eq _ _)) in HF by lia.
      destruct (sleep_ok (A := unit) NotFull e q) as (q' & r & Hs & Hc' & Hm' & Hr); [done..|].
      unfold intq_putc. simpl in HF. rewrite (proj1 He). cbn [mbind res_bind ASSERT]. rewrite HF.
      cbn [mbind res_bind]. rewrite Hs. cbn [mbind res_bind]. exists q'.
      destruct r as [a t| |]; [by destruct (Hr a t)|done|done].
  - destruct (contents q) as [|b bs] eqn:Hbs.
    + pose proof (lacks_spec NotEmpty e q (proj1 He) Hww) as HE.
      rewrite bool_decide_true in HE by done.
      destruct (sleep_ok (A := Z) NotEmpty e q) as (q' & r & Hs & Hc' & Hm' & Hr); [done..|].
      unfold intq_getc. simpl in HE. rewrite (proj1 He). cbn [mbind res_bind ASSERT]. rewrite HE.
      cbn [mbind res_bind]. rewrite Hs. cbn [mbind res_bind]. exists q'. rewrite Hc', Hbs.
      destruct r as [a t| |]; [by destruct (Hr a t)|done|done].
    + destruct (getc_some e q b bs (proj1 He) Hm Hbs) as (q' & t & -> & Hc' & Hm'). by exists q'.
Qed.

Lemma q_run_refines ops q :
  Forall (fun o => by_thread (fst o)) ops -> monitor_ok q ->
  exists q', q_run q ops = Ok (q', (fifo_run (contents q) ops.*2).2) /\
    contents q' = (fifo_run (contents q) ops.*2).1 /\ monitor_ok q'.
Proof.
  intros Hops. revert q. induction Hops as [|[e op] ops He Hops IH]; intros q Hm; [by exists q|].
  cbn [q_run]. rewrite fmap_cons. cbn [fifo_run snd].
  destruct (q_call_refines e q op He Hm) as (q1 & -> & Hc1 & Hm1). cbn [mbind res_bind].
  destruct (fifo_call (contents q) op) as [bs r]. simpl in Hc1. subst bs.
  destruct (IH q1 Hm1) as (q2 & -> & Hc2 & Hm2). cbn [mbind res_bind].
  destruct (fifo_run (contents q1) ops.*2) as [bs rs]. exists q2. simpl in Hc2. by subst bs.
Qed.


Definition demo_queue : intq := mk_intq (Some 1) None (Some 2) (replicate 64 7) 5 9.
Definition thread_env (t : Z) : env := mk_env true false t.
Definition demo_calls : list (env * qop) :=
  [(thread_env 1, Get); (thread_env 2, Put 65); (thread_env 2, Put 322); (thread_env 1, Get);
   (thread_env 3, Get); (thread_env 3, Get)].

