(* ===== verification/Serial.v ===== *)
(** * The serial port and the input buffer: devices/serial.c, devices/input.c

    [console] is the state these two files keep (the transmission mode, the
    transmit queue, the input buffer), the interrupt level, and the 16550A UART
    they drive: the divisor latch, the interrupt enable register, the bytes
    waiting to be received, the bytes transmitted so far, and what successive
    reads of the line status register will say about the transmitter.  Port
    accesses go to the UART through [inb] and [outb], so that a byte written to
    the data port while the divisor latch is open is not a transmission.

    [ctx] and [me] say whether the caller is an interrupt handler and which
    thread runs.  A call that puts the running thread to sleep returns [Slept]
    or [LockWait] with the state in which it blocks; [putc_resume] and
    [getc_resume] are what the thread does once woken.  The registration of the
    interrupt handler is not part of the state. *)

From S2P Require Import Prelude Intq.

Definition IO_BASE : Z := 1016.
Definition RBR_REG : Z := IO_BASE + 0.
Definition THR_REG : Z := IO_BASE + 0.
Definition IER_REG : Z := IO_BASE + 1.
Definition LS_REG : Z := IO_BASE + 0.
Definition MS_REG : Z := IO_BASE + 1.
Definition IIR_REG : Z := IO_BASE + 2.
Definition FCR_REG : Z := IO_BASE + 2.
Definition LCR_REG : Z := IO_BASE + 3.
Definition MCR_REG : Z := IO_BASE + 4.
Definition LSR_REG : Z := IO_BASE + 5.
Definition IER_RECV : Z := 1.
Definition IER_XMIT : Z := 2.
Definition LCR_N81 : Z := 3.
Definition LCR_DLAB : Z := 128.
Definition MCR_OUT2 : Z := 8.
Definition LSR_DR : Z := 1.
Definition LSR_THRE : Z := 32.

Inductive serial_mode : Type := UNINIT | POLL | QUEUE.

#[global] Instance serial_mode_eq_dec : EqDecision serial_mode.
Proof. solve_decision. Defined.

Record uart : Type := mk_uart {
  dlab : bool;          (* divisor latch access bit *)
  divisor : Z;
  ier : Z;              (* interrupt enable register *)
  rx : list Z;          (* bytes received and not yet read *)
  tx : list Z;          (* bytes transmitted, first one first *)
  thre : list bool;     (* the transmitter's answers; ready for ever after *)
}.

Record console : Type := mk_console {
  mode : serial_mode;
  txq : intq;           (* data to be transmitted *)
  buffer : intq;        (* input.c: keys from the keyboard and serial port *)
  intr_off : bool;      (* interrupt level: true when INTR_OFF *)
  dev : uart;
}.

Definition with_mode m c := mk_console m (txq c) (buffer c) (intr_off c) (dev c).
Definition with_txq q c := mk_console (mode c) q (buffer c) (intr_off c) (dev c).
Definition with_buffer q c := mk_console (mode c) (txq c) q (intr_off c) (dev c).
Definition with_off b c := mk_console (mode c) (txq c) (buffer c) b (dev c).
Definition with_dev d c := mk_console (mode c) (txq c) (buffer c) (intr_off c) d.

(** ** The UART *)

Definition uart_write (port v : Z) (u : uart) : uart :=
  if port =? LCR_REG then mk_uart (Z.testbit v 7) (divisor u) (ier u) (rx u) (tx u) (thre u)
  else if port =? THR_REG then
    if dlab u then mk_uart true (256 * (divisor u / 256) + u8 v) (ier u) (rx u) (tx u) (thre u)
    else mk_uart false (divisor u) (ier u) (rx u) (tx u ++ [u8 v]) (thre u)
  else if port =? IER_REG then
    if dlab u then mk_uart true (256 * u8 v + divisor u mod 256) (ier u) (rx u) (tx u) (thre u)
    else mk_uart false (divisor u) (u8 v) (rx u) (tx u) (thre u)
  else u.

Definition uart_read (port : Z) (u : uart) : Z * uart :=
  if port =? RBR_REG then
    match rx u with
    | b :: r => (b, mk_uart (dlab u) (divisor u) (ier u) r (tx u) (thre u))
    | [] => (0, u)
    end
  else if port =? LSR_REG then
    let '(ready, rest) := match thre u with b :: r => (b, r) | [] => (true, []) end in
    (Z.lor (if decide (rx u = []) then 0 else LSR_DR) (if (ready : bool) then LSR_THRE else 0),
     mk_uart (dlab u) (divisor u) (ier u) (rx u) (tx u) rest)
  else (0, u).

Definition outb (port v : Z) : M console unit := modify (fun c => with_dev (uart_write port v (dev c)) c).
Definition inb (port : Z) : M console Z :=
  fun c => let '(v, u) := uart_read port (dev c) in Ok (v, with_dev u c).

(** ** Interrupt levels and queues in the console's state *)

Definition intr_disable : M console bool := fun c => Ok (intr_off c, with_off true c).
Definition intr_set_level (off : bool) : M console unit := modify (with_off off).

Section caller.
Context (ctx : bool) (me : Z).

Definition caller (c : console) : env := mk_env (intr_off c) ctx me.

Definition txq_empty : M console bool := fun c => b ← intq_empty (caller c) (txq c); Ok (b, c).
Definition txq_full : M console bool := fun c => b ← intq_full (caller c) (txq c); Ok (b, c).
Definition txq_getc : M console (outcome Z) :=
  fun c => '(q, r) ← intq_getc (caller c) (txq c); Ok (r, with_txq q c).
Definition txq_putc (b : Z) : M console (outcome unit) :=
  fun c => '(q, r) ← intq_putc (caller c) (txq c) b; Ok (r, with_txq q c).

(** ** devices/input.c and devices/serial.c *)

Definition input_full : M console bool :=
  fun c => _ ← ASSERT (intr_off c); b ← intq_full (caller c) (buffer c); Ok (b, c).

Definition write_ier : M console unit :=
  off ← gets intr_off;
  _ ← assertM off;
  empty ← txq_empty;
  let ier := if (empty : bool) then 0 else IER_XMIT in
  full ← input_full;
  let ier := if (full : bool) then ier else Z.lor ier IER_RECV in
  outb IER_REG ier.

Definition serial_notify : M console unit :=
  off ← gets intr_off;
  _ ← assertM off;
  m ← gets mode;
  if decide (m = QUEUE) then write_ier else mret tt.

Definition set_serial (bps : Z) : M console unit :=
  let base_rate := 1843200 / 16 in
  let divisor := u16 (base_rate / bps) in
  _ ← assertM ((300 <=? bps) && (bps <=? 115200));
  _ ← outb LCR_REG (Z.lor LCR_N81 LCR_DLAB);
  _ ← outb LS_REG (Z.land divisor 255);
  _ ← outb MS_REG (Z.shiftr divisor 8);
  outb LCR_REG LCR_N81.

Definition init_poll : M console unit :=
  m ← gets mode;
  _ ← assertM (bool_decide (m = UNINIT));
  _ ← outb IER_REG 0;
  _ ← outb FCR_REG 0;
  _ ← set_serial 115200;
  _ ← outb MCR_REG MCR_OUT2;
  _ ← modify (fun c => with_txq (intq_init (txq c)) c);
  modify (with_mode POLL).

Definition serial_init_queue : M console unit :=
  m ← gets mode;
  _ ← (if decide (m = UNINIT) then init_poll else mret tt);
  m ← gets mode;
  _ ← assertM (bool_decide (m = POLL));
  _ ← modify (with_mode QUEUE);
  old_level ← intr_disable;
  _ ← write_ier;
  intr_set_level old_level.

(** Polls until the transmitter is ready: at most as often as it says no. *)
Fixpoint poll_loop (fuel : nat) : M console unit :=
  match fuel with
  | O => fail NoFuel
  | S fuel =>
      lsr ← inb LSR_REG;
      if Z.land lsr LSR_THRE =? 0 then poll_loop fuel else mret tt
  end.

Definition putc_poll (byte : Z) : M console unit :=
  off ← gets intr_off;
  _ ← assertM off;
  fuel ← gets (fun c => S (length (thre (dev c))));
  _ ← poll_loop fuel;
  outb THR_REG byte.

(** Queueing [byte], and what follows when that does not block. *)
Definition putc_queue (old_level : bool) (byte : Z) : M console (outcome unit) :=
  r ← txq_putc byte;
  match r with
  | Done _ _ => _ ← write_ier; _ ← intr_set_level old_level; mret r
  | _ => mret r
  end.

(** Sends [byte].  When the queue is full and interrupts were off on entry, its
    oldest byte is sent by polling first, so the caller never sleeps; when
    they were on it may sleep, and interrupts stay off until it is back. *)
Definition serial_putc (byte : Z) : M console (outcome unit) :=
  old_level ← intr_disable;
  m ← gets mode;
  if decide (m = QUEUE) then
    full ← (if (old_level : bool) then txq_full else mret false);
    _ ← (if (full : bool) then
           r ← txq_getc;
           match r with Done b _ => putc_poll b | _ => mret tt end
         else mret tt);
    putc_queue old_level byte
  else
    _ ← (if decide (m = UNINIT) then init_poll else mret tt);
    _ ← putc_poll byte;
    _ ← intr_set_level old_level;
    mret (Done tt None).

(** Back from [wait] with interrupts off: the lock is released and the loop of
    [intq_putc] goes round again.  Only a caller that had interrupts on sleeps. *)
Definition putc_resume (byte : Z) : M console (outcome unit) :=
  _ ← intr_disable;
  _ ← modify (fun c => with_txq (wake (caller c) (txq c)) c);
  putc_queue false byte.

Fixpoint flush_loop (fuel : nat) : M console unit :=
  match fuel with
  | O => fail NoFuel
  | S fuel =>
      empty ← txq_empty;
      if (empty : bool) then mret tt
      else
        r ← txq_getc;
        _ ← match r with Done b _ => putc_poll b | _ => mret tt end;
        flush_loop fuel
  end.

Definition serial_flush : M console unit :=
  old_level ← intr_disable;
  _ ← flush_loop 64;
  intr_set_level old_level.

Definition input_init : M console unit := modify (fun c => with_buffer (intq_init (buffer c)) c).

Definition input_putc (key : Z) : M console unit :=
  off ← gets intr_off;
  _ ← assertM off;
  full ← (fun c => b ← intq_full (caller c) (buffer c); Ok (b, c));
  _ ← assertM (negb full);
  _ ← (fun c => '(q, r) ← intq_putc (caller c) (buffer c) key; Ok ((r : outcome unit), with_buffer q c));
  serial_notify.

Definition getc_queue (old_level : bool) : M console (outcome Z) :=
  r ← (fun c => '(q, r) ← intq_getc (caller c) (buffer c); Ok (r, with_buffer q c));
  match r with
  | Done key _ => _ ← serial_notify; _ ← intr_set_level old_level; mret r
  | _ => mret r
  end.

Definition input_getc : M console (outcome Z) := old_level ← intr_disable; getc_queue old_level.

Definition getc_resume (old_level : bool) : M console (outcome Z) :=
  _ ← intr_disable;
  _ ← modify (fun c => with_buffer (wake (caller c) (buffer c)) c);
  getc_queue old_level.

Fixpoint receive_loop (fuel : nat) : M console unit :=
  match fuel with
  | O => fail NoFuel
  | S fuel =>
      full ← input_full;
      if (full : bool) then mret tt
      else
        lsr ← inb LSR_REG;
        if Z.land lsr LSR_DR =? 0 then mret tt
        else b ← inb RBR_REG; _ ← input_putc b; receive_loop fuel
  end.

Fixpoint transmit_loop (fuel : nat) : M console unit :=
  match fuel with
  | O => fail NoFuel
  | S fuel =>
      empty ← txq_empty;
      if (empty : bool) then mret tt
      else
        lsr ← inb LSR_REG;
        if Z.land lsr LSR_THRE =? 0 then mret tt
        else
          r ← txq_getc;
          _ ← match r with Done b _ => outb THR_REG b | _ => mret tt end;
          transmit_loop fuel
  end.

(** Each loop runs at most 63 times: the queues have 63 places. *)
Definition serial_interrupt : M console unit :=
  _ ← inb IIR_REG;
  _ ← receive_loop 64;
  _ ← transmit_loop 64;
  write_ier.
End caller.

(** ** The two byte streams *)

(** What has been handed over for transmission, and what has arrived and not
    yet been read by a thread. *)
Definition sent (c : console) : list Z := tx (dev c) ++ contents (txq c).
Definition pending (c : console) : list Z := contents (buffer c) ++ rx (dev c).

Definition bytes (l : list Z) : Prop := Forall (fun b => 0 <= b < 256) l.

Definition con_ok (c : console) : Prop :=
  monitor_ok (txq c) /\ monitor_ok (buffer c) /\ dlab (dev c) = false /\ mode c = QUEUE /\
  bytes (contents (txq c)) /\ bytes (rx (dev c)).

(** [c'] differs from [c] in the interrupt enable register and in the
    transmitter's future answers only. *)
Definition quiet (c c' : console) : Prop :=
  mode c' = mode c /\ txq c' = txq c /\ buffer c' = buffer c /\ intr_off c' = intr_off c /\
  dlab (dev c') = dlab (dev c) /\ rx (dev c') = rx (dev c) /\ tx (dev c') = tx (dev c).

Lemma quiet_ok c c' : quiet c c' -> con_ok c -> con_ok c'.
Proof.
  intros (Hm & Ht & Hb & _ & Hd & Hr & _). unfold con_ok. by rewrite Hm, Ht, Hb, Hd, Hr.
Qed.

Lemma quiet_streams c c' : quiet c c' -> sent c' = sent c /\ pending c' = pending c.
Proof. intros (_ & Ht & Hb & _ & _ & Hr & Hx). unfold sent, pending. by rewrite Ht, Hb, Hr, Hx. Qed.

Lemma quiet_trans c1 c2 c3 : quiet c1 c2 -> quiet c2 c3 -> quiet c1 c3.
Proof. unfold quiet. intuition congruence. Qed.

(** [runs m c] steps the computation in the goal past [m], whose outcome [H]
    states. *)
Ltac runs H := rewrite (bindM_step _ _ _ _ _ H).

Section caller_proofs.
Context (ctx : bool) (me : Z).
Implicit Types c : console.

Lemma off_assert {B} (m : M console B) c :
  intr_off c = true -> (off ← gets intr_off; _ ← assertM off; m) c = m c.
Proof. intros Ho. unfold mbind, M_bind, gets. rewrite Ho. done. Qed.

Lemma txq_empty_ok c :
  con_ok c -> intr_off c = true ->
  txq_empty ctx me c = Ok (bool_decide (contents (txq c) = []), c).
Proof.
  intros ([Hw _] & _) Ho. unfold txq_empty.
  pose proof (lacks_spec NotEmpty (caller ctx me c) (txq c) Ho Hw) as H. simpl in H. by rewrite H.
Qed.

Lemma txq_full_ok c :
  con_ok c -> intr_off c = true ->
  txq_full ctx me c = Ok ((length (contents (txq c)) =? 63)%nat, c).
Proof.
  intros ([Hw _] & _) Ho. unfold txq_full.
  pose proof (lacks_spec NotFull (caller ctx me c) (txq c) Ho Hw) as H. simpl in H. by rewrite H.
Qed.

Lemma input_full_ok c :
  con_ok c -> intr_off c = true ->
  input_full ctx me c = Ok ((length (contents (buffer c)) =? 63)%nat, c).
Proof.
  intros (_ & [Hw _] & _) Ho. unfold input_full. rewrite Ho. cbn [mbind res_bind ASSERT].
  pose proof (lacks_spec NotFull (caller ctx me c) (buffer c) Ho Hw) as H. simpl in H. by rewrite H.
Qed.

Lemma write_ier_ok c :
  con_ok c -> intr_off c = true -> exists c', write_ier ctx me c = Ok (tt, c') /\ quiet c c'.
Proof.
  intros Hc Ho. unfold write_ier. rewrite off_assert by done. runs (txq_empty_ok c Hc Ho).
  runs (input_full_ok c Hc Ho). eexists. split; [reflexivity|].
  destruct Hc as (_ & _ & Hd & _). unfold quiet. simpl. unfold uart_write.
  change (IER_REG =? LCR_REG) with false. change (IER_REG =? THR_REG) with false.
  change (IER_REG =? IER_REG) with true. cbn iota. by rewrite Hd.
Qed.

Lemma poll_loop_ok fuel c :
  (length (thre (dev c)) < fuel)%nat ->
  exists c', poll_loop fuel c = Ok (tt, c') /\ quiet c c'.
Proof.
  revert c. induction fuel as [|fuel IH]; intros c Hf; [lia|]. cbn [poll_loop].
  set (u := dev c). pose (u' := snd (uart_read LSR_REG u)).
  assert (inb LSR_REG c = Ok (fst (uart_read LSR_REG u), with_dev u' c)) as Hr.
  { unfold inb. subst u u'. by destruct (uart_read LSR_REG (dev c)). }
  assert (quiet c (with_dev u' c)) as Hq.
  { unfold quiet, u', u, uart_read. change (LSR_REG =? RBR_REG) with false.
    change (LSR_REG =? LSR_REG) with true. cbn iota. by destruct (thre (dev c)). }
  runs Hr. destruct (thre (dev c)) as [|b ready] eqn:Ht.
  - assert ((Z.land (uart_read LSR_REG u).1 LSR_THRE =? 0) = false) as ->.
    { unfold uart_read. simpl. unfold u. rewrite Ht. case_decide; done. }
    by eexists.
  - assert (thre u' = ready) as Ht' by (unfold u', u, uart_read; simpl; by rewrite Ht).
    destruct (Z.land (uart_read LSR_REG u).1 LSR_THRE =? 0).
    + destruct (IH (with_dev u' c)) as (c' & -> & Hq'); [simpl; rewrite Ht'; simpl in Hf; lia|].
      exists c'. split; [done|]. by eapply quiet_trans.
    + by eexists.
Qed.

(** Polling transmits exactly the byte given. *)
Lemma putc_poll_ok b c :
  con_ok c -> intr_off c = true -> 0 <= b < 256 ->
  exists c', putc_poll b c = Ok (tt, c') /\ con_ok c' /\ txq c' = txq c /\ buffer c' = buffer c /\
    intr_off c' = true /\ rx (dev c') = rx (dev c) /\ tx (dev c') = tx (dev c) ++ [b].
Proof.
  intros Hc Ho Hb. unfold putc_poll. rewrite off_assert by done.
  destruct (poll_loop_ok (S (length (thre (dev c)))) c) as (c1 & H1 & Hq); [lia|].
  assert (gets (fun c => S (length (thre (dev c)))) c = Ok (S (length (thre (dev c))), c)) as Hg by done.
  runs Hg. runs H1. pose proof (quiet_ok _ _ Hq Hc) as Hc1.
  destruct Hq as (Hm & Ht & Hbf & Hi & Hd & Hr & Hx).
  assert (dlab (dev c1) = false) as Hd1 by apply Hc1.
  eexists. split; [reflexivity|].
  assert (uart_write THR_REG b (dev c1) =
          mk_uart false (divisor (dev c1)) (ier (dev c1)) (rx (dev c1)) (tx (dev c1) ++ [b]) (thre (dev c1))) as Hw.
  { unfold uart_write. change (THR_REG =? LCR_REG) with false. change (THR_REG =? THR_REG) with true.
    cbn iota. rewrite Hd1. unfold u8. by rewrite Z.mod_small by lia. }
  rewrite Hw. split; [|simpl; repeat split; congruence].
  unfold con_ok in *. simpl. rewrite Ht, Hbf, Hm, Hr. destruct Hc as (? & ? & ? & ? & ? & ?). done.
Qed.

(** What every call preserves: consistency and, up to the bytes [put] and
    [got], the two streams. *)
Definition con_post (put got : list Z) (c c' : console) : Prop :=
  con_ok c' /\ sent c' = sent c ++ put /\ pending c = got ++ pending c'.

Lemma con_post_refl c : con_ok c -> con_post [] [] c c.
Proof. intros Hc. split; [done|]. by rewrite app_nil_r. Qed.

Lemma con_post_trans p1 p2 g1 g2 c1 c2 c3 :
  con_post p1 g1 c1 c2 -> con_post p2 g2 c2 c3 -> con_post (p1 ++ p2) (g1 ++ g2) c1 c3.
Proof.
  intros (_ & Hs1 & Hp1) (Hc & Hs2 & Hp2). split; [done|].
  by rewrite Hs2, Hs1, Hp1, Hp2, !(assoc_L (++)).
Qed.

Lemma con_post_quiet p g c1 c2 c3 : con_post p g c1 c2 -> quiet c2 c3 -> con_post p g c1 c3.
Proof.
  intros (Hc & Hs & Hp) Hq. split; [by eapply quiet_ok|].
  by destruct (quiet_streams _ _ Hq) as [-> ->].
Qed.

Lemma con_ok_level c b : con_ok c -> con_ok (with_off b c).
Proof. done. Qed.

Lemma txq_getc_some c b bs :
  con_ok c -> intr_off c = true -> contents (txq c) = b :: bs ->
  exists q t, txq_getc ctx me c = Ok (Done b t, with_txq q c) /\ contents q = bs /\
              con_ok (with_txq q c) /\ 0 <= b < 256.
Proof.
  intros Hc Ho Hbs. destruct Hc as (Ht & Hb & Hd & Hm & Hby & Hrx).
  destruct (getc_some (caller ctx me c) (txq c) b bs Ho Ht Hbs) as (q & t & Hg & Hq & Hmon).
  rewrite Hbs in Hby. apply Forall_cons in Hby as [Hb0 Hby].
  exists q, t. unfold txq_getc. rewrite Hg. cbn [mbind res_bind]. split; [done|]. split; [done|].
  split; [|done]. unfold con_ok. simpl. by rewrite Hq.
Qed.

(** Queueing a byte: done at once when there is room, asleep otherwise. *)
Lemma putc_queue_ok old b c :
  con_ok c -> intr_off c = true ->
  ((length (contents (txq c)) < 63)%nat \/ (ctx = false /\ q_lock (txq c) <> Some me)) ->
  exists c' r, putc_queue ctx me old b c = Ok (r, c') /\
    con_post (match r with Done _ _ => [u8 b] | _ => [] end) [] c c' /\
    ((length (contents (txq c)) < 63)%nat -> exists t, r = Done tt t).
Proof.
  intros Hc Ho Hroom. pose proof Hc as (Ht & Hb & Hd & Hm & Hby & Hrx). unfold putc_queue.
  destruct (decide (length (contents (txq c)) < 63)%nat) as [Hlt|Hge].
  - destruct (putc_room (caller ctx me c) (txq c) b Ho Ht Hlt) as (q & t & Hp & Hq & Hmon).
    assert (txq_putc ctx me b c = Ok (Done tt t, with_txq q c)) as Hp' by (unfold txq_putc; by rewrite Hp).
    runs Hp'.
    assert (con_ok (with_txq q c)) as Hc1.
    { unfold con_ok. simpl. rewrite Hq. do 4 (split; [done|]). split; [|done].
      apply Forall_app. split; [done|]. constructor; [apply u8_range|done]. }
    destruct (write_ier_ok (with_txq q c) Hc1 Ho) as (c2 & Hw & Hqt). runs Hw.
    eexists _, _. split; [reflexivity|]. split; [|eauto].
    enough (con_post [u8 b] [] c (with_txq q c)) as H1 by exact (con_post_quiet _ _ _ _ _ H1 Hqt).
    split; [done|]. unfold sent, pending. simpl. by rewrite Hq, (assoc_L (++)).
  - destruct Hroom as [?|[Hctx Hl]]; [lia|].
    assert (length (contents (txq c)) = 63%nat) as H63.
    { pose proof (contents_length (txq c)). pose proof (count_range (txq c)). lia. }
    pose proof (lacks_spec NotFull (caller ctx me c) (txq c) Ho (proj1 Ht)) as Hf.
    rewrite H63 in Hf. simpl in Hf.
    destruct (sleep_ok (A := unit) NotFull (caller ctx me c) (txq c)) as (q & r & Hs & Hq & Hmon & Hr);
      [by split|done|done|done|].
    assert (intq_putc (caller ctx me c) (txq c) b = Ok (q, r)) as Hp.
    { unfold intq_putc. simpl e_off. rewrite Ho. cbn [mbind res_bind ASSERT]. rewrite Hf. exact Hs. }
    assert (txq_putc ctx me b c = Ok (r, with_txq q c)) as Hp' by (unfold txq_putc; by rewrite Hp).
    runs Hp'. exists (with_txq q c), r.
    destruct r as [a t| |]; [by destruct (Hr a t)| |]; (split; [done|]); (split; [|lia]);
      (split; [unfold con_ok; simpl; by rewrite Hq|]); unfold sent, pending; simpl; by rewrite Hq, app_nil_r.
Qed.

Lemma serial_putc_ok b c :
  con_ok c -> (ctx = true -> intr_off c = true) -> q_lock (txq c) <> Some me ->
  exists c' r, serial_putc ctx me b c = Ok (r, c') /\
    con_post (match r with Done _ _ => [u8 b] | _ => [] end) [] c c' /\
    (intr_off c = true -> exists t, r = Done tt t).
Proof.
  intros Hc Hctx Hl. unfold serial_putc. set (c0 := with_off true c).
  assert (intr_disable c = Ok (intr_off c, c0)) as Hdis by done. runs Hdis.
  assert (gets mode c0 = Ok (QUEUE, c0)) as Hg by (unfold gets, c0; simpl; by rewrite (proj1 (proj2 (proj2 (proj2 Hc))))).
  runs Hg. rewrite decide_True by done. pose proof (con_ok_level c true Hc) as Hc0. fold c0 in Hc0.
  assert (con_post [] [] c c0) as Hpost0 by exact (con_post_refl c Hc).
  destruct (intr_off c) eqn:Hoff.
  - runs (txq_full_ok c0 Hc0 eq_refl).
    destruct (Nat.eqb_spec (length (contents (txq c0))) 63) as [Hfull|Hroom].
    + destruct (contents (txq c0)) as [|b0 bs] eqn:Hbs; [done|].
      destruct (txq_getc_some c0 b0 bs Hc0 eq_refl Hbs) as (q & t & Hget & Hq & Hc1 & Hb0).
      destruct (putc_poll_ok b0 (with_txq q c0) Hc1 eq_refl Hb0) as (c2 & Hp & Hc2 & Ht2 & Hb2 & Ho2 & Hr2 & Hx2).
      assert ((r ← txq_getc ctx me; match r with Done b _ => putc_poll b | _ => mret tt end) c0 = Ok (tt, c2)) as Hstep.
      { runs Hget. exact Hp. }
      runs Hstep. simpl in Ht2, Hb2, Hr2, Hx2.
      destruct (putc_queue_ok true b c2 Hc2 Ho2) as (c3 & r & Hpq & Hpost & Hdone).
      { left. rewrite Ht2, Hq. simpl in Hfull. lia. }
      exists c3, r. split; [exact Hpq|]. split; [|intros _; apply Hdone; rewrite Ht2, Hq; simpl in Hfull; lia].
      assert (con_post [] [] c c2) as H2.
      { split; [done|]. unfold sent, pending. rewrite Hx2, Ht2, Hb2, Hr2, Hq, app_nil_r.
        change (contents (txq c)) with (contents (txq c0)). rewrite Hbs. by rewrite <- (assoc_L (++)). }
      exact (con_post_trans _ _ _ _ _ _ _ H2 Hpost).
    + assert ((mret tt : M console unit) c0 = Ok (tt, c0)) as Hr by done. runs Hr.
      pose proof (contents_length (txq c0)). pose proof (count_range (txq c0)).
      destruct (putc_queue_ok true b c0 Hc0 eq_refl) as (c3 & r & Hpq & Hpost & Hdone); [left; lia|].
      exists c3, r. split; [exact Hpq|]. split; [|intros _; apply Hdone; lia].
      exact (con_post_trans _ _ _ _ _ _ _ Hpost0 Hpost).
  - assert ((mret false : M console bool) c0 = Ok (false, c0)) as Hr0 by done. runs Hr0.
    assert ((mret tt : M console unit) c0 = Ok (tt, c0)) as Hr by done. runs Hr.
    destruct (putc_queue_ok false b c0 Hc0 eq_refl) as (c3 & r & Hpq & Hpost & Hdone).
    { right. split; [|done]. destruct ctx; [|done]. by specialize (Hctx eq_refl). }
    exists c3, r. split; [exact Hpq|]. split; [|done].
    exact (con_post_trans _ _ _ _ _ _ _ Hpost0 Hpost).
Qed.

Lemma putc_resume_ok b c :
  con_ok c -> ctx = false ->
  exists c' r, putc_resume ctx me b c = Ok (r, c') /\
    con_post (match r with Done _ _ => [u8 b] | _ => [] end) [] c c'.
Proof.
  intros Hc Hctx. unfold putc_resume.
  set (c1 := with_txq (wake (caller ctx me (with_off true c)) (txq c)) (with_off true c)).
  destruct (wake_same (caller ctx me (with_off true c)) (txq c)) as (Hwc & Hww & Hwn & Hwf & Hwl).
  assert (con_ok c1) as Hc1.
  { destruct Hc as ((Hw & Hne & Hnf) & Hb & Hd & Hm & Hby & Hrx). unfold c1, con_ok, monitor_ok. simpl.
    rewrite Hwc, Hwn, Hwf. split; [|done]. split; [by apply Hww|done]. }
  change ((_ ← intr_disable;
           _ ← modify (fun c => with_txq (wake (caller ctx me c) (txq c)) c); putc_queue ctx me false b) c)
    with (putc_queue ctx me false b c1).
  destruct (putc_queue_ok false b c1 Hc1 eq_refl) as (c' & r & Hp & Hpost & _); [by right|].
  exists c', r. split; [exact Hp|].
  assert (con_post [] [] c c1) as H1.
  { split; [done|]. unfold sent, pending, c1. simpl. by rewrite Hwc, app_nil_r. }
  exact (con_post_trans _ _ _ _ _ _ _ H1 Hpost).
Qed.

Lemma flush_loop_ok fuel c :
  con_ok c -> intr_off c = true -> (length (contents (txq c)) < fuel)%nat ->
  exists c', flush_loop ctx me fuel c = Ok (tt, c') /\ con_post [] [] c c' /\ contents (txq c') = [] /\
             intr_off c' = true.
Proof.
  revert c. induction fuel as [|fuel IH]; intros c Hc Ho Hf; [lia|]. cbn [flush_loop].
  runs (txq_empty_ok c Hc Ho). destruct (contents (txq c)) as [|b bs] eqn:Hbs.
  - rewrite bool_decide_true by done. exists c. split; [done|]. split; [by apply con_post_refl|done].
  - rewrite bool_decide_false by done.
    destruct (txq_getc_some c b bs Hc Ho Hbs) as (q & t & Hget & Hq & Hc1 & Hb).
    destruct (putc_poll_ok b (with_txq q c) Hc1 Ho Hb) as (c2 & Hp & Hc2 & Ht2 & Hb2 & Ho2 & Hr2 & Hx2).
    runs Hget. runs Hp. simpl in *.
    destruct (IH c2 Hc2 Ho2) as (c' & Hl & Hpost & He & Ho'); [rewrite Ht2, Hq; lia|].
    exists c'. split; [exact Hl|]. split; [|done]. apply (con_post_trans [] [] [] [] _ c2); [|done].
    split; [done|]. unfold sent, pending. rewrite Hx2, Ht2, Hb2, Hr2, Hq, Hbs, app_nil_r.
    by rewrite <- (assoc_L (++)).
Qed.

Lemma serial_flush_ok c :
  con_ok c -> exists c', serial_flush ctx me c = Ok (tt, c') /\ con_post [] [] c c' /\ contents (txq c') = [].
Proof.
  intros Hc. unfold serial_flush. set (c0 := with_off true c).
  assert (intr_disable c = Ok (intr_off c, c0)) as Hdis by done. runs Hdis.
  pose proof (contents_length (txq c0)). pose proof (count_range (txq c0)).
  destruct (flush_loop_ok 64 c0 Hc eq_refl) as (c' & Hl & Hpost & He & _); [lia|]. runs Hl.
  eexists. split; [reflexivity|]. split; [exact Hpost|exact He].
Qed.

Lemma serial_notify_ok c :
  con_ok c -> intr_off c = true -> exists c', serial_notify ctx me c = Ok (tt, c') /\ quiet c c'.
Proof.
  intros Hc Ho. unfold serial_notify. rewrite off_assert by done.
  assert (gets mode c = Ok (QUEUE, c)) as Hg by (unfold gets; by rewrite (proj1 (proj2 (proj2 (proj2 Hc))))).
  runs Hg. rewrite decide_True by done. by apply write_ier_ok.
Qed.

Lemma input_putc_ok b c :
  con_ok c -> intr_off c = true -> (length (contents (buffer c)) < 63)%nat ->
  exists c', input_putc ctx me b c = Ok (tt, c') /\ con_ok c' /\ sent c' = sent c /\
    contents (buffer c') = contents (buffer c) ++ [u8 b] /\ dev c' = dev c' /\
    rx (dev c') = rx (dev c) /\ intr_off c' = true.
Proof.
  intros Hc Ho Hroom. unfold input_putc. rewrite off_assert by done.
  pose proof Hc as (Ht & Hb & Hd & Hm & Hby & Hrx).
  assert ((fun c => b ← intq_full (caller ctx me c) (buffer c); Ok (b, c)) c = Ok (false, c)) as Hf.
  { pose proof (lacks_spec NotFull (caller ctx me c) (buffer c) Ho (proj1 Hb)) as H. simpl in H.
    rewrite H. rewrite (proj2 (Nat.eqb_neq _ _)) by lia. done. }
  runs Hf. cbn [negb]. rewrite bindM_assert by done.
  destruct (putc_room (caller ctx me c) (buffer c) b Ho Hb Hroom) as (q & t & Hp & Hq & Hmon).
  assert ((fun c => '(q, r) ← intq_putc (caller ctx me c) (buffer c) b;
             Ok ((r : outcome unit), with_buffer q c)) c = Ok (Done tt t, with_buffer q c)) as Hp'.
  { rewrite Hp. done. }
  runs Hp'. destruct (serial_notify_ok (with_buffer q c)) as (c' & Hn & Hqt); [done|done|].
  exists c'. split; [exact Hn|]. split; [by apply (quiet_ok _ _ Hqt)|].
  split; [by destruct (quiet_streams _ _ Hqt) as [-> _]|].
  destruct Hqt as (_ & _ & -> & -> & _ & -> & _). done.
Qed.

(** Reading the line status register uses up one of the transmitter's
    answers. *)
Definition ticked (u : uart) : uart :=
  mk_uart (dlab u) (divisor u) (ier u) (rx u) (tx u) (tail (thre u)).

Lemma lsr_read c :
  exists v, inb LSR_REG c = Ok (v, with_dev (ticked (dev c)) c) /\
            (Z.land v LSR_DR =? 0) = bool_decide (rx (dev c) = []).
Proof.
  unfold inb, uart_read, ticked. change (LSR_REG =? RBR_REG) with false.
  change (LSR_REG =? LSR_REG) with true. cbn iota.
  destruct (thre (dev c)) as [|[] ?]; eexists; (split; [reflexivity|]);
    case_decide; rewrite ?bool_decide_true, ?bool_decide_false by done; done.
Qed.

(** Receiving moves bytes from the UART to the input buffer, in order. *)
Lemma receive_loop_ok fuel c :
  con_ok c -> intr_off c = true -> (63 - length (contents (buffer c)) < fuel)%nat ->
  exists c', receive_loop ctx me fuel c = Ok (tt, c') /\ con_post [] [] c c' /\ intr_off c' = true.
Proof.
  revert c. induction fuel as [|fuel IH]; intros c Hc Ho Hf; [lia|]. cbn [receive_loop].
  runs (input_full_ok c Hc Ho).
  pose proof (contents_length (buffer c)) as Hl. pose proof (count_range (buffer c)).
  destruct (Nat.eqb_spec (length (contents (buffer c))) 63) as [Hfull|Hroom].
  { exists c. split; [done|]. split; [by apply con_post_refl|done]. }
  destruct (lsr_read c) as (v & Hin & Hdr). set (u := ticked (dev c)) in *.
  runs Hin. rewrite Hdr. assert (con_post [] [] c (with_dev u c)) as H1 by exact (con_post_refl c Hc).
  destruct (rx (dev c)) as [|b bs] eqn:Hrx.
  { rewrite bool_decide_true by done. exists (with_dev u c). done. }
  rewrite bool_decide_false by done.
  set (u2 := mk_uart (dlab u) (divisor u) (ier u) bs (tx u) (thre u)).
  assert (inb RBR_REG (with_dev u c) = Ok (b, with_dev u2 c)) as Hrb.
  { unfold inb, uart_read. change (RBR_REG =? RBR_REG) with true. cbn iota. simpl. unfold u at 1.
    simpl. rewrite Hrx. done. }
  runs Hrb. pose proof Hc as (Ht & Hb & Hd & Hm & Hby & Hrxb). rewrite Hrx in Hrxb.
  apply Forall_cons in Hrxb as [Hb0 Hrxb].
  destruct (input_putc_ok b (with_dev u2 c)) as (c2 & Hp & Hc2 & Hs2 & Hbuf2 & _ & Hr2 & Ho2); [done|done|simpl; lia|].
  runs Hp. destruct (IH c2 Hc2 Ho2) as (c' & Hloop & Hpost & Ho').
  { rewrite Hbuf2, length_app. simpl. lia. }
  exists c'. split; [exact Hloop|]. split; [|done].
  apply (con_post_trans [] [] [] [] _ c2); [|done]. split; [done|]. split; [by rewrite Hs2, app_nil_r|].
  unfold pending. rewrite Hbuf2, Hr2, Hrx. simpl. rewrite <- (assoc_L (++)). simpl.
  unfold u8. by rewrite Z.mod_small by lia.
Qed.

Lemma transmit_loop_ok fuel c :
  con_ok c -> intr_off c = true -> (length (contents (txq c)) < fuel)%nat ->
  exists c', transmit_loop ctx me fuel c = Ok (tt, c') /\ con_post [] [] c c' /\ intr_off c' = true.
Proof.
  revert c. induction fuel as [|fuel IH]; intros c Hc Ho Hf; [lia|]. cbn [transmit_loop].
  runs (txq_empty_ok c Hc Ho). destruct (contents (txq c)) as [|b bs] eqn:Hbs.
  { rewrite bool_decide_true by done. exists c. split; [done|]. split; [by apply con_post_refl|done]. }
  rewrite bool_decide_false by done.
  destruct (lsr_read c) as (v & Hin & _). set (u := ticked (dev c)) in *.
  runs Hin. assert (con_post [] [] c (with_dev u c)) as H1 by exact (con_post_refl c Hc).
  destruct (Z.land v LSR_THRE =? 0); [by exists (with_dev u c)|].
  destruct (txq_getc_some (with_dev u c) b bs) as (q & t & Hget & Hq & Hc1 & Hb); [done|done|done|].
  runs Hget. set (c1 := with_txq q (with_dev u c)) in *.
  assert (uart_write THR_REG b (dev c1) =
          mk_uart false (divisor u) (ier u) (rx u) (tx u ++ [b]) (thre u)) as Hw.
  { unfold uart_write. change (THR_REG =? LCR_REG) with false. change (THR_REG =? THR_REG) with true.
    cbn iota. simpl. rewrite (proj1 (proj2 (proj2 Hc))). unfold u8. by rewrite Z.mod_small by lia. }
  assert (outb THR_REG b c1 = Ok (tt, with_dev (uart_write THR_REG b (dev c1)) c1)) as Hout by done.
  runs Hout. rewrite Hw. set (c2 := with_dev _ c1).
  assert (con_ok c2) as Hc2. { destruct Hc1 as (? & ? & ? & ? & ? & ?). done. }
  destruct (IH c2 Hc2) as (c' & Hloop & Hpost & Ho'); [done|simpl in *; rewrite Hq; lia|].
  exists c'. split; [exact Hloop|]. split; [|done]. apply (con_post_trans [] [] [] [] _ c2); [|done].
  split; [done|]. unfold sent, pending. simpl. rewrite Hq, Hbs, app_nil_r. by rewrite <- (assoc_L (++)).
Qed.

Lemma serial_interrupt_ok c :
  con_ok c -> intr_off c = true ->
  exists c', serial_interrupt ctx me c = Ok (tt, c') /\ con_post [] [] c c'.
Proof.
  intros Hc Ho. unfold serial_interrupt.
  assert (inb IIR_REG c = Ok (0, with_dev (dev c) c)) as Hin by done. runs Hin.
  destruct (receive_loop_ok 64 (with_dev (dev c) c)) as (c1 & H1 & Hp1 & Ho1); [done|done|simpl; lia|]. runs H1.
  pose proof (contents_length (txq c1)). pose proof (count_range (txq c1)).
  destruct (transmit_loop_ok 64 c1) as (c2 & H2 & Hp2 & Ho2); [apply Hp1|done|lia|]. runs H2.
  destruct (write_ier_ok c2) as (c3 & H3 & Hq); [apply Hp2|done|].
  exists c3. split; [exact H3|]. eapply con_post_quiet; [|exact Hq].
  exact (con_post_trans _ _ _ _ _ _ _ Hp1 Hp2).
Qed.

Lemma getc_queue_ok old c :
  con_ok c -> intr_off c = true -> ctx = false -> q_lock (buffer c) <> Some me ->
  exists c' r, getc_queue ctx me old c = Ok (r, c') /\
    con_post [] (match r with Done b _ => [b] | _ => [] end) c c'.
Proof.
  intros Hc Ho Hctx Hl. pose proof Hc as (Ht & Hb & Hd & Hm & Hby & Hrx). unfold getc_queue.
  destruct (contents (buffer c)) as [|b bs] eqn:Hbs.
  - pose proof (lacks_spec NotEmpty (caller ctx me c) (buffer c) Ho (proj1 Hb)) as He.
    rewrite bool_decide_true in He by done.
    destruct (sleep_ok (A := Z) NotEmpty (caller ctx me c) (buffer c)) as (q & r & Hs & Hq & Hmon & Hr);
      [by split|done|done|done|].
    assert ((fun c => '(q, r) ← intq_getc (caller ctx me c) (buffer c); Ok (r, with_buffer q c)) c =
            Ok (r, with_buffer q c)) as Hg.
    { assert (intq_getc (caller ctx me c) (buffer c) = Ok (q, r)) as ->; [|done].
      unfold intq_getc. simpl in He. simpl e_off. rewrite Ho. cbn [mbind res_bind ASSERT].
      rewrite He. exact Hs. }
    runs Hg. exists (with_buffer q c), r.
    destruct r as [a t| |]; [by destruct (Hr a t)| |]; (split; [done|]); (split; [done|]);
      unfold sent, pending; simpl; by rewrite Hq, app_nil_r.
  - destruct (getc_some (caller ctx me c) (buffer c) b bs Ho Hb Hbs) as (q & t & Hg & Hq & Hmon).
    assert ((fun c => '(q, r) ← intq_getc (caller ctx me c) (buffer c); Ok (r, with_buffer q c)) c =
            Ok (Done b t, with_buffer q c)) as Hg' by (by rewrite Hg).
    runs Hg'. destruct (serial_notify_ok (with_buffer q c)) as (c2 & Hn & Hqt); [done|done|]. runs Hn.
    eexists _, _. split; [reflexivity|].
    enough (con_post [] [b] c (with_buffer q c)) as H1 by exact (con_post_quiet _ _ _ _ _ H1 Hqt).
    split; [done|]. unfold sent, pending. simpl. by rewrite Hq, Hbs, app_nil_r.
Qed.

Lemma input_getc_ok c :
  con_ok c -> ctx = false -> q_lock (buffer c) <> Some me ->
  exists c' r, input_getc ctx me c = Ok (r, c') /\
    con_post [] (match r with Done b _ => [b] | _ => [] end) c c'.
Proof.
  intros Hc Hctx Hl. unfold input_getc.
  assert (intr_disable c = Ok (intr_off c, with_off true c)) as Hdis by done. runs Hdis.
  destruct (getc_queue_ok (intr_off c) (with_off true c)) as (c' & r & Hg & Hpost); [done..|].
  by exists c', r.
Qed.

Lemma getc_resume_ok old c :
  con_ok c -> ctx = false ->
  exists c' r, getc_resume ctx me old c = Ok (r, c') /\
    con_post [] (match r with Done b _ => [b] | _ => [] end) c c'.
Proof.
  intros Hc Hctx. unfold getc_resume.
  set (c1 := with_buffer (wake (caller ctx me (with_off true c)) (buffer c)) (with_off true c)).
  destruct (wake_same (caller ctx me (with_off true c)) (buffer c)) as (Hwc & Hww & Hwn & Hwf & Hwl).
  assert (con_ok c1) as Hc1.
  { destruct Hc as (Ht & (Hw & Hne & Hnf) & Hd & Hm & Hby & Hrx). unfold c1, con_ok, monitor_ok. simpl.
    rewrite Hwc, Hwn, Hwf. split; [done|]. split; [|done]. split; [by apply Hww|done]. }
  change ((_ ← intr_disable;
           _ ← modify (fun c => with_buffer (wake (caller ctx me c) (buffer c)) c); getc_queue ctx me old) c)
    with (getc_queue ctx me old c1).
  destruct (getc_queue_ok old c1) as (c' & r & Hp & Hpost); [done..|].
  exists c', r. split; [exact Hp|].
  assert (con_post [] [] c c1) as H1.
  { split; [done|]. unfold sent, pending, c1. simpl. by rewrite Hwc, app_nil_r. }
  exact (con_post_trans _ _ _ _ _ _ _ H1 Hpost).
Qed.
End caller_proofs.

(** ** Histories of the console

    What can happen: a thread or interrupt handler prints a byte, a thread
    reads a key, a sleeping thread goes on, the UART interrupts, a byte arrives
    on the line, the queue is flushed. *)

Inductive con_event : Type :=
  | EPutc (ctx off : bool) (me b : Z) | EPutcResume (me b : Z)
  | EGetc (off : bool) (me : Z) | EGetcResume (off : bool) (me : Z)
  | EInterrupt (me : Z) | EArrive (b : Z) | EFlush (off : bool) (me : Z).

(** An interrupt handler runs with interrupts off; a line carries bytes. *)
Definition event_valid (e : con_event) : bool :=
  match e with
  | EPutc ctx off _ _ => implb ctx off
  | EArrive b => (0 <=? b) && (b <? 256)
  | _ => true
  end.

Inductive con_result : Type := RPut (b : Z) | RGot (b : Z) | RNone.

Definition put_result (b : Z) (r : outcome unit) : con_result :=
  match r with Done _ _ => RPut (u8 b) | _ => RNone end.
Definition got_result (r : outcome Z) : con_result :=
  match r with Done b _ => RGot b | _ => RNone end.

Definition arrive (b : Z) (u : uart) : uart :=
  mk_uart (dlab u) (divisor u) (ier u) (rx u ++ [b]) (tx u) (thre u).

(** A thread that holds a queue's lock is asleep in it and makes no call. *)
Definition con_step (e : con_event) : M console con_result := fun c =>
  match e with
  | EPutc ctx off me b =>
      if decide (q_lock (txq c) = Some me) then Ok (RNone, c)
      else '(r, c) ← serial_putc ctx me b (with_off off c); Ok (put_result b r, c)
  | EPutcResume me b => '(r, c) ← putc_resume false me b c; Ok (put_result b r, c)
  | EGetc off me =>
      if decide (q_lock (buffer c) = Some me) then Ok (RNone, c)
      else '(r, c) ← input_getc false me (with_off off c); Ok (got_result r, c)
  | EGetcResume off me => '(r, c) ← getc_resume false me off c; Ok (got_result r, c)
  | EInterrupt me => '(_, c) ← serial_interrupt true me (with_off true c); Ok (RNone, c)
  | EArrive b => Ok (RNone, with_dev (arrive b (dev c)) c)
  | EFlush off me => '(_, c) ← serial_flush false me (with_off off c); Ok (RNone, c)
  end.

Fixpoint con_run (es : list con_event) : M console (list con_result) :=
  match es with
  | [] => mret []
  | e :: es => r ← con_step e; rs ← con_run es; mret (r :: rs)
  end.

Definition puts_of (rs : list con_result) : list Z :=
  rs ≫= fun r => match r with RPut b => [b] | _ => [] end.
Definition gots_of (rs : list con_result) : list Z :=
  rs ≫= fun r => match r with RGot b => [b] | _ => [] end.
Definition arrivals (es : list con_event) : list Z :=
  es ≫= fun e => match e with EArrive b => [b] | _ => [] end.

Lemma con_step_ok e c :
  con_ok c -> event_valid e = true ->
  exists r c', con_step e c = Ok (r, c') /\ con_ok c' /\
    sent c' = sent c ++ puts_of [r] /\ pending c ++ arrivals [e] = gots_of [r] ++ pending c'.
Proof.
  intros Hc He. destruct e as [ctx off me b|me b|off me|off me|me|b|off me]; simpl in *.
  - case_decide as Hl; [by exists RNone, c; rewrite !app_nil_r|].
    destruct (serial_putc_ok ctx me b (with_off off c)) as (c' & r & -> & (Hc' & Hs & Hp) & _);
      [done|by destruct ctx|done|]. cbn [mbind res_bind].
    exists (put_result b r), c'. split; [done|]. split; [done|].
    change (sent (with_off off c)) with (sent c) in Hs.
    change (pending (with_off off c)) with (pending c) in Hp.
    rewrite Hs, Hp. destruct r; simpl; by rewrite ?app_nil_r.
  - destruct (putc_resume_ok false me b c Hc eq_refl) as (c' & r & -> & Hc' & Hs & Hp).
    cbn [mbind res_bind]. exists (put_result b r), c'. rewrite Hs, Hp. destruct r; simpl; by rewrite ?app_nil_r.
  - case_decide as Hl; [by exists RNone, c; rewrite !app_nil_r|].
    destruct (input_getc_ok false me (with_off off c)) as (c' & r & -> & Hc' & Hs & Hp); [done..|].
    cbn [mbind res_bind]. exists (got_result r), c'.
    change (sent (with_off off c)) with (sent c) in Hs.
    change (pending (with_off off c)) with (pending c) in Hp. rewrite Hs, Hp. destruct r; simpl; by rewrite ?app_nil_r.
  - destruct (getc_resume_ok false me off c Hc eq_refl) as (c' & r & -> & Hc' & Hs & Hp).
    cbn [mbind res_bind]. exists (got_result r), c'. rewrite Hs, Hp. destruct r; simpl; by rewrite ?app_nil_r.
  - destruct (serial_interrupt_ok true me (with_off true c)) as (c' & -> & Hc' & Hs & Hp); [done..|].
    cbn [mbind res_bind]. exists RNone, c'. simpl in *. by rewrite Hs, ?app_nil_r, <- Hp.
  - eexists _, _. split; [done|]. apply andb_true_iff in He as [H1%Z.leb_le H2%Z.ltb_lt].
    unfold con_ok, sent, pending in *. simpl. rewrite app_nil_r, <- (assoc_L (++)). split; [|done].
    destruct Hc as (? & ? & ? & ? & ? & Hrx). do 5 (split; [done|]). apply Forall_app.
    split; [done|]. constructor; [lia|done].
  - destruct (serial_flush_ok false me (with_off off c)) as (c' & -> & (Hc' & Hs & Hp) & _); [done..|].
    cbn [mbind res_bind]. exists RNone, c'. simpl in *. by rewrite Hs, ?app_nil_r, <- Hp.
Qed.

Lemma con_run_ok es c :
  con_ok c -> Forall (fun e => event_valid e = true) es ->
  exists rs c', con_run es c = Ok (rs, c') /\ con_ok c' /\
    sent c' = sent c ++ puts_of rs /\ pending c ++ arrivals es = gots_of rs ++ pending c'.
Proof.
  intros Hc Hes. revert c Hc. induction Hes as [|e es He Hes IH]; intros c Hc; cbn [con_run].
  - exists [], c. simpl. by rewrite !app_nil_r.
  - destruct (con_step_ok e c Hc He) as (r & c1 & H1 & Hc1 & Hs1 & Hp1). runs H1.
    destruct (IH c1 Hc1) as (rs & c2 & H2 & Hc2 & Hs2 & Hp2). runs H2.
    exists (r :: rs), c2. split; [done|]. split; [done|].
    change (puts_of (r :: rs)) with (puts_of ([r] ++ rs)). change (gots_of (r :: rs)) with (gots_of ([r] ++ rs)).
    change (arrivals (e :: es)) with (arrivals ([e] ++ es)).
    unfold puts_of, gots_of, arrivals in *. rewrite !bind_app, Hs2, Hs1.
    rewrite !(assoc_L (++)), Hp1, <- !(assoc_L (++)), Hp2. done.
Qed.

Definition blank_intq : intq := mk_intq None None None (replicate 64 0) 0 0.
Definition console_boot (answers : list bool) (arrived : list Z) : console :=
  mk_console UNINIT blank_intq blank_intq true (mk_uart true 0 0 arrived [] answers).

(** [init_poll] closes the divisor latch and sets 115200 bps. *)
Lemma init_queue_ok answers arrived :
  bytes arrived ->
  exists c, serial_init_queue false 0 (console_boot answers arrived) = Ok (tt, c) /\ con_ok c /\
    sent c = [] /\ pending c = arrived /\ divisor (dev c) = 1.
Proof.
  intros Hb. eexists. split; [reflexivity|]. split; [|done].
  pose proof (monitor_init blank_intq eq_refl) as Hm.
  split; [exact Hm|]. split; [exact Hm|]. split; [done|]. split; [done|]. split; [constructor|exact Hb].
Qed.


Definition demo_events : list con_event :=
  [EPutc false false 1 72; EPutc true true 1 105; EGetc false 2; EArrive 113; EInterrupt 1;
   EGetcResume false 2; EPutc false false 3 300; EFlush true 1].

