(* ===== verification/Palloc.v ===== *)
(** * The page allocator: threads/palloc.c

    [pal] is the two pools, each a bitmap of its pages and a base address, and
    the contents of RAM as the allocator changes them ([PAL_ZERO], the 0xcc
    fill of freed pages).  The pools' locks order concurrent calls; here calls
    follow one another.

    The theorem follows a client that obtains page groups and frees them: a
    group handed out is aligned, lies in its pool and never overlaps another
    group that is still allocated, and freeing a live group always succeeds. *)

From S2P Require Import Prelude Vaddr Bitmap.

(** RAM, by kernel virtual address. *)
Definition ram : Type := Z -> Z.

Definition fill (p n v : Z) (m : ram) : ram :=
  fun a => if (p <=? a) && (a <? p + n) then v else m a.

Record pool : Type := mk_pool { used_map : bitmap; base : Z }.

Record pal : Type := mk_pal { kernel_pool : pool; user_pool : pool; memory : ram }.

(** enum palloc_flags *)
Definition PAL_ASSERT : Z := 1.
Definition PAL_ZERO : Z := 2.
Definition PAL_USER : Z := 4.

Definition has_flag (flags f : Z) : bool := negb (Z.land flags f =? 0).

(** Which of the two pools. *)
Definition get_pool (user : bool) (s : pal) : pool :=
  if user then user_pool s else kernel_pool s.
Definition set_map (user : bool) (b : bitmap) (s : pal) : pal :=
  if user then mk_pal (kernel_pool s) (mk_pool b (base (user_pool s))) (memory s)
  else mk_pal (mk_pool b (base (kernel_pool s))) (user_pool s) (memory s).
Definition set_memory (m : ram) (s : pal) : pal := mk_pal (kernel_pool s) (user_pool s) m.

Definition palloc_get_multiple (flags page_cnt : Z) : M pal Z := fun s =>
  let user := has_flag flags PAL_USER in
  if page_cnt =? 0 then Ok (NULL, s)
  else
    let pool := get_pool user s in
    '(b, page_idx) ← bitmap_scan_and_flip (used_map pool) 0 page_cnt false;
    let s := set_map user b s in
    let pages := if negb (page_idx =? BITMAP_ERROR)
                 then u32 (base pool + u32 (PGSIZE * page_idx)) else NULL in
    if negb (pages =? NULL) then
      let s := if has_flag flags PAL_ZERO
               then set_memory (fill pages (u32 (PGSIZE * page_cnt)) 0 (memory s)) s else s in
      Ok (pages, s)
    else if has_flag flags PAL_ASSERT then Fail KernelPanic
    else Ok (pages, s).

Definition palloc_get_page (flags : Z) : M pal Z := palloc_get_multiple flags 1.

Definition page_from_pool (p : pool) (page : Z) : bool :=
  let page_no := pg_no page in
  let start_page := pg_no (base p) in
  let end_page := u32 (start_page + bitmap_size (used_map p)) in
  (start_page <=? page_no) && (page_no <? end_page).

Definition palloc_free_multiple (pages page_cnt : Z) : M pal unit := fun s =>
  _ ← ASSERT (pg_ofs pages =? 0);
  if (pages =? NULL) || (page_cnt =? 0) then Ok (tt, s)
  else
    user ← (if page_from_pool (kernel_pool s) pages then Ok false
            else if page_from_pool (user_pool s) pages then Ok true
            else Fail KernelPanic);
    let pool := get_pool user s in
    let page_idx := u32 (pg_no pages - pg_no (base pool)) in
    let s := set_memory (fill pages (u32 (PGSIZE * page_cnt)) 204 (memory s)) s in
    all ← bitmap_all (used_map pool) page_idx page_cnt;
    _ ← ASSERT all;
    b ← bitmap_set_multiple (used_map pool) page_idx page_cnt false;
    Ok (tt, set_map user b s).

Definition palloc_free_page (page : Z) : M pal unit := palloc_free_multiple page 1.

(** The bitmap goes at the start of the pool; [junk] is what its pages held. *)
Definition init_pool (base page_cnt : Z) (junk : list Z) : res pool :=
  let bm_pages := DIV_ROUND_UP (bitmap_buf_size page_cnt) PGSIZE in
  if page_cnt <? bm_pages then Fail KernelPanic
  else
    let page_cnt := page_cnt - bm_pages in
    b ← bitmap_create_in_buf page_cnt junk (u32 (bm_pages * PGSIZE));
    Ok (mk_pool b (u32 (base + u32 (bm_pages * PGSIZE)))).

(** [kend] is the linker's [_end]. *)
Definition palloc_init (kend ram_pages user_page_limit : Z) (kjunk ujunk : list Z) (m : ram) : res pal :=
  let free_start := pg_round_up kend in
  free_end ← ptov (u32 (ram_pages * PGSIZE));
  let free_pages := u32 (Z.quot (s32 (free_end - free_start)) PGSIZE) in
  let user_pages := free_pages / 2 in
  let user_pages := if user_page_limit <? user_pages then user_page_limit else user_pages in
  let kernel_pages := free_pages - user_pages in
  k ← init_pool free_start kernel_pages kjunk;
  u ← init_pool (u32 (free_start + u32 (kernel_pages * PGSIZE))) user_pages ujunk;
  Ok (mk_pal k u m).

(** ** Allocated pages *)

Definition pool_ok (p : pool) : Prop :=
  bm_wf (used_map p) /\ 0 < base p /\ base p mod 4096 = 0 /\
  base p + 4096 * bit_cnt (used_map p) <= 2 ^ 32.

Definition disjoint_pools (p q : pool) : Prop :=
  base p + 4096 * bit_cnt (used_map p) <= base q.

Definition pal_ok (s : pal) : Prop :=
  pool_ok (kernel_pool s) /\ pool_ok (user_pool s) /\ disjoint_pools (kernel_pool s) (user_pool s).

(** The [n] pages from page [i] of a pool, from address [p]. *)
Definition group_in (s : pal) (user : bool) (i n p : Z) : Prop :=
  0 <= i /\ 0 < n /\ i + n <= bit_cnt (used_map (get_pool user s)) /\
  p = base (get_pool user s) + 4096 * i.

Definition allocated (s : pal) (a : Z) : Prop :=
  exists user i, group_in s user i 1 a /\ bm_get (used_map (get_pool user s)) i = true.

(** [a] is one of the [n] pages from [p] on. *)
Definition page_of (p n a : Z) : Prop := exists j, 0 <= j < n /\ a = p + 4096 * j.

Lemma pal_ok_pool s user : pal_ok s -> pool_ok (get_pool user s).
Proof. intros (Hk & Hu & _). by destruct user. Qed.

Lemma pool_cnt p : pool_ok p -> 0 <= bit_cnt (used_map p) < 2 ^ 20.
Proof. intros ((? & _) & ? & ? & ?). lia. Qed.

(** A page belongs to one pool and has one index in it. *)
Lemma group_unique s u1 u2 i1 i2 a :
  pal_ok s -> group_in s u1 i1 1 a -> group_in s u2 i2 1 a -> u1 = u2 /\ i1 = i2.
Proof.
  intros (Hk & Hu & Hd) (? & _ & ? & ->) (? & _ & ? & He). unfold disjoint_pools, pool_ok in *.
  destruct u1, u2; simpl in *; split; try done; lia.
Qed.

Lemma group_page s user i n p a :
  group_in s user i n p -> page_of p n a -> exists j, i <= j < i + n /\ group_in s user j 1 a.
Proof.
  intros (? & ? & ? & ->) (j & Hj & ->). exists (i + j). split; [lia|]. unfold group_in. lia.
Qed.

Lemma get_set_pool s user b v :
  get_pool v (set_map user b s) =
  if bool_decide (user = v) then mk_pool b (base (get_pool v s)) else get_pool v s.
Proof. by destruct user, v. Qed.

Lemma set_map_ok s user b :
  pal_ok s -> bm_wf b -> bit_cnt b = bit_cnt (used_map (get_pool user s)) -> pal_ok (set_map user b s).
Proof.
  intros (Hk & Hu & Hd) Hb Hc. unfold pal_ok, pool_ok, disjoint_pools in *.
  destruct user; simpl in *; rewrite ?Hc; tauto.
Qed.

Lemma set_map_group s user b v i n p :
  bit_cnt b = bit_cnt (used_map (get_pool user s)) ->
  group_in (set_map user b s) v i n p <-> group_in s v i n p.
Proof. intros Hc. unfold group_in. destruct user, v; simpl in *; by rewrite ?Hc. Qed.

(** Changing one run of a pool's bits changes the status of its pages. *)
Lemma allocated_fill s user b i n v p :
  pal_ok s -> group_in s user i n p -> bm_fill (used_map (get_pool user s)) i n v b ->
  forall a, allocated (set_map user b s) a <->
            (if v then allocated s a \/ page_of p n a else allocated s a /\ ~ page_of p n a).
Proof.
  intros Hs Hg (Hw & Hc & Hf) a. pose proof Hg as (Hi0 & Hn0 & Hin & Hp).
  assert (forall u j, group_in s u j 1 a ->
            (page_of p n a <-> u = user /\ i <= j < i + n)) as Hpage.
  { intros u j Hj. split.
    - intros Hpa. destruct (group_page _ _ _ _ _ _ Hg Hpa) as (j' & Hj' & Hg').
      destruct (group_unique _ _ _ _ _ _ Hs Hj Hg') as [-> ->]. done.
    - intros [-> Hr]. destruct Hj as (? & ? & ? & ->). exists (j - i). subst p. lia. }
  assert (forall u j, group_in s u j 1 a ->
            bm_get (used_map (get_pool u (set_map user b s))) j =
            if bool_decide (u = user /\ i <= j < i + n) then v else bm_get (used_map (get_pool u s)) j) as Hbit.
  { intros u j (Hj & _). rewrite get_set_pool. destruct (decide (user = u)) as [<-|Hne].
    - rewrite bool_decide_true by done. simpl. rewrite Hf by done.
      destruct (Z.leb_spec i j), (Z.ltb_spec j (i + n)); simpl; try lia;
        first [rewrite bool_decide_true by (split; [done|lia])|rewrite bool_decide_false by (intros [_ ?]; lia)]; done.
    - rewrite !bool_decide_false by naive_solver. done. }
  split.
  - intros (u & j & Hj & Hget). rewrite set_map_group in Hj by done. rewrite (Hbit u j Hj) in Hget.
    case_bool_decide as Hr.
    + subst v. right. by apply (Hpage u j Hj).
    + assert (allocated s a) by (by exists u, j). destruct v; [by left|]. split; [done|].
      by rewrite (Hpage u j Hj).
  - intros Hal.
    assert (exists u j, group_in s u j 1 a /\
       (if bool_decide (u = user /\ i <= j < i + n) then v else bm_get (used_map (get_pool u s)) j) = true)
      as (u & j & Hj & Hget).
    { destruct v.
      - destruct Hal as [(u & j & Hj & Hget)|Hpa].
        + exists u, j. split; [done|]. by case_bool_decide.
        + destruct (group_page _ _ _ _ _ _ Hg Hpa) as (j & Hj & Hg'). exists user, j.
          split; [done|]. by rewrite bool_decide_true.
      - destruct Hal as [(u & j & Hj & Hget) Hnp]. exists u, j. split; [done|].
        rewrite (Hpage u j Hj) in Hnp. by rewrite bool_decide_false. }
    exists u, j. rewrite set_map_group by done. split; [done|]. by rewrite (Hbit u j Hj).
Qed.

(** Two pages of one group of free bits are not allocated. *)
Lemma group_free s user i n p a :
  pal_ok s -> group_in s user i n p -> bm_group (used_map (get_pool user s)) i n false ->
  page_of p n a -> ~ allocated s a.
Proof.
  intros Hs Hg Hfree Hpa (u & j & Hj & Hget).
  destruct (group_page _ _ _ _ _ _ Hg Hpa) as (j' & Hj' & Hg').
  destruct (group_unique _ _ _ _ _ _ Hs Hj Hg') as [-> ->]. by rewrite (Hfree j' Hj') in Hget.
Qed.

Lemma set_memory_same m s :
  (pal_ok (set_memory m s) <-> pal_ok s) /\ (forall a, allocated (set_memory m s) a <-> allocated s a) /\
  (forall u i n p, group_in (set_memory m s) u i n p <-> group_in s u i n p).
Proof.
  split; [done|]. split; [|intros [] ? ? ?; done]. intros a.
  split; intros (u & i & Hg & Hb); exists u, i; by destruct u.
Qed.

(** ** The operations *)

Lemma palloc_get_ok flags n s :
  pal_ok s -> 0 <= n < 2 ^ 32 -> has_flag flags PAL_ASSERT = false ->
  exists p s', palloc_get_multiple flags n s = Ok (p, s') /\ pal_ok s' /\
    (forall u i k q, group_in s' u i k q <-> group_in s u i k q) /\
    ((p = NULL /\ forall a, allocated s' a <-> allocated s a) \/
     (exists i, group_in s (has_flag flags PAL_USER) i n p /\
       (forall a, page_of p n a -> ~ allocated s a) /\
       (forall a, allocated s' a <-> allocated s a \/ page_of p n a))).
Proof.
  intros Hs Hn Hna. unfold palloc_get_multiple. set (user := has_flag flags PAL_USER).
  destruct (Z.eqb_spec n 0) as [->|Hn0]; [by exists NULL, s; split; [done|]; split; [done|]; split; [done|left]|].
  pose proof (pal_ok_pool s user Hs) as Hp. pose proof (pool_cnt _ Hp) as Hcnt.
  destruct Hp as (Hw & Hb0 & Hal & Htop).
  destruct (bitmap_scan_and_flip_total (used_map (get_pool user s)) 0 n false) as (b & r & -> & Hscan & Hflip);
    [done|unfold BITMAP_ERROR; lia|lia|lia|]. cbn [mbind res_bind].
  destruct (Z.eqb_spec r BITMAP_ERROR) as [->|Hr].
  - cbn [negb]. change (NULL =? NULL) with true. cbn [negb]. rewrite Hna. subst b.
    assert (forall u i k q, group_in (set_map user (used_map (get_pool user s)) s) u i k q <->
                            group_in s u i k q) as Hgr by (intros; by apply set_map_group).
    exists NULL, (set_map user (used_map (get_pool user s)) s). split; [done|].
    split; [by apply set_map_ok|]. split; [done|]. left. split; [done|]. intros a.
    split; intros (u & i & Hg & Hbit); exists u, i; destruct user, u; done.
  - destruct Hscan as [[]|(_ & Hr0 & Hrn & Hgrp & _)]; [done|]. cbn [negb].
    set (p := base (get_pool user s) + 4096 * r).
    assert (u32 (base (get_pool user s) + u32 (PGSIZE * r)) = p) as ->.
    { change PGSIZE with 4096. rewrite !u32_small by (rewrite ?u32_small; lia). done. }
    rewrite (proj2 (Z.eqb_neq p NULL)) by (unfold p, NULL; lia). cbn [negb].
    assert (group_in s user r n p) as Hg by (unfold group_in; lia).
    set (s1 := set_map user b s).
    pose proof (allocated_fill s user b r n true p Hs Hg Hflip) as Hall. fold s1 in Hall.
    assert (pal_ok s1) as Hs1 by (apply set_map_ok; [done|apply Hflip|apply Hflip]).
    assert (forall u i k q, group_in s1 u i k q <-> group_in s u i k q) as Hgr
      by (intros; apply set_map_group, Hflip).
    set (m := fill p (u32 (PGSIZE * n)) 0 (memory s1)).
    destruct (set_memory_same m s1) as (HM1 & HM2 & HM3).
    eexists _, _. split; [reflexivity|].
    destruct (has_flag flags PAL_ZERO); fold m.
    + split; [by apply HM1|]. split; [intros; by rewrite HM3|]. right. exists r. split; [done|].
      split; [intros a; by apply (group_free s user r n p)|]. intros a. by rewrite HM2.
    + split; [done|]. split; [done|]. right. exists r. split; [done|].
      split; [intros a; by apply (group_free s user r n p)|done].
Qed.

Lemma page_from_pool_iff p a :
  pool_ok p -> 0 <= a < 2 ^ 32 -> a mod 4096 = 0 ->
  page_from_pool p a = true <-> base p <= a < base p + 4096 * bit_cnt (used_map p).
Proof.
  intros Hp Ha Hm. pose proof (pool_cnt _ Hp). destruct Hp as (_ & Hb0 & Hal & Htop).
  unfold page_from_pool, bitmap_size. rewrite !pg_no_div by lia.
  rewrite u32_small by zlia. rewrite andb_true_iff, Z.leb_le, Z.ltb_lt. zlia.
Qed.

Lemma group_bounds s u i n p :
  pal_ok s -> group_in s u i n p ->
  0 < p /\ p mod 4096 = 0 /\ p + 4096 * n <= 2 ^ 32 /\
  base (get_pool u s) <= p < base (get_pool u s) + 4096 * bit_cnt (used_map (get_pool u s)).
Proof.
  intros Hs (? & ? & ? & ->). destruct (pal_ok_pool s u Hs) as (_ & ? & ? & ?). zlia.
Qed.

Lemma palloc_free_ok s u i n p :
  pal_ok s -> group_in s u i n p -> (forall a, page_of p n a -> allocated s a) ->
  exists s', palloc_free_multiple p n s = Ok (tt, s') /\ pal_ok s' /\
    (forall v j k q, group_in s' v j k q <-> group_in s v j k q) /\
    (forall a, allocated s' a <-> allocated s a /\ ~ page_of p n a).
Proof.
  intros Hs Hg Hall. pose proof (group_bounds s u i n p Hs Hg) as (Hp0 & Hpm & Hpt & Hpr).
  pose proof (pal_ok_pool s u Hs) as Hpool. pose proof (pool_cnt _ Hpool) as Hcnt.
  pose proof Hg as (Hi & Hn & Hin & Hpe).
  unfold palloc_free_multiple. rewrite pg_ofs_mod, Hpm. cbn [mbind res_bind ASSERT Z.eqb].
  rewrite (proj2 (Z.eqb_neq p NULL)) by (unfold NULL; lia).
  rewrite (proj2 (Z.eqb_neq n 0)) by lia. cbn [orb].
  assert ((if page_from_pool (kernel_pool s) p then Ok false
           else if page_from_pool (user_pool s) p then Ok true else Fail KernelPanic) = Ok u) as ->.
  { destruct Hs as (Hk & Hu & Hd). unfold disjoint_pools in Hd.
    pose proof (page_from_pool_iff (kernel_pool s) p Hk) as Ek. pose proof (page_from_pool_iff (user_pool s) p Hu) as Eu.
    destruct u; simpl in *.
    - destruct (page_from_pool (kernel_pool s) p); [lia|]. destruct (page_from_pool (user_pool s) p); [done|].
      destruct Eu as [_ Eu]; [lia|lia|]. discriminate Eu; lia.
    - destruct (page_from_pool (kernel_pool s) p); [done|]. destruct Ek as [_ Ek]; [lia|lia|]. discriminate Ek; lia. }
  cbn [mbind res_bind].
  assert (u32 (pg_no p - pg_no (base (get_pool u s))) = i) as ->.
  { destruct Hpool as (_ & ? & ? & ?). rewrite !pg_no_div by lia. rewrite u32_small; zlia. }
  set (m := fill p _ _ _). change (used_map (get_pool u (set_memory m s))) with (used_map (get_pool u s)).
  destruct (bitmap_all_spec (used_map (get_pool u s)) i n) as (r & -> & Hr); [apply Hpool|lia..|].
  assert (r = true) as ->.
  { apply Hr. intros j Hj. destruct (Hall (base (get_pool u s) + 4096 * j)) as (v & j' & Hj' & Hbit).
    - exists (j - i). subst p. lia.
    - assert (group_in s u j 1 (base (get_pool u s) + 4096 * j)) as Hgj by (unfold group_in; lia).
      by destruct (group_unique _ _ _ _ _ _ Hs Hj' Hgj) as [-> ->]. }
  cbn [mbind res_bind ASSERT].
  destruct (bitmap_set_multiple_spec (used_map (get_pool u s)) i n false) as (b & -> & Hfill);
    [apply Hpool|lia..|]. cbn [mbind res_bind].
  set (s1 := set_map u b (set_memory m s)). exists s1. split; [done|].
  destruct (set_memory_same m s) as (HM1 & HM2 & HM3).
  assert (group_in (set_memory m s) u i n p) as Hg' by (by apply HM3).
  split; [|split].
  - apply set_map_ok; [by apply HM1|apply Hfill|]. destruct u; apply Hfill.
  - intros. unfold s1. rewrite set_map_group by (destruct u; apply Hfill). apply HM3.
  - intros a. unfold s1. rewrite (allocated_fill (set_memory m s) u b i n false p); [|by apply HM1|done|by destruct u].
    by rewrite HM2.
Qed.

(** ** Initialisation *)

(** What the pages given to a pool held before can represent its bitmap. *)
Definition junk_ok (page_cnt : Z) (junk : list Z) : Prop :=
  page_cnt <= 32 * Z.of_nat (length junk) /\ Forall (fun e => 0 <= e < 2 ^ 32) junk.

Lemma init_pool_ok b n junk p :
  0 < b -> b mod 4096 = 0 -> 0 <= n -> b + 4096 * n < 2 ^ 32 -> junk_ok n junk ->
  init_pool b n junk = Ok p ->
  pool_ok p /\ b <= base p /\ base p + 4096 * bit_cnt (used_map p) = b + 4096 * n /\
  (forall i, 0 <= i < bit_cnt (used_map p) -> bm_get (used_map p) i = false).
Proof.
  intros Hb Hm Hn Htop [Hj1 Hj2]. unfold init_pool. set (k := DIV_ROUND_UP (bitmap_buf_size n) PGSIZE).
  assert (0 <= k) as Hk.
  { unfold k, DIV_ROUND_UP, bitmap_buf_size. change PGSIZE with 4096. apply Z.div_pos; [|lia].
    pose proof (u32_range (sizeof_bitmap + byte_cnt n)). lia. }
  destruct (Z.ltb_spec n k) as [|Hkn]; [done|].
  unfold bitmap_create_in_buf. destruct (bitmap_buf_size (n - k) <=? _); [|done]. cbn [mbind res_bind ASSERT].
  destruct (bitmap_set_all_spec (mk_bitmap (n - k) junk) false) as (bm & -> & Hw & Hc & Hg).
  { split; [simpl; lia|]. split; [simpl; lia|done]. }
  cbn [mbind res_bind]. intros [= <-]. simpl in *. change PGSIZE with 4096.
  assert (u32 (b + u32 (k * 4096)) = b + 4096 * k) as -> by (rewrite !u32_small by (rewrite ?u32_small; lia); lia).
  unfold pool_ok. simpl. rewrite Hc. simpl. split; [|split; [lia|split; [lia|]]].
  - split; [done|]. split; [lia|]. split; [zlia|lia].
  - intros i Hi. apply Hg. simpl. lia.
Qed.

Lemma palloc_init_ok kend ram_pages limit kjunk ujunk m s :
  PHYS_BASE <= kend -> 0 <= ram_pages < 2 ^ 18 -> pg_round_up kend <= PHYS_BASE + 4096 * ram_pages ->
  kend < 2 ^ 32 - 4096 -> 0 <= limit ->
  junk_ok ram_pages kjunk -> junk_ok ram_pages ujunk ->
  palloc_init kend ram_pages limit kjunk ujunk m = Ok s ->
  pal_ok s /\ PHYS_BASE <= base (kernel_pool s) /\
  base (user_pool s) + 4096 * bit_cnt (used_map (user_pool s)) <= PHYS_BASE + 4096 * ram_pages /\
  forall a, ~ allocated s a.
Proof.
  intros Hk Hr Hre Hke Hlim [Hkj1 Hkj2] [Huj1 Huj2]. unfold palloc_init.
  destruct (pg_round_up_spec kend) as [Hal Hfs]; [change PGSIZE with 4096; unfold PHYS_BASE, LOADER_PHYS_BASE in *; lia|].
  rewrite pg_ofs_mod in Hal. set (fs := pg_round_up kend) in *. change PGSIZE with 4096 in *.
  rewrite (u32_small (ram_pages * 4096)), ptov_ok by lia. cbn [mbind res_bind].
  unfold PHYS_BASE, LOADER_PHYS_BASE in *. rewrite s32_small, Z.quot_div_nonneg by lia.
  set (fp := (ram_pages * 4096 + 3221225472 - fs) / 4096).
  assert (0 <= fp /\ fs + 4096 * fp = 3221225472 + 4096 * ram_pages /\ fp <= ram_pages) as (Hf0 & Hf & Hf18)
    by (unfold fp; clearbody fs; zlia).
  rewrite (u32_small fp) by lia. set (up := if limit <? fp / 2 then limit else fp / 2).
  assert (0 <= up <= fp) as Hup by (subst up; destruct (Z.ltb_spec limit (fp / 2)); zlia).
  intros H. apply bind_Ok in H as (k & Hki & H). apply bind_Ok in H as (u & Hui & [= <-]).
  destruct (init_pool_ok fs (fp - up) kjunk k) as (Hkok & Hkb & Hkt & Hkf); [lia|lia|lia|lia|split; [lia|done]|done|].
  rewrite (u32_small ((fp - up) * 4096)) in Hui by lia. rewrite u32_small in Hui by lia.
  destruct (init_pool_ok (fs + (fp - up) * 4096) up ujunk u) as (Huok & Hub & Hut & Huf);
    [lia|zlia|lia|lia|split; [lia|done]|done|].
  split; [split; [done|split; [done|unfold disjoint_pools; simpl; lia]]|].
  cbn [kernel_pool user_pool]. split; [lia|]. split; [lia|].
  intros a (v & i & (Hi & _ & Hin & _) & Hbit). destruct v; simpl in *.
  - by rewrite Huf in Hbit by lia.
  - by rewrite Hkf in Hbit by lia.
Qed.

(** ** A client of the allocator *)

#[global] Instance page_of_dec p n a : Decision (page_of p n a).
Proof.
  destruct (decide (p <= a < p + 4096 * n /\ (a - p) mod 4096 = 0)) as [H|H].
  - left. exists ((a - p) / 4096). zlia.
  - right. intros (j & Hj & ->). apply H. zlia.
Defined.

(** Obtain [page_cnt] pages; free the [k]-th live group. *)
Inductive pal_op : Type := PGet (flags page_cnt : Z) | PFree (k : nat).

Fixpoint pal_run (ops : list pal_op) (s : pal) (live : list (Z * Z)) : res (pal * list (Z * Z)) :=
  match ops with
  | [] => Ok (s, live)
  | PGet flags n :: ops =>
      '(p, s) ← palloc_get_multiple flags n s;
      pal_run ops s (if p =? NULL then live else (p, n) :: live)
  | PFree k :: ops =>
      match live !! k with
      | Some (p, n) => '(_, s) ← palloc_free_multiple p n s; pal_run ops s (delete k live)
      | None => pal_run ops s live
      end
  end.

(** Requests are counted in a [size_t]; those with [PAL_ASSERT] may panic. *)
Definition pal_op_ok (o : pal_op) : Prop :=
  match o with PGet flags n => 0 <= n < 2 ^ 32 /\ has_flag flags PAL_ASSERT = false | PFree _ => True end.

(** The live groups containing page [a]. *)
Definition owners (live : list (Z * Z)) (a : Z) : list (Z * Z) :=
  filter (fun g => page_of (fst g) (snd g) a) live.

Definition live_ok (s : pal) (live : list (Z * Z)) : Prop :=
  Forall (fun g => exists u i, group_in s u i (snd g) (fst g)) live /\
  (forall a, allocated s a <-> owners live a <> []) /\
  (forall a, (length (owners live a) <= 1)%nat).

Lemma owners_nonempty live a : owners live a <> [] <-> exists g, g ∈ live /\ page_of (fst g) (snd g) a.
Proof.
  unfold owners. induction live as [|g live IH]; [split; [done|by intros (g & []%not_elem_of_nil & _)]|].
  rewrite filter_cons. setoid_rewrite elem_of_cons. case_decide; [naive_solver|]. rewrite IH. naive_solver.
Qed.

Lemma pal_run_ok ops s live :
  pal_ok s -> live_ok s live -> Forall pal_op_ok ops ->
  exists s' live', pal_run ops s live = Ok (s', live') /\ pal_ok s' /\ live_ok s' live'.
Proof.
  intros Hs Hl Hops. revert s live Hs Hl. induction Hops as [|o ops Ho Hops IH]; intros s live Hs Hl.
  { by exists s, live. }
  pose proof Hl as (Hin & Hall & Hone). destruct o as [flags n|k]; cbn [pal_run].
  - destruct Ho as [Hn Ha].
    destruct (palloc_get_ok flags n s Hs Hn Ha) as (p & s1 & -> & Hs1 & Hg1 & [[-> Hsame]|(i & Hgi & Hfree & Hnew)]);
      cbn [mbind res_bind].
    + change (NULL =? NULL) with true. cbn iota. apply IH; [done|]. split; [|split; [|done]].
      * eapply Forall_impl; [exact Hin|]. intros g (u & j & ?). exists u, j. by apply Hg1.
      * intros a. by rewrite Hsame.
    + pose proof (group_bounds _ _ _ _ _ Hs Hgi) as (Hp0 & _).
      rewrite (proj2 (Z.eqb_neq p NULL)) by (unfold NULL; lia). apply IH; [done|]. split; [|split].
      * constructor; [by exists (has_flag flags PAL_USER), i; apply Hg1|].
        eapply Forall_impl; [exact Hin|]. intros g (u & j & ?). exists u, j. by apply Hg1.
      * intros a. rewrite Hnew. unfold owners. rewrite filter_cons. simpl. case_decide as Hpa; [naive_solver|].
        rewrite Hall. unfold owners. tauto.
      * intros a. unfold owners. rewrite filter_cons. simpl. case_decide as Hpa; [|apply Hone].
        assert (owners live a = []) as Ho.
        { destruct (decide (owners live a = [])); [done|]. by destruct (Hfree a Hpa); apply Hall. }
        unfold owners in Ho. by rewrite Ho.
  - destruct (live !! k) as [[p n]|] eqn:Hk; [|by apply IH].
    pose proof (delete_Permutation _ _ _ Hk) as Hperm.
    assert (forall a, length (owners live a) =
              length (owners ((p, n) :: delete k live) a)) as Hlen.
    { intros a. unfold owners. by rewrite Hperm at 1. }
    assert (forall a, owners live a <> [] <-> owners ((p, n) :: delete k live) a <> []) as Hne.
    { intros a. rewrite !owners_nonempty. by setoid_rewrite Hperm at 1. }
    rewrite Forall_forall in Hin. destruct (Hin (p, n)) as (u & i & Hg); [by eapply list_elem_of_lookup_2|].
    destruct (palloc_free_ok s u i n p Hs Hg) as (s1 & -> & Hs1 & Hg1 & Hal1).
    { intros a Hpa. apply Hall, owners_nonempty. exists (p, n). split; [by eapply list_elem_of_lookup_2|done]. }
    cbn [mbind res_bind]. apply IH; [done|]. split; [|split].
    + apply Forall_forall. intros g Hgin. destruct (Hin g) as (v & j & Hgj).
      { rewrite Hperm. by right. }
      exists v, j. by apply Hg1.
    + intros a. rewrite Hal1, Hall, Hne. unfold owners at 1. rewrite filter_cons. simpl.
      specialize (Hone a). rewrite Hlen in Hone. unfold owners in Hone at 1. rewrite filter_cons in Hone. simpl in Hone.
      fold (owners (delete k live) a) in *. case_decide as Hpa; simpl in Hone.
      * split; [naive_solver|]. intros Hx. destruct (owners (delete k live) a); [done|simpl in Hone; lia].
      * tauto.
    + intros a. specialize (Hone a). rewrite Hlen in Hone. unfold owners in Hone at 1. rewrite filter_cons in Hone.
      fold (owners (delete k live) a) in Hone. case_decide; simpl in Hone; lia.
Qed.


(** A machine with 64 pages of RAM and a kernel that ends in the third page. *)
Definition demo_junk : list Z := [4294967295; 5].
Definition demo_pal : pal :=
  mk_pal (mk_pool (mk_bitmap 30 [3221225472; 5]) 3221241856) (mk_pool (mk_bitmap 29 [3758096384; 5]) 3221368832)
    (fun _ => 7).
Definition demo_pal_ops : list pal_op :=
  [PGet 0 3; PGet PAL_USER 1; PGet PAL_ZERO 2; PFree 1; PGet PAL_USER 29; PGet 0 40; PFree 2; PGet 0 1].

