(* ===== verification/Malloc.v ===== *)
(** * The block allocator: threads/malloc.c

    [heap] is the descriptors (block size, blocks per arena, free list), the
    arena headers at the start of the pages the allocator owns, and the page
    allocator underneath.  A free list is the sequence of addresses of its
    blocks.  The descriptors' locks order concurrent calls; here calls follow
    one another. *)

From S2P Require Import Prelude Vaddr Bitmap Palloc.

Record desc : Type := mk_desc {
  block_size_of : Z;         (* Size of each element in bytes. *)
  blocks_per_arena : Z;      (* Number of blocks in an arena. *)
  free_list : list Z;        (* List of free blocks. *)
}.

Definition ARENA_MAGIC : Z := 2589232877.
Definition sizeof_arena : Z := 12.

Record arena : Type := mk_arena {
  magic : Z;                 (* Always set to ARENA_MAGIC. *)
  a_desc : option nat;       (* Owning descriptor, None for big block. *)
  free_cnt : Z;              (* Free blocks; pages in big block. *)
}.

Record heap : Type := mk_heap {
  descs : list desc;         (* descs[0 .. desc_cnt - 1] *)
  arenas : gmap Z arena;     (* arena headers, by address *)
  pages : pal;
}.

Definition with_descs (ds : list desc) (h : heap) : heap := mk_heap ds (arenas h) (pages h).
Definition with_arenas (m : gmap Z arena) (h : heap) : heap := mk_heap (descs h) m (pages h).
Definition with_pages (p : pal) (h : heap) : heap := mk_heap (descs h) (arenas h) p.

(** [for (block_size = 16; block_size < PGSIZE / 2; block_size *= 2)] *)
Fixpoint init_descs (fuel : nat) (block_size : Z) (ds : list desc) : res (list desc) :=
  match fuel with
  | O => Fail NoFuel
  | S fuel =>
      if block_size <? PGSIZE / 2 then
        let ds := ds ++ [mk_desc block_size ((PGSIZE - sizeof_arena) / block_size) []] in
        _ ← ASSERT (Z.of_nat (length ds) <=? 10);
        init_descs fuel (u32 (block_size * 2)) ds
      else Ok ds
  end.

Definition malloc_init (p : pal) : res heap :=
  ds ← init_descs 32 16 []; Ok (mk_heap ds ∅ p).

(** ** Arenas and blocks *)

Definition get_arena (a : Z) : M heap arena := fun h =>
  match arenas h !! a with Some ar => Ok (ar, h) | None => Fail BadAccess end.
Definition put_arena (a : Z) (ar : arena) : M heap unit :=
  modify (fun h => with_arenas (<[a := ar]> (arenas h)) h).
Definition get_desc (d : nat) : M heap desc := fun h =>
  match descs h !! d with Some x => Ok (x, h) | None => Fail BadAccess end.
Definition set_free_list (d : nat) (l : list Z) : M heap unit := fun h =>
  match descs h !! d with
  | Some x => Ok (tt, with_descs (<[d := mk_desc (block_size_of x) (blocks_per_arena x) l]> (descs h)) h)
  | None => Fail BadAccess
  end.

Definition block_to_arena (b : Z) : M heap Z :=
  let a := pg_round_down b in
  _ ← assertM (negb (a =? NULL));
  ar ← get_arena a;
  _ ← assertM (magic ar =? ARENA_MAGIC);
  match a_desc ar with
  | Some d =>
      x ← get_desc d;
      _ ← assertM (u32 (pg_ofs b - sizeof_arena) mod block_size_of x =? 0);
      mret a
  | None => _ ← assertM (pg_ofs b =? sizeof_arena); mret a
  end.

Definition arena_to_block (a idx : Z) : M heap Z :=
  _ ← assertM (negb (a =? NULL));
  ar ← get_arena a;
  _ ← assertM (magic ar =? ARENA_MAGIC);
  match a_desc ar with
  | Some d =>
      x ← get_desc d;
      _ ← assertM (idx <? blocks_per_arena x);
      mret (u32 (a + sizeof_arena + idx * block_size_of x))
  | None => fail BadAccess
  end.

(** The page allocator, called on the heap's page state. *)
Definition palloc {A} (m : M pal A) : M heap A := fun h =>
  '(x, p) ← m (pages h); Ok (x, with_pages p h).

(** ** The operations *)

(** The smallest descriptor that satisfies the request. *)
Fixpoint find_desc (ds : list desc) (size : Z) : option nat :=
  match ds with
  | [] => None
  | x :: ds => if size <=? block_size_of x then Some O else S <$> find_desc ds size
  end.

(** [for (i = 0; i < n; i++) list_push_back (&d->free_list, arena_to_block (a, i))] *)
Fixpoint add_blocks (n : nat) (d : nat) (a i : Z) : M heap unit :=
  match n with
  | O => mret tt
  | S n =>
      b ← arena_to_block a i;
      x ← get_desc d;
      _ ← set_free_list d (free_list x ++ [b]);
      add_blocks n d a (i + 1)
  end.

Definition malloc (size : Z) : M heap Z :=
  if size =? 0 then mret NULL
  else
    ds ← gets descs;
    match find_desc ds size with
    | None =>
        let page_cnt := u32 (u32 (size + sizeof_arena) + PGSIZE - 1) / PGSIZE in
        a ← palloc (palloc_get_multiple 0 page_cnt);
        if a =? NULL then mret NULL
        else _ ← put_arena a (mk_arena ARENA_MAGIC None page_cnt); mret (u32 (a + sizeof_arena))
    | Some d =>
        x ← get_desc d;
        ok ← (if bool_decide (free_list x = []) then
                a ← palloc (palloc_get_page 0);
                if a =? NULL then mret false
                else
                  _ ← put_arena a (mk_arena ARENA_MAGIC (Some d) (blocks_per_arena x));
                  _ ← add_blocks (Z.to_nat (blocks_per_arena x)) d a 0;
                  mret true
              else mret true);
        if negb ok then mret NULL
        else
          x ← get_desc d;
          match free_list x with
          | [] => fail AssertFailed
          | b :: l =>
              _ ← set_free_list d l;
              a ← block_to_arena b;
              ar ← get_arena a;
              _ ← put_arena a (mk_arena (magic ar) (a_desc ar) (u32 (free_cnt ar - 1)));
              mret b
          end
    end.

Definition memset (p c n : Z) : M heap unit :=
  modify (fun h => with_pages (set_memory (fill p n (u8 c) (memory (pages h))) (pages h)) h).

Definition memcpy (dst src n : Z) : M heap unit :=
  modify (fun h =>
    let m := memory (pages h) in
    with_pages (set_memory (fun x => if (dst <=? x) && (x <? dst + n) then m (src + (x - dst)) else m x)
                  (pages h)) h).

Definition calloc (a b : Z) : M heap Z :=
  let size := u32 (a * b) in
  if (size <? a) || (size <? b) then mret NULL
  else
    p ← malloc size;
    _ ← (if negb (p =? NULL) then memset p 0 size else mret tt);
    mret p.

Definition block_size (block : Z) : M heap Z :=
  a ← block_to_arena block;
  ar ← get_arena a;
  match a_desc ar with
  | Some d => x ← get_desc d; mret (block_size_of x)
  | None => mret (u32 (PGSIZE * free_cnt ar - pg_ofs block))
  end.

(** [for (i = 0; i < n; i++) list_remove (arena_to_block (a, i))] *)
Fixpoint remove_blocks (n : nat) (d : nat) (a i : Z) : M heap unit :=
  match n with
  | O => mret tt
  | S n =>
      b ← arena_to_block a i;
      x ← get_desc d;
      _ ← set_free_list d (filter (fun y => y <> b) (free_list x));
      remove_blocks n d a (i + 1)
  end.

(** The header of a page given back is no longer there. *)
Definition drop_arena (a : Z) : M heap unit := modify (fun h => with_arenas (delete a (arenas h)) h).

Definition free (p : Z) : M heap unit :=
  if p =? NULL then mret tt
  else
    a ← block_to_arena p;
    ar ← get_arena a;
    match a_desc ar with
    | Some d =>
        x ← get_desc d;
        _ ← memset p 204 (block_size_of x);
        _ ← set_free_list d (p :: free_list x);
        let free_cnt := u32 (free_cnt ar + 1) in
        _ ← put_arena a (mk_arena (magic ar) (a_desc ar) free_cnt);
        if blocks_per_arena x <=? free_cnt then
          _ ← assertM (free_cnt =? blocks_per_arena x);
          _ ← remove_blocks (Z.to_nat (blocks_per_arena x)) d a 0;
          _ ← palloc (palloc_free_page a);
          drop_arena a
        else mret tt
    | None => _ ← palloc (palloc_free_multiple a (free_cnt ar)); drop_arena a
    end.

Definition realloc (old_block new_size : Z) : M heap Z :=
  if new_size =? 0 then _ ← free old_block; mret NULL
  else
    new_block ← malloc new_size;
    if negb (old_block =? NULL) && negb (new_block =? NULL) then
      old_size ← block_size old_block;
      let min_size := if new_size <? old_size then new_size else old_size in
      _ ← memcpy new_block old_block min_size;
      _ ← free old_block;
      mret new_block
    else mret new_block.

(** ** Size classes and block addresses *)

Definition bsize (d : nat) : Z := 16 * 2 ^ Z.of_nat d.
Definition bcnt (d : nat) : Z := 4084 / bsize d.

Definition block (a : Z) (d : nat) (i : Z) : Z := a + 12 + i * bsize d.

(** The descriptor a request is served from; [None] for a big block. *)
Definition class_of (size : Z) : option nat :=
  list_find (fun d => size <= bsize d) (seq 0 7) ≫= fun x => Some (snd x).

Definition pages_for (size : Z) : Z := (size + 12 + 4095) / 4096.

Lemma bsize_pos d : 16 <= bsize d.
Proof. unfold bsize. pose proof (Z.pow_pos_nonneg 2 (Z.of_nat d)). lia. Qed.

Lemma bcnt_range d : 0 <= bcnt d /\ bcnt d * bsize d <= 4084.
Proof.
  pose proof (bsize_pos d). unfold bcnt. split; [apply Z.div_pos; lia|].
  rewrite Z.mul_comm. apply Z.mul_div_le. lia.
Qed.

Lemma block_bounds a d i :
  0 <= i < bcnt d -> a + 12 <= block a d i /\ block a d i + bsize d <= a + 4096.
Proof. intros Hi. pose proof (bsize_pos d). pose proof (bcnt_range d). unfold block. nia. Qed.

Lemma block_inj a d i j : block a d i = block a d j -> i = j.
Proof. unfold block. pose proof (bsize_pos d). nia. Qed.

Lemma page_down b a : 0 <= a -> a mod 4096 = 0 -> a <= b < a + 4096 -> a + 4096 <= 2 ^ 32 -> pg_round_down b = a.
Proof. intros. rewrite pg_round_down_arith by lia. zlia. Qed.

Lemma page_offset b a : 0 <= a -> a mod 4096 = 0 -> a <= b < a + 4096 -> pg_ofs b = b - a.
Proof. intros. rewrite pg_ofs_mod. zlia. Qed.

(** The descriptor table [malloc_init] builds. *)
Definition descs_ok (ds : list desc) : Prop :=
  length ds = 7%nat /\
  forall d x, ds !! d = Some x -> block_size_of x = bsize d /\ blocks_per_arena x = bcnt d.

Lemma find_desc_class ds size : descs_ok ds -> find_desc ds size = class_of size.
Proof.
  intros [Hl Hd]. destruct ds as [|x0 [|x1 [|x2 [|x3 [|x4 [|x5 [|x6 [|]]]]]]]]; try done.
  assert (block_size_of x0 = bsize 0 /\ block_size_of x1 = bsize 1 /\ block_size_of x2 = bsize 2 /\
          block_size_of x3 = bsize 3 /\ block_size_of x4 = bsize 4 /\ block_size_of x5 = bsize 5 /\
          block_size_of x6 = bsize 6) as (E0 & E1 & E2 & E3 & E4 & E5 & E6).
  { repeat split; [apply (Hd 0%nat)|apply (Hd 1%nat)|apply (Hd 2%nat)|apply (Hd 3%nat)|apply (Hd 4%nat)
                  |apply (Hd 5%nat)|apply (Hd 6%nat)]; done. }
  unfold class_of. cbn [find_desc seq list_find]. rewrite E0, E1, E2, E3, E4, E5, E6.
  repeat (match goal with |- context [?a <=? ?b] =>
    destruct (Z.leb_spec a b); [by rewrite decide_True by done|rewrite decide_False by lia] end; simpl).
  done.
Qed.

Lemma class_of_Some size d : class_of size = Some d -> (d < 7)%nat /\ size <= bsize d.
Proof.
  unfold class_of. destruct (list_find _ _) as [[i x]|] eqn:Hf; [|done]. intros [= <-].
  apply list_find_Some in Hf as (Hi & Hx & _). apply lookup_seq in Hi as [-> ?]. simpl in *. lia.
Qed.

Lemma class_of_None size : class_of size = None -> 1024 < size.
Proof.
  unfold class_of. destruct (list_find _ _) as [[i x]|] eqn:Hf; [done|]. intros _.
  apply list_find_None in Hf. rewrite Forall_forall in Hf. specialize (Hf 6%nat). unfold bsize in Hf.
  change (16 * 2 ^ Z.of_nat 6) with 1024 in Hf. apply Z.nle_gt, Hf, elem_of_seq. lia.
Qed.

(** ** The blocks of all arenas *)

Definition blocks (a : Z) (k : option nat) : list Z :=
  match k with Some d => block a d <$> seqZ 0 (bcnt d) | None => [a + 12] end.

Definition arena_blocks (k : option nat) (x : Z * arena) : list Z :=
  if decide (a_desc (snd x) = k) then blocks (fst x) k else [].

Definition all_blocks (m : gmap Z arena) (k : option nat) : list Z :=
  map_to_list m ≫= arena_blocks k.

Definition npages (ar : arena) : Z := match a_desc ar with Some _ => 1 | None => free_cnt ar end.

Lemma all_blocks_insert m k a ar :
  m !! a = None -> all_blocks (<[a := ar]> m) k ≡ₚ arena_blocks k (a, ar) ++ all_blocks m k.
Proof. intros Ha. unfold all_blocks. by rewrite map_to_list_insert. Qed.

Lemma all_blocks_delete m k a ar :
  m !! a = Some ar -> all_blocks m k ≡ₚ arena_blocks k (a, ar) ++ all_blocks (delete a m) k.
Proof. intros Ha. unfold all_blocks. by rewrite <- (map_to_list_delete m a ar). Qed.

(** Changing the count of an arena leaves its blocks alone. *)
Lemma all_blocks_update m k a ar ar' :
  m !! a = Some ar -> a_desc ar' = a_desc ar -> all_blocks (<[a := ar']> m) k ≡ₚ all_blocks m k.
Proof.
  intros Ha Hd. rewrite (all_blocks_delete m k a ar Ha), <- insert_delete_eq.
  rewrite all_blocks_insert by apply lookup_delete_eq. unfold arena_blocks. simpl. by rewrite Hd.
Qed.

Lemma elem_of_all_blocks m k p :
  p ∈ all_blocks m k <-> exists a ar, m !! a = Some ar /\ a_desc ar = k /\ p ∈ blocks a k.
Proof.
  unfold all_blocks. rewrite list_elem_of_bind. split.
  - intros ([a ar] & Hp & Hin). apply elem_of_map_to_list in Hin. unfold arena_blocks in Hp. simpl in Hp.
    case_decide; [by exists a, ar|by apply not_elem_of_nil in Hp].
  - intros (a & ar & Ha & Hk & Hp). exists (a, ar). split; [|by apply elem_of_map_to_list].
    unfold arena_blocks. simpl. by rewrite decide_True.
Qed.

(** Where the blocks of an arena lie. *)
Lemma blocks_range a k p : p ∈ blocks a k -> a + 12 <= p < a + 4096.
Proof.
  destruct k as [d|]; simpl.
  - intros (i & -> & Hi)%list_elem_of_fmap. apply elem_of_seqZ in Hi.
    pose proof (block_bounds a d i). pose proof (bsize_pos d). lia.
  - intros ->%list_elem_of_singleton. lia.
Qed.

Lemma blocks_NoDup a k : NoDup (blocks a k).
Proof.
  destruct k as [d|]; simpl; [|apply NoDup_singleton].
  apply NoDup_fmap_2; [intros i j; apply block_inj|apply NoDup_seqZ].
Qed.

(** ** The invariant *)

Definition frees (ds : list desc) (k : option nat) : list Z :=
  match k with
  | Some d => match ds !! d with Some x => free_list x | None => [] end
  | None => []
  end.

(** The addresses of the live blocks of one class. *)
Definition live_ptrs (k : option nat) (live : list (Z * Z)) : list Z :=
  (filter (fun g => class_of (snd g) = k) live).*1.

Definition in_page (a p : Z) : Prop := a <= p < a + 4096.

Record heap_ok (h : heap) (live : list (Z * Z)) : Prop := {
  ok_pal : pal_ok (pages h);
  ok_descs : descs_ok (descs h);
  (** Every arena has its pages from the kernel pool; no two share one. *)
  ok_arenas : forall a ar, arenas h !! a = Some ar ->
    magic ar = ARENA_MAGIC /\ (exists i, group_in (pages h) false i (npages ar) a) /\
    forall x, page_of a (npages ar) x -> allocated (pages h) x;
  ok_disjoint : forall a1 ar1 a2 ar2 x,
    arenas h !! a1 = Some ar1 -> arenas h !! a2 = Some ar2 ->
    page_of a1 (npages ar1) x -> page_of a2 (npages ar2) x -> a1 = a2;
  (** An arena counts its free blocks. *)
  ok_count : forall a ar d, arenas h !! a = Some ar -> a_desc ar = Some d ->
    (d < 7)%nat /\ free_cnt ar = Z.of_nat (length (filter (in_page a) (frees (descs h) (Some d))));
  (** Every block is either free or live, and nothing else is. *)
  ok_blocks : forall k, frees (descs h) k ++ live_ptrs k live ≡ₚ all_blocks (arenas h) k;
  ok_big : forall p n, (p, n) ∈ live -> class_of n = None ->
    exists ar, arenas h !! (p - 12) = Some ar /\ a_desc ar = None /\ free_cnt ar = pages_for n;
}.

(** No arena but [e] has all its blocks free. *)
Definition no_idle (e : option Z) (h : heap) : Prop :=
  forall a ar d, arenas h !! a = Some ar -> a_desc ar = Some d -> Some a <> e -> free_cnt ar < bcnt d.

Lemma no_idle_insert e h a ar :
  no_idle e h -> (forall d, a_desc ar = Some d -> Some a <> e -> free_cnt ar < bcnt d) ->
  no_idle e (with_arenas (<[a := ar]> (arenas h)) h).
Proof.
  intros Hh Ha a' ar' d Ha' Hd Hne. simpl in Ha'.
  apply lookup_insert_Some in Ha' as [[<- <-]|[_ Ha']]; [by apply Ha|by eapply Hh].
Qed.

Lemma no_idle_delete e h a : no_idle e h -> no_idle e (with_arenas (delete a (arenas h)) h).
Proof.
  intros Hh a' ar' d Ha' Hd Hne. simpl in Ha'. apply lookup_delete_Some in Ha' as [_ Ha'].
  by apply (Hh a' ar' d).
Qed.

(** [live] matters up to order only. *)
Lemma heap_ok_perm h l1 l2 : l1 ≡ₚ l2 -> heap_ok h l1 -> heap_ok h l2.
Proof.
  intros Hp [? ? ? ? ? Hb Hg]. split; [done..| |].
  - intros k. rewrite <- (Hb k). f_equiv. unfold live_ptrs. by rewrite Hp.
  - intros p n Hin. apply Hg. by rewrite Hp.
Qed.

Lemma arena_page h live a ar :
  heap_ok h live -> arenas h !! a = Some ar -> 0 < a /\ a mod 4096 = 0 /\ a + 4096 * npages ar <= 2 ^ 32 /\ 0 < npages ar.
Proof.
  intros Hh Ha. destruct (ok_arenas h live Hh a ar Ha) as (_ & [i Hg] & _).
  destruct (group_bounds _ _ _ _ _ (ok_pal h live Hh) Hg) as (? & ? & ? & _).
  destruct Hg as (_ & ? & _). lia.
Qed.

(** Every block belongs to the arena at the start of its page. *)
Lemma block_arena h live p k :
  heap_ok h live -> p ∈ all_blocks (arenas h) k ->
  exists ar, arenas h !! pg_round_down p = Some ar /\ a_desc ar = k /\ p ∈ blocks (pg_round_down p) k /\
    pg_ofs p = p - pg_round_down p /\ in_page (pg_round_down p) p.
Proof.
  intros Hh Hp. apply elem_of_all_blocks in Hp as (a & ar & Ha & Hk & Hp).
  destruct (arena_page h live a ar Hh Ha) as (H0 & Hm & Ht & Hn). pose proof (blocks_range _ _ _ Hp).
  assert (pg_round_down p = a) as -> by (apply page_down; lia).
  exists ar. split; [done|]. split; [done|]. split; [done|].
  split; [apply page_offset; lia|unfold in_page; lia].
Qed.

Lemma all_blocks_NoDup h live k : heap_ok h live -> NoDup (all_blocks (arenas h) k).
Proof.
  intros Hh. apply NoDup_bind.
  - intros [a1 ar1] [a2 ar2] p H1 H2 Hp1 Hp2. apply elem_of_map_to_list in H1, H2.
    unfold arena_blocks in *. simpl in *. do 2 (case_decide; [|by apply not_elem_of_nil in Hp1 || by apply not_elem_of_nil in Hp2]).
    apply blocks_range in Hp1, Hp2.
    destruct (arena_page h live a1 ar1 Hh H1) as (_ & ? & _). destruct (arena_page h live a2 ar2 Hh H2) as (_ & ? & _).
    assert (a1 = a2) as -> by zlia. congruence.
  - intros [a ar] _. unfold arena_blocks. simpl. case_decide; [apply blocks_NoDup|constructor].
  - apply NoDup_map_to_list.
Qed.

Lemma frees_live_NoDup h live k : heap_ok h live -> NoDup (frees (descs h) k ++ live_ptrs k live).
Proof. intros Hh. rewrite (ok_blocks h live Hh k). by eapply all_blocks_NoDup. Qed.

(** A block passes the checks of [block_to_arena]. *)
Lemma block_to_arena_ok h live p k :
  heap_ok h live -> p ∈ all_blocks (arenas h) k -> block_to_arena p h = Ok (pg_round_down p, h).
Proof.
  intros Hh Hp. destruct (block_arena h live p k Hh Hp) as (ar & Ha & Hk & Hpb & Hofs & Hpg).
  destruct (arena_page h live _ _ Hh Ha) as (H0 & _). destruct (ok_arenas h live Hh _ _ Ha) as (Hmag & _).
  unfold block_to_arena. rewrite bindM_assert by (apply negb_true_iff, Z.eqb_neq; unfold NULL; lia).
  assert (get_arena (pg_round_down p) h = Ok (ar, h)) as Hg by (unfold get_arena; by rewrite Ha).
  rewrite (bindM_step _ _ _ _ _ Hg), bindM_assert by (by rewrite Hmag). rewrite Hk. destruct k as [d|].
  - destruct (ok_count h live Hh _ _ d Ha Hk) as [Hd _]. destruct (ok_descs h live Hh) as [Hl Hds].
    destruct (lookup_lt_is_Some_2 (descs h) d) as [x Hx]; [lia|]. destruct (Hds d x Hx) as [Hbs _].
    assert (get_desc d h = Ok (x, h)) as Hg2 by (unfold get_desc; by rewrite Hx).
    rewrite (bindM_step _ _ _ _ _ Hg2). simpl in Hpb. apply list_elem_of_fmap in Hpb as (i & Hpi & Hi).
    apply elem_of_seqZ in Hi. rewrite bindM_assert; [done|]. apply Z.eqb_eq. rewrite Hofs, Hbs.
    unfold sizeof_arena. pose proof (bsize_pos d). pose proof (block_bounds (pg_round_down p) d i).
    rewrite u32_small by (unfold in_page in Hpg; lia).
    replace (p - pg_round_down p - 12) with (i * bsize d) by (unfold block in Hpi; lia).
    apply Z.mod_mul. lia.
  - simpl in Hpb. apply list_elem_of_singleton in Hpb. rewrite bindM_assert; [done|].
    apply Z.eqb_eq. unfold sizeof_arena. lia.
Qed.

(** The checks of [block_to_arena] look at the arena and at block sizes only. *)
Lemma block_to_arena_same h h' p a :
  block_to_arena p h = Ok (a, h) -> arenas h' = arenas h -> descs_ok (descs h) -> descs_ok (descs h') ->
  block_to_arena p h' = Ok (a, h').
Proof.
  intros Hb Ha [Hl Hd] [Hl' Hd']. unfold block_to_arena in *.
  apply bindM_Ok in Hb as (u & h1 & H1 & Hb). unfold assertM, liftM in H1.
  destruct (negb (pg_round_down p =? NULL)) eqn:Hn; [|done]. injection H1 as <- <-.
  rewrite bindM_assert by done. apply bindM_Ok in Hb as (ar & h2 & H2 & Hb).
  unfold get_arena in H2. destruct (arenas h !! pg_round_down p) as [ar'|] eqn:Har; [|done]. injection H2 as <- <-.
  assert (get_arena (pg_round_down p) h' = Ok (ar', h')) as Hg by (unfold get_arena; by rewrite Ha, Har).
  rewrite (bindM_step _ _ _ _ _ Hg). apply bindM_Ok in Hb as (u' & h3 & H3 & Hb).
  unfold assertM, liftM in H3. destruct (magic ar' =? ARENA_MAGIC) eqn:Hm; [|done]. injection H3 as <- <-.
  rewrite bindM_assert by done. destruct (a_desc ar') as [d|].
  - apply bindM_Ok in Hb as (x & h4 & H4 & Hb). unfold get_desc in H4.
    destruct (descs h !! d) as [x0|] eqn:Hx; [|done]. injection H4 as <- <-.
    pose proof (lookup_lt_Some _ _ _ Hx). destruct (lookup_lt_is_Some_2 (descs h') d) as [x' Hx']; [lia|].
    assert (get_desc d h' = Ok (x', h')) as Hg2 by (unfold get_desc; by rewrite Hx').
    rewrite (bindM_step _ _ _ _ _ Hg2).
    assert (block_size_of x' = block_size_of x0) as -> by (by rewrite (proj1 (Hd d x0 Hx)), (proj1 (Hd' d x' Hx'))).
    apply bindM_Ok in Hb as (u'' & h5 & H5 & Hb). unfold assertM, liftM in *.
    destruct (u32 _ mod _ =? 0); [|done]. injection H5 as <- <-. by injection Hb as <-.
  - apply bindM_Ok in Hb as (u'' & h5 & H5 & Hb). unfold assertM, liftM in *.
    destruct (pg_ofs p =? sizeof_arena); [|done]. injection H5 as <- <-. by injection Hb as <-.
Qed.

(** ** How the invariant moves *)

Lemma frees_update ds d x l k :
  ds !! d = Some x ->
  frees (<[d := mk_desc (block_size_of x) (blocks_per_arena x) l]> ds) k =
  if decide (k = Some d) then l else frees ds k.
Proof.
  intros Hx. pose proof (lookup_lt_Some _ _ _ Hx). destruct k as [d'|]; [|by rewrite decide_False].
  simpl. destruct (decide (d' = d)) as [->|Hne].
  - by rewrite decide_True, list_lookup_insert_eq.
  - rewrite decide_False by congruence. by rewrite list_lookup_insert_ne by congruence.
Qed.

Lemma descs_ok_update ds d x l :
  descs_ok ds -> ds !! d = Some x ->
  descs_ok (<[d := mk_desc (block_size_of x) (blocks_per_arena x) l]> ds).
Proof.
  intros [Hl Hd] Hx. split; [by rewrite length_insert|]. intros d' x' Hx'.
  apply list_lookup_insert_Some in Hx' as [(<- & <- & _)|[_ Hx']]; [by apply (Hd d x)|by apply (Hd d' x')].
Qed.

(** A new arena on pages that were free. *)
Lemma heap_ok_grow h live ds s a ar live' i :
  heap_ok h live -> descs_ok ds -> pal_ok s ->
  (forall u j n q, group_in s u j n q <-> group_in (pages h) u j n q) ->
  group_in (pages h) false i (npages ar) a ->
  (forall x, page_of a (npages ar) x -> ~ allocated (pages h) x) ->
  (forall x, allocated s x <-> allocated (pages h) x \/ page_of a (npages ar) x) ->
  magic ar = ARENA_MAGIC ->
  (forall k, frees ds k ++ live_ptrs k live' ≡ₚ arena_blocks k (a, ar) ++ frees (descs h) k ++ live_ptrs k live) ->
  (forall d, a_desc ar = Some d ->
     (d < 7)%nat /\ free_cnt ar = Z.of_nat (length (filter (in_page a) (frees ds (Some d))))) ->
  (forall a' d, a' <> a -> a' mod 4096 = 0 ->
     length (filter (in_page a') (frees ds (Some d))) = length (filter (in_page a') (frees (descs h) (Some d)))) ->
  (forall p n, (p, n) ∈ live' -> class_of n = None ->
     (p, n) ∈ live \/ (p - 12 = a /\ a_desc ar = None /\ free_cnt ar = pages_for n)) ->
  heap_ok (mk_heap ds (<[a := ar]> (arenas h)) s) live'.
Proof.
  intros Hh Hds Hs Hgr Hg Hfresh Hal Hmag Hbl Hcnt Hold Hbig.
  assert (page_of a (npages ar) a) as Hself by (exists 0; destruct Hg as (_ & ? & _); lia).
  assert (arenas h !! a = None) as Hnone.
  { destruct (arenas h !! a) as [ar0|] eqn:Ha; [|done]. destruct (Hfresh a Hself).
    destruct (arena_page h live a ar0 Hh Ha) as (_ & _ & _ & ?).
    apply (ok_arenas h live Hh a ar0 Ha). exists 0. lia. }
  assert (forall a' ar', arenas h !! a' = Some ar' -> a' <> a) as Hne by (intros ? ? ? ->; congruence).
  split; simpl; [done|done| | | | |].
  - intros a' ar' Ha'. apply lookup_insert_Some in Ha' as [[<- <-]|[_ Ha']].
    + split; [done|]. split; [exists i; by apply Hgr|]. intros x Hx. apply Hal. by right.
    + destruct (ok_arenas h live Hh a' ar' Ha') as (? & [j ?] & Hall). split; [done|].
      split; [exists j; by apply Hgr|]. intros x Hx. apply Hal. left. by apply Hall.
  - intros a1 ar1 a2 ar2 x H1 H2 Hx1 Hx2.
    apply lookup_insert_Some in H1 as [[<- <-]|[_ H1]], H2 as [[<- <-]|[_ H2]]; [done| | |].
    + destruct (Hfresh x Hx1). by apply (ok_arenas h live Hh a2 ar2 H2).
    + destruct (Hfresh x Hx2). by apply (ok_arenas h live Hh a1 ar1 H1).
    + by apply (ok_disjoint h live Hh a1 ar1 a2 ar2 x).
  - intros a' ar' d Ha' Hd. apply lookup_insert_Some in Ha' as [[<- <-]|[_ Ha']]; [by apply Hcnt|].
    destruct (ok_count h live Hh a' ar' d Ha' Hd) as [? ->]. split; [done|]. symmetry. f_equal.
    apply Hold; [by eapply Hne|]. by apply (arena_page h live a' ar').
  - intros k. rewrite all_blocks_insert by done. rewrite (Hbl k), (ok_blocks h live Hh k). done.
  - intros p n Hin Hcl. destruct (Hbig p n Hin Hcl) as [Hl|(<- & Hd & Hf)].
    + destruct (ok_big h live Hh p n Hl Hcl) as (ar' & Ha' & ? & ?). exists ar'.
      rewrite lookup_insert_ne; [done|]. intros He. rewrite <- He in Ha'. by destruct (Hne _ _ Ha').
    + exists ar. by rewrite lookup_insert_eq.
Qed.

(** One block of arena [a] changes hands between the free list and the
    client; RAM may change. *)
Lemma heap_ok_shift h live d x l a ar c m live' :
  heap_ok h live -> descs h !! d = Some x -> arenas h !! a = Some ar -> a_desc ar = Some d ->
  l ++ live_ptrs (Some d) live' ≡ₚ free_list x ++ live_ptrs (Some d) live ->
  (forall k, k <> Some d -> live_ptrs k live' ≡ₚ live_ptrs k live) ->
  c = Z.of_nat (length (filter (in_page a) l)) ->
  (forall a', a' <> a -> a' mod 4096 = 0 ->
     length (filter (in_page a') l) = length (filter (in_page a') (free_list x))) ->
  (forall p n, (p, n) ∈ live' -> class_of n = None -> (p, n) ∈ live) ->
  heap_ok (mk_heap (<[d := mk_desc (block_size_of x) (blocks_per_arena x) l]> (descs h))
             (<[a := mk_arena (magic ar) (a_desc ar) c]> (arenas h)) (set_memory m (pages h))) live'.
Proof.
  intros Hh Hx Ha Hd Hl Hk Hc Hold Hbig. destruct (set_memory_same m (pages h)) as (HM1 & HM2 & HM3).
  assert (forall ar', arenas h !! a = Some ar' -> ar' = ar) as Huniq by (intros; congruence).
  assert (frees (descs h) (Some d) = free_list x) as Hfx by (simpl; by rewrite Hx).
  assert (npages (mk_arena (magic ar) (a_desc ar) c) = npages ar) as Hnp by (unfold npages; simpl; by rewrite Hd).
  pose proof (ok_arenas h live Hh) as HA. pose proof (ok_disjoint h live Hh) as HD.
  split; cbn [descs arenas pages].
  - apply HM1, Hh.
  - apply descs_ok_update; [apply Hh|done].
  - intros a' ar' Ha'.
    assert (exists ar0, arenas h !! a' = Some ar0 /\ magic ar' = magic ar0 /\ npages ar' = npages ar0) as (ar0 & Ha0 & -> & ->).
    { apply lookup_insert_Some in Ha' as [[<- <-]|[_ Ha']]; [by exists ar|by exists ar']. }
    destruct (HA a' ar0 Ha0) as (? & [i ?] & Hall). split; [done|].
    split; [exists i; by apply HM3|]. intros y Hy. by apply HM2, Hall.
  - intros a1 ar1 a2 ar2 y H1 H2.
    apply lookup_insert_Some in H1 as [[<- <-]|[_ H1]], H2 as [[<- <-]|[_ H2]]; rewrite ?Hnp; eauto.
  - intros a' ar' d' Ha' Hd'. rewrite frees_update by done.
    apply lookup_insert_Some in Ha' as [[<- <-]|[Hne Ha']].
    + simpl in Hd'. assert (d' = d) as -> by congruence. rewrite decide_True by done.
      split; [by eapply (ok_count h live Hh a ar d)|done].
    + destruct (ok_count h live Hh a' ar' d' Ha' Hd') as [? ->]. split; [done|]. f_equal.
      case_decide as He; [|done]. injection He as ->. rewrite Hfx. symmetry. apply Hold; [congruence|].
      by apply (arena_page h live a' ar').
  - intros k. rewrite frees_update by done. rewrite (all_blocks_update _ _ a ar) by done.
    rewrite <- (ok_blocks h live Hh k). case_decide as He; [subst k; by rewrite Hl, Hfx|]. by rewrite Hk.
  - intros p n Hin Hcl. destruct (ok_big h live Hh p n (Hbig p n Hin Hcl) Hcl) as (ar' & Ha' & Hd' & ?).
    exists ar'. rewrite lookup_insert_ne; [done|]. intros He. rewrite <- He in Ha'. apply Huniq in Ha'. congruence.
Qed.

(** An arena whose blocks are all free goes back to the page allocator. *)
Lemma heap_ok_shrink h live ds s a ar live' :
  heap_ok h live -> arenas h !! a = Some ar -> descs_ok ds -> pal_ok s ->
  (forall u j n q, group_in s u j n q <-> group_in (pages h) u j n q) ->
  (forall x, allocated s x <-> allocated (pages h) x /\ ~ page_of a (npages ar) x) ->
  (forall k, arena_blocks k (a, ar) ++ frees ds k ++ live_ptrs k live' ≡ₚ frees (descs h) k ++ live_ptrs k live) ->
  (forall a' d, a' <> a -> a' mod 4096 = 0 ->
     length (filter (in_page a') (frees ds (Some d))) = length (filter (in_page a') (frees (descs h) (Some d)))) ->
  (forall p n, (p, n) ∈ live' -> class_of n = None -> (p, n) ∈ live /\ p - 12 <> a) ->
  heap_ok (mk_heap ds (delete a (arenas h)) s) live'.
Proof.
  intros Hh Ha Hds Hs Hgr Hal Hbl Hold Hbig. split; simpl; [done|done| | | | |].
  - intros a' ar' [Hne Ha']%lookup_delete_Some. destruct (ok_arenas h live Hh a' ar' Ha') as (? & [i ?] & Hall).
    split; [done|]. split; [exists i; by apply Hgr|]. intros x Hx. apply Hal. split; [by apply Hall|].
    intros Hx'. by destruct Hne; apply (ok_disjoint h live Hh a ar a' ar' x).
  - intros a1 ar1 a2 ar2 x [_ H1]%lookup_delete_Some [_ H2]%lookup_delete_Some.
    by apply (ok_disjoint h live Hh a1 ar1 a2 ar2 x).
  - intros a' ar' d [Hne Ha']%lookup_delete_Some Hd. destruct (ok_count h live Hh a' ar' d Ha' Hd) as [? ->].
    split; [done|]. f_equal. symmetry. apply Hold; [congruence|]. by apply (arena_page h live a' ar').
  - intros k. apply (Permutation_app_inv_l (arena_blocks k (a, ar))).
    rewrite <- (all_blocks_delete _ _ _ _ Ha), Hbl. apply (ok_blocks h live Hh k).
  - intros p n Hin Hcl. destruct (Hbig p n Hin Hcl) as [Hl Hne].
    destruct (ok_big h live Hh p n Hl Hcl) as (ar' & Ha' & ?). exists ar'. by rewrite lookup_delete_ne.
Qed.

Lemma heap_ok_pages h live s :
  heap_ok h live -> pal_ok s ->
  (forall u j n q, group_in s u j n q <-> group_in (pages h) u j n q) ->
  (forall x, allocated s x <-> allocated (pages h) x) -> heap_ok (with_pages s h) live.
Proof.
  intros Hh Hs Hgr Hal. split; simpl; [done|apply Hh| |apply Hh|apply Hh|apply Hh|apply Hh].
  intros a ar Ha. destruct (ok_arenas h live Hh a ar Ha) as (? & [i ?] & Hall).
  split; [done|]. split; [exists i; by apply Hgr|]. intros x Hx. by apply Hal, Hall.
Qed.

(** ** Filling and emptying an arena *)

Lemma arena_to_block_ok h a ar d x i :
  arenas h !! a = Some ar -> magic ar = ARENA_MAGIC -> a_desc ar = Some d -> descs h !! d = Some x ->
  block_size_of x = bsize d -> blocks_per_arena x = bcnt d ->
  0 < a -> a + 4096 <= 2 ^ 32 -> 0 <= i < bcnt d ->
  arena_to_block a i h = Ok (block a d i, h).
Proof.
  intros Ha Hm Hd Hx Hbs Hbc H0 Ht Hi. unfold arena_to_block.
  rewrite bindM_assert by (apply negb_true_iff, Z.eqb_neq; unfold NULL; lia).
  assert (get_arena a h = Ok (ar, h)) as Hg by (unfold get_arena; by rewrite Ha).
  rewrite (bindM_step _ _ _ _ _ Hg), bindM_assert by (by rewrite Hm). rewrite Hd.
  assert (get_desc d h = Ok (x, h)) as Hg2 by (unfold get_desc; by rewrite Hx).
  rewrite (bindM_step _ _ _ _ _ Hg2), bindM_assert by (rewrite Hbc; apply Z.ltb_lt; lia).
  unfold mret, M_ret. f_equal. f_equal. rewrite Hbs. unfold sizeof_arena.
  pose proof (block_bounds a d i Hi). pose proof (bsize_pos d). unfold block in *. apply u32_small. lia.
Qed.

Lemma set_free_list_ok h d x l :
  descs h !! d = Some x ->
  set_free_list d l h = Ok (tt, with_descs (<[d := mk_desc (block_size_of x) (blocks_per_arena x) l]> (descs h)) h).
Proof. unfold set_free_list. by intros ->. Qed.

Lemma add_blocks_ok n h a ar d x i :
  arenas h !! a = Some ar -> magic ar = ARENA_MAGIC -> a_desc ar = Some d -> descs h !! d = Some x ->
  block_size_of x = bsize d -> blocks_per_arena x = bcnt d ->
  0 < a -> a + 4096 <= 2 ^ 32 -> 0 <= i -> i + Z.of_nat n <= bcnt d ->
  add_blocks n d a i h =
  Ok (tt, with_descs (<[d := mk_desc (block_size_of x) (blocks_per_arena x)
                              (free_list x ++ (block a d <$> seqZ i (Z.of_nat n)))]> (descs h)) h).
Proof.
  intros Ha Hm Hd Hx Hbs Hbc H0 Ht. revert h x i Ha Hx Hbs Hbc.
  induction n as [|n IH]; intros h x i Ha Hx Hbs Hbc Hi Hn; cbn [add_blocks].
  - simpl. rewrite app_nil_r. unfold mret, M_ret. do 3 f_equal. unfold with_descs. destruct h. simpl in *.
    f_equal. symmetry. apply list_insert_id. by destruct x.
  - rewrite (bindM_step _ _ _ _ _ (arena_to_block_ok h a ar d x i Ha Hm Hd Hx Hbs Hbc H0 Ht ltac:(lia))).
    assert (get_desc d h = Ok (x, h)) as Hg2 by (unfold get_desc; by rewrite Hx).
    rewrite (bindM_step _ _ _ _ _ Hg2).
    rewrite (bindM_step _ _ _ _ _ (set_free_list_ok h d x _ Hx)).
    pose proof (lookup_lt_Some _ _ _ Hx).
    rewrite (IH _ (mk_desc (block_size_of x) (blocks_per_arena x) (free_list x ++ [block a d i])) (i + 1));
      [|done|simpl; by rewrite list_lookup_insert_eq|done|done|lia|lia].
    assert (free_list x ++ (block a d <$> seqZ i (Z.of_nat (S n))) =
            (free_list x ++ [block a d i]) ++ (block a d <$> seqZ (i + 1) (Z.of_nat n))) as ->.
    { rewrite <- (assoc_L (++)). f_equal. rewrite (seqZ_cons i (Z.of_nat (S n))) by lia.
      replace (Z.pred (Z.of_nat (S n))) with (Z.of_nat n) by lia. done. }
    unfold with_descs. cbn [descs arenas pages block_size_of blocks_per_arena free_list].
    by rewrite list_insert_insert_eq.
Qed.

Lemma remove_blocks_ok n h a ar d x i :
  arenas h !! a = Some ar -> magic ar = ARENA_MAGIC -> a_desc ar = Some d -> descs h !! d = Some x ->
  block_size_of x = bsize d -> blocks_per_arena x = bcnt d ->
  0 < a -> a + 4096 <= 2 ^ 32 -> 0 <= i -> i + Z.of_nat n <= bcnt d ->
  remove_blocks n d a i h =
  Ok (tt, with_descs (<[d := mk_desc (block_size_of x) (blocks_per_arena x)
              (filter (fun y => y ∉ block a d <$> seqZ i (Z.of_nat n)) (free_list x))]> (descs h)) h).
Proof.
  intros Ha Hm Hd Hx Hbs Hbc H0 Ht. revert h x i Ha Hx Hbs Hbc.
  induction n as [|n IH]; intros h x i Ha Hx Hbs Hbc Hi Hn; cbn [remove_blocks].
  - assert (filter (fun y => y ∉ block a d <$> seqZ i (Z.of_nat 0)) (free_list x) = free_list x) as ->.
    { apply filter_all, Forall_forall. intros y _. simpl. apply not_elem_of_nil. }
    unfold mret, M_ret. do 3 f_equal. unfold with_descs. destruct h. simpl in *.
    f_equal. symmetry. apply list_insert_id. by destruct x.
  - rewrite (bindM_step _ _ _ _ _ (arena_to_block_ok h a ar d x i Ha Hm Hd Hx Hbs Hbc H0 Ht ltac:(lia))).
    assert (get_desc d h = Ok (x, h)) as Hg2 by (unfold get_desc; by rewrite Hx).
    rewrite (bindM_step _ _ _ _ _ Hg2).
    rewrite (bindM_step _ _ _ _ _ (set_free_list_ok h d x _ Hx)).
    pose proof (lookup_lt_Some _ _ _ Hx).
    rewrite (IH _ (mk_desc (block_size_of x) (blocks_per_arena x) (filter (fun y => y <> block a d i) (free_list x))) (i + 1));
      [|done|simpl; by rewrite list_lookup_insert_eq|done|done|lia|lia].
    unfold with_descs. cbn [descs arenas pages block_size_of blocks_per_arena free_list].
    rewrite list_insert_insert_eq. do 5 f_equal.
    rewrite list_filter_filter. f_equal. apply list_filter_iff. intros y.
    rewrite (seqZ_cons i (Z.of_nat (S n))) by lia. rewrite fmap_cons, not_elem_of_cons.
    replace (Z.pred (Z.of_nat (S n))) with (Z.of_nat n) by lia. rewrite <- Z.add_1_r. tauto.
Qed.

(** ** malloc *)

Lemma bcnt_pos d : (d < 7)%nat -> 0 < bcnt d.
Proof. intros Hd. do 7 (destruct d as [|d]; [by vm_compute|]). lia. Qed.

Lemma live_ptrs_cons k p n live :
  live_ptrs k ((p, n) :: live) = if decide (class_of n = k) then p :: live_ptrs k live else live_ptrs k live.
Proof. unfold live_ptrs. rewrite filter_cons. simpl. by case_decide. Qed.

(** Blocks of an arena are not in another arena's page. *)
Lemma other_page a k a' :
  a mod 4096 = 0 -> a' mod 4096 = 0 -> a' <> a -> filter (in_page a') (blocks a k) = [].
Proof.
  intros Ha Ha' Hne. apply filter_none, Forall_forall. intros p Hp%blocks_range. unfold in_page. zlia.
Qed.

Lemma own_page a k : filter (in_page a) (blocks a k) = blocks a k.
Proof. apply filter_all, Forall_forall. intros p Hp%blocks_range. unfold in_page. lia. Qed.

(** The free blocks in an arena's page are blocks of that arena. *)
Lemma page_free_sub h live a ar d x :
  heap_ok h live -> arenas h !! a = Some ar -> a_desc ar = Some d -> descs h !! d = Some x ->
  filter (in_page a) (free_list x) ⊆+ blocks a (Some d).
Proof.
  intros Hh Ha Had Hx. apply NoDup_submseteq.
  - apply NoDup_filter. pose proof (frees_live_NoDup h live (Some d) Hh) as Hn. simpl in Hn.
    rewrite Hx in Hn. by apply NoDup_app in Hn as [? _].
  - intros p [Hpg Hp]%list_elem_of_filter.
    assert (p ∈ all_blocks (arenas h) (Some d)) as Hall.
    { rewrite <- (ok_blocks h live Hh (Some d)). simpl. rewrite Hx. apply elem_of_app. by left. }
    destruct (block_arena h live p (Some d) Hh Hall) as (ar' & _ & _ & Hb & _ & Hpg').
    destruct (arena_page h live a ar Hh Ha) as (? & ? & ? & ?).
    rewrite (page_down p a) in Hb; [done|lia|done|exact Hpg|lia].
Qed.

Lemma page_free_le h live a ar d x :
  heap_ok h live -> arenas h !! a = Some ar -> a_desc ar = Some d -> descs h !! d = Some x ->
  Z.of_nat (length (filter (in_page a) (free_list x))) <= bcnt d.
Proof.
  intros Hh Ha Had Hx. pose proof (submseteq_length _ _ (page_free_sub h live a ar d x Hh Ha Had Hx)) as Hl.
  simpl in Hl. rewrite length_fmap, length_seqZ in Hl. pose proof (bcnt_range d). lia.
Qed.

(** The big-block branch of [malloc]. *)
Lemma malloc_big_ok h live size :
  heap_ok h live -> 0 < size -> size + 4107 < 2 ^ 32 -> class_of size = None ->
  exists p h', malloc size h = Ok (p, h') /\
    (p = NULL /\ heap_ok h' live \/ p <> NULL /\ heap_ok h' ((p, size) :: live)) /\
    (no_idle None h -> no_idle None h').
Proof.
  intros Hh H0 Hs Hc. unfold malloc. rewrite (proj2 (Z.eqb_neq size 0)) by lia.
  change ((ds ← gets descs; ?f ds) h) with (f (descs h) h).
  assert (gets descs h = Ok (descs h, h)) as Hg by done. rewrite (bindM_step _ _ _ _ _ Hg).
  rewrite (find_desc_class _ size (ok_descs h live Hh)), Hc. pose proof (class_of_None size Hc).
  assert (u32 (u32 (size + sizeof_arena) + PGSIZE - 1) / PGSIZE = pages_for size) as ->.
  { unfold sizeof_arena, pages_for. change PGSIZE with 4096. rewrite (u32_small (size + 12)) by lia.
    rewrite u32_small by lia. f_equal. lia. }
  assert (0 < pages_for size < 2 ^ 32) as Hpf by (unfold pages_for; zlia).
  destruct (palloc_get_ok 0 (pages_for size) (pages h)) as (p & s & Hget & Hs' & Hgr & Hcase);
    [apply Hh|lia|done|].
  assert (palloc (palloc_get_multiple 0 (pages_for size)) h = Ok (p, with_pages s h)) as Hp.
  { unfold palloc. by rewrite Hget. }
  rewrite (bindM_step _ _ _ _ _ Hp). destruct Hcase as [[-> Hal]|(i & Hgi & Hfresh & Hal)].
  - change (NULL =? NULL) with true. exists NULL, (with_pages s h). split; [done|]. split; [|done]. left.
    split; [done|]. by apply heap_ok_pages.
  - destruct (group_bounds _ _ _ _ _ (ok_pal h live Hh) Hgi) as (Hp0 & Hpm & Hpt & _).
    rewrite (proj2 (Z.eqb_neq p NULL)) by (unfold NULL; lia).
    set (ar := mk_arena ARENA_MAGIC None (pages_for size)).
    assert (u32 (p + sizeof_arena) = p + 12) as Hpu by (unfold sizeof_arena; apply u32_small; lia).
    eexists _, _. split; [reflexivity|]. rewrite Hpu.
    split; [right; split; [unfold NULL; lia|]|intros Hid; by apply (no_idle_insert None (with_pages s h))].
    apply (heap_ok_grow h live (descs h) s p ar ((p + 12, size) :: live) i);
      [done|apply Hh|done|done|done|done|done|done| |done|done|].
    + intros k. rewrite live_ptrs_cons, Hc. unfold arena_blocks. simpl. by case_decide; [subst k|].
    + intros q n Hin Hcl. apply elem_of_cons in Hin as [[= -> ->]|Hin]; [right|by left].
      split; [lia|done].
Qed.

(** The free list is refilled when it is empty. *)
Definition refill (d : nat) (x : desc) : M heap bool :=
  if bool_decide (free_list x = []) then
    a ← palloc (palloc_get_page 0);
    if a =? NULL then mret false
    else
      _ ← put_arena a (mk_arena ARENA_MAGIC (Some d) (blocks_per_arena x));
      _ ← add_blocks (Z.to_nat (blocks_per_arena x)) d a 0;
      mret true
  else mret true.

Lemma refill_ok h live d x :
  heap_ok h live -> (d < 7)%nat -> descs h !! d = Some x ->
  exists ok h', refill d x h = Ok (ok, h') /\ heap_ok h' live /\
    (no_idle None h -> ok = false -> no_idle None h') /\
    (ok = true -> exists b l, frees (descs h') (Some d) = b :: l /\
                   (no_idle None h -> no_idle (Some (pg_round_down b)) h')).
Proof.
  intros Hh Hd7 Hx. unfold refill. destruct (ok_descs h live Hh) as [Hlen Hds]. destruct (Hds d x Hx) as [Hbs Hbc].
  case_bool_decide as Hemp.
  2: { exists true, h. split; [done|]. split; [done|]. split; [done|]. intros _. simpl. rewrite Hx.
       destruct (free_list x) as [|b l]; [done|]. exists b, l. split; [done|].
       intros Hid a ar d' Ha Hd _. by apply (Hid a ar d'). }
  destruct (palloc_get_ok 0 1 (pages h)) as (a & s & Hget & Hs & Hgr & Hcase); [apply Hh|lia|done|].
  assert (palloc (palloc_get_page 0) h = Ok (a, with_pages s h)) as Hp.
  { unfold palloc, palloc_get_page. by rewrite Hget. }
  rewrite (bindM_step _ _ _ _ _ Hp). destruct Hcase as [[-> Hal]|(i & Hgi & Hfresh & Hal)].
  { change (NULL =? NULL) with true. exists false, (with_pages s h). split; [done|]. split; [|done].
    by apply heap_ok_pages. }
  destruct (group_bounds _ _ _ _ _ (ok_pal h live Hh) Hgi) as (Hp0 & Hpm & Hpt & _).
  rewrite (proj2 (Z.eqb_neq a NULL)) by (unfold NULL; lia). set (ar := mk_arena ARENA_MAGIC (Some d) (blocks_per_arena x)).
  set (h1 := with_arenas (<[a := ar]> (arenas h)) (with_pages s h)).
  assert (put_arena a ar (with_pages s h) = Ok (tt, h1)) as Hput by done. rewrite (bindM_step _ _ _ _ _ Hput).
  pose proof (bcnt_range d) as [Hb0 _]. pose proof (bcnt_pos d Hd7).
  assert (Z.of_nat (Z.to_nat (blocks_per_arena x)) = bcnt d) as Hn by (rewrite Hbc; lia).
  rewrite (bindM_step _ _ _ _ _ (add_blocks_ok (Z.to_nat (blocks_per_arena x)) h1 a ar d x 0
    ltac:(simpl; apply lookup_insert_eq) eq_refl eq_refl Hx Hbs Hbc Hp0 ltac:(lia) ltac:(lia) ltac:(lia))).
  rewrite Hemp, Hn. simpl app. change (block a d <$> seqZ 0 (bcnt d)) with (blocks a (Some d)).
  pose proof (lookup_lt_Some _ _ _ Hx).
  eexists true, _. split; [reflexivity|]. split.
  - apply (heap_ok_grow h live _ s a ar live i);
      [done|apply descs_ok_update; [apply Hh|done]|done|done|done|done|done|done| | | |by left].
    + intros k. rewrite frees_update by done. unfold arena_blocks. cbn [fst snd a_desc ar].
      case_decide as Hk; [subst k|].
      * rewrite decide_True by done. simpl frees. rewrite Hx, Hemp. done.
      * rewrite decide_False by congruence. done.
    + intros d' [= <-]. split; [done|]. rewrite frees_update, decide_True, own_page by done. simpl.
      rewrite length_fmap, length_seqZ, Hbc. lia.
    + intros a' d' Hne Ha'. rewrite frees_update by done. case_decide as Hk; [|done]. injection Hk as ->.
      rewrite other_page by done. simpl. by rewrite Hx, Hemp.
  - split; [done|]. intros _. cbn [descs with_descs]. rewrite frees_update, decide_True by done. simpl.
    rewrite seqZ_cons by lia. rewrite fmap_cons. eexists _, _. split; [done|].
    pose proof (block_bounds a d 0 ltac:(lia)). pose proof (bsize_pos d).
    rewrite (page_down _ a) by lia. intros Hid a' ar' d' Ha' Hd' Hne. simpl in Ha'.
    rewrite lookup_insert_ne in Ha' by congruence. by apply (Hid a' ar' d').
Qed.

Lemma malloc_ok h live size :
  heap_ok h live -> 0 <= size -> size + 4107 < 2 ^ 32 ->
  exists p h', malloc size h = Ok (p, h') /\
    (p = NULL /\ heap_ok h' live \/ p <> NULL /\ heap_ok h' ((p, size) :: live)) /\
    (no_idle None h -> no_idle None h').
Proof.
  intros Hh H0 Hs. destruct (Z.eq_dec size 0) as [->|Hz]; [exists NULL, h; split; [done|]; split; [by left|done]|].
  destruct (class_of size) as [d|] eqn:Hc; [|apply malloc_big_ok; done || lia].
  unfold malloc. rewrite (proj2 (Z.eqb_neq size 0)) by lia.
  assert (gets descs h = Ok (descs h, h)) as Hg by done. rewrite (bindM_step _ _ _ _ _ Hg).
  rewrite (find_desc_class _ size (ok_descs h live Hh)), Hc. pose proof (class_of_Some size d Hc) as [Hd7 Hsz].
  destruct (ok_descs h live Hh) as [Hlen Hds]. destruct (lookup_lt_is_Some_2 (descs h) d) as [x Hx]; [lia|].
  assert (get_desc d h = Ok (x, h)) as Hg2 by (unfold get_desc; by rewrite Hx).
  rewrite (bindM_step _ _ _ _ _ Hg2). fold (refill d x).
  destruct (refill_ok h live d x Hh Hd7 Hx) as (ok & h1 & Hr & Hh1 & Hfail & Hne). rewrite (bindM_step _ _ _ _ _ Hr).
  destruct ok; cbn [negb]; [|exists NULL, h1; split; [done|]; split; [by left|by intros ?; apply Hfail]].
  destruct (Hne eq_refl) as (b & l & Hfl & Hid). clear Hne. destruct (ok_descs h1 live Hh1) as [Hlen1 Hds1].
  destruct (lookup_lt_is_Some_2 (descs h1) d) as [x1 Hx1]; [lia|]. simpl in Hfl. rewrite Hx1 in Hfl.
  assert (get_desc d h1 = Ok (x1, h1)) as Hg3 by (unfold get_desc; by rewrite Hx1).
  rewrite (bindM_step _ _ _ _ _ Hg3), Hfl. rewrite (bindM_step _ _ _ _ _ (set_free_list_ok h1 d x1 l Hx1)).
  assert (b ∈ all_blocks (arenas h1) (Some d)) as Hball.
  { rewrite <- (ok_blocks h1 live Hh1 (Some d)). simpl. rewrite Hx1, Hfl. by left. }
  destruct (block_arena h1 live b (Some d) Hh1 Hball) as (ar & Ha & Had & _ & _ & Hpg).
  set (a := pg_round_down b) in *. set (h2 := with_descs _ h1).
  assert (descs_ok (descs h2)) as Hds2 by (apply descs_ok_update; [apply Hh1|done]).
  assert (block_to_arena b h2 = Ok (a, h2)) as Hbta.
  { apply (block_to_arena_same h1 h2 b a); [by eapply block_to_arena_ok|done|apply Hh1|done]. }
  rewrite (bindM_step _ _ _ _ _ Hbta).
  assert (get_arena a h2 = Ok (ar, h2)) as Hga by (unfold get_arena; simpl; by rewrite Ha).
  rewrite (bindM_step _ _ _ _ _ Hga). eexists b, _. split; [reflexivity|].
  pose proof (arena_page h1 live a ar Hh1 Ha) as (Ha0 & _). unfold in_page in Hpg.
  pose proof (page_free_le h1 live a ar d x1 Hh1 Ha Had Hx1) as Hle.
  destruct (ok_count h1 live Hh1 a ar d Ha Had) as [_ Hcnt]. simpl in Hcnt. rewrite Hx1, Hfl, filter_cons in Hcnt.
  rewrite decide_True in Hcnt by exact Hpg. simpl in Hcnt.
  rewrite Hfl, filter_cons, decide_True in Hle by exact Hpg. simpl in Hle.
  pose proof (bcnt_range d) as Hbr. pose proof (bsize_pos d) as Hbp.
  assert (u32 (free_cnt ar - 1) = Z.of_nat (length (filter (in_page a) l))) as Hu.
  { rewrite Hcnt, u32_small by nia. lia. }
  split.
  2: { intros Hid0 a' ar' d' Ha' Hd' _. simpl in Ha'.
       apply lookup_insert_Some in Ha' as [[<- <-]|[Hne' Ha']].
       - simpl in *. assert (d' = d) as -> by congruence. lia.
       - apply (Hid Hid0 a' ar' d' Ha' Hd'). congruence. }
  right. split; [unfold NULL; lia|].
  destruct (pages h1) as [kp up m] eqn:Hpages.
  assert (pages h1 = set_memory m (pages h1)) as Hmem by (by rewrite Hpages).
  pose proof (heap_ok_shift h1 live d x1 l a ar (u32 (free_cnt ar - 1)) m ((b, size) :: live)) as Hsh.
  rewrite <- Hmem in Hsh. apply Hsh; clear Hsh; [done|done|done|done| | | | |].
  - rewrite live_ptrs_cons, decide_True, Hfl by done. simpl. by rewrite Permutation_middle.
  - intros k Hk. rewrite live_ptrs_cons, decide_False by congruence. done.
  - exact Hu.
  - intros a' Hne Ham. rewrite Hfl, filter_cons, decide_False; [done|]. unfold in_page.
    pose proof (arena_page h1 live a ar Hh1 Ha) as (_ & ? & _). zlia.
  - intros q n Hin Hcl. apply elem_of_cons in Hin as [[= -> ->]|Hin]; [congruence|done].
Qed.

(** ** free *)

Lemma live_block h live p n :
  heap_ok h live -> (p, n) ∈ live -> p ∈ all_blocks (arenas h) (class_of n).
Proof.
  intros Hh Hin. rewrite <- (ok_blocks h live Hh (class_of n)). apply elem_of_app. right.
  apply list_elem_of_fmap. exists (p, n). split; [done|]. by apply list_elem_of_filter.
Qed.

(** The last block of an arena is back: the arena is dissolved. *)
Lemma dissolve_ok h live a ar d x :
  heap_ok h live -> arenas h !! a = Some ar -> a_desc ar = Some d -> descs h !! d = Some x ->
  free_cnt ar = bcnt d ->
  exists h', (_ ← remove_blocks (Z.to_nat (blocks_per_arena x)) d a 0;
              _ ← palloc (palloc_free_page a); drop_arena a) h = Ok (tt, h') /\ heap_ok h' live /\
             (no_idle (Some a) h -> no_idle None h').
Proof.
  intros Hh Ha Had Hx Hcnt. destruct (arena_page h live a ar Hh Ha) as (Ha0 & Ham & Hat & _).
  destruct (ok_arenas h live Hh a ar Ha) as (Hmag & [i Hgi] & Hall).
  destruct (ok_descs h live Hh) as [Hlen Hds]. destruct (Hds d x Hx) as [Hbs Hbc].
  pose proof (bcnt_range d) as [Hb0 _].
  assert (npages ar = 1) as Hnp by (unfold npages; by rewrite Had). rewrite Hnp in *.
  assert (Z.of_nat (Z.to_nat (blocks_per_arena x)) = bcnt d) as Hn by (rewrite Hbc; lia).
  rewrite (bindM_step _ _ _ _ _ (remove_blocks_ok (Z.to_nat (blocks_per_arena x)) h a ar d x 0
    Ha Hmag Had Hx Hbs Hbc Ha0 ltac:(lia) ltac:(lia) ltac:(lia))).
  rewrite Hn. change (block a d <$> seqZ 0 (bcnt d)) with (blocks a (Some d)).
  set (l := filter _ (free_list x)). set (h1 := with_descs _ h).
  destruct (palloc_free_ok (pages h) false i 1 a (ok_pal h live Hh) Hgi) as (s & Hfree & Hs & Hgr & Hal).
  { intros y Hy. by apply Hall. }
  assert (palloc (palloc_free_page a) h1 = Ok (tt, with_pages s h1)) as Hp.
  { unfold palloc, palloc_free_page. simpl. by rewrite Hfree. }
  rewrite (bindM_step _ _ _ _ _ Hp). eexists. split; [reflexivity|]. split.
  2: { intros Hid a' ar' d' Ha' Hd' _. simpl in Ha'. apply lookup_delete_Some in Ha' as [? Ha'].
       apply (Hid a' ar' d' Ha' Hd'). congruence. }
  assert (blocks a (Some d) ++ l ≡ₚ free_list x) as Hperm.
  { pose proof (page_free_sub h live a ar d x Hh Ha Had Hx) as Hsub.
    destruct (ok_count h live Hh a ar d Ha Had) as [_ Hc]. simpl in Hc. rewrite Hx, Hcnt in Hc.
    assert (filter (in_page a) (free_list x) ≡ₚ blocks a (Some d)) as Hpb.
    { apply submseteq_length_Permutation; [done|]. simpl. rewrite length_fmap, length_seqZ. lia. }
    rewrite <- (filter_app_complement (fun y => y ∈ blocks a (Some d)) (free_list x)).
    apply Permutation_app; [|apply reflexive_eq; unfold l; by apply list_filter_iff].
    apply NoDup_Permutation; [apply blocks_NoDup| |].
    - apply NoDup_filter. pose proof (frees_live_NoDup h live (Some d) Hh) as Hnd. simpl in Hnd.
      rewrite Hx in Hnd. by apply NoDup_app in Hnd as [? _].
    - intros y. rewrite list_elem_of_filter. split; [|by intros [? _]]. intros Hy. split; [done|].
      rewrite <- Hpb in Hy. by apply list_elem_of_filter in Hy as [_ ?]. }
  apply (heap_ok_shrink h live (<[d := mk_desc (block_size_of x) (blocks_per_arena x) l]> (descs h)) s a ar live);
    [done|done|apply descs_ok_update; [apply Hh|done]|done|done|intros y; by rewrite Hnp| | |].
  - intros k. rewrite frees_update by done. unfold arena_blocks. cbn [fst snd]. rewrite Had.
    case_decide as Hk; [subst k; rewrite decide_True by done|rewrite decide_False by congruence; done].
    rewrite (assoc_L (++)), Hperm. simpl. by rewrite Hx.
  - intros a' d' Hne Ham'. rewrite frees_update by done. case_decide as Hk; [|done]. injection Hk as ->.
    simpl. rewrite Hx. assert (filter (in_page a') (free_list x) ≡ₚ filter (in_page a') l) as ->; [|done].
    rewrite <- Hperm, filter_app, other_page by done. done.
  - intros q n Hin Hcl. split; [done|]. intros He.
    destruct (ok_big h live Hh q n Hin Hcl) as (ar' & Ha' & Hd' & _). rewrite He in Ha'. congruence.
Qed.

Lemma free_ok h p n live :
  heap_ok h ((p, n) :: live) ->
  exists h', free p h = Ok (tt, h') /\ heap_ok h' live /\ (no_idle None h -> no_idle None h').
Proof.
  intros Hh. pose proof (live_block h _ p n Hh ltac:(by left)) as Hall.
  destruct (block_arena h _ p (class_of n) Hh Hall) as (ar & Ha & Had & Hpb & _ & Hpg).
  set (a := pg_round_down p) in *. destruct (arena_page h _ a ar Hh Ha) as (Ha0 & Ham & Hat & Hnp0).
  unfold in_page in Hpg. unfold free. rewrite (proj2 (Z.eqb_neq p NULL)) by (unfold NULL; lia).
  rewrite (bindM_step _ _ _ _ _ (block_to_arena_ok h _ p _ Hh Hall)). fold a.
  assert (get_arena a h = Ok (ar, h)) as Hga by (unfold get_arena; by rewrite Ha).
  rewrite (bindM_step _ _ _ _ _ Hga), Had. destruct (class_of n) as [d|] eqn:Hc.
  - destruct (ok_count h _ Hh a ar d Ha Had) as [Hd7 Hcnt]. destruct (ok_descs h _ Hh) as [Hlen Hds].
    destruct (lookup_lt_is_Some_2 (descs h) d) as [x Hx]; [lia|]. destruct (Hds d x Hx) as [Hbs Hbc].
    assert (get_desc d h = Ok (x, h)) as Hg2 by (unfold get_desc; by rewrite Hx).
    rewrite (bindM_step _ _ _ _ _ Hg2). set (m := fill p (block_size_of x) (u8 204) (memory (pages h))).
    set (h1 := with_pages (set_memory m (pages h)) h).
    assert (memset p 204 (block_size_of x) h = Ok (tt, h1)) as Hms by done. rewrite (bindM_step _ _ _ _ _ Hms).
    rewrite (bindM_step _ _ _ _ _ (set_free_list_ok h1 d x (p :: free_list x) Hx)).
    simpl in Hcnt. rewrite Hx in Hcnt.
    set (c := u32 (free_cnt ar + 1)). set (h2 := with_descs _ h1). set (ar' := mk_arena (magic ar) (Some d) c).
    set (h3 := with_arenas (<[a := ar']> (arenas h2)) h2).
    assert (put_arena a ar' h2 = Ok (tt, h3)) as Hput by done. rewrite (bindM_step _ _ _ _ _ Hput).
    pose proof (page_free_le h _ a ar d x Hh Ha Had Hx) as Hle.
    pose proof (bcnt_range d). pose proof (bsize_pos d).
    assert (c = Z.of_nat (length (filter (in_page a) (p :: free_list x)))) as Hcc.
    { unfold c. rewrite Hcnt, filter_cons, decide_True by exact Hpg. simpl. rewrite u32_small by nia. lia. }
    assert (heap_ok h3 live) as Hh3.
    { pose proof (heap_ok_shift h _ d x (p :: free_list x) a ar c m live Hh Hx Ha Had) as Hsh.
      rewrite Had in Hsh. apply Hsh; clear Hsh.
      - rewrite live_ptrs_cons, decide_True by done. simpl. by rewrite Permutation_middle.
      - intros k Hk. rewrite live_ptrs_cons, decide_False by congruence. done.
      - done.
      - intros a' Hne Ham'. rewrite filter_cons, decide_False; [done|]. unfold in_page. zlia.
      - intros q k Hin _. by right. }
    assert (descs h3 !! d = Some (mk_desc (block_size_of x) (blocks_per_arena x) (p :: free_list x))) as Hx3.
    { simpl. rewrite list_lookup_insert_eq by lia. done. }
    assert (arenas h3 !! a = Some ar') as Ha3 by (simpl; apply lookup_insert_eq).
    pose proof (page_free_le h3 live a ar' d _ Hh3 Ha3 eq_refl Hx3) as Hle3. cbn [free_list] in Hle3.
    assert (no_idle None h -> no_idle (Some a) h3) as Hid3.
    { intros Hid a' ar0 d' Ha' Hd' Hne. simpl in Ha'. rewrite lookup_insert_ne in Ha' by congruence.
      by apply (Hid a' ar0 d'). }
    rewrite Hbc. destruct (Z.leb_spec (bcnt d) c) as [Hfull|Hpart].
    2: { exists h3. split; [done|]. split; [done|]. intros Hid a' ar0 d' Ha' Hd' _.
         destruct (decide (a' = a)) as [->|Hne]; [|apply (Hid3 Hid a' ar0 d'); [done|done|congruence]].
         rewrite Ha3 in Ha'. injection Ha' as <-. simpl in *. congruence. }
    assert (c = bcnt d) as Hceq by lia. rewrite bindM_assert by (rewrite Hceq; apply Z.eqb_refl).
    destruct (dissolve_ok h3 live a ar' d _ Hh3 Ha3 eq_refl Hx3 Hceq) as (h' & Hdis & Hh' & Hid'). exists h'.
    cbn [blocks_per_arena] in Hdis. rewrite Hbc in Hdis. split; [done|]. split; [done|]. eauto.
  - destruct (ok_arenas h _ Hh a ar Ha) as (Hmag & [i Hgi] & Hal).
    assert (npages ar = free_cnt ar) as Hnp by (unfold npages; by rewrite Had). rewrite Hnp in *.
    destruct (palloc_free_ok (pages h) false i (free_cnt ar) a (ok_pal h _ Hh) Hgi Hal) as (s & Hfree & Hs & Hgr & Hal').
    assert (palloc (palloc_free_multiple a (free_cnt ar)) h = Ok (tt, with_pages s h)) as Hp.
    { unfold palloc. by rewrite Hfree. }
    rewrite (bindM_step _ _ _ _ _ Hp). eexists. split; [reflexivity|].
    split; [|by apply (no_idle_delete None (with_pages s h))].
    simpl in Hpb. apply list_elem_of_singleton in Hpb.
    pose proof (frees_live_NoDup h _ None Hh) as Hnd. simpl in Hnd. rewrite live_ptrs_cons, decide_True in Hnd by done.
    apply NoDup_cons in Hnd as [Hnp' _].
    apply (heap_ok_shrink h ((p, n) :: live) (descs h) s a ar live);
      [done|done|apply Hh|done|done|intros y; by rewrite Hnp| |done|].
    + intros k. rewrite live_ptrs_cons, Hc. unfold arena_blocks. cbn [fst snd]. rewrite Had.
      case_decide; [subst k|done]. simpl. by rewrite Hpb.
    + intros q k Hin Hcl. split; [by right|]. intros He. apply Hnp'. assert (q = p) as -> by lia.
      apply list_elem_of_fmap. exists (p, k). split; [done|]. by apply list_elem_of_filter.
Qed.

(** ** calloc and realloc *)

Lemma heap_ok_memory h live m :
  heap_ok h live -> heap_ok (with_pages (set_memory m (pages h)) h) live.
Proof.
  intros Hh. destruct (set_memory_same m (pages h)) as (H1 & H2 & H3). apply heap_ok_pages; [done|apply H1, Hh| |]; done.
Qed.

Lemma calloc_ok h live a b :
  heap_ok h live -> 0 <= a -> 0 <= b -> a * b + 4107 < 2 ^ 32 ->
  exists p h', calloc a b h = Ok (p, h') /\
    (p = NULL /\ heap_ok h' live \/ p <> NULL /\ heap_ok h' ((p, a * b) :: live)) /\
    (no_idle None h -> no_idle None h').
Proof.
  intros Hh Ha Hb Hab. unfold calloc. rewrite u32_small by nia.
  destruct ((a * b <? a) || (a * b <? b)); [exists NULL, h; split; [done|]; split; [by left|done]|].
  destruct (malloc_ok h live (a * b) Hh) as (p & h1 & Hm & Hcase & Hid); [nia|lia|].
  rewrite (bindM_step _ _ _ _ _ Hm). destruct Hcase as [[-> Hh1]|[Hp Hh1]].
  - exists NULL, h1. split; [done|]. split; [by left|done].
  - rewrite (proj2 (Z.eqb_neq p NULL)) by done. cbn [negb]. eexists p, _. split; [reflexivity|].
    split; [right; split; [done|]|done]. by apply heap_ok_memory.
Qed.

Lemma block_size_ok h live p n :
  heap_ok h live -> (p, n) ∈ live -> exists sz, block_size p h = Ok (sz, h) /\ n <= sz.
Proof.
  intros Hh Hin. pose proof (live_block h live p n Hh Hin) as Hall.
  destruct (block_arena h live p (class_of n) Hh Hall) as (ar & Ha & Had & Hpb & Hofs & _). unfold block_size.
  rewrite (bindM_step _ _ _ _ _ (block_to_arena_ok h live p _ Hh Hall)).
  assert (get_arena (pg_round_down p) h = Ok (ar, h)) as Hg by (unfold get_arena; by rewrite Ha).
  rewrite (bindM_step _ _ _ _ _ Hg), Had. destruct (class_of n) as [d|] eqn:Hc.
  - destruct (class_of_Some n d Hc) as [Hd7 Hsz]. destruct (ok_descs h live Hh) as [Hlen Hds].
    destruct (lookup_lt_is_Some_2 (descs h) d) as [x Hx]; [lia|].
    assert (get_desc d h = Ok (x, h)) as Hg2 by (unfold get_desc; by rewrite Hx).
    rewrite (bindM_step _ _ _ _ _ Hg2). exists (block_size_of x). split; [done|]. by rewrite (proj1 (Hds d x Hx)).
  - simpl in Hpb. apply list_elem_of_singleton in Hpb.
    destruct (ok_big h live Hh p n Hin Hc) as (ar' & Ha' & _ & Hf).
    assert (p - 12 = pg_round_down p) as He by lia. rewrite He, Ha in Ha'. injection Ha' as <-.
    destruct (arena_page h live _ _ Hh Ha) as (? & _ & Ht & Hn0). unfold npages in *. rewrite Had in *.
    eexists. split; [reflexivity|]. change PGSIZE with 4096. rewrite u32_small by lia.
    unfold pages_for in *. pose proof (class_of_None n Hc). zlia.
Qed.

Lemma realloc_ok h p m live n :
  heap_ok h ((p, m) :: live) -> 0 <= n -> n + 4107 < 2 ^ 32 ->
  exists q h', realloc p n h = Ok (q, h') /\
    (if n =? 0 then q = NULL /\ heap_ok h' live
     else q = NULL /\ heap_ok h' ((p, m) :: live) \/ q <> NULL /\ heap_ok h' ((q, n) :: live)) /\
    (no_idle None h -> no_idle None h').
Proof.
  intros Hh Hn0 Hn. unfold realloc. destruct (Z.eqb_spec n 0) as [->|Hnz].
  - destruct (free_ok h p m live Hh) as (h1 & Hf & Hh1 & Hid). rewrite (bindM_step _ _ _ _ _ Hf).
    by exists NULL, h1.
  - destruct (malloc_ok h ((p, m) :: live) n Hh) as (q & h1 & Hm & Hcase & Hid); [lia|lia|].
    rewrite (bindM_step _ _ _ _ _ Hm).
    assert (p <> NULL) as Hp.
    { pose proof (live_block h _ p m Hh ltac:(by left)) as Hall.
      destruct (block_arena h _ p _ Hh Hall) as (ar & Ha & _ & Hpb & _).
      destruct (arena_page h _ _ _ Hh Ha). apply blocks_range in Hpb. unfold NULL. lia. }
    rewrite (proj2 (Z.eqb_neq p NULL)) by done. cbn [negb andb].
    destruct Hcase as [[-> Hh1]|[Hq Hh1]].
    + change (negb (NULL =? NULL)) with false. exists NULL, h1. split; [done|]. split; [by left|done].
    + rewrite (proj2 (Z.eqb_neq q NULL)) by done. cbn [negb].
      destruct (block_size_ok h1 _ p m Hh1 ltac:(by right; left)) as (sz & Hbs & _).
      rewrite (bindM_step _ _ _ _ _ Hbs). set (mn := if n <? sz then n else sz).
      assert (exists mem', memcpy q p mn h1 = Ok (tt, with_pages (set_memory mem' (pages h1)) h1)) as [mem' Hcpy]
        by (by eexists). rewrite (bindM_step _ _ _ _ _ Hcpy).
      destruct (free_ok (with_pages (set_memory mem' (pages h1)) h1) p m ((q, n) :: live)) as (h2 & Hf & Hh2 & Hid2).
      { apply heap_ok_memory. eapply heap_ok_perm; [|exact Hh1]. apply Permutation_swap. }
      rewrite (bindM_step _ _ _ _ _ Hf). exists q, h2. split; [done|]. split; [by right|]. eauto.
Qed.

(** ** Live blocks do not overlap *)

Lemma filter_index_inj (P : Z * Z -> Prop) `{forall x, Decision (P x)} (l : list (Z * Z)) i j x y :
  NoDup ((filter P l).*1) -> l !! i = Some x -> l !! j = Some y -> P x -> P y -> fst x = fst y -> i = j.
Proof.
  revert i j. induction l as [|z l IH]; intros i j Hn Hi Hj Hx Hy He; [done|]. rewrite filter_cons in Hn.
  destruct i as [|i], j as [|j]; simplify_eq/=; [done| | |].
  - rewrite decide_True in Hn by done. apply NoDup_cons in Hn as [Hn _]. exfalso. apply Hn. rewrite He.
    apply list_elem_of_fmap. exists y. split; [done|]. apply list_elem_of_filter. split; [done|].
    by eapply list_elem_of_lookup_2.
  - rewrite decide_True in Hn by done. apply NoDup_cons in Hn as [Hn _]. exfalso. apply Hn. rewrite <- He.
    apply list_elem_of_fmap. exists x. split; [done|]. apply list_elem_of_filter. split; [done|].
    by eapply list_elem_of_lookup_2.
  - f_equal. apply IH; try done. case_decide; [|done]. by apply NoDup_cons in Hn as [_ ?].
Qed.

(** A live block lies inside the pages of its arena, after the header. *)
Lemma live_extent h live p n :
  heap_ok h live -> (p, n) ∈ live ->
  exists ar, arenas h !! pg_round_down p = Some ar /\ a_desc ar = class_of n /\
    pg_round_down p + 12 <= p /\ p + n <= pg_round_down p + 4096 * npages ar.
Proof.
  intros Hh Hin. pose proof (live_block h live p n Hh Hin) as Hall.
  destruct (block_arena h live p (class_of n) Hh Hall) as (ar & Ha & Had & Hpb & _ & _).
  exists ar. split; [done|]. split; [done|]. unfold npages. rewrite Had.
  destruct (class_of n) as [d|] eqn:Hc; simpl in Hpb.
  - apply list_elem_of_fmap in Hpb as (i & Hpi & Hi%elem_of_seqZ).
    pose proof (block_bounds (pg_round_down p) d i ltac:(lia)). pose proof (class_of_Some n d Hc). lia.
  - apply list_elem_of_singleton in Hpb. destruct (ok_big h live Hh p n Hin Hc) as (ar' & Ha' & _ & Hf).
    assert (p - 12 = pg_round_down p) as He by lia. rewrite He, Ha in Ha'. injection Ha' as <-.
    rewrite Hf. unfold pages_for. zlia.
Qed.

Lemma live_disjoint h live i j p n q m :
  heap_ok h live -> live !! i = Some (p, n) -> live !! j = Some (q, m) -> i <> j ->
  p + n <= q \/ q + m <= p.
Proof.
  intros Hh Hi Hj Hne. pose proof (list_elem_of_lookup_2 _ _ _ Hi) as Hpi. pose proof (list_elem_of_lookup_2 _ _ _ Hj) as Hqj.
  destruct (live_extent h live p n Hh Hpi) as (ar1 & Ha1 & Hd1 & Hlo1 & Hhi1).
  destruct (live_extent h live q m Hh Hqj) as (ar2 & Ha2 & Hd2 & Hlo2 & Hhi2).
  destruct (arena_page h live _ _ Hh Ha1) as (? & Hm1 & _ & Hn1).
  destruct (arena_page h live _ _ Hh Ha2) as (? & Hm2 & _ & Hn2).
  destruct (Z.eq_dec (pg_round_down p) (pg_round_down q)) as [He|Hpages].
  - rewrite <- He in Ha2. assert (ar2 = ar1) as -> by congruence.
    pose proof (frees_live_NoDup h live (class_of n) Hh) as Hnd. apply NoDup_app in Hnd as (_ & _ & Hnd).
    assert (p <> q) as Hpq.
    { intros ->. apply Hne. eapply (filter_index_inj _ live i j _ _ Hnd Hi Hj); simpl; congruence. }
    pose proof (live_block h live p n Hh Hpi) as Hbp. pose proof (live_block h live q m Hh Hqj) as Hbq.
    destruct (block_arena h live p _ Hh Hbp) as (_ & _ & _ & Hp' & _). destruct (block_arena h live q _ Hh Hbq) as (_ & _ & _ & Hq' & _).
    assert (class_of m = class_of n) as Hcl by congruence. rewrite Hcl, <- He in Hq'.
    destruct (class_of n) as [d|] eqn:Hc; simpl in Hp', Hq'.
    + apply list_elem_of_fmap in Hp' as (i1 & Hp1 & _), Hq' as (i2 & Hq1 & _).
      pose proof (class_of_Some n d Hc). pose proof (class_of_Some m d Hcl). pose proof (bsize_pos d).
      unfold block in *. assert (i1 < i2 \/ i2 < i1) as [|] by nia; [left|right]; nia.
    + apply list_elem_of_singleton in Hp', Hq'. congruence.
  - (* different arenas: disjoint page ranges *)
    destruct (Z_lt_le_dec (pg_round_down p) (pg_round_down q)) as [Hlt|Hge]; [left|right].
    + enough (pg_round_down p + 4096 * npages ar1 <= pg_round_down q) by lia.
      destruct (Z_le_gt_dec (pg_round_down p + 4096 * npages ar1) (pg_round_down q)) as [|Hgt]; [done|exfalso].
      apply Hpages. apply (ok_disjoint h live Hh _ ar1 _ ar2 (pg_round_down q)); [done|done| |exists 0; lia].
      exists ((pg_round_down q - pg_round_down p) / 4096). zlia.
    + enough (pg_round_down q + 4096 * npages ar2 <= pg_round_down p) by lia.
      destruct (Z_le_gt_dec (pg_round_down q + 4096 * npages ar2) (pg_round_down p)) as [|Hgt]; [done|exfalso].
      apply Hpages. apply (ok_disjoint h live Hh _ ar1 _ ar2 (pg_round_down p)); [done|done|exists 0; lia|].
      exists ((pg_round_down p - pg_round_down q) / 4096). zlia.
Qed.

(** With no live block there is no arena left. *)
Lemma no_live_no_arena h : heap_ok h [] -> no_idle None h -> arenas h = ∅.
Proof.
  intros Hh Hid. apply map_empty. intros a. destruct (arenas h !! a) as [ar|] eqn:Ha; [|done]. exfalso.
  pose proof (ok_blocks h [] Hh (a_desc ar)) as Hp. unfold live_ptrs in Hp. simpl in Hp. rewrite app_nil_r in Hp.
  assert (blocks a (a_desc ar) ⊆+ frees (descs h) (a_desc ar)) as Hsub.
  { rewrite Hp, (all_blocks_delete _ _ _ _ Ha). unfold arena_blocks. simpl. rewrite decide_True by done.
    apply submseteq_inserts_r. done. }
  destruct (a_desc ar) as [d|] eqn:Hd.
  - pose proof (Hid a ar d Ha Hd ltac:(done)) as Hlt. destruct (ok_count h [] Hh a ar d Ha Hd) as [_ Hc].
    destruct (submseteq_Permutation _ _ Hsub) as [l Hl].
    assert (length (filter (in_page a) (frees (descs h) (Some d))) =
            length (blocks a (Some d)) + length (filter (in_page a) l))%nat as Hf.
    { rewrite Hl, filter_app, own_page, length_app. done. }
    simpl blocks in Hf. rewrite length_fmap, length_seqZ in Hf. lia.
  - apply submseteq_length in Hsub. simpl in Hsub. lia.
Qed.

(** ** Clients of the allocator *)

(** [k] names the [k]-th live block. *)
Inductive heap_op : Type :=
  | HMalloc (size : Z) | HCalloc (a b : Z) | HRealloc (k : nat) (size : Z) | HFree (k : nat).

Definition add_live (p n : Z) (live : list (Z * Z)) : list (Z * Z) :=
  if p =? NULL then live else (p, n) :: live.

Fixpoint heap_run (ops : list heap_op) (h : heap) (live : list (Z * Z)) : res (heap * list (Z * Z)) :=
  match ops with
  | [] => Ok (h, live)
  | HMalloc n :: ops => '(p, h) ← malloc n h; heap_run ops h (add_live p n live)
  | HCalloc a b :: ops => '(p, h) ← calloc a b h; heap_run ops h (add_live p (a * b) live)
  | HRealloc k n :: ops =>
      match live !! k with
      | Some (p, _) =>
          '(q, h) ← realloc p n h;
          heap_run ops h (if n =? 0 then delete k live
                          else if q =? NULL then live else (q, n) :: delete k live)
      | None => heap_run ops h live
      end
  | HFree k :: ops =>
      match live !! k with
      | Some (p, _) => '(_, h) ← free p h; heap_run ops h (delete k live)
      | None => heap_run ops h live
      end
  end.

(** Requests whose size plus header and rounding fits a [size_t]. *)
Definition heap_op_ok (o : heap_op) : Prop :=
  match o with
  | HMalloc n | HRealloc _ n => 0 <= n /\ n + 4107 < 2 ^ 32
  | HCalloc a b => 0 <= a /\ 0 <= b /\ a * b + 4107 < 2 ^ 32
  | HFree _ => True
  end.

Lemma add_live_ok h' live p n :
  (p = NULL /\ heap_ok h' live \/ p <> NULL /\ heap_ok h' ((p, n) :: live)) -> heap_ok h' (add_live p n live).
Proof.
  unfold add_live. intros [[-> Hh]|[Hp Hh]]; [done|]. by rewrite (proj2 (Z.eqb_neq p NULL)).
Qed.

Lemma heap_run_ok ops h live :
  heap_ok h live -> no_idle None h -> Forall heap_op_ok ops ->
  exists h' live', heap_run ops h live = Ok (h', live') /\ heap_ok h' live' /\ no_idle None h'.
Proof.
  intros Hh Hid Hops. revert h live Hh Hid. induction Hops as [|o ops Ho Hops IH]; intros h live Hh Hid.
  { by exists h, live. }
  assert (forall k p n, live !! k = Some (p, n) -> heap_ok h ((p, n) :: delete k live)) as Hat.
  { intros k p n Hk. eapply heap_ok_perm; [|exact Hh]. by apply delete_Permutation. }
  destruct o as [n|a b|k n|k]; cbn [heap_run].
  - destruct Ho. destruct (malloc_ok h live n Hh) as (p & h1 & -> & Hc & Hid1); [lia|lia|].
    cbn [mbind res_bind]. apply IH; [by eapply add_live_ok|eauto].
  - destruct Ho as (? & ? & ?). destruct (calloc_ok h live a b Hh) as (p & h1 & -> & Hc & Hid1); [lia|lia|lia|].
    cbn [mbind res_bind]. apply IH; [by eapply add_live_ok|eauto].
  - destruct (live !! k) as [[p m]|] eqn:Hk; [|by apply IH]. destruct Ho as [Hn0 Hn].
    destruct (realloc_ok h p m (delete k live) n (Hat k p m Hk) Hn0 Hn) as (q & h1 & -> & Hc & Hid1).
    cbn [mbind res_bind]. apply IH; [|eauto]. destruct (n =? 0); [by destruct Hc|].
    destruct Hc as [[-> Hh1]|[Hq Hh1]].
    + change (NULL =? NULL) with true. eapply heap_ok_perm; [|exact Hh1]. symmetry. by apply delete_Permutation.
    + by rewrite (proj2 (Z.eqb_neq q NULL)).
  - destruct (live !! k) as [[p m]|] eqn:Hk; [|by apply IH].
    destruct (free_ok h p m (delete k live) (Hat k p m Hk)) as (h1 & -> & Hh1 & Hid1).
    cbn [mbind res_bind]. apply IH; [done|eauto].
Qed.

Lemma malloc_init_ok s h : pal_ok s -> malloc_init s = Ok h -> heap_ok h [] /\ no_idle None h.
Proof.
  intros Hs Hi. vm_compute in Hi. injection Hi as <-. split; [|by intros a ar d Ha].
  split; cbn [pages descs arenas]; [done| |done|done|done| |by intros p n ?%not_elem_of_nil].
  - split; [done|]. intros d x Hx. do 7 (destruct d as [|d]; [by injection Hx as <-|]). done.
  - intros k. destruct k as [d|]; [|done]. do 7 (destruct d as [|d]; [done|]). done.
Qed.


(** Size computations are not checked completely: [malloc (SIZE_MAX)]
    wraps around when the arena header is added and returns a block of less
    than a page, and the overflow test of [calloc] lets a product through whose
    low 32 bits are large enough, returning a block of 86004 bytes for a
    request of 60001 * 71583 = 4295051583 bytes. *)
Theorem malloc_size_wraps :
  (h ← malloc_init demo_pal; '(p, h) ← malloc 4294967295 h; '(n, _) ← block_size p h; Ok (p, n)) =
    Ok (3221241868, 4084) /\
  (h ← malloc_init demo_pal; '(p, h) ← calloc 60001 71583 h; '(n, _) ← block_size p h; Ok (p, n)) =
    Ok (3221241868, 86004).
Proof. split; vm_compute; reflexivity. Qed.

Definition demo_heap : heap := match malloc_init demo_pal with Ok h => h | Fail _ => mk_heap [] ∅ demo_pal end.
Definition demo_heap_ops : list heap_op :=
  [HMalloc 20; HMalloc 5000; HCalloc 3 400; HMalloc 1000; HFree 1; HRealloc 0 1010; HMalloc 16; HFree 0; HFree 2].

Lemma demo_pal_ok : pal_ok demo_pal.
Proof.
  repeat split; cbn [used_map base bit_cnt bits kernel_pool user_pool demo_pal]; try (simpl; lia); try done;
    repeat constructor; lia.
Qed.

