(* ===== verification/Alloc.v ===== *)
(** * The interface of the block allocator

    What the clients of threads/malloc.c rely on: [malloc] and [calloc]
    return a null pointer or a block distinct from every live one, and [free]
    takes back a live block.  The allocator of [Malloc] is an instance. *)

From S2P Require Import Prelude Vaddr Palloc Malloc.

(** [al_ok h live] says that the live blocks of [h], with their sizes, are
    [live]. *)
Class Allocator (H : Type) : Type := {
  al_ok : H -> list (Z * Z) -> Prop;
  al_malloc : Z -> M H Z;
  al_calloc : Z -> Z -> M H Z;
  al_free : Z -> M H unit;
}.

(** The largest block the clients of this development ask for. *)
Definition al_max : Z := 2 ^ 31.

Definition fresh_block (p : Z) (live : list (Z * Z)) : Prop := p <> NULL /\ p ∉ live.*1.

Class AllocatorLaws (H : Type) `{Allocator H} : Prop := {
  al_malloc_ok h live size :
    al_ok h live -> 0 < size < al_max ->
    exists p h', al_malloc size h = Ok (p, h') /\
      (p = NULL /\ al_ok h' live \/ fresh_block p live /\ al_ok h' ((p, size) :: live));
  al_calloc_ok h live a b :
    al_ok h live -> 0 < a -> 0 < b -> a * b < al_max ->
    exists p h', al_calloc a b h = Ok (p, h') /\
      (p = NULL /\ al_ok h' live \/ fresh_block p live /\ al_ok h' ((p, a * b) :: live));
  al_free_ok h p n live :
    al_ok h ((p, n) :: live) -> exists h', al_free p h = Ok (tt, h') /\ al_ok h' live;
  al_perm h l1 l2 : l1 ≡ₚ l2 -> al_ok h l1 -> al_ok h l2;
}.

(** Memory does not run out: a hypothesis of theorems that promise a result. *)
Definition roomy {H : Type} `{Allocator H} : Prop := forall h live size p h',
  al_ok h live -> al_malloc size h = Ok (p, h') -> 0 < size -> p <> NULL.

(** ** threads/malloc.c implements it *)

#[global] Instance malloc_allocator : Allocator heap := {|
  al_ok h live := heap_ok h live /\ Forall (fun g => 0 < snd g) live;
  al_malloc := malloc;
  al_calloc := calloc;
  al_free p := free p;
|}.

(** A block that joined the live ones has an address of its own. *)
Lemma live_head_fresh h p n live :
  heap_ok h ((p, n) :: live) -> Forall (fun g => 0 < snd g) ((p, n) :: live) -> p ∉ live.*1.
Proof.
  intros Hh Hs ([q m] & Hq & Hin)%list_elem_of_fmap. simpl in Hq. subst q.
  apply list_elem_of_lookup in Hin as [i Hi].
  pose proof (live_disjoint h ((p, n) :: live) 0 (S i) p n p m Hh eq_refl Hi ltac:(done)).
  apply Forall_cons in Hs as [Hn Hs]. pose proof (Forall_lookup_1 _ _ _ _ Hs Hi). simpl in *. lia.
Qed.

#[global] Instance malloc_allocator_laws : AllocatorLaws heap.
Proof.
  split; cbn [al_ok al_malloc al_calloc al_free malloc_allocator]; unfold al_max.
  - intros h live size [Hh Hs] Hsz. destruct (malloc_ok h live size) as (p & h' & Hm & Hp & _); [done|lia|lia|].
    exists p, h'. split; [done|]. destruct Hp as [[-> Hh']|[Hp Hh']]; [by left|right].
    assert (Forall (fun g : Z * Z => 0 < snd g) ((p, size) :: live)) as Hs' by (constructor; simpl; [lia|done]).
    split; [split; [done|by eapply live_head_fresh]|done].
  - intros h live a b [Hh Hs] Ha Hb Hab.
    destruct (calloc_ok h live a b) as (p & h' & Hm & Hp & _); [done|lia|lia|lia|].
    exists p, h'. split; [done|]. destruct Hp as [[-> Hh']|[Hp Hh']]; [by left|right].
    assert (Forall (fun g : Z * Z => 0 < snd g) ((p, a * b) :: live)) as Hs' by (constructor; simpl; [nia|done]).
    split; [split; [done|by eapply live_head_fresh]|done].
  - intros h p n live [Hh [_ Hs]%Forall_cons].
    destruct (free_ok h p n live Hh) as (h' & Hf & Hh' & _). by exists h'.
  - intros h l1 l2 Hp [Hh Hs]. split; [by eapply heap_ok_perm|by rewrite <- Hp].
Qed.

(** ** The room in a block

    [al_room n] is how many bytes a block obtained with [malloc (n)] really
    has; [al_foreign h a] says that the byte at [a] is in use by somebody else,
    so that the allocator will not hand it out. *)
Class AllocatorRoom (H : Type) `{Allocator H} : Type := {
  al_room : Z -> Z;
  al_foreign : H -> Z -> Prop;
}.

Class AllocatorRoomLaws (H : Type) `{AllocatorRoom H} : Prop := {
  al_room_ge n : 0 < n -> n <= al_room n;
  al_room_apart h live i j p n q m :
    al_ok h live -> live !! i = Some (p, n) -> live !! j = Some (q, m) -> i <> j ->
    p + al_room n <= q \/ q + al_room m <= p;
  al_block_pos h live p n : al_ok h live -> (p, n) ∈ live -> 0 < p;
  al_room_foreign h live p n a :
    al_ok h live -> (p, n) ∈ live -> p <= a < p + al_room n -> ~ al_foreign h a;
  al_foreign_malloc h live size p h' a :
    al_ok h live -> 0 < size < al_max -> al_malloc size h = Ok (p, h') -> al_foreign h a -> al_foreign h' a;
  al_foreign_free h live p n h' a :
    al_ok h ((p, n) :: live) -> al_free p h = Ok (tt, h') -> al_foreign h a -> al_foreign h' a;
}.

(** *** threads/malloc.c implements it

    A page that the page allocator handed to somebody else, or that is not in
    the kernel pool. *)
Definition elsewhere (h : heap) (x : Z) : Prop :=
  (allocated (pages h) x \/ forall i, ~ group_in (pages h) false i 1 x) /\
  forall a ar, arenas h !! a = Some ar -> ~ page_of a (npages ar) x.

(** Operations that leave the pages alone and add no arena. *)
Definition no_growth (h h' : heap) : Prop :=
  (forall x, allocated (pages h) x -> allocated (pages h') x) /\
  (forall u i k q, group_in (pages h') u i k q <-> group_in (pages h) u i k q) /\
  forall a ar', arenas h' !! a = Some ar' -> exists ar, arenas h !! a = Some ar /\ npages ar = npages ar'.

Lemma no_growth_elsewhere h h' x : no_growth h h' -> elsewhere h x -> elsewhere h' x.
Proof.
  intros (Hal & Hgr & Har) [Hx Hn]. split.
  - destruct Hx as [Hx|Hx]; [left; by apply Hal|right]. intros i. rewrite Hgr. apply Hx.
  - intros a ar' Ha. destruct (Har a ar' Ha) as (ar & Ha' & <-). by apply Hn.
Qed.

Lemma no_growth_same h h' : arenas h' = arenas h -> pages h' = pages h -> no_growth h h'.
Proof. intros Ha Hp. unfold no_growth. rewrite Ha, Hp. split; [done|]. split; [done|]. intros a ar. by exists ar. Qed.

Lemma no_growth_trans h1 h2 h3 : no_growth h1 h2 -> no_growth h2 h3 -> no_growth h1 h3.
Proof.
  intros (A1 & G1 & R1) (A2 & G2 & R2). split; [auto|]. split; [intros; by rewrite G2, G1|].
  intros a ar Ha. destruct (R2 a ar Ha) as (ar2 & Ha2 & <-). by apply R1.
Qed.

Lemma no_growth_arena h a ar ar' :
  arenas h !! a = Some ar -> npages ar' = npages ar -> no_growth h (with_arenas (<[a := ar']> (arenas h)) h).
Proof.
  intros Ha Hn. split; [done|]. split; [done|]. intros b br Hb. simpl in Hb.
  apply lookup_insert_Some in Hb as [[<- <-]|[_ Hb]]; [by exists ar|by exists br].
Qed.

Lemma get_arena_readonly a : readonly (get_arena a).
Proof. intros h x h'. unfold get_arena. case_match; [|done]. by intros [= _ <-]. Qed.
Lemma get_desc_readonly d : readonly (get_desc d).
Proof. intros h x h'. unfold get_desc. case_match; [|done]. by intros [= _ <-]. Qed.
#[local] Hint Resolve get_arena_readonly get_desc_readonly : readonly.

Lemma arena_to_block_readonly a i : readonly (arena_to_block a i).
Proof. unfold arena_to_block. solve_readonly. Qed.
Lemma block_to_arena_readonly b : readonly (block_to_arena b).
Proof. unfold block_to_arena. solve_readonly. Qed.

(** Only a free list may differ. *)
Definition same_arenas (h h' : heap) : Prop := arenas h' = arenas h /\ pages h' = pages h.

Lemma set_free_list_same d l h u h' : set_free_list d l h = Ok (u, h') -> same_arenas h h'.
Proof. unfold set_free_list. case_match; [|done]. by intros [= _ <-]. Qed.

Lemma add_blocks_same n d a i h u h' : add_blocks n d a i h = Ok (u, h') -> same_arenas h h'.
Proof.
  revert i h. induction n as [|n IH]; intros i h Hr; cbn [add_blocks] in Hr; [by injection Hr as _ <-|].
  apply bindM_Ok in Hr as (b & h1 & ->%arena_to_block_readonly & Hr).
  apply bindM_Ok in Hr as (x & h2 & ->%get_desc_readonly & Hr).
  apply bindM_Ok in Hr as ([] & h3 & [E1 E2]%set_free_list_same & [E3 E4]%IH). split; congruence.
Qed.

Lemma remove_blocks_same n d a i h u h' : remove_blocks n d a i h = Ok (u, h') -> same_arenas h h'.
Proof.
  revert i h. induction n as [|n IH]; intros i h Hr; cbn [remove_blocks] in Hr; [by injection Hr as _ <-|].
  apply bindM_Ok in Hr as (b & h1 & ->%arena_to_block_readonly & Hr).
  apply bindM_Ok in Hr as (x & h2 & ->%get_desc_readonly & Hr).
  apply bindM_Ok in Hr as ([] & h3 & [E1 E2]%set_free_list_same & [E3 E4]%IH). split; congruence.
Qed.

(** A new arena of pages that were free. *)
Lemma elsewhere_arena h s a ar x :
  (forall u i k q, group_in s u i k q <-> group_in (pages h) u i k q) ->
  (exists i, group_in (pages h) false i (npages ar) a) ->
  (forall y, page_of a (npages ar) y -> ~ allocated (pages h) y) ->
  (forall y, allocated (pages h) y -> allocated s y) ->
  elsewhere h x -> elsewhere (with_arenas (<[a := ar]> (arenas h)) (with_pages s h)) x.
Proof.
  intros Hgr [i Hg] Hfr Hal [Hx Hn]. split.
  - simpl. destruct Hx as [Hx|Hx]; [left; by apply Hal|right]. intros j. rewrite Hgr. apply Hx.
  - intros b br Hb. simpl in Hb. apply lookup_insert_Some in Hb as [[<- <-]|[_ Hb]]; [|by apply Hn].
    intros Hp. destruct Hx as [Hx|Hx]; [by apply (Hfr x Hp)|].
    destruct (group_page _ _ _ _ _ _ Hg Hp) as (j & _ & Hj). by apply (Hx j).
Qed.

(** What the page allocator gives the heap. *)
Lemma palloc_elsewhere h live n p h1 :
  heap_ok h live -> 0 < n < 2 ^ 32 -> palloc (palloc_get_multiple 0 n) h = Ok (p, h1) ->
  no_growth h h1 /\ (p <> NULL -> forall ar x, npages ar = n -> elsewhere h x ->
                       elsewhere (with_arenas (<[p := ar]> (arenas h1)) h1) x).
Proof.
  intros Hh Hn Hp. destruct (palloc_get_ok 0 n (pages h)) as (q & s & Hget & _ & Hgr & Hc); [apply Hh|lia|done|].
  unfold palloc in Hp. rewrite Hget in Hp. injection Hp as <- <-.
  assert (forall y, allocated (pages h) y -> allocated s y) as Hal.
  { destruct Hc as [[_ Hc]|(i & _ & _ & Hc)]; intros y Hy; apply Hc; auto. }
  split; [split; [exact Hal|split; [exact Hgr|intros a ar; by exists ar]]|].
  intros Hne ar x Hnp Hx. destruct Hc as [[? _]|(i & Hg & Hfr & _)]; [done|].
  apply (elsewhere_arena h s q ar x); [exact Hgr|rewrite Hnp; by exists i|rewrite Hnp; exact Hfr|exact Hal|exact Hx].
Qed.

Lemma block_to_arena_page b h a h' : block_to_arena b h = Ok (a, h') -> a = pg_round_down b /\ a <> NULL.
Proof.
  unfold block_to_arena. intros Hb. apply bindM_Ok in Hb as ([] & h1 & Ha & Hb). unfold assertM, liftM in Ha.
  destruct (ASSERT _) as [[]|] eqn:E; [|done]. apply ASSERT_Ok, negb_true_iff, Z.eqb_neq in E. clear Ha.
  apply bindM_Ok in Hb as (ar & h2 & _ & Hb). apply bindM_Ok in Hb as ([] & h3 & _ & Hb). destruct (a_desc ar).
  - apply bindM_Ok in Hb as (y & h4 & _ & Hb). apply bindM_Ok in Hb as ([] & h5 & _ & Hb). injection Hb as <- _. done.
  - apply bindM_Ok in Hb as ([] & h5 & _ & Hb). injection Hb as <- _. done.
Qed.

(** The arena of a block of a size class is one page. *)
Lemma malloc_arena h live size d p h' :
  heap_ok h live -> 0 < size < al_max -> class_of size = Some d -> malloc size h = Ok (p, h') -> p <> NULL ->
  exists ar, arenas h' !! pg_round_down p = Some ar /\ a_desc ar = Some d.
Proof.
  unfold al_max. intros Hh Hs Hc Hm Hp. destruct (malloc_ok h live size) as (q & k & Hm' & Hq & _); [done|lia|lia|].
  rewrite Hm in Hm'. injection Hm' as <- <-. destruct Hq as [[? _]|[_ Hh']]; [done|].
  destruct (live_extent h' _ p size Hh' ltac:(left)) as (ar & Ha & Hd & _). exists ar. by rewrite Hd.
Qed.

(** The refill of an empty free list. *)
Lemma refill_elsewhere h live d y ok h1 x :
  heap_ok h live -> refill d y h = Ok (ok, h1) -> elsewhere h x -> elsewhere h1 x.
Proof.
  intros Hh Hr Hx. unfold refill in Hr. case_bool_decide; [|by injection Hr as _ <-].
  apply bindM_Ok in Hr as (a & h2 & Hg & Hr).
  destruct (palloc_elsewhere h live 1 a h2 Hh ltac:(lia) Hg) as [Hgr Hnew].
  destruct (Z.eqb_spec a NULL); [injection Hr as _ <-; by eapply no_growth_elsewhere|].
  apply bindM_Ok in Hr as ([] & h3 & Hput & Hr). injection Hput as <-.
  apply bindM_Ok in Hr as ([] & h4 & [E1 E2]%add_blocks_same & Hr). injection Hr as _ <-.
  eapply no_growth_elsewhere; [by apply no_growth_same|]. by apply Hnew.
Qed.

Lemma malloc_elsewhere h live size p h' x :
  heap_ok h live -> 0 < size < al_max -> malloc size h = Ok (p, h') -> elsewhere h x -> elsewhere h' x.
Proof.
  intros Hh Hs Hm Hx. pose proof (malloc_arena h live size) as Hma. pose proof Hm as Hm0. unfold al_max in Hs.
  unfold malloc in Hm. rewrite (proj2 (Z.eqb_neq size 0)) in Hm by lia.
  apply bindM_Ok in Hm as (ds & h0 & Hg & Hm). injection Hg as <- <-.
  rewrite (find_desc_class _ size (ok_descs h live Hh)) in Hm. destruct (class_of size) as [d|] eqn:Hc.
  - apply bindM_Ok in Hm as (y & h0 & ->%get_desc_readonly & Hm). apply bindM_Ok in Hm as (ok & h1 & Hr & Hm).
    pose proof (refill_elsewhere h live d y ok h1 x Hh Hr Hx) as Hx1.
    destruct ok; [|by injection Hm as _ <-]. cbn [negb] in Hm.
    apply bindM_Ok in Hm as (y1 & h2 & ->%get_desc_readonly & Hm). destruct (free_list y1) as [|b l]; [done|].
    apply bindM_Ok in Hm as ([] & h3 & [E1 E2]%set_free_list_same & Hm).
    apply bindM_Ok in Hm as (a & h4 & Hba & Hm). pose proof (block_to_arena_readonly _ _ _ _ Hba) as ->.
    apply block_to_arena_page in Hba as [-> Ha0].
    apply bindM_Ok in Hm as (ar & h4 & Hga & Hm). pose proof (get_arena_readonly _ _ _ _ Hga) as ->.
    apply bindM_Ok in Hm as ([] & h5 & Hput & Hm). injection Hput as <-. injection Hm as -> <-.
    unfold get_arena in Hga. destruct (arenas h3 !! pg_round_down p) as [ar0|] eqn:Ha; [|done]. injection Hga as ->.
    destruct (Hma d p _ Hh Hs eq_refl Hm0) as (ar' & Ha' & Hd'); [by intros ->; apply Ha0|].
    simpl in Ha'. rewrite lookup_insert_eq in Ha'. injection Ha' as <-. simpl in Hd'.
    eapply no_growth_elsewhere; [eapply no_growth_arena; [exact Ha|unfold npages; simpl; by rewrite Hd']|].
    by eapply no_growth_elsewhere; [apply no_growth_same|].
  - apply bindM_Ok in Hm as (a & h1 & Hg & Hm).
    apply palloc_elsewhere with (live := live) in Hg as [Hgr Hnew]; [|done|].
    2: { unfold sizeof_arena. change PGSIZE with 4096. pose proof (class_of_None size Hc).
         rewrite (u32_small (size + 12)), u32_small by lia. zlia. }
    destruct (Z.eqb_spec a NULL); [injection Hm as _ <-; by eapply no_growth_elsewhere|].
    apply bindM_Ok in Hm as ([] & h3 & Hput & Hm). injection Hput as <-. injection Hm as _ <-. by apply Hnew.
Qed.

(** Giving an arena's pages back. *)
Lemma palloc_free_elsewhere h a ar n h1 u x :
  pal_ok (pages h) -> (exists i, group_in (pages h) false i n a) ->
  (forall y, page_of a n y -> allocated (pages h) y) -> arenas h !! a = Some ar -> npages ar = n ->
  palloc (palloc_free_multiple a n) h = Ok (u, h1) -> elsewhere h x ->
  elsewhere (with_arenas (delete a (arenas h1)) h1) x.
Proof.
  intros Hp [i Hg] Hall Ha <- Hf [Hx Hn].
  destruct (palloc_free_ok (pages h) false i (npages ar) a Hp Hg Hall) as (s & Hfree & _ & Hgr & Hal).
  unfold palloc in Hf. rewrite Hfree in Hf. injection Hf as _ <-. split; simpl.
  - destruct Hx as [Hx|Hx]; [left|right; intros j; rewrite Hgr; apply Hx].
    apply Hal. split; [done|]. by apply (Hn a ar Ha).
  - intros b br Hb. apply lookup_delete_Some in Hb as [_ Hb]. by apply Hn.
Qed.

Lemma no_growth_memory h m : no_growth h (with_pages (set_memory m (pages h)) h).
Proof.
  destruct (set_memory_same m (pages h)) as (_ & Hal & Hgr). split; [intros x; apply Hal|].
  split; [exact Hgr|]. intros a ar. by exists ar.
Qed.

Lemma free_elsewhere h live p n u h' x :
  heap_ok h ((p, n) :: live) -> free p h = Ok (u, h') -> elsewhere h x -> elsewhere h' x.
Proof.
  intros Hh Hf Hx. unfold free in Hf. destruct (p =? NULL); [by injection Hf as _ <-|].
  apply bindM_Ok in Hf as (a & h1 & Hba & Hf). pose proof (block_to_arena_readonly _ _ _ _ Hba) as ->. clear Hba.
  apply bindM_Ok in Hf as (ar & h1 & Hga & Hf). pose proof (get_arena_readonly _ _ _ _ Hga) as ->.
  unfold get_arena in Hga. destruct (arenas h !! a) as [ar0|] eqn:Ha; [|done]. injection Hga as ->.
  destruct (ok_arenas h _ Hh a ar Ha) as (_ & Hg & Hall). destruct (a_desc ar) as [d|] eqn:Hd.
  - apply bindM_Ok in Hf as (y & h1 & ->%get_desc_readonly & Hf).
    apply bindM_Ok in Hf as ([] & h1 & Hms & Hf). injection Hms as <-. set (h1 := with_pages _ h) in *.
    apply bindM_Ok in Hf as ([] & h2 & [E1 E2]%set_free_list_same & Hf).
    apply bindM_Ok in Hf as ([] & h3 & Hput & Hf). injection Hput as <-. set (h3 := with_arenas _ h2) in *.
    set (ar' := mk_arena (magic ar) (Some d) _) in *.
    assert (npages ar = 1) as Hnp by (unfold npages; by rewrite Hd). rewrite Hnp in *.
    assert (no_growth h h3) as Hgr.
    { eapply no_growth_trans; [apply no_growth_memory|]. eapply no_growth_trans; [by apply no_growth_same|].
      eapply no_growth_arena; [rewrite E1; exact Ha|by rewrite Hnp]. }
    pose proof (no_growth_elsewhere _ _ _ Hgr Hx) as Hx3. destruct (_ <=? _); [|by injection Hf as _ <-].
    apply bindM_Ok in Hf as ([] & h4 & ->%readonly_assert & Hf).
    apply bindM_Ok in Hf as ([] & h5 & [E3 E4]%remove_blocks_same & Hf).
    apply bindM_Ok in Hf as ([] & h6 & Hp & Hf). injection Hf as _ <-. destruct Hgr as (Hal & Hgg & _).
    assert (pal_ok (pages h5)) as Hpal.
    { rewrite E4. simpl. rewrite E2. simpl. apply (set_memory_same _ (pages h)), (ok_pal h _ Hh). }
    eapply (palloc_free_elsewhere h5 a ar' 1); [exact Hpal| | | |done|exact Hp|].
    + destruct Hg as [i Hg]. exists i. rewrite E4. by apply Hgg.
    + intros z Hz. rewrite E4. by apply Hal, Hall.
    + rewrite E3. simpl. by rewrite lookup_insert_eq.
    + by eapply no_growth_elsewhere; [apply no_growth_same|].
  - apply bindM_Ok in Hf as ([] & h1 & Hp & Hf). injection Hf as _ <-.
    assert (npages ar = free_cnt ar) as Hnp by (unfold npages; by rewrite Hd). rewrite Hnp in *.
    eapply (palloc_free_elsewhere h a ar (free_cnt ar)); [apply Hh|exact Hg|exact Hall|exact Ha|exact Hnp|exact Hp|exact Hx].
Qed.

(** *** The instance *)

Definition room (n : Z) : Z :=
  match class_of n with Some d => bsize d | None => 4096 * pages_for n - 12 end.

Lemma class_of_bsize d : (d < 7)%nat -> class_of (bsize d) = Some d.
Proof. intros Hd. do 7 (destruct d as [|d]; [done|]). lia. Qed.

Lemma class_of_big n : 1024 < n -> class_of n = None.
Proof.
  intros Hn. destruct (class_of n) as [d|] eqn:Hc; [|done]. apply class_of_Some in Hc as [Hd Hle]. exfalso.
  assert (bsize d <= bsize 6) by (unfold bsize; apply Z.mul_le_mono_nonneg_l; [lia|apply Z.pow_le_mono_r; lia]).
  change (bsize 6) with 1024 in *. lia.
Qed.

Lemma class_room n : n <= room n /\ class_of (room n) = class_of n /\
  (class_of n = None -> pages_for (room n) = pages_for n).
Proof.
  unfold room. destruct (class_of n) as [d|] eqn:Hc.
  - apply class_of_Some in Hc as [Hd Hle]. split; [done|]. split; [by apply class_of_bsize|done].
  - apply class_of_None in Hc. unfold pages_for. split; [zlia|]. split; [apply class_of_big; zlia|]. intros _.
    replace (4096 * ((n + 12 + 4095) / 4096) - 12 + 12 + 4095) with (4095 + (n + 12 + 4095) / 4096 * 4096) by lia.
    by rewrite Z.div_add by lia.
Qed.

Definition with_room (g : Z * Z) : Z * Z := (fst g, room (snd g)).

(** The allocator cannot tell a request from one for all of its block. *)
Lemma heap_ok_room h live : heap_ok h live -> heap_ok h (with_room <$> live).
Proof.
  intros Hh. split; [apply Hh|apply Hh|apply Hh|apply Hh|apply Hh| |].
  - intros k. rewrite <- (ok_blocks h live Hh k). f_equiv. apply reflexive_eq. unfold live_ptrs.
    clear. induction live as [|[p n] live IH]; [done|].
    change (with_room <$> (p, n) :: live) with ((p, room n) :: (with_room <$> live)). rewrite !filter_cons. cbn [snd].
    pose proof (proj1 (proj2 (class_room n))) as Hc.
    destruct (decide (class_of n = k)); [rewrite decide_True by congruence|rewrite decide_False by congruence; done].
    change (((p, room n) :: ?l).*1) with (p :: l.*1). change (((p, n) :: ?l).*1) with (p :: l.*1). by f_equal.
  - intros p n ([q m] & [= -> ->] & Hin)%list_elem_of_fmap Hc. simpl in *.
    destruct (class_room m) as (_ & Hcl & Hpg). rewrite Hcl in Hc. rewrite Hpg by done. by apply (ok_big h live Hh).
Qed.

#[global] Instance malloc_room : AllocatorRoom heap := {|
  al_room := room;
  al_foreign h a := elsewhere h (pg_round_down a);
|}.

(** The pages a live block touches are those of its arena. *)
Lemma block_pages h live p n a :
  heap_ok h live -> (p, n) ∈ live -> p <= a < p + room n -> ~ elsewhere h (pg_round_down a).
Proof.
  intros Hh Hin Ha [_ Hn]. pose proof (heap_ok_room h live Hh) as Hh'.
  destruct (live_extent h _ p (room n) Hh') as (ar & Har & _ & Hlo & Hhi).
  { apply list_elem_of_fmap. by exists (p, n). }
  destruct (arena_page h live _ _ Hh Har) as (Hp0 & Hpm & Hpt & _).
  apply (Hn _ _ Har). exists ((pg_round_down a - pg_round_down p) / 4096).
  assert (pg_round_down a = a - a mod 4096) as -> by (apply pg_round_down_arith; lia).
  set (b := pg_round_down p) in *. zlia.
Qed.

#[global] Instance malloc_room_laws : AllocatorRoomLaws heap.
Proof.
  split; cbn [al_ok al_malloc al_free al_room al_foreign malloc_allocator malloc_room].
  - intros n _. apply class_room.
  - intros h live i j p n q m [Hh _] Hi Hj Hne. apply (live_disjoint h (with_room <$> live) i j); [by apply heap_ok_room| | |done];
      rewrite list_lookup_fmap; [by rewrite Hi|by rewrite Hj].
  - intros h live p n [Hh _] Hin. destruct (live_extent h live p n Hh Hin) as (ar & Har & _ & Hlo & _).
    destruct (arena_page h live _ _ Hh Har) as (Hp0 & _). lia.
  - intros h live p n a [Hh _]. by apply block_pages.
  - intros h live size p h' a [Hh _] Hs Hm Hf. by eapply malloc_elsewhere.
  - intros h live p n h' a [Hh _] Hm Hf. by eapply free_elsewhere.
Qed.
