(* ===== verification/Args.v ===== *)
(** * The arguments of a user program: arg_parse and arg_push of userprog/process.c

    [arg_parse] cuts the command line into words, kept in blocks of the kernel
    heap; [arg_push] lays them out on the user stack the way the C calling
    convention expects [argc] and [argv].

    The state holds the bytes of kernel memory: those outside the heap and
    those of the blocks in use.  A block is as large as the allocator makes it
    ([al_room]): writing past it is a [BadAccess], and so is using it after it
    was freed.  [param_str] and [arg_of] are the fields of the two structures
    that wrap list elements.  The user stack is written through [UserMem], the
    memory a user program sees. *)

From S2P Require Import Prelude Vaddr Mem Str Alloc.

(** ** What the memory of a user program promises

    [um_get u a] is the byte at user address [a], if the page is there and may
    be written; the kernel writes bytes and words through the page tables. *)
Class UserMem (U : Type) : Type := {
  um_ok : U -> Prop;
  um_get : U -> Z -> option Z;
  um_store : Z -> Z -> M U unit;
}.

Class UserMemLaws (U : Type) `{UserMem U} : Prop := {
  um_store_ok u a b x :
    um_ok u -> um_get u a = Some x -> is_byte b ->
    exists u', um_store a b u = Ok (tt, u') /\ um_ok u' /\
      forall a', um_get u' a' = if a' =? a then Some b else um_get u a';
}.

(** Kernel memory as [arg_parse] and [arg_push] use it. *)
Record ast (H U : Type) : Type := mk_ast {
  kmem : mem;
  rooms : gmap Z Z;             (* the blocks in use and their sizes *)
  kheap : H;
  param_str : gmap Z Z;         (* struct parameter: str *)
  arg_of : gmap Z Z;            (* struct argaddress: arg *)
  umem : U;
}.
Arguments mk_ast {H U}. Arguments kmem {H U}. Arguments rooms {H U}. Arguments kheap {H U}.
Arguments param_str {H U}. Arguments arg_of {H U}. Arguments umem {H U}.

(** [n] bytes from [p] on, of which nothing is known. *)
Definition junk (p n : Z) (m : mem) : mem := write_at m p (replicate (Z.to_nat n) 204).

Fixpoint forget (n : nat) (p : Z) (m : mem) : mem :=
  match n with O => m | S n => delete p (forget n (p + 1) m) end.

Section args.
Context {H U : Type} `{Allocator H, !AllocatorRoom H, UserMem U}.
Abbreviation st := (ast H U).

Definition set_kmem (m : mem) (s : st) : st :=
  mk_ast m (rooms s) (kheap s) (param_str s) (arg_of s) (umem s).

Definition on_kmem {X} (f : mem -> res (mem * X)) : M st X := fun s =>
  '(m, x) ← f (kmem s); Ok (x, set_kmem m s).
Definition on_umem {X} (f : M U X) : M st X := fun s =>
  '(x, u) ← f (umem s); Ok (x, mk_ast (kmem s) (rooms s) (kheap s) (param_str s) (arg_of s) u).

Definition kmalloc (n : Z) : M st Z := fun s =>
  '(p, h) ← al_malloc n (kheap s);
  if p =? NULL then Ok (p, mk_ast (kmem s) (rooms s) h (param_str s) (arg_of s) (umem s))
  else Ok (p, mk_ast (junk p (al_room n) (kmem s)) (<[p := al_room n]> (rooms s)) h
                (param_str s) (arg_of s) (umem s)).

Definition kfree (p : Z) : M st unit := fun s =>
  '(_, h) ← al_free p (kheap s);
  match rooms s !! p with
  | Some n => Ok (tt, mk_ast (forget (Z.to_nat n) p (kmem s)) (delete p (rooms s)) h
                        (param_str s) (arg_of s) (umem s))
  | None => Ok (tt, mk_ast (kmem s) (rooms s) h (param_str s) (arg_of s) (umem s))
  end.

Definition kload (p : Z) : M st Z := fun s => b ← load (kmem s) p; Ok (b, s).

(** Fields of [struct parameter] and [struct argaddress]; both have 12 bytes. *)
Definition sizeof_parameter : Z := 12.
Definition sizeof_argaddress : Z := 12.

Definition set_str (param str : Z) : M st unit := fun s =>
  if param =? NULL then Fail NullAccess
  else Ok (tt, mk_ast (kmem s) (rooms s) (kheap s) (<[param := str]> (param_str s)) (arg_of s) (umem s)).
Definition get_str (param : Z) : M st Z := fun s =>
  match param_str s !! param with Some str => Ok (str, s) | None => Fail BadAccess end.
Definition set_arg (addr arg : Z) : M st unit := fun s =>
  if addr =? NULL then Fail NullAccess
  else Ok (tt, mk_ast (kmem s) (rooms s) (kheap s) (param_str s) (<[addr := arg]> (arg_of s)) (umem s)).
Definition get_arg (addr : Z) : M st Z := fun s =>
  match arg_of s !! addr with Some arg => Ok (arg, s) | None => Fail BadAccess end.

(** ** arg_parse

    [sep] is the address of the string constant that holds one space; [sf]
    bounds the loops of the string functions. *)
Section parse.
Context (sf : nat) (sep : Z).

Definition strlenM (p : Z) : M st Z := on_kmem (fun m => n ← strlen sf m p; Ok (m, n)).
Definition strlcpyM (dst src size : Z) : M st unit :=
  on_kmem (fun m => '(m, _) ← strlcpy sf m dst src size; Ok (m, tt)).
Definition strtokM (s save : Z) : M st (Z * Z) :=
  on_kmem (fun m => '(m, t, save) ← strtok_r sf m s sep save; Ok (m, (t, save))).

(** The body of the loop: a parameter with its own copy of the token. *)
Definition new_param (token : Z) : M st Z :=
  param ← kmalloc sizeof_parameter;
  n ← strlenM token;
  str ← kmalloc n;
  _ ← set_str param str;
  n ← strlenM token;
  _ ← strlcpyM str token (n + 1);
  mret param.

(** The loop over the tokens; [argv] is the list of the parameters so far. *)
Fixpoint parse_tokens (fuel : nat) (token save : Z) (argv : list Z) (argc : Z) : M st (list Z * Z) :=
  match fuel with
  | O => fail NoFuel
  | S fuel =>
      if token =? NULL then mret (argv, argc)
      else
        param ← new_param token;
        '(token, save) ← strtokM NULL save;
        parse_tokens fuel token save (param :: argv) (s32 (argc + 1))
  end.

(** Returns false when there is no memory; else the list and the count. *)
Definition arg_parse (fuel : nat) (file_name_ argc : Z) : M st (bool * list Z * Z) :=
  n ← strlenM file_name_;
  file_name ← kmalloc n;
  if file_name =? NULL then mret (false, [], argc)
  else
    n ← strlenM file_name_;
    _ ← strlcpyM file_name file_name_ (n + 1);
    '(token, save) ← strtokM file_name NULL;
    '(argv, argc) ← parse_tokens fuel token save [] argc;
    _ ← kfree file_name;
    mret (true, argv, argc).
End parse.

(** ** arg_push *)

(** [movl]: four bytes, the lowest first. *)
Definition push_word (sp v : Z) : M st unit :=
  _ ← on_umem (um_store sp (v mod 2 ^ 8));
  _ ← on_umem (um_store (sp + 1) (Z.shiftr v 8 mod 2 ^ 8));
  _ ← on_umem (um_store (sp + 2) (Z.shiftr v 16 mod 2 ^ 8));
  on_umem (um_store (sp + 3) (Z.shiftr v 24 mod 2 ^ 8)).

(** [for ( ; len >= 0 ; len-- )]: the string backwards, its terminator first. *)
Fixpoint push_bytes (len : nat) (str sp : Z) (argv_addr : list Z) : M st (Z * list Z) :=
  b ← kload (str + Z.of_nat len);
  _ ← on_umem (um_store sp b);
  match len with
  | O =>
      addr ← kmalloc sizeof_argaddress;
      _ ← set_arg addr sp;
      mret (sp - 1, argv_addr ++ [addr])
  | S len => push_bytes len str (sp - 1) argv_addr
  end.

(** The length of an argument is limited to 128 bytes. *)
Definition ARG_MAX : Z := 128.

Fixpoint push_params (argv : list Z) (sp : Z) (argv_addr : list Z) : M st (Z * list Z) :=
  match argv with
  | [] => mret (sp, argv_addr)
  | param :: argv =>
      str ← get_str param;
      len ← on_kmem (fun m => n ← strnlen (Z.to_nat ARG_MAX + 1) m str ARG_MAX; Ok (m, n));
      '(sp, argv_addr) ← push_bytes (Z.to_nat len) str sp argv_addr;
      _ ← kfree param;
      push_params argv sp argv_addr
  end.

(** At most three bytes are needed: four rounds end the loop. *)
Fixpoint word_align (fuel : nat) (sp : Z) : M st Z :=
  match fuel with
  | O => fail NoFuel
  | S fuel =>
      if negb (sp mod 4 =? 0) then
        _ ← on_umem (um_store (sp - 1) 0);
        word_align fuel (sp - 1)
      else mret sp
  end.

Fixpoint push_addrs (argv_addr : list Z) (sp : Z) : M st Z :=
  match argv_addr with
  | [] => mret sp
  | addr :: argv_addr =>
      arg ← get_arg addr;
      _ ← push_word (sp - 4) arg;
      _ ← kfree addr;
      push_addrs argv_addr (sp - 4)
  end.

Definition arg_push (argv : list Z) (argc : Z) : M st Z :=
  '(sp, argv_addr) ← push_params argv (PHYS_BASE - 1) [];
  sp ← word_align 4 sp;
  let sp := sp - 4 in
  _ ← push_word sp 0;
  sp ← push_addrs argv_addr sp;
  let temp_sp := sp in
  let sp := sp - 4 in
  _ ← push_word sp temp_sp;
  let sp := sp - 4 in
  _ ← push_word sp argc;
  let sp := sp - 4 in
  _ ← push_word sp 0;
  mret sp.
End args.
