(* ===== verification/ArgsSpec.v ===== *)
(** * What a user program finds on its stack

    [arg_parse] followed by [arg_push] leaves the words of the command line on
    the stack of the new program as [argc] and [argv]. *)

From S2P Require Import Prelude Vaddr Mem Str Palloc Malloc Alloc Args.

(** ** The words of a command line

    [words_from cur str]: the words of [str], the first of which continues
    [cur]. *)
Fixpoint words_from (cur str : list Z) : list (list Z) :=
  match str with
  | [] => if decide (cur = []) then [] else [cur]
  | c :: str =>
      if c =? 32 then if decide (cur = []) then words_from [] str else cur :: words_from [] str
      else words_from (cur ++ [c]) str
  end.
Definition words (str : list Z) : list (list Z) := words_from [] str.

Lemma words_from_token cur str :
  cur <> [] -> words_from cur str = (cur ++ token_of [32] str) :: words (after_token [32] str).
Proof.
  revert cur. induction str as [|c str IH]; intros cur Hc; cbn [words_from token_of].
  - rewrite decide_False by done. by rewrite app_nil_r.
  - unfold after_token. cbn [token_of]. destruct (Z.eqb_spec c 32) as [->|Hne].
    + rewrite !decide_False by done. rewrite decide_True by (by left). by rewrite app_nil_r.
    + rewrite (decide_False (P := c ∈ [32])) by (by intros ?%list_elem_of_singleton).
      rewrite IH by (by destruct cur). by rewrite <- (assoc_L (++)).
Qed.

Lemma words_ltrim str :
  words str = match ltrim [32] str with
              | [] => []
              | rest => token_of [32] rest :: words (after_token [32] rest)
              end.
Proof.
  induction str as [|c str IH]; [done|]. cbn [ltrim]. unfold words. cbn [words_from].
  destruct (Z.eqb_spec c 32) as [->|Hne].
  - rewrite (decide_True (P := 32 ∈ [32])) by (by left). rewrite decide_True by done. exact IH.
  - assert (c ∉ [32]) as Hc by (by intros ?%list_elem_of_singleton).
    rewrite decide_False by done. cbn [app]. rewrite words_from_token by done.
    cbn [token_of]. unfold after_token at 2. cbn [token_of]. rewrite decide_False by done. done.
Qed.

Lemma words_after str : ltrim [32] str <> [] ->
  words str = token_of [32] (ltrim [32] str) :: words (after_token [32] (ltrim [32] str)).
Proof. intros Hne. rewrite words_ltrim. by destruct (ltrim [32] str). Qed.

Lemma token_length ds str : (length (token_of ds (ltrim ds str)) <= length (ltrim ds str) <= length str)%nat.
Proof.
  destruct (token_of_prefix ds (ltrim ds str)) as [suf Hs]. destruct (ltrim_suffix ds str) as (pre & Hp & _).
  apply (f_equal length) in Hs, Hp. rewrite length_app in Hs, Hp. lia.
Qed.

(** ** Kernel memory in use *)

Section spec.
Context {H U : Type} `{AllocatorRoomLaws H, !AllocatorLaws H, UserMemLaws U}.
Abbreviation st := (ast H U).
Implicit Types (s : st) (live : list (Z * Z)).

Record ks_ok s live : Prop := {
  ks_al : al_ok (kheap s) live;
  ks_pos : Forall (fun g => 0 < snd g) live;
  ks_room : forall p n, (p, n) ∈ live -> rooms s !! p = Some (al_room n) /\ owned (kmem s) p (al_room n);
}.

(** The bytes that belong to somebody: to a block in use, or to others. *)
Definition safe s live (a : Z) : Prop :=
  al_foreign (kheap s) a \/ exists p n, (p, n) ∈ live /\ p <= a < p + al_room n.

(** What belonged to somebody still does and is unchanged. *)
Record kept s live s' : Prop := {
  kept_foreign : forall a, al_foreign (kheap s) a -> al_foreign (kheap s') a;
  kept_mem : forall a, safe s live a -> kmem s' !! a = kmem s !! a;
}.

(** Only kernel memory differs. *)
Definition same_rest s s' : Prop :=
  param_str s' = param_str s /\ arg_of s' = arg_of s /\ umem s' = umem s.

Lemma kmem_kept_refl s live : kept s live s.
Proof. by split. Qed.

Lemma kept_safe s live s' a : kept s live s' -> safe s live a -> safe s' live a.
Proof. intros [Hf _] [Ha|Ha]; [left; by apply Hf|by right]. Qed.

Lemma kmem_kept_trans s1 live s2 s3 : kept s1 live s2 -> kept s2 live s3 -> kept s1 live s3.
Proof.
  intros Hk Hl. split; [intros a Ha; by apply Hl, Hk|]. intros a Ha.
  rewrite (kept_mem _ _ _ Hl), (kept_mem _ _ _ Hk); [done|done|by eapply kept_safe].
Qed.

Lemma safe_mono s live live' a : live ⊆ live' -> safe s live a -> safe s live' a.
Proof. intros Hs [?|(p & n & Hp & ?)]; [by left|right; exists p, n; split; [by apply Hs|done]]. Qed.

Lemma kept_sub s live live' s' : live' ⊆ live -> kept s live s' -> kept s live' s'.
Proof. intros Hs [Hf Hm]. split; [done|]. intros a Ha. by eapply Hm, safe_mono. Qed.

Lemma ks_perm s l1 l2 : l1 ≡ₚ l2 -> ks_ok s l1 -> ks_ok s l2.
Proof.
  intros Hp [Ha Hs Hr]. split; [by eapply al_perm|by rewrite <- Hp|]. intros p n Hin. apply Hr. by rewrite Hp.
Qed.

Lemma forget_lookup n p m a :
  forget n p m !! a = if decide (p <= a < p + Z.of_nat n) then None else m !! a.
Proof.
  revert p. induction n as [|n IH]; intros p; simpl.
  - by rewrite decide_False by lia.
  - destruct (decide (a = p)) as [->|Hne].
    + by rewrite lookup_delete_eq, decide_True by lia.
    + rewrite lookup_delete_ne, IH by done. case_decide; case_decide; try lia; done.
Qed.

Lemma kmalloc_spec s live n :
  ks_ok s live -> 0 < n < al_max ->
  exists p s', kmalloc n s = Ok (p, s') /\ same_rest s s' /\
    kept s live s' /\
    (p = NULL /\ ~ roomy (H := H) /\ ks_ok s' live \/
     0 < p /\ ks_ok s' ((p, n) :: live) /\ forall a, p <= a < p + al_room n -> ~ safe s live a).
Proof.
  intros [Ha Hs Hr] Hn. destruct (al_malloc_ok _ _ n Ha Hn) as (p & h & Hm & Hp).
  assert (forall a, al_foreign (kheap s) a -> al_foreign h a) as Hfor
    by (intros; by eapply al_foreign_malloc).
  unfold kmalloc. rewrite Hm. cbn [mbind res_bind].
  destruct Hp as [[-> Hp]|[[Hp0 Hpn] Hp]].
  - eexists _, _. split; [done|]. split; [done|]. split; [by split|]. left. split; [done|].
    split; [|by split]. intros Hro. exact (Hro _ _ _ _ _ Ha Hm ltac:(lia) eq_refl).
  - rewrite (proj2 (Z.eqb_neq p NULL)) by done. eexists _, _. split; [done|]. split; [done|].
    pose proof (al_block_pos _ _ p n Hp ltac:(left)) as Hpos.
    pose proof (al_room_ge n ltac:(lia)) as Hroom.
    assert (forall a, p <= a < p + al_room n -> ~ safe s live a) as Hfresh.
    { intros a Hin [Hf|(q & k & Hq & Hqa)].
      - eapply (al_room_foreign h _ p n a Hp); [left|done|by apply Hfor].
      - apply list_elem_of_lookup in Hq as [i Hi].
        destruct (al_room_apart h _ 0 (S i) p n q k Hp eq_refl Hi ltac:(done)); lia. }
    assert (forall a, safe s live a -> junk p (al_room n) (kmem s) !! a = kmem s !! a) as Hkeep.
    { intros a Hsa. unfold junk. rewrite write_at_lookup, decide_False; [done|].
      rewrite length_replicate. intros Hin. eapply Hfresh, Hsa. lia. }
    split; [by split|]. right. split; [done|]. split; [|done]. split; [done|constructor; [simpl; lia|done]|].
    intros q k [[= -> ->]|Hq]%elem_of_cons; cbn [rooms kmem].
    + rewrite lookup_insert_eq. split; [done|]. intros a Hin. unfold junk.
      rewrite write_at_lookup, decide_True by (rewrite length_replicate; lia).
      apply lookup_lt_is_Some_2. rewrite length_replicate. lia.
    + destruct (Hr q k Hq) as [Hrq Ho]. split.
      * rewrite lookup_insert_ne; [done|]. intros ->. apply Hpn, list_elem_of_fmap. by exists (q, k).
      * by apply owned_write_at.
Qed.

Lemma kfree_spec s live p n :
  ks_ok s ((p, n) :: live) ->
  exists s', kfree p s = Ok (tt, s') /\ same_rest s s' /\ ks_ok s' live /\ kept s live s'.
Proof.
  intros [Ha Hs Hr]. destruct (al_free_ok _ p n live Ha) as (h & Hf & Hh).
  unfold kfree. rewrite Hf. cbn [mbind res_bind]. destruct (Hr p n ltac:(left)) as [-> Ho].
  apply Forall_cons in Hs as [Hn Hs]. simpl in Hn. pose proof (al_room_ge n Hn) as Hroom.
  assert (forall q k a, (q, k) ∈ live -> q <= a < q + al_room k -> ~ p <= a < p + al_room n) as Hap.
  { intros q k a Hq Hqa Hpa. apply list_elem_of_lookup in Hq as [i Hi].
    destruct (al_room_apart _ _ 0 (S i) p n q k Ha eq_refl Hi ltac:(done)); lia. }
  assert (forall a, ~ p <= a < p + al_room n -> forget (Z.to_nat (al_room n)) p (kmem s) !! a = kmem s !! a) as Hk
    by (intros a Hna; rewrite forget_lookup, decide_False by lia; done).
  eexists. split; [done|]. split; [done|]. split; [split; [done|done|]|]; cbn [rooms kmem].
  - intros q k Hq. destruct (Hr q k ltac:(by right)) as [Hrq Hoq]. pose proof (al_room_ge k) as Hk'.
    assert (0 < k) as Hk0 by (rewrite Forall_forall in Hs; by apply (Hs (q, k))). split.
    + rewrite lookup_delete_ne; [done|]. intros ->. apply (Hap q k q Hq); lia.
    + intros a Hqa. rewrite Hk; [by apply Hoq|by eapply Hap].
  - split; [intros a Hfa; by eapply al_foreign_free|]. intros a [Hfa|(q & k & Hq & Hqa)]; apply Hk.
    + intros Hin. eapply (al_room_foreign _ _ p n a Ha); [left|done|done].
    + by eapply Hap.
Qed.

(** ** Strings in kernel memory *)

Definition str_at s live (q : Z) (t : list Z) : Prop :=
  0 < q /\ cstr (kmem s) q t /\ forall a, q <= a <= q + Z.of_nat (length t) -> safe s live a.

(** The string lies in the block [p] of [n] bytes. *)
Definition str_in s (p n q : Z) (t : list Z) : Prop :=
  0 < p <= q /\ cstr (kmem s) q t /\ q + Z.of_nat (length t) < p + al_room n.

Lemma bytes_at_same m m' p bs :
  bytes_at m p bs -> (forall a, p <= a < p + Z.of_nat (length bs) -> m' !! a = m !! a) -> bytes_at m' p bs.
Proof.
  intros Hb Hm. apply bytes_at_intro. intros i b Hi. pose proof (lookup_lt_Some _ _ _ Hi).
  rewrite Hm by lia. by eapply bytes_at_lookup.
Qed.

Lemma cstr_same m m' q t :
  cstr m q t -> (forall a, q <= a <= q + Z.of_nat (length t) -> m' !! a = m !! a) -> cstr m' q t.
Proof.
  intros [Hb Hn] Hm. split; [|done]. eapply bytes_at_same; [done|]. rewrite length_app. simpl.
  intros a Ha. apply Hm. lia.
Qed.

Lemma str_in_at s live p n q t : (p, n) ∈ live -> str_in s p n q t -> str_at s live q t.
Proof.
  intros Hp (Hq & Hc & Hr). split; [lia|]. split; [done|]. intros a Ha. right. exists p, n. split; [done|lia].
Qed.

Lemma kept_str s live s' q t : kept s live s' -> str_at s live q t -> str_at s' live q t.
Proof.
  intros Hk (Hq & Hc & Hs). split; [done|]. split.
  - eapply cstr_same; [done|]. intros a Ha. by apply (kept_mem _ _ _ Hk), Hs.
  - intros a Ha. by eapply kept_safe, Hs.
Qed.

Lemma str_at_mono s live live' q t : live ⊆ live' -> str_at s live q t -> str_at s live' q t.
Proof. intros Hs (Hq & Hc & Ha). split; [done|]. split; [done|]. intros a Hin. by eapply safe_mono, Ha. Qed.

Lemma kept_in s live s' p n q t :
  kept s live s' -> (p, n) ∈ live -> str_in s p n q t -> str_in s' p n q t.
Proof.
  intros Hk Hp (Hq & Hc & Hr). split; [done|]. split; [|done].
  eapply cstr_same; [done|]. intros a Ha. apply (kept_mem _ _ _ Hk). right. exists p, n. split; [done|lia].
Qed.

Lemma strlenM_spec sf s live q t :
  str_at s live q t -> (length t < sf)%nat -> strlenM sf q s = Ok (Z.of_nat (length t), s).
Proof.
  intros (Hq & Hc & _) Hf. unfold strlenM, on_kmem.
  rewrite (strlen_spec sf (kmem s) q t) by (unfold NULL; done || lia). by destruct s.
Qed.

Lemma set_kmem_ok s live m :
  ks_ok s live -> (forall a, is_Some (kmem s !! a) -> is_Some (m !! a)) -> ks_ok (set_kmem m s) live.
Proof.
  intros [Ha Hs Hr] Hm. split; [done|done|]. intros p n Hp. destruct (Hr p n Hp) as [Hrp Ho]. split; [done|].
  intros a Hin. by apply Hm, Ho.
Qed.

Lemma block_not_safe s live p n a : ks_ok s ((p, n) :: live) -> p <= a < p + al_room n -> ~ safe s live a.
Proof.
  intros [Ha Hs _] Hin [Hf|(q & k & Hq & Hqa)].
  - eapply (al_room_foreign _ _ p n a Ha); [left|done|done].
  - apply list_elem_of_lookup in Hq as [i Hi].
    destruct (al_room_apart _ _ 0 (S i) p n q k Ha eq_refl Hi ltac:(done)); lia.
Qed.

(** Writing inside one block keeps the others. *)
Lemma kept_write s live p n m :
  ks_ok s ((p, n) :: live) -> (forall a, ~ p <= a < p + al_room n -> m !! a = kmem s !! a) ->
  kept s live (set_kmem m s).
Proof.
  intros Hok Hm. split; [done|]. intros a Hs. apply Hm. intros Hin. by eapply block_not_safe.
Qed.

(** Copying a string into a block that has room for it. *)
Lemma strlcpyM_spec sf s live p n q t :
  ks_ok s ((p, n) :: live) -> str_at s live q t -> (length t < sf)%nat ->
  Z.of_nat (length t) < al_room n -> Forall is_byte t -> 0 < p ->
  exists s', strlcpyM sf p q (Z.of_nat (length t) + 1) s = Ok (tt, s') /\ same_rest s s' /\
    ks_ok s' ((p, n) :: live) /\ kept s live s' /\ str_in s' p n p t.
Proof.
  intros Hok Hq Hf Hr Hb Hp. destruct (ks_room _ _ Hok p n ltac:(left)) as [_ Ho].
  pose proof Hq as (Hq0 & Hc & Hs).
  assert (forall a, p <= a < p + al_room n -> ~ q <= a <= q + Z.of_nat (length t)) as Hap.
  { intros a Ha Hqa. by apply (block_not_safe s live p n a Hok Ha), Hs. }
  set (m1 := write_at (kmem s) p t).
  assert (strlcpy sf (kmem s) p q (Z.of_nat (length t) + 1) =
          Ok (<[p + Z.of_nat (length t) := 0]> m1, Z.of_nat (length t))) as Hcpy.
  { unfold strlcpy. rewrite !bind_ASSERT by (apply negb_true_iff, Z.eqb_neq; unfold NULL; lia).
    rewrite (strlen_spec sf (kmem s) q t) by (unfold NULL; done || lia). cbn [mbind res_bind].
    rewrite (proj2 (Z.ltb_lt 0 _)) by lia. cbv zeta. rewrite (proj2 (Z.ltb_ge _ _)) by lia.
    replace (Z.of_nat (length t) + 1 - 1) with (Z.of_nat (length t)) by lia.
    destruct Hc as [Hcb _]. apply bytes_at_app in Hcb as [Hcb _].
    rewrite (memcpy_spec (kmem s) p q t); [|unfold NULL; lia|unfold NULL; lia|done| |done|].
    2: { intros a Ha. apply Ho. lia. }
    2: { pose proof (Hap p). lia. }
    cbn [mbind res_bind]. rewrite store_Ok; [done| |unfold is_byte; lia].
    apply owned_write_at with (q := p) (n := al_room n); [done|lia]. }
  assert (same_rest s (set_kmem (<[p + Z.of_nat (length t) := 0]> m1) s)) as Hsame by done.
  exists (set_kmem (<[p + Z.of_nat (length t) := 0]> m1) s). split.
  { unfold strlcpyM, on_kmem. by rewrite Hcpy. }
  split; [done|]. split.
  { apply set_kmem_ok; [done|]. intros a [x Hx]. destruct (decide (a = p + Z.of_nat (length t))) as [->|Hne].
    - rewrite lookup_insert_eq. by eexists.
    - rewrite lookup_insert_ne by done. unfold m1. rewrite write_at_lookup. case_decide; [|by eexists].
      apply lookup_lt_is_Some_2. lia. }
  split.
  { eapply kept_write; [done|]. intros a Ha. rewrite lookup_insert_ne by lia. unfold m1.
    by rewrite write_at_lookup, decide_False by lia. }
  split; [lia|]. split; [|lia]. destruct Hc as [_ Hn]. split; [|done].
  cbn [kmem set_kmem]. unfold m1. rewrite <- write_at_snoc. apply write_at_bytes.
Qed.

Lemma Forall_after (P : Z -> Prop) ds str :
  Forall P str -> Forall P (token_of ds (ltrim ds str)) /\ Forall P (after_token ds (ltrim ds str)).
Proof.
  intros Hf. destruct (ltrim_suffix ds str) as (pre & Hp & _). rewrite Hp in Hf. apply Forall_app in Hf as [_ Hf].
  split.
  - destruct (token_of_prefix ds (ltrim ds str)) as [suf Hs]. rewrite Hs in Hf. by apply Forall_app in Hf as [? _].
  - unfold after_token. apply Forall_tail. by apply Forall_drop.
Qed.

Lemma after_length str : ltrim [32] str <> [] -> token_of [32] (ltrim [32] str) <> [] /\
  (length (after_token [32%Z] (ltrim [32%Z] str)) < length str)%nat.
Proof.
  intros Hne. pose proof (token_length [32] str) as Hl. unfold after_token.
  assert (token_of [32] (ltrim [32] str) <> []) as Ht.
  { clear Hl. induction str as [|c str IH]; [done|]. cbn [ltrim] in *. case_decide; [by apply IH|].
    cbn [token_of]. by rewrite decide_False. }
  split; [done|]. set (n := length (token_of [32] (ltrim [32] str))) in *.
  assert (n <> 0%nat) by (unfold n; by destruct (token_of [32] (ltrim [32] str))).
  pose proof (length_drop (ltrim [32] str) n) as Hd. destruct (drop n (ltrim [32] str)); simpl in *; lia.
Qed.

(** [strtok_r] on a string in the block [fp]. *)
Lemma strtokM_spec sf sep s live fp L (start save : Z) str :
  let q := if start =? NULL then save else start in
  ks_ok s ((fp, L) :: live) -> str_at s live sep [32] -> str_in s fp L q str -> Forall is_byte str ->
  (length str + 1 < sf)%nat ->
  (words str = [] /\ exists x, strtokM sf sep start save s = Ok ((NULL, x), s)) \/
  exists t rest token save' s', words str = t :: words rest /\ t <> [] /\ (length rest < length str)%nat /\
    (length t <= length str)%nat /\ Forall is_byte t /\ Forall is_byte rest /\
    strtokM sf sep start save s = Ok ((token, save'), s') /\ same_rest s s' /\ ks_ok s' ((fp, L) :: live) /\
    kept s live s' /\ str_in s' fp L token t /\ str_in s' fp L save' rest.
Proof.
  intros q Hok Hsep (Hq & Hc & Hr) Hb Hf. destruct Hsep as (Hs0 & Hsc & _).
  pose proof (strtok_r_total sf (kmem s) start sep save [32] str ltac:(fold q; lia) Hs0 Hsc Hc Hb ltac:(simpl; lia)) as Hst.
  fold q in Hst. destruct Hst as [[Hl Hst]|(Hl & m' & token & save' & Hst & Htok & Hct & Hcs & Hm & Hlo & Hhi)].
  - left. split; [by rewrite words_ltrim, Hl|]. eexists. unfold strtokM, on_kmem. rewrite Hst. by destruct s.
  - right. destruct (after_length str Hl) as [Ht Hlen]. pose proof (token_length [32] str).
    destruct (Forall_after is_byte [32] str Hb) as [Hbt Hbr].
    eexists _, _, token, save', (set_kmem m' s). split; [by apply words_after|].
    split; [done|]. split; [done|]. split; [lia|]. split; [done|]. split; [done|].
    split; [unfold strtokM, on_kmem; by rewrite Hst|]. split; [done|].
    assert (forall a, is_Some (kmem s !! a) -> is_Some (m' !! a)) as Hdom.
    { (* the one byte written is that after the token, which the result shows *)
      intros a [x Hx]. destruct (decide (q <= a < q + Z.of_nat (length str))) as [Hin|]; [|rewrite Hm by lia; by eexists].
      unfold strtok_r in Hst. apply bind_Ok in Hst as ([] & _ & Hst). apply bind_Ok in Hst as ([] & _ & Hst).
      apply bind_Ok in Hst as ([o y] & _ & Hst). destruct o as [z|]; [|injection Hst as <- _ _; by eexists].
      apply bind_Ok in Hst as (y1 & _ & Hst). apply bind_Ok in Hst as (y2 & Hy2 & Hst). destruct (negb (y2 =? 0)).
      - apply bind_Ok in Hst as (m2 & Hm2 & Hst). injection Hst as <- _ _.
        unfold store in Hm2. destruct (kmem s !! y1) eqn:E; [|done]. injection Hm2 as <-.
        destruct (decide (a = y1)) as [->|]; [rewrite lookup_insert_eq|rewrite lookup_insert_ne by done]; by eexists.
      - injection Hst as <- _ _. by eexists. }
    split; [by apply set_kmem_ok|]. split; [eapply kept_write; [done|]; intros a Ha; apply Hm; lia|].
    split; (split; [lia|split; [done|lia]]).
Qed.

(** ** arg_parse *)

(** A step that stops because memory has run out. *)
Definition oom {X} (r : res X) : Prop := ~ roomy (H := H) /\ (r = Fail NullAccess \/ r = Fail AssertFailed).

Lemma oom_bind {X Y} (m : M st X) (f : X -> M st Y) s : oom (m s) -> oom ((m ≫= f) s).
Proof. unfold mbind, M_bind. intros [Hr [-> | ->]]; split; auto. Qed.

Definition pblocks (ps : list Z) : list (Z * Z) := (fun p => (p, sizeof_parameter)) <$> ps.

(** The parameters [ps] hold the strings [ts]. *)
Definition params_ok s rest (ps : list Z) (ts : list (list Z)) : Prop :=
  Forall2 (fun p t => exists q, param_str s !! p = Some q /\ str_at s rest q t) ps ts.

Lemma params_kept s rest s' ps ts :
  kept s rest s' -> param_str s' = param_str s -> params_ok s rest ps ts -> params_ok s' rest ps ts.
Proof.
  intros Hk He Hp. eapply Forall2_impl; [exact Hp|]. intros p t (q & Hq & Hs). exists q. rewrite He.
  split; [done|by eapply kept_str].
Qed.

Lemma params_mono s rest rest' ps ts : rest ⊆ rest' -> params_ok s rest ps ts -> params_ok s rest' ps ts.
Proof.
  intros Hs Hp. eapply Forall2_impl; [exact Hp|]. intros p t (q & Hq & Ht). exists q.
  split; [done|by eapply str_at_mono].
Qed.

Lemma params_insert s s' rest ps ts p q :
  params_ok s rest ps ts -> p ∉ ps -> kept s rest s' -> param_str s' = <[p := q]> (param_str s) ->
  params_ok s' rest ps ts.
Proof.
  intros Hp Hn Hk He. unfold params_ok in *. induction Hp as [|p' t ps ts (q' & Hq & Hs) _ IH]; [done|].
  apply not_elem_of_cons in Hn as [Hne Hn]. constructor; [|by apply IH].
  exists q'. rewrite He, lookup_insert_ne by done. split; [done|by eapply kept_str].
Qed.

(** The words have room: their length is not the size of a block. *)
Definition fits (t : list Z) : Prop :=
  Z.of_nat (length t) < al_room (Z.of_nat (length t)) /\ Z.of_nat (length t) < al_max.

(** The structure of a parameter and the block for its string. *)
Lemma param_blocks s live n :
  ks_ok s live -> 0 < n < al_max ->
  exists param s1 str s2, kmalloc sizeof_parameter s = Ok (param, s1) /\ kmalloc n s1 = Ok (str, s2) /\
    same_rest s s1 /\ same_rest s s2 /\ kept s live s1 /\ kept s live s2 /\
    (~ roomy (H := H) /\ (param = NULL \/ 0 < param /\ str = NULL) \/
     0 < param /\ 0 < str /\ ks_ok s2 ((str, n) :: (param, sizeof_parameter) :: live) /\ ~ safe s live param).
Proof.
  intros Hok Hn.
  destruct (kmalloc_spec s live sizeof_parameter Hok) as (param & s1 & Hm1 & (? & ? & ?) & Hk1 & Hp1);
    [unfold sizeof_parameter, al_max; lia|].
  assert (exists live1, ks_ok s1 live1 /\ live ⊆ live1 /\
            (0 < param -> live1 = (param, sizeof_parameter) :: live)) as (live1 & Hok1 & Hsub & El).
  { destruct Hp1 as [(-> & _ & ?)|(_ & ? & _)]; eexists; (split; [done|]); (split; [set_solver|done]). }
  destruct (kmalloc_spec s1 live1 n Hok1 Hn) as (str & s2 & Hm2 & (? & ? & ?) & Hk2 & Hp2).
  assert (kept s live s2) as Hk by (eapply kmem_kept_trans; [exact Hk1|by eapply kept_sub]).
  exists param, s1, str, s2. split; [done|]. split; [done|]. split; [done|]. split; [split; [|split]; congruence|].
  split; [done|]. split; [done|]. destruct Hp1 as [(-> & Hro & _)|(Hpos & _ & Hfr)]; [left; auto|].
  destruct Hp2 as [(-> & Hro & _)|(Hpos2 & Hok2 & _)]; [left; auto|right].
  rewrite El in Hok2 by done. split; [done|]. split; [done|]. split; [done|]. apply Hfr.
  pose proof (al_room_ge sizeof_parameter). unfold sizeof_parameter in *. lia.
Qed.

Lemma new_param_spec sf s live token t :
  ks_ok s live -> str_at s live token t -> t <> [] -> fits t -> Forall is_byte t -> (length t < sf)%nat ->
  oom (new_param sf token s) \/
  exists param str s', new_param sf token s = Ok (param, s') /\
    ks_ok s' ((param, sizeof_parameter) :: (str, Z.of_nat (length t)) :: live) /\
    kept s live s' /\ ~ safe s live param /\ umem s' = umem s /\ arg_of s' = arg_of s /\
    param_str s' = <[param := str]> (param_str s) /\ str_in s' str (Z.of_nat (length t)) str t.
Proof.
  intros Hok Ht Hne [Hroom Hmax] Hb Hf. unfold new_param.
  assert (0 < Z.of_nat (length t)) as Hl by (destruct t; [done|simpl; lia]).
  destruct (param_blocks s live (Z.of_nat (length t)) Hok)
    as (param & s1 & str & s2 & Hm1 & Hm2 & Hr1 & Hr2 & Hk1 & Hk2 & Hcase); [lia|].
  rewrite (bindM_step _ _ _ _ _ Hm1).
  rewrite (bindM_step _ _ _ _ _ (strlenM_spec sf s1 live token t (kept_str _ _ _ _ _ Hk1 Ht) Hf)).
  rewrite (bindM_step _ _ _ _ _ Hm2). destruct Hcase as [(Hro & [->|[Hpos ->]])|(Hpos & Hpos2 & Hok2 & Hns)].
  { left. by split; [|left]. }
  all: erewrite (bindM_step (set_str param _)) by (unfold set_str; by rewrite (proj2 (Z.eqb_neq param NULL)) by (unfold NULL; lia));
    set (s3 := mk_ast _ _ _ _ _ _) in *; assert (kept s live s3) as Hk3 by (destruct Hk2; by split);
    rewrite (bindM_step _ _ _ _ _ (strlenM_spec sf s3 live token t (kept_str _ _ _ _ _ Hk3 Ht) Hf)).
  { left. by split; [|right]. }
  destruct (strlcpyM_spec sf s3 ((param, sizeof_parameter) :: live) str (Z.of_nat (length t)) token t)
    as (s4 & Hcp & (Hps & Hag & Hum) & Hok4 & Hk4 & Hin); try done; [by destruct Hok2| |].
  { eapply str_at_mono; [|by eapply kept_str]. set_solver. }
  rewrite (bindM_step _ _ _ _ _ Hcp). right. exists param, str, s4. split; [done|].
  destruct Hr2 as (Hps2 & Hag2 & Hum2). split; [eapply ks_perm; [apply Permutation_swap|exact Hok4]|].
  split; [eapply kmem_kept_trans; [exact Hk3|eapply kept_sub; [|exact Hk4]; set_solver]|].
  split; [done|]. split; [rewrite Hum; exact Hum2|]. split; [rewrite Hag; exact Hag2|].
  split; [rewrite Hps; cbn; by rewrite Hps2|done].
Qed.

Lemma s32_add a b : s32 (s32 a + b) = s32 (a + b).
Proof.
  unfold s32. f_equal.
  replace ((a + 2 ^ 31) mod 2 ^ 32 - 2 ^ 31 + b + 2 ^ 31) with ((a + 2 ^ 31) mod 2 ^ 32 + b) by lia.
  rewrite Zplus_mod_idemp_l. f_equal. lia.
Qed.

(** What [parse_tokens] has still to do: the words [ts], the first of them at
    [token] and the others in the string at [save]. *)
Definition todo (sf : nat) s (fp L token save : Z) (ts : list (list Z)) : Prop :=
  token = NULL /\ ts = [] \/
  exists t str, ts = t :: words str /\ t <> [] /\ str_in s fp L token t /\ str_in s fp L save str /\
    Forall is_byte t /\ Forall is_byte str /\ (length t < sf)%nat /\ (length str + 1 < sf)%nat.

Lemma todo_after sf sep s live fp L start save str :
  let q := if start =? NULL then save else start in
  ks_ok s ((fp, L) :: live) -> str_at s live sep [32] -> str_in s fp L q str -> Forall is_byte str ->
  (length str + 1 < sf)%nat ->
  exists token save' s', strtokM sf sep start save s = Ok ((token, save'), s') /\ same_rest s s' /\
    ks_ok s' ((fp, L) :: live) /\ kept s live s' /\ todo sf s' fp L token save' (words str).
Proof.
  intros q Hok Hsep Hin Hb Hf.
  destruct (strtokM_spec sf sep s live fp L start save str Hok Hsep Hin Hb Hf)
    as [(Hw & x & Hst)|(t & rest & token & save' & s' & Hw & Ht & Hl1 & Hl2 & Hbt & Hbr & Hst & Hsame & Hok' & Hk & Hit & Hir)].
  - exists NULL, x, s. do 2 (split; [done|]). split; [done|]. split; [apply kmem_kept_refl|]. by left.
  - exists token, save', s'. do 4 (split; [done|]). right. exists t, rest.
    split; [done|]. do 5 (split; [done|]). lia.
Qed.

Lemma parse_tokens_spec sf sep fuel fp L ts : forall s rest argv argc token save done,
  ks_ok s ((fp, L) :: pblocks argv ++ rest) -> params_ok s rest argv done -> str_at s rest sep [32] ->
  todo sf s fp L token save ts -> Forall fits ts -> (length ts < fuel)%nat -> s32 argc = argc ->
  oom (parse_tokens sf sep fuel token save argv argc s) \/
  exists ps rest' s', parse_tokens sf sep fuel token save argv argc s =
      Ok ((ps, s32 (argc + Z.of_nat (length ts))), s') /\ ks_ok s' ((fp, L) :: pblocks ps ++ rest') /\
    params_ok s' rest' ps (reverse ts ++ done) /\ umem s' = umem s.
Proof.
  revert fuel. induction ts as [|t0 ts IH]; intros [|fuel] s rest argv argc token save done
    Hok Hps Hsep Htodo Hfit Hfuel Hargc; cbn [length] in Hfuel; try lia; cbn [parse_tokens].
  { right. destruct Htodo as [(-> & _)|(t & str & ? & _)]; [|done].
    exists argv, rest, s. rewrite Z.eqb_refl, Z.add_0_r, Hargc. by rewrite reverse_nil. }
  destruct Htodo as [(_ & ?)|(t & str & [= -> ->] & Hne & Hit & His & Hbt & Hbs & Hlt & Hls)]; [done|].
  apply Forall_cons in Hfit as [Hft Hfit].
  rewrite (proj2 (Z.eqb_neq token NULL)) by (destruct Hit; unfold NULL; lia).
  destruct (new_param_spec sf s _ token t Hok (str_in_at _ _ fp L _ _ ltac:(left) Hit) Hne Hft Hbt Hlt)
    as [Ho|(param & blk & s1 & Hp & Hok1 & Hk1 & Hns & Hum1 & _ & Hpm & Hbi)]; [left; by apply oom_bind|].
  rewrite (bindM_step _ _ _ _ _ Hp).
  set (live1 := pblocks (param :: argv) ++ (blk, Z.of_nat (length t)) :: rest).
  assert (ks_ok s1 ((fp, L) :: live1)) as Hok1'.
  { eapply ks_perm; [|exact Hok1]. unfold live1. simpl. rewrite <- Permutation_middle. solve_Permutation. }
  assert (kept s rest s1) as Hkr by (eapply kept_sub; [|exact Hk1]; set_solver).
  assert (rest ⊆ live1) as Hsub by (unfold live1; set_solver).
  destruct (todo_after sf sep s1 live1 fp L NULL save str Hok1') as (token' & save' & s2 & Hst & (Hps2 & _ & Hum2) & Hok2 & Hk2 & Htodo);
    [by eapply str_at_mono, kept_str|eapply kept_in; [exact Hk1|left|done]|done|done|].
  rewrite (bindM_step _ _ _ _ _ Hst).
  assert (kept s1 ((blk, Z.of_nat (length t)) :: rest) s2) as Hk2' by (eapply kept_sub; [|exact Hk2]; unfold live1; set_solver).
  edestruct (IH fuel s2 ((blk, Z.of_nat (length t)) :: rest) (param :: argv) (s32 (argc + 1)) token' save' (t :: done))
    as [Ho|(ps & rest' & s3 & Hrun & Hok3 & Hps3 & Hum3)]; [exact Hok2| | |done|done|lia| |by left|].
  - constructor.
    + exists blk. rewrite Hps2, Hpm, lookup_insert_eq. split; [done|]. eapply kept_str; [exact Hk2'|].
      eapply str_in_at; [left|done].
    + eapply params_kept; [exact Hk2'|done|]. eapply params_mono; [|eapply (params_insert s); [done| |exact Hkr|exact Hpm]]; [set_solver|].
      intros Hin. apply Hns. right. exists param, sizeof_parameter. split; [|pose proof (al_room_ge sizeof_parameter); unfold sizeof_parameter in *; lia].
      right. apply elem_of_app. left. apply list_elem_of_fmap. by exists param.
  - apply (str_at_mono _ rest); [set_solver|]. apply (kept_str s1); [|by apply (kept_str s)].
    eapply kept_sub; [|exact Hk2']. set_solver.
  - apply s32_small. pose proof (s32_range (argc + 1)). lia.
  - right. exists ps, rest', s3. split; [rewrite Hrun, s32_add; do 3 f_equal; f_equal; simpl; lia|]. split; [done|].
    split; [|congruence]. by rewrite reverse_cons, <- (assoc_L (++)).
Qed.

Lemma arg_parse_spec sf sep fuel s live name str argc :
  ks_ok s live -> str_at s live name str -> str_at s live sep [32] -> Forall is_byte str -> str <> [] ->
  fits str -> Forall fits (words str) -> (length (words str) < fuel)%nat -> (length str + 1 < sf)%nat ->
  s32 argc = argc ->
  oom (arg_parse sf sep fuel name argc s) \/
  (exists s', ~ roomy (H := H) /\ arg_parse sf sep fuel name argc s = Ok ((false, [], argc), s')) \/
  exists ps rest s', arg_parse sf sep fuel name argc s =
      Ok ((true, ps, s32 (argc + Z.of_nat (length (words str)))), s') /\ ks_ok s' (pblocks ps ++ rest) /\
    params_ok s' rest ps (reverse (words str)) /\ umem s' = umem s.
Proof.
  intros Hok Hn Hsep Hb Hne [Hroom Hmax] Hfw Hfuel Hsf Hargc. unfold arg_parse.
  assert (0 < Z.of_nat (length str)) as Hl by (destruct str; [done|simpl; lia]).
  rewrite (bindM_step _ _ _ _ _ (strlenM_spec sf s live name str Hn ltac:(lia))).
  destruct (kmalloc_spec s live (Z.of_nat (length str)) Hok) as (fp & s1 & Hm & (_ & _ & Hum1) & Hk1 & Hp); [lia|].
  rewrite (bindM_step _ _ _ _ _ Hm). destruct Hp as [(-> & Hro & _)|(Hpos & Hok1 & _)]; [right; left; by exists s1|].
  rewrite (proj2 (Z.eqb_neq fp NULL)) by (unfold NULL; lia). pose proof (kept_str _ _ _ _ _ Hk1 Hn) as Hn1.
  rewrite (bindM_step _ _ _ _ _ (strlenM_spec sf s1 live name str Hn1 ltac:(lia))).
  destruct (strlcpyM_spec sf s1 live fp (Z.of_nat (length str)) name str) as (s2 & Hcp & (_ & _ & Hum2) & Hok2 & Hk2 & Hin);
    try done; [lia|]. rewrite (bindM_step _ _ _ _ _ Hcp).
  destruct (todo_after sf sep s2 live fp (Z.of_nat (length str)) fp NULL str Hok2)
    as (token & save & s3 & Hst & (_ & _ & Hum3) & Hok3 & Hk3 & Htodo); try done.
  { eapply kept_str; [exact Hk2|by eapply kept_str]. }
  { by rewrite (proj2 (Z.eqb_neq fp NULL)) by (unfold NULL; lia). }
  rewrite (bindM_step _ _ _ _ _ Hst).
  edestruct (parse_tokens_spec sf sep fuel fp (Z.of_nat (length str)) (words str) s3 live [] argc token save [])
    as [Ho|(ps & rest & s4 & Hrun & Hok4 & Hps & Hum4)]; try done; [constructor| |left; by apply oom_bind|].
  { eapply kept_str; [exact Hk3|]. eapply kept_str; [exact Hk2|by eapply kept_str]. }
  rewrite (bindM_step _ _ _ _ _ Hrun).
  destruct (kfree_spec s4 _ fp (Z.of_nat (length str)) Hok4) as (s5 & Hf & (Hp5 & _ & Hum5) & Hok5 & Hk5).
  rewrite (bindM_step _ _ _ _ _ Hf). right. right. exists ps, rest, s5. split; [done|]. split; [done|].
  split; [|congruence]. rewrite app_nil_r in Hps. eapply params_kept; [|done|exact Hps].
  eapply kept_sub; [|exact Hk5]. set_solver.
Qed.

(** ** arg_push *)

(** The [bs] above [lo] are the top of the stack; below, memory is as in [u0]. *)
Record stack_is (u0 u : U) (lo : Z) (bs : list Z) : Prop := {
  si_ok : um_ok u;
  si_len : Z.of_nat (length bs) = PHYS_BASE - lo;
  si_top : forall i b, bs !! i = Some b -> um_get u (lo + Z.of_nat i) = Some b;
  si_low : forall a, a < lo \/ PHYS_BASE <= a -> um_get u a = um_get u0 a;
}.

(** The page of the stack is there. *)
Definition stack_page (u0 : U) : Prop := forall a, PHYS_BASE - 4096 <= a < PHYS_BASE -> is_Some (um_get u0 a).

(** The four bytes of a word. *)
Definition word_bytes (v : Z) : list Z :=
  [v mod 2 ^ 8; Z.shiftr v 8 mod 2 ^ 8; Z.shiftr v 16 mod 2 ^ 8; Z.shiftr v 24 mod 2 ^ 8].

(** Room for [n] more bytes. *)
Definition space_for (lo n : Z) : Prop := PHYS_BASE - 4096 <= lo - n.

Lemma stack_none u0 : um_ok u0 -> stack_is u0 u0 PHYS_BASE [].
Proof. intros Hu. split; [done|simpl; lia|done|done]. Qed.

(** A byte that is left as it was. *)
Lemma stack_skip u0 u lo bs : stack_page u0 -> stack_is u0 u lo bs -> space_for lo 1 ->
  exists b, stack_is u0 u (lo - 1) (b :: bs).
Proof.
  intros Hp [Hu Hl Ht Hw] Hs. unfold space_for in Hs. 
  destruct (Hp (lo - 1) ltac:(lia)) as [b Hb]. exists b. split; [done|simpl; lia| |].
  - intros [|i] c Hc; simpl in Hc; [injection Hc as <-; rewrite Z.add_0_r, Hw by lia; done|].
    replace (lo - 1 + Z.of_nat (S i)) with (lo + Z.of_nat i) by lia. by apply Ht.
  - intros a Ha. apply Hw. lia.
Qed.

Lemma on_umem_step {X} (f : M U X) s x u : f (umem s) = Ok (x, u) ->
  on_umem f s = Ok (x, mk_ast (kmem s) (rooms s) (kheap s) (param_str s) (arg_of s) u).
Proof. unfold on_umem. by intros ->. Qed.

Lemma stack_byte u0 u lo bs b : stack_page u0 -> stack_is u0 u lo bs -> space_for lo 1 -> is_byte b ->
  exists u', um_store (lo - 1) b u = Ok (tt, u') /\ stack_is u0 u' (lo - 1) (b :: bs).
Proof.
  intros Hp [Hu Hl Ht Hw] Hs Hb. unfold space_for in Hs. 
  destruct (Hp (lo - 1) ltac:(lia)) as [x Hx]. rewrite <- (Hw (lo - 1)) in Hx by lia.
  destruct (um_store_ok u (lo - 1) b x Hu Hx Hb) as (u' & Hst & Hu' & Hg). exists u'. split; [done|].
  split; [done|simpl; lia| |].
  - intros [|i] c Hc; simpl in Hc.
    + injection Hc as <-. by rewrite Z.add_0_r, Hg, Z.eqb_refl.
    + replace (lo - 1 + Z.of_nat (S i)) with (lo + Z.of_nat i) by lia.
      rewrite Hg, (proj2 (Z.eqb_neq _ _)) by lia. by apply Ht.
  - intros a Ha. rewrite Hg, (proj2 (Z.eqb_neq _ _)) by lia. apply Hw. lia.
Qed.

Lemma byte_mod v : is_byte (v mod 2 ^ 8).
Proof. unfold is_byte. pose proof (Z.mod_pos_bound v (2 ^ 8)). lia. Qed.

Lemma stack_word u0 s lo bs v : stack_page u0 -> stack_is u0 (umem s) lo bs -> space_for lo 4 ->
  exists u', push_word (lo - 4) v s = Ok (tt, mk_ast (kmem s) (rooms s) (kheap s) (param_str s) (arg_of s) u') /\
    stack_is u0 u' (lo - 4) (word_bytes v ++ bs).
Proof.
  intros Hp [Hu Hl Ht Hw] Hs. unfold space_for in Hs. unfold push_word.
  assert (forall a, lo - 4 <= a < lo -> exists x, um_get (umem s) a = Some x) as Hin.
  { intros a Ha. destruct (Hp a ltac:(lia)) as [x Hx]. exists x. by rewrite Hw by lia. }
  destruct (Hin (lo - 4)) as [x0 Hx0]; [lia|]. destruct (Hin (lo - 4 + 1)) as [x1 Hx1]; [lia|].
  destruct (Hin (lo - 4 + 2)) as [x2 Hx2]; [lia|]. destruct (Hin (lo - 4 + 3)) as [x3 Hx3]; [lia|].
  destruct (um_store_ok _ (lo - 4) (v mod 2 ^ 8) x0 Hu Hx0 (byte_mod _)) as (u1 & Hs1 & Hu1 & Hg1).
  assert (um_get u1 (lo - 4 + 1) = Some x1) as Hy1 by (rewrite Hg1, (proj2 (Z.eqb_neq _ _)) by lia; done).
  destruct (um_store_ok _ (lo - 4 + 1) (Z.shiftr v 8 mod 2 ^ 8) x1 Hu1 Hy1 (byte_mod _)) as (u2 & Hs2 & Hu2 & Hg2).
  assert (um_get u2 (lo - 4 + 2) = Some x2) as Hy2 by (rewrite Hg2, Hg1, !(proj2 (Z.eqb_neq _ _)) by lia; done).
  destruct (um_store_ok _ (lo - 4 + 2) (Z.shiftr v 16 mod 2 ^ 8) x2 Hu2 Hy2 (byte_mod _)) as (u3 & Hs3 & Hu3 & Hg3).
  assert (um_get u3 (lo - 4 + 3) = Some x3) as Hy3 by (rewrite Hg3, Hg2, Hg1, !(proj2 (Z.eqb_neq _ _)) by lia; done).
  destruct (um_store_ok _ (lo - 4 + 3) (Z.shiftr v 24 mod 2 ^ 8) x3 Hu3 Hy3 (byte_mod _)) as (u4 & Hs4 & Hu4 & Hg4).
  exists u4. split.
  { rewrite (bindM_step _ _ _ _ _ (on_umem_step _ _ _ _ Hs1)). erewrite bindM_step by (by apply on_umem_step).
    erewrite bindM_step by (by apply on_umem_step). by erewrite on_umem_step. }
  assert (forall a, um_get u4 a = if a =? lo - 4 + 3 then Some (Z.shiftr v 24 mod 2 ^ 8) else
    if a =? lo - 4 + 2 then Some (Z.shiftr v 16 mod 2 ^ 8) else if a =? lo - 4 + 1 then Some (Z.shiftr v 8 mod 2 ^ 8) else
    if a =? lo - 4 then Some (v mod 2 ^ 8) else um_get (umem s) a) as Hg by (intros a; by rewrite Hg4, Hg3, Hg2, Hg1).
  split; [done|rewrite length_app; simpl; lia| |].
  - intros i b Hi. rewrite Hg. destruct i as [|[|[|[|i]]]]; cbn [app word_bytes lookup list_lookup] in Hi; zcases; try done.
    replace (lo - 4 + Z.of_nat (S (S (S (S i))))) with (lo + Z.of_nat i) by lia. by apply Ht.
  - intros a Ha. rewrite Hg. zcases. apply Hw. lia.
Qed.

(** Only user memory differs: [s'] is [s] with the memory [u]. *)
Definition set_umem (u : U) s : st := mk_ast (kmem s) (rooms s) (kheap s) (param_str s) (arg_of s) u.

Lemma ks_set_umem u s live : ks_ok s live -> ks_ok (set_umem u s) live.
Proof. by intros []. Qed.

Lemma kept_set_umem u s live s' : kept (set_umem u s) live s' -> kept s live s'.
Proof. by intros []. Qed.

Definition ablocks (l : list Z) : list (Z * Z) := (fun p => (p, sizeof_argaddress)) <$> l.

(** The structure that keeps the address of an argument. *)
Lemma new_address s live sp (addrs : list Z) :
  ks_ok s live ->
  let body := (addr ← kmalloc sizeof_argaddress; _ ← set_arg addr sp; mret (sp - 1, addrs ++ [addr])) : M st (Z * list Z) in
  oom (body s) \/
  exists addr s', body s = Ok ((sp - 1, addrs ++ [addr]), s') /\ ks_ok s' ((addr, sizeof_argaddress) :: live) /\
    kept s live s' /\ ~ safe s live addr /\ umem s' = umem s /\ param_str s' = param_str s /\
    arg_of s' = <[addr := sp]> (arg_of s).
Proof.
  intros Hok body. unfold body.
  destruct (kmalloc_spec s live sizeof_argaddress Hok) as (addr & s1 & Hm & (Hp & Ha & Hu) & Hk & Hc);
    [unfold sizeof_argaddress, al_max; lia|].
  rewrite (bindM_step _ _ _ _ _ Hm). destruct Hc as [(-> & Hro & _)|(Hpos & Hok1 & Hfr)]; [left; by split; [|left]|].
  right. exists addr. eexists. split.
  { erewrite bindM_step by (unfold set_arg; by rewrite (proj2 (Z.eqb_neq addr NULL)) by (unfold NULL; lia)). done. }
  split; [by destruct Hok1|]. split; [by destruct Hk|].
  split; [apply Hfr; pose proof (al_room_ge sizeof_argaddress); unfold sizeof_argaddress in *; lia|].
  split; [done|]. split; [done|]. cbn [arg_of]. by rewrite Ha.
Qed.

(** One byte of a string. *)
Lemma push_one u0 s q t k lo bs :
  stack_page u0 -> bytes_at (kmem s) q (t ++ [0]) -> Forall is_byte t -> (k <= length t)%nat ->
  stack_is u0 (umem s) lo bs -> space_for lo 1 ->
  exists b u, (t ++ [0]) !! k = Some b /\
    (forall f : M st (Z * list Z),
       (b ← kload (q + Z.of_nat k); _ ← on_umem (um_store (lo - 1) b); f) s = f (set_umem u s)) /\
    stack_is u0 u (lo - 1) (b :: bs).
Proof.
  intros Hp Hb Hbt Hk Hst Hsp.
  destruct (lookup_lt_is_Some_2 (t ++ [0]) k) as [b Hbl]; [rewrite length_app; simpl; lia|].
  assert (Forall is_byte (t ++ [0])) as Hf by (apply Forall_app; split; [done|constructor; [unfold is_byte; lia|done]]).
  destruct (stack_byte u0 (umem s) lo bs b Hp Hst Hsp) as (u1 & Hs1 & Hst1); [by eapply Forall_lookup in Hf|].
  exists b, u1. split; [done|]. split; [intros f|done].
  assert (kload (q + Z.of_nat k) s = Ok (b, s)) as Hkl
    by (unfold kload; by rewrite (load_Ok _ _ _ (bytes_at_lookup _ _ _ _ _ Hb Hbl))).
  rewrite (bindM_step _ _ _ _ _ Hkl). by rewrite (bindM_step _ _ _ _ _ (on_umem_step _ _ _ _ Hs1)).
Qed.

Lemma push_bytes_spec u0 n : forall s live q t lo bs addrs,
  stack_page u0 -> ks_ok s live -> bytes_at (kmem s) q (t ++ [0]) -> Forall is_byte t -> (n <= length t)%nat ->
  stack_is u0 (umem s) lo bs -> space_for lo (Z.of_nat n + 1) ->
  oom (push_bytes n q (lo - 1) addrs s) \/
  exists addr s', push_bytes n q (lo - 1) addrs s = Ok ((lo - Z.of_nat n - 2, addrs ++ [addr]), s') /\
    ks_ok s' ((addr, sizeof_argaddress) :: live) /\ kept s live s' /\ ~ safe s live addr /\
    stack_is u0 (umem s') (lo - Z.of_nat n - 1) (take (S n) (t ++ [0]) ++ bs) /\
    param_str s' = param_str s /\ arg_of s' = <[addr := lo - Z.of_nat n - 1]> (arg_of s).
Proof.
  induction n as [|n IH]; intros s live q t lo bs addrs Hp Hok Hb Hbt Hn Hst Hsp; cbn [push_bytes];
    [destruct (push_one u0 s q t 0 lo bs) as (b & u1 & Hbl & Hone & Hst1)
    |destruct (push_one u0 s q t (S n) lo bs) as (b & u1 & Hbl & Hone & Hst1)];
    try done; try (unfold space_for in *; lia); rewrite Hone.
  - destruct (new_address (set_umem u1 s) live (lo - 1) addrs (ks_set_umem _ _ _ Hok))
      as [Ho|(addr & s' & Hrun & Hok' & Hk & Hns & Hum & Hps & Hag)]; [by left|right].
    exists addr, s'. rewrite Hrun. split; [do 2 f_equal; f_equal; lia|]. split; [done|]. split; [by destruct Hk|].
    split; [done|]. replace (lo - Z.of_nat 0 - 1) with (lo - 1) by lia. split; [|done].
    rewrite Hum. cbn [umem set_umem]. rewrite (take_S_r _ 0 b) by done. done.
  - destruct (IH (set_umem u1 s) live q t (lo - 1) (b :: bs) addrs) as [Ho|(addr & s' & Hrun & Hok' & Hk & Hns & Hst' & Hps & Hag)];
      try done; [by apply ks_set_umem|lia|unfold space_for in *; lia|by left|right].
    exists addr, s'. rewrite Hrun. split; [do 2 f_equal; f_equal; lia|]. split; [done|]. split; [by destruct Hk|].
    split; [done|]. replace (lo - Z.of_nat (S n) - 1) with (lo - 1 - Z.of_nat n - 1) by lia. split; [|done].
    rewrite (take_S_r _ (S n) b) by done. by rewrite <- (assoc_L (++)).
Qed.

(** The addresses of strings pushed one after the other below [lo]. *)
Fixpoint starts (lo : Z) (ts : list (list Z)) : list Z :=
  match ts with
  | [] => []
  | t :: ts => let a := lo - Z.of_nat (length t) - 1 in a :: starts a ts
  end.

Definition string_bytes (ts : list (list Z)) : list Z := concat ((fun t => t ++ [0]) <$> ts).

Definition args_ok s (addrs args : list Z) : Prop :=
  Forall2 (fun addr a => arg_of s !! addr = Some a) addrs args.

Lemma args_insert s s' addrs args p a :
  args_ok s addrs args -> p ∉ addrs -> arg_of s' = <[p := a]> (arg_of s) -> args_ok s' (addrs ++ [p]) (args ++ [a]).
Proof.
  intros Ha Hn He. apply Forall2_app; [|constructor; [by rewrite He, lookup_insert_eq|constructor]].
  eapply Forall2_impl; [|intros ? ? Hx; exact Hx].
  revert Hn. unfold args_ok in Ha. induction Ha as [|q b addrs args Hq _ IH]; intros Hn; constructor.
  - rewrite He, lookup_insert_ne; [done|]. set_solver.
  - apply IH. set_solver.
Qed.

Lemma string_bytes_length ts : Z.of_nat (length (string_bytes ts)) = foldr (fun t n => n + Z.of_nat (length t) + 1) 0 ts.
Proof.
  unfold string_bytes. induction ts as [|t ts IH]; [done|].
  cbn [foldr fmap list_fmap concat]. rewrite <- IH, !length_app. cbn [length]. lia.
Qed.

Lemma string_bytes_snoc ts t : string_bytes (ts ++ [t]) = string_bytes ts ++ t ++ [0].
Proof. unfold string_bytes. rewrite fmap_app, concat_app. simpl. by rewrite app_nil_r. Qed.

Lemma string_bytes_cons t ts : string_bytes (t :: ts) = t ++ [0] ++ string_bytes ts.
Proof. unfold string_bytes. cbn [fmap list_fmap concat]. by rewrite <- (assoc_L (++)). Qed.

Lemma string_bytes_reverse ts : length (string_bytes (reverse ts)) = length (string_bytes ts).
Proof.
  induction ts as [|t ts IH]; [done|]. rewrite reverse_cons, string_bytes_snoc, string_bytes_cons, !length_app, IH. lia.
Qed.

Lemma live_not_safe s live p n : (p, n) ∈ live -> 0 < n -> safe s live p.
Proof. intros Hp Hn. right. exists p, n. pose proof (al_room_ge n Hn). split; [done|lia]. Qed.

Lemma push_params_spec u0 ps : forall s rest ts lo bs addrs args,
  stack_page u0 -> ks_ok s (pblocks ps ++ ablocks addrs ++ rest) -> params_ok s rest ps ts ->
  args_ok s addrs args -> Forall (Forall is_byte) ts -> Forall (fun t => Z.of_nat (length t) <= ARG_MAX) ts ->
  stack_is u0 (umem s) lo bs -> space_for lo (Z.of_nat (length (string_bytes ts))) ->
  oom (push_params ps (lo - 1) addrs s) \/
  exists addrs' s', let lo' := lo - Z.of_nat (length (string_bytes ts)) in
    push_params ps (lo - 1) addrs s = Ok ((lo' - 1, addrs'), s') /\ ks_ok s' (ablocks addrs' ++ rest) /\
    args_ok s' addrs' (args ++ starts lo ts) /\ stack_is u0 (umem s') lo' (string_bytes (reverse ts) ++ bs).
Proof.
  induction ps as [|p ps IH]; intros s rest ts lo bs addrs args Hp Hok Hps Hag Hbt Hlt Hst Hsp.
  { apply Forall2_nil_inv_l in Hps as ->. right. exists addrs, s. cbn. by rewrite Z.sub_0_r, app_nil_r. }
  apply Forall2_cons_inv_l in Hps as (t & ts' & (q & Hq & Hs) & Hps & ->).
  apply Forall_cons in Hbt as [Hbt Hbts], Hlt as [Hlt Hlts]. cbn [push_params].
  assert (get_str p s = Ok (q, s)) as Hgs by (unfold get_str; by rewrite Hq).
  rewrite (bindM_step _ _ _ _ _ Hgs). pose proof Hs as (Hq0 & Hc & _).
  assert (on_kmem (fun m => n ← strnlen (Z.to_nat ARG_MAX + 1) m q ARG_MAX; Ok (m, n)) s = Ok (Z.of_nat (length t), s)) as Hn.
  { unfold on_kmem, strnlen. pose proof (strnlen_loop_spec (kmem s) q ARG_MAX t (Z.to_nat ARG_MAX + 1) []) as Hl.
    change (Z.of_nat (length (@nil Z))) with 0 in Hl. cbn [length Nat.add] in Hl. rewrite Hl; [by destruct s|by rewrite Z.add_0_r|lia|lia]. }
  rewrite (bindM_step _ _ _ _ _ Hn), Nat2Z.id.
  rewrite (string_bytes_length (t :: ts')) in Hsp. cbn [foldr] in Hsp. rewrite <- string_bytes_length in Hsp.
  destruct (push_bytes_spec u0 (length t) s _ q t lo bs addrs Hp Hok (proj1 Hc) Hbt ltac:(done) Hst)
    as [Ho|(addr & s1 & Hrun & Hok1 & Hk1 & Hns & Hst1 & Hp1 & Ha1)];
    [unfold space_for in *; lia|left; by apply oom_bind|].
  rewrite (bindM_step _ _ _ _ _ Hrun).
  assert (ks_ok s1 ((p, sizeof_parameter) :: pblocks ps ++ ablocks (addrs ++ [addr]) ++ rest)) as Hok1'.
  { eapply ks_perm; [|exact Hok1]. unfold ablocks. rewrite fmap_app. simpl. solve_Permutation. }
  destruct (kfree_spec s1 _ p _ Hok1') as (s2 & Hf & (Hp2 & Ha2 & Hu2) & Hok2 & Hk2).
  rewrite (bindM_step _ _ _ _ _ Hf).
  replace (lo - Z.of_nat (length t) - 2) with (lo - Z.of_nat (length t) - 1 - 1) by lia.
  rewrite (take_ge (t ++ [0])) in Hst1 by (rewrite length_app; simpl; lia).
  destruct (IH s2 rest ts' (lo - Z.of_nat (length t) - 1) (t ++ [0] ++ bs) (addrs ++ [addr]) (args ++ [lo - Z.of_nat (length t) - 1]))
    as [Ho|(addrs' & s3 & Hr3 & Hok3 & Hag3 & Hst3)]; try done; [| | | |by left|right].
  - eapply params_kept; [eapply kept_sub; [|exact Hk2]; set_solver|congruence|].
    eapply params_kept; [eapply kept_sub; [|exact Hk1]; set_solver|congruence|done].
  - eapply (args_insert s); [done| |by rewrite Ha2]. intros Hin. apply Hns. apply (live_not_safe _ _ _ sizeof_argaddress); [|done].
    apply elem_of_app. right. apply elem_of_app. left. apply list_elem_of_fmap. by exists addr.
  - rewrite Hu2. by rewrite <- (assoc_L (++)) in Hst1.
  - unfold space_for in *. lia.
  - exists addrs', s3. rewrite Hr3. cbv zeta in *.
    replace (lo - Z.of_nat (length (string_bytes (t :: ts')))) with
      (lo - Z.of_nat (length t) - 1 - Z.of_nat (length (string_bytes ts'))).
    2: { rewrite (string_bytes_length (t :: ts')). cbn [foldr]. rewrite <- string_bytes_length. lia. }
    split; [done|]. split; [done|]. split; [by rewrite <- (assoc_L (++)) in Hag3|].
    by rewrite reverse_cons, string_bytes_snoc, <- !(assoc_L (++)).
Qed.

Lemma word_align_spec u0 k : forall fuel s sp bs,
  stack_page u0 -> stack_is u0 (umem s) sp bs -> space_for sp (Z.of_nat k) -> sp mod 4 = Z.of_nat k -> (k < fuel)%nat ->
  exists u, word_align fuel sp s = Ok (sp - Z.of_nat k, set_umem u s) /\
    stack_is u0 u (sp - Z.of_nat k) (replicate k 0 ++ bs).
Proof.
  induction k as [|k IH]; intros [|fuel] s sp bs Hp Hst Hsp Hm Hf; try lia; cbn [word_align].
  - rewrite Hm. exists (umem s). rewrite Z.sub_0_r. split; [by destruct s|done].
  - rewrite (proj2 (Z.eqb_neq _ _)) by lia. cbn [negb].
    destruct (stack_byte u0 (umem s) sp bs 0 Hp Hst) as (u1 & Hs1 & Hst1); [unfold space_for in *; lia|unfold is_byte; lia|].
    rewrite (bindM_step _ _ _ _ _ (on_umem_step _ _ _ _ Hs1)). fold (set_umem u1 s).
    destruct (IH fuel (set_umem u1 s) (sp - 1) (0 :: bs)) as (u2 & Hr & Hst2); try done;
      [unfold space_for in *; lia|zlia|lia|].
    exists u2. rewrite Hr. replace (sp - Z.of_nat (S k)) with (sp - 1 - Z.of_nat k) by lia. split; [done|].
    rewrite <- (app_nil_r (replicate (S k) 0)), <- (assoc_L (++)), replicate_S_end, <- (assoc_L (++)). done.
Qed.

Definition words_bytes (vs : list Z) : list Z := concat (word_bytes <$> vs).

Lemma words_bytes_app vs ws : words_bytes (vs ++ ws) = words_bytes vs ++ words_bytes ws.
Proof. unfold words_bytes. by rewrite fmap_app, concat_app. Qed.

Lemma words_bytes_length vs : length (words_bytes vs) = (4 * length vs)%nat.
Proof.
  unfold words_bytes. induction vs as [|v vs IH]; [done|]. cbn [fmap list_fmap concat]. rewrite length_app, IH.
  cbn [length word_bytes]. lia.
Qed.

Lemma push_addrs_spec u0 addrs : forall s rest args lo bs,
  stack_page u0 -> ks_ok s (ablocks addrs ++ rest) -> args_ok s addrs args -> stack_is u0 (umem s) lo bs ->
  space_for lo (4 * Z.of_nat (length addrs)) ->
  exists s', push_addrs addrs lo s = Ok (lo - 4 * Z.of_nat (length addrs), s') /\ ks_ok s' rest /\
    stack_is u0 (umem s') (lo - 4 * Z.of_nat (length addrs)) (words_bytes (reverse args) ++ bs).
Proof.
  induction addrs as [|p addrs IH]; intros s rest args lo bs Hp Hok Hag Hst Hsp.
  { apply Forall2_nil_inv_l in Hag as ->. exists s. cbn. rewrite Z.sub_0_r. done. }
  apply Forall2_cons_inv_l in Hag as (a & args' & Ha & Hag & ->). cbn [push_addrs].
  assert (get_arg p s = Ok (a, s)) as Hg by (unfold get_arg; by rewrite Ha).
  rewrite (bindM_step _ _ _ _ _ Hg).
  destruct (stack_word u0 s lo bs a Hp Hst) as (u1 & Hw & Hst1); [unfold space_for in *; simpl in *; lia|].
  rewrite (bindM_step _ _ _ _ _ Hw). fold (set_umem u1 s).
  destruct (kfree_spec (set_umem u1 s) (ablocks addrs ++ rest) p sizeof_argaddress (ks_set_umem _ _ _ Hok))
    as (s2 & Hf & (_ & Ha2 & Hu2) & Hok2 & _).
  rewrite (bindM_step _ _ _ _ _ Hf).
  destruct (IH s2 rest args' (lo - 4) (word_bytes a ++ bs)) as (s3 & Hr & Hok3 & Hst3); try done.
  { eapply Forall2_impl; [exact Hag|]. intros x y Hx. by rewrite Ha2. }
  { by rewrite Hu2. }
  { unfold space_for in *. simpl in *. lia. }
  exists s3. rewrite Hr. replace (lo - 4 * Z.of_nat (length (p :: addrs))) with (lo - 4 - 4 * Z.of_nat (length addrs)) by (simpl; lia).
  split; [done|]. split; [done|]. rewrite reverse_cons, words_bytes_app.
  unfold words_bytes at 2. cbn [fmap list_fmap concat]. by rewrite app_nil_r, <- (assoc_L (++)).
Qed.

(** What is on the stack in the end. *)
Definition stack_image (esp argc : Z) (ptrs : list Z) (pad : list Z) (ws : list (list Z)) : list Z :=
  word_bytes 0 ++ word_bytes argc ++ word_bytes (esp + 12) ++ words_bytes ptrs ++ word_bytes 0 ++ pad ++ string_bytes ws.

Lemma starts_length lo ts : length (starts lo ts) = length ts.
Proof. revert lo. induction ts as [|t ts IH]; intros lo; simpl; [done|]. by rewrite IH. Qed.

(** The last three words: [argv], [argc] and the return address. *)
Lemma push_call_frame u0 s tp argc bs :
  stack_page u0 -> stack_is u0 (umem s) tp bs -> PHYS_BASE - 4096 <= tp - 12 ->
  exists u, (_ ← push_word (tp - 4) tp; _ ← push_word (tp - 4 - 4) argc; _ ← push_word (tp - 4 - 4 - 4) 0;
             mret (tp - 4 - 4 - 4)) s = Ok (tp - 12, set_umem u s) /\
    stack_is u0 u (tp - 12) (word_bytes 0 ++ word_bytes argc ++ word_bytes tp ++ bs).
Proof.
  intros Hp Hst Htp.
  destruct (stack_word u0 s tp _ tp Hp Hst) as (u5 & Hr5 & Hst5); [unfold space_for; lia|].
  rewrite (bindM_step _ _ _ _ _ Hr5). fold (set_umem u5 s).
  destruct (stack_word u0 (set_umem u5 s) (tp - 4) _ argc Hp Hst5) as (u6 & Hr6 & Hst6); [unfold space_for; lia|].
  rewrite (bindM_step _ _ _ _ _ Hr6). fold (set_umem u6 (set_umem u5 s)).
  destruct (stack_word u0 (set_umem u6 (set_umem u5 s)) (tp - 4 - 4) _ 0 Hp Hst6) as (u7 & Hr7 & Hst7); [unfold space_for; lia|].
  rewrite (bindM_step _ _ _ _ _ Hr7). exists u7. replace (tp - 12) with (tp - 4 - 4 - 4) by lia. done.
Qed.

Lemma arg_push_spec u0 s rest ps ws argc :
  stack_page u0 -> um_ok u0 -> umem s = u0 -> ks_ok s (pblocks ps ++ rest) -> params_ok s rest ps (reverse ws) ->
  Forall (Forall is_byte) ws -> Forall (fun t => Z.of_nat (length t) <= ARG_MAX) ws ->
  Z.of_nat (length (string_bytes ws)) + 4 * Z.of_nat (length ws) + 20 <= 4096 ->
  oom (arg_push ps argc s) \/
  exists esp s' pad, arg_push ps argc s = Ok (esp, s') /\ ks_ok s' rest /\ esp mod 4 = 0 /\ PHYS_BASE - 4096 <= esp /\
    stack_is u0 (umem s') esp (stack_image esp argc (reverse (starts PHYS_BASE (reverse ws))) pad ws).
Proof.
  intros Hp Hu0 Hus Hok Hps Hb Hl Hsize. unfold arg_push.
  pose proof (string_bytes_reverse ws) as Hlen.
  assert (length ps = length ws) as Hlp by (apply Forall2_length in Hps; by rewrite length_reverse in Hps).
  destruct (push_params_spec u0 ps s rest (reverse ws) PHYS_BASE [] [] []) as [Ho|(addrs & s1 & Hr1 & Hok1 & Hag1 & Hst1)];
    [done|done|done|constructor|by apply Forall_reverse|by apply Forall_reverse|rewrite Hus; by apply stack_none
    |unfold space_for; lia|left; by apply oom_bind|right].
  rewrite (bindM_step _ _ _ _ _ Hr1). cbv zeta in Hst1, Hr1. rewrite Hlen in *. rewrite app_nil_r, reverse_involutive in Hst1.
  set (lo := PHYS_BASE - Z.of_nat (length (string_bytes ws))) in *. cbn [app] in Hag1.
  pose proof (Forall2_length _ _ _ Hag1) as Hla. rewrite starts_length, length_reverse in Hla.
  destruct (stack_skip u0 (umem s1) lo _ Hp Hst1) as [b Hsk]; [unfold space_for, lo; lia|].
  destruct (word_align_spec u0 (Z.to_nat ((lo - 1) mod 4)) 4 s1 (lo - 1) _ Hp Hsk) as (u2 & Hr2 & Hst2);
    [unfold space_for, lo; zlia|zlia|zlia|].
  rewrite (bindM_step _ _ _ _ _ Hr2). set (sp := lo - 1 - Z.of_nat (Z.to_nat ((lo - 1) mod 4))) in *.
  assert (sp mod 4 = 0 /\ PHYS_BASE - Z.of_nat (length (string_bytes ws)) - 4 <= sp) as [Hsp4 Hsplo] by (unfold sp, lo; zlia).
  destruct (stack_word u0 (set_umem u2 s1) sp _ 0 Hp Hst2) as (u3 & Hr3 & Hst3); [unfold space_for; lia|].
  cbv zeta. rewrite (bindM_step _ _ _ _ _ Hr3). fold (set_umem u3 (set_umem u2 s1)).
  edestruct (push_addrs_spec u0 addrs (set_umem u3 (set_umem u2 s1)) rest)
    as (s4 & Hr4 & Hok4 & Hst4); [exact Hp|by apply ks_set_umem, ks_set_umem|exact Hag1|exact Hst3|unfold space_for; lia|].
  rewrite (bindM_step _ _ _ _ _ Hr4). set (tp := sp - 4 - 4 * Z.of_nat (length addrs)) in *.
  assert (PHYS_BASE - 4096 <= tp - 12) as Htp by (unfold tp; lia).
  destruct (push_call_frame u0 s4 tp argc _ Hp Hst4 Htp) as (u7 & Hr7 & Hst7). cbv zeta in Hr7. rewrite Hr7.
  eexists (tp - 12), _, (replicate (Z.to_nat ((lo - 1) mod 4)) 0 ++ [b]).
  split; [done|]. split; [by apply ks_set_umem|].
  split; [unfold tp; zlia|]. split; [done|]. unfold stack_image. replace (tp - 12 + 12) with tp by lia.
  rewrite <- (assoc_L (++) (replicate _ 0) [b]). exact Hst7.
Qed.

(** ** What the program reads *)

(** A little-endian word of user memory. *)
Definition read_word (u : U) (a : Z) : option Z :=
  b0 ← um_get u a; b1 ← um_get u (a + 1); b2 ← um_get u (a + 2); b3 ← um_get u (a + 3);
  Some (b0 + 2 ^ 8 * b1 + 2 ^ 16 * b2 + 2 ^ 24 * b3).

Definition user_bytes (u : U) (a : Z) (bs : list Z) : Prop :=
  forall i b, bs !! i = Some b -> um_get u (a + Z.of_nat i) = Some b.

(** [main (argc, argv)] as the calling convention has it: the return address,
    [argc], [argv]; the array [argv], ended by a null pointer, and each of its
    strings, above it on the stack. *)
Definition arg_layout (u : U) (esp argc : Z) (ws : list (list Z)) : Prop :=
  let n := Z.of_nat (length ws) in
  esp mod 4 = 0 /\ PHYS_BASE - 4096 <= esp /\
  read_word u esp = Some 0 /\ read_word u (esp + 4) = Some (u32 argc) /\ read_word u (esp + 8) = Some (esp + 12) /\
  (forall i t, ws !! i = Some t ->
     exists p, read_word u (esp + 12 + 4 * Z.of_nat i) = Some p /\ user_bytes u p (t ++ [0]) /\
       esp + 16 + 4 * n <= p /\ p + Z.of_nat (length t) < PHYS_BASE) /\
  read_word u (esp + 12 + 4 * n) = Some 0.

Lemma user_bytes_mid u0 u lo xs bs ys :
  stack_is u0 u lo (xs ++ bs ++ ys) -> user_bytes u (lo + Z.of_nat (length xs)) bs.
Proof.
  intros [_ _ Ht _] i b Hi. rewrite <- Z.add_assoc, <- Nat2Z.inj_add. apply Ht.
  rewrite lookup_app_r, Nat.add_sub_swap, Nat.sub_diag by lia. simpl. by rewrite lookup_app_l by (by eapply lookup_lt_Some).
Qed.

Lemma read_word_bytes u a v : user_bytes u a (word_bytes v) -> read_word u a = Some (u32 v).
Proof.
  intros Hb. unfold read_word.
  pose proof (Hb 0%nat _ eq_refl) as H0'. pose proof (Hb 1%nat _ eq_refl) as H1'.
  pose proof (Hb 2%nat _ eq_refl) as H2'. pose proof (Hb 3%nat _ eq_refl) as H3'.
  change (Z.of_nat 0) with 0 in H0'. change (Z.of_nat 1) with 1 in H1'. change (Z.of_nat 2) with 2 in H2'.
  change (Z.of_nat 3) with 3 in H3'. rewrite Z.add_0_r in H0'.
  rewrite H0', H1', H2', H3'. cbn [mbind option_bind]. f_equal. rewrite !Z.shiftr_div_pow2 by lia. unfold u32. zlia.
Qed.

(** The word at position [k] of those pushed last. *)
Lemma image_word u0 u esp pre v post : stack_is u0 u esp (pre ++ word_bytes v ++ post) ->
  read_word u (esp + Z.of_nat (length pre)) = Some (u32 v).
Proof. intros Hs. apply read_word_bytes. by eapply user_bytes_mid. Qed.

Lemma starts_snoc lo ts t : starts lo (ts ++ [t]) =
  starts lo ts ++ [lo - Z.of_nat (length (string_bytes ts)) - Z.of_nat (length t) - 1].
Proof.
  revert lo. induction ts as [|x ts IH]; intros lo; cbn [app starts].
  - cbn. do 2 f_equal. lia.
  - rewrite IH.
    replace (lo - Z.of_nat (length (string_bytes (x :: ts)))) with
      (lo - Z.of_nat (length x) - 1 - Z.of_nat (length (string_bytes ts))); [done|].
    rewrite string_bytes_cons, !length_app. cbn [length]. lia.
Qed.

(** The pointer to each word is the address of its copy. *)
Lemma starts_lookup lo ws i t : ws !! i = Some t ->
  reverse (starts lo (reverse ws)) !! i = Some (lo - Z.of_nat (length (string_bytes (drop i ws)))).
Proof.
  revert i. induction ws as [|x ws IH]; intros i Hi; [done|].
  rewrite reverse_cons, starts_snoc, reverse_app, reverse_singleton. cbn [app]. destruct i as [|i].
  - cbn [lookup list_lookup drop]. f_equal. rewrite string_bytes_reverse, string_bytes_cons, !length_app. cbn [length]. lia.
  - cbn [drop]. apply IH. done.
Qed.

Lemma words_bytes_take vs i v : vs !! i = Some v ->
  words_bytes vs = words_bytes (take i vs) ++ word_bytes v ++ words_bytes (drop (S i) vs).
Proof.
  intros Hi. rewrite <- (take_drop_middle vs i v Hi) at 1. rewrite words_bytes_app. f_equal.
Qed.

Lemma string_bytes_drop ws i t : ws !! i = Some t ->
  string_bytes (drop i ws) = t ++ [0] ++ string_bytes (drop (S i) ws).
Proof. intros Hi. by rewrite (drop_S ws t i), string_bytes_cons by done. Qed.

Lemma string_bytes_split ws i : string_bytes ws = string_bytes (take i ws) ++ string_bytes (drop i ws).
Proof. unfold string_bytes. by rewrite <- concat_app, <- fmap_app, take_drop. Qed.

Lemma image_layout u0 u esp argc pad ws :
  esp mod 4 = 0 -> PHYS_BASE - 4096 <= esp ->
  stack_is u0 u esp (stack_image esp argc (reverse (starts PHYS_BASE (reverse ws))) pad ws) ->
  arg_layout u esp argc ws.
Proof.
  intros Hm Hlo Hs. unfold arg_layout. cbv zeta. pose proof (si_len _ _ _ _ Hs) as Hlen. unfold stack_image in *.
  set (ptrs := reverse (starts PHYS_BASE (reverse ws))) in *.
  assert (length ptrs = length ws) as Hlp by (unfold ptrs; by rewrite length_reverse, starts_length, length_reverse).
  rewrite !length_app, words_bytes_length, Hlp in Hlen. cbn [length word_bytes] in Hlen.
  split; [done|]. split; [done|]. split; [|split; [|split; [|split]]].
  - pose proof (image_word u0 u esp [] 0 _ Hs) as Hw. by rewrite Z.add_0_r in Hw.
  - exact (image_word u0 u esp (word_bytes 0) argc _ Hs).
  - rewrite (assoc_L (++)) in Hs. pose proof (image_word u0 u esp _ (esp + 12) _ Hs) as Hw.
    rewrite u32_small in Hw by (unfold PHYS_BASE, LOADER_PHYS_BASE in *; lia). exact Hw.
  - intros i t Hi. exists (PHYS_BASE - Z.of_nat (length (string_bytes (drop i ws)))).
    pose proof (starts_lookup PHYS_BASE ws i t Hi) as Hpi. fold ptrs in Hpi. pose proof (lookup_lt_Some _ _ _ Hi) as Hil.
    pose proof (string_bytes_split ws i) as Hsp. pose proof (string_bytes_drop ws i t Hi) as Hsd.
    pose proof (f_equal (@length Z) Hsp) as Hl1. pose proof (f_equal (@length Z) Hsd) as Hl2. rewrite !length_app in Hl1, Hl2.
    cbn [app length] in Hl2. split; [|split; [|lia]].
    + rewrite (words_bytes_take ptrs i _ Hpi), <- !(assoc_L (++)) in Hs.
      rewrite 3!(assoc_L (++)) in Hs. pose proof (image_word u0 u esp _ _ _ Hs) as Hw.
      rewrite !length_app, words_bytes_length, length_take in Hw. cbn [length word_bytes] in Hw.
      rewrite u32_small in Hw by (unfold PHYS_BASE, LOADER_PHYS_BASE in *; lia). rewrite <- Hw. f_equal. lia.
    + rewrite Hsp, Hsd in Hs. rewrite (assoc_L (++) t [0]) in Hs. rewrite 6!(assoc_L (++)) in Hs.
      pose proof (user_bytes_mid _ _ _ _ _ _ Hs) as Hw.
      rewrite !length_app, words_bytes_length, Hlp in Hw. cbn [length word_bytes] in Hw.
      replace (PHYS_BASE - Z.of_nat (length (string_bytes (drop i ws)))) with
        (esp + Z.of_nat (4 + 4 + 4 + 4 * length ws + 4 + length pad + length (string_bytes (take i ws)))) by lia.
      done.
  - rewrite 3!(assoc_L (++)) in Hs. pose proof (image_word u0 u esp _ _ _ Hs) as Hw.
    rewrite !length_app, words_bytes_length, Hlp in Hw. cbn [length word_bytes] in Hw. change (u32 0) with 0 in Hw.
    rewrite <- Hw. f_equal. lia.
Qed.

(** ** The two together *)

(** As [load] runs them, once the page of the stack is there. *)
Definition pass_args (sf : nat) (sep : Z) (fuel : nat) (cmd_line argc : Z) : M st (option Z) :=
  '(ok, argv, argc) ← arg_parse sf sep fuel cmd_line argc;
  if ok : bool then esp ← arg_push argv argc; mret (Some esp) else mret None.

(** The conditions under which the arguments arrive. *)
Record cmd_ok (sf : nat) s live (sep cmd_line argc : Z) (str : list Z) : Prop := {
  co_heap : ks_ok s live;
  co_line : str_at s live cmd_line str;
  co_sep : str_at s live sep [32];
  co_bytes : Forall is_byte str;
  co_some : str <> [];
  co_fit : fits str;
  co_words : Forall (fun t => fits t /\ Z.of_nat (length t) <= ARG_MAX) (words str);
  co_size : Z.of_nat (length (string_bytes (words str))) + 4 * Z.of_nat (length (words str)) + 20 <= 4096;
  co_stack : um_ok (umem s) /\ stack_page (umem s);
  co_fuel : (length str + 1 < sf)%nat;
  co_argc : s32 argc = argc;
}.

Lemma words_bytes_ok (P : Z -> Prop) str : Forall P str -> Forall (Forall P) (words str).
Proof.
  intros Hb. unfold words.
  assert (forall cur, Forall P cur -> Forall (Forall P) (words_from cur str)) as Hw; [|by apply Hw].
  induction Hb as [|c str Hc _ IH]; intros cur Hcur; cbn [words_from].
  - case_decide; [constructor|by constructor].
  - destruct (c =? 32); [case_decide|].
    + by apply IH.
    + constructor; [done|]. by apply IH.
    + apply IH, Forall_app. by split; [|constructor].
Qed.

End spec.

(** ** An instance: the bytes of user memory in a map *)

#[global] Instance mem_user : UserMem mem := {|
  um_ok _ := True;
  um_get m a := m !! a;
  um_store a b m := m ← store m a b; Ok (tt, m);
|}.

#[global] Instance mem_user_laws : UserMemLaws mem.
Proof.
  split. cbn [um_ok um_get um_store mem_user]. intros m a b x _ Hx Hb.
  exists (<[a := b]> m). rewrite store_Ok by (done || by eexists). split; [done|]. split; [done|].
  intros a'. destruct (Z.eqb_spec a' a) as [->|Hne]; [by rewrite lookup_insert_eq|by rewrite lookup_insert_ne].
Qed.

(** ** A run: "echo  x" on the allocator of threads/malloc.c *)

Definition demo_line : list Z := [101; 99; 104; 111; 32; 32; 120].
Definition demo_args (line : list Z) : ast heap mem :=
  mk_ast (write_at (write_at ∅ 64 [32; 0]) 128 (line ++ [0])) ∅
    demo_heap ∅ ∅
    (write_at ∅ (PHYS_BASE - 4096) (replicate 4096 0)).

Example words_demo : words demo_line = [[101; 99; 104; 111]; [120]].
Proof. reflexivity. Qed.

(** The program sees two arguments: what it reads at the stack pointer is 0,
    2, the address of [argv]. *)
Example pass_args_runs :
  match pass_args 20 64 20 128 0 (demo_args demo_line) with
  | Ok (Some esp, s) => (PHYS_BASE - esp, read_word (umem s) (esp + 4), read_word (umem s) (esp + 8)) = (32, Some 2, Some (esp + 12))
  | _ => False
  end.
Proof. vm_compute. reflexivity. Qed.


(** A word of 16 characters: its copy is one byte longer than its block. *)
Example sixteen_overflows : pass_args 40 64 20 128 0 (demo_args (replicate 16 97)) = Fail BadAccess.
Proof. vm_compute. reflexivity. Qed.

Lemma demo_elsewhere a : 0 <= a < 4096 -> al_foreign demo_heap a.
Proof.
  intros Ha. unfold al_foreign, malloc_room, elsewhere. rewrite pg_round_down_arith by lia.
  rewrite Z.mod_small, Z.sub_diag by lia. split; [right|].
  - intros i (Hi & _ & _ & He). change (base (get_pool false (pages demo_heap))) with 0xc0004000 in He. lia.
  - intros b ar Hb. change (arenas demo_heap) with (∅ : gmap Z arena) in Hb. by rewrite lookup_empty in Hb.
Qed.

Lemma demo_cmd_ok : cmd_ok 20 (demo_args demo_line) [] 64 128 0 demo_line.
Proof.
  assert (forall q t, 0 < q -> q + Z.of_nat (length t) < 4096 -> cstr (kmem (demo_args demo_line)) q t ->
            str_at (demo_args demo_line) [] q t) as Hstr.
  { intros q t Hq Ht Hc. split; [done|]. split; [done|]. intros a Ha. left. apply demo_elsewhere. lia. }
  split.
  - destruct (malloc_init_ok demo_pal demo_heap demo_pal_ok eq_refl) as [Hh _].
    split; [split; [exact Hh|constructor]|constructor|]. intros p n Hp. by apply not_elem_of_nil in Hp.
  - apply Hstr; [done|done|]. split; [split_and!; vm_compute; done|]. by apply (bool_decide_unpack _); vm_compute.
  - apply Hstr; [done|done|]. split; [split_and!; vm_compute; done|]. by apply (bool_decide_unpack _); vm_compute.
  - repeat constructor; unfold is_byte; lia.
  - done.
  - split; vm_compute; done.
  - rewrite words_demo. repeat constructor; vm_compute; done.
  - vm_compute. done.
  - split; [exact I|]. intros a Ha. cbn [umem demo_args um_get mem_user]. rewrite write_at_lookup, length_replicate.
    rewrite decide_True by lia. apply lookup_lt_is_Some_2. rewrite length_replicate. lia.
  - simpl. lia.
  - done.
Qed.

