(* ===== verification/Disk.v ===== *)
(** * ATA disks: devices/disk.c

    The driver, register write by register write, over a model of an ATA-3
    channel: two drives that share the command block, decode the LBA
    registers, take an arbitrary (scheduled) time to answer and interrupt when
    a sector is ready or has been stored.  The driver is an instance of
    [BlockDevice], the interface the buffer cache, the file system and the
    swap area are written against. *)

From S2P Require Import Prelude Ctype.

(** ** The interface of a disk *)

Abbreviation sector := (list Z).
Definition DISK_SECTOR_SIZE : Z := 512.

Definition is_sector (s : sector) : bool :=
  bool_decide (length s = 512%nat) && forallb (fun b => (0 <=? b) && (b <? 256)) s.

(** What a client relies on: a number of sectors, and reading and writing one
    of them. *)
Class BlockDevice (D : Type) : Type := {
  bd_ok : D -> Prop;
  bd_size : D -> Z;
  bd_content : D -> Z -> sector;
  bd_read : Z -> M D sector;
  bd_write : Z -> sector -> M D unit;
}.

Class BlockDeviceLaws (D : Type) `{BlockDevice D} : Prop := {
  bd_read_ok (s : D) n : bd_ok s -> 0 <= n < bd_size s ->
    exists s', bd_read n s = Ok (bd_content s n, s') /\ bd_ok s' /\
      bd_size s' = bd_size s /\ (forall m, bd_content s' m = bd_content s m);
  bd_write_ok (s : D) n b : bd_ok s -> 0 <= n < bd_size s -> is_sector b = true ->
    exists s', bd_write n b s = Ok (tt, s') /\ bd_ok s' /\ bd_size s' = bd_size s /\
      (forall m, 0 <= m -> bd_content s' m = if m =? n then b else bd_content s m);
  bd_read_range (s : D) n : bd_ok s -> 0 <= n -> bd_size s <= n -> bd_read n s = Fail AssertFailed;
  bd_write_range (s : D) n b : bd_ok s -> 0 <= n -> bd_size s <= n -> bd_write n b s = Fail AssertFailed;
  bd_content_sector (s : D) n : bd_ok s -> 0 <= n < bd_size s -> is_sector (bd_content s n) = true;
}.

(** ** The hardware: an ATA channel and its drives *)

(** Offsets of the command and control block registers from [reg_base]. *)
Definition reg_error : Z := 1.
Definition reg_nsect : Z := 2.
Definition reg_lbal : Z := 3.
Definition reg_lbam : Z := 4.
Definition reg_lbah : Z := 5.
Definition reg_device : Z := 6.
Definition reg_status : Z := 7.
Definition reg_command : Z := reg_status.
Definition reg_ctl : Z := 0x206.
Definition reg_alt_status : Z := reg_ctl.

Definition STA_BSY : Z := 0x80.
Definition STA_DRDY : Z := 0x40.
Definition STA_DRQ : Z := 0x08.
Definition CTL_SRST : Z := 0x04.
Definition DEV_MBS : Z := 0xa0.
Definition DEV_LBA : Z := 0x40.
Definition DEV_DEV : Z := 0x10.
Definition CMD_IDENTIFY_DEVICE : Z := 0xec.
Definition CMD_READ_SECTOR_RETRY : Z := 0x20.
Definition CMD_WRITE_SECTOR_RETRY : Z := 0x30.

(** What a drive is doing: waiting for a command, holding a sector for the
    host to read, or waiting for the host to send the sector for an LBA. *)
Inductive phase : Type := Ready | DataIn (s : sector) | DataOut (lba : Z).

Record taskfile : Type := mk_taskfile {
  t_error : Z; t_nsect : Z; t_lbal : Z; t_lbam : Z; t_lbah : Z; t_device : Z;
}.

Record drive : Type := mk_drive {
  ata : bool;              (* an ATA disk, as opposed to a packet device *)
  media : list sector;
  ident : sector;          (* the answer to IDENTIFY DEVICE *)
  tf : taskfile;
  busy : nat;              (* polls of the status until BSY clears *)
  ph : phase;
  pending : bool;          (* an interrupt comes when BSY clears *)
}.

(** The cable: the selected device, the drives, and how long each coming
    command takes. *)
Record bus : Type := mk_bus {
  sel : bool;
  master : option drive;
  slave : option drive;
  delays : list nat;
}.

Definition with_tf (t : taskfile) (v : drive) : drive :=
  mk_drive (ata v) (media v) (ident v) t (busy v) (ph v) (pending v).
Definition with_work (n : nat) (p : phase) (i : bool) (v : drive) : drive :=
  mk_drive (ata v) (media v) (ident v) (tf v) n p i.
Definition with_media (m : list sector) (v : drive) : drive :=
  mk_drive (ata v) m (ident v) (tf v) (busy v) (ph v) (pending v).

Definition selected (b : bus) : option drive := if sel b then slave b else master b.
Definition put_selected (v : drive) (b : bus) : bus :=
  if sel b then mk_bus true (master b) (Some v) (delays b)
  else mk_bus false (Some v) (slave b) (delays b).

(** Both drives latch a write to the task file. *)
Definition latch (r v : Z) (t : taskfile) : taskfile :=
  if r =? reg_nsect then mk_taskfile (t_error t) v (t_lbal t) (t_lbam t) (t_lbah t) (t_device t)
  else if r =? reg_lbal then mk_taskfile (t_error t) (t_nsect t) v (t_lbam t) (t_lbah t) (t_device t)
  else if r =? reg_lbam then mk_taskfile (t_error t) (t_nsect t) (t_lbal t) v (t_lbah t) (t_device t)
  else if r =? reg_lbah then mk_taskfile (t_error t) (t_nsect t) (t_lbal t) (t_lbam t) v (t_device t)
  else if r =? reg_device then mk_taskfile (t_error t) (t_nsect t) (t_lbal t) (t_lbam t) (t_lbah t) v
  else t.

Definition lba_of (t : taskfile) : Z :=
  Z.lor (Z.lor (t_lbal t) (Z.shiftl (t_lbam t) 8))
        (Z.lor (Z.shiftl (t_lbah t) 16) (Z.shiftl (Z.land (t_device t) 0xf) 24)).

(** The selected drive accepts a command. *)
Definition drive_command (cmd : Z) (delay : nat) (v : drive) : drive :=
  if cmd =? CMD_READ_SECTOR_RETRY then
    match media v !! Z.to_nat (lba_of (tf v)) with
    | Some s => if ata v then with_work delay (DataIn s) true v else with_work delay Ready true v
    | None => with_work delay Ready true v      (* aborted: address out of range *)
    end
  else if cmd =? CMD_WRITE_SECTOR_RETRY then
    match media v !! Z.to_nat (lba_of (tf v)) with
    | Some _ => if ata v then with_work delay (DataOut (lba_of (tf v))) false v
                else with_work delay Ready true v
    | None => with_work delay Ready true v
    end
  else if cmd =? CMD_IDENTIFY_DEVICE then
    if ata v then with_work delay (DataIn (ident v)) true v else with_work delay Ready true v
  else with_work delay Ready true v.

(** The signature a drive shows after a reset. *)
Definition signature (v : drive) : taskfile :=
  if ata v then mk_taskfile 1 1 1 0 0 0 else mk_taskfile 1 1 1 0x14 0xeb 0.

Definition reset_drive (delay : nat) (v : drive) : drive :=
  with_tf (signature v) (with_work delay Ready false v).

Definition next_delay (b : bus) : nat := match delays b with [] => 0%nat | n :: _ => n end.

Definition bus_out (r v : Z) (b : bus) : bus :=
  if r =? reg_command then
    match selected b with
    | Some d => put_selected (drive_command v (next_delay b) d)
                  (mk_bus (sel b) (master b) (slave b) (tail (delays b)))
    | None => b
    end
  else if r =? reg_ctl then
    if Z.testbit v 2 then
      mk_bus false (reset_drive (next_delay b) <$> master b) (reset_drive (next_delay b) <$> slave b)
        (tail (delays b))
    else b
  else
    let f d := with_tf (latch r v (tf d)) d in
    mk_bus (if r =? reg_device then Z.testbit v 4 else sel b) (f <$> master b) (f <$> slave b) (delays b).

Definition drive_status (v : drive) : Z :=
  match busy v with
  | S _ => STA_BSY
  | O => match ph v with Ready => STA_DRDY | _ => Z.lor STA_DRDY STA_DRQ end
  end.

Definition drive_reg (r : Z) (t : taskfile) : Z :=
  if r =? reg_error then t_error t
  else if r =? reg_nsect then t_nsect t
  else if r =? reg_lbal then t_lbal t
  else if r =? reg_lbam then t_lbam t
  else if r =? reg_lbah then t_lbah t
  else t_device t.

(** Reading a register.  Time passes between two polls of the status; reading
    the (non-alternate) status acknowledges the interrupt.  The master answers
    for a missing slave, with a status of 0; a bus with nobody on it floats. *)
Definition bus_in (r : Z) (b : bus) : Z * bus :=
  match selected b with
  | Some d =>
      if r =? reg_status then
        (drive_status d, put_selected (with_work (pred (busy d)) (ph d) false d) b)
      else if r =? reg_alt_status then
        (drive_status d, put_selected (with_work (pred (busy d)) (ph d) (pending d) d) b)
      else (drive_reg r (tf d), b)
  | None =>
      match (if sel b then master b else None) with
      | Some m => (if (r =? reg_status) || (r =? reg_alt_status) then 0 else drive_reg r (tf m), b)
      | None => (0xff, b)
      end
  end.

(** 256 words through the data register. *)
Definition bus_insw (b : bus) : sector * bus :=
  match selected b with
  | Some d =>
      match ph d with
      | DataIn s => (s, put_selected (with_work (busy d) Ready (pending d) d) b)
      | _ => (replicate 512 0xff, b)
      end
  | None => (replicate 512 0xff, b)
  end.

Definition bus_outsw (s : sector) (b : bus) : bus :=
  match selected b with
  | Some d =>
      match ph d with
      | DataOut lba =>
          put_selected
            (with_media (<[Z.to_nat lba := s]> (media d)) (with_work (next_delay b) Ready true d))
            (mk_bus (sel b) (master b) (slave b) (tail (delays b)))
      | _ => b
      end
  | None => b
  end.

(** ** The driver's data *)

Record disk : Type := mk_disk {
  is_ata : bool; capacity : Z; read_cnt : Z; write_cnt : Z;
}.

(** [struct channel]; [hw] is the hardware behind [reg_base]. *)
Record channel : Type := mk_channel {
  irq : Z;
  lock_held : bool;
  expecting_interrupt : bool;
  completion_wait : Z;
  dev0 : disk;
  dev1 : disk;
  hw : bus;
}.

Definition with_lock (l : bool) (c : channel) : channel :=
  mk_channel (irq c) l (expecting_interrupt c) (completion_wait c) (dev0 c) (dev1 c) (hw c).
Definition with_expecting (e : bool) (c : channel) : channel :=
  mk_channel (irq c) (lock_held c) e (completion_wait c) (dev0 c) (dev1 c) (hw c).
Definition with_completion (n : Z) (c : channel) : channel :=
  mk_channel (irq c) (lock_held c) (expecting_interrupt c) n (dev0 c) (dev1 c) (hw c).
Definition with_hw (b : bus) (c : channel) : channel :=
  mk_channel (irq c) (lock_held c) (expecting_interrupt c) (completion_wait c) (dev0 c) (dev1 c) b.

(** The device number, 0 or 1, is a boolean: [true] for the slave. *)
Definition device (dev_no : bool) (c : channel) : disk := if dev_no then dev1 c else dev0 c.
Definition set_device (dev_no : bool) (d : disk) (c : channel) : channel :=
  if dev_no
  then mk_channel (irq c) (lock_held c) (expecting_interrupt c) (completion_wait c) (dev0 c) d (hw c)
  else mk_channel (irq c) (lock_held c) (expecting_interrupt c) (completion_wait c) d (dev1 c) (hw c).

Definition outb (r v : Z) : M channel unit := modify (fun c => with_hw (bus_out r (u8 v) (hw c)) c).
Definition inb (r : Z) : M channel Z := fun c =>
  let '(v, b) := bus_in r (hw c) in Ok (v, with_hw b c).
Definition insw : M channel sector := fun c =>
  let '(s, b) := bus_insw (hw c) in Ok (s, with_hw b c).
Definition outsw (s : sector) : M channel unit := modify (fun c => with_hw (bus_outsw s (hw c)) c).

(** ** Low-level primitives *)

(** [for (i = 0; i < 1000; i++)] of [wait_until_idle], [fuel] iterations left. *)
Fixpoint idle_loop (fuel : nat) : M channel unit :=
  match fuel with
  | O => mret tt                        (* idle timeout *)
  | S n =>
      st ← inb reg_status;
      if Z.land st (Z.lor STA_BSY STA_DRQ) =? 0 then mret tt else idle_loop n
  end.

Definition wait_until_idle : M channel unit := idle_loop 1000.

Fixpoint busy_loop (fuel : nat) : M channel bool :=
  match fuel with
  | O => mret false
  | S n =>
      st ← inb reg_alt_status;
      if Z.land st STA_BSY =? 0 then
        st2 ← inb reg_alt_status;
        mret (negb (Z.land st2 STA_DRQ =? 0))
      else busy_loop n
  end.

Definition wait_while_busy : M channel bool := busy_loop 3000.

Definition select_device (dev_no : bool) : M channel unit :=
  outb reg_device (if dev_no then Z.lor DEV_MBS DEV_DEV else DEV_MBS) ;;
  inb reg_alt_status ;;
  mret tt.

Definition select_device_wait (dev_no : bool) : M channel unit :=
  wait_until_idle ;; select_device dev_no ;; wait_until_idle.

Definition select_sector (dev_no : bool) (sec_no : Z) : M channel unit :=
  d ← gets (device dev_no);
  assertM (sec_no <? capacity d) ;;
  assertM (sec_no <? Z.shiftl 1 28) ;;
  select_device_wait dev_no ;;
  outb reg_nsect 1 ;;
  outb reg_lbal sec_no ;;
  outb reg_lbam (Z.shiftr sec_no 8) ;;
  outb reg_lbah (Z.shiftr sec_no 16) ;;
  outb reg_device
    (Z.lor (Z.lor (Z.lor DEV_MBS DEV_LBA) (if dev_no then DEV_DEV else 0)) (Z.shiftr sec_no 24)).

Definition input_sector : M channel sector := insw.
Definition output_sector (s : sector) : M channel unit := outsw s.

(** The body of [interrupt_handler] for the channel that interrupted. *)
Definition channel_interrupt : M channel unit :=
  e ← gets expecting_interrupt;
  if (e : bool) then
    inb reg_status ;;
    modify (fun c => with_completion (completion_wait c + 1) c)   (* sema_up *)
  else mret tt.                                                   (* unexpected interrupt *)

(** The selected drive finishes its command and interrupts. *)
Definition drive_done (v : drive) : drive := with_work 0 (ph v) (pending v) v.

(** [sema_down (&c->completion_wait)]: when the value is zero the thread
    sleeps until the drive's interrupt; with none to come it sleeps forever. *)
Definition await_completion : M channel unit := fun c =>
  if 0 <? completion_wait c then Ok (tt, with_completion (completion_wait c - 1) c)
  else match selected (hw c) with
       | Some v =>
           if pending v then
             '(_, c1) ← channel_interrupt (with_hw (put_selected (drive_done v) (hw c)) c);
             if 0 <? completion_wait c1 then Ok (tt, with_completion (completion_wait c1 - 1) c1)
             else Fail WaitsForever
           else Fail WaitsForever
       | None => Fail WaitsForever
       end.

Definition lock_acquire : M channel unit :=
  h ← gets lock_held; assertM (negb h) ;; modify (with_lock true).
Definition lock_release : M channel unit :=
  h ← gets lock_held; assertM h ;; modify (with_lock false).

Section driver.
(** The interrupt level of the caller. *)
Context (intr_on : bool).

Definition issue_pio_command (command : Z) : M channel unit :=
  assertM intr_on ;;
  modify (with_expecting true) ;;
  outb reg_command command.

Definition disk_read (dev_no : bool) (sec_no : Z) : M channel sector :=
  lock_acquire ;;
  select_sector dev_no sec_no ;;
  issue_pio_command CMD_READ_SECTOR_RETRY ;;
  await_completion ;;
  ok ← wait_while_busy;
  if negb ok then fail KernelPanic else
  s ← input_sector;
  modify (fun c => let d := device dev_no c in
    set_device dev_no (mk_disk (is_ata d) (capacity d) (read_cnt d + 1) (write_cnt d)) c) ;;
  lock_release ;;
  mret s.

Definition disk_write (dev_no : bool) (sec_no : Z) (buffer : sector) : M channel unit :=
  lock_acquire ;;
  select_sector dev_no sec_no ;;
  issue_pio_command CMD_WRITE_SECTOR_RETRY ;;
  ok ← wait_while_busy;
  if negb ok then fail KernelPanic else
  output_sector buffer ;;
  await_completion ;;
  modify (fun c => let d := device dev_no c in
    set_device dev_no (mk_disk (is_ata d) (capacity d) (read_cnt d) (write_cnt d + 1)) c) ;;
  lock_release.

(** ** Detection and identification *)

Definition present_check (dev_no : bool) : M channel bool :=
  select_device dev_no ;;
  outb reg_nsect 0x55 ;; outb reg_lbal 0xaa ;;
  outb reg_nsect 0xaa ;; outb reg_lbal 0x55 ;;
  outb reg_nsect 0x55 ;; outb reg_lbal 0xaa ;;
  a ← inb reg_nsect;
  if negb (a =? 0x55) then mret false else
  b ← inb reg_lbal;
  mret (b =? 0xaa).

Fixpoint slave_loop (fuel : nat) : M channel unit :=
  match fuel with
  | O => mret tt
  | S n =>
      a ← inb reg_nsect;
      if negb (a =? 1) then slave_loop n else
      b ← inb reg_lbal;
      if b =? 1 then mret tt else slave_loop n
  end.

Definition reset_channel : M channel unit :=
  p0 ← present_check false;
  p1 ← present_check true;
  outb reg_ctl 0 ;; outb reg_ctl CTL_SRST ;; outb reg_ctl 0 ;;
  (if (p0 : bool) then select_device false ;; wait_while_busy ;; mret tt else mret tt) ;;
  (if (p1 : bool) then
     select_device true ;; slave_loop 3000 ;; wait_while_busy ;; mret tt
   else mret tt).

Definition set_ata (dev_no a : bool) : M channel unit :=
  modify (fun c => let d := device dev_no c in
    set_device dev_no (mk_disk a (capacity d) (read_cnt d) (write_cnt d)) c).

Definition check_device_type (dev_no : bool) : M channel bool :=
  select_device dev_no ;;
  error ← inb reg_error;
  lbam ← inb reg_lbam;
  lbah ← inb reg_lbah;
  status ← inb reg_status;
  if (negb (error =? 1) && (negb (error =? 0x81) || dev_no))
     || (Z.land status STA_DRDY =? 0)
     || negb (Z.land status STA_BSY =? 0)
  then set_ata dev_no false ;; mret (negb (error =? 0x81))
  else
    set_ata dev_no (((lbam =? 0) && (lbah =? 0)) || ((lbam =? 0x3c) && (lbah =? 0xc3))) ;;
    mret true.

(** [id[i]] of the identification sector, an array of little-endian words. *)
Definition id_word (id : sector) (i : nat) : Z :=
  Z.lor (nth (2 * i) id 0) (Z.shiftl (nth (2 * i + 1) id 0) 8).

Definition identify_ata_device (dev_no : bool) : M channel unit :=
  d ← gets (device dev_no);
  assertM (is_ata d) ;;
  select_device_wait dev_no ;;
  issue_pio_command CMD_IDENTIFY_DEVICE ;;
  await_completion ;;
  ok ← wait_while_busy;
  if negb ok then set_ata dev_no false else
  id ← input_sector;
  modify (fun c => let d := device dev_no c in
    set_device dev_no
      (mk_disk (is_ata d) (Z.lor (id_word id 60) (Z.shiftl (id_word id 61) 16))
         (read_cnt d) (write_cnt d)) c).

(** The body of [disk_init]'s loop over the channels. *)
Definition channel_init (chan_no : Z) : M channel unit :=
  modify (fun c => mk_channel (if chan_no =? 0 then 14 + 0x20 else 15 + 0x20) false false 0
                     (mk_disk false 0 0 0) (mk_disk false 0 0 0) (hw c)) ;;
  reset_channel ;;
  slave ← check_device_type false;
  (if (slave : bool) then check_device_type true ;; mret tt else mret tt) ;;
  a0 ← gets (fun c => is_ata (dev0 c));
  (if (a0 : bool) then identify_ata_device false else mret tt) ;;
  a1 ← gets (fun c => is_ata (dev1 c));
  (if (a1 : bool) then identify_ata_device true else mret tt).

(** ** The two channels *)

Definition CHANNEL_CNT : Z := 2.
Definition channels : Type := list channel.

Definition on_channel {A} (chan_no : nat) (m : M channel A) : M channels A := fun cs =>
  match cs !! chan_no with
  | Some c => '(a, c') ← m c; Ok (a, <[chan_no := c']> cs)
  | None => Fail BadAccess
  end.

Definition disk_init : M channels unit :=
  on_channel 0 (channel_init 0) ;; on_channel 1 (channel_init 1).

(** A [struct disk *]: channel number and device number. *)
Definition disk_get (chan_no dev_no : Z) : M channels (option (nat * bool)) :=
  assertM ((dev_no =? 0) || (dev_no =? 1)) ;;
  if chan_no <? CHANNEL_CNT then
    if chan_no <? 0 then fail BadAccess else
    fun cs => match cs !! Z.to_nat chan_no with
              | Some c => Ok (if is_ata (device (dev_no =? 1) c)
                              then Some (Z.to_nat chan_no, dev_no =? 1) else None, cs)
              | None => Fail BadAccess
              end
  else mret None.

Definition disk_size (d : option (nat * bool)) : M channels Z :=
  match d with
  | None => fail AssertFailed
  | Some (k, dev_no) => on_channel k (gets (fun c => capacity (device dev_no c)))
  end.

(** [for (c = channels; c < channels + CHANNEL_CNT; c++)] with its early
    return: at most one channel handles the interrupt. *)
Definition interrupt_handler (vec_no : Z) : M channels unit := fun cs =>
  match list_find (fun c => vec_no = irq c) cs with
  | Some (k, _) => on_channel k channel_interrupt cs
  | None => Fail KernelPanic                           (* NOT_REACHED *)
  end.

(** Printing an identification string: pairs of bytes are swapped, trailing
    white space and nulls dropped. *)
Fixpoint ata_trim (s : list Z) (size : nat) : nat :=
  match size with
  | O => O
  | S n =>
      let c := nth (Z.to_nat (Z.lxor (Z.of_nat n) 1)) s 0 in
      if negb (c =? 0) && negb (isspace c) then size else ata_trim s n
  end.

Definition print_ata_string (s : list Z) (size : nat) : list Z :=
  map (fun i => nth (Z.to_nat (Z.lxor (Z.of_nat i) 1)) s 0) (seq 0 (ata_trim s size)).
End driver.

(** ** The selected drive *)

(** The bus with drive [v] selected, [o] the other one. *)
Definition cable (dev : bool) (v : drive) (o : option drive) (ds : list nat) : bus :=
  if dev then mk_bus true o (Some v) ds else mk_bus false (Some v) o ds.

Definition drive_of (dev : bool) (b : bus) : option drive := if dev then slave b else master b.

Lemma cable_of b dev v :
  sel b = dev -> drive_of dev b = Some v -> b = cable dev v (drive_of (negb dev) b) (delays b).
Proof. destruct b as [[] m s ds]; intros <-; simpl; intros ->; done. Qed.

Section cable.
Context (dev : bool) (v : drive) (o : option drive) (ds : list nat).

Lemma cable_selected : selected (cable dev v o ds) = Some v.
Proof. by destruct dev. Qed.
Lemma cable_put w : put_selected w (cable dev v o ds) = cable dev w o ds.
Proof. by destruct dev. Qed.
Lemma cable_drive_of dev' :
  drive_of dev' (cable dev v o ds) = if Bool.eqb dev' dev then Some v else o.
Proof. by destruct dev, dev'. Qed.
Lemma cable_command n cmd :
  bus_out reg_command cmd (cable dev v o (n :: ds)) = cable dev (drive_command cmd n v) o ds.
Proof. by destruct dev. Qed.
Lemma cable_command_nil cmd :
  bus_out reg_command cmd (cable dev v o []) = cable dev (drive_command cmd 0 v) o [].
Proof. by destruct dev. Qed.
Lemma cable_alt :
  bus_in reg_alt_status (cable dev v o ds) =
  (drive_status v, cable dev (with_work (pred (busy v)) (ph v) (pending v) v) o ds).
Proof. by destruct dev. Qed.
Lemma cable_status :
  bus_in reg_status (cable dev v o ds) =
  (drive_status v, cable dev (with_work (pred (busy v)) (ph v) false v) o ds).
Proof. by destruct dev. Qed.
Lemma cable_insw s : ph v = DataIn s ->
  bus_insw (cable dev v o ds) = (s, cable dev (with_work (busy v) Ready (pending v) v) o ds).
Proof. unfold bus_insw. rewrite cable_selected. intros ->. by rewrite cable_put. Qed.
End cable.

(** The time the next command takes, and the delays after it. *)
Definition delay_hd (ds : list nat) : nat := match ds with [] => 0%nat | n :: _ => n end.

Lemma cable_cmd dev v o ds cmd :
  bus_out reg_command cmd (cable dev v o ds) = cable dev (drive_command cmd (delay_hd ds) v) o (tail ds).
Proof. destruct ds; [apply cable_command_nil|apply cable_command]. Qed.

Lemma cable_outsw dev v o ds s lba : ph v = DataOut lba ->
  bus_outsw s (cable dev v o ds) =
  cable dev (with_media (<[Z.to_nat lba := s]> (media v)) (with_work (delay_hd ds) Ready true v)) o
    (tail ds).
Proof. unfold bus_outsw. rewrite cable_selected. intros ->. by destruct dev. Qed.

(** ** Drives at rest *)

Definition drive_idle (v : drive) : Prop := busy v = 0%nat /\ ph v = Ready /\ pending v = false.

Definition drive_ok (v : drive) : Prop :=
  drive_idle v /\ Forall (fun s => is_sector s = true) (media v).

(** Nothing in progress: the state between two calls of the driver. *)
Record bus_ok (b : bus) : Prop := {
  bok_drives : forall dev v, drive_of dev b = Some v -> drive_ok v;
  bok_delays : Forall (fun n => (n < 3000)%nat) (delays b);
}.

Lemma idle_work v : drive_idle v -> with_work 0 Ready false v = v.
Proof. destruct v; unfold drive_idle; simpl. by intros (-> & -> & ->). Qed.

Lemma idle_status v : drive_idle v -> drive_status v = STA_DRDY.
Proof. unfold drive_status. by intros (-> & -> & _). Qed.

Lemma put_selected_same v b : selected b = Some v -> put_selected v b = b.
Proof. destruct b as [[] m s ds]; cbn; by intros ->. Qed.

Lemma with_hw_same c : with_hw (hw c) c = c.
Proof. by destruct c. Qed.

Lemma bus_ok_selected b v : bus_ok b -> selected b = Some v -> drive_ok v.
Proof. intros Hb Hv. apply (bok_drives b Hb (sel b)). by destruct b as [[]]. Qed.

(** Polling a bus at rest changes nothing. *)
Lemma bus_in_idle r b : bus_ok b -> snd (bus_in r b) = b.
Proof.
  intros Hb. unfold bus_in. destruct (selected b) as [v|] eqn:Hv.
  - destruct (bus_ok_selected b v Hb Hv) as [Hi _]. pose proof Hi as (Hbz & Hph & Hp).
    rewrite Hbz, Hph, Hp, idle_work by done.
    destruct (r =? reg_status), (r =? reg_alt_status); simpl; auto using put_selected_same.
  - by destruct (if sel b then master b else None).
Qed.

Lemma inb_idle r c : bus_ok (hw c) -> exists x, inb r c = Ok (x, c).
Proof.
  intros Hb. unfold inb. pose proof (bus_in_idle r _ Hb) as Hs.
  destruct (bus_in r (hw c)) as [x b]. simpl in Hs. subst b. exists x. by rewrite with_hw_same.
Qed.

Lemma idle_loop_idle n c : bus_ok (hw c) -> idle_loop n c = Ok (tt, c).
Proof.
  intros Hb. induction n as [|n IH]; [done|]. cbn [idle_loop].
  destruct (inb_idle reg_status c Hb) as [x Hx]. rewrite (bindM_step _ _ _ _ _ Hx).
  by destruct (_ =? 0).
Qed.

Lemma drive_ok_tf t v : drive_ok v -> drive_ok (with_tf t v).
Proof. done. Qed.

Lemma latch_bus_ok r x b :
  r <> reg_command -> r <> reg_ctl -> bus_ok b -> bus_ok (bus_out r x b).
Proof.
  intros H1 H2 Hb. unfold bus_out.
  rewrite (proj2 (Z.eqb_neq _ _) H1), (proj2 (Z.eqb_neq _ _) H2).
  split; simpl; [|apply (bok_delays b Hb)].
  intros dev v. destruct dev; simpl; intros (v0 & Hv0 & ->)%fmap_Some; apply drive_ok_tf;
    [apply (bok_drives b Hb true)|apply (bok_drives b Hb false)]; done.
Qed.

Lemma select_device_idle dev c :
  bus_ok (hw c) ->
  select_device dev c =
    Ok (tt, with_hw (bus_out reg_device (if dev then 0xb0 else 0xa0) (hw c)) c).
Proof.
  intros Hb. unfold select_device.
  erewrite bindM_step by reflexivity.
  set (c1 := with_hw _ c). destruct (inb_idle reg_alt_status c1) as [x Hx].
  { subst c1. simpl. by apply latch_bus_ok. }
  rewrite (bindM_step _ _ _ _ _ Hx). subst c1. by destruct dev.
Qed.

Lemma select_device_wait_idle dev c :
  bus_ok (hw c) ->
  select_device_wait dev c =
    Ok (tt, with_hw (bus_out reg_device (if dev then 0xb0 else 0xa0) (hw c)) c).
Proof.
  intros Hb. unfold select_device_wait, wait_until_idle.
  rewrite (bindM_step _ _ _ _ _ (idle_loop_idle _ _ Hb)).
  rewrite (bindM_step _ _ _ _ _ (select_device_idle dev _ Hb)).
  apply idle_loop_idle. simpl. by apply latch_bus_ok.
Qed.

(** ** Addressing a sector *)

Lemma u8_testbit z i : Z.testbit (u8 z) i = (i <? 8) && Z.testbit z i.
Proof.
  unfold u8. destruct (Z.ltb_spec i 8); simpl; [|by apply Z.mod_pow2_bits_high].
  destruct (Z.lt_ge_cases i 0); [by rewrite !Z.testbit_neg_r|by apply Z.mod_pow2_bits_low].
Qed.

Definition device_byte (dev : bool) (n : Z) : Z :=
  u8 (Z.lor (Z.lor (Z.lor DEV_MBS DEV_LBA) (if dev then DEV_DEV else 0)) (Z.shiftr n 24)).

Lemma device_byte_low dev n j :
  0 <= j < 4 -> Z.testbit (device_byte dev n) j = Z.testbit n (j + 24).
Proof.
  intros Hj. unfold device_byte.
  rewrite u8_testbit, Z.lor_spec, Z.shiftr_spec by lia.
  assert (j = 0 \/ j = 1 \/ j = 2 \/ j = 3) as [-> | [-> | [-> | ->]]] by lia; by destruct dev.
Qed.

Lemma device_byte_sel dev n : 0 <= n < 2 ^ 28 -> Z.testbit (device_byte dev n) 4 = dev.
Proof.
  intros Hn. unfold device_byte.
  rewrite u8_testbit, Z.lor_spec, Z.shiftr_spec by lia. cbn [Z.add Pos.add Pos.succ].
  rewrite (word_testbit_high 28 n) by lia. by destruct dev.
Qed.

(** The drive decodes the address the driver encoded. *)
Lemma lba_roundtrip dev n e c :
  0 <= n < 2 ^ 28 ->
  lba_of (mk_taskfile e c (u8 n) (u8 (Z.shiftr n 8)) (u8 (Z.shiftr n 16)) (device_byte dev n)) = n.
Proof.
  intros Hn. unfold lba_of. cbn [t_lbal t_lbam t_lbah t_device].
  apply Z.bits_inj'. intros i Hi.
  rewrite !Z.lor_spec, !Z.shiftl_spec, Z.land_spec by lia.
  change 15 with (Z.ones 4). rewrite !u8_testbit.
  destruct (Z.lt_ge_cases i 28) as [Hi28|];
    [|rewrite !(word_testbit_high 28 n) by lia; rewrite Z.ones_spec_high by lia;
      rewrite (Z.shiftr_spec n 8), (Z.shiftr_spec n 16), !(word_testbit_high 28 n) by lia;
      by rewrite ?andb_false_r].
  destruct (Z.lt_ge_cases i 24).
  - rewrite (Z.testbit_neg_r _ (i - 24)), andb_false_l, orb_false_r by lia.
    destruct (Z.lt_ge_cases i 16).
    + rewrite (Z.testbit_neg_r _ (i - 16)), andb_false_r, orb_false_r by lia.
      destruct (Z.lt_ge_cases i 8).
      * rewrite (Z.testbit_neg_r _ (i - 8)), andb_false_r, orb_false_r by lia.
        by rewrite (proj2 (Z.ltb_lt i 8)).
      * rewrite Z.shiftr_spec, (proj2 (Z.ltb_ge i 8)), (proj2 (Z.ltb_lt (i - 8) 8)) by lia.
        simpl. f_equal. lia.
    + rewrite (Z.shiftr_spec n 16), (proj2 (Z.ltb_ge i 8)), (proj2 (Z.ltb_ge (i - 8) 8)),
        (proj2 (Z.ltb_lt (i - 16) 8)) by lia. simpl. f_equal. lia.
  - rewrite (proj2 (Z.ltb_ge i 8)), (proj2 (Z.ltb_ge (i - 8) 8)), (proj2 (Z.ltb_ge (i - 16) 8)) by lia.
    rewrite device_byte_low, Z.ones_spec_low by lia. simpl. rewrite andb_true_r. f_equal. lia.
Qed.

(** The task file after [select_sector]. *)
Definition addressed (dev : bool) (n : Z) (t : taskfile) : taskfile :=
  mk_taskfile (t_error t) 1 (u8 n) (u8 (Z.shiftr n 8)) (u8 (Z.shiftr n 16)) (device_byte dev n).

Definition aim (dev : bool) (n : Z) (v : drive) : drive := with_tf (addressed dev n (tf v)) v.

Lemma outb_step {B} r x (f : unit -> M channel B) c :
  (outb r x ≫= f) c = f tt (with_hw (bus_out r (u8 x) (hw c)) c).
Proof. done. Qed.

Lemma latch_bus r x s m l ds :
  (r =? reg_command) = false -> (r =? reg_ctl) = false ->
  bus_out r x (mk_bus s m l ds) =
  let f d := with_tf (latch r x (tf d)) d in
  mk_bus (if r =? reg_device then Z.testbit x 4 else s) (f <$> m) (f <$> l) ds.
Proof. unfold bus_out. by intros -> ->. Qed.

Lemma aim_bus dev n a x1 x2 x3 y b v :
  Z.testbit y 4 = dev -> drive_of dev b = Some v ->
  bus_out reg_device y (bus_out reg_lbah x3 (bus_out reg_lbam x2 (bus_out reg_lbal x1
    (bus_out reg_nsect n (bus_out reg_device a b))))) =
  let f d := with_tf (mk_taskfile (t_error (tf d)) n x1 x2 x3 y) d in
  cable dev (f v) (f <$> drive_of (negb dev) b) (delays b).
Proof.
  intros Hy Hv. destruct b as [s m l ds]. rewrite !latch_bus by done.
  change (reg_device =? reg_device) with true. cbn [drive_of delays] in Hv |- *.
  rewrite Hy. destruct dev; cbn in Hv |- *; subst; [by destruct m|by destruct l].
Qed.

Lemma select_sector_ok dev n c v :
  bus_ok (hw c) -> drive_of dev (hw c) = Some v ->
  0 <= n < capacity (device dev c) -> n < 2 ^ 28 ->
  select_sector dev n c =
    Ok (tt, with_hw (cable dev (aim dev n v) (aim dev n <$> drive_of (negb dev) (hw c)) (delays (hw c))) c).
Proof.
  intros Hb Hv Hn H28. unfold select_sector.
  erewrite bindM_step by reflexivity.
  rewrite bindM_assert by (apply Z.ltb_lt; lia).
  rewrite bindM_assert by (apply Z.ltb_lt; change (Z.shiftl 1 28) with (2 ^ 28); lia).
  rewrite (bindM_step _ _ _ _ _ (select_device_wait_idle dev c Hb)).
  rewrite !outb_step. unfold outb, modify. do 2 f_equal.
  cbn [with_hw hw irq lock_held expecting_interrupt completion_wait dev0 dev1].
  unfold with_hw. f_equal.
  apply aim_bus; [apply device_byte_sel; lia|done].
Qed.

(** ** Waiting *)

Lemma busy_loop_wait dev v o ds n fuel c :
  busy v = n -> (n < fuel)%nat -> hw c = cable dev v o ds ->
  busy_loop fuel c =
    Ok (match ph v with Ready => false | _ => true end,
        with_hw (cable dev (with_work 0 (ph v) (pending v) v) o ds) c).
Proof.
  revert v fuel c. induction n as [|n IH]; intros v [|fuel] c Hn Hf Hc; try lia; cbn [busy_loop].
  - erewrite bindM_step by (unfold inb; rewrite Hc, cable_alt; reflexivity).
    unfold drive_status. rewrite Hn.
    assert (Hz : (Z.land (match ph v with Ready => STA_DRDY | _ => Z.lor STA_DRDY STA_DRQ end) STA_BSY
              =? 0) = true) by (by destruct (ph v)). rewrite Hz.
    erewrite bindM_step by (unfold inb; cbn [hw with_hw]; rewrite cable_alt; reflexivity).
    unfold mret, M_ret. do 2 f_equal. by destruct v as [a m i t b [| |] p]; simpl in *; subst.
  - erewrite bindM_step by (unfold inb; rewrite Hc, cable_alt; reflexivity).
    unfold drive_status at 1. rewrite Hn. change (Z.land STA_BSY STA_BSY =? 0) with false. cbv iota.
    rewrite (IH (with_work n (ph v) (pending v) v) fuel); [done|done|lia|done].
Qed.

(** The drive finishes, the handler acknowledges it, the driver goes on. *)
Lemma await_ok dev v o ds c :
  pending v = true -> expecting_interrupt c = true -> completion_wait c = 0 ->
  hw c = cable dev v o ds ->
  await_completion c = Ok (tt, with_hw (cable dev (with_work 0 (ph v) false v) o ds) c).
Proof.
  intros Hp He Hw Hc. unfold await_completion.
  rewrite Hw, Hc, cable_selected, Hp, cable_put. cbn [Z.ltb Z.compare].
  unfold channel_interrupt. erewrite bindM_step by reflexivity.
  cbn [expecting_interrupt with_hw]. rewrite He.
  erewrite bindM_step by (unfold inb; cbn [hw with_hw]; rewrite cable_status; reflexivity).
  unfold modify. cbn [mbind res_bind completion_wait with_completion with_hw]. rewrite Hw.
  cbn. do 2 f_equal. destruct c; simpl in *; subst. done.
Qed.

(** ** Channels at rest *)

Record chan_ok (c : channel) : Prop := {
  cok_bus : bus_ok (hw c);
  cok_lock : lock_held c = false;
  cok_sema : completion_wait c = 0;
  cok_disk : forall dev, is_ata (device dev c) = true ->
    exists v, drive_of dev (hw c) = Some v /\ ata v = true /\
      0 <= capacity (device dev c) <= Z.min (Z.of_nat (length (media v))) (2 ^ 28);
}.

(** The content of sector [n] of a device. *)
Definition content (dev : bool) (c : channel) (n : Z) : sector :=
  match drive_of dev (hw c) with
  | Some v => default [] (media v !! Z.to_nat n)
  | None => []
  end.

(** The task file of both drives changes, nothing else. *)
Lemma aim_cable_ok dev n b v :
  bus_ok b -> drive_of dev b = Some v ->
  bus_ok (cable dev (aim dev n v) (aim dev n <$> drive_of (negb dev) b) (delays b)).
Proof.
  intros Hb Hv. split; [|destruct dev; apply (bok_delays b Hb)].
  intros dev' w. rewrite cable_drive_of. destruct (Bool.eqb dev' dev).
  - intros [= <-]. by apply drive_ok_tf, (bok_drives b Hb dev).
  - intros (w0 & Hw & ->)%fmap_Some. by apply drive_ok_tf, (bok_drives b Hb (negb dev)).
Qed.

(** What a call leaves behind: drive [v'] in the place of the one addressed,
    and a new record [d] for it. *)
Definition settled (dev : bool) (n : Z) (d : disk) (v' : drive) (ds : list nat) (c : channel) : channel :=
  set_device dev d
    (mk_channel (irq c) false true 0 (dev0 c) (dev1 c)
       (cable dev v' (aim dev n <$> drive_of (negb dev) (hw c)) ds)).

Section settled.
Context (dev : bool) (n : Z) (d : disk) (v' : drive) (ds : list nat) (c : channel).
Lemma settled_hw :
  hw (settled dev n d v' ds c) = cable dev v' (aim dev n <$> drive_of (negb dev) (hw c)) ds.
Proof. by destruct dev. Qed.

Lemma settled_device k :
  device k (settled dev n d v' ds c) = if Bool.eqb k dev then d else device k c.
Proof. by destruct dev, k. Qed.

Lemma settled_content k m :
  content k (settled dev n d v' ds c) m =
  if Bool.eqb k dev then default [] (media v' !! Z.to_nat m) else content k c m.
Proof.
  unfold content. rewrite settled_hw, cable_drive_of.
  destruct (Bool.eqb_spec k dev) as [->|Hne]; [done|].
  replace (negb dev) with k by (by destruct k, dev). by destruct (drive_of k (hw c)).
Qed.

Context (v : drive) (Hc : chan_ok c) (Hv : drive_of dev (hw c) = Some v).
Context (Hok : drive_ok v') (Hata : ata v' = ata v) (Hlen : length (media v') = length (media v)).
Context (Hds : Forall (fun k => (k < 3000)%nat) ds).
Context (Hd : is_ata d = is_ata (device dev c)) (Hcap : capacity d = capacity (device dev c)).

Lemma settled_ok : chan_ok (settled dev n d v' ds c).
Proof.
  split.
  - rewrite settled_hw. split; [|by destruct dev].
    intros k w. rewrite cable_drive_of. destruct (Bool.eqb k dev).
    + by intros [= <-].
    + intros (w0 & Hw & ->)%fmap_Some. by apply drive_ok_tf, (bok_drives _ (cok_bus c Hc) (negb dev)).
  - by destruct dev.
  - by destruct dev.
  - intros k. rewrite settled_device, settled_hw, cable_drive_of.
    destruct (Bool.eqb_spec k dev) as [->|Hne].
    + intros Hk. rewrite Hd in Hk. destruct (cok_disk c Hc dev Hk) as (w & Hw & Ha & Hl).
      assert (w = v) as -> by congruence. exists v'. rewrite Hata, Hlen, Hcap. done.
    + intros Hk. destruct (cok_disk c Hc k Hk) as (w & Hw & Ha & Hl).
      replace (negb dev) with k by (by destruct k, dev). rewrite Hw. by exists (aim dev n w).
Qed.

End settled.

(** ** Reading and writing a sector *)

Definition same_disks (c c' : channel) : Prop :=
  forall k, is_ata (device k c') = is_ata (device k c) /\
            capacity (device k c') = capacity (device k c).

Lemma delay_ok ds : Forall (fun k => (k < 3000)%nat) ds -> (delay_hd ds < 3000)%nat.
Proof. destruct 1; simpl; lia. Qed.

Lemma tail_ok (ds : list nat) (P : nat -> Prop) : Forall P ds -> Forall P (tail ds).
Proof. by destruct 1. Qed.
#[local] Hint Resolve tail_ok delay_ok : core.

Lemma acquire_ok c : lock_held c = false -> lock_acquire c = Ok (tt, with_lock true c).
Proof. intros H. unfold lock_acquire. erewrite bindM_step by reflexivity. by rewrite H. Qed.

Lemma addressed_command cmd dev n k v s :
  0 <= n < 2 ^ 28 -> media v !! Z.to_nat n = Some s -> ata v = true ->
  drive_command cmd k (aim dev n v) =
    if cmd =? CMD_READ_SECTOR_RETRY then with_work k (DataIn s) true (aim dev n v)
    else if cmd =? CMD_WRITE_SECTOR_RETRY then with_work k (DataOut n) false (aim dev n v)
    else if cmd =? CMD_IDENTIFY_DEVICE then with_work k (DataIn (ident v)) true (aim dev n v)
    else with_work k Ready true (aim dev n v).
Proof.
  intros Hn Hs Ha. unfold drive_command.
  assert (Hl : lba_of (tf (aim dev n v)) = n) by (by apply lba_roundtrip). rewrite Hl.
  change (media (aim dev n v)) with (media v). change (ata (aim dev n v)) with (ata v).
  by rewrite Hs, Ha.
Qed.

Lemma disk_read_ok dev n c :
  chan_ok c -> is_ata (device dev c) = true -> 0 <= n < capacity (device dev c) ->
  exists c', disk_read true dev n c = Ok (content dev c n, c') /\
    chan_ok c' /\ same_disks c c' /\ forall k m, content k c' m = content k c m.
Proof.
  intros Hc Ha Hn. destruct (cok_disk c Hc dev Ha) as (v & Hv & Hva & Hcap).
  destruct (lookup_lt_is_Some_2 (media v) (Z.to_nat n)) as [s Hs]; [lia|].
  pose proof (cok_bus c Hc) as Hb. pose proof (bok_delays _ Hb) as Hds.
  pose proof (bok_drives _ Hb dev v Hv) as Hvo.
  set (d' := let d := device dev c in mk_disk (is_ata d) (capacity d) (read_cnt d + 1) (write_cnt d)).
  exists (settled dev n d' (with_work 0 Ready false (aim dev n v)) (tail (delays (hw c))) c). split.
  - unfold disk_read. rewrite (bindM_step _ _ _ _ _ (acquire_ok c (cok_lock c Hc))).
    erewrite bindM_step by (apply (select_sector_ok dev n (with_lock true c) v); try done; lia).
    unfold issue_pio_command. erewrite bindM_step by reflexivity.
    cbn [hw with_lock with_hw with_expecting]. change (u8 CMD_READ_SECTOR_RETRY) with CMD_READ_SECTOR_RETRY.
    rewrite cable_cmd, (addressed_command _ dev n _ v s) by (done || lia).
    change (CMD_READ_SECTOR_RETRY =? CMD_READ_SECTOR_RETRY) with true. cbv iota.
    erewrite bindM_step by (eapply await_ok; [..|reflexivity]; try done; apply (cok_sema c Hc)).
    unfold wait_while_busy.
    erewrite bindM_step by (eapply busy_loop_wait; [reflexivity| |reflexivity]; simpl; lia).
    cbn [ph with_work negb].
    erewrite bindM_step by (unfold input_sector, insw; cbn [hw with_hw];
                            rewrite (cable_insw _ _ _ _ s) by done; reflexivity).
    erewrite bindM_step by reflexivity.
    unfold content. rewrite Hv, Hs. cbn [default].
    pose proof (cok_sema c Hc) as Hz. destruct c as [q l e z e0 e1 h]. simpl in Hz. subst z.
    by destruct dev.
  - rewrite idle_work by apply Hvo. split; [|split].
    + eapply settled_ok; try done. auto using drive_ok_tf.
    + intros k. rewrite settled_device. by destruct (Bool.eqb_spec k dev) as [->|].
    + intros k m. rewrite settled_content. destruct (Bool.eqb_spec k dev) as [->|]; [|done].
      unfold content. by rewrite Hv.
Qed.

Lemma disk_write_ok dev n b c :
  chan_ok c -> is_ata (device dev c) = true -> 0 <= n < capacity (device dev c) ->
  is_sector b = true ->
  exists c', disk_write true dev n b c = Ok (tt, c') /\
    chan_ok c' /\ same_disks c c' /\
    forall k m, 0 <= m -> content k c' m = if Bool.eqb k dev && (m =? n) then b else content k c m.
Proof.
  intros Hc Ha Hn Hbuf. destruct (cok_disk c Hc dev Ha) as (v & Hv & Hva & Hcap).
  destruct (lookup_lt_is_Some_2 (media v) (Z.to_nat n)) as [s Hs]; [lia|].
  pose proof (cok_bus c Hc) as Hb. pose proof (bok_delays _ Hb) as Hds.
  pose proof (bok_drives _ Hb dev v Hv) as Hvo.
  set (d' := let d := device dev c in mk_disk (is_ata d) (capacity d) (read_cnt d) (write_cnt d + 1)).
  set (v' := with_media (<[Z.to_nat n := b]> (media v)) (with_work 0 Ready false (aim dev n v))).
  exists (settled dev n d' v' (tail (tail (delays (hw c)))) c). split.
  - unfold disk_write. rewrite (bindM_step _ _ _ _ _ (acquire_ok c (cok_lock c Hc))).
    erewrite bindM_step by (apply (select_sector_ok dev n (with_lock true c) v); try done; lia).
    unfold issue_pio_command. erewrite bindM_step by reflexivity.
    cbn [hw with_lock with_hw with_expecting]. change (u8 CMD_WRITE_SECTOR_RETRY) with CMD_WRITE_SECTOR_RETRY.
    rewrite cable_cmd, (addressed_command _ dev n _ v s) by (done || lia).
    change (CMD_WRITE_SECTOR_RETRY =? CMD_READ_SECTOR_RETRY) with false.
    change (CMD_WRITE_SECTOR_RETRY =? CMD_WRITE_SECTOR_RETRY) with true. cbv iota.
    unfold wait_while_busy.
    erewrite bindM_step by (eapply busy_loop_wait; [reflexivity| |reflexivity]; by apply delay_ok).
    cbn [ph with_work negb].
    erewrite bindM_step by (unfold output_sector, outsw, modify; cbn [hw with_hw];
                            rewrite (cable_outsw _ _ _ _ _ n) by done; reflexivity).
    erewrite bindM_step by (eapply await_ok; [..|reflexivity]; try done; apply (cok_sema c Hc)).
    erewrite bindM_step by reflexivity.
    pose proof (cok_sema c Hc) as Hz. subst v' d'. destruct c as [q l e z e0 e1 h]. simpl in Hz. subst z.
    by destruct dev.
  - subst v'. rewrite idle_work by apply Hvo. split; [|split].
    + eapply settled_ok; try done; [|by rewrite <- (length_insert (media v) (Z.to_nat n) b)|by do 2 apply tail_ok].
      destruct Hvo as [Hi Hm]. split; [done|]. by apply Forall_insert.
    + intros k. rewrite settled_device. by destruct (Bool.eqb_spec k dev) as [->|].
    + intros k m Hm. rewrite settled_content. destruct (Bool.eqb_spec k dev) as [->|]; [|done].
      cbn [media with_media andb]. unfold content. rewrite Hv. destruct (Z.eqb_spec m n) as [->|Hne].
      * rewrite list_lookup_insert_eq by lia. done.
      * by rewrite list_lookup_insert_ne by lia.
Qed.

(** A sector outside the disk stops the kernel before any register is touched. *)
Lemma select_sector_range dev n c :
  capacity (device dev c) <= n -> select_sector dev n c = Fail AssertFailed.
Proof.
  intros H. unfold select_sector. erewrite bindM_step by reflexivity.
  by rewrite (proj2 (Z.ltb_ge _ _) H).
Qed.

Lemma disk_read_range i dev n c :
  chan_ok c -> capacity (device dev c) <= n -> disk_read i dev n c = Fail AssertFailed.
Proof.
  intros Hc Hn. unfold disk_read. rewrite (bindM_step _ _ _ _ _ (acquire_ok c (cok_lock c Hc))).
  unfold mbind, M_bind at 1. by rewrite (select_sector_range dev n (with_lock true c)) by (by destruct dev).
Qed.

Lemma disk_write_range i dev n b c :
  chan_ok c -> capacity (device dev c) <= n -> disk_write i dev n b c = Fail AssertFailed.
Proof.
  intros Hc Hn. unfold disk_write. rewrite (bindM_step _ _ _ _ _ (acquire_ok c (cok_lock c Hc))).
  unfold mbind, M_bind at 1. by rewrite (select_sector_range dev n (with_lock true c)) by (by destruct dev).
Qed.

Lemma content_ok dev c n :
  chan_ok c -> is_ata (device dev c) = true -> 0 <= n < capacity (device dev c) ->
  is_sector (content dev c n) = true.
Proof.
  intros Hc Ha Hn. destruct (cok_disk c Hc dev Ha) as (v & Hv & _ & Hcap).
  destruct (bok_drives _ (cok_bus c Hc) dev v Hv) as [_ Hm].
  destruct (lookup_lt_is_Some_2 (media v) (Z.to_nat n)) as [s Hs]; [lia|].
  unfold content. rewrite Hv, Hs. simpl. by apply (Forall_lookup_1 _ _ _ _ Hm Hs).
Qed.

(** ** The driver as a block device

    Disk [dev] of channel [k], as the file system (hd0:1) and the swap area
    (hd1:1) use it. *)

Section device.
Context (k : nat) (dev : bool).

Definition ata_device : BlockDevice channels := {|
  bd_ok cs := exists c, cs !! k = Some c /\ chan_ok c /\ is_ata (device dev c) = true;
  bd_size cs := match cs !! k with Some c => capacity (device dev c) | None => 0 end;
  bd_content cs n := match cs !! k with Some c => content dev c n | None => [] end;
  bd_read n := on_channel k (disk_read true dev n);
  bd_write n b := on_channel k (disk_write true dev n b);
|}.

Lemma on_channel_ok {A} (m : M channel A) cs c a c' :
  cs !! k = Some c -> m c = Ok (a, c') -> on_channel k m cs = Ok (a, <[k := c']> cs).
Proof. unfold on_channel. intros -> H. simpl. by rewrite H. Qed.

Lemma on_channel_put (cs : channels) c c' : cs !! k = Some c -> <[k := c']> cs !! k = Some c'.
Proof. intros H. apply list_lookup_insert_eq. by eapply lookup_lt_Some. Qed.

Lemma ata_device_laws : @BlockDeviceLaws channels ata_device.
Proof.
  split; cbn [bd_ok bd_size bd_content bd_read bd_write ata_device].
  - intros cs n (c & Hk & Hc & Ha). rewrite Hk. intros Hn.
    destruct (disk_read_ok dev n c Hc Ha Hn) as (c' & Hr & Hc' & Hs & Hcon).
    exists (<[k := c']> cs). rewrite (on_channel_ok _ cs c _ c' Hk Hr), (on_channel_put cs c c' Hk).
    destruct (Hs dev) as [H1 H2]. split; [done|]. split; [|done].
    exists c'. by rewrite H1.
  - intros cs n b (c & Hk & Hc & Ha). rewrite Hk. intros Hn Hb.
    destruct (disk_write_ok dev n b c Hc Ha Hn Hb) as (c' & Hr & Hc' & Hs & Hcon).
    exists (<[k := c']> cs). rewrite (on_channel_ok _ cs c _ c' Hk Hr), (on_channel_put cs c c' Hk).
    destruct (Hs dev) as [H1 H2]. split; [done|]. split; [exists c'; by rewrite H1|]. split; [done|].
    intros m Hm. rewrite Hcon by done. by rewrite Bool.eqb_reflx.
  - intros cs n (c & Hk & Hc & Ha). rewrite Hk. intros _ Hn. unfold on_channel. rewrite Hk.
    by rewrite disk_read_range.
  - intros cs n b (c & Hk & Hc & Ha). rewrite Hk. intros _ Hn. unfold on_channel. rewrite Hk.
    by rewrite disk_write_range.
  - intros cs n (c & Hk & Hc & Ha). rewrite Hk. intros Hn. by apply content_ok.
Qed.
End device.

(** ** The disk is an array of sectors *)

Inductive disk_op : Type :=
  | DRead (dev : bool) (n : Z)
  | DWrite (dev : bool) (n : Z) (b : sector).

Definition disk_op_ok (c : channel) (o : disk_op) : bool :=
  match o with
  | DRead dev n => is_ata (device dev c) && (0 <=? n) && (n <? capacity (device dev c))
  | DWrite dev n b => is_ata (device dev c) && (0 <=? n) && (n <? capacity (device dev c)) && is_sector b
  end.

(** The calls of the driver in sequence, with the sectors read. *)
Fixpoint disk_run (os : list disk_op) : M channel (list sector) :=
  match os with
  | [] => mret []
  | DRead dev n :: os => s ← disk_read true dev n; ss ← disk_run os; mret (s :: ss)
  | DWrite dev n b :: os => disk_write true dev n b ;; disk_run os
  end.

(** The same calls on two arrays. *)
Fixpoint array_run (os : list disk_op) (a : bool -> Z -> sector) : list sector * (bool -> Z -> sector) :=
  match os with
  | [] => ([], a)
  | DRead dev n :: os => let '(ss, a') := array_run os a in (a dev n :: ss, a')
  | DWrite dev n b :: os =>
      array_run os (fun k m => if Bool.eqb k dev && (m =? n) then b else a k m)
  end.

Lemma disk_op_ok_same c c' o : same_disks c c' -> disk_op_ok c' o = disk_op_ok c o.
Proof. intros H. by destruct o as [dev n|dev n b]; simpl; destruct (H dev) as [-> ->]. Qed.

Lemma same_disks_trans c1 c2 c3 : same_disks c1 c2 -> same_disks c2 c3 -> same_disks c1 c3.
Proof. intros H1 H2 k. destruct (H1 k), (H2 k). split; congruence. Qed.
#[local] Hint Resolve same_disks_trans : core.

Lemma all_ops_same c c' os :
  same_disks c c' -> forallb (disk_op_ok c') os = forallb (disk_op_ok c) os.
Proof. intros H. induction os as [|o os IH]; simpl; [done|]. by rewrite IH, (disk_op_ok_same c c'). Qed.

(** C8. Whatever the drives' response times (below the driver's timeouts),
    every sequence of sector reads and writes on the two disks of a channel
    completes and returns what the same accesses to two arrays of sectors
    return: the address reaches the drive, the interrupt the waiting driver,
    and a write changes the sector named on the disk named and nothing else. *)
Theorem disk_refines_array os c a :
  chan_ok c -> forallb (disk_op_ok c) os = true ->
  (forall k m, 0 <= m -> content k c m = a k m) ->
  exists c', disk_run os c = Ok (fst (array_run os a), c') /\ chan_ok c' /\ same_disks c c' /\
    forall k m, 0 <= m -> content k c' m = snd (array_run os a) k m.
Proof.
  revert c a. induction os as [|o os IH]; intros c a Hc Hos Hcon; simpl in *.
  { exists c. split; [done|]. split; [done|]. split; [by intros k|done]. }
  apply andb_prop in Hos as [Ho Hos]. destruct o as [dev n|dev n b]; simpl in Ho.
  - apply andb_prop in Ho as [[Ha ?%Z.leb_le]%andb_prop ?%Z.ltb_lt].
    destruct (disk_read_ok dev n c Hc Ha) as (c1 & Hr & Hc1 & Hs1 & Hcon1); [done|].
    destruct (IH c1 a Hc1) as (c' & Hrun & Hc' & Hs' & Hcon').
    { by rewrite (all_ops_same c c1). }
    { intros k m Hm. by rewrite Hcon1, Hcon. }
    exists c'. rewrite (bindM_step _ _ _ _ _ Hr), (bindM_step _ _ _ _ _ Hrun), Hcon by done.
    destruct (array_run os a). eauto.
  - repeat (apply andb_prop in Ho as [Ho ?]). rewrite Z.leb_le, Z.ltb_lt in *.
    destruct (disk_write_ok dev n b c Hc Ho) as (c1 & Hr & Hc1 & Hs1 & Hcon1); [done..|].
    destruct (IH c1 (fun k m => if Bool.eqb k dev && (m =? n) then b else a k m) Hc1)
      as (c' & Hrun & Hc' & Hs' & Hcon').
    { by rewrite (all_ops_same c c1). }
    { intros k m Hm. rewrite Hcon1 by done. by rewrite Hcon. }
    exists c'. rewrite (bindM_step _ _ _ _ _ Hr). eauto.
Qed.

(** A channel with two small disks and slow drives. *)
Definition demo_drive (n : nat) (x : Z) : drive :=
  mk_drive true (replicate n (replicate 512 x)) (replicate 512 0) (mk_taskfile 1 1 1 0 0 0) 0 Ready false.
Definition demo_channel : channel :=
  mk_channel 46 false false 0 (mk_disk true 3 0 0) (mk_disk true 2 0 0)
    (mk_bus false (Some (demo_drive 3 7)) (Some (demo_drive 2 9)) [5; 0; 40; 2]%nat).
Definition demo_disk_ops : list disk_op :=
  [DWrite true 1 (replicate 512 1); DRead true 1; DRead false 1; DWrite true 1 (replicate 512 2);
   DRead true 1; DRead true 0].

Lemma demo_channel_ok : chan_ok demo_channel.
Proof.
  split; try done.
  - split; [|repeat (apply Forall_cons_2; [lia|]); apply Forall_nil_2].
    intros [] v [= <-]; split; try done; by repeat constructor.
  - intros [] _; eexists; (split; [reflexivity|]); split; try done; simpl; lia.
Qed.

Lemma disk_refines_array_witness :
  exists c', disk_run demo_disk_ops demo_channel =
    Ok ([replicate 512 1; replicate 512 7; replicate 512 2; replicate 512 9], c') /\ chan_ok c'.
Proof.
  destruct (disk_refines_array demo_disk_ops demo_channel (fun k m => content k demo_channel m))
    as (c' & H & Hok & _ & _).
  - apply demo_channel_ok.
  - vm_compute. reflexivity.
  - done.
  - exists c'. split; [|done]. rewrite H. f_equal.
Defined.
