(* ===== verification/DiskInit.v ===== *)
(** * Detecting the disks: [disk_init] of devices/disk.c

    The reset sequence, the presence test, the device signatures and the
    IDENTIFY command: initialising a channel finishes, recognises exactly the
    ATA disks and leaves the channel in the state the driver's theorems of
    [Disk] start from. *)

From S2P Require Import Prelude Disk.

(** ** Detection

    The drives after a reset: at rest or [k] polls from it, showing their
    signature, the device register holding [x]. *)

Definition sig_drive (x : Z) (k : nat) (v : drive) : drive :=
  with_tf (latch reg_device x (signature v)) (with_work k Ready false v).

Definition sig_bus (s : bool) (x : Z) (k j : nat) (m l : option drive) (ds : list nat) : bus :=
  mk_bus s (sig_drive x k <$> m) (sig_drive x j <$> l) ds.

Definition device_select (dev : bool) : Z := if dev then 0xb0 else 0xa0.

Lemma select_device_sig dev s x k j m l ds c :
  hw c = sig_bus s x k j m l ds ->
  select_device dev c =
    Ok (tt, with_hw (sig_bus dev (device_select dev) (if dev then k else pred k)
                       (if dev then pred j else j) m l ds) c).
Proof.
  intros Hc. destruct c as [q lk e z e0 e1 h]. cbn in Hc. subst h. by destruct dev, m, l.
Qed.

(** [wait_while_busy] leaves the selected drive at rest. *)
Lemma wait_while_busy_sig (dev : bool) x k j m l ds c :
  hw c = sig_bus dev x k j m l ds -> is_Some (if dev then l else m) ->
  ((if dev then j else k) < 3000)%nat ->
  wait_while_busy c =
    Ok (false, with_hw (sig_bus dev x (if dev then k else 0%nat) (if dev then 0%nat else j) m l ds) c).
Proof.
  intros Hc [v Hv] Hlt. unfold wait_while_busy.
  rewrite (busy_loop_wait dev (sig_drive x (if dev then j else k) v)
             (if dev then sig_drive x k <$> m else sig_drive x j <$> l) ds (if dev then j else k));
    [|done|done|by rewrite Hc; destruct dev; subst].
  by destruct dev; subst.
Qed.

(** The master answers for a missing slave: never busy, no data. *)
Lemma wait_while_busy_absent x k j m0 ds c :
  hw c = sig_bus true x k j (Some m0) None ds -> wait_while_busy c = Ok (false, c).
Proof.
  intros Hc. destruct c as [q lk e z e0 e1 h]. cbn in Hc. subst h. done.
Qed.

Lemma slave_loop_sig x k j m l ds c n :
  hw c = sig_bus true x k j m l ds -> is_Some m \/ is_Some l -> slave_loop (S n) c = Ok (tt, c).
Proof.
  intros Hc Hml. destruct c as [q lk e z e0 e1 h]. cbn in Hc. subst h.
  destruct l as [l0|]; [|destruct m as [m0|]; [|by destruct Hml as [[??]|[??]]]];
    cbn [slave_loop]; unfold inb, signature;
    [destruct l0 as [[] ? ? ? ? ? ?]|destruct m0 as [[] ? ? ? ? ? ?]]; done.
Qed.

(** The presence test: an answer for device 0 when it exists, for device 1
    when either does; only the task files change. *)
Definition probed (dev : bool) (v : drive) : drive :=
  with_tf (latch reg_lbal 0xaa (latch reg_nsect 0x55 (latch reg_lbal 0x55 (latch reg_nsect 0xaa
    (latch reg_lbal 0xaa (latch reg_nsect 0x55 (latch reg_device (device_select dev) (tf v)))))))) v.

Definition answers (dev : bool) (m l : option drive) : bool :=
  bool_decide (is_Some m) || (dev && bool_decide (is_Some l)).

Lemma present_check_ok dev c m l s ds :
  hw c = mk_bus s m l ds -> bus_ok (hw c) ->
  present_check dev c =
    Ok (answers dev m l, with_hw (mk_bus dev (probed dev <$> m) (probed dev <$> l) ds) c).
Proof.
  intros Hc Hb. unfold present_check.
  rewrite (bindM_step _ _ _ _ _ (select_device_idle dev c Hb)), !outb_step.
  cbn [hw with_hw]. rewrite Hc, !latch_bus by done.
  destruct c as [q lk e z e0 e1 h]. by destruct dev, m, l.
Qed.

Lemma reset_probed n v : reset_drive n (probed true (probed false v)) = sig_drive 0 n v.
Proof. destruct v as [[] ? ? ? ? ? ?]; done. Qed.

Lemma probed_bus_ok s m l ds :
  bus_ok (mk_bus s m l ds) -> bus_ok (mk_bus false (probed false <$> m) (probed false <$> l) ds).
Proof.
  intros Hb. split; [|apply (bok_delays _ Hb)].
  intros [] v; simpl; intros (v0 & Hv & ->)%fmap_Some; apply drive_ok_tf.
  - by apply (bok_drives _ Hb true).
  - by apply (bok_drives _ Hb false).
Qed.

Lemma reset_probed_fmap n (m : option drive) :
  reset_drive n <$> (probed true <$> (probed false <$> m)) = sig_drive 0 n <$> m.
Proof. destruct m as [v|]; [|done]. exact (f_equal Some (reset_probed n v)). Qed.

Lemma srst_bus s m l ds :
  bus_out reg_ctl (u8 0) (bus_out reg_ctl (u8 CTL_SRST) (bus_out reg_ctl (u8 0)
    (mk_bus s (probed true <$> (probed false <$> m)) (probed true <$> (probed false <$> l)) ds))) =
  sig_bus false 0 (delay_hd ds) (delay_hd ds) m l (tail ds).
Proof. unfold sig_bus. by rewrite <- !reset_probed_fmap. Qed.

Lemma settle_master c m l n ds :
  hw c = sig_bus false 0 n n m l ds -> (n < 3000)%nat ->
  exists x, (if answers false m l then select_device false ;; wait_while_busy ;; mret tt else mret tt) c =
    Ok (tt, with_hw (sig_bus false x 0 n m l ds) c).
Proof.
  intros Hc Hn. unfold answers. destruct m as [m0|]; simpl.
  - eexists. erewrite bindM_step by (eapply select_device_sig; exact Hc).
    erewrite bindM_step by (apply wait_while_busy_sig; [reflexivity|by eexists|simpl; lia]).
    reflexivity.
  - exists 0. unfold mret, M_ret. do 2 f_equal. rewrite <- (with_hw_same c) at 1. by rewrite Hc.
Qed.

Lemma settle_slave c m l n x ds :
  hw c = sig_bus false x 0 n m l ds -> (n < 3000)%nat ->
  exists s' y, (if answers true m l
                then select_device true ;; slave_loop 3000 ;; wait_while_busy ;; mret tt else mret tt) c =
    Ok (tt, with_hw (sig_bus s' y 0 0 m l ds) c).
Proof.
  intros Hc Hn. unfold answers. destruct (decide (is_Some m \/ is_Some l)) as [Hml|Hml].
  - replace (_ || _) with true by (by destruct m, l, Hml as [[??]|[??]]).
    assert (Hs := select_device_sig true _ _ _ _ _ _ _ _ Hc). rewrite (bindM_step _ _ _ _ _ Hs). cbv iota.
    change 3000%nat with (S 2999).
    erewrite bindM_step by (eapply slave_loop_sig; [reflexivity|done]).
    destruct l as [l0|].
    + eexists _, _.
      erewrite bindM_step by (apply wait_while_busy_sig; [reflexivity|by eexists|simpl; lia]).
      reflexivity.
    + destruct m as [m0|]; [|by destruct Hml as [[??]|[??]]]. eexists _, _.
      erewrite bindM_step by (eapply wait_while_busy_absent; reflexivity). reflexivity.
  - destruct m as [m0|]; [by destruct Hml; left|]. destruct l as [l0|]; [by destruct Hml; right|].
    exists false, x. cbn [is_Some_dec bool_decide decide orb andb]. unfold mret, M_ret. do 2 f_equal. rewrite <- (with_hw_same c) at 1. by rewrite Hc.
Qed.

(** A reset of the channel ends with every drive at rest. *)
Lemma reset_channel_ok c m l s ds :
  hw c = mk_bus s m l ds -> bus_ok (hw c) ->
  exists s' x, reset_channel c = Ok (tt, with_hw (sig_bus s' x 0 0 m l (tail ds)) c).
Proof.
  intros Hc Hb. pose proof (delay_ok _ (bok_delays _ Hb)) as Hd. rewrite Hc in Hd. simpl in Hd.
  unfold reset_channel.
  rewrite (bindM_step _ _ _ _ _ (present_check_ok false c m l s ds Hc Hb)).
  assert (Hb1 : bus_ok (mk_bus false (probed false <$> m) (probed false <$> l) ds)).
  { rewrite Hc in Hb. by apply probed_bus_ok in Hb. }
  erewrite bindM_step by (eapply (present_check_ok true); [reflexivity|exact Hb1]).
  rewrite !outb_step. cbn [hw with_hw]. rewrite srst_bus.
  replace (answers true (probed false <$> m) (probed false <$> l)) with (answers true m l)
    by (by destruct m, l).
  set (c1 := with_hw _ _). assert (Hc1 : hw c1 = sig_bus false 0 (delay_hd ds) (delay_hd ds) m l (tail ds)) by done.
  destruct (settle_master c1 m l _ _ Hc1 Hd) as [x Hx]. rewrite (bindM_step _ _ _ _ _ Hx).
  edestruct (settle_slave (with_hw (sig_bus false x 0 (delay_hd ds) m l (tail ds)) c1) m l)
    as (s' & y & Hy); [reflexivity|done|]. exists s', y. by rewrite Hy.
Qed.

(** ** Identification *)

Definition kind_of (dev : bool) (b : bus) : bool :=
  match drive_of dev b with Some v => ata v | None => false end.

Lemma set_ata_set dev a c :
  set_ata dev a c = Ok (tt, set_device dev (let d := device dev c in
    mk_disk a (capacity d) (read_cnt d) (write_cnt d)) c).
Proof. done. Qed.

Lemma check_device_type_ok dev s x m l ds c :
  hw c = sig_bus s x 0 0 m l ds ->
  check_device_type dev c =
    Ok (true, set_device dev (let d := device dev c in
                mk_disk (match (if dev then l else m) with Some v => ata v | None => false end)
                  (capacity d) (read_cnt d) (write_cnt d))
              (with_hw (sig_bus dev (device_select dev) 0 0 m l ds) c)).
Proof.
  intros Hc. unfold check_device_type.
  rewrite (bindM_step _ _ _ _ _ (select_device_sig dev _ _ _ _ _ _ _ _ Hc)).
  destruct c as [q lk e z e0 e1 h]. cbn in Hc. subst h.
  destruct m as [[[] ? ? ? ? ? ?]|], l as [[[] ? ? ? ? ? ?]|], dev; done.
Qed.

(** Two drives that differ in their registers only. *)
Definition same_drive (o o' : option drive) : Prop :=
  match o, o' with
  | Some v, Some v' => ata v' = ata v /\ media v' = media v /\ ident v' = ident v
  | None, None => True
  | _, _ => False
  end.

Lemma same_drive_refl o : same_drive o o.
Proof. by destruct o. Qed.

Lemma same_drive_trans o1 o2 o3 : same_drive o1 o2 -> same_drive o2 o3 -> same_drive o1 o3.
Proof. destruct o1, o2, o3; simpl; intuition congruence. Qed.

Lemma sig_drives_same (k : bool) s x i j m l ds :
  same_drive (if k then l else m) (drive_of k (sig_bus s x i j m l ds)).
Proof. by destruct k, m, l. Qed.

Lemma sig_bus_ok s x s0 m l ds :
  bus_ok (mk_bus s0 m l ds) -> bus_ok (sig_bus s x 0 0 m l (tail ds)).
Proof.
  intros Hb. split; [|apply tail_ok, (bok_delays _ Hb)].
  intros k v Hv. split; [by destruct k; simpl in Hv; apply fmap_Some in Hv as (v0 & Hv0 & ->)|].
  destruct k; simpl in Hv; apply fmap_Some in Hv as (v0 & Hv0 & ->).
  - exact (proj2 (bok_drives _ Hb true v0 Hv0)).
  - exact (proj2 (bok_drives _ Hb false v0 Hv0)).
Qed.

Definition ident_capacity (id : sector) : Z := Z.lor (id_word id 60) (Z.shiftl (id_word id 61) 16).

Lemma select_cable dev b v :
  drive_of dev b = Some v ->
  bus_out reg_device (device_select dev) b =
  let f d := with_tf (latch reg_device (device_select dev) (tf d)) d in
  cable dev (f v) (f <$> drive_of (negb dev) b) (delays b).
Proof.
  destruct b as [s m l ds]. intros Hv. rewrite latch_bus by done.
  by destruct dev; cbn in Hv |- *; subst.
Qed.

Lemma identify_ok dev c v :
  bus_ok (hw c) -> completion_wait c = 0 -> drive_of dev (hw c) = Some v -> ata v = true ->
  is_ata (device dev c) = true ->
  exists c', identify_ata_device true dev c = Ok (tt, c') /\ bus_ok (hw c') /\
    completion_wait c' = 0 /\ lock_held c' = lock_held c /\
    (forall k, same_drive (drive_of k (hw c)) (drive_of k (hw c'))) /\
    device (negb dev) c' = device (negb dev) c /\
    is_ata (device dev c') = true /\ capacity (device dev c') = ident_capacity (ident v).
Proof.
  intros Hb Hz Hv Ha Hd. unfold identify_ata_device.
  erewrite bindM_step by reflexivity. rewrite bindM_assert by done.
  rewrite (bindM_step _ _ _ _ _ (select_device_wait_idle dev c Hb)).
  change (if dev then 0xb0 else 0xa0) with (device_select dev). rewrite (select_cable dev _ v Hv).
  cbv zeta beta.
  set (w := with_tf (latch reg_device (device_select dev) (tf v)) v).
  set (o := fmap (fun d => with_tf (latch reg_device (device_select dev) (tf d)) d)
              (drive_of (negb dev) (hw c))).
  assert (Hcmd : drive_command CMD_IDENTIFY_DEVICE (delay_hd (delays (hw c))) w =
    with_work (delay_hd (delays (hw c))) (DataIn (ident v)) true w).
  { unfold drive_command. change (ata w) with (ata v). by rewrite Ha. }
  unfold issue_pio_command. erewrite bindM_step by reflexivity.
  cbn [hw with_hw with_expecting]. change (u8 CMD_IDENTIFY_DEVICE) with CMD_IDENTIFY_DEVICE.
  rewrite cable_cmd, Hcmd.
  erewrite bindM_step by (eapply await_ok; [..|reflexivity]; done).
  unfold wait_while_busy.
  erewrite bindM_step by (eapply busy_loop_wait; [reflexivity| |reflexivity]; simpl; lia).
  cbn [ph with_work negb].
  erewrite bindM_step by (unfold input_sector, insw; cbn [hw with_hw];
                          rewrite (cable_insw _ _ _ _ (ident v)) by done; reflexivity).
  eexists. split; [reflexivity|].
  pose proof (bok_drives _ Hb dev v Hv) as Hvo. pose proof (tail_ok _ _ (bok_delays _ Hb)) as Hds.
  split; [split|].
  - intros k u. replace (hw _) with (cable dev (with_work 0 Ready false w) o (tail (delays (hw c))))
      by (by destruct dev). rewrite cable_drive_of. destruct (Bool.eqb k dev).
    + intros [= <-]. rewrite idle_work by apply Hvo. by apply drive_ok_tf.
    + intros (u0 & Hu & ->)%fmap_Some. by apply drive_ok_tf, (bok_drives _ Hb (negb dev)).
  - by destruct dev.
  - split; [by destruct dev|]. split; [by destruct dev|]. split; [|by destruct dev].
    intros k. subst w o. destruct dev, k; simpl in Hv |- *; rewrite ?Hv; simpl; try done;
      by destruct (hw c) as [? [] [] ?].
Qed.

(** The drive says the truth about its size, which fits in an LBA. *)
Definition honest (v : drive) : Prop :=
  ata v = true -> ident_capacity (ident v) = Z.of_nat (length (media v)) /\ Z.of_nat (length (media v)) <= 2 ^ 28.

(** Identifying a device that was detected, or leaving alone one that was not. *)
Lemma identify_step dev c :
  bus_ok (hw c) -> completion_wait c = 0 ->
  is_ata (device dev c) = kind_of dev (hw c) ->
  (forall v, drive_of dev (hw c) = Some v -> honest v) ->
  exists c', (if is_ata (device dev c) then identify_ata_device true dev else mret tt) c = Ok (tt, c') /\
    bus_ok (hw c') /\ completion_wait c' = 0 /\ lock_held c' = lock_held c /\
    (forall k, same_drive (drive_of k (hw c)) (drive_of k (hw c'))) /\
    device (negb dev) c' = device (negb dev) c /\
    is_ata (device dev c') = is_ata (device dev c) /\
    (forall v, is_ata (device dev c) = true -> drive_of dev (hw c) = Some v ->
       capacity (device dev c') = Z.of_nat (length (media v))).
Proof.
  intros Hb Hz Hk Hh. destruct (is_ata (device dev c)) eqn:Ha.
  - unfold kind_of in Hk. destruct (drive_of dev (hw c)) as [v|] eqn:Hv; [|done].
    destruct (identify_ok dev c v) as (c' & H1 & H2 & H3 & H4 & H5 & H6 & H7 & H8); try done.
    exists c'. do 6 (split; [done|]). split; [by rewrite H7|].
    intros v' _ [= <-]. rewrite H8. by apply Hh.
  - exists c. do 4 (split; [done|]). split; [|done]. intros k. apply same_drive_refl.
Qed.

Lemma kind_same k b b' : same_drive (drive_of k b) (drive_of k b') -> kind_of k b' = kind_of k b.
Proof. unfold kind_of. destruct (drive_of k b), (drive_of k b'); simpl; naive_solver. Qed.

Lemma honest_same k b b' :
  same_drive (drive_of k b) (drive_of k b') ->
  (forall v, drive_of k b = Some v -> honest v) -> forall v, drive_of k b' = Some v -> honest v.
Proof.
  intros Hs Hh v Hv. rewrite Hv in Hs. destruct (drive_of k b) as [w|]; [|done].
  destruct Hs as (H1 & H2 & H3). unfold honest. rewrite H1, H2, H3. by apply Hh.
Qed.

(** What detection promises about channel [c'], given the bus [b] before it. *)
Definition detected (b : bus) (c' : channel) : Prop :=
  (forall k, same_drive (drive_of k b) (drive_of k (hw c'))) /\
  (forall k, is_ata (device k c') = kind_of k b) /\
  (forall k v, drive_of k b = Some v -> ata v = true ->
     capacity (device k c') = Z.of_nat (length (media v))).

(** The second half of [channel_init]. *)
Lemma identify_both c :
  bus_ok (hw c) -> completion_wait c = 0 -> lock_held c = false ->
  (forall k, is_ata (device k c) = kind_of k (hw c)) ->
  (forall k v, drive_of k (hw c) = Some v -> honest v) ->
  exists c', (a0 ← gets (fun c => is_ata (dev0 c));
              (if (a0 : bool) then identify_ata_device true false else mret tt) ;;
              a1 ← gets (fun c => is_ata (dev1 c));
              (if (a1 : bool) then identify_ata_device true true else mret tt)) c = Ok (tt, c') /\
    bus_ok (hw c') /\ completion_wait c' = 0 /\ lock_held c' = false /\ detected (hw c) c'.
Proof.
  intros Hb Hz Hl Hk Hh. erewrite bindM_step by reflexivity.
  destruct (identify_step false c Hb Hz (Hk false) (Hh false))
    as (c2 & H2 & Hb2 & Hz2 & Hl2 & Hs2 & Hd2 & Ha2 & Hcap2). cbn [negb] in Hd2.
  change (is_ata (dev0 c)) with (is_ata (device false c)). rewrite (bindM_step _ _ _ _ _ H2).
  erewrite bindM_step by reflexivity.
  assert (Hk2 : is_ata (device true c2) = kind_of true (hw c2)).
  { by rewrite Hd2, Hk, (kind_same _ _ _ (Hs2 true)). }
  destruct (identify_step true c2 Hb2 Hz2 Hk2) as (c3 & H3 & Hb3 & Hz3 & Hl3 & Hs3 & Hd3 & Ha3 & Hcap3).
  { eapply honest_same; [apply Hs2|apply Hh]. }
  change (is_ata (dev1 c2)) with (is_ata (device true c2)). cbn [negb] in Hd3.
  exists c3. do 3 (split; [done|]). split; [congruence|]. split; [|split].
  - intros k. eapply same_drive_trans; [apply Hs2|apply Hs3].
  - intros []; [by rewrite Ha3, Hd2, Hk|by rewrite Hd3, Ha2, Hk].
  - intros k v Hv Ha. assert (Hkind : kind_of k (hw c) = true) by (unfold kind_of; by rewrite Hv).
    destruct k.
    + pose proof (Hs2 true) as Hs. rewrite Hv in Hs.
      destruct (drive_of true (hw c2)) as [w|] eqn:Hw; [|done]. destruct Hs as (_ & Hm & _).
      rewrite <- Hm. apply Hcap3; [by rewrite Hd2, Hk|done].
    + rewrite Hd3. apply Hcap2; [by rewrite Hk|done].
Qed.

Lemma detected_ok b c' :
  bus_ok (hw c') -> completion_wait c' = 0 -> lock_held c' = false -> detected b c' ->
  (forall k v, drive_of k b = Some v -> honest v) -> chan_ok c'.
Proof.
  intros Hb Hz Hl (Hs & Hk & Hcap) Hh. split; try done. intros k Ha. rewrite Hk in Ha.
  unfold kind_of in Ha. destruct (drive_of k b) as [v|] eqn:Hv; [|done].
  specialize (Hs k). rewrite Hv in Hs. destruct (drive_of k (hw c')) as [w|]; [|done].
  destruct Hs as (H1 & H2 & H3). exists w. split; [done|]. split; [by rewrite H1|].
  rewrite (Hcap k v Hv Ha), H2. pose proof (Hh k v Hv Ha). lia.
Qed.

(** Initialising a channel always finishes, whatever is attached to it:
    nothing, a master, a slave or both, ATA disks or other devices, each
    taking any time below the timeouts to answer.  Afterwards exactly the ATA
    disks are marked as such, each with its true capacity, the channel is
    ready for [disk_read] and [disk_write], and no sector has changed. *)
Theorem channel_init_detects chan_no c :
  bus_ok (hw c) ->
  (forall k v, drive_of k (hw c) = Some v -> honest v) ->
  exists c', channel_init true chan_no c = Ok (tt, c') /\ chan_ok c' /\
    forall k, is_ata (device k c') = kind_of k (hw c) /\
      (forall m, content k c' m = content k c m) /\
      forall v, drive_of k (hw c) = Some v -> ata v = true ->
        capacity (device k c') = Z.of_nat (length (media v)).
Proof.
  intros Hb Hh. destruct (hw c) as [s m l ds] eqn:Hhw. unfold channel_init.
  erewrite bindM_step by reflexivity. set (c0 := mk_channel _ _ _ _ _ _ _).
  assert (Hc0 : hw c0 = mk_bus s m l ds) by done.
  destruct (reset_channel_ok c0 m l s ds Hc0) as (s1 & x1 & H1); [by rewrite Hc0|].
  rewrite (bindM_step _ _ _ _ _ H1).
  erewrite bindM_step by (eapply check_device_type_ok; reflexivity). cbv iota.
  erewrite bindM_step by (erewrite bindM_step by (eapply check_device_type_ok; reflexivity); reflexivity).
  set (c1 := set_device true _ _).
  assert (Hb1 : bus_ok (hw c1)) by (eapply sig_bus_ok; exact Hb).
  assert (Hs1 : forall k, same_drive (drive_of k (mk_bus s m l ds)) (drive_of k (hw c1))).
  { intros k. eapply (sig_drives_same k). }
  assert (Hk1 : forall k, is_ata (device k c1) = kind_of k (hw c1)).
  { intros k. rewrite (kind_same k _ _ (Hs1 k)). by destruct k. }
  destruct (identify_both c1 Hb1 eq_refl eq_refl Hk1) as (c3 & H3 & Hb3 & Hz3 & Hl3 & Hdet).
  { intros k. eapply honest_same; [apply Hs1|apply Hh]. }
  assert (Hdet' : detected (mk_bus s m l ds) c3).
  { destruct Hdet as (Ha & Hk & Hcap). split; [|split].
    - intros k. eapply same_drive_trans; [apply Hs1|apply Ha].
    - intros k. by rewrite Hk, (kind_same k _ _ (Hs1 k)).
    - intros k v Hv Hva. specialize (Hs1 k). rewrite Hv in Hs1.
      destruct (drive_of k (hw c1)) as [w|] eqn:Hw; [|done]. destruct Hs1 as (E1 & E2 & _).
      rewrite <- E2. apply (Hcap k w Hw). congruence. }
  exists c3. split; [exact H3|]. split; [by eapply detected_ok|].
  destruct Hdet' as (Ha & Hk & Hcap). intros k. split; [done|]. split; [|by apply Hcap].
  intros n. unfold content. rewrite Hhw. specialize (Ha k).
  destruct (drive_of k (mk_bus s m l ds)), (drive_of k (hw c3)); try done. by destruct Ha as (_ & -> & _).
Qed.

(** A two-sector ATA disk as master, a packet device as slave. *)
Definition demo_ident : sector := replicate 120 0 ++ [2; 0; 0; 0] ++ replicate 388 0.
Definition demo_attached : channel :=
  mk_channel 0 true false 5 (mk_disk false 0 0 0) (mk_disk false 0 0 0)
    (mk_bus true
       (Some (mk_drive true (replicate 2 (replicate 512 7)) demo_ident (mk_taskfile 0 0 0 0 0 0) 0 Ready false))
       (Some (mk_drive false [] [] (mk_taskfile 0 0 0 0 0 0) 0 Ready false)) [20; 4]%nat).

Lemma channel_init_detects_witness :
  exists c', channel_init true 0 demo_attached = Ok (tt, c') /\ chan_ok c' /\
    is_ata (device false c') = true /\ is_ata (device true c') = false /\ capacity (device false c') = 2.
Proof.
  destruct (channel_init_detects 0 demo_attached) as (c' & H & Hok & Hd).
  - split; [|repeat (apply Forall_cons_2; [lia|]); apply Forall_nil_2].
    intros [] v [= <-]; split; try done; by repeat constructor.
  - intros [] v [= <-]; [done|]. intros _. split; [vm_compute; reflexivity|simpl; lia].
  - exists c'. split; [exact H|]. split; [exact Hok|].
    split; [exact (proj1 (Hd false))|]. split; [exact (proj1 (Hd true))|].
    exact (proj2 (proj2 (Hd false)) _ eq_refl eq_refl).
Defined.
