(* ===== verification/RamDisk.v ===== *)
(** * A disk in memory and an allocator that never runs out

    Instances of [BlockDevice] and [Allocator] for concrete runs of the file
    system and the swap area. *)

From S2P Require Import Prelude Vaddr Disk Alloc.

Definition ram_read (n : Z) : M (list sector) sector := fun d =>
  if (0 <=? n) && (n <? Z.of_nat (length d)) then Ok (nth (Z.to_nat n) d [], d) else Fail AssertFailed.
Definition ram_write (n : Z) (b : sector) : M (list sector) unit := fun d =>
  if (0 <=? n) && (n <? Z.of_nat (length d)) then Ok (tt, <[Z.to_nat n := b]> d) else Fail AssertFailed.

#[global] Instance ram_disk : BlockDevice (list sector) := {|
  bd_ok d := Forall (fun b => is_sector b = true) d;
  bd_size d := Z.of_nat (length d);
  bd_content d n := nth (Z.to_nat n) d [];
  bd_read := ram_read;
  bd_write := ram_write;
|}.

#[global] Instance ram_disk_laws : BlockDeviceLaws (list sector).
Proof.
  split; cbn [bd_ok bd_size bd_content bd_read bd_write ram_disk]; unfold ram_read, ram_write.
  - intros d n Hd Hn. exists d. by rewrite (proj2 (Z.leb_le 0 n)), (proj2 (Z.ltb_lt n _)) by lia.
  - intros d n b Hd Hn Hb. exists (<[Z.to_nat n := b]> d).
    rewrite (proj2 (Z.leb_le 0 n)), (proj2 (Z.ltb_lt n _)) by lia. split; [done|].
    split; [by apply Forall_insert|]. split; [by rewrite length_insert|].
    intros m Hm. rewrite !nth_lookup. destruct (Z.eqb_spec m n) as [->|Hne].
    + by rewrite list_lookup_insert_eq by lia.
    + by rewrite list_lookup_insert_ne by lia.
  - intros d n Hd H0 Hn. by rewrite (proj2 (Z.ltb_ge n _)), andb_false_r by lia.
  - intros d n b Hd H0 Hn. by rewrite (proj2 (Z.ltb_ge n _)), andb_false_r by lia.
  - intros d n Hd Hn. apply (proj1 (Forall_nth _ _ d) Hd). lia.
Qed.

(** The state is the next free address. *)
#[global] Instance bump : Allocator Z := {|
  al_ok h live := 0 < h /\ Forall (fun g => fst g < h) live;
  al_malloc size h := Ok (h, h + Z.max 1 size);
  al_calloc a b h := Ok (h, h + Z.max 1 (a * b));
  al_free _ h := Ok (tt, h);
|}.

Lemma bump_fresh h n live :
  0 < h -> Forall (fun g => fst g < h) live ->
  fresh_block h live /\ 0 < h + Z.max 1 n /\ Forall (fun g => fst g < h + Z.max 1 n) ((h, n) :: live).
Proof.
  intros H0 Hl. split; [split|split].
  - unfold NULL. lia.
  - intros (g & Hg & Hin)%list_elem_of_fmap. rewrite Forall_forall in Hl. specialize (Hl g Hin). lia.
  - lia.
  - constructor; [simpl; lia|]. eapply Forall_impl; [exact Hl|]. simpl. lia.
Qed.

#[global] Instance bump_laws : AllocatorLaws Z.
Proof.
  split; cbn [al_ok al_malloc al_calloc al_free bump].
  - intros h live size [H0 Hl] Hs. eexists _, _. split; [done|]. right. by apply bump_fresh.
  - intros h live a b [H0 Hl] _ _ Hs. eexists _, _. split; [done|]. right. by apply bump_fresh.
  - intros h p n live [H0 [_ Hl]%Forall_cons]. by exists h.
  - intros h l1 l2 Hp [H0 Hl]. by rewrite <- Hp.
Qed.

Lemma bump_roomy : roomy (H := Z).
Proof. intros h live size p h' [H0 _] [= <- _] _. unfold NULL. lia. Qed.

