(* ===== verification/BufCache.v ===== *)
(** * The buffer cache: filesys/buf_cache.c

    The state of the whole file system (later files add its operations) and
    the cache of disk sectors.  The disk is any [BlockDevice], memory comes
    from any [Allocator]; structures live at the addresses the allocator gave
    out, and [struct list]s are the sequences of addresses they link.  One
    thread runs at a time: the locks are kept as flags, and taking one that is
    held is the assertion failure of [lock_acquire]. *)

From S2P Require Import Prelude Vaddr Bitmap Disk Alloc.

(** ** Little-endian words *)

Definition le32 (s : list Z) (ofs : nat) : Z :=
  nth ofs s 0 + 2 ^ 8 * nth (ofs + 1) s 0 + 2 ^ 16 * nth (ofs + 2) s 0 + 2 ^ 24 * nth (ofs + 3) s 0.

Definition to_le32 (z : Z) : list Z :=
  [u8 z; u8 (z / 2 ^ 8); u8 (z / 2 ^ 16); u8 (z / 2 ^ 24)].

(** [memcpy] into a buffer: [bs] replaces the bytes from [ofs] on. *)
Definition splice {A} (ofs : nat) (bs : list A) (s : list A) : list A :=
  take ofs s ++ bs ++ drop (ofs + length bs) s.

(** ** The structures *)

Definition BUF_CACHE_SIZE : Z := 64.

(** [struct inode]; [data] is its [struct inode_disk], one sector. *)
Record inode : Type := mk_inode {
  i_sector : Z;
  open_cnt : Z;
  removed : bool;
  deny_write_cnt : Z;
  data : sector;
}.

Definition d_start (s : sector) : Z := le32 s 0.
Definition d_length (s : sector) : Z := s32 (le32 s 4).
Definition d_magic (s : sector) : Z := le32 s 8.

(** [struct bfc_entry]; [bfc_data] is what [addr] points to. *)
Record bfc_entry : Type := mk_bfc {
  bfc_inode : Z;
  bfc_offset : Z;
  bfc_addr : Z;
  bfc_data : sector;
  num_of_accessor : Z;
  dirty : bool;
  accessed : bool;
  evictable : bool;
  bfc_locked : bool;
}.

Definition bfc_with_data (s : sector) (e : bfc_entry) : bfc_entry :=
  mk_bfc (bfc_inode e) (bfc_offset e) (bfc_addr e) s (num_of_accessor e) (dirty e) (accessed e)
    (evictable e) (bfc_locked e).
Definition bfc_with_accessor (n : Z) (e : bfc_entry) : bfc_entry :=
  mk_bfc (bfc_inode e) (bfc_offset e) (bfc_addr e) (bfc_data e) n (dirty e) (accessed e)
    (evictable e) (bfc_locked e).
Definition bfc_with_dirty (d : bool) (e : bfc_entry) : bfc_entry :=
  mk_bfc (bfc_inode e) (bfc_offset e) (bfc_addr e) (bfc_data e) (num_of_accessor e) d (accessed e)
    (evictable e) (bfc_locked e).
Definition bfc_with_accessed (a : bool) (e : bfc_entry) : bfc_entry :=
  mk_bfc (bfc_inode e) (bfc_offset e) (bfc_addr e) (bfc_data e) (num_of_accessor e) (dirty e) a
    (evictable e) (bfc_locked e).
Definition bfc_with_locked (l : bool) (e : bfc_entry) : bfc_entry :=
  mk_bfc (bfc_inode e) (bfc_offset e) (bfc_addr e) (bfc_data e) (num_of_accessor e) (dirty e)
    (accessed e) (evictable e) l.

Record file : Type := mk_file { f_inode : Z; f_pos : Z; f_deny_write : bool }.
Record dir : Type := mk_dir { dir_inode : Z; dir_pos : Z }.

Section filesystem.
Context {D H : Type} `{BlockDevice D} `{Allocator H}.

(** The state: the disk and the heap, the memory of each kind of structure by
    address, and the file-scope variables of buf_cache.c, inode.c and
    free-map.c. *)
Record fs : Type := mk_fs {
  fdisk : D;
  fheap : H;
  inodes : gmap Z inode;
  files : gmap Z file;
  dirs : gmap Z dir;
  bfcs : gmap Z bfc_entry;
  buffer_cache : list Z;
  entries : Z;
  cur_victim : option Z;
  bfc_lock : bool;
  open_inodes : list Z;
  free_map : bitmap;
  free_map_file : Z;
}.

Definition set_disk (d : D) (s : fs) : fs :=
  mk_fs d (fheap s) (inodes s) (files s) (dirs s) (bfcs s) (buffer_cache s) (entries s)
    (cur_victim s) (bfc_lock s) (open_inodes s) (free_map s) (free_map_file s).
Definition set_heap (h : H) (s : fs) : fs :=
  mk_fs (fdisk s) h (inodes s) (files s) (dirs s) (bfcs s) (buffer_cache s) (entries s)
    (cur_victim s) (bfc_lock s) (open_inodes s) (free_map s) (free_map_file s).
Definition set_inodes (m : gmap Z inode) (s : fs) : fs :=
  mk_fs (fdisk s) (fheap s) m (files s) (dirs s) (bfcs s) (buffer_cache s) (entries s)
    (cur_victim s) (bfc_lock s) (open_inodes s) (free_map s) (free_map_file s).
Definition set_files (m : gmap Z file) (s : fs) : fs :=
  mk_fs (fdisk s) (fheap s) (inodes s) m (dirs s) (bfcs s) (buffer_cache s) (entries s)
    (cur_victim s) (bfc_lock s) (open_inodes s) (free_map s) (free_map_file s).
Definition set_dirs (m : gmap Z dir) (s : fs) : fs :=
  mk_fs (fdisk s) (fheap s) (inodes s) (files s) m (bfcs s) (buffer_cache s) (entries s)
    (cur_victim s) (bfc_lock s) (open_inodes s) (free_map s) (free_map_file s).
Definition set_bfcs (m : gmap Z bfc_entry) (s : fs) : fs :=
  mk_fs (fdisk s) (fheap s) (inodes s) (files s) (dirs s) m (buffer_cache s) (entries s)
    (cur_victim s) (bfc_lock s) (open_inodes s) (free_map s) (free_map_file s).
Definition set_cache (l : list Z) (n : Z) (s : fs) : fs :=
  mk_fs (fdisk s) (fheap s) (inodes s) (files s) (dirs s) (bfcs s) l n
    (cur_victim s) (bfc_lock s) (open_inodes s) (free_map s) (free_map_file s).
Definition set_victim (v : option Z) (s : fs) : fs :=
  mk_fs (fdisk s) (fheap s) (inodes s) (files s) (dirs s) (bfcs s) (buffer_cache s) (entries s)
    v (bfc_lock s) (open_inodes s) (free_map s) (free_map_file s).
Definition set_bfc_lock (l : bool) (s : fs) : fs :=
  mk_fs (fdisk s) (fheap s) (inodes s) (files s) (dirs s) (bfcs s) (buffer_cache s) (entries s)
    (cur_victim s) l (open_inodes s) (free_map s) (free_map_file s).
Definition set_open_inodes (l : list Z) (s : fs) : fs :=
  mk_fs (fdisk s) (fheap s) (inodes s) (files s) (dirs s) (bfcs s) (buffer_cache s) (entries s)
    (cur_victim s) (bfc_lock s) l (free_map s) (free_map_file s).
Definition set_free_map (b : bitmap) (s : fs) : fs :=
  mk_fs (fdisk s) (fheap s) (inodes s) (files s) (dirs s) (bfcs s) (buffer_cache s) (entries s)
    (cur_victim s) (bfc_lock s) (open_inodes s) b (free_map_file s).
Definition set_free_map_file (p : Z) (s : fs) : fs :=
  mk_fs (fdisk s) (fheap s) (inodes s) (files s) (dirs s) (bfcs s) (buffer_cache s) (entries s)
    (cur_victim s) (bfc_lock s) (open_inodes s) (free_map s) p.

(** *** Memory and devices *)

Definition on_disk {A} (m : M D A) : M fs A := fun s =>
  '(a, d) ← m (fdisk s); Ok (a, set_disk d s).
Definition on_heap {A} (m : M H A) : M fs A := fun s =>
  '(a, h) ← m (fheap s); Ok (a, set_heap h s).

Definition malloc (size : Z) : M fs Z := on_heap (al_malloc size).
Definition calloc (a b : Z) : M fs Z := on_heap (al_calloc a b).
Definition free (p : Z) : M fs unit := if p =? NULL then mret tt else on_heap (al_free p).

(** [disk_read (filesys_disk, sec_no, buffer)] and [disk_write]: the buffer is
    at address [buffer]. *)
Definition disk_read (sec_no buffer : Z) : M fs sector :=
  assertM (negb (buffer =? NULL)) ;; on_disk (bd_read sec_no).
Definition disk_write (sec_no buffer : Z) (s : sector) : M fs unit :=
  assertM (negb (buffer =? NULL)) ;; on_disk (bd_write sec_no s).

(** Dereferencing. *)
Definition get_inode (p : Z) : M fs inode := fun s =>
  match inodes s !! p with Some i => Ok (i, s) | None => Fail BadAccess end.
Definition put_inode (p : Z) (i : inode) : M fs unit := modify (fun s => set_inodes (<[p := i]> (inodes s)) s).
Definition get_bfc (p : Z) : M fs bfc_entry := fun s =>
  match bfcs s !! p with Some e => Ok (e, s) | None => Fail BadAccess end.
Definition put_bfc (p : Z) (e : bfc_entry) : M fs unit := modify (fun s => set_bfcs (<[p := e]> (bfcs s)) s).
Definition update_bfc (p : Z) (f : bfc_entry -> bfc_entry) : M fs unit := e ← get_bfc p; put_bfc p (f e).

Definition acquire_bfc_lock : M fs unit :=
  l ← gets bfc_lock; assertM (negb l) ;; modify (set_bfc_lock true).
Definition release_bfc_lock : M fs unit :=
  l ← gets bfc_lock; assertM l ;; modify (set_bfc_lock false).
Definition acquire_entry (p : Z) : M fs unit :=
  e ← get_bfc p; assertM (negb (bfc_locked e)) ;; put_bfc p (bfc_with_locked true e).
Definition release_entry (p : Z) : M fs unit :=
  e ← get_bfc p; assertM (bfc_locked e) ;; put_bfc p (bfc_with_locked false e).

(** ** inode.c: byte_to_sector *)

Definition byte_to_sector (p pos : Z) : M fs Z :=
  assertM (negb (p =? NULL)) ;;
  i ← get_inode p;
  if pos <? d_length (data i) then mret (u32 (d_start (data i) + u32 (Z.quot pos DISK_SECTOR_SIZE)))
  else mret (u32 (-1)).

(** ** buf_cache.c *)

Definition init_buffer_cache : M fs unit :=
  modify (fun s => set_bfc_lock false (set_victim None (set_cache [] 0 s))).

(** [list_next]: the element after [p], or the first when [p] is the last. *)
Fixpoint succ_of (p : Z) (l : list Z) : option Z :=
  match l with
  | x :: l' => if x =? p then head l' else succ_of p l'
  | [] => None
  end.

(** [while (true)] of [select_victim]: [fuel] bounds the rounds. *)
Fixpoint select_victim (fuel : nat) : M fs Z :=
  match fuel with
  | O => fail NoFuel
  | S fuel =>
      v ← gets cur_victim;
      l ← gets buffer_cache;
      match (match v with Some v => Some v | None => head l end) with
      | None => fail BadAccess
      | Some cur =>
          modify (set_victim (Some cur)) ;;
          e ← get_bfc cur;
          let cond := (num_of_accessor e =? 0) && evictable e in
          if cond && negb (accessed e) then mret cur
          else
            (if (cond : bool) then put_bfc cur (bfc_with_accessed false e) else mret tt) ;;
            modify (set_victim (match succ_of cur l with Some n => Some n | None => head l end)) ;;
            select_victim fuel
      end
  end.

Definition buffer_cache_write_behind (bfce : Z) : M fs unit :=
  acquire_entry bfce ;;
  e ← get_bfc bfce;
  sector_idx ← byte_to_sector (bfc_inode e) (bfc_offset e);
  disk_write sector_idx (bfc_addr e) (bfc_data e) ;;
  update_bfc bfce (fun e => bfc_with_accessed false (bfc_with_dirty false e)) ;;
  release_entry bfce.

(** Twice around the clock, plus one. *)
Definition victim_fuel : nat := 129.

(** [sizeof (struct bfc_entry)]. *)
Definition sizeof_bfc_entry : Z := 60.

Definition buffer_cache_get_entry (inode offset : Z) : M fs Z :=
  sector_idx ← byte_to_sector inode offset;
  if s32 sector_idx =? -1 then mret NULL else
  n ← gets entries;
  if n <? BUF_CACHE_SIZE then
    bfce ← malloc sizeof_bfc_entry;
    if bfce =? NULL then mret NULL else
    modify (fun s => set_cache (bfce :: buffer_cache s) (u32 (entries s + 1)) s) ;;
    addr ← malloc DISK_SECTOR_SIZE;
    (* the code tests [bfce] again here, not [addr] *)
    d ← disk_read sector_idx addr;
    put_bfc bfce (mk_bfc inode offset addr d 0 false false true false) ;;
    mret bfce
  else
    bfce ← select_victim victim_fuel;
    e ← get_bfc bfce;
    (if dirty e then buffer_cache_write_behind bfce else mret tt) ;;
    acquire_entry bfce ;;
    e ← get_bfc bfce;
    d ← disk_read sector_idx (bfc_addr e);
    put_bfc bfce (mk_bfc inode offset (bfc_addr e) d 0 false false (evictable e) (bfc_locked e)) ;;
    release_entry bfce ;;
    mret bfce.

Fixpoint look_up_loop (l : list Z) (inode offset : Z) : M fs Z :=
  match l with
  | [] => mret NULL
  | p :: l =>
      e ← get_bfc p;
      if (bfc_inode e =? inode) && (bfc_offset e =? offset) then mret p
      else look_up_loop l inode offset
  end.

Definition buffer_cache_look_up (inode offset : Z) : M fs Z :=
  acquire_bfc_lock ;;
  l ← gets buffer_cache;
  r ← look_up_loop l inode offset;
  release_bfc_lock ;;
  mret r.

Fixpoint write_behind_loop (l : list Z) : M fs unit :=
  match l with
  | [] => mret tt
  | p :: l =>
      update_bfc p (bfc_with_accessed false) ;;
      e ← get_bfc p;
      (if dirty e then buffer_cache_write_behind p else mret tt) ;;
      write_behind_loop l
  end.

Definition buffer_cache_write_behind_all : M fs unit :=
  acquire_bfc_lock ;;
  l ← gets buffer_cache;
  write_behind_loop l ;;
  release_bfc_lock.

(** The periodic write-behind; [bfc_tick] is the counter, and its new value
    the result.  (The call in the timer interrupt is commented out.) *)
Definition BFC_TICK_FEQ : Z := 20.
Definition check_buffer_cache (bfc_tick : Z) : M fs Z :=
  if bfc_tick + 1 =? BFC_TICK_FEQ then buffer_cache_write_behind_all ;; mret 0
  else mret (bfc_tick + 1).

Fixpoint write_inode_loop (l : list Z) (inode : Z) : M fs unit :=
  match l with
  | [] => mret tt
  | p :: l =>
      e ← get_bfc p;
      (if (bfc_inode e =? inode) && dirty e then
         put_bfc p (bfc_with_accessed false e) ;; buffer_cache_write_behind p
       else mret tt) ;;
      write_inode_loop l inode
  end.

Definition buffer_cache_write_behind_inode (inode : Z) : M fs unit :=
  acquire_bfc_lock ;;
  l ← gets buffer_cache;
  write_inode_loop l inode ;;
  release_bfc_lock.

(** [while (!list_empty (&buffer_cache))]: pops and frees every entry; neither
    [entries] nor [cur_victim] is reset. *)
Fixpoint flush_loop (l : list Z) : M fs unit :=
  match l with
  | [] => mret tt
  | p :: l =>
      modify (fun s => set_cache l (entries s) s) ;;
      e ← get_bfc p;
      free (bfc_addr e) ;;
      modify (fun s => set_bfcs (delete p (bfcs s)) s) ;;
      free p ;;
      flush_loop l
  end.

Definition buffer_cache_flush : M fs unit :=
  acquire_bfc_lock ;;
  l ← gets buffer_cache;
  flush_loop l ;;
  release_bfc_lock.

(** Finding or making the entry of a reader or writer, who exits when there
    is none. *)
Definition entry_for (inode offset : Z) : M fs Z :=
  bfce ← buffer_cache_look_up inode offset;
  if bfce =? NULL then
    bfce ← buffer_cache_get_entry inode offset;
    if bfce =? NULL then fail ThreadExits else mret bfce
  else mret bfce.

(** [buffer] is the [size] bytes to write. *)
Definition buffer_cache_write (inode offset : Z) (buffer : list Z) : M fs unit :=
  let sector_ofs := Z.rem offset DISK_SECTOR_SIZE in
  bfce ← entry_for inode offset;
  acquire_entry bfce ;;
  update_bfc bfce (fun e => bfc_with_accessor (num_of_accessor e + 1) e) ;;
  e ← get_bfc bfce;
  (if (0 <=? sector_ofs) && (sector_ofs + Z.of_nat (length buffer) <=? Z.of_nat (length (bfc_data e)))
   then mret tt else fail BadAccess) ;;
  put_bfc bfce (bfc_with_accessed true (bfc_with_dirty true
    (bfc_with_data (splice (Z.to_nat sector_ofs) buffer (bfc_data e)) e))) ;;
  update_bfc bfce (fun e => bfc_with_accessor (num_of_accessor e - 1) e) ;;
  release_entry bfce.

(** Returns the [size] bytes read. *)
Definition buffer_cache_read (inode offset size : Z) : M fs (list Z) :=
  let sector_ofs := Z.rem offset DISK_SECTOR_SIZE in
  bfce ← entry_for inode offset;
  acquire_entry bfce ;;
  update_bfc bfce (fun e => bfc_with_accessor (num_of_accessor e + 1) e) ;;
  e ← get_bfc bfce;
  (if (0 <=? sector_ofs) && (0 <=? size) && (sector_ofs + size <=? Z.of_nat (length (bfc_data e)))
   then mret tt else fail BadAccess) ;;
  let bytes := take (Z.to_nat size) (drop (Z.to_nat sector_ofs) (bfc_data e)) in
  put_bfc bfce (bfc_with_accessed true e) ;;
  update_bfc bfce (fun e => bfc_with_accessor (num_of_accessor e - 1) e) ;;
  release_entry bfce ;;
  (* read-ahead *)
  let next := s32 (offset + DISK_SECTOR_SIZE) in
  ahead ← buffer_cache_look_up inode next;
  (if ahead =? NULL then buffer_cache_get_entry inode next ;; mret tt else mret tt) ;;
  mret bytes.
End filesystem.
