(* ===== verification/CacheInv.v ===== *)
(** * The buffer cache is transparent

    The invariant of the cache for sector-aligned access, and what each of its
    operations does to the sectors an inode sees. *)

From S2P Require Import Prelude Vaddr Disk Alloc BufCache.

Section cache.
Context {D A : Type} {HD : BlockDevice D} {HDL : BlockDeviceLaws D} {HA : Allocator A} {HAL : AllocatorLaws A}.
Abbreviation fs := (@fs D A).
Implicit Types (s : fs) (e : bfc_entry) (i : inode).

(** ** The invariant *)

Definition sectors_of (len : Z) : Z := (len + 511) / 512.

(** An open inode whose data lies on the disk.  (In the last sector below
    2^31 the read-ahead offset overflows [off_t].) *)
Definition inode_ok (s : fs) (i : inode) : Prop :=
  0 <= d_start (data i) /\ 0 <= d_length (data i) <= 2 ^ 31 - 512 /\
  d_start (data i) + sectors_of (d_length (data i)) <= bd_size (fdisk s).

Definition home (i : inode) (off : Z) : Z := d_start (data i) + off / 512.

(** [off] is the start of a sector of [i]. *)
Definition aligned (i : inode) (off : Z) : Prop :=
  0 <= off < d_length (data i) /\ off mod 512 = 0.

Definition entry_ok (s : fs) (e : bfc_entry) : Prop :=
  exists i, inodes s !! bfc_inode e = Some i /\ aligned i (bfc_offset e) /\
    bfc_addr e <> NULL /\ is_sector (bfc_data e) = true /\
    num_of_accessor e = 0 /\ evictable e = true /\ bfc_locked e = false /\
    (dirty e = false -> bfc_data e = bd_content (fdisk s) (home i (bfc_offset e))).

Definition keyed (e : bfc_entry) (p off : Z) : Prop := bfc_inode e = p /\ bfc_offset e = off.

Record cache_ok (s : fs) : Prop := {
  co_disk : bd_ok (fdisk s) /\ bd_size (fdisk s) < 2 ^ 31;
  co_heap : exists live, al_ok (fheap s) live /\ forall a, a ∈ buffer_cache s -> a ∈ live.*1;
  co_inodes : forall p i, inodes s !! p = Some i -> p <> NULL /\ inode_ok s i;
  co_disjoint : forall p q i j, inodes s !! p = Some i -> inodes s !! q = Some j -> p <> q ->
    d_start (data i) + sectors_of (d_length (data i)) <= d_start (data j) \/
    d_start (data j) + sectors_of (d_length (data j)) <= d_start (data i);
  co_nodup : NoDup (buffer_cache s);
  co_count : entries s = Z.of_nat (length (buffer_cache s)) /\ entries s <= 64;
  co_lock : bfc_lock s = false;
  co_victim : forall v, cur_victim s = Some v -> v ∈ buffer_cache s;
  co_entry : forall a, a ∈ buffer_cache s -> a <> NULL /\ exists e, bfcs s !! a = Some e /\ entry_ok s e;
  co_key : forall a b e f, a ∈ buffer_cache s -> b ∈ buffer_cache s ->
    bfcs s !! a = Some e -> bfcs s !! b = Some f -> keyed e (bfc_inode f) (bfc_offset f) -> a = b;
}.

(** ** The sectors an inode sees *)

Fixpoint find_entry (l : list Z) (m : gmap Z bfc_entry) (p off : Z) : option Z :=
  match l with
  | [] => None
  | a :: l =>
      match m !! a with
      | Some e => if (bfc_inode e =? p) && (bfc_offset e =? off) then Some a else find_entry l m p off
      | None => None
      end
  end.

(** The content of the sector at [off] of the inode at [p]: the cached copy if
    there is one, the disk's otherwise. *)
Definition seen (s : fs) (p off : Z) (i : inode) : sector :=
  match find_entry (buffer_cache s) (bfcs s) p off with
  | Some a => match bfcs s !! a with Some e => bfc_data e | None => [] end
  | None => bd_content (fdisk s) (home i off)
  end.

Lemma find_entry_Some l m p off a :
  find_entry l m p off = Some a -> a ∈ l /\ exists e, m !! a = Some e /\ keyed e p off.
Proof.
  induction l as [|b l IH]; simpl; [done|].
  destruct (m !! b) as [e|] eqn:Hb; [|done].
  destruct (Z.eqb_spec (bfc_inode e) p), (Z.eqb_spec (bfc_offset e) off); simpl;
    try (intros [??]%IH; split; [by right|done]).
  intros [= <-]. split; [by left|]. by exists e.
Qed.

Lemma find_entry_None l m p off a e :
  find_entry l m p off = None -> (forall b, b ∈ l -> is_Some (m !! b)) ->
  a ∈ l -> m !! a = Some e -> ~ keyed e p off.
Proof.
  induction l as [|b l IH]; simpl; intros Hf Hm Ha He; [by apply elem_of_nil in Ha|].
  destruct (Hm b ltac:(by left)) as [f Hb]. rewrite Hb in Hf.
  destruct ((bfc_inode f =? p) && (bfc_offset f =? off)) eqn:Hk; [done|].
  apply elem_of_cons in Ha as [->|Ha].
  - assert (f = e) as -> by congruence. intros [<- <-]. by rewrite !Z.eqb_refl in Hk.
  - apply IH; [done| |done|done]. intros c Hc. apply Hm. by right.
Qed.

Lemma cache_has s a : cache_ok s -> a ∈ buffer_cache s -> is_Some (bfcs s !! a).
Proof. intros Hs Ha. destruct (co_entry s Hs a Ha) as (_ & e & He & _). by exists e. Qed.

(** The entry with a given key is the one that is found. *)
Lemma find_entry_key s a e p off :
  cache_ok s -> a ∈ buffer_cache s -> bfcs s !! a = Some e -> keyed e p off ->
  find_entry (buffer_cache s) (bfcs s) p off = Some a.
Proof.
  intros Hs Ha He Hk. destruct (find_entry (buffer_cache s) (bfcs s) p off) as [b|] eqn:Hf.
  - apply find_entry_Some in Hf as (Hb & f & Hf & Hkf). f_equal. symmetry.
    apply (co_key s Hs a b e f Ha Hb He Hf). destruct Hk, Hkf. split; congruence.
  - exfalso. by apply (find_entry_None _ _ _ _ a e Hf (fun b => cache_has s b Hs) Ha He).
Qed.

Lemma seen_entry s a e i :
  cache_ok s -> a ∈ buffer_cache s -> bfcs s !! a = Some e ->
  seen s (bfc_inode e) (bfc_offset e) i = bfc_data e.
Proof. intros Hs Ha He. unfold seen. by rewrite (find_entry_key s a e), He. Qed.

(** Sectors of different keys are different sectors. *)
Lemma home_inj s p q i j off off' :
  cache_ok s -> inodes s !! p = Some i -> inodes s !! q = Some j ->
  aligned i off -> aligned j off' -> home i off = home j off' -> p = q /\ off = off'.
Proof.
  intros Hs Hp Hq [Hi Hi'] [Hj Hj'] Hh. unfold home in Hh. destruct (Z.eq_dec p q) as [->|Hne].
  - assert (i = j) as -> by congruence. split; [done|]. zlia.
  - exfalso. unfold sectors_of in *.
    destruct (co_disjoint s Hs p q i j Hp Hq Hne); unfold sectors_of in *; zlia.
Qed.

Lemma home_range s p i off :
  cache_ok s -> inodes s !! p = Some i -> aligned i off -> 0 <= home i off < bd_size (fdisk s).
Proof.
  intros Hs Hp [Hi Hi']. destruct (co_inodes s Hs p i Hp) as (_ & H1 & H2 & H3).
  unfold home, sectors_of in *. zlia.
Qed.

(** What is seen, by cases. *)
Definition uncached (s : fs) (p off : Z) : Prop :=
  forall a e, a ∈ buffer_cache s -> bfcs s !! a = Some e -> ~ keyed e p off.

Lemma seen_uncached s p off i :
  uncached s p off -> seen s p off i = bd_content (fdisk s) (home i off).
Proof.
  intros Hu. unfold seen. destruct (find_entry _ _ p off) as [a|] eqn:Hf; [|done].
  apply find_entry_Some in Hf as (Ha & e & He & Hk). by destruct (Hu a e Ha He).
Qed.

Lemma seen_cached s a e p off i :
  cache_ok s -> a ∈ buffer_cache s -> bfcs s !! a = Some e -> keyed e p off ->
  seen s p off i = bfc_data e.
Proof. intros Hs Ha He [<- <-]. by apply (seen_entry s a). Qed.

Lemma cached_or_not s p off :
  cache_ok s -> (exists a e, a ∈ buffer_cache s /\ bfcs s !! a = Some e /\ keyed e p off) \/ uncached s p off.
Proof.
  intros Hs. destruct (find_entry (buffer_cache s) (bfcs s) p off) as [a|] eqn:Hf.
  - left. apply find_entry_Some in Hf as (Ha & e & He & Hk). by exists a, e.
  - right. intros a e Ha He. apply (find_entry_None _ _ _ _ a e Hf); [|done..].
    intros b. by apply cache_has.
Qed.

(** A sector that is seen is a sector. *)
Lemma seen_sector s p off i :
  cache_ok s -> inodes s !! p = Some i -> aligned i off -> is_sector (seen s p off i) = true.
Proof.
  intros Hs Hp Ho. destruct (cached_or_not s p off Hs) as [(a & e & Ha & He & Hk)|Hu].
  - rewrite (seen_cached s a e) by done. destruct (co_entry s Hs a Ha) as (_ & e' & He' & i' & ?).
    assert (e' = e) as -> by congruence. naive_solver.
  - rewrite seen_uncached by done. apply bd_content_sector; [apply (co_disk s Hs)|by eapply home_range].
Qed.

(** ** Changing one entry in place *)

Lemma entry_of s a e : cache_ok s -> a ∈ buffer_cache s -> bfcs s !! a = Some e -> entry_ok s e.
Proof. intros Hs Ha He. destruct (co_entry s Hs a Ha) as (_ & e' & He' & ?). by simplify_eq. Qed.

Section in_place.
Context (s : fs) (a : Z) (e e' : bfc_entry).
Context (Hs : cache_ok s) (Ha : a ∈ buffer_cache s) (He : bfcs s !! a = Some e).
Context (Hk : keyed e' (bfc_inode e) (bfc_offset e)) (Hok : entry_ok s e').
Let s' : fs := set_bfcs (<[a := e']> (bfcs s)) s.

Lemma in_place_ok : cache_ok s'.
Proof using All.
  destruct Hs as [Hd Hh Hi Hdis Hn Hc Hl Hv Hen Hkey]. subst s'. split; simpl; try done.
  - intros b Hb. destruct (Hen b Hb) as (Hb0 & f & Hf & Hfok). split; [done|].
    destruct (Z.eq_dec b a) as [->|Hne].
    + exists e'. rewrite lookup_insert_eq. by split.
    + exists f. rewrite lookup_insert_ne by done. by split.
  - intros b c f g Hb Hc' Hf Hg [K1 K2]. destruct Hk as [Hk1 Hk2].
    destruct (Z.eq_dec b a) as [->|Hba], (Z.eq_dec c a) as [->|Hca]; try done.
    + rewrite lookup_insert_eq in Hf. rewrite lookup_insert_ne in Hg by done. simplify_eq.
      apply (Hkey a c e g); try done. split; congruence.
    + rewrite lookup_insert_ne in Hf by done. rewrite lookup_insert_eq in Hg. simplify_eq.
      apply (Hkey b a f e); try done. split; congruence.
    + rewrite lookup_insert_ne in Hf, Hg by done. apply (Hkey b c f g); try done.
Qed.

Lemma in_place_seen p off i :
  seen s' p off i =
  if (bfc_inode e =? p) && (bfc_offset e =? off) then bfc_data e' else seen s p off i.
Proof using All.
  pose proof in_place_ok as Hs'. destruct ((bfc_inode e =? p) && (bfc_offset e =? off)) eqn:Hb.
  - apply andb_prop in Hb as [<-%Z.eqb_eq <-%Z.eqb_eq].
    apply (seen_cached s' a e'); try done. subst s'. simpl. by rewrite lookup_insert_eq.
  - assert (Hnk : ~ keyed e p off) by (intros [<- <-]; by rewrite !Z.eqb_refl in Hb).
    destruct (cached_or_not s p off Hs) as [(b & f & Hb' & Hf & Hkf)|Hu].
    + rewrite (seen_cached s b f) by done. apply (seen_cached s' b f); try done.
      subst s'. simpl. rewrite lookup_insert_ne; [done|]. intros ->. by simplify_eq.
    + rewrite (seen_uncached s) by done. rewrite seen_uncached; [done|].
      intros b f Hb' Hf. subst s'. simpl in Hf. apply lookup_insert_Some in Hf as [[<- <-]|[_ Hf]].
      * intros [K1 K2]. apply Hnk. destruct Hk. split; congruence.
      * by apply Hu with b.
Qed.
End in_place.

(** ** Writing an entry back *)

(** The disk after the sector of an entry was written. *)
Lemma disk_changed s d n b :
  cache_ok s -> bd_ok d -> bd_size d = bd_size (fdisk s) ->
  (forall m, 0 <= m -> bd_content d m = if m =? n then b else bd_content (fdisk s) m) ->
  (forall p i off, inodes s !! p = Some i -> aligned i off -> home i off = n ->
     exists a e, a ∈ buffer_cache s /\ bfcs s !! a = Some e /\ keyed e p off /\ bfc_data e = b) ->
  cache_ok (set_disk d s) /\ forall p i off, inodes s !! p = Some i -> aligned i off ->
    seen (set_disk d s) p off i = seen s p off i.
Proof.
  intros Hs Hd Hsz Hc Hn. assert (Hs' : cache_ok (set_disk d s)).
  { pose proof Hs as [Hdk Hh Hi Hdis Hnd Hcn Hl Hv Hen Hkey]. split; simpl; try done.
    - split; [done|]. rewrite Hsz. apply Hdk.
    - intros p i Hp. destruct (Hi p i Hp) as [? Hio]. split; [done|].
      unfold inode_ok in *. simpl. by rewrite Hsz.
    - intros a Ha. destruct (Hen a Ha) as (Ha0 & e & He & i & Hi' & Hal & Hok). split; [done|].
      exists e. split; [done|]. exists i. split; [done|]. split; [done|].
      destruct Hok as (?&?&?&?&?&Hcl). repeat (split; [done|]). intros Hdirty.
      pose proof (home_range s _ i _ Hs Hi' Hal) as Hr. simpl. rewrite Hc by lia.
      destruct (Z.eqb_spec (home i (bfc_offset e)) n) as [Heq|]; [|by apply Hcl].
      destruct (Hn _ i _ Hi' Hal Heq) as (a' & e' & Ha' & He' & Hk' & Hb).
      assert (a' = a) as -> by (by apply (Hkey a' a e' e)). by simplify_eq. }
  split; [done|]. intros p i off Hp Hal.
  destruct (cached_or_not s p off Hs) as [(a & e & Ha & He & Hk)|Hu].
  - rewrite (seen_cached s a e), (seen_cached (set_disk d s) a e) by done. done.
  - rewrite (seen_uncached s), (seen_uncached (set_disk d s)) by done. simpl.
    pose proof (home_range s _ i _ Hs Hp Hal) as Hr. rewrite Hc by lia.
    destruct (Z.eqb_spec (home i off) n) as [Heq|]; [|done].
    destruct (Hn p i off Hp Hal Heq) as (a & e & Ha & He & Hk & _). by destruct (Hu a e Ha He).
Qed.

(** ** States that show the same files *)

Record kept (s s' : fs) : Prop := {
  k_ok : cache_ok s';
  k_inodes : inodes s' = inodes s;
  k_seen : forall p i off, inodes s !! p = Some i -> aligned i off -> seen s' p off i = seen s p off i;
  k_rest : files s' = files s /\ dirs s' = dirs s /\ open_inodes s' = open_inodes s /\
    free_map s' = free_map s /\ free_map_file s' = free_map_file s;
}.

Lemma kept_refl s : cache_ok s -> kept s s.
Proof. by split. Qed.

Lemma kept_trans s1 s2 s3 : kept s1 s2 -> kept s2 s3 -> kept s1 s3.
Proof.
  intros [H1 H2 H3 (R1&R2&R3&R4&R5)] [H1' H2' H3' (Q1&Q2&Q3&Q4&Q5)]. split; [done|congruence| |].
  - intros p i off Hp Ho. rewrite H3' by (by rewrite ?H2). by apply H3.
  - repeat split; congruence.
Qed.

(** The same state with another entry at [a], same key and same data. *)
Lemma kept_in_place s a e e' :
  cache_ok s -> a ∈ buffer_cache s -> bfcs s !! a = Some e ->
  keyed e' (bfc_inode e) (bfc_offset e) -> bfc_data e' = bfc_data e -> entry_ok s e' ->
  kept s (set_bfcs (<[a := e']> (bfcs s)) s).
Proof.
  intros Hs Ha He Hk Hd Hok. split; [by eapply in_place_ok|done| |done].
  intros p i off Hp Ho. rewrite (in_place_seen s a e e') by done. rewrite Hd.
  destruct (bfc_inode e =? p) eqn:E1, (bfc_offset e =? off) eqn:E2; simpl; try done.
  apply Z.eqb_eq in E1, E2. symmetry. by apply (seen_cached s a e).
Qed.

Lemma get_bfc_ok s a e : bfcs s !! a = Some e -> get_bfc a s = Ok (e, s).
Proof. unfold get_bfc. by intros ->. Qed.

Lemma acquire_entry_ok s a e :
  bfcs s !! a = Some e -> bfc_locked e = false ->
  acquire_entry a s = Ok (tt, set_bfcs (<[a := bfc_with_locked true e]> (bfcs s)) s).
Proof.
  intros He Hl. unfold acquire_entry. rewrite (bindM_step _ _ _ _ _ (get_bfc_ok _ _ _ He)), Hl. done.
Qed.

Lemma release_entry_ok s a e :
  bfcs s !! a = Some e -> bfc_locked e = true ->
  release_entry a s = Ok (tt, set_bfcs (<[a := bfc_with_locked false e]> (bfcs s)) s).
Proof.
  intros He Hl. unfold release_entry. rewrite (bindM_step _ _ _ _ _ (get_bfc_ok _ _ _ He)), Hl. done.
Qed.

Lemma update_bfc_ok s a e f :
  bfcs s !! a = Some e -> update_bfc a f s = Ok (tt, set_bfcs (<[a := f e]> (bfcs s)) s).
Proof. intros He. unfold update_bfc. by rewrite (bindM_step _ _ _ _ _ (get_bfc_ok _ _ _ He)). Qed.

Lemma set_bfcs_twice s a e e' :
  set_bfcs (<[a := e']> (bfcs (set_bfcs (<[a := e]> (bfcs s)) s))) (set_bfcs (<[a := e]> (bfcs s)) s) =
  set_bfcs (<[a := e']> (bfcs s)) s.
Proof. unfold set_bfcs. simpl. by rewrite insert_insert_eq. Qed.

Lemma byte_to_sector_ok s s0 p i off :
  cache_ok s0 -> inodes s = inodes s0 -> inodes s0 !! p = Some i -> 0 <= off ->
  byte_to_sector p off s =
    Ok (if off <? d_length (data i) then home i off else 2 ^ 32 - 1, s).
Proof.
  intros Hs Heq Hp Ho. destruct (co_inodes s0 Hs p i Hp) as (Hp0 & Hst & Hln & Hsz).
  destruct (co_disk s0 Hs) as [_ Hsmall].
  unfold byte_to_sector. rewrite bindM_assert by (by apply negb_true_iff, Z.eqb_neq).
  assert (Hg : get_inode p s = Ok (i, s)) by (unfold get_inode; by rewrite Heq, Hp).
  rewrite (bindM_step _ _ _ _ _ Hg). destruct (Z.ltb_spec off (d_length (data i))) as [Hlt|]; [|done].
  unfold mret, M_ret. do 2 f_equal. unfold home, DISK_SECTOR_SIZE. rewrite Z.quot_div_nonneg by lia.
  unfold sectors_of in Hsz. rewrite (u32_small (off / 512)) by zlia. rewrite u32_small; zlia.
Qed.

Lemma aligned_sector s s0 p i off :
  cache_ok s0 -> inodes s = inodes s0 -> inodes s0 !! p = Some i -> aligned i off ->
  byte_to_sector p off s = Ok (home i off, s).
Proof.
  intros Hs Heq Hp [Ho _]. rewrite (byte_to_sector_ok s s0 p i off) by (done || lia).
  by rewrite (proj2 (Z.ltb_lt off _)) by lia.
Qed.

(** Running the disk. *)
Lemma disk_write_step s n addr b :
  cache_ok s -> addr <> NULL -> 0 <= n < bd_size (fdisk s) -> is_sector b = true ->
  exists d, disk_write n addr b s = Ok (tt, set_disk d s) /\ bd_ok d /\
    bd_size d = bd_size (fdisk s) /\
    (forall m, 0 <= m -> bd_content d m = if m =? n then b else bd_content (fdisk s) m).
Proof.
  intros Hs Ha Hn Hb. destruct (bd_write_ok (fdisk s) n b) as (d & Hw & ? & ? & ?); [apply (co_disk s Hs)|done|done|].
  exists d. split; [|done]. unfold disk_write.
  rewrite bindM_assert by (by apply negb_true_iff, Z.eqb_neq). unfold on_disk. by rewrite Hw.
Qed.

Lemma disk_read_step s n addr :
  cache_ok s -> addr <> NULL -> 0 <= n < bd_size (fdisk s) ->
  exists d, disk_read n addr s = Ok (bd_content (fdisk s) n, set_disk d s) /\ bd_ok d /\
    bd_size d = bd_size (fdisk s) /\ (forall m, bd_content d m = bd_content (fdisk s) m).
Proof.
  intros Hs Ha Hn. destruct (bd_read_ok (fdisk s) n) as (d & Hw & ? & ? & ?); [apply (co_disk s Hs)|done|].
  exists d. split; [|done]. unfold disk_read.
  rewrite bindM_assert by (by apply negb_true_iff, Z.eqb_neq). unfold on_disk. by rewrite Hw.
Qed.

(** Reading the disk leaves the view alone. *)
Lemma kept_disk s d :
  cache_ok s -> bd_ok d -> bd_size d = bd_size (fdisk s) ->
  (forall m, bd_content d m = bd_content (fdisk s) m) -> kept s (set_disk d s).
Proof.
  intros Hs Hd Hsz Hc. destruct (disk_changed s d (-1) [] Hs Hd Hsz) as [H1 H2].
  - intros m Hm. rewrite (proj2 (Z.eqb_neq m (-1))) by lia. done.
  - intros p i off Hp Ho Hh. pose proof (home_range s p i off Hs Hp Ho). lia.
  - by split.
Qed.

Definition cleaned (e : bfc_entry) : bfc_entry := bfc_with_accessed false (bfc_with_dirty false e).

Lemma write_behind_ok s a e :
  cache_ok s -> a ∈ buffer_cache s -> bfcs s !! a = Some e ->
  exists d, buffer_cache_write_behind a s = Ok (tt, set_bfcs (<[a := cleaned e]> (bfcs s)) (set_disk d s)) /\
    kept s (set_bfcs (<[a := cleaned e]> (bfcs s)) (set_disk d s)).
Proof.
  intros Hs Ha He. pose proof (entry_of s a e Hs Ha He) as Hok.
  pose proof Hok as (i & Hi & Hal & Haddr & Hsec & Hacc & Hev & Hlk & Hcl).
  pose proof (home_range s _ i _ Hs Hi Hal) as Hr.
  destruct (disk_write_step s (home i (bfc_offset e)) (bfc_addr e) (bfc_data e) Hs Haddr Hr Hsec)
    as (d & Hw & Hd & Hsz & Hc).
  exists d. split.
  - unfold buffer_cache_write_behind.
    rewrite (bindM_step _ _ _ _ _ (acquire_entry_ok s a e He Hlk)).
    set (s1 := set_bfcs _ s).
    assert (He1 : bfcs s1 !! a = Some (bfc_with_locked true e)) by (subst s1; apply lookup_insert_eq).
    rewrite (bindM_step _ _ _ _ _ (get_bfc_ok s1 a _ He1)). cbn [bfc_inode bfc_offset bfc_addr bfc_data bfc_with_locked].
    rewrite (bindM_step _ _ _ _ _ (aligned_sector s1 s _ i _ Hs eq_refl Hi Hal)).
    assert (Hw1 : disk_write (home i (bfc_offset e)) (bfc_addr e) (bfc_data e) s1 = Ok (tt, set_disk d s1)).
    { revert Hw. unfold disk_write. rewrite !bindM_assert by (by apply negb_true_iff, Z.eqb_neq).
      unfold on_disk. subst s1. cbn [fdisk set_bfcs]. destruct (bd_write _ _ (fdisk s)) as [[[] d1]|]; cbn; [|done].
      by intros [= ->]. }
    rewrite (bindM_step _ _ _ _ _ Hw1).
    erewrite bindM_step by (apply update_bfc_ok; exact He1).
    erewrite release_entry_ok; [|apply lookup_insert_eq|done].
    subst s1. unfold set_bfcs, set_disk. cbn. rewrite !insert_insert_eq.
    destruct e; simpl in Hlk; by subst.
  - destruct (disk_changed s d _ _ Hs Hd Hsz Hc) as [Hs1 Hseen].
    { intros p j off Hp Ho Hh. destruct (home_inj s p _ j i off _ Hs Hp Hi Ho Hal Hh) as [-> ->].
      by exists a, e. }
    eapply kept_trans; [|eapply (kept_in_place (set_disk d s) a e); try done].
    + by split.
    + exists i. repeat (split; [done|]). cbn. intros _.
      rewrite Hc by lia. by rewrite Z.eqb_refl.
Qed.

(** ** Choosing a victim *)

Fixpoint acc_count (l : list Z) (m : gmap Z bfc_entry) : nat :=
  match l with
  | [] => 0
  | a :: l => (match m !! a with Some e => if accessed e then 1 else 0 | None => 0 end + acc_count l m)%nat
  end.

Lemma acc_count_le l m : (acc_count l m <= length l)%nat.
Proof. induction l as [|a l IH]; simpl; [lia|]. destruct (m !! a) as [e|]; [destruct (accessed e)|]; lia. Qed.

Lemma acc_count_other l m a e : a ∉ l -> acc_count l (<[a := e]> m) = acc_count l m.
Proof.
  induction l as [|b l IH]; simpl; [done|]. intros [Hab Hl]%not_elem_of_cons.
  rewrite lookup_insert_ne by done. by rewrite IH.
Qed.

Lemma acc_count_clear l m a e :
  NoDup l -> a ∈ l -> m !! a = Some e -> accessed e = true ->
  S (acc_count l (<[a := bfc_with_accessed false e]> m)) = acc_count l m.
Proof.
  intros Hn Ha He Hacc. induction Hn as [|b l Hb Hn IH]; [by apply elem_of_nil in Ha|]. simpl.
  apply elem_of_cons in Ha as [->|Ha].
  - rewrite lookup_insert_eq, He, Hacc, acc_count_other by done. done.
  - rewrite lookup_insert_ne by (by intros ->). rewrite <- (IH Ha). lia.
Qed.

Lemma succ_of_elem p l q : succ_of p l = Some q -> q ∈ l.
Proof.
  induction l as [|x l IH]; simpl; [done|]. destruct (x =? p).
  - destruct l; simpl; [done|]. intros [= ->]. right. by left.
  - intros ?%IH. by right.
Qed.

Lemma head_elem (l : list Z) q : head l = Some q -> q ∈ l.
Proof. destruct l; simpl; [done|]. intros [= ->]. by left. Qed.

Lemma kept_victim s v :
  cache_ok s -> (forall a, v = Some a -> a ∈ buffer_cache s) -> kept s (set_victim v s).
Proof. intros [] Hv. by split; [split| | |]. Qed.

(** What the clock hand leaves alone: the entries and their keys. *)
Definition key_of (e : bfc_entry) : Z * Z := (bfc_inode e, bfc_offset e).
Definition same_keys (m m' : gmap Z bfc_entry) : Prop := forall b, key_of <$> m' !! b = key_of <$> m !! b.
Definition clocked (s s' : fs) : Prop :=
  kept s s' /\ buffer_cache s' = buffer_cache s /\ same_keys (bfcs s) (bfcs s').

Lemma same_keys_insert m a e e' : m !! a = Some e -> key_of e' = key_of e -> same_keys m (<[a := e']> m).
Proof.
  intros Ha Hk b. destruct (Z.eq_dec b a) as [->|]; [|by rewrite lookup_insert_ne].
  rewrite lookup_insert_eq, Ha. simpl. by rewrite Hk.
Qed.

Lemma clocked_uncached s s' p off : clocked s s' -> uncached s p off -> uncached s' p off.
Proof.
  intros (_ & Hb & Hk) Hu a e Ha He [K1 K2]. rewrite Hb in Ha. specialize (Hk a). rewrite He in Hk.
  destruct (bfcs s !! a) as [f|] eqn:Hf; [|done]. simpl in Hk. injection Hk as E1 E2.
  apply (Hu a f Ha Hf). split; congruence.
Qed.

Lemma clocked_trans s1 s2 s3 : clocked s1 s2 -> clocked s2 s3 -> clocked s1 s3.
Proof.
  intros (K1 & B1 & E1) (K2 & B2 & E2).
  split; [by eapply kept_trans|]. split; [congruence|]. intros b. by rewrite (E2 b), (E1 b).
Qed.

Lemma clear_accessed_ok s a e :
  cache_ok s -> a ∈ buffer_cache s -> bfcs s !! a = Some e ->
  kept s (set_bfcs (<[a := bfc_with_accessed false e]> (bfcs s)) s).
Proof.
  intros Hs Ha He. eapply kept_in_place; try done.
  destruct (entry_of s a e Hs Ha He) as (i & ?). by exists i.
Qed.

Lemma select_victim_ok fuel s :
  cache_ok s -> buffer_cache s <> [] -> (acc_count (buffer_cache s) (bfcs s) < fuel)%nat ->
  exists a e s', select_victim fuel s = Ok (a, s') /\ clocked s s' /\
    a ∈ buffer_cache s' /\ bfcs s' !! a = Some e /\ accessed e = false.
Proof.
  revert s. induction fuel as [|fuel IH]; intros s Hs Hne Hf; [lia|]. cbn [select_victim].
  do 2 erewrite bindM_step by reflexivity.
  assert (exists cur, match cur_victim s with Some v => Some v | None => head (buffer_cache s) end = Some cur
            /\ cur ∈ buffer_cache s) as (cur & -> & Hcur).
  { destruct (cur_victim s) as [v|] eqn:Hv; [exists v; split; [done|by apply (co_victim s Hs)]|].
    destruct (buffer_cache s) as [|x l]; [done|]. exists x. split; [done|by left]. }
  erewrite bindM_step by reflexivity. set (s1 := set_victim (Some cur) s).
  destruct (co_entry s Hs cur Hcur) as (_ & e & He & i & Hi & Hal & Haddr & Hsec & Hacc & Hev & Hlk & Hcl).
  assert (He1 : bfcs s1 !! cur = Some e) by done.
  assert (K1 : clocked s s1).
  { split; [|done]. apply kept_victim; [done|]. by intros ? [= <-]. }
  rewrite (bindM_step _ _ _ _ _ (get_bfc_ok s1 cur e He1)), Hacc, Hev. cbn [Z.eqb andb].
  destruct (accessed e) eqn:Hae; cbn [negb].
  - set (s2 := set_bfcs (<[cur := bfc_with_accessed false e]> (bfcs s1)) s1).
    assert (K2 : clocked s1 s2).
    { split; [apply (clear_accessed_ok s1); [apply K1|done|done]|]. split; [done|]. by eapply same_keys_insert. }
    erewrite bindM_step by reflexivity. fold s2. erewrite bindM_step by reflexivity.
    set (v := match succ_of cur (buffer_cache s) with Some n => Some n | None => head (buffer_cache s) end).
    assert (K3 : clocked s2 (set_victim v s2)).
    { split; [|done]. apply kept_victim; [apply K2|]. intros a Ha. change (buffer_cache s2) with (buffer_cache s).
      subst v. destruct (succ_of cur (buffer_cache s)) eqn:Hn; [apply (succ_of_elem cur)|apply head_elem]; congruence. }
    destruct (IH (set_victim v s2)) as (a & e' & s' & Hsv & Hck & Hrest).
    + apply K3.
    + done.
    + pose proof (acc_count_clear _ _ cur e (co_nodup s Hs) Hcur He Hae) as Hcnt. simpl in *. lia.
    + exists a, e', s'. split; [done|]. split; [|done].
      eapply clocked_trans; [exact K1|]. eapply clocked_trans; [exact K2|]. by eapply clocked_trans; [exact K3|].
  - exists cur, e, s1. by split; [|split].
Qed.

(** ** A new entry *)

(** A clean entry for the sector at [off] of [p]. *)
Definition clean_entry (s : fs) (e : bfc_entry) (p off : Z) (i : inode) : Prop :=
  keyed e p off /\ bfc_data e = bd_content (fdisk s) (home i off) /\ bfc_addr e <> NULL /\
  num_of_accessor e = 0 /\ evictable e = true /\ bfc_locked e = false.

Lemma clean_entry_ok s e p off i :
  cache_ok s -> inodes s !! p = Some i -> aligned i off -> clean_entry s e p off i -> entry_ok s e.
Proof.
  intros Hs Hp Ho ([<- <-] & Hd & Ha & H1 & H2 & H3). exists i. split; [done|]. split; [done|].
  split; [done|]. split; [|by rewrite Hd].
  rewrite Hd. apply bd_content_sector; [apply (co_disk s Hs)|by eapply home_range].
Qed.

(** Taking over the place of a clean entry. *)
Lemma kept_replace s a e e' p off i :
  cache_ok s -> a ∈ buffer_cache s -> bfcs s !! a = Some e -> dirty e = false ->
  inodes s !! p = Some i -> aligned i off -> uncached s p off -> clean_entry s e' p off i ->
  kept s (set_bfcs (<[a := e']> (bfcs s)) s).
Proof.
  intros Hs Ha He Hdirty Hp Ho Hu Hce. set (s' := set_bfcs _ s).
  pose proof (clean_entry_ok s e' p off i Hs Hp Ho Hce) as Hok'.
  destruct Hce as ([Hkp Hko] & Hdat & _). assert (Hs' : cache_ok s').
  { pose proof Hs as [Hdk Hh Hi Hdis Hnd Hcn Hl Hv Hen Hkey]. subst s'. split; simpl; try done.
    - intros b Hb. destruct (Hen b Hb) as (Hb0 & f & Hf & Hfok). split; [done|].
      destruct (Z.eq_dec b a) as [->|Hne].
      + exists e'. rewrite lookup_insert_eq. by split.
      + exists f. rewrite lookup_insert_ne by done. by split.
    - intros b c f g Hb Hc Hf Hg [K1 K2].
      destruct (Z.eq_dec b a) as [->|Hba], (Z.eq_dec c a) as [->|Hca]; try done.
      + rewrite lookup_insert_eq in Hf. rewrite lookup_insert_ne in Hg by done. simplify_eq.
        exfalso. apply (Hu c g Hc Hg). by split.
      + rewrite lookup_insert_ne in Hf by done. rewrite lookup_insert_eq in Hg. simplify_eq.
        exfalso. apply (Hu b f Hb Hf). by split.
      + rewrite lookup_insert_ne in Hf, Hg by done. by apply (Hkey b c f g). }
  split; [done|done| |done]. intros q j o Hq Hqo.
  destruct (cached_or_not s q o Hs) as [(b & f & Hb & Hf & Hk)|Hun].
  - rewrite (seen_cached s b f) by done. destruct (Z.eq_dec b a) as [->|Hba].
    + assert (f = e) as -> by congruence. destruct (entry_of s a e Hs Ha He) as (i' & Hi' & _ & Hcl).
      destruct Hcl as (_ & _ & _ & _ & _ & Hcl). destruct Hk as [<- <-].
      assert (i' = j) as -> by congruence. rewrite (Hcl Hdirty). rewrite (seen_uncached s'); [done|].
      intros c g Hc Hg [K1 K2]. subst s'. simpl in Hc, Hg. apply lookup_insert_Some in Hg as [[<- <-]|[Hca Hg]].
      * apply (Hu a e Ha He). split; congruence.
      * apply Hca. symmetry. by apply (co_key s Hs c a g e).
    + apply (seen_cached s' b f); try done. subst s'. simpl. by rewrite lookup_insert_ne.
  - rewrite (seen_uncached s) by done.
    destruct (Z.eq_dec p q) as [<-|Hpq], (Z.eq_dec off o) as [<-|Hoo];
      [|rewrite (seen_uncached s'); [done|]; intros c g Hc Hg [K1 K2]; subst s'; simpl in Hc, Hg;
        apply lookup_insert_Some in Hg as [[<- <-]|[Hca Hg]]; [congruence|by apply (Hun c g)]..].
    assert (i = j) as <- by congruence. rewrite <- Hdat. apply (seen_cached s' a e'); try done.
    subst s'. simpl. by rewrite lookup_insert_eq.
Qed.

(** Joining the front of the cache. *)
Lemma kept_fresh s a e p off i h live :
  cache_ok s -> entries s < 64 -> al_ok h live -> (forall b, b ∈ a :: buffer_cache s -> b ∈ live.*1) ->
  a <> NULL -> a ∉ buffer_cache s ->
  inodes s !! p = Some i -> aligned i off -> uncached s p off -> clean_entry s e p off i ->
  kept s (set_bfcs (<[a := e]> (bfcs s)) (set_heap h (set_cache (a :: buffer_cache s) (entries s + 1) s))).
Proof.
  intros Hs Hcnt Hh Hlive Ha0 Ha Hp Ho Hu Hce. set (s' := set_bfcs _ _).
  pose proof (clean_entry_ok s e p off i Hs Hp Ho Hce) as Hok'.
  destruct Hce as ([Hkp Hko] & Hdat & _). assert (Hs' : cache_ok s').
  { pose proof Hs as [Hdk _ Hi Hdis Hnd Hcn Hl Hv Hen Hkey]. subst s'. split; simpl; try done.
    - by exists live.
    - by apply NoDup_cons.
    - lia.
    - intros v Hv'. right. by apply Hv.
    - intros b [->|Hb]%elem_of_cons; [split; [done|]; exists e; by rewrite lookup_insert_eq|].
      destruct (Hen b Hb) as (Hb0 & f & Hf & Hfok). split; [done|]. exists f.
      by rewrite lookup_insert_ne by (by intros ->).
    - intros b c f g [->|Hb]%elem_of_cons [->|Hc]%elem_of_cons Hf Hg [K1 K2]; try done.
      + rewrite lookup_insert_eq in Hf. rewrite lookup_insert_ne in Hg by (by intros ->). simplify_eq.
        exfalso. apply (Hu c g Hc Hg). by split.
      + rewrite lookup_insert_ne in Hf by (by intros ->). rewrite lookup_insert_eq in Hg. simplify_eq.
        exfalso. apply (Hu b f Hb Hf). by split.
      + rewrite lookup_insert_ne in Hf, Hg by (by intros ->). by apply (Hkey b c f g). }
  split; [done|done| |done]. intros q j o Hq Hqo.
  destruct (cached_or_not s q o Hs) as [(b & f & Hb & Hf & Hk)|Hun].
  - rewrite (seen_cached s b f) by done. apply (seen_cached s' b f); try done; subst s'; simpl; [by right|].
    by rewrite lookup_insert_ne by (by intros ->).
  - rewrite (seen_uncached s) by done.
    destruct (Z.eq_dec p q) as [<-|Hpq], (Z.eq_dec off o) as [<-|Hoo];
      [|rewrite (seen_uncached s'); [done|]; intros c g [->|Hc]%elem_of_cons Hg [K1 K2]; subst s'; simpl in Hg;
        [rewrite lookup_insert_eq in Hg; congruence
        |rewrite lookup_insert_ne in Hg by (by intros ->); by apply (Hun c g)]..].
    assert (i = j) as <- by congruence. rewrite <- Hdat. apply (seen_cached s' a e); try done; subst s'; simpl.
    + by left.
    + by rewrite lookup_insert_eq.
Qed.
End cache.
