(* ===== verification/CacheOps.v ===== *)
(** * Reading and writing through the buffer cache

    Every operation of filesys/buf_cache.c on a state that satisfies the
    invariant of [CacheInv]: it finishes, keeps the invariant, and changes what
    the files show by exactly the bytes written. *)

From S2P Require Import Prelude Vaddr Disk Alloc BufCache CacheInv.

Section ops.
Context {D A : Type} {HD : BlockDevice D} {HDL : BlockDeviceLaws D} {HA : Allocator A} {HAL : AllocatorLaws A}.
Abbreviation fs := (@fs D A).
Implicit Types (s : fs) (e : bfc_entry) (i : inode).

(** ** Looking up *)

Lemma look_up_loop_ok s l p off :
  (forall a, a ∈ l -> is_Some (bfcs s !! a)) ->
  look_up_loop l p off s = Ok (default NULL (find_entry l (bfcs s) p off), s).
Proof.
  induction l as [|a l IH]; intros Hl; [done|]. cbn [look_up_loop find_entry].
  destruct (Hl a ltac:(by left)) as [e He]. rewrite (bindM_step _ _ _ _ _ (get_bfc_ok s a e He)), He.
  destruct (_ && _); [done|]. apply IH. intros b Hb. apply Hl. by right.
Qed.

Lemma look_up_ok s p off :
  cache_ok s ->
  buffer_cache_look_up p off s = Ok (default NULL (find_entry (buffer_cache s) (bfcs s) p off), s).
Proof.
  intros Hs. unfold buffer_cache_look_up, acquire_bfc_lock.
  erewrite bindM_step by (erewrite bindM_step by reflexivity; rewrite (co_lock s Hs); reflexivity).
  erewrite bindM_step by reflexivity.
  erewrite bindM_step by (apply (look_up_loop_ok (set_bfc_lock true s)); intros a; exact (cache_has s a Hs)).
  simpl. unfold release_bfc_lock. cbn. unfold mret, M_ret. do 2 f_equal.
  pose proof (co_lock s Hs). destruct s; simpl in *. by subst.
Qed.

(** ** Making an entry *)

Lemma malloc_step s live size :
  roomy (H := A) -> al_ok (fheap s) live -> 0 < size < al_max ->
  exists p h, malloc size s = Ok (p, set_heap h s) /\ fresh_block p live /\ al_ok h ((p, size) :: live).
Proof.
  intros Hr Hl Hs. destruct (al_malloc_ok _ live size Hl Hs) as (p & h & Hm & Hp).
  exists p, h. split; [unfold malloc, on_heap; by rewrite Hm|].
  pose proof (Hr _ live size p h Hl Hm ltac:(lia)). by destruct Hp as [[-> _]|].
Qed.

(** The outcome of a search or creation: entry [a] for the sector at [off]. *)
Definition located (s s' : fs) (a p off : Z) (i : inode) : Prop :=
  kept s s' /\ a <> NULL /\ a ∈ buffer_cache s' /\
  exists e, bfcs s' !! a = Some e /\ keyed e p off /\ bfc_data e = seen s p off i.

Lemma small_sector n : 0 <= n < 2 ^ 31 -> (s32 n =? -1) = false.
Proof. intros Hn. rewrite s32_small by lia. apply Z.eqb_neq. lia. Qed.

Lemma u32_entries s : cache_ok s -> entries s < 64 -> u32 (entries s + 1) = entries s + 1.
Proof. intros Hs Hlt. pose proof (co_count s Hs). apply u32_small. lia. Qed.

Lemma get_entry_fresh s p off i :
  roomy (H := A) -> cache_ok s -> inodes s !! p = Some i -> aligned i off -> uncached s p off -> entries s < 64 ->
  exists a s', buffer_cache_get_entry p off s = Ok (a, s') /\ located s s' a p off i.
Proof.
  intros Hroom Hs Hp Ho Hu Hlt. pose proof (home_range s p i off Hs Hp Ho) as Hr.
  pose proof (co_disk s Hs) as [_ Hsz]. destruct (co_heap s Hs) as (live & Hlive & Hcache).
  destruct (malloc_step s live sizeof_bfc_entry Hroom Hlive) as (a & h1 & Hm1 & [Ha0 Hfr] & Hl1);
    [unfold sizeof_bfc_entry, al_max; lia|].
  set (s1 := set_cache (a :: buffer_cache s) (entries s + 1) (set_heap h1 s)).
  destruct (malloc_step s1 _ DISK_SECTOR_SIZE Hroom Hl1) as (b & h2 & Hm2 & [Hb0 _] & Hl2);
    [unfold DISK_SECTOR_SIZE, al_max; lia|].
  set (s2 := set_heap h2 s1).
  destruct (disk_read_step s (home i off) b Hs Hb0 Hr) as (d & Hrd & Hd & Hdsz & Hdc).
  assert (Hrd2 : disk_read (home i off) b s2 = Ok (bd_content (fdisk s) (home i off), set_disk d s2)).
  { revert Hrd. unfold disk_read. rewrite !bindM_assert by (by apply negb_true_iff, Z.eqb_neq).
    unfold on_disk. change (fdisk s2) with (fdisk s).
    destruct (bd_read _ (fdisk s)) as [[c d1]|]; cbn; [|done]. intros E. injection E as -> ->. done. }
  set (e := mk_bfc p off b (bd_content (fdisk s) (home i off)) 0 false false true false).
  pose proof (kept_disk s d Hs Hd Hdsz Hdc) as Kd.
  assert (Kf : kept (set_disk d s) (set_bfcs (<[a := e]> (bfcs s)) (set_disk d s2))).
  { eapply (kept_fresh (set_disk d s) a e p off i h2 ((b, DISK_SECTOR_SIZE) :: (a, sizeof_bfc_entry) :: live));
      try done; try apply (k_ok _ _ Kd).
    - intros c [->|Hc]%elem_of_cons; simpl; [by right; left|]. do 2 right. by apply Hcache.
    - intros Hin. apply Hfr. by apply Hcache. }
  exists a, (set_bfcs (<[a := e]> (bfcs s)) (set_disk d s2)). split.
  - unfold buffer_cache_get_entry.
    rewrite (bindM_step _ _ _ _ _ (aligned_sector s s p i off Hs eq_refl Hp Ho)), small_sector by lia.
    erewrite bindM_step by reflexivity. rewrite (proj2 (Z.ltb_lt _ _)) by (unfold BUF_CACHE_SIZE; lia).
    rewrite (bindM_step _ _ _ _ _ Hm1), (proj2 (Z.eqb_neq a NULL) Ha0).
    erewrite bindM_step by reflexivity. cbn [buffer_cache entries set_heap].
    rewrite u32_entries by done. fold s1.
    rewrite (bindM_step _ _ _ _ _ Hm2). fold s2. by rewrite (bindM_step _ _ _ _ _ Hrd2).
  - split; [by eapply kept_trans|]. split; [done|]. split; [by left|].
    exists e. split; [apply lookup_insert_eq|]. split; [done|]. by rewrite seen_uncached.
Qed.

(** The victim, written back if it was dirty. *)
Lemma clean_victim s a e :
  cache_ok s -> a ∈ buffer_cache s -> bfcs s !! a = Some e ->
  exists s' e', (if dirty e then buffer_cache_write_behind a else mret tt) s = Ok (tt, s') /\
    clocked s s' /\ bfcs s' !! a = Some e' /\ dirty e' = false.
Proof.
  intros Hs Ha He. destruct (dirty e) eqn:Hd.
  - destruct (write_behind_ok s a e Hs Ha He) as (d & Hw & K). eexists _, (cleaned e).
    split; [exact Hw|]. split; [|split; [apply lookup_insert_eq|done]].
    split; [done|]. split; [done|]. by eapply same_keys_insert.
  - exists s, e. split; [done|]. split; [|done]. by split; [apply kept_refl|].
Qed.

(** Taking an entry's lock does not matter to the disk. *)
Lemma disk_read_locked s m n addr d c :
  disk_read n addr s = Ok (c, set_disk d s) ->
  disk_read n addr (set_bfcs m s) = Ok (c, set_disk d (set_bfcs m s)).
Proof.
  unfold disk_read, on_disk, mbind, M_bind, assertM, liftM, ASSERT. simpl.
  destruct (negb (addr =? NULL)); [|done].
  destruct (bd_read n (fdisk s)) as [[x d']|] eqn:Hr; simpl; rewrite ?Hr; [|done].
  intros E. by simplify_eq/=.
Qed.

(** Every slot taken: the victim's place. *)
Lemma get_entry_victim s p off i :
  cache_ok s -> inodes s !! p = Some i -> aligned i off -> uncached s p off -> 64 <= entries s ->
  exists a s', buffer_cache_get_entry p off s = Ok (a, s') /\ located s s' a p off i.
Proof.
  intros Hs Hp Ho Hu Hlt. pose proof (home_range s p i off Hs Hp Ho) as Hr.
  pose proof (co_disk s Hs) as [_ Hsz]. pose proof (co_count s Hs) as [Hcnt Hmax].
  destruct (select_victim_ok victim_fuel s Hs) as (a & e & s1 & Hv & C1 & Ha & He & _).
  { intros Hnil. rewrite Hnil in Hcnt. simpl in Hcnt. lia. }
  { pose proof (acc_count_le (buffer_cache s) (bfcs s)). unfold victim_fuel. lia. }
  destruct (clean_victim s1 a e) as (s2 & e2 & Hwb & C2 & He2 & Hd2); [apply C1|done|done|].
  pose proof (clocked_trans _ _ _ C1 C2) as C. pose proof (k_ok _ _ (proj1 C)) as Hs2.
  assert (Hp2 : inodes s2 !! p = Some i) by (by rewrite (k_inodes _ _ (proj1 C))).
  assert (Ha2 : a ∈ buffer_cache s2) by (by rewrite (proj1 (proj2 C2))).
  pose proof (clocked_uncached _ _ _ _ C Hu) as Hu2.
  destruct (entry_of s2 a e2 Hs2 Ha2 He2) as (j & Hj & Hal & Haddr & Hsec & Hacc & Hev & Hlk & Hcl).
  destruct (disk_read_step s2 (home i off) (bfc_addr e2) Hs2 Haddr) as (d & Hrd & Hd & Hdsz & Hdc).
  { by eapply home_range. }
  set (e3 := mk_bfc p off (bfc_addr e2) (bd_content (fdisk s2) (home i off)) 0 false false true false).
  pose proof (kept_disk s2 d Hs2 Hd Hdsz Hdc) as Kd.
  assert (Kr : kept (set_disk d s2) (set_bfcs (<[a := e3]> (bfcs s2)) (set_disk d s2))).
  { apply (kept_replace (set_disk d s2) a e2 e3 p off i); try done. apply (k_ok _ _ Kd). }
  exists a, (set_bfcs (<[a := e3]> (bfcs s2)) (set_disk d s2)). split.
  - unfold buffer_cache_get_entry.
    rewrite (bindM_step _ _ _ _ _ (aligned_sector s s p i off Hs eq_refl Hp Ho)), small_sector by lia.
    erewrite bindM_step by reflexivity. rewrite (proj2 (Z.ltb_ge _ _)) by (unfold BUF_CACHE_SIZE; lia).
    rewrite (bindM_step _ _ _ _ _ Hv), (bindM_step _ _ _ _ _ (get_bfc_ok s1 a e He)).
    rewrite (bindM_step _ _ _ _ _ Hwb), (bindM_step _ _ _ _ _ (acquire_entry_ok s2 a e2 He2 Hlk)).
    erewrite bindM_step by (apply get_bfc_ok, lookup_insert_eq).
    rewrite (bindM_step _ _ _ _ _ (disk_read_locked s2 _ _ _ d _ Hrd)).
    erewrite bindM_step by reflexivity.
    erewrite bindM_step by (apply release_entry_ok; [apply lookup_insert_eq|done]).
    unfold mret, M_ret. do 2 f_equal. unfold set_bfcs. cbn. rewrite !insert_insert_eq.
    subst e3. by rewrite Hev.
  - split; [by eapply kept_trans; [apply C|eapply kept_trans]|].
    split; [by apply (co_entry s2 Hs2 a)|]. split; [done|].
    exists e3. split; [apply lookup_insert_eq|]. split; [done|].
    rewrite <- (k_seen _ _ (proj1 C) p i off Hp Ho). by rewrite seen_uncached.
Qed.

Lemma get_entry_ok s p off i :
  roomy (H := A) -> cache_ok s -> inodes s !! p = Some i -> aligned i off -> uncached s p off ->
  exists a s', buffer_cache_get_entry p off s = Ok (a, s') /\ located s s' a p off i.
Proof.
  intros. destruct (Z.lt_ge_cases (entries s) 64); [by apply get_entry_fresh|apply get_entry_victim; done || lia].
Qed.

(** Beyond the end of the file there is nothing to cache. *)
Lemma get_entry_end s p off i :
  cache_ok s -> inodes s !! p = Some i -> 0 <= off -> d_length (data i) <= off ->
  buffer_cache_get_entry p off s = Ok (NULL, s).
Proof.
  intros Hs Hp Ho Hl. unfold buffer_cache_get_entry.
  rewrite (bindM_step _ _ _ _ _ (byte_to_sector_ok s s p i off Hs eq_refl Hp Ho)).
  by rewrite (proj2 (Z.ltb_ge _ _) Hl).
Qed.

Lemma entry_for_ok s p off i :
  roomy (H := A) -> cache_ok s -> inodes s !! p = Some i -> aligned i off ->
  exists a s', entry_for p off s = Ok (a, s') /\ located s s' a p off i.
Proof.
  intros Hr Hs Hp Ho. unfold entry_for. rewrite (bindM_step _ _ _ _ _ (look_up_ok s p off Hs)).
  destruct (cached_or_not s p off Hs) as [(a & e & Ha & He & Hk)|Hu].
  - pose proof (proj1 (co_entry s Hs a Ha)) as Ha0.
    rewrite (find_entry_key s a e p off Hs Ha He Hk). change (default NULL (Some a)) with a.
    rewrite (proj2 (Z.eqb_neq a NULL) Ha0).
    exists a, s. split; [done|]. split; [by apply kept_refl|]. split; [done|]. split; [done|].
    exists e. split; [done|]. split; [done|]. symmetry. by apply (seen_cached s a e).
  - destruct (find_entry _ _ p off) as [a|] eqn:Hf.
    { apply find_entry_Some in Hf as (Ha & e & He & Hk). by destruct (Hu a e Ha He). }
    change (default NULL None =? NULL) with true. cbv iota.
    destruct (get_entry_ok s p off i Hr Hs Hp Ho Hu) as (a & s' & Hg & Hl).
    rewrite (bindM_step _ _ _ _ _ Hg). destruct Hl as (K & Ha0 & Hl).
    rewrite (proj2 (Z.eqb_neq a NULL) Ha0). by exists a, s'.
Qed.

(** ** Copying in and out *)

Definition is_byte (b : Z) : bool := (0 <=? b) && (b <? 256).

Lemma is_sector_length c : is_sector c = true -> length c = 512%nat.
Proof. intros [Hl _]%andb_prop. by apply bool_decide_eq_true in Hl. Qed.

Lemma splice_sector c bs :
  is_sector c = true -> forallb is_byte bs = true -> (length bs <= 512)%nat ->
  is_sector (splice 0 bs c) = true.
Proof.
  unfold is_sector, splice. intros [Hl Hc]%andb_prop Hb Hlen. apply bool_decide_eq_true in Hl.
  apply andb_true_intro. simpl. split.
  - apply bool_decide_eq_true. rewrite length_app, length_drop. lia.
  - rewrite forallb_app. apply andb_true_intro. split; [done|].
    rewrite <- (take_drop (length bs) c) in Hc. rewrite forallb_app in Hc. by apply andb_prop in Hc as [_ ?].
Qed.

Lemma aligned_rem i off : aligned i off -> Z.rem off DISK_SECTOR_SIZE = 0.
Proof. intros [H1 H2]. unfold DISK_SECTOR_SIZE. rewrite Z.rem_mod_nonneg; lia. Qed.

(** [s'] shows [s] with the sector at [off] of [p] replaced by [c]. *)
Record changed (s s' : fs) (p off : Z) (c : sector) : Prop := {
  ch_ok : cache_ok s';
  ch_inodes : inodes s' = inodes s;
  ch_seen : forall q j o, inodes s !! q = Some j -> aligned j o ->
    seen s' q o j = if (p =? q) && (off =? o) then c else seen s q o j;
  ch_rest : files s' = files s /\ dirs s' = dirs s /\ open_inodes s' = open_inodes s /\
    free_map s' = free_map s /\ free_map_file s' = free_map_file s;
}.

Lemma cache_write_ok s p off i bs :
  roomy (H := A) -> cache_ok s -> inodes s !! p = Some i -> aligned i off ->
  forallb is_byte bs = true -> (length bs <= 512)%nat ->
  exists s', buffer_cache_write p off bs s = Ok (tt, s') /\
    changed s s' p off (splice 0 bs (seen s p off i)).
Proof.
  intros Hr Hs Hp Ho Hbs Hlen. unfold buffer_cache_write. rewrite (aligned_rem i off Ho).
  destruct (entry_for_ok s p off i Hr Hs Hp Ho) as (a & s1 & Hf & K & Ha0 & Ha & e & He & Hk & Hdat).
  rewrite (bindM_step _ _ _ _ _ Hf). pose proof (k_ok _ _ K) as Hs1.
  destruct (entry_of s1 a e Hs1 Ha He) as (i' & Hi' & Hal & Haddr & Hsec & Hacc & Hev & Hlk & Hcl).
  pose proof (is_sector_length _ Hsec) as H512.
  set (e' := bfc_with_accessed true (bfc_with_dirty true (bfc_with_data (splice 0 bs (bfc_data e)) e))).
  exists (set_bfcs (<[a := e']> (bfcs s1)) s1). split.
  - rewrite (bindM_step _ _ _ _ _ (acquire_entry_ok s1 a e He Hlk)).
    erewrite bindM_step by (apply update_bfc_ok, lookup_insert_eq).
    erewrite bindM_step by (apply get_bfc_ok, lookup_insert_eq). cbn [bfc_data bfc_with_accessor bfc_with_locked].
    rewrite (proj2 (Z.leb_le (0 + _) _)) by lia. change (0 <=? 0) with true. cbn [andb].
    erewrite bindM_step by reflexivity. erewrite bindM_step by reflexivity.
    erewrite bindM_step by (apply update_bfc_ok, lookup_insert_eq).
    erewrite release_entry_ok; [|apply lookup_insert_eq|done].
    unfold set_bfcs. cbn. rewrite !insert_insert_eq. do 5 f_equal.
    subst e'. destruct e; simpl in *. subst. done.
  - assert (Hok : entry_ok s1 e').
    { exists i'. repeat (split; [done|]). split; [by apply splice_sector|]. by repeat (split; [done|]). }
    split; [by eapply in_place_ok|by rewrite <- (k_inodes _ _ K)| |apply K].
    intros q j o Hq Hqo. rewrite (in_place_seen s1 a e e') by done.
    destruct Hk as [-> ->]. rewrite (k_seen _ _ K) by done. cbn [bfc_data e' bfc_with_accessed bfc_with_dirty bfc_with_data].
    by rewrite Hdat.
Qed.

(** The read-ahead of a sector that exists or not. *)
Lemma read_ahead_ok s p off i :
  roomy (H := A) -> cache_ok s -> inodes s !! p = Some i -> aligned i off ->
  exists s', (ahead ← buffer_cache_look_up p (s32 (off + DISK_SECTOR_SIZE));
              if ahead =? NULL then buffer_cache_get_entry p (s32 (off + DISK_SECTOR_SIZE)) ;; mret tt
              else mret tt) s = Ok (tt, s') /\ kept s s'.
Proof.
  intros Hr Hs Hp [Ho1 Ho2]. destruct (co_inodes s Hs p i Hp) as (_ & _ & Hlen & _).
  unfold DISK_SECTOR_SIZE. rewrite s32_small by lia.
  rewrite (bindM_step _ _ _ _ _ (look_up_ok s p _ Hs)).
  destruct (find_entry (buffer_cache s) (bfcs s) p (off + 512)) as [a|] eqn:Hf.
  - apply find_entry_Some in Hf as (Ha & _). pose proof (proj1 (co_entry s Hs a Ha)) as Ha0.
    change (default NULL (Some a)) with a. rewrite (proj2 (Z.eqb_neq a NULL) Ha0).
    exists s. split; [done|by apply kept_refl].
  - change (default NULL None =? NULL) with true. cbv iota.
    destruct (Z.lt_ge_cases (off + 512) (d_length (data i))) as [Hlt|Hge].
    + assert (Ho' : aligned i (off + 512)) by (split; [lia|zlia]).
      destruct (cached_or_not s p (off + 512) Hs) as [(a & e & Ha & He & Hk)|Hu].
      { by rewrite (find_entry_key s a e) in Hf. }
      destruct (get_entry_ok s p (off + 512) i Hr Hs Hp Ho' Hu) as (a & s' & Hg & K & _).
      exists s'. by rewrite (bindM_step _ _ _ _ _ Hg).
    + exists s. rewrite (bindM_step _ _ _ _ _ (get_entry_end s p (off + 512) i Hs Hp ltac:(lia) Hge)).
      split; [done|by apply kept_refl].
Qed.

Lemma cache_read_ok s p off i size :
  roomy (H := A) -> cache_ok s -> inodes s !! p = Some i -> aligned i off -> 0 <= size <= 512 ->
  exists s', buffer_cache_read p off size s = Ok (take (Z.to_nat size) (seen s p off i), s') /\ kept s s'.
Proof.
  intros Hr Hs Hp Ho Hsz. unfold buffer_cache_read. rewrite (aligned_rem i off Ho).
  destruct (entry_for_ok s p off i Hr Hs Hp Ho) as (a & s1 & Hf & K & Ha0 & Ha & e & He & Hk & Hdat).
  rewrite (bindM_step _ _ _ _ _ Hf). pose proof (k_ok _ _ K) as Hs1.
  destruct (entry_of s1 a e Hs1 Ha He) as (i' & Hi' & Hal & Haddr & Hsec & Hacc & Hev & Hlk & Hcl).
  pose proof (is_sector_length _ Hsec) as H512.
  set (s2 := set_bfcs (<[a := bfc_with_accessed true e]> (bfcs s1)) s1).
  assert (K2 : kept s1 s2).
  { apply (kept_in_place s1 a e); try done. by exists i'. }
  assert (Hp2 : inodes s2 !! p = Some i) by (by rewrite (k_inodes _ _ K2), (k_inodes _ _ K)).
  destruct (read_ahead_ok s2 p off i Hr (k_ok _ _ K2) Hp2 Ho) as (s' & Hra & K3).
  exists s'. split; [|by eapply kept_trans; [exact K|eapply kept_trans]].
  rewrite (bindM_step _ _ _ _ _ (acquire_entry_ok s1 a e He Hlk)).
  erewrite bindM_step by (apply update_bfc_ok, lookup_insert_eq).
  erewrite bindM_step by (apply get_bfc_ok, lookup_insert_eq). cbn [bfc_data bfc_with_accessor bfc_with_locked].
  rewrite (proj2 (Z.leb_le 0 size)), (proj2 (Z.leb_le (0 + size) (Z.of_nat (length (bfc_data e))))) by lia.
  change (0 <=? 0) with true. cbn [andb].
  erewrite bindM_step by reflexivity. cbv zeta. erewrite bindM_step by reflexivity.
  erewrite bindM_step by (apply update_bfc_ok, lookup_insert_eq).
  erewrite bindM_step by (apply release_entry_ok; [apply lookup_insert_eq|done]).
  match goal with |- context [(buffer_cache_look_up _ _ ≫= _) ?x] => assert (x = s2) as -> end.
  { subst s2. unfold set_bfcs. cbn. rewrite !insert_insert_eq. do 2 f_equal. destruct e; simpl in *. subst. done. }
  revert Hra. unfold mbind, M_bind. destruct (buffer_cache_look_up p _ s2) as [[h s3]|]; [|done].
  intros ->. unfold mret, M_ret. by rewrite <- Hdat.
Qed.
End ops.
