(* ===== verification/FileSys.v ===== *)
(** * The file system: filesys/inode.c, file.c, free-map.c, directory.c, filesys.c

    The operations over the state of [BufCache], in the order the calls nest:
    reading and writing an inode's data, files, the free map, creating and
    closing inodes, directories, and the calls the rest of the kernel makes.
    A file name is the bytes of a C string without its terminator. *)

From S2P Require Import Prelude Vaddr Bitmap Disk Alloc BufCache.

Definition INODE_MAGIC : Z := 0x494e4f44.
Definition FREE_MAP_SECTOR : Z := 0.
Definition ROOT_DIR_SECTOR : Z := 1.
Definition NAME_MAX : Z := 14.

Definition sizeof_inode : Z := 536.
Definition sizeof_inode_disk : Z := 512.
Definition sizeof_file : Z := 12.
Definition sizeof_dir : Z := 8.
Definition sizeof_dir_entry : Z := 20.

(** [DIV_ROUND_UP (size, DISK_SECTOR_SIZE)] in [off_t], converted to
    [size_t]. *)
Definition bytes_to_sectors (size : Z) : Z := u32 (Z.quot (s32 (size + DISK_SECTOR_SIZE - 1)) DISK_SECTOR_SIZE).

(** [struct inode_disk] as the bytes of its sector. *)
Definition inode_disk (start length : Z) : sector :=
  to_le32 start ++ to_le32 length ++ to_le32 INODE_MAGIC ++ replicate 500 0.

(** [struct dir_entry], 20 bytes. *)
Definition e_inode_sector (e : list Z) : Z := le32 e 0.
Definition e_name (e : list Z) : list Z := take 15 (drop 4 e).
Definition e_in_use (e : list Z) : bool := negb (nth 19 e 0 =? 0).
Definition set_in_use (b : bool) (e : list Z) : list Z := splice 19 [if b then 1 else 0] e.
Definition set_inode_sector (n : Z) (e : list Z) : list Z := splice 0 (to_le32 n) e.

(** The C string at the start of an array, and comparing two. *)
Fixpoint c_string (l : list Z) : list Z :=
  match l with
  | [] => []
  | c :: l => if c =? 0 then [] else c :: c_string l
  end.
Definition same_name (name : list Z) (e : list Z) : bool := bool_decide (name = c_string (e_name e)).

(** [strlcpy (e.name, name, sizeof e.name)]. *)
Definition copy_name (name e : list Z) : list Z :=
  let n := Nat.min (length name) 14 in splice 4 (take n name ++ [0]) e.

(** A read of [bs] into the buffer [e]. *)
Definition fill_buffer (bs e : list Z) : list Z := bs ++ drop (length bs) e.

(** The elements of a bitmap as bytes, and back. *)
Definition bits_bytes (l : list Z) : list Z := concat (map to_le32 l).
Fixpoint bytes_bits (n : nat) (bs : list Z) : list Z :=
  match n with
  | O => []
  | S n => le32 bs 0 :: bytes_bits n (drop 4 bs)
  end.

Section filesystem.
Context {D A : Type} {HD : BlockDevice D} {HA : Allocator A}.
Abbreviation fs := (@fs D A).

(** ** inode.c: data *)

Definition inode_length (p : Z) : M fs Z := i ← get_inode p; mret (d_length (data i)).

(** How much of [size] bytes at [offset] the current sector and the file hold. *)
Definition chunk_of (len size offset : Z) : Z :=
  let sector_ofs := Z.rem offset DISK_SECTOR_SIZE in
  let inode_left := s32 (len - offset) in
  let sector_left := DISK_SECTOR_SIZE - sector_ofs in
  let min_left := if inode_left <? sector_left then inode_left else sector_left in
  if size <? min_left then size else min_left.

(** [while (size > 0)]; [acc] is the bytes already in the buffer. *)
Fixpoint read_loop (fuel : nat) (inode size offset : Z) (acc : list Z) : M fs (list Z) :=
  match fuel with
  | O => fail NoFuel
  | S fuel =>
      if 0 <? size then
        byte_to_sector inode offset ;;
        len ← inode_length inode;
        let chunk_size := chunk_of len size offset in
        if chunk_size <=? 0 then mret acc else
        bs ← buffer_cache_read inode offset chunk_size;
        read_loop fuel inode (size - chunk_size) (s32 (offset + chunk_size)) (acc ++ bs)
      else mret acc
  end.

(** Each round but the first and the last takes a whole sector. *)
Definition io_fuel (size : Z) : nat := Z.to_nat (size / 512 + 3).

(** Returns the bytes read; their number is the function's result. *)
Definition inode_read_at (inode size offset : Z) : M fs (list Z) :=
  read_loop (io_fuel size) inode size offset [].

Fixpoint write_loop (fuel : nat) (inode : Z) (buffer : list Z) (offset written : Z) : M fs Z :=
  match fuel with
  | O => fail NoFuel
  | S fuel =>
      let size := Z.of_nat (length buffer) in
      if 0 <? size then
        byte_to_sector inode offset ;;
        len ← inode_length inode;
        let chunk_size := chunk_of len size offset in
        if chunk_size <=? 0 then mret written else
        buffer_cache_write inode offset (take (Z.to_nat chunk_size) buffer) ;;
        write_loop fuel inode (drop (Z.to_nat chunk_size) buffer) (s32 (offset + chunk_size))
          (written + chunk_size)
      else mret written
  end.

Definition inode_write_at (inode : Z) (buffer : list Z) (offset : Z) : M fs Z :=
  i ← get_inode inode;
  if negb (deny_write_cnt i =? 0) then mret 0
  else write_loop (io_fuel (Z.of_nat (length buffer))) inode buffer offset 0.

Definition with_open_cnt (n : Z) (i : inode) : inode :=
  mk_inode (i_sector i) n (removed i) (deny_write_cnt i) (data i).
Definition with_removed (b : bool) (i : inode) : inode :=
  mk_inode (i_sector i) (open_cnt i) b (deny_write_cnt i) (data i).
Definition with_deny (n : Z) (i : inode) : inode :=
  mk_inode (i_sector i) (open_cnt i) (removed i) n (data i).

Definition inode_deny_write (p : Z) : M fs unit :=
  i ← get_inode p;
  put_inode p (with_deny (deny_write_cnt i + 1) i) ;;
  assertM (deny_write_cnt i + 1 <=? open_cnt i).

Definition inode_allow_write (p : Z) : M fs unit :=
  i ← get_inode p;
  assertM (0 <? deny_write_cnt i) ;;
  assertM (deny_write_cnt i <=? open_cnt i) ;;
  put_inode p (with_deny (deny_write_cnt i - 1) i).

Definition inode_reopen (p : Z) : M fs Z :=
  if p =? NULL then mret p else
  i ← get_inode p; put_inode p (with_open_cnt (open_cnt i + 1) i) ;; mret p.

Definition inode_get_inumber (p : Z) : M fs Z := i ← get_inode p; mret (i_sector i).

Definition inode_remove (p : Z) : M fs unit :=
  assertM (negb (p =? NULL)) ;; i ← get_inode p; put_inode p (with_removed true i).

Definition inode_init : M fs unit := modify (set_open_inodes []).

Fixpoint find_open (l : list Z) (sector : Z) : M fs Z :=
  match l with
  | [] => mret NULL
  | p :: l => i ← get_inode p; if i_sector i =? sector then mret p else find_open l sector
  end.

Definition inode_open (sector : Z) : M fs Z :=
  l ← gets open_inodes;
  p ← find_open l sector;
  if negb (p =? NULL) then inode_reopen p ;; mret p else
  p ← malloc sizeof_inode;
  if p =? NULL then mret NULL else
  modify (fun s => set_open_inodes (p :: open_inodes s) s) ;;
  d ← disk_read sector p;
  put_inode p (mk_inode sector 1 false 0 d) ;;
  mret p.

(** ** file.c: reading and writing at an offset *)

Definition get_file (p : Z) : M fs file := fun s =>
  match files s !! p with Some f => Ok (f, s) | None => Fail BadAccess end.
Definition put_file (p : Z) (f : file) : M fs unit := modify (fun s => set_files (<[p := f]> (files s)) s).

Definition file_read_at (p size file_ofs : Z) : M fs (list Z) :=
  f ← get_file p; inode_read_at (f_inode f) size file_ofs.
Definition file_write_at (p : Z) (buffer : list Z) (file_ofs : Z) : M fs Z :=
  f ← get_file p; inode_write_at (f_inode f) buffer file_ofs.

(** ** bitmap.c: a bitmap in a file *)

Definition bitmap_file_size (b : bitmap) : Z := byte_cnt (bit_cnt b).

(** Reads into [b]; returns it with the success. *)
Definition bitmap_read (b : bitmap) (file : Z) : M fs (bool * bitmap) :=
  if 0 <? bit_cnt b then
    let size := byte_cnt (bit_cnt b) in
    bs ← file_read_at file size 0;
    let l := bytes_bits (length (bits b)) (fill_buffer bs (bits_bytes (bits b))) in
    let last := elem_cnt (bit_cnt b) - 1 in
    x ← liftM (arr_get l last);
    l' ← liftM (arr_set l last (Z.land x (last_mask b)));
    mret (Z.of_nat (length bs) =? size, mk_bitmap (bit_cnt b) l')
  else mret (true, b).

Definition bitmap_write (b : bitmap) (file : Z) : M fs bool :=
  let size := byte_cnt (bit_cnt b) in
  n ← file_write_at file (take (Z.to_nat size) (bits_bytes (bits b))) 0;
  mret (n =? size).

(** ** free-map.c *)

Definition free_map_allocate (cnt : Z) : M fs (option Z) :=
  b ← gets free_map;
  '(b', sector) ← liftM (bitmap_scan_and_flip b 0 cnt false);
  modify (set_free_map b') ;;
  f ← gets free_map_file;
  if sector =? BITMAP_ERROR then mret None else
  if f =? NULL then mret (Some sector) else
  ok ← bitmap_write b' f;
  if (ok : bool) then mret (Some sector) else
  b1 ← gets free_map;
  b2 ← liftM (bitmap_set_multiple b1 sector cnt false);
  modify (set_free_map b2) ;;
  mret None.

Definition free_map_release (sector cnt : Z) : M fs unit :=
  b ← gets free_map;
  all ← liftM (bitmap_all b sector cnt);
  assertM all ;;
  b' ← liftM (bitmap_set_multiple b sector cnt false);
  modify (set_free_map b') ;;
  f ← gets free_map_file;
  bitmap_write b' f ;;
  mret tt.

(** ** inode.c: creating and closing *)

Fixpoint zero_sectors (n : nat) (start : Z) : M fs unit :=
  match n with
  | O => mret tt
  | S n => on_disk (bd_write start (replicate 512 0)) ;; zero_sectors n (u32 (start + 1))
  end.

Definition inode_create (sector length : Z) : M fs bool :=
  assertM (0 <=? length) ;;
  p ← calloc 1 sizeof_inode_disk;
  if p =? NULL then mret false else
  let sectors := bytes_to_sectors length in
  r ← free_map_allocate sectors;
  match r with
  | Some start =>
      disk_write sector p (inode_disk start length) ;;
      zero_sectors (Z.to_nat sectors) start ;;
      free p ;;
      mret true
  | None => free p ;; mret false
  end.

Definition inode_close (p : Z) : M fs unit :=
  if p =? NULL then mret tt else
  i ← get_inode p;
  put_inode p (with_open_cnt (open_cnt i - 1) i) ;;
  if open_cnt i - 1 =? 0 then
    buffer_cache_write_behind_inode p ;;
    modify (fun s => set_open_inodes (filter (fun q => q <> p) (open_inodes s)) s) ;;
    (if removed i then
       free_map_release (i_sector i) 1 ;;
       free_map_release (d_start (data i)) (bytes_to_sectors (d_length (data i)))
     else mret tt) ;;
    modify (fun s => set_inodes (delete p (inodes s)) s) ;;
    free p
  else mret tt.

(** ** file.c *)

Definition file_open (inode : Z) : M fs Z :=
  p ← calloc 1 sizeof_file;
  if negb (inode =? NULL) && negb (p =? NULL) then
    put_file p (mk_file inode 0 false) ;; mret p
  else inode_close inode ;; free p ;; mret NULL.

Definition file_reopen (p : Z) : M fs Z :=
  f ← get_file p; q ← inode_reopen (f_inode f); file_open q.

Definition file_allow_write (p : Z) : M fs unit :=
  assertM (negb (p =? NULL)) ;;
  f ← get_file p;
  if f_deny_write f then
    put_file p (mk_file (f_inode f) (f_pos f) false) ;; inode_allow_write (f_inode f)
  else mret tt.

Definition file_deny_write (p : Z) : M fs unit :=
  assertM (negb (p =? NULL)) ;;
  f ← get_file p;
  if negb (f_deny_write f) then
    put_file p (mk_file (f_inode f) (f_pos f) true) ;; inode_deny_write (f_inode f)
  else mret tt.

Definition file_close (p : Z) : M fs unit :=
  if p =? NULL then mret tt else
  file_allow_write p ;;
  f ← get_file p;
  inode_close (f_inode f) ;;
  modify (fun s => set_files (delete p (files s)) s) ;;
  free p.

Definition file_get_inode (p : Z) : M fs Z := f ← get_file p; mret (f_inode f).

Definition file_read (p size : Z) : M fs (list Z) :=
  f ← get_file p;
  bs ← inode_read_at (f_inode f) size (f_pos f);
  put_file p (mk_file (f_inode f) (s32 (f_pos f + Z.of_nat (length bs))) (f_deny_write f)) ;;
  mret bs.

Definition file_write (p : Z) (buffer : list Z) : M fs Z :=
  f ← get_file p;
  n ← inode_write_at (f_inode f) buffer (f_pos f);
  put_file p (mk_file (f_inode f) (s32 (f_pos f + n)) (f_deny_write f)) ;;
  mret n.

Definition file_length (p : Z) : M fs Z :=
  assertM (negb (p =? NULL)) ;; f ← get_file p; inode_length (f_inode f).

Definition file_seek (p new_pos : Z) : M fs unit :=
  assertM (negb (p =? NULL)) ;;
  assertM (0 <=? new_pos) ;;
  f ← get_file p; put_file p (mk_file (f_inode f) new_pos (f_deny_write f)).

Definition file_tell (p : Z) : M fs Z :=
  assertM (negb (p =? NULL)) ;; f ← get_file p; mret (f_pos f).
End filesystem.
