(* ===== verification/FileIO.v ===== *)
(** * File data: inode_read_at and inode_write_at of filesys/inode.c

    For accesses that start on a sector boundary, reading and writing through
    the buffer cache is reading and writing the bytes of the file, whatever is
    cached, evicted, written back or read ahead in between. *)

From S2P Require Import Prelude Vaddr Disk Alloc BufCache CacheInv CacheOps FileSys.

Section io.
Context {D A : Type} {HD : BlockDevice D} {HDL : BlockDeviceLaws D} {HA : Allocator A} {HAL : AllocatorLaws A}.
Context (Hroom : roomy (H := A)).
Abbreviation fs := (@fs D A).
Implicit Types (s : fs) (i : inode).

(** ** The bytes of a file *)

Definition byte_at (s : fs) (p : Z) (i : inode) (pos : Z) : Z :=
  nth (Z.to_nat (pos mod 512)) (seen s p (pos - pos mod 512) i) 0.

(** How many of [size] bytes at [off] lie in a file of [len] bytes. *)
Definition avail (len size off : Z) : Z := Z.max 0 (Z.min size (len - off)).

Definition on_boundary (off : Z) : Prop := 0 <= off < 2 ^ 31 /\ off mod 512 = 0.

Lemma chunk_of_aligned len size off :
  0 <= len < 2 ^ 31 -> on_boundary off ->
  chunk_of len size off = Z.min size (Z.min (len - off) 512).
Proof.
  intros Hl [Ho Hm]. unfold chunk_of, DISK_SECTOR_SIZE.
  rewrite Z.rem_mod_nonneg, Hm, s32_small by lia. cbv zeta. rewrite Z.sub_0_r.
  destruct (Z.ltb_spec (len - off) 512);
    [destruct (Z.ltb_spec size (len - off))|destruct (Z.ltb_spec size 512)]; lia.
Qed.

Lemma sector_start i off : on_boundary off -> off < d_length (data i) -> aligned i off.
Proof. intros [H1 H2] Hl. split; [lia|done]. Qed.

Lemma pos_aligned i pos : 0 <= pos < d_length (data i) -> aligned i (pos - pos mod 512).
Proof. intros. split; zlia. Qed.

Lemma byte_at_sector s p i off k :
  on_boundary off -> 0 <= k < 512 -> byte_at s p i (off + k) = nth (Z.to_nat k) (seen s p off i) 0.
Proof.
  intros [_ Hm] Hk. unfold byte_at.
  assert ((off + k) mod 512 = k) as -> by zlia. by replace (off + k - k) with off by lia.
Qed.

(** A sector's bytes, one by one. *)
Lemma take_nth (l : list Z) n :
  (n <= length l)%nat -> take n l = map (fun k => nth (Z.to_nat k) l 0) (seqZ 0 (Z.of_nat n)).
Proof.
  intros Hn. apply list_eq. intros j. rewrite list_lookup_fmap.
  destruct (decide (j < n)%nat) as [Hj|Hj].
  - rewrite lookup_take_lt by done. rewrite (lookup_seqZ_lt 0) by lia. simpl.
    destruct (lookup_lt_is_Some_2 l j) as [x Hx]; [lia|]. rewrite Hx. f_equal.
    rewrite Z.add_0_l, Nat2Z.id. symmetry. by apply nth_lookup_Some.
  - rewrite lookup_take_ge by lia. by rewrite (lookup_seqZ_ge 0) by lia.
Qed.

Lemma sector_bytes s p i off n :
  cache_ok s -> inodes s !! p = Some i -> aligned i off -> on_boundary off -> 0 <= n <= 512 ->
  take (Z.to_nat n) (seen s p off i) = map (byte_at s p i) (seqZ off n).
Proof.
  intros Hs Hp Ho Hb Hn. pose proof (is_sector_length _ (seen_sector s p off i Hs Hp Ho)) as Hl.
  rewrite take_nth by lia. rewrite Z2Nat.id by lia.
  replace (seqZ off n) with (map (Z.add off) (seqZ 0 n)) 
    by (change (map (Z.add off)) with (fmap (M := list) (Z.add off)); rewrite fmap_add_seqZ; f_equal; lia).
  rewrite map_map.
  apply map_ext_in. intros k Hk%list_elem_of_In%elem_of_seqZ. symmetry. apply byte_at_sector; [done|lia].
Qed.

Lemma kept_byte_at s s' p i pos :
  kept s s' -> inodes s !! p = Some i -> 0 <= pos < d_length (data i) ->
  byte_at s' p i pos = byte_at s p i pos.
Proof. intros K Hp Hpos. unfold byte_at. by rewrite (k_seen _ _ K) by (done || by apply pos_aligned). Qed.

(** ** Reading *)

Lemma inode_length_ok s p i : inodes s !! p = Some i -> inode_length p s = Ok (d_length (data i), s).
Proof. intros Hp. unfold inode_length, get_inode, mbind, M_bind. by rewrite Hp. Qed.

Lemma len_bounds s p i : cache_ok s -> inodes s !! p = Some i -> 0 <= d_length (data i) <= 2 ^ 31 - 512.
Proof. intros Hs Hp. by destruct (co_inodes s Hs p i Hp) as (_ & _ & ? & _). Qed.

(** One round past the end of the file. *)
Lemma chunk_at_end len size off :
  0 <= off < 2 ^ 31 -> 0 <= len <= off -> chunk_of len size off <= 0.
Proof.
  intros Ho Hl. unfold chunk_of, DISK_SECTOR_SIZE. rewrite s32_small by lia.
  pose proof (Z.rem_bound_pos off 512 ltac:(lia) ltac:(lia)). cbv zeta.
  destruct (Z.ltb_spec (len - off) (512 - Z.rem off 512)); [|lia].
  destruct (Z.ltb_spec size (len - off)); lia.
Qed.

Lemma read_loop_end fuel s p i size off acc :
  cache_ok s -> inodes s !! p = Some i -> 0 <= off < 2 ^ 31 ->
  size <= 0 \/ d_length (data i) <= off -> read_loop (S fuel) p size off acc s = Ok (acc, s).
Proof.
  intros Hs Hp Ho He. cbn [read_loop]. destruct (Z.ltb_spec 0 size); [|done].
  rewrite (bindM_step _ _ _ _ _ (byte_to_sector_ok s s p i off Hs eq_refl Hp ltac:(lia))).
  rewrite (bindM_step _ _ _ _ _ (inode_length_ok s p i Hp)). cbv zeta.
  pose proof (len_bounds s p i Hs Hp).
  rewrite (proj2 (Z.leb_le _ _)); [done|]. apply chunk_at_end; lia.
Qed.

Lemma avail_split len size off n :
  0 <= n -> n <= size -> n <= len - off -> avail len size off = n + avail len (size - n) (off + n).
Proof. unfold avail. lia. Qed.

(** The rest of a read that began with the [n] bytes of one sector. *)
Lemma bytes_split s s1 p i size off n :
  kept s s1 -> inodes s !! p = Some i -> 0 <= off -> 0 <= n -> n <= size -> n <= d_length (data i) - off ->
  map (byte_at s p i) (seqZ off (avail (d_length (data i)) size off)) =
  map (byte_at s p i) (seqZ off n) ++
  map (byte_at s1 p i) (seqZ (off + n) (avail (d_length (data i)) (size - n) (off + n))).
Proof.
  intros K Hp Ho Hn Hsz Hl. rewrite (avail_split _ size off n) by done.
  rewrite seqZ_app, map_app by (unfold avail; lia). f_equal.
  apply map_ext_in. intros k Hk%list_elem_of_In%elem_of_seqZ. symmetry. apply kept_byte_at; [done|done|].
  unfold avail in Hk. lia.
Qed.

Lemma read_loop_ok fuel s p i size off acc :
  cache_ok s -> inodes s !! p = Some i -> on_boundary off -> 0 <= size <= 512 * (Z.of_nat fuel - 1) ->
  exists s', read_loop fuel p size off acc s =
      Ok (acc ++ map (byte_at s p i) (seqZ off (avail (d_length (data i)) size off)), s') /\ kept s s'.
Proof.
  revert s size off acc. induction fuel as [|fuel IH]; intros s size off acc Hs Hp Ho Hf; [lia|].
  pose proof (len_bounds s p i Hs Hp) as Hlen. pose proof Ho as [Hoz Hom].
  destruct (decide (size <= 0 \/ d_length (data i) <= off)) as [He|He].
  { exists s. rewrite (read_loop_end fuel s p i) by done. unfold avail.
    rewrite seqZ_nil by lia. rewrite app_nil_r. split; [done|by apply kept_refl]. }
  cbn [read_loop]. rewrite (proj2 (Z.ltb_lt 0 size)) by lia.
  rewrite (bindM_step _ _ _ _ _ (byte_to_sector_ok s s p i off Hs eq_refl Hp ltac:(lia))).
  rewrite (bindM_step _ _ _ _ _ (inode_length_ok s p i Hp)). cbv zeta.
  rewrite chunk_of_aligned by (done || lia). set (n := Z.min size _).
  rewrite (proj2 (Z.leb_gt n 0)) by lia.
  assert (Hal : aligned i off) by (apply sector_start; [done|lia]).
  destruct (cache_read_ok s p off i n Hroom Hs Hp Hal) as (s1 & Hr & K1); [lia|].
  rewrite (bindM_step _ _ _ _ _ Hr), (sector_bytes s p i off n Hs Hp Hal Ho) by lia.
  rewrite s32_small by lia. pose proof (k_ok _ _ K1) as Hs1.
  assert (Hp1 : inodes s1 !! p = Some i) by (by rewrite (k_inodes _ _ K1)).
  rewrite (bytes_split s s1 p i size off n K1 Hp) by lia. rewrite app_assoc.
  destruct (Z.eq_dec n 512) as [Hn|Hn].
  - destruct (IH s1 (size - n) (off + n) (acc ++ map (byte_at s p i) (seqZ off n)) Hs1 Hp1)
      as (s2 & Hl & K2); [split; [lia|zlia]|lia|].
    exists s2. split; [exact Hl|by eapply kept_trans].
  - destruct fuel as [|fuel]; [lia|]. exists s1.
    rewrite (read_loop_end fuel s1 p i) by (done || lia).
    unfold avail. rewrite (seqZ_nil (off + n)) by lia. by rewrite app_nil_r.
Qed.

Lemma io_fuel_ok size : 0 <= size -> 0 <= size <= 512 * (Z.of_nat (io_fuel size) - 1).
Proof. intros. unfold io_fuel. zlia. Qed.

Lemma inode_read_ok s p i size off :
  cache_ok s -> inodes s !! p = Some i -> on_boundary off -> 0 <= size ->
  exists s', inode_read_at p size off s =
    Ok (map (byte_at s p i) (seqZ off (avail (d_length (data i)) size off)), s') /\ kept s s'.
Proof. intros Hs Hp Ho Hsz. by apply (read_loop_ok _ s p i size off []); auto using io_fuel_ok. Qed.

(** ** Writing *)

(** [s'] shows [s] with [bs] written at [off] of [p]. *)
Record wrote (s s' : fs) (p off : Z) (bs : list Z) : Prop := {
  w_ok : cache_ok s';
  w_inodes : inodes s' = inodes s;
  w_bytes : forall q j pos, inodes s !! q = Some j -> 0 <= pos < d_length (data j) ->
    byte_at s' q j pos =
      if (p =? q) && (off <=? pos) && (pos <? off + Z.of_nat (length bs))
      then nth (Z.to_nat (pos - off)) bs 0 else byte_at s q j pos;
  w_rest : files s' = files s /\ dirs s' = dirs s /\ open_inodes s' = open_inodes s /\
    free_map s' = free_map s /\ free_map_file s' = free_map_file s;
}.

Lemma wrote_nil s p off : cache_ok s -> wrote s s p off [].
Proof.
  intros Hs. split; try done. intros q j pos Hq Hpos. cbn [length Z.of_nat]. rewrite Z.add_0_r.
  destruct (Z.leb_spec off pos), (Z.ltb_spec pos off); try lia; by rewrite !andb_false_r.
Qed.

Lemma wrote_app s1 s2 s3 p off b1 b2 :
  wrote s1 s2 p off b1 -> wrote s2 s3 p (off + Z.of_nat (length b1)) b2 -> wrote s1 s3 p off (b1 ++ b2).
Proof.
  intros [O1 I1 B1 R1] [O2 I2 B2 R2]. split; [done|congruence| |].
  - intros q j pos Hq Hpos. rewrite B2, B1 by (done || by rewrite I1).
    rewrite length_app. destruct (Z.eqb_spec p q) as [<-|]; simpl; [|done].
    destruct (Z.leb_spec off pos), (Z.leb_spec (off + Z.of_nat (length b1)) pos),
      (Z.ltb_spec pos (off + Z.of_nat (length b1))), (Z.ltb_spec pos (off + Z.of_nat (length b1) + Z.of_nat (length b2))),
      (Z.ltb_spec pos (off + Z.of_nat (length b1 + length b2))); simpl; try lia; try done.
    + rewrite app_nth2 by lia. f_equal. lia.
    + rewrite app_nth1 by lia. done.
  - destruct R1 as (?&?&?&?&?), R2 as (?&?&?&?&?). repeat split; congruence.
Qed.

Lemma changed_wrote s s' p off i bs :
  cache_ok s -> inodes s !! p = Some i -> aligned i off -> on_boundary off -> (length bs <= 512)%nat ->
  changed s s' p off (splice 0 bs (seen s p off i)) -> wrote s s' p off bs.
Proof.
  intros Hs Hp Ho Hb Hlen [C1 C2 C3 C4]. split; try done. intros q j pos Hq Hpos.
  unfold byte_at at 1. rewrite C3 by (done || by apply pos_aligned). destruct Hb as [Hb1 Hb2].
  destruct (Z.eqb_spec p q) as [<-|Hpq]; simpl; [|done]. assert (j = i) as -> by congruence.
  destruct (Z.eqb_spec off (pos - pos mod 512)) as [Heq|Hne].
  - unfold splice. simpl. destruct (Z.ltb_spec pos (off + Z.of_nat (length bs))) as [Hlt|Hge].
    + rewrite (proj2 (Z.leb_le off pos)) by zlia. simpl. rewrite app_nth1 by zlia. f_equal. lia.
    + rewrite andb_false_r. rewrite app_nth2 by zlia. unfold byte_at. rewrite <- Heq.
      rewrite nth_skipn. f_equal. zlia.
  - destruct (Z.leb_spec off pos), (Z.ltb_spec pos (off + Z.of_nat (length bs))); simpl; try done. zlia.
Qed.

Lemma write_loop_end fuel s p i buf off w :
  cache_ok s -> inodes s !! p = Some i -> 0 <= off < 2 ^ 31 ->
  buf = [] \/ d_length (data i) <= off -> write_loop (S fuel) p buf off w s = Ok (w, s).
Proof.
  intros Hs Hp Ho He. cbn [write_loop]. cbv zeta. destruct (Z.ltb_spec 0 (Z.of_nat (length buf))) as [Hl|]; [|done].
  destruct He as [->|He]; [simpl in Hl; lia|].
  rewrite (bindM_step _ _ _ _ _ (byte_to_sector_ok s s p i off Hs eq_refl Hp ltac:(lia))).
  rewrite (bindM_step _ _ _ _ _ (inode_length_ok s p i Hp)).
  pose proof (len_bounds s p i Hs Hp).
  rewrite (proj2 (Z.leb_le _ _)); [done|]. apply chunk_at_end; lia.
Qed.

Definition fitting (i : inode) (buf : list Z) (off : Z) : list Z :=
  take (Z.to_nat (avail (d_length (data i)) (Z.of_nat (length buf)) off)) buf.

Lemma fitting_split i buf off n :
  0 <= n -> n <= Z.of_nat (length buf) -> n <= d_length (data i) - off ->
  fitting i buf off = take (Z.to_nat n) buf ++ fitting i (drop (Z.to_nat n) buf) (off + n).
Proof.
  intros Hn Hb Hl. unfold fitting. rewrite (avail_split _ _ off n) by done. rewrite length_drop.
  rewrite Nat2Z.inj_sub, Z2Nat.id, Z2Nat.inj_add by (unfold avail; lia).
  symmetry. apply take_take_drop.
Qed.

Lemma write_loop_ok fuel s p i buf off w :
  cache_ok s -> inodes s !! p = Some i -> on_boundary off ->
  forallb is_byte buf = true -> Z.of_nat (length buf) <= 512 * (Z.of_nat fuel - 1) ->
  exists s', write_loop fuel p buf off w s = Ok (w + Z.of_nat (length (fitting i buf off)), s') /\
    wrote s s' p off (fitting i buf off).
Proof.
  revert s buf off w. induction fuel as [|fuel IH]; intros s buf off w Hs Hp Ho Hbs Hf; [lia|].
  pose proof (len_bounds s p i Hs Hp) as Hlen. pose proof Ho as [Hoz Hom].
  destruct (decide (buf = [] \/ d_length (data i) <= off)) as [He|He].
  { assert (fitting i buf off = []) as ->.
    { destruct He as [->|He]; unfold fitting; [by rewrite take_nil|].
      unfold avail. rewrite Z.max_l by lia. done. }
    exists s. rewrite (write_loop_end fuel s p i) by done.
    split; [simpl; do 2 f_equal; lia|by apply wrote_nil]. }
  assert (Hb0 : 0 < Z.of_nat (length buf)) by (destruct buf; [by destruct He; left|simpl; lia]).
  cbn [write_loop]. cbv zeta. rewrite (proj2 (Z.ltb_lt 0 _) Hb0).
  rewrite (bindM_step _ _ _ _ _ (byte_to_sector_ok s s p i off Hs eq_refl Hp ltac:(lia))).
  rewrite (bindM_step _ _ _ _ _ (inode_length_ok s p i Hp)).
  rewrite chunk_of_aligned by (done || lia). set (n := Z.min (Z.of_nat (length buf)) _).
  assert (0 < n <= 512) as Hn by lia. rewrite (proj2 (Z.leb_gt n 0)) by lia.
  assert (Hal : aligned i off) by (apply sector_start; [done|lia]).
  assert (Hbs1 : forallb is_byte (take (Z.to_nat n) buf) = true /\ forallb is_byte (drop (Z.to_nat n) buf) = true).
  { rewrite <- (take_drop (Z.to_nat n) buf), forallb_app in Hbs. by apply andb_prop in Hbs. }
  assert (Hl1 : length (take (Z.to_nat n) buf) = Z.to_nat n) by (rewrite length_take; lia).
  destruct (cache_write_ok s p off i (take (Z.to_nat n) buf) Hroom Hs Hp Hal) as (s1 & Hw & Hc); [apply Hbs1|lia|].
  apply (changed_wrote s s1 p off i) in Hc; [|done..|lia].
  rewrite (bindM_step _ _ _ _ _ Hw), s32_small by lia. rewrite (fitting_split i buf off n) by lia.
  pose proof (w_ok _ _ _ _ _ Hc) as Hs1.
  assert (Hp1 : inodes s1 !! p = Some i) by (by rewrite (w_inodes _ _ _ _ _ Hc)).
  assert (exists s', write_loop fuel p (drop (Z.to_nat n) buf) (off + n) (w + n) s1 =
      Ok (w + n + Z.of_nat (length (fitting i (drop (Z.to_nat n) buf) (off + n))), s') /\
      wrote s1 s' p (off + n) (fitting i (drop (Z.to_nat n) buf) (off + n))) as (s' & Hl & Hwr).
  { destruct (Z.eq_dec n 512) as [Hn512|Hn512].
    - apply IH; [done|done|split; [lia|zlia]|apply Hbs1|rewrite length_drop; lia].
    - destruct fuel as [|fuel]; [lia|]. exists s1.
      assert (drop (Z.to_nat n) buf = [] \/ d_length (data i) <= off + n) as He'.
      { destruct (Z.eq_dec n (Z.of_nat (length buf))); [left; apply drop_ge; lia|right; lia]. }
      rewrite (write_loop_end fuel s1 p i) by (done || lia).
      assert (fitting i (drop (Z.to_nat n) buf) (off + n) = []) as ->.
      { destruct He' as [->|He']; unfold fitting; [by rewrite take_nil|].
        unfold avail. rewrite Z.max_l by lia. done. }
      split; [simpl; do 2 f_equal; lia|by apply wrote_nil]. }
  exists s'. split; [rewrite Hl, length_app, Hl1; do 2 f_equal; lia|].
  eapply wrote_app; [exact Hc|]. rewrite Hl1, Z2Nat.id by lia. exact Hwr.
Qed.

(** Writes are refused while [deny_write_cnt] is not zero. *)
Lemma inode_write_denied s p i buf off :
  inodes s !! p = Some i -> deny_write_cnt i <> 0 -> inode_write_at p buf off s = Ok (0, s).
Proof.
  intros Hp Hd. unfold inode_write_at, get_inode, mbind, M_bind. rewrite Hp.
  by rewrite (proj2 (Z.eqb_neq _ _) Hd).
Qed.

Lemma inode_write_ok s p i buf off :
  cache_ok s -> inodes s !! p = Some i -> deny_write_cnt i = 0 -> on_boundary off ->
  forallb is_byte buf = true ->
  exists s', inode_write_at p buf off s = Ok (Z.of_nat (length (fitting i buf off)), s') /\
    wrote s s' p off (fitting i buf off).
Proof.
  intros Hs Hp Hd Ho Hb. unfold inode_write_at, get_inode, mbind, M_bind. rewrite Hp, Hd. cbn [Z.eqb negb].
  apply (write_loop_ok _ s p i buf off 0); [done..|]. apply io_fuel_ok. lia.
Qed.

(** ** Files are arrays of bytes *)

Inductive io_op : Type :=
  | IRead (p size off : Z)
  | IWrite (p : Z) (bs : list Z) (off : Z).

Inductive io_result : Type := Bytes (bs : list Z) | Count (n : Z).

Definition io_call (o : io_op) : M fs io_result :=
  match o with
  | IRead p size off => bs ← inode_read_at p size off; mret (Bytes bs)
  | IWrite p bs off => n ← inode_write_at p bs off; mret (Count n)
  end.

Fixpoint io_run (os : list io_op) : M fs (list io_result) :=
  match os with
  | [] => mret []
  | o :: os => r ← io_call o; rs ← io_run os; mret (r :: rs)
  end.

(** The same calls on a volume: a byte for each inode and position. *)
Definition volume : Type := Z -> Z -> Z.

Definition vol_call (m : gmap Z inode) (o : io_op) (v : volume) : io_result * volume :=
  match o with
  | IRead p size off =>
      match m !! p with
      | Some i => (Bytes (map (v p) (seqZ off (avail (d_length (data i)) size off))), v)
      | None => (Bytes [], v)
      end
  | IWrite p bs off =>
      match m !! p with
      | Some i =>
          if deny_write_cnt i =? 0 then
            (Count (Z.of_nat (length (fitting i bs off))),
             fun q pos => if (p =? q) && (off <=? pos) && (pos <? off + Z.of_nat (length (fitting i bs off)))
                          then nth (Z.to_nat (pos - off)) (fitting i bs off) 0 else v q pos)
          else (Count 0, v)
      | None => (Count 0, v)
      end
  end.

Fixpoint vol_run (m : gmap Z inode) (os : list io_op) (v : volume) : list io_result * volume :=
  match os with
  | [] => ([], v)
  | o :: os => let '(r, v1) := vol_call m o v in
               let '(rs, v2) := vol_run m os v1 in (r :: rs, v2)
  end.

(** Calls on open inodes that start on a sector boundary. *)
Definition io_op_ok (m : gmap Z inode) (o : io_op) : Prop :=
  match o with
  | IRead p size off => is_Some (m !! p) /\ on_boundary off /\ 0 <= size
  | IWrite p bs off => is_Some (m !! p) /\ on_boundary off /\ forallb is_byte bs = true
  end.

Definition shows (s : fs) (v : volume) : Prop :=
  forall p i pos, inodes s !! p = Some i -> 0 <= pos < d_length (data i) -> byte_at s p i pos = v p pos.

Lemma io_call_ok s v o :
  cache_ok s -> io_op_ok (inodes s) o -> shows s v ->
  exists s', io_call o s = Ok (fst (vol_call (inodes s) o v), s') /\ cache_ok s' /\
    inodes s' = inodes s /\ shows s' (snd (vol_call (inodes s) o v)).
Proof.
  intros Hs Ho Hv. destruct o as [p size off|p bs off]; destruct Ho as ([i Hi] & Hb & Hx); simpl; rewrite Hi.
  - destruct (inode_read_ok s p i size off Hs Hi Hb Hx) as (s' & Hr & K).
    exists s'. rewrite (bindM_step _ _ _ _ _ Hr). split.
    + unfold mret, M_ret. cbn [fst]. do 3 f_equal. apply map_ext_in. intros k Hk%list_elem_of_In%elem_of_seqZ.
      apply Hv; [done|]. unfold avail in Hk. destruct Hb. lia.
    + split; [apply K|]. split; [apply K|]. intros q j pos Hq Hpos. rewrite (k_inodes _ _ K) in Hq.
      rewrite (kept_byte_at s s' q j pos K Hq Hpos). by apply Hv.
  - destruct (Z.eqb_spec (deny_write_cnt i) 0) as [Hd|Hd].
    + destruct (inode_write_ok s p i bs off Hs Hi Hd Hb Hx) as (s' & Hw & W).
      exists s'. rewrite (bindM_step _ _ _ _ _ Hw). split; [done|]. split; [apply W|]. split; [apply W|].
      intros q j pos Hq Hpos. rewrite (w_inodes _ _ _ _ _ W) in Hq.
      rewrite (w_bytes _ _ _ _ _ W q j pos Hq Hpos). simpl. rewrite (Hv q j pos Hq Hpos). done.
    + exists s. by rewrite (bindM_step _ _ _ _ _ (inode_write_denied s p i bs off Hi Hd)).
Qed.

Lemma io_run_ok os s v :
  cache_ok s -> Forall (io_op_ok (inodes s)) os -> shows s v ->
  exists s', io_run os s = Ok (fst (vol_run (inodes s) os v), s') /\ cache_ok s' /\
    inodes s' = inodes s /\ shows s' (snd (vol_run (inodes s) os v)).
Proof.
  revert s v. induction os as [|o os IH]; intros s v Hs Ho Hv; [by exists s|].
  apply Forall_cons in Ho as [Ho Hos]. cbn [io_run vol_run].
  destruct (io_call_ok s v o Hs Ho Hv) as (s1 & Hc & Hs1 & Hi1 & Hv1).
  rewrite (bindM_step _ _ _ _ _ Hc). destruct (vol_call (inodes s) o v) as [r v1]. simpl in *.
  destruct (IH s1 v1 Hs1) as (s2 & Hr & Hs2 & Hi2 & Hv2); [by rewrite Hi1|done|].
  rewrite Hi1 in *. exists s2. rewrite (bindM_step _ _ _ _ _ Hr).
  destruct (vol_run (inodes s) os v1) as [rs v2]. simpl in *. by rewrite Hi2.
Qed.
End io.
