(* ===== verification/CacheFlush.v ===== *)
(** * Writing the cache back: write-behind of filesys/buf_cache.c

    After [buffer_cache_write_behind_all] the disk holds what the files show.
    The loops run with [bfc_lock] held, which none of the steps inside looks
    at: [lock_free]. *)

From S2P Require Import Prelude Vaddr Disk Alloc BufCache CacheInv CacheOps.

Section lock_free.
Context {D A : Type} {HD : BlockDevice D} {HA : Allocator A}.
Abbreviation fs := (@fs D A).
Implicit Types s : fs.

(** The computation neither reads nor writes [bfc_lock]. *)
Definition lock_free {X} (m : M fs X) : Prop := forall s b,
  m (set_bfc_lock b s) =
  match m s with Ok (x, s') => Ok (x, set_bfc_lock b s') | Fail e => Fail e end.

Lemma lock_free_bind {X Y} (m : M fs X) (f : X -> M fs Y) :
  lock_free m -> (forall x, lock_free (f x)) -> lock_free (m ≫= f).
Proof.
  intros Hm Hf s b. unfold mbind, M_bind. rewrite Hm. destruct (m s) as [[x s']|]; [apply Hf|done].
Qed.
Lemma lock_free_ret {X} (x : X) : lock_free (mret x).
Proof. done. Qed.
Lemma lock_free_assert c : lock_free (assertM c).
Proof. by destruct c. Qed.
Lemma lock_free_get_bfc a : lock_free (get_bfc a).
Proof. intros s b. unfold get_bfc. simpl. by destruct (bfcs s !! a). Qed.
Lemma lock_free_get_inode p : lock_free (get_inode p).
Proof. intros s b. unfold get_inode. simpl. by destruct (inodes s !! p). Qed.
Lemma lock_free_put_bfc a e : lock_free (put_bfc a e).
Proof. done. Qed.
Lemma lock_free_on_disk {X} (m : M D X) : lock_free (on_disk m).
Proof. intros s b. unfold on_disk. simpl. by destruct (m (fdisk s)) as [[x d]|]. Qed.
Lemma lock_free_if {X} (c : bool) (m1 m2 : M fs X) :
  lock_free m1 -> lock_free m2 -> lock_free (if c then m1 else m2).
Proof. by destruct c. Qed.
End lock_free.

Create HintDb lockfree.
#[export] Hint Resolve lock_free_bind lock_free_ret lock_free_assert lock_free_get_bfc lock_free_get_inode
  lock_free_put_bfc lock_free_on_disk lock_free_if : lockfree.

Section flush.
Context {D A : Type} {HD : BlockDevice D} {HDL : BlockDeviceLaws D} {HA : Allocator A} {HAL : AllocatorLaws A}.
Abbreviation fs := (@fs D A).
Implicit Types (s : fs) (e : bfc_entry).

Lemma lock_free_write_behind a : lock_free (D := D) (A := A) (buffer_cache_write_behind a).
Proof.
  unfold buffer_cache_write_behind, acquire_entry, release_entry, update_bfc, byte_to_sector, disk_write.
  auto 20 with lockfree.
Qed.

Lemma lock_free_loop l : lock_free (D := D) (A := A) (write_behind_loop l).
Proof.
  induction l as [|a l IH]; cbn [write_behind_loop]; [apply lock_free_ret|].
  unfold update_bfc. auto 20 using lock_free_write_behind with lockfree.
Qed.

Lemma lock_free_inode_loop l p : lock_free (D := D) (A := A) (write_inode_loop l p).
Proof.
  induction l as [|a l IH]; cbn [write_inode_loop]; [apply lock_free_ret|].
  auto 20 using lock_free_write_behind with lockfree.
Qed.

(** A loop run between taking and releasing the lock. *)
Lemma locked_ok (m : list Z -> M fs unit) s s' :
  (forall l, lock_free (m l)) -> bfc_lock s = false -> bfc_lock s' = false ->
  m (buffer_cache s) s = Ok (tt, s') ->
  (acquire_bfc_lock ;; l ← gets buffer_cache; m l ;; release_bfc_lock) s = Ok (tt, s').
Proof.
  intros Hm Hs Hs' Hr. unfold acquire_bfc_lock, release_bfc_lock.
  erewrite bindM_step by (erewrite bindM_step by reflexivity; rewrite Hs; reflexivity).
  erewrite bindM_step by reflexivity.
  erewrite bindM_step by (cbn [buffer_cache set_bfc_lock]; rewrite Hm, Hr; reflexivity).
  destruct s'; simpl in *; by subst.
Qed.

(** ** The loop over all entries *)

Definition clean_at (s : fs) (a : Z) : Prop := exists e, bfcs s !! a = Some e /\ dirty e = false.

Lemma write_behind_step s a :
  cache_ok s -> a ∈ buffer_cache s ->
  exists s', (update_bfc a (bfc_with_accessed false) ;; e ← get_bfc a;
              if dirty e then buffer_cache_write_behind a else mret tt) s = Ok (tt, s') /\
    clocked s s' /\ clean_at s' a /\ forall b, b <> a -> bfcs s' !! b = bfcs s !! b.
Proof.
  intros Hs Ha. destruct (co_entry s Hs a Ha) as (_ & e & He & _).
  rewrite (bindM_step _ _ _ _ _ (update_bfc_ok s a e _ He)).
  set (e1 := bfc_with_accessed false e). set (s1 := set_bfcs _ s).
  pose proof (clear_accessed_ok s a e Hs Ha He : kept s s1) as K1.
  assert (C1 : clocked s s1) by (split; [done|]; split; [done|]; by eapply same_keys_insert).
  assert (He1 : bfcs s1 !! a = Some e1) by apply lookup_insert_eq.
  rewrite (bindM_step _ _ _ _ _ (get_bfc_ok s1 a e1 He1)). destruct (dirty e1) eqn:Hd.
  - destruct (write_behind_ok s1 a e1 (k_ok _ _ K1) Ha He1) as (d & Hw & K2).
    eexists. split; [exact Hw|]. split; [|split].
    + eapply clocked_trans; [exact C1|]. split; [done|]. split; [done|]. by eapply same_keys_insert.
    + exists (cleaned e1). split; [apply lookup_insert_eq|done].
    + intros b Hb. simpl. by rewrite !lookup_insert_ne by done.
  - exists s1. split; [done|]. split; [done|]. split; [by exists e1|].
    intros b Hb. simpl. by rewrite lookup_insert_ne.
Qed.

Lemma write_behind_loop_ok l s :
  cache_ok s -> NoDup l -> (forall a, a ∈ l -> a ∈ buffer_cache s) ->
  exists s', write_behind_loop l s = Ok (tt, s') /\ clocked s s' /\
    (forall a, a ∈ l -> clean_at s' a) /\ (forall b, b ∉ l -> bfcs s' !! b = bfcs s !! b).
Proof.
  intros Hs Hn. revert s Hs. induction Hn as [|a l Ha Hn IH]; intros s Hs Hl.
  { exists s. split; [done|]. split; [by split; [apply kept_refl|]|]. split; [|done].
    intros a Ha. by apply elem_of_nil in Ha. }
  destruct (write_behind_step s a Hs) as (s1 & H1 & C1 & Hc1 & Ho1); [apply Hl; by left|].
  destruct (IH s1) as (s2 & H2 & C2 & Hc2 & Ho2); [apply C1| |].
  { intros b Hb. rewrite (proj1 (proj2 C1)). apply Hl. by right. }
  exists s2. split; [|split; [by eapply clocked_trans|split]].
  - cbn [write_behind_loop]. revert H1. unfold mbind, M_bind at 1 2 3 4 5.
    destruct (update_bfc _ _ s) as [[[] s3]|]; [|done]. destruct (get_bfc a s3) as [[e s4]|]; [|done].
    by intros ->.
  - intros b [->|Hb]%elem_of_cons; [|by apply Hc2]. destruct Hc1 as (e & He & Hd).
    exists e. by rewrite Ho2.
  - intros b [Hba Hb]%not_elem_of_cons. rewrite Ho2, Ho1 by done. done.
Qed.

Lemma write_behind_all_ok s :
  cache_ok s ->
  exists s', buffer_cache_write_behind_all s = Ok (tt, s') /\ kept s s' /\
    forall p i off, inodes s !! p = Some i -> aligned i off ->
      bd_content (fdisk s') (home i off) = seen s p off i.
Proof.
  intros Hs. destruct (write_behind_loop_ok (buffer_cache s) s Hs (co_nodup s Hs)) as (s' & Hl & C & Hc & _); [done|].
  exists s'. pose proof (k_ok _ _ (proj1 C)) as Hs'. split; [|split; [apply C|]].
  - unfold buffer_cache_write_behind_all.
    by apply (locked_ok write_behind_loop s s'); [apply lock_free_loop|apply co_lock..|].
  - intros p i off Hp Ho. rewrite <- (k_seen _ _ (proj1 C) p i off Hp Ho).
    destruct (cached_or_not s' p off Hs') as [(a & e & Ha & He & Hk)|Hu]; [|by rewrite seen_uncached].
    rewrite (seen_cached s' a e) by done. destruct (entry_of s' a e Hs' Ha He) as (i' & Hi' & _ & Hcl).
    destruct Hcl as (_ & _ & _ & _ & _ & Hcl). destruct Hk as [Hk1 Hk2].
    rewrite Hk1, (k_inodes _ _ (proj1 C)), Hp in Hi'. injection Hi' as <-. rewrite <- Hk2. symmetry. apply Hcl.
    rewrite (proj1 (proj2 C)) in Ha. destruct (Hc a Ha) as (e' & He' & Hd'). congruence.
Qed.
End flush.
