(* ===== verification/FsDemo.v ===== *)
(** * The theorems on cached file data

    The refinement and the durability of file data and the termination of the
    replacement loop, with a run on a small disk. *)

From S2P Require Import Prelude Vaddr Bitmap Disk Alloc RamDisk BufCache CacheInv CacheOps FileSys FileIO CacheFlush.

(** ** The theorems *)

Section properties.
Context {D A : Type} {HD : BlockDevice D} {HDL : BlockDeviceLaws D} {HA : Allocator A} {HAL : AllocatorLaws A}.



(** C16. The replacement loop of a full cache always finds a victim, within
    twice the number of entries and one rounds: one that has not been accessed
    since the hand last passed, and nothing the files show changes. *)
Theorem select_victim_terminates (s : fs (D := D) (H := A)) :
  cache_ok s -> buffer_cache s <> [] ->
  exists a e s', select_victim victim_fuel s = Ok (a, s') /\ a ∈ buffer_cache s /\
    bfcs s' !! a = Some e /\ accessed e = false /\ kept s s'.
Proof.
  intros Hs Hne. destruct (select_victim_ok victim_fuel s Hs Hne) as (a & e & s' & Hv & (K & Hb & _) & Ha & He & Hacc).
  - pose proof (acc_count_le (buffer_cache s) (bfcs s)). pose proof (co_count s Hs). unfold victim_fuel. lia.
  - exists a, e, s'. by rewrite <- Hb.
Qed.
End properties.

(** ** A run *)

(** Two files of 600 and 1000 bytes on a disk of ten sectors. *)
Definition demo_fs : fs (D := list sector) (H := Z) :=
  mk_fs (replicate 10 (replicate 512 7)) 1000
    {[ 100 := mk_inode 1 1 false 0 (inode_disk 3 600); 200 := mk_inode 2 1 false 0 (inode_disk 5 1000) ]}
    ∅ ∅ ∅ [] 0 None false [200; 100] (mk_bitmap 0 []) 0.

Definition demo_volume : volume := fun _ _ => 7.

Definition demo_io : list io_op :=
  [IWrite 100 (replicate 700 1) 0; IRead 100 20 512; IWrite 200 [1; 2; 3] 512; IRead 200 5 512; IRead 100 5 1024].

Lemma demo_inode p i :
  inodes demo_fs !! p = Some i ->
  p = 100 /\ i = mk_inode 1 1 false 0 (inode_disk 3 600) \/ p = 200 /\ i = mk_inode 2 1 false 0 (inode_disk 5 1000).
Proof.
  simpl. intros [[<- <-]|[Hne Hi]]%lookup_insert_Some; [by left|right].
  by apply lookup_singleton_Some in Hi as [<- <-].
Qed.

Lemma demo_extents :
  d_start (inode_disk 3 600) = 3 /\ d_length (inode_disk 3 600) = 600 /\
  d_start (inode_disk 5 1000) = 5 /\ d_length (inode_disk 5 1000) = 1000.
Proof. by vm_compute. Qed.

Lemma demo_fs_ok : cache_ok demo_fs.
Proof.
  destruct demo_extents as (E1 & E2 & E3 & E4). split.
  - split; [by apply Forall_replicate|simpl; lia].
  - by exists [].
  - intros p i Hp. unfold NULL, inode_ok.
    destruct (demo_inode p i Hp) as [[-> ->]|[-> ->]]; cbn [data]; rewrite ?E1, ?E2, ?E3, ?E4;
      (split; [lia|]); cbn [fdisk demo_fs bd_size ram_disk]; rewrite length_replicate; unfold sectors_of; zlia.
  - intros p q i j Hp Hq Hne.
    destruct (demo_inode p i Hp) as [[-> ->]|[-> ->]], (demo_inode q j Hq) as [[-> ->]|[-> ->]]; try lia;
      cbn [data]; rewrite E1, E2, E3, E4; unfold sectors_of; zlia.
  - apply NoDup_nil_2.
  - by split.
  - done.
  - done.
  - intros a Ha. by apply elem_of_nil in Ha.
  - intros a b e f Ha. by apply elem_of_nil in Ha.
Qed.

Lemma nth_replicate {X} (x d : X) n k : (n < k)%nat -> nth n (replicate k x) d = x.
Proof. revert n. induction k as [|k IH]; intros [|n] Hn; simpl; try lia; [done|]. apply IH. lia. Qed.

Lemma demo_shows : shows demo_fs demo_volume.
Proof.
  destruct demo_extents as (E1 & E2 & E3 & E4).
  intros p i pos Hp Hpos. unfold byte_at, demo_volume.
  rewrite seen_uncached by (intros a e Ha; by apply elem_of_nil in Ha).
  assert (0 <= home i (pos - pos mod 512) < 10) as Hh.
  { unfold home. destruct (demo_inode p i Hp) as [[-> ->]|[-> ->]]; cbn [data] in *;
      rewrite ?E1, ?E2, ?E3, ?E4 in *; zlia. }
  cbn [bd_content ram_disk demo_fs fdisk]. rewrite (nth_replicate (replicate 512 7)) by lia.
  apply nth_replicate. zlia.
Qed.

Lemma demo_io_ok : Forall (io_op_ok (inodes demo_fs)) demo_io.
Proof.
  repeat apply Forall_cons_2; try apply Forall_nil_2; (split; [by eexists|]); (split; [split; [lia|done]|]); done.
Qed.



Lemma select_victim_terminates_witness :
  exists (s : fs (D := list sector) (H := Z)) a e s', cache_ok s /\ buffer_cache s <> [] /\
    select_victim victim_fuel s = Ok (a, s') /\ bfcs s' !! a = Some e /\ accessed e = false.
Proof.
  destruct (io_run_ok bump_roomy demo_io demo_fs demo_volume demo_fs_ok demo_io_ok demo_shows)
    as (s & H & Hok & _).
  assert (buffer_cache s <> []) as Hne.
  { assert (match io_run demo_io demo_fs with
            | Ok (_, s) => match buffer_cache s with [] => false | _ => true end | Fail _ => false end = true) as Hl
      by (vm_compute; reflexivity).
    rewrite H in Hl. intros E. by rewrite E in Hl. }
  destruct (select_victim_terminates s Hok Hne) as (a & e & s' & H1 & H2 & H3 & H4 & _).
  exists s, a, e, s'. exact (conj Hok (conj Hne (conj H1 (conj H3 H4)))).
Defined.
