(* ===== verification/Directory.v ===== *)
(** * Directories and the file system calls: filesys/directory.c, filesys.c

    A directory is an array of 20-byte entries in a file.  The file system
    calls format, mount and unmount the disk and create, open and remove the
    files of the root directory. *)

From S2P Require Import Prelude Vaddr Bitmap Disk Alloc BufCache FileSys.

Section directories.
Context {D A : Type} {HD : BlockDevice D} {HA : Allocator A}.
Abbreviation fs := (@fs D A).

(** ** directory.c *)

Definition get_dir (p : Z) : M fs dir := fun s =>
  match dirs s !! p with Some d => Ok (d, s) | None => Fail BadAccess end.
Definition put_dir (p : Z) (d : dir) : M fs unit := modify (fun s => set_dirs (<[p := d]> (dirs s)) s).

Definition dir_create (sector entry_cnt : Z) : M fs bool :=
  inode_create sector (s32 (u32 (entry_cnt * sizeof_dir_entry))).

Definition dir_open (inode : Z) : M fs Z :=
  p ← calloc 1 sizeof_dir;
  if negb (inode =? NULL) && negb (p =? NULL) then
    put_dir p (mk_dir inode 0) ;; mret p
  else inode_close inode ;; free p ;; mret NULL.

Definition dir_open_root : M fs Z := p ← inode_open ROOT_DIR_SECTOR; dir_open p.

Definition dir_reopen (p : Z) : M fs Z :=
  d ← get_dir p; q ← inode_reopen (dir_inode d); dir_open q.

Definition dir_close (p : Z) : M fs unit :=
  if p =? NULL then mret tt else
  d ← get_dir p;
  inode_close (dir_inode d) ;;
  modify (fun s => set_dirs (delete p (dirs s)) s) ;;
  free p.

Definition dir_get_inode (p : Z) : M fs Z := d ← get_dir p; mret (dir_inode d).

(** One entry of the directory, read into [e]; [None] on a short read. *)
Definition read_entry (inode ofs : Z) (e : list Z) : M fs (bool * list Z) :=
  bs ← inode_read_at inode sizeof_dir_entry ofs;
  mret (Z.of_nat (length bs) =? sizeof_dir_entry, fill_buffer bs e).

(** [for (ofs = 0; ...; ofs += sizeof e)] until an entry satisfies [test]:
    the entry and its offset, or the buffer and the offset where the entries
    end. *)
Fixpoint scan_entries (fuel : nat) (test : list Z -> bool) (inode ofs : Z) (e : list Z)
    : M fs (bool * list Z * Z) :=
  match fuel with
  | O => fail NoFuel
  | S fuel =>
      '(full, e) ← read_entry inode ofs e;
      if negb full then mret (false, e, ofs)
      else if test e then mret (true, e, ofs)
      else scan_entries fuel test inode (ofs + sizeof_dir_entry) e
  end.

(** One round per entry that fits in the directory, and one more. *)
Definition scan_fuel (len : Z) : nat := Z.to_nat (len / 20 + 2).

(** [junk] is the uninitialised [struct dir_entry] on the stack. *)
Definition lookup (p : Z) (name junk : list Z) : M fs (option (list Z * Z)) :=
  assertM (negb (p =? NULL)) ;;
  d ← get_dir p;
  len ← inode_length (dir_inode d);
  r ← scan_entries (scan_fuel len) (fun e => e_in_use e && same_name name e) (dir_inode d) 0 junk;
  let '(found, e, ofs) := r in
  mret (if (found : bool) then Some (e, ofs) else None).

(** Returns the inode; a null pointer is the result [false]. *)
Definition dir_lookup (p : Z) (name junk : list Z) : M fs Z :=
  assertM (negb (p =? NULL)) ;;
  r ← lookup p name junk;
  match r with
  | Some (e, _) => inode_open (e_inode_sector e)
  | None => mret NULL
  end.

Definition dir_add (p : Z) (name : list Z) (inode_sector : Z) (junk : list Z) : M fs bool :=
  assertM (negb (p =? NULL)) ;;
  if (Z.of_nat (length name) =? 0) || (NAME_MAX <? Z.of_nat (length name)) then mret false else
  r ← lookup p name junk;
  match r with
  | Some _ => mret false
  | None =>
      d ← get_dir p;
      len ← inode_length (dir_inode d);
      r ← scan_entries (scan_fuel len) (fun e => negb (e_in_use e)) (dir_inode d) 0 junk;
      let '(_, e, ofs) := r in
      let e := set_inode_sector inode_sector (copy_name name (set_in_use true e)) in
      n ← inode_write_at (dir_inode d) e ofs;
      mret (n =? sizeof_dir_entry)
  end.

Definition dir_remove (p : Z) (name junk : list Z) : M fs bool :=
  assertM (negb (p =? NULL)) ;;
  r ← lookup p name junk;
  match r with
  | None => mret false
  | Some (e, ofs) =>
      inode ← inode_open (e_inode_sector e);
      if inode =? NULL then mret false else
      d ← get_dir p;
      n ← inode_write_at (dir_inode d) (set_in_use false e) ofs;
      if negb (n =? sizeof_dir_entry) then inode_close inode ;; mret false
      else inode_remove inode ;; inode_close inode ;; mret true
  end.

Fixpoint readdir_loop (fuel : nat) (p : Z) (e : list Z) : M fs (option (list Z)) :=
  match fuel with
  | O => fail NoFuel
  | S fuel =>
      d ← get_dir p;
      '(full, e) ← read_entry (dir_inode d) (dir_pos d) e;
      if negb full then mret None else
      put_dir p (mk_dir (dir_inode d) (s32 (dir_pos d + sizeof_dir_entry))) ;;
      if e_in_use e then mret (Some (take 14 (c_string (e_name e)))) else readdir_loop fuel p e
  end.

(** The name of the next entry in use. *)
Definition dir_readdir (p : Z) (junk : list Z) : M fs (option (list Z)) :=
  d ← get_dir p;
  len ← inode_length (dir_inode d);
  readdir_loop (scan_fuel len) p junk.

(** ** free-map.c: the free map's file *)

(** [bitmap_create (disk_size (filesys_disk))] and the two reserved sectors. *)
Definition free_map_init : M fs unit :=
  n ← gets (fun s => bd_size (fdisk s));
  b ← malloc 8;
  bits ← (if b =? NULL then mret NULL else malloc (byte_cnt n));
  r ← liftM (Bitmap.bitmap_create (negb (b =? NULL))
               (if bits =? NULL then None else Some (replicate (Z.to_nat (elem_cnt n)) 0)) n);
  match r with
  | None => fail KernelPanic
  | Some m =>
      m ← liftM (bitmap_mark m FREE_MAP_SECTOR);
      m ← liftM (bitmap_mark m ROOT_DIR_SECTOR);
      modify (set_free_map m)
  end.

Definition free_map_open : M fs unit :=
  p ← inode_open FREE_MAP_SECTOR;
  f ← file_open p;
  modify (set_free_map_file f) ;;
  if f =? NULL then fail KernelPanic else
  b ← gets free_map;
  '(ok, b') ← bitmap_read b f;
  modify (set_free_map b') ;;
  if (ok : bool) then mret tt else fail KernelPanic.

Definition free_map_close : M fs unit := f ← gets free_map_file; file_close f.

Definition free_map_create : M fs unit :=
  b ← gets free_map;
  ok ← inode_create FREE_MAP_SECTOR (s32 (bitmap_file_size b));
  if negb ok then fail KernelPanic else
  p ← inode_open FREE_MAP_SECTOR;
  f ← file_open p;
  modify (set_free_map_file f) ;;
  if f =? NULL then fail KernelPanic else
  b ← gets free_map;
  ok ← bitmap_write b f;
  if negb ok then fail KernelPanic else mret tt.

(** ** filesys.c *)

Definition do_format : M fs unit :=
  free_map_create ;;
  ok ← dir_create ROOT_DIR_SECTOR 16;
  if negb ok then fail KernelPanic else free_map_close.

(** The disk has been found: [disk_get (0, 1)] is the device of the state. *)
Definition filesys_init (format : bool) : M fs unit :=
  inode_init ;;
  free_map_init ;;
  (if format then do_format else mret tt) ;;
  free_map_open.

Definition filesys_done : M fs unit :=
  free_map_close ;; buffer_cache_write_behind_all ;; buffer_cache_flush.

Definition filesys_create (name : list Z) (initial_size : Z) (junk : list Z) : M fs bool :=
  dir ← dir_open_root;
  r ← (if dir =? NULL then mret None else free_map_allocate 1);
  let inode_sector := default 0 r in
  success ← (match r with
             | None => mret false
             | Some sector =>
                 ok ← inode_create sector initial_size;
                 if (ok : bool) then dir_add dir name sector junk else mret false
             end);
  (if negb success && negb (inode_sector =? 0) then free_map_release inode_sector 1 else mret tt) ;;
  dir_close dir ;;
  mret success.

Definition filesys_open (name junk : list Z) : M fs Z :=
  dir ← dir_open_root;
  inode ← (if dir =? NULL then mret NULL else dir_lookup dir name junk);
  dir_close dir ;;
  file_open inode.

Definition filesys_remove (name junk : list Z) : M fs bool :=
  dir ← dir_open_root;
  success ← (if dir =? NULL then mret false else dir_remove dir name junk);
  dir_close dir ;;
  mret success.
End directories.
