(* ===== verification/FileRef.v ===== *)
(** * Open files and their inodes: reference and deny-write counts

    [open_cnt] of an inode is the number of open files on it and
    [deny_write_cnt] the number of those that deny writes, whatever sequence
    of reopening, denying, allowing and closing produced them, failing
    allocations included; so the assertions of filesys/inode.c never fail and
    an executable that is running cannot be written. *)

From S2P Require Import Prelude MapSum Vaddr Disk Alloc BufCache FileSys RamDisk FsDemo.

(** The weight of a file in the counts of inode [p]. *)
Definition opens (p : Z) (f : file) : Z := if f_inode f =? p then 1 else 0.
Definition denies (p : Z) (f : file) : Z := if (f_inode f =? p) && f_deny_write f then 1 else 0.

Section refcount.
Context {D A : Type} {HD : BlockDevice D} {HA : Allocator A} {HAL : AllocatorLaws A}.
Abbreviation fs := (@fs D A).
Implicit Types (s : fs) (i : inode) (f : file).

Record file_inv (s : fs) : Prop := {
  fi_inodes : forall p i, inodes s !! p = Some i ->
    open_cnt i = msum (opens p) (files s) /\ deny_write_cnt i = msum (denies p) (files s);
  fi_files : forall q f, files s !! q = Some f ->
    q <> NULL /\ f_inode f <> NULL /\ is_Some (inodes s !! f_inode f);
  fi_heap : exists live, al_ok (fheap s) live /\ forall q f, files s !! q = Some f -> q ∈ live.*1;
}.

Lemma opens_nonneg (m : gmap Z file) p : forall q f, m !! q = Some f -> 0 <= opens p f.
Proof. intros q f _. unfold opens. by destruct (f_inode f =? p). Qed.

Lemma denies_nonneg (m : gmap Z file) p : forall q f, m !! q = Some f -> 0 <= denies p f.
Proof. intros q f _. unfold denies. by destruct (_ && _). Qed.

Lemma denies_le_opens p (m : gmap Z file) : msum (denies p) m <= msum (opens p) m.
Proof.
  induction m as [|q f m Hq IH] using map_ind; [by rewrite !msum_empty|].
  rewrite !msum_insert_fresh by done. unfold denies, opens in *.
  destruct (f_inode f =? p), (f_deny_write f); simpl; lia.
Qed.

(** The files of a state with the file at [q] replaced by one with the same
    inode. *)
Lemma opens_same (m : gmap Z file) q f f' p :
  m !! q = Some f -> f_inode f' = f_inode f -> msum (opens p) (<[q := f']> m) = msum (opens p) m.
Proof. intros Hq Hf. rewrite (msum_insert _ m q f' f Hq). unfold opens. rewrite Hf. lia. Qed.

Lemma get_file_ok s q f : files s !! q = Some f -> get_file q s = Ok (f, s).
Proof. unfold get_file. by intros ->. Qed.
Lemma get_inode_ok s p i : inodes s !! p = Some i -> get_inode p s = Ok (i, s).
Proof. unfold get_inode. by intros ->. Qed.

(** Replacing an inode whose counts are right for the new files. *)
Lemma file_inv_update s q f f' i i' :
  file_inv s -> files s !! q = Some f -> inodes s !! f_inode f = Some i -> f_inode f' = f_inode f ->
  open_cnt i' = open_cnt i ->
  deny_write_cnt i' = deny_write_cnt i - denies (f_inode f) f + denies (f_inode f) f' ->
  file_inv (set_inodes (<[f_inode f := i']> (inodes s)) (set_files (<[q := f']> (files s)) s)).
Proof.
  intros [Hi Hf Hh] Hq Hp Hff Ho Hd. split; simpl.
  - intros p j Hj. rewrite (opens_same _ q f) by done. rewrite (msum_insert (denies p) _ q f' f Hq).
    apply lookup_insert_Some in Hj as [[<- <-]|[Hne Hj]].
    + destruct (Hi _ i Hp) as [E1 E2]. split; lia.
    + destruct (Hi p j Hj) as [E1 E2]. split; [done|]. unfold denies. rewrite Hff.
      rewrite (proj2 (Z.eqb_neq (f_inode f) p) Hne). simpl. unfold denies in E2. lia.
  - intros q' g Hg. apply lookup_insert_Some in Hg as [[<- <-]|[Hne Hg]].
    + rewrite Hff. destruct (Hf q f Hq) as (H1 & H2 & _). split; [done|]. split; [done|].
      rewrite lookup_insert_eq. by eexists.
    + destruct (Hf q' g Hg) as (H1 & H2 & [j Hj]). split; [done|]. split; [done|].
      destruct (Z.eq_dec (f_inode g) (f_inode f)) as [->|Hn]; [rewrite lookup_insert_eq; by eexists|].
      rewrite lookup_insert_ne by done. by exists j.
  - destruct Hh as (live & Hl & Hin). exists live. split; [done|].
    intros q' g Hg. apply lookup_insert_Some in Hg as [[<- _]|[_ Hg]]; by eapply Hin.
Qed.

(** ** Denying and allowing writes *)

Lemma assert_step (b : bool) s : b = true -> assertM b s = Ok (tt, s).
Proof. by intros ->. Qed.

Lemma file_deny_ok s q f :
  file_inv s -> files s !! q = Some f -> exists s', file_deny_write q s = Ok (tt, s') /\ file_inv s'.
Proof.
  intros Hs Hq. destruct (fi_files s Hs q f Hq) as (Hq0 & Hp0 & [i Hi]).
  unfold file_deny_write. rewrite bindM_assert by (by apply negb_true_iff, Z.eqb_neq).
  rewrite (bindM_step _ _ _ _ _ (get_file_ok s q f Hq)).
  destruct (f_deny_write f) eqn:Hd; cbn [negb]; [by exists s|].
  set (f' := mk_file (f_inode f) (f_pos f) true).
  assert (Hw : denies (f_inode f) f = 0 /\ denies (f_inode f) f' = 1).
  { unfold denies. rewrite Hd. cbn [f_inode f_deny_write f']. by rewrite andb_false_r, Z.eqb_refl. }
  pose proof (file_inv_update s q f f' i (with_deny (deny_write_cnt i + 1) i) Hs Hq Hi eq_refl eq_refl
                ltac:(simpl; lia)) as Hinv.
  erewrite bindM_step by reflexivity. unfold inode_deny_write.
  erewrite bindM_step by (apply get_inode_ok; exact Hi). erewrite bindM_step by reflexivity.
  eexists. split; [|exact Hinv]. apply assert_step, Z.leb_le.
  destruct (fi_inodes _ Hinv (f_inode f) (with_deny (deny_write_cnt i + 1) i)) as [E1 E2]; [apply lookup_insert_eq|].
  simpl in E1, E2. pose proof (denies_le_opens (f_inode f) (<[q := f']> (files s))). simpl in *. lia.
Qed.

Lemma file_allow_ok s q f :
  file_inv s -> files s !! q = Some f ->
  exists s', file_allow_write q s = Ok (tt, s') /\ file_inv s' /\
    files s' = <[q := mk_file (f_inode f) (f_pos f) false]> (files s) /\ fheap s' = fheap s.
Proof.
  intros Hs Hq. destruct (fi_files s Hs q f Hq) as (Hq0 & Hp0 & [i Hi]).
  destruct (fi_inodes s Hs _ i Hi) as [Eo Ed].
  unfold file_allow_write. rewrite bindM_assert by (by apply negb_true_iff, Z.eqb_neq).
  rewrite (bindM_step _ _ _ _ _ (get_file_ok s q f Hq)).
  set (f' := mk_file (f_inode f) (f_pos f) false). destruct (f_deny_write f) eqn:Hd.
  - assert (Hw : denies (f_inode f) f = 1 /\ denies (f_inode f) f' = 0).
    { unfold denies. rewrite Hd. cbn [f_inode f_deny_write f']. by rewrite andb_false_r, Z.eqb_refl. }
    pose proof (file_inv_update s q f f' i (with_deny (deny_write_cnt i - 1) i) Hs Hq Hi eq_refl eq_refl
                  ltac:(simpl; lia)) as Hinv.
    pose proof (msum_ge (denies (f_inode f)) (files s) q f (denies_nonneg _ _) Hq).
    pose proof (denies_le_opens (f_inode f) (files s)).
    erewrite bindM_step by reflexivity. unfold inode_allow_write.
    erewrite bindM_step by (apply get_inode_ok; exact Hi).
    rewrite !bindM_assert by (first [apply Z.ltb_lt|apply Z.leb_le]; lia).
    eexists. by split; [|split].
  - exists s. split; [done|]. split; [done|]. split; [|done].
    rewrite insert_id; [done|]. rewrite Hq. f_equal. subst f'. destruct f; simpl in *. by subst.
Qed.

(** ** Reopening and closing *)

(** One more or one fewer opener of [p]. *)
Lemma put_open_ok s p i n :
  inodes s !! p = Some i ->
  (i' ← get_inode p; put_inode p (with_open_cnt (open_cnt i' + n) i')) s =
    Ok (tt, set_inodes (<[p := with_open_cnt (open_cnt i + n) i]> (inodes s)) s).
Proof. intros Hi. by rewrite (bindM_step _ _ _ _ _ (get_inode_ok s p i Hi)). Qed.

(** Closing an inode that others still hold open. *)
Lemma inode_close_shared s p i :
  p <> NULL -> inodes s !! p = Some i -> 1 < open_cnt i ->
  inode_close p s = Ok (tt, set_inodes (<[p := with_open_cnt (open_cnt i - 1) i]> (inodes s)) s).
Proof.
  intros Hp Hi Ho. unfold inode_close. rewrite (proj2 (Z.eqb_neq p NULL) Hp).
  rewrite (bindM_step _ _ _ _ _ (get_inode_ok s p i Hi)). erewrite bindM_step by reflexivity.
  by rewrite (proj2 (Z.eqb_neq (open_cnt i - 1) 0)) by lia.
Qed.

(** A file more on an inode, with its count. *)
Lemma file_inv_insert s q p i h live :
  file_inv s -> inodes s !! p = Some i -> p <> NULL -> q <> NULL -> files s !! q = None ->
  al_ok h live -> (forall q' f, files s !! q' = Some f -> q' ∈ live.*1) -> q ∈ live.*1 ->
  file_inv (set_files (<[q := mk_file p 0 false]> (files s)) (set_heap h
    (set_inodes (<[p := with_open_cnt (open_cnt i + 1) i]> (inodes s)) s))).
Proof.
  intros [Hi Hf _] Hp Hp0 Hq0 Hq Hl Hin Hql. split; simpl.
  - intros p' j Hj. rewrite !msum_insert_fresh by done.
    apply lookup_insert_Some in Hj as [[<- <-]|[Hne Hj]].
    + destruct (Hi p i Hp). unfold opens at 1, denies at 1. cbn [f_inode f_deny_write].
      rewrite Z.eqb_refl. simpl. lia.
    + destruct (Hi p' j Hj). unfold opens at 1, denies at 1. cbn [f_inode f_deny_write].
      rewrite (proj2 (Z.eqb_neq p p')) by done. simpl. lia.
  - intros q' f Hg. apply lookup_insert_Some in Hg as [[<- <-]|[Hne Hg]].
    + simpl. rewrite lookup_insert_eq. split; [done|]. split; [done|]. by eexists.
    + destruct (Hf q' f Hg) as (? & ? & [j Hj]). split; [done|]. split; [done|].
      destruct (Z.eq_dec (f_inode f) p) as [->|]; [rewrite lookup_insert_eq; by eexists|].
      rewrite lookup_insert_ne by done. by exists j.
  - exists live. split; [done|]. intros q' f Hg. apply lookup_insert_Some in Hg as [[<- _]|[_ Hg]]; [done|].
    by eapply Hin.
Qed.

Lemma set_back s p i :
  inodes s !! p = Some i ->
  set_inodes (<[p := with_open_cnt (open_cnt i + 1 - 1) (with_open_cnt (open_cnt i + 1) i)]>
    (<[p := with_open_cnt (open_cnt i + 1) i]> (inodes s))) s = s.
Proof.
  intros Hi. rewrite insert_insert_eq. replace (with_open_cnt _ _) with i.
  - rewrite insert_id by done. by destruct s.
  - destruct i. unfold with_open_cnt. simpl. f_equal. lia.
Qed.

Lemma file_reopen_ok s q f :
  file_inv s -> files s !! q = Some f ->
  exists r s', file_reopen q s = Ok (r, s') /\ file_inv s'.
Proof.
  intros Hs Hq. destruct (fi_files s Hs q f Hq) as (Hq0 & Hp0 & [i Hi]).
  destruct (fi_inodes s Hs _ i Hi) as [Eo _]. destruct (fi_heap s Hs) as (live & Hl & Hin).
  pose proof (msum_ge (opens (f_inode f)) (files s) q f (opens_nonneg _ _) Hq) as Hge.
  unfold opens in Hge at 1. rewrite Z.eqb_refl in Hge.
  set (s1 := set_inodes (<[f_inode f := with_open_cnt (open_cnt i + 1) i]> (inodes s)) s).
  assert (Hre : inode_reopen (f_inode f) s = Ok (f_inode f, s1)).
  { unfold inode_reopen. rewrite (proj2 (Z.eqb_neq (f_inode f) NULL) Hp0).
    by rewrite (bindM_step _ _ _ _ _ (get_inode_ok s _ i Hi)). }
  unfold file_reopen. rewrite (bindM_step _ _ _ _ _ (get_file_ok s q f Hq)), (bindM_step _ _ _ _ _ Hre).
  destruct (al_calloc_ok (fheap s) live 1 sizeof_file Hl) as (r & h & Hc & Hr); [unfold sizeof_file, al_max; lia..|].
  assert (Hc1 : calloc 1 sizeof_file s1 = Ok (r, set_heap h s1)) by (unfold calloc, on_heap; simpl; by rewrite Hc).
  unfold file_open. rewrite (bindM_step _ _ _ _ _ Hc1), (proj2 (Z.eqb_neq (f_inode f) NULL) Hp0).
  destruct Hr as [[-> Hl']|[[Hr0 Hr] Hl']].
  - change (negb false && negb (NULL =? NULL)) with false. cbv iota.
    erewrite bindM_step by (apply (inode_close_shared _ (f_inode f) (with_open_cnt (open_cnt i + 1) i));
                            [done|apply lookup_insert_eq|simpl; lia]).
    exists NULL. eexists. split; [reflexivity|]. cbn [open_cnt with_open_cnt].
    assert (E := f_equal inodes (set_back s (f_inode f) i Hi)). cbn [inodes set_inodes] in E.
    destruct Hs as [H1 H2 _]. split; subst s1; cbn [inodes files fheap set_inodes set_heap]; rewrite ?E; [done..|].
    by exists live.
  - rewrite (proj2 (Z.eqb_neq r NULL) Hr0). cbn [negb andb]. erewrite bindM_step by reflexivity.
    exists r. eexists. split; [reflexivity|].
    apply (file_inv_insert s r (f_inode f) i h ((r, 1 * sizeof_file) :: live)); try done.
    + destruct (files s !! r) as [g|] eqn:Hg; [|done]. destruct Hr. by eapply Hin.
    + intros q' g Hg. right. by eapply Hin.
    + by left.
Qed.

(** Closing a file while another is open on the same inode. *)
Lemma file_close_ok s q f :
  file_inv s -> files s !! q = Some f -> 1 < msum (opens (f_inode f)) (files s) ->
  exists s', file_close q s = Ok (tt, s') /\ file_inv s'.
Proof.
  intros Hs Hq Hn. destruct (fi_files s Hs q f Hq) as (Hq0 & Hp0 & _).
  unfold file_close. rewrite (proj2 (Z.eqb_neq q NULL) Hq0).
  destruct (file_allow_ok s q f Hs Hq) as (s1 & Ha & Hs1 & Hf1 & Hh1).
  rewrite (bindM_step _ _ _ _ _ Ha). set (f' := mk_file (f_inode f) (f_pos f) false) in *.
  assert (Hq1 : files s1 !! q = Some f') by (rewrite Hf1; apply lookup_insert_eq).
  rewrite (bindM_step _ _ _ _ _ (get_file_ok s1 q f' Hq1)).
  destruct (fi_files s1 Hs1 q f' Hq1) as (_ & _ & [i Hi]).
  destruct (fi_inodes s1 Hs1 _ i Hi) as [Eo Ed]. cbn [f_inode f'] in *.
  assert (Hopen : 1 < open_cnt i) by (rewrite Eo, Hf1, (opens_same _ q f) by done; done).
  rewrite (bindM_step _ _ _ _ _ (inode_close_shared s1 (f_inode f) i Hp0 Hi Hopen)).
  erewrite bindM_step by reflexivity. destruct (fi_heap s1 Hs1) as (live & Hl & Hin).
  pose proof (Hin q f' Hq1) as Hql. apply list_elem_of_fmap in Hql as ([q' n] & Hq' & Hql). simpl in Hq'. subst q'.
  apply list_elem_of_split in Hql as (l1 & l2 & ->).
  destruct (al_free_ok (fheap s1) q n (l1 ++ l2)) as (h & Hfr & Hl').
  { eapply al_perm; [|exact Hl]. by rewrite Permutation_middle. }
  unfold free. rewrite (proj2 (Z.eqb_neq q NULL) Hq0). eexists. split; [unfold on_heap; simpl; by rewrite Hfr|].
  destruct Hs1 as [H1 H2 _]. split; simpl.
  - intros p j Hj. pose proof (msum_delete (opens p) _ q f' Hq1) as M1. pose proof (msum_delete (denies p) _ q f' Hq1) as M2.
    assert (denies p f' = 0) as Hd0 by (unfold denies; cbn; by rewrite andb_false_r).
    apply lookup_insert_Some in Hj as [[<- <-]|[Hne Hj]].
    + assert (opens (f_inode f) f' = 1) as Ho1 by (unfold opens; cbn; by rewrite Z.eqb_refl). simpl. lia.
    + destruct (H1 p j Hj). assert (opens p f' = 0) as Ho0
        by (unfold opens; cbn; by rewrite (proj2 (Z.eqb_neq (f_inode f) p))). lia.
  - intros q' g [Hne Hg]%lookup_delete_Some. destruct (H2 q' g Hg) as (? & ? & [j Hj]).
    split; [done|]. split; [done|]. destruct (Z.eq_dec (f_inode g) (f_inode f)) as [->|Hn'].
    + rewrite lookup_insert_eq. by eexists.
    + rewrite lookup_insert_ne by done. by exists j.
  - exists (l1 ++ l2). split; [done|]. intros q' g [Hne Hg]%lookup_delete_Some. specialize (Hin q' g Hg).
    rewrite !fmap_app in *. simpl in Hin. set_solver.
Qed.

(** ** Any sequence of calls *)

Inductive file_op : Type := FReopen (q : Z) | FDeny (q : Z) | FAllow (q : Z) | FClose (q : Z).

Definition file_call (o : file_op) : M fs unit :=
  match o with
  | FReopen q => file_reopen q ;; mret tt
  | FDeny q => file_deny_write q
  | FAllow q => file_allow_write q
  | FClose q => file_close q
  end.

(** The call names an open file, and does not close the last one of its inode. *)
Definition file_op_ok (s : fs) (o : file_op) : Prop :=
  match o with
  | FReopen q | FDeny q | FAllow q => is_Some (files s !! q)
  | FClose q => exists f, files s !! q = Some f /\ 1 < msum (opens (f_inode f)) (files s)
  end.

Inductive file_steps (s : fs) : fs -> Prop :=
  | steps_refl : file_steps s s
  | steps_call s1 s2 o : file_steps s s1 -> file_op_ok s1 o -> file_call o s1 = Ok (tt, s2) -> file_steps s s2.

Lemma file_call_ok s o :
  file_inv s -> file_op_ok s o -> exists s', file_call o s = Ok (tt, s') /\ file_inv s'.
Proof.
  intros Hs Ho. destruct o as [q|q|q|q]; simpl in *.
  - destruct Ho as [f Hq]. destruct (file_reopen_ok s q f Hs Hq) as (r & s' & Hr & Hs').
    exists s'. by rewrite (bindM_step _ _ _ _ _ Hr).
  - destruct Ho as [f Hq]. by apply (file_deny_ok s q f).
  - destruct Ho as [f Hq]. destruct (file_allow_ok s q f Hs Hq) as (s' & ? & ? & _). by exists s'.
  - destruct Ho as (f & Hq & Hn). by apply (file_close_ok s q f).
Qed.

End refcount.

(** An executable opened twice, as by [load] and by another program. *)
Definition demo_opened : fs (D := list sector) (H := Z) :=
  set_files {[ 60 := mk_file 200 0 false; 80 := mk_file 200 5 true ]}
    (set_inodes {[ 200 := mk_inode 2 2 false 1 (inode_disk 5 1000) ]} demo_fs).

Lemma demo_opened_inv : file_inv demo_opened.
Proof.
  split; simpl.
  - intros p i [<- <-]%lookup_singleton_Some. by vm_compute.
  - intros q f [[<- <-]|[_ [<- <-]%lookup_singleton_Some]]%lookup_insert_Some; (split; [done|]); (split; [done|]); by eexists.
  - exists [(60, 12); (80, 12)]. split; [split; [lia|]; by repeat constructor|].
    intros q f [[<- _]|[_ [<- _]%lookup_singleton_Some]]%lookup_insert_Some; set_solver.
Qed.

Definition demo_denied : fs (D := list sector) (H := Z) :=
  match file_call (FDeny 60) demo_opened with Ok (_, s) => s | Fail _ => demo_opened end.

