(* ===== verification/FsRuns.v ===== *)
(** * The file system in action

    On-disk directory entries can be read back; and runs of the complete file
    system, from formatting on, over the allocator of threads/malloc.c, in
    which the buffer cache shows stale data.  The cache identifies a sector by
    the address of the in-memory inode and the byte offset of the access: two
    accesses to one sector that start at different bytes use different copies
    of it, and an inode allocated where a closed one was inherits its copies. *)

From S2P Require Import Prelude Vaddr Palloc Malloc Bitmap Disk Alloc BufCache FileSys RamDisk FsDemo Directory.

(** ** Directory entries *)

Lemma to_le32_spec z : 0 <= z < 2 ^ 32 ->
  u8 z + 2 ^ 8 * u8 (z / 2 ^ 8) + 2 ^ 16 * u8 (z / 2 ^ 16) + 2 ^ 24 * u8 (z / 2 ^ 24) = z.
Proof. intros Hz. unfold u8. zlia. Qed.

Lemma c_string_app name rest :
  Forall (fun c => c <> 0) name -> c_string (name ++ 0 :: rest) = name.
Proof.
  induction 1 as [|c name Hc _ IH]; [done|]. simpl.
  rewrite (proj2 (Z.eqb_neq c 0) Hc). by rewrite IH.
Qed.

(** The entry [dir_add] writes. *)
Definition new_entry (name : list Z) (n : Z) (e : list Z) : list Z :=
  set_inode_sector n (copy_name name (set_in_use true e)).

(** The directory entry that [dir_add] builds over any old slot is 20
    bytes long and reads back as in use, with the name and the inode sector
    that were stored, for every name of 1 to 14 characters. *)
Theorem dir_entry_roundtrip name n e :
  length e = 20%nat -> Forall (fun c => c <> 0) name -> (1 <= length name <= 14)%nat -> 0 <= n < 2 ^ 32 ->
  let e' := new_entry name n e in
  length e' = 20%nat /\ e_in_use e' = true /\ same_name name e' = true /\ e_inode_sector e' = n.
Proof.
  intros He Hname Hlen Hn e'.
  assert (exists pad, e' = to_le32 n ++ (name ++ 0 :: pad) ++ [1] /\ length pad = (14 - length name)%nat)
    as (pad & -> & Hpad).
  { exists (take (14 - length name) (drop (5 + length name) e)).
    subst e'. unfold new_entry, set_inode_sector, copy_name, set_in_use, splice.
    rewrite Nat.min_l, firstn_all by lia.
    do 20 (destruct e as [|? e]; [done|]). destruct e; [|done].
    destruct name as [|a1 name]; [simpl in Hlen; lia|].
    do 14 (destruct name as [|? name]; [by split|]). simpl in Hlen. lia. }
  assert (Hl15 : length (name ++ 0 :: pad) = 15%nat) by (rewrite length_app; simpl; lia).
  split; [rewrite length_app, (length_app (name ++ 0 :: pad)), Hl15; done|]. split; [|split].
  - unfold e_in_use. rewrite app_nth2, app_nth2; rewrite ?Hl15; simpl; try lia; done.
  - unfold same_name, e_name. apply bool_decide_eq_true.
    change (drop 4 (to_le32 n ++ (name ++ 0 :: pad) ++ [1])) with ((name ++ 0 :: pad) ++ [1]).
    rewrite take_app_length' by done. by rewrite c_string_app.
  - by apply to_le32_spec.
Qed.

Lemma dir_entry_roundtrip_witness :
  let e' := new_entry [97; 46; 99] 70000 (replicate 20 255) in
  length e' = 20%nat /\ e_in_use e' = true /\ same_name [97; 46; 99] e' = true /\ e_inode_sector e' = 70000.
Proof.
  apply (dir_entry_roundtrip [97; 46; 99] 70000 (replicate 20 255)).
  - reflexivity.
  - repeat constructor; lia.
  - simpl. lia.
  - lia.
Defined.

(** ** Runs *)

(** The machine after boot: a disk, the heap of [Malloc], nothing open. *)
Definition mount (d : list sector) : fs (D := list sector) (H := heap) :=
  mk_fs d demo_heap ∅ ∅ ∅ ∅ [] 0 None false [] (mk_bitmap 0 []) 0.
Definition blank_disk : list sector := replicate 16 (replicate 512 0).
Definition stack_junk : list Z := replicate 20 0.

Definition boot (format : bool) : M (fs (D := list sector) (H := heap)) unit :=
  init_buffer_cache ;; filesys_init format.

Definition name_a : list Z := [97].
Definition name_b : list Z := [98].

(** The results of a run and the disk it leaves. *)
Definition outcome_of {X} (r : res (X * fs (D := list sector) (H := heap))) : res (X * list sector) :=
  '(x, s) ← r; Ok (x, fdisk s).

Definition value_of {X} (r : res (X * fs (D := list sector) (H := heap))) : res X := '(x, _) ← r; Ok x.

(** Two writes of three bytes each, one after the other, are both
    acknowledged; rewinding and reading six bytes returns the first three
    and three zeros.  The second write, at offset 3, went to another cached
    copy of the sector than the one the read at offset 0 uses. *)
Theorem unaligned_write_lost :
  value_of
    ((boot true ;;
      filesys_create name_a 512 stack_junk ;;
      f ← filesys_open name_a stack_junk;
      n1 ← file_write f [1; 2; 3];
      n2 ← file_write f [4; 5; 6];
      file_seek f 0 ;;
      bs ← file_read f 6;
      mret (n1, n2, bs)) (mount blank_disk))
  = Ok (3, 3, [1; 2; 3; 0; 0; 0]).
Proof. vm_compute. reflexivity. Qed.

(** Formatting a disk, creating two files and shutting down cleanly
    leaves a disk on which the first file does not exist: each entry of the
    directory has its own cached copy of the directory's sector, and writing
    the second copy back overwrites the first entry with what was there
    before. *)
Theorem second_create_loses_first :
  ('(created, d) ← outcome_of
     ((boot true ;;
       a ← filesys_create name_a 0 stack_junk;
       b ← filesys_create name_b 0 stack_junk;
       filesys_done ;; mret (a, b)) (mount blank_disk));
   '(opened, _) ← outcome_of
     ((boot false ;;
       fa ← filesys_open name_a stack_junk;
       fb ← filesys_open name_b stack_junk;
       mret (fa =? NULL, fb =? NULL)) (mount d));
   Ok (created, opened))
  = Ok ((true, true), (true, false)).
Proof. vm_compute. reflexivity. Qed.

(** A file that was opened, read and closed cannot be opened again: the inode
    of the root directory is allocated where the file's inode was, and reading
    the first directory entry returns the file's data from the cache. *)
Lemma reopen_after_close_fails :
  value_of
    ((boot true ;;
      filesys_create name_a 512 stack_junk ;;
      f ← filesys_open name_a stack_junk;
      file_read f 4 ;;
      file_close f ;;
      g ← filesys_open name_a stack_junk;
      mret (f =? NULL, g =? NULL)) (mount blank_disk))
  = Ok (false, true).
Proof. vm_compute. reflexivity. Qed.
