(* ===== verification/Swap.v ===== *)
(** * The swap area: vm/swap.c

    Pages are written to slots of eight sectors; a slot is reused from a list
    ordered by position or taken at the end of the used part of the disk,
    which shrinks again when slots at its end are freed.  The disk is any
    [BlockDevice] and memory any [Allocator]. *)

From S2P Require Import Prelude Vaddr Disk Alloc.

(** A page is eight sectors. *)
Abbreviation page := (list sector).

Section swap.
Context {D A : Type} {HD : BlockDevice D} {HA : Allocator A}.

(** [slots] is the memory of the [struct slot]s (their [start]); the rest are
    the file-scope variables. *)
Record swap : Type := mk_swap {
  partition : D;
  sw_heap : A;
  slots : gmap Z Z;
  free_swap : list Z;
  cnt : Z;
  slots_in_disk : Z;
  size : Z;
}.

Definition set_partition (d : D) (s : swap) : swap :=
  mk_swap d (sw_heap s) (slots s) (free_swap s) (cnt s) (slots_in_disk s) (size s).
Definition set_sw_heap (h : A) (s : swap) : swap :=
  mk_swap (partition s) h (slots s) (free_swap s) (cnt s) (slots_in_disk s) (size s).
Definition set_slots (m : gmap Z Z) (s : swap) : swap :=
  mk_swap (partition s) (sw_heap s) m (free_swap s) (cnt s) (slots_in_disk s) (size s).
Definition set_free (l : list Z) (s : swap) : swap :=
  mk_swap (partition s) (sw_heap s) (slots s) l (cnt s) (slots_in_disk s) (size s).
Definition set_cnt (n : Z) (s : swap) : swap :=
  mk_swap (partition s) (sw_heap s) (slots s) (free_swap s) n (slots_in_disk s) (size s).

Definition sw_malloc (n : Z) : M swap Z := fun s =>
  '(p, h) ← al_malloc n (sw_heap s); Ok (p, set_sw_heap h s).
Definition sw_free (p : Z) : M swap unit := fun s =>
  '(_, h) ← al_free p (sw_heap s); Ok (tt, set_sw_heap h s).
Definition sw_disk {X} (m : M D X) : M swap X := fun s =>
  '(x, d) ← m (partition s); Ok (x, set_partition d s).
Definition slot_start (p : Z) : M swap Z := fun s =>
  match slots s !! p with Some n => Ok (n, s) | None => Fail BadAccess end.

(** [while (s < PGSIZE)] counts the sectors of a page. *)
Fixpoint sectors_loop (fuel : nat) (n s : Z) : res Z :=
  match fuel with
  | O => Fail NoFuel
  | S fuel => if s <? PGSIZE then sectors_loop fuel (n + 1) (s + DISK_SECTOR_SIZE) else Ok n
  end.

(** The disk has been found: [disk_get (1, 1)] is the device of the state. *)
Definition swap_init : M swap unit := fun s =>
  n ← sectors_loop 10 (size s) 0;
  Ok (tt, mk_swap (partition s) (sw_heap s) (slots s) [] (cnt s) (bd_size (partition s)) n).

(** [while (j < PGSIZE)]: one sector of the page after the other. *)
Fixpoint write_page (sectors : list sector) (sector : Z) : M swap unit :=
  match sectors with
  | [] => mret tt
  | b :: sectors => sw_disk (bd_write sector b) ;; write_page sectors (u32 (sector + 1))
  end.

Fixpoint read_page (n : nat) (sector : Z) : M swap (list Disk.sector) :=
  match n with
  | O => mret []
  | S n => b ← sw_disk (bd_read sector); bs ← read_page n (u32 (sector + 1)); mret (b :: bs)
  end.

(** [sizeof (struct slot)]. *)
Definition sizeof_slot : Z := 12.

Definition write_swap (buffer : page) : M swap Z :=
  b ← sw_malloc DISK_SECTOR_SIZE;
  if b =? NULL then fail KernelPanic else
  l ← gets free_swap;
  match l with
  | s :: l' =>
      modify (set_free l') ;;
      start ← slot_start s;
      write_page buffer start ;;
      sw_free b ;;
      mret s
  | [] =>
      n ← gets cnt;
      total ← gets slots_in_disk;
      if total <=? n then fail KernelPanic else
      s ← sw_malloc sizeof_slot;
      (if s =? NULL then fail BadAccess else mret tt) ;;
      modify (fun st => set_slots (<[s := n]> (slots st)) st) ;;
      write_page buffer n ;;
      modify (set_cnt (u32 (n + 8))) ;;
      sw_free b ;;
      mret s
  end.

Definition slot_less (m : gmap Z Z) (a b : Z) : bool := default 0 (m !! a) <? default 0 (m !! b).

(** Freeing a [struct slot]. *)
Definition drop_slot (p : Z) : M swap unit :=
  modify (fun st => set_slots (delete p (slots st)) st) ;; sw_free p.

(** [while (!list_empty (&free_swap))]: free slots at the end are dropped. *)
Fixpoint shrink_loop (fuel : nat) : M swap unit :=
  match fuel with
  | O => fail NoFuel
  | S fuel =>
      l ← gets free_swap;
      match last l with
      | None => mret tt
      | Some p =>
          start ← slot_start p;
          sz ← gets size;
          n ← gets cnt;
          if u32 (start + sz) =? n then
            modify (set_free (removelast l)) ;;
            drop_slot p ;;
            modify (set_cnt (u32 (n - sz))) ;;
            shrink_loop fuel
          else mret tt
      end
  end.

Definition free_slot (p : Z) : M swap unit :=
  start ← slot_start p;
  sz ← gets size;
  n ← gets cnt;
  if u32 (start + sz) =? n then
    drop_slot p ;;
    modify (set_cnt (u32 (n - sz))) ;;
    l ← gets free_swap;
    shrink_loop (S (length l))
  else
    modify (fun s => set_free (insert_seq (slot_less (slots s)) p (free_swap s)) s).

Definition read_swap (p : Z) : M swap page :=
  b ← sw_malloc DISK_SECTOR_SIZE;
  if b =? NULL then fail KernelPanic else
  start ← slot_start p;
  bs ← read_page 8 start;
  sw_free b ;;
  free_slot p ;;
  mret bs.
End swap.
Arguments swap D A : clear implicits.
