(* ===== verification/SwapInv.v ===== *)
(** * The swap area returns what was swapped out

    Every slot, used or free, has a start of its own among the multiples of
    eight below [cnt]; the pages swapped out are on the disk until they are
    read back. *)

From S2P Require Import Prelude Vaddr Disk Alloc RamDisk Swap.

(** ** Positions *)

Definition mults (n : Z) : list Z := map (Z.mul 8) (seqZ 0 n).

Lemma mults_snoc n : 0 <= n -> mults (n + 1) = mults n ++ [8 * n].
Proof. intros Hn. unfold mults. rewrite seqZ_app, map_app by lia. done. Qed.

Lemma mults_NoDup n : NoDup (mults n).
Proof. apply NoDup_fmap_2; [intros x y; lia|apply NoDup_seqZ]. Qed.

Lemma elem_of_mults n x : x ∈ mults n -> exists k, x = 8 * k /\ 0 <= k < n.
Proof. intros (k & -> & Hk)%list_elem_of_fmap. apply elem_of_seqZ in Hk. by exists k. Qed.

Definition pos (m : gmap Z Z) (p : Z) : Z := default 0 (m !! p).

Section inv.
Context {D A : Type} {HD : BlockDevice D} {HDL : BlockDeviceLaws D} {HA : Allocator A} {HAL : AllocatorLaws A}.
Abbreviation swap := (swap D A).
Implicit Types (s : swap) (live : list (Z * page)).

(** The slots in use and those on the free list. *)
Definition all_slots (s : swap) (live : list (Z * page)) : list Z := live.*1 ++ free_swap s.

Record swap_inv (s : swap) (live : list (Z * page)) : Prop := {
  si_disk : bd_ok (partition s) /\ bd_size (partition s) < 2 ^ 31 /\
    slots_in_disk s = bd_size (partition s) /\ size s = 8;
  si_cnt : 0 <= cnt s <= bd_size (partition s) /\ cnt s = 8 * (cnt s / 8);
  si_slots : NoDup (all_slots s live) /\
    (forall p, p ∈ all_slots s live -> p <> NULL /\ is_Some (slots s !! p));
  si_starts : map (pos (slots s)) (all_slots s live) ≡ₚ mults (cnt s / 8);
  si_heap : exists lv, al_ok (sw_heap s) lv /\ forall p, p ∈ all_slots s live -> p ∈ lv.*1;
  si_data : forall p pg, (p, pg) ∈ live -> length pg = 8%nat /\
    forall k b, pg !! k = Some b -> bd_content (partition s) (pos (slots s) p + Z.of_nat k) = b;
}.

(** ** Sectors of a page *)

Lemma sw_disk_step {X} (m : M D X) s x d :
  m (partition s) = Ok (x, d) -> sw_disk m s = Ok (x, set_partition d s).
Proof. intros Hm. unfold sw_disk. by rewrite Hm. Qed.

Lemma write_page_ok bs s start :
  bd_ok (partition s) -> bd_size (partition s) < 2 ^ 31 -> 0 <= start ->
  start + Z.of_nat (length bs) <= bd_size (partition s) -> Forall (fun b => is_sector b = true) bs ->
  exists d, write_page bs start s = Ok (tt, set_partition d s) /\ bd_ok d /\
    bd_size d = bd_size (partition s) /\
    forall m, 0 <= m -> bd_content d m =
      if (start <=? m) && (m <? start + Z.of_nat (length bs)) then nth (Z.to_nat (m - start)) bs []
      else bd_content (partition s) m.
Proof.
  revert s start. induction bs as [|b bs IH]; intros s start Hd Hsz H0 Hr Hb.
  { exists (partition s). split; [by destruct s|]. split; [done|]. split; [done|].
    intros m Hm. cbn [length Z.of_nat]. rewrite Z.add_0_r.
    destruct (Z.leb_spec start m), (Z.ltb_spec m start); try lia; done. }
  apply Forall_cons in Hb as [Hb Hbs]. cbn [length] in Hr. cbn [write_page].
  destruct (bd_write_ok (partition s) start b Hd) as (d1 & Hw & Hd1 & Hs1 & Hc1); [lia|done|].
  rewrite (bindM_step _ _ _ _ _ (sw_disk_step _ s _ d1 Hw)), u32_small by lia.
  destruct (IH (set_partition d1 s) (start + 1)) as (d & Hl & Hd' & Hs' & Hc'); [done|simpl; lia|lia|simpl; lia|done|].
  exists d. split; [done|]. split; [done|]. split; [by rewrite Hs'|].
  intros m Hm. rewrite Hc' by done. cbn [partition set_partition length]. rewrite Hc1 by done.
  destruct (Z.leb_spec start m), (Z.leb_spec (start + 1) m), (Z.ltb_spec m (start + 1 + Z.of_nat (length bs))),
    (Z.ltb_spec m (start + Z.of_nat (S (length bs)))), (Z.eqb_spec m start); simpl; try lia; try done.
  - replace (Z.to_nat (m - start)) with (S (Z.to_nat (m - (start + 1)))) by lia. done.
  - by replace (Z.to_nat (m - start)) with 0%nat by lia.
Qed.

Lemma read_page_ok n s start :
  bd_ok (partition s) -> bd_size (partition s) < 2 ^ 31 -> 0 <= start ->
  start + Z.of_nat n <= bd_size (partition s) ->
  exists d, read_page n start s =
      Ok (map (bd_content (partition s)) (seqZ start (Z.of_nat n)), set_partition d s) /\ bd_ok d /\
    bd_size d = bd_size (partition s) /\ forall m, bd_content d m = bd_content (partition s) m.
Proof.
  revert s start. induction n as [|n IH]; intros s start Hd Hsz H0 Hr.
  { exists (partition s). split; [by destruct s|done]. }
  cbn [read_page]. destruct (bd_read_ok (partition s) start Hd) as (d1 & Hw & Hd1 & Hs1 & Hc1); [lia|].
  rewrite (bindM_step _ _ _ _ _ (sw_disk_step _ s _ d1 Hw)), u32_small by lia.
  destruct (IH (set_partition d1 s) (start + 1)) as (d & Hl & Hd' & Hs' & Hc'); [done|simpl; lia|lia|simpl; lia|].
  exists d. rewrite (bindM_step _ _ _ _ _ Hl). split.
  - unfold mret, M_ret. do 2 f_equal. rewrite (seqZ_cons start) by lia.
    replace (Z.pred (Z.of_nat (S n))) with (Z.of_nat n) by lia. simpl. f_equal.
    change (Z.succ start) with (start + 1). by apply map_ext.
  - split; [done|]. split; [by rewrite Hs'|]. intros m. rewrite Hc'. apply Hc1.
Qed.

(** ** Where the slots are *)

Lemma slot_range s live p :
  swap_inv s live -> p ∈ all_slots s live ->
  slots s !! p = Some (pos (slots s) p) /\ 0 <= pos (slots s) p /\ pos (slots s) p + 8 <= cnt s.
Proof.
  intros Hs Hp. destruct (proj2 (si_slots s live Hs) p Hp) as [_ [st Hst]].
  assert (pos (slots s) p ∈ mults (cnt s / 8)) as (k & Hpos & Hk)%elem_of_mults.
  { rewrite <- (si_starts s live Hs). by apply list_elem_of_fmap_2. }
  split; [unfold pos; by rewrite Hst|]. pose proof (si_cnt s live Hs). lia.
Qed.

Lemma slot_apart s live p q :
  swap_inv s live -> p ∈ all_slots s live -> q ∈ all_slots s live -> p <> q ->
  pos (slots s) p + 8 <= pos (slots s) q \/ pos (slots s) q + 8 <= pos (slots s) p.
Proof.
  intros Hs Hp Hq Hne.
  assert (NoDup (map (pos (slots s)) (all_slots s live))) as Hnd.
  { rewrite (si_starts s live Hs). apply mults_NoDup. }
  assert (pos (slots s) p <> pos (slots s) q) as Hd.
  { intros Heq. apply Hne. apply list_elem_of_lookup in Hp as [i Hi], Hq as [j Hj].
    assert (i = j) as ->; [|congruence]. eapply NoDup_lookup; [exact Hnd| |].
    - by apply list_lookup_fmap_Some_2 with (x := p).
    - rewrite Heq. by apply list_lookup_fmap_Some_2 with (x := q). }
  assert (forall r, r ∈ all_slots s live -> exists k, pos (slots s) r = 8 * k) as Hm.
  { intros r Hr. assert (pos (slots s) r ∈ mults (cnt s / 8)) as (k & -> & _)%elem_of_mults; [|by exists k].
    rewrite <- (si_starts s live Hs). by apply list_elem_of_fmap_2. }
  destruct (Hm p Hp) as [k1 E1], (Hm q Hq) as [k2 E2]. lia.
Qed.

(** Starts only depend on the slots named. *)
Lemma pos_ext (m m' : gmap Z Z) ps :
  (forall p, p ∈ ps -> m' !! p = m !! p) -> map (pos m') ps = map (pos m) ps.
Proof.
  intros Hm. apply map_ext_in. intros p Hp%list_elem_of_In. unfold pos. by rewrite Hm.
Qed.

Lemma slot_start_ok s p st : slots s !! p = Some st -> slot_start p s = Ok (st, s).
Proof. unfold slot_start. by intros ->. Qed.

Lemma sw_malloc_ok s lv n :
  roomy (H := A) -> al_ok (sw_heap s) lv -> 0 < n < al_max ->
  exists p h, sw_malloc n s = Ok (p, set_sw_heap h s) /\ fresh_block p lv /\ al_ok h ((p, n) :: lv).
Proof.
  intros Hr Hl Hn. destruct (al_malloc_ok _ lv n Hl Hn) as (p & h & Hm & Hp).
  exists p, h. split; [unfold sw_malloc; by rewrite Hm|].
  pose proof (Hr _ lv n p h Hl Hm ltac:(lia)). by destruct Hp as [[-> _]|].
Qed.

Lemma sw_free_ok s lv p n :
  al_ok (sw_heap s) ((p, n) :: lv) -> exists h, sw_free p s = Ok (tt, set_sw_heap h s) /\ al_ok h lv.
Proof.
  intros Hl. destruct (al_free_ok _ p n lv Hl) as (h & Hf & Hh). exists h. unfold sw_free. by rewrite Hf.
Qed.

(** Giving a slot's memory back. *)
Lemma drop_slot_ok s lv p :
  al_ok (sw_heap s) lv -> p ∈ lv.*1 ->
  exists h lv', drop_slot p s = Ok (tt, set_sw_heap h (set_slots (delete p (slots s)) s)) /\
    al_ok h lv' /\ forall q, q ∈ lv.*1 -> q <> p -> q ∈ lv'.*1.
Proof.
  intros Hl Hp. apply list_elem_of_fmap in Hp as ([p' n] & Hp' & Hp). simpl in Hp'. subst p'.
  apply list_elem_of_split in Hp as (l1 & l2 & ->).
  destruct (sw_free_ok (set_slots (delete p (slots s)) s) (l1 ++ l2) p n) as (h & Hf & Hh).
  { eapply al_perm; [|exact Hl]. by rewrite Permutation_middle. }
  exists h, (l1 ++ l2). split; [unfold drop_slot; by erewrite bindM_step by reflexivity|]. split; [done|].
  intros q Hq Hne. rewrite !fmap_app in *. simpl in Hq. set_solver.
Qed.

(** The slot at the end is dropped and the used part shrinks. *)
Lemma shrunk_inv s live ls fs p h lv :
  swap_inv s live -> all_slots s live ≡ₚ p :: (ls.*1 ++ fs) -> ls ⊆ live ->
  pos (slots s) p + 8 = cnt s -> al_ok h lv ->
  (forall q, q ∈ ls.*1 ++ fs -> q ∈ lv.*1) ->
  swap_inv (set_cnt (cnt s - 8) (set_sw_heap h (set_slots (delete p (slots s)) (set_free fs s)))) ls.
Proof.
  intros Hs Hp Hls Hpos Hh Hlv. destruct (si_slots s live Hs) as [Hn Hsl]. rewrite Hp in Hn.
  apply NoDup_cons in Hn as [Hpn Hn]. pose proof (si_cnt s live Hs) as [Hc1 Hc2].
  assert (Hdel : forall q, q ∈ ls.*1 ++ fs -> delete p (slots s) !! q = slots s !! q).
  { intros q Hq. apply lookup_delete_ne. intros ->. done. }
  destruct (slot_range s live p Hs) as (_ & Hp0 & _); [rewrite Hp; by left|].
  split; unfold all_slots; cbn -[Z.div].
  - apply (si_disk s live Hs).
  - split; [lia|]. zlia.
  - split; [done|]. intros q Hq. rewrite Hdel by done. apply Hsl. rewrite Hp. by right.
  - rewrite (pos_ext (slots s)) by done.
    assert (pos (slots s) p :: map (pos (slots s)) (ls.*1 ++ fs) ≡ₚ mults (cnt s / 8)) as Hm.
    { rewrite <- (si_starts s live Hs). change (map (pos (slots s)) (p :: (ls.*1 ++ fs)) ≡ₚ map (pos (slots s)) (all_slots s live)).
      by rewrite Hp. }
    replace (cnt s / 8) with ((cnt s - 8) / 8 + 1) in Hm by zlia. rewrite mults_snoc in Hm by zlia.
    replace (8 * ((cnt s - 8) / 8)) with (pos (slots s) p) in Hm by zlia.
    rewrite (Permutation_app_comm (mults _)) in Hm. by apply Permutation_cons_inv in Hm.
  - by exists lv.
  - intros q pg Hq. destruct (si_data s live Hs q pg (Hls _ Hq)) as [Hl Hd]. split; [done|].
    assert (q ∈ ls.*1 ++ fs) as Hq' by (apply elem_of_app; left; by apply (list_elem_of_fmap_2 fst) in Hq).
    intros k b Hb. unfold pos. rewrite Hdel by done. by apply Hd.
Qed.

(** ** Freeing a slot *)

Lemma removelast_last (l : list Z) p : last l = Some p -> l = removelast l ++ [p].
Proof.
  destruct l as [|x l] using rev_ind; [done|]. rewrite last_snoc. intros [= ->].
  by rewrite removelast_last.
Qed.

Lemma set_free_same s : set_free (free_swap s) s = s.
Proof. by destruct s. Qed.

Lemma shrink_loop_ok fuel s live :
  swap_inv s live -> (length (free_swap s) < fuel)%nat ->
  exists s', shrink_loop fuel s = Ok (tt, s') /\ swap_inv s' live /\ partition s' = partition s.
Proof.
  revert s. induction fuel as [|fuel IH]; intros s Hs Hf; [lia|]. cbn [shrink_loop].
  erewrite bindM_step by reflexivity. destruct (last (free_swap s)) as [p|] eqn:Hlast; [|by exists s].
  pose proof (removelast_last _ _ Hlast) as Hfree.
  assert (Hp : p ∈ all_slots s live) by (apply elem_of_app; right; rewrite Hfree; set_solver).
  destruct (slot_range s live p Hs Hp) as (Hst & H0 & Hr). pose proof (si_cnt s live Hs) as [Hc1 Hc2].
  destruct (si_disk s live Hs) as (_ & Hsz & _ & Hsize).
  rewrite (bindM_step _ _ _ _ _ (slot_start_ok s p _ Hst)). do 2 erewrite bindM_step by reflexivity.
  rewrite Hsize, u32_small by lia. destruct (Z.eqb_spec (pos (slots s) p + 8) (cnt s)) as [Heq|]; [|by exists s].
  erewrite bindM_step by reflexivity. destruct (si_heap s live Hs) as (lv & Hl & Hin).
  destruct (drop_slot_ok (set_free (removelast (free_swap s)) s) lv p Hl (Hin p Hp)) as (h & lv' & Hd & Hl' & Hkeep).
  rewrite (bindM_step _ _ _ _ _ Hd). erewrite bindM_step by reflexivity. rewrite u32_small by lia.
  assert (Hall : all_slots s live ≡ₚ p :: (live.*1 ++ removelast (free_swap s))).
  { unfold all_slots. rewrite Hfree at 1. rewrite app_assoc. by rewrite Permutation_app_comm. }
  destruct (IH (set_cnt (cnt s - 8) (set_sw_heap h (set_slots (delete p (slots s)) (set_free (removelast (free_swap s)) s)))))
    as (s' & Hl2 & Hs' & Hpart).
  - eapply shrunk_inv; try done. intros q Hq. destruct (si_slots s live Hs) as [Hn _].
    rewrite Hall in Hn. apply NoDup_cons in Hn as [Hpn _].
    apply Hkeep; [|by intros ->]. apply Hin. rewrite Hall. by right.
  - simpl. rewrite Hfree, length_app in Hf. simpl in Hf. lia.
  - by exists s'.
Qed.

(** Putting a slot on the free list. *)
Lemma listed_inv s live ls p pg l :
  swap_inv s live -> live ≡ₚ (p, pg) :: ls -> l ≡ₚ p :: free_swap s -> swap_inv (set_free l s) ls.
Proof.
  intros Hs Hp Hl. assert (Hall : all_slots (set_free l s) ls ≡ₚ all_slots s live).
  { unfold all_slots. simpl. rewrite Hl, Hp. simpl. by rewrite Permutation_middle. }
  destruct Hs as [H1 H2 [H3 H3'] H4 H5 H6]. split; cbn [partition slots free_swap cnt sw_heap set_free slots_in_disk size]; try done.
  - rewrite Hall. split; [done|]. intros q. rewrite Hall. apply H3'.
  - by rewrite Hall.
  - destruct H5 as (lv & Ha & Hb). exists lv. split; [done|]. intros q. rewrite Hall. apply Hb.
  - intros q pg' Hq. apply H6. rewrite Hp. by right.
Qed.

Lemma free_slot_ok s live ls p pg :
  swap_inv s live -> live ≡ₚ (p, pg) :: ls ->
  exists s', free_slot p s = Ok (tt, s') /\ swap_inv s' ls /\ partition s' = partition s.
Proof.
  intros Hs Hlive. assert (Hp : p ∈ all_slots s live).
  { apply elem_of_app. left. rewrite Hlive. by left. }
  destruct (slot_range s live p Hs Hp) as (Hst & H0 & Hr). pose proof (si_cnt s live Hs) as [Hc1 Hc2].
  destruct (si_disk s live Hs) as (_ & Hsz & _ & Hsize). unfold free_slot.
  rewrite (bindM_step _ _ _ _ _ (slot_start_ok s p _ Hst)). do 2 erewrite bindM_step by reflexivity.
  rewrite Hsize, u32_small by lia. destruct (Z.eqb_spec (pos (slots s) p + 8) (cnt s)) as [Heq|Hne].
  - destruct (si_heap s live Hs) as (lv & Hl & Hin).
    destruct (drop_slot_ok s lv p Hl (Hin p Hp)) as (h & lv' & Hd & Hl' & Hkeep).
    rewrite (bindM_step _ _ _ _ _ Hd). erewrite bindM_step by reflexivity. rewrite u32_small by lia.
    erewrite bindM_step by reflexivity.
    assert (Hall : all_slots s live ≡ₚ p :: (ls.*1 ++ free_swap s)) by (unfold all_slots; by rewrite Hlive).
    assert (Hinv : swap_inv (set_cnt (cnt s - 8) (set_sw_heap h (set_slots (delete p (slots s)) s))) ls).
    { rewrite <- (set_free_same s) at 3. eapply shrunk_inv; try done.
      - intros x Hx. rewrite Hlive. by right.
      - intros q Hq. destruct (si_slots s live Hs) as [Hn _].
        rewrite Hall in Hn. apply NoDup_cons in Hn as [Hpn _].
        apply Hkeep; [|by intros ->]. apply Hin. rewrite Hall. by right. }
    destruct (shrink_loop_ok (S (length (free_swap s))) _ ls Hinv) as (s' & H1 & H2 & H3); [simpl; lia|].
    by exists s'.
  - eexists. split; [reflexivity|]. split; [|done]. eapply listed_inv; [exact Hs|exact Hlive|apply insert_seq_perm].
Qed.

(** ** Swapping out and in *)

Definition page_ok (pg : page) : Prop := length pg = 8%nat /\ Forall (fun b => is_sector b = true) pg.

(** The disk after [pg] was written at [st]. *)
Definition stored (d0 d : D) (st : Z) (pg : page) : Prop :=
  bd_ok d /\ bd_size d = bd_size d0 /\
  forall m, 0 <= m -> bd_content d m =
    if (st <=? m) && (m <? st + 8) then nth (Z.to_nat (m - st)) pg [] else bd_content d0 m.

(** A page written to a slot that is not in use joins the live ones. *)
Lemma stored_data s live s' p pg :
  swap_inv s live -> page_ok pg -> stored (partition s) (partition s') (pos (slots s') p) pg ->
  0 <= pos (slots s') p ->
  (forall q, q ∈ live.*1 -> pos (slots s') q = pos (slots s) q /\ q <> p) ->
  (forall q, q ∈ live.*1 -> pos (slots s') p + 8 <= pos (slots s) q \/ pos (slots s) q + 8 <= pos (slots s') p) ->
  forall q pg', (q, pg') ∈ (p, pg) :: live -> length pg' = 8%nat /\
    forall k b, pg' !! k = Some b -> bd_content (partition s') (pos (slots s') q + Z.of_nat k) = b.
Proof.
  intros Hs [Hlen _] (Hd & Hsz & Hc) H0 Hold Hap q pg' Hq. apply elem_of_cons in Hq as [[= -> ->]|Hq].
  - split; [done|]. intros k b Hk. pose proof (lookup_lt_Some _ _ _ Hk). rewrite Hc by lia.
    rewrite (proj2 (Z.leb_le _ _)), (proj2 (Z.ltb_lt _ _)) by lia. simpl.
    replace (Z.to_nat _) with k by lia. by apply nth_lookup_Some.
  - destruct (si_data s live Hs q pg' Hq) as [Hl Hdat]. split; [done|]. intros k b Hk.
    pose proof (lookup_lt_Some _ _ _ Hk) as Hlt.
    assert (Hq1 : q ∈ live.*1) by (by apply (list_elem_of_fmap_2 fst) in Hq).
    destruct (Hold q Hq1) as [-> _]. specialize (Hap q Hq1).
    destruct (slot_range s live q Hs) as (_ & Hq0 & _); [apply elem_of_app; by left|].
    rewrite Hc by lia. destruct (Z.leb_spec (pos (slots s') p) (pos (slots s) q + Z.of_nat k)),
      (Z.ltb_spec (pos (slots s) q + Z.of_nat k) (pos (slots s') p + 8)); simpl; try lia; by apply Hdat.
Qed.

Lemma write_page_stored s start pg :
  bd_ok (partition s) -> bd_size (partition s) < 2 ^ 31 -> 0 <= start -> start + 8 <= bd_size (partition s) ->
  page_ok pg ->
  exists d, write_page pg start s = Ok (tt, set_partition d s) /\ stored (partition s) d start pg.
Proof.
  intros Hd Hsz H0 Hr [Hl Hb]. destruct (write_page_ok pg s start) as (d & Hw & H1 & H2 & H3); [done..|lia|done|].
  exists d. split; [done|]. split; [done|]. split; [done|]. intros m Hm. rewrite H3 by done. by rewrite Hl.
Qed.

(** The temporary sector buffer comes and goes. *)
Lemma free_buffer s lv b n x m :
  al_ok (sw_heap s) ((x, m) :: (b, n) :: lv) ->
  exists h, sw_free b s = Ok (tt, set_sw_heap h s) /\ al_ok h ((x, m) :: lv).
Proof. intros Hl. apply (sw_free_ok s ((x, m) :: lv) b n). eapply al_perm; [|exact Hl]. apply Permutation_swap. Qed.

Lemma write_swap_reuse s live pg p l :
  roomy (H := A) -> swap_inv s live -> page_ok pg -> free_swap s = p :: l ->
  exists s', write_swap pg s = Ok (p, s') /\ swap_inv s' ((p, pg) :: live) /\
    bd_size (partition s') = bd_size (partition s).
Proof.
  intros Hroom Hs Hpg Hfree. destruct (si_heap s live Hs) as (lv & Hl & Hin).
  destruct (sw_malloc_ok s lv DISK_SECTOR_SIZE Hroom Hl) as (b & h1 & Hm & [Hb0 _] & Hl1);
    [unfold DISK_SECTOR_SIZE, al_max; lia|].
  assert (Hp : p ∈ all_slots s live) by (apply elem_of_app; right; rewrite Hfree; by left).
  destruct (slot_range s live p Hs Hp) as (Hst & H0 & Hr). pose proof (si_cnt s live Hs) as [Hc1 Hc2].
  destruct (si_disk s live Hs) as (Hd0 & Hsz & Hsd & Hsize).
  set (s1 := set_free l (set_sw_heap h1 s)).
  destruct (write_page_stored s1 (pos (slots s) p) pg) as (d & Hw & Hsto); [done|done|done|simpl; lia|done|].
  destruct (sw_free_ok (set_partition d s1) lv b DISK_SECTOR_SIZE Hl1) as (h2 & Hf & Hl2).
  exists (set_sw_heap h2 (set_partition d s1)).
  assert (Hall : all_slots (set_sw_heap h2 (set_partition d s1)) ((p, pg) :: live) ≡ₚ all_slots s live).
  { unfold all_slots. simpl. rewrite Hfree. by rewrite Permutation_middle. }
  assert (Hpn : p ∉ live.*1).
  { destruct (si_slots s live Hs) as [Hn _]. unfold all_slots in Hn. rewrite Hfree, NoDup_app in Hn.
    destruct Hn as (_ & Hn & _). intros Hin'. apply (Hn p Hin'). by left. }
  split; [|split; [|apply Hsto]].
  - unfold write_swap. rewrite (bindM_step _ _ _ _ _ Hm), (proj2 (Z.eqb_neq b NULL) Hb0).
    erewrite bindM_step by reflexivity. simpl. rewrite Hfree. erewrite bindM_step by reflexivity. fold s1.
    rewrite (bindM_step _ _ _ _ _ (slot_start_ok s1 p _ Hst)), (bindM_step _ _ _ _ _ Hw).
    by rewrite (bindM_step _ _ _ _ _ Hf).
  - destruct Hsto as (Hd & Hdsz & Hdc). split.
    + cbn. by rewrite Hdsz.
    + cbn -[Z.div]. by rewrite Hdsz.
    + destruct (si_slots s live Hs) as [Hn Hsl]. split; [by rewrite Hall|]. intros q. rewrite Hall. apply Hsl.
    + rewrite Hall. apply (si_starts s live Hs).
    + exists lv. split; [done|]. intros q. rewrite Hall. apply Hin.
    + apply (stored_data s live); try done.
      * intros q Hq. split; [done|]. by intros ->.
      * intros q Hq. apply (slot_apart s live p q Hs Hp); [apply elem_of_app; by left|by intros ->].
Qed.

Lemma write_swap_fresh s live pg :
  roomy (H := A) -> swap_inv s live -> page_ok pg -> free_swap s = [] -> cnt s + 8 <= bd_size (partition s) ->
  exists p s', write_swap pg s = Ok (p, s') /\ swap_inv s' ((p, pg) :: live) /\
    bd_size (partition s') = bd_size (partition s).
Proof.
  intros Hroom Hs Hpg Hfree Hroom'. destruct (si_heap s live Hs) as (lv & Hl & Hin).
  destruct (sw_malloc_ok s lv DISK_SECTOR_SIZE Hroom Hl) as (b & h1 & Hm & [Hb0 _] & Hl1);
    [unfold DISK_SECTOR_SIZE, al_max; lia|].
  destruct (sw_malloc_ok (set_sw_heap h1 s) _ sizeof_slot Hroom Hl1) as (p & h2 & Hm2 & [Hp0 Hpf] & Hl2);
    [unfold sizeof_slot, al_max; lia|].
  pose proof (si_cnt s live Hs) as [Hc1 Hc2]. destruct (si_disk s live Hs) as (Hd0 & Hsz & Hsd & Hsize).
  set (s1 := set_slots (<[p := cnt s]> (slots s)) (set_sw_heap h2 s)).
  destruct (write_page_stored s1 (cnt s) pg) as (d & Hw & Hsto); [done|done|lia|simpl; lia|done|].
  set (s2 := set_cnt (cnt s + 8) (set_partition d s1)).
  destruct (free_buffer s2 lv b DISK_SECTOR_SIZE p sizeof_slot Hl2) as (h3 & Hf & Hl3).
  assert (Hpn : p ∉ live.*1).
  { intros Hin'. apply Hpf. right. apply Hin. apply elem_of_app. by left. }
  assert (Hposp : pos (slots s1) p = cnt s) by (unfold pos; simpl; by rewrite lookup_insert_eq).
  assert (Hposq : forall q, q ∈ live.*1 -> slots s1 !! q = slots s !! q).
  { intros q Hq. simpl. rewrite lookup_insert_ne; [done|]. by intros ->. }
  assert (Hall : all_slots s live = live.*1) by (unfold all_slots; by rewrite Hfree, app_nil_r).
  assert (Hall' : all_slots (set_sw_heap h3 s2) ((p, pg) :: live) = p :: live.*1)
    by (unfold all_slots; simpl; by rewrite Hfree, app_nil_r).
  exists p, (set_sw_heap h3 s2). split; [|split; [|apply Hsto]].
  - unfold write_swap. rewrite (bindM_step _ _ _ _ _ Hm), (proj2 (Z.eqb_neq b NULL) Hb0).
    erewrite bindM_step by reflexivity. simpl. rewrite Hfree. do 2 erewrite bindM_step by reflexivity. simpl.
    rewrite (proj2 (Z.leb_gt (slots_in_disk s) (cnt s))) by lia.
    rewrite (bindM_step _ _ _ _ _ Hm2), (proj2 (Z.eqb_neq p NULL) Hp0).
    do 2 erewrite bindM_step by reflexivity. simpl. fold s1. rewrite (bindM_step _ _ _ _ _ Hw).
    erewrite bindM_step by reflexivity. rewrite u32_small by lia. fold s2. by rewrite (bindM_step _ _ _ _ _ Hf).
  - destruct (si_slots s live Hs) as [Hn Hsl]. rewrite Hall in Hn, Hsl. pose proof Hsto as (Hd & Hdsz & Hdc).
    split; rewrite ?Hall'.
    + cbn. rewrite Hdsz. done.
    + cbn -[Z.div]. rewrite Hdsz. cbn -[Z.div]. split; [lia|zlia].
    + split; [by apply NoDup_cons|]. intros q [->|Hq]%elem_of_cons.
      * split; [done|]. cbn. rewrite lookup_insert_eq. by eexists.
      * split; [by apply Hsl|]. change (slots (set_sw_heap h3 s2)) with (slots s1).
        rewrite (Hposq q Hq). by apply Hsl.
    + cbn [map slots set_sw_heap s2 set_cnt set_partition cnt]. rewrite Hposp.
      rewrite (pos_ext (slots s)) by done. replace ((cnt s + 8) / 8) with (cnt s / 8 + 1) by zlia.
      rewrite mults_snoc by zlia. rewrite <- Hc2. rewrite Permutation_app_comm. simpl. constructor.
      rewrite <- Hall. apply (si_starts s live Hs).
    + exists ((p, sizeof_slot) :: lv). split; [done|]. intros q [->|Hq]%elem_of_cons; [by left|].
      right. apply Hin. by rewrite Hall.
    + apply (stored_data s live); cbn [partition slots set_sw_heap s2 set_cnt set_partition]; rewrite ?Hposp; try done; try lia.
      * intros q Hq. split; [unfold pos; by rewrite (Hposq q Hq)|by intros ->].
      * intros q Hq. right. apply (slot_range s live q Hs). by rewrite Hall.
Qed.

Lemma write_swap_total s live pg :
  roomy (H := A) -> swap_inv s live -> page_ok pg ->
  8 * (Z.of_nat (length live) + 1) <= bd_size (partition s) ->
  exists p s', write_swap pg s = Ok (p, s') /\ swap_inv s' ((p, pg) :: live) /\
    bd_size (partition s') = bd_size (partition s).
Proof.
  intros Hroom Hs Hpg Hcap. destruct (free_swap s) as [|p l] eqn:Hfree.
  - apply write_swap_fresh; try done. pose proof (Permutation_length (si_starts s live Hs)) as Hlen.
    unfold all_slots, mults in Hlen. rewrite Hfree, app_nil_r, !length_map, length_seqZ in Hlen.
    pose proof (si_cnt s live Hs) as [Hc1 Hc2]. lia.
  - destruct (write_swap_reuse s live pg p l Hroom Hs Hpg Hfree) as (s' & ?). by exists p, s'.
Qed.

(** The heap and the disk may change as long as the slots are kept. *)
Lemma swap_inv_same s live h lv d :
  swap_inv s live -> al_ok h lv -> (forall p, p ∈ all_slots s live -> p ∈ lv.*1) -> bd_ok d ->
  bd_size d = bd_size (partition s) -> (forall m, bd_content d m = bd_content (partition s) m) ->
  swap_inv (set_partition d (set_sw_heap h s)) live.
Proof.
  intros [H1 H2 H3 H4 H5 H6] Hh Hin Hd Hsz Hc. split; cbn -[Z.div]; try done.
  - rewrite Hsz. by split; [|apply H1].
  - by rewrite Hsz.
  - by exists lv.
  - intros p pg Hp. destruct (H6 p pg Hp) as [Hl Hdat]. split; [done|]. intros k b Hk. rewrite Hc. by apply Hdat.
Qed.

Lemma read_swap_total s live ls p pg :
  roomy (H := A) -> swap_inv s live -> live ≡ₚ (p, pg) :: ls ->
  exists s', read_swap p s = Ok (pg, s') /\ swap_inv s' ls /\ bd_size (partition s') = bd_size (partition s).
Proof.
  intros Hroom Hs Hlive. destruct (si_heap s live Hs) as (lv & Hl & Hin).
  destruct (sw_malloc_ok s lv DISK_SECTOR_SIZE Hroom Hl) as (b & h1 & Hm & [Hb0 _] & Hl1);
    [unfold DISK_SECTOR_SIZE, al_max; lia|].
  assert (Hp : p ∈ all_slots s live) by (apply elem_of_app; left; rewrite Hlive; by left).
  destruct (slot_range s live p Hs Hp) as (Hst & H0 & Hr). pose proof (si_cnt s live Hs) as [Hc1 Hc2].
  destruct (si_disk s live Hs) as (Hd0 & Hsz & Hsd & Hsize). set (s1 := set_sw_heap h1 s).
  destruct (read_page_ok 8 s1 (pos (slots s) p)) as (d & Hrd & Hd & Hdsz & Hdc); [done|done|done|simpl; lia|].
  destruct (sw_free_ok (set_partition d s1) lv b DISK_SECTOR_SIZE Hl1) as (h2 & Hf & Hl2).
  assert (Hinv : swap_inv (set_sw_heap h2 (set_partition d s1)) live)
    by (apply (swap_inv_same s live h2 lv d); done).
  destruct (free_slot_ok _ live ls p pg Hinv Hlive) as (s' & Hfs & Hs' & Hpart).
  exists s'. split; [|split; [done|by rewrite Hpart]].
  unfold read_swap. rewrite (bindM_step _ _ _ _ _ Hm), (proj2 (Z.eqb_neq b NULL) Hb0).
  rewrite (bindM_step _ _ _ _ _ (slot_start_ok s1 p _ Hst)), (bindM_step _ _ _ _ _ Hrd).
  rewrite (bindM_step _ _ _ _ _ Hf), (bindM_step _ _ _ _ _ Hfs). unfold mret, M_ret. do 2 f_equal.
  destruct (si_data s live Hs p pg) as [Hlen Hdat]; [rewrite Hlive; by left|].
  apply list_eq. intros k. rewrite list_lookup_fmap. destruct (decide (k < 8)%nat) as [Hk|Hk].
  - rewrite lookup_seqZ_lt by lia. destruct (lookup_lt_is_Some_2 pg k) as [x Hx]; [lia|].
    rewrite Hx. simpl. f_equal. by apply Hdat.
  - rewrite lookup_seqZ_ge by lia. rewrite lookup_ge_None_2 by lia. done.
Qed.

(** ** Any sequence of swaps *)

Inductive swap_op : Type := SOut (pg : page) | SIn (i : nat).

(** [SIn i] reads back the [i]-th page still out. *)
Fixpoint swap_run (os : list swap_op) (s : swap) (live : list (Z * page)) : res (list page * swap * list Z) :=
  match os with
  | [] => Ok ([], s, live.*1)
  | SOut pg :: os =>
      '(p, s) ← write_swap pg s; swap_run os s ((p, pg) :: live)
  | SIn i :: os =>
      match live !! i with
      | Some (p, _) =>
          '(pg, s) ← read_swap p s;
          '(pgs, s, l) ← swap_run os s (delete i live);
          Ok (pg :: pgs, s, l)
      | None => swap_run os s live
      end
  end.

(** What should come back, from the pages alone. *)
Fixpoint swap_spec (os : list swap_op) (out : list page) : list page :=
  match os with
  | [] => []
  | SOut pg :: os => swap_spec os (pg :: out)
  | SIn i :: os =>
      match out !! i with
      | Some pg => pg :: swap_spec os (delete i out)
      | None => swap_spec os out
      end
  end.

(** Pages are pages, and never more of them out than the disk has room for. *)
Fixpoint swap_ok (os : list swap_op) (n cap : Z) : Prop :=
  match os with
  | [] => True
  | SOut pg :: os => page_ok pg /\ 8 * (n + 1) <= cap /\ swap_ok os (n + 1) cap
  | SIn i :: os => swap_ok os (if Z.of_nat i <? n then n - 1 else n) cap
  end.

Lemma swap_run_ok os s live :
  roomy (H := A) -> swap_inv s live -> swap_ok os (Z.of_nat (length live)) (bd_size (partition s)) ->
  exists s' ps, swap_run os s live = Ok (swap_spec os live.*2, s', ps).
Proof.
  intros Hroom. revert s live. induction os as [|[pg|i] os IH]; intros s live Hs Hok; cbn [swap_run swap_spec swap_ok] in *.
  - by eexists _, _.
  - destruct Hok as (Hpg & Hcap & Hok). destruct (write_swap_total s live pg Hroom Hs Hpg Hcap) as (p & s1 & Hw & Hs1 & Hsz).
    rewrite Hw. cbn [mbind res_bind]. apply IH; [done|]. cbn [length]. rewrite Hsz.
    by replace (Z.of_nat (S (length live))) with (Z.of_nat (length live) + 1) by lia.
  - rewrite list_lookup_fmap. destruct (live !! i) as [[p pg]|] eqn:Hi; cbn [fmap option_fmap option_map].
    + pose proof (lookup_lt_Some _ _ _ Hi). rewrite (proj2 (Z.ltb_lt (Z.of_nat i) _)) in Hok by lia.
      destruct (read_swap_total s live (delete i live) p pg Hroom Hs) as (s1 & Hr & Hs1 & Hsz).
      { by apply delete_Permutation. }
      rewrite Hr. cbn [mbind res_bind]. destruct (IH s1 (delete i live) Hs1) as (s' & ps & Hrun).
      { rewrite Hsz, length_delete by (by eexists).
        by replace (Z.of_nat (length live - 1)) with (Z.of_nat (length live) - 1) by lia. }
      rewrite Hrun. cbn [mbind res_bind]. exists s', ps. do 3 f_equal. simpl. f_equal.
      f_equal. apply (list_fmap_delete snd).
    + apply lookup_ge_None in Hi. rewrite (proj2 (Z.ltb_ge (Z.of_nat i) _)) in Hok by lia. by apply IH.
Qed.

(** The file-scope variables as the program starts. *)
Definition swap_boot (s : swap) : Prop :=
  bd_ok (partition s) /\ bd_size (partition s) < 2 ^ 31 /\ 0 <= bd_size (partition s) /\
  (exists lv, al_ok (sw_heap s) lv) /\ cnt s = 0 /\ size s = 0.

Lemma swap_init_ok s :
  swap_boot s -> exists s', swap_init s = Ok (tt, s') /\ swap_inv s' [] /\ partition s' = partition s.
Proof.
  intros (Hd & Hsz & Hsz0 & (lv & Hlv) & Hc & Hz). eexists. split; [|split].
  - unfold swap_init. rewrite Hz. reflexivity.
  - split; unfold all_slots; cbn [partition slots free_swap cnt slots_in_disk size sw_heap app fmap list_fmap].
    + done.
    + rewrite Hc. split; [lia|done].
    + split; [apply NoDup_nil_2|]. intros p Hp. by apply elem_of_nil in Hp.
    + by rewrite Hc.
    + exists lv. split; [done|]. intros p Hp. by apply elem_of_nil in Hp.
    + intros p pg Hp. by apply elem_of_nil in Hp.
  - done.
Qed.

End inv.

(** Room for two pages on a disk of 20 sectors. *)
Definition demo_swap : swap (list sector) Z :=
  mk_swap (replicate 20 (replicate 512 0)) 1000 ∅ [] 0 0 0.

Definition demo_page (x : Z) : page := replicate 8 (replicate 512 x).
Definition demo_swap_ops : list swap_op :=
  [SOut (demo_page 1); SOut (demo_page 2); SIn 1; SOut (demo_page 3); SIn 0; SIn 0].

Lemma demo_page_ok x : 0 <= x < 256 -> page_ok (demo_page x).
Proof.
  intros Hx. split; [done|]. apply Forall_replicate. unfold is_sector. apply andb_true_intro. split; [done|].
  apply forallb_forall. intros y Hy%list_elem_of_In%elem_of_replicate. destruct Hy as [-> _].
  by rewrite (proj2 (Z.leb_le 0 x)), (proj2 (Z.ltb_lt x 256)) by lia.
Qed.

