(* ===== verification/Pagedir.v ===== *)
(** * Page directories: userprog/pagedir.c and paging_init of threads/init.c

    Page directories and page tables are pages of the page allocator, read and
    written word by word in its memory.  The state adds [base_page_dir], the
    control register CR3 and the processor's translation lookaside buffer,
    which a load of CR3 empties; [user_access] is the processor's side: a
    memory access of a user program, translated through the buffer or by
    walking the tables of CR3, with its permission checks and its updates of
    the accessed and dirty bits. *)

From S2P Require Import Prelude Vaddr Palloc.

Record vm : Type := mk_vm { vm_pal : pal; base_page_dir : Z; cr3 : Z; tlb : gmap Z Z }.

Definition set_pal (p : pal) (s : vm) : vm := mk_vm p (base_page_dir s) (cr3 s) (tlb s).
Definition set_cr3 (x : Z) (s : vm) : vm := mk_vm (vm_pal s) (base_page_dir s) x ∅.
Definition set_tlb (t : gmap Z Z) (s : vm) : vm := mk_vm (vm_pal s) (base_page_dir s) (cr3 s) t.

(** A little-endian word of memory. *)
Definition word_at (m : ram) (p : Z) : Z :=
  m p + 2 ^ 8 * m (p + 1) + 2 ^ 16 * m (p + 2) + 2 ^ 24 * m (p + 3).
Definition put_word (p v : Z) (m : ram) : ram :=
  fun a => if (p <=? a) && (a <? p + 4) then Z.shiftr v (8 * (a - p)) mod 2 ^ 8 else m a.
Definition copy_bytes (dst src n : Z) (m : ram) : ram :=
  fun a => if (dst <=? a) && (a <? dst + n) then m (src + (a - dst)) else m a.

(** [sizeof (uint32_t)]. *)
Definition WORD : Z := 4.

Section pagedir.
(** RAM size found by the loader; the bounds of the kernel's code. *)
Context (ram_pages kstart kend_text : Z).

Definition in_ram (p n : Z) : bool :=
  (PHYS_BASE <=? p) && (p + n <=? PHYS_BASE + PGSIZE * ram_pages).

Definition on_pal {X} (m : M pal X) : M vm X := fun s =>
  '(x, p) ← m (vm_pal s); Ok (x, set_pal p s).
Definition set_mem (m : ram) (s : vm) : vm := set_pal (set_memory m (vm_pal s)) s.

Definition load32 (p : Z) : M vm Z := fun s =>
  if in_ram p WORD then Ok (word_at (memory (vm_pal s)) p, s) else Fail BadAccess.
Definition store32 (p v : Z) : M vm unit := fun s =>
  if in_ram p WORD then Ok (tt, set_mem (put_word p v (memory (vm_pal s))) s) else Fail BadAccess.
Definition memcpy (dst src n : Z) : M vm unit := fun s =>
  if in_ram dst n && in_ram src n
  then Ok (tt, set_mem (copy_bytes dst src n (memory (vm_pal s))) s) else Fail BadAccess.

(** ** userprog/pagedir.c *)

Definition pagedir_activate (pd : Z) : M vm unit :=
  base ← gets base_page_dir;
  let pd := if pd =? NULL then base else pd in
  p ← liftM (vtop pd);
  modify (set_cr3 p).

Definition active_pd : M vm Z :=
  pd ← gets cr3;
  liftM (ptov pd).

Definition invalidate_pagedir (pd : Z) : M vm unit :=
  act ← active_pd;
  if act =? pd then pagedir_activate pd else mret tt.

Definition pagedir_create : M vm Z :=
  pd ← on_pal (palloc_get_page 0);
  if negb (pd =? NULL) then
    base ← gets base_page_dir;
    memcpy pd base PGSIZE ;;
    mret pd
  else mret pd.

(** The two loops of [pagedir_destroy], over [n] entries from [pte] or [pde] on. *)
Fixpoint free_frames (n : nat) (pte : Z) : M vm unit :=
  match n with
  | O => mret tt
  | S n =>
      w ← load32 pte;
      (if negb (Z.land w PTE_P =? 0) then
         page ← liftM (pte_get_page w); on_pal (palloc_free_page page)
       else mret tt) ;;
      free_frames n (pte + WORD)
  end.

Fixpoint free_tables (n : nat) (pde : Z) : M vm unit :=
  match n with
  | O => mret tt
  | S n =>
      w ← load32 pde;
      (if negb (Z.land w PTE_P =? 0) then
         pt ← liftM (pde_get_pt w);
         free_frames (Z.to_nat (PGSIZE / WORD)) pt ;;
         on_pal (palloc_free_page pt)
       else mret tt) ;;
      free_tables n (pde + WORD)
  end.

Definition pagedir_destroy (pd : Z) : M vm unit :=
  if pd =? NULL then mret tt else
  base ← gets base_page_dir;
  assertM (negb (pd =? base)) ;;
  free_tables (Z.to_nat (pd_no PHYS_BASE)) pd ;;
  on_pal (palloc_free_page pd).

(** The test for a missing table: the result is false where [lookup_page] returns a null
    pointer. *)
Definition ensure_table (pde : Z) (create : bool) : M vm bool :=
  w ← load32 pde;
  if w =? 0 then
    if create then
      pt ← on_pal (palloc_get_page PAL_ZERO);
      if pt =? NULL then mret false else
      x ← liftM (pde_create pt);
      store32 pde x ;;
      mret true
    else mret false
  else mret true.

Definition lookup_page (pd vaddr : Z) (create : bool) : M vm Z :=
  assertM (negb (pd =? NULL)) ;;
  assertM (negb create || is_user_vaddr vaddr) ;;
  let pde := pd + WORD * pd_no vaddr in
  ok ← ensure_table pde create;
  if ok : bool then
    w ← load32 pde;
    pt ← liftM (pde_get_pt w);
    mret (pt + WORD * pt_no vaddr)
  else mret NULL.

Definition pagedir_set_page (pd upage kpage : Z) (writable : bool) : M vm bool :=
  assertM (pg_ofs upage =? 0) ;;
  assertM (pg_ofs kpage =? 0) ;;
  assertM (is_user_vaddr upage) ;;
  p ← liftM (vtop kpage);
  assertM (Z.shiftr p PTSHIFT <? ram_pages) ;;
  base ← gets base_page_dir;
  assertM (negb (pd =? base)) ;;
  pte ← lookup_page pd upage true;
  if negb (pte =? NULL) then
    w ← load32 pte;
    assertM (Z.land w PTE_P =? 0) ;;
    x ← liftM (pte_create_user kpage writable);
    store32 pte x ;;
    mret true
  else mret false.

Definition pagedir_get_page (pd uaddr : Z) : M vm Z :=
  assertM (is_user_vaddr uaddr) ;;
  pte ← lookup_page pd uaddr false;
  if pte =? NULL then mret NULL else
  w ← load32 pte;
  if negb (Z.land w PTE_P =? 0) then
    page ← liftM (pte_get_page w);
    mret (page + pg_ofs uaddr)
  else mret NULL.

Definition pagedir_clear_page (pd upage : Z) : M vm unit :=
  assertM (pg_ofs upage =? 0) ;;
  assertM (is_user_vaddr upage) ;;
  pte ← lookup_page pd upage false;
  if pte =? NULL then mret tt else
  w ← load32 pte;
  if negb (Z.land w PTE_P =? 0) then
    store32 pte (Z.land w (u32 (Z.lnot PTE_P))) ;;
    invalidate_pagedir pd
  else mret tt.

Definition pagedir_is_dirty (pd vpage : Z) : M vm bool :=
  pte ← lookup_page pd vpage false;
  if pte =? NULL then mret false else
  w ← load32 pte;
  mret (negb (Z.land w PTE_D =? 0)).

Definition pagedir_set_dirty (pd vpage : Z) (dirty : bool) : M vm unit :=
  pte ← lookup_page pd vpage false;
  if pte =? NULL then mret tt else
  w ← load32 pte;
  if dirty then store32 pte (Z.lor w PTE_D)
  else
    store32 pte (Z.land w (u32 (Z.lnot PTE_D))) ;;
    invalidate_pagedir pd.

Definition pagedir_is_accessed (pd vpage : Z) : M vm bool :=
  pte ← lookup_page pd vpage false;
  if pte =? NULL then mret false else
  w ← load32 pte;
  mret (negb (Z.land w PTE_A =? 0)).

Definition pagedir_set_accessed (pd vpage : Z) (accessed : bool) : M vm unit :=
  pte ← lookup_page pd vpage false;
  if pte =? NULL then mret tt else
  w ← load32 pte;
  if accessed then store32 pte (Z.lor w PTE_A)
  else
    store32 pte (Z.land w (u32 (Z.lnot PTE_A))) ;;
    invalidate_pagedir pd.

(** ** paging_init *)

(** [n] pages from [page] on; [pt] is the table of the previous page. *)
Fixpoint map_kernel (n : nat) (page pd pt : Z) : M vm unit :=
  match n with
  | O => mret tt
  | S n =>
      let paddr := u32 (page * PGSIZE) in
      vaddr ← liftM (ptov paddr);
      let pde := pd + WORD * pd_no vaddr in
      let in_kernel_text := (kstart <=? vaddr) && (vaddr <? kend_text) in
      w ← load32 pde;
      pt ← (if w =? 0 then
              pt ← on_pal (palloc_get_page (Z.lor PAL_ASSERT PAL_ZERO));
              x ← liftM (pde_create pt);
              store32 pde x ;;
              mret pt
            else mret pt);
      x ← liftM (pte_create_kernel vaddr (negb in_kernel_text));
      store32 (pt + WORD * pt_no vaddr) x ;;
      map_kernel n (page + 1) pd pt
  end.

Definition paging_init : M vm unit :=
  pd ← on_pal (palloc_get_page (Z.lor PAL_ASSERT PAL_ZERO));
  modify (fun s => mk_vm (vm_pal s) pd (cr3 s) (tlb s)) ;;
  map_kernel (Z.to_nat ram_pages) 0 pd NULL ;;
  p ← liftM (vtop pd);
  modify (set_cr3 p).

(** ** The processor's side *)

Definition has (w flag : Z) : bool := negb (Z.land w flag =? 0).

(** May a user program read, or write, through this entry? *)
Definition user_may (w : Z) (write : bool) : bool :=
  has w PTE_P && has w PTE_U && (negb write || has w PTE_W).

(** Translate by walking the tables, setting the accessed bits of both
    entries and, for a write, the dirty bit of the second; [None] is a page
    fault. *)
Definition walk (vaddr : Z) (write : bool) : M vm (option Z) :=
  pd ← gets (fun s => cr3 s + PHYS_BASE);
  let pde := pd + WORD * pd_no vaddr in
  d ← load32 pde;
  if user_may d write then
    let pte := Z.land d PTE_ADDR + PHYS_BASE + WORD * pt_no vaddr in
    w ← load32 pte;
    if user_may w write then
      let w := Z.lor (Z.lor w PTE_A) (if write then PTE_D else 0) in
      store32 pde (Z.lor d PTE_A) ;;
      store32 pte w ;;
      modify (fun s => set_tlb (<[pg_no vaddr := w]> (tlb s)) s) ;;
      mret (Some (Z.land w PTE_ADDR + pg_ofs vaddr))
    else mret None
  else mret None.

(** An entry of the buffer is used unless the access is a write and its dirty
    bit is clear. *)
Definition user_access (vaddr : Z) (write : bool) : M vm (option Z) :=
  t ← gets tlb;
  match t !! pg_no vaddr with
  | Some w =>
      if negb write || has w PTE_D then
        if user_may w write then mret (Some (Z.land w PTE_ADDR + pg_ofs vaddr)) else mret None
      else walk vaddr write
  | None => walk vaddr write
  end.
End pagedir.
