(* ===== verification/PagedirInv.v ===== *)
(** * Page directories implement maps of virtual pages

    The specification is a finite map per page directory, from virtual page
    numbers to entries; the theorem at the end relates every operation of
    pagedir.c, and every access of a user program, to it. *)

From S2P Require Import Prelude Vaddr Bitmap Palloc Pagedir.

#[local] Abbreviation PB := 3221225472.
Lemma phys_base : PHYS_BASE = PB. Proof. done. Qed.

(** ** Words of memory *)

Lemma byte_split v : 0 <= v < 2 ^ 32 ->
  v mod 2 ^ 8 + 2 ^ 8 * (v / 2 ^ 8 mod 2 ^ 8) + 2 ^ 16 * (v / 2 ^ 16 mod 2 ^ 8) + 2 ^ 24 * (v / 2 ^ 24 mod 2 ^ 8) = v.
Proof.
  intros Hv. change (2 ^ 32) with 4294967296 in Hv.
  change (2 ^ 8) with 256. change (2 ^ 16) with 65536. change (2 ^ 24) with 16777216. zlia.
Qed.

Lemma word_put_same m p v : 0 <= v < 2 ^ 32 -> word_at (put_word p v m) p = v.
Proof.
  intros Hv. unfold word_at, put_word. zcases.
  rewrite !Z.shiftr_div_pow2 by lia.
  replace (p - p) with 0 by lia. replace (p + 1 - p) with 1 by lia.
  replace (p + 2 - p) with 2 by lia. replace (p + 3 - p) with 3 by lia.
  change (2 ^ (8 * 0)) with 1. rewrite Z.div_1_r. by apply byte_split.
Qed.

Lemma word_put_ne m p q v : q + 4 <= p \/ p + 4 <= q -> word_at (put_word p v m) q = word_at m q.
Proof. intros H. unfold word_at, put_word. zcases. Qed.

Lemma word_fill_in m p n q : p <= q -> q + 4 <= p + n -> word_at (fill p n 0 m) q = 0.
Proof. intros ? ?. unfold word_at, fill. zcases. Qed.

Lemma word_fill_out m p n x q : q + 4 <= p \/ p + n <= q -> word_at (fill p n x m) q = word_at m q.
Proof. intros ?. unfold word_at, fill. zcases. Qed.

Lemma word_copy_in m d s n q :
  d <= q -> q + 4 <= d + n -> word_at (copy_bytes d s n m) q = word_at m (s + (q - d)).
Proof.
  intros ? ?. unfold word_at, copy_bytes. zcases.
  replace (s + (q + 1 - d)) with (s + (q - d) + 1) by lia.
  replace (s + (q + 2 - d)) with (s + (q - d) + 2) by lia.
  by replace (s + (q + 3 - d)) with (s + (q - d) + 3) by lia.
Qed.

Lemma word_copy_out m d s n q :
  q + 4 <= d \/ d + n <= q -> word_at (copy_bytes d s n m) q = word_at m q.
Proof. intros ?. unfold word_at, copy_bytes. zcases. Qed.

(** Two words of pages are the same or apart. *)
Lemma word_apart P Q k l :
  P mod 4096 = 0 -> Q mod 4096 = 0 -> 0 <= k < 1024 -> 0 <= l < 1024 -> P + 4 * k <> Q + 4 * l ->
  P + 4 * k + 4 <= Q + 4 * l \/ Q + 4 * l + 4 <= P + 4 * k.
Proof. zlia. Qed.

Lemma word_same P Q k l :
  P mod 4096 = 0 -> Q mod 4096 = 0 -> 0 <= k < 1024 -> 0 <= l < 1024 -> P + 4 * k = Q + 4 * l ->
  P = Q /\ k = l.
Proof. zlia. Qed.

(** ** Flags of an entry *)

Lemma land_flags a f x : a mod 4096 = 0 -> 0 <= f < 4096 -> 0 <= x < 4096 -> Z.land (a + f) x = Z.land f x.
Proof.
  intros Ha Hf Hx. rewrite <- (lor_flags a f Ha Hf), Z.land_lor_distr_l.
  assert (Z.land a x = 0) as ->; [|done].
  pose proof (lor_flags a x Ha Hx) as H. pose proof (Z.add_lor_land a x). lia.
Qed.

Lemma land_addr a f : 0 <= a < 2 ^ 32 -> a mod 4096 = 0 -> 0 <= f < 4096 -> Z.land (a + f) PTE_ADDR = a.
Proof.
  intros Ha Hm Hf. change (2 ^ 32) with 4294967296 in *. rewrite PTE_ADDR_clear; [zlia|].
  change (2 ^ 32) with 4294967296. zlia.
Qed.

Lemma log2_flags y : 0 <= y < 4096 -> Z.log2 y < 12.
Proof.
  intros Hy. destruct (Z.eq_dec y 0) as [->|]; [done|]. apply Z.log2_lt_pow2; [lia|]. change (2 ^ 12) with 4096. lia.
Qed.

Lemma lor_flag a f x : a mod 4096 = 0 -> 0 <= f < 4096 -> 0 <= x < 4096 -> Z.lor (a + f) x = a + Z.lor f x.
Proof.
  intros Ha Hf Hx. rewrite <- (lor_flags a f Ha Hf), <- Z.lor_assoc. apply lor_flags; [done|].
  split; [apply Z.lor_nonneg; lia|].
  destruct (Z.eq_dec (Z.lor f x) 0) as [->|Hne]; [lia|]. apply Z.log2_lt_cancel. rewrite Z.log2_lor by lia.
  change (Z.log2 4096) with 12.
  assert (forall y, 0 <= y < 4096 -> Z.log2 y < 12) as Hl.
  { intros y Hy. destruct (Z.eq_dec y 0) as [->|]; [done|]. apply Z.log2_lt_pow2; [lia|]. change (2 ^ 12) with 4096. lia. }
  pose proof (Hl f Hf). pose proof (Hl x Hx). lia.
Qed.

Lemma land_mask a f l :
  0 <= a < 2 ^ 32 -> a mod 4096 = 0 -> 0 <= f < 4096 -> 0 <= l < 4096 ->
  Z.land (a + f) (Z.lor PTE_ADDR l) = a + Z.land f l.
Proof.
  intros Ha Hm Hf Hl. rewrite Z.land_lor_distr_r, land_addr, land_flags by done. apply lor_flags; [done|].
  split; [apply Z.land_nonneg; lia|].
  destruct (Z.eq_dec (Z.land f l) 0) as [->|Hne]; [lia|].
  apply Z.log2_lt_cancel. pose proof (Z.log2_land f l). pose proof (log2_flags f Hf).
  change (Z.log2 4096) with 12. lia.
Qed.

(** ** The specification's state *)

Record entry : Type := mk_entry {
  frame : Z; present : bool; writable : bool; accessed : bool; dirty : bool }.

Definition set_present (b : bool) (e : entry) : entry := mk_entry (frame e) b (writable e) (accessed e) (dirty e).
Definition set_acc (b : bool) (e : entry) : entry := mk_entry (frame e) (present e) (writable e) b (dirty e).
Definition set_dirt (b : bool) (e : entry) : entry := mk_entry (frame e) (present e) (writable e) (accessed e) b.

(** [dirs] gives for each directory its user pages, [held] the pages of the
    client, [active] the directory in use (none: the base directory). *)
Record space : Type := mk_space {
  dirs : gmap Z (gmap Z entry); held : gset Z; active : option Z }.

(** The entry as the hardware reads it. *)
Definition flags_of (e : entry) : Z :=
  (if present e then PTE_P else 0) + (if writable e then PTE_W else 0) + PTE_U +
  (if accessed e then PTE_A else 0) + (if dirty e then PTE_D else 0).
Definition pte_word (o : option entry) : Z :=
  match o with Some e => frame e - PB + flags_of e | None => 0 end.

Lemma flags_range e : 0 <= flags_of e < 4096.
Proof. destruct e as [f [] [] [] []]; by compute. Qed.

(** What a page of memory is used for. *)
Inductive role : Type :=
  | RBase | RKernel (i : Z) | RDir | RTable (pd i : Z) | RFrame (pd v : Z) | RHeld.

#[global] Instance role_eq_dec : EqDecision role.
Proof. solve_decision. Defined.

Definition is_meta (r : role) : Prop :=
  match r with RFrame _ _ | RHeld => False | _ => True end.

(** Number of user pages. *)
Definition USER_PAGES : Z := 786432.

Section inv.
Context (ram_pages kstart kend_text : Z).
Hypothesis Hram : 0 <= ram_pages < 2 ^ 18.

Definition page_ok (p : Z) : Prop :=
  PB <= p /\ p mod 4096 = 0 /\ p + 4096 <= PB + 4096 * ram_pages.

Definition entry_ok (e : entry) : Prop := page_ok (frame e).

(** Kernel memory: the page [k] of RAM is at [PHYS_BASE + 4096 * k]. *)
Definition in_text (k : Z) : bool := (kstart <=? PB + 4096 * k) && (PB + 4096 * k <? kend_text).
Definition kernel_word (k : Z) : Z :=
  if k <? ram_pages then 4096 * k + PTE_P + (if in_text k then 0 else PTE_W) else 0.

(** The directory entry [i] of [pd], against the user pages [m]. *)
Definition user_slot (W : Z -> Z) (own : gmap Z role) (m : gmap Z entry) (pd i : Z) : Prop :=
  (W (pd + 4 * i) = 0 /\ forall j, 0 <= j < 1024 -> m !! (1024 * i + j) = None) \/
  exists pt x, own !! pt = Some (RTable pd i) /\ W (pd + 4 * i) = pt - PB + 7 + x /\ (x = 0 \/ x = PTE_A) /\
    forall j, 0 <= j < 1024 -> W (pt + 4 * j) = pte_word (m !! (1024 * i + j)).

Definition kernel_slot (W : Z -> Z) (own : gmap Z role) (base i : Z) : Prop :=
  (W (base + 4 * i) = 0 /\ ram_pages <= 1024 * (i - 768)) \/
  exists pt, own !! pt = Some (RKernel i) /\ W (base + 4 * i) = pt - PB + 7 /\
    forall j, 0 <= j < 1024 -> W (pt + 4 * j) = kernel_word (1024 * (i - 768) + j).

Record mem_inv (W : Z -> Z) (base : Z) (own : gmap Z role) (ds : gmap Z (gmap Z entry)) : Prop := {
  mi_base : own !! base = Some RBase /\ forall i, 0 <= i < 768 -> W (base + 4 * i) = 0;
  mi_kernel : forall i, 768 <= i < 1024 -> kernel_slot W own base i;
  mi_user : forall pd m, ds !! pd = Some m -> own !! pd = Some RDir /\
    (forall i, 0 <= i < 768 -> user_slot W own m pd i) /\
    (forall i, 768 <= i < 1024 -> W (pd + 4 * i) = W (base + 4 * i));
  mi_tables : forall pt pd i, own !! pt = Some (RTable pd i) ->
    is_Some (ds !! pd) /\ 0 <= i < 768 /\ exists x, W (pd + 4 * i) = pt - PB + 7 + x /\ (x = 0 \/ x = PTE_A);
}.

(** [fixed] are the pages of the kernel's own mapping. *)
Record own_inv (P fixed : Z -> Prop) (own : gmap Z role) (a : space) : Prop := {
  oi_alloc : forall p, P p <-> is_Some (own !! p);
  oi_fixed : forall p, fixed p <-> own !! p = Some RBase \/ exists i, own !! p = Some (RKernel i);
  oi_dirs : forall p, own !! p = Some RDir -> is_Some (dirs a !! p);
  oi_frames : forall p pd v, own !! p = Some (RFrame pd v) <->
    exists m e, dirs a !! pd = Some m /\ m !! v = Some e /\ frame e = p /\ present e = true;
  oi_held : forall p, own !! p = Some RHeld <-> p ∈ held a;
}.

Definition dirs_ok (ds : gmap Z (gmap Z entry)) : Prop :=
  forall pd m v e, ds !! pd = Some m -> m !! v = Some e -> 0 <= v < USER_PAGES /\ entry_ok e.

(** Buffered translations are those of the active directory. *)
Definition tlb_ok (t : gmap Z Z) (a : space) : Prop :=
  forall v w, t !! v = Some w -> exists pd m e d, active a = Some pd /\ dirs a !! pd = Some m /\
    m !! v = Some e /\ present e = true /\ accessed e = true /\ (d = true -> dirty e = true) /\
    w = pte_word (Some (set_dirt d e)).

Definition pools_in_ram (p : pal) : Prop :=
  forall u i x, group_in p u i 1 x -> page_ok x.

Definition W (s : vm) : Z -> Z := word_at (memory (vm_pal s)).

Record vm_inv (fixed : Z -> Prop) (s : vm) (a : space) (own : gmap Z role) : Prop := {
  vi_pal : pal_ok (vm_pal s) /\ pools_in_ram (vm_pal s);
  vi_mem : mem_inv (W s) (base_page_dir s) own (dirs a);
  vi_own : own_inv (allocated (vm_pal s)) fixed own a;
  vi_dirs : dirs_ok (dirs a);
  vi_active : cr3 s = default (base_page_dir s) (active a) - PB /\
    forall pd, active a = Some pd -> is_Some (dirs a !! pd);
  vi_tlb : tlb_ok (tlb s) a;
}.
Implicit Types (s : vm) (a : space) (own : gmap Z role) (m : gmap Z entry).

(** ** Pages in RAM *)

Lemma alloc_page_ok p x : pools_in_ram p -> allocated p x -> page_ok x.
Proof. intros Hp (u & i & Hg & _). by apply (Hp u i). Qed.

Lemma own_page_ok fixed s a own p r : vm_inv fixed s a own -> own !! p = Some r -> page_ok p.
Proof.
  intros Hi Ho. destruct (vi_pal _ _ _ _ Hi) as [Hp Hr]. apply (alloc_page_ok (vm_pal s)); [done|].
  apply (oi_alloc _ _ _ _ (vi_own _ _ _ _ Hi)). by exists r.
Qed.

Lemma in_ram_page p n : page_ok p -> 0 <= n -> n + 4 <= 4096 -> in_ram ram_pages (p + n) WORD = true.
Proof.
  intros (? & _ & ?) ? ?. unfold in_ram. rewrite phys_base. change WORD with 4. change PGSIZE with 4096.
  apply andb_true_intro. rewrite !Z.leb_le. lia.
Qed.

Lemma load_page p k s : page_ok p -> 0 <= k < 1024 -> load32 ram_pages (p + 4 * k) s = Ok (W s (p + 4 * k), s).
Proof. intros Hp Hk. unfold load32. by rewrite in_ram_page by (done || lia). Qed.

Definition put (p v : Z) (s : vm) : vm := set_mem (put_word p v (memory (vm_pal s))) s.

Lemma store_page p k v s : page_ok p -> 0 <= k < 1024 ->
  store32 ram_pages (p + 4 * k) v s = Ok (tt, put (p + 4 * k) v s).
Proof. intros Hp Hk. unfold store32. by rewrite in_ram_page by (done || lia). Qed.

(** What a store changes. *)
Lemma W_put s p v q k l : page_ok p -> page_ok q -> 0 <= k < 1024 -> 0 <= l < 1024 -> 0 <= v < 2 ^ 32 ->
  W (put (p + 4 * k) v s) (q + 4 * l) = if decide (p + 4 * k = q + 4 * l) then v else W s (q + 4 * l).
Proof.
  intros (_ & Hp & _) (_ & Hq & _) Hk Hl Hv. unfold W, put, set_mem, set_pal, set_memory. cbn [vm_pal memory].
  case_decide as He.
  - rewrite <- He. by apply word_put_same.
  - apply word_put_ne. destruct (word_apart p q k l); auto.
Qed.

(** ** Reading entries *)

Lemma page_phys p : page_ok p -> 0 <= p - PB < 2 ^ 30 /\ (p - PB) mod 4096 = 0.
Proof.
  intros (? & ? & ?). change (2 ^ 18) with 262144 in Hram. change (2 ^ 30) with 1073741824. split; [lia|zlia].
Qed.

Lemma page_phys32 p f : page_ok p -> 0 <= f < 4096 -> 0 <= p - PB + f < 2 ^ 32.
Proof.
  intros Hp Hf. destruct (page_phys p Hp) as [H _]. change (2 ^ 30) with 1073741824 in H.
  change (2 ^ 32) with 4294967296. lia.
Qed.

Lemma pte_bits e x : entry_ok e -> 0 <= x < 4096 -> Z.land (pte_word (Some e)) x = Z.land (flags_of e) x.
Proof. intros He Hx. apply land_flags; [by apply page_phys|apply flags_range|done]. Qed.

Lemma pte_has e : entry_ok e ->
  has (pte_word (Some e)) PTE_P = present e /\ has (pte_word (Some e)) PTE_W = writable e /\
  has (pte_word (Some e)) PTE_U = true /\ has (pte_word (Some e)) PTE_A = accessed e /\
  has (pte_word (Some e)) PTE_D = dirty e.
Proof. intros He. unfold has. rewrite !pte_bits by done. destruct e as [f [] [] [] []]; by compute. Qed.

Lemma pte_addr e : entry_ok e -> Z.land (pte_word (Some e)) PTE_ADDR = frame e - PB.
Proof.
  intros He. destruct (page_phys _ He). apply land_addr; [|done|apply flags_range].
  change (2 ^ 30) with 1073741824 in *. change (2 ^ 32) with 4294967296. lia.
Qed.

Lemma pte_range o : (forall e, o = Some e -> entry_ok e) -> 0 <= pte_word o < 2 ^ 32.
Proof. intros Ho. destruct o as [e|]; [|done]. apply page_phys32; [by apply Ho|apply flags_range]. Qed.

(** Reading the presence of a page. *)
Definition here (o : option entry) : bool := match o with Some e => present e | None => false end.

Lemma pte_present o : (forall e, o = Some e -> entry_ok e) -> (Z.land (pte_word o) PTE_P =? 0) = negb (here o).
Proof.
  intros Ho. destruct o as [e|]; [|done]. destruct (pte_has e) as (Hp & _); [by apply Ho|].
  unfold has in Hp. simpl here. rewrite <- Hp. by rewrite negb_involutive.
Qed.

Lemma pte_page e : entry_ok e -> pte_get_page (pte_word (Some e)) = Ok (frame e).
Proof.
  intros He. unfold pte_get_page. rewrite pte_addr by done. destruct (page_phys _ He).
  rewrite ptov_ok by done. f_equal. rewrite phys_base. lia.
Qed.

(** Directory entries. *)
Lemma pde_flags x : x = 0 \/ x = PTE_A -> 0 <= 7 + x < 4096.
Proof. intros [->| ->]; by compute. Qed.

Lemma pde_bits pt x : page_ok pt -> x = 0 \/ x = PTE_A ->
  let d := pt - PB + 7 + x in
  0 < d < 2 ^ 32 /\ has d PTE_P = true /\ has d PTE_W = true /\ has d PTE_U = true /\
  Z.land d PTE_ADDR = pt - PB /\ Z.lor d PTE_A = pt - PB + 7 + PTE_A.
Proof.
  intros Hpt Hx. destruct (page_phys _ Hpt) as [Hr Hm]. pose proof (pde_flags x Hx) as Hf.
  change (2 ^ 30) with 1073741824 in Hr. cbv zeta. rewrite <- (Z.add_assoc (pt - PB) 7 x).
  split; [assert (0 <= x) by (destruct Hx as [->| ->]; by compute); change (2 ^ 32) with 4294967296; lia|]. unfold has. rewrite !(land_flags (pt - PB)) by done.
  rewrite land_addr by (done || (change (2 ^ 32) with 4294967296; lia)). rewrite lor_flag by done.
  destruct Hx as [->| ->]; split_and!; try done; apply (Z.add_assoc (pt - PB) 7 PTE_A).
Qed.

Lemma pde_table pt x : page_ok pt -> x = 0 \/ x = PTE_A -> pde_get_pt (pt - PB + 7 + x) = Ok pt.
Proof.
  intros Hpt Hx. destruct (pde_bits pt x Hpt Hx) as (_ & Hp & _ & _ & Ha & _). unfold pde_get_pt.
  rewrite bind_ASSERT by exact Hp. rewrite Ha. destruct (page_phys _ Hpt).
  rewrite ptov_ok by done. f_equal. rewrite phys_base. lia.
Qed.

(** Addresses and indices. *)
Lemma user_index va : 0 <= va < PB ->
  0 <= pd_no va < 768 /\ 0 <= pt_no va < 1024 /\ pg_no va = 1024 * pd_no va + pt_no va /\
  0 <= pg_no va < USER_PAGES.
Proof. intros Hva. rewrite pd_no_arith, pt_no_arith, pg_no_div by lia. unfold USER_PAGES. zlia. Qed.

(** ** Looking up an entry *)

(** [p] is the address of the entry of page [1024 * i + j]. *)
Definition pte_at own (pd i j p : Z) : Prop :=
  exists pt, own !! pt = Some (RTable pd i) /\ p = pt + 4 * j /\ 0 <= j < 1024.

Lemma table_unique W' base own ds pt pt' pd i :
  mem_inv W' base own ds -> own !! pt = Some (RTable pd i) -> own !! pt' = Some (RTable pd i) ->
  page_ok pt -> page_ok pt' -> pt = pt'.
Proof.
  intros Hm H1 H2 Hp Hp'. destruct (mi_tables _ _ _ _ Hm _ _ _ H1) as (_ & _ & x & Hx & Hxx).
  destruct (mi_tables _ _ _ _ Hm _ _ _ H2) as (_ & _ & y & Hy & Hyy).
  destruct (pde_bits pt x Hp Hxx) as (_ & _ & _ & _ & Ha & _). destruct (pde_bits pt' y Hp' Hyy) as (_ & _ & _ & _ & Hb & _).
  rewrite <- Hx in Ha. rewrite <- Hy in Hb. lia.
Qed.

(** The directory entry of a table and the words of the table. *)
Lemma table_words fixed s a own pd m i pt :
  vm_inv fixed s a own -> dirs a !! pd = Some m -> own !! pt = Some (RTable pd i) ->
  0 <= i < 768 /\ (exists x, W s (pd + 4 * i) = pt - PB + 7 + x /\ (x = 0 \/ x = PTE_A)) /\
  forall j, 0 <= j < 1024 -> W s (pt + 4 * j) = pte_word (m !! (1024 * i + j)).
Proof.
  intros Hi Hd Hpt. pose proof (vi_mem _ _ _ _ Hi) as Hm. pose proof (own_page_ok _ _ _ _ _ _ Hi Hpt) as Hok.
  destruct (mi_tables _ _ _ _ Hm _ _ _ Hpt) as (_ & Hi0 & x & Hx & Hxx).
  destruct (mi_user _ _ _ _ Hm pd m Hd) as (_ & Hu & _).
  destruct (Hu i Hi0) as [[H0 _]|(pt' & y & Ho & Hy & Hyy & Hw)].
  - destruct (pde_bits pt x Hok Hxx) as (Hpos & _). lia.
  - split; [done|]. split; [by exists x|].
    rewrite (table_unique _ _ _ _ pt pt' pd i Hm); [done|done|done|done|by eapply own_page_ok].
Qed.

Lemma page_neq_null p k : page_ok p -> 0 <= k -> (p + 4 * k =? NULL) = false.
Proof. intros (? & _) ?. apply Z.eqb_neq. unfold NULL. lia. Qed.

Lemma page_not_null p : page_ok p -> (p =? NULL) = false.
Proof. intros (? & _). apply Z.eqb_neq. unfold NULL. lia. Qed.

Lemma user_addr va : 0 <= va < PB -> is_user_vaddr va = true.
Proof. intros. apply Z.ltb_lt. rewrite phys_base. lia. Qed.

(** Once the table is there, [lookup_page] returns the entry's address. *)
Lemma entry_address fixed s a own pd m va pt :
  vm_inv fixed s a own -> dirs a !! pd = Some m -> 0 <= va < PB -> own !! pt = Some (RTable pd (pd_no va)) ->
  load32 ram_pages (pd + WORD * pd_no va) s = Ok (W s (pd + 4 * pd_no va), s) /\
  W s (pd + 4 * pd_no va) <> 0 /\ pde_get_pt (W s (pd + 4 * pd_no va)) = Ok pt.
Proof.
  intros Hi Hd Hva Hpt. destruct (user_index va Hva) as (Hi0 & _).
  destruct (table_words _ _ _ _ _ _ _ _ Hi Hd Hpt) as (_ & (x & Hx & Hxx) & _).
  pose proof (own_page_ok _ _ _ _ _ _ Hi Hpt) as Hok. destruct (pde_bits pt x Hok Hxx) as (Hpos & _).
  destruct (mi_user _ _ _ _ (vi_mem _ _ _ _ Hi) pd m Hd) as (Hod & _).
  split; [apply load_page; [by eapply own_page_ok|lia]|]. split; [lia|]. rewrite Hx. by apply pde_table.
Qed.

Lemma lookup_nocreate fixed s a own pd m va :
  vm_inv fixed s a own -> dirs a !! pd = Some m -> 0 <= va < PB ->
  exists p, lookup_page ram_pages pd va false s = Ok (p, s) /\
    ((p = NULL /\ m !! pg_no va = None) \/
     ((p =? NULL) = false /\ pte_at own pd (pd_no va) (pt_no va) p)).
Proof.
  intros Hi Hd Hva. destruct (user_index va Hva) as (Hi0 & Hj0 & Hno & _).
  destruct (mi_user _ _ _ _ (vi_mem _ _ _ _ Hi) pd m Hd) as (Hod & Hu & _).
  pose proof (own_page_ok _ _ _ _ _ _ Hi Hod) as Hpd.
  unfold lookup_page. rewrite bindM_assert by (by rewrite page_not_null). rewrite bindM_assert by done.
  cbv zeta. unfold ensure_table. destruct (Hu _ Hi0) as [[H0 Hm]|(pt & x & Ho & _)].
  - exists NULL. erewrite bindM_step; cycle 1.
    { erewrite bindM_step by (apply load_page; [done|lia]). rewrite H0. reflexivity. }
    split; [done|]. left. split; [done|]. rewrite Hno. by apply Hm.
  - destruct (entry_address _ _ _ _ _ _ va pt Hi Hd Hva Ho) as (Hl & Hne & Hg).
    exists (pt + 4 * pt_no va). erewrite bindM_step; cycle 1.
    { erewrite bindM_step by exact Hl. rewrite (proj2 (Z.eqb_neq _ 0) Hne). reflexivity. }
    split; [|right; split; [apply page_neq_null; [by eapply own_page_ok|lia]|by exists pt]].
    erewrite bindM_step by exact Hl. rewrite Hg. reflexivity.
Qed.

(** ** A new page table *)

Lemma get_page_memory flags p q x :
  palloc_get_page flags p = Ok (x, q) ->
  memory q = if negb (x =? NULL) && has_flag flags PAL_ZERO then fill x 4096 0 (memory p) else memory p.
Proof.
  unfold palloc_get_page, palloc_get_multiple. change (1 =? 0) with false. cbv iota.
  intros H. apply bind_Ok in H as ([b idx] & _ & H). revert H.
  set (pages := if negb (idx =? BITMAP_ERROR) then _ else _).
  assert (forall u b, memory (set_map u b p) = memory p) as Hsm by (by intros []).
  destruct (pages =? NULL) eqn:Hn; cbn [negb].
  - destruct (has_flag flags PAL_ASSERT); [done|]. intros [= <- <-]. by rewrite Hn, Hsm.
  - intros [= <- <-]. rewrite Hn. cbn [negb andb]. destruct (has_flag flags PAL_ZERO); cbn [memory set_memory]; by rewrite Hsm.
Qed.

Lemma page_of_one p x : page_of p 1 x <-> x = p.
Proof. split; [intros (j & Hj & ->); lia|intros ->; exists 0; lia]. Qed.

(** What [palloc_get_page] does, [PAL_ASSERT] aside. *)
Lemma get_page_ok flags p :
  pal_ok p -> pools_in_ram p -> has_flag flags PAL_ASSERT = false ->
  exists x q, palloc_get_page flags p = Ok (x, q) /\ pal_ok q /\ pools_in_ram q /\
    memory q = (if negb (x =? NULL) && has_flag flags PAL_ZERO then fill x 4096 0 (memory p) else memory p) /\
    ((x = NULL /\ forall y, allocated q y <-> allocated p y) \/
     (page_ok x /\ ~ allocated p x /\ forall y, allocated q y <-> allocated p y \/ y = x)).
Proof.
  intros Hp Hr Ha. destruct (palloc_get_ok flags 1 p Hp ltac:(lia) Ha) as (x & q & Hg & Hq & Hgr & Hc).
  exists x, q. split; [done|]. split; [done|]. split; [intros u i y; rewrite Hgr; apply Hr|].
  split; [by apply get_page_memory|]. destruct Hc as [Hc|(i & Hi & Hf & Hn)]; [by left|right].
  split; [by apply (Hr (has_flag flags PAL_USER) i)|]. split; [by apply Hf, page_of_one|]. intros y. by rewrite Hn, page_of_one.
Qed.

Lemma on_pal_step {X} (f : M pal X) s x q : f (vm_pal s) = Ok (x, q) -> on_pal f s = Ok (x, set_pal q s).
Proof. intros H. unfold on_pal. by rewrite H. Qed.

Lemma W_set_pal_fill s q x P l :
  memory q = fill x 4096 0 (memory (vm_pal s)) -> page_ok x -> page_ok P -> 0 <= l < 1024 ->
  W (set_pal q s) (P + 4 * l) = if decide (P = x) then 0 else W s (P + 4 * l).
Proof.
  intros Hq (_ & Hx & _) (_ & HP & _) Hl. unfold W. cbn [set_pal vm_pal]. rewrite Hq. case_decide as He.
  - subst. apply word_fill_in; lia.
  - apply word_fill_out. zlia.
Qed.

(** A directory entry that was zero now points to the zeroed page [pt]. *)
Lemma mem_inv_table W0 W1 base own ds pd m i pt :
  mem_inv W0 base own ds -> ds !! pd = Some m -> 0 <= i < 768 -> W0 (pd + 4 * i) = 0 ->
  own !! pt = None ->
  (forall p r, own !! p = Some r -> page_ok p) -> page_ok pt ->
  (forall p r k, own !! p = Some r -> 0 <= k < 1024 ->
     W1 (p + 4 * k) = if decide (p = pd /\ k = i) then pt - PB + 7 else W0 (p + 4 * k)) ->
  (forall k, 0 <= k < 1024 -> W1 (pt + 4 * k) = 0) ->
  mem_inv W1 base (<[pt := RTable pd i]> own) ds.
Proof.
  intros Hm Hd Hi Hz Hnew Hown Hpt Hw Hw0. destruct (mi_base _ _ _ _ Hm) as [Hb Hb0].
  assert (forall p r, own !! p = Some r -> (<[pt := RTable pd i]> own) !! p = Some r) as Hup.
  { intros p r Hp. rewrite lookup_insert_ne; [done|]. congruence. }
  destruct (mi_user _ _ _ _ Hm pd m Hd) as (Hod & Hud & _).
  split.
  - split; [by apply Hup|]. intros k Hk. rewrite (Hw base RBase) by (done || lia).
    rewrite decide_False by (intros [-> _]; congruence). by apply Hb0.
  - intros k Hk. destruct (mi_kernel _ _ _ _ Hm k Hk) as [[H1 H2]|(kt & Hkt & H1 & H2)].
    + left. split; [|done]. rewrite (Hw base RBase) by (done || lia). by rewrite decide_False by (intros [-> _]; congruence).
    + right. exists kt. split; [by apply Hup|]. rewrite (Hw base RBase) by (done || lia).
      rewrite decide_False by (intros [-> _]; congruence). split; [done|]. intros j Hj.
      rewrite (Hw kt (RKernel k)) by (done || lia). rewrite decide_False by (intros [-> _]; congruence). by apply H2.
  - intros d m' Hd'. destruct (mi_user _ _ _ _ Hm d m' Hd') as (Hod' & Hu & Hk'). split; [by apply Hup|]. split.
    + intros k Hk. unfold user_slot. rewrite (Hw d RDir) by (done || lia).
      destruct (decide (d = pd /\ k = i)) as [[-> ->]|Hne].
      * right. exists pt, 0. rewrite lookup_insert_eq. split; [done|]. split; [lia|]. split; [by left|].
        intros j Hj. rewrite Hw0 by done. assert (m' = m) as -> by congruence.
        destruct (Hud i Hi) as [[_ Hn]|(pt' & x & Hpt' & Hx & Hxx & _)]; [by rewrite Hn|].
        destruct (pde_bits pt' x (Hown _ _ Hpt') Hxx) as (Hpos & _). lia.
      * destruct (Hu k Hk) as [[H1 H2]|(kt & x & Hkt & H1 & H2 & H3)]; [by left|].
        right. exists kt, x. split; [by apply Hup|]. split; [done|]. split; [done|]. intros j Hj.
        rewrite (Hw kt (RTable d k)) by done. rewrite decide_False by (intros [-> _]; congruence). by apply H3.
    + intros k Hk. rewrite (Hw d RDir), (Hw base RBase) by (done || lia).
      rewrite !decide_False by (intros [_ ->]; lia). by apply Hk'.
  - intros t d k Ht. apply lookup_insert_Some in Ht as [[-> [= -> ->]]|[Hne Ht]].
    + split; [by exists m|]. split; [done|]. exists 0. rewrite (Hw d RDir) by (done || lia).
      rewrite decide_True by done. split; [lia|by left].
    + destruct (mi_tables _ _ _ _ Hm _ _ _ Ht) as ((m' & Hd') & Hk & x & Hx & Hxx). split; [by exists m'|].
      split; [done|]. exists x. destruct (mi_user _ _ _ _ Hm d m' Hd') as (Hod' & _).
      rewrite (Hw d RDir) by (done || lia). destruct (decide (d = pd /\ k = i)) as [[-> ->]|_]; [|done].
      rewrite Hz in Hx. destruct (pde_bits t x (Hown _ _ Ht) Hxx) as (Hpos & _). lia.
Qed.

Lemma own_inv_table P P' fixed own a pt pd i :
  own_inv P fixed own a -> own !! pt = None -> (forall y, P' y <-> P y \/ y = pt) ->
  own_inv P' fixed (<[pt := RTable pd i]> own) a.
Proof.
  intros Ho Hnew HP. split; intros p.
  - rewrite HP, (oi_alloc _ _ _ _ Ho). rewrite lookup_insert_is_Some'. naive_solver.
  - rewrite (oi_fixed _ _ _ _ Ho). setoid_rewrite lookup_insert_Some. naive_solver congruence.
  - rewrite lookup_insert_Some. intros [[_ ?]|[_ ?]]; [done|]. by apply (oi_dirs _ _ _ _ Ho).
  - intros d v. rewrite <- (oi_frames _ _ _ _ Ho), lookup_insert_Some. naive_solver congruence.
  - rewrite <- (oi_held _ _ _ _ Ho), lookup_insert_Some. naive_solver congruence.
Qed.

Lemma ensure_ok fixed s a own pd m i :
  vm_inv fixed s a own -> dirs a !! pd = Some m -> 0 <= i < 768 ->
  exists b s' own', ensure_table ram_pages (pd + 4 * i) true s = Ok (b, s') /\ vm_inv fixed s' a own' /\
    base_page_dir s' = base_page_dir s /\
    (forall p r, own !! p = Some r -> own' !! p = Some r) /\
    (b = true -> exists pt, own' !! pt = Some (RTable pd i)).
Proof.
  intros Hi Hd Hi0. pose proof (vi_mem _ _ _ _ Hi) as Hm. destruct (vi_pal _ _ _ _ Hi) as [Hp Hr].
  destruct (mi_user _ _ _ _ Hm pd m Hd) as (Hod & Hu & _).
  pose proof (own_page_ok _ _ _ _ _ _ Hi Hod) as Hpd. pose proof (fun p r => own_page_ok _ _ _ _ p r Hi) as Hown.
  unfold ensure_table. destruct (Hu i Hi0) as [[H0 _]|(pt & x & Ho & Hx & Hxx & _)]; cycle 1.
  { exists true, s, own. erewrite bindM_step by (apply load_page; [done|lia]).
    destruct (pde_bits pt x (Hown _ _ Ho) Hxx) as (Hpos & _).
    rewrite (proj2 (Z.eqb_neq _ 0)) by lia. split; [done|]. split; [done|]. split; [done|]. split; [done|]. by exists pt. }
  destruct (get_page_ok PAL_ZERO (vm_pal s) Hp Hr eq_refl) as (pt & q & Hg & Hq & Hqr & Hmem & Hc).
  erewrite bindM_step by (apply load_page; [done|lia]). rewrite H0. cbn [Z.eqb].
  rewrite (bindM_step _ _ _ _ _ (on_pal_step _ s _ _ Hg)).
  destruct Hc as [[-> Hal]|(Hpt & Hfree & Hal)].
  { exists false, (set_pal q s), own. split; [done|]. split; [|done].
    split; try apply Hi; [done| |].
    - unfold W. cbn [set_pal vm_pal]. rewrite Hmem. apply Hi.
    - pose proof (vi_own _ _ _ _ Hi) as Hoi. split; try apply Hoi. intros p. rewrite Hal. apply Hoi. }
  rewrite (page_not_null pt Hpt) in Hmem |- *. cbn [negb andb] in Hmem. change (has_flag PAL_ZERO PAL_ZERO) with true in Hmem.
  cbv iota in Hmem. assert (own !! pt = None) as Hnew.
  { destruct (own !! pt) eqn:He; [|done]. destruct Hfree. apply (oi_alloc _ _ _ _ (vi_own _ _ _ _ Hi)). by exists r. }
  pose proof (page_phys32 pt 7 Hpt ltac:(lia)) as H7. pose proof Hpt as (Hpt1 & Hpt2 & Hpt3).
  rewrite pde_create_arith by (rewrite ?phys_base; try done; change (2 ^ 32) with 4294967296; change (2 ^ 18) with 262144 in *; lia).
  rewrite phys_base. erewrite bindM_step by reflexivity.
  erewrite bindM_step by (apply store_page; [done|lia]).
  exists true, (put (pd + 4 * i) (pt - PB + 7) (set_pal q s)), (<[pt := RTable pd i]> own).
  split; [done|]. split; [|split; [done|split]]; cycle 1.
  { intros p r Hpr. rewrite lookup_insert_ne; [done|congruence]. }
  { intros _. exists pt. by rewrite lookup_insert_eq. }
  split; try apply Hi; [done| |].
  - apply (mem_inv_table (W s) _ _ _ _ pd m i pt); try done.
    + intros p r k Hpr Hk. rewrite W_put by (try done; try lia; by eapply Hown).
      rewrite (W_set_pal_fill s q pt p k Hmem) by (try done; by eapply Hown).
      rewrite (decide_False (P := p = pt)) by congruence.
      destruct (decide (p = pd /\ k = i)) as [[-> ->]|Hne]; [by rewrite decide_True|].
      rewrite decide_False; [done|]. intros He. apply Hne.
      destruct (Hown _ _ Hpr) as (_ & Hpm & _). destruct Hpd as (_ & Hpdm & _).
      destruct (word_same pd p i k) as [-> ->]; try done; lia.
    + intros k Hk. rewrite W_put by (try done; lia). rewrite (W_set_pal_fill s q pt pt k Hmem) by done.
      rewrite (decide_True (P := pt = pt)) by done. rewrite decide_False; [done|]. intros He.
      destruct Hpd as (_ & Hpdm & _). destruct (word_same pd pt i k) as [-> _]; try done; try lia. congruence.
  - apply (own_inv_table (allocated (vm_pal s))); [apply Hi|done|]. intros y. cbn.
    rewrite (proj1 (proj2 (set_memory_same _ q))). apply Hal.
Qed.

Lemma lookup_create fixed s a own pd m va :
  vm_inv fixed s a own -> dirs a !! pd = Some m -> 0 <= va < PB ->
  exists p s' own', lookup_page ram_pages pd va true s = Ok (p, s') /\ vm_inv fixed s' a own' /\
    base_page_dir s' = base_page_dir s /\
    (forall p r, own !! p = Some r -> own' !! p = Some r) /\
    (p = NULL \/ ((p =? NULL) = false /\ pte_at own' pd (pd_no va) (pt_no va) p)).
Proof.
  intros Hi Hd Hva. destruct (user_index va Hva) as (Hi0 & Hj0 & _).
  destruct (mi_user _ _ _ _ (vi_mem _ _ _ _ Hi) pd m Hd) as (Hod & _).
  pose proof (own_page_ok _ _ _ _ _ _ Hi Hod) as Hpd.
  unfold lookup_page. rewrite bindM_assert by (by rewrite page_not_null).
  rewrite bindM_assert by (by rewrite user_addr). cbv zeta.
  destruct (ensure_ok _ _ _ _ pd m (pd_no va) Hi Hd Hi0) as (b & s' & own' & He & Hi' & Hb & Hup & Ht).
  rewrite (bindM_step _ _ _ _ _ He). destruct b.
  - destruct (Ht eq_refl) as [pt Hpt]. destruct (entry_address _ _ _ _ _ _ va pt Hi' Hd Hva Hpt) as (Hl & _ & Hg).
    exists (pt + 4 * pt_no va), s', own'. split.
    + erewrite bindM_step by exact Hl. rewrite Hg. reflexivity.
    + repeat (split; [done|]). right. split; [apply page_neq_null; [by eapply own_page_ok|lia]|by exists pt].
  - exists NULL, s', own'. repeat (split; [done|]). by left.
Qed.

(** ** Changing an entry *)

Lemma mem_inv_entry W0 W1 base own own' ds pd m i j pt e :
  mem_inv W0 base own ds -> ds !! pd = Some m -> own !! pt = Some (RTable pd i) -> 0 <= j < 1024 ->
  (forall p r, own !! p = Some r -> page_ok p) ->
  (forall p r k, own !! p = Some r -> is_meta r -> 0 <= k < 1024 ->
     W1 (p + 4 * k) = if decide (p = pt /\ k = j) then pte_word (Some e) else W0 (p + 4 * k)) ->
  (forall p r, is_meta r -> own' !! p = Some r <-> own !! p = Some r) ->
  mem_inv W1 base own' (<[pd := <[1024 * i + j := e]> m]> ds).
Proof.
  intros Hm Hd Hpt Hj Hown Hw Hup. destruct (mi_base _ _ _ _ Hm) as [Hb Hb0].
  destruct (mi_tables _ _ _ _ Hm _ _ _ Hpt) as (_ & Hi0 & x & Hx & Hxx).
  split.
  - split; [by apply Hup|]. intros k Hk. rewrite (Hw base RBase) by (done || lia).
    rewrite decide_False by (intros [-> _]; congruence). by apply Hb0.
  - intros k Hk. destruct (mi_kernel _ _ _ _ Hm k Hk) as [[H1 H2]|(kt & Hkt & H1 & H2)].
    + left. split; [|done]. rewrite (Hw base RBase) by (done || lia). by rewrite decide_False by (intros [-> _]; congruence).
    + right. exists kt. split; [by apply Hup|]. rewrite (Hw base RBase) by (done || lia).
      rewrite decide_False by (intros [-> _]; congruence). split; [done|]. intros l Hl.
      rewrite (Hw kt (RKernel k)) by (done || lia). rewrite decide_False by (intros [-> _]; congruence). by apply H2.
  - intros d m' Hd'. assert (exists m0, ds !! d = Some m0 /\ m' = if decide (d = pd) then <[1024 * i + j := e]> m else m0)
      as (m0 & Hd0 & ->).
    { apply lookup_insert_Some in Hd' as [[<- <-]|[Hne ?]]; [exists m|exists m']; by case_decide. }
    destruct (mi_user _ _ _ _ Hm d m0 Hd0) as (Hod & Hu & Hk'). split; [by apply Hup|].
    assert (forall k, 0 <= k < 1024 -> W1 (d + 4 * k) = W0 (d + 4 * k)) as Hdw.
    { intros k Hk. rewrite (Hw d RDir) by done. by rewrite decide_False by (intros [-> _]; congruence). }
    split.
    + intros k Hk. unfold user_slot. rewrite (Hdw k) by lia. destruct (Hu k Hk) as [[H1 H2]|(kt & y & Hkt & H1 & H2 & H3)].
      * left. split; [done|]. intros l Hl. case_decide as He; [|by apply H2]. subst d.
        assert (m0 = m) as -> by congruence. rewrite lookup_insert_ne; [by apply H2|]. intros He.
        assert (i = k) as -> by lia. rewrite H1 in Hx. destruct (pde_bits pt x (Hown _ _ Hpt) Hxx) as (Hpos & _). lia.
      * right. exists kt, y. split; [by apply Hup|]. split; [done|]. split; [done|]. intros l Hl.
        rewrite (Hw kt (RTable d k)) by done. destruct (decide (kt = pt /\ l = j)) as [[-> ->]|Hne].
        -- assert (d = pd /\ k = i) as [-> ->] by (split; congruence). rewrite decide_True by done.
           by rewrite lookup_insert_eq.
        -- rewrite H3 by done. case_decide as He; [|done]. subst d. assert (m0 = m) as -> by congruence.
           rewrite lookup_insert_ne; [done|]. intros He. assert (k = i /\ l = j) as [-> ->] by lia.
           apply Hne. split; [|done]. apply (table_unique W0 base own ds kt pt pd i); auto; by eapply Hown.
    + intros k Hk. rewrite (Hdw k), (Hw base RBase) by (done || lia).
      rewrite decide_False by (intros [-> _]; congruence). by apply Hk'.
  - intros t d k Ht. apply (Hup t (RTable d k) I) in Ht.
    destruct (mi_tables _ _ _ _ Hm _ _ _ Ht) as ((m' & Hd') & Hk & y & Hy & Hyy).
    split; [rewrite lookup_insert_is_Some'; by right; exists m'|]. split; [done|]. exists y.
    destruct (mi_user _ _ _ _ Hm d m' Hd') as (Hod' & _). rewrite (Hw d RDir) by (done || lia).
    rewrite decide_False by (intros [-> _]; congruence). done.
Qed.

Lemma dirs_ok_insert ds pd m v e :
  dirs_ok ds -> ds !! pd = Some m -> 0 <= v < USER_PAGES -> entry_ok e -> dirs_ok (<[pd := <[v := e]> m]> ds).
Proof.
  intros Hd Hm Hv He d m' v' e'. rewrite lookup_insert_Some. intros [[<- <-]|[_ Hd']] He'; [|by eapply Hd].
  apply lookup_insert_Some in He' as [[<- <-]|[_ He']]; [done|by eapply Hd].
Qed.

(** The state with the entry of one page changed. *)
Definition upd (pd : Z) m (v : Z) (e : entry) (h : gset Z) a : space :=
  mk_space (<[pd := <[v := e]> m]> (dirs a)) h (active a).

(** The entries after a change, one by one. *)
Lemma entries_upd pd m v e h a d v' e' :
  dirs a !! pd = Some m ->
  (exists m', dirs (upd pd m v e h a) !! d = Some m' /\ m' !! v' = Some e') <->
  (d = pd /\ v' = v /\ e' = e) \/ (~ (d = pd /\ v' = v) /\ exists m', dirs a !! d = Some m' /\ m' !! v' = Some e').
Proof.
  intros Hd. cbn [upd dirs]. destruct (decide (d = pd)) as [->|Hne].
  - rewrite lookup_insert_eq. destruct (decide (v' = v)) as [->|Hv].
    + split; [intros (m' & [= <-] & H); rewrite lookup_insert_eq in H; naive_solver|].
      intros [(_ & _ & ->)|[[] _]]; [|done]. eexists. split; [done|]. by rewrite lookup_insert_eq.
    + split; [intros (m' & [= <-] & H); rewrite lookup_insert_ne in H by done; right; naive_solver|].
      intros [(_ & ? & _)|(_ & m' & Hm' & H)]; [done|]. eexists. split; [done|]. rewrite lookup_insert_ne by done. congruence.
  - rewrite lookup_insert_ne by done. naive_solver.
Qed.

Lemma frames_iff own a P fixed p pd v :
  own_inv P fixed own a ->
  own !! p = Some (RFrame pd v) <->
  exists e, (exists m, dirs a !! pd = Some m /\ m !! v = Some e) /\ frame e = p /\ present e = true.
Proof. intros Ho. rewrite (oi_frames _ _ _ _ Ho). naive_solver. Qed.

(** Neither the frame nor its presence changes. *)
Lemma own_inv_keep P fixed own a pd m v e e' :
  own_inv P fixed own a -> dirs a !! pd = Some m -> m !! v = Some e ->
  frame e' = frame e -> present e' = present e -> own_inv P fixed own (upd pd m v e' (held a) a).
Proof.
  intros Ho Hd Hv Hf Hp. split; try apply Ho.
  - intros p Hpd. cbn. apply lookup_insert_is_Some'. right. by apply (oi_dirs _ _ _ _ Ho).
  - intros p d v'. rewrite (frames_iff own a P fixed) by done.
    transitivity (exists e0, (exists m', dirs (upd pd m v e' (held a) a) !! d = Some m' /\ m' !! v' = Some e0) /\
      frame e0 = p /\ present e0 = true); [|naive_solver].
    setoid_rewrite entries_upd; [|done]. split.
    + intros (e0 & (m' & Hm' & He0) & Hf0 & Hp0). destruct (decide (d = pd /\ v' = v)) as [[-> ->]|Hne].
      * exists e'. assert (e0 = e) as -> by congruence. split; [by left|]. split; congruence.
      * exists e0. split; [right; split; [done|by exists m']|done].
    + intros (e0 & [(-> & -> & ->)|[_ He0]] & Hf0 & Hp0); [|by exists e0].
      exists e. split; [by exists m|]. split; congruence.
Qed.

(** The client's page [f] becomes the frame of a page that had none. *)
Lemma own_inv_map P fixed own a pd m v e :
  own_inv P fixed own a -> dirs a !! pd = Some m -> here (m !! v) = false ->
  frame e ∈ held a -> present e = true ->
  own_inv P fixed (<[frame e := RFrame pd v]> own) (upd pd m v e (held a ∖ {[frame e]}) a).
Proof.
  intros Ho Hd Hv Hf Hp. pose proof Hf as Hh. rewrite <- (oi_held _ _ _ _ Ho) in Hh.
  split.
  - intros p. rewrite (oi_alloc _ _ _ _ Ho), lookup_insert_is_Some'. split; [by right|]. intros [<-|?]; [by eexists|done].
  - intros p. rewrite (oi_fixed _ _ _ _ Ho). setoid_rewrite lookup_insert_Some. naive_solver congruence.
  - intros p Hpd. cbn. apply lookup_insert_is_Some'. right. apply (oi_dirs _ _ _ _ Ho).
    apply lookup_insert_Some in Hpd. naive_solver.
  - intros p d v'.
    transitivity (exists e0, (exists m', dirs (upd pd m v e (held a ∖ {[frame e]}) a) !! d = Some m' /\ m' !! v' = Some e0) /\
      frame e0 = p /\ present e0 = true); [|naive_solver].
    setoid_rewrite entries_upd; [|done]. rewrite lookup_insert_Some, (frames_iff own a P fixed) by done. split.
    + intros [[<- [= <- <-]]|[Hne (e0 & (m' & Hm' & He0) & Hf0 & Hp0)]].
      * exists e. split; [by left|done].
      * exists e0. split; [right; split; [|by exists m']|done]. intros [-> ->].
        assert (m' = m) as -> by congruence. rewrite He0 in Hv. simpl in Hv. congruence.
    + intros (e0 & [(-> & -> & ->)|[Hne He0]] & Hf0 & Hp0); [by left|]. right. split; [|by exists e0].
      intros Hx. assert (own !! p = Some (RFrame d v')) as Hq by (apply (frames_iff own a P fixed); [done|by exists e0]).
      rewrite <- Hx in Hq. congruence.
  - intros p. rewrite lookup_insert_Some, (oi_held _ _ _ _ Ho). cbn. set_solver.
Qed.

(** The frame of a page that is removed goes back to the client. *)
Lemma own_inv_unmap P fixed own a pd m v e :
  own_inv P fixed own a -> dirs a !! pd = Some m -> m !! v = Some e -> present e = true ->
  own_inv P fixed (<[frame e := RHeld]> own) (upd pd m v (set_present false e) ({[frame e]} ∪ held a) a).
Proof.
  intros Ho Hd Hv Hp.
  assert (own !! frame e = Some (RFrame pd v)) as Hfr
    by (apply (frames_iff own a P fixed); [done|exists e; split; [by exists m|done]]).
  split.
  - intros p. rewrite (oi_alloc _ _ _ _ Ho), lookup_insert_is_Some'. split; [by right|]. intros [<-|?]; [by eexists|done].
  - intros p. rewrite (oi_fixed _ _ _ _ Ho). setoid_rewrite lookup_insert_Some. naive_solver congruence.
  - intros p Hpd. cbn. apply lookup_insert_is_Some'. right. apply (oi_dirs _ _ _ _ Ho).
    apply lookup_insert_Some in Hpd. naive_solver.
  - intros p d v'.
    transitivity (exists e0, (exists m', dirs (upd pd m v (set_present false e) ({[frame e]} ∪ held a) a) !! d = Some m' /\ m' !! v' = Some e0) /\
      frame e0 = p /\ present e0 = true); [|naive_solver].
    setoid_rewrite entries_upd; [|done]. rewrite lookup_insert_Some. split.
    + intros [[_ [=]]|[Hne Hq]]. pose proof Hq as Hq'. apply (frames_iff own a P fixed) in Hq' as (e0 & He0 & Hf0 & Hp0); [|done].
      exists e0. split; [right; split; [|done]|done]. intros [-> ->].
      destruct He0 as (m' & Hm' & He0). assert (e0 = e) as -> by congruence. congruence.
    + intros (e0 & [(-> & -> & ->)|[Hne He0]] & Hf0 & Hp0); [done|]. right.
      assert (own !! p = Some (RFrame d v')) as Hq by (apply (frames_iff own a P fixed); [done|by exists e0]).
      split; [|done]. intros <-. apply Hne. split; congruence.
  - intros p. rewrite lookup_insert_Some, (oi_held _ _ _ _ Ho). cbn. destruct (decide (frame e = p)); set_solver.
Qed.

(** ** The buffer *)

Lemma tlb_ok_empty a : tlb_ok ∅ a.
Proof. intros v w Hv. by rewrite lookup_empty in Hv. Qed.

(** An entry that changes without losing a bit the buffer relies on, or whose
    page is not buffered. *)
Lemma tlb_ok_upd t a pd m v e h :
  tlb_ok t a -> dirs a !! pd = Some m ->
  (active a = Some pd -> is_Some (t !! v) -> forall e0, m !! v = Some e0 -> present e0 = true -> accessed e0 = true ->
     frame e = frame e0 /\ writable e = writable e0 /\ present e = true /\ accessed e = true /\
     (dirty e0 = true -> dirty e = true)) ->
  tlb_ok t (upd pd m v e h a).
Proof.
  intros Ht Hd He v' w Hw. destruct (Ht v' w Hw) as (pd' & m' & e' & d & Ha & Hm' & He' & Hp & Hac & Hdt & ->).
  destruct (decide (pd' = pd /\ v' = v)) as [[-> ->]|Hne].
  - assert (m' = m) as -> by congruence.
    destruct (He Ha ltac:(by eexists) e' He' Hp Hac) as (Hf & Hwr & Hp' & Hac' & Hdt').
    exists pd, (<[v := e]> m), e, d. cbn [upd dirs active]. rewrite !lookup_insert_eq.
    repeat (split; [auto|]). unfold pte_word, set_dirt, flags_of. cbn. by rewrite Hf, Hwr, Hp', Hac', Hp, Hac.
  - destruct (decide (pd' = pd)) as [->|Hne'].
    + assert (m' = m) as -> by congruence. exists pd, (<[v := e]> m), e', d. cbn [upd dirs active].
      rewrite lookup_insert_eq, lookup_insert_ne by naive_solver. by repeat (split; [done|]).
    + exists pd', m', e', d. cbn [upd dirs active]. rewrite lookup_insert_ne by done. by repeat (split; [done|]).
Qed.

Lemma invalidate_ok s pd act :
  page_ok act -> cr3 s = act - PB ->
  invalidate_pagedir pd s = Ok (tt, if act =? pd then set_tlb ∅ s else s).
Proof.
  intros Hact Hcr. destruct (page_phys _ Hact) as [Hr _]. pose proof Hact as (H1 & _ & H3).
  unfold invalidate_pagedir, active_pd. erewrite bindM_step; cycle 1.
  { erewrite bindM_step by reflexivity. rewrite Hcr, ptov_ok by done. rewrite phys_base. reflexivity. }
  replace (act - PB + PB) with act by lia. destruct (Z.eqb_spec act pd) as [<-|Hne]; [|done].
  unfold pagedir_activate. erewrite bindM_step by reflexivity. rewrite (page_not_null act Hact).
  rewrite vtop_ok by (rewrite phys_base; change (2 ^ 32) with 4294967296; change (2 ^ 18) with 262144 in *; lia).
  rewrite phys_base. erewrite bindM_step by reflexivity. unfold modify, set_cr3, set_tlb. by rewrite Hcr.
Qed.

Definition act_dir s a : Z := default (base_page_dir s) (active a).

Lemma act_dir_ok fixed s a own : vm_inv fixed s a own -> page_ok (act_dir s a) /\ cr3 s = act_dir s a - PB.
Proof.
  intros Hi. destruct (vi_active _ _ _ _ Hi) as [Hc Ha]. split; [|done]. unfold act_dir.
  destruct (active a) as [pd|] eqn:He.
  - destruct (Ha pd eq_refl) as [m Hm]. destruct (mi_user _ _ _ _ (vi_mem _ _ _ _ Hi) pd m Hm) as (Ho & _).
    by eapply own_page_ok.
  - destruct (mi_base _ _ _ _ (vi_mem _ _ _ _ Hi)) as (Ho & _). by eapply own_page_ok.
Qed.

(** The active directory is [pd] exactly when the specification says so. *)
Lemma act_dir_eq fixed s a own pd :
  vm_inv fixed s a own -> is_Some (dirs a !! pd) -> act_dir s a = pd <-> active a = Some pd.
Proof.
  intros Hi [m Hm]. destruct (mi_user _ _ _ _ (vi_mem _ _ _ _ Hi) pd m Hm) as (Ho & _).
  destruct (mi_base _ _ _ _ (vi_mem _ _ _ _ Hi)) as (Hb & _). unfold act_dir.
  destruct (active a) as [pd'|]; simpl; split; try congruence.
Qed.

(** ** Operations on one entry *)

Lemma pte_load fixed s a own pd m va p :
  vm_inv fixed s a own -> dirs a !! pd = Some m -> 0 <= va < PB -> pte_at own pd (pd_no va) (pt_no va) p ->
  load32 ram_pages p s = Ok (pte_word (m !! pg_no va), s).
Proof.
  intros Hi Hd Hva (pt & Hpt & -> & Hj). rewrite load_page by (try done; by eapply own_page_ok).
  destruct (table_words _ _ _ _ _ _ _ _ Hi Hd Hpt) as (_ & _ & Hw). rewrite Hw by done.
  destruct (user_index va Hva) as (_ & _ & Hno & _). by rewrite Hno.
Qed.

Lemma entry_in_range fixed s a own pd m v e :
  vm_inv fixed s a own -> dirs a !! pd = Some m -> m !! v = Some e -> entry_ok e.
Proof. intros Hi Hd He. by destruct (vi_dirs _ _ _ _ Hi pd m v e Hd He). Qed.

Lemma pte_store fixed s a own pd m va p e h own' t :
  vm_inv fixed s a own -> dirs a !! pd = Some m -> 0 <= va < PB -> pte_at own pd (pd_no va) (pt_no va) p ->
  entry_ok e -> own_inv (allocated (vm_pal s)) fixed own' (upd pd m (pg_no va) e h a) ->
  (forall p r, is_meta r -> own' !! p = Some r <-> own !! p = Some r) ->
  tlb_ok t (upd pd m (pg_no va) e h a) ->
  store32 ram_pages p (pte_word (Some e)) s = Ok (tt, put p (pte_word (Some e)) s) /\
  vm_inv fixed (set_tlb t (put p (pte_word (Some e)) s)) (upd pd m (pg_no va) e h a) own'.
Proof.
  intros Hi Hd Hva (pt & Hpt & -> & Hj) He Ho Hmeta Ht. pose proof (fun p r => own_page_ok _ _ _ _ p r Hi) as Hown.
  destruct (user_index va Hva) as (Hi0 & _ & Hno & Hv). split; [apply store_page; [by eapply Hown|done]|].
  split; [apply Hi| | | | |done].
  - cbn [base_page_dir set_tlb put set_mem set_pal upd dirs]. rewrite Hno.
    apply (mem_inv_entry (W s) _ _ own own' (dirs a) pd m (pd_no va) (pt_no va) pt e); try done; [apply Hi|].
    intros q r k Hq _ Hk. change (W (set_tlb ?t' ?s') ?x) with (W s' x).
    rewrite W_put by (try done; try (by eapply Hown); apply (pte_range (Some e)); naive_solver).
    destruct (decide (q = pt /\ k = pt_no va)) as [[-> ->]|Hne]; [by rewrite decide_True|].
    rewrite decide_False; [done|]. intros Hx. apply Hne.
    destruct (Hown _ _ Hq) as (_ & Hqm & _). destruct (Hown _ _ Hpt) as (_ & Hptm & _).
    destruct (word_same pt q (pt_no va) k) as [-> ->]; done.
  - destruct Ho as [H1 H2 H3 H4 H5]. by split.
  - apply dirs_ok_insert; [apply Hi|done|done|done].
  - destruct (vi_active _ _ _ _ Hi) as [Hc Ha]. split; [done|]. intros d Hact. cbn.
    apply lookup_insert_is_Some'. right. by apply Ha.
Qed.

Lemma pte_mask e e' mask l :
  entry_ok e -> mask = Z.lor PTE_ADDR l -> 0 <= l < 4096 -> frame e' = frame e ->
  Z.land (flags_of e) l = flags_of e' -> Z.land (pte_word (Some e)) mask = pte_word (Some e').
Proof.
  intros He -> Hl Hf Hfl. destruct (page_phys _ He). unfold pte_word.
  rewrite land_mask; [by rewrite Hfl, Hf| |done|apply flags_range|done].
  change (2 ^ 30) with 1073741824 in *. change (2 ^ 32) with 4294967296. lia.
Qed.

Lemma pte_unset e : entry_ok e ->
  Z.land (pte_word (Some e)) (u32 (Z.lnot PTE_P)) = pte_word (Some (set_present false e)) /\
  Z.land (pte_word (Some e)) (u32 (Z.lnot PTE_A)) = pte_word (Some (set_acc false e)) /\
  Z.land (pte_word (Some e)) (u32 (Z.lnot PTE_D)) = pte_word (Some (set_dirt false e)).
Proof.
  intros He. split; [|split]; (eapply pte_mask; [done| |split| |]);
    [by instantiate (1 := 4094)|done|done|done|by destruct e as [f [] [] [] []]
    |by instantiate (1 := 4063)|done|done|done|by destruct e as [f [] [] [] []]
    |by instantiate (1 := 4031)|done|done|done|by destruct e as [f [] [] [] []]].
Qed.

Lemma pte_set e : entry_ok e ->
  Z.lor (pte_word (Some e)) PTE_A = pte_word (Some (set_acc true e)) /\
  Z.lor (pte_word (Some e)) PTE_D = pte_word (Some (set_dirt true e)).
Proof.
  intros He. destruct (page_phys _ He) as [_ Hm]. unfold pte_word.
  rewrite !(lor_flag (frame e - PB)) by (try done; apply flags_range). by destruct e as [f [] [] [] []].
Qed.

Lemma get_page_spec fixed s a own pd m va :
  vm_inv fixed s a own -> dirs a !! pd = Some m -> 0 <= va < PB ->
  pagedir_get_page ram_pages pd va s =
  Ok (match m !! pg_no va with Some e => if present e then frame e + pg_ofs va else NULL | None => NULL end, s).
Proof.
  intros Hi Hd Hva. unfold pagedir_get_page. rewrite bindM_assert by (by apply user_addr).
  destruct (lookup_nocreate _ _ _ _ _ _ _ Hi Hd Hva) as (p & Hl & [[-> Hn]|[Hp Hat]]);
    rewrite (bindM_step _ _ _ _ _ Hl).
  - by rewrite Hn.
  - rewrite Hp. rewrite (bindM_step _ _ _ _ _ (pte_load _ _ _ _ _ _ _ _ Hi Hd Hva Hat)).
    rewrite pte_present by (intros e He; by eapply entry_in_range). rewrite negb_involutive.
    destruct (m !! pg_no va) as [e|] eqn:He; [|done]. cbn [here]. destruct (present e); [|done].
    rewrite pte_page by (by eapply entry_in_range). reflexivity.
Qed.

Lemma is_dirty_spec fixed s a own pd m va :
  vm_inv fixed s a own -> dirs a !! pd = Some m -> 0 <= va < PB ->
  pagedir_is_dirty ram_pages pd va s = Ok (match m !! pg_no va with Some e => dirty e | None => false end, s).
Proof.
  intros Hi Hd Hva. unfold pagedir_is_dirty.
  destruct (lookup_nocreate _ _ _ _ _ _ _ Hi Hd Hva) as (p & Hl & [[-> Hn]|[Hp Hat]]);
    rewrite (bindM_step _ _ _ _ _ Hl); [by rewrite Hn|]. rewrite Hp.
  rewrite (bindM_step _ _ _ _ _ (pte_load _ _ _ _ _ _ _ _ Hi Hd Hva Hat)). unfold mret, M_ret. do 2 f_equal.
  destruct (m !! pg_no va) as [e|] eqn:He; [|done]. by apply pte_has, (entry_in_range fixed s a own pd m (pg_no va)).
Qed.

Lemma is_accessed_spec fixed s a own pd m va :
  vm_inv fixed s a own -> dirs a !! pd = Some m -> 0 <= va < PB ->
  pagedir_is_accessed ram_pages pd va s = Ok (match m !! pg_no va with Some e => accessed e | None => false end, s).
Proof.
  intros Hi Hd Hva. unfold pagedir_is_accessed.
  destruct (lookup_nocreate _ _ _ _ _ _ _ Hi Hd Hva) as (p & Hl & [[-> Hn]|[Hp Hat]]);
    rewrite (bindM_step _ _ _ _ _ Hl); [by rewrite Hn|]. rewrite Hp.
  rewrite (bindM_step _ _ _ _ _ (pte_load _ _ _ _ _ _ _ _ Hi Hd Hva Hat)). unfold mret, M_ret. do 2 f_equal.
  destruct (m !! pg_no va) as [e|] eqn:He; [|done]. by apply pte_has, (entry_in_range fixed s a own pd m (pg_no va)).
Qed.

(** Storing an entry that keeps its frame and presence, with the buffer
    emptied when the directory is active. *)
Lemma set_flag_spec fixed s a own pd m va p e e' :
  vm_inv fixed s a own -> dirs a !! pd = Some m -> 0 <= va < PB -> pte_at own pd (pd_no va) (pt_no va) p ->
  m !! pg_no va = Some e -> frame e' = frame e -> present e' = present e ->
  exists s', (store32 ram_pages p (pte_word (Some e')) ;; invalidate_pagedir pd) s = Ok (tt, s') /\
    vm_inv fixed s' (upd pd m (pg_no va) e' (held a) a) own /\ base_page_dir s' = base_page_dir s.
Proof.
  intros Hi Hd Hva Hat He Hf Hp. destruct (act_dir_ok _ _ _ _ Hi) as [Hact Hcr].
  assert (entry_ok e') as He' by (unfold entry_ok; rewrite Hf; by eapply entry_in_range).
  set (t := if act_dir s a =? pd then ∅ else tlb s).
  destruct (pte_store fixed s a own pd m va p e' (held a) own t Hi Hd Hva Hat He') as [Hst Hi']; [| done| |].
  - by eapply own_inv_keep; [apply Hi|..].
  - unfold t. destruct (Z.eqb_spec (act_dir s a) pd) as [Hx|Hx]; [apply tlb_ok_empty|].
    apply tlb_ok_upd; [apply Hi|done|]. intros Ha. destruct Hx.
    by apply (act_dir_eq fixed s a own pd Hi (ex_intro _ m Hd)).
  - eexists. split; [|split; [exact Hi'|done]]. rewrite (bindM_step _ _ _ _ _ Hst).
    rewrite (invalidate_ok _ pd (act_dir s a)) by done. unfold t. by destruct (act_dir s a =? pd).
Qed.

(** Setting a bit leaves the buffer as it is. *)
Lemma raise_flag_spec fixed s a own pd m va p e e' :
  vm_inv fixed s a own -> dirs a !! pd = Some m -> 0 <= va < PB -> pte_at own pd (pd_no va) (pt_no va) p ->
  m !! pg_no va = Some e -> frame e' = frame e -> present e' = present e -> writable e' = writable e ->
  (accessed e = true -> accessed e' = true) -> (dirty e = true -> dirty e' = true) ->
  exists s', store32 ram_pages p (pte_word (Some e')) s = Ok (tt, s') /\
    vm_inv fixed s' (upd pd m (pg_no va) e' (held a) a) own /\ base_page_dir s' = base_page_dir s.
Proof.
  intros Hi Hd Hva Hat He Hf Hp Hw Ha Hdt.
  assert (entry_ok e') as He' by (unfold entry_ok; rewrite Hf; by eapply entry_in_range).
  destruct (pte_store fixed s a own pd m va p e' (held a) own (tlb s) Hi Hd Hva Hat He') as [Hst Hi']; [| done| |].
  - by eapply own_inv_keep; [apply Hi|..].
  - apply tlb_ok_upd; [apply Hi|done|]. intros _ _ e0 He0 Hp0 Ha0. assert (e0 = e) as -> by congruence.
    repeat split; auto; congruence.
  - eexists. split; [exact Hst|]. by destruct s.
Qed.

Lemma set_dirty_spec fixed s a own pd m va b e :
  vm_inv fixed s a own -> dirs a !! pd = Some m -> 0 <= va < PB -> m !! pg_no va = Some e ->
  exists s', pagedir_set_dirty ram_pages pd va b s = Ok (tt, s') /\
    vm_inv fixed s' (upd pd m (pg_no va) (set_dirt b e) (held a) a) own.
Proof.
  intros Hi Hd Hva He. unfold pagedir_set_dirty.
  destruct (lookup_nocreate _ _ _ _ _ _ _ Hi Hd Hva) as (p & Hl & [[-> Hn]|[Hp Hat]]);
    rewrite (bindM_step _ _ _ _ _ Hl); [congruence|]. rewrite Hp.
  rewrite (bindM_step _ _ _ _ _ (pte_load _ _ _ _ _ _ _ _ Hi Hd Hva Hat)), He.
  pose proof (entry_in_range _ _ _ _ _ _ _ _ Hi Hd He) as Hok. destruct b.
  - rewrite (proj2 (pte_set e Hok)).
    destruct (raise_flag_spec _ _ _ _ _ _ _ _ e (set_dirt true e) Hi Hd Hva Hat He) as (s' & Hs & Hi' & _); try done.
    by exists s'.
  - rewrite (proj2 (proj2 (pte_unset e Hok))).
    destruct (set_flag_spec _ _ _ _ _ _ _ _ e (set_dirt false e) Hi Hd Hva Hat He) as (s' & Hs & Hi' & _); try done.
    by exists s'.
Qed.

Lemma set_accessed_spec fixed s a own pd m va b e :
  vm_inv fixed s a own -> dirs a !! pd = Some m -> 0 <= va < PB -> m !! pg_no va = Some e ->
  exists s', pagedir_set_accessed ram_pages pd va b s = Ok (tt, s') /\
    vm_inv fixed s' (upd pd m (pg_no va) (set_acc b e) (held a) a) own.
Proof.
  intros Hi Hd Hva He. unfold pagedir_set_accessed.
  destruct (lookup_nocreate _ _ _ _ _ _ _ Hi Hd Hva) as (p & Hl & [[-> Hn]|[Hp Hat]]);
    rewrite (bindM_step _ _ _ _ _ Hl); [congruence|]. rewrite Hp.
  rewrite (bindM_step _ _ _ _ _ (pte_load _ _ _ _ _ _ _ _ Hi Hd Hva Hat)), He.
  pose proof (entry_in_range _ _ _ _ _ _ _ _ Hi Hd He) as Hok. destruct b.
  - rewrite (proj1 (pte_set e Hok)).
    destruct (raise_flag_spec _ _ _ _ _ _ _ _ e (set_acc true e) Hi Hd Hva Hat He) as (s' & Hs & Hi' & _); try done.
    by exists s'.
  - rewrite (proj1 (proj2 (pte_unset e Hok))).
    destruct (set_flag_spec _ _ _ _ _ _ _ _ e (set_acc false e) Hi Hd Hva Hat He) as (s' & Hs & Hi' & _); try done.
    by exists s'.
Qed.

Lemma meta_insert own p r0 r' q r :
  own !! p = Some r0 -> ~ is_meta r0 -> ~ is_meta r' -> is_meta r -> (<[p := r']> own) !! q = Some r <-> own !! q = Some r.
Proof. intros Hp H0 H' Hr. rewrite lookup_insert_Some. naive_solver. Qed.

(** Removing a page; one that is absent stays so. *)
Lemma clear_page_spec fixed s a own pd m va :
  vm_inv fixed s a own -> dirs a !! pd = Some m -> 0 <= va < PB -> va mod 4096 = 0 ->
  exists s' own', pagedir_clear_page ram_pages pd va s = Ok (tt, s') /\
    vm_inv fixed s' (match m !! pg_no va with
                     | Some e => if present e then upd pd m (pg_no va) (set_present false e) ({[frame e]} ∪ held a) a else a
                     | None => a end) own'.
Proof.
  intros Hi Hd Hva Hal. unfold pagedir_clear_page. rewrite bindM_assert by (by rewrite pg_ofs_mod, Hal).
  rewrite bindM_assert by (by apply user_addr).
  destruct (lookup_nocreate _ _ _ _ _ _ _ Hi Hd Hva) as (p & Hl & [[-> Hn]|[Hp Hat]]);
    rewrite (bindM_step _ _ _ _ _ Hl); [rewrite Hn; by exists s, own|]. rewrite Hp.
  rewrite (bindM_step _ _ _ _ _ (pte_load _ _ _ _ _ _ _ _ Hi Hd Hva Hat)).
  rewrite pte_present by (intros e He; by eapply entry_in_range). rewrite negb_involutive.
  destruct (m !! pg_no va) as [e|] eqn:He; [|by exists s, own]. cbn [here].
  destruct (present e) eqn:Hpr; [|by exists s, own].
  pose proof (entry_in_range _ _ _ _ _ _ _ _ Hi Hd He) as Hok. rewrite (proj1 (pte_unset e Hok)).
  destruct (act_dir_ok _ _ _ _ Hi) as [Hact Hcr]. set (t := if act_dir s a =? pd then ∅ else tlb s).
  assert (own !! frame e = Some (RFrame pd (pg_no va))) as Hfr.
  { apply (frames_iff own a _ fixed _ pd _ (vi_own _ _ _ _ Hi)). exists e. split; [by exists m|done]. }
  destruct (pte_store fixed s a own pd m va p (set_present false e) ({[frame e]} ∪ held a)
              (<[frame e := RHeld]> own) t Hi Hd Hva Hat) as [Hst Hi']; [done| | | |].
  - by apply own_inv_unmap; [apply Hi|..].
  - intros q r Hr. by eapply meta_insert; [exact Hfr|naive_solver..].
  - unfold t. destruct (Z.eqb_spec (act_dir s a) pd) as [Hx|Hx]; [apply tlb_ok_empty|].
    apply tlb_ok_upd; [apply Hi|done|]. intros Ha. destruct Hx.
    by apply (act_dir_eq fixed s a own pd Hi (ex_intro _ m Hd)).
  - eexists _, _. split; [|exact Hi']. rewrite (bindM_step _ _ _ _ _ Hst).
    rewrite (invalidate_ok _ pd (act_dir s a)) by done. unfold t. by destruct (act_dir s a =? pd).
Qed.

Lemma set_page_spec fixed s a own pd m va f w :
  vm_inv fixed s a own -> dirs a !! pd = Some m -> 0 <= va < PB -> va mod 4096 = 0 ->
  f ∈ held a -> here (m !! pg_no va) = false ->
  exists b s' own', pagedir_set_page ram_pages pd va f w s = Ok (b, s') /\
    vm_inv fixed s' (if b : bool then upd pd m (pg_no va) (mk_entry f true w false false) (held a ∖ {[f]}) a else a) own'.
Proof.
  intros Hi Hd Hva Hal Hf Hno. pose proof Hf as Hh. rewrite <- (oi_held _ _ _ _ (vi_own _ _ _ _ Hi)) in Hh.
  pose proof (own_page_ok _ _ _ _ _ _ Hi Hh) as Hfok. pose proof Hfok as (Hf1 & Hf2 & Hf3).
  change (2 ^ 18) with 262144 in Hram.
  destruct (mi_user _ _ _ _ (vi_mem _ _ _ _ Hi) pd m Hd) as (Hod & _).
  destruct (mi_base _ _ _ _ (vi_mem _ _ _ _ Hi)) as (Hob & _).
  unfold pagedir_set_page. rewrite bindM_assert by (by rewrite pg_ofs_mod, Hal).
  rewrite bindM_assert by (by rewrite pg_ofs_mod, Hf2). rewrite bindM_assert by (by apply user_addr).
  rewrite vtop_ok by (rewrite phys_base; change (2 ^ 32) with 4294967296; lia). rewrite phys_base.
  erewrite bindM_step by reflexivity. rewrite bindM_assert; cycle 1.
  { apply Z.ltb_lt. rewrite Z.shiftr_div_pow2 by done. change (2 ^ PTSHIFT) with 4096. zlia. }
  erewrite bindM_step by reflexivity. rewrite bindM_assert by (apply negb_true_iff, Z.eqb_neq; congruence).
  destruct (lookup_create _ _ _ _ _ _ _ Hi Hd Hva) as (p & s1 & own1 & Hl & Hi1 & Hb & Hup & Hc).
  rewrite (bindM_step _ _ _ _ _ Hl). destruct Hc as [->|[Hp Hat]]; [by exists false, s1, own1|].
  rewrite Hp. cbn [negb]. rewrite (bindM_step _ _ _ _ _ (pte_load _ _ _ _ _ _ _ _ Hi1 Hd Hva Hat)).
  rewrite bindM_assert; cycle 1.
  { rewrite pte_present by (intros e He; by eapply entry_in_range). by rewrite Hno. }
  rewrite pte_create_user_arith by (rewrite ?phys_base; try done; change (2 ^ 32) with 4294967296; lia).
  rewrite phys_base. erewrite bindM_step by reflexivity.
  set (e := mk_entry f true w false false).
  assert (f - PB + (if w then 7 else 5) = pte_word (Some e)) as -> by (by destruct w).
  destruct (pte_store fixed s1 a own1 pd m va p e (held a ∖ {[f]}) (<[f := RFrame pd (pg_no va)]> own1) (tlb s1)
              Hi1 Hd Hva Hat) as [Hst Hi']; [done| | | |].
  - apply (own_inv_map _ fixed own1 a pd m (pg_no va) e); [apply Hi1|done..].
  - intros q r Hr. eapply meta_insert; [by apply Hup, Hh|naive_solver..].
  - apply tlb_ok_upd; [apply Hi1|done|]. intros _ _ e0 He0 Hp0. rewrite He0 in Hno. cbn in Hno. congruence.
  - rewrite (bindM_step _ _ _ _ _ Hst). eexists true, _, _. split; [reflexivity|]. by destruct s1.
Qed.

(** ** New directories, and pages of the client *)

(** Only pages that are not part of the page tables change. *)
Lemma mem_inv_same W0 W1 base own own' ds :
  mem_inv W0 base own ds ->
  (forall p r k, own !! p = Some r -> is_meta r -> 0 <= k < 1024 -> W1 (p + 4 * k) = W0 (p + 4 * k)) ->
  (forall p r, is_meta r -> own' !! p = Some r <-> own !! p = Some r) -> mem_inv W1 base own' ds.
Proof.
  intros Hm Hw Hup. destruct (mi_base _ _ _ _ Hm) as [Hb Hb0]. split.
  - split; [by apply Hup|]. intros k Hk. rewrite (Hw base RBase) by (done || lia). by apply Hb0.
  - intros k Hk. unfold kernel_slot. rewrite (Hw base RBase) by (done || lia).
    destruct (mi_kernel _ _ _ _ Hm k Hk) as [[H1 H2]|(kt & Hkt & H1 & H2)]; [by left|right].
    exists kt. split; [by apply Hup|]. split; [done|]. intros j Hj. rewrite (Hw kt (RKernel k)) by done. by apply H2.
  - intros d m Hd. destruct (mi_user _ _ _ _ Hm d m Hd) as (Hod & Hu & Hk). split; [by apply Hup|]. split.
    + intros i Hi. unfold user_slot. rewrite (Hw d RDir) by (done || lia).
      destruct (Hu i Hi) as [[H1 H2]|(pt & x & Hpt & H1 & H2 & H3)]; [by left|right].
      exists pt, x. split; [by apply Hup|]. split; [done|]. split; [done|]. intros j Hj.
      rewrite (Hw pt (RTable d i)) by done. by apply H3.
    + intros i Hi. rewrite (Hw d RDir), (Hw base RBase) by (done || lia). by apply Hk.
  - intros t d i Ht. apply (Hup t (RTable d i) I) in Ht.
    destruct (mi_tables _ _ _ _ Hm _ _ _ Ht) as ((m & Hd) & Hi & Hx). split; [by exists m|]. split; [done|].
    destruct (mi_user _ _ _ _ Hm d m Hd) as (Hod & _). by rewrite (Hw d RDir) by (done || lia).
Qed.

Lemma own_fresh fixed s a own p : vm_inv fixed s a own -> ~ allocated (vm_pal s) p -> own !! p = None.
Proof.
  intros Hi Hf. destruct (own !! p) eqn:He; [|done]. destruct Hf. apply (oi_alloc _ _ _ _ (vi_own _ _ _ _ Hi)). by eexists.
Qed.

(** Words of other pages survive a [PAL_ZERO] request and the filling of a
    freed page. *)
Lemma W_fill s q x v P l :
  memory q = fill x 4096 v (memory (vm_pal s)) -> page_ok x -> page_ok P -> P <> x -> 0 <= l < 1024 ->
  W (set_pal q s) (P + 4 * l) = W s (P + 4 * l).
Proof.
  intros Hq (_ & Hx & _) (_ & HP & _) Hne Hl. unfold W. cbn [set_pal vm_pal]. rewrite Hq. apply word_fill_out. zlia.
Qed.

Lemma hold_spec fixed s a own flags :
  vm_inv fixed s a own -> has_flag flags PAL_ASSERT = false ->
  exists p s' own', on_pal (palloc_get_page flags) s = Ok (p, s') /\
    ((p = NULL /\ vm_inv fixed s' a own') \/
     ((p ∉ held a) /\ vm_inv fixed s' (mk_space (dirs a) ({[p]} ∪ held a) (active a)) own')).
Proof.
  intros Hi Hfl. destruct (vi_pal _ _ _ _ Hi) as [Hp Hr].
  destruct (get_page_ok flags (vm_pal s) Hp Hr Hfl) as (p & q & Hg & Hq & Hqr & Hmem & Hc).
  exists p, (set_pal q s). pose proof (vi_own _ _ _ _ Hi) as Ho. destruct Hc as [[-> Hal]|(Hpok & Hfree & Hal)].
  - exists own. split; [by apply on_pal_step|]. left. split; [done|]. split; try apply Hi; [done| |].
    + unfold W. cbn [set_pal vm_pal]. rewrite Hmem. apply Hi.
    + split; try apply Ho. intros x. rewrite Hal. apply Ho.
  - pose proof (own_fresh _ _ _ _ _ Hi Hfree) as Hnew. exists (<[p := RHeld]> own). split; [by apply on_pal_step|]. right.
    split; [by rewrite <- (oi_held _ _ _ _ Ho), Hnew|]. split; try apply Hi; [done| |].
    + apply (mem_inv_same (W s) _ _ own); [apply Hi| |].
      * intros x r k Hx _ Hk. destruct (negb (p =? NULL) && has_flag flags PAL_ZERO).
        -- apply (W_fill s q p 0); try done; [by eapply own_page_ok|congruence].
        -- unfold W. cbn [set_pal vm_pal]. by rewrite Hmem.
      * intros x r Hr'. rewrite lookup_insert_Some. naive_solver congruence.
    + split; intros x.
      * cbn [set_pal vm_pal]. rewrite Hal, (oi_alloc _ _ _ _ Ho), lookup_insert_is_Some'. naive_solver.
      * rewrite (oi_fixed _ _ _ _ Ho). setoid_rewrite lookup_insert_Some. naive_solver congruence.
      * rewrite lookup_insert_Some. intros [[_ ?]|[_ ?]]; [done|]. by apply (oi_dirs _ _ _ _ Ho).
      * intros d v. cbn [dirs]. rewrite <- (oi_frames _ _ _ _ Ho), lookup_insert_Some. naive_solver congruence.
      * rewrite lookup_insert_Some, (oi_held _ _ _ _ Ho). cbn [held]. rewrite elem_of_union, elem_of_singleton.
        destruct (decide (p = x)) as [<-|]; naive_solver.
Qed.

(** ** Freeing pages *)

Lemma free_page_memory p q x u : palloc_free_page x p = Ok (u, q) -> x <> NULL -> memory q = fill x 4096 204 (memory p).
Proof.
  unfold palloc_free_page, palloc_free_multiple. intros H Hx. apply bind_Ok in H as (_ & _ & H).
  rewrite (proj2 (Z.eqb_neq x NULL) Hx) in H. change (1 =? 0) with false in H. cbn [orb] in H.
  apply bind_Ok in H as (v & _ & H). apply bind_Ok in H as (r & _ & H). apply bind_Ok in H as (_ & _ & H).
  apply bind_Ok in H as (b & _ & H). injection H as <- <-. by destruct v.
Qed.

Lemma free_page_ok p x :
  pal_ok p -> pools_in_ram p -> allocated p x ->
  exists q, palloc_free_page x p = Ok (tt, q) /\ pal_ok q /\ pools_in_ram q /\
    memory q = fill x 4096 204 (memory p) /\ forall y, allocated q y <-> allocated p y /\ y <> x.
Proof.
  intros Hp Hr Hx. pose proof (alloc_page_ok _ _ Hr Hx) as Hxok. destruct Hx as (u & i & Hg & Hbit) eqn:E; clear E.
  destruct (palloc_free_ok p u i 1 x Hp Hg) as (q & Hf & Hq & Hgr & Hal).
  { intros y Hy%page_of_one. subst y. by exists u, i. }
  exists q. split; [done|]. split; [done|]. split; [intros v j y; rewrite Hgr; apply Hr|]. split.
  - apply (free_page_memory _ _ _ _ Hf). destruct Hxok as (? & _). unfold NULL. lia.
  - intros y. by rewrite Hal, page_of_one.
Qed.

Lemma release_spec fixed s a own p :
  vm_inv fixed s a own -> p ∈ held a ->
  exists s', on_pal (palloc_free_page p) s = Ok (tt, s') /\
    vm_inv fixed s' (mk_space (dirs a) (held a ∖ {[p]}) (active a)) (delete p own).
Proof.
  intros Hi Hp. pose proof (vi_own _ _ _ _ Hi) as Ho. rewrite <- (oi_held _ _ _ _ Ho) in Hp.
  destruct (vi_pal _ _ _ _ Hi) as [Hpal Hr].
  destruct (free_page_ok (vm_pal s) p Hpal Hr) as (q & Hf & Hq & Hqr & Hmem & Hal).
  { apply (oi_alloc _ _ _ _ Ho). by eexists. }
  exists (set_pal q s). split; [by apply on_pal_step|]. split; try apply Hi; [done| |].
  - apply (mem_inv_same (W s) _ _ own); [apply Hi| |].
    + intros x r k Hx Hm Hk. apply (W_fill s q p 204); try done; [by eapply own_page_ok..|].
      intros ->. rewrite Hp in Hx. injection Hx as <-. done.
    + intros x r Hm. rewrite lookup_delete_Some. naive_solver.
  - split; intros x.
    + cbn [set_pal vm_pal]. rewrite Hal, (oi_alloc _ _ _ _ Ho), lookup_delete_is_Some. naive_solver.
    + rewrite (oi_fixed _ _ _ _ Ho). setoid_rewrite lookup_delete_Some. naive_solver congruence.
    + rewrite lookup_delete_Some. intros [_ ?]. by apply (oi_dirs _ _ _ _ Ho).
    + intros d v. cbn [dirs]. rewrite <- (oi_frames _ _ _ _ Ho), lookup_delete_Some. naive_solver congruence.
    + rewrite lookup_delete_Some, (oi_held _ _ _ _ Ho). cbn [held]. set_solver.
Qed.

(** ** A new directory *)

Lemma mem_inv_dir W0 W1 base own ds pd :
  mem_inv W0 base own ds -> own !! pd = None ->
  (forall p r k, own !! p = Some r -> 0 <= k < 1024 -> W1 (p + 4 * k) = W0 (p + 4 * k)) ->
  (forall k, 0 <= k < 1024 -> W1 (pd + 4 * k) = W0 (base + 4 * k)) ->
  mem_inv W1 base (<[pd := RDir]> own) (<[pd := ∅]> ds).
Proof.
  intros Hm Hnew Hw Hpd. destruct (mi_base _ _ _ _ Hm) as [Hb Hb0].
  assert (forall p r, own !! p = Some r -> (<[pd := RDir]> own) !! p = Some r) as Hup.
  { intros p r Hp. rewrite lookup_insert_ne; [done|]. congruence. }
  split.
  - split; [by apply Hup|]. intros k Hk. rewrite (Hw base RBase) by (done || lia). by apply Hb0.
  - intros k Hk. unfold kernel_slot. rewrite (Hw base RBase) by (done || lia).
    destruct (mi_kernel _ _ _ _ Hm k Hk) as [[H1 H2]|(kt & Hkt & H1 & H2)]; [by left|right].
    exists kt. split; [by apply Hup|]. split; [done|]. intros j Hj. rewrite (Hw kt (RKernel k)) by done. by apply H2.
  - intros d m. rewrite lookup_insert_Some. intros [[<- <-]|[Hne Hd]].
    + rewrite lookup_insert_eq. split; [done|]. split.
      * intros i Hi. left. rewrite Hpd, Hb0 by lia. split; [done|]. intros. apply lookup_empty.
      * intros i Hi. by rewrite Hpd, (Hw base RBase) by (done || lia).
    + destruct (mi_user _ _ _ _ Hm d m Hd) as (Hod & Hu & Hk). split; [by apply Hup|]. split.
      * intros i Hi. unfold user_slot. rewrite (Hw d RDir) by (done || lia).
        destruct (Hu i Hi) as [[H1 H2]|(pt & x & Hpt & H1 & H2 & H3)]; [by left|right].
        exists pt, x. split; [by apply Hup|]. split; [done|]. split; [done|]. intros j Hj.
        rewrite (Hw pt (RTable d i)) by done. by apply H3.
      * intros i Hi. rewrite (Hw d RDir), (Hw base RBase) by (done || lia). by apply Hk.
  - intros t d i Ht. apply lookup_insert_Some in Ht as [[_ [=]]|[_ Ht]].
    destruct (mi_tables _ _ _ _ Hm _ _ _ Ht) as ((m & Hd) & Hi & Hx).
    split; [apply lookup_insert_is_Some'; right; by exists m|]. split; [done|].
    destruct (mi_user _ _ _ _ Hm d m Hd) as (Hod & _). by rewrite (Hw d RDir) by (done || lia).
Qed.

Lemma create_spec fixed s a own :
  vm_inv fixed s a own ->
  exists pd s' own', pagedir_create ram_pages s = Ok (pd, s') /\
    ((pd = NULL /\ vm_inv fixed s' a own') \/
     (dirs a !! pd = None /\ vm_inv fixed s' (mk_space (<[pd := ∅]> (dirs a)) (held a) (active a)) own')).
Proof.
  intros Hi. destruct (vi_pal _ _ _ _ Hi) as [Hp Hr]. pose proof (vi_own _ _ _ _ Hi) as Ho.
  destruct (get_page_ok 0 (vm_pal s) Hp Hr eq_refl) as (pd & q & Hg & Hq & Hqr & Hmem & Hc).
  change (has_flag 0 PAL_ZERO) with false in Hmem. rewrite andb_false_r in Hmem.
  unfold pagedir_create. rewrite (bindM_step _ _ _ _ _ (on_pal_step _ s _ _ Hg)).
  exists pd. destruct Hc as [[-> Hal]|(Hpd & Hfree & Hal)].
  { exists (set_pal q s), own. split; [done|]. left. split; [done|]. split; try apply Hi; [done| |].
    - unfold W. cbn [set_pal vm_pal]. rewrite Hmem. apply Hi.
    - split; try apply Ho. intros x. rewrite Hal. apply Ho. }
  rewrite (page_not_null pd Hpd). cbn [negb]. erewrite bindM_step by reflexivity.
  destruct (mi_base _ _ _ _ (vi_mem _ _ _ _ Hi)) as (Hob & _). pose proof (own_page_ok _ _ _ _ _ _ Hi Hob) as Hbok.
  set (b := base_page_dir s) in *. assert (forall x, page_ok x -> in_ram ram_pages x PGSIZE = true) as Hin.
  { intros x (? & _ & ?). unfold in_ram. rewrite phys_base. change PGSIZE with 4096. apply andb_true_intro.
    rewrite !Z.leb_le. lia. }
  set (s' := set_mem (copy_bytes pd b PGSIZE (memory q)) (set_pal q s)).
  assert (memcpy ram_pages pd b PGSIZE (set_pal q s) = Ok (tt, s')) as Hcpy.
  { unfold memcpy. by rewrite !Hin by done. }
  rewrite (bindM_step _ _ _ _ _ Hcpy). pose proof (own_fresh _ _ _ _ _ Hi Hfree) as Hnew.
  exists s', (<[pd := RDir]> own). split; [done|]. right.
  assert (dirs a !! pd = None) as Hnd.
  { destruct (dirs a !! pd) as [m|] eqn:He; [|done]. destruct (mi_user _ _ _ _ (vi_mem _ _ _ _ Hi) pd m He). congruence. }
  split; [done|]. split; [done| | | | |].
  - apply (mem_inv_dir (W s)); [apply Hi|done| |].
    + intros x r k Hx Hk. pose proof (own_page_ok _ _ _ _ _ _ Hi Hx) as (_ & Hxm & _). destruct Hpd as (_ & Hpm & _).
      unfold W, s'. cbn [set_mem set_pal vm_pal memory set_memory]. rewrite <- Hmem. apply word_copy_out.
      change PGSIZE with 4096. assert (x <> pd) by congruence. zlia.
    + intros k Hk. unfold W, s'. cbn [set_mem set_pal vm_pal memory set_memory]. rewrite <- Hmem.
      rewrite word_copy_in by (change PGSIZE with 4096; lia). f_equal. change (base_page_dir _) with b. lia.
  - split; intros x.
    + assert (allocated (vm_pal s') x <-> allocated q x) as -> by apply (proj1 (proj2 (set_memory_same _ q))).
      rewrite Hal, (oi_alloc _ _ _ _ Ho), lookup_insert_is_Some'. naive_solver.
    + rewrite (oi_fixed _ _ _ _ Ho). setoid_rewrite lookup_insert_Some. naive_solver congruence.
    + rewrite lookup_insert_Some. cbn [dirs]. intros [[<- _]|[_ ?]]; apply lookup_insert_is_Some'; [by left|right].
      by apply (oi_dirs _ _ _ _ Ho).
    + intros d v. cbn [dirs]. rewrite lookup_insert_Some. setoid_rewrite lookup_insert_Some. split.
      * intros [[_ [=]]|[_ Hx]]. apply (oi_frames _ _ _ _ Ho) in Hx as (m & e & Hm & He). exists m, e.
        split; [|done]. right. split; [congruence|done].
      * intros (m & e & [[<- <-]|[Hne Hm]] & He & Hf); [by rewrite lookup_empty in He|]. right.
        assert (own !! x = Some (RFrame d v)) as Hx by (apply (oi_frames _ _ _ _ Ho); by exists m, e).
        split; [congruence|done].
    + rewrite lookup_insert_Some, <- (oi_held _ _ _ _ Ho). naive_solver congruence.
  - intros d m v e. cbn [dirs]. rewrite lookup_insert_Some. intros [[<- <-]|[_ Hd]] He; [by rewrite lookup_empty in He|].
    by eapply (vi_dirs _ _ _ _ Hi).
  - destruct (vi_active _ _ _ _ Hi) as [Hc Ha]. split; [done|]. intros d Hd. cbn [dirs active] in *.
    apply lookup_insert_is_Some'. right. by apply Ha.
  - intros v w Hv. destruct (vi_tlb _ _ _ _ Hi v w Hv) as (d & m & e & dt & Hact & Hd & Hrest).
    exists d, m, e, dt. cbn [dirs active]. rewrite lookup_insert_ne by congruence. done.
Qed.

Lemma activate_spec fixed s a own pd :
  vm_inv fixed s a own -> pd = NULL \/ is_Some (dirs a !! pd) ->
  exists s', pagedir_activate pd s = Ok (tt, s') /\
    vm_inv fixed s' (mk_space (dirs a) (held a) (if pd =? NULL then None else Some pd)) own.
Proof.
  intros Hi Hpd. destruct (mi_base _ _ _ _ (vi_mem _ _ _ _ Hi)) as (Hob & _).
  set (x := if pd =? NULL then base_page_dir s else pd).
  assert (page_ok x) as Hx.
  { unfold x. destruct Hpd as [->|[m Hm]]; [by eapply own_page_ok|].
    destruct (mi_user _ _ _ _ (vi_mem _ _ _ _ Hi) pd m Hm) as (Hod & _).
    rewrite page_not_null by (by eapply own_page_ok). by eapply own_page_ok. }
  pose proof Hx as (Hx1 & _ & Hx3). change (2 ^ 18) with 262144 in Hram.
  unfold pagedir_activate. erewrite bindM_step by reflexivity. fold x.
  rewrite vtop_ok by (rewrite phys_base; change (2 ^ 32) with 4294967296; lia). rewrite phys_base.
  eexists. split; [reflexivity|]. split; try apply Hi.
  - by destruct (vi_own _ _ _ _ Hi).
  - split; [unfold x; by destruct (pd =? NULL)|]. intros d. cbn. destruct Hpd as [->|Hd]; [done|].
    destruct (pd =? NULL); [done|]. by intros [= <-].
  - apply tlb_ok_empty.
Qed.

(** ** Accesses of a user program *)

Definition may (e : entry) (write : bool) : bool := present e && (negb write || writable e).

(** The entry after an access. *)
Definition touch (e : entry) (write : bool) : entry :=
  mk_entry (frame e) (present e) (writable e) true (dirty e || write).

Lemma pte_may (e : entry) (write : bool) : entry_ok e -> user_may (pte_word (Some e)) write = may e write.
Proof.
  intros He. unfold user_may, may. destruct (pte_has e He) as (-> & -> & -> & _). by rewrite andb_true_r.
Qed.

Lemma pte_touch (e : entry) (write : bool) : entry_ok e ->
  Z.lor (Z.lor (pte_word (Some e)) PTE_A) (if write then PTE_D else 0) = pte_word (Some (touch e write)).
Proof.
  intros He. rewrite (proj1 (pte_set e He)). destruct write.
  - rewrite (proj2 (pte_set (set_acc true e) He)). f_equal. f_equal. unfold touch. by rewrite orb_true_r.
  - rewrite Z.lor_0_r. unfold touch. by rewrite orb_false_r.
Qed.

(** The accessed bit of a directory entry is not part of the specification. *)
Lemma mem_inv_pde W0 W1 base own ds pd i pt :
  mem_inv W0 base own ds -> own !! pt = Some (RTable pd i) ->
  (forall p r, own !! p = Some r -> page_ok p) ->
  (forall p r k, own !! p = Some r -> 0 <= k < 1024 ->
     W1 (p + 4 * k) = if decide (p = pd /\ k = i) then pt - PB + 7 + PTE_A else W0 (p + 4 * k)) ->
  mem_inv W1 base own ds.
Proof.
  intros Hm Hpt Hown Hw. destruct (mi_base _ _ _ _ Hm) as [Hb Hb0].
  destruct (mi_tables _ _ _ _ Hm _ _ _ Hpt) as ((m & Hd) & Hi0 & x & Hx & Hxx).
  destruct (mi_user _ _ _ _ Hm pd m Hd) as (Hod & _).
  assert (forall p r k, own !! p = Some r -> r <> RDir -> 0 <= k < 1024 -> W1 (p + 4 * k) = W0 (p + 4 * k)) as Hw'.
  { intros p r k Hp Hr Hk. rewrite (Hw p r) by done. rewrite decide_False; [done|]. intros [-> _]. congruence. }
  split.
  - split; [done|]. intros k Hk. rewrite (Hw' base RBase) by (done || lia). by apply Hb0.
  - intros k Hk. unfold kernel_slot. rewrite (Hw' base RBase) by (done || lia).
    destruct (mi_kernel _ _ _ _ Hm k Hk) as [[H1 H2]|(kt & Hkt & H1 & H2)]; [by left|right].
    exists kt. split; [done|]. split; [done|]. intros j Hj. rewrite (Hw' kt (RKernel k)) by done. by apply H2.
  - intros d m' Hd'. destruct (mi_user _ _ _ _ Hm d m' Hd') as (Hod' & Hu & Hk). split; [done|]. split.
    + intros k Hk'. unfold user_slot. rewrite (Hw d RDir) by (done || lia).
      destruct (Hu k Hk') as [[H1 H2]|(kt & y & Hkt & H1 & H2 & H3)].
      * left. case_decide as He; [|done]. destruct He as [-> ->]. rewrite H1 in Hx.
        destruct (pde_bits pt x (Hown _ _ Hpt) Hxx) as (Hpos & _). lia.
      * right. case_decide as He.
        -- destruct He as [-> ->]. exists kt, PTE_A. split; [done|].
           rewrite (table_unique W0 base own ds kt pt pd i) by (try done; by eapply Hown). split; [done|].
           split; [by right|]. intros j Hj. rewrite (Hw' pt (RTable pd i)) by done.
           rewrite (table_unique W0 base own ds kt pt pd i) in H3 by (try done; by eapply Hown). by apply H3.
        -- exists kt, y. split; [done|]. split; [done|]. split; [done|]. intros j Hj.
           rewrite (Hw' kt (RTable d k)) by done. by apply H3.
    + intros k Hk'. rewrite (Hw d RDir), (Hw' base RBase) by (done || lia). rewrite decide_False by (intros [_ ->]; lia).
      by apply Hk.
  - intros t d k Ht. destruct (mi_tables _ _ _ _ Hm _ _ _ Ht) as ((m' & Hd') & Hk & y & Hy & Hyy).
    split; [by exists m'|]. split; [done|]. destruct (mi_user _ _ _ _ Hm d m' Hd') as (Hod' & _).
    rewrite (Hw d RDir) by (done || lia). case_decide as He; [|by exists y]. destruct He as [-> ->].
    rewrite (table_unique W0 base own ds t pt pd i) by (try done; by eapply Hown). exists PTE_A. split; [done|by right].
Qed.

Lemma pde_store fixed s a own pd m i pt :
  vm_inv fixed s a own -> dirs a !! pd = Some m -> own !! pt = Some (RTable pd i) ->
  store32 ram_pages (pd + 4 * i) (pt - PB + 7 + PTE_A) s = Ok (tt, put (pd + 4 * i) (pt - PB + 7 + PTE_A) s) /\
  vm_inv fixed (put (pd + 4 * i) (pt - PB + 7 + PTE_A) s) a own.
Proof.
  intros Hi Hd Hpt. pose proof (fun p r => own_page_ok _ _ _ _ p r Hi) as Hown.
  destruct (mi_user _ _ _ _ (vi_mem _ _ _ _ Hi) pd m Hd) as (Hod & _).
  destruct (table_words _ _ _ _ _ _ _ _ Hi Hd Hpt) as (Hi0 & _).
  split; [apply store_page; [by eapply Hown|lia]|].
  split; try apply Hi.
  - apply (mem_inv_pde (W s) _ _ own _ pd i pt); [apply Hi|done|done|]. intros p r k Hp Hk.
    rewrite W_put; [|by eapply Hown|by eapply Hown|lia|done|]; cycle 1.
    { rewrite <- Z.add_assoc. apply page_phys32; [by eapply Hown|by apply pde_flags; right]. }
    destruct (decide (p = pd /\ k = i)) as [[-> ->]|Hne]; [by rewrite decide_True|].
    rewrite decide_False; [done|]. intros He. apply Hne. destruct (Hown _ _ Hp) as (_ & Hpm & _).
    destruct (Hown _ _ Hod) as (_ & Hdm & _). destruct (word_same pd p i k) as [-> ->]; try done; lia.
Qed.

Lemma user_may_0 write : user_may 0 write = false.
Proof. done. Qed.

Lemma kernel_word_user k write : user_may (kernel_word k) write = false.
Proof.
  unfold kernel_word. destruct (k <? ram_pages); [|done]. rewrite <- Z.add_assoc.
  assert (has (4096 * k + (PTE_P + (if in_text k then 0 else PTE_W))) PTE_U = false) as Hu.
  { unfold has. rewrite land_flags; [by destruct (in_text k)|zlia|by destruct (in_text k)|done]. }
  unfold user_may. by rewrite Hu, andb_false_r.
Qed.

(** The result of an access and the new state. *)
Definition access_spec a (va : Z) (write : bool) : option Z * space :=
  match active a with
  | Some pd =>
      match dirs a !! pd with
      | Some m =>
          match m !! pg_no va with
          | Some e => if may e write then (Some (frame e - PB + pg_ofs va), upd pd m (pg_no va) (touch e write) (held a) a)
                      else (None, a)
          | None => (None, a)
          end
      | None => (None, a)
      end
  | None => (None, a)
  end.

Lemma walk_start s a fixed own va (write : bool) i :
  vm_inv fixed s a own -> pd_no va = i -> 0 <= i < 1024 ->
  walk ram_pages va write s =
  (if user_may (W s (act_dir s a + 4 * i)) write then
    (let pte := Z.land (W s (act_dir s a + 4 * i)) PTE_ADDR + PHYS_BASE + WORD * pt_no va in
    w ← load32 ram_pages pte;
    if user_may w write then
      let w := Z.lor (Z.lor w PTE_A) (if write then PTE_D else 0) in
      store32 ram_pages (act_dir s a + 4 * i) (Z.lor (W s (act_dir s a + 4 * i)) PTE_A) ;;
      store32 ram_pages pte w ;;
      modify (fun s => set_tlb (<[pg_no va := w]> (tlb s)) s) ;;
      mret (Some (Z.land w PTE_ADDR + pg_ofs va))
    else mret None) s
  else Ok (None, s)).
Proof.
  intros Hi <- Hr. destruct (act_dir_ok _ _ _ _ Hi) as [Hact Hcr]. unfold walk. erewrite bindM_step by reflexivity.
  rewrite Hcr, phys_base. replace (act_dir s a - PB + PB) with (act_dir s a) by lia.
  erewrite bindM_step by (apply load_page; done). by destruct (user_may _ write).
Qed.

(** A page fault where the base directory is active. *)
Lemma walk_base fixed s a own va write :
  vm_inv fixed s a own -> active a = None -> 0 <= va < PB -> walk ram_pages va write s = Ok (None, s).
Proof.
  intros Hi Ha Hva. destruct (user_index va Hva) as (Hi0 & _). rewrite (walk_start s a fixed own va write _ Hi eq_refl) by lia.
  unfold act_dir. rewrite Ha. cbn [default]. destruct (mi_base _ _ _ _ (vi_mem _ _ _ _ Hi)) as (_ & Hz).
  by rewrite Hz by done.
Qed.

(** User programs never reach kernel memory. *)
Lemma walk_kernel fixed s a own va write :
  vm_inv fixed s a own -> PB <= va < 2 ^ 32 -> walk ram_pages va write s = Ok (None, s).
Proof.
  intros Hi Hva. change (2 ^ 32) with 4294967296 in Hva.
  assert (768 <= pd_no va < 1024 /\ 0 <= pt_no va < 1024) as [Hi0 Hj0].
  { rewrite pd_no_arith, pt_no_arith by lia. zlia. }
  rewrite (walk_start s a fixed own va write _ Hi eq_refl) by lia.
  assert (W s (act_dir s a + 4 * pd_no va) = W s (base_page_dir s + 4 * pd_no va)) as ->.
  { unfold act_dir. destruct (active a) as [pd|] eqn:Ha; [|done]. destruct (vi_active _ _ _ _ Hi) as [_ Hd].
    destruct (Hd pd Ha) as [m Hm]. destruct (mi_user _ _ _ _ (vi_mem _ _ _ _ Hi) pd m Hm) as (_ & _ & Hk). by apply Hk. }
  destruct (mi_kernel _ _ _ _ (vi_mem _ _ _ _ Hi) (pd_no va) Hi0) as [[-> _]|(pt & Hpt & Hw & Hk)]; [done|].
  pose proof (own_page_ok _ _ _ _ _ _ Hi Hpt) as Hok.
  destruct (pde_bits pt 0 Hok (or_introl eq_refl)) as (_ & Hp & Hwr & Hu & Ha & _). rewrite Z.add_0_r in *. rewrite Hw.
  destruct (user_may (pt - PB + 7) write); [|done]. cbv zeta. rewrite Ha, phys_base.
  replace (pt - PB + PB + WORD * pt_no va) with (pt + 4 * pt_no va) by (change WORD with 4; lia).
  erewrite bindM_step by (apply load_page; done). rewrite Hk by done. by rewrite kernel_word_user.
Qed.

Lemma walk_user fixed s a own pd m va write :
  vm_inv fixed s a own -> active a = Some pd -> dirs a !! pd = Some m -> 0 <= va < PB ->
  exists s', walk ram_pages va write s = Ok (fst (access_spec a va write), s') /\
    vm_inv fixed s' (snd (access_spec a va write)) own.
Proof.
  intros Hi Ha Hd Hva. destruct (user_index va Hva) as (Hi0 & Hj0 & Hno & Hv).
  rewrite (walk_start s a fixed own va write _ Hi eq_refl) by lia. unfold access_spec. rewrite Ha, Hd.
  assert (act_dir s a = pd) as -> by (unfold act_dir; by rewrite Ha).
  destruct (mi_user _ _ _ _ (vi_mem _ _ _ _ Hi) pd m Hd) as (Hod & Hu & _).
  destruct (Hu _ Hi0) as [[-> Hn]|(pt & x & Hpt & Hx & Hxx & Hw)].
  { exists s. rewrite Hno, Hn by done. done. }
  pose proof (own_page_ok _ _ _ _ _ _ Hi Hpt) as Hok.
  destruct (pde_bits pt x Hok Hxx) as (_ & Hp & Hwr & Hus & Haddr & Hacc). rewrite Hx.
  assert (user_may (pt - PB + 7 + x) write = true) as ->.
  { unfold user_may. rewrite Hp, Hwr, Hus. by rewrite orb_true_r. }
  cbv zeta. rewrite Haddr, Hacc, phys_base.
  replace (pt - PB + PB + WORD * pt_no va) with (pt + 4 * pt_no va) by (change WORD with 4; lia).
  assert (pte_at own pd (pd_no va) (pt_no va) (pt + 4 * pt_no va)) as Hat by (by exists pt).
  rewrite (bindM_step _ _ _ _ _ (pte_load _ _ _ _ _ _ _ _ Hi Hd Hva Hat)).
  destruct (m !! pg_no va) as [e|] eqn:He; [|by exists s].
  pose proof (entry_in_range _ _ _ _ _ _ _ _ Hi Hd He) as Heok. rewrite pte_may by done.
  destruct (may e write) eqn:Hmay; [|by exists s]. rewrite pte_touch by done. unfold may in Hmay. apply andb_true_iff in Hmay as [Hpr _].
  destruct (pde_store fixed s a own pd m (pd_no va) pt Hi Hd Hpt) as [Hst1 Hi1]. rewrite (bindM_step _ _ _ _ _ Hst1).
  set (s1 := put _ _ s) in *. set (e' := touch e write).
  destruct (pte_store fixed s1 a own pd m va (pt + 4 * pt_no va) e' (held a) own
              (<[pg_no va := pte_word (Some e')]> (tlb s1)) Hi1 Hd Hva Hat) as [Hst2 Hi2]; [done| |done| |].
  - by eapply own_inv_keep; [apply Hi1|..].
  - assert (tlb_ok (tlb s1) (upd pd m (pg_no va) e' (held a) a)) as Ht1.
    { apply tlb_ok_upd; [apply Hi1|done|]. intros _ _ e0 He0 Hp0 Ha0. assert (e0 = e) as -> by congruence.
      unfold e', touch. cbn. repeat split; try done. by intros ->. }
    intros v w. rewrite lookup_insert_Some. intros [[<- <-]|[_ Hv']]; [|by apply Ht1].
    exists pd, (<[pg_no va := e']> m), e', (dirty e'). cbn [upd dirs active]. rewrite !lookup_insert_eq.
    repeat (split; [done|]). by destruct e'.
  - rewrite (bindM_step _ _ _ _ _ Hst2). erewrite bindM_step by reflexivity.
    rewrite (pte_addr e') by done. eexists. split; [reflexivity|]. exact Hi2.
Qed.

Lemma touch_same a pd m v e : dirs a !! pd = Some m -> m !! v = Some e -> upd pd m v e (held a) a = a.
Proof. intros Hd He. unfold upd. rewrite (insert_id m) by done. rewrite insert_id by done. by destruct a. Qed.

Lemma access_ok fixed s a own va write :
  vm_inv fixed s a own -> 0 <= va < 2 ^ 32 ->
  exists s', user_access ram_pages va write s = Ok (fst (access_spec a va write), s') /\
    vm_inv fixed s' (snd (access_spec a va write)) own.
Proof.
  intros Hi Hva. assert (exists s', walk ram_pages va write s = Ok (fst (access_spec a va write), s') /\
    vm_inv fixed s' (snd (access_spec a va write)) own) as Hwalk.
  { destruct (Z.lt_ge_cases va PB) as [Hlt|Hge].
    - destruct (active a) as [pd|] eqn:Ha.
      + destruct (vi_active _ _ _ _ Hi) as [_ Hd]. destruct (Hd pd Ha) as [m Hm]. apply (walk_user fixed s a own pd m); (done || lia).
      + rewrite (walk_base fixed s a own) by (done || lia). exists s. unfold access_spec. by rewrite Ha.
    - rewrite (walk_kernel fixed s a own) by (done || lia). exists s. unfold access_spec.
      destruct (active a) as [pd|]; [|done]. destruct (dirs a !! pd) as [m|] eqn:Hd; [|done].
      destruct (m !! pg_no va) as [e|] eqn:He; [|done].
      destruct (vi_dirs _ _ _ _ Hi pd m _ e Hd He) as [Hr _]. rewrite pg_no_div in Hr by lia. unfold USER_PAGES in Hr. zlia. }
  unfold user_access. erewrite bindM_step by reflexivity. destruct (tlb s !! pg_no va) as [w|] eqn:Ht; [|done].
  destruct (vi_tlb _ _ _ _ Hi _ _ Ht) as (pd & m & e & d & Ha & Hd & He & Hp & Hac & Hdt & ->).
  pose proof (entry_in_range _ _ _ _ _ _ _ _ Hi Hd He) as Hok. destruct (pte_has (set_dirt d e) Hok) as (_ & _ & _ & _ & ->).
  cbn [dirty set_dirt]. destruct (negb write || d) eqn:Hwd; [|done].
  rewrite pte_may by done. change (may (set_dirt d e) write) with (may e write). unfold access_spec. rewrite Ha, Hd, He.
  destruct (may e write) eqn:Hmay; [|by exists s]. rewrite pte_addr by done. exists s. split; [done|]. cbn [snd].
  assert (touch e write = e) as ->; [|by rewrite touch_same].
  unfold touch. destruct e as [f p w a0 d0]. cbn in *. subst a0. f_equal. destruct write, d, d0; naive_solver.
Qed.

(** ** Destroying a directory *)

(** Pages of [pd] freed once its tables below [i], and the first [j] entries
    of table [i], have been dealt with. *)
Definition gone own (pd i j p : Z) : Prop :=
  (exists v, own !! p = Some (RFrame pd v) /\ v < 1024 * i + j) \/
  (exists i', own !! p = Some (RTable pd i') /\ i' < i).

Record destroying (s0 : vm) own (F : Z -> Prop) s : Prop := {
  de_pal : pal_ok (vm_pal s) /\ pools_in_ram (vm_pal s);
  de_alloc : forall p, allocated (vm_pal s) p <-> allocated (vm_pal s0) p /\ ~ F p;
  de_words : forall p r k, own !! p = Some r -> ~ F p -> 0 <= k < 1024 -> W s (p + 4 * k) = W s0 (p + 4 * k);
  de_rest : s = set_pal (vm_pal s) s0;
}.

Lemma destroying_iff s0 own F G s : (forall p, F p <-> G p) -> destroying s0 own F s -> destroying s0 own G s.
Proof.
  intros H [H1 H2 H3 H4]. split; [done| | |done].
  - intros p. by rewrite H2, H.
  - intros p r k Hp Hg. apply (H3 p r k Hp). by rewrite H.
Qed.

Lemma free_one fixed s0 a own F G s p r :
  vm_inv fixed s0 a own -> destroying s0 own F s -> own !! p = Some r -> ~ F p ->
  (forall q, G q <-> F q \/ q = p) ->
  exists s', on_pal (palloc_free_page p) s = Ok (tt, s') /\ destroying s0 own G s'.
Proof.
  intros Hi [[Hpal Hr] Hal Hw Hs] Hp Hnf HG.
  pose proof (own_page_ok _ _ _ _ _ _ Hi Hp) as Hpok.
  destruct (free_page_ok (vm_pal s) p Hpal Hr) as (q & Hf & Hq & Hqr & Hmem & Hal').
  { apply Hal. split; [|done]. apply (oi_alloc _ _ _ _ (vi_own _ _ _ _ Hi)). by eexists. }
  exists (set_pal q s). split; [by apply on_pal_step|]. split; [done| | |].
  - intros x. cbn [set_pal vm_pal]. rewrite Hal', Hal, HG. naive_solver.
  - intros x rx k Hx Hg Hk. rewrite HG in Hg. rewrite <- (Hw x rx k) by naive_solver.
    apply (W_fill s q p 204); try done; [by eapply own_page_ok|naive_solver].
  - rewrite Hs. by destruct s0.
Qed.

Lemma frame_unique fixed s a own p q pd v :
  vm_inv fixed s a own -> own !! p = Some (RFrame pd v) -> own !! q = Some (RFrame pd v) -> p = q.
Proof.
  intros Hi Hp Hq. apply (oi_frames _ _ _ _ (vi_own _ _ _ _ Hi)) in Hp as (m & e & Hm & He & <- & _).
  apply (oi_frames _ _ _ _ (vi_own _ _ _ _ Hi)) in Hq as (m' & e' & Hm' & He' & <- & _). congruence.
Qed.

Lemma free_frames_ok fixed s0 a own pd m i pt n j s :
  vm_inv fixed s0 a own -> dirs a !! pd = Some m -> own !! pt = Some (RTable pd i) ->
  0 <= j -> j + Z.of_nat n = 1024 -> destroying s0 own (gone own pd i j) s ->
  exists s', free_frames ram_pages n (pt + 4 * j) s = Ok (tt, s') /\ destroying s0 own (gone own pd i 1024) s'.
Proof.
  intros Hi Hd Hpt. revert j s. induction n as [|n IH]; intros j s Hj Hn Hs; cbn [free_frames].
  { exists s. split; [done|]. by replace 1024 with j by lia. }
  destruct (table_words _ _ _ _ _ _ _ _ Hi Hd Hpt) as (Hi0 & _ & Hw).
  erewrite bindM_step by (apply load_page; [by eapply own_page_ok|lia]).
  rewrite (de_words _ _ _ _ Hs pt _ j Hpt), Hw; [|lia| |lia]; cycle 1.
  { intros [(v & Hv & _)|(i' & Hi' & Hlt)]; [congruence|]. rewrite Hpt in Hi'. injection Hi' as <-. lia. }
  rewrite pte_present by (intros e He; by eapply entry_in_range). rewrite negb_involutive.
  set (v := 1024 * i + j). assert (exists s1, (if here (m !! v)
      then page ← liftM (pte_get_page (pte_word (m !! v))); on_pal (palloc_free_page page) else mret tt) s = Ok (tt, s1) /\
      destroying s0 own (gone own pd i (j + 1)) s1) as (s1 & Hst & Hs1).
  { destruct (here (m !! v)) eqn:Hh.
    - destruct (m !! v) as [e|] eqn:He; [|done]. cbn [here] in Hh.
      rewrite pte_page by (by eapply entry_in_range). erewrite bindM_step by reflexivity.
      assert (own !! frame e = Some (RFrame pd v)) as Hfr.
      { apply (oi_frames _ _ _ _ (vi_own _ _ _ _ Hi)). by exists m, e. }
      apply (free_one fixed s0 a own (gone own pd i j) _ s (frame e) (RFrame pd v)); try done.
      + intros [(v' & Hv' & Hlt)|(i' & Hi' & _)]; [|congruence]. rewrite Hfr in Hv'. injection Hv' as <-. unfold v in Hlt. lia.
      + intros q. unfold gone. split.
        * intros [(v' & Hv' & Hlt)|Ht]; [|by left; right]. destruct (Z.eq_dec v' v) as [->|Hne].
          -- right. by apply (frame_unique fixed s0 a own q (frame e) pd v).
          -- left. left. exists v'. split; [done|]. unfold v in Hne. lia.
        * intros [[(v' & Hv' & Hlt)|Ht]| ->]; [left; exists v'; split; [done|lia]|by right|left; exists v]. split; [done|unfold v; lia].
    - exists s. split; [done|]. apply (destroying_iff s0 own (gone own pd i j)); [|done]. intros q. unfold gone. split.
      + intros [(v' & Hv' & Hlt)|Ht]; [left; exists v'; split; [done|lia]|by right].
      + intros [(v' & Hv' & Hlt)|Ht]; [|by right]. left. exists v'. split; [done|].
        destruct (Z.eq_dec v' v) as [->|Hne]; [|unfold v in Hne; lia].
        apply (oi_frames _ _ _ _ (vi_own _ _ _ _ Hi)) in Hv' as (m' & e & Hm' & He & _ & Hp).
        assert (m' = m) as -> by congruence. rewrite He in Hh. cbn in Hh. congruence. }
  rewrite (bindM_step _ _ _ _ _ Hst). change WORD with 4. replace (pt + 4 * j + 4) with (pt + 4 * (j + 1)) by lia.
  apply IH; [lia|lia|done].
Qed.

Lemma free_tables_ok fixed s0 a own pd m n i s :
  vm_inv fixed s0 a own -> dirs a !! pd = Some m ->
  0 <= i -> i + Z.of_nat n = 768 -> destroying s0 own (gone own pd i 0) s ->
  exists s', free_tables ram_pages n (pd + 4 * i) s = Ok (tt, s') /\ destroying s0 own (gone own pd 768 0) s'.
Proof.
  intros Hi Hd. revert i s. induction n as [|n IH]; intros i s Hi0 Hn Hs; cbn [free_tables].
  { exists s. split; [done|]. by replace 768 with i by lia. }
  destruct (mi_user _ _ _ _ (vi_mem _ _ _ _ Hi) pd m Hd) as (Hod & Hu & _).
  erewrite bindM_step by (apply load_page; [by eapply own_page_ok|lia]).
  rewrite (de_words _ _ _ _ Hs pd _ i Hod); [| |lia]; cycle 1.
  { intros [(v & Hv & _)|(i' & Hi' & Hlt)]; congruence. }
  assert (exists s1, (if negb (Z.land (W s0 (pd + 4 * i)) PTE_P =? 0)
      then pt ← liftM (pde_get_pt (W s0 (pd + 4 * i))); free_frames ram_pages (Z.to_nat (PGSIZE / WORD)) pt ;; on_pal (palloc_free_page pt)
      else mret tt) s = Ok (tt, s1) /\ destroying s0 own (gone own pd (i + 1) 0) s1) as (s1 & Hst & Hs1).
  { destruct (Hu i ltac:(lia)) as [[Hz Hnone]|(pt & x & Hpt & Hx & Hxx & _)].
    - rewrite Hz. exists s. split; [done|]. apply (destroying_iff s0 own (gone own pd i 0)); [|done]. intros q. unfold gone. split.
      + intros [(v & Hv & Hlt)|(i' & Hi' & Hlt)]; [left; exists v|right; exists i']; (split; [done|lia]).
      + intros [(v & Hv & Hlt)|(i' & Hi' & Hlt)].
        * left. exists v. split; [done|]. destruct (Z.lt_ge_cases v (1024 * i + 0)) as [|Hge]; [done|].
          apply (oi_frames _ _ _ _ (vi_own _ _ _ _ Hi)) in Hv as (m' & e & Hm' & He & _).
          assert (m' = m) as -> by congruence. specialize (Hnone (v - 1024 * i) ltac:(lia)).
          replace (1024 * i + (v - 1024 * i)) with v in Hnone by lia. congruence.
        * right. exists i'. split; [done|]. destruct (Z.eq_dec i' i) as [->|]; [|lia].
          destruct (mi_tables _ _ _ _ (vi_mem _ _ _ _ Hi) _ _ _ Hi') as (_ & _ & x & Hx & Hxx).
          destruct (pde_bits q x (own_page_ok _ _ _ _ _ _ Hi Hi') Hxx) as (Hpos & _). lia.
    - pose proof (own_page_ok _ _ _ _ _ _ Hi Hpt) as Hok. rewrite Hx.
      assert (negb (Z.land (pt - PB + 7 + x) PTE_P =? 0) = true) as -> by apply (pde_bits pt x Hok Hxx).
      rewrite pde_table by done. erewrite bindM_step by reflexivity. change (Z.to_nat (PGSIZE / WORD)) with 1024%nat.
      destruct (free_frames_ok fixed s0 a own pd m i pt 1024 0 s Hi Hd Hpt) as (s1 & Hff & Hs1); [done|done|done|].
      rewrite Z.mul_0_r, Z.add_0_r in Hff. rewrite (bindM_step _ _ _ _ _ Hff).
      apply (free_one fixed s0 a own (gone own pd i 1024) _ s1 pt (RTable pd i)); try done.
      + intros [(v & Hv & _)|(i' & Hi' & Hlt)]; [congruence|]. rewrite Hpt in Hi'. injection Hi' as <-. lia.
      + intros q. unfold gone. split.
        * intros [(v & Hv & Hlt)|(i' & Hi' & Hlt)]; [left; left; exists v; split; [done|lia]|].
          destruct (Z.eq_dec i' i) as [->|Hne]; [|left; right; exists i'; split; [done|lia]]. right.
          apply (table_unique _ _ _ _ q pt pd i (vi_mem _ _ _ _ Hi)); try done. by eapply own_page_ok.
        * intros [[(v & Hv & Hlt)|(i' & Hi' & Hlt)]| ->]; [left; exists v|right; exists i'|right; exists i]; (split; [done|lia]). }
  rewrite (bindM_step _ _ _ _ _ Hst). change WORD with 4. replace (pd + 4 * i + 4) with (pd + 4 * (i + 1)) by lia.
  apply IH; [lia|lia|done].
Qed.

(** The pages that survive the destruction of [pd]. *)
Definition keeps (pd p : Z) (r : role) : bool :=
  negb (p =? pd) && match r with RTable d _ | RFrame d _ => negb (d =? pd) | _ => true end.

Definition without (pd : Z) own : gmap Z role := filter (fun pr => keeps pd pr.1 pr.2 = true) own.

Lemma lookup_without pd own p r : without pd own !! p = Some r <-> own !! p = Some r /\ keeps pd p r = true.
Proof. unfold without. by rewrite map_lookup_filter_Some. Qed.

Lemma keeps_plain pd own p r : own !! pd = Some RDir -> own !! p = Some r ->
  match r with RDir | RTable _ _ | RFrame _ _ => False | _ => True end -> without pd own !! p = Some r.
Proof.
  intros Hd Hp Hr. apply lookup_without. split; [done|]. unfold keeps.
  rewrite (proj2 (Z.eqb_neq p pd)); [by destruct r|]. intros ->. rewrite Hp in Hd. by destruct r.
Qed.

Lemma mem_inv_destroy W0 W1 base own ds pd m :
  mem_inv W0 base own ds -> ds !! pd = Some m ->
  (forall p r k, without pd own !! p = Some r -> 0 <= k < 1024 -> W1 (p + 4 * k) = W0 (p + 4 * k)) ->
  mem_inv W1 base (without pd own) (delete pd ds).
Proof.
  intros Hm Hpd Hw. destruct (mi_base _ _ _ _ Hm) as [Hb Hb0]. destruct (mi_user _ _ _ _ Hm pd m Hpd) as (Hod & _).
  assert (without pd own !! base = Some RBase) as Hb' by (by apply keeps_plain). split.
  - split; [done|]. intros k Hk. rewrite (Hw base RBase) by (done || lia). by apply Hb0.
  - intros k Hk. unfold kernel_slot. rewrite (Hw base RBase) by (done || lia).
    destruct (mi_kernel _ _ _ _ Hm k Hk) as [[H1 H2]|(kt & Hkt & H1 & H2)]; [by left|right].
    assert (without pd own !! kt = Some (RKernel k)) as Hkt' by (by apply keeps_plain).
    exists kt. split; [done|]. split; [done|]. intros j Hj. rewrite (Hw kt (RKernel k)) by done. by apply H2.
  - intros d m' [Hne Hd]%lookup_delete_Some. destruct (mi_user _ _ _ _ Hm d m' Hd) as (Hod' & Hu & Hk).
    assert (without pd own !! d = Some RDir) as Hd'.
    { apply lookup_without. split; [done|]. unfold keeps. by rewrite (proj2 (Z.eqb_neq d pd)). }
    split; [done|]. split.
    + intros i Hi. unfold user_slot. rewrite (Hw d RDir) by (done || lia).
      destruct (Hu i Hi) as [[H1 H2]|(pt & x & Hpt & H1 & H2 & H3)]; [by left|right].
      assert (without pd own !! pt = Some (RTable d i)) as Hpt'.
      { apply lookup_without. split; [done|]. unfold keeps. rewrite (proj2 (Z.eqb_neq d pd)) by done.
        rewrite (proj2 (Z.eqb_neq pt pd)) by congruence. done. }
      exists pt, x. split; [done|]. split; [done|]. split; [done|]. intros j Hj.
      rewrite (Hw pt (RTable d i)) by done. by apply H3.
    + intros i Hi. rewrite (Hw d RDir), (Hw base RBase) by (done || lia). by apply Hk.
  - intros t d i [Ht Hkp]%lookup_without. destruct (mi_tables _ _ _ _ Hm _ _ _ Ht) as ((m' & Hd) & Hi & Hx).
    unfold keeps in Hkp. apply andb_true_iff in Hkp as [_ Hne%negb_true_iff%Z.eqb_neq].
    split; [exists m'; by rewrite lookup_delete_ne|]. split; [done|].
    destruct (mi_user _ _ _ _ Hm d m' Hd) as (Hod' & _). rewrite (Hw d RDir); [done| |lia].
    apply lookup_without. split; [done|]. unfold keeps. by rewrite (proj2 (Z.eqb_neq d pd)).
Qed.

Lemma destroy_spec fixed s a own pd m :
  vm_inv fixed s a own -> dirs a !! pd = Some m -> active a <> Some pd ->
  exists s', pagedir_destroy ram_pages pd s = Ok (tt, s') /\
    vm_inv fixed s' (mk_space (delete pd (dirs a)) (held a) (active a)) (without pd own).
Proof.
  intros Hi Hd Hna. destruct (mi_user _ _ _ _ (vi_mem _ _ _ _ Hi) pd m Hd) as (Hod & _).
  destruct (mi_base _ _ _ _ (vi_mem _ _ _ _ Hi)) as (Hob & _). pose proof (vi_own _ _ _ _ Hi) as Ho.
  pose proof (own_page_ok _ _ _ _ _ _ Hi Hod) as Hpd.
  unfold pagedir_destroy. rewrite page_not_null by done. erewrite bindM_step by reflexivity.
  rewrite bindM_assert by (apply negb_true_iff, Z.eqb_neq; congruence).
  change (Z.to_nat (pd_no PHYS_BASE)) with 768%nat.
  destruct (free_tables_ok fixed s a own pd m 768 0 s Hi Hd) as (s1 & Hft & Hs1); [done|done| |].
  { split; [apply Hi| |done|by destruct s]. intros p. split; [|by intros []]. intros Hp. split; [done|].
    intros [(v & Hv & Hlt)|(i & Hti & Hlt)].
    - apply (oi_frames _ _ _ _ Ho) in Hv as (m' & e & Hm' & He & _). destruct (vi_dirs _ _ _ _ Hi _ _ _ _ Hm' He). lia.
    - destruct (mi_tables _ _ _ _ (vi_mem _ _ _ _ Hi) _ _ _ Hti) as (_ & ? & _). lia. }
  rewrite Z.mul_0_r, Z.add_0_r in Hft. rewrite (bindM_step _ _ _ _ _ Hft).
  destruct (free_one fixed s a own _ (fun q => gone own pd 768 0 q \/ q = pd) s1 pd RDir Hi Hs1 Hod) as (s2 & Hf & Hs2);
    [intros [(v & Hv & _)|(i' & Hi' & _)]; congruence|done|].
  exists s2. split; [done|]. destruct Hs2 as [Hpal Hal Hw Hrest].
  assert (forall p r, own !! p = Some r -> ~ (gone own pd 768 0 p \/ p = pd) <-> keeps pd p r = true) as Hk.
  { intros p r Hp. unfold gone, keeps. rewrite Hp. destruct (Z.eqb_spec p pd) as [->|Hne]; cbn [negb andb].
    { split; [tauto|done]. }
    destruct r as [|i| |d i|d v|]; cbn [negb]; try (split; [done|]; intros _ [[(? & [=] & _)|(? & [=] & _)]| ?]; done).
    - destruct (Z.eqb_spec d pd) as [->|Hd']; cbn [negb]; split; try done.
      + intros Hx. destruct Hx. left. right. exists i. split; [done|].
        destruct (mi_tables _ _ _ _ (vi_mem _ _ _ _ Hi) _ _ _ Hp) as (_ & ? & _). lia.
      + intros _ [[(? & [=] & _)|(? & [= -> ->] & _)]| ?]; done.
    - destruct (Z.eqb_spec d pd) as [->|Hd']; cbn [negb]; split; try done.
      + intros Hx. destruct Hx. left. left. exists v. split; [done|].
        apply (oi_frames _ _ _ _ Ho) in Hp as (m' & e & Hm' & He & _).
        destruct (vi_dirs _ _ _ _ Hi _ _ _ _ Hm' He) as [? _]. unfold USER_PAGES in *. lia.
      + intros _ [[(? & [= -> ->] & _)|(? & [=] & _)]| ?]; done. }
  rewrite Hrest. split; [done| | | | |].
  - apply (mem_inv_destroy (W s) _ _ own _ pd m); [apply Hi|done|]. intros p r k [Hp Hkp]%lookup_without Hk'.
    rewrite <- (Hw p r k Hp); [by rewrite Hrest|by apply (Hk p r)|done].
  - split; intros p.
    + cbn [set_pal vm_pal]. rewrite Hal, (oi_alloc _ _ _ _ Ho). split.
      * intros [[r Hp] Hg]. exists r. apply lookup_without. split; [done|]. by apply (Hk p r).
      * intros [r [Hp Hkp]%lookup_without]. split; [by exists r|]. by apply (Hk p r).
    + rewrite (oi_fixed _ _ _ _ Ho). split.
      * intros [Hp|[i Hp]]; [left|right; exists i]; by apply keeps_plain.
      * intros [[Hp _]%lookup_without|[i [Hp _]%lookup_without]]; [by left|right; by exists i].
    + intros [Hp Hkp]%lookup_without. cbn [dirs]. unfold keeps in Hkp.
      apply andb_true_iff in Hkp as [Hne%negb_true_iff%Z.eqb_neq _]. rewrite lookup_delete_ne by done.
      by apply (oi_dirs _ _ _ _ Ho).
    + intros d v. rewrite lookup_without, (oi_frames _ _ _ _ Ho). cbn [dirs]. unfold keeps. split.
      * intros [(m' & e & Hm' & He & Hfp) Hkp]. exists m', e. split; [|done].
        apply andb_true_iff in Hkp as [_ Hne%negb_true_iff%Z.eqb_neq]. by rewrite lookup_delete_ne.
      * intros (m' & e & [Hne Hm']%lookup_delete_Some & He & Hfp). split; [by exists m', e|].
        assert (own !! p = Some (RFrame d v)) as Hp by (apply (oi_frames _ _ _ _ Ho); by exists m', e).
        rewrite (proj2 (Z.eqb_neq d pd)), (proj2 (Z.eqb_neq p pd)) by congruence. done.
    + rewrite lookup_without, <- (oi_held _ _ _ _ Ho). cbn [held]. rewrite <- lookup_without. split.
      * by intros [? _]%lookup_without.
      * intros Hp. by apply keeps_plain.
  - cbn [dirs]. intros d m' v e [_ Hd']%lookup_delete_Some He. by apply (vi_dirs _ _ _ _ Hi d m').
  - destruct (vi_active _ _ _ _ Hi) as [Hc Ha]. split; [done|]. intros d Hact. cbn [dirs active] in *.
    rewrite lookup_delete_ne by congruence. by apply Ha.
  - intros v w Hv. destruct (vi_tlb _ _ _ _ Hi v w Hv) as (d & m' & e & dt & Hact & Hd' & Hr).
    exists d, m', e, dt. cbn [dirs active]. rewrite lookup_delete_ne by congruence. done.
Qed.

(** ** Initialisation *)

(** The kernel's table entry of page [k] once the pages below [n] are mapped. *)
Definition kword (n k : Z) : Z :=
  if k <? n then 4096 * k + PTE_P + (if in_text k then 0 else PTE_W) else 0.

(** Tables exist for the pages below [t]. *)
Definition kslot (W : Z -> Z) own (pd n t i : Z) : Prop :=
  (W (pd + 4 * i) = 0 /\ t <= 1024 * (i - 768)) \/
  (1024 * (i - 768) < t /\ exists kt, own !! kt = Some (RKernel i) /\ W (pd + 4 * i) = kt - PB + 7 /\
    forall j, 0 <= j < 1024 -> W (kt + 4 * j) = kword n (1024 * (i - 768) + j)).

Record kinv s own (pd n t pt : Z) : Prop := {
  ki_pal : pal_ok (vm_pal s) /\ pools_in_ram (vm_pal s);
  ki_alloc : forall p, allocated (vm_pal s) p <-> is_Some (own !! p);
  ki_roles : own !! pd = Some RBase /\ forall p r, own !! p = Some r -> r = RBase \/ exists i, r = RKernel i;
  ki_user : forall i, 0 <= i < 768 -> W s (pd + 4 * i) = 0;
  ki_slots : forall i, 768 <= i < 1024 -> kslot (W s) own pd n t i;
  ki_pt : n mod 1024 <> 0 \/ n < t -> own !! pt = Some (RKernel (768 + n / 1024)) /\ W s (pd + 4 * (768 + n / 1024)) = pt - PB + 7;
}.

Lemma get_page_assert p x q :
  palloc_get_page (Z.lor PAL_ASSERT PAL_ZERO) p = Ok (x, q) -> palloc_get_page PAL_ZERO p = Ok (x, q) /\ x <> NULL.
Proof.
  unfold palloc_get_page, palloc_get_multiple. change (1 =? 0) with false. cbv iota.
  change (has_flag (Z.lor PAL_ASSERT PAL_ZERO) PAL_USER) with false. change (has_flag PAL_ZERO PAL_USER) with false.
  intros H. apply bind_Ok in H as ([b idx] & Hb & H). rewrite Hb. cbn [mbind res_bind]. revert H.
  set (pages := if negb (idx =? BITMAP_ERROR) then _ else _).
  destruct (Z.eqb_spec pages NULL) as [He|He]; cbn [negb]; [done|].
  change (has_flag (Z.lor PAL_ASSERT PAL_ZERO) PAL_ZERO) with true. change (has_flag PAL_ZERO PAL_ZERO) with true.
  intros H. split; [exact H|]. by injection H as <- _.
Qed.

Lemma kernel_entry page w :
  0 <= page < ram_pages -> pte_create_kernel (PB + 4096 * page) w = Ok (4096 * page + PTE_P + (if w then PTE_W else 0)).
Proof.
  intros Hp. change (2 ^ 18) with 262144 in Hram. unfold pte_create_kernel.
  rewrite bind_ASSERT by (rewrite pg_ofs_mod; apply Z.eqb_eq; zlia).
  rewrite vtop_ok by (rewrite phys_base; change (2 ^ 32) with 4294967296; lia). rewrite phys_base. cbn [mbind res_bind]. f_equal.
  replace (PB + 4096 * page - PB) with (4096 * page) by lia.
  rewrite <- Z.lor_assoc, lor_flags; [rewrite <- Z.add_assoc; by destruct w|zlia|by destruct w].
Qed.

Lemma kinv_page s own pd n t pt p r : kinv s own pd n t pt -> own !! p = Some r -> page_ok p.
Proof.
  intros Hk Hp. destruct (ki_pal _ _ _ _ _ _ Hk) as [_ Hr]. apply (alloc_page_ok _ _ Hr).
  apply (ki_alloc _ _ _ _ _ _ Hk). by exists r.
Qed.

(** A table for page [n], when its directory entry is empty. *)
Lemma kinv_table s own pd n pt kt q :
  kinv s own pd n n pt -> 0 <= n < ram_pages -> W s (pd + 4 * (768 + n / 1024)) = 0 ->
  palloc_get_page PAL_ZERO (vm_pal s) = Ok (kt, q) -> kt <> NULL ->
  page_ok kt /\
  kinv (put (pd + 4 * (768 + n / 1024)) (kt - PB + 7) (set_pal q s)) (<[kt := RKernel (768 + n / 1024)]> own) pd n (n + 1) kt.
Proof.
  intros Hk Hn Hz Hget Hx. change (2 ^ 18) with 262144 in Hram. set (i := 768 + n / 1024) in *.
  destruct (ki_pal _ _ _ _ _ _ Hk) as [Hpal Hr]. destruct (ki_roles _ _ _ _ _ _ Hk) as [Hb Hroles].
  pose proof (fun p r => kinv_page _ _ _ _ _ _ p r Hk) as Hown. pose proof (Hown _ _ Hb) as Hpd.
  destruct (get_page_ok PAL_ZERO (vm_pal s) Hpal Hr eq_refl) as (x & q' & Hget' & Hq & Hqr & Hmem & Hc).
  rewrite Hget in Hget'. injection Hget' as <- <-. destruct Hc as [[? _]|(Hkt & Hfree & Hal)]; [done|].
  rewrite (page_not_null kt Hkt) in Hmem. change (has_flag PAL_ZERO PAL_ZERO) with true in Hmem. cbn [negb andb] in Hmem.
  assert (own !! kt = None) as Hnew.
  { destruct (own !! kt) eqn:He; [|done]. destruct Hfree. apply (ki_alloc _ _ _ _ _ _ Hk). by eexists. }
  assert (kt <> pd) as Hne by congruence. assert (768 <= i < 1024) as Hi by (unfold i; zlia).
  pose proof (page_phys32 kt 7 Hkt ltac:(lia)) as H7. pose proof Hkt as (_ & Hktm & _). pose proof Hpd as (_ & Hpdm & _).
  set (s' := put (pd + 4 * i) (kt - PB + 7) (set_pal q s)).
  assert (forall p r k, own !! p = Some r -> 0 <= k < 1024 ->
    W s' (p + 4 * k) = if decide (p = pd /\ k = i) then kt - PB + 7 else W s (p + 4 * k)) as Hw.
  { intros p r k Hp Hk'. unfold s'. rewrite W_put by (try done; try lia; by eapply Hown).
    rewrite (W_set_pal_fill s q kt p k Hmem) by (try done; by eapply Hown). rewrite (decide_False (P := p = kt)) by congruence.
    destruct (Hown _ _ Hp) as (_ & Hpm & _). destruct (decide (p = pd /\ k = i)) as [[-> ->]|Hno]; [by rewrite decide_True|].
    rewrite decide_False; [done|]. intros He. apply Hno. destruct (word_same pd p i k) as [-> ->]; try done; lia. }
  assert (forall j, 0 <= j < 1024 -> W s' (kt + 4 * j) = 0) as Hw0.
  { intros j Hj. unfold s'. rewrite W_put by (try done; lia). rewrite (W_set_pal_fill s q kt kt j Hmem) by done.
    rewrite (decide_True (P := kt = kt)) by done. rewrite decide_False; [done|]. intros He.
    destruct (word_same pd kt i j) as [-> _]; try done; lia. }
  assert (n mod 1024 = 0) as Hmod.
  { destruct (ki_slots _ _ _ _ _ _ Hk i Hi) as [[_ Hle]|(_ & kt' & Hkt' & Hw' & _)]; [unfold i in Hle; zlia|].
    destruct (Hown _ _ Hkt') as (? & _). lia. }
  split; [done|].
  assert (forall p r, own !! p = Some r -> (<[kt := RKernel i]> own) !! p = Some r) as Hup.
  { intros p r Hp. rewrite lookup_insert_ne; [done|congruence]. }
  split; [done| | | | |].
  - intros p. assert (allocated (vm_pal s') p <-> allocated q p) as -> by apply (proj1 (proj2 (set_memory_same _ q))).
    rewrite Hal, (ki_alloc _ _ _ _ _ _ Hk), lookup_insert_is_Some'. naive_solver.
  - split; [by apply Hup|]. intros p r [[_ <-]|[_ Hp]]%lookup_insert_Some; [right; by eexists|by eapply Hroles].
  - intros k Hk'. rewrite (Hw pd RBase) by (done || lia). rewrite decide_False by lia. by apply (ki_user _ _ _ _ _ _ Hk).
  - intros k Hk'. unfold kslot. rewrite (Hw pd RBase) by (done || lia).
    destruct (ki_slots _ _ _ _ _ _ Hk k Hk') as [[H1 H2]|(Hlt & kt' & Hkt' & H1 & H2)].
    + destruct (decide (pd = pd /\ k = i)) as [[_ ->]|Hki]; [|left; split; [done|]; assert (k <> i) by tauto; unfold i in *; zlia].
      right. split; [unfold i; zlia|]. exists kt. rewrite lookup_insert_eq. split; [done|]. split; [done|].
      intros j Hj. rewrite Hw0 by done. unfold kword. rewrite (proj2 (Z.ltb_ge _ _)); [done|unfold i; zlia].
    + right. split; [lia|]. exists kt'. split; [by apply Hup|].
      rewrite decide_False by (intros [_ ->]; unfold i in Hlt; zlia). split; [done|].
      intros j Hj. rewrite (Hw kt' (RKernel k)) by done. rewrite decide_False by (intros [-> _]; congruence). by apply H2.
  - intros _. fold i. rewrite lookup_insert_eq, (Hw pd RBase) by (done || lia). by rewrite decide_True.
Qed.

(** Mapping page [n] in its table. *)
Lemma kinv_entry s own pd n kt :
  kinv s own pd n (n + 1) kt -> 0 <= n < ram_pages ->
  kinv (put (kt + 4 * (n mod 1024)) (4096 * n + PTE_P + (if negb (in_text n) then PTE_W else 0)) s) own pd (n + 1) (n + 1) kt.
Proof.
  intros Hk Hn. change (2 ^ 18) with 262144 in Hram. set (i := 768 + n / 1024).
  destruct (ki_roles _ _ _ _ _ _ Hk) as [Hb Hroles]. destruct (ki_pt _ _ _ _ _ _ Hk) as [Hkt Hwi]; [lia|]. fold i in Hkt, Hwi.
  pose proof (fun p r => kinv_page _ _ _ _ _ _ p r Hk) as Hown. assert (768 <= i < 1024) as Hi by (unfold i; zlia).
  set (w := 4096 * n + PTE_P + _). set (s' := put _ w s).
  assert (0 <= w < 2 ^ 32) as Hwr.
  { unfold w, PTE_P, PTE_W. change (2 ^ 32) with 4294967296. destruct (negb (in_text n)); lia. }
  assert (forall p r k, own !! p = Some r -> 0 <= k < 1024 ->
    W s' (p + 4 * k) = if decide (p = kt /\ k = n mod 1024) then w else W s (p + 4 * k)) as Hw.
  { intros p r k Hp Hk'. unfold s'. rewrite W_put by (try done; try (by eapply Hown); zlia).
    destruct (Hown _ _ Hp) as (_ & Hpm & _). destruct (Hown _ _ Hkt) as (_ & Hktm & _).
    destruct (decide (p = kt /\ k = n mod 1024)) as [[-> ->]|Hno]; [by rewrite decide_True|].
    rewrite decide_False; [done|]. intros He. apply Hno.
    destruct (word_same kt p (n mod 1024) k) as [-> ->]; try done; zlia. }
  assert (forall k, 0 <= k < 1024 -> W s' (pd + 4 * k) = W s (pd + 4 * k)) as Hwd.
  { intros k Hk'. rewrite (Hw pd RBase) by done. rewrite decide_False; [done|]. intros [-> _]. congruence. }
  split; [apply Hk|apply Hk|done| | |].
  - intros k Hk'. rewrite Hwd by lia. by apply (ki_user _ _ _ _ _ _ Hk).
  - intros k Hk'. unfold kslot. rewrite Hwd by lia.
    destruct (ki_slots _ _ _ _ _ _ Hk k Hk') as [[H1 H2]|(Hlt & kt' & Hkt' & H1 & H2)]; [by left|right].
    split; [done|]. exists kt'. split; [done|]. split; [done|]. intros j Hj. rewrite (Hw kt' (RKernel k)) by done.
    destruct (decide (kt' = kt /\ j = n mod 1024)) as [[-> ->]|Hno].
    + assert (k = i) as -> by congruence. unfold kword. replace (1024 * (i - 768) + n mod 1024) with n by (unfold i; zlia).
      rewrite (proj2 (Z.ltb_lt _ _)) by lia. unfold w. by destruct (in_text n).
    + rewrite H2 by done. unfold kword. destruct (Z.eq_dec (1024 * (k - 768) + j) n) as [He|He].
      * destruct Hno. assert (k = i) as -> by (unfold i; zlia). split; [lia|]. unfold i in He. zlia.
      * by destruct (Z.ltb_spec (1024 * (k - 768) + j) n), (Z.ltb_spec (1024 * (k - 768) + j) (n + 1)); try lia.
  - intros Hm. assert (n / 1024 = (n + 1) / 1024) as <- by zlia. fold i. by rewrite Hwd by lia.
Qed.

(** A page whose table is there already. *)
Lemma kinv_shared s own pd n pt :
  kinv s own pd n n pt -> 0 <= n < ram_pages -> W s (pd + 4 * (768 + n / 1024)) <> 0 -> kinv s own pd n (n + 1) pt.
Proof.
  intros Hk Hn Hnz. change (2 ^ 18) with 262144 in Hram. assert (n mod 1024 <> 0) as Hm.
  { destruct (ki_slots _ _ _ _ _ _ Hk (768 + n / 1024)) as [[Hz _]|(Hlt & _)]; [zlia|done|zlia]. }
  split; try apply Hk; [|intros _; by apply Hk; left].
  intros i Hi. destruct (ki_slots _ _ _ _ _ _ Hk i Hi) as [[Hz Hle]|(Hlt & Hr)]; [left; split; [done|zlia]|right; split; [lia|done]].
Qed.

Lemma map_kernel_ok n page pd pt s s' own :
  kinv s own pd page page pt -> 0 <= page -> page + Z.of_nat n = ram_pages ->
  map_kernel ram_pages kstart kend_text n page pd pt s = Ok (tt, s') ->
  exists own' pt', kinv s' own' pd ram_pages ram_pages pt' /\ s' = set_pal (vm_pal s') s.
Proof.
  revert page pt s own. induction n as [|n IH]; intros page pt s own Hk Hp0 Hn Hrun; cbn [map_kernel] in Hrun.
  { injection Hrun as <-. exists own, pt. replace page with ram_pages in Hk by lia. by destruct s. }
  change (2 ^ 18) with 262144 in Hram. change PGSIZE with 4096 in Hrun.
  rewrite u32_small in Hrun by (change (2 ^ 32) with 4294967296; lia).
  rewrite ptov_ok in Hrun by (change (2 ^ 30) with 1073741824; lia). rewrite phys_base in Hrun.
  erewrite bindM_step in Hrun by reflexivity. replace (page * 4096 + PB) with (PB + 4096 * page) in Hrun by lia.
  assert (pd_no (PB + 4096 * page) = 768 + page / 1024) as Hpd by (rewrite pd_no_arith; zlia).
  assert (pt_no (PB + 4096 * page) = page mod 1024) as Hpt by (rewrite pt_no_arith by lia; zlia).
  rewrite Hpd, Hpt in Hrun. change WORD with 4 in Hrun. fold (in_text page) in Hrun.
  set (i := 768 + page / 1024) in *. assert (768 <= i < 1024) as Hi by (unfold i; zlia).
  pose proof (ki_roles _ _ _ _ _ _ Hk) as [Hb _]. pose proof (kinv_page _ _ _ _ _ _ _ _ Hk Hb) as Hbok.
  erewrite bindM_step in Hrun by (apply load_page; [done|lia]).
  apply bindM_Ok in Hrun as (kt & s1 & Htab & Hrun).
  assert (exists own1, kinv s1 own1 pd page (page + 1) kt /\ s1 = set_pal (vm_pal s1) s) as (own1 & Hk1 & Hs1).
  { destruct (Z.eqb_spec (W s (pd + 4 * i)) 0) as [Hz|Hnz].
    - apply bindM_Ok in Htab as (x & s2 & Hget & Htab). unfold on_pal in Hget.
      apply bind_Ok in Hget as ([x' q] & Hget & [= <- <-]). apply get_page_assert in Hget as [Hget Hx].
      destruct (kinv_table s own pd page pt x' q Hk ltac:(lia) Hz Hget Hx) as ((Hx1 & Hx2 & Hx3) & Hk1).
      rewrite pde_create_arith in Htab by (rewrite ?phys_base; try done; change (2 ^ 32) with 4294967296; lia).
      rewrite phys_base in Htab. erewrite bindM_step in Htab by reflexivity.
      erewrite bindM_step in Htab by (apply store_page; [done|lia]). injection Htab as <- <-.
      exists (<[x' := RKernel i]> own). split; [done|by destruct s].
    - injection Htab as <- <-. exists own. split; [by apply kinv_shared; [|lia|]|by destruct s]. }
  rewrite kernel_entry in Hrun by lia. erewrite bindM_step in Hrun by reflexivity.
  destruct (ki_pt _ _ _ _ _ _ Hk1) as [Hkt _]; [lia|].
  erewrite bindM_step in Hrun; cycle 1.
  { apply store_page; [by eapply kinv_page|]. zlia. }
  destruct (IH _ _ _ _ (kinv_entry _ _ _ _ _ Hk1 ltac:(lia)) ltac:(lia) ltac:(lia) Hrun) as (own' & pt' & Hk' & Hs').
  exists own', pt'. split; [done|]. rewrite Hs', Hs1. by destruct s.
Qed.

Lemma paging_init_ok s s' :
  pal_ok (vm_pal s) -> pools_in_ram (vm_pal s) -> (forall p, ~ allocated (vm_pal s) p) ->
  paging_init ram_pages kstart kend_text s = Ok (tt, s') ->
  exists own, vm_inv (allocated (vm_pal s')) s' (mk_space ∅ ∅ None) own.
Proof.
  intros Hpal Hr Hnone Hrun. unfold paging_init in Hrun. apply bindM_Ok in Hrun as (pd & s1 & Hget & Hrun).
  unfold on_pal in Hget. apply bind_Ok in Hget as ([pd' q] & Hget & [= <- <-]). apply get_page_assert in Hget as [Hget Hpd0].
  destruct (get_page_ok PAL_ZERO (vm_pal s) Hpal Hr eq_refl) as (x & q' & Hget' & Hq & Hqr & Hmem & Hc).
  rewrite Hget in Hget'. injection Hget' as <- <-. destruct Hc as [[? _]|(Hpd & _ & Hal)]; [done|].
  rewrite (page_not_null pd' Hpd) in Hmem. change (has_flag PAL_ZERO PAL_ZERO) with true in Hmem. cbn [negb andb] in Hmem.
  erewrite bindM_step in Hrun by reflexivity. cbn [set_pal vm_pal cr3 tlb] in Hrun.
  set (s2 := mk_vm q pd' (cr3 s) (tlb s)) in *.
  apply bindM_Ok in Hrun as ([] & s3 & Hmap & Hrun).
  assert (forall k, 0 <= k < 1024 -> W s2 (pd' + 4 * k) = 0) as Hw.
  { intros k Hk. unfold W, s2. cbn [vm_pal]. rewrite Hmem. apply word_fill_in; lia. }
  destruct (map_kernel_ok (Z.to_nat ram_pages) 0 pd' NULL s2 s3 {[pd' := RBase]}) as (own & pt & Hk & Hs3); [|lia|lia|done|].
  { split; [done| | | | |].
    - intros p. cbn [vm_pal s2]. rewrite Hal, lookup_singleton_is_Some. split; [|by right].
      intros [Hp| ->]; [by destruct (Hnone p)|done].
    - rewrite lookup_singleton_eq. split; [done|]. intros p r [_ <-]%lookup_singleton_Some. by left.
    - intros i Hi. apply Hw. lia.
    - intros i Hi. left. rewrite Hw by lia. split; [done|lia].
    - intros [?|?]; [done|lia]. }
  destruct Hpd as (Hpd1 & Hpd2 & Hpd3). change (2 ^ 18) with 262144 in Hram.
  rewrite vtop_ok in Hrun by (rewrite phys_base; change (2 ^ 32) with 4294967296; lia). rewrite phys_base in Hrun.
  erewrite bindM_step in Hrun by reflexivity. injection Hrun as <-. exists own.
  assert (base_page_dir s3 = pd') as Hbase by (by rewrite Hs3). destruct (ki_roles _ _ _ _ _ _ Hk) as [Hb Hroles].
  split.
  - apply Hk.
  - cbn [set_cr3 base_page_dir dirs]. rewrite Hbase. split.
    + split; [done|]. apply Hk.
    + intros i Hi. destruct (ki_slots _ _ _ _ _ _ Hk i Hi) as [?|(_ & ?)]; [by left|by right].
    + intros d m Hd. by rewrite lookup_empty in Hd.
    + intros t d i Ht. by destruct (Hroles _ _ Ht) as [?|[? ?]].
  - split; intros p.
    + apply (ki_alloc _ _ _ _ _ _ Hk).
    + change (vm_pal (set_cr3 (pd' - PB) s3)) with (vm_pal s3). rewrite (ki_alloc _ _ _ _ _ _ Hk). split.
      * intros [r Hp]. destruct (Hroles _ _ Hp) as [->|[i ->]]; [by left|right; by exists i].
      * intros [Hp|[i Hp]]; by eexists.
    + intros Hp. by destruct (Hroles _ _ Hp) as [?|[? ?]].
    + intros d v. split; [intros Hp; by destruct (Hroles _ _ Hp) as [?|[? ?]]|].
      intros (m & e & Hm & _). cbn [dirs] in Hm. by rewrite lookup_empty in Hm.
    + cbn [held]. split; [intros Hp; by destruct (Hroles _ _ Hp) as [?|[? ?]]|set_solver].
  - intros d m v e Hd. cbn [dirs] in Hd. by rewrite lookup_empty in Hd.
  - split; [cbn [set_cr3 cr3 base_page_dir active default]; by rewrite Hbase|done].
  - apply tlb_ok_empty.
Qed.
End inv.
