(* ===== verification/PagedirSpec.v ===== *)
(** * The contract of userprog/pagedir.c

    [vm_exec] runs one operation of the kernel on page directories, or one
    memory access of a user program; [vm_next] and [vm_allowed] are the same
    operations on the maps of [PagedirInv].  The theorems follow any number of
    them from boot on. *)

From S2P Require Import Prelude Vaddr Bitmap Palloc Pagedir PagedirInv.

Inductive vm_op : Type :=
  | OCreate | ODestroy (pd : Z)
  | OSet (pd upage kpage : Z) (writable : bool) | OGet (pd uaddr : Z) | OClear (pd upage : Z)
  | OIsDirty (pd vpage : Z) | OSetDirty (pd vpage : Z) (b : bool)
  | OIsAccessed (pd vpage : Z) | OSetAccessed (pd vpage : Z) (b : bool)
  | OActivate (pd : Z)
  | OAlloc (flags : Z) | OFree (page : Z)
  | OAccess (vaddr : Z) (write : bool).

Inductive vm_ret : Type := RUnit | RAddr (p : Z) | RBool (b : bool) | RPhys (o : option Z).

Definition RAM_LIMIT : Z := 2 ^ 18.

Section spec.
Context (ram_pages kstart kend_text : Z).

Definition vm_exec (o : vm_op) : M vm vm_ret :=
  match o with
  | OCreate => pd ← pagedir_create ram_pages; mret (RAddr pd)
  | ODestroy pd => pagedir_destroy ram_pages pd ;; mret RUnit
  | OSet pd u k w => b ← pagedir_set_page ram_pages pd u k w; mret (RBool b)
  | OGet pd u => p ← pagedir_get_page ram_pages pd u; mret (RAddr p)
  | OClear pd u => pagedir_clear_page ram_pages pd u ;; mret RUnit
  | OIsDirty pd v => b ← pagedir_is_dirty ram_pages pd v; mret (RBool b)
  | OSetDirty pd v b => pagedir_set_dirty ram_pages pd v b ;; mret RUnit
  | OIsAccessed pd v => b ← pagedir_is_accessed ram_pages pd v; mret (RBool b)
  | OSetAccessed pd v b => pagedir_set_accessed ram_pages pd v b ;; mret RUnit
  | OActivate pd => pagedir_activate pd ;; mret RUnit
  | OAlloc flags => p ← on_pal (palloc_get_page flags); mret (RAddr p)
  | OFree p => on_pal (palloc_free_page p) ;; mret RUnit
  | OAccess va w => r ← user_access ram_pages va w; mret (RPhys r)
  end.

(** The entry of a virtual page. *)
Definition entry_of (a : space) (pd va : Z) : option entry := dirs a !! pd ≫= (.!! pg_no va).

(** What the callers guarantee: the directory exists, addresses are user
    addresses, a page to be mapped is a page of the client and the virtual page
    is free, the directory destroyed is not active. *)
Definition vm_op_ok (a : space) (o : vm_op) : Prop :=
  match o with
  | OCreate => True
  | ODestroy pd => is_Some (dirs a !! pd) /\ active a <> Some pd
  | OSet pd u k _ => is_Some (dirs a !! pd) /\ 0 <= u < PHYS_BASE /\ pg_ofs u = 0 /\ k ∈ held a /\
      here (entry_of a pd u) = false
  | OGet pd u | OIsDirty pd u | OIsAccessed pd u => is_Some (dirs a !! pd) /\ 0 <= u < PHYS_BASE
  | OClear pd u => is_Some (dirs a !! pd) /\ 0 <= u < PHYS_BASE /\ pg_ofs u = 0
  | OSetDirty pd u _ | OSetAccessed pd u _ => 0 <= u < PHYS_BASE /\ is_Some (entry_of a pd u)
  | OActivate pd => pd = NULL \/ is_Some (dirs a !! pd)
  | OAlloc flags => has_flag flags PAL_ASSERT = false
  | OFree p => p ∈ held a
  | OAccess va _ => 0 <= va < 2 ^ 32
  end.

Definition vm_allowed (a : space) (o : vm_op) (r : vm_ret) : Prop :=
  match o, r with
  | OCreate, RAddr pd => pd = NULL \/ dirs a !! pd = None
  | OSet _ _ _ _, RBool _ => True
  | OGet pd u, RAddr p =>
      p = match entry_of a pd u with Some e => if present e then frame e + pg_ofs u else NULL | None => NULL end
  | OIsDirty pd u, RBool b => b = match entry_of a pd u with Some e => dirty e | None => false end
  | OIsAccessed pd u, RBool b => b = match entry_of a pd u with Some e => accessed e | None => false end
  | OAlloc _, RAddr p => p = NULL \/ p ∉ held a
  | OAccess va w, RPhys o => o = fst (access_spec a va w)
  | (ODestroy _ | OClear _ _ | OSetDirty _ _ _ | OSetAccessed _ _ _ | OActivate _ | OFree _), RUnit => True
  | _, _ => False
  end.

(** Change the entry of [va], if there is one, and the pages of the client. *)
Definition update (f : entry -> entry) (h : gset Z) (a : space) (pd va : Z) : space :=
  match dirs a !! pd with
  | Some m => match m !! pg_no va with Some e => upd pd m (pg_no va) (f e) h a | None => a end
  | None => a
  end.

Definition vm_next (a : space) (o : vm_op) (r : vm_ret) : space :=
  match o, r with
  | OCreate, RAddr pd => if pd =? NULL then a else mk_space (<[pd := ∅]> (dirs a)) (held a) (active a)
  | ODestroy pd, _ => mk_space (delete pd (dirs a)) (held a) (active a)
  | OSet pd u k w, RBool true =>
      match dirs a !! pd with
      | Some m => upd pd m (pg_no u) (mk_entry k true w false false) (held a ∖ {[k]}) a
      | None => a
      end
  | OClear pd u, _ =>
      match entry_of a pd u with
      | Some e => if present e then update (set_present false) ({[frame e]} ∪ held a) a pd u else a
      | None => a
      end
  | OSetDirty pd u b, _ => update (set_dirt b) (held a) a pd u
  | OSetAccessed pd u b, _ => update (set_acc b) (held a) a pd u
  | OActivate pd, _ => mk_space (dirs a) (held a) (if pd =? NULL then None else Some pd)
  | OAlloc _, RAddr p => if p =? NULL then a else mk_space (dirs a) ({[p]} ∪ held a) (active a)
  | OFree p, _ => mk_space (dirs a) (held a ∖ {[p]}) (active a)
  | OAccess va w, _ => snd (access_spec a va w)
  | _, _ => a
  end.

Context (Hram : 0 <= ram_pages < RAM_LIMIT).

Lemma vm_step fixed s a own o :
  vm_inv ram_pages kstart kend_text fixed s a own -> vm_op_ok a o ->
  exists r s' own', vm_exec o s = Ok (r, s') /\ vm_allowed a o r /\
    vm_inv ram_pages kstart kend_text fixed s' (vm_next a o r) own'.
Proof.
  intros Hi Hok. destruct o as [|pd|pd u k w|pd u|pd u|pd u|pd u b|pd u|pd u b|pd|flags|p|va w]; cbn [vm_op_ok] in Hok;
    unfold entry_of in *; rewrite ?phys_base, ?pg_ofs_mod in Hok.
  - destruct (create_spec _ _ _ Hram _ _ _ _ Hi) as (pd & s' & own' & He & Hc).
    exists (RAddr pd), s', own'. split; [cbn [vm_exec]; by rewrite (bindM_step _ _ _ _ _ He)|].
    cbn [vm_allowed vm_next]. destruct Hc as [[-> ?]|[Hn Hi']]; [split; [by left|done]|]. split; [by right|].
    destruct (Z.eqb_spec pd NULL) as [->|]; [|done]. exfalso.
    destruct (mi_user _ _ _ _ _ _ _ (vi_mem _ _ _ _ _ _ _ Hi') NULL ∅) as (Hod & _); [by cbn; rewrite lookup_insert_eq|].
    destruct (own_page_ok _ _ _ _ _ _ _ _ _ Hi' Hod) as (? & _). unfold NULL in *. lia.
  - destruct Hok as [[m Hd] Hna]. destruct (destroy_spec _ _ _ Hram _ _ _ _ _ _ Hi Hd Hna) as (s' & He & Hi').
    exists RUnit, s'. eexists. split; [cbn [vm_exec]; by rewrite (bindM_step _ _ _ _ _ He)|]. split; [done|exact Hi'].
  - destruct Hok as ([m Hd] & Hu & Hal & Hk & Hh). rewrite Hd in Hh.
    destruct (set_page_spec _ _ _ Hram _ _ _ _ _ _ _ _ w Hi Hd Hu Hal Hk Hh) as (b & s' & own' & He & Hi').
    exists (RBool b), s', own'. split; [cbn [vm_exec]; by rewrite (bindM_step _ _ _ _ _ He)|]. split; [done|].
    cbn [vm_next]. destruct b; [by rewrite Hd|done].
  - destruct Hok as ([m Hd] & Hu). pose proof (get_page_spec _ _ _ Hram _ _ _ _ _ _ _ Hi Hd Hu) as He.
    eexists (RAddr _), s, own. split; [cbn [vm_exec]; by rewrite (bindM_step _ _ _ _ _ He)|].
    cbn [vm_allowed vm_next]. unfold entry_of. by rewrite Hd.
  - destruct Hok as ([m Hd] & Hu & Hal). destruct (clear_page_spec _ _ _ Hram _ _ _ _ _ _ _ Hi Hd Hu Hal) as (s' & own' & He & Hi').
    exists RUnit, s', own'. split; [cbn [vm_exec]; by rewrite (bindM_step _ _ _ _ _ He)|]. split; [done|].
    cbn [vm_next]. unfold entry_of, update. rewrite Hd. cbn [mbind option_bind]. destruct (m !! pg_no u) as [e|]; [|done].
    by destruct (present e).
  - destruct Hok as ([m Hd] & Hu). pose proof (is_dirty_spec _ _ _ Hram _ _ _ _ _ _ _ Hi Hd Hu) as He.
    eexists (RBool _), s, own. split; [cbn [vm_exec]; by rewrite (bindM_step _ _ _ _ _ He)|].
    cbn [vm_allowed vm_next]. unfold entry_of. by rewrite Hd.
  - destruct Hok as (Hu & e & He). destruct (dirs a !! pd) as [m|] eqn:Hd; [|done]. cbn [mbind option_bind] in He.
    destruct (set_dirty_spec _ _ _ Hram _ _ _ _ _ _ _ b e Hi Hd Hu He) as (s' & Hx & Hi').
    exists RUnit, s', own. split; [cbn [vm_exec]; by rewrite (bindM_step _ _ _ _ _ Hx)|]. split; [done|].
    cbn [vm_next]. unfold update. by rewrite Hd, He.
  - destruct Hok as ([m Hd] & Hu). pose proof (is_accessed_spec _ _ _ Hram _ _ _ _ _ _ _ Hi Hd Hu) as He.
    eexists (RBool _), s, own. split; [cbn [vm_exec]; by rewrite (bindM_step _ _ _ _ _ He)|].
    cbn [vm_allowed vm_next]. unfold entry_of. by rewrite Hd.
  - destruct Hok as (Hu & e & He). destruct (dirs a !! pd) as [m|] eqn:Hd; [|done]. cbn [mbind option_bind] in He.
    destruct (set_accessed_spec _ _ _ Hram _ _ _ _ _ _ _ b e Hi Hd Hu He) as (s' & Hx & Hi').
    exists RUnit, s', own. split; [cbn [vm_exec]; by rewrite (bindM_step _ _ _ _ _ Hx)|]. split; [done|].
    cbn [vm_next]. unfold update. by rewrite Hd, He.
  - destruct (activate_spec _ _ _ Hram _ _ _ _ pd Hi Hok) as (s' & He & Hi').
    exists RUnit, s', own. split; [cbn [vm_exec]; by rewrite (bindM_step _ _ _ _ _ He)|]. by split.
  - destruct (hold_spec _ _ _ Hram _ _ _ _ flags Hi Hok) as (p & s' & own' & He & Hc).
    exists (RAddr p), s', own'. split; [cbn [vm_exec]; by rewrite (bindM_step _ _ _ _ _ He)|].
    cbn [vm_allowed vm_next]. destruct Hc as [[-> ?]|[Hn Hi']]; [split; [by left|done]|]. split; [by right|].
    destruct (Z.eqb_spec p NULL) as [->|]; [|done]. exfalso.
    assert (own' !! NULL = Some RHeld) as Hh by (apply (oi_held _ _ _ _ (vi_own _ _ _ _ _ _ _ Hi')); cbn; set_solver).
    destruct (own_page_ok _ _ _ _ _ _ _ _ _ Hi' Hh) as (? & _). unfold NULL in *. lia.
  - destruct (release_spec _ _ _ Hram _ _ _ _ p Hi Hok) as (s' & He & Hi').
    exists RUnit, s'. eexists. split; [cbn [vm_exec]; by rewrite (bindM_step _ _ _ _ _ He)|]. split; [done|exact Hi'].
  - destruct (access_ok _ _ _ Hram _ _ _ _ va w Hi Hok) as (s' & He & Hi').
    eexists (RPhys _), s', own. split; [cbn [vm_exec]; by rewrite (bindM_step _ _ _ _ _ He)|]. by split.
Qed.

(** ** From boot on *)

(** The page allocator as palloc_init leaves it. *)
Definition pal_booted (p : pal) : Prop :=
  exists kend limit kjunk ujunk m,
    PHYS_BASE <= kend < 2 ^ 32 - 4096 /\ pg_round_up kend <= PHYS_BASE + 4096 * ram_pages /\ 0 <= limit /\
    junk_ok ram_pages kjunk /\ junk_ok ram_pages ujunk /\ palloc_init kend ram_pages limit kjunk ujunk m = Ok p.

(** [reached s0 s a]: paging_init left [s0], and operations within their
    preconditions led from there to [s], described by [a]. *)
Inductive reached : vm -> vm -> space -> Prop :=
  | reached_boot p b c t s :
      pal_booted p -> paging_init ram_pages kstart kend_text (mk_vm p b c t) = Ok (tt, s) ->
      reached s s (mk_space ∅ ∅ None)
  | reached_step s0 s a o r s' :
      reached s0 s a -> vm_op_ok a o -> vm_exec o s = Ok (r, s') -> reached s0 s' (vm_next a o r).

Lemma booted_pools p : pal_booted p -> pal_ok p /\ pools_in_ram ram_pages p /\ forall x, ~ allocated p x.
Proof.
  intros (kend & limit & kj & uj & m & Hk & Hfit & Hl & Hkj & Huj & Hinit).
  destruct (palloc_init_ok kend ram_pages limit kj uj m p) as (Hp & Hb & Ht & Hn);
    [lia|done|lia|lia|lia|done|done|done|]. split; [done|]. split; [|done].
  intros u i x Hg. pose proof (group_bounds _ _ _ _ _ Hp Hg) as (_ & Hm & _). destruct Hg as (Hi & _ & Hn' & Hx).
  destruct Hp as (Hpk & Hpu & Hd). unfold disjoint_pools in *. pose proof (pool_cnt _ Hpk). pose proof (pool_cnt _ Hpu).
  rewrite phys_base in *. unfold page_ok. split_and!; [|done|]; destruct u; simpl in *; lia.
Qed.

Lemma reached_inv s0 s a :
  reached s0 s a -> exists own, vm_inv ram_pages kstart kend_text (allocated (vm_pal s0)) s a own.
Proof.
  induction 1 as [p b c t s Hp Hrun|s0 s a o r s' _ [own Hi] Hok Hex].
  - destruct (booted_pools p Hp) as (H1 & H2 & H3). by apply (paging_init_ok _ _ _ Hram (mk_vm p b c t)).
  - destruct (vm_step _ _ _ _ _ Hi Hok) as (r' & s1 & own' & Hex' & _ & Hi'). rewrite Hex in Hex'.
    injection Hex' as <- <-. by exists own'.
Qed.

(** C20. Page directories refine maps of virtual pages.  In every state reached
    from boot by creating and destroying directories, mapping, unmapping and
    querying pages, switching directories, allocating and freeing pages, and
    by user programs reading and writing memory, each of these operations
    succeeds and returns what the maps say: an access goes to the frame mapped
    there with the permission it was given, or faults, however much of the
    translation is buffered; a new directory or page is one not in use. *)
Theorem pagedir_refines_map (s0 s : vm) (a : space) (o : vm_op) :
  reached s0 s a -> vm_op_ok a o ->
  exists r s', vm_exec o s = Ok (r, s') /\ vm_allowed a o r /\ reached s0 s' (vm_next a o r).
Proof.
  intros Hr Hok. destruct (reached_inv _ _ _ Hr) as [own Hi].
  destruct (vm_step _ _ _ _ _ Hi Hok) as (r & s' & _ & Hex & Hal & _). exists r, s'.
  split; [done|]. split; [done|]. by eapply reached_step.
Qed.


(** The processor's translation of an address for the kernel: the physical
    address and whether it may be written. *)
Definition kernel_view (s : vm) (pd va : Z) : option (Z * bool) :=
  let d := word_at (memory (vm_pal s)) (pd + WORD * pd_no va) in
  if has d PTE_P then
    let w := word_at (memory (vm_pal s)) (Z.land d PTE_ADDR + PHYS_BASE + WORD * pt_no va) in
    if has w PTE_P then Some (Z.land w PTE_ADDR + pg_ofs va, has d PTE_W && has w PTE_W) else None
  else None.

(** In every reached state, the base directory and every directory created
    since map all of RAM at [PHYS_BASE], read-only exactly on the pages of the
    kernel's code. *)
Theorem kernel_always_mapped (s0 s : vm) (a : space) (pd va : Z) :
  reached s0 s a -> pd = base_page_dir s \/ is_Some (dirs a !! pd) ->
  PHYS_BASE <= va < PHYS_BASE + PGSIZE * ram_pages ->
  kernel_view s pd va =
    Some (va - PHYS_BASE, negb ((kstart <=? pg_round_down va) && (pg_round_down va <? kend_text))).
Proof.
  intros Hr Hpd Hva. destruct (reached_inv _ _ _ Hr) as [own Hi]. pose proof (vi_mem _ _ _ _ _ _ _ Hi) as Hm.
  unfold RAM_LIMIT in Hram. change (2 ^ 18) with 262144 in Hram. change PGSIZE with 4096 in Hva. rewrite phys_base in *.
  set (k := (va - 3221225472) / 4096). assert (0 <= k < ram_pages) as Hk by (unfold k; zlia).
  assert (pd_no va = 768 + k / 1024 /\ pt_no va = k mod 1024 /\ pg_ofs va = va - 3221225472 - 4096 * k) as (Hi0 & Hj0 & Ho0).
  { rewrite pd_no_arith, pt_no_arith, pg_ofs_mod by lia. unfold k. zlia. }
  assert (768 <= pd_no va < 1024 /\ 0 <= pt_no va < 1024) as [Hir Hjr] by (rewrite Hi0, Hj0; zlia).
  assert (pg_round_down va = 3221225472 + 4096 * k) as ->.
  { rewrite pg_round_down_arith by (change (2 ^ 32) with 4294967296; lia). unfold k. zlia. }
  unfold kernel_view. change WORD with 4. rewrite phys_base.
  assert (word_at (memory (vm_pal s)) (pd + 4 * pd_no va) = W s (base_page_dir s + 4 * pd_no va)) as ->.
  { destruct Hpd as [->|[m Hd]]; [done|]. destruct (mi_user _ _ _ _ _ _ _ Hm pd m Hd) as (_ & _ & Hx). by apply Hx. }
  destruct (mi_kernel _ _ _ _ _ _ _ Hm (pd_no va) Hir) as [[_ Hle]|(pt & Hpt & -> & Hw)]; [rewrite Hi0 in Hle; zlia|].
  pose proof (own_page_ok _ _ _ _ _ _ _ _ _ Hi Hpt) as Hok.
  destruct (pde_bits ram_pages ltac:(split; lia) pt 0 Hok (or_introl eq_refl)) as (_ & Hp & Hwr & _ & Ha & _). rewrite Z.add_0_r in *.
  cbv zeta. rewrite Hp, Hwr, Ha. replace (pt - 3221225472 + 3221225472 + 4 * pt_no va) with (pt + 4 * pt_no va) by lia.
  change (word_at (memory (vm_pal s)) (pt + 4 * pt_no va)) with (W s (pt + 4 * pt_no va)). rewrite Hw by done.
  replace (1024 * (pd_no va - 768) + pt_no va) with k by (rewrite Hi0, Hj0; zlia).
  unfold kernel_word. rewrite (proj2 (Z.ltb_lt k ram_pages)) by lia. fold (in_text kstart kend_text k).
  rewrite <- (Z.add_assoc (4096 * k)). unfold has.
  assert (forall b : bool, 0 <= PTE_P + (if b then 0 else PTE_W) < 4096) as Hfl by (by intros []).
  rewrite (land_flags (4096 * k) _ PTE_P), (land_flags (4096 * k) _ PTE_W) by (try done; zlia).
  rewrite land_addr by (try done; try (change (2 ^ 32) with 4294967296; lia); zlia).
  rewrite Ho0. replace (4096 * k + (va - 3221225472 - 4096 * k)) with (va - 3221225472) by lia.
  by destruct (in_text kstart kend_text k).
Qed.
End spec.

(** ** A machine with 48 pages of RAM *)

Definition demo_pal : res pal :=
  palloc_init 0xc0004000 48 1000 (replicate 2 0) (replicate 2 0) (fun _ => 0).
Definition demo_boot : vm :=
  match demo_pal with
  | Ok p => match paging_init 48 0xc0001000 0xc0003000 (mk_vm p 0 0 ∅) with Ok (_, s) => s | Fail _ => mk_vm p 0 0 ∅ end
  | Fail _ => mk_vm (mk_pal (mk_pool (mk_bitmap 0 []) 0) (mk_pool (mk_bitmap 0 []) 0) (fun _ => 0)) 0 0 ∅
  end.

Lemma demo_boots :
  match demo_pal with
  | Ok p => match paging_init 48 0xc0001000 0xc0003000 (mk_vm p 0 0 ∅) with Ok _ => true | _ => false end
  | _ => false end = true.
Proof. vm_compute. reflexivity. Qed.

Lemma demo_pal_booted p : demo_pal = Ok p -> pal_booted 48 p.
Proof.
  intros Hp. assert (junk_ok 48 (replicate 2 0)) as Hj by (clear; split; [cbn; lia|by apply Forall_replicate]).
  exists 0xc0004000, 1000, (replicate 2 0), (replicate 2 0), (fun _ => 0).
  split; [clear; rewrite phys_base; lia|]. split; [clear; vm_compute; discriminate|]. split; [clear; lia|].
  exact (conj Hj (conj Hj Hp)).
Qed.

Lemma demo_reached : reached 48 0xc0001000 0xc0003000 demo_boot demo_boot (mk_space ∅ ∅ None).
Proof.
  pose proof demo_boots as Hok. unfold demo_boot. destruct demo_pal as [p|e] eqn:Hp; [|discriminate Hok].
  apply demo_pal_booted in Hp.
  destruct (paging_init _ _ _ _) as [[[] s]|e] eqn:Hs; [|discriminate Hok].
  exact (reached_boot 48 0xc0001000 0xc0003000 p 0 0 ∅ s Hp Hs).
Qed.

Lemma pagedir_refines_map_witness :
  exists r s', vm_exec 48 OCreate demo_boot = Ok (r, s') /\ vm_allowed (mk_space ∅ ∅ None) OCreate r /\
    reached 48 0xc0001000 0xc0003000 demo_boot s' (vm_next (mk_space ∅ ∅ None) OCreate r).
Proof. by apply (pagedir_refines_map 48 0xc0001000 0xc0003000); [|apply demo_reached|]. Defined.


Lemma kernel_always_mapped_witness : kernel_view demo_boot (base_page_dir demo_boot) 0xc0002345 = Some (0x2345, false).
Proof.
  apply (kernel_always_mapped 48 0xc0001000 0xc0003000 ltac:(done) demo_boot demo_boot (mk_space ∅ ∅ None));
    [apply demo_reached|by left|done].
Defined.

(** A run: a page is mapped, written, found dirty, removed and mapped again;
    the accesses in between fault, and the directory is destroyed at the end. *)
Fixpoint demo_run (os : list vm_op) (s : vm) : res (list vm_ret) :=
  match os with
  | [] => Ok []
  | o :: os => '(r, s) ← vm_exec 48 o s; rs ← demo_run os s; Ok (r :: rs)
  end.

Example demo_results :
  match demo_run [OCreate; OAlloc PAL_USER; OActivate 0xc0007000; OAccess 0x8048123 true;
    OSet 0xc0007000 0x8048000 0xc001b000 true; OAccess 0x8048123 false; OIsDirty 0xc0007000 0x8048000;
    OAccess 0x8048123 true; OIsDirty 0xc0007000 0x8048000; OGet 0xc0007000 0x8048fff;
    OClear 0xc0007000 0x8048000; OAccess 0x8048123 false; OGet 0xc0007000 0x8048000;
    OAccess 0xc0002000 false; OActivate 0; ODestroy 0xc0007000] demo_boot with
  | Ok rs => rs
  | Fail _ => [] end =
  [RAddr 0xc0007000; RAddr 0xc001b000; RUnit; RPhys None; RBool true; RPhys (Some 0x1b123); RBool false;
   RPhys (Some 0x1b123); RBool true; RAddr 0xc001bfff; RUnit; RPhys None; RAddr 0; RPhys None; RUnit; RUnit].
Proof. vm_compute. reflexivity. Qed.
