(* ===== verification/UserSpace.v ===== *)
(** * The memory of user programs

    What the pages of a process hold, on top of the maps of [PagedirInv]: the
    operations of userprog/pagedir.c change no byte of a page that belongs to
    a user program, and a byte written through the page tables of one process
    changes that byte and no other, of this or of any other process. *)

From S2P Require Import Prelude Vaddr Mem Bitmap Palloc Pagedir PagedirInv PagedirSpec Args.

#[local] Abbreviation PB := 3221225472.

(** One byte of RAM. *)
Definition byte_at (s : vm) (p : Z) : Z := memory (vm_pal s) p.
Definition put_byte (p b : Z) (s : vm) : vm := set_mem (fun x => if x =? p then b else memory (vm_pal s) x) s.

Section user.
Context (ram_pages kstart kend_text : Z).
Hypothesis Hram : 0 <= ram_pages < 2 ^ 18.
#[local] Abbreviation page_ok := (page_ok ram_pages).
#[local] Abbreviation vm_inv := (vm_inv ram_pages kstart kend_text).
Implicit Types (s : vm) (a : space) (own : gmap Z role) (m : gmap Z entry).

(** ** Accesses through the page tables

    An access of a user program, or of the kernel on its behalf, to a byte:
    entries of user pages permit the kernel what they permit the program.  A
    page fault ends the thread. *)
Definition user_load (va : Z) : M vm Z :=
  o ← user_access ram_pages va false;
  match o with Some p => gets (fun s => byte_at s (p + PHYS_BASE)) | None => fail ThreadExits end.

Definition user_store (va b : Z) : M vm unit :=
  o ← user_access ram_pages va true;
  match o with Some p => modify (put_byte (p + PHYS_BASE) (u8 b)) | None => fail ThreadExits end.

(** ** Data pages *)

(** The contents of pages that are not part of the page tables. *)
Definition data_same own s s' : Prop :=
  forall p r k, own !! p = Some r -> ~ is_meta r -> 0 <= k < 4096 -> byte_at s' (p + k) = byte_at s (p + k).

Lemma data_refl own s : data_same own s s.
Proof. by intros p r k. Qed.

Lemma data_trans own s1 s2 s3 : data_same own s1 s2 -> data_same own s2 s3 -> data_same own s1 s3.
Proof. intros H1 H2 p r k Hp Hr Hk. by rewrite (H2 p r), (H1 p r). Qed.

Lemma data_sub own own' s s' :
  (forall p r, own' !! p = Some r -> ~ is_meta r -> exists r', own !! p = Some r' /\ ~ is_meta r') ->
  data_same own s s' -> data_same own' s s'.
Proof. intros Hs Hd p r k Hp Hr Hk. destruct (Hs p r Hp Hr) as (r' & Hp' & Hr'). by apply (Hd p r'). Qed.

(** Writing an entry of a table. *)
Lemma data_put fixed s a own P r k v :
  vm_inv fixed s a own -> own !! P = Some r -> is_meta r -> 0 <= k < 1024 -> data_same own s (put (P + 4 * k) v s).
Proof.
  intros Hi HP Hr Hk p q j Hp Hq Hj. unfold byte_at, put, set_mem, set_pal, set_memory, put_word. cbn [vm_pal memory].
  pose proof (own_page_ok _ _ _ _ _ _ _ _ _ Hi HP) as (_ & HPm & _).
  pose proof (own_page_ok _ _ _ _ _ _ _ _ _ Hi Hp) as (_ & Hpm & _).
  assert (p <> P) by (intros ->; naive_solver). zcases. zlia.
Qed.

Lemma load32_readonly p : readonly (load32 ram_pages p).
Proof. intros s x s'. unfold load32. case_match; [|done]. by intros [= _ <-]. Qed.

Lemma store32_inv p v s u s' : store32 ram_pages p v s = Ok (u, s') -> s' = put p v s.
Proof. unfold store32. case_match; [|done]. by intros [= _ <-]. Qed.

(** Obtaining a page: it is new; the others keep their contents. *)
Lemma get_page_data fixed s a own flags p s' :
  vm_inv fixed s a own -> has_flag flags PAL_ASSERT = false -> on_pal (palloc_get_page flags) s = Ok (p, s') ->
  data_same own s s' /\ (p <> NULL -> page_ok p /\ own !! p = None /\
    (has_flag flags PAL_ZERO = true -> forall k, 0 <= k < 4096 -> byte_at s' (p + k) = 0)).
Proof.
  intros Hi Hf Hr. destruct (vi_pal _ _ _ _ _ _ _ Hi) as [Hp Hpr].
  destruct (get_page_ok ram_pages flags (vm_pal s) Hp Hpr Hf) as (x & q & Hg & _ & _ & Hmem & Hc).
  rewrite (on_pal_step _ _ _ _ Hg) in Hr. injection Hr as <- <-. unfold data_same, byte_at. cbn [set_pal vm_pal].
  rewrite Hmem. destruct Hc as [[-> _]|(Hx & Hnew & _)]; [done|].
  apply (own_fresh _ _ _ _ _ _ _ _ Hi) in Hnew. rewrite (page_not_null _ _ Hx). cbn [negb andb].
  pose proof Hx as (_ & Hxm & _). split.
  - intros y r k Hy Hr Hk. destruct (has_flag flags PAL_ZERO); [|done]. unfold fill.
    pose proof (own_page_ok _ _ _ _ _ _ _ _ _ Hi Hy) as (_ & Hym & _). assert (y <> x) by congruence. zcases. zlia.
  - intros _. split; [done|]. split; [done|]. intros ->. intros k Hk. unfold fill. zcases.
Qed.

(** ** The operations of pagedir.c keep the contents of data pages *)

Lemma ensure_data fixed s a own pd m i c b s' :
  vm_inv fixed s a own -> dirs a !! pd = Some m -> 0 <= i < 768 ->
  ensure_table ram_pages (pd + 4 * i) c s = Ok (b, s') -> data_same own s s'.
Proof.
  intros Hi Hd Hi0 Hr. destruct (mi_user _ _ _ _ _ _ _ (vi_mem _ _ _ _ _ _ _ Hi) pd m Hd) as (Hod & _).
  unfold ensure_table in Hr. apply bindM_Ok in Hr as (w & s1 & ->%load32_readonly & Hr).
  destruct (w =? 0); [|injection Hr as _ <-; apply data_refl]. destruct c; [|injection Hr as _ <-; apply data_refl].
  apply bindM_Ok in Hr as (pt & s1 & Hg & Hr).
  destruct (get_page_data fixed s a own PAL_ZERO pt s1 Hi eq_refl Hg) as [Hd1 _].
  destruct (pt =? NULL); [injection Hr as _ <-; done|].
  apply bindM_Ok in Hr as (x & s2 & ->%readonly_lift & Hr). apply bindM_Ok in Hr as ([] & s3 & Hst & Hr).
  injection Hr as _ <-. apply store32_inv in Hst as ->. eapply data_trans; [exact Hd1|].
  intros p r k Hp Hrm Hk. unfold byte_at, put, set_mem, set_pal, set_memory, put_word. cbn [vm_pal memory].
  pose proof (own_page_ok _ _ _ _ _ _ _ _ _ Hi Hod) as (_ & HPm & _).
  pose proof (own_page_ok _ _ _ _ _ _ _ _ _ Hi Hp) as (_ & Hpm & _).
  assert (p <> pd) by (intros ->; rewrite Hod in Hp; injection Hp as <-; by apply Hrm). zcases. zlia.
Qed.

Lemma lookup_data fixed s a own pd m va c p s' :
  vm_inv fixed s a own -> dirs a !! pd = Some m -> 0 <= va < PB ->
  lookup_page ram_pages pd va c s = Ok (p, s') -> data_same own s s'.
Proof.
  intros Hi Hd Hva Hr. unfold lookup_page in Hr. apply bindM_Ok in Hr as ([] & s1 & ->%readonly_assert & Hr).
  apply bindM_Ok in Hr as ([] & s1 & ->%readonly_assert & Hr). cbv zeta in Hr. apply bindM_Ok in Hr as (ok & s1 & He & Hr).
  destruct (user_index ram_pages Hram va Hva) as (Hi0 & _). apply (ensure_data _ _ _ _ _ _ _ _ _ _ Hi Hd Hi0) in He as Hds.
  destruct ok; [|injection Hr as _ <-; done]. apply bindM_Ok in Hr as (w & s2 & ->%load32_readonly & Hr).
  apply bindM_Ok in Hr as (pt & s2 & ->%readonly_lift & Hr). injection Hr as _ <-. done.
Qed.

Lemma set_page_data fixed s a own pd m va f w b s' :
  vm_inv fixed s a own -> dirs a !! pd = Some m -> 0 <= va < PB ->
  pagedir_set_page ram_pages pd va f w s = Ok (b, s') -> data_same own s s'.
Proof.
  intros Hi Hd Hva Hr. unfold pagedir_set_page in Hr. do 3 apply bindM_Ok in Hr as ([] & ? & ->%readonly_assert & Hr).
  apply bindM_Ok in Hr as (ph & ? & ->%readonly_lift & Hr). apply bindM_Ok in Hr as ([] & ? & ->%readonly_assert & Hr).
  apply bindM_Ok in Hr as (bs & ? & ->%readonly_gets & Hr). apply bindM_Ok in Hr as ([] & ? & ->%readonly_assert & Hr).
  apply bindM_Ok in Hr as (p & s1 & Hl & Hr). pose proof (lookup_data _ _ _ _ _ _ _ _ _ _ Hi Hd Hva Hl) as Hd1.
  destruct (lookup_create _ _ _ Hram _ _ _ _ _ _ _ Hi Hd Hva) as (p' & s1' & own1 & Hl' & Hi1 & _ & Hup & Hc).
  rewrite Hl in Hl'. injection Hl' as <- <-. destruct Hc as [->|[Hp Hat]]; [injection Hr as _ <-; done|].
  rewrite Hp in Hr. cbn [negb] in Hr. apply bindM_Ok in Hr as (w0 & ? & ->%load32_readonly & Hr).
  apply bindM_Ok in Hr as ([] & ? & ->%readonly_assert & Hr). apply bindM_Ok in Hr as (x & ? & ->%readonly_lift & Hr).
  apply bindM_Ok in Hr as ([] & s2 & ->%store32_inv & Hr). injection Hr as _ <-.
  destruct Hat as (pt & Hpt & -> & Hj). eapply data_trans; [exact Hd1|].
  eapply data_sub; [|eapply (data_put fixed s1 a own1 pt); [exact Hi1|exact Hpt|exact I|exact Hj]].
  intros q r Hq Hrm. exists r. split; [by apply Hup|done].
Qed.

Lemma create_data fixed s a own pd s' :
  vm_inv fixed s a own -> pagedir_create ram_pages s = Ok (pd, s') -> data_same own s s'.
Proof.
  intros Hi Hr. unfold pagedir_create in Hr. apply bindM_Ok in Hr as (p & s1 & Hg & Hr).
  destruct (get_page_data fixed s a own 0 p s1 Hi eq_refl Hg) as [Hd1 Hn].
  destruct (Z.eqb_spec p NULL); cbn [negb] in Hr; [injection Hr as _ <-; done|].
  apply bindM_Ok in Hr as (b & ? & ->%readonly_gets & Hr). apply bindM_Ok in Hr as ([] & s2 & Hc & Hr). injection Hr as _ <-.
  unfold memcpy in Hc. destruct (_ && _); [|done]. injection Hc as <-. eapply data_trans; [exact Hd1|].
  destruct Hn as ((_ & Hpm & _) & Hnew & _); [done|].
  intros q r k Hq Hrm Hk. unfold byte_at, set_mem, set_pal, set_memory, copy_bytes. cbn [vm_pal memory].
  pose proof (own_page_ok _ _ _ _ _ _ _ _ _ Hi Hq) as (_ & Hqm & _). assert (q <> p) by congruence.
  change PGSIZE with 4096. zcases. zlia.
Qed.

(** ** Accesses *)

Lemma walk_data fixed s a own va write o s' :
  vm_inv fixed s a own -> 0 <= va < PB -> walk ram_pages va write s = Ok (o, s') -> data_same own s s'.
Proof.
  intros Hi Hva Hr. destruct (user_index ram_pages Hram va Hva) as (Hi0 & Hj0 & _ & _).
  destruct (active a) as [pd|] eqn:Ha.
  2: { rewrite (walk_base _ _ _ Hram fixed s a own) in Hr by done. injection Hr as _ <-. apply data_refl. }
  destruct (vi_active _ _ _ _ _ _ _ Hi) as [_ Hact]. destruct (Hact pd Ha) as [m Hd].
  rewrite (walk_start _ _ _ s a fixed own va write _ Hi eq_refl) in Hr by lia.
  assert (act_dir s a = pd) as E by (unfold act_dir; by rewrite Ha). rewrite E in Hr. clear E.
  destruct (mi_user _ _ _ _ _ _ _ (vi_mem _ _ _ _ _ _ _ Hi) pd m Hd) as (Hod & Hu & _).
  destruct (Hu _ Hi0) as [[Hz _]|(pt & x & Hpt & Hx & Hxx & _)].
  { rewrite Hz in Hr. rewrite user_may_0 in Hr. injection Hr as _ <-. apply data_refl. }
  destruct (user_may _ write); [|injection Hr as _ <-; apply data_refl]. cbv zeta in Hr.
  apply bindM_Ok in Hr as (w & ? & ->%load32_readonly & Hr).
  destruct (user_may w write); [|injection Hr as _ <-; apply data_refl].
  apply bindM_Ok in Hr as ([] & s1 & ->%store32_inv & Hr). apply bindM_Ok in Hr as ([] & s2 & ->%store32_inv & Hr).
  apply bindM_Ok in Hr as ([] & s3 & Hmod & Hr). injection Hmod as <-. injection Hr as _ <-.
  pose proof (own_page_ok _ _ _ _ _ _ _ _ _ Hi Hpt) as Hok.
  destruct (pde_bits ram_pages Hram pt x Hok Hxx) as (_ & _ & _ & _ & Haddr & _). rewrite Hx, Haddr, phys_base.
  replace (pt - PB + PB + WORD * pt_no va) with (pt + 4 * pt_no va) by (change WORD with 4; lia).
  destruct (pde_store _ _ _ Hram fixed s a own pd m (pd_no va) pt Hi Hd Hpt) as [_ Hi1].
  pose proof (data_put fixed s a own pd RDir (pd_no va) (Z.lor (pt - PB + 7 + x) PTE_A) Hi Hod I ltac:(lia)) as D1.
  eapply data_trans; [exact D1|].
  intros q r k Hq Hrm Hk. unfold byte_at, put, set_tlb, set_mem, set_pal, set_memory, put_word. cbn [vm_pal memory].
  destruct Hok as (_ & Hptm & _). pose proof (own_page_ok _ _ _ _ _ _ _ _ _ Hi Hq) as (_ & Hqm & _).
  assert (q <> pt) by (intros ->; rewrite Hpt in Hq; injection Hq as <-; by apply Hrm). zcases; try done; zlia.
Qed.

Lemma access_data fixed s a own va write o s' :
  vm_inv fixed s a own -> 0 <= va < PB -> user_access ram_pages va write s = Ok (o, s') -> data_same own s s'.
Proof.
  intros Hi Hva Hr. unfold user_access in Hr. apply bindM_Ok in Hr as (t & ? & ->%readonly_gets & Hr).
  destruct (t !! pg_no va) as [w|]; [|by eapply walk_data].
  destruct (negb write || has w PTE_D); [|by eapply walk_data].
  destruct (user_may w write); injection Hr as _ <-; apply data_refl.
Qed.

(** ** Bytes of a process *)

(** The byte at [va] in the address space of [pd]. *)
Definition view s a (pd va : Z) : option Z :=
  match dirs a !! pd ≫= (.!! pg_no va) with
  | Some e => if present e then Some (byte_at s (frame e + pg_ofs va)) else None
  | None => None
  end.

(** Writing a byte of a data page. *)
Lemma put_byte_inv fixed s a own p r k b :
  vm_inv fixed s a own -> own !! p = Some r -> ~ is_meta r -> 0 <= k < 4096 ->
  vm_inv fixed (put_byte (p + k) b s) a own.
Proof.
  intros Hi Hp Hr Hk. pose proof (own_page_ok _ _ _ _ _ _ _ _ _ Hi Hp) as (_ & Hpm & _).
  split; try apply Hi.
  eapply mem_inv_same; [apply Hi| |done]. intros q r' j Hq Hm Hj.
  pose proof (own_page_ok _ _ _ _ _ _ _ _ _ Hi Hq) as (_ & Hqm & _).
  assert (q <> p) by (intros ->; rewrite Hp in Hq; injection Hq as <-; by apply Hr).
  unfold W, word_at, put_byte, set_mem, set_pal, set_memory. cbn [vm_pal memory].
  rewrite !(proj2 (Z.eqb_neq _ (p + k))) by zlia. done.
Qed.

(** The frame of a present page is that of no other. *)
Lemma frame_role fixed s a own pd m v e :
  vm_inv fixed s a own -> dirs a !! pd = Some m -> m !! v = Some e -> present e = true ->
  own !! frame e = Some (RFrame pd v).
Proof. intros Hi Hd He Hp. apply (oi_frames _ _ _ _ (vi_own _ _ _ _ _ _ _ Hi)). by exists m, e. Qed.

(** Accesses do not move pages. *)
Lemma view_access s s' a own fixed va write pd va' :
  vm_inv fixed s a own -> data_same own s s' ->
  view s' (snd (access_spec a va write)) pd va' = view s a pd va'.
Proof.
  intros Hi Hds. assert (forall d m v e, dirs a !! d = Some m -> m !! v = Some e -> present e = true ->
    byte_at s' (frame e + pg_ofs va') = byte_at s (frame e + pg_ofs va')) as Hb.
  { intros d m v e Hd He Hp. apply (Hds _ (RFrame d v)); [by eapply frame_role|by intros []|].
    rewrite pg_ofs_mod. zlia. }
  assert (view s' a pd va' = view s a pd va') as Hsame.
  { unfold view. destruct (dirs a !! pd) as [m|] eqn:Hd; [|done]. cbn [mbind option_bind].
    destruct (m !! pg_no va') as [e|] eqn:He; [|done]. destruct (present e) eqn:Hp; [|done]. by rewrite (Hb pd m (pg_no va') e). }
  unfold access_spec. destruct (active a) as [d|]; [|done]. destruct (dirs a !! d) as [m|] eqn:Hd; [|done].
  destruct (m !! pg_no va) as [e|] eqn:He; [|done]. destruct (may e write); [|done]. cbn [snd]. rewrite <- Hsame.
  unfold view, upd. cbn [dirs]. destruct (decide (pd = d)) as [->|Hne]; [|by rewrite lookup_insert_ne].
  rewrite lookup_insert_eq, Hd. cbn [mbind option_bind]. destruct (decide (pg_no va' = pg_no va)) as [->|Hv].
  - rewrite lookup_insert_eq, He. done.
  - by rewrite lookup_insert_ne.
Qed.

(** The page that holds the byte at [va]. *)
Lemma view_put fixed s a own pd m e va b pd' va' :
  vm_inv fixed s a own -> dirs a !! pd = Some m -> m !! pg_no va = Some e -> present e = true ->
  0 <= va -> 0 <= va' ->
  view (put_byte (frame e + pg_ofs va) b s) a pd' va' =
  if decide (pd' = pd /\ va' = va) then Some b else view s a pd' va'.
Proof.
  intros Hi Hd He Hp Hva Hva'. pose proof (frame_role _ _ _ _ _ _ _ _ Hi Hd He Hp) as Ho.
  pose proof (own_page_ok _ _ _ _ _ _ _ _ _ Hi Ho) as (_ & Hfm & _).
  unfold view. destruct (dirs a !! pd') as [m'|] eqn:Hd'; cbn [mbind option_bind]; [|rewrite decide_False; [done|]; intros [-> _]; congruence].
  destruct (m' !! pg_no va') as [e'|] eqn:He'; [|rewrite decide_False; [done|]; intros [-> ->]; congruence].
  destruct (present e') eqn:Hp'; [|rewrite decide_False; [done|]; intros [-> ->]; congruence].
  pose proof (frame_role _ _ _ _ _ _ _ _ Hi Hd' He' Hp') as Ho'. pose proof (own_page_ok _ _ _ _ _ _ _ _ _ Hi Ho') as (_ & Hfm' & _).
  unfold byte_at, put_byte, set_mem, set_pal, set_memory. cbn [vm_pal memory].
  rewrite !pg_ofs_mod. destruct (Z.eqb_spec (frame e' + va' mod 4096) (frame e + va mod 4096)) as [Heq|Hneq].
  - assert (frame e' = frame e /\ va' mod 4096 = va mod 4096) as [Hf Hofs] by zlia.
    rewrite Hf, Ho in Ho'. injection Ho' as <- Hpg. rewrite decide_True; [done|]. split; [done|].
    rewrite !pg_no_div in Hpg. zlia.
  - rewrite decide_False; [done|]. intros [-> ->]. apply Hneq. congruence.
Qed.

Lemma user_store_ok fixed s a own va b :
  vm_inv fixed s a own -> 0 <= va < PB -> is_byte b ->
  match access_spec a va true with
  | (Some _, a') => exists s', user_store va b s = Ok (tt, s') /\ vm_inv fixed s' a' own /\
      forall pd va', 0 <= va' -> view s' a' pd va' =
        if decide (active a = Some pd /\ va' = va) then Some b else view s a pd va'
  | (None, _) => user_store va b s = Fail ThreadExits
  end.
Proof.
  intros Hi Hva Hb. destruct (access_ok _ _ _ Hram fixed s a own va true Hi) as (s1 & Hr & Hi1); [change (2 ^ 32) with 4294967296; lia|].
  pose proof (access_data _ _ _ _ _ _ _ _ Hi Hva Hr) as Hds. unfold user_store. rewrite (bindM_step _ _ _ _ _ Hr).
  pose proof (view_access s s1 a own fixed va true) as Hview. unfold access_spec in *.
  destruct (active a) as [pd|] eqn:Ha; [|done]. destruct (dirs a !! pd) as [m|] eqn:Hd; [|done].
  destruct (m !! pg_no va) as [e|] eqn:He; [|done]. destruct (may e true) eqn:Hm; [|done]. cbn [fst snd] in *.
  assert (present e = true) as Hp by (unfold may in Hm; by apply andb_true_iff in Hm as [? _]).
  set (a1 := upd pd m (pg_no va) (touch e true) (held a) a) in *.
  assert (dirs a1 !! pd = Some (<[pg_no va := touch e true]> m)) as Hd1 by (unfold a1, upd; cbn [dirs]; by rewrite lookup_insert_eq).
  assert ((<[pg_no va := touch e true]> m) !! pg_no va = Some (touch e true)) as He1 by (by rewrite lookup_insert_eq).
  eexists. split; [reflexivity|]. rewrite phys_base.
  replace (frame e - PB + pg_ofs va + PB) with (frame (touch e true) + pg_ofs va) by (cbn; lia).
  replace (u8 b) with b by (unfold u8; rewrite Z.mod_small; [done|exact Hb]). split.
  - eapply put_byte_inv; [exact Hi1|exact (frame_role _ _ _ _ _ _ _ _ Hi1 Hd1 He1 Hp)|by intros []|rewrite pg_ofs_mod; zlia].
  - intros pd' va' Hva'. rewrite (view_put fixed s1 a1 own pd _ (touch e true)) by (done || lia).
    destruct (decide (pd' = pd /\ va' = va)) as [[-> ->]|Hne]; [by rewrite decide_True|].
    rewrite decide_False by naive_solver. by apply Hview.
Qed.

Lemma user_load_ok fixed s a own va :
  vm_inv fixed s a own -> 0 <= va < PB ->
  match access_spec a va false with
  | (Some _, a') => exists x s', user_load va s = Ok (x, s') /\ vm_inv fixed s' a' own /\
      (active a ≫= fun pd => view s a pd va) = Some x /\
      forall pd va', view s' a' pd va' = view s a pd va'
  | (None, _) => user_load va s = Fail ThreadExits
  end.
Proof.
  intros Hi Hva. destruct (access_ok _ _ _ Hram fixed s a own va false Hi) as (s1 & Hr & Hi1); [change (2 ^ 32) with 4294967296; lia|].
  pose proof (access_data _ _ _ _ _ _ _ _ Hi Hva Hr) as Hds. unfold user_load. rewrite (bindM_step _ _ _ _ _ Hr).
  pose proof (fun pd va' => view_access s s1 a own fixed va false pd va' Hi Hds) as Hview. unfold access_spec in *.
  destruct (active a) as [pd|] eqn:Ha; [|done]. destruct (dirs a !! pd) as [m|] eqn:Hd; [|done].
  destruct (m !! pg_no va) as [e|] eqn:He; [|done]. destruct (may e false) eqn:Hm; [|done]. cbn [fst snd] in *.
  assert (present e = true) as Hp by (unfold may in Hm; by apply andb_true_iff in Hm as [? _]).
  eexists _, _. split; [reflexivity|]. split; [exact Hi1|]. split; [|exact Hview].
  cbn [mbind option_bind]. unfold view. rewrite Hd. cbn [mbind option_bind]. rewrite He, Hp. f_equal.
  rewrite phys_base. replace (frame e - PB + pg_ofs va + PB) with (frame e + pg_ofs va) by lia. symmetry.
  apply (Hds _ (RFrame pd (pg_no va))); [exact (frame_role _ _ _ _ _ _ _ _ Hi Hd He Hp)|by intros []|rewrite pg_ofs_mod; zlia].
Qed.

(** ** The pages of the active process as a byte memory *)

(** The byte at [va], if the access to it would succeed: what the tables say,
    without the effects of an access. *)
Definition peek_as (write : bool) (s : vm) (va : Z) : option Z :=
  if (0 <=? va) && (va <? PHYS_BASE) then
    let d := W s (cr3 s + PHYS_BASE + 4 * pd_no va) in
    if user_may d write then
      let w := W s (Z.land d PTE_ADDR + PHYS_BASE + 4 * pt_no va) in
      if user_may w write then Some (byte_at s (Z.land w PTE_ADDR + PHYS_BASE + pg_ofs va)) else None
    else None
  else None.
Definition peek : vm -> Z -> option Z := peek_as true.

(** Where the active process may read, or write. *)
Definition may_access a (va : Z) (write : bool) : bool :=
  match active a with
  | Some pd => match dirs a !! pd ≫= (.!! pg_no va) with Some e => may e write | None => false end
  | None => false
  end.

Lemma peek_view fixed s a own write va :
  vm_inv fixed s a own -> 0 <= va < PB ->
  peek_as write s va = if may_access a va write then active a ≫= fun pd => view s a pd va else None.
Proof.
  intros Hi Hva. unfold peek_as, may_access. rewrite (proj2 (Z.leb_le _ _)), phys_base, (proj2 (Z.ltb_lt _ _)) by lia. cbn [andb]. cbv zeta.
  destruct (user_index ram_pages Hram va Hva) as (Hi0 & Hj0 & Hno & _). destruct (act_dir_ok _ _ _ _ _ _ _ Hi) as [_ Hcr].
  rewrite Hcr. replace (act_dir s a - PB + PB) with (act_dir s a) by lia. unfold act_dir in *.
  destruct (active a) as [pd|] eqn:Ha; cbn [default id mbind option_bind].
  2: { destruct (mi_base _ _ _ _ _ _ _ (vi_mem _ _ _ _ _ _ _ Hi)) as (_ & Hz). rewrite Hz by done. by destruct write. }
  destruct (vi_active _ _ _ _ _ _ _ Hi) as [_ Hact]. destruct (Hact pd Ha) as [m Hd]. unfold view. rewrite Hd. cbn [mbind option_bind].
  destruct (mi_user _ _ _ _ _ _ _ (vi_mem _ _ _ _ _ _ _ Hi) pd m Hd) as (_ & Hu & _).
  destruct (Hu _ Hi0) as [[-> Hn]|(pt & x & Hpt & Hx & Hxx & Hw)]; [rewrite Hno, Hn by done; by destruct write|].
  pose proof (own_page_ok _ _ _ _ _ _ _ _ _ Hi Hpt) as Hok.
  destruct (pde_bits ram_pages Hram pt x Hok Hxx) as (_ & Hp & Hwr & Hus & Haddr & _). rewrite Hx.
  assert (user_may (pt - PB + 7 + x) write = true) as -> by (unfold user_may; rewrite Hp, Hwr, Hus; by destruct write).
  rewrite Haddr. replace (pt - PB + PB + 4 * pt_no va) with (pt + 4 * pt_no va) by lia. rewrite Hw, <- Hno by done.
  destruct (m !! pg_no va) as [e|] eqn:He; [|done]. pose proof (entry_in_range _ _ _ _ _ _ _ _ _ _ _ Hi Hd He) as Heok.
  rewrite (pte_may ram_pages Hram) by done. destruct (may e write) eqn:Hm; [|done].
  assert (present e = true) as -> by (unfold may in Hm; by apply andb_true_iff in Hm as [? _]).
  rewrite (pte_addr ram_pages Hram) by done. do 2 f_equal. lia.
Qed.

Definition vm_user : UserMem vm := {|
  um_ok s := exists fixed a own, vm_inv fixed s a own;
  um_get := peek;
  um_store := user_store;
|}.

Lemma may_access_after a va write va' w : may_access (snd (access_spec a va write)) va' w = may_access a va' w.
Proof.
  unfold access_spec. destruct (active a) as [pd|] eqn:Ha; [|done]. destruct (dirs a !! pd) as [m|] eqn:Hd; [|done].
  destruct (m !! pg_no va) as [e|] eqn:He; [|done]. destruct (may e write); [|done]. cbn [snd]. unfold may_access, upd.
  cbn [active dirs]. rewrite Ha, lookup_insert_eq, Hd. cbn [mbind option_bind].
  destruct (decide (pg_no va' = pg_no va)) as [->|Hne].
  - by rewrite lookup_insert_eq, He.
  - by rewrite lookup_insert_ne.
Qed.

Lemma access_active a va write : active (snd (access_spec a va write)) = active a.
Proof. unfold access_spec. repeat case_match; done. Qed.

Lemma may_access_spec a va write : may_access a va write = true -> exists p, access_spec a va write = (Some p, snd (access_spec a va write)).
Proof.
  unfold may_access, access_spec. destruct (active a) as [pd|]; [|done]. destruct (dirs a !! pd) as [m|]; [|done]. cbn [mbind option_bind].
  destruct (m !! pg_no va) as [e|]; [|done]. intros ->. by eexists.
Qed.

Lemma peek_range w s va x : peek_as w s va = Some x -> 0 <= va < PB.
Proof.
  unfold peek_as. rewrite phys_base. destruct (Z.leb_spec 0 va), (Z.ltb_spec va PB); done.
Qed.

Lemma vm_user_laws : UserMemLaws vm (H := vm_user).
Proof.
  split. cbn [um_ok um_get um_store vm_user]. intros s va b x (f & a & own & Hi) Hx Hb.
  pose proof (peek_range _ _ _ _ Hx) as Hva. unfold peek in *. rewrite (peek_view f s a own true va Hi Hva) in Hx.
  destruct (may_access a va true) eqn:Hmw; [|done]. destruct (may_access_spec a va true Hmw) as [p E].
  pose proof (user_store_ok f s a own va b Hi Hva Hb) as Hst. rewrite E in Hst. destruct Hst as (s' & Hs & Hi' & Hv).
  exists s'. split; [done|]. split; [by eexists _, _, _|]. intros va'.
  destruct (decide (0 <= va' < PB)) as [Hr'|Hr'].
  - rewrite (peek_view _ s' _ own true va' Hi' Hr'), (peek_view _ s a own true va' Hi Hr'), may_access_after, access_active.
    destruct (Z.eqb_spec va' va) as [->|Hne].
    + rewrite Hmw. destruct (active a) as [pd|] eqn:Ha; [|done]. cbn [mbind option_bind]. rewrite Hv, decide_True by (done || lia). done.
    + destruct (may_access a va' true); [|done]. destruct (active a) as [pd|] eqn:Ha; [|done]. cbn [mbind option_bind].
      rewrite Hv, decide_False by (lia || naive_solver). done.
  - destruct (Z.eqb_spec va' va) as [->|Hne]; [done|]. unfold peek_as. rewrite phys_base.
    destruct (Z.leb_spec 0 va'), (Z.ltb_spec va' PB); done || lia.
Qed.

(** ** From boot on *)

(** [running s a]: operations on page directories within their preconditions,
    and bytes read and written by user programs, lead from boot to [s]. *)
Inductive running : vm -> space -> Prop :=
  | running_boot p b c t s :
      pal_booted ram_pages p -> paging_init ram_pages kstart kend_text (mk_vm p b c t) = Ok (tt, s) ->
      running s (mk_space ∅ ∅ None)
  | running_op s a o r s' :
      running s a -> vm_op_ok a o -> vm_exec ram_pages o s = Ok (r, s') -> running s' (vm_next a o r)
  | running_load s a va x s' :
      running s a -> 0 <= va < PHYS_BASE -> user_load va s = Ok (x, s') -> running s' (snd (access_spec a va false))
  | running_store s a va b s' :
      running s a -> 0 <= va < PHYS_BASE -> is_byte b -> user_store va b s = Ok (tt, s') ->
      running s' (snd (access_spec a va true)).

Lemma running_inv s a : running s a -> exists fixed own, vm_inv fixed s a own.
Proof.
  induction 1 as [p b c t s Hp Hrun|s a o r s' _ (f & own & Hi) Hok Hex|s a va x s' _ (f & own & Hi) Hva Hex
                 |s a va b s' _ (f & own & Hi) Hva Hb Hex].
  - eexists. apply (reached_inv ram_pages kstart kend_text Hram s s). by eapply reached_boot.
  - destruct (vm_step _ _ _ Hram _ _ _ _ _ Hi Hok) as (r' & s1 & own' & Hex' & _ & Hi'). rewrite Hex in Hex'.
    injection Hex' as <- <-. by exists f, own'.
  - rewrite phys_base in Hva. pose proof (user_load_ok f s a own va Hi Hva) as Hl.
    destruct (access_spec a va false) as [[q|] a']; [|congruence]. destruct Hl as (y & s1 & Hl & Hi' & _).
    rewrite Hex in Hl. injection Hl as <- <-. by exists f, own.
  - rewrite phys_base in Hva. pose proof (user_store_ok f s a own va b Hi Hva Hb) as Hl.
    destruct (access_spec a va true) as [[q|] a']; [|congruence]. destruct Hl as (s1 & Hl & Hi' & _).
    rewrite Hex in Hl. injection Hl as <-. by exists f, own.
Qed.

(** C25. Processes are isolated: in every state reached from boot by operations
    on page directories and by memory accesses of user programs, a program that
    writes a byte at one of its addresses either faults or changes that byte
    of its own address space and no byte of any address space otherwise; a
    program that reads a byte faults or gets what is there. *)
Theorem user_memory_isolated (s : vm) (a : space) (va b : Z) :
  running s a -> 0 <= va < PHYS_BASE -> is_byte b ->
  (user_store va b s = Fail ThreadExits \/
   exists s' a', user_store va b s = Ok (tt, s') /\ running s' a' /\
     forall pd va', 0 <= va' ->
       view s' a' pd va' = if decide (active a = Some pd /\ va' = va) then Some b else view s a pd va') /\
  (user_load va s = Fail ThreadExits \/
   exists x s' a', user_load va s = Ok (x, s') /\ running s' a' /\ (active a ≫= fun pd => view s a pd va) = Some x /\
     forall pd va', view s' a' pd va' = view s a pd va').
Proof.
  intros Hr Hva Hb. destruct (running_inv s a Hr) as (f & own & Hi). pose proof Hva as Hva'. rewrite phys_base in Hva'.
  pose proof (user_store_ok f s a own va b Hi Hva' Hb) as Hst. pose proof (user_load_ok f s a own va Hi Hva') as Hld. split.
  - destruct (access_spec a va true) as [[q|] a'] eqn:E; [right|by left]. destruct Hst as (s' & Hs & _ & Hv).
    exists s', a'. split; [done|]. split; [|done]. replace a' with (snd (access_spec a va true)) by (by rewrite E).
    by eapply running_store.
  - destruct (access_spec a va false) as [[q|] a'] eqn:E; [right|by left]. destruct Hld as (x & s' & Hs & _ & Hx & Hv).
    exists x, s', a'. split; [done|]. split; [|done]. replace a' with (snd (access_spec a va false)) by (by rewrite E).
    by eapply running_load.
Qed.
End user.

(** ** Two processes on the machine with 48 pages *)

Lemma demo_running : running 48 0xc0001000 0xc0003000 demo_boot (mk_space ∅ ∅ None).
Proof.
  pose proof demo_boots as Hok. unfold demo_boot. destruct demo_pal as [p|e] eqn:Hp; [|discriminate Hok].
  apply demo_pal_booted in Hp.
  destruct (paging_init _ _ _ _) as [[[] s]|e] eqn:Hs; [|discriminate Hok].
  exact (running_boot 48 0xc0001000 0xc0003000 p 0 0 ∅ s Hp Hs).
Qed.

Lemma user_memory_isolated_witness :
  (user_store 48 4096 7 demo_boot = Fail ThreadExits \/
   exists s' a', user_store 48 4096 7 demo_boot = Ok (tt, s') /\ running 48 0xc0001000 0xc0003000 s' a' /\
     forall pd va', 0 <= va' -> view s' a' pd va' =
       if decide (active (mk_space ∅ ∅ None) = Some pd /\ va' = 4096) then Some 7 else view demo_boot (mk_space ∅ ∅ None) pd va') /\
  (user_load 48 4096 demo_boot = Fail ThreadExits \/
   exists x s' a', user_load 48 4096 demo_boot = Ok (x, s') /\ running 48 0xc0001000 0xc0003000 s' a' /\
     (active (mk_space ∅ ∅ None) ≫= fun pd => view demo_boot (mk_space ∅ ∅ None) pd 4096) = Some x /\
     forall pd va', view s' a' pd va' = view demo_boot (mk_space ∅ ∅ None) pd va').
Proof.
  apply (user_memory_isolated 48 0xc0001000 0xc0003000 ltac:(done) demo_boot (mk_space ∅ ∅ None) 4096 7);
    [exact demo_running|done|by split].
Defined.

(** Each of two programs writes to the same address of its own. *)
Example two_processes :
  (pd1 ← pagedir_create 48; pd2 ← pagedir_create 48;
   f1 ← on_pal (palloc_get_page PAL_USER); f2 ← on_pal (palloc_get_page PAL_USER);
   _ ← pagedir_set_page 48 pd1 0x8000000 f1 true; _ ← pagedir_set_page 48 pd2 0x8000000 f2 true;
   _ ← pagedir_activate pd1; _ ← user_store 48 0x8000010 1;
   _ ← pagedir_activate pd2; _ ← user_store 48 0x8000010 2;
   _ ← pagedir_activate pd1; x ← user_load 48 0x8000010; _ ← pagedir_activate pd2; y ← user_load 48 0x8000010;
   mret (x, y)) demo_boot ≫= (fun r => Ok (fst r)) = Ok (1, 2).
Proof. vm_compute. reflexivity. Qed.
