(* ===== verification/Files.v ===== *)
(** * What user programs need of the file system

    The interface between the process code (userprog/process.c, syscall.c, the
    page loader of vm/page.c) and the file system calls of filesys/filesys.c
    and file.c: the calls, and what their callers rely on.  A file is known by
    the address of its [struct file]; [fl_file f p] is its data and position,
    while it is open.  Files do not grow.  [fl_write p n src] writes at most
    [n] bytes; [src i] is the [i]-th byte of the buffer, and [None] if reading
    it faults.  The byte counts are [off_t]s: negative ones transfer nothing. *)

From S2P Require Import Prelude Vaddr Mem.

Class Files (F : Type) : Type := {
  fl_open : list Z -> M F Z;
  fl_create : list Z -> Z -> M F bool;
  fl_close : Z -> M F unit;
  fl_read : Z -> Z -> M F (list Z);
  fl_write : Z -> Z -> (Z -> option Z) -> M F Z;
  fl_read_at : Z -> Z -> Z -> M F (list Z);
  fl_write_at : Z -> Z -> Z -> (Z -> option Z) -> M F Z;
  fl_length : Z -> M F Z;
  fl_seek : Z -> Z -> M F unit;
  fl_ok : F -> Prop;
  fl_file : F -> Z -> option (list Z * Z);
}.

(** The largest file: [off_t] is a signed word. *)
Definition FILE_MAX : Z := 2 ^ 31.

(** [n] bytes of a file from [pos] on, or as many as there are. *)
Definition slice (d : list Z) (pos n : Z) : list Z := take (Z.to_nat n) (drop (Z.to_nat pos) d).

(** The first [n] bytes of a source. *)
Fixpoint fetch (n : nat) (src : Z -> option Z) : option (list Z) :=
  match n with
  | O => Some []
  | S n => b ← src 0; bs ← fetch n (fun i => src (i + 1)); Some (b :: bs)
  end.

(** The other files are as they were. *)
Definition others_same {F} `{Files F} (p : Z) (f f' : F) : Prop :=
  forall q, q <> p -> fl_file f' q = fl_file f q.

Class FilesLaws (F : Type) `{Files F} : Prop := {
  fl_file_ok f p d pos : fl_ok f -> fl_file f p = Some (d, pos) ->
    p <> NULL /\ Forall is_byte d /\ Z.of_nat (length d) < FILE_MAX /\ 0 <= pos;
  fl_open_ok f name : fl_ok f ->
    exists p f', fl_open name f = Ok (p, f') /\ fl_ok f' /\
      (p = NULL /\ (forall q, fl_file f' q = fl_file f q) \/
       fl_file f p = None /\ (exists d, fl_file f' p = Some (d, 0)) /\ others_same p f f');
  fl_read_ok f p d pos n : fl_ok f -> fl_file f p = Some (d, pos) -> n < FILE_MAX ->
    exists f', fl_read p n f = Ok (slice d pos n, f') /\ fl_ok f' /\
      fl_file f' p = Some (d, pos + Z.of_nat (length (slice d pos n))) /\ others_same p f f';
  fl_read_at_ok f p d pos n ofs : fl_ok f -> fl_file f p = Some (d, pos) -> 0 <= ofs < FILE_MAX -> 0 <= n < FILE_MAX ->
    exists f', fl_read_at p n ofs f = Ok (slice d ofs n, f') /\ fl_ok f' /\ forall q, fl_file f' q = fl_file f q;
  fl_length_ok f p d pos : fl_ok f -> fl_file f p = Some (d, pos) ->
    fl_length p f = Ok (Z.of_nat (length d), f);
  fl_seek_ok f p d pos n : fl_ok f -> fl_file f p = Some (d, pos) -> 0 <= n < FILE_MAX ->
    exists f', fl_seek p n f = Ok (tt, f') /\ fl_ok f' /\ fl_file f' p = Some (d, n) /\ others_same p f f';
  fl_close_ok f p d pos : fl_ok f -> fl_file f p = Some (d, pos) ->
    exists f', fl_close p f = Ok (tt, f') /\ fl_ok f' /\ fl_file f' p = None /\ others_same p f f';
  fl_write_ok f p d pos n src : fl_ok f -> fl_file f p = Some (d, pos) -> n < FILE_MAX ->
    (forall i, 0 <= i < n -> exists b, src i = Some b /\ is_byte b) ->
    exists bs f', fl_write p n src f = Ok (Z.of_nat (length bs), f') /\ fl_ok f' /\
      Z.of_nat (length bs) <= Z.max 0 n /\ fetch (length bs) src = Some bs /\
      fl_file f' p = Some (list_inserts (Z.to_nat pos) bs d, pos + Z.of_nat (length bs)) /\
      (forall q, is_Some (fl_file f' q) <-> is_Some (fl_file f q));
  fl_create_ok f name n : fl_ok f ->
    exists b f', fl_create name n f = Ok (b, f') /\ fl_ok f' /\ forall q, fl_file f' q = fl_file f q;
}.

(** ** Files that are lists of bytes

    An instance for concrete runs: a directory of named contents of fixed size,
    and the open files. *)
Record ramfs : Type := mk_ramfs {
  rf_names : list (list Z * nat);          (* name, index of the contents *)
  rf_data : list (list Z);
  rf_open : gmap Z (nat * Z);              (* address: index of the contents, position *)
}.

Definition rf_file (f : ramfs) (p : Z) : option (list Z * Z) :=
  '(i, pos) ← rf_open f !! p; d ← rf_data f !! i; Some (d, pos).

Definition rf_find (f : ramfs) (name : list Z) : option nat :=
  snd <$> List.find (fun e => bool_decide (fst e = name)) (rf_names f).

Definition rf_set_open (f : ramfs) (o : gmap Z (nat * Z)) : ramfs := mk_ramfs (rf_names f) (rf_data f) o.

(** Runs [k] on the contents and the position of an open file. *)
Definition rf_with {X} (p : Z) (k : nat -> list Z -> Z -> M ramfs X) : M ramfs X := fun f =>
  match rf_open f !! p with
  | Some (i, pos) => match rf_data f !! i with Some d => k i d pos f | None => Fail BadAccess end
  | None => Fail BadAccess
  end.

Definition rf_write_at (i : nat) (d : list Z) (n ofs : Z) (src : Z -> option Z) : M ramfs Z := fun f =>
  match fetch (Nat.min (Z.to_nat n) (length d - Z.to_nat ofs)) src with
  | Some bs => Ok (Z.of_nat (length bs), mk_ramfs (rf_names f) (<[i := list_inserts (Z.to_nat ofs) bs d]> (rf_data f)) (rf_open f))
  | None => Fail BadAccess
  end.

#[global] Instance ramfs_files : Files ramfs := {|
  fl_open name f :=
    match rf_find f name with
    | None => Ok (NULL, f)
    | Some i =>
        let p := fresh (dom (rf_open f) ∪ {[NULL]}) in
        if decide (i < length (rf_data f))%nat then Ok (p, rf_set_open f (<[p := (i, 0)]> (rf_open f))) else Ok (NULL, f)
    end;
  fl_create name n f :=
    match rf_find f name with
    | Some _ => Ok (false, f)
    | None =>
        if n <? FILE_MAX then
          Ok (true, mk_ramfs (rf_names f ++ [(name, length (rf_data f))]) (rf_data f ++ [replicate (Z.to_nat n) 0]) (rf_open f))
        else Ok (false, f)
    end;
  fl_close p f := Ok (tt, rf_set_open f (delete p (rf_open f)));
  fl_read p n := rf_with p (fun i d pos f =>
    Ok (slice d pos n, rf_set_open f (<[p := (i, pos + Z.of_nat (length (slice d pos n)))]> (rf_open f))));
  fl_write p n src := rf_with p (fun i d pos =>
    n ← rf_write_at i d n pos src; modify (fun f => rf_set_open f (<[p := (i, pos + n)]> (rf_open f))) ;; mret n);
  fl_read_at p n ofs := rf_with p (fun i d pos f => Ok (slice d ofs n, f));
  fl_write_at p n ofs src := rf_with p (fun i d pos => rf_write_at i d n ofs src);
  fl_length p := rf_with p (fun i d pos f => Ok (Z.of_nat (length d), f));
  fl_seek p n := rf_with p (fun i d pos f => Ok (tt, rf_set_open f (<[p := (i, n)]> (rf_open f))));
  fl_ok f := Forall (fun d => Forall is_byte d /\ Z.of_nat (length d) < FILE_MAX) (rf_data f) /\ rf_open f !! NULL = None /\
    map_Forall (fun _ '(i, pos) => (i < length (rf_data f))%nat /\ 0 <= pos) (rf_open f);
  fl_file := rf_file;
|}.

Lemma rf_open_inv f p d pos :
  rf_file f p = Some (d, pos) -> exists i, rf_open f !! p = Some (i, pos) /\ rf_data f !! i = Some d.
Proof.
  unfold rf_file. destruct (rf_open f !! p) as [[i pos']|]; [|done]. cbn.
  destruct (rf_data f !! i) as [d'|] eqn:E; [|done]. cbn. intros [= -> ->]. by exists i.
Qed.

Lemma rf_with_eq {X} p (k : nat -> list Z -> Z -> M ramfs X) f i d pos :
  rf_open f !! p = Some (i, pos) -> rf_data f !! i = Some d -> rf_with p k f = k i d pos f.
Proof. intros Ho Hd. unfold rf_with. by rewrite Ho, Hd. Qed.

Lemma rf_file_set f p i d pos q :
  rf_data f !! i = Some d -> rf_file (rf_set_open f (<[p := (i, pos)]> (rf_open f))) q = if decide (q = p) then Some (d, pos) else rf_file f q.
Proof.
  intros Hd. unfold rf_file, rf_set_open. cbn [rf_open rf_data]. case_decide as E.
  - subst. rewrite lookup_insert_eq. cbn. by rewrite Hd.
  - by rewrite lookup_insert_ne.
Qed.

Lemma rf_position f p i d pos pos' :
  fl_ok f -> rf_open f !! p = Some (i, pos) -> rf_data f !! i = Some d -> 0 <= pos' ->
  let f' := rf_set_open f (<[p := (i, pos')]> (rf_open f)) in
  fl_ok f' /\ fl_file f' p = Some (d, pos') /\ others_same p f f'.
Proof.
  intros (Hf & Hn & Hm) Ho Hd Hpos f'. split; [split_and!|split].
  - done.
  - unfold f', rf_set_open. cbn [rf_open]. rewrite lookup_insert_ne; [done|]. intros ->. congruence.
  - apply map_Forall_insert_2; [split; [exact (proj1 (Hm _ _ Ho))|done]|done].
  - cbn [fl_file ramfs_files]. unfold f'. rewrite (rf_file_set f p i d) by done. by rewrite decide_True.
  - intros q Hq. cbn [fl_file ramfs_files]. unfold f'. rewrite (rf_file_set f p i d) by done. by rewrite decide_False.
Qed.

Lemma rf_fresh f : let p := fresh (dom (rf_open f) ∪ {[NULL]}) in p <> NULL /\ rf_open f !! p = None.
Proof.
  intros p. assert (p ∉ dom (rf_open f) ∪ {[NULL]}) as Hfr by apply is_fresh.
  split; [set_solver|apply not_elem_of_dom; set_solver].
Qed.

Lemma rf_open_ok f name : fl_ok f -> exists p f', fl_open name f = Ok (p, f') /\ fl_ok f' /\
  (p = NULL /\ (forall q, fl_file f' q = fl_file f q) \/
   fl_file f p = None /\ (exists d, fl_file f' p = Some (d, 0)) /\ others_same p f f').
Proof.
  cbn [fl_open fl_file ramfs_files]. intros (Hf & Hn & Hm).
  destruct (rf_find f name) as [i|]; [|exists NULL, f; by split_and!; [..|left]].
  case_decide as Hi; [|exists NULL, f; by split_and!; [..|left]]. destruct (lookup_lt_is_Some_2 _ _ Hi) as [d Hd].
  pose proof (rf_fresh f) as Hfr. cbv zeta in *. set (p := fresh _) in *. destruct Hfr as [Hp0 Hp]. eexists _, _. split; [done|]. split.
  - split; [done|]. cbn [rf_set_open rf_open]. split; [by rewrite lookup_insert_ne|by apply map_Forall_insert_2].
  - right. split; [unfold rf_file; by rewrite Hp|]. split; [exists d|intros q Hq]; cbn [fl_file ramfs_files];
      rewrite (rf_file_set f p i d) by done; [by rewrite decide_True|by rewrite decide_False].
Qed.

Lemma fetch_ok n src :
  (forall i, 0 <= i < Z.of_nat n -> exists b, src i = Some b /\ is_byte b) ->
  exists bs, fetch n src = Some bs /\ length bs = n /\ Forall is_byte bs.
Proof.
  revert src. induction n as [|n IH]; intros src Hs; cbn [fetch]; [by exists []|].
  destruct (Hs 0 ltac:(lia)) as (b & -> & Hb). destruct (IH (fun i => src (i + 1))) as (bs & -> & Hl & Hbs).
  { intros i Hi. apply Hs. lia. }
  exists (b :: bs). split; [done|]. split; [cbn; lia|by constructor].
Qed.

(** Overwriting bytes by bytes. *)
Lemma inserts_bytes i bs d : Forall is_byte bs -> Forall is_byte d -> Forall is_byte (list_inserts i bs d).
Proof.
  intros Hbs Hd. apply Forall_forall. intros x Hx. apply list_elem_of_lookup in Hx as [j Hj].
  apply list_lookup_inserts_Some in Hj. destruct Hj as [[_ Hj]|(_ & _ & Hj)]; by eapply Forall_lookup_1 in Hj.
Qed.

Lemma rf_write_ok f p d pos n src : fl_ok f -> fl_file f p = Some (d, pos) ->
  (forall i, 0 <= i < n -> exists b, src i = Some b /\ is_byte b) ->
  exists bs f', fl_write p n src f = Ok (Z.of_nat (length bs), f') /\ fl_ok f' /\
    Z.of_nat (length bs) <= Z.max 0 n /\ fetch (length bs) src = Some bs /\
    fl_file f' p = Some (list_inserts (Z.to_nat pos) bs d, pos + Z.of_nat (length bs)) /\
    (forall q, is_Some (fl_file f' q) <-> is_Some (fl_file f q)).
Proof.
  cbn [fl_write fl_file ramfs_files]. intros (Hf & Hn & Hm) Hp Hsrc. destruct (rf_open_inv _ _ _ _ Hp) as (i & Ho & Hd).
  rewrite (rf_with_eq p _ f i d pos Ho Hd). destruct (Hm _ _ Ho) as [Hi Hpos].
  destruct (fetch_ok (Nat.min (Z.to_nat n) (length d - Z.to_nat pos)) src) as (bs & Hbs & Hl & Hbb).
  { intros k Hk. apply Hsrc. lia. }
  exists bs. erewrite bindM_step by (unfold rf_write_at; by rewrite Hbs). eexists. split; [done|].
  destruct (Forall_lookup_1 _ _ i d Hf Hd) as [Hb Hlen]. split; [split_and!|split_and!].
  - cbn [rf_set_open rf_data]. apply Forall_insert; [done|]. split; [by apply inserts_bytes|by rewrite length_inserts].
  - cbn [rf_set_open rf_open]. rewrite lookup_insert_ne; [done|]. intros ->. congruence.
  - cbn [rf_set_open rf_open rf_data]. rewrite length_insert. apply map_Forall_insert_2; [split; [done|lia]|done].
  - lia.
  - by rewrite Hl.
  - unfold rf_file. cbn [rf_set_open rf_open rf_data]. rewrite lookup_insert_eq. cbn. by rewrite list_lookup_insert_eq.
  - intros q. unfold rf_file. cbn [rf_set_open rf_open rf_data]. destruct (decide (q = p)) as [->|Hq].
    + rewrite lookup_insert_eq, Ho. cbn. rewrite list_lookup_insert_eq, Hd by done. cbn. split; by eexists.
    + rewrite lookup_insert_ne by done. destruct (rf_open f !! q) as [[j pos']|]; [|done]. cbn. destruct (decide (j = i)) as [->|Hj].
      * rewrite list_lookup_insert_eq, Hd by done. cbn. split; by eexists.
      * by rewrite list_lookup_insert_ne.
Qed.

Lemma rf_create_ok f name n : fl_ok f ->
  exists b f', fl_create name n f = Ok (b, f') /\ fl_ok f' /\ forall q, fl_file f' q = fl_file f q.
Proof.
  cbn [fl_create fl_file ramfs_files]. intros (Hf & Hn & Hm). destruct (rf_find f name); [by exists false, f|].
  destruct (Z.ltb_spec n FILE_MAX); [|by exists false, f]. eexists _, _. split; [done|]. split.
  - split; cbn [rf_data rf_open].
    + apply Forall_app. split; [done|]. repeat constructor; [apply Forall_replicate; by split|].
      rewrite length_replicate. unfold FILE_MAX in *. lia.
    + split; [done|]. intros q [j pos] Hq. specialize (Hm _ _ Hq). cbn in Hm. rewrite length_app. cbn. lia.
  - intros q. unfold rf_file. cbn [rf_open rf_data]. destruct (rf_open f !! q) as [[j pos]|] eqn:E; [|done]. cbn.
    rewrite lookup_app_l; [done|]. exact (proj1 (Hm _ _ E)).
Qed.

#[global] Instance ramfs_laws : FilesLaws ramfs.
Proof.
  split; intros *; [|apply rf_open_ok| | | | | |intros; by eapply rf_write_ok|apply rf_create_ok];
    cbn [fl_close fl_read fl_read_at fl_length fl_seek fl_file ramfs_files]; intros Hok Hp;
    destruct (rf_open_inv _ _ _ _ Hp) as (i & Ho & Hd); rewrite ?(rf_with_eq p _ f i d pos Ho Hd).
  - destruct Hok as (Hf & Hn & Hm). destruct (Forall_lookup_1 _ _ i d Hf Hd) as [Hb Hl].
    destruct (Hm _ _ Ho) as [_ Hpos]. split; [intros ->; congruence|done].
  - intros Hn. eexists. split; [done|]. apply (rf_position f p i d pos); try done. destruct Hok as (_ & _ & Hm). destruct (Hm _ _ Ho). lia.
  - intros Hofs Hn. by exists f.
  - done.
  - intros Hn. eexists. split; [done|]. apply (rf_position f p i d pos); try done. lia.
  - destruct Hok as (Hf & Hn & Hm). eexists. split; [done|]. cbn [rf_set_open rf_open]. split; [split_and!; [done| |by apply map_Forall_delete]|].
    + cbn. apply lookup_delete_None. by right.
    + unfold others_same, fl_file. cbn. unfold rf_file. cbn [rf_set_open rf_open rf_data]. rewrite lookup_delete_eq.
      split; [done|]. intros q Hq. by rewrite lookup_delete_ne.
Qed.
