(* ===== verification/Loader.v ===== *)
(** * Loading a program: load and its helpers of userprog/process.c

    An executable is a file in ELF format: a header, a table of program
    headers, and the contents of the segments these describe.  [load] creates
    a page directory, passes the arguments ([Args]), reads and checks the
    headers, maps the segments and the page of the stack.

    [VM] says which kernel is built: with demand paging ([#ifdef VM]) a segment
    is entered in the supplemental page table, page by page; without it its
    pages are read in at once.  The state is the kernel memory and page tables
    of [Args] over [Pagedir], the file system, and the fields of the current
    [struct thread] that loading sets.  Messages printed when loading fails and
    the task state segment are not kept; [lock_syscall] and [lock_spt] are held
    only around single calls of a sequential state. *)

From S2P Require Import Prelude Vaddr Mem Str Palloc Pagedir Alloc Args UserSpace Files.

(** ** The ELF format *)

(** Little-endian numbers in a file. *)
Definition half_at (bs : list Z) (i : nat) : Z := nth i bs 0 + 2 ^ 8 * nth (i + 1) bs 0.
Definition elf_word (bs : list Z) (i : nat) : Z := half_at bs i + 2 ^ 16 * half_at bs (i + 2).

Record Elf32_Ehdr : Type := mk_ehdr {
  e_ident : list Z; e_type : Z; e_machine : Z; e_version : Z; e_entry : Z; e_phoff : Z; e_shoff : Z; e_flags : Z;
  e_ehsize : Z; e_phentsize : Z; e_phnum : Z; e_shentsize : Z; e_shnum : Z; e_shstrndx : Z }.

Definition sizeof_Ehdr : Z := 52.
Definition read_ehdr (bs : list Z) : Elf32_Ehdr :=
  mk_ehdr (take 16 bs) (half_at bs 16) (half_at bs 18) (elf_word bs 20) (elf_word bs 24) (elf_word bs 28) (elf_word bs 32)
    (elf_word bs 36) (half_at bs 40) (half_at bs 42) (half_at bs 44) (half_at bs 46) (half_at bs 48) (half_at bs 50).

Record Elf32_Phdr : Type := mk_phdr {
  p_type : Z; p_offset : Z; p_vaddr : Z; p_paddr : Z; p_filesz : Z; p_memsz : Z; p_flags : Z; p_align : Z }.

Definition sizeof_Phdr : Z := 32.
Definition read_phdr (bs : list Z) : Elf32_Phdr :=
  mk_phdr (elf_word bs 0) (elf_word bs 4) (elf_word bs 8) (elf_word bs 12) (elf_word bs 16) (elf_word bs 20) (elf_word bs 24)
    (elf_word bs 28).

Definition PT_NULL : Z := 0.
Definition PT_LOAD : Z := 1.
Definition PT_DYNAMIC : Z := 2.
Definition PT_INTERP : Z := 3.
Definition PT_NOTE : Z := 4.
Definition PT_SHLIB : Z := 5.
Definition PT_PHDR : Z := 6.
Definition PT_STACK : Z := 0x6474e551.
Definition PF_X : Z := 1.
Definition PF_W : Z := 2.
Definition PF_R : Z := 4.

(** ["\177ELF\1\1\1"] *)
Definition ELF_MAGIC : list Z := [127; 69; 76; 70; 1; 1; 1].

(** The checks on the header, [n] bytes of which could be read. *)
Definition ehdr_bad (n : Z) (h : Elf32_Ehdr) : bool :=
  negb (n =? sizeof_Ehdr) || negb (bool_decide (take 7 (e_ident h) = ELF_MAGIC)) || negb (e_type h =? 2)
  || negb (e_machine h =? 3) || negb (e_version h =? 1) || negb (e_phentsize h =? sizeof_Phdr) || (1024 <? e_phnum h).

Definition validate_segment (phdr : Elf32_Phdr) (file_len : Z) : bool :=
  if negb (Z.land (p_offset phdr) PGMASK =? Z.land (p_vaddr phdr) PGMASK) then false
  else if u32 file_len <? p_offset phdr then false
  else if p_memsz phdr <? p_filesz phdr then false
  else if p_memsz phdr =? 0 then false
  else if negb (is_user_vaddr (p_vaddr phdr)) then false
  else if negb (is_user_vaddr (u32 (p_vaddr phdr + p_memsz phdr))) then false
  else if u32 (p_vaddr phdr + p_memsz phdr) <? p_vaddr phdr then false
  else true.

(** Where a segment goes: offset in the file, address, bytes to read, bytes to
    zero, and whether it is writable. *)
Record placement : Type := mk_placement {
  pl_ofs : Z; pl_upage : Z; pl_read : Z; pl_zero : Z; pl_writable : bool }.

Definition segment_placement (phdr : Elf32_Phdr) : placement :=
  let writable := negb (Z.land (p_flags phdr) PF_W =? 0) in
  let file_page := Z.land (p_offset phdr) (u32 (Z.lnot PGMASK)) in
  let mem_page := Z.land (p_vaddr phdr) (u32 (Z.lnot PGMASK)) in
  let page_offset := Z.land (p_vaddr phdr) PGMASK in
  if 0 <? p_filesz phdr then
    let read_bytes := u32 (page_offset + p_filesz phdr) in
    let zero_bytes := u32 (u32 (ROUND_UP (u32 (page_offset + p_memsz phdr)) PGSIZE) - read_bytes) in
    mk_placement (s32 file_page) mem_page read_bytes zero_bytes writable
  else
    mk_placement (s32 file_page) mem_page 0 (u32 (ROUND_UP (u32 (page_offset + p_memsz phdr)) PGSIZE)) writable.

(** ** vm/page.h *)

Inductive page_location : Type := PAG_SWAP | PAG_FILE | PAG_EXEC.

Record page : Type := mk_page {
  location : Z; pg : page_location; pg_writable : bool; pg_ofs_in_file : Z; read_b : Z; zero_b : Z; page_addr : Z }.

Definition sizeof_page : Z := 36.

(** ** The state *)

Record proc (H F : Type) : Type := mk_proc {
  p_kernel : ast H vm;
  p_files : F;
  pagedir : Z;                          (* struct thread: pagedir *)
  exec_file : Z;                        (* struct thread: file *)
  sup_page_table : list (Z * page);     (* struct thread: sup_page_table *)
  max_code_seg_addr : Z;                (* struct thread: max_code_seg_addr *)
}.
Arguments mk_proc {H F}. Arguments p_kernel {H F}. Arguments p_files {H F}. Arguments pagedir {H F}.
Arguments exec_file {H F}. Arguments sup_page_table {H F}. Arguments max_code_seg_addr {H F}.

Section loader.
Context {H F : Type} `{Allocator H, !AllocatorRoom H, Files F}.
Context (VM : bool) (ram_pages kstart kend_text : Z).
#[local] Abbreviation st := (proc H F).
#[local] Instance vm_memory : UserMem vm := vm_user ram_pages kstart kend_text.

Definition set_kernel (k : ast H vm) (s : st) : st :=
  mk_proc k (p_files s) (pagedir s) (exec_file s) (sup_page_table s) (max_code_seg_addr s).
Definition on_kernel {X} (m : M (ast H vm) X) : M st X := fun s => '(x, k) ← m (p_kernel s); Ok (x, set_kernel k s).
Definition on_vm {X} (m : M vm X) : M st X := on_kernel (on_umem m).
Definition on_files {X} (m : M F X) : M st X := fun s =>
  '(x, f) ← m (p_files s);
  Ok (x, mk_proc (p_kernel s) f (pagedir s) (exec_file s) (sup_page_table s) (max_code_seg_addr s)).
Definition set_pagedir (pd : Z) : M st unit := modify (fun s =>
  mk_proc (p_kernel s) (p_files s) pd (exec_file s) (sup_page_table s) (max_code_seg_addr s)).
Definition set_exec_file (p : Z) : M st unit := modify (fun s =>
  mk_proc (p_kernel s) (p_files s) (pagedir s) p (sup_page_table s) (max_code_seg_addr s)).

(** The bytes [bs] at [p], in a page of RAM. *)
Definition write_ram (p : Z) (bs : list Z) : M vm unit :=
  modify (fun s => set_mem (fun x => if (p <=? x) && (x <? p + Z.of_nat (length bs))
                                     then nth (Z.to_nat (x - p)) bs 0 else memory (vm_pal s) x) s).

Definition install_page (upage kpage : Z) (writable : bool) : M st bool :=
  pd ← gets pagedir;
  old ← on_vm (pagedir_get_page ram_pages pd upage);
  if old =? NULL then on_vm (pagedir_set_page ram_pages pd upage kpage writable) else mret false.

(** ** Segments *)

(** One page of a segment: entered in the supplemental page table. *)
Definition enter_page (file : Z) (upage ofs n page_read_bytes page_zero_bytes : Z) (writable : bool) : M st bool :=
  sup_page ← on_kernel (kmalloc sizeof_page);
  if sup_page =? NULL then mret false
  else
    let p := mk_page file PAG_EXEC writable (u32 (ofs + u32 (n * PGSIZE))) page_read_bytes page_zero_bytes upage in
    max ← gets max_code_seg_addr;
    let top := u32 (upage + PGSIZE) in
    modify (fun s => mk_proc (p_kernel s) (p_files s) (pagedir s) (exec_file s)
                       (sup_page_table s ++ [(sup_page, p)]) (if max <? top then top else max)) ;;
    mret true.

(** One page of a segment, read in. *)
Definition read_page (file upage page_read_bytes page_zero_bytes : Z) (writable : bool) : M st bool :=
  kpage ← on_vm (on_pal (palloc_get_page PAL_USER));
  if kpage =? NULL then mret false
  else
    bs ← on_files (fl_read file page_read_bytes);
    on_vm (write_ram kpage bs) ;;
    if negb (Z.of_nat (length bs) =? page_read_bytes) then
      on_vm (on_pal (palloc_free_page kpage)) ;; mret false
    else
      on_vm (write_ram (kpage + page_read_bytes) (replicate (Z.to_nat page_zero_bytes) 0)) ;;
      ok ← install_page upage kpage writable;
      if ok : bool then mret true else on_vm (on_pal (palloc_free_page kpage)) ;; mret false.

(** The loop over the pages; [n] counts them. *)
Fixpoint load_pages (fuel : nat) (file ofs upage read_bytes zero_bytes n : Z) (writable : bool) : M st bool :=
  match fuel with
  | O => fail NoFuel
  | S fuel =>
      if (0 <? read_bytes) || (0 <? zero_bytes) then
        let page_read_bytes := if read_bytes <? PGSIZE then read_bytes else PGSIZE in
        let page_zero_bytes := PGSIZE - page_read_bytes in
        ok ← (if VM then enter_page file upage ofs n page_read_bytes page_zero_bytes writable
              else read_page file upage page_read_bytes page_zero_bytes writable);
        if ok : bool then
          load_pages fuel file ofs (u32 (upage + PGSIZE)) (u32 (read_bytes - page_read_bytes))
            (u32 (zero_bytes - page_zero_bytes)) (n + 1) writable
        else mret false
      else mret true
  end.

Definition load_segment (fuel : nat) (file : Z) (pl : placement) : M st bool :=
  assertM (u32 (pl_read pl + pl_zero pl) mod PGSIZE =? 0) ;;
  assertM (pg_ofs (pl_upage pl) =? 0) ;;
  assertM (Z.rem (pl_ofs pl) PGSIZE =? 0) ;;
  (if VM then mret tt else on_files (fl_seek file (pl_ofs pl))) ;;
  load_pages fuel file (pl_ofs pl) (pl_upage pl) (pl_read pl) (pl_zero pl) 0 (pl_writable pl).

(** A page of zeros at the top of user memory; the result is whether it could
    be mapped. *)
Definition setup_stack : M st bool :=
  kpage ← on_vm (on_pal (palloc_get_page (Z.lor PAL_USER PAL_ZERO)));
  if kpage =? NULL then mret false
  else
    success ← install_page (PHYS_BASE - PGSIZE) kpage true;
    if success : bool then mret true
    else on_vm (on_pal (palloc_free_page kpage)) ;; mret false.

(** ** load *)

(** What [load] does with one program header: go on, or stop. *)
Definition load_header (fuel : nat) (file : Z) (phdr : Elf32_Phdr) : M st bool :=
  if (p_type phdr =? PT_DYNAMIC) || (p_type phdr =? PT_INTERP) || (p_type phdr =? PT_SHLIB) then mret false
  else if p_type phdr =? PT_LOAD then
    len ← on_files (fl_length file);
    if validate_segment phdr len then load_segment fuel file (segment_placement phdr) else mret false
  else mret true.

(** [for (i = 0; i < ehdr.e_phnum; i++)], from offset [file_ofs] on. *)
Fixpoint load_headers (n : nat) (fuel : nat) (file file_ofs : Z) : M st bool :=
  match n with
  | O => mret true
  | S n =>
      len ← on_files (fl_length file);
      if (file_ofs <? 0) || (len <? file_ofs) then mret false
      else
        on_files (fl_seek file file_ofs) ;;
        bs ← on_files (fl_read file sizeof_Phdr);
        if negb (Z.of_nat (length bs) =? sizeof_Phdr) then mret false
        else
          ok ← load_header fuel file (read_phdr bs);
          if ok : bool then load_headers n fuel file (s32 (file_ofs + sizeof_Phdr)) else mret false
  end.

(** Reading the file once it is open: the entry point, or failure. *)
Definition load_file (fuel : nat) (file : Z) : M st (option Z) :=
  bs ← on_files (fl_read file sizeof_Ehdr);
  let ehdr := read_ehdr bs in
  if ehdr_bad (Z.of_nat (length bs)) ehdr then mret None
  else
    ok ← load_headers (Z.to_nat (e_phnum ehdr)) fuel file (s32 (e_phoff ehdr));
    if ok : bool then
      ok ← setup_stack;
      if ok : bool then mret (Some (e_entry ehdr)) else mret None
    else mret None.

(** The characters of a string in kernel memory. *)
Fixpoint string_at (fuel : nat) (m : mem) (p : Z) : res (list Z) :=
  match fuel with
  | O => Fail NoFuel
  | S fuel => b ← Mem.load m p; if b =? 0 then Ok [] else t ← string_at fuel m (p + 1); Ok (b :: t)
  end.

(** [sf] and [sep] as for [arg_parse]; [argc] is what the variable of that name
    holds before it is counted up.  The result is the entry point and the stack
    pointer, or failure. *)
Definition load (sf : nat) (sep : Z) (fuel : nat) (file_name argc : Z) : M st (option (Z * Z)) :=
  pd ← on_vm (pagedir_create ram_pages);
  set_pagedir pd ;;
  if pd =? NULL then mret None
  else
    on_vm (pagedir_activate pd) ;;
    '(ok, argv, argc) ← on_kernel (arg_parse sf sep sf file_name argc);
    if negb ok then mret None
    else
      match last argv with
      | None => fail AssertFailed
      | Some new_name =>
          str ← on_kernel (get_str new_name);
          name ← on_kernel (fun k => t ← string_at sf (kmem k) str; Ok (t, k));
          file ← on_files (fl_open name);
          set_exec_file file ;;
          if file =? NULL then mret None
          else
            r ← load_file fuel file;
            match r with
            | None => mret None
            | Some eip => esp ← on_kernel (arg_push argv argc); mret (Some (eip, esp))
            end
      end.
End loader.
