(* ===== verification/LoaderSpec.v ===== *)
(** * What load leaves in memory

    Whatever the executable file contains, reading it in (the kernel without
    demand paging) finishes without a failed assertion or an access outside its
    memory, changes no other address space, maps only user addresses and keeps
    no page it did not map; if it succeeds, every loadable segment of the file
    is in memory, followed by zeros, and the page of the stack is zero. *)

From S2P Require Import Prelude Vaddr Mem Str Bitmap Palloc Pagedir PagedirInv PagedirSpec Malloc Alloc Args ArgsSpec UserSpace Files Loader.

#[local] Abbreviation PB := 3221225472.

Section pages.
Context (ram_pages kstart kend_text : Z).
Hypothesis Hram : 0 <= ram_pages < 2 ^ 18.
#[local] Abbreviation vm_inv := (vm_inv ram_pages kstart kend_text).
Implicit Types (s : vm) (a : space) (own : gmap Z role) (m : gmap Z entry).

(** ** Views *)

Lemma view_data f s a own s' a' pd va :
  vm_inv f s a own -> data_same own s s' -> dirs a' = dirs a -> view s' a' pd va = view s a pd va.
Proof.
  intros Hi Hds Hd. unfold view. rewrite Hd. destruct (dirs a !! pd) as [m|] eqn:Hm; [|done]. cbn [mbind option_bind].
  destruct (m !! pg_no va) as [e|] eqn:He; [|done]. destruct (present e) eqn:Hp; [|done]. f_equal.
  apply (Hds _ (RFrame pd (pg_no va))); [exact (frame_role _ _ _ _ _ _ _ _ _ _ _ Hi Hm He Hp)|by intros []|rewrite pg_ofs_mod; zlia].
Qed.

(** Writing into a page of the client. *)
Definition ram_with (p : Z) (bs : list Z) s : vm :=
  set_mem (fun x => if (p <=? x) && (x <? p + Z.of_nat (length bs)) then nth (Z.to_nat (x - p)) bs 0
                    else memory (vm_pal s) x) s.

Lemma write_ram_inv f s a own p r k bs :
  vm_inv f s a own -> own !! p = Some r -> ~ is_meta r -> 0 <= k -> k + Z.of_nat (length bs) <= 4096 ->
  write_ram (p + k) bs s = Ok (tt, ram_with (p + k) bs s) /\ vm_inv f (ram_with (p + k) bs s) a own /\
  data_same (delete p own) s (ram_with (p + k) bs s).
Proof.
  intros Hi Hp Hr Hk Hl. pose proof (own_page_ok _ _ _ _ _ _ _ _ _ Hi Hp) as (_ & Hpm & _). split; [done|].
  assert (forall q j, q mod 4096 = 0 -> q <> p -> 0 <= j < 4096 ->
    byte_at (ram_with (p + k) bs s) (q + j) = byte_at s (q + j)) as Hout.
  { intros q j Hq Hne Hj. unfold byte_at, ram_with, set_mem, set_pal, set_memory. cbn [vm_pal memory]. zcases. zlia. }
  split.
  - split; try apply Hi. eapply mem_inv_same; [apply Hi| |done]. intros q r' j Hq Hm Hj.
    pose proof (own_page_ok _ _ _ _ _ _ _ _ _ Hi Hq) as (_ & Hqm & _).
    assert (q <> p) as Hne by (intros ->; rewrite Hp in Hq; injection Hq as <-; by apply Hr).
    unfold W, word_at. pose proof (fun i => Hout q i Hqm Hne) as Ho. unfold byte_at in Ho.
    rewrite <- !Z.add_assoc. by rewrite !Ho by lia.
  - intros q r' j Hq Hrm Hj. apply lookup_delete_Some in Hq as [Hne Hq].
    pose proof (own_page_ok _ _ _ _ _ _ _ _ _ Hi Hq) as (_ & Hqm & _). by apply Hout.
Qed.

Lemma ram_with_in p bs s x : p <= x < p + Z.of_nat (length bs) -> byte_at (ram_with p bs s) x = nth (Z.to_nat (x - p)) bs 0.
Proof. intros Hx. unfold byte_at, ram_with, set_mem, set_pal, set_memory. cbn [vm_pal memory]. zcases. Qed.

Lemma ram_with_out p bs s x : ~ p <= x < p + Z.of_nat (length bs) -> byte_at (ram_with p bs s) x = byte_at s x.
Proof. intros Hx. unfold byte_at, ram_with, set_mem, set_pal, set_memory. cbn [vm_pal memory]. zcases. Qed.

(** ** A page of the client, from the allocator to the page tables *)

Definition with_held a (h : gset Z) : space := mk_space (dirs a) h (active a).

Lemma hold_page f s a own flags :
  vm_inv f s a own -> has_flag flags PAL_ASSERT = false ->
  exists p s' own', on_pal (palloc_get_page flags) s = Ok (p, s') /\ (forall pd va, view s' a pd va = view s a pd va) /\
    (p = NULL /\ vm_inv f s' a own' \/
     p <> NULL /\ (p ∉ held a) /\ vm_inv f s' (with_held a ({[p]} ∪ held a)) own' /\ own' !! p = Some RHeld /\
     (has_flag flags PAL_ZERO = true -> forall k, 0 <= k < 4096 -> byte_at s' (p + k) = 0)).
Proof.
  intros Hi Hf. destruct (hold_spec _ _ _ Hram f s a own flags Hi Hf) as (p & s' & own' & Hr & Hc).
  destruct (get_page_data _ _ _ Hram f s a own flags p s' Hi Hf Hr) as [Hds Hn].
  exists p, s', own'. split; [done|]. split; [intros; by eapply view_data|].
  destruct Hc as [[-> Hi']|[Hnh Hi']]; [by left|]. right.
  assert (own' !! p = Some RHeld) as Ho by (apply (oi_held _ _ _ _ (vi_own _ _ _ _ _ _ _ Hi')); cbn [held]; set_solver).
  assert (p <> NULL) as Hp0 by (destruct (own_page_ok _ _ _ _ _ _ _ _ _ Hi' Ho); unfold NULL; lia).
  split; [done|]. split; [done|]. split; [done|]. split; [done|]. by apply Hn.
Qed.

Lemma release_page f s a own p :
  vm_inv f s a own -> p ∈ held a ->
  exists s' own', on_pal (palloc_free_page p) s = Ok (tt, s') /\ vm_inv f s' (with_held a (held a ∖ {[p]})) own' /\
    forall pd va, view s' a pd va = view s a pd va.
Proof.
  intros Hi Hp. destruct (release_spec _ _ _ Hram f s a own p Hi Hp) as (s' & Hr & Hi').
  exists s', (delete p own). split; [done|]. split; [done|]. intros pd va.
  rewrite <- (oi_held _ _ _ _ (vi_own _ _ _ _ _ _ _ Hi)) in Hp. pose proof (own_page_ok _ _ _ _ _ _ _ _ _ Hi Hp) as Hpok.
  unfold on_pal in Hr. apply bind_Ok in Hr as ([[] q] & Hfr & Hr). injection Hr as <-.
  assert (p <> NULL) as Hp0 by (destruct Hpok; unfold NULL; lia).
  pose proof (free_page_memory _ _ _ _ Hfr Hp0) as Hmem. destruct Hpok as (_ & Hpm & _).
  unfold view. destruct (dirs a !! pd) as [m|] eqn:Hm; [|done]. cbn [mbind option_bind].
  destruct (m !! pg_no va) as [e|] eqn:He; [|done]. destruct (present e) eqn:Hpr; [|done]. f_equal.
  pose proof (frame_role _ _ _ _ _ _ _ _ _ _ _ Hi Hm He Hpr) as Hfo. pose proof (own_page_ok _ _ _ _ _ _ _ _ _ Hi Hfo) as (_ & Hfm & _).
  assert (frame e <> p) by congruence. unfold byte_at. cbn [set_pal vm_pal]. rewrite Hmem. unfold fill. rewrite pg_ofs_mod. zcases. zlia.
Qed.

(** Mapping a page of the client. *)
Lemma map_page f s a own pd m va p w :
  vm_inv f s a own -> dirs a !! pd = Some m -> 0 <= va < PB -> va mod 4096 = 0 -> p ∈ held a ->
  here (m !! pg_no va) = false ->
  exists b s' own', pagedir_set_page ram_pages pd va p w s = Ok (b, s') /\
    (b = false /\ vm_inv f s' a own' /\ (forall pd' va', view s' a pd' va' = view s a pd' va') \/
     b = true /\ vm_inv f s' (upd pd m (pg_no va) (mk_entry p true w false false) (held a ∖ {[p]}) a) own' /\
     forall pd' va', view s' (upd pd m (pg_no va) (mk_entry p true w false false) (held a ∖ {[p]}) a) pd' va' =
       if decide (pd' = pd /\ pg_no va' = pg_no va) then Some (byte_at s (p + pg_ofs va')) else view s a pd' va').
Proof.
  intros Hi Hd Hva Hal Hp Hno. destruct (set_page_spec _ _ _ Hram f s a own pd m va p w Hi Hd Hva Hal Hp Hno) as (b & s' & own' & Hr & Hi').
  pose proof (set_page_data _ _ _ Hram f s a own pd m va p w b s' Hi Hd Hva Hr) as Hds. exists b, s', own'. split; [done|].
  rewrite <- (oi_held _ _ _ _ (vi_own _ _ _ _ _ _ _ Hi)) in Hp.
  destruct b; [right|left]; (split; [done|]); (split; [done|]); [|intros; by eapply view_data].
  intros pd' va'. rewrite <- (view_data f s a own s' a pd' va' Hi Hds eq_refl). unfold view, upd. cbn [dirs].
  destruct (decide (pd' = pd)) as [->|Hne]; [|rewrite lookup_insert_ne, decide_False by naive_solver; done].
  rewrite lookup_insert_eq, Hd. cbn [mbind option_bind]. destruct (decide (pg_no va' = pg_no va)) as [E|Hv].
  - rewrite E, lookup_insert_eq, decide_True by done. cbn [present frame]. f_equal.
    apply (Hds _ RHeld); [done|by intros []|rewrite pg_ofs_mod; zlia].
  - rewrite lookup_insert_ne, decide_False by naive_solver. done.
Qed.
End pages.

(** ** Program headers *)

(** Program headers as they are in a file of bytes. *)
Definition phdr_at (d : list Z) (ofs : Z) : Elf32_Phdr := read_phdr (slice d ofs sizeof_Phdr).

Lemma nth_byte bs i : Forall is_byte bs -> is_byte (nth i bs 0).
Proof.
  intros Hb. destruct (lt_dec i (length bs)) as [Hl|Hl]; [|rewrite nth_overflow by lia; by split].
  rewrite Forall_lookup in Hb. apply (Hb i). destruct (lookup_lt_is_Some_2 bs i Hl) as [x Hx]. rewrite Hx. by apply nth_lookup_Some with (d := 0) in Hx; rewrite Hx.
Qed.

Lemma half_range bs i : Forall is_byte bs -> 0 <= half_at bs i < 2 ^ 16.
Proof. intros Hb. unfold half_at. pose proof (nth_byte bs i Hb). pose proof (nth_byte bs (i + 1) Hb). unfold is_byte in *. lia. Qed.

Lemma elf_word_range bs i : Forall is_byte bs -> 0 <= elf_word bs i < 2 ^ 32.
Proof. intros Hb. unfold elf_word. pose proof (half_range bs i Hb). pose proof (half_range bs (i + 2) Hb). lia. Qed.

(** The numbers of a header fit their fields. *)
Record phdr_ok (h : Elf32_Phdr) : Prop := {
  ph_offset : 0 <= p_offset h < 2 ^ 32;
  ph_vaddr : 0 <= p_vaddr h < 2 ^ 32;
  ph_filesz : 0 <= p_filesz h < 2 ^ 32;
  ph_memsz : 0 <= p_memsz h < 2 ^ 32;
}.

Lemma read_phdr_ok bs : Forall is_byte bs -> phdr_ok (read_phdr bs).
Proof. intros Hb. split; cbn [read_phdr p_offset p_vaddr p_filesz p_memsz]; by apply elf_word_range. Qed.

(** What [validate_segment] lets through. *)
Lemma validate_segment_ok h len :
  phdr_ok h -> 0 <= len < FILE_MAX -> validate_segment h len = true ->
  p_offset h mod 4096 = p_vaddr h mod 4096 /\ p_offset h <= len /\ p_filesz h <= p_memsz h /\ 0 < p_memsz h /\
  p_vaddr h + p_memsz h < PB.
Proof.
  intros [Ho Hv Hf Hm] Hl. unfold validate_segment, is_user_vaddr. fold (pg_ofs (p_offset h)) (pg_ofs (p_vaddr h)). rewrite !pg_ofs_mod.
  change PHYS_BASE with PB. unfold FILE_MAX in Hl. rewrite (u32_small len) by lia. unfold u32.
  intros Hc. repeat case_match; try discriminate Hc.
  all: rewrite ?negb_true_iff, ?negb_false_iff, ?Z.eqb_eq, ?Z.eqb_neq, ?Z.ltb_lt, ?Z.ltb_ge in *.
  split_and?; try done; zlia.
Qed.

(** Where such a segment goes. *)
Lemma placement_ok h len :
  phdr_ok h -> 0 <= len < FILE_MAX -> validate_segment h len = true ->
  let pl := segment_placement h in let po := p_vaddr h mod 4096 in
  pl_ofs pl = p_offset h - po /\ 0 <= pl_ofs pl <= len /\ pl_ofs pl mod 4096 = 0 /\
  pl_upage pl = p_vaddr h - po /\
  pl_read pl = (if 0 <? p_filesz h then po + p_filesz h else 0) /\ 0 <= pl_zero pl /\
  po + p_memsz h <= pl_read pl + pl_zero pl /\ (pl_read pl + pl_zero pl) mod 4096 = 0 /\
  pl_upage pl + (pl_read pl + pl_zero pl) <= PB.
Proof.
  intros Hh Hl Hval. destruct (validate_segment_ok h len Hh Hl Hval) as (Hmod & Hol & Hfm & Hm0 & Htop). destruct Hh as [Ho Hv Hf Hm].
  unfold segment_placement. fold (pg_round_down (p_offset h)) (pg_round_down (p_vaddr h)) (pg_ofs (p_vaddr h)).
  rewrite !pg_round_down_arith, pg_ofs_mod by done. unfold FILE_MAX in Hl.
  rewrite (s32_small (p_offset h - _)) by zlia. change PGSIZE with 4096.
  pose proof (Z.mod_pos_bound (p_vaddr h) 4096 eq_refl) as Hpo.
  assert (p_vaddr h mod 4096 <= p_vaddr h /\ p_vaddr h mod 4096 <= p_offset h /\ (p_vaddr h - p_vaddr h mod 4096) mod 4096 = 0 /\
    (p_offset h - p_vaddr h mod 4096) mod 4096 = 0) as (Hpv & Hpf & Hvm & Hom) by (split_and!; zlia).
  set (po := p_vaddr h mod 4096) in *.
  rewrite (u32_small (po + p_memsz h)) by lia.
  destruct (ROUND_UP_spec (po + p_memsz h) 4096) as [Hup [q Hq]]; [lia|lia|]. set (ru := ROUND_UP (po + p_memsz h) 4096) in *.
  assert (p_vaddr h - po + ru <= PB) as Hpb by zlia.
  destruct (Z.ltb_spec 0 (p_filesz h)); cbn [pl_ofs pl_upage pl_read pl_zero]; rewrite (u32_small ru) by lia.
  - rewrite !u32_small by (rewrite ?u32_small; lia). split_and!; try lia; zlia.
  - split_and!; try lia; zlia.
Qed.

Section loader.
Context {H F : Type} `{AllocatorRoomLaws H, !AllocatorLaws H, FilesLaws F}.
Context (ram_pages kstart kend_text : Z).
Hypothesis Hram : 0 <= ram_pages < 2 ^ 18.
#[local] Abbreviation vm_inv := (vm_inv ram_pages kstart kend_text).
#[local] Abbreviation st := (proc H F).
Implicit Types (s : st) (a : space) (own : gmap Z role) (m : gmap Z entry).

Definition vmof s : vm := umem (p_kernel s).
Definition set_vm (v : vm) s : st := set_kernel (set_umem v (p_kernel s)) s.

Lemma on_vm_step {X} (c : M vm X) s x v : c (vmof s) = Ok (x, v) -> on_vm c s = Ok (x, set_vm v s).
Proof. intros Hc. unfold on_vm, on_kernel, on_umem. unfold vmof in Hc. by rewrite Hc. Qed.

Definition set_files (f : F) s : st :=
  mk_proc (p_kernel s) f (pagedir s) (exec_file s) (sup_page_table s) (max_code_seg_addr s).

Lemma on_files_step {X} (c : M F X) s x f : c (p_files s) = Ok (x, f) -> on_files c s = Ok (x, set_files f s).
Proof. intros Hc. unfold on_files. by rewrite Hc. Qed.

(** [s'] and [a'] are [s] and [a] with more pages in the directory of the
    process; [file] still holds [d], and nothing else has changed. *)
Record grown (file : Z) (d : list Z) s a s' a' : Prop := {
  gr_kernel : exists v, p_kernel s' = set_umem v (p_kernel s);
  gr_dir : pagedir s' = pagedir s;
  gr_files : fl_ok (p_files s');
  gr_file : exists pos, 0 <= pos /\ fl_file (p_files s') file = Some (d, pos);
  gr_active : active a' = active a;
  gr_held : held a' = held a;
  gr_others : forall pd, pd <> pagedir s -> dirs a' !! pd = dirs a !! pd;
  gr_mine : is_Some (dirs a' !! pagedir s);
  gr_view : forall pd va x, view (vmof s) a pd va = Some x -> view (vmof s') a' pd va = Some x;
  gr_apart : forall pd va, pd <> pagedir s -> view (vmof s') a' pd va = view (vmof s) a pd va;
}.

Lemma grown_refl file d s a pos :
  fl_ok (p_files s) -> fl_file (p_files s) file = Some (d, pos) -> 0 <= pos -> is_Some (dirs a !! pagedir s) ->
  grown file d s a s a.
Proof. intros Hf Hd Hp Hm. split; try done; [by exists (vmof s); destruct s as [[]]|by exists pos]. Qed.

Lemma grown_trans file d s1 a1 s2 a2 s3 a3 :
  grown file d s1 a1 s2 a2 -> grown file d s2 a2 s3 a3 -> grown file d s1 a1 s3 a3.
Proof.
  intros [[v2 K2] D2 _ _ A2 H2' O2 M2 V2 P2] [[v3 K3] D3 F3 L3 A3 H3' O3 M3 V3 P3]. rewrite D2 in *. split; try congruence; auto.
  - exists v3. by rewrite K3, K2.
  - intros pd Hpd. by rewrite O3, O2.
  - intros pd va Hpd. by rewrite P3, P2.
Qed.

(** Steps on the files and on data that is not mapped. *)
Lemma grown_data file d s a v f a' pos :
  (forall pd va, view v a' pd va = view (vmof s) a pd va) -> dirs a' = dirs a -> held a' = held a -> active a' = active a ->
  fl_ok f -> fl_file f file = Some (d, pos) -> 0 <= pos -> is_Some (dirs a !! pagedir s) ->
  grown file d s a (set_files f (set_vm v s)) a'.
Proof.
  intros Hv Hd Hh Ha Hf Hfl Hp Hm. split; try done; cbn [set_files set_vm p_kernel pagedir p_files set_kernel].
  - by exists v.
  - by exists pos.
  - intros pd Hpd. by rewrite Hd.
  - by rewrite Hd.
  - intros pd va x Hx. change (vmof _) with v. by rewrite Hv.
Qed.

(** ** Pages *)

Lemma install_ok f s a own m upage p w :
  vm_inv f (vmof s) a own -> dirs a !! pagedir s = Some m -> 0 <= upage < PB -> upage mod 4096 = 0 -> p ∈ held a ->
  exists b v own', install_page ram_pages upage p w s = Ok (b, set_vm v s) /\
    (b = false /\ vm_inv f v a own' /\ (forall pd va, view v a pd va = view (vmof s) a pd va) \/
     b = true /\ here (m !! pg_no upage) = false /\
     let a' := upd (pagedir s) m (pg_no upage) (mk_entry p true w false false) (held a ∖ {[p]}) a in
     vm_inv f v a' own' /\ forall pd va, view v a' pd va =
       if decide (pd = pagedir s /\ pg_no va = pg_no upage) then Some (byte_at (vmof s) (p + pg_ofs va)) else view (vmof s) a pd va).
Proof.
  intros Hi Hd Hu Hal Hp. unfold install_page. erewrite bindM_step by reflexivity.
  pose proof (get_page_spec _ _ _ Hram f (vmof s) a own (pagedir s) m upage Hi Hd Hu) as Hg.
  rewrite (bindM_step _ _ _ _ _ (on_vm_step _ s _ _ Hg)). destruct (here (m !! pg_no upage)) eqn:Hh.
  - exists false, (vmof s), own. unfold here in Hh. destruct (m !! pg_no upage) as [e|] eqn:He; [|done]. rewrite Hh.
    pose proof (entry_in_range _ _ _ _ _ _ _ _ _ _ _ Hi Hd He) as (Hf & _).
    rewrite (proj2 (Z.eqb_neq _ _)) by (rewrite pg_ofs_mod; unfold NULL; zlia). split; [done|]. left. done.
  - assert ((match m !! pg_no upage with Some e => if present e then frame e + pg_ofs upage else NULL | None => NULL end) = NULL) as ->.
    { unfold here in Hh. destruct (m !! pg_no upage); [|done]. by rewrite Hh. }
    rewrite Z.eqb_refl. destruct (map_page _ _ _ Hram f (vmof s) a own _ m upage p w Hi Hd Hu Hal Hp Hh) as (b & v & own' & Hr & Hc).
    exists b, v, own'. split.
    + assert (set_vm (vmof s) s = s) as -> by (by destruct s as [[]]). by apply on_vm_step.
    + destruct Hc as [Hc|(-> & Hi' & Hv)]; [by left|right]. done.
Qed.

(** A page of the client is freed on the way out of a failure. *)
Lemma give_back f s a own p h :
  vm_inv f (vmof s) (with_held a ({[p]} ∪ h)) own -> (p ∉ h) -> held a = h ->
  exists v own', on_vm (on_pal (palloc_free_page p)) s = Ok (tt, set_vm v s) /\ vm_inv f v a own' /\
    forall pd va, view v a pd va = view (vmof s) a pd va.
Proof.
  intros Hi Hp Hh. destruct (release_page _ _ _ Hram f (vmof s) _ own p Hi) as (v & own' & Hr & Hi' & Hv); [cbn [held with_held]; set_solver|].
  exists v, own'. split; [by apply on_vm_step|]. split; [|exact Hv].
  assert (a = with_held (with_held a ({[p]} ∪ h)) (held (with_held a ({[p]} ∪ h)) ∖ {[p]})) as ->; [|exact Hi'].
  unfold with_held. cbn [dirs held active]. destruct a as [ds hh act]. cbn in *. subst hh. f_equal. apply leibniz_equiv. set_solver.
Qed.

(** The contents of a page read in: [n] bytes of the file, then zeros. *)
Definition page_image (d : list Z) (pos n : Z) (k : Z) : Z :=
  if k <? n then nth (Z.to_nat (pos + k)) d 0 else 0.

Lemma slice_nth d pos n k : 0 <= pos -> 0 <= k < n -> nth (Z.to_nat k) (slice d pos n) 0 = nth (Z.to_nat (pos + k)) d 0.
Proof.
  intros Hp Hk. unfold slice. rewrite !nth_lookup. rewrite lookup_take_lt, lookup_drop by lia. do 2 f_equal. lia.
Qed.

Lemma slice_length d pos n : (Z.of_nat (length (slice d pos n)) <= Z.max 0 n)%Z.
Proof. unfold slice. rewrite length_take. lia. Qed.

(** Filling a page that is held: the file's bytes, then zeros. *)
Lemma fill_page f v a own p d pos n :
  vm_inv f v a own -> own !! p = Some RHeld -> 0 <= pos -> 0 <= n <= 4096 -> Z.of_nat (length (slice d pos n)) = n ->
  let v' := ram_with (p + n) (replicate (Z.to_nat (4096 - n)) 0) (ram_with p (slice d pos n) v) in
  vm_inv f v' a own /\ (forall pd va, view v' a pd va = view v a pd va) /\
  forall k, 0 <= k < 4096 -> byte_at v' (p + k) = page_image d pos n k.
Proof.
  intros Hi Hp Hpos Hn Hl v'. assert (~ is_meta RHeld) as Hnm by (by intros []).
  destruct (write_ram_inv _ _ _ Hram f v a own p RHeld 0 (slice d pos n) Hi Hp Hnm) as (_ & Hi1 & Hd1); [lia|lia|]. rewrite Z.add_0_r in *.
  destruct (write_ram_inv _ _ _ Hram f (ram_with p (slice d pos n) v) a own p RHeld n (replicate (Z.to_nat (4096 - n)) 0) Hi1 Hp Hnm)
    as (_ & Hi2 & Hd2); [lia|rewrite length_replicate; lia|]. split; [done|]. split.
  - intros pd va. pose proof (data_trans _ _ _ _ Hd1 Hd2) as Hds. unfold view.
    destruct (dirs a !! pd) as [m|] eqn:Hm; [|done]. cbn [mbind option_bind].
    destruct (m !! pg_no va) as [e|] eqn:He; [|done]. destruct (present e) eqn:Hpr; [|done]. f_equal.
    pose proof (frame_role _ _ _ _ _ _ _ _ _ _ _ Hi Hm He Hpr) as Hf.
    apply (Hds _ (RFrame pd (pg_no va))); [|by intros []|rewrite pg_ofs_mod; zlia].
    apply lookup_delete_Some. split; [intros ->; congruence|done].
  - intros k Hk. unfold v', page_image. destruct (Z.ltb_spec k n).
    + rewrite ram_with_out by (rewrite length_replicate; lia). rewrite ram_with_in by lia.
      replace (p + k - p) with k by lia. apply slice_nth; lia.
    + rewrite ram_with_in by (rewrite length_replicate; lia). rewrite nth_lookup, lookup_replicate_2 by lia. done.
Qed.

(** Mapping a page that has been filled. *)
Lemma grown_map file d s a v f m upage p w pos img :
  dirs a !! pagedir s = Some m -> here (m !! pg_no upage) = false -> (p ∉ held a) ->
  let a' := upd (pagedir s) m (pg_no upage) (mk_entry p true w false false) ((({[p]} : gset Z) ∪ held a) ∖ {[p]}) a in
  (forall pd va, view v a' pd va = if decide (pd = pagedir s /\ pg_no va = pg_no upage) then Some (img (pg_ofs va))
                                   else view (vmof s) a pd va) ->
  fl_ok f -> fl_file f file = Some (d, pos) -> 0 <= pos ->
  grown file d s a (set_files f (set_vm v s)) a'.
Proof.
  intros Hd Hh Hp a' Hv Hf Hfl Hpos. split; cbn [set_files set_vm p_kernel pagedir p_files set_kernel]; try done.
  - by exists v.
  - by exists pos.
  - unfold a', upd. cbn [held]. apply leibniz_equiv. set_solver.
  - intros pd Hpd. unfold a', upd. cbn [dirs]. by rewrite lookup_insert_ne.
  - unfold a', upd. cbn [dirs]. rewrite lookup_insert_eq. by eexists.
  - intros pd va x Hx. change (vmof _) with v. rewrite Hv. rewrite decide_False; [done|]. intros [-> Hpg].
    unfold view in Hx. rewrite Hd in Hx. cbn [mbind option_bind] in Hx. rewrite Hpg in Hx. unfold here in Hh.
    destruct (m !! pg_no upage) as [e|]; [|done]. by rewrite Hh in Hx.
  - intros pd va Hpd. etransitivity; [apply Hv|]. by rewrite decide_False by naive_solver.
Qed.

(** A failure gives the page back. *)
Lemma fail_back f s a v ff own m p file d pos :
  vm_inv f v (with_held a ({[p]} ∪ held a)) own -> (p ∉ held a) -> dirs a !! pagedir s = Some m ->
  (forall pd va, view v a pd va = view (vmof s) a pd va) -> fl_ok ff -> fl_file ff file = Some (d, pos) -> 0 <= pos ->
  exists s' own', (on_vm (on_pal (palloc_free_page p)) ;; mret false) (set_files ff (set_vm v s)) = Ok (false, s') /\
    vm_inv f (vmof s') a own' /\ grown file d s a s' a.
Proof.
  intros Hi Hp Hd Hv Hf Hfl Hpos.
  destruct (give_back f (set_files ff (set_vm v s)) a own p (held a) Hi Hp eq_refl) as (v3 & own3 & Hr3 & Hi3 & Hv3).
  rewrite (bindM_step _ _ _ _ _ Hr3). exists (set_files ff (set_vm v3 s)), own3. split; [done|]. split; [exact Hi3|].
  eapply grown_data; [|done|done|done|done|exact Hfl|done|by exists m]. intros pd va. rewrite Hv3. apply Hv.
Qed.

(** Writing into a held page changes no view. *)
Lemma view_write f v a own p bs pd va :
  vm_inv f v a own -> own !! p = Some RHeld -> Z.of_nat (length bs) <= 4096 ->
  vm_inv f (ram_with p bs v) a own /\ view (ram_with p bs v) a pd va = view v a pd va.
Proof.
  intros Hi Hp Hl. assert (~ is_meta RHeld) as Hnm by (by intros []).
  destruct (write_ram_inv _ _ _ Hram f v a own p RHeld 0 bs Hi Hp Hnm) as (_ & Hi1 & Hd1); [lia|lia|]. rewrite Z.add_0_r in *.
  split; [done|]. unfold view. destruct (dirs a !! pd) as [m|] eqn:Hm; [|done]. cbn [mbind option_bind].
  destruct (m !! pg_no va) as [e|] eqn:He; [|done]. destruct (present e) eqn:Hpr; [|done]. f_equal.
  pose proof (frame_role _ _ _ _ _ _ _ _ _ _ _ Hi Hm He Hpr) as Hfr.
  apply (Hd1 _ (RFrame pd (pg_no va))); [|by intros []|rewrite pg_ofs_mod; zlia].
  apply lookup_delete_Some. split; [intros ->; congruence|done].
Qed.

Lemma read_in_ok f s a own m file d pos upage n w :
  vm_inv f (vmof s) a own -> dirs a !! pagedir s = Some m -> 0 <= upage < PB -> upage mod 4096 = 0 ->
  fl_ok (p_files s) -> fl_file (p_files s) file = Some (d, pos) -> 0 <= pos -> 0 <= n <= 4096 ->
  exists b s' a' own', read_page ram_pages file upage n (4096 - n) w s = Ok (b, s') /\ vm_inv f (vmof s') a' own' /\
    grown file d s a s' a' /\
    (b = true -> fl_file (p_files s') file = Some (d, pos + n) /\ pos + n <= Z.max pos (Z.of_nat (length d)) /\
       forall va, pg_no va = pg_no upage -> view (vmof s') a' (pagedir s) va = Some (page_image d pos n (pg_ofs va))).
Proof.
  intros Hi Hd Hu Hal Hf Hfl Hpos Hn. unfold read_page.
  destruct (hold_page _ _ _ Hram f (vmof s) a own PAL_USER Hi eq_refl) as (p & v1 & own1 & Hr1 & Hv1 & Hc).
  rewrite (bindM_step _ _ _ _ _ (on_vm_step _ s _ _ Hr1)).
  destruct Hc as [[-> Hi1]|(Hp0 & Hph & Hi1 & Ho1 & _)].
  { exists false, (set_vm v1 s), a, own1. split; [done|]. split; [exact Hi1|]. split; [|done].
    assert (set_vm v1 s = set_files (p_files s) (set_vm v1 s)) as -> by done. by eapply grown_data. }
  rewrite (proj2 (Z.eqb_neq p NULL)) by done.
  destruct (fl_read_ok (p_files s) file d pos n Hf Hfl) as (f1 & Hrd & Hf1 & Hfl1 & _); [unfold FILE_MAX; lia|].
  assert (on_files (fl_read file n) (set_vm v1 s) = Ok (slice d pos n, set_files f1 (set_vm v1 s))) as Hrd' by (by apply on_files_step).
  rewrite (bindM_step _ _ _ _ _ Hrd'). set (s1 := set_files f1 (set_vm v1 s)) in *. pose proof (slice_length d pos n) as Hsl.
  assert (on_vm (write_ram p (slice d pos n)) s1 = Ok (tt, set_vm (ram_with p (slice d pos n) v1) s1)) as Hw1 by (by apply on_vm_step).
  rewrite (bindM_step _ _ _ _ _ Hw1). set (v2 := ram_with p (slice d pos n) v1) in *.
  destruct (Z.eqb_spec (Z.of_nat (length (slice d pos n))) n) as [Hlen|Hshort]; cbn [negb].
  2: { (* the file ends early *)
    destruct (view_write f v1 _ own1 p (slice d pos n) 0 0 Hi1 Ho1) as [Hi2 _]; [lia|].
    destruct (fail_back f s a v2 f1 own1 m p file d (pos + Z.of_nat (length (slice d pos n))) Hi2 Hph Hd) as (s' & own' & Hr & Hi' & Hg); [|done|exact Hfl1|lia|].
    - intros pd va. rewrite <- Hv1. exact (proj2 (view_write f v1 _ own1 p (slice d pos n) pd va Hi1 Ho1 ltac:(lia))).
    - exists false, s', a, own'. done. }
  destruct (fill_page f v1 _ own1 p d pos n Hi1 Ho1 Hpos Hn Hlen) as (Hi3 & Hv3 & Himg). fold v2 in Hi3, Hv3, Himg.
  set (v3 := ram_with (p + n) (replicate (Z.to_nat (4096 - n)) 0) v2) in *.
  assert (on_vm (write_ram (p + n) (replicate (Z.to_nat (4096 - n)) 0)) (set_vm v2 s1) = Ok (tt, set_vm v3 (set_vm v2 s1))) as Hw2
    by (by apply on_vm_step).
  rewrite (bindM_step _ _ _ _ _ Hw2). set (s3 := set_vm v3 (set_vm v2 s1)) in *.
  destruct (install_ok f s3 _ own1 m upage p w Hi3 Hd Hu Hal) as (b & v4 & own4 & Hr4 & Hc); [cbn [held with_held]; set_solver|].
  rewrite (bindM_step _ _ _ _ _ Hr4). destruct Hc as [(-> & Hi4 & Hv4)|(-> & Hh & Hi4 & Hv4)].
  - destruct (fail_back f s a v4 f1 own4 m p file d (pos + Z.of_nat (length (slice d pos n))) Hi4 Hph Hd) as (s' & own' & Hr & Hi' & Hg); [|done|exact Hfl1|lia|].
    + intros pd va. etransitivity; [exact (Hv4 pd va)|]. etransitivity; [exact (Hv3 pd va)|]. apply Hv1.
    + exists false, s', a, own'. done.
  - eexists true, (set_vm v4 s3), _, own4. split; [done|]. split; [exact Hi4|].
    assert (set_vm v4 s3 = set_files f1 (set_vm v4 s)) as -> by done. split.
    + eapply (grown_map file d s a v4 f1 m upage p w (pos + Z.of_nat (length (slice d pos n))) (page_image d pos n)); try done; [|lia].
      intros pd va. etransitivity; [exact (Hv4 pd va)|]. change (pagedir s3) with (pagedir s). case_decide; [|etransitivity; [exact (Hv3 pd va)|apply Hv1]].
      f_equal. apply Himg. rewrite pg_ofs_mod. zlia.
    + intros _. split; [rewrite <- Hlen; exact Hfl1|]. split.
      * unfold slice in Hlen. rewrite length_take, length_drop in Hlen. lia.
      * intros va Hpg. etransitivity; [exact (Hv4 (pagedir s) va)|].
        rewrite decide_True by done. f_equal. apply Himg. rewrite pg_ofs_mod. zlia.
Qed.

(** ** Segments *)

(** One page of a segment of [r] bytes from the file and [z] zeros. *)
Lemma page_split r z :
  0 <= r -> 0 <= z -> 0 < r \/ 0 < z -> (r + z) mod 4096 = 0 ->
  let k := if r <? PGSIZE then r else PGSIZE in
  0 <= k <= 4096 /\ k <= r /\ 4096 - k <= z /\ (k < 4096 -> k = r) /\ (r - k + (z - (4096 - k))) mod 4096 = 0.
Proof.
  intros Hr Hz Hp Hm k. apply Z.mod_divide in Hm as [q Hq]; [|done].
  assert ((r - k + (z - (4096 - k))) = (q - 1) * 4096) as -> by lia. rewrite Z_mod_mult. unfold k. change PGSIZE with 4096. destruct (Z.ltb_spec r 4096); lia.
Qed.

(** The loop over the pages of a segment. *)
Lemma load_pages_ok fuel : forall f s a own file d pos ofs upage r z n w,
  vm_inv f (vmof s) a own -> is_Some (dirs a !! pagedir s) -> fl_ok (p_files s) -> fl_file (p_files s) file = Some (d, pos) ->
  0 <= pos -> 0 <= r -> 0 <= z -> (r + z) mod 4096 = 0 -> 0 <= upage -> upage mod 4096 = 0 -> upage + (r + z) <= PB ->
  r + z < 4096 * Z.of_nat fuel ->
  exists b s' a' own', load_pages false ram_pages fuel file ofs upage r z n w s = Ok (b, s') /\ vm_inv f (vmof s') a' own' /\
    grown file d s a s' a' /\
    (b = true -> pos + r <= Z.max pos (Z.of_nat (length d)) /\
       forall i, 0 <= i < r + z -> view (vmof s') a' (pagedir s) (upage + i) = Some (page_image d pos r i)).
Proof.
  induction fuel as [|fuel IH]; intros f s a own file d pos ofs upage r z n w Hi [m Hd] Hf Hfl Hpos Hr Hz Hrz Hu Hal Htop Hfu; [lia|].
  cbn [load_pages]. destruct ((0 <? r) || (0 <? z)) eqn:E.
  2: { apply orb_false_iff in E as [Er%Z.ltb_ge Ez%Z.ltb_ge]. exists true, s, a, own. split; [done|]. split; [done|].
       split; [by eapply grown_refl|]. intros _. split; lia. }
  assert (0 < r \/ 0 < z) as E' by (apply orb_true_iff in E as [E%Z.ltb_lt|E%Z.ltb_lt]; auto).
  pose proof (page_split r z Hr Hz E' Hrz) as Hk. cbv zeta in *. set (k := if r <? PGSIZE then r else PGSIZE) in *.
  destruct Hk as (Hk & Hkr & Hkz & Hlast & Hrz'). change PGSIZE with 4096 in *.
  destruct (read_in_ok f s a own m file d pos upage k w Hi Hd ltac:(lia) Hal Hf Hfl Hpos Hk) as (b & s1 & a1 & own1 & Hr1 & Hi1 & Hg1 & Hb).
  rewrite (bindM_step _ _ _ _ _ Hr1). destruct b; [|by exists false, s1, a1, own1].
  destruct (Hb eq_refl) as (Hfl1 & Hlen & Hview). clear Hb. rewrite !u32_small by lia.
  destruct (IH f s1 a1 own1 file d (pos + k) ofs (upage + 4096) (r - k) (z - (4096 - k)) (n + 1) w Hi1) as (b & s2 & a2 & own2 & Hr2 & Hi2 & Hg2 & Hb);
    try (rewrite (gr_dir _ _ _ _ _ _ Hg1); apply (gr_mine _ _ _ _ _ _ Hg1)); try apply Hg1; try lia; [done| |].
  { rewrite <- Z.add_mod_idemp_r by done. cbn. by rewrite Z.add_0_r. }
  exists b, s2, a2, own2. split; [done|]. split; [done|]. split; [by eapply grown_trans|]. intros ->. destruct (Hb eq_refl) as [Hlen2 Hv2].
  rewrite (gr_dir _ _ _ _ _ _ Hg1) in Hv2. split; [lia|]. intros i Hi'. destruct (Z.lt_ge_cases i 4096).
  - apply (gr_view _ _ _ _ _ _ Hg2). rewrite Hview.
    + f_equal. unfold page_image.
      rewrite pg_ofs_mod. replace ((upage + i) mod 4096) with i by zlia. zcases.
    + rewrite !pg_no_div. zlia.
  - replace (upage + i) with (upage + 4096 + (i - 4096)) by lia. rewrite Hv2 by lia. f_equal. unfold page_image.
    replace (pos + k + (i - 4096)) with (pos + i + (k - 4096)) by lia. zcases. do 2 f_equal. lia.
Qed.

(** The segment that [h] describes is in memory: the bytes of the file, then zeros. *)
Definition segment_loaded (d : list Z) (v : vm) (a : space) (pd : Z) (h : Elf32_Phdr) : Prop :=
  forall k, 0 <= k < p_memsz h ->
    view v a pd (p_vaddr h + k) = Some (if k <? p_filesz h then nth (Z.to_nat (p_offset h + k)) d 0 else 0).

(** Enough iterations for every page below [PHYS_BASE]. *)
Definition enough (fuel : nat) : Prop := PB < 4096 * Z.of_nat fuel.

Lemma load_segment_ok fuel f s a own file d pos h :
  enough fuel -> vm_inv f (vmof s) a own -> is_Some (dirs a !! pagedir s) -> fl_ok (p_files s) ->
  fl_file (p_files s) file = Some (d, pos) -> phdr_ok h -> validate_segment h (Z.of_nat (length d)) = true ->
  exists b s' a' own', load_segment false ram_pages fuel file (segment_placement h) s = Ok (b, s') /\
    vm_inv f (vmof s') a' own' /\ grown file d s a s' a' /\
    (b = true -> segment_loaded d (vmof s') a' (pagedir s) h).
Proof.
  intros Hfu Hi Hd Hf Hfl Hh Hval. destruct (fl_file_ok _ _ _ _ Hf Hfl) as (_ & _ & Hlen & _).
  pose proof (placement_ok h (Z.of_nat (length d)) Hh ltac:(lia) Hval) as Hpl. cbv zeta in Hpl.
  pose proof (ph_vaddr h Hh) as Hva. pose proof (ph_filesz h Hh) as Hfs. pose proof (ph_memsz h Hh) as Hms.
  destruct (segment_placement h) as [ofs up r z w]. cbn [pl_ofs pl_upage pl_read pl_zero] in Hpl.
  destruct Hpl as (Eofs & Hofs & Hom & Eup & Er & Hz & Hrz & Hm & Htop).
  pose proof (Z.mod_pos_bound (p_vaddr h) 4096 eq_refl) as Hpo.
  assert (0 <= up /\ up mod 4096 = 0 /\ 0 <= r) as (Hup & Hupm & Hr0) by (split_and!; [zlia|zlia|rewrite Er; zcases]).
  unfold load_segment. cbn [pl_ofs pl_upage pl_read pl_zero pl_writable]. change PGSIZE with 4096. rewrite pg_ofs_mod.
  rewrite (u32_small (r + z)) by lia. rewrite Z.rem_mod_nonneg by lia. rewrite Hm, Hupm, Hom. cbn [Z.eqb].
  rewrite !bindM_assert by done.
  destruct (fl_seek_ok _ _ _ _ ofs Hf Hfl) as (f1 & Hsk & Hf1 & Hfl1 & _); [lia|].
  rewrite (bindM_step _ _ _ _ _ (on_files_step _ s _ _ Hsk)).
  destruct (load_pages_ok fuel f (set_files f1 s) a own file d ofs ofs up r z 0 w) as (b & s' & a' & own' & Hr & Hi' & Hg & Hb);
    try done; try lia; [unfold enough in Hfu; lia|].
  exists b, s', a', own'. split; [done|]. split; [done|]. split.
  { eapply grown_trans; [|exact Hg]. assert (set_files f1 s = set_files f1 (set_vm (vmof s) s)) as -> by (by destruct s as [[]]).
    eapply grown_data; try done; lia. }
  intros ->. destruct (Hb eq_refl) as [_ Hv]. intros k Hk. specialize (Hv (p_vaddr h mod 4096 + k) ltac:(lia)).
  replace (p_vaddr h + k) with (up + (p_vaddr h mod 4096 + k)) by lia.
  etransitivity; [exact Hv|]. unfold page_image. subst r.
  replace (ofs + (p_vaddr h mod 4096 + k)) with (p_offset h + k) by lia. clear Hv Hb.
  destruct (Z.ltb_spec 0 (p_filesz h)), (Z.ltb_spec k (p_filesz h)); zcases; done || lia.
Qed.

(** ** The stack *)

Lemma setup_stack_ok f s a own file d pos :
  vm_inv f (vmof s) a own -> is_Some (dirs a !! pagedir s) -> fl_ok (p_files s) ->
  fl_file (p_files s) file = Some (d, pos) -> 0 <= pos ->
  exists b s' a' own', setup_stack ram_pages s = Ok (b, s') /\ vm_inv f (vmof s') a' own' /\ grown file d s a s' a' /\
    (b = true -> forall va, PB - 4096 <= va < PB -> view (vmof s') a' (pagedir s) va = Some 0).
Proof.
  intros Hi [m Hd] Hf Hfl Hpos. unfold setup_stack.
  destruct (hold_page _ _ _ Hram f (vmof s) a own (Z.lor PAL_USER PAL_ZERO) Hi eq_refl) as (p & v1 & own1 & Hr1 & Hv1 & Hc).
  rewrite (bindM_step _ _ _ _ _ (on_vm_step _ s _ _ Hr1)).
  destruct Hc as [[-> Hi1]|(Hp0 & Hph & Hi1 & Ho1 & Hzero)].
  { exists false, (set_vm v1 s), a, own1. split; [done|]. split; [exact Hi1|]. split; [|done].
    assert (set_vm v1 s = set_files (p_files s) (set_vm v1 s)) as -> by done. by eapply grown_data. }
  rewrite (proj2 (Z.eqb_neq p NULL)) by done.
  destruct (install_ok f (set_vm v1 s) _ own1 m (PB - 4096) p true Hi1 Hd) as (b & v4 & own4 & Hr4 & Hc); [lia|done|cbn [held with_held]; set_solver|].
  change (PHYS_BASE - PGSIZE) with (PB - 4096).
  rewrite (bindM_step _ _ _ _ _ Hr4). destruct Hc as [(-> & Hi4 & Hv4)|(-> & Hh & Hi4 & Hv4)].
  - destruct (fail_back f s a v4 (p_files s) own4 m p file d pos Hi4 Hph Hd) as (s' & own' & Hr & Hi' & Hg); [|done|exact Hfl|lia|].
    + intros pd va. etransitivity; [exact (Hv4 pd va)|]. apply Hv1.
    + exists false, s', a, own'. done.
  - eexists true, (set_vm v4 (set_vm v1 s)), _, own4. split; [done|]. split; [exact Hi4|].
    assert (set_vm v4 (set_vm v1 s) = set_files (p_files s) (set_vm v4 s)) as -> by done. split.
    + eapply (grown_map file d s a v4 (p_files s) m (PB - 4096) p true pos (fun _ => 0)); try done.
      intros pd va. etransitivity; [exact (Hv4 pd va)|]. change (pagedir (set_vm v1 s)) with (pagedir s). case_decide; [|apply Hv1].
      f_equal. apply Hzero; [done|]. rewrite pg_ofs_mod. zlia.
    + intros _ va Hva. etransitivity; [exact (Hv4 (pagedir s) va)|]. rewrite decide_True.
      * f_equal. apply Hzero; [done|]. rewrite pg_ofs_mod. zlia.
      * split; [done|]. rewrite !pg_no_div. zlia.
Qed.

(** ** The headers *)

Lemma set_files_grown file d s a f pos :
  fl_ok f -> fl_file f file = Some (d, pos) -> 0 <= pos -> is_Some (dirs a !! pagedir s) -> grown file d s a (set_files f s) a.
Proof.
  intros Hf Hfl Hpos Hd. assert (set_files f s = set_files f (set_vm (vmof s) s)) as -> by (by destruct s as [[]]).
  by eapply grown_data.
Qed.

(** Reading [n] bytes at [ofs] of the file. *)
Lemma seek_read f s a own file d pos ofs n :
  vm_inv f (vmof s) a own -> is_Some (dirs a !! pagedir s) -> fl_ok (p_files s) -> fl_file (p_files s) file = Some (d, pos) ->
  0 <= ofs < FILE_MAX -> 0 <= n < FILE_MAX ->
  exists f1 f2, on_files (fl_seek file ofs) s = Ok (tt, set_files f1 s) /\
    on_files (fl_read file n) (set_files f1 s) = Ok (slice d ofs n, set_files f2 s) /\
    fl_ok f2 /\ fl_file f2 file = Some (d, ofs + Z.of_nat (length (slice d ofs n))).
Proof.
  intros Hi Hd Hf Hfl Hofs Hn.
  destruct (fl_seek_ok _ _ _ _ ofs Hf Hfl Hofs) as (f1 & Hsk & Hf1 & Hfl1 & _).
  destruct (fl_read_ok f1 file d ofs n Hf1 Hfl1 (proj2 Hn)) as (f2 & Hrd & Hf2 & Hfl2 & _).
  exists f1, f2. split; [by apply on_files_step|]. split; [|done]. exact (on_files_step _ (set_files f1 s) _ _ Hrd).
Qed.

Lemma length_read file d s pos :
  fl_ok (p_files s) -> fl_file (p_files s) file = Some (d, pos) -> on_files (fl_length file) s = Ok (Z.of_nat (length d), s).
Proof. intros Hf Hfl. pose proof (fl_length_ok _ _ _ _ Hf Hfl) as Hl. rewrite (on_files_step _ s _ _ Hl). by destruct s. Qed.

Lemma load_header_ok fuel f s a own file d pos h :
  enough fuel -> vm_inv f (vmof s) a own -> is_Some (dirs a !! pagedir s) -> fl_ok (p_files s) ->
  fl_file (p_files s) file = Some (d, pos) -> 0 <= pos -> phdr_ok h ->
  exists b s' a' own', load_header false ram_pages fuel file h s = Ok (b, s') /\
    vm_inv f (vmof s') a' own' /\ grown file d s a s' a' /\
    (b = true -> p_type h = PT_LOAD -> segment_loaded d (vmof s') a' (pagedir s) h).
Proof.
  intros Hfu Hi Hd Hf Hfl Hpos Hh. unfold load_header.
  assert (grown file d s a s a) as Hrefl by (by eapply grown_refl).
  destruct (_ || _ || _); [by exists false, s, a, own|].
  destruct (Z.eqb_spec (p_type h) PT_LOAD) as [Ht|Ht]; [|by exists true, s, a, own].
  rewrite (bindM_step _ _ _ _ _ (length_read file d s pos Hf Hfl)).
  destruct (validate_segment h _) eqn:Hval; [|by exists false, s, a, own].
  destruct (load_segment_ok fuel f s a own file d pos h Hfu Hi Hd Hf Hfl Hh Hval) as (b & s' & a' & own' & Hr & Hi' & Hg & Hb).
  exists b, s', a', own'. split; [done|]. split; [done|]. split; [done|]. intros E _. by apply Hb.
Qed.

(** Segments already in memory stay there. *)
Lemma segment_grown file d s a s' a' h :
  grown file d s a s' a' -> segment_loaded d (vmof s) a (pagedir s) h -> segment_loaded d (vmof s') a' (pagedir s) h.
Proof. intros Hg Hl k Hk. by apply (gr_view _ _ _ _ _ _ Hg), Hl. Qed.

Lemma load_headers_ok fuel n : forall f s a own file d pos ofs,
  enough fuel -> vm_inv f (vmof s) a own -> is_Some (dirs a !! pagedir s) -> fl_ok (p_files s) ->
  fl_file (p_files s) file = Some (d, pos) -> 0 <= pos ->
  exists b s' a' own', load_headers false ram_pages n fuel file ofs s = Ok (b, s') /\
    vm_inv f (vmof s') a' own' /\ grown file d s a s' a' /\
    (b = true -> forall i, 0 <= i < Z.of_nat n -> 0 <= ofs + 32 * i /\ ofs + 32 * i + 32 <= Z.of_nat (length d) /\
       (p_type (phdr_at d (ofs + 32 * i)) = PT_LOAD ->
        segment_loaded d (vmof s') a' (pagedir s) (phdr_at d (ofs + 32 * i)))).
Proof.
  induction n as [|n IH]; intros f s a own file d pos ofs Hfu Hi Hd Hf Hfl Hpos; cbn [load_headers].
  { exists true, s, a, own. split; [done|]. split; [done|]. split; [by eapply grown_refl|]. intros _ i Hi'. lia. }
  assert (grown file d s a s a) as Hrefl by (by eapply grown_refl).
  rewrite (bindM_step _ _ _ _ _ (length_read file d s pos Hf Hfl)).
  destruct (fl_file_ok _ _ _ _ Hf Hfl) as (_ & Hbytes & Hlen & _).
  destruct (Z.ltb_spec ofs 0) as [Hneg|Hneg]; [by exists false, s, a, own|].
  destruct (Z.ltb_spec (Z.of_nat (length d)) ofs) as [Hbig|Hbig]; [by exists false, s, a, own|]. cbn [orb].
  destruct (seek_read f s a own file d pos ofs sizeof_Phdr Hi Hd Hf Hfl) as (f1 & f2 & Hsk & Hrd & Hf2 & Hfl2); [lia|done|].
  rewrite (bindM_step _ _ _ _ _ Hsk), (bindM_step _ _ _ _ _ Hrd).
  assert (grown file d s a (set_files f2 s) a) as Hg1 by (eapply set_files_grown; [done|exact Hfl2|lia|done]).
  destruct (Z.eqb_spec (Z.of_nat (length (slice d ofs sizeof_Phdr))) sizeof_Phdr) as [Hfull|]; cbn [negb];
    [|by exists false, (set_files f2 s), a, own].
  assert (phdr_ok (phdr_at d ofs)) as Hh by (apply read_phdr_ok; by apply Forall_take, Forall_drop).
  destruct (load_header_ok fuel f (set_files f2 s) a own file d _ (phdr_at d ofs) Hfu Hi Hd Hf2 Hfl2 ltac:(lia) Hh)
    as (b & s3 & a3 & own3 & Hr3 & Hi3 & Hg3 & Hb3).
  rewrite (bindM_step _ _ _ _ _ Hr3). pose proof (grown_trans _ _ _ _ _ _ _ _ Hg1 Hg3) as Hg13.
  destruct b; [|by exists false, s3, a3, own3].
  destruct (gr_file _ _ _ _ _ _ Hg3) as (pos3 & Hpos3 & Hfl3).
  assert (is_Some (dirs a3 !! pagedir s3)) as Hd3 by (rewrite (gr_dir _ _ _ _ _ _ Hg3); apply (gr_mine _ _ _ _ _ _ Hg3)).
  destruct (IH f s3 a3 own3 file d pos3 (s32 (ofs + sizeof_Phdr)) Hfu Hi3 Hd3 (gr_files _ _ _ _ _ _ Hg3) Hfl3 Hpos3)
    as (b & s4 & a4 & own4 & Hr4 & Hi4 & Hg4 & Hb4).
  exists b, s4, a4, own4. split; [done|]. split; [done|]. split; [by eapply grown_trans|]. intros ->.
  assert (ofs + 32 <= Z.of_nat (length d)) as Hend.
  { unfold slice, sizeof_Phdr in Hfull. rewrite length_take, length_drop in Hfull. lia. }
  assert (s32 (ofs + sizeof_Phdr) = ofs + 32) as E by (apply s32_small; unfold FILE_MAX, sizeof_Phdr in *; lia).
  pose proof (gr_dir _ _ _ _ _ _ Hg13) as Edir. intros i Hi'. destruct (decide (i = 0)) as [->|Hne].
  - rewrite Z.mul_0_r, Z.add_0_r. split; [done|]. split; [done|]. intros Ht. rewrite <- Edir.
    eapply segment_grown; [exact Hg4|]. rewrite Edir. exact (Hb3 eq_refl Ht).
  - specialize (Hb4 eq_refl (i - 1) ltac:(lia)). rewrite E, Edir in Hb4.
    replace (ofs + 32 + 32 * (i - 1)) with (ofs + 32 * i) in Hb4 by lia. exact Hb4.
Qed.

(** ** The file *)

(** The program in [d] is in memory and starts at [eip]. *)
Record exe_loaded (d : list Z) (v : vm) (a : space) (pd eip : Z) : Prop := {
  xl_header : ehdr_bad (Z.of_nat (length (slice d 0 sizeof_Ehdr))) (read_ehdr (slice d 0 sizeof_Ehdr)) = false;
  xl_entry : eip = e_entry (read_ehdr (slice d 0 sizeof_Ehdr));
  xl_segments : forall i, 0 <= i < e_phnum (read_ehdr (slice d 0 sizeof_Ehdr)) ->
    let h := phdr_at d (s32 (e_phoff (read_ehdr (slice d 0 sizeof_Ehdr))) + 32 * i) in
    p_type h = PT_LOAD -> segment_loaded d v a pd h;
  xl_stack : forall va, PB - 4096 <= va < PB -> view v a pd va = Some 0;
}.

(** The page tables are sound and describe the address spaces [a]. *)
Definition sound (v : vm) (a : space) : Prop := exists f own, vm_inv f v a own.

End loader.


(** ** A run: an executable with one segment *)

(** Numbers as they are in a file. *)
Definition le16 (n : Z) : list Z := [n mod 256; n / 256 mod 256].
Definition le32 (n : Z) : list Z := le16 (n mod 65536) ++ le16 (n / 65536).

(** The header, one program header, and four bytes of code that the segment at
    0x8048054 extends by four zeros. *)
Definition demo_exe : list Z :=
  ELF_MAGIC ++ replicate 9 0 ++ le16 2 ++ le16 3 ++ le32 1 ++ le32 0x8048054 ++ le32 52 ++ le32 0 ++ le32 0 ++
  le16 52 ++ le16 32 ++ le16 1 ++ le16 0 ++ le16 0 ++ le16 0 ++
  le32 PT_LOAD ++ le32 84 ++ le32 0x8048054 ++ le32 0x8048054 ++ le32 4 ++ le32 8 ++ le32 5 ++ le32 4096 ++
  [235; 254; 144; 204].

(** One open file, at address 1000, and one page directory. *)
Definition demo_dir : Z * vm := match pagedir_create 48 demo_boot with Ok r => r | Fail _ => (0, demo_boot) end.
Definition demo_proc (d : list Z) : proc heap ramfs :=
  mk_proc (mk_ast ∅ ∅ demo_heap ∅ ∅ (snd demo_dir)) (mk_ramfs [] [d] {[1000 := (0%nat, 0)]}) (fst demo_dir) 0 [] 0.

Definition demo_image (r : res (option Z * proc heap ramfs)) : res (option Z * list Z) :=
  '(r, s) ← r;
  '(_, v) ← pagedir_activate (pagedir s) (umem (p_kernel s));
  '(a, v) ← user_load 48 0x8048054 v; '(b, v) ← user_load 48 0x8048057 v; '(c, v) ← user_load 48 0x804805b v;
  '(e, v) ← user_load 48 0xbfffffff v; Ok (r, [a; b; c; e]).

Example demo_loads : demo_image (load_file false 48 100 1000 (demo_proc demo_exe)) = Ok (Some 0x8048054, [235; 204; 0; 0]).
Proof. vm_compute. reflexivity. Qed.

Definition demo_space : space := mk_space {[fst demo_dir := ∅]} ∅ None.

Lemma exec_create n v pd v' : pagedir_create n v = Ok (pd, v') -> vm_exec n OCreate v = Ok (RAddr pd, v').
Proof. intros Hc. unfold vm_exec. by rewrite (bindM_step _ _ _ _ _ Hc). Qed.

Lemma created_sound v0 pd v :
  running 48 0xc0001000 0xc0003000 v0 (mk_space ∅ ∅ None) -> pagedir_create 48 v0 = Ok (pd, v) -> pd <> NULL ->
  sound 48 0xc0001000 0xc0003000 v (mk_space {[pd := ∅]} ∅ None).
Proof.
  intros H0 Hc%exec_create Hn. pose proof (running_op _ _ _ _ _ OCreate _ _ H0 I Hc) as Hr.
  cbn [vm_next dirs held active] in Hr. rewrite (proj2 (Z.eqb_neq _ _) Hn) in Hr.
  destruct (running_inv 48 0xc0001000 0xc0003000 ltac:(done) v _ Hr) as (f & own & Hi). by exists f, own.
Qed.

Lemma demo_created : pagedir_create 48 demo_boot = Ok (fst demo_dir, snd demo_dir) /\ fst demo_dir <> NULL.
Proof.
  unfold demo_dir. assert (match pagedir_create 48 demo_boot with Ok (pd, _) => negb (pd =? NULL) | Fail _ => false end = true) as Hk
    by (vm_compute; reflexivity).
  destruct (pagedir_create 48 demo_boot) as [[pd v]|e]; [|discriminate Hk].
  split; [reflexivity|]. cbn [fst]. intros ->. discriminate Hk.
Qed.

