(* ===== verification/Syscall.v ===== *)
(** * System calls: userprog/syscall.c

    The handler of interrupt 0x30 and the calls it dispatches to, in the kernel
    without demand paging.  A user program passes the number of the call and
    its arguments as words on its stack; the kernel reads them, and the buffers
    they point to, through the page tables of the process.

    The state is the memory of the process, the file system, the kernel heap,
    the terminal (keyboard and console), the other processes, and the fields of
    the current [struct thread] the calls use.  A [struct open_file] lives at
    the address [malloc] gave it.  [thread_exit] ends the call: its state is
    kept, so that what the thread leaves behind can be seen.  A page fault of
    the kernel sets EAX to -1 and goes on at the address that EAX held: the
    functions that expect a fault put the address of their next instruction
    there ([get_user] and its like); for all others the processor jumps to
    wherever EAX points, a [BadAccess].  Locks are held only around single calls
    of a sequential state, and messages are not kept. *)

From S2P Require Import Prelude Vaddr Mem Alloc Files.

(** ** Interfaces *)

(** Memory through the page tables of the running process, seen by the kernel:
    [as_byte u a] is the byte at [a], if the page is there; [as_store] writes a
    byte, or returns [false] if that faults.  Writing a byte of the program may
    change what is seen at the kernel's own addresses, where all of RAM is
    mapped. *)
Class AddrSpace (U : Type) : Type := {
  as_ok : U -> Prop;
  as_byte : U -> Z -> option Z;
  as_writable : U -> Z -> bool;
  as_store : Z -> Z -> M U bool;
}.

Class AddrSpaceLaws (U : Type) `{AddrSpace U} : Prop := {
  as_byte_ok u a b : as_ok u -> as_byte u a = Some b -> is_byte b;
  as_store_ok u a b : as_ok u -> 0 <= a < PHYS_BASE -> is_byte b -> as_writable u a = true ->
    exists u', as_store a b u = Ok (true, u') /\ as_ok u' /\
      forall a', 0 <= a' < PHYS_BASE ->
        as_byte u' a' = (if a' =? a then Some b else as_byte u a') /\ as_writable u' a' = as_writable u a';
}.

(** devices/input.c and lib/kernel/console.c *)
Class Terminal (T : Type) : Type := { tm_getc : M T Z; tm_putbuf : list Z -> M T unit }.

Class TerminalLaws (T : Type) `{Terminal T} : Prop := {
  tm_getc_ok t : exists b t', tm_getc t = Ok (b, t') /\ is_byte b;
  tm_putbuf_ok t bs : exists t', tm_putbuf bs t = Ok (tt, t');
}.

(** [process_execute] and [process_wait] of userprog/process.c *)
Class Processes (P : Type) : Type := { pr_execute : list Z -> M P Z; pr_wait : Z -> M P Z }.

(** ** Computations that may end the thread *)

Definition E (S A : Type) : Type := S -> res (option A * S).
#[global] Instance E_ret S : MRet (E S) := fun A a s => Ok (Some a, s).
#[global] Instance E_bind S : MBind (E S) :=
  fun A B f m s => match m s with Ok (Some a, s') => f a s' | Ok (None, s') => Ok (None, s') | Fail e => Fail e end.

Definition thread_exit {S A} : E S A := fun s => Ok (None, s).
Definition failE {S A} (e : fault) : E S A := fun _ => Fail e.
Definition runs {S A} (m : M S A) : E S A := fun s => '(a, s) ← m s; Ok (Some a, s).

Lemma bindE_step {S A B} (m : E S A) (f : A -> E S B) s a s1 : m s = Ok (Some a, s1) -> (m ≫= f) s = f a s1.
Proof. unfold mbind, E_bind. by intros ->. Qed.
Lemma bindE_exit {S A B} (m : E S A) (f : A -> E S B) s s1 : m s = Ok (None, s1) -> (m ≫= f) s = Ok (None, s1).
Proof. unfold mbind, E_bind. by intros ->. Qed.
Lemma runs_step {S A} (m : M S A) s a s1 : m s = Ok (a, s1) -> runs m s = Ok (Some a, s1).
Proof. unfold runs. by intros ->. Qed.

(** lib/syscall-nr.h *)
Definition SYS_HALT : Z := 0.
Definition SYS_EXIT : Z := 1.
Definition SYS_EXEC : Z := 2.
Definition SYS_WAIT : Z := 3.
Definition SYS_CREATE : Z := 4.
Definition SYS_REMOVE : Z := 5.
Definition SYS_OPEN : Z := 6.
Definition SYS_FILESIZE : Z := 7.
Definition SYS_READ : Z := 8.
Definition SYS_WRITE : Z := 9.
Definition SYS_SEEK : Z := 10.
Definition SYS_TELL : Z := 11.
Definition SYS_CLOSE : Z := 12.
Definition SYS_MMAP : Z := 13.
Definition SYS_MUNMAP : Z := 14.

(** threads/thread.h *)
Record open_file : Type := mk_open_file { fd : Z; of_file : Z }.
Definition sizeof_open_file : Z := 16.

Record sys (U F H T P : Type) : Type := mk_sys {
  sy_mem : U;
  sy_files : F;
  sy_heap : H;
  sy_term : T;
  sy_procs : P;
  of_at : gmap Z open_file;          (* the structures in use *)
  open_files : list Z;               (* struct thread: open_files *)
  next_fd : Z;                       (* struct thread: next_fd *)
  exit_status : Z;                   (* struct thread: exit_status *)
  exited_by_exit_call : bool;        (* struct thread: exited_by_exit_call *)
}.
Arguments mk_sys {U F H T P}. Arguments sy_mem {U F H T P}. Arguments sy_files {U F H T P}.
Arguments sy_heap {U F H T P}. Arguments sy_term {U F H T P}. Arguments sy_procs {U F H T P}.
Arguments of_at {U F H T P}. Arguments open_files {U F H T P}. Arguments next_fd {U F H T P}.
Arguments exit_status {U F H T P}. Arguments exited_by_exit_call {U F H T P}.

Section syscall.
Context {U F H T P : Type} `{AddrSpace U, Files F, Allocator H, Terminal T, Processes P}.
#[local] Abbreviation st := (sys U F H T P).

Definition set_sy_mem (u : U) (s : st) : st :=
  mk_sys u (sy_files s) (sy_heap s) (sy_term s) (sy_procs s) (of_at s) (open_files s) (next_fd s) (exit_status s) (exited_by_exit_call s).
Definition set_sy_files (f : F) (s : st) : st :=
  mk_sys (sy_mem s) f (sy_heap s) (sy_term s) (sy_procs s) (of_at s) (open_files s) (next_fd s) (exit_status s) (exited_by_exit_call s).
Definition set_sy_heap (h : H) (s : st) : st :=
  mk_sys (sy_mem s) (sy_files s) h (sy_term s) (sy_procs s) (of_at s) (open_files s) (next_fd s) (exit_status s) (exited_by_exit_call s).
Definition set_sy_term (t : T) (s : st) : st :=
  mk_sys (sy_mem s) (sy_files s) (sy_heap s) t (sy_procs s) (of_at s) (open_files s) (next_fd s) (exit_status s) (exited_by_exit_call s).
Definition set_sy_procs (p : P) (s : st) : st :=
  mk_sys (sy_mem s) (sy_files s) (sy_heap s) (sy_term s) p (of_at s) (open_files s) (next_fd s) (exit_status s) (exited_by_exit_call s).
Definition set_table (o : gmap Z open_file) (l : list Z) (n : Z) (s : st) : st :=
  mk_sys (sy_mem s) (sy_files s) (sy_heap s) (sy_term s) (sy_procs s) o l n (exit_status s) (exited_by_exit_call s).
Definition set_exit (status : Z) (s : st) : st :=
  mk_sys (sy_mem s) (sy_files s) (sy_heap s) (sy_term s) (sy_procs s) (of_at s) (open_files s) (next_fd s) status true.

Definition with_mem {X} (m : M U X) : M st X := fun s => '(x, u) ← m (sy_mem s); Ok (x, set_sy_mem u s).
Definition with_files {X} (m : M F X) : M st X := fun s => '(x, f) ← m (sy_files s); Ok (x, set_sy_files f s).
Definition with_heap {X} (m : M H X) : M st X := fun s => '(x, h) ← m (sy_heap s); Ok (x, set_sy_heap h s).
Definition with_term {X} (m : M T X) : M st X := fun s => '(x, t) ← m (sy_term s); Ok (x, set_sy_term t s).
Definition with_procs {X} (m : M P X) : M st X := fun s => '(x, p) ← m (sy_procs s); Ok (x, set_sy_procs p s).

(** ** Access to user memory *)

Definition get_user (uaddr : Z) : E st Z := fun s =>
  Ok (Some (match as_byte (sy_mem s) uaddr with Some b => b | None => -1 end), s).

Definition put_user (udst byte : Z) : E st bool := runs (with_mem (as_store udst byte)).

(** The word at [a]; [None] if one of its bytes is not there. *)
Definition word_of (u : U) (a : Z) : option Z :=
  b0 ← as_byte u a; b1 ← as_byte u (u32 (a + 1)); b2 ← as_byte u (u32 (a + 2)); b3 ← as_byte u (u32 (a + 3));
  Some (b0 + 2 ^ 8 * b1 + 2 ^ 16 * b2 + 2 ^ 24 * b3).

(** The result as an unsigned word: a fault leaves -1 in it. *)
Definition get_user32 (uaddr : Z) : E st Z := fun s =>
  Ok (Some (match word_of (sy_mem s) uaddr with Some w => w | None => u32 (-1) end), s).

Definition check_phys_base (ptr : Z) : E st unit :=
  if PHYS_BASE <=? ptr then thread_exit else mret tt.

(** The loop of the two functions below; [i] counts the pages.  Addresses wrap
    around. *)
Fixpoint check_pages (fuel : nat) (bad : Z -> E st bool) (buf size i : Z) : E st unit :=
  match fuel with
  | O => failE NoFuel
  | S fuel =>
      let cur := u32 (buf + i * PGSIZE) in
      if cur <? u32 (buf + size - 1) then
        b ← bad cur;
        if b : bool then thread_exit else check_pages fuel bad buf size (i + 1)
      else mret tt
  end.

Definition check_buf_size (fuel : nat) (buf size : Z) : E st unit :=
  check_pages fuel (fun cur => b ← get_user cur; mret (b =? -1)) buf size 0.

(** The result of [put_user], a [bool], is compared with -1. *)
Definition check_buf_size_put (fuel : nat) (buf size : Z) : E st unit :=
  check_pages fuel (fun cur => b ← put_user cur 0; mret (Z.b2z b =? -1)) buf size 0.

Definition check_char (str : Z) : E st unit :=
  b ← get_user str;
  _ ← (if b =? -1 then thread_exit else mret tt);
  check_phys_base str.

(** Reads of the kernel that do not expect a fault. *)
Definition load_byte (a : Z) : E st Z := fun s =>
  match as_byte (sy_mem s) (u32 a) with Some b => Ok (Some b, s) | None => Fail BadAccess end.
Definition store_byte (a b : Z) : E st unit := fun s =>
  '(ok, u) ← as_store (u32 a) b (sy_mem s); if ok : bool then Ok (Some tt, set_sy_mem u s) else Fail BadAccess.

Fixpoint check_rest (fuel : nat) (str : Z) : E st unit :=
  match fuel with
  | O => failE NoFuel
  | S fuel =>
      b ← load_byte str;
      if b =? 0 then mret tt
      else
        let str := u32 (str + 1) in
        _ ← check_char str;
        check_rest fuel str
  end.

Definition check_string (fuel : nat) (str_ : Z) : E st unit :=
  _ ← check_char str_;
  check_rest fuel str_.

Definition extract_arg (esp : Z) : E st Z :=
  _ ← check_phys_base esp;
  value ← get_user32 esp;
  if value =? u32 (-1) then thread_exit else mret value.

(** A string, up to its terminator. *)
Fixpoint load_string (fuel : nat) (a : Z) : E st (list Z) :=
  match fuel with
  | O => failE NoFuel
  | S fuel => b ← load_byte a; if b =? 0 then mret [] else bs ← load_string fuel (a + 1); mret (b :: bs)
  end.

Fixpoint load_bytes (n : nat) (a : Z) : E st (list Z) :=
  match n with O => mret [] | S n => b ← load_byte a; bs ← load_bytes n (a + 1); mret (b :: bs) end.

Fixpoint store_bytes (a : Z) (bs : list Z) : E st unit :=
  match bs with [] => mret tt | b :: bs => _ ← store_byte a b; store_bytes (a + 1) bs end.

(** ** The table of open files *)

Definition of_get (p : Z) : E st open_file := fun s =>
  match of_at s !! p with Some o => Ok (Some o, s) | None => Fail BadAccess end.

Fixpoint find_loop (l : list Z) (d : Z) : E st Z :=
  match l with
  | [] => mret NULL
  | p :: l => o ← of_get p; if d =? fd o then mret (of_file o) else find_loop l d
  end.

Definition find_open_file (d : Z) : E st Z := l ← runs (gets open_files); find_loop l d.

(** [done] is the part of the list before the current element. *)
Fixpoint remove_loop (done l : list Z) (d : Z) : E st bool :=
  match l with
  | [] => mret false
  | p :: l =>
      o ← of_get p;
      if d =? fd o then
        _ ← runs (modify (fun s => set_table (delete p (of_at s)) (done ++ l) (next_fd s) s));
        _ ← runs (with_heap (al_free p));
        mret true
      else remove_loop (done ++ [p]) l d
  end.

Definition remove_open_file (d : Z) : E st bool := l ← runs (gets open_files); remove_loop [] l d.

(** ** The calls

    [esp] is the address of the call's number; the arguments follow it. *)
Section calls.
Context (fuel : nat).

Definition arg (esp n : Z) : E st Z := extract_arg (u32 (esp + 4 * n)).

Definition exit (esp : Z) : E st unit :=
  v ← arg esp 1;
  _ ← runs (modify (set_exit (s32 v)));
  thread_exit.

Definition exec (esp : Z) : E st Z :=
  _ ← check_phys_base (u32 (esp + 4));
  a ← arg esp 1;
  _ ← check_string fuel a;
  name ← load_string fuel a;
  runs (with_procs (pr_execute name)).

Definition wait (esp : Z) : E st Z :=
  _ ← check_phys_base (u32 (esp + 4));
  pid ← arg esp 1;
  runs (with_procs (pr_wait (s32 pid))).

(** [while (len < size)] of a read from the keyboard. *)
Fixpoint getc_loop (n : nat) (buf : Z) : E st unit :=
  match n with
  | O => mret tt
  | S n => c ← runs (with_term tm_getc); _ ← store_byte buf c; getc_loop n (u32 (buf + 1))
  end.

Definition read (esp : Z) : E st Z :=
  d ← arg esp 1;
  let d := s32 d in
  if d =? 1 then mret (-1)
  else
    buf ← arg esp 2;
    _ ← check_phys_base buf;
    size ← arg esp 3;
    _ ← check_buf_size_put fuel buf size;
    if d =? 0 then _ ← getc_loop (Z.to_nat size) buf; mret (s32 size)
    else
      file ← find_open_file d;
      if file =? NULL then mret (-1)
      else
        bs ← runs (with_files (fl_read file (s32 size)));
        _ ← store_bytes buf bs;
        mret (Z.of_nat (length bs)).

Definition write (esp : Z) : E st Z :=
  d ← arg esp 1;
  let d := s32 d in
  if d =? 0 then mret (-1)
  else
    buf ← arg esp 2;
    _ ← check_phys_base buf;
    size ← arg esp 3;
    _ ← check_buf_size fuel buf size;
    if d =? 1 then
      bs ← load_bytes (Z.to_nat size) buf;
      _ ← runs (with_term (tm_putbuf bs));
      mret (s32 size)
    else
      file ← find_open_file d;
      if file =? NULL then mret (-1)
      else
        u ← runs (gets sy_mem);
        runs (with_files (fl_write file (s32 size) (fun i => as_byte u (u32 (buf + i))))).

(** [sizeof (filename)] is the size of a pointer. *)
Definition create (esp : Z) : E st bool :=
  filename ← arg esp 1;
  _ ← check_phys_base filename;
  _ ← check_buf_size fuel filename 4;
  size ← arg esp 2;
  name ← load_string fuel filename;
  runs (with_files (fl_create name (s32 size))).

Definition open (esp : Z) : E st Z :=
  filename ← arg esp 1;
  _ ← check_phys_base filename;
  _ ← check_buf_size fuel filename 4;
  name ← load_string fuel filename;
  file ← runs (with_files (fl_open name));
  if file =? NULL then mret (-1)
  else
    p ← runs (with_heap (al_malloc sizeof_open_file));
    if p =? NULL then failE NullAccess
    else
      d ← runs (gets next_fd);
      _ ← runs (modify (fun s => set_table (<[p := mk_open_file d file]> (of_at s)) (p :: open_files s) (s32 (d + 1)) s));
      mret d.

Definition filesize (esp : Z) : E st Z :=
  d ← arg esp 1;
  let d := s32 d in
  if (d =? 0) || (d =? 1) then thread_exit
  else
    file ← find_open_file d;
    if file =? NULL then mret (-1) else runs (with_files (fl_length file)).

Definition close (esp : Z) : E st unit :=
  d ← arg esp 1;
  let d := s32 d in
  if (d =? 0) || (d =? 1) then thread_exit
  else
    file ← find_open_file d;
    if file =? NULL then thread_exit
    else
      _ ← runs (with_files (fl_close file));
      ok ← remove_open_file d;
      if ok : bool then mret tt else thread_exit.

(** The new value of EAX, or [None] if the call leaves it alone. *)
Definition syscall_handler (esp : Z) : E st (option Z) := fun s =>
  match word_of (sy_mem s) esp with
  | None => Fail BadAccess
  | Some sys_num =>
      let ret (m : E st Z) := v ← m; mret (Some (u32 v)) in
      let no_ret (m : E st unit) := _ ← m; mret None in
      let n := s32 sys_num in
      if n =? SYS_EXIT then no_ret (exit esp) s
      else if n =? SYS_READ then ret (read esp) s
      else if n =? SYS_WRITE then ret (write esp) s
      else if n =? SYS_CREATE then ret (b ← create esp; mret (Z.b2z b)) s
      else if n =? SYS_OPEN then ret (open esp) s
      else if n =? SYS_FILESIZE then ret (filesize esp) s
      else if n =? SYS_CLOSE then no_ret (close esp) s
      else if n =? SYS_EXEC then ret (exec esp) s
      else if n =? SYS_WAIT then ret (wait esp) s
      else if (n =? SYS_MMAP) || (n =? SYS_MUNMAP) then Ok (Some None, s)
      else thread_exit s
  end.
End calls.
End syscall.
