(* ===== verification/SyscallSpec.v ===== *)
(** * What system calls do

    Every call of a program whose arguments and buffers lie in its memory
    returns or ends the program, and the table of open files acts as a finite
    map from descriptors to files.  Arguments that the checks of syscall.c let
    through although they should not are shown at the end. *)

From S2P Require Import Prelude Vaddr Mem Alloc RamDisk Files Syscall.

Section spec.
Context {U F H T P : Type} `{AddrSpaceLaws U, FilesLaws F, AllocatorLaws H, TerminalLaws T, Processes P}.
#[local] Abbreviation st := (sys U F H T P).
#[local] Abbreviation PB := 3221225472.
Implicit Types (s : st) (u : U) (os : list open_file).

Lemma with_mem_step {X} (m : M U X) s x u : m (sy_mem s) = Ok (x, u) -> with_mem m s = Ok (x, set_sy_mem u s).
Proof. unfold with_mem. by intros ->. Qed.
Lemma with_files_step {X} (m : M F X) s x f : m (sy_files s) = Ok (x, f) -> with_files m s = Ok (x, set_sy_files f s).
Proof. unfold with_files. by intros ->. Qed.
Lemma with_heap_step {X} (m : M H X) s x h : m (sy_heap s) = Ok (x, h) -> with_heap m s = Ok (x, set_sy_heap h s).
Proof. unfold with_heap. by intros ->. Qed.
Lemma with_term_step {X} (m : M T X) s x t : m (sy_term s) = Ok (x, t) -> with_term m s = Ok (x, set_sy_term t s).
Proof. unfold with_term. by intros ->. Qed.

(** ** Arguments *)

(** The words [ws] are at [esp], below the kernel's part of memory. *)
Definition words_at u (esp : Z) (ws : list Z) : Prop :=
  0 <= esp /\ esp + 4 * Z.of_nat (length ws) <= PHYS_BASE /\
  forall i w, ws !! i = Some w -> word_of u (esp + 4 * Z.of_nat i) = Some w.

(** An argument that is not taken for a fault. *)
Definition arg_ok (w : Z) : Prop := 0 <= w < 2 ^ 32 - 1.

Lemma arg_reads s esp ws n w :
  words_at (sy_mem s) esp ws -> ws !! Z.to_nat n = Some w -> 0 <= n -> arg_ok w -> arg esp n s = Ok (Some w, s).
Proof.
  intros (Hlo & Hhi & Hw) Hn Hn0 Ha. apply Hw in Hn as Hword. apply lookup_lt_Some in Hn. unfold arg, extract_arg.
  change PHYS_BASE with PB in *. rewrite (u32_small (esp + 4 * n)) by lia. unfold check_phys_base. change PHYS_BASE with PB.
  rewrite (proj2 (Z.leb_gt _ _)) by lia. erewrite bindE_step by done. rewrite Z2Nat.id in Hword by done.
  unfold get_user32. erewrite bindE_step by (by rewrite Hword). change (u32 (-1)) with (2 ^ 32 - 1).
  by rewrite (proj2 (Z.eqb_neq _ _)) by (unfold arg_ok in Ha; lia).
Qed.

(** ** Buffers *)

Definition readable u (buf size : Z) : Prop :=
  0 <= buf < PB /\ 0 < buf + size /\ buf + size <= PB /\ forall a, buf <= a < buf + size -> is_Some (as_byte u a).
Definition writable u (buf size : Z) : Prop :=
  0 <= buf < PB /\ 0 < buf + size /\ buf + size <= PB /\ forall a, buf <= a < buf + size -> as_writable u a = true.

(** Rounds of the loop over the pages of a buffer. *)
Definition rounds (fuel : nat) (size : Z) : Prop := size + 4096 <= 4096 * Z.of_nat fuel.

(** The two loops step through the buffer from page [i] on. *)
Lemma check_pages_get fuel buf size : forall s i,
  as_ok (sy_mem s) -> readable (sy_mem s) buf size -> 0 <= i -> 4096 * i <= size + 4096 -> (1 <= fuel)%nat ->
  size <= 4096 * (i + Z.of_nat fuel - 1) ->
  check_pages fuel (fun cur => b ← get_user cur; mret (b =? -1)) buf size i s = Ok (Some tt, s).
Proof.
  induction fuel as [|fuel IH]; intros s i Hok Hr Hi His Hf Hfu; [lia|]. cbn [check_pages]. pose proof Hr as (Hb & Hbs & Htop & Hrd).
  change PGSIZE with 4096. rewrite (u32_small (buf + size - 1)), (u32_small (buf + i * 4096)) by lia.
  destruct (Z.ltb_spec (buf + i * 4096) (buf + size - 1)) as [Hlt|]; [|done]. destruct (Hrd (buf + i * 4096)) as [b Hbyte]; [lia|].
  pose proof (as_byte_ok _ _ _ Hok Hbyte) as Hbb. unfold is_byte in Hbb. erewrite bindE_step.
  2: { erewrite bindE_step by (unfold get_user; by rewrite Hbyte). done. }
  rewrite (proj2 (Z.eqb_neq _ _)) by lia. apply IH; try done; lia.
Qed.

Lemma check_buf_size_ok fuel buf size s :
  as_ok (sy_mem s) -> readable (sy_mem s) buf size -> 0 <= size -> rounds fuel size -> check_buf_size fuel buf size s = Ok (Some tt, s).
Proof. intros Hok Hr Hs Hf. unfold rounds in Hf. apply check_pages_get; try done; lia. Qed.

(** The bytes [check_buf_size_put] overwrites with zeros. *)
Definition probed (buf size i a : Z) : bool :=
  (buf + 4096 * i <=? a) && (a <? buf + size - 1) && ((a - buf) mod 4096 =? 0).

(** [u'] is [u] with other bytes in the program's part. *)
Record rewritten u u' (g : Z -> option Z) : Prop := {
  rw_ok : as_ok u';
  rw_byte : forall a, 0 <= a < PB -> as_byte u' a = g a;
  rw_writable : forall a, 0 <= a < PB -> as_writable u' a = as_writable u a;
}.

Lemma check_pages_put fuel buf size : forall s i,
  as_ok (sy_mem s) -> writable (sy_mem s) buf size -> 0 <= i -> 4096 * i <= size + 4096 -> (1 <= fuel)%nat ->
  size <= 4096 * (i + Z.of_nat fuel - 1) ->
  exists u', check_pages fuel (fun cur => b ← put_user cur 0; mret (Z.b2z b =? -1)) buf size i s = Ok (Some tt, set_sy_mem u' s) /\
    rewritten (sy_mem s) u' (fun a => if probed buf size i a then Some 0 else as_byte (sy_mem s) a).
Proof.
  induction fuel as [|fuel IH]; intros s i Hok Hr Hi His Hf Hfu; [lia|]. cbn [check_pages]. pose proof Hr as (Hb & Hbs & Htop & Hwr).
  change PGSIZE with 4096. rewrite (u32_small (buf + size - 1)), (u32_small (buf + i * 4096)) by lia.
  destruct (Z.ltb_spec (buf + i * 4096) (buf + size - 1)) as [Hlt|Hge].
  - destruct (as_store_ok (sy_mem s) (buf + i * 4096) 0 Hok) as (u1 & Hst & Hok1 & Hby); [change PHYS_BASE with PB; lia|done|apply Hwr; lia|].
    change PHYS_BASE with PB in Hby.
    assert (put_user (buf + i * 4096) 0 s = Ok (Some true, set_sy_mem u1 s)) as Hput by (by apply runs_step, with_mem_step).
    erewrite bindE_step by (by erewrite bindE_step by exact Hput). cbn [Z.b2z Z.eqb].
    destruct (IH (set_sy_mem u1 s) (i + 1)) as (u2 & Hrun & [Hok2 Hb2 Hw2]); try done; try lia.
    { split_and!; try done; try lia. intros a Ha. cbn [sy_mem set_sy_mem]. rewrite (proj2 (Hby a ltac:(lia))). by apply Hwr. }
    exists u2. split; [exact Hrun|]. cbn [sy_mem set_sy_mem] in *.
    split; [done| |intros a Ha; rewrite Hw2 by done; by apply Hby].
    intros a Ha. rewrite Hb2, (proj1 (Hby a Ha)) by done. unfold probed.
    destruct (Z.eqb_spec a (buf + i * 4096)) as [->|Hne].
    + replace (buf + i * 4096 - buf) with (i * 4096) by lia. rewrite Z_mod_mult. zcases; done || lia.
    + destruct (Z.eqb_spec ((a - buf) mod 4096) 0); zcases; done || zlia.
  - exists (sy_mem s). split; [by destruct s|]. split; [done| |done]. intros a. unfold probed. zcases; done || lia.
Qed.

Lemma check_buf_size_put_ok fuel buf size s :
  as_ok (sy_mem s) -> writable (sy_mem s) buf size -> 0 <= size -> rounds fuel size ->
  exists u', check_buf_size_put fuel buf size s = Ok (Some tt, set_sy_mem u' s) /\
    rewritten (sy_mem s) u' (fun a => if probed buf size 0 a then Some 0 else as_byte (sy_mem s) a).
Proof. intros Hok Hr Hs Hf. unfold rounds in Hf. apply check_pages_put; try done; lia. Qed.

(** ** Bytes *)

Lemma store_byte_ok s a b :
  as_ok (sy_mem s) -> is_byte b -> 0 <= a < PB -> as_writable (sy_mem s) a = true ->
  exists u', store_byte a b s = Ok (Some tt, set_sy_mem u' s) /\
    rewritten (sy_mem s) u' (fun x => if x =? a then Some b else as_byte (sy_mem s) x).
Proof.
  intros Hok Hb Ha Hw. destruct (as_store_ok (sy_mem s) a b Hok) as (u1 & Hst & Hok1 & Hby); [done|done|done|].
  exists u1. split; [|split; [done|intros x Hx; by apply Hby|intros x Hx; by apply Hby]]. unfold store_byte. rewrite u32_small by lia. by rewrite Hst.
Qed.

Lemma store_bytes_ok bs : forall s buf,
  as_ok (sy_mem s) -> Forall is_byte bs -> 0 <= buf -> buf + Z.of_nat (length bs) <= PB ->
  (forall a, buf <= a < buf + Z.of_nat (length bs) -> as_writable (sy_mem s) a = true) ->
  exists u', store_bytes buf bs s = Ok (Some tt, set_sy_mem u' s) /\
    rewritten (sy_mem s) u' (fun a => if (buf <=? a) && (a <? buf + Z.of_nat (length bs)) then bs !! Z.to_nat (a - buf)
                                      else as_byte (sy_mem s) a).
Proof.
  induction bs as [|b bs IH]; intros s buf Hok Hbs Hb Htop Hw; cbn [store_bytes length] in *.
  - exists (sy_mem s). split; [by destruct s|]. split; [done| |done]. intros a. zcases; lia || done.
  - inversion_clear Hbs as [|? ? Hbb Hbs'].
    destruct (store_byte_ok s buf b Hok Hbb) as (u1 & Hsb & [Hok1 Hby Hw1]); [lia|apply Hw; lia|].
    erewrite bindE_step by exact Hsb.
    destruct (IH (set_sy_mem u1 s) (buf + 1)) as (u2 & Hrun & [Hok2 Hb2 Hw2]); try done; cbn [sy_mem set_sy_mem] in *; [lia|lia| |].
    { intros a Ha. rewrite Hw1 by lia. apply Hw. lia. }
    exists u2. split; [exact Hrun|]. split; [done| |intros a Ha; by rewrite Hw2, Hw1].
    intros a Ha. rewrite Hb2, Hby by done. destruct (Z.eqb_spec a buf) as [->|Hne].
    + rewrite (proj2 (Z.leb_gt (buf + 1) buf)) by lia. cbn [andb]. rewrite Z.leb_refl, (proj2 (Z.ltb_lt _ _)) by lia.
      cbn [andb]. by replace (buf - buf) with 0 by lia.
    + destruct (Z.leb_spec (buf + 1) a), (Z.leb_spec buf a); try lia; cbn [andb]; try done.
      replace (buf + 1 + Z.of_nat (length bs)) with (buf + Z.of_nat (S (length bs))) by lia. destruct (_ <? _); [|done].
      replace (Z.to_nat (a - buf)) with (S (Z.to_nat (a - (buf + 1)))) by lia. done.
Qed.

Definition bytes_in u (a : Z) (bs : list Z) : Prop := forall i b, bs !! i = Some b -> as_byte u (a + Z.of_nat i) = Some b.

Lemma bytes_in_cons u a b bs : bytes_in u a (b :: bs) -> as_byte u a = Some b /\ bytes_in u (a + 1) bs.
Proof.
  intros Hb. split; [rewrite <- (Z.add_0_r a); exact (Hb 0%nat b eq_refl)|]. intros i x Hx.
  replace (a + 1 + Z.of_nat i) with (a + Z.of_nat (S i)) by lia. by apply (Hb (S i)).
Qed.

Lemma load_bytes_ok n : forall s a,
  0 <= a -> a + Z.of_nat n <= PB -> (forall x, a <= x < a + Z.of_nat n -> is_Some (as_byte (sy_mem s) x)) ->
  exists bs, load_bytes n a s = Ok (Some bs, s) /\ length bs = n /\ bytes_in (sy_mem s) a bs.
Proof.
  induction n as [|n IH]; intros s a Ha Htop Hr; cbn [load_bytes]; [by exists []|]. destruct (Hr a ltac:(lia)) as [b Hb].
  destruct (IH s (a + 1)) as (bs & Hrun & Hl & Hbs); [lia|lia|intros x Hx; apply Hr; lia|].
  assert (load_byte a s = Ok (Some b, s)) as Hlb by (unfold load_byte; rewrite u32_small by lia; by rewrite Hb).
  exists (b :: bs). erewrite bindE_step by exact Hlb. erewrite bindE_step by exact Hrun. split; [done|]. split; [cbn; lia|].
  intros [|i] x Hx; cbn in Hx; [injection Hx as <-; by rewrite Z.add_0_r|].
  replace (a + Z.of_nat (S i)) with (a + 1 + Z.of_nat i) by lia. by apply Hbs.
Qed.

(** The string [name] with its terminator is at [a]. *)
Definition string_in u (a : Z) (name : list Z) : Prop :=
  0 <= a /\ a + Z.of_nat (length name) < PB /\ Forall (fun b => b <> 0) name /\ bytes_in u a (name ++ [0]).

Lemma load_string_ok name : forall fuel s a,
  string_in (sy_mem s) a name -> (length name < fuel)%nat -> load_string fuel a s = Ok (Some name, s).
Proof.
  induction name as [|c name IH]; intros fuel s a (Ha & Htop & Hnz & Hb) Hf; (destruct fuel as [|fuel]; [cbn in Hf; lia|]); cbn [load_string].
  - apply bytes_in_cons in Hb as [Hb _]. erewrite bindE_step by (unfold load_byte; rewrite u32_small by (cbn in Htop; lia); by rewrite Hb). done.
  - cbn [length] in *. apply bytes_in_cons in Hb as [Hb Hrest]. inversion_clear Hnz as [|? ? Hc Hnz'].
    erewrite bindE_step by (unfold load_byte; rewrite u32_small by lia; by rewrite Hb). rewrite (proj2 (Z.eqb_neq _ _)) by done.
    erewrite bindE_step; [done|]. apply IH; [|lia]. split_and!; try done; lia.
Qed.

(** ** The table of open files *)

(** The table as a map from descriptors to files. *)
Definition fds os : gmap Z Z := list_to_map ((fun o => (fd o, of_file o)) <$> os).

(** [live] are the other blocks of the kernel heap. *)
Record sys_inv s os (live : list (Z * Z)) : Prop := {
  si_mem : as_ok (sy_mem s);
  si_files : fl_ok (sy_files s);
  si_heap : al_ok (sy_heap s) (((fun p => (p, sizeof_open_file)) <$> open_files s) ++ live);
  si_list : Forall2 (fun p o => of_at s !! p = Some o) (open_files s) os;
  si_nodup : NoDup (open_files s);
  si_fds : NoDup (fd <$> os);
  si_distinct : NoDup (of_file <$> os);
  si_range : Forall (fun o => 2 <= fd o < next_fd s /\ is_Some (fl_file (sy_files s) (of_file o))) os;
  si_next : 2 <= next_fd s;
}.

Lemma fds_cons o os : fds (o :: os) = <[fd o := of_file o]> (fds os).
Proof. done. Qed.

Lemma fds_elem os d file : NoDup (fd <$> os) -> (fds os !! d = Some file <-> exists o, o ∈ os /\ fd o = d /\ of_file o = file).
Proof.
  intros Hn. unfold fds. rewrite <- elem_of_list_to_map.
  2: { rewrite <- list_fmap_compose. by erewrite list_fmap_ext. }
  rewrite list_elem_of_fmap. split.
  - intros (o & [= -> ->] & Ho). by exists o.
  - intros (o & Ho & <- & <-). by exists o.
Qed.

Lemma fds_none os d : fds os !! d = None <-> d ∉ fd <$> os.
Proof.
  unfold fds. rewrite <- not_elem_of_list_to_map. rewrite <- list_fmap_compose. by erewrite list_fmap_ext.
Qed.

Lemma find_loop_ok s d : forall l os,
  Forall2 (fun p o => of_at s !! p = Some o) l os -> find_loop l d s = Ok (Some (default NULL (fds os !! d)), s).
Proof.
  induction 1 as [|p o l os Hp _ IH]; cbn [find_loop]; [done|].
  erewrite bindE_step by (unfold of_get; by rewrite Hp). rewrite fds_cons.
  destruct (Z.eqb_spec d (fd o)) as [->|Hne]; [by rewrite lookup_insert_eq|by rewrite lookup_insert_ne].
Qed.

Lemma find_open_file_ok s os live d :
  sys_inv s os live -> find_open_file d s = Ok (Some (default NULL (fds os !! d)), s).
Proof. intros Hi. unfold find_open_file. erewrite bindE_step by done. apply find_loop_ok, Hi. Qed.

(** Where an entry is in the list. *)
Lemma fds_split l os (R : Z -> open_file -> Prop) d file :
  Forall2 R l os -> fds os !! d = Some file ->
  exists l1 p l2 os1 os2, l = l1 ++ p :: l2 /\ os = os1 ++ mk_open_file d file :: os2 /\
    Forall2 R l1 os1 /\ R p (mk_open_file d file) /\ Forall2 R l2 os2 /\ d ∉ fd <$> os1.
Proof.
  induction 1 as [|p o l os Hp Hl IH]; [done|]. rewrite fds_cons. destruct (decide (d = fd o)) as [->|Hne].
  - rewrite lookup_insert_eq. intros [= <-]. destruct o as [d f]. exists [], p, l, [], os. split_and!; try done. set_solver.
  - rewrite lookup_insert_ne by done. intros Hd. destruct (IH Hd) as (l1 & q & l2 & os1 & os2 & -> & -> & H1' & Hq & H2' & Hn).
    exists (p :: l1), q, l2, (o :: os1), os2. split_and!; try done; [by constructor|set_solver].
Qed.

Lemma remove_loop_ok s d o p l2 : forall l1 os1 done,
  Forall2 (fun p o => of_at s !! p = Some o) l1 os1 -> of_at s !! p = Some o -> fd o = d -> d ∉ fd <$> os1 ->
  remove_loop done (l1 ++ p :: l2) d s =
  ((_ ← runs (with_heap (al_free p)); mret true) : E st bool) (set_table (delete p (of_at s)) (done ++ l1 ++ l2) (next_fd s) s).
Proof.
  induction l1 as [|q l1 IH]; intros os1 dn Hl Hp Hd Hn; inversion Hl; subst; cbn [app remove_loop].
  - erewrite bindE_step by (unfold of_get; by rewrite Hp). by rewrite Z.eqb_refl.
  - erewrite bindE_step by (unfold of_get; by match goal with Hq : of_at s !! q = _ |- _ => rewrite Hq end).
    rewrite (proj2 (Z.eqb_neq _ _)) by set_solver. erewrite IH; [|done|done|done|set_solver]. by rewrite <- (assoc_L (++)).
Qed.

(** ** Calls *)

Inductive call : Type :=
  | Exit (status : Z)
  | Read (d buf size : Z)
  | Write (d buf size : Z)
  | Create (a : Z) (name : list Z) (size : Z)
  | Open (a : Z) (name : list Z)
  | Filesize (d : Z)
  | Close (d : Z).

(** The words a program pushes: the number of the call and its arguments. *)
Definition call_words (c : call) : list Z :=
  match c with
  | Exit status => [SYS_EXIT; u32 status]
  | Read d buf size => [SYS_READ; u32 d; buf; size]
  | Write d buf size => [SYS_WRITE; u32 d; buf; size]
  | Create a _ size => [SYS_CREATE; a; size]
  | Open a _ => [SYS_OPEN; a]
  | Filesize d => [SYS_FILESIZE; u32 d]
  | Close d => [SYS_CLOSE; u32 d]
  end.

Definition is_int (d : Z) : Prop := - 2 ^ 31 <= d < 2 ^ 31 /\ d <> -1.

(** Arguments in range, buffers and names in the program's memory. *)
Definition call_ok (fuel : nat) u (c : call) : Prop :=
  match c with
  | Exit d | Filesize d | Close d => is_int d
  | Read d buf size => is_int d /\ writable u buf size /\ 0 <= size /\ rounds fuel size
  | Write d buf size => is_int d /\ readable u buf size /\ 0 <= size /\ rounds fuel size
  | Create a name size => string_in u a name /\ (length name + 1 < fuel)%nat /\ arg_ok size
  | Open a name => string_in u a name /\ (length name + 1 < fuel)%nat
  end.

Definition eax (v : Z) : option (option Z) := Some (Some (u32 v)).

(** What a call does to the map of open files [os], to the files and to the
    memory of the program; [r] is [None] if the program ends. *)
Definition call_result s os (c : call) (r : option (option Z)) s' os' : Prop :=
  match c with
  | Exit status => r = None /\ s' = set_exit status s
  | Filesize d =>
      s' = s /\
      match fds os !! d with
      | Some file => exists data pos, fl_file (sy_files s) file = Some (data, pos) /\ r = eax (Z.of_nat (length data))
      | None => r = if (d =? 0) || (d =? 1) then None else eax (-1)
      end
  | Close d =>
      match fds os !! d with
      | Some file => r = Some None /\ fds os' = delete d (fds os) /\ fl_file (sy_files s') file = None /\
          others_same file (sy_files s) (sy_files s') /\ sy_mem s' = sy_mem s
      | None => r = None /\ s' = s
      end
  | Open _ name =>
      sy_mem s' = sy_mem s /\
      (r = eax (-1) /\ os' = os /\ (forall q, fl_file (sy_files s') q = fl_file (sy_files s) q) \/
       exists file, r = eax (next_fd s) /\ fds os !! next_fd s = None /\ fds os' = <[next_fd s := file]> (fds os) /\
         fl_file (sy_files s) file = None /\ (exists data, fl_file (sy_files s') file = Some (data, 0)) /\
         others_same file (sy_files s) (sy_files s'))
  | Create _ name size =>
      os' = os /\ sy_mem s' = sy_mem s /\ (r = eax 0 \/ r = eax 1) /\ forall q, fl_file (sy_files s') q = fl_file (sy_files s) q
  | Read d buf size =>
      os' = os /\
      let scratch a := if probed buf size 0 a then Some 0 else as_byte (sy_mem s) a in
      let filled bs a := if (buf <=? a) && (a <? buf + Z.of_nat (length bs)) then bs !! Z.to_nat (a - buf) else scratch a in
      if d =? 1 then r = eax (-1) /\ s' = s
      else if d =? 0 then r = eax size /\ sy_files s' = sy_files s /\
        exists bs, length bs = Z.to_nat size /\ rewritten (sy_mem s) (sy_mem s') (filled bs)
      else
        match fds os !! d with
        | None => r = eax (-1) /\ sy_files s' = sy_files s /\ rewritten (sy_mem s) (sy_mem s') scratch
        | Some file => exists data pos, fl_file (sy_files s) file = Some (data, pos) /\
            let bs := slice data pos (s32 size) in
            r = eax (Z.of_nat (length bs)) /\ fl_file (sy_files s') file = Some (data, pos + Z.of_nat (length bs)) /\
            others_same file (sy_files s) (sy_files s') /\ rewritten (sy_mem s) (sy_mem s') (filled bs)
        end
  | Write d buf size =>
      os' = os /\ sy_mem s' = sy_mem s /\
      if d =? 0 then r = eax (-1) /\ s' = s
      else if d =? 1 then r = eax size /\ sy_files s' = sy_files s /\
        exists bs, length bs = Z.to_nat size /\ bytes_in (sy_mem s) buf bs /\ tm_putbuf bs (sy_term s) = Ok (tt, sy_term s')
      else
        match fds os !! d with
        | None => r = eax (-1) /\ s' = s
        | Some file => exists data pos bs, fl_file (sy_files s) file = Some (data, pos) /\ r = eax (Z.of_nat (length bs)) /\
            Z.of_nat (length bs) <= Z.max 0 (s32 size) /\ bytes_in (sy_mem s) buf bs /\
            fl_file (sy_files s') file = Some (list_inserts (Z.to_nat pos) bs data, pos + Z.of_nat (length bs))
        end
  end.

(** *** The invariant under partial updates *)

Lemma inv_mem s os live u' g : sys_inv s os live -> rewritten (sy_mem s) u' g -> sys_inv (set_sy_mem u' s) os live.
Proof. intros [] []. by split. Qed.

Lemma inv_files s os live f' :
  sys_inv s os live -> fl_ok f' -> (forall q, is_Some (fl_file (sy_files s) q) -> is_Some (fl_file f' q)) ->
  sys_inv (set_sy_files f' s) os live.
Proof.
  intros [] Hf Hq. split; try done. cbn [set_sy_files sy_files next_fd]. eapply Forall_impl; [done|]. cbv beta.
  intros o [Hr Ho]. split; [done|by apply Hq].
Qed.

Lemma inv_term s os live t' : sys_inv s os live -> sys_inv (set_sy_term t' s) os live.
Proof. intros []. by split. Qed.

(** A descriptor in the table. *)
Lemma fds_in s os live d file :
  sys_inv s os live -> fds os !! d = Some file ->
  2 <= d < next_fd s /\ file <> NULL /\ exists data pos, fl_file (sy_files s) file = Some (data, pos).
Proof.
  intros Hi Hd. apply (fds_elem os d file (si_fds _ _ _ Hi)) in Hd as (o & Ho & <- & <-).
  pose proof (si_range _ _ _ Hi) as Hr. rewrite Forall_forall in Hr. destruct (Hr o Ho) as [Hfd [[data pos] Hf]].
  split; [done|]. destruct (fl_file_ok _ _ _ _ (si_files _ _ _ Hi) Hf) as [Hn _]. split; [done|]. by exists data, pos.
Qed.

Lemma is_int_words d : is_int d -> arg_ok (u32 d) /\ s32 (u32 d) = d.
Proof. intros [Hd Hn]. unfold arg_ok, u32, s32. split; zlia. Qed.

(** *** One lemma per call *)

Lemma filesize_ok s os live esp d :
  sys_inv s os live -> words_at (sy_mem s) esp (call_words (Filesize d)) -> is_int d ->
  exists r, filesize esp s = Ok (r, s) /\ call_result s os (Filesize d) ((fun v => Some (u32 v)) <$> r) s os.
Proof.
  intros Hi Hw Hd. destruct (is_int_words d Hd) as [Ha Es]. unfold filesize, call_result.
  erewrite bindE_step by (eapply (arg_reads s esp _ 1); done). cbv zeta. rewrite Es.
  destruct (fds os !! d) as [file|] eqn:Hf.
  - destruct (fds_in s os live d file Hi Hf) as (Hr & Hn & data & pos & Hfile).
    rewrite !(proj2 (Z.eqb_neq _ _)) by lia. cbn [orb]. erewrite bindE_step by (eapply find_open_file_ok; done).
    rewrite Hf. cbn [default id]. rewrite (proj2 (Z.eqb_neq _ _)) by done.
    pose proof (fl_length_ok _ _ _ _ (si_files _ _ _ Hi) Hfile) as Hl. exists (Some (Z.of_nat (length data))).
    erewrite runs_step by (by apply with_files_step). split; [by destruct s|]. split; [done|]. by exists data, pos.
  - destruct ((d =? 0) || (d =? 1)); [by exists None|]. erewrite bindE_step by (eapply find_open_file_ok; done).
    rewrite Hf. cbn [default id]. rewrite Z.eqb_refl. by exists (Some (-1)).
Qed.

(** A descriptor that leaves the table. *)
Lemma fds_remove os1 os2 d file :
  NoDup (fd <$> os1 ++ mk_open_file d file :: os2) ->
  fds (os1 ++ os2) = delete d (fds (os1 ++ mk_open_file d file :: os2)).
Proof.
  intros Hn. assert (os1 ++ mk_open_file d file :: os2 ≡ₚ mk_open_file d file :: os1 ++ os2) as Hp by solve_Permutation.
  assert (fds (os1 ++ mk_open_file d file :: os2) = fds (mk_open_file d file :: os1 ++ os2)) as ->.
  { unfold fds. apply list_to_map_proper; [|by rewrite Hp]. rewrite <- list_fmap_compose. exact Hn. }
  rewrite fds_cons. cbn [fd of_file]. rewrite delete_insert_id; [done|]. apply fds_none.
  rewrite Hp in Hn. by inversion Hn.
Qed.

Lemma inv_remove s os live f' h' l1 l2 os1 os2 p d file :
  sys_inv s os live -> open_files s = l1 ++ p :: l2 -> os = os1 ++ mk_open_file d file :: os2 ->
  length l1 = length os1 -> fl_ok f' -> others_same file (sy_files s) f' ->
  al_ok h' (((fun p => (p, sizeof_open_file)) <$> l1 ++ l2) ++ live) ->
  sys_inv (set_sy_heap h' (set_table (delete p (of_at s)) (l1 ++ l2) (next_fd s) (set_sy_files f' s))) (os1 ++ os2) live.
Proof.
  intros [Hm Hf Hh Hl Hnd Hfd Hds Hr Hnx] El Eos Hlen Hf' Hoth Hh'. rewrite El, Eos in *.
  assert (p ∉ l1 ++ l2) as Hpn by (rewrite <- Permutation_middle in Hnd; by inversion Hnd).
  apply Forall2_app_inv in Hl as [Hl1 Hl2]; [|done]. apply Forall2_cons in Hl2 as [_ Hl2].
  split; cbn [set_sy_heap set_table set_sy_files sy_mem sy_files sy_heap open_files of_at next_fd]; try done.
  - assert (forall l os', l ⊆ l1 ++ l2 -> Forall2 (fun p o => of_at s !! p = Some o) l os' ->
      Forall2 (fun q o => delete p (of_at s) !! q = Some o) l os') as Hdel.
    { intros l os' Hsub. induction 1 as [|q o l os' Hq Hll IH]; constructor; [|apply IH; set_solver].
      rewrite lookup_delete_ne; [done|]. intros ->. apply Hpn. set_solver. }
    apply Forall2_app; apply Hdel; try done; set_solver.
  - rewrite <- Permutation_middle in Hnd. by inversion Hnd.
  - rewrite fmap_app, fmap_cons, <- Permutation_middle in Hfd. rewrite fmap_app. by inversion Hfd.
  - rewrite fmap_app, fmap_cons, <- Permutation_middle in Hds. rewrite fmap_app. by inversion Hds.
  - rewrite <- Permutation_middle in Hr. apply Forall_cons in Hr as [_ Hr]. rewrite Forall_forall in Hr |- *.
    intros o Ho. destruct (Hr o Ho) as [Hfd' Hop]. split; [done|]. rewrite (Hoth (of_file o)); [done|].
    rewrite fmap_app, fmap_cons, <- Permutation_middle in Hds. inversion Hds as [|? ? Hni _]. intros <-. apply Hni.
    rewrite <- fmap_app. by apply list_elem_of_fmap_2.
Qed.

Lemma close_ok s os live esp d :
  sys_inv s os live -> words_at (sy_mem s) esp (call_words (Close d)) -> is_int d ->
  exists r s' os', close esp s = Ok (r, s') /\ sys_inv s' os' live /\ call_result s os (Close d) ((fun _ => None) <$> r) s' os'.
Proof.
  intros Hi Hw Hd. destruct (is_int_words d Hd) as [Ha Es]. unfold close, call_result.
  erewrite bindE_step by (eapply (arg_reads s esp _ 1); done). cbv zeta. rewrite Es.
  destruct (fds os !! d) as [file|] eqn:Hf.
  2: { exists None, s, os. destruct ((d =? 0) || (d =? 1)); [done|]. erewrite bindE_step by (eapply find_open_file_ok; done).
       rewrite Hf. cbn [default id]. by rewrite Z.eqb_refl. }
  destruct (fds_in s os live d file Hi Hf) as (Hr & Hn & data & pos & Hfile).
  rewrite !(proj2 (Z.eqb_neq _ _)) by lia. cbn [orb]. erewrite bindE_step by (eapply find_open_file_ok; done).
  rewrite Hf. cbn [default id]. rewrite (proj2 (Z.eqb_neq _ _)) by done.
  destruct (fl_close_ok _ _ _ _ (si_files _ _ _ Hi) Hfile) as (f' & Hcl & Hf' & Hnone & Hoth).
  erewrite bindE_step by (by apply runs_step, with_files_step).
  destruct (fds_split _ _ _ d file (si_list _ _ _ Hi) Hf) as (l1 & p & l2 & os1 & os2 & El & Eos & H1' & Hp & H2' & Hd1).
  unfold remove_open_file. cbv beta in *. pose proof (si_heap _ _ _ Hi) as Hheap. rewrite El, fmap_app, fmap_cons in Hheap.
  destruct (al_free_ok (sy_heap s) p sizeof_open_file (((fun p => (p, sizeof_open_file)) <$> l1 ++ l2) ++ live)) as (h' & Hfr & Hh').
  { eapply al_perm; [|exact Hheap]. rewrite fmap_app. solve_Permutation. }
  assert (remove_loop [] (l1 ++ p :: l2) d (set_sy_files f' s) =
    Ok (Some true, set_sy_heap h' (set_table (delete p (of_at s)) (l1 ++ l2) (next_fd s) (set_sy_files f' s)))) as Hrem.
  { rewrite (remove_loop_ok (set_sy_files f' s) d _ p l2 l1 os1 []) by done.
    erewrite bindE_step by (by apply runs_step, with_heap_step). done. }
  set (s' := set_sy_heap h' _) in Hrem. exists (Some tt), s', (os1 ++ os2).
  assert ((open_files (set_sy_files f' s)) = l1 ++ p :: l2) as El' by exact El.
  erewrite bindE_step by (erewrite bindE_step by done; cbv beta; rewrite El'; exact Hrem). split; [done|].
  split; [apply (inv_remove s os live f' h' l1 l2 os1 os2 p d file); try done; by eapply Forall2_length|].
  split; [done|]. split; [|done]. rewrite Eos. apply fds_remove. rewrite <- Eos. apply Hi.
Qed.

(** [check_buf_size (filename, sizeof (filename))] looks at one byte. *)
Lemma check_name_ok fuel s a name :
  as_ok (sy_mem s) -> string_in (sy_mem s) a name -> (2 <= fuel)%nat ->
  check_phys_base a s = Ok (Some tt, s) /\ check_buf_size fuel a 4 s = Ok (Some tt, s).
Proof.
  intros Hok (Ha & Htop & _ & Hb) Hf. destruct fuel as [|[|fuel]]; [lia|lia|]. split.
  { unfold check_phys_base. change PHYS_BASE with PB. by rewrite (proj2 (Z.leb_gt _ _)) by lia. }
  assert (exists b, as_byte (sy_mem s) a = Some b) as [b Hbyte].
  { destruct name as [|c name]; apply bytes_in_cons in Hb as [Hb _]; by eexists. }
  pose proof (as_byte_ok _ _ _ Hok Hbyte) as Hbb. unfold is_byte in Hbb.
  unfold check_buf_size. cbn [check_pages]. change PGSIZE with 4096. rewrite !u32_small by lia.
  rewrite (proj2 (Z.ltb_lt (a + 0 * 4096) _)) by lia. replace (a + 0 * 4096) with a by lia.
  erewrite bindE_step.
  2: { erewrite bindE_step by (unfold get_user; by rewrite Hbyte). done. }
  rewrite (proj2 (Z.eqb_neq _ _)) by lia. by rewrite (proj2 (Z.ltb_ge _ _)) by lia.
Qed.

Lemma create_ok fuel s os live esp a name size :
  sys_inv s os live -> words_at (sy_mem s) esp (call_words (Create a name size)) -> call_ok fuel (sy_mem s) (Create a name size) ->
  exists b s', create fuel esp s = Ok (Some b, s') /\ sys_inv s' os live /\
    call_result s os (Create a name size) (eax (Z.b2z b)) s' os.
Proof.
  intros Hi Hw (Hstr & Hf & Hsz). pose proof Hstr as (Ha0 & Htop & _). unfold create.
  assert (arg_ok a) as Haok by (unfold arg_ok; lia).
  erewrite bindE_step by (eapply (arg_reads s esp _ 1); done).
  destruct (check_name_ok fuel s a name (si_mem _ _ _ Hi) Hstr) as [Hc1 Hc2]; [lia|].
  erewrite bindE_step by exact Hc1. erewrite bindE_step by exact Hc2.
  erewrite bindE_step by (eapply (arg_reads s esp _ 2); done).
  erewrite bindE_step by (apply load_string_ok; [exact Hstr|lia]).
  destruct (fl_create_ok (sy_files s) name (s32 size) (si_files _ _ _ Hi)) as (b & f' & Hcr & Hf' & Hsame).
  exists b, (set_sy_files f' s). split; [by apply runs_step, with_files_step|]. split.
  - apply inv_files; try done. intros q. by rewrite Hsame.
  - split; [done|]. split; [done|]. split; [destruct b; auto|done].
Qed.

(** A new entry of the table. *)
Lemma inv_add s os live f' h' p file :
  sys_inv s os live -> fl_ok f' -> fl_file (sy_files s) file = None -> is_Some (fl_file f' file) ->
  others_same file (sy_files s) f' -> fresh_block p (((fun p => (p, sizeof_open_file)) <$> open_files s) ++ live) ->
  al_ok h' ((p, sizeof_open_file) :: ((fun p => (p, sizeof_open_file)) <$> open_files s) ++ live) -> next_fd s < 2 ^ 31 - 1 ->
  sys_inv (set_table (<[p := mk_open_file (next_fd s) file]> (of_at s)) (p :: open_files s) (s32 (next_fd s + 1))
             (set_sy_heap h' (set_sy_files f' s))) (mk_open_file (next_fd s) file :: os) live /\
  fds os !! next_fd s = None.
Proof.
  intros [Hm Hf Hh Hl Hnd Hfd Hds Hr Hnx] Hf' Hnew Hopen Hoth [_ Hfresh] Hh' Hmax.
  assert (p ∉ open_files s) as Hp.
  { rewrite fmap_app, not_elem_of_app, <- list_fmap_compose in Hfresh. destruct Hfresh as [Hfresh _].
    intros Hin. apply Hfresh. by apply list_elem_of_fmap_2 with (f := fst ∘ (fun p => (p, sizeof_open_file))) in Hin. }
  assert (next_fd s ∉ fd <$> os) as Hnfd.
  { intros (o & E & Ho)%list_elem_of_fmap. rewrite Forall_forall in Hr. destruct (Hr o Ho). lia. }
  assert (file ∉ of_file <$> os) as Hnf.
  { intros (o & E & Ho)%list_elem_of_fmap. rewrite Forall_forall in Hr. destruct (Hr o Ho) as [_ Hso]. rewrite <- E, Hnew in Hso. by destruct Hso. }
  rewrite s32_small by lia. split; [|by apply fds_none].
  split; cbn [set_sy_heap set_table set_sy_files sy_mem sy_files sy_heap open_files of_at next_fd]; try done; try lia.
  - constructor; [by rewrite lookup_insert_eq|]. clear -Hl Hp. induction Hl as [|q o l os Hq Hl IH]; constructor.
    + rewrite lookup_insert_ne; [done|]. set_solver.
    + apply IH. set_solver.
  - by constructor.
  - by constructor.
  - by constructor.
  - constructor; [split; [cbn; lia|done]|]. rewrite Forall_forall in Hr |- *. intros o Ho. destruct (Hr o Ho) as [Ho1 Ho2].
    split; [lia|]. rewrite (Hoth (of_file o)); [done|]. intros <-. apply Hnf. by apply list_elem_of_fmap_2.
Qed.

Lemma open_ok fuel s os live esp a name :
  sys_inv s os live -> words_at (sy_mem s) esp (call_words (Open a name)) -> call_ok fuel (sy_mem s) (Open a name) ->
  next_fd s < 2 ^ 31 - 1 ->
  (exists v s' os', open fuel esp s = Ok (Some v, s') /\ sys_inv s' os' live /\ call_result s os (Open a name) (eax v) s' os') \/
  ~ roomy (H := H) /\ open fuel esp s = Fail NullAccess.
Proof.
  intros Hi Hw (Hstr & Hf) Hmax. pose proof Hstr as (Ha0 & Htop & _). unfold open.
  assert (arg_ok a) as Haok by (unfold arg_ok; lia).
  erewrite bindE_step by (eapply (arg_reads s esp _ 1); done).
  destruct (check_name_ok fuel s a name (si_mem _ _ _ Hi) Hstr) as [Hc1 Hc2]; [lia|].
  erewrite bindE_step by exact Hc1. erewrite bindE_step by exact Hc2.
  erewrite bindE_step by (apply load_string_ok; [exact Hstr|lia]).
  destruct (fl_open_ok (sy_files s) name (si_files _ _ _ Hi)) as (file & f' & Hop & Hf' & Hc).
  erewrite bindE_step by (by apply runs_step, with_files_step). destruct Hc as [[-> Hsame]|(Hnew & [data Hdata] & Hoth)].
  { rewrite Z.eqb_refl. left. exists (-1), (set_sy_files f' s), os. split; [done|]. split; [|by split; [|left]].
    apply inv_files; try done. intros q. by rewrite Hsame. }
  destruct (fl_file_ok _ _ _ _ Hf' Hdata) as (Hnn & _). rewrite (proj2 (Z.eqb_neq _ _)) by done.
  destruct (al_malloc_ok (sy_heap s) _ sizeof_open_file (si_heap _ _ _ Hi)) as (p & h' & Hmal & Hp); [done|].
  erewrite bindE_step by (by apply runs_step, with_heap_step). destruct Hp as [[-> _]|[Hfresh Hh']].
  - right. split; [|by rewrite Z.eqb_refl]. intros Hro. by apply (Hro _ _ _ _ _ (si_heap _ _ _ Hi) Hmal).
  - rewrite (proj2 (Z.eqb_neq p NULL)) by apply Hfresh. left.
    destruct (inv_add s os live f' h' p file) as [Hi' Hnone]; [done|done|done|by eexists|done|done|done|done|].
    exists (next_fd s). eexists _, _. split; [done|]. split; [exact Hi'|]. split; [done|]. right. exists file.
    split; [done|]. split; [done|]. split; [done|]. split; [done|]. split; [by exists data|done].
Qed.

Lemma u32_s32 z : u32 (s32 z) = u32 z.
Proof. unfold u32, s32. rewrite Zminus_mod_idemp_l. f_equal. lia. Qed.

Lemma check_base_ok buf s : 0 <= buf < PB -> check_phys_base buf s = Ok (Some tt, s).
Proof. intros Hb. unfold check_phys_base. change PHYS_BASE with PB. by rewrite (proj2 (Z.leb_gt _ _)) by lia. Qed.

Lemma rewritten_trans u1 u2 u3 g h : rewritten u1 u2 g -> rewritten u2 u3 h -> rewritten u1 u3 h.
Proof. intros [] []. split; try done. intros a Ha. etransitivity; eauto. Qed.

Lemma rewritten_ext u1 u2 g h : rewritten u1 u2 g -> (forall a, 0 <= a < PB -> g a = h a) -> rewritten u1 u2 h.
Proof. intros [] Hgh. split; try done. intros a Ha. rewrite <- Hgh by done. auto. Qed.

(** Reading from the keyboard. *)
Lemma getc_loop_ok n : forall s buf,
  as_ok (sy_mem s) -> 0 <= buf -> buf + Z.of_nat n <= PB ->
  (forall a, buf <= a < buf + Z.of_nat n -> as_writable (sy_mem s) a = true) ->
  exists bs u' t', getc_loop n buf s = Ok (Some tt, set_sy_term t' (set_sy_mem u' s)) /\ length bs = n /\
    rewritten (sy_mem s) u' (fun a => if (buf <=? a) && (a <? buf + Z.of_nat (length bs)) then bs !! Z.to_nat (a - buf)
                                      else as_byte (sy_mem s) a).
Proof.
  induction n as [|n IH]; intros s buf Hok Hb Htop Hw; cbn [getc_loop].
  { exists [], (sy_mem s), (sy_term s). split; [by destruct s|]. split; [done|]. split; [done| |done]. intros a. cbn [length]. zcases; lia || done. }
  destruct (tm_getc_ok (sy_term s)) as (b & t1 & Hg & Hbb). erewrite bindE_step by (by apply runs_step, with_term_step).
  destruct (store_byte_ok (set_sy_term t1 s) buf b Hok Hbb) as (u1 & Hst1 & Hrw1); [lia|apply Hw; lia|].
  erewrite bindE_step by exact Hst1. rewrite u32_small by lia. cbn [sy_mem set_sy_term] in Hrw1. pose proof Hrw1 as [Hok1 Hb1 Hw1].
  destruct (IH (set_sy_mem u1 (set_sy_term t1 s)) (buf + 1)) as (bs & u2 & t2 & Hrun & Hl & Hrw2); try done; cbn [sy_mem set_sy_mem]; [lia|lia| |].
  { intros a Ha. rewrite Hw1 by lia. apply Hw. lia. }
  exists (b :: bs), u2, t2. split; [exact Hrun|]. split; [cbn; lia|]. eapply rewritten_ext; [eapply rewritten_trans; [exact Hrw1|exact Hrw2]|].
  intros a Ha. cbn [sy_mem set_sy_mem length]. rewrite Hb1 by done.
  destruct (Z.leb_spec (buf + 1) a), (Z.leb_spec buf a); try lia; cbn [andb].
  - replace (buf + 1 + Z.of_nat (length bs)) with (buf + Z.of_nat (S (length bs))) by lia.
    destruct (a <? _); [|zcases; lia || done]. by replace (Z.to_nat (a - buf)) with (S (Z.to_nat (a - (buf + 1)))) by lia.
  - replace a with buf by lia. rewrite Z.eqb_refl, (proj2 (Z.ltb_lt _ _)) by lia. by replace (buf - buf) with 0 by lia.
  - rewrite (proj2 (Z.eqb_neq _ _)) by lia. done.
Qed.

Lemma slice_bytes d pos n : Forall is_byte d -> Forall is_byte (slice d pos n).
Proof. intros Hd. by apply Forall_take, Forall_drop. Qed.

Lemma read_ok fuel s os live esp d buf size :
  sys_inv s os live -> words_at (sy_mem s) esp (call_words (Read d buf size)) -> call_ok fuel (sy_mem s) (Read d buf size) ->
  exists v s', read fuel esp s = Ok (Some v, s') /\ sys_inv s' os live /\ call_result s os (Read d buf size) (eax v) s' os.
Proof.
  intros Hi Hw (Hd & Hwr & Hsz & Hfu). destruct (is_int_words d Hd) as [Ha Es]. pose proof Hwr as (Hb0 & Hbs & Htop & Hwb).
  unfold read, call_result. erewrite bindE_step by (eapply (arg_reads s esp _ 1); done). cbv zeta. rewrite Es.
  destruct (Z.eqb_spec d 1) as [->|Hd1]; [by exists (-1), s|].
  erewrite bindE_step by (eapply (arg_reads s esp _ 2); try done; unfold arg_ok; lia).
  erewrite bindE_step by (apply check_base_ok; lia).
  erewrite bindE_step by (eapply (arg_reads s esp _ 3); try done; unfold arg_ok; lia).
  destruct (check_buf_size_put_ok fuel buf size s (si_mem _ _ _ Hi) Hwr Hsz Hfu) as (u1 & Hchk & Hrw1).
  erewrite bindE_step by exact Hchk. pose proof (inv_mem _ _ _ _ _ Hi Hrw1) as Hi1. pose proof Hrw1 as [Hok1 Hb1 Hw1].
  destruct (Z.eqb_spec d 0) as [->|Hd0].
  - destruct (getc_loop_ok (Z.to_nat size) (set_sy_mem u1 s) buf) as (bs & u2 & t2 & Hrun & Hl & Hrw2); [done|lia|lia| |].
    { intros a Hra. cbn [sy_mem set_sy_mem]. rewrite Hw1 by lia. apply Hwb. lia. }
    erewrite bindE_step by exact Hrun. eexists _, _. split; [done|]. split; [apply inv_term; eapply inv_mem; [exact Hi1|exact Hrw2]|].
    split; [done|]. split; [unfold eax; by rewrite u32_s32|]. split; [done|]. exists bs. split; [done|]. cbn [sy_mem set_sy_mem set_sy_term].
    eapply rewritten_ext; [eapply rewritten_trans; [exact Hrw1|exact Hrw2]|]. intros a Hra. cbn [sy_mem set_sy_mem]. by rewrite Hb1.
  - erewrite bindE_step by (eapply find_open_file_ok; exact Hi1). destruct (fds os !! d) as [file|] eqn:Hf; cbn [default id].
    2: { rewrite Z.eqb_refl. by exists (-1), (set_sy_mem u1 s). }
    destruct (fds_in s os live d file Hi Hf) as (_ & Hn & data & pos & Hfile). rewrite (proj2 (Z.eqb_neq _ _)) by done.
    destruct (fl_file_ok _ _ _ _ (si_files _ _ _ Hi) Hfile) as (_ & Hbytes & _ & _).
    destruct (fl_read_ok _ _ _ _ (s32 size) (si_files _ _ _ Hi) Hfile) as (f' & Hrd & Hf' & Hfile' & Hoth); [unfold FILE_MAX, s32; zlia|].
    erewrite bindE_step by (by apply runs_step, with_files_step). set (bs := slice data pos (s32 size)) in *.
    assert (Z.of_nat (length bs) <= size) as Hlen.
    { unfold bs, slice. rewrite length_take. unfold s32. zlia. }
    destruct (store_bytes_ok bs (set_sy_files f' (set_sy_mem u1 s)) buf) as (u2 & Hst & Hrw2); [done|by apply slice_bytes|lia|lia| |].
    { intros a Hra. cbn [sy_mem set_sy_mem set_sy_files]. rewrite Hw1 by lia. apply Hwb. lia. }
    erewrite bindE_step by exact Hst. eexists _, _. split; [done|]. split.
    { eapply inv_mem; [|exact Hrw2]. apply inv_files; try done. intros q. destruct (decide (q = file)) as [->|Hq]; [by rewrite Hfile'; eexists|].
      by rewrite (Hoth q Hq). }
    split; [done|]. exists data, pos. fold bs. split_and!; try done. cbn [sy_mem set_sy_mem set_sy_files] in *.
    eapply rewritten_ext; [eapply rewritten_trans; [exact Hrw1|exact Hrw2]|]. intros a Hra. cbn [sy_mem set_sy_mem set_sy_files]. by rewrite Hb1.
Qed.

(** The bytes of a buffer as the source of a write. *)
Lemma fetch_bytes n : forall u buf src bs,
  (forall i, 0 <= i < Z.of_nat n -> src i = as_byte u (buf + i)) -> fetch n src = Some bs -> bytes_in u buf bs.
Proof.
  induction n as [|n IH]; intros u buf src bs Hs Hf; cbn [fetch] in Hf; [injection Hf as <-; by intros [|]|].
  destruct (src 0) as [b|] eqn:Hb; [|done]. cbn in Hf. destruct (fetch n _) as [bs'|] eqn:Hbs; [|done]. cbn in Hf. injection Hf as <-.
  intros [|i] x Hx; cbn in Hx.
  - injection Hx as <-. rewrite <- Hs by lia. done.
  - replace (buf + Z.of_nat (S i)) with (buf + 1 + Z.of_nat i) by lia.
    eapply (IH u (buf + 1) (fun i => src (i + 1))); [|exact Hbs|exact Hx]. intros k Hk. rewrite Hs by lia. f_equal. lia.
Qed.

Lemma write_ok fuel s os live esp d buf size :
  sys_inv s os live -> words_at (sy_mem s) esp (call_words (Write d buf size)) -> call_ok fuel (sy_mem s) (Write d buf size) ->
  exists v s', write fuel esp s = Ok (Some v, s') /\ sys_inv s' os live /\ call_result s os (Write d buf size) (eax v) s' os.
Proof.
  intros Hi Hw (Hd & Hrd & Hsz & Hfu). destruct (is_int_words d Hd) as [Ha Es]. pose proof Hrd as (Hb0 & Hbs & Htop & Hrb).
  unfold write, call_result. erewrite bindE_step by (eapply (arg_reads s esp _ 1); done). cbv zeta. rewrite Es.
  destruct (Z.eqb_spec d 0) as [->|Hd0]; [by exists (-1), s|].
  erewrite bindE_step by (eapply (arg_reads s esp _ 2); try done; unfold arg_ok; lia).
  erewrite bindE_step by (apply check_base_ok; lia).
  erewrite bindE_step by (eapply (arg_reads s esp _ 3); try done; unfold arg_ok; lia).
  erewrite bindE_step by (apply check_buf_size_ok; [apply Hi|done|done|done]).
  destruct (Z.eqb_spec d 1) as [->|Hd1].
  - destruct (load_bytes_ok (Z.to_nat size) s buf) as (bs & Hld & Hl & Hin); [lia|lia|intros x Hx; apply Hrb; lia|].
    erewrite bindE_step by exact Hld. destruct (tm_putbuf_ok (sy_term s) bs) as [t' Hput].
    erewrite bindE_step by (by apply runs_step, with_term_step). eexists _, _. split; [done|]. split; [by apply inv_term|].
    split_and!; try done; [unfold eax; by rewrite u32_s32|]. by exists bs.
  - erewrite bindE_step by (by eapply find_open_file_ok). destruct (fds os !! d) as [file|] eqn:Hf; cbn [default id].
    2: { rewrite Z.eqb_refl. by exists (-1), s. }
    destruct (fds_in s os live d file Hi Hf) as (_ & Hn & data & pos & Hfile). rewrite (proj2 (Z.eqb_neq _ _)) by done.
    erewrite bindE_step by done. cbv beta. set (src := fun i => as_byte (sy_mem s) (u32 (buf + i))).
    assert (s32 size <= size) as Hs32 by (unfold s32; zlia).
    assert (forall i, 0 <= i < size -> src i = as_byte (sy_mem s) (buf + i)) as Hsrc by (intros i Hr; unfold src; by rewrite u32_small by lia).
    destruct (fl_write_ok _ _ _ _ (s32 size) src (si_files _ _ _ Hi) Hfile) as (bs & f' & Hwr & Hf' & Hlen & Hfe & Hfile' & Hopen).
    { unfold FILE_MAX, s32. zlia. }
    { intros i Hr. destruct (Hrb (buf + i)) as [b Hb]; [lia|]. exists b. rewrite Hsrc by lia. split; [done|].
      eapply as_byte_ok; [apply Hi|exact Hb]. }
    eexists _, _. split; [by apply runs_step, with_files_step|]. split; [apply inv_files; try done; intros q Hq; by apply Hopen|].
    split; [done|]. split; [done|]. exists data, pos, bs. split_and!; try done. eapply fetch_bytes; [|exact Hfe]. intros i Hr. apply Hsrc. lia.
Qed.

(** ** A call that never returns *)

(** Every page of the address space is below the end of an empty buffer at 0. *)
Lemma check_pages_wraps fuel : forall s i,
  (forall u a b, exists ok u', as_store a b u = Ok (ok, u')) ->
  check_pages fuel (fun cur => b ← put_user cur 0; mret (Z.b2z b =? -1)) 0 0 i s = Fail NoFuel.
Proof.
  induction fuel as [|fuel IH]; intros s i Htot; [done|]. cbn [check_pages]. change PGSIZE with 4096. change (u32 (0 + 0 - 1)) with (2 ^ 32 - 1).
  assert (u32 (0 + i * 4096) < 2 ^ 32 - 1) as Hlt by (unfold u32; zlia). rewrite (proj2 (Z.ltb_lt _ _) Hlt).
  destruct (Htot (sy_mem s) (u32 (0 + i * 4096)) 0) as (ok & u' & Hst).
  assert (put_user (u32 (0 + i * 4096)) 0 s = Ok (Some ok, set_sy_mem u' s)) as Hput by (by apply runs_step, with_mem_step).
  erewrite bindE_step by (by erewrite bindE_step by exact Hput). destruct ok; cbn [Z.b2z Z.eqb]; apply IH, Htot.
Qed.

(** Reading no bytes to a null pointer hangs the kernel: the end of the
    buffer, one below its start, is the last address of all, so that the loop
    that probes the pages of the buffer goes round the whole address space for
    ever, the kernel's part included, and stores a zero in each page.  No
    number of rounds is enough, for any descriptor but 1 and however the
    processor answers the stores. *)
Theorem read_null_never_returns s esp d :
  (forall u a b, exists ok u', as_store a b u = Ok (ok, u')) ->
  words_at (sy_mem s) esp [SYS_READ; u32 d; 0; 0] -> is_int d -> d <> 1 ->
  forall fuel, syscall_handler fuel esp s = Fail NoFuel.
Proof.
  intros Htot Hw Hd Hd1 fuel. destruct (is_int_words d Hd) as [Ha Es]. unfold syscall_handler.
  pose proof (proj2 (proj2 Hw) 0%nat _ eq_refl) as Hnum. rewrite Z.add_0_r in Hnum. rewrite Hnum. cbv zeta.
  change (s32 SYS_READ =? SYS_EXIT) with false. change (s32 SYS_READ =? SYS_READ) with true. cbv iota.
  assert (read fuel esp s = Fail NoFuel) as Hr; [|unfold mbind, E_bind; by rewrite Hr].
  unfold read. erewrite bindE_step by (eapply (arg_reads s esp _ 1); done). cbv zeta. rewrite Es.
  rewrite (proj2 (Z.eqb_neq _ _)) by done. erewrite bindE_step by (eapply (arg_reads s esp _ 2); done).
  erewrite bindE_step by done. erewrite bindE_step by (eapply (arg_reads s esp _ 3); done).
  unfold mbind at 1, E_bind at 1, check_buf_size_put. by rewrite check_pages_wraps.
Qed.
End spec.

(** ** Runs *)

(** Memory as a map of bytes, all of them writable. *)
#[global] Instance map_space : AddrSpace mem := {|
  as_ok m := map_Forall (fun _ b => is_byte b) m;
  as_byte m a := m !! a;
  as_writable m a := bool_decide (is_Some (m !! a));
  as_store a b m := match m !! a with Some _ => Ok (true, <[a := b]> m) | None => Ok (false, m) end;
|}.

#[global] Instance map_space_laws : AddrSpaceLaws mem.
Proof.
  split; cbn [as_ok as_byte as_writable as_store map_space].
  - intros m a b Hm Hb. exact (Hm _ _ Hb).
  - intros m a b Hm _ Hb [x Hx]%bool_decide_eq_true. rewrite Hx. eexists. split; [done|]. split; [by apply map_Forall_insert_2|].
    intros a' _. destruct (Z.eqb_spec a' a) as [->|Hne]; rewrite ?lookup_insert_eq, ?lookup_insert_ne by done; [split; [done|]|done].
    apply bool_decide_ext. rewrite Hx. split; by eexists.
Qed.

(** A terminal: the keys that will be pressed, and what was printed. *)
Definition tty : Type := (nat -> Z) * nat * list Z.
#[global] Instance tty_terminal : Terminal tty := {|
  tm_getc := fun '(keys, n, out) => Ok (u8 (keys n), (keys, S n, out));
  tm_putbuf bs := fun '(keys, n, out) => Ok (tt, (keys, n, out ++ bs));
|}.
#[global] Instance tty_laws : TerminalLaws tty.
Proof.
  split; intros [[keys n] out].
  - eexists _, _. split; [done|]. apply u8_range.
  - intros bs. by eexists.
Qed.

(** No other processes. *)
#[global] Instance no_processes : Processes unit := {| pr_execute _ := mret (-1); pr_wait _ := mret (-1) |}.

(** A program with a stack at 4096, the string "a" at 8192, a buffer at 12288
    and four bytes around [PHYS_BASE]; one file of four bytes, open as
    descriptor 2. *)
Definition le (w : Z) : list Z := [w mod 256; w / 256 mod 256; w / 65536 mod 256; w / 16777216].
Definition demo_mem (ws : list Z) : mem :=
  write_at (write_at (write_at (write_at ∅ 4096 (concat (le <$> ws))) 8192 [97; 0]) 12288 (replicate 8 255)) (PHYS_BASE - 2) [0; 0; 0; 0].
Definition demo_sys (ws : list Z) : sys mem ramfs Z tty unit :=
  mk_sys (demo_mem ws) (mk_ramfs [([97], 0%nat)] [[1; 2; 3; 4]] {[7 := (0%nat, 0)]}) 32
    ((fun _ => 65), 0%nat, []) tt {[8 := mk_open_file 2 7]} [8] 3 0 false.

Definition after (r : res (option (option Z) * sys mem ramfs Z tty unit)) (a : Z) : option (option (option Z) * option Z * Z) :=
  match r with Ok (r, s) => Some (r, as_byte (sy_mem s) a, next_fd s) | Fail _ => None end.

Example demo_open : after (syscall_handler 20 4096 (demo_sys [SYS_OPEN; 8192])) 12288 = Some (eax 3, Some 255, 4).
Proof. vm_compute. reflexivity. Qed.

Example demo_read : after (syscall_handler 20 4096 (demo_sys [SYS_READ; 2; 12288; 3])) 12290 = Some (eax 3, Some 3, 3).
Proof. vm_compute. reflexivity. Qed.

(** An unknown descriptor: nothing is read, but the first byte of the buffer is
    lost. *)
Example demo_read_unknown : after (syscall_handler 20 4096 (demo_sys [SYS_READ; 5; 12288; 3])) 12288 = Some (eax (-1), Some 0, 3).
Proof. vm_compute. reflexivity. Qed.

(** A program can overwrite the kernel: only the start of a buffer is
    compared with [PHYS_BASE], so that [read] into a buffer that starts two
    bytes below it stores the rest of the file at the kernel's addresses. *)
Theorem read_overwrites_kernel :
  as_byte (sy_mem (demo_sys [SYS_READ; 2; PHYS_BASE - 2; 4])) PHYS_BASE = Some 0 /\
  after (syscall_handler 20 4096 (demo_sys [SYS_READ; 2; PHYS_BASE - 2; 4])) PHYS_BASE = Some (eax 4, Some 3, 3).
Proof. split; vm_compute; reflexivity. Qed.

Lemma demo_inv ws : as_ok (demo_mem ws) -> sys_inv (demo_sys ws) [mk_open_file 2 7] [].
Proof.
  intros Hok. split; cbn [demo_sys sy_mem sy_files sy_heap open_files of_at next_fd]; try done.
  - split; [|split].
    + repeat constructor; cbn; lia.
    + done.
    + intros p [i pos] Hp. cbn [rf_open] in Hp. apply lookup_singleton_Some in Hp as [_ [= <- <-]]. cbn. lia.
  - split; [lia|]. repeat constructor; cbn; lia.
  - by repeat constructor.
  - apply NoDup_singleton.
  - apply NoDup_singleton.
  - apply NoDup_singleton.
  - repeat constructor; cbn; try lia. by eexists.
Qed.


Lemma read_null_never_returns_witness :
  syscall_handler 1000 4096 (demo_sys [SYS_READ; 2; 0; 0]) = Fail NoFuel.
Proof.
  apply (read_null_never_returns (demo_sys [SYS_READ; 2; 0; 0]) 4096 2).
  - intros u a b. cbn [as_store map_space]. destruct (u !! a); by eexists _, _.
  - split_and!; [done|done|]. intros [|[|[|[|i]]]] w Hw; try discriminate Hw; injection Hw as <-; vm_compute; reflexivity.
  - done.
  - done.
Defined.
