(* ===== verification/SyscallVm.v ===== *)
(** * System calls through the page tables

    The memory that [Syscall] reads and writes is that of the active process:
    an instance of [AddrSpace] over the page tables of [Pagedir].  Entries of
    user pages permit the kernel what they permit the program; at the kernel's
    own addresses all of RAM is mapped. *)

From S2P Require Import Prelude Vaddr Mem Alloc Files Palloc Pagedir PagedirInv PagedirSpec UserSpace Syscall.

#[local] Abbreviation PB := 3221225472.

Section space.
Context (ram_pages kstart kend_text : Z).
Hypothesis Hram : 0 <= ram_pages < 2 ^ 18.
#[local] Abbreviation vm_inv := (vm_inv ram_pages kstart kend_text).
Implicit Types (s : vm) (a : space).

(** A byte that the kernel reads. *)
Definition kernel_byte s (va : Z) : option Z :=
  if va <? PHYS_BASE then u8 <$> peek_as false s va
  else if in_ram ram_pages va 1 then Some (u8 (byte_at s va)) else None.

(** A byte that the kernel writes; [false] is a page fault. *)
Definition kernel_store (va b : Z) : M vm bool :=
  if va <? PHYS_BASE then
    o ← user_access ram_pages va true;
    match o with Some p => modify (put_byte (p + PHYS_BASE) (u8 b)) ;; mret true | None => mret false end
  else if in_ram ram_pages va 1 then modify (put_byte va (u8 b)) ;; mret true
  else mret false.

Definition vm_space : AddrSpace vm := {|
  as_ok s := exists fixed a own, vm_inv fixed s a own;
  as_byte := kernel_byte;
  as_writable s va := if va <? PHYS_BASE then bool_decide (is_Some (peek s va)) else in_ram ram_pages va 1;
  as_store := kernel_store;
|}.

Lemma kernel_byte_view fixed s a own va :
  vm_inv fixed s a own -> 0 <= va < PB ->
  kernel_byte s va = if may_access a va false then u8 <$> (active a ≫= fun pd => view s a pd va) else None.
Proof.
  intros Hi Hva. unfold kernel_byte. change PHYS_BASE with PB. rewrite (proj2 (Z.ltb_lt _ _)) by lia.
  rewrite (peek_view _ _ _ Hram fixed s a own false va Hi Hva). by destruct (may_access a va false).
Qed.

Lemma may_write_read a va : may_access a va true = true -> may_access a va false = true.
Proof.
  unfold may_access. destruct (active a); [|done]. destruct (_ ≫= _) as [e|]; [|done]. unfold may. cbn [negb orb].
  destruct (present e); [done|]. done.
Qed.

(** What a store of the kernel does to the bytes of the program. *)
Lemma kernel_store_ok fixed s a own va b :
  vm_inv fixed s a own -> 0 <= va < PB -> is_byte b -> may_access a va true = true ->
  exists s' a', kernel_store va b s = Ok (true, s') /\ vm_inv fixed s' a' own /\ active a' = active a /\
    (forall va' w, may_access a' va' w = may_access a va' w) /\
    forall pd va', 0 <= va' -> view s' a' pd va' = if decide (active a = Some pd /\ va' = va) then Some b else view s a pd va'.
Proof.
  intros Hi Hva Hb Hm. pose proof (user_store_ok _ _ _ Hram fixed s a own va b Hi Hva Hb) as Hst.
  destruct (may_access_spec a va true Hm) as [p E]. rewrite E in Hst. destruct Hst as (s' & Hs & Hi' & Hv).
  exists s', (snd (access_spec a va true)). split.
  - unfold kernel_store. change PHYS_BASE with PB. rewrite (proj2 (Z.ltb_lt _ _)) by lia. unfold user_store in Hs.
    apply bindM_Ok in Hs as (o & s1 & Ha & Hs). rewrite (bindM_step _ _ _ _ _ Ha). destruct o; [|done].
    by rewrite (bindM_step _ _ _ _ _ Hs).
  - split; [done|]. split; [apply access_active|]. split; [intros; apply may_access_after|done].
Qed.

Lemma vm_space_laws : AddrSpaceLaws vm (H := vm_space).
Proof.
  split; cbn [as_ok as_byte as_writable as_store vm_space].
  - intros s va b _ Hb. unfold kernel_byte in Hb. destruct (va <? _).
    + destruct (peek_as false s va); [|done]. injection Hb as <-. apply u8_range.
    + destruct (in_ram _ _ _); [|done]. injection Hb as <-. apply u8_range.
  - change PHYS_BASE with PB. intros s va b (f & a & own & Hi) Hva Hb Hw.
    assert (forall s a own va, vm_inv f s a own -> 0 <= va < PB ->
      (if va <? PB then bool_decide (is_Some (peek s va)) else in_ram ram_pages va 1) =
      may_access a va true && bool_decide (is_Some (active a ≫= fun pd => view s a pd va))) as Hpk.
    { intros s0 a0 own0 va0 Hi0 Hva0. rewrite (proj2 (Z.ltb_lt _ _)) by lia. unfold peek.
      rewrite (peek_view _ _ _ Hram f s0 a0 own0 true va0 Hi0 Hva0). by destruct (may_access a0 va0 true). }
    pose proof Hw as Hw'. rewrite (Hpk s a own va Hi Hva) in Hw'. apply andb_true_iff in Hw' as [Hm _].
    destruct (kernel_store_ok f s a own va b Hi Hva Hb Hm) as (s' & a' & Hst & Hi' & Hact & Hmay & Hv).
    exists s'. split; [done|]. split; [by exists f, a', own|]. intros va' Hva'.
    rewrite (kernel_byte_view f s' a' own va' Hi' Hva'), (kernel_byte_view f s a own va' Hi Hva').
    rewrite (Hpk s' a' own va' Hi' Hva'), (Hpk s a own va' Hi Hva'), !Hmay, Hact.
    destruct (active a) as [pd|] eqn:Ha; cbn [mbind option_bind].
    2: { unfold may_access in Hm. by rewrite Ha in Hm. }
    rewrite Hv by lia. destruct (Z.eqb_spec va' va) as [->|Hne].
    + rewrite decide_True by done. rewrite Hm, (may_write_read a va Hm). cbn [fmap option_fmap option_map andb]. split.
      * unfold u8. rewrite Z.mod_small; [done|exact Hb].
      * apply bool_decide_ext. rewrite (Hpk s a own va Hi Hva), Hm in Hw. rewrite Ha in Hw. cbn in Hw.
        apply bool_decide_eq_true in Hw. split; [done|by eexists].
    + by rewrite decide_False by naive_solver.
Qed.
End space.
