(* ===== verification/Frames.v ===== *)
(** * Demand paging: vm/frame.c, vm/page.c and page_fault of userprog/exception.c

    The kernel built with [VM] loads the pages of a program when they are
    touched.  Each thread has a supplemental page table, the list of pages that
    are not in memory and of where they are: in the executable, in a mapped
    file or in the swap area.  The frame table lists the pages of the user pool
    that programs use; when the pool is empty one of them is taken away from
    its owner.

    The state holds page tables and memory ([Pagedir]), the kernel heap, the
    files, the swap area, and the structures of these files at the addresses
    [malloc] gave them.  [victim_frame] holds the address of a list element; the
    element of a [struct frame] is 20 bytes from its start, so that an address
    that is not that of an element of the frame table is a [BadAccess].  Threads
    take turns: the locks and [sema_pf] are free between the calls of a
    sequential state.  [d_now] is what the real-time clock shows.  Fields that
    the code leaves as [malloc] returned them are 0 here and are written before
    they are read.  Messages are not kept. *)

From S2P Require Import Prelude Vaddr Mem Palloc Pagedir Alloc Files Loader Syscall.

(** ** What paging needs of the swap area (vm/swap.c) *)
Class SwapArea (W : Type) : Type := {
  sa_write : list Z -> M W Z;
  sa_read : Z -> M W (list Z);
  sa_free : Z -> M W unit;
}.

(** ** Data *)

(** vm/frame.h *)
Record vframe : Type := mk_vframe {
  finish : Z; address : Z; owner : Z; vf_page : Z; evictable : bool; vf_writable : bool }.
Definition sizeof_frame : Z := 28.
Definition elem_offset : Z := 20.

(** threads/thread.h *)
Record mapped_file : Type := mk_mapped_file { mapid : Z; mf_file : Z; mf_addr : Z; mf_size : Z }.
Record vthread : Type := mk_vthread { t_pagedir : Z; t_spt : list Z; t_mf_table : list Z }.

Record dpage (H F W : Type) : Type := mk_dpage {
  d_vm : vm;
  d_heap : H;
  d_files : F;
  d_swap : W;
  d_pages : gmap Z page;             (* struct page *)
  d_frames : gmap Z vframe;          (* struct frame *)
  d_mapped : gmap Z mapped_file;     (* struct mapped_file *)
  frame_list : list Z;
  victim_frame : Z;
  d_threads : gmap Z vthread;
  d_cur : Z;
  d_now : Z;
  page_fault_cnt : Z;
}.
Arguments mk_dpage {H F W}. Arguments d_vm {H F W}. Arguments d_heap {H F W}. Arguments d_files {H F W}.
Arguments d_swap {H F W}. Arguments d_pages {H F W}. Arguments d_frames {H F W}. Arguments d_mapped {H F W}.
Arguments frame_list {H F W}. Arguments victim_frame {H F W}. Arguments d_threads {H F W}. Arguments d_cur {H F W}.
Arguments d_now {H F W}. Arguments page_fault_cnt {H F W}.

Section paging.
Context {H F W : Type} `{Allocator H, Files F, SwapArea W}.
Context (VM : bool) (ram_pages : Z).
#[local] Abbreviation st := (dpage H F W).

Definition set_d_vm (v : vm) (s : st) : st :=
  mk_dpage v (d_heap s) (d_files s) (d_swap s) (d_pages s) (d_frames s) (d_mapped s) (frame_list s) (victim_frame s)
    (d_threads s) (d_cur s) (d_now s) (page_fault_cnt s).
Definition set_d_heap (h : H) (s : st) : st :=
  mk_dpage (d_vm s) h (d_files s) (d_swap s) (d_pages s) (d_frames s) (d_mapped s) (frame_list s) (victim_frame s)
    (d_threads s) (d_cur s) (d_now s) (page_fault_cnt s).
Definition set_d_files (f : F) (s : st) : st :=
  mk_dpage (d_vm s) (d_heap s) f (d_swap s) (d_pages s) (d_frames s) (d_mapped s) (frame_list s) (victim_frame s)
    (d_threads s) (d_cur s) (d_now s) (page_fault_cnt s).
Definition set_d_swap (w : W) (s : st) : st :=
  mk_dpage (d_vm s) (d_heap s) (d_files s) w (d_pages s) (d_frames s) (d_mapped s) (frame_list s) (victim_frame s)
    (d_threads s) (d_cur s) (d_now s) (page_fault_cnt s).
Definition set_d_pages (m : gmap Z page) (s : st) : st :=
  mk_dpage (d_vm s) (d_heap s) (d_files s) (d_swap s) m (d_frames s) (d_mapped s) (frame_list s) (victim_frame s)
    (d_threads s) (d_cur s) (d_now s) (page_fault_cnt s).
Definition set_d_frames (m : gmap Z vframe) (l : list Z) (e : Z) (s : st) : st :=
  mk_dpage (d_vm s) (d_heap s) (d_files s) (d_swap s) (d_pages s) m (d_mapped s) l e
    (d_threads s) (d_cur s) (d_now s) (page_fault_cnt s).
Definition set_d_mapped (m : gmap Z mapped_file) (s : st) : st :=
  mk_dpage (d_vm s) (d_heap s) (d_files s) (d_swap s) (d_pages s) (d_frames s) m (frame_list s) (victim_frame s)
    (d_threads s) (d_cur s) (d_now s) (page_fault_cnt s).
Definition set_d_threads (m : gmap Z vthread) (s : st) : st :=
  mk_dpage (d_vm s) (d_heap s) (d_files s) (d_swap s) (d_pages s) (d_frames s) (d_mapped s) (frame_list s) (victim_frame s)
    m (d_cur s) (d_now s) (page_fault_cnt s).
Definition count_fault (s : st) : st :=
  mk_dpage (d_vm s) (d_heap s) (d_files s) (d_swap s) (d_pages s) (d_frames s) (d_mapped s) (frame_list s) (victim_frame s)
    (d_threads s) (d_cur s) (d_now s) (page_fault_cnt s + 1).

Definition by_vm {X} (m : M vm X) : E st X := runs (fun s => '(x, v) ← m (d_vm s); Ok (x, set_d_vm v s)).
Definition by_heap {X} (m : M H X) : E st X := runs (fun s => '(x, h) ← m (d_heap s); Ok (x, set_d_heap h s)).
Definition by_files {X} (m : M F X) : E st X := runs (fun s => '(x, f) ← m (d_files s); Ok (x, set_d_files f s)).
Definition by_swap {X} (m : M W X) : E st X := runs (fun s => '(x, w) ← m (d_swap s); Ok (x, set_d_swap w s)).
Definition update (f : st -> st) : E st unit := runs (modify f).

(** Reading a structure. *)
Definition found {X} (o : st -> option X) : E st X := fun s =>
  match o s with Some x => Ok (Some x, s) | None => Fail BadAccess end.
Definition page_of (p : Z) : E st page := found (fun s => d_pages s !! p).
Definition frame_of (f : Z) : E st vframe := found (fun s => d_frames s !! f).
Definition mapped_of (m : Z) : E st mapped_file := found (fun s => d_mapped s !! m).
Definition thread_of (t : Z) : E st vthread := found (fun s => d_threads s !! t).
Definition set_frame (f : Z) (x : vframe) : E st unit :=
  update (fun s => set_d_frames (<[f := x]> (d_frames s)) (frame_list s) (victim_frame s) s).
Definition set_spt (t : Z) (l : list Z) : E st unit :=
  th ← thread_of t;
  update (fun s => set_d_threads (<[t := mk_vthread (t_pagedir th) l (t_mf_table th)]> (d_threads s)) s).

(** ** vm/page.c: the supplemental page table *)

Fixpoint look_up_loop (l : list Z) (vm_addr : Z) : E st Z :=
  match l with
  | [] => mret NULL
  | p :: l => x ← page_of p; if page_addr x =? vm_addr then mret p else look_up_loop l vm_addr
  end.

Definition supplemental_table_look_up_ext (vm_addr t : Z) : E st Z :=
  th ← thread_of t;
  look_up_loop (t_spt th) vm_addr.

Definition supplemental_table_look_up (vm_addr : Z) : E st Z :=
  cur ← found (fun s => Some (d_cur s));
  supplemental_table_look_up_ext vm_addr cur.

(** The page is in the list of the current thread. *)
Definition supplemental_table_free_page (pg : Z) : E st unit :=
  cur ← found (fun s => Some (d_cur s));
  th ← thread_of cur;
  _ ← set_spt cur (filter (fun p => p <> pg) (t_spt th));
  _ ← update (fun s => set_d_pages (delete pg (d_pages s)) s);
  by_heap (al_free pg).

(** ** vm/frame.c: the frame table *)

Definition frame_table_init : E st unit := update (fun s => set_d_frames (d_frames s) [] 0 s).

Fixpoint frame_look_loop (l : list Z) (_frame : Z) : E st Z :=
  match l with
  | [] => mret NULL
  | f :: l =>
      x ← frame_of f;
      if _frame =? address x then
        now ← found (fun s => Some (d_now s));
        _ ← set_frame f (mk_vframe now (address x) (owner x) (vf_page x) (evictable x) (vf_writable x));
        mret f
      else frame_look_loop l _frame
  end.

Definition frame_table_look_up (_frame : Z) : E st Z :=
  l ← found (fun s => Some (frame_list s)); frame_look_loop l _frame.

(** [min] and [retframe] of the loop. *)
Fixpoint find_min_loop (l : list Z) (min retframe : Z) : E st Z :=
  match l with
  | [] => mret retframe
  | f :: l =>
      x ← frame_of f;
      if finish x <? min then find_min_loop l (finish x) f else find_min_loop l min retframe
  end.

(** The list is not empty where it is called. *)
Definition frame_table_find_min : E st Z :=
  l ← found (fun s => Some (frame_list s));
  match l with
  | [] => failE BadAccess
  | f :: _ => x ← frame_of f; find_min_loop l (finish x) f
  end.

Definition frame_table_insert (_frame upage : Z) (writable : bool) : E st Z :=
  f ← by_heap (al_malloc sizeof_frame);
  if f =? NULL then thread_exit
  else
    cur ← found (fun s => Some (d_cur s));
    _ ← update (fun s => set_d_frames (<[f := mk_vframe 0 _frame cur upage false writable]> (d_frames s))
                           (f :: frame_list s) (victim_frame s) s);
    mret f.

(** The element after [e], the first one after the last. *)
Fixpoint next_in (first e : Z) (l : list Z) : option Z :=
  match l with
  | [] => None
  | f :: l => if f + elem_offset =? e then Some (match l with g :: _ => g + elem_offset | [] => first end) else next_in first e l
  end.
Definition next_elem (e : Z) : E st Z := found (fun s =>
  match frame_list s with [] => None | f :: _ => next_in (f + elem_offset) e (frame_list s) end).

Definition set_victim (e : Z) : E st unit := update (fun s => set_d_frames (d_frames s) (frame_list s) e s).

(** [while (true)]; [list_entry] takes the start of the structure to be 20
    bytes before its element. *)
Fixpoint victim_loop (fuel : nat) : E st Z :=
  match fuel with
  | O => failE NoFuel
  | S fuel =>
      e ← found (fun s => Some (victim_frame s));
      let f := u32 (e - elem_offset) in
      x ← frame_of f;
      if evictable x then
        th ← thread_of (owner x);
        acc ← by_vm (pagedir_is_accessed ram_pages (t_pagedir th) (vf_page x));
        if acc : bool then
          _ ← by_vm (pagedir_set_accessed ram_pages (t_pagedir th) (vf_page x) false);
          victim_loop fuel
        else
          n ← next_elem e;
          _ ← set_victim n;
          _ ← set_frame f (mk_vframe (finish x) (address x) (owner x) (vf_page x) false (vf_writable x));
          mret f
      else
        n ← next_elem e;
        _ ← set_victim n;
        victim_loop fuel
  end.

Definition frame_table_choose_victim (fuel : nat) : E st Z :=
  l ← found (fun s => Some (frame_list s));
  match l with
  | [] => mret NULL
  | _ :: _ =>
      v ← found (fun s => Some (victim_frame s));
      _ ← (if v =? NULL then m ← frame_table_find_min; set_victim m else mret tt);
      victim_loop fuel
  end.

(** A page evicted to swap, in the table of its owner. *)
Definition supplemental_table_add_frame (f slot : Z) : E st unit :=
  x ← frame_of f;
  p ← by_heap (al_malloc sizeof_page);
  if p =? NULL then thread_exit
  else
    th ← thread_of (owner x);
    _ ← update (fun s => set_d_pages (<[p := mk_page slot PAG_SWAP (vf_writable x) 0 0 0 (vf_page x)]> (d_pages s)) s);
    set_spt (owner x) (p :: t_spt th).

(** The bytes of a frame. *)
Definition frame_bytes (v : vm) (p : Z) (n : nat) : list Z := (fun i => memory (vm_pal v) (p + Z.of_nat i)) <$> seq 0 n.

Definition frame_table_get_frame (fuel : nat) (upage : Z) (writable : bool) : E st Z :=
  user_page ← by_vm (on_pal (palloc_get_page (Z.lor PAL_USER PAL_ZERO)));
  if negb (user_page =? NULL) then
    f ← frame_table_insert user_page upage writable;
    x ← frame_of f;
    now ← found (fun s => Some (d_now s));
    _ ← set_frame f (mk_vframe now (address x) (owner x) (vf_page x) (evictable x) (vf_writable x));
    mret f
  else
    f ← frame_table_choose_victim fuel;
    if f =? NULL then thread_exit
    else
      x ← frame_of f;
      th ← thread_of (owner x);
      p ← supplemental_table_look_up_ext (vf_page x) (owner x);
      _ ← (if negb (p =? NULL) then
             dirty ← by_vm (pagedir_is_dirty ram_pages (t_pagedir th) (vf_page x));
             _ ← by_vm (pagedir_clear_page ram_pages (t_pagedir th) (vf_page x));
             if dirty && vf_writable x then
               y ← page_of p;
               v ← found (fun s => Some (d_vm s));
               n ← by_files (fl_write_at (location y) (s32 (read_b y)) (s32 (pg_ofs_in_file y))
                               (fun i => Some (memory (vm_pal v) (address x + i))));
               if n =? s32 (read_b y) then mret tt else thread_exit
             else mret tt
           else
             _ ← by_vm (pagedir_clear_page ram_pages (t_pagedir th) (vf_page x));
             v ← found (fun s => Some (d_vm s));
             slot ← by_swap (sa_write (frame_bytes v (address x) (Z.to_nat PGSIZE)));
             supplemental_table_add_frame f slot);
      _ ← by_vm (write_ram (address x) (replicate (Z.to_nat PGSIZE) 0));
      cur ← found (fun s => Some (d_cur s));
      now ← found (fun s => Some (d_now s));
      x ← frame_of f;
      _ ← set_frame f (mk_vframe now (address x) cur upage (evictable x) writable);
      mret f.

(** [frame_table_look_up] is given the address of the structure itself. *)
Definition frame_table_remove (f : Z) : E st unit :=
  if f =? NULL then mret tt
  else
    temp ← frame_table_look_up f;
    if temp =? NULL then mret tt
    else
      x ← frame_of f;
      _ ← by_vm (on_pal (palloc_free_page (address x)));
      update (fun s => set_d_frames (d_frames s) (filter (fun g => g <> f) (frame_list s)) (victim_frame s) s).

(** [kept] are the frames that stay. *)
Fixpoint rmf_loop (t : Z) (kept l : list Z) : E st unit :=
  match l with
  | [] => mret tt
  | f :: l =>
      x ← frame_of f;
      if (owner x =? t) && evictable x then
        _ ← update (fun s => set_d_frames (delete f (d_frames s)) (kept ++ l) (victim_frame s) s);
        _ ← by_heap (al_free f);
        rmf_loop t kept l
      else rmf_loop t (kept ++ [f]) l
  end.
Definition frame_table_rmf (t : Z) : E st unit := l ← found (fun s => Some (frame_list s)); rmf_loop t [] l.

Fixpoint clear_accessed (l : list Z) : E st unit :=
  match l with
  | [] => mret tt
  | f :: l =>
      x ← frame_of f;
      th ← thread_of (owner x);
      _ ← by_vm (pagedir_set_accessed ram_pages (t_pagedir th) (vf_page x) false);
      clear_accessed l
  end.
Definition frame_table_update_accessed_bit : E st unit := l ← found (fun s => Some (frame_list s)); clear_accessed l.

(** ** Bringing a page in *)

(** [install_page] of userprog/process.c, for the current thread. *)
Definition install_for_current (upage kpage : Z) (writable : bool) : E st bool :=
  cur ← found (fun s => Some (d_cur s));
  th ← thread_of cur;
  old ← by_vm (pagedir_get_page ram_pages (t_pagedir th) upage);
  if old =? NULL then by_vm (pagedir_set_page ram_pages (t_pagedir th) upage kpage writable) else mret false.

(** The common end of the three cases: map the frame, or give up. *)
Definition install_or_exit (f : Z) (x : page) : E st unit :=
  fr ← frame_of f;
  ok ← install_for_current (page_addr x) (address fr) (pg_writable x);
  if ok : bool then mret tt else _ ← frame_table_remove f; thread_exit.

(** The contents of a page of a file; the frame is zero. *)
Definition fill_frame (f : Z) (x : page) : E st unit :=
  fr ← frame_of f;
  if negb (zero_b x =? PGSIZE) then
    bs ← by_files (fl_read_at (location x) (s32 (read_b x)) (s32 (pg_ofs_in_file x)));
    _ ← by_vm (write_ram (address fr) bs);
    if Z.of_nat (length bs) =? s32 (read_b x) then mret tt else _ ← frame_table_remove f; thread_exit
  else mret tt.

(** A page of an executable or of a mapped file. *)
Definition read_file_page (fuel : nat) (x : page) : E st Z :=
  f ← frame_table_get_frame fuel (page_addr x) (pg_writable x);
  _ ← fill_frame f x;
  _ ← install_or_exit f x;
  mret f.

(** [f->evictable = true] *)
Definition mark_evictable (f : Z) : E st unit :=
  fr ← frame_of f;
  set_frame f (mk_vframe (finish fr) (address fr) (owner fr) (vf_page fr) true (vf_writable fr)).

Definition supplemental_table_load_page (fuel : nat) (p : Z) : E st unit :=
  x ← page_of p;
  f ← match pg x with
      | PAG_EXEC =>
          f ← read_file_page fuel x;
          _ ← (if pg_writable x then supplemental_table_free_page p else mret tt);
          mret f
      | PAG_FILE => read_file_page fuel x
      | PAG_SWAP =>
          f ← frame_table_get_frame fuel (page_addr x) (pg_writable x);
          fr ← frame_of f;
          bs ← by_swap (sa_read (location x));
          _ ← by_vm (write_ram (address fr) bs);
          _ ← install_or_exit f x;
          _ ← supplemental_table_free_page p;
          mret f
      end;
  mark_evictable f.

(** ** Taking the tables down *)

Fixpoint destroy_loop (l : list Z) : E st unit :=
  match l with
  | [] => mret tt
  | p :: l =>
      cur ← found (fun s => Some (d_cur s));
      _ ← set_spt cur l;
      x ← page_of p;
      _ ← match pg x with PAG_SWAP => by_swap (sa_free (location x)) | _ => mret tt end;
      _ ← update (fun s => set_d_pages (delete p (d_pages s)) s);
      _ ← by_heap (al_free p);
      destroy_loop l
  end.
Definition supplemental_table_destroy : E st unit :=
  cur ← found (fun s => Some (d_cur s));
  th ← thread_of cur;
  destroy_loop (t_spt th).

(** [while (size > 0)] of [handle_munmap] and [mf_table_destroy]: write back the
    pages that were changed; each round clears the page at [mf_addr]. *)
Fixpoint unmap_loop (fuel : nat) (mf : mapped_file) (size addr : Z) : E st unit :=
  match fuel with
  | O => failE NoFuel
  | S fuel =>
      if 0 <? size then
        p ← supplemental_table_look_up addr;
        if p =? NULL then thread_exit
        else
          x ← page_of p;
          cur ← found (fun s => Some (d_cur s));
          th ← thread_of cur;
          kpage ← by_vm (pagedir_get_page ram_pages (t_pagedir th) (page_addr x));
          _ ← (if negb (kpage =? NULL) then
                 dirty ← by_vm (pagedir_is_dirty ram_pages (t_pagedir th) (page_addr x));
                 _ ← (if dirty : bool then
                        v ← found (fun s => Some (d_vm s));
                        n ← by_files (fl_write_at (mf_file mf) (s32 (read_b x)) (s32 (pg_ofs_in_file x))
                                        (fun i => Some (memory (vm_pal v) (kpage + i))));
                        if n =? s32 (read_b x) then mret tt else thread_exit
                      else mret tt);
                 by_vm (pagedir_clear_page ram_pages (t_pagedir th) (mf_addr mf))
               else mret tt);
          _ ← supplemental_table_free_page p;
          unmap_loop fuel mf (u32 (size - read_b x)) (u32 (addr + read_b x))
      else mret tt
  end.

Fixpoint find_mapped_loop (l : list Z) (id : Z) : E st Z :=
  match l with
  | [] => mret NULL
  | m :: l => x ← mapped_of m; if mapid x =? id then mret m else find_mapped_loop l id
  end.
Definition find_mapped_file (id : Z) : E st Z :=
  cur ← found (fun s => Some (d_cur s));
  th ← thread_of cur;
  find_mapped_loop (t_mf_table th) id.

Definition set_mf_table (l : list Z) : E st unit :=
  cur ← found (fun s => Some (d_cur s));
  th ← thread_of cur;
  update (fun s => set_d_threads (<[cur := mk_vthread (t_pagedir th) (t_spt th) l]> (d_threads s)) s).

(** The part of [handle_munmap] after its argument has been read. *)
Definition munmap (fuel : nat) (id : Z) : E st unit :=
  m ← find_mapped_file id;
  if m =? NULL then mret tt
  else
    mf ← mapped_of m;
    _ ← unmap_loop fuel mf (mf_size mf) (mf_addr mf);
    _ ← by_files (fl_close (mf_file mf));
    cur ← found (fun s => Some (d_cur s));
    th ← thread_of cur;
    _ ← set_mf_table (filter (fun n => n <> m) (t_mf_table th));
    _ ← update (fun s => set_d_mapped (delete m (d_mapped s)) s);
    by_heap (al_free m).

(** Each file is popped from the list and then removed from it again: its links
    still are those it had as the first element, so that the second removal
    writes the same links as the first. *)
Fixpoint mf_destroy_loop (fuel : nat) (l : list Z) : E st unit :=
  match l with
  | [] => mret tt
  | m :: l =>
      _ ← set_mf_table l;
      mf ← mapped_of m;
      _ ← unmap_loop fuel mf (mf_size mf) (mf_addr mf);
      _ ← by_files (fl_close (mf_file mf));
      _ ← update (fun s => set_d_mapped (delete m (d_mapped s)) s);
      _ ← by_heap (al_free m);
      mf_destroy_loop fuel l
  end.
Definition mf_table_destroy (fuel : nat) : E st unit :=
  cur ← found (fun s => Some (d_cur s));
  th ← thread_of cur;
  mf_destroy_loop fuel (t_mf_table th).

(** ** Page faults *)

Definition PF_P : Z := 1.
Definition PF_W : Z := 2.
Definition PF_U : Z := 4.

(** How the interrupted code goes on: again, or at another address with EAX set
    to -1. *)
Inductive resume : Type := Again | At (eip eax : Z).

Definition page_fault (fuel : nat) (fault_addr error_code eax : Z) : E st resume :=
  _ ← update count_fault;
  let not_present := Z.land error_code PF_P =? 0 in
  let user := negb (Z.land error_code PF_U =? 0) in
  conti ← (if VM && (not_present && (fault_addr <? PHYS_BASE)) then
             page ← supplemental_table_look_up (pg_round_down fault_addr);
             if negb (page =? NULL) then
               _ ← supplemental_table_load_page fuel page;
               mret true
             else if negb user then thread_exit else mret false
           else mret false);
  if conti : bool then mret Again
  else if negb user then mret (At eax (u32 (-1)))
  else thread_exit.
End paging.
