(* ===== verification/FramesSpec.v ===== *)
(** * Demand paging is transparent

    The memory a program is meant to have ([logical]) is what its present pages
    hold and, for the others, what its supplemental page table says: bytes of a
    file, then zeros.  A page fault on such a page brings it in and changes the
    logical memory of no process; and the supplemental page table that the
    loader builds describes the same memory as reading the segment in at once.
    Choosing a page to evict is shown to go wrong at its first step. *)

From S2P Require Import Prelude Vaddr Mem Palloc Pagedir PagedirInv PagedirSpec UserSpace Alloc RamDisk Args ArgsSpec Files Loader LoaderSpec Syscall Frames.

#[local] Abbreviation PB := 3221225472.

Section spec.
Context {H F W : Type} `{AllocatorLaws H, FilesLaws F, SwapArea W}.
Context (ram_pages kstart kend_text : Z).
Hypothesis Hram : 0 <= ram_pages < 2 ^ 18.
#[local] Abbreviation vm_inv := (vm_inv ram_pages kstart kend_text).
#[local] Abbreviation st := (dpage H F W).
Implicit Types (s : st) (a : space) (own : gmap Z role) (m : gmap Z entry) (x : page).

(** ** Steps *)

Lemma by_vm_step {X} (c : M vm X) s y v : c (d_vm s) = Ok (y, v) -> by_vm c s = Ok (Some y, set_d_vm v s).
Proof. intros Hc. unfold by_vm, runs. by rewrite Hc. Qed.
Lemma by_heap_step {X} (c : M H X) s y h : c (d_heap s) = Ok (y, h) -> by_heap c s = Ok (Some y, set_d_heap h s).
Proof. intros Hc. unfold by_heap, runs. by rewrite Hc. Qed.
Lemma by_files_step {X} (c : M F X) s y f : c (d_files s) = Ok (y, f) -> by_files c s = Ok (Some y, set_d_files f s).
Proof. intros Hc. unfold by_files, runs. by rewrite Hc. Qed.
Lemma found_step {X} (o : st -> option X) s y : o s = Some y -> found o s = Ok (Some y, s).
Proof. intros Ho. unfold found. by rewrite Ho. Qed.

(** ** Logical memory *)

(** The entry of the table for a page. *)
Definition spt_find (l : list page) (vm_addr : Z) : option page := List.find (fun x => page_addr x =? vm_addr) l.

(** The byte of [va] that an entry describes. *)
Definition entry_byte (f : F) x (va : Z) : option Z :=
  '(d, _) ← fl_file f (location x); Some (page_image d (pg_ofs_in_file x) (read_b x) (pg_ofs va)).

(** The entries of a supplemental page table. *)
Definition spt_of s (l : list Z) : list page := omap (fun p => d_pages s !! p) l.

Definition present_at a (pd va : Z) : bool := here (dirs a !! pd ≫= (.!! pg_no va)).

Definition logical s a (th : vthread) (va : Z) : option Z :=
  if present_at a (t_pagedir th) va then view (d_vm s) a (t_pagedir th) va
  else x ← spt_find (spt_of s (t_spt th)) (pg_round_down va); entry_byte (d_files s) x va.

(** An entry whose page can be read in. *)
Record entry_good (f : F) x : Prop := {
  eg_kind : pg x <> PAG_SWAP;
  eg_addr : 0 <= page_addr x < PB /\ page_addr x mod 4096 = 0;
  eg_bytes : 0 <= read_b x <= 4096 /\ zero_b x = 4096 - read_b x;
  eg_ofs : 0 < read_b x -> 0 <= pg_ofs_in_file x < FILE_MAX;
  eg_file : exists d pos, fl_file f (location x) = Some (d, pos) /\
    (0 < read_b x -> pg_ofs_in_file x + read_b x <= Z.of_nat (length d));
}.

(** [live] are the blocks of the heap other than the entries of the table. *)
Record paged s a (th : vthread) (live : list (Z * Z)) : Prop := {
  pa_vm : exists f own, vm_inv f (d_vm s) a own;
  pa_thread : d_threads s !! d_cur s = Some th;
  pa_dir : is_Some (dirs a !! t_pagedir th);
  pa_files : fl_ok (d_files s);
  pa_heap : al_ok (d_heap s) (((fun p => (p, sizeof_page)) <$> t_spt th) ++ live);
  pa_spt : Forall (fun p => p <> NULL /\ exists x, d_pages s !! p = Some x /\ entry_good (d_files s) x) (t_spt th);
  pa_nodup : NoDup (t_spt th);
}.

(** Looking up an entry. *)
Lemma spt_look_ok s vm_addr : forall l x,
  Forall (fun p => p <> NULL /\ exists x, d_pages s !! p = Some x /\ entry_good (d_files s) x) l -> spt_find (spt_of s l) vm_addr = Some x ->
  exists l1 p l2, l = l1 ++ p :: l2 /\ d_pages s !! p = Some x /\ page_addr x = vm_addr /\ entry_good (d_files s) x /\ p <> NULL /\
    look_up_loop l vm_addr s = Ok (Some p, s).
Proof.
  induction l as [|p l IH]; intros x Hl Hf; [done|]. apply Forall_cons in Hl as [(Hn & y & Hy & Hg) Hl].
  unfold spt_of in Hf. cbn [omap list_omap] in Hf. rewrite Hy in Hf. cbn [spt_find List.find] in Hf. cbn [look_up_loop].
  erewrite bindE_step by (by apply found_step). destruct (Z.eqb_spec (page_addr y) vm_addr) as [E|Hne].
  - injection Hf as <-. by exists [], p, l.
  - destruct (IH x Hl Hf) as (l1 & q & l2 & -> & Hq & Ha & Hgx & Hqn & Hr). by exists (p :: l1), q, l2.
Qed.

(** ** Frames *)

(** A new frame: the pool has a page, and the table grows by it. *)
Definition with_frame (fr : Z) (x : vframe) (h : H) (v : vm) s : st :=
  set_d_frames (<[fr := x]> (d_frames s)) (fr :: frame_list s) (victim_frame s) (set_d_heap h (set_d_vm v s)).

Definition pool_page s (p : Z) (v : vm) : Prop := on_pal (palloc_get_page (Z.lor PAL_USER PAL_ZERO)) (d_vm s) = Ok (p, v) /\ p <> NULL.

Lemma get_frame_ok fuel s blocks upage w p v :
  roomy (H := H) -> al_ok (d_heap s) blocks -> pool_page s p v ->
  exists fr h, frame_table_get_frame ram_pages fuel upage w s =
      Ok (Some fr, with_frame fr (mk_vframe (d_now s) p (d_cur s) upage false w) h v s) /\
    fresh_block fr blocks /\ al_ok h ((fr, sizeof_frame) :: blocks).
Proof.
  intros Hro Hal [Hp Hn]. unfold frame_table_get_frame. erewrite bindE_step by (by apply by_vm_step).
  rewrite (proj2 (Z.eqb_neq p NULL)) by done. cbn [negb].
  destruct (al_malloc_ok (d_heap s) blocks sizeof_frame Hal) as (fr & h & Hm & [[-> _]|[Hfr Hh]]); [done|by destruct (Hro _ _ _ _ _ Hal Hm)|].
  exists fr, h. split; [|done]. unfold frame_table_insert.
  erewrite bindE_step.
  2: { erewrite bindE_step by (by apply by_heap_step). rewrite (proj2 (Z.eqb_neq fr NULL)) by apply Hfr. reflexivity. }
  erewrite bindE_step by (apply found_step; apply lookup_insert_eq). cbn [address owner vf_page evictable vf_writable].
  erewrite bindE_step by reflexivity. unfold set_frame, update. erewrite bindE_step by (by apply runs_step).
  unfold mret, E_ret, with_frame, set_d_frames, set_d_heap, set_d_vm.
  cbn [d_vm d_heap d_files d_swap d_pages d_frames d_mapped frame_list victim_frame d_threads d_cur d_now page_fault_cnt].
  by rewrite insert_insert_eq.
Qed.

(** [bs] has been written at [p], or nothing had to be. *)
Definition filled (p : Z) (bs : list Z) (v1 v2 : vm) : Prop := v2 = ram_with p bs v1 \/ bs = [] /\ v2 = v1.

Lemma filled_ok f v1 v2 a own p bs :
  vm_inv f v1 a own -> own !! p = Some RHeld -> Z.of_nat (length bs) <= 4096 -> filled p bs v1 v2 ->
  vm_inv f v2 a own /\ (forall pd va, view v2 a pd va = view v1 a pd va) /\
  forall k, 0 <= k < 4096 -> byte_at v2 (p + k) = if k <? Z.of_nat (length bs) then nth (Z.to_nat k) bs 0 else byte_at v1 (p + k).
Proof.
  intros Hi Ho Hl [-> | [-> ->]].
  - pose proof (fun pd va => view_write _ _ _ Hram f v1 a own p bs pd va Hi Ho Hl) as Hw. split; [apply (Hw 0 0)|].
    split; [intros; apply Hw|]. intros k Hk. destruct (Z.ltb_spec k (Z.of_nat (length bs))).
    + rewrite ram_with_in by lia. do 2 f_equal. lia.
    + by rewrite ram_with_out by lia.
  - split; [done|]. split; [done|]. intros k Hk. cbn [length]. by rewrite (proj2 (Z.ltb_ge _ _)) by lia.
Qed.

(** A page of the pool, filled and mapped. *)
Lemma fill_and_map f v0 a own pd m upage p v1 v2 w bs :
  vm_inv f v0 a own -> dirs a !! pd = Some m -> 0 <= upage < PB -> upage mod 4096 = 0 -> here (m !! pg_no upage) = false ->
  on_pal (palloc_get_page (Z.lor PAL_USER PAL_ZERO)) v0 = Ok (p, v1) -> p <> NULL -> Z.of_nat (length bs) <= 4096 -> filled p bs v1 v2 ->
  pagedir_get_page ram_pages pd upage v2 = Ok (NULL, v2) /\
  exists b v3, pagedir_set_page ram_pages pd upage p w v2 = Ok (b, v3) /\
    (b = true ->
     let a' := upd pd m (pg_no upage) (mk_entry p true w false false) (held a) a in
     (exists own', vm_inv f v3 a' own') /\
     forall pd' va', view v3 a' pd' va' = if decide (pd' = pd /\ pg_no va' = pg_no upage)
       then Some (if pg_ofs va' <? Z.of_nat (length bs) then nth (Z.to_nat (pg_ofs va')) bs 0 else 0) else view v0 a pd' va').
Proof.
  intros Hi Hd Hu Hal Hno Hp Hn Hl Hfl.
  destruct (hold_page _ _ _ Hram f v0 a own (Z.lor PAL_USER PAL_ZERO) Hi eq_refl) as (p' & v1' & own1 & Hp' & Hv1 & Hc).
  rewrite Hp in Hp'. injection Hp' as <- <-. destruct Hc as [[-> _]|(_ & Hph & Hi1 & Ho1 & Hz)]; [done|]. specialize (Hz eq_refl).
  set (a1 := with_held a ({[p]} ∪ held a)) in *. assert (dirs a1 !! pd = Some m) as Hd1 by done.
  destruct (filled_ok f v1 v2 a1 own1 p bs Hi1 Ho1 Hl Hfl) as (Hi2 & Hw & Hby).
  pose proof (get_page_spec _ _ _ Hram f _ a1 own1 pd m upage Hi2 Hd1 Hu) as Hg.
  split.
  { rewrite Hg. f_equal. f_equal. unfold here in Hno. destruct (m !! pg_no upage) as [e|]; [|done]. by rewrite Hno. }
  destruct (map_page _ _ _ Hram f _ a1 own1 pd m upage p w Hi2 Hd1 Hu Hal) as (b & v3 & own3 & Hr & Hc); [unfold a1; cbn; set_solver|done|].
  exists b, v3. split; [done|]. intros ->. destruct Hc as [(? & _)|(_ & Hi3 & Hv3)]; [done|].
  assert ((held a1 ∖ {[p]}) = held a) as Eh by (unfold a1; cbn [held with_held]; apply leibniz_equiv; set_solver).
  rewrite Eh in Hi3, Hv3. split; [by exists own3|]. intros pd' va'. etransitivity; [exact (Hv3 pd' va')|]. case_decide as Hcase.
  - f_equal. assert (0 <= pg_ofs va' < 4096) as Ho by (rewrite pg_ofs_mod; zlia). rewrite Hby by done. by rewrite Hz.
  - rewrite (Hw pd' va'). apply Hv1.
Qed.

(** What an entry says the page holds. *)
Definition entry_bytes (f : F) x : list Z :=
  match fl_file f (location x) with Some (d, _) => slice d (pg_ofs_in_file x) (read_b x) | None => [] end.

Lemma entry_bytes_ok f x va :
  entry_good f x -> pg_no va = pg_no (page_addr x) ->
  Z.of_nat (length (entry_bytes f x)) = read_b x /\
  entry_byte f x va = Some (if pg_ofs va <? read_b x then nth (Z.to_nat (pg_ofs va)) (entry_bytes f x) 0 else 0).
Proof.
  intros Hg Hpg. destruct (eg_file _ _ Hg) as (d & pos & Hfile & Hlen). destruct (eg_bytes _ _ Hg) as [Hrb _]. pose proof (eg_ofs _ _ Hg) as Hofs.
  unfold entry_bytes, entry_byte. rewrite Hfile. cbn [mbind option_bind]. split.
  - unfold slice. rewrite length_take, length_drop. destruct (decide (read_b x = 0)); lia.
  - f_equal. unfold page_image. destruct (Z.ltb_spec (pg_ofs va) (read_b x)); [|done].
    assert (0 <= pg_ofs va) by (rewrite pg_ofs_mod; zlia). by rewrite slice_nth by lia.
Qed.

(** The state in which a page that has been read in is mapped. *)
Definition paged_in s x (fr p : Z) (h : H) (f' : F) (v1 v : vm) : st :=
  set_d_vm v (set_d_files f' (with_frame fr (mk_vframe (d_now s) p (d_cur s) (page_addr x) false (pg_writable x)) h v1 s)).

Lemma fill_frame_ok s s1 x fr p v1 d pos :
  entry_good (d_files s) x -> fl_ok (d_files s) -> fl_file (d_files s) (location x) = Some (d, pos) ->
  (address <$> d_frames s1 !! fr) = Some p -> d_files s1 = d_files s -> d_vm s1 = v1 ->
  exists f' v2, fl_ok f' /\ (forall q, fl_file f' q = fl_file (d_files s) q) /\ filled p (entry_bytes (d_files s) x) v1 v2 /\
    fill_frame fr x s1 = Ok (Some tt, set_d_vm v2 (set_d_files f' s1)).
Proof.
  intros Hg Hok Hfile Hfr Ef Ev. destruct (eg_bytes _ _ Hg) as [Hrb Hzb]. pose proof (eg_ofs _ _ Hg) as Hofs.
  destruct (entry_bytes_ok (d_files s) x (page_addr x) Hg eq_refl) as [Hbl _]. set (bs := entry_bytes (d_files s) x) in *.
  unfold fill_frame. destruct (d_frames s1 !! fr) as [y|] eqn:Hy; [|done]. injection Hfr as <-. erewrite bindE_step by (by apply found_step).
  change PGSIZE with 4096. destruct (Z.eqb_spec (zero_b x) 4096) as [Hz|Hz]; cbn [negb].
  - exists (d_files s), v1. split; [done|]. split; [done|]. split; [right; split; [|done]; destruct bs; [done|cbn in Hbl; lia]|].
    rewrite <- Ef, <- Ev. destruct s1; reflexivity.
  - specialize (Hofs ltac:(lia)). rewrite !s32_small by (unfold FILE_MAX in *; lia).
    destruct (fl_read_at_ok (d_files s) (location x) d pos (read_b x) (pg_ofs_in_file x) Hok Hfile) as (f' & Hr & Hf' & Hs);
      [done|unfold FILE_MAX; lia|].
    assert (slice d (pg_ofs_in_file x) (read_b x) = bs) as Ebs by (unfold bs, entry_bytes; by rewrite Hfile). rewrite Ebs, <- Ef in Hr.
    exists f', (ram_with (address y) bs v1). split; [done|]. split; [done|]. split; [by left|].
    erewrite bindE_step by (by apply by_files_step). erewrite bindE_step by (by apply by_vm_step). rewrite (proj2 (Z.eqb_eq _ _) Hbl).
    rewrite <- Ev. destruct s1; reflexivity.
Qed.

(** Mapping a frame for the current thread. *)
Lemma install_ok_or_exit s th fr y x v3 :
  d_threads s !! d_cur s = Some th -> d_frames s !! fr = Some y ->
  pagedir_get_page ram_pages (t_pagedir th) (page_addr x) (d_vm s) = Ok (NULL, d_vm s) ->
  pagedir_set_page ram_pages (t_pagedir th) (page_addr x) (address y) (pg_writable x) (d_vm s) = Ok (true, v3) ->
  install_or_exit ram_pages fr x s = Ok (Some tt, set_d_vm v3 s).
Proof.
  intros Hth Hy Hg Hs. unfold install_or_exit, install_for_current. erewrite bindE_step by (by apply found_step).
  rewrite (bindE_step _ _ s true (set_d_vm v3 s)); [done|]. erewrite bindE_step by reflexivity. erewrite bindE_step by (by apply found_step).
  erewrite bindE_step by (by apply by_vm_step). rewrite Z.eqb_refl. assert (set_d_vm (d_vm s) s = s) as -> by (by destruct s).
  by apply by_vm_step.
Qed.

(** Bringing in a page of a file: a new frame, its contents, its mapping. *)
Lemma read_file_page_ok fuel s a th live x m p v1 :
  roomy (H := H) -> paged s a th live -> entry_good (d_files s) x -> dirs a !! t_pagedir th = Some m ->
  here (m !! pg_no (page_addr x)) = false -> pool_page s p v1 ->
  exists fr h f' v2 b v3, fresh_block fr (((fun p => (p, sizeof_page)) <$> t_spt th) ++ live) /\
    al_ok h ((fr, sizeof_frame) :: ((fun p => (p, sizeof_page)) <$> t_spt th) ++ live) /\
    fl_ok f' /\ (forall q, fl_file f' q = fl_file (d_files s) q) /\ filled p (entry_bytes (d_files s) x) v1 v2 /\
    pagedir_set_page ram_pages (t_pagedir th) (page_addr x) p (pg_writable x) v2 = Ok (b, v3) /\
    (b = true ->
      read_file_page ram_pages fuel x s = Ok (Some fr, paged_in s x fr p h f' v1 v3) /\
      let a' := upd (t_pagedir th) m (pg_no (page_addr x)) (mk_entry p true (pg_writable x) false false) (held a) a in
      (exists fx own', vm_inv fx v3 a' own') /\
      forall pd' va', view v3 a' pd' va' = if decide (pd' = t_pagedir th /\ pg_no va' = pg_no (page_addr x))
        then entry_byte (d_files s) x va' else view (d_vm s) a pd' va').
Proof.
  intros Hro Hpa Hg Hd Hno Hpool. destruct (pa_vm _ _ _ _ Hpa) as (f & own & Hi). destruct (eg_file _ _ Hg) as (d & pos & Hfile & Hlen).
  destruct (eg_addr _ _ Hg) as [Hua Hual]. destruct (eg_bytes _ _ Hg) as [Hrb Hzb]. pose proof (eg_ofs _ _ Hg) as Hofs.
  destruct (get_frame_ok fuel s _ (page_addr x) (pg_writable x) p v1 Hro (pa_heap _ _ _ _ Hpa) Hpool) as (fr & h & Hget & Hfr & Hh).
  destruct (entry_bytes_ok (d_files s) x (page_addr x) Hg eq_refl) as [Hbl _]. destruct Hpool as [Hp Hpn].
  set (bs := entry_bytes (d_files s) x) in *. set (s1 := with_frame _ _ _ _ _) in Hget.
  destruct (fill_frame_ok s s1 x fr p v1 d pos Hg (pa_files _ _ _ _ Hpa) Hfile) as (f' & v2 & Hf' & Hsame & Hfill & Hrd);
    [unfold s1; cbn [with_frame set_d_frames d_frames]; by rewrite lookup_insert_eq|done|done|].
  destruct (fill_and_map f (d_vm s) a own (t_pagedir th) m (page_addr x) p v1 v2 (pg_writable x) bs Hi Hd Hua Hual Hno Hp Hpn ltac:(lia) Hfill)
    as (Hgp & b & v3 & Hset & Hb).
  exists fr, h, f', v2, b, v3. repeat (split; [done|]). intros ->. destruct (Hb eq_refl) as [[own' Hi'] Hv]. split.
  - unfold read_file_page. erewrite bindE_step by exact Hget.
    erewrite bindE_step by exact Hrd.
    erewrite bindE_step by (eapply (install_ok_or_exit _ th); [apply Hpa|apply lookup_insert_eq|exact Hgp|exact Hset]). done.
  - split; [by exists f, own'|]. intros pd' va'. etransitivity; [exact (Hv pd' va')|]. case_decide as Hc; [|done].
    destruct (entry_bytes_ok (d_files s) x va' Hg (proj2 Hc)) as [_ ->]. fold bs. by rewrite Hbl.
Qed.

(** ** Page faults *)

Lemma entry_good_same f f' x : (forall q, fl_file f' q = fl_file f q) -> entry_good f x -> entry_good f' x.
Proof. intros Hs [Hk Ha Hb Ho (d & pos & Hd & Hl)]. split; try done. exists d, pos. by rewrite Hs. Qed.

Lemma entry_byte_same f f' x va : (forall q, fl_file f' q = fl_file f q) -> entry_byte f' x va = entry_byte f x va.
Proof. intros Hs. unfold entry_byte. by rewrite Hs. Qed.

(** Removing the entry of another page. *)
Lemma spt_find_filter (pages : gmap Z page) p x vm_addr l :
  pages !! p = Some x -> page_addr x <> vm_addr ->
  spt_find (omap (fun q => delete p pages !! q) (filter (fun q => q <> p) l)) vm_addr = spt_find (omap (fun q => pages !! q) l) vm_addr.
Proof.
  intros Hp Hne. induction l as [|q l IH]; [done|]. destruct (decide (q = p)) as [->|Hq].
  - rewrite filter_cons_False by naive_solver. cbn [omap list_omap]. rewrite Hp. cbn [spt_find List.find].
    by rewrite (proj2 (Z.eqb_neq _ _)).
  - rewrite filter_cons_True by done. cbn [omap list_omap]. rewrite lookup_delete_ne by done.
    destruct (pages !! q) as [y|]; [|done]. cbn [spt_find List.find]. destruct (_ =? _); [done|exact IH].
Qed.

(** Freeing an entry of the current thread. *)
Lemma spt_free_ok s th p n blocks :
  d_threads s !! d_cur s = Some th -> al_ok (d_heap s) ((p, n) :: blocks) ->
  exists h, al_ok h blocks /\
    supplemental_table_free_page p s = Ok (Some tt, set_d_heap h (set_d_pages (delete p (d_pages s))
      (set_d_threads (<[d_cur s := mk_vthread (t_pagedir th) (filter (fun q => q <> p) (t_spt th)) (t_mf_table th)]> (d_threads s)) s))).
Proof.
  intros Hth Hal. destruct (al_free_ok _ _ _ _ Hal) as (h & Hfr & Hh). exists h. split; [done|].
  unfold supplemental_table_free_page, set_spt. erewrite bindE_step by reflexivity. erewrite bindE_step by (by apply found_step).
  erewrite bindE_step by (erewrite bindE_step by (by apply found_step); reflexivity). erewrite bindE_step by reflexivity.
  by apply by_heap_step.
Qed.

(** The page of an address. *)
Lemma round_page va va' x :
  0 <= va < PB -> 0 <= va' < PB -> page_addr x = pg_round_down va -> (pg_no va' = pg_no (page_addr x) <-> pg_round_down va' = page_addr x).
Proof. intros Hv Hv' ->. rewrite !pg_round_down_arith, !pg_no_div by lia. split; zlia. Qed.

(** What is left of the table once the page at [p] is in memory. *)
Definition rest_of (p : Z) x (th : vthread) : vthread :=
  match pg x with
  | PAG_EXEC => if pg_writable x then mk_vthread (t_pagedir th) (filter (fun q => q <> p) (t_spt th)) (t_mf_table th) else th
  | _ => th
  end.

(** The state after the page is in. *)
Record brought_in s p x (th : vthread) (fr kp : Z) (f' : F) (v3 : vm) live s' : Prop := {
  bi_vm : d_vm s' = v3;
  bi_files : d_files s' = f';
  bi_cur : d_cur s' = d_cur s;
  bi_thread : d_threads s' !! d_cur s = Some (rest_of p x th);
  bi_pages : forall q, q ∈ t_spt (rest_of p x th) -> d_pages s' !! q = d_pages s !! q;
  bi_heap : al_ok (d_heap s') (((fun p => (p, sizeof_page)) <$> t_spt (rest_of p x th)) ++ (fr, sizeof_frame) :: live);
  bi_frame : d_frames s' !! fr = Some (mk_vframe (d_now s) kp (d_cur s) (page_addr x) true (pg_writable x));
  bi_list : frame_list s' = fr :: frame_list s;
  bi_count : page_fault_cnt s' = page_fault_cnt s;
}.

Lemma mark_evictable_ok s fr y :
  d_frames s !! fr = Some y -> mark_evictable fr s =
    Ok (Some tt, set_d_frames (<[fr := mk_vframe (finish y) (address y) (owner y) (vf_page y) true (vf_writable y)]> (d_frames s))
                   (frame_list s) (victim_frame s) s).
Proof. intros Hy. unfold mark_evictable. by erewrite bindE_step by (by apply found_step). Qed.

Lemma load_page_ok fuel s a th live p x fr h f' kp v1 v3 :
  paged s a th live -> p ∈ t_spt th -> d_pages s !! p = Some x -> entry_good (d_files s) x ->
  al_ok h ((fr, sizeof_frame) :: ((fun p => (p, sizeof_page)) <$> t_spt th) ++ live) ->
  read_file_page ram_pages fuel x s = Ok (Some fr, paged_in s x fr kp h f' v1 v3) ->
  exists s', supplemental_table_load_page ram_pages fuel p s = Ok (Some tt, s') /\ brought_in s p x th fr kp f' v3 live s'.
Proof.
  intros Hpa Hin Hp Hg Hh Hread. unfold supplemental_table_load_page. erewrite bindE_step by (by apply found_step).
  set (y := mk_vframe (d_now s) kp (d_cur s) (page_addr x) false (pg_writable x)).
  set (sI := paged_in s x fr kp h f' v1 v3) in *. assert (d_frames sI !! fr = Some y) as Hy by (apply lookup_insert_eq).
  assert (d_threads sI !! d_cur sI = Some th) as Hth by apply Hpa.
  assert (al_ok h (((fun p => (p, sizeof_page)) <$> t_spt th) ++ (fr, sizeof_frame) :: live)) as Hh'.
  { eapply al_perm; [|exact Hh]. solve_Permutation. }
  assert (rest_of p x th = th -> exists s', mark_evictable fr sI = Ok (Some tt, s') /\ brought_in s p x th fr kp f' v3 live s') as Hkeep.
  { intros E. eexists. split; [by apply mark_evictable_ok|]. split; rewrite ?E; try done; first [apply Hpa|apply lookup_insert_eq]. }
  unfold rest_of in *. destruct (pg x) eqn:Hk; [by destruct (eg_kind _ _ Hg)| |].
  - erewrite bindE_step by exact Hread. by apply Hkeep.
  - destruct (pg_writable x) eqn:Hw.
    2: { erewrite bindE_step by (erewrite bindE_step by exact Hread; reflexivity). by apply Hkeep. }
    apply list_elem_of_split in Hin as (l1 & l2 & El). pose proof (pa_nodup _ _ _ _ Hpa) as Hnd.
    assert (filter (fun q => q <> p) (t_spt th) = l1 ++ l2) as Ef.
    { rewrite El in Hnd |- *. apply NoDup_app in Hnd as (_ & Hd1 & Hd2). apply NoDup_cons in Hd2 as [Hp2 _].
      rewrite filter_app, filter_cons_False by naive_solver. f_equal; apply filter_all, Forall_forall; intros q Hq ->; set_solver. }
    destruct (spt_free_ok sI th p sizeof_page (((fun p => (p, sizeof_page)) <$> l1 ++ l2) ++ (fr, sizeof_frame) :: live) Hth) as (h2 & Hh2 & Hfree).
    { eapply al_perm; [|exact Hh']. rewrite El, !fmap_app, fmap_cons. solve_Permutation. }
    erewrite bindE_step.
    2: { erewrite bindE_step by exact Hread. erewrite bindE_step by exact Hfree. reflexivity. }
    eexists. split; [by apply mark_evictable_ok|]. rewrite <- Ef in Hh2.
    split; unfold rest_of; rewrite ?Hk, ?Hw; cbn [t_spt]; try done; try apply lookup_insert_eq.
    intros q [Hq _]%list_elem_of_filter. cbn. by rewrite lookup_delete_ne.
Qed.

Lemma present_upd pd m no e a pd' va' :
  dirs a !! pd = Some m -> present e = true ->
  present_at (upd pd m no e (held a) a) pd' va' = if decide (pd' = pd /\ pg_no va' = no) then true else present_at a pd' va'.
Proof.
  intros Hd He. unfold present_at, upd. cbn [dirs]. destruct (decide (pd' = pd)) as [->|Hne].
  - rewrite lookup_insert_eq, Hd. cbn [mbind option_bind]. destruct (decide (pg_no va' = no)) as [->|Hv].
    + rewrite decide_True by done. rewrite lookup_insert_eq. by unfold here.
    + rewrite decide_False by naive_solver. by rewrite lookup_insert_ne.
  - rewrite decide_False by naive_solver. by rewrite lookup_insert_ne.
Qed.

(** Entries and their pages after one has been brought in. *)
Lemma spt_of_rest s s' p x th vm_addr :
  d_pages s !! p = Some x -> page_addr x <> vm_addr ->
  (forall q, q ∈ t_spt (rest_of p x th) -> d_pages s' !! q = d_pages s !! q) ->
  spt_find (spt_of s' (t_spt (rest_of p x th))) vm_addr = spt_find (spt_of s (t_spt th)) vm_addr.
Proof.
  intros Hp Hne Hsame. transitivity (spt_find (spt_of s (t_spt (rest_of p x th))) vm_addr).
  - f_equal. unfold spt_of. apply list_omap_ext, Forall_Forall2_diag, Forall_forall. intros q Hq. by apply Hsame.
  - unfold rest_of. destruct (pg x); try done. destruct (pg_writable x); [|done]. cbn [t_spt]. unfold spt_of.
    rewrite <- (spt_find_filter (d_pages s) p x vm_addr (t_spt th) Hp Hne). f_equal.
    apply list_omap_ext, Forall_Forall2_diag, Forall_forall. intros q [Hq _]%list_elem_of_filter. by rewrite lookup_delete_ne.
Qed.

Lemma rest_spt p x th : t_spt (rest_of p x th) ⊆ t_spt th /\ t_pagedir (rest_of p x th) = t_pagedir th /\
  (NoDup (t_spt th) -> NoDup (t_spt (rest_of p x th))).
Proof.
  unfold rest_of. destruct (pg x), (pg_writable x); try done. cbn [t_spt t_pagedir]. split; [|split; [done|by apply NoDup_filter]].
  intros q Hq. by apply list_elem_of_filter in Hq as [_ Hq].
Qed.

(** The invariant and the logical memory of the new state. *)
Lemma brought_in_ok s s' a th live p x m fr kp f' v3 va :
  paged s a th live -> dirs a !! t_pagedir th = Some m -> 0 <= va < PB -> page_addr x = pg_round_down va ->
  present_at a (t_pagedir th) va = false -> spt_find (spt_of s (t_spt th)) (pg_round_down va) = Some x ->
  d_pages s !! p = Some x -> fl_ok f' -> (forall q, fl_file f' q = fl_file (d_files s) q) ->
  let a' := upd (t_pagedir th) m (pg_no (page_addr x)) (mk_entry kp true (pg_writable x) false false) (held a) a in
  (exists fx own', vm_inv fx v3 a' own') ->
  (forall pd' va', view v3 a' pd' va' = if decide (pd' = t_pagedir th /\ pg_no va' = pg_no (page_addr x))
     then entry_byte (d_files s) x va' else view (d_vm s) a pd' va') ->
  brought_in s p x th fr kp f' v3 live s' ->
  paged s' a' (rest_of p x th) ((fr, sizeof_frame) :: live) /\
  forall va', 0 <= va' < PB -> logical s' a' (rest_of p x th) va' = logical s a th va'.
Proof.
  intros Hpa Hd Hva Hx Hno Hfind Hp Hf' Hsame a' Hi' Hv Hb. destruct (rest_spt p x th) as (Hsub & Edir & Hnd). split.
  - split; rewrite ?Edir, ?(bi_vm _ _ _ _ _ _ _ _ _ _ Hb), ?(bi_files _ _ _ _ _ _ _ _ _ _ Hb); try done.
    + rewrite (bi_cur _ _ _ _ _ _ _ _ _ _ Hb). apply Hb.
    + unfold a', upd. cbn [dirs]. rewrite lookup_insert_eq. by eexists.
    + apply Hb.
    + pose proof (pa_spt _ _ _ _ Hpa) as Hs. rewrite Forall_forall in Hs |- *. intros q Hq. destruct (Hs q (Hsub q Hq)) as (Hqn & y & Hy & Hgy).
      split; [done|]. exists y. rewrite (bi_pages _ _ _ _ _ _ _ _ _ _ Hb q Hq). split; [done|]. by eapply entry_good_same.
    + apply Hnd, Hpa.
  - intros va' Hva'. unfold logical. rewrite Edir, (bi_vm _ _ _ _ _ _ _ _ _ _ Hb), (bi_files _ _ _ _ _ _ _ _ _ _ Hb), Hv.
    unfold a'. rewrite present_upd by done. pose proof (round_page va va' x Hva Hva' Hx) as Hround.
    destruct (decide (t_pagedir th = t_pagedir th /\ pg_no va' = pg_no (page_addr x))) as [[_ Hpg]|Hpg].
    + assert (present_at a (t_pagedir th) va' = false) as ->.
      { rewrite <- Hno. unfold present_at. do 3 f_equal. rewrite Hpg, Hx, !pg_no_div, pg_round_down_arith by lia. zlia. }
      apply Hround in Hpg as ->. rewrite Hx, Hfind. done.
    + destruct (present_at a (t_pagedir th) va'); [done|]. rewrite (spt_of_rest s s' p x th) by (apply Hb || done || naive_solver).
      destruct (spt_find (spt_of s (t_spt th)) (pg_round_down va')) as [y|]; [|done]. cbn [mbind option_bind]. by apply entry_byte_same.
Qed.


(** ** Eviction *)

Lemma find_min_loop_in s : forall l min r,
  Forall (fun g => is_Some (d_frames s !! g)) l -> exists g, find_min_loop l min r s = Ok (Some g, s) /\ (g = r \/ g ∈ l).
Proof.
  induction l as [|g l IH]; intros min r Hl; cbn [find_min_loop]; [exists r; auto|].
  apply Forall_cons in Hl as [[y Hy] Hl]. erewrite bindE_step by (by apply found_step).
  destruct (finish y <? min).
  - destruct (IH (finish y) g Hl) as (x & -> & Hx). exists x. split; [done|]. right. set_solver.
  - destruct (IH min r Hl) as (x & -> & Hx). exists x. split; [done|]. set_solver.
Qed.

(** C36. No page can be evicted: the first time the user pool is empty, the
    clock hand [victim_frame], which points to list elements, is set to the
    [struct frame] that was used least recently; [list_entry] then goes back 20
    bytes from the start of that structure and reads a frame that is not
    there, unless two frames happen to be 20 bytes apart, which blocks of 32
    bytes never are. *)
Theorem eviction_reads_no_frame fuel s upage w v1 :
  on_pal (palloc_get_page (Z.lor PAL_USER PAL_ZERO)) (d_vm s) = Ok (NULL, v1) -> victim_frame s = NULL -> frame_list s <> [] ->
  Forall (fun f => 0 <= f - 20 < 2 ^ 32 /\ is_Some (d_frames s !! f) /\ d_frames s !! (f - 20) = None) (frame_list s) ->
  frame_table_get_frame ram_pages (S fuel) upage w s = Fail BadAccess.
Proof.
  intros Hp Hv Hne Hl. unfold frame_table_get_frame. erewrite bindE_step by (by apply by_vm_step). rewrite Z.eqb_refl. cbn [negb].
  assert (frame_table_choose_victim ram_pages (S fuel) (set_d_vm v1 s) = Fail BadAccess) as Hc; [|unfold mbind at 1, E_bind at 1; by rewrite Hc].
  unfold frame_table_choose_victim. erewrite bindE_step by reflexivity. cbn [frame_list set_d_vm].
  destruct (frame_list s) as [|f l] eqn:El; [done|]. erewrite bindE_step by reflexivity. cbn [victim_frame set_d_vm]. rewrite Hv, Z.eqb_refl.
  destruct (find_min_loop_in (set_d_vm v1 s) (f :: l) (default 0 (finish <$> d_frames s !! f)) f) as (g & Hg & Hin).
  { eapply Forall_impl; [exact Hl|]. by intros q (_ & ? & _). }
  assert (g ∈ f :: l) as Hgl by set_solver. rewrite Forall_forall in Hl. destruct (Hl g Hgl) as (Hr & _ & Hnone).
  destruct (Hl f ltac:(set_solver)) as (_ & [y Hy] & _). rewrite Hy in Hg. cbn [default from_option fmap option_fmap option_map] in Hg.
  erewrite bindE_step.
  2: { erewrite bindE_step; [reflexivity|]. unfold frame_table_find_min. erewrite bindE_step by reflexivity. cbn [frame_list set_d_vm]. rewrite El.
       erewrite bindE_step by (apply found_step; exact Hy). exact Hg. }
  cbn [victim_loop]. erewrite bindE_step by reflexivity. cbn [victim_frame set_d_frames]. unfold elem_offset. rewrite u32_small by done.
  unfold mbind at 1, E_bind at 1, frame_of, found. cbn [d_frames set_d_frames set_d_vm]. by rewrite Hnone.
Qed.
End spec.

(** ** The table the loader builds *)

Section lazy.
Context {H F : Type} `{AllocatorRoomLaws H, !AllocatorLaws H, FilesLaws F}.
Context (ram_pages kstart kend_text : Z).
Hypothesis Hram : 0 <= ram_pages < 2 ^ 18.
Context (Hroom : roomy (H := H)).
#[local] Abbreviation pst := (proc H F).
#[local] Abbreviation entries s := (snd <$> sup_page_table s).
Implicit Types (s : pst) (x : page).

(** The heap of the kernel is sound, whatever is in use. *)
Definition heap_sound s : Prop := exists live, al_ok (kheap (p_kernel s)) live.

Lemma spt_find_app l1 l2 vm_addr :
  Forall (fun x => page_addr x <> vm_addr) l1 -> spt_find (l1 ++ l2) vm_addr = spt_find l2 vm_addr.
Proof.
  induction 1 as [|x l Hx _ IH]; [done|]. cbn [spt_find List.find app]. by rewrite (proj2 (Z.eqb_neq _ _) Hx).
Qed.

(** One page is entered. *)
Lemma enter_page_ok s file upage ofs n rb zb w :
  heap_sound s ->
  exists p s', enter_page file upage ofs n rb zb w s = Ok (true, s') /\ heap_sound s' /\
    vmof s' = vmof s /\ p_files s' = p_files s /\ pagedir s' = pagedir s /\
    sup_page_table s' = sup_page_table s ++ [(p, mk_page file PAG_EXEC w (u32 (ofs + u32 (n * PGSIZE))) rb zb upage)].
Proof.
  intros [live Hal]. destruct (al_malloc_ok _ live sizeof_page Hal) as (p & h & Hm & Hp); [done|].
  destruct Hp as [[-> _]|[[Hn _] Hh]]; [by destruct (Hroom _ _ _ _ _ Hal Hm)|].
  exists p. eexists. split.
  { unfold enter_page. erewrite bindM_step.
    2: { unfold on_kernel, kmalloc. rewrite Hm. cbn [mbind res_bind]. rewrite (proj2 (Z.eqb_neq p NULL)) by done. reflexivity. }
    rewrite (proj2 (Z.eqb_neq p NULL)) by done. reflexivity. }
  split; [by eexists|done].
Qed.

(** The entry of the table for [va] describes [b] there. *)
Definition described (f : F) (l : list page) (va b : Z) : Prop :=
  exists x, spt_find l (pg_round_down va) = Some x /\ entry_good f x /\ entry_byte f x va = Some b.

(** The loop over the pages of a segment enters one entry for each. *)
Lemma enter_pages_ok fuel : forall s file d pos ofs upage r z n w,
  heap_sound s -> fl_file (p_files s) file = Some (d, pos) -> Z.of_nat (length d) < FILE_MAX ->
  0 <= ofs -> 0 <= n -> 0 <= r -> 0 <= z -> (r + z) mod 4096 = 0 -> 0 <= upage -> upage mod 4096 = 0 -> upage + (r + z) <= PB ->
  n * 4096 <= upage -> (0 < r -> ofs + n * 4096 + r <= Z.of_nat (length d)) -> r + z < 4096 * Z.of_nat fuel ->
  exists es s', load_pages true ram_pages fuel file ofs upage r z n w s = Ok (true, s') /\ heap_sound s' /\
    vmof s' = vmof s /\ p_files s' = p_files s /\ pagedir s' = pagedir s /\ sup_page_table s' = sup_page_table s ++ es /\
    forall i, 0 <= i < r + z -> described (p_files s) (snd <$> es) (upage + i) (page_image d (ofs + n * 4096) r i).
Proof.
  induction fuel as [|fuel IH]; intros s file d pos ofs upage r z n w Hh Hfl Hlen Hofs Hn Hr Hz Hrz Hu Hal Htop Hnu Hin Hfu; [lia|].
  cbn [load_pages]. destruct ((0 <? r) || (0 <? z)) eqn:E.
  2: { apply orb_false_iff in E as [Er%Z.ltb_ge Ez%Z.ltb_ge]. exists [], s. rewrite app_nil_r. split_and!; try done. lia. }
  assert (0 < r \/ 0 < z) as E' by (apply orb_true_iff in E as [E%Z.ltb_lt|E%Z.ltb_lt]; auto).
  pose proof (page_split r z Hr Hz E' Hrz) as Hk. cbv zeta in *. set (k := if r <? PGSIZE then r else PGSIZE) in *.
  destruct Hk as (Hk & Hkr & Hkz & Hlast & Hrz'). change PGSIZE with 4096 in *.
  destruct (enter_page_ok s file upage ofs n k (4096 - k) w Hh) as (p & s1 & Hr1 & Hh1 & Hv1 & Hf1 & Hd1 & Ht1). change PGSIZE with 4096 in Ht1.
  rewrite (bindM_step _ _ _ _ _ Hr1). rewrite !u32_small by lia.
  destruct (IH s1 file d pos ofs (upage + 4096) (r - k) (z - (4096 - k)) (n + 1) w Hh1) as (es & s2 & Hr2 & Hh2 & Hv2 & Hf2 & Hd2 & Ht2 & Hes);
    try lia; try done; [by rewrite Hf1| |].
  { rewrite <- Z.add_mod_idemp_r by done. cbn. by rewrite Z.add_0_r. }
  set (x := mk_page _ _ _ _ _ _ _) in Ht1.
  exists ((p, x) :: es), s2. split; [done|]. split; [done|]. rewrite Hv2, Hf2, Hd2, Ht2, Ht1, <- app_assoc. split_and!; try done.
  intros i Hi. destruct (Z.lt_ge_cases i 4096).
  - exists x. split; [|split].
    + cbn [spt_find fmap list_fmap List.find snd page_addr x]. rewrite pg_round_down_arith by lia. by rewrite (proj2 (Z.eqb_eq _ _)) by zlia.
    + split; cbn [x pg page_addr read_b zero_b pg_ofs_in_file location]; try done; [lia..| |].
      * intros Hk0. unfold FILE_MAX in *. rewrite !u32_small by (rewrite ?u32_small; lia). lia.
      * exists d, pos. split; [done|]. intros Hk0. unfold FILE_MAX in *. rewrite !u32_small by (rewrite ?u32_small; lia). lia.
    + unfold entry_byte. cbn [x location pg_ofs_in_file read_b]. rewrite Hfl. cbn [mbind option_bind]. f_equal. unfold page_image.
      rewrite pg_ofs_mod. replace ((upage + i) mod 4096) with i by zlia. zcases; try done.
      unfold FILE_MAX in *. by rewrite !u32_small by (rewrite ?u32_small; lia).
  - destruct (Hes (i - 4096) ltac:(lia)) as (y & Hy & Hgy & Hby). replace (upage + 4096 + (i - 4096)) with (upage + i) in * by lia.
    rewrite Hf1 in *. exists y. split; [|split; [done|]].
    + rewrite fmap_cons. cbn [snd]. change (x :: (snd <$> es)) with ([x] ++ (snd <$> es)). rewrite spt_find_app; [done|].
      apply Forall_singleton. cbn [x page_addr]. rewrite pg_round_down_arith by lia. zlia.
    + rewrite Hby. f_equal. unfold page_image. replace (ofs + (n + 1) * 4096 + (i - 4096)) with (ofs + n * 4096 + i) by lia. zcases; done.
Qed.

(** No entry for the pages of a segment yet. *)
Definition untouched (l : list page) (h : Elf32_Phdr) : Prop :=
  Forall (fun x => page_addr x + 4096 <= p_vaddr h \/ p_vaddr h + p_memsz h <= page_addr x) l.

Lemma load_segment_lazy fuel s file d pos h :
  enough fuel -> heap_sound s -> fl_ok (p_files s) -> fl_file (p_files s) file = Some (d, pos) -> phdr_ok h ->
  validate_segment h (Z.of_nat (length d)) = true -> p_offset h + p_filesz h <= Z.of_nat (length d) -> untouched (entries s) h ->
  exists s', load_segment true ram_pages fuel file (segment_placement h) s = Ok (true, s') /\ heap_sound s' /\
    vmof s' = vmof s /\ p_files s' = p_files s /\ pagedir s' = pagedir s /\
    forall k, 0 <= k < p_memsz h ->
      described (p_files s) (entries s') (p_vaddr h + k) (if k <? p_filesz h then nth (Z.to_nat (p_offset h + k)) d 0 else 0).
Proof.
  intros Hfu Hhp Hf Hfl Hh Hval Hin Hun. destruct (fl_file_ok _ _ _ _ Hf Hfl) as (_ & _ & Hlen & _).
  pose proof (placement_ok h (Z.of_nat (length d)) Hh ltac:(lia) Hval) as Hpl. cbv zeta in Hpl.
  pose proof (ph_vaddr h Hh) as Hva. pose proof (ph_filesz h Hh) as Hfs. pose proof (ph_memsz h Hh) as Hms.
  destruct (segment_placement h) as [ofs up r z w]. cbn [pl_ofs pl_upage pl_read pl_zero] in Hpl.
  destruct Hpl as (Eofs & Hofs & Hom & Eup & Er & Hz & Hrz & Hm & Htop).
  pose proof (Z.mod_pos_bound (p_vaddr h) 4096 eq_refl) as Hpo.
  assert (0 <= up /\ up mod 4096 = 0 /\ 0 <= r) as (Hup & Hupm & Hr0) by (split_and!; [zlia|zlia|rewrite Er; zcases]).
  unfold load_segment. cbn [pl_ofs pl_upage pl_read pl_zero pl_writable]. change PGSIZE with 4096. rewrite pg_ofs_mod.
  rewrite (u32_small (r + z)) by lia. rewrite Z.rem_mod_nonneg by lia. rewrite Hm, Hupm, Hom. cbn [Z.eqb].
  rewrite !bindM_assert by done. erewrite bindM_step by reflexivity.
  destruct (enter_pages_ok fuel s file d pos ofs up r z 0 w) as (es & s' & Hr & Hh' & Hv & Hfs' & Hd & Ht & Hes);
    try done; try lia; [rewrite Er; zcases; lia|unfold enough in Hfu; lia|].
  exists s'. split_and!; try done. intros k Hk. specialize (Hes (p_vaddr h mod 4096 + k) ltac:(lia)).
  replace (up + (p_vaddr h mod 4096 + k)) with (p_vaddr h + k) in Hes by lia.
  destruct Hes as (x & Hx & Hg & Hb). exists x. split; [|split; [done|]].
  - rewrite Ht, fmap_app, spt_find_app; [done|]. eapply Forall_impl; [exact Hun|]. intros y [Hy|Hy]; rewrite pg_round_down_arith by lia; [zlia|].
    zlia.
  - rewrite Hb. f_equal. unfold page_image. replace (ofs + 0 * 4096 + (p_vaddr h mod 4096 + k)) with (p_offset h + k) by lia.
    subst r. destruct (Z.ltb_spec 0 (p_filesz h)), (Z.ltb_spec k (p_filesz h)); zcases; done || lia.
Qed.

End lazy.


(** ** Runs *)

(** A heap that hands out one block after another. *)
Record bumped : Type := mk_bumped { next : Z }.
Definition apart (g g' : Z * Z) : Prop := fst g + snd g <= fst g' \/ fst g' + snd g' <= fst g.
Record bumped_ok (h : bumped) (live : list (Z * Z)) : Prop := {
  bo_next : 0 < next h;
  bo_in : Forall (fun g => 0 < fst g /\ 0 < snd g /\ fst g + snd g <= next h) live;
  bo_nodup : NoDup live;
  bo_apart : forall g g', g ∈ live -> g' ∈ live -> g <> g' -> apart g g';
}.
#[local] Instance bumped_heap : Allocator bumped := {|
  al_ok := bumped_ok;
  al_malloc size h := Ok (next h, mk_bumped (next h + size));
  al_calloc a b h := Ok (next h, mk_bumped (next h + a * b));
  al_free _ h := Ok (tt, h);
|}.
#[local] Instance bumped_room : AllocatorRoom bumped := {| al_room n := n; al_foreign _ _ := False |}.

Lemma bumped_more h live n :
  bumped_ok h live -> 0 < n -> fresh_block (next h) live /\ bumped_ok (mk_bumped (next h + n)) ((next h, n) :: live).
Proof.
  intros [H0 Hin Hnd Hap] Hn. rewrite Forall_forall in Hin.
  assert (next h ∉ live.*1) as Hfr by (intros (g & Hg & Hl)%list_elem_of_fmap; specialize (Hin g Hl); lia).
  split; [split; [unfold NULL; lia|done]|]. split; cbn [next].
  - lia.
  - apply Forall_forall. intros g [->|Hg]%elem_of_cons; [cbn; lia|]. specialize (Hin g Hg). lia.
  - constructor; [|done]. intros Hl. apply Hfr, list_elem_of_fmap. by exists (next h, n).
  - unfold apart in *. intros g g' [->|Hg]%elem_of_cons [->|Hg']%elem_of_cons Hne; [done|specialize (Hin g' Hg')|specialize (Hin g Hg)|by apply Hap];
      cbn; lia.
Qed.

#[local] Instance bumped_laws : AllocatorLaws bumped.
Proof.
  split; cbn [al_ok al_malloc al_calloc al_free bumped_heap].
  - intros h live size Hok Hs. eexists _, _. split; [done|]. right. apply bumped_more; [done|lia].
  - intros h live a b Hok Ha Hb Hs. eexists _, _. split; [done|]. right. apply bumped_more; [done|nia].
  - intros h p n live [H0 Hin Hnd Hap]. exists h. split; [done|]. apply Forall_cons in Hin as [_ Hin]. apply NoDup_cons in Hnd as [_ Hnd].
    split; [done..|]. intros g g' Hg Hg'. apply Hap; by right.
  - intros h l1 l2 Hp [H0 Hin Hnd Hap]. split; [done|by rewrite <- Hp..|]. intros g g'. rewrite <- Hp. apply Hap.
Qed.

#[local] Instance bumped_room_laws : AllocatorRoomLaws bumped.
Proof.
  split; cbn [al_ok al_malloc al_free al_room al_foreign bumped_heap bumped_room]; try done.
  - intros h live i j p n q m Hok Hi Hj Hne. destruct (bo_apart _ _ Hok (p, n) (q, m)); [by eapply list_elem_of_lookup_2..| |by left|by right].
    intros E. rewrite <- E in Hj. apply Hne. by eapply NoDup_lookup; [apply Hok|..].
  - intros h live p n Hok Hin. pose proof (bo_in _ _ Hok) as Hl. rewrite Forall_forall in Hl. specialize (Hl _ Hin). cbn in Hl. lia.
  - naive_solver.
Qed.

Lemma bumped_roomy : roomy (H := bumped).
Proof. intros h live size p h' Hok [= <- _] _. pose proof (bo_next _ _ Hok). unfold NULL. lia. Qed.

(** A swap area that is a list of pages. *)
#[local] Instance listed_swap : SwapArea (list (list Z)) := {|
  sa_write bs w := Ok (Z.of_nat (length w), w ++ [bs]);
  sa_read i w := Ok (nth (Z.to_nat i) w [], w);
  sa_free _ w := Ok (tt, w);
|}.

(** The executable of [LoaderSpec], with its segment in the table. *)
Definition demo_seg : Elf32_Phdr := read_phdr (slice demo_exe 52 32).
Definition demo_fs : ramfs := mk_ramfs [] [demo_exe] {[1000 := (0%nat, 0)]}.
Definition demo_lazy : proc bumped ramfs := mk_proc (mk_ast ∅ ∅ (mk_bumped 5000) ∅ ∅ (snd demo_dir)) demo_fs (fst demo_dir) 0 [] 0.

Lemma demo_files_ok : fl_ok demo_fs /\ fl_file demo_fs 1000 = Some (demo_exe, 0).
Proof.
  split; [|vm_compute; reflexivity]. split; [|split].
  - apply Forall_singleton. split; [unfold is_byte; by apply (bool_decide_unpack _); vm_compute|by vm_compute].
  - done.
  - intros p [i pos] Hp. cbn [demo_fs rf_open] in Hp. apply lookup_singleton_Some in Hp as [_ [= <- <-]]. cbn. lia.
Qed.

Lemma demo_dir_sound : sound 48 0xc0001000 0xc0003000 (snd demo_dir) demo_space.
Proof. exact (created_sound demo_boot (fst demo_dir) (snd demo_dir) demo_running (proj1 demo_created) (proj2 demo_created)). Qed.

Lemma demo_dir_there : is_Some (dirs demo_space !! fst demo_dir).
Proof. cbn [demo_space dirs]. rewrite lookup_singleton_eq. by eexists. Qed.


(** The same executable, its page not in memory yet. *)
Definition demo_entry : page := mk_page 1000 PAG_EXEC false 0 88 4008 0x8048000.
Definition demo_thread : vthread := mk_vthread (fst demo_dir) [4900] [].
Definition demo_paged (v : vm) (frames : gmap Z vframe) (l : list Z) : dpage bumped ramfs (list (list Z)) :=
  mk_dpage v (mk_bumped 5000) demo_fs [] {[4900 := demo_entry]} frames ∅ l NULL {[7 := demo_thread]} 7 0 0.
Definition demo_page : Z * vm :=
  match on_pal (palloc_get_page (Z.lor PAL_USER PAL_ZERO)) (snd demo_dir) with Ok r => r | Fail _ => (0, demo_boot) end.

Lemma demo_pool : on_pal (palloc_get_page (Z.lor PAL_USER PAL_ZERO)) (snd demo_dir) = Ok (fst demo_page, snd demo_page) /\ fst demo_page <> NULL.
Proof.
  unfold demo_page. set (r := on_pal _ _).
  assert (match r with Ok (p, _) => negb (p =? NULL) | Fail _ => false end = true) as Hk by (vm_compute; reflexivity).
  destruct r as [[p v]|e]; [|discriminate Hk]. split; [reflexivity|]. cbn [fst]. intros ->. discriminate Hk.
Qed.

Lemma demo_entry_good : entry_good demo_fs demo_entry.
Proof.
  split; cbn [demo_entry pg page_addr read_b zero_b pg_ofs_in_file location]; try done.
  exists demo_exe, 0. split; [apply demo_files_ok|]. intros _. vm_compute. discriminate.
Qed.

Lemma demo_paged_ok v frames l :
  sound 48 0xc0001000 0xc0003000 v demo_space -> paged 48 0xc0001000 0xc0003000 (demo_paged v frames l) demo_space demo_thread [].
Proof.
  intros (f & own & Hi). split; cbn [demo_paged demo_thread d_vm d_threads d_cur d_files d_heap d_pages t_pagedir t_spt].
  - by exists f, own.
  - apply lookup_singleton_eq.
  - exact demo_dir_there.
  - apply demo_files_ok.
  - split; cbn [fmap list_fmap app next].
    + done.
    + by apply Forall_singleton.
    + apply NoDup_singleton.
    + intros g g' ->%list_elem_of_singleton ->%list_elem_of_singleton. done.
  - apply Forall_singleton. split; [done|]. exists demo_entry. split; [apply lookup_singleton_eq|exact demo_entry_good].
  - apply NoDup_singleton.
Qed.


(** Running the fault brings the page in: it is the only frame. *)
Example demo_fault :
  match page_fault true 48 1 0x8048054 4 0 (demo_paged (snd demo_dir) ∅ []) with
  | Ok (Some Again, s) => length (frame_list s) = 1%nat /\ page_fault_cnt s = 1
  | _ => False
  end.
Proof. vm_compute. done. Qed.

(** The pool once programs have taken all of it. *)
Fixpoint drain (n : nat) (v : vm) : vm :=
  match n with
  | O => v
  | S n => match on_pal (palloc_get_page (Z.lor PAL_USER PAL_ZERO)) v with Ok (_, v) => drain n v | Fail _ => v end
  end.
Definition demo_full : vm := drain 48 (snd demo_dir).
Definition demo_none : Z * vm :=
  match on_pal (palloc_get_page (Z.lor PAL_USER PAL_ZERO)) demo_full with Ok r => r | Fail _ => (1, demo_boot) end.

Lemma demo_empty : on_pal (palloc_get_page (Z.lor PAL_USER PAL_ZERO)) demo_full = Ok (NULL, snd demo_none).
Proof.
  unfold demo_none. set (r := on_pal _ _).
  assert (match r with Ok (p, _) => p =? NULL | Fail _ => false end = true) as Hk by (vm_compute; reflexivity).
  destruct r as [[p v]|e]; [|discriminate Hk]. apply Z.eqb_eq in Hk as ->. reflexivity.
Qed.

Lemma eviction_reads_no_frame_witness :
  let x := mk_vframe 0 0xc0020000 7 0x8048000 true true in
  frame_table_get_frame 48 9 0x8049000 true (demo_paged demo_full {[4000 := x]} [4000]) = Fail BadAccess.
Proof.
  apply (eviction_reads_no_frame 48 ltac:(done) 8 (demo_paged demo_full {[4000 := mk_vframe 0 0xc0020000 7 0x8048000 true true]} [4000])
           0x8049000 true (snd demo_none)).
  - exact demo_empty.
  - reflexivity.
  - discriminate.
  - apply Forall_singleton. split; [done|]. split; [by eexists|done].
Defined.

