(* ===== verification/Process.v ===== *)
(** * Processes: process_execute, start_process, process_wait and process_exit

    The functions of userprog/process.c that start a program, wait for it and
    take it down, as steps of concurrent threads.  A step runs to the next
    point where the thread may block or another one may see the difference: a
    lock, a semaphore, the start of the other thread.  [childs] is read and
    written only by threads that hold the lock of its thread, so that a search
    under the lock is one step that waits until the lock is free.

    A [struct thread] is known by its [tid], which is never used twice; a
    [parent] that has ended is a pointer to freed memory ([BadAccess]).  What
    the machine and the other parts of the kernel decide comes with a step
    ([choice]): the addresses that [malloc] returns (any that is not in use, or
    NULL), whether pages and threads can be had, whether [load] succeeds, and
    the calls a program makes. *)

From S2P Require Import Prelude Vaddr.

(** threads/thread.h *)
Record child_process : Type := mk_child { pid_t : Z; c_status : Z; c_sema : Z }.
(** userprog/process.h *)
Record exec_arg : Type := mk_exec_arg { a_sema : Z; a_success : bool }.

Definition TID_ERROR : Z := -1.

(** Where a thread is. *)
Inductive control : Type :=
  | User (eax : Z)                  (* in its program, with the last result *)
  | Created (c a tid : Z)           (* in process_execute, the thread created and the lock held *)
  | AwaitLoad (a tid : Z)           (* at sema_down (&args->sema) *)
  | Start (a : Z)                   (* at the start of start_process *)
  | Finding (tid : Z)               (* at the start of process_wait *)
  | AwaitExit (c : Z)               (* at sema_down (&child->sema) *)
  | Collecting (c : Z)              (* after it *)
  | Exiting                         (* at the start of process_exit *)
  | Reporting (c : Z)               (* after the search for its child_process *)
  | Leaving (c : Z).                (* at the end of process_exit *)

Record pthread : Type := mk_pthread {
  parent : Z;
  childs : list Z;
  is_userprog : bool;
  exited_by_exit_call : bool;
  exit_status : Z;
  open_fds : list Z;                (* the descriptors of open_files *)
  locked : bool;                    (* its lock is held *)
  ctl : control;
}.

Record pstate : Type := mk_pstate {
  procs : gmap Z pthread;           (* by tid *)
  children : gmap Z child_process;
  exec_args : gmap Z exec_arg;
  next_tid : Z;
  exited : list (Z * Z);            (* the exit messages: thread and status, the last one first *)
}.

Inductive choice : Type :=
  | Exec (pages : bool) (c a : Z) (created : bool)
  | Wait (tid : Z)
  | Exit (status : Z)
  | Kill
  | Open (fd : Z)
  | Close (fd : Z)
  | Load (success : bool)
  | Go.

(** ** Changes of the state *)

Definition set_procs (m : gmap Z pthread) (s : pstate) : pstate := mk_pstate m (children s) (exec_args s) (next_tid s) (exited s).
Definition set_children (m : gmap Z child_process) (s : pstate) : pstate := mk_pstate (procs s) m (exec_args s) (next_tid s) (exited s).
Definition set_exec_args (m : gmap Z exec_arg) (s : pstate) : pstate := mk_pstate (procs s) (children s) m (next_tid s) (exited s).

Definition with_ctl (k : control) (t : pthread) : pthread :=
  mk_pthread (parent t) (childs t) (is_userprog t) (exited_by_exit_call t) (exit_status t) (open_fds t) (locked t) k.
Definition with_childs (l : list Z) (t : pthread) : pthread :=
  mk_pthread (parent t) l (is_userprog t) (exited_by_exit_call t) (exit_status t) (open_fds t) (locked t) (ctl t).
Definition with_lock (b : bool) (t : pthread) : pthread :=
  mk_pthread (parent t) (childs t) (is_userprog t) (exited_by_exit_call t) (exit_status t) (open_fds t) b (ctl t).
Definition with_exit (status : Z) (t : pthread) : pthread :=
  mk_pthread (parent t) (childs t) (is_userprog t) true status (open_fds t) (locked t) (ctl t).
Definition with_open (fd : Z) (t : pthread) : pthread :=
  mk_pthread (parent t) (childs t) (is_userprog t) (exited_by_exit_call t) (exit_status t) (fd :: open_fds t) (locked t) (ctl t).
Definition with_closed (fd : Z) (t : pthread) : pthread :=
  mk_pthread (parent t) (childs t) (is_userprog t) (exited_by_exit_call t) (exit_status t) (filter (fun f => f <> fd) (open_fds t)) (locked t) (ctl t).
Definition as_userprog (t : pthread) : pthread :=
  mk_pthread (parent t) (childs t) true (exited_by_exit_call t) (exit_status t) (open_fds t) (locked t) (ctl t).

Definition put (i : Z) (t : pthread) (s : pstate) : pstate := set_procs (<[i := t]> (procs s)) s.

(** Memory that [malloc] may return. *)
Definition unused (s : pstate) (p : Z) : bool :=
  bool_decide (p <> NULL) && bool_decide (children s !! p = None) && bool_decide (exec_args s !! p = None).

(** ** find_child *)

(** [if (child->pid_t = pid)]: an assignment. *)
Fixpoint find_child (pid : Z) (l : list Z) (m : gmap Z child_process) : res (Z * gmap Z child_process) :=
  match l with
  | [] => Ok (NULL, m)
  | c :: l =>
      match m !! c with
      | None => Fail BadAccess
      | Some x =>
          let m := <[c := mk_child pid (c_status x) (c_sema x)]> m in
          if pid =? 0 then find_child pid l m else Ok (c, m)
      end
  end.

(** ** process_execute *)

(** [init_thread], called by the thread that is to be the parent. *)
Definition new_thread (i a : Z) : pthread := mk_pthread i [] false false (-1) [] false (Start a).

(** Up to the lock and [thread_create]; the messages and the names are left
    out.  Without pages the call returns; without memory the thread exits. *)
Definition process_execute (i : Z) (t : pthread) (pages : bool) (c a : Z) (created : bool) (s : pstate) : res (option pstate) :=
  if negb pages then Ok (Some (put i (with_ctl (User TID_ERROR) t) s))
  else if c =? NULL then Ok (Some (put i (with_ctl Exiting t) s))
  else if negb (unused s c) then Ok None
  else if a =? NULL then Ok (Some (put i (with_ctl Exiting t) s))
  else if negb (unused s a) || (a =? c) then Ok None
  else if locked t then Ok None
  else
    let tid := next_tid s in
    let s := set_children (<[c := mk_child 0 0 0]> (children s)) s in
    let s := set_exec_args (<[a := mk_exec_arg 0 false]> (exec_args s)) s in
    if created then
      let s := put i (with_lock true (with_ctl (Created c a tid) t)) s in
      let s := put tid (new_thread i a) s in
      Ok (Some (mk_pstate (procs s) (children s) (exec_args s) (tid + 1) (exited s)))
    else Ok (Some (put i (with_lock true (with_ctl (Created c a TID_ERROR) t)) s)).

(** [child->pid_t = tid] and the end of the critical section. *)
Definition enter_child (i : Z) (t : pthread) (c a tid : Z) (s : pstate) : res (option pstate) :=
  match children s !! c with
  | None => Fail BadAccess
  | Some x =>
      if tid =? TID_ERROR then
        let s := set_exec_args (delete a (exec_args s)) (set_children (delete c (children s)) s) in
        Ok (Some (put i (with_lock false (with_ctl (User TID_ERROR) t)) s))
      else
        let s := set_children (<[c := mk_child tid (c_status x) (c_sema x)]> (children s)) s in
        Ok (Some (put i (with_childs (c :: childs t) (with_lock false (with_ctl (AwaitLoad a tid) t))) s))
  end.

(** [sema_down (&args->sema)] and the result. *)
Definition await_load (i : Z) (t : pthread) (a tid : Z) (s : pstate) : res (option pstate) :=
  match exec_args s !! a with
  | None => Fail BadAccess
  | Some x =>
      if a_sema x =? 0 then Ok None
      else
        let s := set_exec_args (delete a (exec_args s)) s in
        Ok (Some (put i (with_ctl (User (if a_success x then tid else TID_ERROR)) t) s))
  end.

(** ** start_process *)

Definition start_process (i : Z) (t : pthread) (a : Z) (success : bool) (s : pstate) : res (option pstate) :=
  match exec_args s !! a with
  | None => Fail BadAccess
  | Some x =>
      let s := set_exec_args (<[a := mk_exec_arg (a_sema x + 1) success]> (exec_args s)) s in
      Ok (Some (put i (with_ctl (if success then User 0 else Exiting) (as_userprog t)) s))
  end.

(** ** process_wait *)

Definition wait_find (i : Z) (t : pthread) (tid : Z) (s : pstate) : res (option pstate) :=
  if locked t then Ok None
  else
    '(c, m) ← find_child tid (childs t) (children s);
    let s := set_children m s in
    Ok (Some (put i (with_ctl (if c =? NULL then User (-1) else AwaitExit c) t) s)).

Definition await_exit (i : Z) (t : pthread) (c : Z) (s : pstate) : res (option pstate) :=
  match children s !! c with
  | None => Fail BadAccess
  | Some x =>
      if c_sema x =? 0 then Ok None
      else
        let s := set_children (<[c := mk_child (pid_t x) (c_status x) (c_sema x - 1)]> (children s)) s in
        Ok (Some (put i (with_ctl (Collecting c) t) s))
  end.

Definition collect (i : Z) (t : pthread) (c : Z) (s : pstate) : res (option pstate) :=
  if locked t then Ok None
  else
    match children s !! c with
    | None => Fail BadAccess
    | Some x =>
        let s := set_children (delete c (children s)) s in
        Ok (Some (put i (with_childs (filter (fun d => d <> c) (childs t)) (with_ctl (User (c_status x)) t)) s))
    end.

(** ** process_exit *)

(** Each open file is closed with its descriptor for an address:
    [file_close (open_file->fd)]. *)
Definition close_all (fds : list Z) : res unit := match fds with [] => Ok tt | _ :: _ => Fail BadAccess end.

Definition exit_find (i : Z) (t : pthread) (s : pstate) : res (option pstate) :=
  _ ← close_all (open_fds t);
  if parent t =? NULL then Ok (Some (put i (with_ctl (Reporting NULL) t) s))
  else
    match procs s !! parent t with
    | None => Fail BadAccess
    | Some p =>
        if locked p then Ok None
        else
          '(c, m) ← find_child i (childs p) (children s);
          Ok (Some (put i (with_ctl (Reporting c) t) (set_children m s)))
    end.

(** The message and the status of a user program. *)
Definition report (i : Z) (t : pthread) (c : Z) (s : pstate) : res (option pstate) :=
  if is_userprog t then
    let status := if exited_by_exit_call t then exit_status t else -1 in
    match children s !! c with
    | None => Fail (if c =? NULL then NullAccess else BadAccess)
    | Some x =>
        let s := set_children (<[c := mk_child (pid_t x) status (c_sema x)]> (children s)) s in
        let s := mk_pstate (procs s) (children s) (exec_args s) (next_tid s) ((i, status) :: exited s) in
        Ok (Some (put i (with_ctl (Leaving c) t) s))
    end
  else Ok (Some (put i (with_ctl (Leaving c) t) s)).

(** [sema_up (&child->sema)]; the thread then ends. *)
Definition leave (i : Z) (c : Z) (s : pstate) : res (option pstate) :=
  let gone := set_procs (delete i (procs s)) in
  if c =? NULL then Ok (Some (gone s))
  else
    match children s !! c with
    | None => Fail BadAccess
    | Some x => Ok (Some (gone (set_children (<[c := mk_child (pid_t x) (c_status x) (c_sema x + 1)]> (children s)) s)))
    end.

(** ** Steps *)

(** A step of thread [i]; None when it cannot take this step now. *)
Definition pstep (i : Z) (x : choice) (s : pstate) : res (option pstate) :=
  match procs s !! i with
  | None => Ok None
  | Some t =>
      match ctl t, x with
      | User _, Exec pages c a created => process_execute i t pages c a created s
      | User _, Wait tid => Ok (Some (put i (with_ctl (Finding tid) t) s))
      | User _, Exit status => Ok (Some (put i (with_ctl Exiting (with_exit status t)) s))
      | User _, Kill => Ok (Some (put i (with_ctl Exiting t) s))
      | User _, Open fd => Ok (Some (put i (with_open fd t) s))
      | User _, Close fd => Ok (Some (put i (with_closed fd t) s))
      | Created c a tid, Go => enter_child i t c a tid s
      | AwaitLoad a tid, Go => await_load i t a tid s
      | Start a, Load success => start_process i t a success s
      | Finding tid, Go => wait_find i t tid s
      | AwaitExit c, Go => await_exit i t c s
      | Collecting c, Go => collect i t c s
      | Exiting, Go => exit_find i t s
      | Reporting c, Go => report i t c s
      | Leaving c, Go => leave i c s
      | _, _ => Ok None
      end
  end.

Fixpoint prun (l : list (Z * choice)) (s : pstate) : res (option pstate) :=
  match l with
  | [] => Ok (Some s)
  | (i, x) :: l =>
      r ← pstep i x s;
      match r with Some s => prun l s | None => Ok None end
  end.

(** The first thread: [main], which [init_thread] makes its own parent, since its
    [magic] is set by then; [idle] is the second. *)
Definition boot : pstate := mk_pstate {[1 := mk_pthread 1 [] false false (-1) [] false (User 0)]} ∅ ∅ 3 [].
