(* ===== verification/ProcessSpec.v ===== *)
(** * Waiting for programs

    [find_child] assigns where it means to compare, so that it always finds the
    child created last.  Programs that have one child at a time never see the
    difference: under every interleaving of such programs no step faults,
    [process_wait] returns the status with which the child exited, and it
    returns once the child has exited.  With two children it returns the status
    of the wrong one and then waits forever. *)

From S2P Require Import Prelude Vaddr Process.

Implicit Types (s : pstate) (i j k c a : Z) (t u : pthread).

(** ** The state of a family *)

(** What a parent relies on in the state of its child. *)
Inductive stage : Type := KStart (a : Z) | KBusy | KReport (c : Z) | KLeave (c : Z).
Definition stage_of (x : control) : stage :=
  match x with Start a => KStart a | Reporting c => KReport c | Leaving c => KLeave c | _ => KBusy end.
Definition kid s i j : option (stage * bool) :=
  match procs s !! j with Some u => if parent u =? i then Some (stage_of (ctl u), is_userprog u) else None | None => None end.

Definition nokid s i : Prop := forall j, j <> i -> kid s i j = None.
Definition onekid s i j (q : stage * bool) : Prop := j <> i /\ kid s i j = Some q /\ forall k, k <> i -> k <> j -> kid s i k = None.

(** A child that has ended: its status is the one it exited with. *)
Definition dead s (x : control) c : Prop :=
  exists d, children s !! c = Some d /\ c_sema d = match x with Collecting e => if c =? e then 0 else 1 | _ => 1 end /\
    0 < pid_t d /\ (pid_t d, c_status d) ∈ exited s.

(** The arguments, until the child has taken them. *)
Definition handed s a (q : stage * bool) : Prop :=
  exists y, exec_args s !! a = Some y /\ (fst q = KStart a /\ a_sema y = 0 \/ (forall b, fst q <> KStart b) /\ a_sema y = 1).

(** A thread without children at work. *)
Definition alone s t : Prop :=
  match ctl t with
  | Created c a tid => tid = TID_ERROR /\ is_Some (children s !! c) /\ is_Some (exec_args s !! a) /\ c ∉ childs t
  | AwaitLoad a _ => exists y, exec_args s !! a = Some y /\ a_sema y = 1
  | Finding tid => exists c l x, childs t = c :: l /\ children s !! c = Some x /\ pid_t x = tid
  | AwaitExit c | Collecting c => exists l, childs t = c :: l
  | _ => True
  end.

Definition newborn (q : stage * bool) : Prop :=
  match fst q with KStart _ => True | KBusy => snd q = true | _ => False end.

(** A child at work, whose record is [c]. *)
Definition at_work s j (q : stage * bool) c (x : child_process) : Prop :=
  match fst q with
  | KStart _ => True
  | KBusy => snd q = true
  | KReport d => d = c /\ snd q = true
  | KLeave d => d = c /\ snd q = true /\ (j, c_status x) ∈ exited s
  end.

(** Its parent meanwhile. *)
Definition parent_at s j (q : stage * bool) c (x : control) : Prop :=
  match x with
  | User _ => forall b, fst q <> KStart b
  | AwaitLoad a tid => tid = j /\ handed s a q
  | Finding tid => tid = j /\ forall b, fst q <> KStart b
  | AwaitExit d => d = c /\ forall b, fst q <> KStart b
  | _ => False
  end.

Inductive family s i t : Prop :=
  | fam_alone : nokid s i -> Forall (dead s (ctl t)) (childs t) -> alone s t -> family s i t
  | fam_born j q c a x :
      onekid s i j q -> ctl t = Created c a j -> Forall (dead s (ctl t)) (childs t) -> c ∉ childs t ->
      children s !! c = Some x -> c_sema x = 0 -> handed s a q -> newborn q -> family s i t
  | fam_kid j q c l x :
      onekid s i j q -> childs t = c :: l -> Forall (dead s (ctl t)) l -> children s !! c = Some x -> pid_t x = j -> c_sema x = 0 ->
      at_work s j q c x -> parent_at s j q c (ctl t) -> family s i t.

(** ** The invariant *)

Definition has_rec t c : Prop := c ∈ childs t \/ exists a tid, ctl t = Created c a tid.
Definition has_arg t a : Prop := (exists c tid, ctl t = Created c a tid) \/ exists tid, ctl t = AwaitLoad a tid.
Definition holds_lock (x : control) : bool := match x with Created _ _ _ => true | _ => false end.
(** A thread that is about to end, or may be. *)
Definition ending (x : control) : bool := match x with Start _ | Exiting | Reporting _ | Leaving _ => true | _ => false end.

Record own_ok i t : Prop := {
  oo_lock : locked t = holds_lock (ctl t);
  oo_end : ending (ctl t) = true -> open_fds t = [] /\ parent t <> i;
  oo_nodup : NoDup (childs t);
}.

Record pinv s : Prop := {
  pi_fam i t : procs s !! i = Some t -> family s i t;
  pi_own i t : procs s !! i = Some t -> own_ok i t;
  pi_parent i t : procs s !! i = Some t -> is_Some (procs s !! parent t);
  pi_tid i t : procs s !! i = Some t -> 0 < i < next_tid s;
  pi_rec i j t u c : procs s !! i = Some t -> procs s !! j = Some u -> has_rec t c -> has_rec u c -> i = j;
  pi_arg i j t u a : procs s !! i = Some t -> procs s !! j = Some u -> has_arg t a -> has_arg u a -> i = j;
  pi_null : children s !! NULL = None;
}.

(** What a program must keep to: one child at a time, waited for by its own
    identifier, and no open files at the end; [main] does not end. *)
Definition may_end s i t : Prop := nokid s i /\ parent t <> i /\ open_fds t = [].
Definition orderly s (e : Z * choice) : Prop :=
  let i := fst e in
  match procs s !! i with
  | None => True
  | Some t =>
      match snd e with
      | Exec pages c a _ => nokid s i /\ (pages = true -> c = NULL \/ a = NULL -> may_end s i t)
      | Wait tid => exists c l x, childs t = c :: l /\ children s !! c = Some x /\ pid_t x = tid
      | Exit _ | Kill => may_end s i t
      | _ => True
      end
  end.

(** ** What does not change a family *)

Lemma dead_frame s s' x c : dead s x c -> children s' !! c = children s !! c -> exited s ⊆ exited s' -> dead s' x c.
Proof. intros (d & Hd & Hs & Hp & He) E Hx. exists d. rewrite E. split_and!; [done..|by apply Hx]. Qed.

(** Only [Collecting] changes what the parent knows of an ended child. *)
Lemma dead_ctl s x y c : dead s x c -> x <> Collecting c -> y <> Collecting c -> dead s y c.
Proof.
  intros (d & Hd & Hs & Hp) Hx Hy. exists d. split; [done|]. split; [|done]. rewrite Hs.
  destruct x, y; try done; repeat case_match; simplify_eq; try done; rewrite ?Z.eqb_eq in *; by subst.
Qed.

Lemma dead_all s s' x l :
  Forall (dead s x) l -> (forall c, c ∈ l -> children s' !! c = children s !! c) -> exited s ⊆ exited s' -> Forall (dead s' x) l.
Proof. rewrite !Forall_forall. intros Hl Hc He c Hin. eapply dead_frame; eauto. Qed.

Lemma dead_all_ctl s x y l : Forall (dead s x) l -> (forall c, c ∈ l -> x <> Collecting c /\ y <> Collecting c) -> Forall (dead s y) l.
Proof. rewrite !Forall_forall. intros Hl Hc c Hin. eapply dead_ctl; [by apply Hl|by apply Hc..]. Qed.

Lemma nokid_frame s s' i : (forall j, j <> i -> kid s' i j = kid s i j) -> nokid s i -> nokid s' i.
Proof. intros E Hn j Hj. rewrite E by done. by apply Hn. Qed.

Lemma onekid_frame s s' i j q : (forall j, j <> i -> kid s' i j = kid s i j) -> onekid s i j q -> onekid s' i j q.
Proof. intros E (Hj & Hk & Ho). split; [done|]. split; [by rewrite E|]. intros k Hk1 Hk2. rewrite E by done. by apply Ho. Qed.

Lemma family_frame s s' i t t' :
  family s i t -> childs t' = childs t -> ctl t' = ctl t -> (forall j, j <> i -> kid s' i j = kid s i j) ->
  (forall c, has_rec t c -> children s' !! c = children s !! c) -> (forall a, has_arg t a -> exec_args s' !! a = exec_args s !! a) ->
  exited s ⊆ exited s' -> family s' i t'.
Proof.
  unfold has_rec, has_arg. intros Hf Ec Et Ek Hc Ha He. destruct Hf as [Hn Hd Hal|j q c a x Hk Hx Hd Hin Hl Hs Hh Hb|j q c l x Hk El Hd Hl Hp Hs Hw Hpa].
  - apply fam_alone; [by eapply nokid_frame|rewrite Ec, Et; eapply dead_all; eauto|].
    unfold alone in *. rewrite Et, Ec. destruct (ctl t) as [| | | |tid| | | | |] eqn:E; try done.
    + rewrite Hc, Ha by eauto. done.
    + rewrite Ha by eauto. done.
    + destruct Hal as (c & l & x & El & Hx & Hp). exists c, l, x. split; [done|]. rewrite Hc by (left; rewrite El; left). done.
  - destruct Hh as (y & Hy & Hst). eapply (fam_born s' i t' j q c a x); rewrite ?Ec, ?Et; try done; [by eapply onekid_frame|eapply dead_all; eauto|rewrite Hc; eauto|].
    exists y. rewrite Ha by eauto. done.
  - eapply (fam_kid s' i t' j q c l x); rewrite ?Ec, ?Et; try done; [by eapply onekid_frame| |rewrite Hc; [done|left; rewrite El; left]| |].
    + eapply dead_all; eauto. intros d Hin. apply Hc. left. rewrite El. by right.
    + unfold at_work in *. destruct (fst q); try done. destruct Hw as (? & ? & ?). split_and!; try done. by apply He.
    + unfold parent_at in *. destruct (ctl t) as [| |a tid| | | | | | |] eqn:E; try done. destruct Hpa as (-> & y & Hy & Hst). split; [done|].
      exists y. rewrite Ha by eauto. done.
Qed.

(** Records and arguments that threads have are there. *)
Lemma rec_there s i t c : pinv s -> procs s !! i = Some t -> has_rec t c -> is_Some (children s !! c).
Proof.
  intros Hi Ht Hr. destruct (pi_fam s Hi i t Ht) as [Hn Hd Hal|j q d a x Hk Hx Hd Hin Hl Hs Hh Hb|j q d l x Hk El Hd Hl Hp Hs Hw Hpa]; destruct Hr as [Hc|(b & tid & E)].
  - rewrite Forall_forall in Hd. destruct (Hd c Hc) as (y & -> & _). by eexists.
  - unfold alone in Hal. rewrite E in Hal. tauto.
  - rewrite Forall_forall in Hd. destruct (Hd c Hc) as (y & -> & _). by eexists.
  - rewrite Hx in E. simplify_eq. by eexists.
  - rewrite El in Hc. apply elem_of_cons in Hc as [->|Hc]; [by eexists|]. rewrite Forall_forall in Hd. destruct (Hd c Hc) as (y & -> & _). by eexists.
  - unfold parent_at in Hpa. by rewrite E in Hpa.
Qed.

Lemma arg_there s i t a : pinv s -> procs s !! i = Some t -> has_arg t a -> is_Some (exec_args s !! a).
Proof.
  intros Hi Ht Hr. destruct (pi_fam s Hi i t Ht) as [Hn Hd Hal|j q d b x Hk Hx Hd Hin Hl Hs Hh Hb|j q d l x Hk El Hd Hl Hp Hs Hw Hpa];
    destruct Hr as [(c & tid & E)|(tid & E)].
  - unfold alone in Hal. rewrite E in Hal. tauto.
  - unfold alone in Hal. rewrite E in Hal. destruct Hal as (y & -> & _). by eexists.
  - rewrite Hx in E. simplify_eq. destruct Hh as (y & -> & _). by eexists.
  - by rewrite Hx in E.
  - unfold parent_at in Hpa. by rewrite E in Hpa.
  - unfold parent_at in Hpa. rewrite E in Hpa. destruct Hpa as (_ & y & -> & _). by eexists.
Qed.

(** ** Steps of one thread *)

Lemma kid_upd s s' i t' : procs s' = <[i := t']> (procs s) -> forall k j, j <> i -> kid s' k j = kid s k j.
Proof. intros E k j Hj. unfold kid. by rewrite E, lookup_insert_ne. Qed.

Lemma step_inv s s' i t t' :
  pinv s -> procs s !! i = Some t -> procs s' = <[i := t']> (procs s) -> parent t' = parent t -> next_tid s' = next_tid s ->
  exited s ⊆ exited s' -> children s' !! NULL = None -> family s' i t' -> own_ok i t' ->
  (forall c, has_rec t' c -> has_rec t c \/ children s !! c = None) -> (forall a, has_arg t' a -> has_arg t a \/ exec_args s !! a = None) ->
  (parent t <> i -> forall p, procs s !! parent t = Some p -> family s' (parent t) p) ->
  (forall k u c, k <> i -> k <> parent t -> procs s !! k = Some u -> has_rec u c -> children s' !! c = children s !! c) ->
  (forall k u a, k <> i -> k <> parent t -> procs s !! k = Some u -> has_arg u a -> exec_args s' !! a = exec_args s !! a) ->
  pinv s'.
Proof.
  intros Hi Ht Ep Epar Et He Hnull Hfam Hown Hrec Harg Hpar Hc Ha.
  assert (forall k u, procs s' !! k = Some u -> k = i /\ u = t' \/ k <> i /\ procs s !! k = Some u) as Hlook.
  { intros k u. rewrite Ep. destruct (decide (k = i)) as [->|Hne]; [rewrite lookup_insert_eq; intros [= <-]; auto|rewrite lookup_insert_ne by done; auto]. }
  split.
  - intros k u [[-> ->]|[Hk Hu]]%Hlook; [done|]. destruct (decide (k = parent t)) as [->|Hkp]; [by apply Hpar|].
    eapply family_frame; [by eapply pi_fam|done..| | | |done].
    + intros j Hj. destruct (decide (j = i)) as [->|Hji]; [|by eapply kid_upd].
      unfold kid. rewrite Ep, lookup_insert_eq, Ht, Epar. by rewrite (proj2 (Z.eqb_neq _ _)).
    + intros c Hcc. by eapply Hc.
    + intros a Haa. by eapply Ha.
  - intros k u [[-> ->]|[Hk Hu]]%Hlook; [done|by eapply pi_own].
  - intros k u [[-> ->]|[Hk Hu]]%Hlook; rewrite Ep; apply lookup_insert_is_Some'; right; [rewrite Epar; by eapply pi_parent|by eapply pi_parent].
  - intros k u [[-> ->]|[Hk Hu]]%Hlook; rewrite Et; by eapply pi_tid.
  - assert (forall k u c, procs s !! k = Some u -> has_rec u c -> has_rec t' c -> i = k) as Hr.
    { intros k u c Hu Hru [Hrt|Hno]%Hrec; [by eapply (pi_rec s Hi)|]. destruct (rec_there s k u c Hi Hu Hru) as [? E]. by rewrite E in Hno. }
    intros k j u w c [[-> ->]|[Hk Hu]]%Hlook [[-> ->]|[Hj Hw]]%Hlook Hr1 Hr2; [done|by eapply Hr|symmetry; by eapply Hr|by eapply (pi_rec s Hi)].
  - assert (forall k u a, procs s !! k = Some u -> has_arg u a -> has_arg t' a -> i = k) as Hr.
    { intros k u a Hu Hru [Hrt|Hno]%Harg; [by eapply (pi_arg s Hi)|]. destruct (arg_there s k u a Hi Hu Hru) as [? E]. by rewrite E in Hno. }
    intros k j u w a [[-> ->]|[Hk Hu]]%Hlook [[-> ->]|[Hj Hw]]%Hlook Hr1 Hr2; [done|by eapply Hr|symmetry; by eapply Hr|by eapply (pi_arg s Hi)].
  - done.
Qed.

(** A step that its parent does not notice. *)
Lemma quiet_inv s s' i t t' :
  pinv s -> procs s !! i = Some t -> procs s' = <[i := t']> (procs s) -> parent t' = parent t -> next_tid s' = next_tid s ->
  exited s ⊆ exited s' -> children s' !! NULL = None -> stage_of (ctl t') = stage_of (ctl t) -> is_userprog t' = is_userprog t ->
  family s' i t' -> own_ok i t' -> (forall c, has_rec t' c -> has_rec t c \/ children s !! c = None) -> (forall a, has_arg t' a -> has_arg t a \/ exec_args s !! a = None) ->
  (forall k u c, k <> i -> procs s !! k = Some u -> has_rec u c -> children s' !! c = children s !! c) ->
  (forall k u a, k <> i -> procs s !! k = Some u -> has_arg u a -> exec_args s' !! a = exec_args s !! a) -> pinv s'.
Proof.
  intros Hi Ht Ep Epar Et He Hnull Hst Hus Hfam Hown Hrec Harg Hc Ha.
  eapply (step_inv s s' i t t'); try done; [|intros; by eapply Hc|intros; by eapply Ha].
  intros Hpi p Hp. eapply family_frame; [by eapply pi_fam|done..| | | |done].
  - intros j Hj. destruct (decide (j = i)) as [->|Hji]; [|by eapply kid_upd]. unfold kid. by rewrite Ep, lookup_insert_eq, Ht, Epar, Hst, Hus.
  - intros c Hcc. by eapply Hc.
  - intros a Haa. by eapply Ha.
Qed.

(** A step that changes nothing but where the thread is. *)
Lemma goto_inv s i t t' :
  pinv s -> procs s !! i = Some t -> parent t' = parent t -> childs t' = childs t -> stage_of (ctl t') = stage_of (ctl t) ->
  is_userprog t' = is_userprog t -> (forall c a tid, ctl t' <> Created c a tid) -> (forall a tid, ctl t' <> AwaitLoad a tid) ->
  family (put i t' s) i t' -> own_ok i t' -> pinv (put i t' s).
Proof.
  intros Hi Ht Epar Ech Hst Hus Hcr Haw Hfam Hown. eapply (quiet_inv s _ i t t'); try done; [apply Hi| |].
  - intros c [Hc|(a & tid & E)]; [left; left; by rewrite <- Ech|by destruct (Hcr c a tid)].
  - intros a [(c & tid & E)|(tid & E)]; [by destruct (Hcr c a tid)|by destruct (Haw a tid)].
Qed.

(** ** The calls of a program *)

Lemma onekid_not s i j q : onekid s i j q -> ~ nokid s i.
Proof. intros (Hj & Hk & _) Hn. rewrite (Hn j Hj) in Hk. done. Qed.

Lemma user_family s i t t' r :
  family s i t -> ctl t = User r -> childs t' = childs t ->
  match ctl t' with
  | User _ => True
  | Exiting => nokid s i
  | Finding tid => exists c l x, childs t = c :: l /\ children s !! c = Some x /\ pid_t x = tid
  | _ => False
  end -> family (put i t' s) i t'.
Proof.
  intros Hf Et Ec Hc. assert (forall j, j <> i -> kid (put i t' s) i j = kid s i j) as Ek by (intros; by eapply kid_upd).
  assert (forall l, Forall (dead s (ctl t)) l -> Forall (dead (put i t' s) (ctl t')) l) as Hdead.
  { intros l Hd. eapply (dead_all_ctl _ (ctl t)); [by eapply (dead_all s)|]. intros c _. rewrite Et. split; [done|]. intros E. by rewrite E in Hc. }
  destruct Hf as [Hn Hd Hal|j q c a x Hk Hx|j q c l x Hk El Hd Hl Hp Hs Hw Hpa].
  - apply fam_alone; [by eapply nokid_frame|rewrite Ec; by apply Hdead|]. unfold alone. rewrite Ec. by destruct (ctl t') in *.
  - rewrite Et in Hx. done.
  - eapply (fam_kid _ i t' j q c l x); try done; [by eapply onekid_frame|by rewrite Ec|by apply Hdead|].
    rewrite Et in Hpa. unfold parent_at in *. destruct (ctl t') as [| | | |tid| | | | |] in *; try done.
    + destruct Hc as (c' & l' & x' & E & Hx' & Hp'). rewrite El in E. simplify_eq. done.
    + by destruct (onekid_not s i j q).
Qed.

Lemma user_step s i t t' r :
  pinv s -> procs s !! i = Some t -> ctl t = User r -> parent t' = parent t -> childs t' = childs t -> is_userprog t' = is_userprog t ->
  locked t' = locked t -> (ctl t' = Exiting -> open_fds t' = [] /\ parent t <> i) ->
  match ctl t' with
  | User _ => True
  | Exiting => nokid s i
  | Finding tid => exists c l x, childs t = c :: l /\ children s !! c = Some x /\ pid_t x = tid
  | _ => False
  end -> pinv (put i t' s).
Proof.
  intros Hi Ht Et Epar Ec Hus Hl Hend Hc. destruct (pi_own s Hi i t Ht) as [Ho1 Ho2 Ho3].
  eapply (goto_inv s i t t'); try done; [|..|by eapply user_family; [eapply pi_fam|..]|].
  - rewrite Et. by destruct (ctl t') in *.
  - intros c a tid E. by rewrite E in Hc.
  - intros a tid E. by rewrite E in Hc.
  - split; [rewrite Hl, Ho1, Et; by destruct (ctl t') in *| |by rewrite Ec]. rewrite Epar. destruct (ctl t') in *; try done. auto.
Qed.

(** A new child is created. *)
Lemma unused_ok s p : unused s p = true -> p <> NULL /\ children s !! p = None /\ exec_args s !! p = None.
Proof. unfold unused. rewrite !andb_true_iff, !bool_decide_eq_true. tauto. Qed.

(** The state in which [process_execute] holds the lock. *)
Definition executing i t c a tid s : pstate :=
  put i (with_lock true (with_ctl (Created c a tid) t))
    (set_exec_args (<[a := mk_exec_arg 0 false]> (exec_args s)) (set_children (<[c := mk_child 0 0 0]> (children s)) s)).

Lemma user_alone s i t r : family s i t -> ctl t = User r -> nokid s i -> forall x, (forall c, x <> Collecting c) -> Forall (dead s x) (childs t).
Proof.
  intros Hf Et Hn x Hx. destruct Hf as [_ Hd _|j q c a y Hk|j q c l y Hk]; [|by destruct (onekid_not s i j q)..].
  eapply dead_all_ctl; [exact Hd|]. intros c _. by rewrite Et.
Qed.

Lemma rec_not s i t c : pinv s -> procs s !! i = Some t -> children s !! c = None -> ~ has_rec t c.
Proof. intros Hi Ht Hc Hr. destruct (rec_there s i t c Hi Ht Hr) as [? E]. by rewrite E in Hc. Qed.
Lemma arg_not s i t a : pinv s -> procs s !! i = Some t -> exec_args s !! a = None -> ~ has_arg t a.
Proof. intros Hi Ht Ha Hr. destruct (arg_there s i t a Hi Ht Hr) as [? E]. by rewrite E in Ha. Qed.

Lemma insert_rec s i t c y : pinv s -> procs s !! i = Some t -> children s !! c = None ->
  forall d, has_rec t d -> <[c := y]> (children s) !! d = children s !! d.
Proof. intros Hi Ht Hc d Hd. rewrite lookup_insert_ne; [done|]. intros ->. by eapply rec_not. Qed.
Lemma insert_arg s i t a y : pinv s -> procs s !! i = Some t -> exec_args s !! a = None ->
  forall b, has_arg t b -> <[a := y]> (exec_args s) !! b = exec_args s !! b.
Proof. intros Hi Ht Ha b Hb. rewrite lookup_insert_ne; [done|]. intros ->. by eapply arg_not. Qed.

(** The thread could not be created. *)
Lemma exec_failed s i t r c a :
  pinv s -> procs s !! i = Some t -> ctl t = User r -> nokid s i -> unused s c = true -> unused s a = true -> pinv (executing i t c a TID_ERROR s).
Proof.
  intros Hi Ht Et Hn [Hc0 [Hc _]]%unused_ok [_ [_ Ha]]%unused_ok. destruct (pi_own s Hi i t Ht) as [Ho1 Ho2 Ho3].
  eapply (quiet_inv s _ i t); [done|done|reflexivity|done..| | | | | | | | |]; cbn [executing put set_procs set_exec_args set_children children exec_args].
  - rewrite lookup_insert_ne by done. apply Hi.
  - cbn. by rewrite Et.
  - done.
  - apply fam_alone.
    + eapply nokid_frame; [|exact Hn]. intros j Hj. by eapply kid_upd.
    + eapply (dead_all s); [exact (user_alone s i t r (pi_fam s Hi i t Ht) Et Hn (Created c a TID_ERROR) ltac:(done))| |done]. intros d Hd. eapply insert_rec; [done..|by left].
    + unfold alone. cbn. split; [done|]. rewrite !lookup_insert_eq. split; [by eexists|]. split; [by eexists|]. intros Hin.
      eapply (rec_not s i t c); [done..|by left].
  - split; [done|done|exact Ho3].
  - intros d [Hd|(b & k & [= <- _ _])]; [left; by left|by right].
  - intros b [(d & k & [= _ <- _])|(k & E)]; [by right|done].
  - intros k u d _ Hu Hd. by eapply insert_rec.
  - intros k u b _ Hu Hb. by eapply insert_arg.
Qed.

(** The thread is created. *)
Section created.
Context (s : pstate) (i : Z) (t : pthread) (r c a : Z).
Hypotheses (Hi : pinv s) (Ht : procs s !! i = Some t) (Et : ctl t = User r) (Hn : nokid s i)
  (Hc : children s !! c = None) (Ha : exec_args s !! a = None).
#[local] Abbreviation n := (next_tid s).
#[local] Abbreviation t' := (with_lock true (with_ctl (Created c a n) t)).
#[local] Abbreviation s1 := (executing i t c a n s).
Definition created_state : pstate := mk_pstate (<[n := new_thread i a]> (procs s1)) (children s1) (exec_args s1) (n + 1) (exited s1).

Lemma old_tid k u : procs s !! k = Some u -> k <> n /\ parent u <> n.
Proof. intros Hu. destruct (pi_parent s Hi k u Hu) as [p Hp]. pose proof (pi_tid s Hi k u Hu). pose proof (pi_tid s Hi _ p Hp). lia. Qed.

Lemma created_look k u : procs created_state !! k = Some u ->
  k = n /\ u = new_thread i a \/ k = i /\ u = t' \/ k <> i /\ k <> n /\ procs s !! k = Some u.
Proof.
  unfold created_state. cbn [procs]. destruct (decide (k = n)) as [->|Hkn]; [rewrite lookup_insert_eq; intros [= <-]; auto|rewrite lookup_insert_ne by done].
  cbn [executing put set_procs procs set_exec_args set_children].
  destruct (decide (k = i)) as [->|Hki]; [rewrite lookup_insert_eq; intros [= <-]; auto|rewrite lookup_insert_ne by done; auto 6].
Qed.

Lemma created_kid k j : kid created_state k j = if j =? n then if i =? k then Some (KStart a, false) else None else kid s k j.
Proof.
  unfold kid, created_state. cbn [procs executing put set_procs set_exec_args set_children]. destruct (Z.eqb_spec j n) as [->|Hj]; [by rewrite lookup_insert_eq|].
  rewrite lookup_insert_ne by done. destruct (decide (j = i)) as [->|Hji]; [|by rewrite lookup_insert_ne].
  rewrite lookup_insert_eq, Ht. cbn [with_lock with_ctl parent is_userprog ctl stage_of]. by rewrite Et.
Qed.

Lemma no_new_kid k : kid s k n = None.
Proof. unfold kid. destruct (procs s !! n) as [u|] eqn:E; [|done]. by destruct (old_tid n u E). Qed.

Lemma created_new_fam : family created_state n (new_thread i a).
Proof.
  apply fam_alone; [|by apply Forall_nil|done]. intros j Hj. rewrite created_kid, (proj2 (Z.eqb_neq j n)) by done.
  unfold kid. destruct (procs s !! j) as [u|] eqn:E; [|done]. by rewrite (proj2 (Z.eqb_neq _ _)) by apply (old_tid j u E).
Qed.

Lemma created_parent_fam : family created_state i t'.
Proof.
  eapply (fam_born created_state i t' n (KStart a, false) c a (mk_child 0 0 0)); try done.
  - split; [intros E; by destruct (old_tid i t Ht)|]. split; [by rewrite created_kid, !Z.eqb_refl|].
    intros k Hk1 Hk2. rewrite created_kid, (proj2 (Z.eqb_neq k n)) by done. by apply Hn.
  - eapply (dead_all s); [exact (user_alone s i t r (pi_fam s Hi i t Ht) Et Hn (Created c a n) ltac:(done))| |done].
    intros d Hd. eapply insert_rec; [done..|by left].
  - intros Hin. eapply (rec_not s i t c); [done..|by left].
  - apply lookup_insert_eq.
  - exists (mk_exec_arg 0 false). split; [apply lookup_insert_eq|by left].
Qed.

Lemma created_other_fam k u : k <> i -> procs s !! k = Some u -> family created_state k u.
Proof.
  intros Hk Hu. eapply family_frame; [by eapply pi_fam|done..| | | |done].
  - intros j Hj. rewrite created_kid. destruct (Z.eqb_spec j n) as [->|]; [|done]. by rewrite no_new_kid, (proj2 (Z.eqb_neq _ _)).
  - intros d Hd. by eapply insert_rec.
  - intros b Hb. by eapply insert_arg.
Qed.

(** The new thread has nothing, its parent has one record and one argument more. *)
Lemma created_rec k u d : procs created_state !! k = Some u -> has_rec u d -> k = i /\ d = c \/ exists w, procs s !! k = Some w /\ has_rec w d.
Proof.
  intros [[-> ->]|[[-> ->]|(Hki & Hkn & Hu)]]%created_look Hd; [|destruct Hd as [Hd|(b & k & [= <- _ _])]|]; [|right; exists t; split; [done|by left]|by left|eauto].
  destruct Hd as [Hd|(? & ? & [=])]. by apply elem_of_nil in Hd.
Qed.
Lemma created_arg k u b : procs created_state !! k = Some u -> has_arg u b -> k = i /\ b = a \/ exists w, procs s !! k = Some w /\ has_arg w b.
Proof.
  intros [[-> ->]|[[-> ->]|(Hki & Hkn & Hu)]]%created_look Hd; [|destruct Hd as [(d & k & [= _ <- _])|(k & [=])]|]; [|by left|eauto].
  by destruct Hd as [(? & ? & [=])|(? & [=])].
Qed.

Lemma exec_created : c <> NULL -> pinv created_state.
Proof.
  intros Hc0. destruct (pi_own s Hi i t Ht) as [Ho1 Ho2 Ho3]. destruct (old_tid i t Ht) as [Hin _]. split.
  - intros k u [[-> ->]|[[-> ->]|(Hki & Hkn' & Hu)]]%created_look; [exact created_new_fam|exact created_parent_fam|by apply created_other_fam].
  - intros k u [[-> ->]|[[-> ->]|(Hki & Hkn' & Hu)]]%created_look; [split; [done|done|by apply NoDup_nil]|split; [done|done|exact Ho3]|by eapply pi_own].
  - intros k u [[-> ->]|[[-> ->]|(Hki & Hkn' & Hu)]]%created_look; apply lookup_insert_is_Some'; right; apply lookup_insert_is_Some';
      [by left|right; apply (pi_parent s Hi i t Ht)|right; by eapply (pi_parent s Hi)].
  - pose proof (pi_tid s Hi i t Ht). intros k u [[-> ->]|[[-> ->]|(Hki & Hkn' & Hu)]]%created_look; cbn; [lia..|].
    pose proof (pi_tid s Hi k u Hu). lia.
  - intros k j u w d Hu Hw Hdu Hdw. destruct (created_rec k u d Hu Hdu) as [[Ek Ed]|(u' & Hu' & Hdu')];
      destruct (created_rec j w d Hw Hdw) as [[Fj Fd]|(w' & Hw' & Hdw')]; [congruence|destruct (rec_not s j w' c); congruence|destruct (rec_not s k u' c); congruence|by eapply (pi_rec s Hi)].
  - intros k j u w d Hu Hw Hdu Hdw. destruct (created_arg k u d Hu Hdu) as [[Ek Ed]|(u' & Hu' & Hdu')];
      destruct (created_arg j w d Hw Hdw) as [[Fj Fd]|(w' & Hw' & Hdw')]; [congruence|destruct (arg_not s j w' a); congruence|destruct (arg_not s k u' a); congruence|by eapply (pi_arg s Hi)].
  - cbn. rewrite lookup_insert_ne by done. apply Hi.
Qed.
End created.

(** ** The rest of process_execute *)

(** Another thread's records and arguments. *)
Lemma others_rec s i t c : pinv s -> procs s !! i = Some t -> has_rec t c ->
  forall k u d, k <> i -> procs s !! k = Some u -> has_rec u d -> d <> c.
Proof. intros Hi Ht Hc k u d Hk Hu Hd ->. apply Hk. by eapply (pi_rec s Hi). Qed.
Lemma others_arg s i t a : pinv s -> procs s !! i = Some t -> has_arg t a ->
  forall k u b, k <> i -> procs s !! k = Some u -> has_arg u b -> b <> a.
Proof. intros Hi Ht Ha k u b Hk Hu Hb ->. apply Hk. by eapply (pi_arg s Hi). Qed.

Lemma enter_child_ok s i t c a tid :
  pinv s -> procs s !! i = Some t -> ctl t = Created c a tid -> exists s', enter_child i t c a tid s = Ok (Some s') /\ pinv s'.
Proof.
  intros Hi Ht Et. assert (has_rec t c) as Hr by (right; eauto). assert (has_arg t a) as Hra by (left; eauto).
  destruct (rec_there s i t c Hi Ht Hr) as [x Hx]. destruct (pi_own s Hi i t Ht) as [Ho1 Ho2 Ho3]. unfold enter_child. rewrite Hx.
  pose proof (others_rec s i t c Hi Ht Hr) as Hor. pose proof (others_arg s i t a Hi Ht Hra) as Hoa.
  destruct (pi_fam s Hi i t Ht) as [Hn Hd Hal|j q d b y Hk Hc Hd Hin Hl Hs Hh Hb|j q d l y Hk El Hd Hl Hp Hs Hw Hpa].
  - unfold alone in Hal. rewrite Et in Hal. destruct Hal as (-> & _ & _ & Hin). cbn [Z.eqb TID_ERROR Pos.eqb]. eexists. split; [done|].
    eapply (quiet_inv s _ i t); [done|done|reflexivity|done..| | | | | | | | |]; cbn [put set_procs set_exec_args set_children children exec_args].
    + apply lookup_delete_None. right. apply Hi.
    + cbn. by rewrite Et.
    + done.
    + apply fam_alone; [eapply nokid_frame; [|exact Hn]; intros; by eapply kid_upd| |done].
      eapply (dead_all_ctl _ (ctl t)); [eapply (dead_all s); [exact Hd| |done]|by rewrite Et].
      intros e He. cbn. rewrite lookup_delete_ne; [done|]. intros ->. done.
    + split; [done|done|exact Ho3].
    + intros e [He|(? & ? & [=])]. left. by left.
    + intros e [(? & ? & [=])|(? & [=])].
    + intros k u e Hk Hu He. rewrite lookup_delete_ne; [done|]. intros ->. by eapply Hor.
    + intros k u e Hk Hu He. rewrite lookup_delete_ne; [done|]. intros ->. by eapply Hoa.
  - rewrite Et in Hc. injection Hc as <- <- <-. assert (0 < tid).
    { destruct Hk as (_ & Hk & _). unfold kid in Hk. destruct (procs s !! tid) as [u|] eqn:E; [|done]. by apply (pi_tid s Hi tid u E). }
    rewrite (proj2 (Z.eqb_neq tid TID_ERROR)) by (unfold TID_ERROR; lia). eexists. split; [done|]. rewrite Hx in Hl. injection Hl as <-.
    eapply (quiet_inv s _ i t); [done|done|reflexivity|done..| | | | | | | | |]; cbn [put set_procs set_exec_args set_children children exec_args].
    + rewrite lookup_insert_ne; [apply Hi|]. intros ->. by rewrite (pi_null s Hi) in Hx.
    + cbn. by rewrite Et.
    + done.
    + eapply (fam_kid _ i _ tid q c (childs t) (mk_child tid (c_status x) (c_sema x))); try done.
      * eapply onekid_frame; [|exact Hk]. intros; by eapply kid_upd.
      * eapply (dead_all_ctl _ (ctl t)); [eapply (dead_all s); [exact Hd| |done]|by rewrite Et].
        intros e He. cbn. rewrite lookup_insert_ne; [done|]. intros ->. done.
      * apply lookup_insert_eq.
      * unfold newborn in Hb. unfold at_work. by destruct (fst q).
    + split; [done|done|]. cbn. by constructor.
    + intros e [[->|He]%elem_of_cons|(? & ? & [=])]; left; [done|by left].
    + intros e [(? & ? & [=])|(? & [= <- <-])]. left. done.
    + intros k u e Hk' Hu He. rewrite lookup_insert_ne; [done|]. intros ->. by eapply Hor.
    + done.
  - unfold parent_at in Hpa. by rewrite Et in Hpa.
Qed.

Lemma await_load_ok s i t a tid :
  pinv s -> procs s !! i = Some t -> ctl t = AwaitLoad a tid -> exists r, await_load i t a tid s = Ok r /\ forall s', r = Some s' -> pinv s'.
Proof.
  intros Hi Ht Et. assert (has_arg t a) as Hra by (right; eauto). destruct (arg_there s i t a Hi Ht Hra) as [y Hy].
  pose proof (others_arg s i t a Hi Ht Hra) as Hoa. destruct (pi_own s Hi i t Ht) as [Ho1 Ho2 Ho3]. unfold await_load. rewrite Hy.
  destruct (Z.eqb_spec (a_sema y) 0) as [Hz|Hz]; [by exists None|]. eexists. split; [done|]. intros s' [= <-].
  set (t' := with_ctl _ t). assert (childs t' = childs t /\ exists e, ctl t' = User e) as (Ec & e & Ee) by (split; [done|by eexists]).
  eapply (quiet_inv s _ i t t'); [done|done|reflexivity|done..| | | | | | | | |]; cbn [put set_procs set_exec_args set_children children exec_args].
  - apply Hi.
  - by rewrite Et.
  - done.
  - destruct (pi_fam s Hi i t Ht) as [Hn Hd Hal|j q d b x Hk Hc|j q d l x Hk El Hd Hl Hp Hs Hw Hpa].
    + apply fam_alone; [eapply nokid_frame; [|exact Hn]; intros; by eapply kid_upd| |by unfold alone; rewrite Ee].
      rewrite Ec, Ee. eapply (dead_all_ctl _ (ctl t)); [by eapply (dead_all s)|by rewrite Et].
    + by rewrite Et in Hc.
    + eapply (fam_kid _ i t' j q d l x); try done.
      * eapply onekid_frame; [|exact Hk]. intros; by eapply kid_upd.
      * rewrite Ee. eapply (dead_all_ctl _ (ctl t)); [by eapply (dead_all s)|by rewrite Et].
      * unfold parent_at in *. rewrite Et in Hpa. rewrite Ee. destruct Hpa as (_ & y' & Hy' & Hst). rewrite Hy in Hy'. injection Hy' as <-. naive_solver.
  - split; [by rewrite Ee; cbn; rewrite Ho1, Et|by rewrite Ee|exact Ho3].
  - intros d [Hd|(? & ? & [=])]. left. by left.
  - intros d [(? & ? & [=])|(? & [=])].
  - done.
  - intros k u d Hk Hu Hd. rewrite lookup_delete_ne; [done|]. intros ->. by eapply Hoa.
Qed.

(** ** A child as its parent sees it *)

Lemma kid_of s i t : procs s !! i = Some t -> kid s (parent t) i = Some (stage_of (ctl t), is_userprog t).
Proof. intros Ht. unfold kid. by rewrite Ht, Z.eqb_refl. Qed.

Lemma onekid_is s p j q i t : onekid s p j q -> procs s !! i = Some t -> parent t = p -> p <> i -> j = i /\ q = (stage_of (ctl t), is_userprog t).
Proof.
  intros (Hj & Hk & Ho) Ht <- Hp. destruct (decide (i = j)) as [<-|Hne].
  - rewrite (kid_of s i t Ht) in Hk. by injection Hk as <-.
  - pose proof (Ho i ltac:(done) Hne) as E. by rewrite (kid_of s i t Ht) in E.
Qed.

Lemma nokid_not s i t : procs s !! i = Some t -> parent t <> i -> ~ nokid s (parent t).
Proof. intros Ht Hp Hn. pose proof (Hn i ltac:(done)) as E. by rewrite (kid_of s i t Ht) in E. Qed.

Lemma onekid_upd s s' i t' p q :
  onekid s p i q -> procs s' = <[i := t']> (procs s) -> parent t' = p -> onekid s' p i (stage_of (ctl t'), is_userprog t').
Proof.
  intros (Hj & Hk & Ho) Ep <-. split; [done|]. split; [apply kid_of; by rewrite Ep, lookup_insert_eq|].
  intros k Hk1 Hk2. erewrite kid_upd by done. by apply Ho.
Qed.

Lemma start_process_ok s i t a b :
  pinv s -> procs s !! i = Some t -> ctl t = Start a -> exists s', start_process i t a b s = Ok (Some s') /\ pinv s'.
Proof.
  intros Hi Ht Et. destruct (pi_own s Hi i t Ht) as [Ho1 Ho2 Ho3]. destruct (Ho2 ltac:(by rewrite Et)) as [Hfds Hpi].
  destruct (pi_parent s Hi i t Ht) as [p Hp]. set (t' := with_ctl (if b then User 0 else Exiting) (as_userprog t)).
  assert (stage_of (ctl t') = KBusy /\ is_userprog t' = true) as [Est Eus] by (by destruct b).
  (* the arguments are where the parent put them *)
  assert (exists y, exec_args s !! a = Some y /\ a_sema y = 0 /\ has_arg p a /\
    forall s', procs s' = <[i := t']> (procs s) -> children s' = children s -> exited s' = exited s ->
      exec_args s' !! a = Some (mk_exec_arg 1 b) -> family s' (parent t) p) as (y & Hy & Hz & Harg & Hfam).
  { destruct (pi_fam s Hi _ p Hp) as [Hn|j q d e x Hk Hc Hd Hin Hl Hs (y & Hy & Hh) Hb|j q d l x Hk El Hd Hl Hpt Hs Hw Hpa].
    - by destruct (nokid_not s i t).
    - destruct (onekid_is s _ j q i t Hk Ht eq_refl Hpi) as [-> ->]. rewrite Et in Hh. cbn [fst stage_of] in Hh.
      destruct Hh as [[[= <-] Hz]|[Hne _]]; [|by destruct (Hne a)]. exists y. split; [done|]. split; [done|]. split; [left; eauto|].
      intros s' Ep Ec Ex Ea. eapply (fam_born s' _ p i (KBusy, true) d a x); rewrite ?Ec; try done.
      + rewrite <- Est, <- Eus. by eapply onekid_upd.
      + eapply (dead_all s); [exact Hd|by rewrite Ec|by rewrite Ex].
      + exists (mk_exec_arg 1 b). split; [done|]. by right.
    - destruct (onekid_is s _ j q i t Hk Ht eq_refl Hpi) as [-> ->]. unfold parent_at in Hpa. rewrite Et in Hpa. cbn [fst stage_of] in Hpa.
      destruct (ctl p) as [e| |a' tid| |tid|e| | | |] eqn:Ectl; try done; try (exfalso; by eapply (proj2 Hpa)); try (exfalso; by eapply Hpa).
      destruct Hpa as (-> & y & Hy & [[[= <-] Hz]|[Hne _]]); [|by destruct (Hne a)]. exists y. split; [done|]. split; [done|]. split; [right; eauto|].
      intros s' Ep Ec Ex Ea. eapply (fam_kid s' _ p i (KBusy, true) d l x); rewrite ?Ec; try done.
      + rewrite <- Est, <- Eus. by eapply onekid_upd.
      + eapply (dead_all s); [by rewrite Ectl|by rewrite Ec|by rewrite Ex].
      + rewrite Ectl. split; [done|]. exists (mk_exec_arg 1 b). split; [done|]. by right. }
  unfold start_process. rewrite Hy, Hz. eexists. split; [done|].
  eapply (step_inv s _ i t t'); [done|done|reflexivity|done..| | | | | | | |]; cbn [put set_procs set_exec_args set_children children exec_args].
  - apply Hi.
  - destruct (pi_fam s Hi i t Ht) as [Hn Hd Hal|j q d e x Hk Hc|j q d l x Hk El Hd Hl Hpt Hs Hw Hpa].
    + apply fam_alone; [eapply nokid_frame; [|exact Hn]; intros; by eapply kid_upd| |by unfold alone; destruct b].
      eapply (dead_all_ctl _ (ctl t)); [by eapply (dead_all s)|]. intros c _. rewrite Et. by destruct b.
    + by rewrite Et in Hc.
    + unfold parent_at in Hpa. by rewrite Et in Hpa.
  - split; [cbn; rewrite Ho1, Et; by destruct b|by destruct b|exact Ho3].
  - intros c [Hc|(? & ? & E)]; [left; by left|by destruct b].
  - intros c [(? & ? & E)|(? & E)]; by destruct b.
  - intros _ p' Hp'. rewrite Hp in Hp'. injection Hp' as <-. apply Hfam; try done. cbn. apply lookup_insert_eq.
  - done.
  - intros k u c Hki Hkp Hu Hc. rewrite lookup_insert_ne; [done|]. intros ->. by eapply (others_arg s (parent t) p).
Qed.

(** ** process_wait *)

(** The search finds the front, and changes nothing when that is the right one. *)
Lemma find_child_front pid c l m x :
  m !! c = Some x -> pid_t x = pid -> 0 < pid -> find_child pid (c :: l) m = Ok (c, m).
Proof.
  intros Hx <- Hp. cbn [find_child]. rewrite Hx. rewrite (proj2 (Z.eqb_neq _ _)) by lia. f_equal. f_equal. apply insert_id. rewrite Hx. by destruct x.
Qed.

Lemma dead_front s x c l : Forall (dead s x) (c :: l) -> exists d, children s !! c = Some d /\ 0 < pid_t d.
Proof. intros [(d & Hd & _ & Hp & _) _]%Forall_cons. by exists d. Qed.

(** What a thread in [process_wait] has found: the record of its youngest child. *)
Lemma finding_front s i t tid :
  pinv s -> procs s !! i = Some t -> ctl t = Finding tid -> exists c l x, childs t = c :: l /\ children s !! c = Some x /\ pid_t x = tid /\ 0 < tid /\ c <> NULL.
Proof.
  intros Hi Ht Et.
  assert (exists c l x, childs t = c :: l /\ children s !! c = Some x /\ pid_t x = tid /\ 0 < tid) as (c & l & x & El & Hx & Hp & H0).
  { destruct (pi_fam s Hi i t Ht) as [Hn Hd Hal|j q d e x Hk Hc|j q d l x Hk El Hd Hl Hpt Hs Hw Hpa].
    - unfold alone in Hal. rewrite Et in Hal. destruct Hal as (c & l & x & El & Hx & Hp). exists c, l, x. split_and!; try done.
      rewrite El in Hd. apply dead_front in Hd as (d & Hd & Hpd). rewrite Hx in Hd. injection Hd as <-. lia.
    - by rewrite Et in Hc.
    - unfold parent_at in Hpa. rewrite Et in Hpa. destruct Hpa as [-> _]. exists d, l, x. split_and!; try done.
      destruct Hk as (_ & Hk & _). unfold kid in Hk. destruct (procs s !! j) as [u|] eqn:E; [|done]. by apply (pi_tid s Hi j u E). }
  exists c, l, x. split_and!; try done. intros ->. by rewrite (pi_null s Hi) in Hx.
Qed.

Lemma wait_find_ok s i t tid :
  pinv s -> procs s !! i = Some t -> ctl t = Finding tid ->
  exists c l, childs t = c :: l /\ (pid_t <$> children s !! c) = Some tid /\ wait_find i t tid s = Ok (Some (put i (with_ctl (AwaitExit c) t) s)) /\
    pinv (put i (with_ctl (AwaitExit c) t) s).
Proof.
  intros Hi Ht Et. destruct (pi_own s Hi i t Ht) as [Ho1 Ho2 Ho3]. destruct (finding_front s i t tid Hi Ht Et) as (c & l & x & El & Hx & Hp & H0 & Hcn).
  exists c, l. split; [done|]. split; [by rewrite Hx; cbn; rewrite Hp|]. split.
  - unfold wait_find. rewrite Ho1, Et. cbn [holds_lock]. rewrite El, (find_child_front tid c l _ x) by done. cbn [mbind res_bind].
    rewrite (proj2 (Z.eqb_neq c NULL)) by done. by destruct s.
  - set (t' := with_ctl (AwaitExit c) t). eapply (goto_inv s i t t'); try done; [by rewrite Et| |].
    + destruct (pi_fam s Hi i t Ht) as [Hn Hd Hal|j q d e y Hk Hc|j q d l' y Hk El' Hd Hl Hpt Hs Hw Hpa].
      * apply fam_alone; [eapply nokid_frame; [|exact Hn]; intros; by eapply kid_upd| |by exists l].
        eapply (dead_all_ctl _ (ctl t)); [by eapply (dead_all s)|by rewrite Et].
      * by rewrite Et in Hc.
      * rewrite El' in El. injection El as -> ->. eapply (fam_kid _ i t' j q c l y); try done.
        -- eapply onekid_frame; [|exact Hk]. intros; by eapply kid_upd.
        -- eapply (dead_all_ctl _ (ctl t)); [by eapply (dead_all s)|by rewrite Et].
        -- unfold parent_at in *. rewrite Et in Hpa. cbn. tauto.
    + split; [cbn; by rewrite Ho1, Et|done|exact Ho3].
Qed.

Lemma await_exit_ok s i t c :
  pinv s -> procs s !! i = Some t -> ctl t = AwaitExit c -> exists r, await_exit i t c s = Ok r /\ forall s', r = Some s' -> pinv s'.
Proof.
  intros Hi Ht Et. destruct (pi_own s Hi i t Ht) as [Ho1 Ho2 Ho3]. set (t' := with_ctl (Collecting c) t). unfold await_exit.
  destruct (pi_fam s Hi i t Ht) as [Hn Hd Hal|j q d e y Hk Hc|j q d l' y Hk El' Hd Hl Hpt Hs Hw Hpa].
  - unfold alone in Hal. rewrite Et in Hal. destruct Hal as [l El]. assert (has_rec t c) as Hr by (left; rewrite El; left).
    rewrite El, Et in Hd. apply Forall_cons in Hd as [(x & Hx & Hs & Hp & He) Hd]. cbn in Hs. rewrite Hx, Hs. cbn [Z.eqb].
    eexists. split; [done|]. intros s' [= <-].
    eapply (quiet_inv s _ i t t'); [done|done|reflexivity|done..| | | | | | | | |]; cbn [put set_procs set_exec_args set_children children exec_args].
    + rewrite lookup_insert_ne; [apply Hi|]. intros ->. by rewrite (pi_null s Hi) in Hx.
    + by rewrite Et.
    + done.
    + rewrite El in Ho3. apply NoDup_cons in Ho3 as [Hcl _].
      apply fam_alone; [eapply nokid_frame; [|exact Hn]; intros; by eapply kid_upd| |by exists l]. cbn [childs t' with_ctl]. rewrite El. constructor.
      * eexists. cbn. rewrite lookup_insert_eq. split; [done|]. cbn. by rewrite Z.eqb_refl.
      * eapply (dead_all_ctl _ (AwaitExit c)); [eapply (dead_all s); [exact Hd| |done]|].
        -- intros b Hb. cbn. rewrite lookup_insert_ne; [done|]. intros ->. done.
        -- intros b Hb. split; [done|]. intros [= ->]. done.
    + split; [cbn; by rewrite Ho1, Et|done|exact Ho3].
    + intros b [Hb|(? & ? & [=])]. left. by left.
    + intros b [(? & ? & [=])|(? & [=])].
    + intros k u b Hk Hu Hb. rewrite lookup_insert_ne; [done|]. intros ->. by eapply (others_rec s i t b).
    + done.
  - by rewrite Et in Hc.
  - unfold parent_at in Hpa. rewrite Et in Hpa. destruct Hpa as [-> _]. rewrite Hl, Hs. by exists None.
Qed.

Lemma collecting_dead s i t c :
  pinv s -> procs s !! i = Some t -> ctl t = Collecting c ->
  nokid s i /\ exists l x, childs t = c :: l /\ children s !! c = Some x /\ (pid_t x, c_status x) ∈ exited s /\ Forall (dead s (ctl t)) l.
Proof.
  intros Hi Ht Et. destruct (pi_fam s Hi i t Ht) as [Hn Hd Hal|j q d e y Hk Hc|j q d l' y Hk El' Hd Hl Hpt Hs Hw Hpa].
  - split; [done|]. unfold alone in Hal. rewrite Et in Hal. destruct Hal as [l El]. rewrite El in Hd. apply Forall_cons in Hd as [(x & Hx & _ & _ & He) Hd].
    by exists l, x.
  - by rewrite Et in Hc.
  - unfold parent_at in Hpa. by rewrite Et in Hpa.
Qed.

Lemma collect_ok s i t c :
  pinv s -> procs s !! i = Some t -> ctl t = Collecting c -> exists s', collect i t c s = Ok (Some s') /\ pinv s'.
Proof.
  intros Hi Ht Et. destruct (pi_own s Hi i t Ht) as [Ho1 Ho2 Ho3]. destruct (collecting_dead s i t c Hi Ht Et) as (Hn & l & x & El & Hx & He & Hd).
  assert (has_rec t c) as Hr by (left; rewrite El; left). unfold collect. rewrite Ho1, Et. cbn [holds_lock]. rewrite Hx. eexists. split; [done|].
  rewrite El in Ho3. apply NoDup_cons in Ho3 as [Hcl Hnd].
  assert (filter (fun d => d <> c) (childs t) = l) as Ef.
  { rewrite El, filter_cons_False by naive_solver. apply filter_all, Forall_forall. intros b Hb ->. done. }
  rewrite Ef. set (t' := with_childs l (with_ctl (User (c_status x)) t)).
  eapply (quiet_inv s _ i t t'); [done|done|reflexivity|done..| | | | | | | | |]; cbn [put set_procs set_exec_args set_children children exec_args].
  - apply lookup_delete_None. right. apply Hi.
  - by rewrite Et.
  - done.
  - apply fam_alone; [eapply nokid_frame; [|exact Hn]; intros; by eapply kid_upd| |done].
    eapply (dead_all_ctl _ (ctl t)); [eapply (dead_all s); [exact Hd| |done]|].
    + intros b Hb. cbn. rewrite lookup_delete_ne; [done|]. intros ->. done.
    + intros b Hb. rewrite Et. split; [|done]. intros [= ->]. done.
  - split; [cbn; by rewrite Ho1, Et|done|exact Hnd].
  - intros b [Hb|(? & ? & [=])]. left. left. rewrite El. by right.
  - intros b [(? & ? & [=])|(? & [=])].
  - intros k u b Hk Hu Hb. rewrite lookup_delete_ne; [done|]. intros ->. by eapply (others_rec s i t b).
  - done.
Qed.

(** ** process_exit *)

Definition seen t : stage * bool := (stage_of (ctl t), is_userprog t).

(** The family of a child whose parent has released its lock. *)
Lemma kid_case s i t p :
  pinv s -> procs s !! i = Some t -> parent t <> i -> procs s !! parent t = Some p -> locked p = false \/ ~ newborn (seen t) ->
  exists c l x, onekid s (parent t) i (seen t) /\ childs p = c :: l /\ Forall (dead s (ctl p)) l /\ children s !! c = Some x /\ pid_t x = i /\
    c_sema x = 0 /\ at_work s i (seen t) c x /\ parent_at s i (seen t) c (ctl p).
Proof.
  intros Hi Ht Hpi Hp Hl. destruct (pi_fam s Hi _ p Hp) as [Hn|j q d e x Hk Hc Hd Hin Hx Hs Hh Hb|j q d l x Hk El Hd Hx Hpt Hs Hw Hpa].
  - by destruct (nokid_not s i t).
  - destruct (onekid_is s _ j q i t Hk Ht eq_refl Hpi) as [-> ->]. destruct Hl as [Hl|Hl]; [|done].
    pose proof (oo_lock _ _ (pi_own s Hi _ p Hp)) as E. rewrite Hc in E. by rewrite E in Hl.
  - destruct (onekid_is s _ j q i t Hk Ht eq_refl Hpi) as [-> ->]. exists d, l, x. by split_and!.
Qed.

Lemma parent_at_next s s' j (q q' : stage * bool) c (x : control) :
  (forall b, fst q <> KStart b) -> (forall b, fst q' <> KStart b) -> exec_args s' = exec_args s -> parent_at s j q c x -> parent_at s' j q' c x.
Proof.
  intros Hq Hq' Ea. unfold parent_at. destruct x; try tauto. intros (-> & y & Hy & Hst). split; [done|]. exists y. rewrite Ea. split; [done|].
  right. destruct Hst as [[E _]|[_ Hst]]; [by destruct (Hq _ E)|done].
Qed.

(** The child goes on; its parent's view of it follows. *)
Lemma kid_step s s' i t t' p c (l : list Z) (x' : child_process) :
  onekid s (parent t) i (seen t) -> childs p = c :: l -> Forall (dead s (ctl p)) l -> NoDup (childs p) -> pid_t x' = i -> c_sema x' = 0 ->
  parent_at s i (seen t) c (ctl p) -> (forall b, stage_of (ctl t) <> KStart b) -> (forall b, stage_of (ctl t') <> KStart b) ->
  procs s' = <[i := t']> (procs s) -> parent t' = parent t -> children s' = <[c := x']> (children s) -> exec_args s' = exec_args s -> exited s ⊆ exited s' ->
  at_work s' i (seen t') c x' -> family s' (parent t) p.
Proof.
  intros Hk El Hd Hnd Hp Hs Hpa Hq Hq' Ep Epar Ec Ea Ex Hw. rewrite El in Hnd. apply NoDup_cons in Hnd as [Hcl _].
  eapply (fam_kid s' _ p i (seen t') c l x'); try done.
  - by eapply onekid_upd.
  - eapply (dead_all s); [exact Hd| |done]. intros b Hb. rewrite Ec, lookup_insert_ne; [done|]. intros ->. done.
  - rewrite Ec. apply lookup_insert_eq.
  - by apply (parent_at_next s s' i (seen t) (seen t') c (ctl p)).
Qed.

(** What a step of an exiting thread does to itself. *)
Lemma ending_family s s' i t t' :
  pinv s -> procs s !! i = Some t -> procs s' = <[i := t']> (procs s) -> childs t' = childs t ->
  match ctl t with Exiting | Reporting _ | Leaving _ => True | _ => False end ->
  match ctl t' with Exiting | Reporting _ | Leaving _ => True | _ => False end ->
  (forall c, c ∈ childs t -> children s' !! c = children s !! c) -> exited s ⊆ exited s' -> nokid s i /\ family s' i t'.
Proof.
  intros Hi Ht Ep Ec Hx Hx' Hch He. destruct (pi_fam s Hi i t Ht) as [Hn Hd Hal|j q d e y Hk Hc|j q d l' y Hk El' Hd Hl Hpt Hs Hw Hpa].
  - split; [done|]. apply fam_alone; [eapply nokid_frame; [|exact Hn]; intros; by eapply kid_upd| |unfold alone; by destruct (ctl t')].
    rewrite Ec. eapply (dead_all_ctl _ (ctl t)); [by eapply (dead_all s)|]. intros c _. by destruct (ctl t), (ctl t').
  - by rewrite Hc in Hx.
  - unfold parent_at in Hpa. by destruct (ctl t).
Qed.

Lemma exit_find_ok s i t :
  pinv s -> procs s !! i = Some t -> ctl t = Exiting ->
  exists r, exit_find i t s = Ok r /\ (forall s', r = Some s' -> pinv s') /\
    forall p, procs s !! parent t = Some p -> locked p = false -> exists c, r = Some (put i (with_ctl (Reporting c) t) s).
Proof.
  intros Hi Ht Et. destruct (pi_own s Hi i t Ht) as [Ho1 Ho2 Ho3]. destruct (Ho2 ltac:(by rewrite Et)) as [Hfds Hpi].
  destruct (pi_parent s Hi i t Ht) as [p Hp]. pose proof (pi_tid s Hi _ p Hp) as Hp0. unfold exit_find. rewrite Hfds. cbn [close_all mbind res_bind].
  rewrite (proj2 (Z.eqb_neq (parent t) NULL)) by (unfold NULL; lia). rewrite Hp.
  destruct (locked p) eqn:El; [exists None; split; [done|]; split; [done|]; intros p' [= <-]; by rewrite El|].
  destruct (kid_case s i t p Hi Ht Hpi Hp ltac:(by left)) as (c & l & x & Hk & Hcl & Hd & Hx & Hpt & Hs & Hw & Hpa).
  rewrite Hcl, (find_child_front i c l _ x) by (done || apply (pi_tid s Hi i t Ht)). cbn [mbind res_bind].
  assert (set_children (children s) s = s) as -> by (by destruct s). eexists. split; [done|]. split; [|by eauto]. intros s' [= <-].
  set (t' := with_ctl (Reporting c) t). eapply (step_inv s _ i t t'); [done|done|reflexivity|done..| | | | | | | |]; cbn [put set_procs children exec_args].
  - apply Hi.
  - eapply (ending_family s); try done. by rewrite Et.
  - split; [cbn; by rewrite Ho1, Et|done|exact Ho3].
  - intros b [Hb|(? & ? & [=])]. left. by left.
  - intros b [(? & ? & [=])|(? & [=])].
  - intros _ p' Hp'. rewrite Hp in Hp'. injection Hp' as <-.
    eapply (kid_step s _ i t t' p c l x); try done; [apply (pi_own s Hi _ p Hp)|by rewrite Et|by rewrite insert_id|].
    unfold at_work, seen in Hw |- *. rewrite Et in Hw. cbn in Hw |- *. done.
  - done.
  - done.
Qed.

Lemma report_ok s i t c :
  pinv s -> procs s !! i = Some t -> ctl t = Reporting c ->
  exists s', report i t c s = Ok (Some s') /\ pinv s' /\ procs s' = <[i := with_ctl (Leaving c) t]> (procs s).
Proof.
  intros Hi Ht Et. destruct (pi_own s Hi i t Ht) as [Ho1 Ho2 Ho3]. destruct (Ho2 ltac:(by rewrite Et)) as [Hfds Hpi].
  destruct (pi_parent s Hi i t Ht) as [p Hp].
  destruct (kid_case s i t p Hi Ht Hpi Hp ltac:(right; unfold seen, newborn; rewrite Et; by intros [])) as (c' & l & x & Hk & Hcl & Hd & Hx & Hpt & Hs & Hw & Hpa).
  unfold at_work, seen in Hw. rewrite Et in Hw. cbn in Hw. destruct Hw as [<- Hus]. assert (has_rec p c) as Hr by (left; rewrite Hcl; left).
  unfold report. rewrite Hus, Hx. eexists. split; [done|]. split; [|done].
  set (status := if exited_by_exit_call t then exit_status t else -1). set (t' := with_ctl (Leaving c) t). set (s' := put i t' _).
  assert (exited s ⊆ exited s') as He by (intros b Hb; by right).
  eapply (step_inv s s' i t t'); [done|done|reflexivity|done|done|done| | | | | | | |].
  - cbn. rewrite lookup_insert_ne; [apply Hi|]. intros ->. by rewrite (pi_null s Hi) in Hx.
  - eapply (ending_family s); try done; [by rewrite Et|]. intros b Hb. cbn. rewrite lookup_insert_ne; [done|]. intros ->.
    eapply (others_rec s (parent t) p b Hi Hp Hr i t b); [done|done|by left|done].
  - split; [cbn; by rewrite Ho1, Et|done|exact Ho3].
  - intros b [Hb|(? & ? & [=])]. left. by left.
  - intros b [(? & ? & [=])|(? & [=])].
  - intros _ p' Hp'. rewrite Hp in Hp'. injection Hp' as <-.
    eapply (kid_step s s' i t t' p c l (mk_child (pid_t x) status (c_sema x))); try done; [apply (pi_own s Hi _ p Hp)|by rewrite Et|].
    unfold at_work, seen. cbn. split; [done|]. split; [done|]. left.
  - intros k u b Hki Hkp Hu Hb. cbn. rewrite lookup_insert_ne; [done|]. intros ->. by eapply (others_rec s (parent t) p b).
  - done.
Qed.

(** The parent's view after its child is gone. *)
Lemma child_gone s s' i t p c l x :
  0 < i -> onekid s (parent t) i (seen t) -> childs p = c :: l -> Forall (dead s (ctl p)) l -> NoDup (childs p) ->
  pid_t x = i -> at_work s i (KLeave c, true) c x -> parent_at s i (KLeave c, true) c (ctl p) ->
  procs s' = delete i (procs s) -> children s' = <[c := mk_child (pid_t x) (c_status x) 1]> (children s) -> exec_args s' = exec_args s ->
  exited s' = exited s -> family s' (parent t) p.
Proof.
  intros Hi0 (Hj & Hk & Ho) El Hd Hnd Hp (_ & _ & He) Hpa Ep Ec Ea Ex. rewrite El in Hnd. apply NoDup_cons in Hnd as [Hcl _].
  assert (forall e, ctl p <> Collecting e) as Hnc by (intros e E; by rewrite E in Hpa).
  assert (children s' !! c = Some (mk_child (pid_t x) (c_status x) 1)) as Hc by (rewrite Ec; apply lookup_insert_eq).
  apply fam_alone.
  - intros k Hk'. destruct (decide (k = i)) as [->|Hki]; unfold kid; rewrite Ep; [by rewrite lookup_delete_eq|].
    rewrite lookup_delete_ne by done. by apply (Ho k).
  - rewrite El. constructor.
    + eexists. split; [exact Hc|]. cbn. rewrite Hp, Ex. split; [|done]. by destruct (ctl p).
    + eapply (dead_all s); [exact Hd| |by rewrite Ex]. intros b Hb. rewrite Ec, lookup_insert_ne; [done|]. intros ->. done.
  - unfold alone, parent_at in *. destruct (ctl p); try done.
    + destruct Hpa as (-> & y & Hy & [[E _]|[_ Hs]]); [done|]. exists y. by rewrite Ea.
    + destruct Hpa as [-> _]. eexists c, l, _. split; [done|]. split; [exact Hc|done].
    + destruct Hpa as [-> _]. by exists l.
Qed.

Lemma leave_ok s i t c :
  pinv s -> procs s !! i = Some t -> ctl t = Leaving c -> exists s', leave i c s = Ok (Some s') /\ pinv s' /\ procs s' = delete i (procs s).
Proof.
  intros Hi Ht Et. destruct (pi_own s Hi i t Ht) as [Ho1 Ho2 Ho3]. destruct (Ho2 ltac:(by rewrite Et)) as [Hfds Hpi].
  destruct (pi_parent s Hi i t Ht) as [p Hp]. pose proof (pi_tid s Hi i t Ht) as Hi0.
  destruct (kid_case s i t p Hi Ht Hpi Hp ltac:(right; unfold seen, newborn; rewrite Et; by intros [])) as (c' & l & x & Hk & Hcl & Hd & Hx & Hpt & Hs & Hw & Hpa).
  assert (c' = c /\ is_userprog t = true) as [-> Hus] by (unfold at_work, seen in Hw; rewrite Et in Hw; cbn in Hw; naive_solver).
  assert (seen t = (KLeave c, true)) as Eseen by (unfold seen; by rewrite Et, Hus). rewrite Eseen in Hw, Hpa.
  assert (has_rec p c) as Hr by (left; rewrite Hcl; left). assert (c <> NULL) as Hcn by (intros ->; by rewrite (pi_null s Hi) in Hx).
  destruct (ending_family s (put i t s) i t t Hi Ht eq_refl eq_refl) as [Hn _]; try (by rewrite Et); try done.
  unfold leave. rewrite (proj2 (Z.eqb_neq c NULL)), Hx, Hs by done. eexists. split; [done|]. split; [|done]. set (s' := set_procs _ _).
  assert (forall k u, procs s' !! k = Some u -> k <> i /\ procs s !! k = Some u) as Hlook by (intros k u Hu; unfold s' in Hu; cbn [set_procs procs set_children] in Hu; apply lookup_delete_Some in Hu; naive_solver).
  assert (forall k u d, procs s !! k = Some u -> k <> parent t -> has_rec u d -> children s' !! d = children s !! d) as Hch.
  { intros k u d Hu Hkp Hd'. cbn. rewrite lookup_insert_ne; [done|]. intros ->. by eapply (others_rec s (parent t) p d). }
  split.
  - intros k u [Hki Hu]%Hlook. destruct (decide (k = parent t)) as [->|Hkp].
    + rewrite Hp in Hu. injection Hu as <-. eapply (child_gone s s' i t p c l x); try done; first [lia|apply (pi_own s Hi _ p Hp)].
    + eapply family_frame; [by eapply pi_fam|done..| |intros d Hd'; by eapply Hch|done|done].
      intros j Hj. unfold kid, s'. cbn. destruct (decide (j = i)) as [->|Hji]; [|by rewrite lookup_delete_ne].
      by rewrite lookup_delete_eq, Ht, (proj2 (Z.eqb_neq _ _)).
  - intros k u [_ Hu]%Hlook. by eapply (pi_own s Hi).
  - intros k u [Hki Hu]%Hlook. destruct (pi_parent s Hi k u Hu) as [w Hw']. exists w. apply lookup_delete_Some. split; [|done]. intros E.
    pose proof (Hn k Hki) as Hk'. rewrite E in Hk'. by rewrite (kid_of s k u Hu) in Hk'.
  - intros k u [_ Hu]%Hlook. by eapply (pi_tid s Hi).
  - intros k j u w d [_ Hu]%Hlook [_ Hw']%Hlook. by eapply (pi_rec s Hi).
  - intros k j u w d [_ Hu]%Hlook [_ Hw']%Hlook. by eapply (pi_arg s Hi).
  - cbn. rewrite lookup_insert_ne by done. apply Hi.
Qed.

(** ** Runs *)

Lemma execute_ok s i t r pages c a created :
  pinv s -> procs s !! i = Some t -> ctl t = User r -> nokid s i -> (pages = true -> c = NULL \/ a = NULL -> may_end s i t) ->
  exists o, process_execute i t pages c a created s = Ok o /\ forall s', o = Some s' -> pinv s'.
Proof.
  intros Hi Ht Et Hn Hend. assert (pages = true -> c = NULL \/ a = NULL -> pinv (put i (with_ctl Exiting t) s)) as Hexit.
  { intros Hp Hca. destruct (Hend Hp Hca) as (_ & ? & ?). by eapply (user_step s i t (with_ctl Exiting t) r). }
  unfold process_execute. destruct pages; cbn [negb].
  2: { eexists. split; [done|]. intros s' [= <-]. by eapply (user_step s i t _ r). }
  destruct (Z.eqb_spec c NULL) as [->|Hc]; [eexists; split; [done|]; intros s' [= <-]; auto|].
  destruct (unused s c) eqn:Huc; cbn [negb]; [|by exists None].
  destruct (Z.eqb_spec a NULL) as [->|Ha]; [eexists; split; [done|]; intros s' [= <-]; auto|].
  destruct (unused s a) eqn:Hua; cbn [negb orb]; [|by exists None]. destruct (a =? c); [by exists None|].
  destruct (locked t); [by exists None|]. destruct created; eexists; (split; [done|]); intros s' [= <-].
  - apply unused_ok in Huc as (? & ? & _). apply unused_ok in Hua as (_ & _ & ?). by eapply exec_created.
  - by eapply exec_failed.
Qed.

Lemma pstep_ok s i x : pinv s -> orderly s (i, x) -> exists r, pstep i x s = Ok r /\ forall s', r = Some s' -> pinv s'.
Proof.
  intros Hi Ho. unfold pstep. unfold orderly in Ho. cbn [fst snd] in Ho. destruct (procs s !! i) as [t|] eqn:Ht; [|by exists None].
  destruct (ctl t) as [r|c a tid|a tid|a|tid|c|c| |c|c] eqn:Et; destruct x as [pages c' a' created|tid'|status| |fd|fd|success|]; try by exists None.
  - destruct Ho. by eapply execute_ok.
  - eexists. split; [done|]. intros s' [= <-]. by eapply (user_step s i t _ r).
  - eexists. split; [done|]. intros s' [= <-]. destruct Ho as (? & ? & ?). by eapply (user_step s i t _ r).
  - eexists. split; [done|]. intros s' [= <-]. destruct Ho as (? & ? & ?). by eapply (user_step s i t _ r).
  - eexists. split; [done|]. intros s' [= <-]. eapply (user_step s i t _ r); try done; cbn; by rewrite Et.
  - eexists. split; [done|]. intros s' [= <-]. eapply (user_step s i t _ r); try done; cbn; by rewrite Et.
  - destruct (enter_child_ok s i t c a tid Hi Ht Et) as (s' & -> & Hs). exists (Some s'). naive_solver.
  - by apply await_load_ok.
  - destruct (start_process_ok s i t a success Hi Ht Et) as (s' & -> & Hs). exists (Some s'). naive_solver.
  - destruct (wait_find_ok s i t tid Hi Ht Et) as (c & l & _ & _ & -> & Hs). eexists. split; [done|]. by intros s' [= <-].
  - by apply await_exit_ok.
  - destruct (collect_ok s i t c Hi Ht Et) as (s' & -> & Hs). exists (Some s'). naive_solver.
  - destruct (exit_find_ok s i t Hi Ht Et) as (r & -> & Hs & _). by exists r.
  - destruct (report_ok s i t c Hi Ht Et) as (s' & -> & Hs & _). exists (Some s'). naive_solver.
  - destruct (leave_ok s i t c Hi Ht Et) as (s' & -> & Hs & _). exists (Some s'). naive_solver.
Qed.

(** Orderly runs. *)
Inductive oruns : list (Z * choice) -> pstate -> pstate -> Prop :=
  | oruns_nil s : oruns [] s s
  | oruns_cons e l s1 s2 s3 : orderly s1 e -> pstep (fst e) (snd e) s1 = Ok (Some s2) -> oruns l s2 s3 -> oruns (e :: l) s1 s3.

Lemma oruns_inv l s s' : oruns l s s' -> pinv s -> pinv s'.
Proof.
  induction 1 as [s|[i x] l s1 s2 s3 Ho Hs _ IH]; [done|]. intros Hi. apply IH. destruct (pstep_ok s1 i x Hi Ho) as (r & Hr & Hinv).
  cbn [fst snd] in Hs. rewrite Hs in Hr. injection Hr as <-. by apply Hinv.
Qed.

Lemma boot_inv : pinv boot.
Proof.
  assert (forall i t, procs boot !! i = Some t -> i = 1 /\ t = mk_pthread 1 [] false false (-1) [] false (User 0)) as Hlook.
  { intros i t Ht. cbn [boot procs] in Ht. apply lookup_singleton_Some in Ht as [<- <-]. done. }
  split; try (intros i t [-> ->]%Hlook).
  - apply fam_alone; [|by apply Forall_nil|done]. intros j Hj. unfold kid. cbn [boot procs]. by rewrite lookup_singleton_ne.
  - split; [done|done|by apply NoDup_nil].
  - cbn [boot procs parent]. rewrite lookup_singleton_eq. by eexists.
  - cbn. lia.
  - by intros i j t u c [-> ->]%Hlook [-> ->]%Hlook.
  - by intros i j t u a [-> ->]%Hlook [-> ->]%Hlook.
  - done.
Qed.

(** C39. Programs that have one child at a time are safe: under every
    interleaving of any number of programs, each of which has at most one child
    running, waits for it by its identifier, and has closed its files before it
    exits, no step of [process_execute], [start_process], [process_wait] and
    [process_exit] uses memory that is freed or NULL, although these functions
    hand records from one thread to another without counting references. *)
Theorem one_child_no_fault l s e :
  oruns l boot s -> orderly s e -> exists r, pstep (fst e) (snd e) s = Ok r.
Proof.
  intros Hr Ho. destruct e as [i x]. cbn [fst snd]. destruct (pstep_ok s i x) as (r & -> & _); [by eapply oruns_inv, boot_inv|done|by exists r].
Qed.

(** ** What other threads leave alone *)

(** A thread, its records and the messages, as another thread goes on. *)
Record untouched s i t s' : Prop := {
  un_thread : procs s' !! i = Some t;
  un_rec c d : has_rec t c -> children s !! c = Some d -> exists d', children s' !! c = Some d' /\ pid_t d' = pid_t d;
  un_exited : exited s ⊆ exited s';
}.

Lemma untouched_same s i t s' : procs s' !! i = Some t -> children s' = children s -> exited s ⊆ exited s' -> untouched s i t s'.
Proof. intros Hp Hc He. split; [done| |done]. intros c d _ Hd. rewrite Hc. by exists d. Qed.

Lemma untouched_set s i t s' c x :
  procs s' !! i = Some t -> children s' = <[c := x]> (children s) -> exited s ⊆ exited s' ->
  (has_rec t c -> (pid_t <$> children s !! c) = Some (pid_t x)) -> untouched s i t s'.
Proof.
  intros Hp Hc He Hx. split; [done| |done]. intros e d Hr Hd. rewrite Hc. destruct (decide (e = c)) as [->|Hne].
  - exists x. rewrite lookup_insert_eq. split; [done|]. specialize (Hx Hr). rewrite Hd in Hx. by injection Hx as <-.
  - rewrite lookup_insert_ne by done. by exists d.
Qed.

Lemma untouched_del s i t s' c :
  procs s' !! i = Some t -> children s' = delete c (children s) -> exited s ⊆ exited s' -> ~ has_rec t c -> untouched s i t s'.
Proof.
  intros Hp Hc He Hx. split; [done| |done]. intros e d Hr Hd. rewrite Hc. rewrite lookup_delete_ne by (by intros ->). by exists d.
Qed.


Lemma other_step s k x s' i t :
  pinv s -> orderly s (k, x) -> pstep k x s = Ok (Some s') -> k <> i -> procs s !! i = Some t -> untouched s i t s'.
Proof.
  intros Hi Ho Hs Hk Ht. unfold pstep in Hs. destruct (procs s !! k) as [u|] eqn:Hu; [|done].
  assert (forall w, <[k := w]> (procs s) !! i = Some t) as Hput by (intros; by rewrite lookup_insert_ne).
  assert (forall w, s' = put k w s -> untouched s i t s') as Hsame by (intros w ->; by apply untouched_same; [apply Hput|..]).
  assert (forall c, has_rec u c -> ~ has_rec t c) as Hnot by (intros c Hc Hc'; apply Hk; by eapply (pi_rec s Hi)).
  destruct (ctl u) as [r|c a tid|a tid|a|tid|c|c| |c|c] eqn:Et; destruct x as [pages c' a' created|tid'|status| |fd|fd|success|]; try discriminate Hs;
    try (injection Hs as <-; by eapply Hsame).
  - unfold process_execute in Hs. destruct pages; [|injection Hs as <-; by eapply Hsame]. cbn [negb] in Hs.
    destruct (c' =? NULL); [injection Hs as <-; by eapply Hsame|]. destruct (unused s c') eqn:Hc; [|done]. apply unused_ok in Hc as (_ & Hc & _). cbn [negb] in Hs.
    destruct (a' =? NULL); [injection Hs as <-; by eapply Hsame|]. destruct (_ || _); [done|]. destruct (locked u); [done|].
    destruct created; injection Hs as <-; (eapply (untouched_set _ _ _ _ c'); [|done|done|]).
    1: { cbn. rewrite lookup_insert_ne; [apply Hput|]. pose proof (pi_tid s Hi i t Ht). lia. }
    2: apply Hput.
    all: intros Hr; by destruct (rec_not s i t c' Hi Ht Hc).
  - unfold enter_child in Hs. destruct (children s !! c) as [y|] eqn:Hy; [|done]. assert (~ has_rec t c) as Hc by (apply Hnot; right; eauto).
    destruct (_ =? _); injection Hs as <-; [by eapply untouched_del; [apply Hput|..]|]. by eapply (untouched_set _ _ _ _ c); [apply Hput|..].
  - unfold await_load in Hs. destruct (exec_args s !! a) as [y|]; [|done]. destruct (_ =? _); [done|]. injection Hs as <-. by apply untouched_same; [apply Hput|..].
  - unfold start_process in Hs. destruct (exec_args s !! a) as [y|]; [|done]. injection Hs as <-. by apply untouched_same; [apply Hput|..].
  - destruct (wait_find_ok s k u tid Hi Hu Et) as (c & l & _ & _ & E & _). rewrite E in Hs. injection Hs as <-. by eapply Hsame.
  - unfold await_exit in Hs. destruct (children s !! c) as [y|] eqn:Hy; [|done]. destruct (_ =? _); [done|]. injection Hs as <-.
    eapply (untouched_set _ _ _ _ c); [apply Hput|done|done|]. intros _. by rewrite Hy.
  - destruct (collecting_dead s k u c Hi Hu Et) as (_ & l & y & El & Hy & _). unfold collect in Hs. rewrite Hy in Hs. destruct (locked u); [done|].
    injection Hs as <-. eapply (untouched_del _ _ _ _ c); [apply Hput|done|done|]. apply Hnot. left. rewrite El. left.
  - destruct (exit_find_ok s k u Hi Hu Et) as (r & E & _ & Hr). rewrite E in Hs. injection Hs as ->. destruct (pi_parent s Hi k u Hu) as [p Hp].
    destruct (locked p) eqn:El.
    + unfold exit_find in E. destruct (close_all (open_fds u)); [|done]. cbn [mbind res_bind] in E. rewrite Hp, El in E.
      destruct (_ =? _); [|done]. injection E as <-. by eapply Hsame.
    + destruct (Hr p Hp El) as [c [= ->]]. by eapply Hsame.
  - unfold report in Hs. destruct (is_userprog u); [|injection Hs as <-; by eapply Hsame]. destruct (children s !! c) as [y|] eqn:Hy; [|done].
    injection Hs as <-. eapply (untouched_set _ _ _ _ c); [apply Hput|done|intros b Hb; by right|]. intros _. by rewrite Hy.
  - assert (delete k (procs s) !! i = Some t) as Hdel by (by rewrite lookup_delete_ne).
    unfold leave in Hs. destruct (_ =? _); [injection Hs as <-; by apply untouched_same|]. destruct (children s !! c) as [y|] eqn:Hy; [|done].
    injection Hs as <-. eapply (untouched_set _ _ _ _ c); [done|done|done|]. intros _. by rewrite Hy.
Qed.

(** ** What process_wait returns *)

(** Thread [i] has called [process_wait (tid)]. *)
Definition waiting s i tid : Prop :=
  exists t, procs s !! i = Some t /\
    match ctl t with
    | Finding k => k = tid
    | AwaitExit c | Collecting c => (pid_t <$> children s !! c) = Some tid
    | User r => (tid, r) ∈ exited s
    | _ => False
    end.

Lemma waiting_rec s i t c : pinv s -> procs s !! i = Some t -> ctl t = AwaitExit c \/ ctl t = Collecting c -> has_rec t c.
Proof.
  intros Hi Ht Hc. left. destruct (pi_fam s Hi i t Ht) as [Hn Hd Hal|j q d e x Hk Ec|j q d l x Hk El Hd Hl Hpt Hs Hw Hpa].
  - unfold alone in Hal. destruct Hc as [E|E]; rewrite E in Hal; destruct Hal as [l ->]; left.
  - destruct Hc as [E|E]; by rewrite E in Ec.
  - unfold parent_at in Hpa. destruct Hc as [E|E]; rewrite E in Hpa; [|done]. destruct Hpa as [-> _]. rewrite El. left.
Qed.

Lemma waiting_step s e s' i tid :
  pinv s -> orderly s e -> pstep (fst e) (snd e) s = Ok (Some s') -> (fst e = i -> snd e = Go) -> waiting s i tid -> waiting s' i tid.
Proof.
  destruct e as [k x]. cbn [fst snd]. intros Hi Ho Hs Hgo (t & Ht & Hw). destruct (decide (k = i)) as [->|Hk].
  - rewrite (Hgo eq_refl) in Hs. unfold pstep in Hs. rewrite Ht in Hs. destruct (ctl t) as [r|c a j|a j|a|j|c|c| |c|c] eqn:Et; try done.
    + destruct (wait_find_ok s i t j Hi Ht Et) as (c & l & _ & Hp & E & _). rewrite E in Hs. injection Hs as <-.
      eexists. split; [apply lookup_insert_eq|]. cbn. by rewrite Hp, Hw.
    + unfold await_exit in Hs. destruct (children s !! c) as [y|] eqn:Hy; [|done]. destruct (_ =? _); [done|]. injection Hs as <-.
      eexists. split; [apply lookup_insert_eq|]. cbn. by rewrite lookup_insert_eq.
    + destruct (collecting_dead s i t c Hi Ht Et) as (_ & l & y & El & Hy & He & _). unfold collect in Hs. rewrite Hy in Hs, Hw. destruct (locked t); [done|].
      injection Hs as <-. injection Hw as <-. eexists. split; [apply lookup_insert_eq|]. exact He.
  - destruct (other_step s k x s' i t Hi Ho Hs Hk Ht) as [Ht' Hr He]. exists t. split; [done|].
    assert (forall c, ctl t = AwaitExit c \/ ctl t = Collecting c -> (pid_t <$> children s !! c) = Some tid -> (pid_t <$> children s' !! c) = Some tid) as Hc.
    { intros c E Hp. destruct (children s !! c) as [d|] eqn:Hd; [|done]. destruct (Hr c d (waiting_rec s i t c Hi Ht E) Hd) as (d' & -> & E').
      cbn in *. by rewrite E'. }
    destruct (ctl t); try done; eauto.
Qed.

Lemma waiting_run l s s' i tid :
  oruns l s s' -> pinv s -> Forall (fun e => fst e = i -> snd e = Go) l -> waiting s i tid -> waiting s' i tid.
Proof.
  induction 1 as [s|e l s1 s2 s3 Ho Hs Hrest IH]; intros Hi Hl Hw; [done|]. apply Forall_cons in Hl as [He Hl].
  apply IH; [|done|by eapply waiting_step]. eapply (oruns_inv [e]); [|exact Hi]. by eapply oruns_cons, oruns_nil.
Qed.


(** ** It returns *)

Lemma go_step s i s' : pstep i Go s = Ok (Some s') -> oruns [(i, Go)] s s'.
Proof. intros Hs. eapply oruns_cons, oruns_nil; [|exact Hs]. unfold orderly. cbn. by case_match. Qed.

Lemma oruns_app l1 l2 s1 s2 s3 : oruns l1 s1 s2 -> oruns l2 s2 s3 -> oruns (l1 ++ l2) s1 s3.
Proof. induction 1; [done|]. intros Hr. econstructor; eauto. Qed.

(** [n] steps of [i] and of its child, after which [i] is back in its program. *)
Definition returns (n : nat) s i tid : Prop :=
  exists l s' t r, length l = n /\ Forall (fun e => (fst e = i \/ fst e = tid) /\ snd e = Go) l /\ oruns l s s' /\
    procs s' !! i = Some t /\ ctl t = User r /\ (tid, r) ∈ exited s'.

Lemma returns_later n s s' i tid k : pstep k Go s = Ok (Some s') -> k = i \/ k = tid -> returns n s' i tid -> returns (S n) s i tid.
Proof.
  intros Hs Hk (l & s2 & t & r & Hn & Hl & Hr & Hrest). exists ((k, Go) :: l), s2, t, r. split; [by cbn; rewrite Hn|].
  split; [by constructor|]. split; [|done]. by eapply (oruns_app [(k, Go)]), Hr; apply go_step.
Qed.

(** No child is left: the semaphore is up. *)
Lemma returns_dead s i t c tid :
  pinv s -> procs s !! i = Some t -> ctl t = AwaitExit c -> nokid s i -> (pid_t <$> children s !! c) = Some tid -> returns 2 s i tid.
Proof.
  intros Hi Ht Et Hn Hp. destruct (pi_fam s Hi i t Ht) as [_ Hd Hal|j q d e x Hk|j q d l x Hk]; [|by destruct (onekid_not s i j q)..].
  unfold alone in Hal. rewrite Et in Hal. destruct Hal as [l El]. rewrite El, Et in Hd. apply Forall_cons in Hd as [(x & Hx & Hs & _ & He) _].
  rewrite Hx in Hp. injection Hp as <-.
  assert (locked t = false) as Hl by (rewrite (oo_lock _ _ (pi_own s Hi i t Ht)); by rewrite Et).
  eapply returns_later; [unfold pstep; rewrite Ht, Et; unfold await_exit; rewrite Hx, Hs; reflexivity|by left|].
  eapply returns_later; [|by left|].
  - unfold pstep. cbn [put set_procs procs set_children]. rewrite lookup_insert_eq. cbn [with_ctl ctl]. unfold collect.
    cbn [with_ctl locked put set_procs set_children children]. rewrite Hl, lookup_insert_eq. reflexivity.
  - eexists [], _, _, _. split; [done|]. split; [done|]. split; [constructor|]. cbn [put set_procs procs]. rewrite lookup_insert_eq. done.
Qed.

(** One step of the child. *)
Lemma returns_child n s i t c tid u s' :
  pinv s -> procs s !! i = Some t -> ctl t = AwaitExit c -> (pid_t <$> children s !! c) = Some tid -> tid <> i ->
  procs s !! tid = Some u -> pstep tid Go s = Ok (Some s') ->
  (pinv s' -> procs s' !! i = Some t -> (pid_t <$> children s' !! c) = Some tid -> returns n s' i tid) -> returns (S n) s i tid.
Proof.
  intros Hi Ht Et Hp Hne Hu Hs Hret. eapply returns_later; [exact Hs|by right|]. assert (orderly s (tid, Go)) as Ho by (unfold orderly; cbn; by rewrite Hu).
  destruct (pstep_ok s tid Go Hi Ho) as (r & Hr & Hi'). rewrite Hs in Hr. injection Hr as <-.
  destruct (other_step s tid Go s' i t Hi Ho Hs Hne Ht) as [Ht' Hrec _]. apply Hret; [by apply Hi'|done|].
  destruct (children s !! c) as [d|] eqn:Hd; [|done]. destruct (Hrec c d) as (d' & -> & E); [by eapply waiting_rec; [..|left]|done|]. cbn in *. by rewrite E.
Qed.

Lemma nokid_leaves s s' i tid q : onekid s i tid q -> procs s' = delete tid (procs s) -> nokid s' i.
Proof.
  intros (_ & _ & Ho) Ep j Hj. unfold kid. rewrite Ep. destruct (decide (j = tid)) as [->|Hne]; [by rewrite lookup_delete_eq|].
  rewrite lookup_delete_ne by done. by apply (Ho j).
Qed.

(** The child is on its way out. *)
Lemma returns_leaving s i t c tid u d :
  pinv s -> procs s !! i = Some t -> ctl t = AwaitExit c -> (pid_t <$> children s !! c) = Some tid ->
  onekid s i tid (seen u) -> procs s !! tid = Some u -> ctl u = Leaving d -> returns 3 s i tid.
Proof.
  intros Hi Ht Et Hp Hk Hu Eu. destruct (leave_ok s tid u d Hi Hu Eu) as (s' & Hs & _ & Ep).
  eapply (returns_child 2 s i t c tid u s'); try done; [apply Hk|by unfold pstep; rewrite Hu, Eu|]. intros Hi' Ht' Hp'.
  by eapply returns_dead, Hp'; [..|eapply nokid_leaves].
Qed.

Lemma returns_reporting s i t c tid u d :
  pinv s -> procs s !! i = Some t -> ctl t = AwaitExit c -> (pid_t <$> children s !! c) = Some tid ->
  onekid s i tid (seen u) -> parent u = i -> procs s !! tid = Some u -> ctl u = Reporting d -> returns 4 s i tid.
Proof.
  intros Hi Ht Et Hp Hk Hpar Hu Eu. destruct (report_ok s tid u d Hi Hu Eu) as (s' & Hs & _ & Ep).
  eapply (returns_child 3 s i t c tid u s'); try done; [apply Hk|by unfold pstep; rewrite Hu, Eu|]. intros Hi' Ht' Hp'.
  eapply (returns_leaving s' i t c tid (with_ctl (Leaving d) u) d); try done; [by eapply onekid_upd|by rewrite Ep, lookup_insert_eq].
Qed.

Lemma returns_exiting s i t c tid u :
  pinv s -> procs s !! i = Some t -> ctl t = AwaitExit c -> (pid_t <$> children s !! c) = Some tid ->
  onekid s i tid (seen u) -> parent u = i -> procs s !! tid = Some u -> ctl u = Exiting -> returns 5 s i tid.
Proof.
  intros Hi Ht Et Hp Hk Hpar Hu Eu. destruct (exit_find_ok s tid u Hi Hu Eu) as (r & Hs & _ & Hr). rewrite Hpar in Hr.
  destruct (Hr t Ht) as [d ->]; [rewrite (oo_lock _ _ (pi_own s Hi i t Ht)); by rewrite Et|].
  eapply (returns_child 4 s i t c tid u); try done; [apply Hk|unfold pstep; by rewrite Hu, Eu|]. intros Hi' Ht' Hp'.
  eapply (returns_reporting _ i t c tid (with_ctl (Reporting d) u) d); try done; [by eapply onekid_upd|by cbn; rewrite lookup_insert_eq].
Qed.

(** A thread in [process_exit]. *)
Definition in_exit u : Prop := match ctl u with Exiting | Reporting _ | Leaving _ => True | _ => False end.


(** ** Two children at once *)

(** Thread 1 starts programs 3 and 4; 3 exits with [a], then 4 with [b]; thread
    1 waits for 3. *)
Definition two_children (x y : Z) : list (Z * choice) :=
  [(1, Exec true 100 200 true); (1, Go); (3, Load true); (1, Go); (1, Exec true 101 201 true); (1, Go); (4, Load true); (1, Go);
   (3, Exit x); (3, Go); (3, Go); (3, Go); (4, Exit y); (4, Go); (4, Go); (4, Go); (1, Wait 3); (1, Go); (1, Go); (1, Go)].

(** C40. With two children [process_wait] is wrong: the assignment in
    [find_child] makes both of them report to the record of the second.  When
    child 3 has exited with [x] and then child 4 with [y], waiting for 3 returns
    [y], and waiting for 4 never returns: no thread can ever take a step again,
    although both children exited long ago. *)
Theorem two_children_confused x y :
  exists s1 s2, prun (two_children x y) boot = Ok (Some s1) /\ exited s1 = [(4, y); (3, x)] /\ (ctl <$> procs s1 !! 1) = Some (User y) /\
    prun [(1, Wait 4); (1, Go)] s1 = Ok (Some s2) /\ forall i e, pstep i e s2 = Ok None.
Proof.
  eexists _, _. split; [vm_compute; reflexivity|]. split; [reflexivity|]. split; [reflexivity|]. split; [vm_compute; reflexivity|].
  intros i e. unfold pstep. match goal with |- context [procs ?s !! i] => set (s2 := s) end.
  destruct (decide (i = 1)) as [->|Hne]; [by destruct e|].
  assert (procs s2 !! i = None) as ->; [|done]. change (procs s2) with ({[1 := default (new_thread 0 0) (procs s2 !! 1)]} : gmap Z pthread).
  by rewrite lookup_singleton_ne.
Qed.

(** ** Runs that keep to the rules *)

Definition nokid_b s i : bool := forallb (fun '(j, u) => (j =? i) || negb (parent u =? i)) (map_to_list (procs s)).
Lemma nokid_b_ok s i : nokid_b s i = true -> nokid s i.
Proof.
  unfold nokid_b, nokid, kid. rewrite forallb_forall. intros Hb j Hj. destruct (procs s !! j) as [u|] eqn:Hu; [|done].
  specialize (Hb (j, u)). cbn in Hb. rewrite <- list_elem_of_In, elem_of_map_to_list in Hb. specialize (Hb Hu).
  rewrite (proj2 (Z.eqb_neq j i)) in Hb by done. by destruct (parent u =? i).
Qed.

Definition orderly_b s (e : Z * choice) : bool :=
  match procs s !! fst e with
  | None => true
  | Some t =>
      match snd e with
      | Exec pages c a _ => nokid_b s (fst e) && negb (c =? NULL) && negb (a =? NULL)
      | Wait tid => match childs t with c :: _ => match children s !! c with Some x => pid_t x =? tid | None => false end | [] => false end
      | Exit _ | Kill => nokid_b s (fst e) && negb (parent t =? fst e) && match open_fds t with [] => true | _ => false end
      | _ => true
      end
  end.
Lemma orderly_b_ok s e : orderly_b s e = true -> orderly s e.
Proof.
  unfold orderly_b, orderly. destruct (procs s !! fst e) as [t|]; [|done].
  assert (nokid_b s (fst e) && negb (parent t =? fst e) && match open_fds t with [] => true | _ => false end = true -> may_end s (fst e) t) as Hend.
  { intros [[Hn Hp]%andb_true_iff Ho]%andb_true_iff. split; [by apply nokid_b_ok|]. split; [|by destruct (open_fds t)].
    intros E. by rewrite E, Z.eqb_refl in Hp. }
  destruct (snd e) as [pages c a created|tid|status| |fd|fd|b|]; try done.
  - intros [[Hn Hc]%andb_true_iff Ha]%andb_true_iff. split; [by apply nokid_b_ok|]. intros _ [-> | ->]; by rewrite Z.eqb_refl in *.
  - destruct (childs t) as [|c l]; [done|]. destruct (children s !! c) as [x|] eqn:Hx; [|done]. intros E%Z.eqb_eq. by exists c, l, x.
Qed.

Fixpoint orun (l : list (Z * choice)) s : option pstate :=
  match l with
  | [] => Some s
  | e :: l => if orderly_b s e then match pstep (fst e) (snd e) s with Ok (Some s') => orun l s' | _ => None end else None
  end.
Lemma orun_ok l : forall s s', orun l s = Some s' -> oruns l s s'.
Proof.
  induction l as [|e l IH]; intros s s' Hr; cbn [orun] in Hr; [injection Hr as <-; constructor|].
  destruct (orderly_b s e) eqn:Ho; [|done]. destruct (pstep (fst e) (snd e) s) as [[s2|]|] eqn:Hs; [|done..].
  econstructor; [by apply orderly_b_ok|exact Hs|by apply IH].
Qed.

(** One child, started by thread 1, that exits with 42 while it is waited for. *)
Definition demo_start : list (Z * choice) := [(1, Exec true 100 200 true); (1, Go); (3, Load true); (1, Go)].
Definition demo_end : list (Z * choice) := [(1, Go); (3, Exit 42); (3, Go); (3, Go); (3, Go); (1, Go); (1, Go)].
Definition after (l : list (Z * choice)) s : pstate := default boot (orun l s).

Example demo_waits : (ctl <$> procs (after demo_end (after [(1, Wait 3)] (after demo_start boot))) !! 1) = Some (User 42).
Proof. vm_compute. reflexivity. Qed.

Lemma one_child_no_fault_witness : exists r, pstep 1 (Wait 3) (after demo_start boot) = Ok r.
Proof.
  apply (one_child_no_fault demo_start (after demo_start boot) (1, Wait 3)).
  - apply orun_ok. vm_compute. reflexivity.
  - apply orderly_b_ok. vm_compute. reflexivity.
Defined.



