(* ===== verification/Stdio.v ===== *)
(** * Formatted output: lib/stdio.c

    [__vprintf] interprets a format string; what it prints goes to a callback
    [output] that changes a state of its own, as the C code's [output] and
    [aux] do.  A format is the sequence of its characters with the null
    terminator, so that reading past the terminator is a [BadAccess].  The
    variable arguments are the 32-bit words the caller pushed: a [long long]
    takes two of them, low word first.  Strings the arguments point to are in
    the memory [strings], which printing does not change. *)

From Stdlib Require Import Ascii.
From stdpp Require Import strings.
From S2P Require Import Prelude Ctype Mem Vaddr Str.

(** Characters and strings as C has them. *)
Definition ch (c : Ascii.ascii) : Z := Z.of_N (Ascii.N_of_ascii c).
Arguments ch c%_char_scope.
Definition chars (s : string) : list Z := ch <$> String.list_ascii_of_string s.
Definition c_str (s : string) : list Z := chars s ++ [0].

(** ** Conversions *)

Definition MINUS : Z := Z.shiftl 1 0.
Definition PLUS : Z := Z.shiftl 1 1.
Definition SPACE : Z := Z.shiftl 1 2.
Definition POUND : Z := Z.shiftl 1 3.
Definition ZERO : Z := Z.shiftl 1 4.
Definition GROUP : Z := Z.shiftl 1 5.

Inductive ctype : Type := CHAR | SHORT | INT | INTMAX | LONG | LONGLONG | PTRDIFFT | SIZET.
#[global] Instance ctype_eq_dec : EqDecision ctype.
Proof. solve_decision. Defined.

Record printf_conversion : Type := mk_conv { flags : Z; width : Z; precision : Z; type : ctype }.

Definition flag (f : Z) (b : Z) : bool := negb (Z.land f b =? 0).

Record integer_base : Type := mk_base { base : Z; digits : list Z; x_char : Z; group : Z }.
Definition base_d : integer_base := mk_base 10 (chars "0123456789") 0 3.
Definition base_o : integer_base := mk_base 8 (chars "01234567") 0 3.
Definition base_x : integer_base := mk_base 16 (chars "0123456789abcdef") (ch "x") 4.
Definition base_X : integer_base := mk_base 16 (chars "0123456789ABCDEF") (ch "X") 4.

(** The variable arguments. *)
Abbreviation va_list := (list Z).

Definition va_word (args : va_list) : res (Z * va_list) :=
  match args with w :: args => Ok (u32 w, args) | [] => Fail BadAccess end.
Definition va_long_long (args : va_list) : res (Z * va_list) :=
  '(lo, args) ← va_word args;
  '(hi, args) ← va_word args;
  Ok (lo + 2 ^ 32 * hi, args).

Definition s8 (z : Z) : Z := (z + 2 ^ 7) mod 2 ^ 8 - 2 ^ 7.
Definition s16 (z : Z) : Z := (z + 2 ^ 15) mod 2 ^ 16 - 2 ^ 15.

(** ** parse_conversion *)

Definition peek (format : list Z) : res Z :=
  match format with c :: _ => Ok c | [] => Fail BadAccess end.

Fixpoint parse_flags (format : list Z) (flags : Z) : res (list Z * Z) :=
  match format with
  | [] => Fail BadAccess
  | c :: rest =>
      if c =? ch "-" then parse_flags rest (Z.lor flags MINUS)
      else if c =? ch "+" then parse_flags rest (Z.lor flags PLUS)
      else if c =? ch " " then parse_flags rest (Z.lor flags SPACE)
      else if c =? ch "#" then parse_flags rest (Z.lor flags POUND)
      else if c =? ch "0" then parse_flags rest (Z.lor flags ZERO)
      else if c =? ch "'" then parse_flags rest (Z.lor flags GROUP)
      else Ok (format, flags)
  end.

(** [for (; isdigit (c); format++)]. *)
Fixpoint parse_digits (format : list Z) (value : Z) : res (list Z * Z) :=
  match format with
  | [] => Fail BadAccess
  | c :: rest =>
      if isdigit c then parse_digits rest (s32 (value * 10 + c - ch "0")) else Ok (format, value)
  end.

(** A field width or precision: an argument when the format has a star. *)
Definition parse_number (format : list Z) (args : va_list) : res (list Z * Z * va_list) :=
  c ← peek format;
  if c =? ch "*" then
    '(w, args) ← va_word args;
    Ok (drop 1 format, s32 w, args)
  else
    '(format, v) ← parse_digits format 0;
    Ok (format, v, args).

Definition parse_type (format : list Z) : res (list Z * ctype) :=
  c ← peek format;
  let rest := drop 1 format in
  if c =? ch "h" then
    d ← peek rest;
    Ok (if d =? ch "h" then (drop 1 rest, CHAR) else (rest, SHORT))
  else if c =? ch "j" then Ok (rest, INTMAX)
  else if c =? ch "l" then
    d ← peek rest;
    Ok (if d =? ch "l" then (drop 1 rest, LONGLONG) else (rest, LONG))
  else if c =? ch "t" then Ok (rest, PTRDIFFT)
  else if c =? ch "z" then Ok (rest, SIZET)
  else Ok (format, INT).

Definition clear_flag (flags b : Z) : Z := Z.land flags (Z.lnot b).

Definition parse_conversion (format : list Z) (args : va_list) : res (list Z * printf_conversion * va_list) :=
  '(format, flags) ← parse_flags format 0;
  let flags := if flag flags MINUS then clear_flag flags ZERO else flags in
  let flags := if flag flags PLUS then clear_flag flags SPACE else flags in
  '(format, width, args) ← parse_number format args;
  let '(width, flags) := if width <? 0 then (s32 (- width), Z.lor flags MINUS) else (width, flags) in
  c ← peek format;
  '(format, precision, args) ← (
    if c =? ch "." then
      '(format, precision, args) ← parse_number (drop 1 format) args;
      Ok (format, if precision <? 0 then -1 else precision, args)
    else Ok (format, -1, args));
  let flags := if 0 <=? precision then clear_flag flags ZERO else flags in
  '(format, type) ← parse_type format;
  Ok (format, mk_conv flags width precision type, args).

(** ** Output *)

Section output.
Context {S : Type} (output : Z -> M S unit) (strings : mem) (sfuel : nat).

Fixpoint output_dup_loop (c : Z) (cnt : nat) : M S unit :=
  match cnt with O => mret tt | Datatypes.S cnt => output c ;; output_dup_loop c cnt end.
Definition output_dup (c cnt : Z) : M S unit := output_dup_loop c (Z.to_nat cnt).

(** [char buf[64]], filled from the front; the list has the last character
    first. *)
Definition push (c : Z) (buf : list Z) : res (list Z) :=
  if Z.of_nat (length buf) <? 64 then Ok (c :: buf) else Fail BadAccess.

(** [while (value > 0)]. *)
Fixpoint digits_loop (fuel : nat) (b : integer_base) (flags value digit_cnt : Z) (buf : list Z) : res (list Z) :=
  match fuel with
  | O => Fail NoFuel
  | Datatypes.S fuel =>
      if 0 <? value then
        buf ← (if flag flags GROUP && (0 <? digit_cnt) && (digit_cnt mod group b =? 0)
               then push (ch ",") buf else Ok buf);
        d ← arr_get (digits b) (value mod base b);
        buf ← push d buf;
        digits_loop fuel b flags (value / base b) (digit_cnt + 1) buf
      else Ok buf
  end.

(** [while (cp - buf < precision && cp < buf + sizeof buf - 1)]. *)
Fixpoint zeros_loop (fuel : nat) (precision : Z) (buf : list Z) : res (list Z) :=
  match fuel with
  | O => Fail NoFuel
  | Datatypes.S fuel =>
      if (Z.of_nat (length buf) <? precision) && (Z.of_nat (length buf) <? 63) then
        buf ← push (ch "0") buf; zeros_loop fuel precision buf
      else Ok buf
  end.

(** [while (cp > buf)]: the buffer from its end. *)
Fixpoint output_all (buf : list Z) : M S unit :=
  match buf with [] => mret tt | c :: buf => output c ;; output_all buf end.

(** The sign character, 0 when there is none. *)
Definition sign_char (flags : Z) (is_signed negative : bool) : Z :=
  if is_signed then
    if flag flags PLUS then if negative then ch "-" else ch "+"
    else if flag flags SPACE then if negative then ch "-" else ch " "
    else if negative then ch "-" else 0
  else 0.

(** The digits, least significant first, with separators and zeros. *)
Definition accumulate (value : Z) (b : integer_base) (c : printf_conversion) : res (list Z) :=
  buf ← digits_loop 66 b (flags c) value 0 [];
  buf ← zeros_loop 66 (if precision c <? 0 then 1 else precision c) buf;
  if flag (flags c) POUND && (base b =? 8) &&
     match buf with [] => true | d :: _ => negb (d =? ch "0") end
  then push (ch "0") buf else Ok buf.

Definition format_integer (value : Z) (is_signed negative : bool) (b : integer_base) (c : printf_conversion) : M S unit :=
  let sign := sign_char (flags c) is_signed negative in
  let x := if flag (flags c) POUND && negb (value =? 0) then x_char b else 0 in
  buf ← liftM (accumulate value b c);
  let pad_cnt := s32 (width c - Z.of_nat (length buf) - (if x =? 0 then 0 else 2) - (if sign =? 0 then 0 else 1)) in
  let pad_cnt := if pad_cnt <? 0 then 0 else pad_cnt in
  (if Z.land (flags c) (Z.lor MINUS ZERO) =? 0 then output_dup (ch " ") pad_cnt else mret tt) ;;
  (if sign =? 0 then mret tt else output sign) ;;
  (if x =? 0 then mret tt else output (ch "0") ;; output x) ;;
  (if flag (flags c) ZERO then output_dup (ch "0") pad_cnt else mret tt) ;;
  output_all buf ;;
  (if flag (flags c) MINUS then output_dup (ch " ") pad_cnt else mret tt).

(** [n] characters of a string from index [i] on. *)
Fixpoint output_string (string : Z -> res Z) (n : nat) (i : Z) : M S unit :=
  match n with
  | O => mret tt
  | Datatypes.S n => c ← liftM (string i); output c ;; output_string string n (i + 1)
  end.

Definition format_string (string : Z -> res Z) (length : Z) (c : printf_conversion) : M S unit :=
  (if (length <? width c) && negb (flag (flags c) MINUS) then output_dup (ch " ") (width c - length) else mret tt) ;;
  output_string string (Z.to_nat length) 0 ;;
  (if (length <? width c) && flag (flags c) MINUS then output_dup (ch " ") (width c - length) else mret tt).

(** ** __vprintf *)

Definition signed_arg (t : ctype) (args : va_list) : res (Z * va_list) :=
  match t with
  | CHAR => '(w, args) ← va_word args; Ok (s8 w, args)
  | SHORT => '(w, args) ← va_word args; Ok (s16 w, args)
  | INT | LONG | PTRDIFFT => '(w, args) ← va_word args; Ok (s32 w, args)
  | INTMAX | LONGLONG => '(w, args) ← va_long_long args; Ok (s64 w, args)
  | SIZET =>
      '(w, args) ← va_word args;
      Ok (if (2 ^ 32 - 1) / 2 <? w then w - (2 ^ 32 - 1) - 1 else w, args)
  end.

Definition unsigned_arg (t : ctype) (args : va_list) : res (Z * va_list) :=
  match t with
  | CHAR => '(w, args) ← va_word args; Ok (u8 w, args)
  | SHORT => '(w, args) ← va_word args; Ok (u16 w, args)
  | INT | LONG | SIZET => va_word args
  | INTMAX | LONGLONG => va_long_long args
  | PTRDIFFT =>
      '(w, args) ← va_word args;
      Ok (Z.land (u64 (s32 w)) (Z.lor (Z.shiftl (2 ^ 31 - 1) 1) 1), args)
  end.

Definition null_string : list Z := c_str "(null)".

(** [%s]: [strnlen], then the characters. *)
Definition format_pointer (s : Z) (c : printf_conversion) : M S unit :=
  if s =? NULL then
    let n := Z.min 6 (u32 (precision c)) in
    format_string (arr_get null_string) n c
  else
    n ← liftM (strnlen sfuel strings s (u32 (precision c)));
    format_string (fun i => load strings (s + i)) (s32 n) c.

Definition no_in_kernel : list Z := c_str "<<no %%%c in kernel>>".
Definition no_conversion : list Z := c_str "<<no %%%c conversion>>".

Fixpoint __vprintf (fuel : nat) (format : list Z) (args : va_list) : M S unit :=
  match fuel with
  | O => fail NoFuel
  | Datatypes.S fuel =>
      c ← liftM (peek format);
      if c =? 0 then mret tt
      else if negb (c =? ch "%") then output c ;; __vprintf fuel (drop 1 format) args
      else
        let format := drop 1 format in
        c ← liftM (peek format);
        if c =? ch "%" then output (ch "%") ;; __vprintf fuel (drop 1 format) args
        else
          '(format, cv, args) ← liftM (parse_conversion format args);
          k ← liftM (peek format);
          if (k =? ch "d") || (k =? ch "i") then
            '(value, args) ← liftM (signed_arg (type cv) args);
            format_integer (if value <? 0 then u64 (- value) else value) true (value <? 0) base_d cv ;;
            __vprintf fuel (drop 1 format) args
          else if (k =? ch "o") || (k =? ch "u") || (k =? ch "x") || (k =? ch "X") then
            '(value, args) ← liftM (unsigned_arg (type cv) args);
            let b := if k =? ch "o" then base_o else if k =? ch "u" then base_d
                     else if k =? ch "x" then base_x else base_X in
            format_integer value false false b cv ;;
            __vprintf fuel (drop 1 format) args
          else if k =? ch "c" then
            '(w, args) ← liftM (va_word args);
            format_string (fun _ => Ok (u8 w)) 1 cv ;;
            __vprintf fuel (drop 1 format) args
          else if k =? ch "s" then
            '(s, args) ← liftM (va_word args);
            format_pointer s cv ;;
            __vprintf fuel (drop 1 format) args
          else if k =? ch "p" then
            '(p, args) ← liftM (va_word args);
            format_integer p false false base_x (mk_conv POUND (width cv) (precision cv) (type cv)) ;;
            __vprintf fuel (drop 1 format) args
          else if (k =? ch "f") || (k =? ch "e") || (k =? ch "E") || (k =? ch "g") || (k =? ch "G") || (k =? ch "n") then
            __vprintf fuel no_in_kernel [k] ;;
            __vprintf fuel (drop 1 format) args
          else
            __vprintf fuel no_conversion [k] ;;
            __vprintf fuel (drop 1 format) args
  end.

(** Wrapper that gives enough fuel for the format. *)
Definition __printf (format : list Z) (args : va_list) : M S unit :=
  __vprintf (length format + 30) format args.
End output.

(** ** vsnprintf *)

Record vsnprintf_aux : Type := mk_aux { aux_mem : mem; aux_p : Z; aux_length : Z; max_length : Z }.

Definition vsnprintf_helper (c : Z) : M vsnprintf_aux unit := fun aux =>
  if aux_length aux <? max_length aux then
    m ← store (aux_mem aux) (aux_p aux) c;
    Ok (tt, mk_aux m (aux_p aux + 1) (s32 (aux_length aux + 1)) (max_length aux))
  else Ok (tt, mk_aux (aux_mem aux) (aux_p aux) (s32 (aux_length aux + 1)) (max_length aux)).

(** Strings are read from [m], as it is before the buffer is written. *)
Definition vsnprintf (sfuel : nat) (m : mem) (buffer buf_size : Z) (format : list Z) (args : va_list) : res (mem * Z) :=
  let aux := mk_aux m buffer 0 (if 0 <? buf_size then s32 (buf_size - 1) else 0) in
  '(_, aux) ← __printf vsnprintf_helper m sfuel format args aux;
  if 0 <? buf_size then
    m ← store (aux_mem aux) (aux_p aux) 0;
    Ok (m, aux_length aux)
  else Ok (aux_mem aux, aux_length aux).

Definition snprintf := vsnprintf.
