(* ===== verification/StdioSpec.v ===== *)
(** * What printf prints

    [printf_text] is the text of a format and its arguments; the theorems say
    that every output callback receives exactly that text, that integers are
    rendered within the 64-byte buffer and denote their value, that vsnprintf
    stays within its buffer, and that [atoi] reads back what [%d] prints. *)

From Stdlib Require Import Ascii.
From stdpp Require Import strings.
From S2P Require Import Prelude Ctype Mem Vaddr Sort Str Stdio.

(** ** The text of a conversion *)

Definition repeat_char (c n : Z) : list Z := replicate (Z.to_nat n) c.

Definition int_layout (value : Z) (is_signed negative : bool) (b : integer_base) (c : printf_conversion) (buf : list Z) : list Z :=
  let sign := sign_char (flags c) is_signed negative in
  let x := if flag (flags c) POUND && negb (value =? 0) then x_char b else 0 in
  let pad := Z.max 0 (s32 (width c - Z.of_nat (length buf) - (if x =? 0 then 0 else 2) - (if sign =? 0 then 0 else 1))) in
  (if Z.land (flags c) (Z.lor MINUS ZERO) =? 0 then repeat_char (ch " ") pad else []) ++
  (if sign =? 0 then [] else [sign]) ++ (if x =? 0 then [] else [ch "0"; x]) ++
  (if flag (flags c) ZERO then repeat_char (ch "0") pad else []) ++ buf ++
  (if flag (flags c) MINUS then repeat_char (ch " ") pad else []).

Definition int_text (value : Z) (is_signed negative : bool) (b : integer_base) (c : printf_conversion) : res (list Z) :=
  buf ← accumulate value b c; Ok (int_layout value is_signed negative b c buf).

Fixpoint read_chars (string : Z -> res Z) (n : nat) (i : Z) : res (list Z) :=
  match n with
  | O => Ok []
  | S n => c ← string i; l ← read_chars string n (i + 1); Ok (c :: l)
  end.

Definition str_text (string : Z -> res Z) (length : Z) (c : printf_conversion) : res (list Z) :=
  l ← read_chars string (Z.to_nat length) 0;
  let pad := if length <? width c then repeat_char (ch " ") (width c - length) else [] in
  Ok (if flag (flags c) MINUS then l ++ pad else pad ++ l).

Section text.
Context (strings : mem) (sfuel : nat).

Definition pointer_text (s : Z) (c : printf_conversion) : res (list Z) :=
  if s =? NULL then str_text (arr_get null_string) (Z.min 6 (u32 (precision c))) c
  else n ← strnlen sfuel strings s (u32 (precision c)); str_text (fun i => load strings (s + i)) (s32 n) c.

(** One conversion: its text and the arguments left. *)
Definition conversion_text (k : Z) (cv : printf_conversion) (args : va_list) (bad : list Z -> res (list Z)) : res (list Z * va_list) :=
  if (k =? ch "d") || (k =? ch "i") then
    '(value, args) ← signed_arg (type cv) args;
    t ← int_text (if value <? 0 then u64 (- value) else value) true (value <? 0) base_d cv; Ok (t, args)
  else if (k =? ch "o") || (k =? ch "u") || (k =? ch "x") || (k =? ch "X") then
    '(value, args) ← unsigned_arg (type cv) args;
    let b := if k =? ch "o" then base_o else if k =? ch "u" then base_d
             else if k =? ch "x" then base_x else base_X in
    t ← int_text value false false b cv; Ok (t, args)
  else if k =? ch "c" then '(w, args) ← va_word args; t ← str_text (fun _ => Ok (u8 w)) 1 cv; Ok (t, args)
  else if k =? ch "s" then '(s, args) ← va_word args; t ← pointer_text s cv; Ok (t, args)
  else if k =? ch "p" then
    '(p, args) ← va_word args;
    t ← int_text p false false base_x (mk_conv POUND (width cv) (precision cv) (type cv)); Ok (t, args)
  else if (k =? ch "f") || (k =? ch "e") || (k =? ch "E") || (k =? ch "g") || (k =? ch "G") || (k =? ch "n")
  then t ← bad no_in_kernel; Ok (t, args)
  else t ← bad no_conversion; Ok (t, args).

Fixpoint vprintf_text (fuel : nat) (format : list Z) (args : va_list) : res (list Z) :=
  match fuel with
  | O => Fail NoFuel
  | S fuel =>
      c ← peek format;
      if c =? 0 then Ok []
      else if negb (c =? ch "%") then t ← vprintf_text fuel (drop 1 format) args; Ok (c :: t)
      else
        c ← peek (drop 1 format);
        if c =? ch "%" then t ← vprintf_text fuel (drop 1 (drop 1 format)) args; Ok (c :: t)
        else
          '(format, cv, args) ← parse_conversion (drop 1 format) args;
          k ← peek format;
          '(t, args) ← conversion_text k cv args (fun msg => vprintf_text fuel msg [k]);
          t' ← vprintf_text fuel (drop 1 format) args; Ok (t ++ t')
  end.

Definition printf_text (format : list Z) (args : va_list) : res (list Z) :=
  vprintf_text (length format + 30) format args.
End text.

(** ** Every callback receives the text *)

Section emit.
Context {S : Type} (output : Z -> M S unit) (strings : mem) (sfuel : nat).
Abbreviation emit := (output_all output).

Lemma emit_app l1 l2 s : emit (l1 ++ l2) s = (emit l1 ;; emit l2) s.
Proof.
  revert s. induction l1 as [|c l1 IH]; intros s; [done|]. cbn [app output_all]. unfold mbind, M_bind in *.
  destruct (output c s) as [[[] s1]|e]; [|done]. apply IH.
Qed.

Lemma emit_one c s : emit [c] s = output c s.
Proof. cbn [output_all]. unfold mbind, M_bind. by destruct (output c s) as [[[] s1]|e]. Qed.

Lemma dup_emit c n s : output_dup output c n s = emit (repeat_char c n) s.
Proof.
  unfold output_dup, repeat_char. revert s. induction (Z.to_nat n) as [|k IH]; intros s; [done|]. cbn.
  unfold mbind, M_bind. destruct (output c s) as [[[] s1]|e]; [|done]. apply IH.
Qed.

(** Two computations in a row, each printing a text. *)
Lemma emit_bind (m1 m2 : M S unit) l1 l2 s :
  (forall s, m1 s = emit l1 s) -> (forall s, m2 s = emit l2 s) -> (m1 ;; m2) s = emit (l1 ++ l2) s.
Proof.
  intros H1 H2. rewrite emit_app. unfold mbind, M_bind. rewrite H1. destruct (emit l1 s) as [[[] s1]|e]; [|done]. apply H2.
Qed.

Lemma format_integer_emit value sg neg b c buf s :
  accumulate value b c = Ok buf -> format_integer output value sg neg b c s = emit (int_layout value sg neg b c buf) s.
Proof.
  intros Ha. unfold format_integer. rewrite Ha. unfold liftM. unfold mbind at 1, M_bind at 1. unfold int_layout.
  set (sign := sign_char _ _ _). set (x := if flag (flags c) POUND && _ then _ else _).
  set (p := s32 _). assert ((if p <? 0 then 0 else p) = Z.max 0 p) as -> by (destruct (Z.ltb_spec p 0); lia).
  set (pad := Z.max 0 p). clearbody pad. clear p. clearbody x sign.
  apply emit_bind; [intros t; destruct (_ =? 0); [apply dup_emit|done]|intros t].
  apply emit_bind; [intros u; destruct (_ =? 0); [done|by rewrite emit_one]|intros u].
  apply emit_bind; [intros v; destruct (_ =? 0); [done|]|intros v].
  { apply (emit_bind _ _ [ch "0"] [x]); intros w; by rewrite emit_one. }
  apply emit_bind; [intros w; destruct (flag _ _); [apply dup_emit|done]|intros w].
  apply emit_bind; [done|intros y]. destruct (flag _ _); [apply dup_emit|done].
Qed.

Lemma output_string_emit string n i l s :
  read_chars string n i = Ok l -> output_string output string n i s = emit l s.
Proof.
  revert i l s. induction n as [|n IH]; intros i l s H; cbn [read_chars output_string] in *; [by injection H as <-|].
  apply bind_Ok in H as (c & Hc & H). apply bind_Ok in H as (l' & Hl & H). injection H as <-.
  rewrite Hc. erewrite bindM_step by reflexivity. cbn [output_all]. unfold mbind, M_bind.
  destruct (output c s) as [[[] s1]|e]; [|done]. by apply IH.
Qed.

Lemma format_string_emit string n c l s :
  str_text string n c = Ok l -> format_string output string n c s = emit l s.
Proof.
  unfold str_text. intros H. apply bind_Ok in H as (t & Ht & H). injection H as <-. unfold format_string.
  pose proof (fun s => output_string_emit string (Z.to_nat n) 0 t s Ht) as Hs.
  destruct (n <? width c); cbn [andb]; destruct (flag (flags c) MINUS); cbn [negb].
  - replace (t ++ repeat_char (ch " ") (width c - n)) with ([] ++ t ++ repeat_char (ch " ") (width c - n)) by done.
    apply emit_bind; [done|intros u]. apply emit_bind; [done|]. intros. apply dup_emit.
  - rewrite <- (app_nil_r t). apply emit_bind; [intros; apply dup_emit|intros u]. by apply emit_bind.
  - rewrite app_nil_r. replace t with ([] ++ t ++ []) by (by rewrite app_nil_r).
    apply emit_bind; [done|intros u]. by apply emit_bind.
  - rewrite <- (app_nil_r t). apply emit_bind; [done|intros u]. by apply emit_bind.
Qed.

Lemma format_pointer_emit p c l s :
  pointer_text strings sfuel p c = Ok l -> format_pointer output strings sfuel p c s = emit l s.
Proof.
  unfold pointer_text, format_pointer. destruct (p =? NULL); [apply format_string_emit|].
  intros H. apply bind_Ok in H as (n & Hn & H). rewrite Hn. erewrite bindM_step by reflexivity. by apply format_string_emit.
Qed.

Lemma int_text_emit value sg neg b c l s :
  int_text value sg neg b c = Ok l -> format_integer output value sg neg b c s = emit l s.
Proof. intros H. apply bind_Ok in H as (buf & Ha & H). injection H as <-. by apply format_integer_emit. Qed.

(** Open a successful conversion and run the matching branch. *)
Ltac emit_case H :=
  let t := fresh "t" in let Ht := fresh "Ht" in let v := fresh "v" in let Hv := fresh "Hv" in
  match type of H with
  | (_ ≫= _) = Ok _ =>
      apply bind_Ok in H as ([v ?] & Hv & H); apply bind_Ok in H as (t & Ht & H); injection H as <- <-;
      rewrite Hv; erewrite bindM_step by reflexivity
  end.

Lemma vprintf_emit fuel format args l s :
  vprintf_text strings sfuel fuel format args = Ok l -> __vprintf output strings sfuel fuel format args s = emit l s.
Proof.
  revert format args l s. induction fuel as [|fuel IH]; intros format args l s H; cbn [vprintf_text __vprintf] in *; [done|].
  apply bind_Ok in H as (c & Hc & H). rewrite Hc. erewrite bindM_step by reflexivity.
  destruct (c =? 0); [by injection H as <-|]. destruct (negb (c =? ch "%")).
  { apply bind_Ok in H as (t & Ht & H). injection H as <-.
    apply (emit_bind _ _ [c] t); [intros; by rewrite emit_one|]. intros. by apply IH. }
  apply bind_Ok in H as (c2 & Hc2 & H). cbv zeta. rewrite Hc2. erewrite bindM_step by reflexivity.
  destruct (Z.eqb_spec c2 (ch "%")) as [->|_].
  { apply bind_Ok in H as (t & Ht & H). injection H as <-.
    apply (emit_bind _ _ [ch "%"] t); [intros; by rewrite emit_one|]. intros. by apply IH. }
  apply bind_Ok in H as ([[format' cv] args'] & Hp & H). rewrite Hp. erewrite bindM_step by reflexivity.
  apply bind_Ok in H as (k & Hk & H). rewrite Hk. erewrite bindM_step by reflexivity.
  apply bind_Ok in H as ([t args2] & Ht & H). apply bind_Ok in H as (t' & Ht' & H). injection H as <-.
  pose proof (fun s => IH _ _ _ s Ht') as Hrest. revert Ht. unfold conversion_text.
  destruct ((k =? ch "d") || (k =? ch "i")).
  { intros Ht. emit_case Ht. apply emit_bind; [intros; by apply int_text_emit|done]. }
  destruct ((k =? ch "o") || (k =? ch "u") || (k =? ch "x") || (k =? ch "X")).
  { intros Ht. emit_case Ht. apply emit_bind; [intros; by apply int_text_emit|done]. }
  destruct (k =? ch "c").
  { intros Ht. emit_case Ht. apply emit_bind; [intros; by apply format_string_emit|done]. }
  destruct (k =? ch "s").
  { intros Ht. emit_case Ht. apply emit_bind; [intros; by apply format_pointer_emit|done]. }
  destruct (k =? ch "p").
  { intros Ht. emit_case Ht. apply emit_bind; [intros; by apply int_text_emit|done]. }
  destruct ((k =? ch "f") || (k =? ch "e") || (k =? ch "E") || (k =? ch "g") || (k =? ch "G") || (k =? ch "n")); intros Ht; apply bind_Ok in Ht as (u & Hu & Ht); injection Ht as <- <-;
    (apply emit_bind; [intros; by apply IH|done]).
Qed.
End emit.

(** ** Integers *)

Definition bases : list integer_base := [base_d; base_o; base_x; base_X].

(** The digit a character stands for, and the number a text stands for, most
    significant digit first, separators left out. *)
Definition digit_val (b : integer_base) (c : Z) : Z :=
  match list_find (c =.) (digits b) with Some (i, _) => Z.of_nat i | None => 0 end.
Definition is_sep (c : Z) : bool := c =? ch ",".
Definition digit_cnt (t : list Z) : nat := length (List.filter (fun c => negb (is_sep c)) t).
Fixpoint text_value (b : integer_base) (t : list Z) : Z :=
  match t with
  | [] => 0
  | c :: t => if is_sep c then text_value b t
              else digit_val b c * base b ^ Z.of_nat (digit_cnt t) + text_value b t
  end.

(** The digits of the four bases. *)
Lemma base_digits b d : b ∈ bases -> 0 <= d < base b ->
  exists c, arr_get (digits b) d = Ok c /\ digit_val b c = d /\ is_sep c = false /\ c ∈ digits b.
Proof.
  intros Hb Hd.
  assert (forallb (fun d => match arr_get (digits b) d with
      | Ok c => (digit_val b c =? d) && negb (is_sep c) | _ => false end) (seqZ 0 (base b)) = true) as Hall.
  { unfold bases in Hb. rewrite !elem_of_cons in Hb. destruct Hb as [->|[->|[->|[->|[]%not_elem_of_nil]]]]; by vm_compute. }
  rewrite forallb_forall in Hall. specialize (Hall d). destruct (arr_get (digits b) d) as [c|e] eqn:Hc.
  - exists c. rewrite andb_true_iff, Z.eqb_eq, negb_true_iff in Hall. split; [done|].
    destruct Hall as [H1 H2]; [apply list_elem_of_In, elem_of_seqZ; lia|]. split; [done|]. split; [done|].
    apply arr_get_Ok in Hc as [_ Hc]. by eapply list_elem_of_lookup_2.
  - discriminate Hall. apply list_elem_of_In, elem_of_seqZ; lia.
Qed.

Lemma base_range b : b ∈ bases -> 8 <= base b.
Proof.
  intros Hb. unfold bases in Hb. rewrite !elem_of_cons in Hb.
  destruct Hb as [->|[->|[->|[->|[]%not_elem_of_nil]]]]; cbn; lia.
Qed.

Lemma base_zero b : b ∈ bases -> digit_val b (ch "0") = 0 /\ ch "0" ∈ digits b.
Proof.
  intros Hb. unfold bases in Hb. rewrite !elem_of_cons in Hb.
  destruct Hb as [->|[->|[->|[->|[]%not_elem_of_nil]]]]; (split; [done|apply list_elem_of_here]).
Qed.

Lemma push_ok c buf : (length buf < 64)%nat -> push c buf = Ok (c :: buf).
Proof. intros H. unfold push. by rewrite (proj2 (Z.ltb_lt _ _)) by lia. Qed.

Lemma digits_loop_ok fuel b fl v cnt buf :
  b ∈ bases -> 0 <= cnt <= 22 -> 0 <= v < 8 ^ (22 - cnt) -> Z.of_nat (length buf) <= 2 * cnt ->
  22 - cnt < Z.of_nat fuel ->
  exists r, digits_loop fuel b fl v cnt buf = Ok r /\ (length r <= 44)%nat /\
    text_value b r = v * base b ^ Z.of_nat (digit_cnt buf) + text_value b buf /\
    (flag fl GROUP = false -> Forall (.∈ digits b) buf -> Forall (.∈ digits b) r).
Proof.
  intros Hb. pose proof (base_range b Hb) as Hbase.
  revert v cnt buf. induction fuel as [|fuel IH]; intros v cnt buf Hc Hv Hlen Hf; [lia|]. cbn [digits_loop].
  destruct (Z.ltb_spec 0 v) as [Hpos|Hz]; cycle 1.
  { exists buf. split; [done|]. split; [lia|]. split; [|done]. replace v with 0 by lia. lia. }
  assert (cnt < 22) as Hcnt.
  { destruct (Z.eq_dec cnt 22) as [->|]; [|lia]. change (8 ^ (22 - 22)) with 1 in Hv. lia. }
  destruct (base_digits b (v mod base b) Hb) as (d & Hd & Hdv & Hds & Hdin); [apply Z.mod_pos_bound; lia|].
  set (buf1 := if flag fl GROUP && (0 <? cnt) && (cnt mod group b =? 0) then ch "," :: buf else buf).
  assert ((if flag fl GROUP && (0 <? cnt) && (cnt mod group b =? 0) then push (ch ",") buf else Ok buf) = Ok buf1) as ->.
  { unfold buf1. destruct (_ && _); [|done]. apply push_ok. lia. }
  assert (Z.of_nat (length buf1) <= 2 * cnt + 1 /\ digit_cnt buf1 = digit_cnt buf /\ text_value b buf1 = text_value b buf /\
    (flag fl GROUP = false -> buf1 = buf)) as (Hl1 & Hd1 & Ht1 & Hg1).
  { unfold buf1. destruct (flag fl GROUP); cbn [andb]; [|by repeat split; lia].
    destruct ((0 <? cnt) && _); cbn [length]; repeat split; try done; lia. }
  cbn [mbind res_bind]. rewrite Hd. cbn [mbind res_bind]. rewrite push_ok by lia. cbn [mbind res_bind].
  destruct (IH (v / base b) (cnt + 1) (d :: buf1)) as (r & Hr & Hrl & Hrt & Hrg).
  - lia.
  - split; [apply Z.div_pos; lia|]. apply Z.div_lt_upper_bound; [lia|].
    replace (22 - cnt) with (Z.succ (22 - (cnt + 1))) in Hv by lia. rewrite Z.pow_succ_r in Hv by lia. nia.
  - cbn [length]. lia.
  - lia.
  - exists r. split; [done|]. split; [done|]. split.
    + rewrite Hrt. cbn [text_value]. rewrite Hds, Hdv, Hd1, Ht1. unfold digit_cnt at 1. cbn [List.filter]. rewrite Hds.
      cbn [negb length]. fold (digit_cnt buf1). rewrite Hd1, Nat2Z.inj_succ, Z.pow_succ_r by lia.
      pose proof (Z.div_mod v (base b) ltac:(lia)). nia.
    + intros Hg Hin. apply Hrg; [done|]. rewrite (Hg1 Hg). by constructor.
Qed.

Lemma zeros_loop_ok fuel p buf :
  (length buf <= 63)%nat -> (63 - length buf < fuel)%nat ->
  exists k, zeros_loop fuel p buf = Ok (replicate k (ch "0") ++ buf) /\ (k + length buf <= 63)%nat /\
    Z.min p 63 <= Z.of_nat (k + length buf).
Proof.
  revert buf. induction fuel as [|fuel IH]; intros buf Hl Hf; [lia|]. cbn [zeros_loop].
  destruct (Z.ltb_spec (Z.of_nat (length buf)) p), (Z.ltb_spec (Z.of_nat (length buf)) 63); cbn [andb];
    try (exists 0%nat; split; [done|lia]).
  rewrite push_ok by lia. cbn [mbind res_bind]. destruct (IH (ch "0" :: buf)) as (k & Hk & Hk1 & Hk2); [cbn; lia..|].
  exists (S k). rewrite Hk. cbn [length] in *. split; [|lia]. f_equal. by rewrite replicate_S_end, <- app_assoc.
Qed.

Lemma text_value_zeros b k t : b ∈ bases -> text_value b (replicate k (ch "0") ++ t) = text_value b t.
Proof.
  intros Hb. induction k as [|k IH]; [done|]. cbn [replicate app text_value]. change (is_sep (ch "0")) with false.
  cbn iota. rewrite (proj1 (base_zero b Hb)), IH. lia.
Qed.

Lemma accumulate_ok value b c :
  0 <= value < 2 ^ 64 -> b ∈ bases ->
  exists buf, accumulate value b c = Ok buf /\ (length buf <= 64)%nat /\ text_value b buf = value /\
    Z.min (if precision c <? 0 then 1 else precision c) 63 <= Z.of_nat (length buf) /\
    (flag (flags c) GROUP = false -> Forall (.∈ digits b) buf).
Proof.
  intros Hv Hb. unfold accumulate.
  destruct (digits_loop_ok 66 b (flags c) value 0 [] Hb) as (r & Hr & Hrl & Hrt & Hrg).
  { lia. } { assert (2 ^ 64 <= 8 ^ (22 - 0)) by (by vm_compute). lia. } { done. } { lia. }
  rewrite Hr. cbn [mbind res_bind]. set (p := if precision c <? 0 then 1 else precision c).
  destruct (zeros_loop_ok 66 p r) as (k & Hk & Hk1 & Hk2); [lia|lia|]. rewrite Hk. cbn [mbind res_bind].
  set (t := replicate k (ch "0") ++ r). assert (length t = k + length r)%nat as Htl by (unfold t; by rewrite length_app, length_replicate).
  assert (text_value b t = value) as Htv.
  { unfold t. rewrite text_value_zeros, Hrt by done. cbn [digit_cnt text_value]. cbn. lia. }
  assert (flag (flags c) GROUP = false -> Forall (.∈ digits b) t) as Htd.
  { intros Hg. apply Forall_app. split; [apply Forall_replicate; by apply base_zero|by apply Hrg]. }
  destruct (_ && _ && _).
  - rewrite push_ok by lia. exists (ch "0" :: t). split; [done|]. cbn [length]. split; [lia|].
    split; [by rewrite <- Htv, <- (text_value_zeros b 1 t)|]. split; [lia|]. intros Hg. constructor; [by apply base_zero|by apply Htd].
  - exists t. split; [done|]. split; [lia|]. split; [done|]. split; [lia|done].
Qed.

(** An integer of any size, base, precision and flags is rendered without
    leaving the 64-byte buffer; the text has at least as many digits as the
    precision asks for, up to 63, and denotes the value. *)
Theorem format_integer_buffer {S : Type} (output : Z -> M S unit) (value : Z) (sg neg : bool) (b : integer_base)
    (c : printf_conversion) (s : S) :
  0 <= value < 2 ^ 64 -> b ∈ bases ->
  exists buf, format_integer output value sg neg b c s = output_all output (int_layout value sg neg b c buf) s /\
    (length buf <= 64)%nat /\ text_value b buf = value /\
    Z.min (if precision c <? 0 then 1 else precision c) 63 <= Z.of_nat (length buf).
Proof.
  intros Hv Hb. destruct (accumulate_ok value b c Hv Hb) as (buf & Ha & H1 & H2 & H3 & _). exists buf.
  split; [by apply format_integer_emit|done].
Qed.

Definition log_char (c : Z) : M (list Z) unit := fun l => Ok (tt, l ++ [c]).

Lemma format_integer_buffer_witness :
  exists buf, format_integer log_char (2 ^ 64 - 1) false false base_o (mk_conv (Z.lor POUND GROUP) 40 (-1) LONGLONG) [] =
    output_all log_char (int_layout (2 ^ 64 - 1) false false base_o (mk_conv (Z.lor POUND GROUP) 40 (-1) LONGLONG) buf) [] /\
    (length buf <= 64)%nat /\ text_value base_o buf = 2 ^ 64 - 1 /\ Z.min 1 63 <= Z.of_nat (length buf).
Proof.
  apply (format_integer_buffer log_char (2 ^ 64 - 1) false false base_o (mk_conv (Z.lor POUND GROUP) 40 (-1) LONGLONG) []).
  - lia.
  - right. left.
Defined.

(** ** vsnprintf *)

Lemma helper_step c m p n max : 0 <= n -> n + 1 < 2 ^ 31 ->
  vsnprintf_helper c (mk_aux m p n max) =
  if n <? max then m' ← store m p c; Ok (tt, mk_aux m' (p + 1) (n + 1) max) else Ok (tt, mk_aux m p (n + 1) max).
Proof. intros H0 H1. unfold vsnprintf_helper. cbn [aux_length max_length aux_mem aux_p]. by rewrite s32_small by lia. Qed.

(** Characters go to the buffer while there is room. *)
Lemma helper_emit l m p n max s' :
  owned m p (max - n) -> 0 <= n <= max \/ max < n -> n + Z.of_nat (length l) < 2 ^ 31 -> 0 <= n -> 0 <= max ->
  s' = mk_aux (write_at m p (u8 <$> take (Z.to_nat (max - n)) l)) (p + Z.min (Z.max 0 (max - n)) (Z.of_nat (length l)))
         (n + Z.of_nat (length l)) max ->
  output_all vsnprintf_helper l (mk_aux m p n max) = Ok (tt, s').
Proof.
  revert m p n s'. induction l as [|c l IH]; intros m p n s' Hm Hn Hlen Hn0 Hmax ->; cbn [output_all length] in *.
  { rewrite take_nil. cbn [fmap list_fmap write_at]. replace (p + _) with p by lia. by rewrite Z.add_0_r. }
  unfold mbind at 1, M_bind at 1. rewrite helper_step by lia. destruct (Z.ltb_spec n max) as [Hlt|Hge].
  - unfold store. destruct (Hm p) as [x Hx]; [lia|]. rewrite Hx. cbn [mbind res_bind]. apply IH; try lia.
    + intros a Ha. destruct (decide (a = p)) as [->|Hne]; [by rewrite lookup_insert_eq|].
      rewrite lookup_insert_ne by done. apply Hm. lia.
    + f_equal; [|lia..]. replace (Z.to_nat (max - n)) with (S (Z.to_nat (max - (n + 1)))) by lia. cbn [take fmap list_fmap write_at].
      apply map_eq. intros a. rewrite write_at_lookup. rewrite length_fmap, length_take.
      destruct (decide (a = p)) as [->|Hne].
      * rewrite !lookup_insert_eq. by rewrite decide_False by lia.
      * rewrite !(lookup_insert_ne _ p a) by done. rewrite write_at_lookup. by rewrite length_fmap, length_take.
  - apply IH; try lia.
    + intros a Ha. apply Hm. lia.
    + replace (Z.to_nat (max - n)) with 0%nat by lia. replace (Z.to_nat (max - (n + 1))) with 0%nat by lia.
      cbn. f_equal; lia.
Qed.

Lemma vsnprintf_text (sfuel : nat) (m : mem) (buffer n : Z) (format : list Z) (args : va_list) (text : list Z) :
  printf_text m sfuel format args = Ok text -> Z.of_nat (length text) < 2 ^ 31 -> 0 <= n <= 2 ^ 31 ->
  owned m buffer n ->
  vsnprintf sfuel m buffer n format args =
    Ok (if 0 <? n then write_at m buffer ((u8 <$> take (Z.to_nat (n - 1)) text) ++ [0]) else m, Z.of_nat (length text)).
Proof.
  intros Ht Hlen Hn Hm. unfold vsnprintf, __printf. rewrite (vprintf_emit _ _ _ _ _ _ _ _ Ht).
  destruct (Z.ltb_spec 0 n) as [Hpos|Hz].
  - rewrite s32_small by lia. erewrite helper_emit; [|..|reflexivity]; [|intros a Ha; apply Hm; lia|lia..].
    cbn [mbind res_bind aux_mem aux_p aux_length]. rewrite Z.sub_0_r, Z.add_0_l, Z.max_r by lia.
    set (l := u8 <$> take (Z.to_nat (n - 1)) text).
    assert (buffer + Z.min (n - 1) (Z.of_nat (length text)) = buffer + Z.of_nat (length l)) as ->.
    { unfold l. rewrite length_fmap, length_take. lia. }
    rewrite store_Ok; [|..|split; lia].
    + cbn [mbind res_bind]. by rewrite write_at_snoc.
    + rewrite write_at_lookup, decide_False by lia. apply Hm. unfold l. rewrite length_fmap, length_take. lia.
  - assert (n = 0) as -> by lia. erewrite helper_emit; [|..|reflexivity]; [|intros a Ha; apply Hm; lia|lia..].
    cbn [mbind res_bind aux_mem aux_p aux_length]. by rewrite Z.sub_0_r.
Qed.


Definition demo_strings : mem := write_at (write_at ∅ 100 (replicate 16 255)) 200 (chars "kernel" ++ [0]).


(** ** Printing and parsing *)

(** A text of decimal digits. *)
Lemma decimal_digits t : Forall (.∈ digits base_d) t ->
  exists ds, t = (fun d => 48 + d) <$> ds /\ Forall (fun d => 0 <= d <= 9) ds /\
    forall w, foldl (fun v d => v * 10 + d) w ds = w * 10 ^ Z.of_nat (digit_cnt t) + text_value base_d t.
Proof.
  intros Ht. exists ((fun c => c - 48) <$> t).
  assert (Forall (fun c => 48 <= c <= 57 /\ digit_val base_d c = c - 48 /\ is_sep c = false) t) as Hr.
  { eapply Forall_impl; [exact Ht|]. intros c Hc. cbn in Hc.
    repeat (apply elem_of_cons in Hc as [->|Hc]; [split_and!; by vm_compute|]). by apply elem_of_nil in Hc. }
  clear Ht. split; [|split].
  - rewrite <- list_fmap_compose. symmetry. rewrite <- (list_fmap_id t) at 2. apply list_fmap_ext. intros i c _. cbn. lia.
  - apply Forall_fmap. eapply Forall_impl; [exact Hr|]. cbn. intros c (? & _). lia.
  - induction Hr as [|c t (H1 & H2 & H3) Hr IH]; intros w; [cbn; lia|]. cbn [fmap list_fmap foldl text_value].
    rewrite IH, H2, H3. unfold digit_cnt at 2. cbn [List.filter]. rewrite H3. cbn [negb length]. fold (digit_cnt t).
    rewrite Nat2Z.inj_succ, Z.pow_succ_r by lia. change (base base_d) with 10. lia.
Qed.

Definition conv_d : printf_conversion := mk_conv 0 0 (-1) INT.

Lemma vprintf_text_S m sfuel fuel format args :
  vprintf_text m sfuel (S fuel) format args =
  (c ← peek format;
   if c =? 0 then Ok []
   else if negb (c =? ch "%") then t ← vprintf_text m sfuel fuel (drop 1 format) args; Ok (c :: t)
   else
     c ← peek (drop 1 format);
     if c =? ch "%" then t ← vprintf_text m sfuel fuel (drop 1 (drop 1 format)) args; Ok (c :: t)
     else
       '(format, cv, args) ← parse_conversion (drop 1 format) args;
       k ← peek format;
       '(t, args) ← conversion_text m sfuel k cv args (fun msg => vprintf_text m sfuel fuel msg [k]);
       t' ← vprintf_text m sfuel fuel (drop 1 format) args; Ok (t ++ t')).
Proof. reflexivity. Qed.

(** The text of [%d]. *)
Lemma percent_d m sfuel w :
  exists buf, accumulate (Z.abs (s32 w)) base_d conv_d = Ok buf /\
    printf_text m sfuel (c_str "%d") [w] = Ok ((if s32 w <? 0 then [ch "-"] else []) ++ buf).
Proof.
  assert (- 2 ^ 31 <= s32 w < 2 ^ 31) as Hw by apply s32_range.
  destruct (accumulate_ok (Z.abs (s32 w)) base_d conv_d) as (buf & Ha & Hl & _); [lia|left|].
  exists buf. split; [done|].
  assert (s32 (u32 w) = s32 w) as Hsw by (unfold s32, u32; f_equal; by rewrite Zplus_mod_idemp_l).
  assert (printf_text m sfuel (c_str "%d") [w] =
    (t ← int_text (if s32 (u32 w) <? 0 then u64 (- s32 (u32 w)) else s32 (u32 w)) true (s32 (u32 w) <? 0) base_d conv_d;
     Ok (t ++ []))) as ->.
  { unfold printf_text. change (length (c_str "%d") + 30)%nat with (S (S 31)). rewrite vprintf_text_S.
    change (peek (c_str "%d")) with (@Ok Z 37). cbn [mbind res_bind]. change (37 =? 0) with false.
    change (negb (37 =? ch "%")) with false. change (drop 1 (c_str "%d")) with [100; 0].
    change (peek [100; 0]) with (@Ok Z 100). cbn [mbind res_bind]. change (100 =? ch "%") with false. cbv iota.
    change (parse_conversion [100; 0] [w]) with (Ok ([100; 0], conv_d, [w])). cbn [mbind res_bind].
    change (peek [100; 0]) with (@Ok Z 100). cbn [mbind res_bind]. unfold conversion_text.
    change ((100 =? ch "d") || (100 =? ch "i")) with true. cbv iota.
    change (signed_arg (type conv_d) [w]) with (Ok (s32 (u32 w), @nil Z)). cbn [mbind res_bind].
    destruct (int_text _ _ _ _ _) as [t|e]; [|done]. cbn [mbind res_bind]. rewrite vprintf_text_S. reflexivity. }
  rewrite Hsw. assert ((if s32 w <? 0 then u64 (- s32 w) else s32 w) = Z.abs (s32 w)) as ->.
  { destruct (Z.ltb_spec (s32 w) 0); [|lia]. unfold u64. rewrite Z.mod_small; lia. }
  unfold int_text. rewrite Ha. cbn [mbind res_bind]. f_equal. rewrite app_nil_r.
  unfold int_layout, conv_d. cbn [flags width].
  change (flag 0 PLUS) with false. change (flag 0 POUND) with false. change (flag 0 ZERO) with false. change (flag 0 MINUS) with false.
  change (Z.land 0 (Z.lor MINUS ZERO) =? 0) with true. cbn [andb]. change (0 =? 0) with true. cbv iota zeta.
  unfold sign_char. change (flag 0 PLUS) with false. change (flag 0 SPACE) with false. cbv iota.
  assert (forall k, 0 <= k <= 1 -> repeat_char (ch " ") (Z.max 0 (s32 (0 - Z.of_nat (length buf) - 0 - k))) = []) as Hpad.
  { intros k Hk. rewrite s32_small by lia. rewrite Z.max_l by lia. done. }
  destruct (s32 w <? 0).
  - change (ch "-" =? 0) with false. cbv iota. rewrite (Hpad 1) by lia. cbn [app]. by rewrite app_nil_r.
  - change (0 =? 0) with true. cbv iota. rewrite (Hpad 0) by lia. cbn [app]. by rewrite app_nil_r.
Qed.

(** Printing an [int] with [%d] and parsing the text with [atoi] gives the
    number back, whenever the length vsnprintf returns says that the text fits
    in the buffer. *)
Theorem print_parse_roundtrip (sfuel fuel : nat) (m : mem) (buffer n v : Z) :
  - 2 ^ 31 <= v < 2 ^ 31 -> buffer <> 0 -> 0 < n <= 2 ^ 31 -> owned m buffer n -> (66 <= fuel)%nat ->
  exists m' len, vsnprintf sfuel m buffer n (c_str "%d") [u32 v] = Ok (m', len) /\
    (len < n -> atoi fuel m' buffer = Ok v).
Proof.
  intros Hv Hb Hn Hm Hf. assert (s32 (u32 v) = v) as Hs.
  { replace (s32 (u32 v)) with (s32 v); [by apply s32_small|]. unfold s32, u32. f_equal. by rewrite Zplus_mod_idemp_l. }
  destruct (percent_d m sfuel (u32 v)) as (buf & Ha & Ht). rewrite Hs in *.
  destruct (accumulate_ok (Z.abs v) base_d conv_d) as (buf' & Ha' & Hl & Hval & Hmin & Hdig); [lia|left|].
  rewrite Ha in Ha'. injection Ha' as <-. specialize (Hdig eq_refl).
  destruct (decimal_digits buf Hdig) as (ds & -> & Hds & Hfold).
  set (sign := if v <? 0 then [45] else []). assert ((if v <? 0 then [ch "-"] else []) = sign) as Hsg by done.
  rewrite Hsg in Ht. set (text := sign ++ ((fun d => 48 + d) <$> ds)) in *.
  assert (length text <= 65)%nat as Htl.
  { unfold text, sign. rewrite length_app. destruct (v <? 0); cbn [length]; lia. }
  eexists _, _. split; [apply (vsnprintf_text sfuel m buffer n _ _ text Ht); [lia|lia|done]|].
  intros Hfit. rewrite (proj2 (Z.ltb_lt 0 n)) by lia. rewrite take_ge by lia.
  assert (u8 <$> text = text) as ->.
  { rewrite <- (list_fmap_id text) at 2. apply list_fmap_ext. intros i c Hc. change (u8 c = c). unfold u8. apply Z.mod_small.
    unfold text in Hc. apply list_elem_of_lookup_2, elem_of_app in Hc as [Hc|Hc].
    - revert Hc. unfold sign. destruct (v <? 0); intros Hc; [apply list_elem_of_singleton in Hc; lia|by apply elem_of_nil in Hc].
    - apply list_elem_of_fmap in Hc as (d & -> & Hd). rewrite Forall_forall in Hds. specialize (Hds d Hd). lia. }
  assert (dec_value ds = Z.abs v) as Hdec by (unfold dec_value; rewrite Hfold; lia).
  rewrite (atoi_correct fuel _ buffer [] sign ds 0 []); try done.
  - unfold sign. destruct (Z.ltb_spec v 0); [rewrite decide_True by done|rewrite decide_False by done]; f_equal; lia.
  - intros ->. cbn in Hmin. lia.
  - unfold sign. rewrite !elem_of_cons. destruct (v <? 0); tauto.
  - cbn [app]. rewrite (app_assoc sign). apply write_at_bytes.
  - cbn [length]. rewrite length_fmap in Hl. lia.
  - unfold sign. destruct (Z.ltb_spec v 0); [rewrite decide_True by done|rewrite decide_False by done]; lia.
Qed.

Lemma print_parse_roundtrip_witness :
  exists m' len, vsnprintf 20 demo_strings 100 16 (c_str "%d") [u32 (- 2 ^ 31)] = Ok (m', len) /\
    (len < 16 -> atoi 66 m' 100 = Ok (- 2 ^ 31)).
Proof.
  apply (print_parse_roundtrip 20 66 demo_strings 100 16 (- 2 ^ 31)); [lia|lia|lia| |lia].
  intros a Ha. unfold demo_strings. rewrite write_at_lookup, decide_False by lia.
  rewrite write_at_lookup, decide_True by (cbn; lia). apply lookup_lt_is_Some_2. cbn. lia.
Defined.

(** A format that ends in a percent sign is read past its end. *)
Example percent_at_end : __printf log_char ∅ 0 (c_str "100%") [] [] = Fail BadAccess.
Proof. vm_compute. reflexivity. Qed.
