(* ===== verification/Vga.v ===== *)
(** * The text display: devices/vga.c

    The state is the driver's cursor, the framebuffer as 25 rows of 80 cells
    (character and attribute), and the display's cursor register behind the
    index and data ports 0x3d4 and 0x3d5.  An access outside the framebuffer is
    [BadAccess].  Interrupts are off throughout [vga_putc], so that calls do not
    overlap.

    The theorem compares the screen with a printer on endless paper. *)

From S2P Require Import Prelude.

Definition COL_CNT : Z := 80.
Definition ROW_CNT : Z := 25.
Definition GRAY_ON_BLACK : Z := 0x07.

Abbreviation cell := (Z * Z)%type.
Abbreviation row := (list cell).

Record vga : Type := mk_vga { cx : Z; cy : Z; inited : bool; fb : list row; crtc_index : Z; crtc_cursor : Z }.

Definition set_cx (x : Z) (s : vga) : vga := mk_vga x (cy s) (inited s) (fb s) (crtc_index s) (crtc_cursor s).
Definition set_cy (y : Z) (s : vga) : vga := mk_vga (cx s) y (inited s) (fb s) (crtc_index s) (crtc_cursor s).
Definition set_fb (f : list row) (s : vga) : vga := mk_vga (cx s) (cy s) (inited s) f (crtc_index s) (crtc_cursor s).

(** ** The display's registers *)

Definition crtc_write (index data : Z) (s : vga) : vga :=
  let lo := crtc_cursor s mod 2 ^ 8 in
  let hi := crtc_cursor s / 2 ^ 8 in
  mk_vga (cx s) (cy s) (inited s) (fb s) index
    (if index =? 0x0e then lo + 2 ^ 8 * data else if index =? 0x0f then data + 2 ^ 8 * hi else crtc_cursor s).

(** A word written to 0x3d4 sets the index and writes the data port. *)
Definition outw_crtc (v : Z) : M vga unit := modify (crtc_write (u16 v mod 2 ^ 8) (u16 v / 2 ^ 8)).
Definition outb_crtc (index : Z) : M vga unit := modify (fun s =>
  mk_vga (cx s) (cy s) (inited s) (fb s) index (crtc_cursor s)).
Definition inb_crtc : M vga Z := gets (fun s =>
  if crtc_index s =? 0x0e then crtc_cursor s / 2 ^ 8 else if crtc_index s =? 0x0f then crtc_cursor s mod 2 ^ 8 else 0).

(** ** The driver *)

Definition move_cursor : M vga unit :=
  cp ← gets (fun s => u16 (cx s + COL_CNT * cy s));
  outw_crtc (Z.lor 0x0e (Z.land cp 0xff00)) ;;
  outw_crtc (Z.lor 0x0f (Z.shiftl cp 8)).

Definition find_cursor : M vga (Z * Z) :=
  outb_crtc 0x0e ;;
  hi ← inb_crtc;
  outb_crtc 0x0f ;;
  lo ← inb_crtc;
  let cp := Z.lor (u16 (Z.shiftl hi 8)) lo in
  mret (cp mod COL_CNT, cp / COL_CNT).

Definition init : M vga unit :=
  i ← gets inited;
  if i : bool then mret tt else
  '(x, y) ← find_cursor;
  modify (fun s => mk_vga x y true (fb s) (crtc_index s) (crtc_cursor s)).

(** [fb[y][x] = v]. *)
Definition put_cell (y x : Z) (v : cell) : M vga unit := fun s =>
  r ← arr_get (fb s) y;
  r ← arr_set r x v;
  f ← arr_set (fb s) y r;
  Ok (tt, set_fb f s).

(** [for (x = 0; x < COL_CNT; x++)]: [n] cells from [x] on. *)
Fixpoint clear_cells (n : nat) (y x : Z) : M vga unit :=
  match n with
  | O => mret tt
  | S n => put_cell y x (32, GRAY_ON_BLACK) ;; clear_cells n y (x + 1)
  end.
Definition clear_row (y : Z) : M vga unit := clear_cells (Z.to_nat COL_CNT) y 0.

Fixpoint clear_rows (n : nat) (y : Z) : M vga unit :=
  match n with O => mret tt | S n => clear_row y ;; clear_rows n (y + 1) end.

Definition cls : M vga unit :=
  clear_rows (Z.to_nat ROW_CNT) 0 ;;
  modify (fun s => set_cx 0 (set_cy 0 s)) ;;
  move_cursor.

(** [memmove (&fb[0], &fb[1], sizeof fb[0] * (ROW_CNT - 1))]. *)
Definition scroll : M vga unit := fun s =>
  if Z.of_nat (length (fb s)) =? ROW_CNT
  then Ok (tt, set_fb (drop 1 (fb s) ++ drop (Z.to_nat (ROW_CNT - 1)) (fb s)) s)
  else Fail BadAccess.

Definition newline : M vga unit :=
  modify (fun s => set_cx 0 (set_cy (u32 (cy s + 1)) s)) ;;
  y ← gets cy;
  if ROW_CNT <=? y then
    modify (set_cy (ROW_CNT - 1)) ;;
    scroll ;;
    clear_row (ROW_CNT - 1)
  else mret tt.

Definition vga_putc (c : Z) : M vga unit :=
  init ;;
  (if c =? 10 then newline
   else if c =? 12 then cls
   else if c =? 8 then
     x ← gets cx;
     if 0 <? x then modify (set_cx (x - 1)) else mret tt
   else if c =? 13 then modify (set_cx 0)
   else if c =? 9 then
     x ← gets cx;
     let x := u32 (ROUND_UP (x + 1) 8) in
     modify (set_cx x) ;;
     if COL_CNT <=? x then newline else mret tt
   else
     x ← gets cx;
     y ← gets cy;
     put_cell y x (u8 c, GRAY_ON_BLACK) ;;
     modify (set_cx (u32 (x + 1))) ;;
     if COL_CNT <=? x + 1 then newline else mret tt) ;;
  move_cursor.

(** ** Endless paper *)

(** [lines] are the lines so far, at least a screenful; the head is at column
    [col] of line [line]. *)
Record paper : Type := mk_paper { lines : list row; line : nat; col : Z }.

Definition blank : row := replicate 80 (32, GRAY_ON_BLACK).
Definition fresh_paper : paper := mk_paper (replicate 25 blank) 0 0.

Definition feed (p : paper) : paper :=
  mk_paper (if decide (S (line p) < length (lines p))%nat then lines p else lines p ++ [blank]) (S (line p)) 0.

Definition print_char (c : Z) (p : paper) : paper :=
  if c =? 10 then feed p
  else if c =? 12 then fresh_paper
  else if c =? 8 then mk_paper (lines p) (line p) (Z.max 0 (col p - 1))
  else if c =? 13 then mk_paper (lines p) (line p) 0
  else if c =? 9 then
    let p' := mk_paper (lines p) (line p) ((col p / 8 + 1) * 8) in
    if 80 <=? col p' then feed p' else p'
  else
    let r := default blank (lines p !! line p) in
    let p' := mk_paper (<[line p := <[Z.to_nat (col p) := (u8 c, GRAY_ON_BLACK)]> r]> (lines p)) (line p) (col p + 1) in
    if 80 <=? col p' then feed p' else p'.

(** The screen shows the last 25 lines of the paper, with the head before
    column [n]. *)
Record shows (n : Z) (p : paper) (s : vga) : Prop := {
  sh_lines : (25 <= length (lines p))%nat /\ Forall (fun r => length r = 80%nat) (lines p);
  sh_fb : fb s = drop (length (lines p) - 25) (lines p);
  sh_line : (length (lines p) - 25 <= line p < length (lines p))%nat /\
    cy s = Z.of_nat (line p) - Z.of_nat (length (lines p) - 25);
  sh_col : cx s = col p /\ 0 <= col p < n;
  sh_inited : inited s = true;
}.

Lemma put_cell_ok y x v s :
  0 <= y < Z.of_nat (length (fb s)) -> (forall r, fb s !! Z.to_nat y = Some r -> 0 <= x < Z.of_nat (length r)) ->
  put_cell y x v s = Ok (tt, set_fb (alter (<[Z.to_nat x := v]>) (Z.to_nat y) (fb s)) s).
Proof.
  intros Hy Hx. unfold put_cell. destruct (lookup_lt_is_Some_2 (fb s) (Z.to_nat y)) as [r Hr]; [lia|].
  rewrite (proj2 (arr_get_Ok _ _ _)) by (split; [lia|done]). cbn [mbind res_bind].
  rewrite arr_set_ok by (by apply Hx). cbn [mbind res_bind]. rewrite arr_set_ok by done. cbn [mbind res_bind].
  do 3 f_equal. apply list_eq. intros i. destruct (decide (i = Z.to_nat y)) as [->|Hne].
  - by rewrite list_lookup_insert_eq, list_lookup_alter_eq, Hr by lia.
  - by rewrite list_lookup_insert_ne, list_lookup_alter_ne by done.
Qed.

Lemma take_S_insert {A} (l : list A) i v : (i < length l)%nat -> take (S i) (<[i := v]> l) = take i l ++ [v].
Proof.
  intros Hi. rewrite (take_S_r _ _ v) by (by rewrite list_lookup_insert_eq). by rewrite take_insert_ge.
Qed.

Lemma clear_cells_ok n y x s r :
  0 <= y -> fb s !! Z.to_nat y = Some r -> 0 <= x -> x + Z.of_nat n = Z.of_nat (length r) ->
  clear_cells n y x s =
    Ok (tt, set_fb (<[Z.to_nat y := take (Z.to_nat x) r ++ replicate n (32, GRAY_ON_BLACK)]> (fb s)) s).
Proof.
  revert x s r. induction n as [|n IH]; intros x s r Hy Hr Hx Hn; cbn [clear_cells].
  { rewrite app_nil_r, take_ge by lia. rewrite list_insert_id by done. by destruct s. }
  pose proof (lookup_lt_Some _ _ _ Hr) as Hlt.
  rewrite (bindM_step _ _ _ _ _ (put_cell_ok y x (32, GRAY_ON_BLACK) s ltac:(lia) ltac:(intros r' Hr'; simplify_eq; lia))).
  set (r' := <[Z.to_nat x := (32, GRAY_ON_BLACK)]> r).
  assert (alter (<[Z.to_nat x := (32, GRAY_ON_BLACK)]>) (Z.to_nat y) (fb s) = <[Z.to_nat y := r']> (fb s)) as ->.
  { apply list_eq. intros i. destruct (decide (i = Z.to_nat y)) as [->|Hne].
    - by rewrite list_lookup_insert_eq, list_lookup_alter_eq, Hr by lia.
    - by rewrite list_lookup_insert_ne, list_lookup_alter_ne by done. }
  rewrite (IH (x + 1) _ r'); [|done|cbn; by rewrite list_lookup_insert_eq by lia|lia|unfold r'; rewrite length_insert; lia].
  unfold set_fb. cbn. rewrite list_insert_insert_eq. do 4 f_equal.
  replace (Z.to_nat (x + 1)) with (S (Z.to_nat x)) by lia. unfold r'.
  rewrite take_S_insert by lia. by rewrite <- app_assoc.
Qed.

Lemma clear_row_ok y s r :
  0 <= y -> fb s !! Z.to_nat y = Some r -> length r = 80%nat ->
  clear_row y s = Ok (tt, set_fb (<[Z.to_nat y := blank]> (fb s)) s).
Proof. intros Hy Hr Hl. unfold clear_row. rewrite (clear_cells_ok _ y 0 s r); [done|done|done|lia|by rewrite Hl]. Qed.

Definition grid (f : list row) : Prop := length f = 25%nat /\ Forall (fun r => length r = 80%nat) f.

Lemma clear_rows_ok n y s :
  0 <= y -> y + Z.of_nat n = 25 -> grid (fb s) ->
  clear_rows n y s = Ok (tt, set_fb (take (Z.to_nat y) (fb s) ++ replicate n blank) s).
Proof.
  revert y s. induction n as [|n IH]; intros y s Hy Hn [Hl Hr]; cbn [clear_rows].
  { rewrite app_nil_r, take_ge by lia. by destruct s. }
  destruct (lookup_lt_is_Some_2 (fb s) (Z.to_nat y)) as [r Hlk]; [lia|].
  rewrite (bindM_step _ _ _ _ _ (clear_row_ok y s r Hy Hlk ltac:(by eapply (Forall_lookup_1 _ _ _ _ Hr)))).
  rewrite IH; [|lia|lia|split; cbn; [by rewrite length_insert|by apply Forall_insert]].
  cbn [fb set_fb]. replace (Z.to_nat (y + 1)) with (S (Z.to_nat y)) by lia.
  rewrite take_S_insert, <- app_assoc by lia. done.
Qed.

Lemma shows_grid n p s : shows n p s -> grid (fb s).
Proof.
  intros Hs. destruct (sh_lines _ _ _ Hs) as [Hl Hr]. rewrite (sh_fb _ _ _ Hs). split.
  - rewrite length_drop. lia.
  - by apply Forall_drop.
Qed.

(** ** Lines *)

Lemma newline_ok n p s :
  shows n p s -> exists s', newline s = Ok (tt, s') /\ shows 80 (feed p) s' /\ crtc_cursor s' = crtc_cursor s.
Proof.
  intros Hs. pose proof (shows_grid _ _ _ Hs) as [Hgl Hgr].
  destruct (sh_lines _ _ _ Hs) as [Hlen Hrows]. destruct (sh_line _ _ _ Hs) as [Hline Hcy].
  pose proof (sh_fb _ _ _ Hs) as Hfb.
  unfold newline. erewrite bindM_step by reflexivity. erewrite bindM_step by reflexivity. cbn [cy set_cx set_cy].
  rewrite u32_small by lia. unfold ROW_CNT. unfold feed.
  destruct (Z.leb_spec 25 (cy s + 1)) as [Hge|Hlt].
  - rewrite decide_False by lia. erewrite bindM_step by reflexivity.
    set (s1 := set_cy (25 - 1) _). assert (fb s1 = fb s) as Hf1 by done.
    assert (scroll s1 = Ok (tt, set_fb (drop 1 (fb s) ++ drop 24 (fb s)) s1)) as Hsc.
    { unfold scroll, ROW_CNT. rewrite Hf1, Hgl. done. }
    rewrite (bindM_step _ _ _ _ _ Hsc).
    destruct (lookup_lt_is_Some_2 (fb s) 24) as [r Hr]; [lia|].
    assert (drop 24 (fb s) = [r]) as Hdr.
    { rewrite (drop_S _ r) by done. by rewrite drop_ge by lia. }
    rewrite Hdr. rewrite (clear_row_ok _ _ r); [|lia| |by eapply (Forall_lookup_1 _ _ _ _ Hgr)]; cycle 1.
    { cbn [fb set_fb]. change (Z.to_nat (25 - 1)) with 24%nat.
      rewrite lookup_app_r by (rewrite length_drop; lia). by rewrite length_drop, Hgl. }
    eexists. split; [reflexivity|]. split; [|done]. cbn [fb set_fb]. split; cbn [lines line col fb set_fb cx cy inited].
    + rewrite length_app. cbn. split; [lia|]. apply Forall_app. split; [done|]. by constructor.
    + rewrite length_app. cbn [length].
      change (Z.to_nat (25 - 1)) with 24%nat. rewrite insert_app_r_alt by (rewrite length_drop; lia).
      rewrite length_drop, Hgl. cbn. rewrite Hfb, drop_drop.
      replace (length (lines p) + 1 - 25)%nat with (length (lines p) - 25 + 1)%nat by lia.
      by rewrite drop_app_le by lia.
    + rewrite length_app. cbn. lia.
    + done.
    + apply Hs.
  - rewrite decide_True by lia. eexists. split; [reflexivity|]. split; [|done]. split; cbn [lines line col fb cx cy inited set_cx set_cy].
    + done.
    + done.
    + lia.
    + done.
    + apply Hs.
Qed.

(** ** The cursor *)

(** The two words written set the register, for every position on screen. *)
Lemma cursor_words cp : 0 <= cp < 2000 ->
  let w1 := u16 (Z.lor 0x0e (Z.land cp 0xff00)) in
  let w2 := u16 (Z.lor 0x0f (Z.shiftl cp 8)) in
  w1 mod 2 ^ 8 = 0x0e /\ w1 / 2 ^ 8 = cp / 2 ^ 8 /\ w2 mod 2 ^ 8 = 0x0f /\ w2 / 2 ^ 8 = cp mod 2 ^ 8.
Proof.
  intros Hcp. assert (forallb (fun cp =>
    let w1 := u16 (Z.lor 0x0e (Z.land cp 0xff00)) in
    let w2 := u16 (Z.lor 0x0f (Z.shiftl cp 8)) in
    (w1 mod 2 ^ 8 =? 0x0e) && (w1 / 2 ^ 8 =? cp / 2 ^ 8) && (w2 mod 2 ^ 8 =? 0x0f) && (w2 / 2 ^ 8 =? cp mod 2 ^ 8))
    (seqZ 0 2000) = true) as Hall by (vm_compute; reflexivity).
  rewrite forallb_forall in Hall. specialize (Hall cp).
  rewrite !andb_true_iff, !Z.eqb_eq in Hall. destruct Hall as [[[H1 H2] H3] H4]; [|done].
  apply list_elem_of_In, elem_of_seqZ. lia.
Qed.

Lemma move_cursor_ok p s :
  shows 80 p s ->
  exists s', move_cursor s = Ok (tt, s') /\ shows 80 p s' /\ crtc_cursor s' = cx s' + COL_CNT * cy s'.
Proof.
  intros Hs. destruct (sh_line _ _ _ Hs) as [Hl Hcy]. destruct (sh_lines _ _ _ Hs) as [Hlen _].
  destruct (sh_col _ _ _ Hs) as [Hcx Hcol]. unfold move_cursor, COL_CNT. erewrite bindM_step by reflexivity.
  assert (u16 (cx s + 80 * cy s) = cx s + 80 * cy s) as -> by (unfold u16; rewrite Z.mod_small; lia).
  set (cp := cx s + 80 * cy s). assert (0 <= cp < 2000) as Hcp by (unfold cp; lia).
  destruct (cursor_words cp Hcp) as (H1 & H2 & H3 & H4). unfold outw_crtc. rewrite H1, H2, H3, H4.
  eexists. split; [reflexivity|]. split; [by destruct Hs|]. cbn [crtc_write crtc_cursor cx cy crtc_index].
  change (0x0f =? 0x0e) with false. change (0x0f =? 0x0f) with true. change (0x0e =? 0x0e) with true. cbv iota.
  fold cp. change (2 ^ 8) with 256. generalize (crtc_cursor s). intros z. clearbody cp. zlia.
Qed.

(** ** Characters *)

Lemma shows_le p s n m : shows n p s -> n <= m -> shows m p s.
Proof. intros [H1 H2 H3 [H4 H5] H6] Hn. split; try done. split; [done|lia]. Qed.

(** Moving the head within the line. *)
Lemma shows_col n m p s x : shows n p s -> 0 <= x < m -> shows m (mk_paper (lines p) (line p) x) (set_cx x s).
Proof. intros [H1 H2 H3 H4 H5] Hx. by split. Qed.

Lemma wrap_ok n p s :
  shows n p s -> n <= 81 ->
  exists s', (if COL_CNT <=? col p then newline else mret tt) s = Ok (tt, s') /\
    shows 80 (if 80 <=? col p then feed p else p) s' /\ crtc_cursor s' = crtc_cursor s.
Proof.
  intros Hs Hn. unfold COL_CNT. destruct (Z.leb_spec 80 (col p)) as [H|H]; [by apply (newline_ok n)|].
  exists s. split; [done|]. split; [|done]. destruct Hs as [H1 H2 H3 [H4 H5] H6]. split; try done. split; [done|lia].
Qed.

Lemma cls_ok n p s : shows n p s -> exists s', cls s = Ok (tt, s') /\ shows 80 fresh_paper s'.
Proof.
  intros Hs. unfold cls. pose proof (shows_grid _ _ _ Hs) as Hg.
  rewrite (bindM_step _ _ _ _ _ (clear_rows_ok (Z.to_nat ROW_CNT) 0 s ltac:(lia) eq_refl Hg)).
  erewrite bindM_step by reflexivity. destruct (move_cursor_ok fresh_paper
    (set_cx 0 (set_cy 0 (set_fb (take (Z.to_nat 0) (fb s) ++ replicate (Z.to_nat ROW_CNT) blank) s)))) as (s' & Hm & Hs' & _).
  - split; cbn [fresh_paper lines line col fb cx cy set_cx set_cy set_fb inited].
    + split; [by rewrite length_replicate|by apply Forall_replicate].
    + done.
    + rewrite length_replicate. lia.
    + split; [done|lia].
    + apply Hs.
  - by exists s'.
Qed.

Lemma print_default_ok c p s :
  shows 80 p s ->
  let r := default blank (lines p !! line p) in
  let p' := mk_paper (<[line p := <[Z.to_nat (col p) := (u8 c, GRAY_ON_BLACK)]> r]> (lines p)) (line p) (col p + 1) in
  exists s', put_cell (cy s) (cx s) (u8 c, GRAY_ON_BLACK) s = Ok (tt, s') /\ shows 81 p' (set_cx (u32 (cx s + 1)) s').
Proof.
  intros Hs. destruct (sh_lines _ _ _ Hs) as [Hlen Hrows]. destruct (sh_line _ _ _ Hs) as [Hline Hcy].
  destruct (sh_col _ _ _ Hs) as [Hcx Hcol]. pose proof (shows_grid _ _ _ Hs) as [Hgl Hgr]. pose proof (sh_fb _ _ _ Hs) as Hfb.
  destruct (lookup_lt_is_Some_2 (lines p) (line p)) as [r Hr]; [lia|]. cbv zeta. rewrite Hr. cbn [default].
  pose proof (Forall_lookup_1 _ _ _ _ Hrows Hr) as Hrl. cbn in Hrl.
  assert (fb s !! Z.to_nat (cy s) = Some r) as Hfr.
  { rewrite Hfb, lookup_drop. rewrite <- Hr. f_equal. lia. }
  rewrite put_cell_ok; [|lia|intros r' Hr'; simplify_eq; lia]. eexists. split; [reflexivity|].
  split; cbn [lines line col fb cx cy set_cx set_fb inited].
  - rewrite length_insert. split; [done|]. apply Forall_insert; [done|]. by rewrite length_insert.
  - rewrite length_insert. apply list_eq. intros i. destruct (decide (i = Z.to_nat (cy s))) as [->|Hne].
    + rewrite list_lookup_alter_eq, Hfr. cbn [fmap option_fmap option_map]. rewrite lookup_drop.
      replace (length (lines p) - 25 + Z.to_nat (cy s))%nat with (line p) by lia.
      rewrite list_lookup_insert_eq by lia. by rewrite Hcx.
    + rewrite list_lookup_alter_ne by done. rewrite Hfb, !lookup_drop. by rewrite list_lookup_insert_ne by lia.
  - rewrite length_insert. done.
  - rewrite u32_small by lia. lia.
  - apply Hs.
Qed.

Lemma init_done p s : shows 80 p s -> init s = Ok (tt, s).
Proof. intros Hs. unfold init. erewrite bindM_step by reflexivity. by rewrite (sh_inited _ _ _ Hs). Qed.

(** A character after the driver is initialised. *)
Lemma putc_ok c p s s0 :
  init s0 = Ok (tt, s) -> shows 80 p s ->
  exists s', vga_putc c s0 = Ok (tt, s') /\ shows 80 (print_char c p) s' /\ crtc_cursor s' = cx s' + COL_CNT * cy s'.
Proof.
  intros Hinit Hs. destruct (sh_col _ _ _ Hs) as [Hcx Hcol]. unfold vga_putc. rewrite (bindM_step _ _ _ _ _ Hinit).
  assert (forall (m : M vga unit), (exists s1, m s = Ok (tt, s1) /\ shows 80 (print_char c p) s1) ->
    exists s', (m ;; move_cursor) s = Ok (tt, s') /\ shows 80 (print_char c p) s' /\ crtc_cursor s' = cx s' + COL_CNT * cy s') as Hgo.
  { intros m (s1 & Hm & Hs1). rewrite (bindM_step _ _ _ _ _ Hm). by apply move_cursor_ok. }
  apply Hgo. clear Hgo. unfold print_char.
  destruct (c =? 10). { destruct (newline_ok 80 p s Hs) as (s1 & H1 & H2 & _). by exists s1. }
  destruct (c =? 12). { destruct (cls_ok 80 p s Hs) as (s1 & H1 & H2). by exists s1. }
  destruct (c =? 8).
  { erewrite bindM_step by reflexivity. rewrite Hcx. destruct (Z.ltb_spec 0 (col p)) as [Hp|Hp].
    - eexists. split; [reflexivity|]. rewrite Z.max_r by lia. apply (shows_col 80); [done|lia].
    - exists s. split; [done|]. rewrite Z.max_l by lia. replace 0 with (col p) by lia. by destruct p. }
  destruct (c =? 13). { eexists. split; [reflexivity|]. apply (shows_col 80); [done|lia]. }
  destruct (c =? 9).
  { erewrite bindM_step by reflexivity. cbv zeta. rewrite Hcx. unfold ROUND_UP.
    replace ((col p + 1 + 8 - 1) / 8 * 8) with ((col p / 8 + 1) * 8) by zlia.
    rewrite u32_small by zlia. erewrite bindM_step by reflexivity. set (x := (col p / 8 + 1) * 8).
    destruct (wrap_ok 81 (mk_paper (lines p) (line p) x) (set_cx x s)) as (s1 & H1 & H2 & _).
    - apply (shows_col 80); [done|unfold x; zlia].
    - lia.
    - by exists s1. }
  erewrite bindM_step by reflexivity. erewrite bindM_step by reflexivity.
  destruct (print_default_ok c p s Hs) as (s1 & H1 & H2). rewrite (bindM_step _ _ _ _ _ H1).
  erewrite bindM_step by reflexivity. cbv zeta in H2 |- *. cbn [col] in *.
  set (p' := mk_paper _ _ _) in *. rewrite Hcx in H2 |- *.
  destruct (wrap_ok 81 p' _ H2) as (s2 & H3 & H4 & _); [lia|]. by exists s2.
Qed.

Lemma find_cursor_ok s : 0 <= crtc_cursor s < 2000 ->
  find_cursor s = Ok ((crtc_cursor s mod 80, crtc_cursor s / 80), mk_vga (cx s) (cy s) (inited s) (fb s) 0x0f (crtc_cursor s)).
Proof.
  intros Hc. assert (Z.lor (u16 (Z.shiftl (crtc_cursor s / 2 ^ 8) 8)) (crtc_cursor s mod 2 ^ 8) = crtc_cursor s) as Hcp.
  { assert (forallb (fun c => Z.lor (u16 (Z.shiftl (c / 2 ^ 8) 8)) (c mod 2 ^ 8) =? c) (seqZ 0 2000) = true) as Hall
      by (vm_compute; reflexivity).
    rewrite forallb_forall in Hall. apply Z.eqb_eq, Hall, list_elem_of_In, elem_of_seqZ. lia. }
  unfold find_cursor, outb_crtc, inb_crtc, modify, gets, mbind, M_bind. cbn [crtc_index crtc_cursor cx cy inited fb].
  change (0x0e =? 0x0e) with true. change (0x0f =? 0x0e) with false. change (0x0f =? 0x0f) with true. cbv iota zeta.
  by rewrite Hcp.
Qed.

Fixpoint putc_all (cs : list Z) : M vga unit :=
  match cs with [] => mret tt | c :: cs => vga_putc c ;; putc_all cs end.

Lemma putc_all_ok cs p s :
  shows 80 p s -> crtc_cursor s = cx s + COL_CNT * cy s ->
  exists s', putc_all cs s = Ok (tt, s') /\ shows 80 (foldl (fun p c => print_char c p) p cs) s' /\
    crtc_cursor s' = cx s' + COL_CNT * cy s'.
Proof.
  revert p s. induction cs as [|c cs IH]; intros p s Hs Hc; cbn [putc_all foldl]; [by exists s|].
  destruct (putc_ok c p s s (init_done p s Hs) Hs) as (s1 & H1 & H2 & H3). rewrite (bindM_step _ _ _ _ _ H1). by apply IH.
Qed.

(** C23. The display never leaves its framebuffer: started with the hardware
    cursor anywhere on the screen, any sequence of characters is displayed
    without an access outside the 25 rows of 80 cells; the screen then shows
    the last 25 lines a printer on endless paper would have printed below what
    was there, and the hardware cursor is where the next character goes. *)
Theorem vga_shows_last_lines (s : vga) (c : Z) (cs : list Z) :
  inited s = false -> grid (fb s) -> 0 <= crtc_cursor s < 2000 ->
  exists s', putc_all (c :: cs) s = Ok (tt, s') /\
    shows 80 (foldl (fun p c => print_char c p)
                (mk_paper (fb s) (Z.to_nat (crtc_cursor s / 80)) (crtc_cursor s mod 80)) (c :: cs)) s' /\
    crtc_cursor s' = cx s' + COL_CNT * cy s'.
Proof.
  intros Hi [Hgl Hgr] Hc. set (p := mk_paper _ _ _).
  assert (exists s1, init s = Ok (tt, s1) /\ shows 80 p s1) as (s1 & H1 & Hs1).
  { eexists. split.
    - unfold init. erewrite bindM_step by reflexivity. rewrite Hi.
      rewrite (bindM_step _ _ _ _ _ (find_cursor_ok s Hc)). reflexivity.
    - cbn [fb crtc_index crtc_cursor]. split; cbn [p lines line col fb cx cy inited].
      + split; [lia|done].
      + by rewrite Hgl.
      + rewrite Hgl. zlia.
      + split; [done|zlia].
      + done. }
  cbn [putc_all foldl]. destruct (putc_ok c p s1 s H1 Hs1) as (s2 & H2 & Hs2 & Hc2). rewrite (bindM_step _ _ _ _ _ H2).
  by apply putc_all_ok.
Qed.

Definition demo_screen : vga := mk_vga 0 0 false (replicate 25 (replicate 80 (0, 0))) 0 1999.

(** Two characters from the last cell on: the screen scrolls once. *)
Lemma vga_shows_last_lines_witness :
  exists s', putc_all [65; 66] demo_screen = Ok (tt, s') /\
    shows 80 (foldl (fun p c => print_char c p) (mk_paper (replicate 25 (replicate 80 (0, 0))) 24 79) [65; 66]) s' /\
    crtc_cursor s' = cx s' + COL_CNT * cy s'.
Proof.
  apply (vga_shows_last_lines demo_screen 65 [66]); [done| |cbn; lia].
  split; [done|by apply Forall_replicate].
Defined.
