(* ===== verification/Console.v ===== *)
(** * The consoles: lib/kernel/console.c, lib/user/console.c and hex_dump

    The kernel's console writes every character to the serial port and to the
    display, under a lock that one thread may take several times.  The state
    holds the lock's holder, the running thread and whether it runs in an
    interrupt handler; a thread that would have to wait for another never
    continues in this sequential view ([WaitsForever]).  The serial driver is a
    parameter; the display is [Vga].

    User programs collect characters in a buffer of 64 bytes and write it to a
    file handle. *)

From Stdlib Require Import Ascii.
From stdpp Require Import strings.
From S2P Require Import Prelude Ctype Mem Vaddr Str Stdio StdioSpec Vga.

(** ** lib/kernel/console.c *)

Section console.
Context {D : Type} (serial_putc : Z -> M D unit).

Record console : Type := mk_console {
  lock_holder : option Z; use_console_lock : bool; console_lock_depth : Z; write_cnt : Z;
  cur_thread : Z; in_intr : bool; serial : D; display : vga }.

Definition set_holder (h : option Z) (s : console) : console :=
  mk_console h (use_console_lock s) (console_lock_depth s) (write_cnt s) (cur_thread s) (in_intr s) (serial s) (display s).
Definition set_depth (d : Z) (s : console) : console :=
  mk_console (lock_holder s) (use_console_lock s) d (write_cnt s) (cur_thread s) (in_intr s) (serial s) (display s).
Definition set_use (b : bool) (s : console) : console :=
  mk_console (lock_holder s) b (console_lock_depth s) (write_cnt s) (cur_thread s) (in_intr s) (serial s) (display s).

Definition console_init : M console unit := modify (fun s => set_use true (set_holder None s)).
Definition console_panic : M console unit := modify (set_use false).

Definition lock_held_by_current_thread (s : console) : bool :=
  match lock_holder s with Some t => t =? cur_thread s | None => false end.

Definition lock_acquire : M console unit := fun s =>
  match lock_holder s with
  | None => Ok (tt, set_holder (Some (cur_thread s)) s)
  | Some _ => Fail WaitsForever
  end.
Definition lock_release : M console unit := fun s =>
  if lock_held_by_current_thread s then Ok (tt, set_holder None s) else Fail AssertFailed.

Definition acquire_console : M console unit :=
  s ← get;
  if negb (in_intr s) && use_console_lock s then
    if lock_held_by_current_thread s then modify (set_depth (s32 (console_lock_depth s + 1)))
    else lock_acquire
  else mret tt.

Definition release_console : M console unit :=
  s ← get;
  if negb (in_intr s) && use_console_lock s then
    if 0 <? console_lock_depth s then modify (set_depth (console_lock_depth s - 1))
    else lock_release
  else mret tt.

Definition console_locked_by_current_thread (s : console) : bool :=
  in_intr s || negb (use_console_lock s) || lock_held_by_current_thread s.

Definition putchar_have_lock (c : Z) : M console unit := fun s =>
  _ ← ASSERT (console_locked_by_current_thread s);
  '(_, d) ← serial_putc (u8 c) (serial s);
  '(_, v) ← vga_putc (u8 c) (display s);
  Ok (tt, mk_console (lock_holder s) (use_console_lock s) (console_lock_depth s) (s64 (write_cnt s + 1))
            (cur_thread s) (in_intr s) d v).

(** [vprintf_helper] with its counter next to the console. *)
Definition vprintf_helper (c : Z) : M (console * Z) unit := fun '(s, char_cnt) =>
  '(_, s) ← putchar_have_lock c s;
  Ok (tt, (s, s32 (char_cnt + 1))).

Definition vprintf (strings : mem) (sfuel : nat) (format : list Z) (args : va_list) : M console Z :=
  acquire_console ;;
  cnt ← (fun s => '(_, (s, n)) ← __printf vprintf_helper strings sfuel format args (s, 0); Ok (n, s));
  release_console ;;
  mret cnt.

Definition printf := vprintf.

Fixpoint put_all (l : list Z) : M console unit :=
  match l with [] => mret tt | c :: l => putchar_have_lock c ;; put_all l end.

(** [puts] of the string [s]. *)
Definition puts (s : list Z) : M console Z :=
  acquire_console ;;
  put_all s ;;
  putchar_have_lock 10 ;;
  release_console ;;
  mret 0.

Definition putbuf (buffer : list Z) (n : Z) : M console unit :=
  acquire_console ;;
  put_all (take (Z.to_nat n) buffer) ;;
  release_console.

Definition putchar (c : Z) : M console Z :=
  acquire_console ;;
  putchar_have_lock c ;;
  release_console ;;
  mret c.

(** ** hex_dump *)

Definition print (format : string) (args : va_list) : M console unit :=
  printf ∅ 0 (c_str format) args ;; mret tt.

(** [for (; i < last; i++) printf (format)]. *)
Fixpoint print_times (n : nat) (format : string) : M console unit :=
  match n with O => mret tt | S n => print format [] ;; print_times n format end.

(** The bytes of a line, from column [i] on. *)
Fixpoint dump_bytes (bytes : list Z) (i : Z) : M console unit :=
  match bytes with
  | [] => mret tt
  | b :: bytes => print "%02hhx%c" [b; if i =? 7 then 45 else 32] ;; dump_bytes bytes (i + 1)
  end.
Fixpoint dump_ascii (bytes : list Z) : M console unit :=
  match bytes with
  | [] => mret tt
  | b :: bytes => print "%c" [if isprint b then b else 46] ;; dump_ascii bytes
  end.

Definition dump_line (ofs start n : Z) (bytes : list Z) (ascii : bool) : M console unit :=
  print "%08jx  " [ofs - ofs mod 16; 0] ;;
  print_times (Z.to_nat start) "   " ;;
  dump_bytes bytes start ;;
  (if ascii then
     print_times (Z.to_nat (16 - (start + n))) "   " ;;
     print "|" [] ;;
     print_times (Z.to_nat start) " " ;;
     dump_ascii bytes ;;
     print_times (Z.to_nat (16 - (start + n))) " " ;;
     print "|" []
   else mret tt) ;;
  printf ∅ 0 [10; 0] [] ;;
  mret tt.

Fixpoint hex_dump (fuel : nat) (ofs : Z) (buf : list Z) (ascii : bool) : M console unit :=
  match buf, fuel with
  | [], _ => mret tt
  | _, O => fail NoFuel
  | _, S fuel =>
      let size := Z.of_nat (length buf) in
      let start := ofs mod 16 in
      let end' := if size <? 16 - start then start + size else 16 in
      let n := end' - start in
      dump_line ofs start n (take (Z.to_nat n) buf) ascii ;;
      hex_dump fuel (u32 (ofs + n)) (drop (Z.to_nat n) buf) ascii
  end.
End console.

(** ** lib/user/console.c *)

Section user.
(** The system call: a handle and the bytes written. *)
Context {U : Type} (write : Z -> list Z -> M U unit).

(** [buf] up to [p], in order. *)
Record vhprintf_aux : Type := mk_vh { vh_buf : list Z; vh_cnt : Z; vh_handle : Z; vh_user : U }.

Definition flush : M vhprintf_aux unit := fun a =>
  if 0 <? Z.of_nat (length (vh_buf a)) then
    '(_, u) ← write (vh_handle a) (vh_buf a) (vh_user a);
    Ok (tt, mk_vh [] (vh_cnt a) (vh_handle a) u)
  else Ok (tt, mk_vh [] (vh_cnt a) (vh_handle a) (vh_user a)).

Definition add_char (c : Z) : M vhprintf_aux unit :=
  (fun a => if Z.of_nat (length (vh_buf a)) <? 64
            then Ok (tt, mk_vh (vh_buf a ++ [c]) (vh_cnt a) (vh_handle a) (vh_user a)) else Fail BadAccess) ;;
  n ← gets (fun a => Z.of_nat (length (vh_buf a)));
  (if 64 <=? n then flush else mret tt) ;;
  modify (fun a => mk_vh (vh_buf a) (s32 (vh_cnt a + 1)) (vh_handle a) (vh_user a)).

Definition vhprintf (strings : mem) (sfuel : nat) (handle : Z) (format : list Z) (args : va_list) : M U Z := fun u =>
  '(_, a) ← __printf add_char strings sfuel format args (mk_vh [] 0 handle u);
  '(_, a) ← flush a;
  Ok (vh_cnt a, vh_user a).

Definition hprintf := vhprintf.
Definition user_vprintf (strings : mem) (sfuel : nat) (format : list Z) (args : va_list) : M U Z :=
  vhprintf strings sfuel 1 format args.

Definition user_putchar (c : Z) : M U Z := write 1 [u8 c] ;; mret c.
Definition user_puts (s : list Z) : M U Z := write 1 s ;; user_putchar 10 ;; mret 0.
End user.

(** ** Printing on the kernel's console *)

Section printing.
Context {D : Type} (serial_putc : Z -> M D unit) (sent : D -> list Z).
(** The serial driver accepts every byte. *)
Hypothesis serial_sends : forall c d, exists d', serial_putc c d = Ok (tt, d') /\ sent d' = sent d ++ [c].

(** The lock is free and the depth zero, the running thread has it, or it is
    not used. *)
Definition lock_ok (s : console (D := D)) : Prop :=
  in_intr s = true \/ use_console_lock s = false \/
  (lock_holder s = None /\ console_lock_depth s = 0) \/
  (lock_holder s = Some (cur_thread s) /\ 0 <= console_lock_depth s < 2 ^ 31 - 1).

Definition at_cursor (p : paper) (v : vga) : Prop := shows 80 p v /\ crtc_cursor v = cx v + COL_CNT * cy v.

(** [s'] is [s] after the bytes [l] were printed. *)
Definition printed (l : list Z) (p : paper) (s s' : console (D := D)) : Prop :=
  sent (serial s') = sent (serial s) ++ l /\ at_cursor (foldl (fun p c => print_char c p) p l) (display s') /\
  write_cnt s' = s64 (write_cnt s + Z.of_nat (length l)) /\
  lock_holder s' = lock_holder s /\ console_lock_depth s' = console_lock_depth s /\
  use_console_lock s' = use_console_lock s /\ cur_thread s' = cur_thread s /\ in_intr s' = in_intr s.

Lemma s64_add a b : s64 (s64 a + b) = s64 (a + b).
Proof.
  unfold s64. replace ((a + 2 ^ 63) mod 2 ^ 64 - 2 ^ 63 + b + 2 ^ 63) with ((a + 2 ^ 63) mod 2 ^ 64 + b) by lia.
  rewrite Zplus_mod_idemp_l. do 2 f_equal. lia.
Qed.

Lemma put_one c p s :
  console_locked_by_current_thread s = true -> at_cursor p (display s) -> 
  exists s', putchar_have_lock serial_putc c s = Ok (tt, s') /\ printed [u8 c] p s s'.
Proof.
  intros Hl [Hv Hc]. unfold putchar_have_lock. rewrite Hl. cbn [mbind res_bind ASSERT].
  destruct (serial_sends (u8 c) (serial s)) as (d & -> & Hd). cbn [mbind res_bind].
  destruct (putc_ok (u8 c) p (display s) (display s) (init_done p _ Hv) Hv) as (v & -> & Hv' & Hc'). cbn [mbind res_bind].
  eexists. split; [reflexivity|]. unfold printed. cbn. split_and!; try done.
Qed.

Lemma locked_same l p s s' :
  printed l p s s' -> console_locked_by_current_thread s = true -> console_locked_by_current_thread s' = true.
Proof.
  intros (_ & _ & _ & H1 & _ & H2 & H3 & H4). unfold console_locked_by_current_thread, lock_held_by_current_thread.
  by rewrite H1, H2, H3, H4.
Qed.

Lemma printed_app l1 l2 p s s1 s2 :
  printed l1 p s s1 -> printed l2 (foldl (fun p c => print_char c p) p l1) s1 s2 -> printed (l1 ++ l2) p s s2.
Proof.
  intros (A1 & A2 & A3 & A4 & A5 & A6 & A7 & A8) (B1 & B2 & B3 & B4 & B5 & B6 & B7 & B8). unfold printed.
  rewrite foldl_app, length_app, B1, A1, B3, A3, s64_add, app_assoc. split_and!; try congruence.
  f_equal. lia.
Qed.

(** The callback, character by character. *)
Lemma helper_prints l p s n :
  console_locked_by_current_thread s = true -> at_cursor p (display s) -> 0 <= n -> n + Z.of_nat (length l) < 2 ^ 31 ->
  write_cnt s = s64 (write_cnt s) ->
  exists s', output_all (vprintf_helper serial_putc) l (s, n) = Ok (tt, (s', n + Z.of_nat (length l))) /\
    printed (u8 <$> l) p s s'.
Proof.
  revert p s n. induction l as [|c l IH]; intros p s n Hl Hv Hn Hlen Hw; cbn [output_all length fmap list_fmap] in *.
  { exists s. rewrite Z.add_0_r. split; [done|]. unfold printed. cbn. rewrite app_nil_r, Z.add_0_r. by destruct Hv. }
  destruct (put_one c p s Hl Hv) as (s1 & H1 & P1).
  assert (vprintf_helper serial_putc c (s, n) = Ok (tt, (s1, n + 1))) as Hh.
  { unfold vprintf_helper. rewrite H1. cbn [mbind res_bind]. by rewrite s32_small by lia. }
  rewrite (bindM_step _ _ _ _ _ Hh).
  destruct (IH (print_char (u8 c) p) s1 (n + 1)) as (s2 & H2 & P2).
  - by eapply locked_same.
  - apply P1.
  - lia.
  - lia.
  - destruct P1 as (_ & _ & -> & _). rewrite <- (Z.add_0_r (s64 _)) at 2. by rewrite s64_add, Z.add_0_r.
  - exists s2. replace (n + Z.of_nat (S (length l))) with (n + 1 + Z.of_nat (length l)) by lia. split; [done|].
    apply (printed_app [u8 c] (u8 <$> l) p s s1 s2 P1 P2).
Qed.

(** Taking and giving back the lock around [m]. *)
Lemma with_lock {X} (m : M console X) (x : X) l p s :
  lock_ok s ->
  (forall s, console_locked_by_current_thread s = true -> at_cursor p (display s) -> write_cnt s = s64 (write_cnt s) ->
     exists s', m s = Ok (x, s') /\ printed l p s s') ->
  at_cursor p (display s) -> write_cnt s = s64 (write_cnt s) ->
  exists s', (acquire_console ;; y ← m; release_console ;; mret y) s = Ok (x, s') /\ printed l p s s'.
Proof.
  intros Hlock Hm Hv Hw. unfold acquire_console. unfold mbind at 1, M_bind at 1. unfold mbind at 1, M_bind at 1. cbn [get].
  destruct (negb (in_intr s) && use_console_lock s) eqn:Huse; cycle 1.
  - cbn. destruct (Hm s) as (s' & Hs & P); [|done|done|].
    { unfold console_locked_by_current_thread. destruct (in_intr s), (use_console_lock s); done. }
    exists s'. rewrite (bindM_step _ _ _ _ _ Hs). split; [|done]. unfold release_console.
    destruct P as (_ & _ & _ & _ & _ & H2 & _ & H4). unfold mbind, M_bind, get. by rewrite H2, H4, Huse.
  - apply andb_true_iff in Huse as [Hni%negb_true_iff Hu]. destruct Hlock as [?|[?|[[Hh Hd]|[Hh Hd]]]]; [congruence..| |].
    + unfold lock_held_by_current_thread. rewrite Hh. unfold lock_acquire. rewrite Hh.
      set (s1 := set_holder (Some (cur_thread s)) s). destruct (Hm s1) as (s2 & Hs & P); [|done|done|].
      { unfold console_locked_by_current_thread, lock_held_by_current_thread. cbn. rewrite Z.eqb_refl. by rewrite orb_true_r. }
      rewrite (bindM_step _ _ _ _ _ Hs). pose proof P as (A1 & A2 & A3 & A4 & A5 & A6 & A7 & A8). cbn in *.
      eexists. split.
      * unfold release_console, mbind, M_bind, get, lock_release, lock_held_by_current_thread.
        rewrite A8, A6, Hni, Hu, A5, Hd. cbn. rewrite A4, A7, Z.eqb_refl. reflexivity.
      * unfold printed. cbn. rewrite Hh. by split_and!.
    + unfold lock_held_by_current_thread. rewrite Hh, Z.eqb_refl. rewrite s32_small by lia. cbn [modify].
      set (s1 := set_depth _ s). destruct (Hm s1) as (s2 & Hs & P); [|done|done|].
      { unfold console_locked_by_current_thread, lock_held_by_current_thread. cbn. rewrite Hh, Z.eqb_refl. by rewrite orb_true_r. }
      unfold modify. rewrite (bindM_step _ _ _ _ _ Hs). pose proof P as (A1 & A2 & A3 & A4 & A5 & A6 & A7 & A8). cbn in *.
      eexists. split.
      * unfold release_console, mbind, M_bind, get. rewrite A8, A6, Hni, Hu, A5.
        rewrite (proj2 (Z.ltb_lt 0 _)) by lia. cbn. reflexivity.
      * unfold printed. cbn. split_and!; try done. lia.
Qed.

(** printf on the kernel's console sends exactly the text, byte for byte,
    to the serial port and to the display, counts its characters in [write_cnt]
    and in the result, and leaves the console lock as it was: free, or held by
    the running thread to the same depth, or unused in interrupt handlers and
    after a panic. *)
Theorem console_printf (strings : mem) (sfuel : nat) (format : list Z) (args : va_list) (text : list Z) (p : paper)
    (s : console) :
  printf_text strings sfuel format args = Ok text -> Z.of_nat (length text) < 2 ^ 31 ->
  lock_ok s -> at_cursor p (display s) -> write_cnt s = s64 (write_cnt s) ->
  exists s', printf serial_putc strings sfuel format args s = Ok (Z.of_nat (length text), s') /\
    printed (u8 <$> text) p s s'.
Proof.
  intros Ht Hlen Hlock Hv Hw. unfold printf, vprintf. apply with_lock; try done. intros s1 Hl1 Hv1 Hw1.
  unfold __printf. rewrite (vprintf_emit _ _ _ _ _ _ _ _ Ht).
  destruct (helper_prints text p s1 0 Hl1 Hv1 ltac:(lia) ltac:(lia) Hw1) as (s2 & -> & P). cbn [mbind res_bind].
  by exists s2.
Qed.
End printing.

Definition serial_log (c : Z) : M (list Z) unit := fun l => Ok (tt, l ++ [c]).

Definition demo_console : console :=
  mk_console None true 0 0 7 false ([] : list Z) (mk_vga 0 0 true (lines fresh_paper) 0 0).

Lemma demo_at_cursor : at_cursor fresh_paper (display demo_console).
Proof. split; [|done]. split; cbn; try done; [by split; [lia|repeat constructor]|lia]. Qed.

Lemma console_printf_witness :
  exists s', printf serial_log ∅ 0 (c_str "%d%%") [42] demo_console = Ok (3, s') /\
    printed id (u8 <$> chars "42%") fresh_paper demo_console s'.
Proof.
  apply (console_printf serial_log id (fun c d => ex_intro _ (d ++ [c]) (conj eq_refl eq_refl)) ∅ 0
           (c_str "%d%%") [42] (chars "42%") fresh_paper demo_console).
  - vm_compute. reflexivity.
  - vm_compute. reflexivity.
  - right. right. left. done.
  - apply demo_at_cursor.
  - done.
Defined.

Example hex_dump_line :
  match hex_dump serial_log 2 0x1234 (chars "Pintos" ++ [0]) true demo_console with
  | Ok (_, s) => serial s
  | Fail _ => []
  end = chars "00001230              50 69 6e 74-6f 73 00                |    Pintos.     |" ++ [10].
Proof. vm_compute. reflexivity. Qed.

(** ** Printing by a user program *)

Definition write_log (h : Z) (l : list Z) : M (list (Z * list Z)) unit := fun u => Ok (tt, u ++ [(h, l)]).

(** What has been written and what is still in the buffer. *)
Lemma add_char_ok c a : (length (vh_buf a) < 64)%nat ->
  add_char write_log c a =
  Ok (tt, if (length (vh_buf a) =? 63)%nat
          then mk_vh [] (s32 (vh_cnt a + 1)) (vh_handle a) (vh_user a ++ [(vh_handle a, vh_buf a ++ [c])])
          else mk_vh (vh_buf a ++ [c]) (s32 (vh_cnt a + 1)) (vh_handle a) (vh_user a)).
Proof.
  intros Hl. unfold add_char. unfold mbind, M_bind. rewrite (proj2 (Z.ltb_lt _ 64)) by lia.
  unfold gets. cbn [vh_buf]. rewrite length_app. cbn [length].
  destruct (Nat.eqb_spec (length (vh_buf a)) 63) as [He|He].
  - rewrite (proj2 (Z.leb_le 64 _)) by lia. unfold flush. cbn [vh_buf]. rewrite length_app. cbn [length].
    rewrite (proj2 (Z.ltb_lt 0 _)) by lia. done.
  - rewrite (proj2 (Z.leb_gt 64 _)) by lia. done.
Qed.

Lemma add_chars_ok l a : (length (vh_buf a) < 64)%nat -> 0 <= vh_cnt a -> vh_cnt a + Z.of_nat (length l) < 2 ^ 31 ->
  exists a' chunks, output_all (add_char write_log) l a = Ok (tt, a') /\ (length (vh_buf a') < 64)%nat /\
    vh_cnt a' = vh_cnt a + Z.of_nat (length l) /\ vh_handle a' = vh_handle a /\
    vh_user a' = vh_user a ++ (pair (vh_handle a) <$> chunks) /\
    vh_buf a ++ l = concat chunks ++ vh_buf a' /\ Forall (fun b => length b = 64%nat) chunks.
Proof.
  revert a. induction l as [|c l IH]; intros a Hl Hc Hlen; cbn [output_all length] in *.
  { exists a, []. cbn. rewrite !app_nil_r. split_and!; try done. lia. }
  rewrite (bindM_step _ _ _ _ _ (add_char_ok c a Hl)). rewrite s32_small by lia.
  destruct (Nat.eqb_spec (length (vh_buf a)) 63) as [He|He].
  - destruct (IH (mk_vh [] (vh_cnt a + 1) (vh_handle a) (vh_user a ++ [(vh_handle a, vh_buf a ++ [c])])))
      as (a' & ch & H1 & H2 & H3 & H4 & H5 & H6 & H7); cbn in *; [lia..|].
    exists a', ((vh_buf a ++ [c]) :: ch). split_and!; try done; [lia|by rewrite H5, <- app_assoc| |].
    + cbn [concat]. rewrite H6, <- !app_assoc. done.
    + constructor; [|done]. rewrite length_app. cbn. lia.
  - destruct (IH (mk_vh (vh_buf a ++ [c]) (vh_cnt a + 1) (vh_handle a) (vh_user a)))
      as (a' & ch & H1 & H2 & H3 & H4 & H5 & H6 & H7); cbn in *; [rewrite length_app; cbn; lia|lia..|].
    exists a', ch. split_and!; try done; [lia|]. by rewrite <- H6, <- app_assoc.
Qed.

(** A user program's printf writes the text in pieces of 64 bytes, the last
    one shorter, and returns its length. *)
Lemma vhprintf_chunks strings sfuel handle format args text u :
  printf_text strings sfuel format args = Ok text -> Z.of_nat (length text) < 2 ^ 31 ->
  exists chunks rest, vhprintf write_log strings sfuel handle format args u =
      Ok (Z.of_nat (length text), u ++ (pair handle <$> chunks ++ rest)) /\
    concat (chunks ++ rest) = text /\ Forall (fun b => length b = 64%nat) chunks /\
    (length rest <= 1)%nat /\ Forall (fun b => 0 < length b < 64)%nat rest.
Proof.
  intros Ht Hlen. unfold vhprintf, __printf. rewrite (vprintf_emit _ _ _ _ _ _ _ _ Ht).
  destruct (add_chars_ok text (mk_vh [] 0 handle u)) as (a & ch & -> & H2 & H3 & H4 & H5 & H6 & H7); [cbn; lia..|].
  cbn [mbind res_bind]. cbn in H3, H4, H5, H6. unfold flush. destruct (vh_buf a) as [|c b] eqn:Hb.
  - exists ch, []. cbn. rewrite H3, H5, !app_nil_r in *. split_and!; try done. lia.
  - exists ch, [c :: b]. cbn [length]. rewrite (proj2 (Z.ltb_lt 0 _)) by lia. cbn. rewrite H3, H4, H5, fmap_app, <- app_assoc.
    split_and!; try done; [by rewrite concat_app; cbn; rewrite app_nil_r|].
    constructor; [cbn in H2 |- *; lia|done].
Qed.
