(* ===== verification/Descriptors.v ===== *)
(** * Descriptor tables and interrupt controllers

    userprog/gdt.c, userprog/tss.c and the tables of threads/interrupt.c.  What
    these files write is read by hardware, so the specification is the
    hardware's: how the processor takes a segment descriptor or a gate apart
    ([seg_of], [gate_of], after the manuals of the processor) and what two 8259A
    interrupt controllers do with the bytes sent to them ([pic]).  Addresses of
    functions of the assembly code ([intr_stubs]) are parameters.  The names of
    the interrupts, which are only printed, are left out. *)

From S2P Require Import Prelude Vaddr.

(** threads/loader.h, userprog/gdt.h *)
Definition SEL_NULL : Z := 0x00.
Definition SEL_KCSEG : Z := 0x08.
Definition SEL_KDSEG : Z := 0x10.
Definition SEL_UCSEG : Z := 0x1b.
Definition SEL_UDSEG : Z := 0x23.
Definition SEL_TSS : Z := 0x28.
Definition SEL_CNT : Z := 6.

(** ** userprog/gdt.c *)

Inductive seg_class : Type := CLS_SYSTEM | CLS_CODE_DATA.
Inductive seg_granularity : Type := GRAN_BYTE | GRAN_PAGE.
Definition class_bit (c : seg_class) : Z := match c with CLS_SYSTEM => 0 | CLS_CODE_DATA => 1 end.
Definition gran_bit (g : seg_granularity) : Z := match g with GRAN_BYTE => 0 | GRAN_PAGE => 1 end.

Definition make_seg_desc (base limit : Z) (class : seg_class) (type dpl : Z) (granularity : seg_granularity) : res Z :=
  _ ← ASSERT (limit <=? 0xfffff);
  _ ← ASSERT ((0 <=? type) && (type <=? 15));
  _ ← ASSERT ((0 <=? dpl) && (dpl <=? 3));
  let e0 := Z.lor (Z.land limit 0xffff) (u32 (Z.shiftl base 16)) in
  let e1 :=
    Z.lor (Z.lor (Z.lor (Z.lor (Z.lor (Z.lor (Z.lor (Z.lor (Z.land (Z.shiftr base 16) 0xff)
      (Z.shiftl type 8)) (Z.shiftl (class_bit class) 12)) (Z.shiftl dpl 13)) (Z.shiftl 1 15)) (Z.land limit 0xf0000))
      (Z.shiftl 1 22)) (Z.shiftl (gran_bit granularity) 23)) (Z.land base 0xff000000) in
  Ok (Z.lor e0 (Z.shiftl e1 32)).

Definition make_code_desc (dpl : Z) : res Z := make_seg_desc 0 0xfffff CLS_CODE_DATA 10 dpl GRAN_PAGE.
Definition make_data_desc (dpl : Z) : res Z := make_seg_desc 0 0xfffff CLS_CODE_DATA 2 dpl GRAN_PAGE.
Definition make_tss_desc (laddr : Z) : res Z := make_seg_desc laddr 0x67 CLS_SYSTEM 9 0 GRAN_BYTE.
Definition make_gdtr_operand (limit base : Z) : Z := Z.lor limit (Z.shiftl base 16).

(** [struct tss], as far as it is written: a page of zeros otherwise. *)
Record tss : Type := mk_tss { esp0 : Z; ss0 : Z; bitmap : Z }.

(** The tables and the registers that point to them. *)
Record segments : Type := mk_segments {
  gdt : list Z; gdtr : Z; tr : Z;
  tss_addr : Z; tss_page : tss;
}.

(** ** userprog/tss.c *)

Definition tss_update (thread_current : Z) (s : segments) : res segments :=
  _ ← ASSERT (negb (tss_addr s =? NULL));
  Ok (mk_segments (gdt s) (gdtr s) (tr s) (tss_addr s) (mk_tss (u32 (thread_current + PGSIZE)) (ss0 (tss_page s)) (bitmap (tss_page s)))).

(** [page] is what [palloc_get_page (PAL_ASSERT | PAL_ZERO)] returned. *)
Definition tss_init (page thread_current : Z) (s : segments) : res segments :=
  tss_update thread_current (mk_segments (gdt s) (gdtr s) (tr s) page (mk_tss 0 SEL_KDSEG 0xdfff)).

Definition tss_get (s : segments) : res Z := _ ← ASSERT (negb (tss_addr s =? NULL)); Ok (tss_addr s).

Definition gdt_init (gdt_addr : Z) (s : segments) : res segments :=
  kcode ← make_code_desc 0;
  kdata ← make_data_desc 0;
  ucode ← make_code_desc 3;
  udata ← make_data_desc 3;
  t ← tss_get s;
  task ← make_tss_desc t;
  let g := <[Z.to_nat (SEL_TSS / 8) := task]> (<[Z.to_nat (SEL_UDSEG / 8) := udata]> (<[Z.to_nat (SEL_UCSEG / 8) := ucode]>
           (<[Z.to_nat (SEL_KDSEG / 8) := kdata]> (<[Z.to_nat (SEL_KCSEG / 8) := kcode]> (<[Z.to_nat (SEL_NULL / 8) := 0]> (gdt s)))))) in
  Ok (mk_segments g (make_gdtr_operand (SEL_CNT * 8 - 1) gdt_addr) SEL_TSS (tss_addr s) (tss_page s)).

(** ** threads/interrupt.c: the interrupt descriptor table *)

Definition INTR_CNT : Z := 256.

Definition make_gate (function dpl type : Z) : res Z :=
  _ ← ASSERT (negb (function =? NULL));
  _ ← ASSERT ((0 <=? dpl) && (dpl <=? 3));
  _ ← ASSERT ((0 <=? type) && (type <=? 15));
  let e0 := Z.lor (Z.land function 0xffff) (Z.shiftl SEL_KCSEG 16) in
  let e1 := Z.lor (Z.lor (Z.lor (Z.lor (Z.land function 0xffff0000) (Z.shiftl 1 15)) (Z.shiftl dpl 13)) (Z.shiftl 0 12)) (Z.shiftl type 8) in
  Ok (Z.lor e0 (Z.shiftl e1 32)).

Definition make_intr_gate (function dpl : Z) : res Z := make_gate function dpl 14.
Definition make_trap_gate (function dpl : Z) : res Z := make_gate function dpl 15.
Definition make_idtr_operand (limit base : Z) : Z := Z.lor limit (Z.shiftl base 16).

(** The level at which a handler runs. *)
Inductive handler_level : Type := LevelOff | LevelOn.

Record intr_tables : Type := mk_tables { idt : list Z; intr_handlers : list Z; idtr : Z }.

Section idt.
Context (intr_stubs : Z -> Z).

Fixpoint init_gates (n : nat) (i : Z) (t : list Z) : res (list Z) :=
  match n with
  | O => Ok t
  | S n => g ← make_intr_gate (intr_stubs i) 0; init_gates n (i + 1) (<[Z.to_nat i := g]> t)
  end.

(** Without [pic_init], which comes first. *)
Definition intr_init (idt_addr : Z) (t : intr_tables) : res intr_tables :=
  g ← init_gates (Z.to_nat INTR_CNT) 0 (idt t);
  Ok (mk_tables g (intr_handlers t) (make_idtr_operand (INTR_CNT * 8 - 1) idt_addr)).

Definition register_handler (vec_no dpl : Z) (level : handler_level) (handler : Z) (t : intr_tables) : res intr_tables :=
  _ ← ASSERT (nth (Z.to_nat vec_no) (intr_handlers t) 0 =? NULL);
  g ← (match level with LevelOn => make_trap_gate (intr_stubs vec_no) dpl | LevelOff => make_intr_gate (intr_stubs vec_no) dpl end);
  Ok (mk_tables (<[Z.to_nat vec_no := g]> (idt t)) (<[Z.to_nat vec_no := handler]> (intr_handlers t)) (idtr t)).

Definition intr_register_ext (vec_no handler : Z) (t : intr_tables) : res intr_tables :=
  _ ← ASSERT ((0x20 <=? vec_no) && (vec_no <=? 0x2f));
  register_handler vec_no 0 LevelOff handler t.

Definition intr_register_int (vec_no dpl : Z) (level : handler_level) (handler : Z) (t : intr_tables) : res intr_tables :=
  _ ← ASSERT ((vec_no <? 0x20) || (0x2f <? vec_no));
  register_handler vec_no dpl level handler t.
End idt.

(** ** As the processor reads them *)

Definition field (lo len d : Z) : Z := d / 2 ^ lo mod 2 ^ len.

(** A segment descriptor. *)
Record seg : Type := mk_seg { s_base : Z; s_limit : Z; s_class : Z; s_type : Z; s_dpl : Z; s_present : Z; s_big : Z; s_gran : Z }.
Definition seg_of (d : Z) : seg :=
  mk_seg (field 16 24 d + field 56 8 d * 2 ^ 24) (field 0 16 d + field 48 4 d * 2 ^ 16) (field 44 1 d) (field 40 4 d) (field 45 2 d) (field 47 1 d)
    (field 54 1 d) (field 55 1 d).

(** A gate. *)
Record gate : Type := mk_gate { g_offset : Z; g_selector : Z; g_class : Z; g_type : Z; g_dpl : Z; g_present : Z }.
Definition gate_of (d : Z) : gate :=
  mk_gate (field 0 16 d + field 48 16 d * 2 ^ 16) (field 16 16 d) (field 44 1 d) (field 40 4 d) (field 45 2 d) (field 47 1 d).

(** ** Words put together from fields *)

Lemma lor_add k a b : 0 <= k -> 0 <= a < 2 ^ k -> b mod 2 ^ k = 0 -> Z.lor a b = a + b.
Proof.
  intros Hk Ha Hb. assert (Z.land a b = 0) as Hd.
  { apply Z.bits_inj'. intros i Hi. rewrite Z.land_spec, Z.bits_0. destruct (Z.lt_ge_cases i k).
    - rewrite <- (Z.mod_pow2_bits_low b k i) by lia. by rewrite Hb, Z.bits_0, andb_false_r.
    - by rewrite (word_testbit_high k a) by lia. }
  by rewrite Z.add_nocarry_lxor, Z.lxor_lor.
Qed.

(** A mask of the bits from [lo] on, below [lo + len]. *)
Lemma seg_land_mask lo len x : 0 <= lo -> 0 <= len -> Z.land x (Z.shiftl (Z.ones len) lo) = field lo len x * 2 ^ lo.
Proof.
  intros Hlo Hlen. rewrite <- Z.shiftl_mul_pow2 by done. unfold field. rewrite <- Z.shiftr_div_pow2, <- Z.land_ones by done.
  apply Z.bits_inj'. intros i Hi. rewrite Z.land_spec, !Z.shiftl_spec by done. rewrite Z.land_spec. destruct (Z.lt_ge_cases i lo).
  - rewrite (Z.testbit_neg_r _ (i - lo)) by lia. by rewrite (Z.testbit_neg_r _ (i - lo)), !andb_false_r by lia.
  - rewrite Z.shiftr_spec by lia. do 2 f_equal. lia.
Qed.

Lemma make_seg_desc_sum base limit class type dpl g :
  0 <= base < 2 ^ 32 -> 0 <= limit < 2 ^ 20 -> 0 <= type < 16 -> 0 <= dpl < 4 ->
  make_seg_desc base limit class type dpl g =
    Ok (field 0 16 limit + field 0 16 base * 2 ^ 16 +
        (field 16 8 base + type * 2 ^ 8 + class_bit class * 2 ^ 12 + dpl * 2 ^ 13 + 2 ^ 15 + field 16 4 limit * 2 ^ 16 + 2 ^ 22 +
         gran_bit g * 2 ^ 23 + field 24 8 base * 2 ^ 24) * 2 ^ 32).
Proof.
  intros Hb Hl Ht Hd. unfold make_seg_desc. rewrite (proj2 (Z.leb_le limit _)), (proj2 (Z.leb_le 0 type)), (proj2 (Z.leb_le type 15)),
    (proj2 (Z.leb_le 0 dpl)), (proj2 (Z.leb_le dpl 3)) by lia. cbn [ASSERT mbind res_bind andb]. f_equal.
  assert (Z.land limit 0xffff = field 0 16 limit) as -> by (etransitivity; [exact (seg_land_mask 0 16 limit ltac:(lia) ltac:(lia))|lia]).
  assert (Z.land limit 0xf0000 = field 16 4 limit * 2 ^ 16) as -> by (by apply (seg_land_mask 16 4)).
  assert (Z.land base 0xff000000 = field 24 8 base * 2 ^ 24) as -> by (by apply (seg_land_mask 24 8)).
  assert (Z.land (Z.shiftr base 16) 0xff = field 16 8 base) as -> by (etransitivity; [exact (Z.land_ones _ 8 ltac:(lia))|by rewrite Z.shiftr_div_pow2]).
  assert (u32 (Z.shiftl base 16) = field 0 16 base * 2 ^ 16) as -> by (unfold u32, field; rewrite Z.shiftl_mul_pow2 by lia; zlia).
  assert (0 <= field 0 16 limit < 2 ^ 16 /\ 0 <= field 16 4 limit < 2 ^ 4 /\ 0 <= field 0 16 base < 2 ^ 16 /\ 0 <= field 16 8 base < 2 ^ 8 /\
    0 <= field 24 8 base < 2 ^ 8) as (H1 & H2 & H3 & H4 & H5) by (unfold field; split_and!; apply Z.mod_pos_bound; lia).
  assert (0 <= class_bit class < 2 /\ 0 <= gran_bit g < 2) as [H6 H7] by (by destruct class, g).
  revert H1 H2 H3 H4 H5 H6 H7. generalize (field 0 16 limit), (field 16 4 limit), (field 0 16 base), (field 16 8 base), (field 24 8 base), (class_bit class), (gran_bit g).
  intros l1 l2 b1 b2 b3 c1 g1 H1 H2 H3 H4 H5 H6 H7. rewrite !Z.shiftl_mul_pow2 by lia.
  rewrite (lor_add 8 b2) by zlia. rewrite (lor_add 12 (b2 + _)) by zlia. rewrite (lor_add 13 (b2 + _ + _)) by zlia.
  rewrite (lor_add 15 (b2 + _ + _ + _)) by zlia. rewrite (lor_add 16 (b2 + _ + _ + _ + _)) by zlia. rewrite (lor_add 22 (b2 + _ + _ + _ + _ + _)) by zlia.
  rewrite (lor_add 23 (b2 + _ + _ + _ + _ + _ + _)) by zlia. rewrite (lor_add 24 (b2 + _ + _ + _ + _ + _ + _ + _)) by zlia.
  rewrite (lor_add 16 l1) by zlia. rewrite (lor_add 32 (l1 + _)) by zlia. lia.
Qed.

Lemma make_gate_sum function dpl type :
  0 < function < 2 ^ 32 -> 0 <= dpl < 4 -> 0 <= type < 16 ->
  make_gate function dpl type =
    Ok (field 0 16 function + 8 * 2 ^ 16 + (type * 2 ^ 8 + dpl * 2 ^ 13 + 2 ^ 15 + field 16 16 function * 2 ^ 16) * 2 ^ 32).
Proof.
  intros Hf Hd Ht. unfold make_gate. rewrite (proj2 (Z.eqb_neq function NULL)), (proj2 (Z.leb_le 0 type)), (proj2 (Z.leb_le type 15)),
    (proj2 (Z.leb_le 0 dpl)), (proj2 (Z.leb_le dpl 3)) by (unfold NULL; lia). cbn [ASSERT mbind res_bind andb negb]. f_equal.
  assert (Z.land function 0xffff = field 0 16 function) as -> by (etransitivity; [exact (seg_land_mask 0 16 function ltac:(lia) ltac:(lia))|lia]).
  assert (Z.land function 0xffff0000 = field 16 16 function * 2 ^ 16) as -> by (by apply (seg_land_mask 16 16)).
  assert (0 <= field 0 16 function < 2 ^ 16 /\ 0 <= field 16 16 function < 2 ^ 16) as [H1 H2] by (unfold field; split; apply Z.mod_pos_bound; lia).
  revert H1 H2. generalize (field 0 16 function), (field 16 16 function). intros f1 f2 H1 H2. rewrite !Z.shiftl_mul_pow2, Z.mul_0_l, Z.lor_0_r by lia.
  unfold SEL_KCSEG. rewrite (Z.lor_comm (f2 * 2 ^ 16)), (lor_add 16 (1 * 2 ^ 15)) by zlia. rewrite (Z.lor_comm (1 * 2 ^ 15 + _)), (lor_add 15 (dpl * _)) by zlia.
  rewrite (Z.lor_comm (dpl * _ + _)), (lor_add 13 (type * _)) by zlia. rewrite (lor_add 16 f1) by zlia. rewrite (lor_add 32 (f1 + _)) by zlia. lia.
Qed.

(** The processor reads back what the kernel wrote: for every base, limit,
    class, type, privilege level and granularity [make_seg_desc] yields a 64-bit
    descriptor from which the processor takes exactly these, and that is present
    and of 32 bits; a limit, a type or a privilege level out of range fails an
    assertion instead. *)
Theorem seg_desc_decodes base limit class type dpl g :
  0 <= base < 2 ^ 32 -> 0 <= limit ->
  if decide (limit < 2 ^ 20 /\ 0 <= type < 16 /\ 0 <= dpl < 4)
  then exists d, make_seg_desc base limit class type dpl g = Ok d /\ 0 <= d < 2 ^ 64 /\
    seg_of d = mk_seg base limit (class_bit class) type dpl 1 1 (gran_bit g)
  else make_seg_desc base limit class type dpl g = Fail AssertFailed.
Proof.
  intros Hb Hl. case_decide as Hr.
  - destruct Hr as (Hl' & Ht & Hd). eexists. split; [by apply make_seg_desc_sum|].
    assert (base = field 0 16 base + field 16 8 base * 2 ^ 16 + field 24 8 base * 2 ^ 24) as Eb by (unfold field; zlia).
    assert (limit = field 0 16 limit + field 16 4 limit * 2 ^ 16) as El by (unfold field; zlia).
    assert (0 <= field 0 16 limit < 2 ^ 16 /\ 0 <= field 16 4 limit < 2 ^ 4 /\ 0 <= field 0 16 base < 2 ^ 16 /\ 0 <= field 16 8 base < 2 ^ 8 /\
      0 <= field 24 8 base < 2 ^ 8) as (H1 & H2 & H3 & H4 & H5) by (unfold field; split_and!; apply Z.mod_pos_bound; lia).
    assert (0 <= class_bit class < 2 /\ 0 <= gran_bit g < 2) as [H6 H7] by (by destruct class, g).
    revert Eb El H1 H2 H3 H4 H5 H6 H7.
    generalize (field 0 16 limit), (field 16 4 limit), (field 0 16 base), (field 16 8 base), (field 24 8 base), (class_bit class), (gran_bit g).
    intros l1 l2 b1 b2 b3 c1 g1 -> -> H1 H2 H3 H4 H5 H6 H7. clear Hb Hl Hl'. split; [lia|]. unfold seg_of, field. f_equal; zlia.
  - unfold make_seg_desc, ASSERT. destruct (Z.leb_spec limit 0xfffff); [|done]. cbn [mbind res_bind].
    destruct (Z.leb_spec 0 type), (Z.leb_spec type 15); cbn [andb mbind res_bind]; try done.
    destruct (Z.leb_spec 0 dpl), (Z.leb_spec dpl 3); cbn [andb mbind res_bind]; try done. exfalso. apply Hr. lia.
Qed.

Lemma gate_decodes function dpl type :
  0 < function < 2 ^ 32 -> 0 <= dpl < 4 -> 0 <= type < 16 ->
  exists d, make_gate function dpl type = Ok d /\ gate_of d = mk_gate function SEL_KCSEG 0 type dpl 1.
Proof.
  intros Hf Hd Ht. eexists. split; [by apply make_gate_sum|].
  assert (function = field 0 16 function + field 16 16 function * 2 ^ 16) as Ef by (unfold field; zlia).
  assert (0 <= field 0 16 function < 2 ^ 16 /\ 0 <= field 16 16 function < 2 ^ 16) as [H1 H2] by (unfold field; split; apply Z.mod_pos_bound; lia).
  revert Ef H1 H2. generalize (field 0 16 function), (field 16 16 function). intros f1 f2 -> H1 H2. clear Hf. unfold gate_of, field, SEL_KCSEG. f_equal; zlia.
Qed.

(** The segments of the kernel and of user programs. *)
Definition flat (type dpl : Z) : seg := mk_seg 0 0xfffff 1 type dpl 1 1 1.
Lemma gdt_init_segments addr s :
  length (gdt s) = 6%nat -> 0 < tss_addr s < 2 ^ 32 ->
  exists s', gdt_init addr s = Ok s' /\ tr s' = SEL_TSS /\
    seg_of <$> gdt s' = [mk_seg 0 0 0 0 0 0 0 0; flat 10 0; flat 2 0; flat 10 3; flat 2 3; mk_seg (tss_addr s) 0x67 0 9 0 1 1 0].
Proof.
  intros Hlen Ht. destruct s as [g r t a p]. cbn [gdt tss_addr] in *.
  destruct g as [|? [|? [|? [|? [|? [|? [|]]]]]]]; try done.
  pose proof (seg_desc_decodes a 0x67 CLS_SYSTEM 9 0 GRAN_BYTE ltac:(lia) ltac:(lia)) as Hd. rewrite decide_True in Hd by lia. destruct Hd as (d & Hm & _ & Hs).
  unfold gdt_init, make_tss_desc, tss_get. cbn [tss_addr]. rewrite (proj2 (Z.eqb_neq a NULL)) by (unfold NULL; lia). cbn [negb ASSERT mbind res_bind].
  rewrite Hm. eexists. split; [reflexivity|]. split; [reflexivity|]. transitivity [mk_seg 0 0 0 0 0 0 0 0; flat 10 0; flat 2 0; flat 10 3; flat 2 3; seg_of d]; [reflexivity|by rewrite Hs].
Qed.

(** ** Registering handlers *)

Inductive registration : Type := Ext (vec_no handler : Z) | Int (vec_no dpl : Z) (level : handler_level) (handler : Z).

Section registering.
Context (intr_stubs : Z -> Z).
Hypothesis Hstubs : forall v, 0 <= v < 256 -> 0 < intr_stubs v < 2 ^ 32.

Definition register (r : registration) (t : intr_tables) : res intr_tables :=
  match r with
  | Ext vec_no handler => intr_register_ext intr_stubs vec_no handler t
  | Int vec_no dpl level handler => intr_register_int intr_stubs vec_no dpl level handler t
  end.
Fixpoint register_all (l : list registration) (t : intr_tables) : res intr_tables :=
  match l with [] => Ok t | r :: l => t ← register r t; register_all l t end.

(** What has been registered: privilege level, type of the gate and handler. *)
Definition entry_for (r : registration) : Z * (Z * Z * Z) :=
  match r with
  | Ext v h => (v, (0, 14, h))
  | Int v dpl level h => (v, (dpl, match level with LevelOn => 15 | LevelOff => 14 end, h))
  end.
Definition allowed (m : gmap Z (Z * Z * Z)) (r : registration) : bool :=
  let '(v, (dpl, _, _)) := entry_for r in
  bool_decide (m !! v = None) && (0 <=? dpl) && (dpl <? 4) &&
  match r with Ext _ _ => (0x20 <=? v) && (v <=? 0x2f) | Int _ _ _ _ => (v <? 0x20) || (0x2f <? v) end.
Fixpoint registered (l : list registration) (m : gmap Z (Z * Z * Z)) : option (gmap Z (Z * Z * Z)) :=
  match l with
  | [] => Some m
  | r :: l => if allowed m r then registered l (<[fst (entry_for r) := snd (entry_for r)]> m) else None
  end.

(** Numbers of interrupts are bytes, handlers are functions. *)
Definition reg_ok (r : registration) : Prop := 0 <= fst (entry_for r) < 256 /\ snd (snd (entry_for r)) <> NULL.

(** The tables hold exactly what has been registered; the other gates lead to
    their stubs too, from the kernel only, with no handler. *)
Record wired (t : intr_tables) (m : gmap Z (Z * Z * Z)) : Prop := {
  wi_idt : length (idt t) = 256%nat;
  wi_handlers : length (intr_handlers t) = 256%nat;
  wi_gate v : 0 <= v < 256 ->
    let '(dpl, type, h) := default (0, 14, NULL) (m !! v) in
    (exists d, idt t !! Z.to_nat v = Some d /\ gate_of d = mk_gate (intr_stubs v) SEL_KCSEG 0 type dpl 1) /\ intr_handlers t !! Z.to_nat v = Some h;
  wi_set v dpl type h : m !! v = Some (dpl, type, h) -> h <> NULL;
}.

Lemma wired_set t m v dpl type h d :
  wired t m -> 0 <= v < 256 -> h <> NULL -> gate_of d = mk_gate (intr_stubs v) SEL_KCSEG 0 type dpl 1 ->
  wired (mk_tables (<[Z.to_nat v := d]> (idt t)) (<[Z.to_nat v := h]> (intr_handlers t)) (idtr t)) (<[v := (dpl, type, h)]> m).
Proof.
  intros [H1 H2 H3 H4] Hv Hh Hd. split; cbn [idt intr_handlers]; [by rewrite length_insert..| |].
  - intros w Hw. destruct (decide (w = v)) as [->|Hne].
    + rewrite lookup_insert_eq. cbn [default from_option]. rewrite !list_lookup_insert_eq by lia. split; [by exists d|done].
    + rewrite lookup_insert_ne by done. rewrite !list_lookup_insert_ne by lia. by apply H3.
  - intros w dpl' type' h'. destruct (decide (w = v)) as [->|Hne]; [rewrite lookup_insert_eq; by intros [= _ _ <-]|rewrite lookup_insert_ne by done; eauto].
Qed.

Lemma register_ok t m r :
  wired t m -> reg_ok r ->
  if allowed m r then exists t', register r t = Ok t' /\ wired t' (<[fst (entry_for r) := snd (entry_for r)]> m) else register r t = Fail AssertFailed.
Proof.
  intros Hw Hr.
  assert (forall v dpl level h, 0 <= v < 256 -> h <> NULL ->
    if bool_decide (m !! v = None) && (0 <=? dpl) && (dpl <? 4)
    then exists t', register_handler intr_stubs v dpl level h t = Ok t' /\ wired t' (<[v := (dpl, match level with LevelOn => 15 | LevelOff => 14 end, h)]> m)
    else register_handler intr_stubs v dpl level h t = Fail AssertFailed) as Hreg.
  { intros v dpl level h Hv Hh. pose proof (wi_gate _ _ Hw v Hv) as Hg. unfold register_handler. destruct (m !! v) as [[[dpl0 type0] h0]|] eqn:Hm.
    - cbn [default from_option] in Hg. destruct Hg as [_ Hh0]. rewrite bool_decide_false by done. cbn [andb].
      rewrite (nth_lookup_Some _ _ _ _ Hh0), (proj2 (Z.eqb_neq h0 NULL)) by (by eapply wi_set). done.
    - cbn [default from_option] in Hg. destruct Hg as [_ Hh0]. rewrite bool_decide_true by done. cbn [andb].
      rewrite (nth_lookup_Some _ _ _ _ Hh0), Z.eqb_refl. cbn [ASSERT mbind res_bind].
      destruct ((0 <=? dpl) && (dpl <? 4)) eqn:Hd.
      + apply andb_true_iff in Hd as [Hd1%Z.leb_le Hd2%Z.ltb_lt]. unfold make_trap_gate, make_intr_gate.
        destruct level; [destruct (gate_decodes (intr_stubs v) dpl 14) as (d & -> & Hdec)|destruct (gate_decodes (intr_stubs v) dpl 15) as (d & -> & Hdec)];
          try (by apply Hstubs); try lia; eexists; (split; [reflexivity|]); by apply wired_set.
      + pose proof (Hstubs v Hv). unfold make_trap_gate, make_intr_gate, make_gate. rewrite (proj2 (Z.eqb_neq (intr_stubs v) NULL)) by (unfold NULL; lia).
        cbn [negb ASSERT mbind res_bind]. assert ((0 <=? dpl) && (dpl <=? 3) = false) as -> by (rewrite <- Hd; f_equal; zcases).
        by destruct level. }
  destruct Hr as [Hv Hh]. destruct r as [v h|v dpl level h]; cbn [entry_for fst snd] in Hv, Hh |- *; unfold allowed; cbn [entry_for register].
  - specialize (Hreg v 0 LevelOff h Hv Hh). unfold intr_register_ext. rewrite !andb_true_r in *. destruct ((0x20 <=? v) && (v <=? 0x2f)); cbn [ASSERT mbind res_bind].
    + rewrite andb_true_r. by destruct (bool_decide _).
    + by rewrite andb_false_r.
  - specialize (Hreg v dpl level h Hv Hh). unfold intr_register_int. destruct ((v <? 0x20) || (0x2f <? v)); cbn [ASSERT mbind res_bind].
    + by rewrite andb_true_r.
    + by rewrite andb_false_r.
Qed.

Lemma init_gates_ok n : forall i t,
  0 <= i -> i + Z.of_nat n <= 256 -> length t = 256%nat ->
  exists t', init_gates intr_stubs n i t = Ok t' /\ length t' = 256%nat /\
    (forall v, i <= v < i + Z.of_nat n -> exists d, t' !! Z.to_nat v = Some d /\ gate_of d = mk_gate (intr_stubs v) SEL_KCSEG 0 14 0 1) /\
    forall v, 0 <= v < i -> t' !! Z.to_nat v = t !! Z.to_nat v.
Proof.
  induction n as [|n IH]; intros i t Hi Hn Hl; cbn [init_gates]; [exists t; split_and!; [done|done|lia|done]|].
  destruct (gate_decodes (intr_stubs i) 0 14) as (d & Hd & Hdec); [apply Hstubs; lia|lia|lia|]. unfold make_intr_gate. rewrite Hd. cbn [mbind res_bind].
  destruct (IH (i + 1) (<[Z.to_nat i := d]> t)) as (t' & Hr & Hl' & Hnew & Hold); [lia|lia|by rewrite length_insert|].
  exists t'. split; [done|]. split; [done|]. split.
  - intros v Hv. destruct (decide (v = i)) as [->|Hne]; [|apply Hnew; lia]. exists d. rewrite Hold by lia. by rewrite list_lookup_insert_eq by lia.
  - intros v Hv. rewrite Hold by lia. by rewrite list_lookup_insert_ne by lia.
Qed.

Lemma intr_init_ok addr t :
  length (idt t) = 256%nat -> intr_handlers t = replicate 256 NULL -> exists t', intr_init intr_stubs addr t = Ok t' /\ wired t' ∅.
Proof.
  intros Hl Hh. destruct (init_gates_ok 256 0 (idt t)) as (g & Hg & Hlg & Hgates & _); [lia|lia|done|]. unfold intr_init.
  change (Z.to_nat INTR_CNT) with 256%nat. rewrite Hg. eexists. split; [reflexivity|]. split; cbn [idt intr_handlers]; [done|by rewrite Hh| |].
  - intros v Hv. rewrite lookup_empty. cbn [default from_option]. split; [apply Hgates; lia|]. rewrite Hh. apply lookup_replicate. split; [done|lia].
  - intros v dpl type h. by rewrite lookup_empty.
Qed.

Lemma register_all_ok l : forall m t,
  Forall reg_ok l -> wired t m ->
  match registered l m with
  | Some m' => exists t2, register_all l t = Ok t2 /\ wired t2 m'
  | None => register_all l t = Fail AssertFailed
  end.
Proof.
  induction l as [|r l IH]; intros m t Hok Hw; [by exists t|]. apply Forall_cons in Hok as [Hr Hok].
  cbn [registered register_all]. pose proof (register_ok t m r Hw Hr) as Hs. destruct (allowed m r).
  - destruct Hs as (t2 & -> & Hw2). cbn [mbind res_bind]. by apply IH.
  - by rewrite Hs.
Qed.

(** C28. The interrupt descriptor table is always well formed: after [intr_init]
    and any sequence of registrations of internal and external interrupts, either
    one of them was not allowed (an interrupt registered twice, an external one
    outside 0x20 to 0x2f or an internal one inside, a privilege level above 3)
    and fails an assertion, or each of the 256 entries is, as the processor
    reads it, a present gate to the stub of that very interrupt in the kernel's
    code segment, of the registered kind and privilege level, and its handler
    is the one registered; interrupts without handler can be raised by no
    user program. *)
Theorem idt_well_formed addr t l :
  length (idt t) = 256%nat -> intr_handlers t = replicate 256 NULL -> Forall reg_ok l ->
  match registered l ∅ with
  | Some m => exists t1 t2, intr_init intr_stubs addr t = Ok t1 /\ register_all l t1 = Ok t2 /\ wired t2 m
  | None => exists t1, intr_init intr_stubs addr t = Ok t1 /\ register_all l t1 = Fail AssertFailed
  end.
Proof.
  intros Hl Hh Hok. destruct (intr_init_ok addr t Hl Hh) as (t1 & -> & Hw).
  pose proof (register_all_ok l ∅ t1 Hok Hw) as Hall.
  destruct (registered l ∅); [|by exists t1]. destruct Hall as (t2 & ? & ?). by exists t1, t2.
Qed.

(** ** Exceptions: userprog/exception.c *)

Definition exception_regs (kill page_fault : Z) : list registration :=
  [Int 3 3 LevelOn kill; Int 4 3 LevelOn kill; Int 5 3 LevelOn kill; Int 0 0 LevelOn kill; Int 1 0 LevelOn kill; Int 6 0 LevelOn kill;
   Int 7 0 LevelOn kill; Int 11 0 LevelOn kill; Int 12 0 LevelOn kill; Int 13 0 LevelOn kill; Int 16 0 LevelOn kill; Int 19 0 LevelOn kill;
   Int 14 0 LevelOff page_fault].
Definition exception_init (kill page_fault : Z) (t : intr_tables) : res intr_tables := register_all (exception_regs kill page_fault) t.

(** [kill]: the process ends, or the kernel panics. *)
Definition kill (cs : Z) : fault := if cs =? SEL_UCSEG then ThreadExits else if cs =? SEL_KCSEG then KernelPanic else ThreadExits.

(** The timer, the keyboard, the serial port and the disks as well. *)
Definition boot_regs (kill page_fault syscall timer keyboard serial disk : Z) : list registration :=
  exception_regs kill page_fault ++
  [Int 0x30 3 LevelOn syscall; Ext 0x20 timer; Ext 0x21 keyboard; Ext 0x24 serial; Ext 0x2e disk; Ext 0x2f disk].

(** What the kernel registers is allowed: page faults start with interrupts off,
    and user programs can make system calls. *)
Lemma boot_wired addr t kill page_fault syscall timer keyboard serial disk :
  length (idt t) = 256%nat -> intr_handlers t = replicate 256 NULL -> Forall (fun h => h <> NULL) [kill; page_fault; syscall; timer; keyboard; serial; disk] ->
  exists t1 t2 m, intr_init intr_stubs addr t = Ok t1 /\ register_all (boot_regs kill page_fault syscall timer keyboard serial disk) t1 = Ok t2 /\
    wired t2 m /\ m !! 14 = Some (0, 14, page_fault) /\ m !! 0x30 = Some (3, 15, syscall).
Proof.
  intros Hl Hh Hn. destruct (intr_init_ok addr t Hl Hh) as (t1 & H1 & Hw).
  pose proof (register_all_ok (boot_regs kill page_fault syscall timer keyboard serial disk) ∅ t1) as Hr.
  assert (Forall reg_ok (boot_regs kill page_fault syscall timer keyboard serial disk)) as Hok.
  { rewrite !Forall_cons in Hn. unfold boot_regs, exception_regs, reg_ok. cbn [app]. repeat constructor; cbn [entry_for fst snd]; first [lia|tauto]. }
  specialize (Hr Hok Hw).
  assert (exists m, registered (boot_regs kill page_fault syscall timer keyboard serial disk) ∅ = Some m /\ m !! 14 = Some (0, 14, page_fault) /\
    m !! 0x30 = Some (3, 15, syscall)) as (m & Hm & Hrest) by (eexists; split; [vm_compute; reflexivity|by vm_compute]).
  rewrite Hm in Hr. destruct Hr as (t2 & H2 & Hw2). by exists t1, t2, m.
Qed.
End registering.

(** ** The interrupt controllers *)

(** An 8259A: the initialisation word it expects next (0 when it works), the
    vector of its line 0, the masked lines and those in service. *)
Record pic : Type := mk_pic { icw : Z; vector_base : Z; imr : Z; isr : Z }.
Definition pic_ctrl (v : Z) (p : pic) : pic :=
  if Z.testbit v 4 then mk_pic 2 (vector_base p) 0 0
  else if v =? 0x20 then mk_pic (icw p) (vector_base p) (imr p) (Z.land (isr p) (isr p - 1))
  else p.
Definition pic_data (v : Z) (p : pic) : pic :=
  if icw p =? 2 then mk_pic 3 (Z.land v 0xf8) (imr p) (isr p)
  else if icw p =? 3 then mk_pic 4 (vector_base p) (imr p) (isr p)
  else if icw p =? 4 then mk_pic 0 (vector_base p) (imr p) (isr p)
  else mk_pic 0 (vector_base p) v (isr p).
Definition pics : Type := pic * pic.
Definition outb (addr v : Z) (p : pics) : pics :=
  if addr =? 0x20 then (pic_ctrl v (fst p), snd p) else if addr =? 0x21 then (pic_data v (fst p), snd p)
  else if addr =? 0xa0 then (fst p, pic_ctrl v (snd p)) else if addr =? 0xa1 then (fst p, pic_data v (snd p)) else p.

(** A device raises line [n]: the vector the processor gets, unless the line is
    masked or in service.  The slave is on line 2 of the master. *)
Definition raise (n : Z) (p : pic) : option (Z * pic) :=
  if (icw p =? 0) && negb (Z.testbit (imr p) n) && negb (Z.testbit (isr p) n)
  then Some (vector_base p + n, mk_pic 0 (vector_base p) (imr p) (Z.lor (isr p) (Z.shiftl 1 n))) else None.
Definition interrupt_request (n : Z) (p : pics) : option (Z * pics) :=
  if n <? 8 then '(v, m) ← raise n (fst p); Some (v, (m, snd p))
  else '(_, m) ← raise 2 (fst p); '(v, q) ← raise (n - 8) (snd p); Some (v, (m, q)).

Definition PIC0_CTRL : Z := 0x20.
Definition PIC0_DATA : Z := 0x21.
Definition PIC1_CTRL : Z := 0xa0.
Definition PIC1_DATA : Z := 0xa1.

Definition pic_init (p : pics) : pics :=
  let p := outb PIC1_DATA 0xff (outb PIC0_DATA 0xff p) in
  let p := outb PIC0_DATA 0x01 (outb PIC0_DATA 0x04 (outb PIC0_DATA 0x20 (outb PIC0_CTRL 0x11 p))) in
  let p := outb PIC1_DATA 0x01 (outb PIC1_DATA 0x02 (outb PIC1_DATA 0x28 (outb PIC1_CTRL 0x11 p))) in
  outb PIC1_DATA 0x00 (outb PIC0_DATA 0x00 p).

Definition pic_end_of_interrupt (irq : Z) (p : pics) : res pics :=
  _ ← ASSERT ((0x20 <=? irq) && (irq <? 0x30));
  let p := outb 0x20 0x20 p in
  Ok (if 0x28 <=? irq then outb 0xa0 0x20 p else p).

(** One controller: what it was before does not matter. *)
Lemma icws_ok base slave p :
  Z.land base 0xf8 = base -> pic_data 0 (pic_data 1 (pic_data slave (pic_data base (pic_ctrl 0x11 p)))) = mk_pic 0 base 0 0.
Proof. intros E. unfold pic_ctrl, pic_data. change (Z.testbit 17 4) with true. cbn [icw vector_base imr isr Z.eqb Pos.eqb]. by rewrite E. Qed.

Lemma outb_master v p q : outb PIC0_CTRL v (p, q) = (pic_ctrl v p, q) /\ outb PIC0_DATA v (p, q) = (pic_data v p, q).
Proof. done. Qed.
Lemma outb_slave v p q : outb PIC1_CTRL v (p, q) = (p, pic_ctrl v q) /\ outb PIC1_DATA v (p, q) = (p, pic_data v q).
Proof. done. Qed.

Lemma pic_init_state p : pic_init p = (mk_pic 0 0x20 0 0, mk_pic 0 0x28 0 0).
Proof.
  transitivity (pic_data 0 (pic_data 1 (pic_data 4 (pic_data 0x20 (pic_ctrl 0x11 (pic_data 0xff (fst p)))))),
                pic_data 0 (pic_data 1 (pic_data 2 (pic_data 0x28 (pic_ctrl 0x11 (pic_data 0xff (snd p))))))); [|by rewrite !icws_ok].
  destruct p as [p q]. unfold pic_init. cbv zeta. by repeat (rewrite (proj1 (outb_master _ _ _)) || rewrite (proj2 (outb_master _ _ _)) || rewrite (proj1 (outb_slave _ _ _)) || rewrite (proj2 (outb_slave _ _ _))).
Qed.

(** Device interrupts arrive where the kernel expects them, again and again:
    whatever state the interrupt controllers were in, after [pic_init] each of
    the sixteen lines is delivered at vector 0x20 plus its number (and so apart
    from the exceptions of the processor), and [pic_end_of_interrupt] for that
    vector brings both controllers back to where the line can be raised again. *)
Theorem pic_delivers_again p n :
  0 <= n < 16 ->
  exists p1, interrupt_request n (pic_init p) = Some (0x20 + n, p1) /\ pic_end_of_interrupt (0x20 + n) p1 = Ok (pic_init p).
Proof.
  intros Hn. assert (n ∈ Z.of_nat <$> seq 0 16) as Hin by (apply list_elem_of_fmap; exists (Z.to_nat n); rewrite elem_of_seq; lia).
  rewrite pic_init_state. by repeat (apply elem_of_cons in Hin as [->|Hin]; [eexists; split; [reflexivity|reflexivity]|]); apply elem_of_nil in Hin.
Qed.

(** ** Runs *)

Lemma seg_desc_decodes_witness :
  if decide (0x67 < 2 ^ 20 /\ 0 <= 9 < 16 /\ 0 <= 0 < 4)
  then exists d, make_seg_desc 0xc0123000 0x67 CLS_SYSTEM 9 0 GRAN_BYTE = Ok d /\ 0 <= d < 2 ^ 64 /\
    seg_of d = mk_seg 0xc0123000 0x67 (class_bit CLS_SYSTEM) 9 0 1 1 (gran_bit GRAN_BYTE)
  else make_seg_desc 0xc0123000 0x67 CLS_SYSTEM 9 0 GRAN_BYTE = Fail AssertFailed.
Proof. apply (seg_desc_decodes 0xc0123000 0x67 CLS_SYSTEM 9 0 GRAN_BYTE); lia. Defined.

(** Page faults, system calls and the timer. *)
Definition demo_stubs (v : Z) : Z := 0xc0021000 + 16 * v.
Definition demo_regs : list registration := [Int 14 0 LevelOff 0xc0025000; Int 0x30 3 LevelOn 0xc0026000; Ext 0x20 0xc0027000].
Definition demo_table : intr_tables := mk_tables (replicate 256 0) (replicate 256 NULL) 0.

Example demo_registered : (snd <$> (registered demo_regs ∅ ≫= (.!! 0x30))) = Some 0xc0026000 /\ registered (demo_regs ++ [Ext 0x20 1]) ∅ = None.
Proof. vm_compute. done. Qed.

Lemma idt_well_formed_witness :
  match registered demo_regs ∅ with
  | Some m => exists t1 t2, intr_init demo_stubs 0xc0030000 demo_table = Ok t1 /\ register_all demo_stubs demo_regs t1 = Ok t2 /\ wired demo_stubs t2 m
  | None => exists t1, intr_init demo_stubs 0xc0030000 demo_table = Ok t1 /\ register_all demo_stubs demo_regs t1 = Fail AssertFailed
  end.
Proof.
  apply (idt_well_formed demo_stubs).
  - intros v Hv. unfold demo_stubs. lia.
  - reflexivity.
  - reflexivity.
  - repeat constructor; cbn; unfold NULL; lia.
Defined.

Lemma pic_delivers_again_witness :
  let p := (mk_pic 0 8 0xb8 0, mk_pic 0 0x70 0x8e 0) in
  exists p1, interrupt_request 14 (pic_init p) = Some (0x20 + 14, p1) /\ pic_end_of_interrupt (0x20 + 14) p1 = Ok (pic_init p).
Proof. apply (pic_delivers_again (mk_pic 0 8 0xb8 0, mk_pic 0 0x70 0x8e 0) 14). lia. Defined.

