(* ===== verification/Kbd.v ===== *)
(** * The keyboard: devices/kbd.c

    The keyboard interrupt reads scan codes from the controller, keeps track of
    the keys that modify others, and puts characters into the input buffer of
    [Serial], which it shares with the serial port.  The controller is the
    sequence of bytes it has ready ([port]); reading it when there is none gives
    0.  The handler runs with interrupts off ([true] and [me] are its calling
    context).  Its result says whether it called [reboot], which does not
    return.  Typing is shown to be the inverse of the key maps: every text of
    printable characters arrives as it was typed. *)

From stdpp Require Import strings.
From S2P Require Import Prelude Ctype Intq Serial Stdio Descriptors.

Record kbd : Type := mk_kbd {
  left_shift : bool; right_shift : bool;
  left_alt : bool; right_alt : bool;
  left_ctrl : bool; right_ctrl : bool;
  caps_lock : bool;
  key_cnt : Z;
}.

Record kbd_state : Type := mk_kbd_state { keys : kbd; cons : console; port : list Z }.

Definition set_keys (k : kbd) (s : kbd_state) : kbd_state := mk_kbd_state k (cons s) (port s).
Definition on_cons {X} (m : M console X) : M kbd_state X := fun s =>
  '(x, c) ← m (cons s); Ok (x, mk_kbd_state (keys s) c (port s)).

(** [inb (DATA_REG)] *)
Definition inb_data : M kbd_state Z := fun s =>
  match port s with
  | [] => Ok (0, s)
  | b :: p => Ok (b, mk_kbd_state (keys s) (cons s) p)
  end.

(** ** Key maps *)

(** The first scan code and its characters; a first scan code of 0 ends the map. *)
Definition keymap : Type := Z * list Z.

Definition invariant_keymap : list keymap :=
  [(0x01, [27]); (0x0e, [8]); (0x0f, 9 :: chars "QWERTYUIOP"); (0x1c, [13]); (0x1e, chars "ASDFGHJKL");
   (0x2c, chars "ZXCVBNM"); (0x37, chars "*"); (0x39, chars " "); (0x53, [127]); (0, [])].
Definition unshifted_keymap : list keymap :=
  [(0x02, chars "1234567890-="); (0x1a, chars "[]"); (0x27, chars ";'`"); (0x2b, chars "\"); (0x33, chars ",./"); (0, [])].
Definition shifted_keymap : list keymap :=
  [(0x02, chars "!@#$%^&*()_+"); (0x1a, chars "{}"); (0x27, [58; 34; 126]); (0x2b, chars "|"); (0x33, chars "<>?"); (0, [])].

Fixpoint map_key (k : list keymap) (scancode : Z) : option Z :=
  match k with
  | [] => None
  | (first_scancode, cs) :: k =>
      if first_scancode =? 0 then None
      else if (first_scancode <=? scancode) && (scancode <? first_scancode + Z.of_nat (length cs))
      then Some (nth (Z.to_nat (scancode - first_scancode)) cs 0)
      else map_key k scancode
  end.

(** The condition of the second [if]: the character of a key. *)
Definition key_char (shift : bool) (code : Z) : option Z :=
  match map_key invariant_keymap code with
  | Some c => Some c
  | None => if shift then map_key shifted_keymap code else map_key unshifted_keymap code
  end.

(** The character as Ctrl, Shift, Caps Lock and Alt change it. *)
Definition cook (shift alt ctrl caps : bool) (c : Z) : Z :=
  let c := if ctrl && (0x40 <=? c) && (c <? 0x60) then c - 0x40
           else if eqb shift caps then tolower c else c in
  if alt then u8 (c + 0x80) else c.

(** ** Shift keys *)

(** [*key->state_var = !release], for the key of the table. *)
Definition set_shift_key (code : Z) (down : bool) (k : kbd) : kbd :=
  let '(mk_kbd ls rs la ra lc rc caps n) := k in
  if code =? 0x2a then mk_kbd down rs la ra lc rc caps n
  else if code =? 0x36 then mk_kbd ls down la ra lc rc caps n
  else if code =? 0x38 then mk_kbd ls rs down ra lc rc caps n
  else if code =? 0xe038 then mk_kbd ls rs la down lc rc caps n
  else if code =? 0x1d then mk_kbd ls rs la ra down rc caps n
  else if code =? 0xe01d then mk_kbd ls rs la ra lc down caps n
  else k.

Definition toggle_caps (k : kbd) : kbd :=
  mk_kbd (left_shift k) (right_shift k) (left_alt k) (right_alt k) (left_ctrl k) (right_ctrl k) (negb (caps_lock k)) (key_cnt k).
Definition count_key (k : kbd) : kbd :=
  mk_kbd (left_shift k) (right_shift k) (left_alt k) (right_alt k) (left_ctrl k) (right_ctrl k) (caps_lock k) (s64 (key_cnt k + 1)).

Section handler.
Context (me : Z).

(** Interpret key. *)
Definition interpret_key (k : kbd) (code : Z) (release : bool) : M kbd_state bool :=
  let shift := left_shift k || right_shift k in
  let alt := left_alt k || right_alt k in
  let ctrl := left_ctrl k || right_ctrl k in
  if code =? 0x3a then
    (if release then mret tt else modify (set_keys (toggle_caps k))) ;;
    mret false
  else
    match key_char shift code with
    | Some c =>
        if release then mret false
        else if (c =? 127) && ctrl && alt then mret true
        else
          full ← on_cons (input_full true me);
          (if full : bool then mret tt
           else modify (set_keys (count_key k)) ;; on_cons (input_putc true me (cook shift alt ctrl (caps_lock k) c))) ;;
          mret false
    | None => modify (set_keys (set_shift_key code (negb release) k)) ;; mret false
    end.

Definition keyboard_interrupt : M kbd_state bool :=
  k ← gets keys;
  code ← inb_data;
  code ← (if code =? 0xe0 then b ← inb_data; mret (Z.lor (Z.shiftl code 8) b) else mret code);
  let release := negb (Z.land code 0x80 =? 0) in
  let code := Z.land code (Z.lnot 0x80) in
  interpret_key k code release.
End handler.

(** [handler] is the address of [keyboard_interrupt]. *)
Definition kbd_init (intr_stubs : Z -> Z) (handler : Z) (t : intr_tables) : res intr_tables := intr_register_ext intr_stubs 0x21 handler t.

(** ** Keys going down and up *)

Inductive key_event : Type := Press (code : Z) | Release (code : Z).
Definition code_of (e : key_event) : Z := match e with Press c | Release c => c end.
Definition released (e : key_event) : bool := match e with Press _ => false | Release _ => true end.

(** The scan codes of a keyboard: a byte, or 0xe0 and a byte; releasing the key
    with code 0x60 would look like the prefix, and no key has it. *)
Definition codes : list Z :=
  (Z.of_nat <$> (seq 1 0x5f ++ seq 0x61 0x1f)) ++ ((fun n => 0xe000 + Z.of_nat n) <$> seq 1 0x7f).

(** What the controller sends. *)
Definition bytes_of (e : key_event) : list Z :=
  let low := code_of e mod 0x100 + (if released e then 0x80 else 0) in
  if code_of e <? 0x100 then [low] else [0xe0; low].

Fixpoint kbd_run (me : Z) (l : list key_event) (s : kbd_state) : res (bool * kbd_state) :=
  match l with
  | [] => Ok (false, s)
  | e :: l =>
      '(rebooted, s) ← keyboard_interrupt me (mk_kbd_state (keys s) (cons s) (bytes_of e));
      if rebooted : bool then Ok (true, s) else kbd_run me l s
  end.

(** What the handler makes of the bytes. *)
Definition decoded (bs : list Z) : Z * bool :=
  let code := match bs with [b] => b | b :: b2 :: _ => Z.lor (Z.shiftl b 8) b2 | [] => 0 end in
  (Z.land code (Z.lnot 0x80), negb (Z.land code 0x80 =? 0)).

Lemma bytes_decoded e :
  code_of e ∈ codes -> decoded (bytes_of e) = (code_of e, released e) /\
    (exists b, bytes_of e = [b] /\ b <> 0xe0) \/ decoded (bytes_of e) = (code_of e, released e) /\ exists b, bytes_of e = [0xe0; b].
Proof.
  intros He. assert (forall r, Forall (fun c => let e := if r : bool then Release c else Press c in
    decoded (bytes_of e) = (code_of e, released e) /\ match bytes_of e with [b] => negb (b =? 0xe0) | [b; _] => b =? 0xe0 | _ => false end = true) codes) as Hall.
  { intros []; cbv zeta; by apply (bool_decide_unpack _); vm_compute. }
  specialize (Hall (released e)). rewrite Forall_forall in Hall. specialize (Hall (code_of e) He).
  assert ((if released e then Release (code_of e) else Press (code_of e)) = e) as E by (by destruct e). cbv zeta in Hall. rewrite E in Hall.
  destruct Hall as [Hd Hb]. destruct (bytes_of e) as [|b [|b2 [|]]]; try done.
  - left. split; [done|]. exists b. split; [done|]. by apply Z.eqb_neq, negb_true_iff.
  - right. split; [done|]. exists b2. apply Z.eqb_eq in Hb. by rewrite Hb.
Qed.

Lemma interrupt_event me e k c :
  code_of e ∈ codes ->
  keyboard_interrupt me (mk_kbd_state k c (bytes_of e)) = interpret_key me k (code_of e) (released e) (mk_kbd_state k c []).
Proof.
  intros He. destruct (bytes_decoded e He) as [[Hd (b & Hb & Hne)]|[Hd (b & Hb)]]; rewrite Hb in *; unfold decoded in Hd; injection Hd as Hc Hr.
  - unfold keyboard_interrupt. unfold mbind, M_bind, gets, inb_data. cbn [port keys cons]. rewrite (proj2 (Z.eqb_neq b 0xe0)) by done.
    unfold mret, M_ret. by rewrite Hc, Hr.
  - unfold keyboard_interrupt. unfold mbind, M_bind, gets, inb_data. cbn [port keys cons Z.eqb Pos.eqb].
    unfold mret, M_ret. by rewrite Hc, Hr.
Qed.

(** ** What the handler does *)

(** The console is sound and interrupts are off. *)
Definition kbd_ok (s : kbd_state) : Prop := con_ok (cons s) /\ intr_off (cons s) = true.
Definition typed (s : kbd_state) : list Z := contents (buffer (cons s)).

Lemma shift_key_cnt code down k : key_cnt (set_shift_key code down k) = key_cnt k /\ caps_lock (set_shift_key code down k) = caps_lock k.
Proof. destruct k. unfold set_shift_key. by repeat case_match. Qed.

(** The modifiers after a key has gone down or up. *)
Definition after_key (k : kbd) (code : Z) (release : bool) : kbd :=
  if code =? 0x3a then if release then k else toggle_caps k
  else match key_char (left_shift k || right_shift k) code with Some _ => k | None => set_shift_key code (negb release) k end.

Lemma interpret_ok me k c code release :
  kbd_ok (mk_kbd_state k c []) ->
  exists b s', interpret_key me k code release (mk_kbd_state k c []) = Ok (b, s') /\ kbd_ok s' /\ port s' = [] /\
    (keys s' = after_key k code release \/ keys s' = count_key (after_key k code release)).
Proof.
  intros [Hc Ho]. cbn [cons] in Hc, Ho. unfold interpret_key, after_key. destruct (code =? 0x3a).
  { destruct release; eexists _, _; (split; [reflexivity|]); split; try done; auto. }
  destruct (key_char _ code) as [ch|]; [|eexists _, _; (split; [reflexivity|]); split; try done; auto].
  destruct release; [eexists _, _; (split; [reflexivity|]); split; try done; auto|].
  destruct (_ && _); [eexists _, _; (split; [reflexivity|]); split; try done; auto|].
  assert (on_cons (input_full true me) (mk_kbd_state k c []) = Ok ((length (contents (buffer c)) =? 63)%nat, mk_kbd_state k c [])) as Hf.
  { unfold on_cons. cbn [cons keys port]. by rewrite (input_full_ok true me c Hc Ho). }
  rewrite (bindM_step _ _ _ _ _ Hf). destruct (Nat.eqb_spec (length (contents (buffer c))) 63) as [Hfull|Hroom].
  { eexists _, _; (split; [reflexivity|]); split; try done; auto. }
  pose proof (contents_length (buffer c)) as Hl. pose proof (count_range (buffer c)).
  destruct (input_putc_ok true me (cook (left_shift k || right_shift k) (left_alt k || right_alt k) (left_ctrl k || right_ctrl k) (caps_lock k) ch) c Hc Ho)
    as (c' & Hp & Hc' & _ & _ & _ & _ & Ho'); [lia|].
  eexists _, _. split.
  { erewrite bindM_step; [reflexivity|]. erewrite bindM_step by reflexivity. unfold on_cons. cbn [cons set_keys keys port]. rewrite Hp. reflexivity. }
  split; [done|]. split; [done|]. by right.
Qed.

(** A key that gives a character, when there is room. *)
Lemma interpret_char me k c code ch :
  kbd_ok (mk_kbd_state k c []) -> code <> 0x3a -> key_char (left_shift k || right_shift k) code = Some ch ->
  (ch =? 127) && (left_ctrl k || right_ctrl k) && (left_alt k || right_alt k) = false -> (length (contents (buffer c)) < 63)%nat ->
  exists c', interpret_key me k code false (mk_kbd_state k c []) = Ok (false, mk_kbd_state (count_key k) c' []) /\
    kbd_ok (mk_kbd_state (count_key k) c' []) /\ contents (buffer c') =
      contents (buffer c) ++ [u8 (cook (left_shift k || right_shift k) (left_alt k || right_alt k) (left_ctrl k || right_ctrl k) (caps_lock k) ch)].
Proof.
  intros [Hc Ho] H3a Hch Hre Hroom. cbn [cons] in Hc, Ho. unfold interpret_key. rewrite (proj2 (Z.eqb_neq code 0x3a)), Hch, Hre by done.
  destruct (input_putc_ok true me (cook (left_shift k || right_shift k) (left_alt k || right_alt k) (left_ctrl k || right_ctrl k) (caps_lock k) ch) c Hc Ho Hroom)
    as (c' & Hp & Hc' & _ & Hbuf & _ & _ & Ho').
  exists c'. split; [|done].
  erewrite bindM_step by (unfold on_cons; cbn [cons keys port]; rewrite (input_full_ok true me c Hc Ho); reflexivity).
  rewrite (proj2 (Nat.eqb_neq _ _)) by lia.
  erewrite bindM_step; [reflexivity|]. erewrite bindM_step by reflexivity. unfold on_cons. cbn [cons set_keys keys port]. rewrite Hp. reflexivity.
Qed.

(** ** The modifiers are the keys that are down *)

Definition modifiers : list Z := [0x2a; 0x36; 0x38; 0xe038; 0x1d; 0xe01d].
Definition down_keys (k : kbd) : list bool := [left_shift k; right_shift k; left_alt k; right_alt k; left_ctrl k; right_ctrl k].

(** The keyboard itself: a key is down from its press to its release. *)
Definition held (l : list key_event) (code : Z) : bool :=
  fold_left (fun d e => if code_of e =? code then negb (released e) else d) l false.
(** Caps Lock changes with every press. *)
Definition locked (l : list key_event) : bool :=
  fold_left (fun d e => if (code_of e =? 0x3a) && negb (released e) then negb d else d) l false.

Lemma modifier_char sh code : code ∈ modifiers -> key_char sh code = None /\ (code =? 0x3a) = false.
Proof. intros Hc. by repeat (apply elem_of_cons in Hc as [->|Hc]; [by destruct sh|]); apply elem_of_nil in Hc. Qed.

Lemma after_key_flags k code r :
  down_keys (after_key k code r) = zip_with (fun m d => if code =? m then negb r else d) modifiers (down_keys k) /\
  caps_lock (after_key k code r) = if (code =? 0x3a) && negb r then negb (caps_lock k) else caps_lock k.
Proof.
  destruct (decide (code ∈ modifiers)) as [Hm|Hm].
  - unfold after_key. destruct (modifier_char (left_shift k || right_shift k) code Hm) as [-> ->]. destruct k. cbn [andb].
    by repeat (apply elem_of_cons in Hm as [->|Hm]; [done|]); apply elem_of_nil in Hm.
  - assert (forall m, m ∈ modifiers -> (code =? m) = false) as Hne by (intros m Hin; apply Z.eqb_neq; by intros ->).
    cbn [zip_with modifiers down_keys]. rewrite !Hne by (unfold modifiers; set_solver). unfold after_key.
    destruct (code =? 0x3a); [by destruct r, k|]. destruct (key_char _ code); [done|]. destruct k. unfold set_shift_key.
    by rewrite !Hne by (unfold modifiers; set_solver).
Qed.

Lemma run_flags me l : forall s,
  kbd_ok s -> Forall (fun e => code_of e ∈ codes) l ->
  exists b s', kbd_run me l s = Ok (b, s') /\ kbd_ok s' /\
    (b = false ->
     down_keys (keys s') = zip_with (fun m d => fold_left (fun d e => if code_of e =? m then negb (released e) else d) l d) modifiers (down_keys (keys s)) /\
     caps_lock (keys s') = fold_left (fun d e => if (code_of e =? 0x3a) && negb (released e) then negb d else d) l (caps_lock (keys s))).
Proof.
  induction l as [|e l IH]; intros s Hs Hl; [exists false, s; by destruct s as [[] ? ?]|]. apply Forall_cons in Hl as [He Hl].
  destruct s as [k c p]. cbn [kbd_run keys cons]. rewrite interrupt_event by done.
  destruct (interpret_ok me k c (code_of e) (released e) Hs) as (b & s1 & Hr & Hs1 & _ & Hk). rewrite Hr. cbn [mbind res_bind].
  destruct b; [by exists true, s1|]. destruct (IH s1 Hs1 Hl) as (b & s2 & -> & Hs2 & Hf). exists b, s2. split; [done|]. split; [done|].
  intros Hb. destruct (Hf Hb) as [-> ->]. destruct (after_key_flags k (code_of e) (released e)) as [Ed Ec].
  assert (down_keys (keys s1) = down_keys (after_key k (code_of e) (released e)) /\ caps_lock (keys s1) = caps_lock (after_key k (code_of e) (released e))) as [-> ->]
    by (destruct Hk as [-> | ->]; [done|by split]).
  by rewrite Ed, Ec.
Qed.

(** The keyboard driver never loses track of the modifiers: for every
    sequence of key presses and releases, whatever keys they are of, plain or
    with the 0xe0 prefix, typed while the input buffer has room or is full, no
    interrupt fails an assertion, and until the machine is rebooted the
    variables for Shift, Alt and Ctrl are true exactly for the keys that are
    down, and Caps Lock for an odd number of presses of its key. *)
Theorem modifiers_track_keys me l s :
  kbd_ok s -> down_keys (keys s) = replicate 6 false -> caps_lock (keys s) = false -> Forall (fun e => code_of e ∈ codes) l ->
  exists rebooted s', kbd_run me l s = Ok (rebooted, s') /\
    (rebooted = false -> down_keys (keys s') = held l <$> modifiers /\ caps_lock (keys s') = locked l).
Proof.
  intros Hs Hd Hc Hl. destruct (run_flags me l s Hs Hl) as (b & s' & Hr & _ & Hf). exists b, s'. split; [done|]. intros Hb. rewrite Hd, Hc in Hf. by apply Hf.
Qed.

(** ** Typing *)

(** The key for a character, and whether Shift is needed. *)
Definition strokes : list (bool * Z) := (pair false <$> codes) ++ (pair true <$> codes).
Definition gives (ch : Z) (p : bool * Z) : bool :=
  match key_char (fst p) (snd p) with Some c => cook (fst p) false false false c =? ch | None => false end.
Definition stroke (ch : Z) : option (bool * Z) := List.find (gives ch) strokes.

(** Pressing and releasing it. *)
Definition key_presses (p : bool * Z) : list key_event :=
  if fst p then [Press 0x2a; Press (snd p); Release (snd p); Release 0x2a] else [Press (snd p); Release (snd p)].
Definition type_text (text : list Z) : list key_event := mjoin ((fun ch => default [] (key_presses <$> stroke ch)) <$> text).

Definition printable : list Z := Z.of_nat <$> seq 32 95.

Lemma printable_stroke ch : ch ∈ printable -> is_Some (stroke ch).
Proof.
  assert (Forall (fun ch => is_Some (stroke ch)) printable) as Hall by (by apply (bool_decide_unpack _); vm_compute).
  rewrite Forall_forall in Hall. apply Hall.
Qed.

Lemma stroke_ok ch sh code :
  stroke ch = Some (sh, code) -> code ∈ codes /\ exists c, key_char sh code = Some c /\ cook sh false false false c = ch /\ code <> 0x3a /\ code <> 0x2a.
Proof.
  intros [Hin Hg]%List.find_some. unfold gives in Hg. cbn [fst snd] in Hg. destruct (key_char sh code) as [c|] eqn:Hc; [|done].
  apply Z.eqb_eq in Hg. apply list_elem_of_In in Hin. split.
  { apply elem_of_app in Hin as [Hin|Hin]; apply list_elem_of_fmap in Hin as (c' & [= _ <-] & ?); done. }
  exists c. split; [done|]. split; [done|]. split; intros ->; by destruct sh.
Qed.

Lemma kbd_run_app me l1 l2 s s' : kbd_run me l1 s = Ok (false, s') -> kbd_run me (l1 ++ l2) s = kbd_run me l2 s'.
Proof.
  revert s. induction l1 as [|e l1 IH]; intros s Hr; cbn [kbd_run app] in *; [by injection Hr as <-|].
  destruct (keyboard_interrupt me _) as [[[] s1]|]; cbn [mbind res_bind] in *; [done|by apply IH|done].
Qed.

(** No modifier is down; [n] keys have been counted. *)
Definition idle_keys (n : Z) : kbd := mk_kbd false false false false false false false n.
Definition shifted (n : Z) : kbd := mk_kbd true false false false false false false n.

(** One event each: Shift, and the release of a key that gives a character. *)
Lemma press_shift me n c l : kbd_run me (Press 0x2a :: l) (mk_kbd_state (idle_keys n) c []) = kbd_run me l (mk_kbd_state (shifted n) c []).
Proof. cbn [kbd_run keys cons]. rewrite interrupt_event by (by apply (bool_decide_unpack _); vm_compute). reflexivity. Qed.
Lemma release_shift me n c l : kbd_run me (Release 0x2a :: l) (mk_kbd_state (shifted n) c []) = kbd_run me l (mk_kbd_state (idle_keys n) c []).
Proof. cbn [kbd_run keys cons]. rewrite interrupt_event by (by apply (bool_decide_unpack _); vm_compute). reflexivity. Qed.
Lemma release_char me k c code ch l :
  code ∈ codes -> code <> 0x3a -> key_char (left_shift k || right_shift k) code = Some ch ->
  kbd_run me (Release code :: l) (mk_kbd_state k c []) = kbd_run me l (mk_kbd_state k c []).
Proof.
  intros Hin H3a Hc. cbn [kbd_run keys cons]. rewrite interrupt_event by done. cbn [code_of released]. unfold interpret_key.
  by rewrite (proj2 (Z.eqb_neq _ _)), Hc by done.
Qed.

Lemma press_key me k c code s' l :
  code ∈ codes -> interpret_key me k code false (mk_kbd_state k c []) = Ok (false, s') ->
  kbd_run me (Press code :: l) (mk_kbd_state k c []) = kbd_run me l s'.
Proof. intros Hin Hr. cbn [kbd_run keys cons]. rewrite interrupt_event by done. cbn [code_of released]. by rewrite Hr. Qed.

(** A character arrives. *)
Lemma type_char me n c ch l :
  kbd_ok (mk_kbd_state (idle_keys n) c []) -> ch ∈ printable -> (length (contents (buffer c)) < 63)%nat ->
  exists c', kbd_run me (default [] (key_presses <$> stroke ch) ++ l) (mk_kbd_state (idle_keys n) c []) =
      kbd_run me l (mk_kbd_state (idle_keys (s64 (n + 1))) c' []) /\
    kbd_ok (mk_kbd_state (idle_keys (s64 (n + 1))) c' []) /\ contents (buffer c') = contents (buffer c) ++ [ch].
Proof.
  intros Hs Hch Hroom. destruct (printable_stroke ch Hch) as [[sh code] Hst]. destruct (stroke_ok ch sh code Hst) as (Hin & c0 & Hc0 & Hcook & H3a & H2a).
  rewrite Hst. cbn [fmap option_fmap option_map default from_option]. unfold key_presses. cbn [fst snd].
  assert (0 <= ch < 256) as Hb by (apply list_elem_of_fmap in Hch as (m & -> & Hm%elem_of_seq); lia).
  set (k := if sh then shifted n else idle_keys n). assert (left_shift k || right_shift k = sh) as Esh by (by destruct sh).
  destruct (interpret_char me k c code c0) as (c' & Hr & Hs' & Hbuf); [done|done|by rewrite Esh|by destruct sh; rewrite andb_false_r|done|].
  exists c'. split.
  - destruct sh; cbn [id app]; [rewrite press_shift|]; (etransitivity; [exact (press_key me k c code _ _ Hin Hr)|]);
      (etransitivity; [exact (release_char me (count_key k) c' code c0 _ Hin H3a Hc0)|]); [exact (release_shift me (s64 (n + 1)) c' l)|reflexivity].
  - split; [exact Hs'|]. rewrite Hbuf, Esh. assert (cook sh (left_alt k || right_alt k) (left_ctrl k || right_ctrl k) (caps_lock k) c0 = ch) as -> by (by destruct sh).
    unfold u8. by rewrite Z.mod_small by lia.
Qed.

(** What is typed arrives: for every text of printable characters that fits
    the input buffer, pressing and releasing the key of each character (with
    Shift where it needs it) appends exactly that text to the buffer, in order,
    counts its keys and leaves no modifier down. *)
Theorem typed_text_arrives me text : forall n c,
  kbd_ok (mk_kbd_state (idle_keys n) c []) -> text ⊆ printable -> (length (contents (buffer c)) + length text <= 63)%nat ->
  0 <= n -> n + Z.of_nat (length text) < 2 ^ 63 ->
  exists c', kbd_run me (type_text text) (mk_kbd_state (idle_keys n) c []) =
      Ok (false, mk_kbd_state (idle_keys (n + Z.of_nat (length text))) c' []) /\
    contents (buffer c') = contents (buffer c) ++ text.
Proof.
  induction text as [|ch text IH]; intros n c Hs Hp Hfit Hn Hmax.
  { exists c. cbn [length]. rewrite Z.add_0_r, app_nil_r. done. }
  destruct (type_char me n c ch (type_text text) Hs) as (c1 & Hr & Hs1 & Hb1); [apply Hp; left|cbn [length] in Hfit; lia|].
  assert (s64 (n + 1) = n + 1) as E by (unfold s64; cbn [length] in Hmax; zlia). rewrite E in *.
  destruct (IH (n + 1) c1 Hs1) as (c2 & Hr2 & Hb2); [intros x Hx; apply Hp; by right|rewrite Hb1, length_app; cbn in *; lia|lia|cbn [length] in *; lia|].
  exists c2. split; [|by rewrite Hb2, Hb1, <- app_assoc].
  change (type_text (ch :: text)) with (default [] (key_presses <$> stroke ch) ++ type_text text). rewrite Hr, Hr2.
  do 3 f_equal. cbn [length]. f_equal. lia.
Qed.

(** ** A run *)

Definition demo_cons : console := match serial_init_queue false 0 (console_boot [] []) with Ok (_, c) => c | Fail _ => console_boot [] [] end.

Lemma demo_kbd_ok : kbd_ok (mk_kbd_state (idle_keys 0) demo_cons []).
Proof. destruct (init_queue_ok [] []) as (c & Hc & Hok & _); [by constructor|]. unfold kbd_ok, demo_cons. cbn [cons]. rewrite Hc. split; [done|]. by injection Hc as <-. Qed.

Lemma modifiers_track_keys_witness :
  let l := [Press 0x2a; Press 0xe01d; Press 0x1e; Release 0x2a; Press 0x3a] in
  exists rebooted s', kbd_run 0 l (mk_kbd_state (idle_keys 0) demo_cons []) = Ok (rebooted, s') /\
    (rebooted = false -> down_keys (keys s') = held l <$> modifiers /\ caps_lock (keys s') = locked l).
Proof.
  apply (modifiers_track_keys 0 _ (mk_kbd_state (idle_keys 0) demo_cons [])).
  - exact demo_kbd_ok.
  - reflexivity.
  - reflexivity.
  - by apply (bool_decide_unpack _); vm_compute.
Defined.

Lemma typed_text_arrives_witness :
  exists c', kbd_run 0 (type_text (chars "Hello, World!")) (mk_kbd_state (idle_keys 0) demo_cons []) =
      Ok (false, mk_kbd_state (idle_keys (0 + Z.of_nat (length (chars "Hello, World!")))) c' []) /\
    contents (buffer c') = contents (buffer demo_cons) ++ chars "Hello, World!".
Proof.
  apply (typed_text_arrives 0 (chars "Hello, World!") 0 demo_cons).
  - exact demo_kbd_ok.
  - intros x Hx. repeat (apply elem_of_cons in Hx as [->|Hx]; [by apply (bool_decide_unpack _); vm_compute|]). by apply elem_of_nil in Hx.
  - vm_compute. lia.
  - done.
  - vm_compute. reflexivity.
Defined.

