(* ===== verification/Rtc.v ===== *)
(** * The real-time clock: devices/rtc.c

    The clock is read register by register while it goes on: [regs n i] is what
    register [i] shows at the [n]-th read.  The kernel reads until the seconds
    are the same before and after, which is shown to rule out dates put
    together from two moments, and then computes the seconds since 1970, which
    is shown to be about a month ahead.  A date that the tables do not have is
    a [BadAccess]; [int] arithmetic wraps. *)

From S2P Require Import Prelude.

Definition RTC_REG_SEC : Z := 0.
Definition RTC_REG_MIN : Z := 2.
Definition RTC_REG_HOUR : Z := 4.
Definition RTC_REG_MDAY : Z := 7.
Definition RTC_REG_MON : Z := 8.
Definition RTC_REG_YEAR : Z := 9.

(** The selected register and the number of reads so far. *)
Record cmos : Type := mk_cmos { selected : Z; reads : nat }.

Section rtc.
Context (regs : nat -> Z -> Z).

(** [outb (CMOS_REG_SET, index)] and [inb (CMOS_REG_IO)] *)
Definition outb_set (index : Z) : M cmos unit := modify (fun s => mk_cmos index (reads s)).
Definition inb_io : M cmos Z := fun s => Ok (u8 (regs (reads s) (selected s)), mk_cmos (selected s) (S (reads s))).

Definition cmos_read (index : Z) : M cmos Z := outb_set index ;; inb_io.

Definition bcd_to_bin (x : Z) : Z := Z.land x 0x0f + Z.shiftr x 4 * 10.

Definition days_per_month : list Z := [31; 28; 31; 30; 31; 30; 31; 31; 30; 31; 30; 31].

(** [for (i = 1; i <= mon; i++)], [n] rounds left. *)
Fixpoint add_months (n : nat) (i time : Z) : res Z :=
  match n with
  | O => Ok time
  | S n =>
      match days_per_month !! Z.to_nat (i - 1) with
      | None => Fail BadAccess
      | Some d => add_months n (i + 1) (u32 (time + s32 (s32 (s32 (d * 24) * 60) * 60)))
      end
  end.

(** Years, months and leap days, [year] being the two digits of the register. *)
Definition month_start (mon year : Z) : res Z :=
  let year := if year <? 70 then year + 100 else year in
  let year := year - 70 in
  let time := u32 (s32 (s32 (s32 (s32 (year * 365 + Z.quot (year - 1) 4) * 24) * 60) * 60)) in
  time ← add_months (Z.to_nat mon) 1 time;
  Ok (if (2 <? mon) && (Z.rem year 4 =? 0) then u32 (time + 24 * 60 * 60) else time).

(** The date of the registers in seconds. *)
Definition break_down (sec min hour mday mon year : Z) : res Z :=
  time ← month_start mon year;
  let time := u32 (time + (mday - 1) * 24 * 60 * 60) in
  let time := u32 (time + hour * 60 * 60) in
  let time := u32 (time + min * 60) in
  Ok (u32 (time + sec)).

(** [do ... while], and what follows. *)
Fixpoint rtc_get_time (fuel : nat) : M cmos Z :=
  match fuel with
  | O => fail NoFuel
  | S fuel =>
      sec ← cmos_read RTC_REG_SEC;
      min ← cmos_read RTC_REG_MIN;
      hour ← cmos_read RTC_REG_HOUR;
      mday ← cmos_read RTC_REG_MDAY;
      mon ← cmos_read RTC_REG_MON;
      year ← cmos_read RTC_REG_YEAR;
      sec2 ← cmos_read RTC_REG_SEC;
      if negb (bcd_to_bin sec =? bcd_to_bin sec2) then rtc_get_time fuel
      else liftM (break_down (bcd_to_bin sec) (bcd_to_bin min) (bcd_to_bin hour) (bcd_to_bin mday) (bcd_to_bin mon) (bcd_to_bin year))
  end.
End rtc.

(** ** The calendar *)

Record date : Type := mk_date { d_sec : Z; d_min : Z; d_hour : Z; d_mday : Z; d_mon : Z; d_year : Z }.

Definition leap (year : Z) : bool := (year mod 4 =? 0) && (negb (year mod 100 =? 0) || (year mod 400 =? 0)).
Definition year_days (year : Z) : Z := if leap year then 366 else 365.
Definition month_days (year mon : Z) : Z := if (mon =? 2) && leap year then 29 else nth (Z.to_nat (mon - 1)) days_per_month 0.
Definition zsum (l : list Z) : Z := foldr Z.add 0 l.
(** Days from 1970 to the first of the month. *)
Definition days_to (year mon : Z) : Z :=
  zsum ((fun i => year_days (1970 + Z.of_nat i)) <$> seq 0 (Z.to_nat (year - 1970))) +
  zsum ((fun i => month_days year (1 + Z.of_nat i)) <$> seq 0 (Z.to_nat (mon - 1))).
(** Seconds since the epoch. *)
Definition unix_time (d : date) : Z := (days_to (d_year d) (d_mon d) + d_mday d - 1) * 86400 + d_hour d * 3600 + d_min d * 60 + d_sec d.

Record date_ok (d : date) : Prop := {
  do_sec : 0 <= d_sec d < 60;
  do_min : 0 <= d_min d < 60;
  do_hour : 0 <= d_hour d < 24;
  do_mday : 1 <= d_mday d <= month_days (d_year d) (d_mon d);
  do_mon : 1 <= d_mon d <= 12;
  do_year : 1970 <= d_year d <= 2037;
}.

(** Two decimal digits in one byte. *)
Definition bcd (n : Z) : Z := n / 10 * 16 + n mod 10.
(** What the registers show on a date. *)
Definition shown (d : date) (i : Z) : Z :=
  bcd (if i =? RTC_REG_SEC then d_sec d else if i =? RTC_REG_MIN then d_min d else if i =? RTC_REG_HOUR then d_hour d
       else if i =? RTC_REG_MDAY then d_mday d else if i =? RTC_REG_MON then d_mon d else d_year d mod 100).

Lemma bcd_ok n : 0 <= n < 100 -> bcd_to_bin (u8 (bcd n)) = n.
Proof.
  intros Hn. assert (Forall (fun m => bcd_to_bin (u8 (bcd (Z.of_nat m))) = Z.of_nat m) (seq 0 100)) as Hall by (by apply (bool_decide_unpack _); vm_compute).
  rewrite Forall_forall in Hall. specialize (Hall (Z.to_nat n)). rewrite Z2Nat.id in Hall by lia. apply Hall, elem_of_seq. lia.
Qed.

(** The first of every month of these years, as the code has it: 27 to 32 days
    late. *)
Definition month_checked (year mon : Z) : bool :=
  match month_start mon (year mod 100) with
  | Ok t => let k := t / 86400 - days_to year mon in (t mod 86400 =? 0) && (27 <=? k) && (k <=? 32) && (t <=? 86400 * 25000) && (0 <=? t)
  | Fail _ => false
  end.

Lemma month_start_ok year mon :
  1970 <= year <= 2037 -> 1 <= mon <= 12 ->
  exists k, 27 <= k <= 32 /\ month_start mon (year mod 100) = Ok ((days_to year mon + k) * 86400) /\ 0 <= days_to year mon + k <= 25000.
Proof.
  intros Hy Hm.
  assert (forallb (fun i => forallb (fun j => month_checked (1970 + Z.of_nat i) (1 + Z.of_nat j)) (seq 0 12)) (seq 0 68) = true) as Hall
    by (vm_compute; reflexivity).
  rewrite forallb_forall in Hall. specialize (Hall (Z.to_nat (year - 1970)) ltac:(apply in_seq; lia)).
  rewrite forallb_forall in Hall. specialize (Hall (Z.to_nat (mon - 1)) ltac:(apply in_seq; lia)).
  replace (1970 + Z.of_nat (Z.to_nat (year - 1970))) with year in Hall by lia. replace (1 + Z.of_nat (Z.to_nat (mon - 1))) with mon in Hall by lia.
  unfold month_checked in Hall. destruct (month_start mon (year mod 100)) as [t|]; [|done]. cbv zeta in Hall.
  rewrite !andb_true_iff, !Z.leb_le, Z.eqb_eq in Hall. destruct Hall as ((((Hmod & Hk1) & Hk2) & Hmax) & Hmin).
  exists (t / 86400 - days_to year mon). split; [done|]. split; [f_equal; zlia|zlia].
Qed.

Lemma month_days_max year mon : 1 <= mon <= 12 -> month_days year mon <= 31.
Proof.
  intros Hm. unfold month_days. destruct (_ && _); [lia|].
  assert (Forall (fun d => d <= 31) days_per_month) as Hall by (by apply (bool_decide_unpack _); vm_compute).
  rewrite nth_lookup. destruct (days_per_month !! Z.to_nat (mon - 1)) as [d|] eqn:E; [|cbn; lia]. cbn. by apply (Forall_lookup_1 _ _ _ _ Hall E).
Qed.

Lemma break_down_ok d :
  date_ok d -> exists k, 27 <= k <= 32 /\
    break_down (d_sec d) (d_min d) (d_hour d) (d_mday d) (d_mon d) (d_year d mod 100) = Ok (unix_time d + k * 86400).
Proof.
  intros [Hs Hmi Hh Hd Hm Hy]. destruct (month_start_ok (d_year d) (d_mon d) Hy Hm) as (k & Hk & Hst & Hr). exists k. split; [done|].
  pose proof (month_days_max (d_year d) (d_mon d) Hm). unfold break_down. rewrite Hst. cbn [mbind res_bind]. cbv zeta.
  rewrite (u32_small ((days_to (d_year d) (d_mon d) + k) * 86400 + _)) by lia. rewrite (u32_small (_ + d_hour d * 60 * 60)) by lia.
  rewrite (u32_small (_ + d_min d * 60)) by lia. rewrite u32_small by lia. f_equal. unfold unix_time. lia.
Qed.

(** ** Reading a clock that goes on *)

Section reading.
(** The time at each read, and the date it is. *)
Context (t : nat -> Z) (date_at : Z -> date).
Hypothesis Hdate : forall n, date_ok (date_at (t n)) /\ unix_time (date_at (t n)) = t n.
Hypothesis Hforward : forall n, t n <= t (S n).
(** The seven reads of a round take less than a minute. *)
Hypothesis Hquick : forall n, t (n + 6)%nat < t n + 60.
#[local] Abbreviation regs := (fun n i => shown (date_at (t n)) i).

Lemma seconds_of n : d_sec (date_at (t n)) = t n mod 60.
Proof.
  destruct (Hdate n) as [Hd He]. pose proof (do_sec _ Hd). rewrite <- He at 2. unfold unix_time.
  set (a := days_to _ _ + _ - 1). zlia.
Qed.

Lemma forward n k : t n <= t (n + k)%nat.
Proof. induction k as [|k IH]; [by rewrite Nat.add_0_r|]. rewrite Nat.add_succ_r. specialize (Hforward (n + k)). lia. Qed.

(** Equal seconds, one moment. *)
Lemma same_moment n : d_sec (date_at (t n)) = d_sec (date_at (t (n + 6)%nat)) -> forall k, (k <= 6)%nat -> t (n + k)%nat = t n.
Proof.
  rewrite !seconds_of. intros E k Hk. pose proof (Hquick n). pose proof (forward n k). pose proof (forward (n + k) (6 - k)) as H6.
  replace (n + k + (6 - k))%nat with (n + 6)%nat in H6 by lia. zlia.
Qed.

Lemma shown_ok n i :
  bcd_to_bin (u8 (regs n i)) = let d := date_at (t n) in
    if i =? RTC_REG_SEC then d_sec d else if i =? RTC_REG_MIN then d_min d else if i =? RTC_REG_HOUR then d_hour d
    else if i =? RTC_REG_MDAY then d_mday d else if i =? RTC_REG_MON then d_mon d else d_year d mod 100.
Proof.
  destruct (Hdate n) as [[Hs Hmi Hh Hd Hm Hy] _]. pose proof (month_days_max (d_year (date_at (t n))) _ Hm). unfold shown. apply bcd_ok. cbv zeta.
  repeat case_match; try lia. zlia.
Qed.

Lemma cmos_read_step {X} i (f : Z -> M cmos X) s :
  (cmos_read regs i ≫= f) s = f (u8 (regs (reads s) i)) (mk_cmos i (S (reads s))).
Proof. done. Qed.

(** C33. The real-time clock is read consistently and converted wrongly: while the
    clock goes on between the reads of its registers, [rtc_get_time] returns as
    soon as one round of reads falls within one second, and the date it has read
    is then that of one moment, never put together from two; but the number it
    returns is 27 to 32 days ahead of the seconds since 1970 of that moment, for
    every date from 1970 to 2037, since it counts the current month as passed
    and takes 1970, 1974 and so on for leap years. *)
Theorem rtc_month_ahead fuel : forall s,
  (exists k, (k < fuel)%nat /\ t (reads s + 7 * k + 6)%nat = t (reads s + 7 * k)%nat) ->
  exists v s' m days, rtc_get_time regs fuel s = Ok (v, s') /\ (reads s <= m < reads s')%nat /\ 27 <= days <= 32 /\ v = t m + days * 86400.
Proof.
  induction fuel as [|fuel IH]; intros s (k & Hk & Hst); [lia|]. cbn [rtc_get_time]. rewrite !cmos_read_step. cbn [reads].
  set (n := reads s) in *. rewrite !shown_ok.
  set (n6 := S (S (S (S (S (S n)))))). assert (n6 = (n + 6)%nat) as E6 by (unfold n6; lia).
  cbn [Z.eqb RTC_REG_SEC RTC_REG_MIN RTC_REG_HOUR RTC_REG_MDAY RTC_REG_MON RTC_REG_YEAR Pos.eqb].
  destruct (Z.eqb_spec (d_sec (date_at (t n))) (d_sec (date_at (t n6)))) as [E|Hne]; cbn [negb].
  - rewrite E6 in E. pose proof (same_moment n E) as Hsame. destruct (Hdate n) as [Hd He].
    assert (forall j, (j <= 6)%nat -> date_at (t (n + j)%nat) = date_at (t n)) as Hone by (intros j Hj; by rewrite Hsame).
    destruct (break_down_ok (date_at (t n)) Hd) as (days & Hdays & Hb).
    eexists (unix_time (date_at (t n)) + days * 86400), _, n, days. split; [|split; [|split; [done|by rewrite He]]].
    + assert (forall j m, m = (n + j)%nat -> (j <= 6)%nat -> date_at (t m) = date_at (t n)) as Hat by (intros j m -> Hj; by apply Hone).
      rewrite (Hat 1%nat (S n)), (Hat 2%nat (S (S n))), (Hat 3%nat (S (S (S n)))), (Hat 4%nat (S (S (S (S n))))), (Hat 5%nat (S (S (S (S (S n)))))) by lia.
      unfold liftM. rewrite Hb. reflexivity.
    + cbn. lia.
  - destruct k as [|k].
    + exfalso. apply Hne. rewrite Nat.mul_0_r, Nat.add_0_r in Hst. rewrite E6. by rewrite Hst.
    + destruct (IH (mk_cmos RTC_REG_SEC (S n6))) as (v & s' & m & days & Hr & Hm & Hrest).
      { exists k. split; [lia|]. cbn [reads]. rewrite E6. replace (S (n + 6) + 7 * k)%nat with (n + 7 * S k)%nat by lia. exact Hst. }
      exists v, s', m, days. split; [exact Hr|]. split; [cbn [reads] in Hm; lia|done].
Qed.
End reading.

(** A clock that stands still at the epoch. *)
Lemma rtc_month_ahead_witness :
  exists v s' m days, rtc_get_time (fun n i => shown (mk_date 0 0 0 1 1 1970) i) 1 (mk_cmos 0 0) = Ok (v, s') /\ (0 <= m < reads s')%nat /\
    27 <= days <= 32 /\ v = 0 + days * 86400.
Proof.
  apply (rtc_month_ahead (fun _ => 0) (fun _ => mk_date 0 0 0 1 1 1970)) with (fuel := 1%nat) (s := mk_cmos 0 0).
  - intros _. split; [split; cbn; by vm_compute|by vm_compute].
  - done.
  - done.
  - exists 0%nat. split; [lia|done].
Defined.

