(* ===== verification/Ustar.v ===== *)
(** * Tar archives

    Models lib/ustar.c over byte memory.  The string literals of the code are
    at addresses [literals] of that memory.  The theorems: a header that
    [ustar_make_header] composed is parsed back to the (harmless) name, the type
    and the size it was made from, and a header with a byte changed is
    refused. *)

From Stdlib Require Import Ascii.
From stdpp Require Import strings.
From S2P Require Import Prelude Vaddr Mem Str Stdio StdioSpec.

(** ** Data *)

(** [enum ustar_type]: the byte of the format, -1 for the end of the archive. *)
Definition USTAR_REGULAR : Z := ch "0".
Definition USTAR_DIRECTORY : Z := ch "5".
Definition USTAR_EOF : Z := -1.
Definition USTAR_HEADER_SIZE : Z := 512.

(** [struct ustar_header], packed: its fields and their sizes. *)
Inductive ustar_field : Type :=
  | f_name | f_mode | f_uid | f_gid | f_size | f_mtime | f_chksum | f_typeflag | f_linkname
  | f_magic | f_version | f_uname | f_gname | f_devmajor | f_devminor | f_prefix | f_padding.

Definition ustar_header : list ustar_field :=
  [f_name; f_mode; f_uid; f_gid; f_size; f_mtime; f_chksum; f_typeflag; f_linkname;
   f_magic; f_version; f_uname; f_gname; f_devmajor; f_devminor; f_prefix; f_padding].

Definition sizeof (f : ustar_field) : Z :=
  match f with
  | f_name | f_linkname => 100
  | f_mode | f_uid | f_gid | f_chksum | f_devmajor | f_devminor => 8
  | f_size | f_mtime | f_padding => 12
  | f_typeflag => 1
  | f_magic => 6
  | f_version => 2
  | f_uname | f_gname => 32
  | f_prefix => 155
  end.

#[global] Instance ustar_field_eq_dec : EqDecision ustar_field.
Proof. solve_decision. Defined.

Fixpoint offset_in (fs : list ustar_field) (f : ustar_field) : Z :=
  match fs with [] => 0 | g :: fs => if decide (g = f) then 0 else sizeof g + offset_in fs f end.
Definition offsetof (f : ustar_field) : Z := offset_in ustar_header f.
Definition sizeof_ustar_header : Z := foldr Z.add 0 (sizeof <$> ustar_header).

(** Where the string literals are. *)
Record literals : Type := mk_literals {
  lit_dot : Z; lit_dotdot : Z; lit_dot_slash : Z; lit_dotdot_slash : Z;
  lit_zeros : Z; lit_ustar : Z; lit_root : Z;
}.

(** What [ustar_parse_header] reports: a message, or the file name (a null
    pointer at the end of the archive), the type and the size. *)
Inductive parsed : Type :=
  | Refused (msg : string)
  | Entry (file_name type size : Z).

(** ** Operations *)

Section ustar.
Context (fuel : nat) (L : literals).

(** The loop of [calculate_chksum] over [n] bytes from [header[i]] on. *)
Fixpoint chksum_loop (n : nat) (m : mem) (h i chksum : Z) : res Z :=
  match n with
  | O => Ok chksum
  | S n =>
      let chksum_start := offsetof f_chksum in
      let chksum_end := chksum_start + sizeof f_chksum in
      let in_chksum_field := (chksum_start <=? i) && (i <? chksum_end) in
      b ← (if in_chksum_field then Ok (ch " ") else load m (h + i));
      chksum_loop n m h (i + 1) (u32 (chksum + b))
  end.

Definition calculate_chksum (m : mem) (h : Z) : res Z :=
  chksum_loop (Z.to_nat USTAR_HEADER_SIZE) m h 0 0.

(** The condition of the loop of [strip_antisocial_prefixes]. *)
Definition antisocial (m : mem) (file_name : Z) : res bool :=
  c ← load m file_name;
  if c =? ch "/" then Ok true
  else
    r ← memcmp m file_name (lit_dot_slash L) 2;
    if r =? 0 then Ok true
    else
      r ← memcmp m file_name (lit_dotdot_slash L) 3;
      Ok (r =? 0).

Fixpoint strip_loop (n : nat) (m : mem) (file_name : Z) : res Z :=
  match n with
  | O => Fail NoFuel
  | S n =>
      bad ← antisocial m file_name;
      if (bad : bool) then p ← strchr fuel m file_name (ch "/"); strip_loop n m (p + 1)
      else Ok file_name
  end.

Definition strip_antisocial_prefixes (m : mem) (file_name : Z) : res Z :=
  file_name ← strip_loop fuel m file_name;
  c ← load m file_name;
  if c =? 0 then Ok (lit_dot L)
  else
    r ← strcmp fuel m file_name (lit_dotdot L);
    Ok (if r =? 0 then lit_dot L else file_name).

(** The message about a long name is left out. *)
Definition ustar_make_header (m : mem) (file_name type size header : Z) : res (mem * bool) :=
  ASSERT (sizeof_ustar_header =? USTAR_HEADER_SIZE);;
  ASSERT ((type =? USTAR_REGULAR) || (type =? USTAR_DIRECTORY));;
  file_name ← strip_antisocial_prefixes m file_name;
  len ← strlen fuel m file_name;
  if 99 <? len then Ok (m, false)
  else
    let at_ f := header + offsetof f in
    '(m, _) ← memset m header 0 sizeof_ustar_header;
    '(m, _) ← strlcpy fuel m (at_ f_name) file_name (sizeof f_name);
    '(m, _) ← snprintf fuel m (at_ f_mode) (sizeof f_mode) (c_str "%07o") [if type =? USTAR_REGULAR then 420 else 493];
    '(m, _) ← strlcpy fuel m (at_ f_uid) (lit_zeros L) (sizeof f_uid);
    '(m, _) ← strlcpy fuel m (at_ f_gid) (lit_zeros L) (sizeof f_gid);
    '(m, _) ← snprintf fuel m (at_ f_size) (sizeof f_size) (c_str "%011o") [size];
    '(m, _) ← snprintf fuel m (at_ f_mtime) (sizeof f_size) (c_str "%011o") [1136102400];
    m ← store m (at_ f_typeflag) type;
    '(m, _) ← strlcpy fuel m (at_ f_magic) (lit_ustar L) (sizeof f_magic);
    m ← store m (at_ f_version + 1) (ch "0");
    m ← store m (at_ f_version) (ch "0");
    '(m, _) ← strlcpy fuel m (at_ f_gname) (lit_root L) (sizeof f_gname);
    '(m, _) ← strlcpy fuel m (at_ f_uname) (lit_root L) (sizeof f_uname);
    chksum ← calculate_chksum m header;
    '(m, _) ← snprintf fuel m (at_ f_chksum) (sizeof f_chksum) (c_str "%07o") [chksum];
    Ok (m, true).

(** [ULONG_MAX / 8]: a long has 32 bits.  [None] is the result false. *)
Fixpoint octal_loop (n : nat) (m : mem) (s ofs value : Z) : res (option Z) :=
  match n with
  | O => Ok None
  | S n =>
      c ← load m (s + ofs);
      if (ch "0" <=? c) && (c <=? ch "7") then
        if (2 ^ 32 - 1) / 8 <? value then Ok None
        else octal_loop n m s (ofs + 1) (u32 (c - ch "0" + value * 8))
      else if (c =? ch " ") || (c =? 0) then Ok (if 0 <? ofs then Some value else None)
      else Ok None
  end.

Definition parse_octal_field (m : mem) (s size : Z) : res (option Z) :=
  octal_loop (Z.to_nat size) m s 0 0.

Fixpoint is_all_zeros_loop (cnt : nat) (m : mem) (block : Z) : res bool :=
  match cnt with
  | O => Ok true
  | S cnt => b ← load m block; if negb (b =? 0) then Ok false else is_all_zeros_loop cnt m (block + 1)
  end.
Definition is_all_zeros (m : mem) (block cnt : Z) : res bool := is_all_zeros_loop (Z.to_nat cnt) m block.

(** The size of the entry, once the rest of the header is validated. *)
Definition parse_size (m : mem) (h typeflag : Z) : res (string + Z) :=
  if typeflag =? USTAR_REGULAR then
    size_ul ← parse_octal_field m (h + offsetof f_size) (sizeof f_size);
    match size_ul with
    | None => Ok (inl "corrupt file size field")
    | Some size_ul => Ok (if 2 ^ 31 - 1 <? size_ul then inl "file too large" else inr size_ul)
    end
  else Ok (inr 0).

Definition ustar_parse_header (m : mem) (h : Z) : res parsed :=
  ASSERT (sizeof_ustar_header =? USTAR_HEADER_SIZE);;
  let at_ f := h + offsetof f in
  eof ← is_all_zeros m h USTAR_HEADER_SIZE;
  if (eof : bool) then Ok (Entry NULL USTAR_EOF 0)
  else
    r ← memcmp m (at_ f_magic) (lit_ustar L) 6;
    if negb (r =? 0) then Ok (Refused "not a ustar archive")
    else
      v0 ← load m (at_ f_version);
      v1 ← (if v0 =? ch "0" then load m (at_ f_version + 1) else Ok 0);
      if negb (v0 =? ch "0") || negb (v1 =? ch "0") then Ok (Refused "invalid ustar version")
      else
        chksum ← parse_octal_field m (at_ f_chksum) (sizeof f_chksum);
        match chksum with
        | None => Ok (Refused "corrupt chksum field")
        | Some chksum =>
            sum ← calculate_chksum m h;
            if negb (chksum =? sum) then Ok (Refused "checksum mismatch")
            else
              c ← load m (at_ f_name + sizeof f_name - 1);
              d ← (if c =? 0 then load m (at_ f_prefix) else Ok 0);
              if negb (c =? 0) || negb (d =? 0) then Ok (Refused "file name too long")
              else
                typeflag ← load m (at_ f_typeflag);
                if negb (typeflag =? USTAR_REGULAR) && negb (typeflag =? USTAR_DIRECTORY)
                then Ok (Refused "unimplemented file type")
                else
                  size ← parse_size m h typeflag;
                  match size with
                  | inl msg => Ok (Refused msg)
                  | inr size_ul =>
                      file_name ← strip_antisocial_prefixes m (at_ f_name);
                      Ok (Entry file_name typeflag (s32 size_ul))
                  end
        end.
End ustar.

(** A run: the literals at 0x100, the name at 0x200, the header at 0x1000. *)
Definition tar_literals : literals := mk_literals 0x100 0x110 0x120 0x130 0x140 0x150 0x160.
Definition tar_strings (name : string) : mem :=
  write_at (write_at (write_at (write_at (write_at (write_at (write_at (write_at ∅
    0x200 (c_str name)) 0x160 (c_str "root")) 0x150 (c_str "ustar")) 0x140 (c_str "0000000"))
    0x130 (c_str "../")) 0x120 (c_str "./")) 0x110 (c_str "..")) 0x100 (c_str ".").
Definition tar_memory (name : string) : mem := write_at (tar_strings name) 0x1000 (replicate 512 7).

Definition tar_demo (name : string) (type size : Z) : res parsed :=
  '(m, ok) ← ustar_make_header 200 tar_literals (tar_memory name) 0x200 type size 0x1000;
  ustar_parse_header 200 tar_literals m 0x1000.

Example stripped : tar_demo "/../.././../a/b" USTAR_REGULAR 5000 = Ok (Entry 0x1000 USTAR_REGULAR 5000).
Proof. vm_compute. reflexivity. Qed.
Example too_large : tar_demo "a" USTAR_REGULAR (2 ^ 32 - 1) = Ok (Refused "file too large").
Proof. vm_compute. reflexivity. Qed.


(** ** Names *)

Definition literals_ok (m : mem) (L : literals) : Prop :=
  cstr m (lit_dot L) (chars ".") /\ cstr m (lit_dotdot L) (chars "..") /\
  cstr m (lit_dot_slash L) (chars "./") /\ cstr m (lit_dotdot_slash L) (chars "../") /\
  cstr m (lit_zeros L) (chars "0000000") /\ cstr m (lit_ustar L) (chars "ustar") /\ cstr m (lit_root L) (chars "root") /\
  0 < lit_dot L /\ 0 < lit_dotdot L /\ 0 < lit_dot_slash L /\ 0 < lit_dotdot_slash L /\
  0 < lit_zeros L /\ 0 < lit_ustar L /\ 0 < lit_root L.

(** A name without its dangerous prefixes, and the name that an archive gets. *)
Fixpoint strip (s : list Z) : list Z :=
  match s with
  | [] => []
  | a :: s1 =>
      if a =? ch "/" then strip s1
      else match s1 with
           | b :: s2 =>
               if (a =? ch ".") && (b =? ch "/") then strip s2
               else match s2 with
                    | c :: s3 => if (a =? ch ".") && (b =? ch ".") && (c =? ch "/") then strip s3 else s
                    | [] => s
                    end
           | [] => s
           end
  end.

Definition safe_name (s : list Z) : list Z :=
  let s := strip s in if bool_decide (s = [] \/ s = chars "..") then chars "." else s.

(** What is left has none of the prefixes. *)
Definition harmless (s : list Z) : Prop :=
  ~ chars "/" `prefix_of` s /\ ~ chars "./" `prefix_of` s /\ ~ chars "../" `prefix_of` s.
#[global] Instance harmless_dec s : Decision (harmless s) := _.

(** One round of the loop: the prefix up to the first slash goes. *)
Inductive strip_step : list Z -> list Z -> Prop :=
  | strip_slash s : strip_step (chars "/" ++ s) s
  | strip_dot_slash s : strip_step (chars "./" ++ s) s
  | strip_dotdot_slash s : strip_step (chars "../" ++ s) s.

Lemma strip_step_eq s s' : strip_step s s' -> strip s = strip s'.
Proof. by intros []. Qed.

Lemma strip_cases s : (exists s', strip_step s s') \/ harmless s /\ strip s = s.
Proof.
  unfold harmless. destruct (decide (chars "/" `prefix_of` s)) as [[t ->]|H1]; [left; eexists; constructor|].
  destruct (decide (chars "./" `prefix_of` s)) as [[t ->]|H2]; [left; eexists; constructor|].
  destruct (decide (chars "../" `prefix_of` s)) as [[t ->]|H3]; [left; eexists; constructor|].
  right. split; [done|]. destruct s as [|a [|b [|c s]]]; cbn [strip]; [done|..].
  all: destruct (Z.eqb_spec a (ch "/")) as [->|]; [exfalso; apply H1; by eexists|].
  all: try done.
  all: destruct (Z.eqb_spec a (ch ".")) as [->|]; [|done]; cbn [andb];
       destruct (Z.eqb_spec b (ch "/")) as [->|]; [exfalso; apply H2; by eexists|]; try done.
  destruct (Z.eqb_spec b (ch ".")) as [->|]; [|done]; cbn [andb].
  destruct (Z.eqb_spec c (ch "/")) as [->|]; [exfalso; apply H3; by eexists|done].
Qed.

Lemma strip_step_shorter s s' : strip_step s s' -> (length s' < length s)%nat.
Proof. intros []; rewrite length_app; cbn; lia. Qed.

Lemma strip_ind (P : list Z -> list Z -> Prop) :
  (forall s s' r, strip_step s s' -> P s' r -> P s r) -> (forall s, harmless s -> P s s) -> forall s, P s (strip s).
Proof.
  intros Hstep Hdone s. remember (length s) as n eqn:Hn. revert s Hn.
  induction (lt_wf n) as [n _ IH]. intros s ->. destruct (strip_cases s) as [[s' Hs]|[Hs ->]]; [|by apply Hdone].
  rewrite (strip_step_eq _ _ Hs). eapply Hstep; [done|]. eapply IH; [|done]. by apply strip_step_shorter.
Qed.

Lemma strip_harmless s : harmless (strip s).
Proof. pattern s, (strip s). by apply strip_ind. Qed.

Lemma strip_id s : harmless s -> strip s = s.
Proof.
  intros Hs. destruct (strip_cases s) as [[s' Hs']|[_ ?]]; [|done]. destruct Hs as (H1 & H2 & H3).
  destruct Hs'; [destruct H1|destruct H2|destruct H3]; by eexists.
Qed.

Lemma safe_name_harmless s : harmless (safe_name s) /\ safe_name s <> [] /\ safe_name s <> chars "..".
Proof.
  unfold safe_name. case_bool_decide as H; [|split; [apply strip_harmless|tauto]].
  split; [|done]. by vm_compute; repeat split; intros [].
Qed.

Lemma safe_name_idem s : safe_name (safe_name s) = safe_name s.
Proof.
  destruct (safe_name_harmless s) as (H1 & H2 & H3). unfold safe_name at 1. rewrite strip_id by done.
  by rewrite bool_decide_false by tauto.
Qed.

Lemma strip_suffix s : strip s `suffix_of` s.
Proof.
  pattern s, (strip s). apply strip_ind; [|done]. intros ? ? r [] Hr; by apply suffix_app_r.
Qed.

Section strip.
Context (fuel : nat) (L : literals) (m : mem) (HL : literals_ok m L).

Lemma literal_at p lit s : 0 < p -> 0 < lit -> cstr m p s -> forall pat, cstr m lit pat ->
  exists r, memcmp m p lit (Z.of_nat (length pat)) = Ok r /\ (r =? 0) = bool_decide (pat `prefix_of` s).
Proof.
  intros Hp Hl Hs pat [Hb Hn]. unfold memcmp. rewrite !bind_ASSERT by (apply block_ok_intro; unfold NULL; lia).
  rewrite Nat2Z.id. apply memcmp_prefix; [done| |done]. by apply bytes_at_app in Hb as [Hb _].
Qed.

Lemma antisocial_spec p s : 0 < p -> cstr m p s -> antisocial L m p = Ok (negb (bool_decide (harmless s))).
Proof.
  intros Hp Hs. destruct HL as (_ & _ & H3 & H4 & _ & _ & _ & _ & _ & H13 & H14 & _). unfold antisocial.
  destruct (literal_at p _ s Hp H13 Hs _ H3) as (r1 & Hr1 & Hz1). destruct (literal_at p _ s Hp H14 Hs _ H4) as (r2 & Hr2 & Hz2).
  change (Z.of_nat (length (chars "./"))) with 2 in Hr1. change (Z.of_nat (length (chars "../"))) with 3 in Hr2.
  assert (exists c, m !! p = Some c /\ (c =? ch "/") = bool_decide (chars "/" `prefix_of` s)) as (c & Hc & Hz).
  { destruct s as [|c s].
    - exists 0. split; [by apply cstr_nil|]. rewrite bool_decide_false by apply prefix_nil_not. done.
    - apply cstr_cons in Hs as (_ & Hc & _). exists c. split; [done|]. change (chars "/") with [ch "/"].
      destruct (Z.eqb_spec c (ch "/")) as [->|Hne]; symmetry; [by apply bool_decide_true; eexists|].
      apply bool_decide_false. intros H%prefix_cons_inv_1. done. }
  rewrite (load_Ok _ _ _ Hc), Hr1, Hr2. cbn [mbind res_bind]. rewrite Hz, Hz1, Hz2. unfold harmless.
  repeat case_bool_decide; try done; tauto.
Qed.

Lemma slash_after s s' p : strip_step s s' -> 0 < p -> cstr m p s -> (length s < fuel)%nat ->
  exists q, strchr fuel m p (ch "/") = Ok q /\ 0 < q + 1 /\ cstr m (q + 1) s' /\ q + 1 = p + Z.of_nat (length s - length s').
Proof.
  intros Hst Hp Hs Hf. unfold strchr. rewrite bind_ASSERT by (apply negb_true_iff, Z.eqb_neq; unfold NULL; lia).
  change (u8 (ch "/")) with (ch "/"). rewrite (strchr_loop_spec _ _ _ _ _ Hs Hf). eexists. split; [done|].
  destruct Hst as [s'|s'|s']; rewrite <- app_assoc, length_app; apply cstr_app in Hs;
    [change (index_of _ _) with (Some 0%nat); change (length (chars "/")) with 1%nat in *
    |change (index_of _ _) with (Some 1%nat); change (length (chars "./")) with 2%nat in *
    |change (index_of _ _) with (Some 2%nat); change (length (chars "../")) with 3%nat in *]; unfold opt_ptr;
    (split; [lia|]); (split; [|lia]); match goal with H : cstr m ?a ?s |- cstr m ?b ?s => replace b with a by lia end; done.
Qed.

Lemma strip_loop_spec n p s : (length s < n)%nat -> (length s < fuel)%nat -> 0 < p -> cstr m p s ->
  exists q, strip_loop fuel L n m p = Ok q /\ 0 < q /\ cstr m q (strip s) /\ q = p + Z.of_nat (length s - length (strip s)).
Proof.
  revert p s. induction n as [|n IH]; intros p s Hn Hf Hp Hs; [lia|]. cbn [strip_loop].
  rewrite (antisocial_spec p s) by done. cbn [mbind res_bind].
  destruct (strip_cases s) as [[s' Hst]|[Hh Heq]].
  - pose proof (strip_step_shorter _ _ Hst) as Hl. rewrite bool_decide_false; cycle 1.
    { intros (H1 & H2 & H3). destruct Hst; [destruct H1|destruct H2|destruct H3]; by eexists. }
    cbn [negb]. destruct (slash_after _ _ _ Hst Hp Hs Hf) as (q & -> & Hq & Hs' & Hqe). cbn [mbind res_bind].
    destruct (IH (q + 1) s') as (r & Hr & Hr0 & Hrs & Hre); [lia|lia|done..|]. exists r. rewrite (strip_step_eq _ _ Hst).
    split; [done|]. split; [done|]. split; [done|]. pose proof (suffix_length _ _ (strip_suffix s')). lia.
  - rewrite bool_decide_true by done. cbn [negb]. exists p. rewrite Heq. split; [done|]. split; [done|]. split; [done|]. lia.
Qed.

Lemma strip_spec p s : (length s < fuel)%nat -> 0 < p -> cstr m p s ->
  exists q, strip_antisocial_prefixes fuel L m p = Ok q /\ 0 < q /\ cstr m q (safe_name s) /\
    (q = lit_dot L /\ safe_name s = chars "." \/ exists pre, s = pre ++ safe_name s /\ q = p + Z.of_nat (length pre)).
Proof.
  intros Hf Hp Hs. destruct (strip_loop_spec fuel p s Hf Hf Hp Hs) as (q & Hq & Hq0 & Hqs & Hqe).
  unfold strip_antisocial_prefixes. rewrite Hq. cbn [mbind res_bind].
  pose proof (strip_suffix s) as Hsuf. pose proof (suffix_length _ _ Hsuf) as Hlen.
  destruct HL as (H1 & H2 & _ & _ & _ & _ & _ & H11 & H12 & _). unfold safe_name.
  destruct (strip s) as [|c t] eqn:Et.
  { rewrite (load_Ok _ _ _ (cstr_nil _ _ Hqs)). cbn [mbind res_bind Z.eqb]. rewrite bool_decide_true by tauto.
    exists (lit_dot L). split; [done|]. split; [done|]. split; [done|by left]. }
  pose proof (cstr_cons _ _ _ _ Hqs) as (Hc0 & Hc & _). rewrite (load_Ok _ _ _ Hc). cbn [mbind res_bind].
  rewrite (proj2 (Z.eqb_neq c 0)) by done. unfold strcmp.
  rewrite !bind_ASSERT by (apply negb_true_iff, Z.eqb_neq; unfold NULL; lia).
  destruct (strcmp_loop_spec fuel m q _ _ _ Hqs H2) as (r & -> & Hr); [lia|]. cbn [mbind res_bind]. rewrite Hr.
  destruct (decide (c :: t = chars "..")) as [E|E].
  - rewrite !bool_decide_true by tauto. exists (lit_dot L). split; [done|]. split; [done|]. split; [done|by left].
  - rewrite !bool_decide_false by (intros [?|?] || idtac; congruence). exists q. split; [done|]. split; [done|]. split; [done|].
    right. destruct Hsuf as [pre Hpre]. exists pre. split; [done|]. rewrite Hpre, length_app in Hqe. rewrite Hqe. f_equal. lia.
Qed.
End strip.


(** ** Octal fields *)

Lemma octal_digit c : c ∈ digits base_o -> 48 <= c <= 55 /\ digit_val base_o c = c - 48 /\ is_sep c = false.
Proof.
  intros Hc. cbn in Hc. repeat (apply elem_of_cons in Hc as [->|Hc]; [split_and!; by vm_compute|]). by apply elem_of_nil in Hc.
Qed.

Lemma octal_count t : Forall (.∈ digits base_o) t -> digit_cnt t = length t.
Proof.
  unfold digit_cnt. induction 1 as [|c t Hc Ht IH]; [done|]. cbn [List.filter]. destruct (octal_digit c Hc) as (_ & _ & ->).
  cbn [negb length]. by rewrite IH.
Qed.

Lemma octal_value_nonneg t : Forall (.∈ digits base_o) t -> 0 <= text_value base_o t.
Proof.
  induction 1 as [|c t Hc Ht IH]; cbn [text_value]; [lia|]. destruct (octal_digit c Hc) as (? & -> & ->).
  change (base base_o) with 8. pose proof (Z.pow_nonneg 8 (Z.of_nat (digit_cnt t))). nia.
Qed.

(** Reading the digits of a number that fits a word. *)
Lemma octal_loop_spec m s t : forall n ofs v,
  bytes_at m (s + ofs) (t ++ [0]) -> Forall (.∈ digits base_o) t -> 0 <= ofs -> 0 <= v -> (length t < n)%nat ->
  v * 8 ^ Z.of_nat (length t) + text_value base_o t < 2 ^ 32 -> 0 < ofs \/ t <> [] ->
  octal_loop n m s ofs v = Ok (Some (v * 8 ^ Z.of_nat (length t) + text_value base_o t)).
Proof.
  induction t as [|c t IH]; intros [|n] ofs v Hb Ht Ho Hv Hn Hval Hne; cbn [length] in Hn; try lia; cbn [octal_loop].
  - destruct Hb as [Hb _]. rewrite (load_Ok _ _ _ Hb). cbn [mbind res_bind]. change ((ch "0" <=? 0) && _) with false.
    change ((0 =? ch " ") || (0 =? 0)) with true. cbv iota. rewrite (proj2 (Z.ltb_lt 0 ofs)) by (destruct Hne; [lia|done]).
    cbn [length text_value]. do 2 f_equal. lia.
  - destruct Hb as [Hc Hb]. apply Forall_cons in Ht as [Hcd Ht]. rewrite (load_Ok _ _ _ Hc). cbn [mbind res_bind].
    destruct (octal_digit c Hcd) as (Hr & Hd & Hs). pose proof (octal_value_nonneg t Ht) as Ht0.
    cbn [text_value length] in Hval |- *. rewrite Hs, Hd, octal_count in Hval |- * by done. change (base base_o) with 8 in *.
    rewrite Nat2Z.inj_succ, Z.pow_succ_r in Hval |- * by lia. set (p := 8 ^ Z.of_nat (length t)) in *.
    assert (1 <= p) by (unfold p; pose proof (Z.pow_pos_nonneg 8 (Z.of_nat (length t))); lia).
    change (ch "0") with 48. change (ch "7") with 55. rewrite (proj2 (Z.leb_le 48 c)), (proj2 (Z.leb_le c 55)) by lia. cbn [andb].
    assert (v * 8 + (c - 48) < 2 ^ 32) by nia.
    rewrite (proj2 (Z.ltb_ge _ v)) by (change ((2 ^ 32 - 1) / 8) with 536870911; lia). unfold u32. rewrite Z.mod_small by lia.
    rewrite IH; [|replace (s + (ofs + 1)) with (s + ofs + 1) by lia; done|done|lia|lia|lia|fold p; nia|lia].
    fold p. do 2 f_equal. nia.
Qed.

(** At most [k] digits for a number below [8 ^ k]. *)
Lemma digits_loop_length fuel fl v cnt buf r k : flag fl GROUP = false ->
  0 <= v < 8 ^ Z.of_nat k -> digits_loop fuel base_o fl v cnt buf = Ok r -> (length r <= length buf + k)%nat.
Proof.
  intros Hg. revert v cnt buf k. induction fuel as [|fuel IH]; intros v cnt buf k Hv Hr; [done|]. cbn [digits_loop] in Hr.
  destruct (Z.ltb_spec 0 v) as [Hpos|]; [|injection Hr as <-; lia]. rewrite Hg in Hr. cbn [andb mbind res_bind] in Hr.
  destruct k as [|k]; [cbn in Hv; lia|]. rewrite Nat2Z.inj_succ, Z.pow_succ_r in Hv by lia.
  destruct (arr_get _ _) as [d|] in Hr; [|done]. cbn [mbind res_bind] in Hr. unfold push in Hr. case_match; [|done]. cbn [mbind res_bind] in Hr.
  apply (IH _ _ _ k) in Hr; [cbn [length] in Hr; lia|]. change (base base_o) with 8. split; [apply Z.div_pos; lia|].
  apply Z.div_lt_upper_bound; lia.
Qed.

Definition conv_o (k : nat) : printf_conversion := mk_conv ZERO (Z.of_nat k) (-1) INT.

Lemma octal_text v k : (0 < k <= 20)%nat -> 0 <= v < 8 ^ Z.of_nat k ->
  exists t, int_text v false false base_o (conv_o k) = Ok t /\ length t = k /\ Forall (.∈ digits base_o) t /\ text_value base_o t = v.
Proof.
  intros Hk Hv. assert (base_o ∈ bases) as Hb by (right; left).
  assert (v < 2 ^ 64) as H64.
  { assert (8 ^ Z.of_nat k <= 8 ^ 20) by (apply Z.pow_le_mono_r; lia). change (8 ^ 20) with (2 ^ 60) in *. lia. }
  destruct (accumulate_ok v base_o (conv_o k)) as (buf & Ha & _ & Hval & _ & Hd); [lia|done|].
  assert (length buf <= k)%nat as Hlen.
  { unfold accumulate in Ha. cbn [flags conv_o precision] in Ha. destruct (digits_loop _ _ _ _ _ _) as [r|] eqn:Hr in Ha; [|done].
    apply (digits_loop_length _ _ _ _ _ _ k) in Hr; [|done|done]. cbn [mbind res_bind length] in Ha, Hr.
    destruct r as [|d r]; [vm_compute in Ha; injection Ha as <-; cbn; lia|].
    change (flag ZERO POUND) with false in Ha. cbn [andb] in Ha. change (-1 <? 0) with true in Ha. cbv iota in Ha.
    cbn [zeros_loop] in Ha. rewrite (proj2 (Z.ltb_ge _ 1)) in Ha by (cbn [length]; lia). cbn [andb mbind res_bind] in Ha. injection Ha as <-. done. }
  specialize (Hd eq_refl). unfold int_text. rewrite Ha. cbn [mbind res_bind].
  exists (replicate (k - length buf) (ch "0") ++ buf). split.
  - f_equal. unfold int_layout, conv_o. cbn [flags width]. unfold sign_char.
    change (flag ZERO POUND) with false. change (flag ZERO ZERO) with true. change (flag ZERO MINUS) with false.
    change (Z.land ZERO (Z.lor MINUS ZERO) =? 0) with false. cbn [andb]. change (0 =? 0) with true. cbv iota zeta. cbn [app].
    rewrite app_nil_r. unfold repeat_char. rewrite s32_small by lia. do 2 f_equal. lia.
  - rewrite length_app, length_replicate. split; [lia|]. split; [|by rewrite text_value_zeros].
    apply Forall_app. split; [|done]. apply Forall_replicate. by apply base_zero.
Qed.

(** One conversion of an unsigned word in base 8. *)
Lemma conversion_o m sfuel fuel f c cv v : peek f = Ok c -> c <> ch "%" ->
  parse_conversion f [v] = Ok ([ch "o"; 0], cv, [v]) -> type cv = INT ->
  vprintf_text m sfuel (S (S fuel)) (ch "%" :: f) [v] =
    ('(value, args) ← va_word [v]; t ← int_text value false false base_o cv; Ok (t ++ [])).
Proof.
  intros Hp Hc Hcv Ht. rewrite vprintf_text_S. change (peek (ch "%" :: f)) with (@Ok Z 37). cbn [mbind res_bind].
  change (37 =? 0) with false. change (negb (37 =? ch "%")) with false. cbv iota. cbn [drop]. rewrite drop_0, Hp. cbn [mbind res_bind].
  rewrite (proj2 (Z.eqb_neq c (ch "%"))), Hcv by done. cbn [mbind res_bind]. change (peek [ch "o"; 0]) with (@Ok Z 111). cbn [mbind res_bind].
  unfold conversion_text. change ((111 =? ch "d") || (111 =? ch "i")) with false.
  change ((111 =? ch "o") || (111 =? ch "u") || (111 =? ch "x") || (111 =? ch "X")) with true. cbv iota. rewrite Ht.
  cbn [unsigned_arg]. destruct (va_word [v]) as [[w args]|e] eqn:Hw; [|done]. unfold va_word in Hw. injection Hw as <- <-.
  cbn [mbind res_bind]. change (111 =? ch "o") with true. cbv iota.
  destruct (int_text _ _ _ _ _) as [t|e]; [|done]. cbn [mbind res_bind]. rewrite vprintf_text_S. reflexivity.
Qed.

Lemma percent_o m sfuel v k fmt : 0 <= v < 8 ^ Z.of_nat k -> v < 2 ^ 32 ->
  k = 7%nat /\ fmt = c_str "%07o" \/ k = 11%nat /\ fmt = c_str "%011o" ->
  exists t, printf_text m sfuel fmt [v] = Ok t /\ length t = k /\ Forall (.∈ digits base_o) t /\ text_value base_o t = v.
Proof.
  intros Hv H32 Hf. destruct (octal_text v k) as (t & Ht & Hl & Hd & Hval); [destruct Hf as [[-> _]|[-> _]]; lia|done|].
  exists t. split; [|done]. assert (va_word [v] = Ok (v, [])) as Hw by (unfold va_word, u32; by rewrite Z.mod_small by lia).
  assert (printf_text m sfuel fmt [v] = ('(value, args) ← va_word [v]; t ← int_text value false false base_o (conv_o k); Ok (t ++ []))) as ->.
  { destruct Hf as [[-> ->]|[-> ->]].
    - by apply (conversion_o m sfuel 33 (chars "07o" ++ [0]) (ch "0")).
    - by apply (conversion_o m sfuel 34 (chars "011o" ++ [0]) (ch "0")). }
  rewrite Hw. cbn [mbind res_bind]. rewrite Ht. cbn [mbind res_bind]. by rewrite app_nil_r.
Qed.

(** What [snprintf] leaves in an octal field of the header. *)
Lemma snprintf_octal m sfuel p v k fmt : 0 <= v < 8 ^ Z.of_nat k -> v < 2 ^ 32 ->
  k = 7%nat /\ fmt = c_str "%07o" \/ k = 11%nat /\ fmt = c_str "%011o" ->
  owned m p (Z.of_nat k + 1) ->
  exists t n, snprintf sfuel m p (Z.of_nat k + 1) fmt [v] = Ok (write_at m p (t ++ [0]), n) /\
    length t = k /\ Forall (.∈ digits base_o) t /\ text_value base_o t = v.
Proof.
  intros Hv H32 Hf Ho. destruct (percent_o m sfuel v k fmt Hv H32 Hf) as (t & Ht & Hl & Hd & Hval).
  exists t, (Z.of_nat (length t)). split; [|done]. assert (k <= 11)%nat by lia. unfold snprintf.
  rewrite (vsnprintf_text _ _ _ _ _ _ t) by (done || lia). rewrite (proj2 (Z.ltb_lt 0 _)) by lia.
  rewrite take_ge by lia. do 4 f_equal. rewrite <- (list_fmap_id t) at 2. apply list_fmap_ext. intros i c Hc.
  rewrite Forall_forall in Hd. apply list_elem_of_lookup_2 in Hc. destruct (octal_digit c (Hd c Hc)) as [? _].
  unfold u8. cbn. apply Z.mod_small. lia.
Qed.

Lemma parse_octal_spec m p t : bytes_at m p (t ++ [0]) -> Forall (.∈ digits base_o) t -> t <> [] -> text_value base_o t < 2 ^ 32 ->
  parse_octal_field m p (Z.of_nat (length t) + 1) = Ok (Some (text_value base_o t)).
Proof.
  intros Hb Hd Hne Hv. unfold parse_octal_field.
  rewrite (octal_loop_spec m p t); [by rewrite Z.mul_0_l, Z.add_0_l|by rewrite Z.add_0_r|done|lia|lia|lia| |by right].
  by rewrite Z.mul_0_l, Z.add_0_l.
Qed.


(** ** Checksums *)

Definition in_header (h a : Z) : Prop := h <= a < h + USTAR_HEADER_SIZE.
Definition in_chksum (h a : Z) : Prop := h + offsetof f_chksum <= a < h + offsetof f_chksum + sizeof f_chksum.

(** The sum does not depend on the field it is stored in, nor on the memory
    around the header. *)
Lemma chksum_loop_ext m m' h n i c :
  0 <= i -> (forall a, h + i <= a < h + i + Z.of_nat n -> ~ in_chksum h a -> m !! a = m' !! a) ->
  chksum_loop n m h i c = chksum_loop n m' h i c.
Proof.
  revert i c. induction n as [|n IH]; intros i c Hi Hm; [done|]. cbn [chksum_loop].
  set (inside := _ && _). assert ((if inside then Ok (ch " ") else load m (h + i)) = (if inside then Ok (ch " ") else load m' (h + i))) as ->.
  { destruct inside eqn:Hin; [done|]. unfold load. rewrite Hm; [done|lia|]. unfold in_chksum. subst inside. lia. }
  destruct (if inside then _ else _) as [b|e]; [|done]. cbn [mbind res_bind]. apply IH; [lia|]. intros a Ha. apply Hm. lia.
Qed.

Lemma chksum_ext m m' h :
  (forall a, in_header h a -> ~ in_chksum h a -> m !! a = m' !! a) -> calculate_chksum m h = calculate_chksum m' h.
Proof. intros Hm. apply chksum_loop_ext; [lia|]. intros a Ha. apply Hm. unfold in_header. change USTAR_HEADER_SIZE with 512 in *. lia. Qed.

Definition header_byte (m : mem) (a : Z) : Z := default 0 (m !! a).
Definition header_bytes (m : mem) (h : Z) : Prop := forall a, in_header h a -> exists b, m !! a = Some b /\ is_byte b.

(** The sum as a sum. *)
Definition chksum_term (m : mem) (h i : Z) : Z := if decide (in_chksum h (h + i)) then ch " " else header_byte m (h + i).
Fixpoint chksum_sum (m : mem) (h i : Z) (n : nat) : Z :=
  match n with O => 0 | S n => chksum_term m h i + chksum_sum m h (i + 1) n end.

Lemma chksum_term_range m h i : header_bytes m h -> 0 <= i < 512 -> 0 <= chksum_term m h i <= 255.
Proof.
  intros Hb Hi. unfold chksum_term, header_byte. case_decide; [change (ch " ") with 32; lia|]. destruct (Hb (h + i)) as (b & -> & Hr).
  { unfold in_header. change USTAR_HEADER_SIZE with 512. lia. } unfold is_byte in Hr. cbn. lia.
Qed.

Lemma chksum_sum_range m h n : forall i, header_bytes m h -> 0 <= i -> i + Z.of_nat n <= 512 ->
  0 <= chksum_sum m h i n <= 255 * Z.of_nat n.
Proof.
  induction n as [|n IH]; intros i Hb Hi Hn; cbn [chksum_sum]; [lia|].
  pose proof (chksum_term_range m h i Hb ltac:(lia)). specialize (IH (i + 1) Hb ltac:(lia) ltac:(lia)). lia.
Qed.

Lemma chksum_loop_spec m h n : forall i c, header_bytes m h -> 0 <= i -> i + Z.of_nat n <= 512 -> 0 <= c <= 255 * i ->
  chksum_loop n m h i c = Ok (c + chksum_sum m h i n).
Proof.
  induction n as [|n IH]; intros i c Hb Hi Hn Hc; cbn [chksum_loop chksum_sum]; [f_equal; lia|].
  assert ((if (offsetof f_chksum <=? i) && (i <? offsetof f_chksum + sizeof f_chksum) then Ok (ch " ") else load m (h + i))
    = Ok (chksum_term m h i)) as ->.
  { unfold chksum_term, in_chksum, header_byte. case_decide as Hd.
    - by replace ((offsetof f_chksum <=? i) && _) with true by lia.
    - replace ((offsetof f_chksum <=? i) && _) with false by lia. destruct (Hb (h + i)) as (b & Hm & _).
      { unfold in_header. change USTAR_HEADER_SIZE with 512. lia. } rewrite Hm. by apply load_Ok. }
  cbn [mbind res_bind]. pose proof (chksum_term_range m h i Hb ltac:(lia)). unfold u32. rewrite Z.mod_small by lia.
  rewrite IH by (done || lia). f_equal. lia.
Qed.

Lemma calculate_chksum_spec m h : header_bytes m h ->
  calculate_chksum m h = Ok (chksum_sum m h 0 512) /\ 0 <= chksum_sum m h 0 512 <= 130560.
Proof.
  intros Hb. pose proof (chksum_sum_range m h 512 0 Hb ltac:(lia) ltac:(lia)). split; [|lia].
  unfold calculate_chksum. change (Z.to_nat USTAR_HEADER_SIZE) with 512%nat. by rewrite (chksum_loop_spec m h 512 0 0) by (done || lia).
Qed.

Lemma is_all_zeros_spec n m p : owned m p (Z.of_nat n) ->
  exists z, is_all_zeros_loop n m p = Ok z /\ (z = true <-> bytes_at m p (replicate n 0)).
Proof.
  revert p. induction n as [|n IH]; intros p Ho; cbn [is_all_zeros_loop replicate bytes_at]; [by exists true|].
  destruct (Ho p ltac:(lia)) as [b Hb]. rewrite (load_Ok _ _ _ Hb). cbn [mbind res_bind].
  destruct (Z.eqb_spec b 0) as [->|Hne]; cbn [negb].
  - destruct (IH (p + 1)) as (z & -> & Hz); [intros a Ha; apply Ho; lia|]. exists z. split; [done|]. rewrite Hz. by split; [split|intros []].
  - exists false. split; [done|]. split; [done|]. intros [H _]. congruence.
Qed.

(** ** Headers as fields *)

Lemma fields_apart f g : f <> g -> offsetof f + sizeof f <= offsetof g \/ offsetof g + sizeof g <= offsetof f.
Proof. intros H. destruct f, g; first [done|left; by vm_compute|right; by vm_compute]. Qed.

Lemma field_inside f : 0 <= offsetof f /\ 0 < sizeof f /\ offsetof f + sizeof f <= 512.
Proof. by destruct f; vm_compute. Qed.

Lemma field_covers i : 0 <= i < 512 -> exists f, offsetof f <= i < offsetof f + sizeof f.
Proof.
  intros Hi. assert (forallb (fun i => existsb (fun f => (offsetof f <=? i) && (i <? offsetof f + sizeof f)) ustar_header) (seqZ 0 512) = true)
    as Hall by (by vm_compute).
  rewrite forallb_forall in Hall. specialize (Hall i). rewrite <- list_elem_of_In, elem_of_seqZ, existsb_exists in Hall.
  destruct Hall as (f & _ & Hf); [lia|]. exists f. lia.
Qed.

(** The header at [h] has the bytes [fld f] in field [f]. *)
Definition header_at (m : mem) (h : Z) (fld : ustar_field -> list Z) : Prop :=
  forall f, Z.of_nat (length (fld f)) = sizeof f /\ Forall is_byte (fld f) /\ bytes_at m (h + offsetof f) (fld f).

Definition set_field (g : ustar_field) (bs : list Z) (fld : ustar_field -> list Z) : ustar_field -> list Z :=
  fun f => if decide (f = g) then bs ++ drop (length bs) (fld f) else fld f.

Lemma bytes_at_write_apart m p bs q cs :
  q + Z.of_nat (length cs) <= p \/ p + Z.of_nat (length bs) <= q -> bytes_at m q cs -> bytes_at (write_at m p bs) q cs.
Proof.
  intros Ha Hc. apply bytes_at_intro. intros i b Hi. pose proof (lookup_lt_Some _ _ _ Hi).
  rewrite write_at_lookup, decide_False by lia. by eapply bytes_at_lookup.
Qed.

Lemma header_set m h fld g bs : header_at m h fld -> Z.of_nat (length bs) <= sizeof g -> Forall is_byte bs ->
  header_at (write_at m (h + offsetof g) bs) h (set_field g bs fld).
Proof.
  intros Hh Hlen Hbs f. destruct (Hh f) as (Hl & Hb & Hm). unfold set_field. case_decide as E; [subst g|].
  - rewrite length_app, length_drop. split; [lia|]. split; [by apply Forall_app; split; [|apply Forall_drop]|].
    apply bytes_at_app. split; [apply write_at_bytes|]. apply bytes_at_write_apart; [lia|].
    rewrite <- (take_drop (length bs) (fld f)) in Hm. apply bytes_at_app in Hm as [_ Hm].
    rewrite length_take, Nat.min_l in Hm by lia. done.
  - split; [done|]. split; [done|]. apply bytes_at_write_apart; [|done]. pose proof (fields_apart f g E). lia.
Qed.

Lemma header_owned m h fld f : header_at m h fld -> owned m (h + offsetof f) (sizeof f).
Proof. intros Hh. destruct (Hh f) as (<- & _ & Hm). by apply bytes_at_owned. Qed.

Lemma header_at_bytes m h fld : header_at m h fld -> header_bytes m h.
Proof.
  intros Hh a [H1 H2]. change USTAR_HEADER_SIZE with 512 in H2. destruct (field_covers (a - h)) as (f & Hf); [lia|].
  destruct (Hh f) as (Hl & Hb & Hm). destruct (lookup_lt_is_Some_2 (fld f) (Z.to_nat (a - h - offsetof f))) as [b Hlk]; [lia|].
  exists b. split; [|by eapply Forall_lookup_1]. apply (bytes_at_lookup m (h + offsetof f)) in Hlk; [|done].
  rewrite <- Hlk. f_equal. lia.
Qed.

Lemma header_cleared m h : header_at (write_at m h (replicate 512 0)) h (fun f => replicate (Z.to_nat (sizeof f)) 0).
Proof.
  intros f. destruct (field_inside f) as (H0 & H1 & H2). rewrite length_replicate. split; [lia|].
  split; [by apply Forall_replicate|]. apply bytes_at_intro. intros i b [-> Hi]%lookup_replicate.
  rewrite write_at_lookup, length_replicate, decide_True by lia. apply lookup_replicate. split; [done|lia].
Qed.


(** ** Composing a header *)

Lemma bytes_at_mono m m' p bs : m ⊆ m' -> bytes_at m p bs -> bytes_at m' p bs.
Proof.
  intros Hs Hb. apply bytes_at_intro. intros i b Hi. eapply lookup_weaken; [|done]. by eapply bytes_at_lookup.
Qed.
Lemma cstr_mono m m' p s : m ⊆ m' -> cstr m p s -> cstr m' p s.
Proof. intros Hs [Hb Hn]. split; [by eapply bytes_at_mono|done]. Qed.
Lemma literals_mono m m' L : m ⊆ m' -> literals_ok m L -> literals_ok m' L.
Proof.
  intros Hs (H1 & H2 & H3 & H4 & H5 & H6 & H7 & Hp).
  by repeat (split; [eapply cstr_mono; eassumption|]).
Qed.

Lemma set_field_eq g bs fld : Z.of_nat (length (fld g)) = sizeof g -> Z.of_nat (length bs) = sizeof g -> set_field g bs fld g = bs.
Proof. intros H1 H2. unfold set_field. rewrite decide_True by done. rewrite drop_ge by lia. apply app_nil_r. Qed.
Lemma set_field_ne g bs fld f : f <> g -> set_field g bs fld f = fld f.
Proof. intros H. unfold set_field. by rewrite decide_False. Qed.

Lemma chars_bytes s : forallb (fun c => (0 <=? c) && (c <? 256)) (chars s) = true -> Forall is_byte (chars s).
Proof.
  intros H. apply Forall_forall. intros c Hc%list_elem_of_In. rewrite forallb_forall in H. specialize (H c Hc). unfold is_byte. lia.
Qed.

Lemma bind_ok {A B} (a : A) (f : A -> res B) : (Ok a ≫= f) = f a.
Proof. done. Qed.

Section make.
(** [m0] is memory that holds the names and literals; it is apart from the
    header. *)
Context (fuel : nat) (L : literals) (m0 m : mem) (h : Z).
Context (HL : literals_ok m0 L) (Hsub : m0 ⊆ m) (Hout : forall a, in_header h a -> m0 !! a = None).
Context (Hh : 0 < h) (Hfuel : (8 < fuel)%nat).

(** The header so far; nothing around it has changed. *)
Definition composed (m1 : mem) (fld : ustar_field -> list Z) : Prop :=
  header_at m1 h fld /\ forall a, ~ in_header h a -> m1 !! a = m !! a.

Lemma composed_sub m1 fld : composed m1 fld -> m0 ⊆ m1.
Proof.
  intros [_ Hf]. apply map_subseteq_spec. intros a b Ha. destruct (decide (h <= a < h + USTAR_HEADER_SIZE)) as [Hin|Hin].
  - by rewrite Hout in Ha.
  - rewrite Hf by done. by eapply lookup_weaken.
Qed.

Lemma composed_write m1 fld g bs : composed m1 fld -> Z.of_nat (length bs) <= sizeof g -> Forall is_byte bs ->
  composed (write_at m1 (h + offsetof g) bs) (set_field g bs fld).
Proof.
  intros [H1 H2] Hl Hb. split; [by apply header_set|]. intros a Ha. rewrite write_at_lookup, decide_False; [by apply H2|].
  intros Hr. apply Ha. destruct (field_inside g). unfold in_header. change USTAR_HEADER_SIZE with 512. lia.
Qed.

(** A string of [m0] is on one side of the header. *)
Lemma string_apart p s : cstr m0 p s -> p + Z.of_nat (length s) < h \/ h + 512 <= p.
Proof.
  intros [Hb _]. destruct (decide (p + Z.of_nat (length s) < h)); [by left|]. destruct (decide (h + 512 <= p)); [by right|].
  destruct (bytes_at_owned _ _ _ Hb (Z.max p h)) as [b Hx]; [rewrite length_app; cbn [length]; lia|].
  rewrite Hout in Hx; [done|]. unfold in_header. change USTAR_HEADER_SIZE with 512. lia.
Qed.

Lemma composed_strlcpy m1 fld g p s : composed m1 fld -> cstr m0 p s -> p <> 0 -> (length s < fuel)%nat ->
  Forall is_byte s -> Z.of_nat (length s) < sizeof g ->
  exists m2 n, strlcpy fuel m1 (h + offsetof g) p (sizeof g) = Ok (m2, n) /\ composed m2 (set_field g (s ++ [0]) fld).
Proof.
  intros Hc Hs Hp Hf Hb Hl. eexists _, _. split.
  - destruct (field_inside g). pose proof (string_apart p s Hs). apply strlcpy_fits; try done.
    + unfold NULL. lia.
    + eapply cstr_mono; [|done]. by eapply composed_sub.
    + eapply header_owned. apply Hc.
    + lia.
  - apply composed_write; [done|rewrite length_app; cbn [length]; lia|]. apply Forall_app. split; [done|]. by repeat constructor.
Qed.

Lemma composed_octal m1 fld g v k fmt : composed m1 fld -> 0 <= v < 8 ^ Z.of_nat k -> v < 2 ^ 32 -> sizeof g = Z.of_nat k + 1 ->
  k = 7%nat /\ fmt = c_str "%07o" \/ k = 11%nat /\ fmt = c_str "%011o" ->
  exists m2 n t, snprintf fuel m1 (h + offsetof g) (sizeof g) fmt [v] = Ok (m2, n) /\ m2 = write_at m1 (h + offsetof g) (t ++ [0]) /\
    composed m2 (set_field g (t ++ [0]) fld) /\
    length t = k /\ Forall (.∈ digits base_o) t /\ text_value base_o t = v.
Proof.
  intros Hc Hv H32 Hg Hf. destruct (snprintf_octal m1 fuel (h + offsetof g) v k fmt Hv H32 Hf) as (t & n & Ht & Hl & Hd & Hval).
  { rewrite <- Hg. eapply header_owned, Hc. }
  rewrite Hg. eexists _, n, t. split; [exact Ht|]. split; [done|]. split; [|done]. apply composed_write; [done|rewrite length_app; cbn [length]; lia|].
  apply Forall_app. split; [|by repeat constructor]. eapply Forall_impl; [exact Hd|]. intros c Hcd.
  destruct (octal_digit c Hcd) as [? _]. unfold is_byte. lia.
Qed.

Lemma composed_store m1 fld g b : composed m1 fld -> is_byte b ->
  store m1 (h + offsetof g) b = Ok (write_at m1 (h + offsetof g) [b]) /\ composed (write_at m1 (h + offsetof g) [b]) (set_field g [b] fld).
Proof.
  intros Hc Hb. destruct (field_inside g). split.
  - apply store_Ok; [|done]. eapply (header_owned _ _ _ g); [apply Hc|lia].
  - apply composed_write; [done|cbn [length]; lia|by apply Forall_singleton].
Qed.

Lemma composed_version m1 fld : composed m1 fld ->
  exists m2, (m1 ← store m1 (h + offsetof f_version + 1) (ch "0"); store m1 (h + offsetof f_version) (ch "0")) = Ok m2 /\
    composed m2 (set_field f_version [ch "0"; ch "0"] fld).
Proof.
  intros Hc. assert (is_byte (ch "0")) as Hb by (by vm_compute). pose proof (header_owned _ _ _ f_version (proj1 Hc)) as Ho.
  change (sizeof f_version) with 2 in Ho.
  eexists. split.
  - rewrite store_Ok; [|apply Ho; lia|done]. cbn [mbind res_bind]. rewrite store_Ok; [reflexivity| |done].
    rewrite lookup_insert_ne by lia. apply Ho. lia.
  - apply (composed_write m1 fld f_version [ch "0"; ch "0"]); [done|by vm_compute|by repeat constructor].
Qed.

(** The name that goes into the header is in [m0]. *)
Lemma stripped_name p s : cstr m0 p s -> 0 < p -> (length s < fuel)%nat -> Forall is_byte s ->
  exists q, strip_antisocial_prefixes fuel L m p = Ok q /\ 0 < q /\ cstr m0 q (safe_name s) /\
    (length (safe_name s) < fuel)%nat /\ Forall is_byte (safe_name s).
Proof.
  intros Hs Hp Hf Hb. destruct (strip_spec fuel L m (literals_mono _ _ _ Hsub HL) p s) as (q & Hq & Hq0 & _ & Hcase); try done.
  { by eapply cstr_mono. }
  exists q. split; [done|]. split; [done|]. destruct Hcase as [[-> ->]|(pre & Hpre & ->)].
  - split; [apply HL|]. split; [cbn; lia|]. apply Forall_singleton. by vm_compute.
  - rewrite Hpre in Hs, Hf, Hb. split; [by apply cstr_app|]. rewrite length_app in Hf. split; [lia|]. by apply Forall_app in Hb as [_ Hb].
Qed.

(** The fields that [ustar_parse_header] looks at. *)
Definition fields_of (m1 : mem) (name : list Z) (type size : Z) (fld : ustar_field -> list Z) : Prop :=
  (exists pad, fld f_name = name ++ [0] ++ pad) /\ nth 99 (fld f_name) 1 = 0 /\ nth 0 (fld f_prefix) 1 = 0 /\ fld f_typeflag = [type] /\
  fld f_magic = chars "ustar" ++ [0] /\ fld f_version = [ch "0"; ch "0"] /\
  (exists t, fld f_size = t ++ [0] /\ length t = 11%nat /\ Forall (.∈ digits base_o) t /\ text_value base_o t = size) /\
  (exists t, fld f_chksum = t ++ [0] /\ length t = 7%nat /\ Forall (.∈ digits base_o) t /\ text_value base_o t = chksum_sum m1 h 0 512).

Definition cleared (f : ustar_field) : list Z := replicate (Z.to_nat (sizeof f)) 0.

Lemma header_clear : owned m h USTAR_HEADER_SIZE ->
  exists m1, memset m h 0 sizeof_ustar_header = Ok (m1, h) /\ composed m1 cleared.
Proof.
  intros Ho. exists (write_at m h (replicate 512 0)). split.
  - unfold memset. rewrite bind_ASSERT by (apply block_ok_intro; unfold NULL; lia).
    rewrite memset_loop_spec; [done| |by vm_compute]. exact Ho.
  - split; [apply header_cleared|]. intros a Ha. rewrite write_at_lookup, length_replicate, decide_False; [done|].
    intros Hr. by apply Ha.
Qed.

(** The header that is composed: [tm], [ts], [tt] and [tc] are the octal texts. *)
Definition layout (name tm ts tt tc : list Z) (type : Z) : ustar_field -> list Z :=
  set_field f_chksum (tc ++ [0]) (set_field f_uname (chars "root" ++ [0]) (set_field f_gname (chars "root" ++ [0])
  (set_field f_version [ch "0"; ch "0"] (set_field f_magic (chars "ustar" ++ [0]) (set_field f_typeflag [type]
  (set_field f_mtime (tt ++ [0]) (set_field f_size (ts ++ [0]) (set_field f_gid (chars "0000000" ++ [0])
  (set_field f_uid (chars "0000000" ++ [0]) (set_field f_mode (tm ++ [0]) (set_field f_name (name ++ [0]) cleared))))))))))).

Lemma layout_fields m1 name tm ts tt tc type size : (length name <= 99)%nat ->
  length ts = 11%nat -> Forall (.∈ digits base_o) ts -> text_value base_o ts = size ->
  length tc = 7%nat -> Forall (.∈ digits base_o) tc -> text_value base_o tc = chksum_sum m1 h 0 512 ->
  fields_of m1 name type size (layout name tm ts tt tc type).
Proof.
  intros Hlen L6 D6 V6 L14 D14 V14. unfold fields_of, layout. split_and!; repeat (rewrite set_field_ne by discriminate).
  - unfold set_field. rewrite decide_True by reflexivity. eexists. by rewrite <- app_assoc.
  - unfold set_field. rewrite decide_True by reflexivity. unfold cleared. change (Z.to_nat (sizeof f_name)) with 100%nat.
    rewrite drop_replicate, length_app, <- app_assoc, app_nth2 by lia. cbn [length].
    change ([0] ++ replicate ?k 0) with (replicate (S k) 0).
    rewrite nth_lookup, lookup_replicate_2 by lia. reflexivity.
  - reflexivity.
  - reflexivity.
  - reflexivity.
  - reflexivity.
  - exists ts. split; [|by split_and!]. apply set_field_eq; [reflexivity|by rewrite length_app, L6].
  - exists tc. split; [|by split_and!]. apply set_field_eq; [reflexivity|by rewrite length_app, L14].
Qed.

Lemma make_header_fields p s type size : cstr m0 p s -> 0 < p -> (length s < fuel)%nat -> Forall is_byte s ->
  owned m h USTAR_HEADER_SIZE -> type = USTAR_REGULAR \/ type = USTAR_DIRECTORY -> 0 <= size < 2 ^ 32 ->
  (length (safe_name s) <= 99)%nat ->
  exists m1 fld, ustar_make_header fuel L m p type size h = Ok (m1, true) /\ composed m1 fld /\
    fields_of m1 (safe_name s) type size fld.
Proof.
  intros Hs Hp Hf Hb Ho Hty Hsz Hlen. destruct (stripped_name p s Hs Hp Hf Hb) as (q & Hq & Hq0 & Hqs & Hqf & Hqb).
  assert (is_byte type) as Htb by (by destruct Hty as [->| ->]).
  assert (0 <= (if type =? USTAR_REGULAR then 420 else 493) < 8 ^ Z.of_nat 7) as Hmode by (by destruct (type =? _)).
  assert ((if type =? USTAR_REGULAR then 420 else 493) < 2 ^ 32) as Hmode' by (by destruct (type =? _)).
  unfold ustar_make_header. rewrite bind_ASSERT by done.
  rewrite bind_ASSERT by (destruct Hty as [->| ->]; done). rewrite Hq. cbn [mbind res_bind].
  rewrite (strlen_spec _ _ _ (safe_name s)); [|unfold NULL; lia|by eapply cstr_mono|done]. cbn [mbind res_bind].
  rewrite (proj2 (Z.ltb_ge 99 _)) by lia. destruct (header_clear Ho) as (m1 & E1 & H1). rewrite E1. cbn [mbind res_bind].
  destruct HL as (_ & _ & _ & _ & Hz & Hu & Hr & _ & _ & _ & _ & Hzp & Hup & Hrp).
  destruct (composed_strlcpy _ _ f_name _ _ H1 Hqs) as (m2 & n2 & E2 & H2); [lia|done|done|cbn; lia|]. rewrite E2. rewrite bind_ok.
  destruct (composed_octal _ _ f_mode (if type =? USTAR_REGULAR then 420 else 493) 7 (c_str "%07o") H2) as (m3 & n3 & t3 & E3 & W3 & H3 & _);
    [exact Hmode|exact Hmode'|reflexivity|left; split; reflexivity|]. rewrite E3. rewrite bind_ok.
  destruct (composed_strlcpy _ _ f_uid _ _ H3 Hz) as (m4 & n4 & E4 & H4); [lia|cbn; lia|by apply chars_bytes|reflexivity|]. rewrite E4. rewrite bind_ok.
  destruct (composed_strlcpy _ _ f_gid _ _ H4 Hz) as (m5 & n5 & E5 & H5); [lia|cbn; lia|by apply chars_bytes|reflexivity|]. rewrite E5. rewrite bind_ok.
  destruct (composed_octal _ _ f_size size 11 (c_str "%011o") H5) as (m6 & n6 & t6 & E6 & W6 & H6 & L6 & D6 & V6);
    [change (8 ^ Z.of_nat 11) with (2 ^ 33); lia|lia|reflexivity|right; split; reflexivity|]. rewrite E6. rewrite bind_ok.
  destruct (composed_octal _ _ f_mtime 1136102400 11 (c_str "%011o") H6) as (m7 & n7 & t7 & E7 & W7 & H7 & _);
    [by vm_compute|by vm_compute|reflexivity|right; split; reflexivity|]. change (sizeof f_mtime) with (sizeof f_size) in E7. rewrite E7. rewrite bind_ok.
  destruct (composed_store _ _ f_typeflag type H7) as [E8 H8]; [exact Htb|]. rewrite E8. rewrite bind_ok.
  destruct (composed_strlcpy _ _ f_magic _ _ H8 Hu) as (m9 & n9 & E9 & H9); [lia|cbn; lia|by apply chars_bytes|reflexivity|]. rewrite E9. rewrite bind_ok.
  destruct (composed_version _ _ H9) as (m10 & E10 & H10).
  destruct (store m9 _ _) as [m9'|e] eqn:E9' in E10 |- *; [|done]. rewrite bind_ok in E10. rewrite bind_ok. rewrite E10. rewrite bind_ok.
  destruct (composed_strlcpy _ _ f_gname _ _ H10 Hr) as (m11 & n11 & E11 & H11); [lia|cbn; lia|by apply chars_bytes|reflexivity|]. rewrite E11. rewrite bind_ok.
  destruct (composed_strlcpy _ _ f_uname _ _ H11 Hr) as (m12 & n12 & E12 & H12); [lia|cbn; lia|by apply chars_bytes|reflexivity|]. rewrite E12. rewrite bind_ok.
  destruct (calculate_chksum_spec m12 h) as [E13 R13]; [by eapply header_at_bytes, H12|].
  remember (chksum_sum m12 h 0 512) as c eqn:Hc. clear Hc. rewrite E13.
  assert (0 <= c < 8 ^ Z.of_nat 7 /\ c < 2 ^ 32) as [Hc7 Hc32] by (clear - R13; change (8 ^ Z.of_nat 7) with 2097152; lia). rewrite bind_ok.
  destruct (composed_octal _ _ f_chksum c 7 (c_str "%07o") H12) as (m14 & n14 & t14 & E14 & W14 & H14 & L14 & D14 & V14);
    [exact Hc7|exact Hc32|reflexivity|left; split; reflexivity|]. rewrite E14. rewrite bind_ok.
  eexists m14, _. split; [reflexivity|]. split; [exact H14|]. destruct H14 as [H14 _].
  assert (chksum_sum m14 h 0 512 = c) as Hsum.
  { destruct (calculate_chksum_spec m14 h) as [E15 _]; [by eapply header_at_bytes|].
    rewrite (chksum_ext m14 m12), E13 in E15; [by injection E15|]. intros a _ Ha. rewrite W14, write_at_lookup, decide_False; [done|].
    rewrite length_app. cbn [length]. unfold in_chksum in Ha. change (sizeof f_chksum) with 8 in Ha. lia. }
  rewrite <- Hsum in V14. by apply layout_fields.
Qed.
End make.


(** ** Parsing *)

Lemma header_bytes_owned m h : header_bytes m h -> owned m h 512.
Proof. intros Hb a Ha. destruct (Hb a) as (b & -> & _); [unfold in_header; change USTAR_HEADER_SIZE with 512; lia|by eexists]. Qed.

Lemma not_all_zeros m h a b : header_bytes m h -> in_header h a -> m !! a = Some b -> b <> 0 ->
  is_all_zeros m h USTAR_HEADER_SIZE = Ok false.
Proof.
  intros Hb Ha Hm Hne. unfold is_all_zeros. change (Z.to_nat USTAR_HEADER_SIZE) with 512%nat.
  destruct (is_all_zeros_spec 512 m h) as (z & -> & Hz); [by apply header_bytes_owned|]. destruct z; [|done].
  destruct Hne. assert (bytes_at m h (replicate 512 0)) as Hbs by (by apply Hz). unfold in_header in Ha. change USTAR_HEADER_SIZE with 512 in Ha.
  apply (bytes_at_lookup m h _ (Z.to_nat (a - h)) 0) in Hbs; [|apply lookup_replicate_2; lia].
  replace (h + Z.of_nat (Z.to_nat (a - h))) with a in Hbs by lia. congruence.
Qed.

Lemma field_byte m h fld f i : header_at m h fld -> (i < length (fld f))%nat ->
  m !! (h + offsetof f + Z.of_nat i) = Some (nth i (fld f) 1).
Proof.
  intros Hh Hi. destruct (Hh f) as (_ & _ & Hm). destruct (lookup_lt_is_Some_2 _ _ Hi) as [b Hb].
  rewrite nth_lookup, Hb. by eapply bytes_at_lookup.
Qed.

Lemma magic_matches L m h fld : literals_ok m L -> 0 < h -> header_at m h fld -> fld f_magic = chars "ustar" ++ [0] ->
  memcmp m (h + offsetof f_magic) (lit_ustar L) 6 = Ok 0.
Proof.
  intros HL Hh Hhd Hmag. destruct HL as (_ & _ & _ & _ & _ & [Hu _] & _ & _ & _ & _ & _ & _ & Hup & _).
  destruct (Hhd f_magic) as (_ & _ & Hm). rewrite Hmag in Hm.
  unfold memcmp. destruct (field_inside f_magic). rewrite !bind_ASSERT by (apply block_ok_intro; unfold NULL; lia).
  change (Z.to_nat 6) with (length (chars "ustar" ++ [0])). by rewrite (memcmp_loop_spec _ _ _ _ _ Hm Hu).
Qed.

(** A field that holds the octal text [t]. *)
Lemma octal_field m h fld f t k v : header_at m h fld -> fld f = t ++ [0] -> length t = S k -> sizeof f = Z.of_nat (S k) + 1 ->
  Forall (.∈ digits base_o) t -> text_value base_o t = v -> v < 2 ^ 32 ->
  parse_octal_field m (h + offsetof f) (sizeof f) = Ok (Some v).
Proof.
  intros Hhd Hf Hl Hs Hd <- H32. destruct (Hhd f) as (_ & _ & Hm). rewrite Hf in Hm. rewrite Hs, <- Hl.
  apply parse_octal_spec; try done. by intros ->.
Qed.

Lemma parse_composed fuel L m h fld name type size :
  literals_ok m L -> 0 < h -> (length name < fuel)%nat -> header_at m h fld -> fields_of h m name type size fld ->
  0 ∉ name -> type = USTAR_REGULAR \/ type = USTAR_DIRECTORY -> 0 <= size < 2 ^ 31 ->
  exists q, ustar_parse_header fuel L m h = Ok (Entry q type (if type =? USTAR_REGULAR then size else 0)) /\
    cstr m q (safe_name name).
Proof.
  intros HL Hh Hf Hhd (Hname & Hn99 & Hpre & Hty & Hmag & Hver & (ts & Hts & Lts & Dts & Vts) & (tc & Htc & Ltc & Dtc & Vtc)) H0 Htype Hsz.
  pose proof (header_at_bytes _ _ _ Hhd) as Hb. destruct (calculate_chksum_spec m h Hb) as [Hsum Hrange].
  remember (chksum_sum m h 0 512) as c eqn:Ec. clear Ec.
  unfold ustar_parse_header. rewrite bind_ASSERT by reflexivity. cbv zeta.
  assert (m !! (h + offsetof f_typeflag) = Some type) as Htb.
  { rewrite <- (Z.add_0_r (h + _)). change 0 with (Z.of_nat 0). rewrite (field_byte m h fld) by (done || rewrite Hty; cbn; lia). by rewrite Hty. }
  rewrite (not_all_zeros m h (h + offsetof f_typeflag) type); [|done| |done|by destruct Htype as [->| ->]]; cycle 1.
  { unfold in_header. change (offsetof f_typeflag) with 156. change USTAR_HEADER_SIZE with 512. lia. }
  rewrite bind_ok.
  rewrite (magic_matches L m h fld) by done.
  rewrite bind_ok. change (negb (0 =? 0)) with false. cbv iota.
  assert (m !! (h + offsetof f_version) = Some (ch "0") /\ m !! (h + offsetof f_version + 1) = Some (ch "0")) as [Hv0 Hv1].
  { destruct (Hhd f_version) as (_ & _ & Hm). rewrite Hver in Hm. by destruct Hm as (? & ? & _). }
  rewrite (load_Ok _ _ _ Hv0), bind_ok. change (ch "0" =? ch "0") with true. cbv iota. rewrite (load_Ok _ _ _ Hv1), bind_ok.
  change (ch "0" =? ch "0") with true. cbn [negb orb].
  rewrite (octal_field m h fld f_chksum tc 6 c) by (done || lia). rewrite bind_ok, Hsum, bind_ok, Z.eqb_refl.
  cbn [negb]. destruct (Hhd f_name) as (Hnl & _ & Hnm). change (sizeof f_name) with 100 in *.
  replace (h + offsetof f_name + 100 - 1) with (h + offsetof f_name + Z.of_nat 99) by lia.
  rewrite (load_Ok _ _ _ (field_byte m h fld f_name 99 Hhd ltac:(lia))), bind_ok, Hn99. change (0 =? 0) with true. cbv iota.
  assert (m !! (h + offsetof f_prefix) = Some 0) as Hp0.
  { rewrite <- (Z.add_0_r (h + _)). change 0 with (Z.of_nat 0) at 1. destruct (Hhd f_prefix) as (Hpl & _). change (sizeof f_prefix) with 155 in Hpl.
    rewrite (field_byte m h fld) by (done || lia). by rewrite Hpre. }
  rewrite (load_Ok _ _ _ Hp0), bind_ok. change (0 =? 0) with true. cbn [negb orb].
  rewrite (load_Ok _ _ _ Htb), bind_ok.
  replace (negb (type =? USTAR_REGULAR) && negb (type =? USTAR_DIRECTORY)) with false by (by destruct Htype as [->| ->]). cbv iota.
  assert (parse_size m h type = Ok (inr (if type =? USTAR_REGULAR then size else 0))) as ->.
  { unfold parse_size. destruct (type =? USTAR_REGULAR); [|done].
    rewrite (octal_field m h fld f_size ts 10 size) by (done || lia). rewrite bind_ok.
    by rewrite (proj2 (Z.ltb_ge _ _)) by lia. }
  rewrite bind_ok.
  assert (cstr m (h + offsetof f_name) name) as Hcn.
  { split; [|done]. destruct Hname as [pad Hpad]. rewrite Hpad, app_assoc in Hnm. by apply bytes_at_app in Hnm as [? _]. }
  destruct (strip_spec fuel L m HL (h + offsetof f_name) name Hf) as (q & -> & _ & Hq & _); [|done|].
  { destruct (field_inside f_name). lia. }
  rewrite bind_ok. exists q. split; [|done]. f_equal. f_equal. destruct (type =? USTAR_REGULAR); [|done]. apply s32_small. lia.
Qed.


(** ** Corrupted headers *)

Lemma chksum_sum_insert m h a b n : forall i, ~ in_chksum h a ->
  chksum_sum (<[a := b]> m) h i n =
    chksum_sum m h i n + (if decide (h + i <= a < h + i + Z.of_nat n) then b - header_byte m a else 0).
Proof.
  induction n as [|n IH]; intros i Ha; cbn [chksum_sum]; [by rewrite decide_False by lia|]. rewrite IH by done.
  unfold chksum_term, header_byte. destruct (decide (a = h + i)) as [->|Hne].
  - rewrite lookup_insert_eq. repeat case_decide; try done; cbn; lia.
  - rewrite lookup_insert_ne by done. repeat case_decide; lia.
Qed.

Lemma octal_loop_ext m m' s n : forall ofs v, 0 <= ofs ->
  (forall i, ofs <= i < ofs + Z.of_nat n -> m !! (s + i) = m' !! (s + i)) -> octal_loop n m s ofs v = octal_loop n m' s ofs v.
Proof.
  induction n as [|n IH]; intros ofs v Ho Hm; [done|]. cbn [octal_loop]. unfold load. rewrite Hm by lia.
  destruct (m' !! (s + ofs)) as [c|]; [|done]. cbn [mbind res_bind]. repeat case_match; try done. apply IH; [lia|]. intros i Hi. apply Hm. lia.
Qed.

(** A field that parses starts with a digit. *)
Lemma octal_first m s n v : parse_octal_field m s (Z.of_nat n + 1) = Ok (Some v) -> exists c, m !! s = Some c /\ c <> 0.
Proof.
  unfold parse_octal_field. replace (Z.to_nat (Z.of_nat n + 1)) with (S n) by lia. cbn [octal_loop]. rewrite Z.add_0_r. unfold load.
  destruct (m !! s) as [c|]; [|done]. cbn [mbind res_bind]. intros H. exists c. split; [done|]. intros ->.
  change ((ch "0" <=? 0) && _) with false in H. change ((0 =? ch " ") || (0 =? 0)) with true in H. done.
Qed.

Lemma memcmp_loop_total m n : forall a b, owned m a (Z.of_nat n) -> owned m b (Z.of_nat n) -> exists r, memcmp_loop n m a b = Ok r.
Proof.
  induction n as [|n IH]; intros a b Ha Hb; cbn [memcmp_loop]; [by eexists|]. destruct (Ha a ltac:(lia)) as [x Hx], (Hb b ltac:(lia)) as [y Hy].
  rewrite (load_Ok _ _ _ Hx), bind_ok, (load_Ok _ _ _ Hy), bind_ok. destruct (negb _); [by eexists|].
  apply IH; intros c Hc; [apply Ha|apply Hb]; lia.
Qed.

(** What an accepted header has. *)
Lemma parse_accepts fuel L m h q type size : header_bytes m h -> ustar_parse_header fuel L m h = Ok (Entry q type size) -> type <> USTAR_EOF ->
  parse_octal_field m (h + offsetof f_chksum) (sizeof f_chksum) = Ok (Some (chksum_sum m h 0 512)).
Proof.
  intros Hb Hp Ht. unfold ustar_parse_header in Hp. rewrite bind_ASSERT in Hp by reflexivity. cbv zeta in Hp.
  destruct (is_all_zeros _ _ _) as [[|]|] in Hp; rewrite ?bind_ok in Hp; [injection Hp as <- <- <-; done| |done].
  destruct (memcmp _ _ _ _) as [r|] in Hp; [rewrite bind_ok in Hp|done]. destruct (negb (r =? 0)); [done|].
  destruct (load m (h + offsetof f_version)) as [v0|] in Hp; [rewrite bind_ok in Hp|done].
  destruct (if v0 =? ch "0" then _ else _) as [v1|] in Hp; [rewrite bind_ok in Hp|done]. destruct (_ || _) in Hp; [done|].
  destruct (parse_octal_field m (h + offsetof f_chksum) _) as [[c|]|]; [rewrite bind_ok in Hp|done..].
  destruct (calculate_chksum_spec m h Hb) as [Hs _]. rewrite Hs, bind_ok in Hp.
  destruct (Z.eqb_spec c (chksum_sum m h 0 512)) as [E|]; [by rewrite E|done].
Qed.

(** The messages of the checks up to the checksum. *)
Lemma parse_refuses fuel L m h c : header_bytes m h -> owned m (lit_ustar L) 6 -> 0 < h -> 0 < lit_ustar L ->
  parse_octal_field m (h + offsetof f_chksum) (sizeof f_chksum) = Ok (Some c) -> c <> chksum_sum m h 0 512 ->
  exists msg, ustar_parse_header fuel L m h = Ok (Refused msg).
Proof.
  intros Hb Hu Hh Hl Hc Hne. unfold ustar_parse_header. rewrite bind_ASSERT by reflexivity. cbv zeta.
  destruct (octal_first m _ 7 c Hc) as (b & Hm & Hb0).
  rewrite (not_all_zeros m h (h + offsetof f_chksum) b); [|done| |done|done]; cycle 1.
  { unfold in_header. change (offsetof f_chksum) with 148. change USTAR_HEADER_SIZE with 512. lia. }
  rewrite bind_ok. pose proof (header_bytes_owned m h Hb) as Ho.
  destruct (memcmp_loop_total m 6 (h + offsetof f_magic) (lit_ustar L)) as [r Hr]; [|exact Hu|].
  { intros a Ha. apply Ho. change (offsetof f_magic) with 257 in Ha. lia. }
  unfold memcmp. rewrite !bind_ASSERT by (apply block_ok_intro; unfold NULL; change (offsetof f_magic) with 257; lia).
  change (Z.to_nat 6) with 6%nat. rewrite Hr, bind_ok. destruct (negb (r =? 0)); [by eexists|].
  destruct (Ho (h + offsetof f_version)) as [v0 H0]; [change (offsetof f_version) with 263; lia|].
  destruct (Ho (h + offsetof f_version + 1)) as [v1 H1]; [change (offsetof f_version) with 263; lia|].
  rewrite (load_Ok _ _ _ H0), bind_ok, (load_Ok _ _ _ H1).
  assert (exists w, (if v0 =? ch "0" then Ok v1 else Ok 0) = Ok w) as [w ->] by (destruct (v0 =? ch "0"); by eexists).
  rewrite bind_ok. destruct (_ || _); [by eexists|]. rewrite Hc, bind_ok.
  destruct (calculate_chksum_spec m h Hb) as [-> _]. rewrite bind_ok, (proj2 (Z.eqb_neq c _)) by done. by eexists.
Qed.

(** A sector of zeros ends an archive; one that only starts with zeros is not a
    header. *)
Lemma parse_zeros fuel L m h b : 0 < h -> bytes_at m h (replicate 511 0 ++ [b]) -> literals_ok m L ->
  ustar_parse_header fuel L m h = Ok (if b =? 0 then Entry NULL USTAR_EOF 0 else Refused "not a ustar archive").
Proof.
  intros Hh Hb HL. pose proof (bytes_at_owned _ _ _ Hb) as Ho. rewrite length_app, length_replicate in Ho. change (Z.of_nat (511 + length [b])) with 512 in Ho.
  unfold ustar_parse_header. rewrite bind_ASSERT by reflexivity. cbv zeta.
  unfold is_all_zeros. change (Z.to_nat USTAR_HEADER_SIZE) with 512%nat. destruct (is_all_zeros_spec 512 m h Ho) as (z & -> & Hz). rewrite bind_ok.
  change (replicate 512 0) with (replicate (511 + 1) 0) in Hz. rewrite replicate_add, bytes_at_app in Hz.
  apply bytes_at_app in Hb as [Hb Hlast]. rewrite length_replicate in *. destruct Hlast as [Hlast _].
  destruct (Z.eqb_spec b 0) as [->|Hne].
  - by rewrite (proj2 Hz) by (split; [done|by split]).
  - destruct z; [destruct (proj1 Hz eq_refl) as [_ [? _]]; congruence|].
    destruct HL as (_ & _ & _ & _ & _ & [[Hu _] _] & _ & _ & _ & _ & _ & _ & Hup & _).
    unfold memcmp. rewrite !bind_ASSERT by (apply block_ok_intro; unfold NULL; change (offsetof f_magic) with 257; lia).
    change (Z.to_nat 6) with (S 5). cbn [memcmp_loop].
    assert (m !! (h + offsetof f_magic) = Some 0) as H0.
    { change (offsetof f_magic) with (Z.of_nat 257). eapply bytes_at_lookup; [done|]. apply lookup_replicate_2; lia. }
    rewrite (load_Ok _ _ _ H0), bind_ok, (load_Ok _ _ _ Hu), bind_ok. reflexivity.
Qed.

(** ** Theorems *)

(** A header with one byte changed is refused: whenever a header is accepted as
    the entry of a file or directory, changing any byte of it outside the
    checksum field makes [ustar_parse_header] return an error message, and not
    the end of the archive or an entry. *)
Theorem ustar_detects_corruption (fuel : nat) (L : literals) (m : mem) (h q type size a b : Z) :
  header_bytes m h -> literals_ok m L -> 0 < h ->
  ustar_parse_header fuel L m h = Ok (Entry q type size) -> type <> USTAR_EOF ->
  in_header h a -> ~ in_chksum h a -> is_byte b -> m !! a <> Some b ->
  exists msg, ustar_parse_header fuel L (<[a := b]> m) h = Ok (Refused msg).
Proof.
  intros Hb HL Hh Hp Ht Ha Hc Hbb Hne. destruct (Hb a Ha) as (old & Hold & Hor).
  pose proof (parse_accepts _ _ _ _ _ _ _ Hb Hp Ht) as Hsum. destruct HL as (_ & _ & _ & _ & _ & [Hu _] & _ & _ & _ & _ & _ & _ & Hup & _).
  eapply (parse_refuses _ _ _ _ (chksum_sum m h 0 512)); [|  |done|done| |].
  - intros x Hx. destruct (decide (x = a)) as [->|]; [exists b; by rewrite lookup_insert_eq|]. rewrite lookup_insert_ne by done. by apply Hb.
  - apply (owned_write_at m a [b]). exact (bytes_at_owned _ _ _ Hu).
  - rewrite <- Hsum. unfold parse_octal_field. apply octal_loop_ext; [lia|]. intros i Hi. rewrite lookup_insert_ne; [done|].
    intros ->. apply Hc. unfold in_chksum. change (Z.of_nat (Z.to_nat (sizeof f_chksum))) with (sizeof f_chksum) in Hi. lia.
  - rewrite chksum_sum_insert by done. rewrite decide_True by (unfold in_header in Ha; change USTAR_HEADER_SIZE with 512 in Ha; lia).
    unfold header_byte. rewrite Hold. cbn [default from_option]. intros Heq. apply Hne. rewrite Hold. f_equal. unfold id in *. lia.
Qed.

Lemma make_then_parse (fuel : nat) (L : literals) (m0 m : mem) (h p : Z) (s : list Z) (type size : Z) :
  literals_ok m0 L -> cstr m0 p s -> m0 ⊆ m -> (forall a, in_header h a -> m0 !! a = None) ->
  0 < h -> 0 < p -> owned m h USTAR_HEADER_SIZE -> Forall is_byte s -> (length s < fuel)%nat -> (8 < fuel)%nat ->
  type = USTAR_REGULAR \/ type = USTAR_DIRECTORY -> 0 <= size < 2 ^ 31 -> (length (safe_name s) <= 99)%nat ->
  exists m1 q, ustar_make_header fuel L m p type size h = Ok (m1, true) /\ header_bytes m1 h /\
    (forall a, ~ in_header h a -> m1 !! a = m !! a) /\
    ustar_parse_header fuel L m1 h = Ok (Entry q type (if type =? USTAR_REGULAR then size else 0)) /\
    cstr m1 q (safe_name s).
Proof.
  intros HL Hs Hsub Hout Hh Hp Ho Hb Hf H8 Hty Hsz Hlen.
  destruct (stripped_name fuel L m0 m HL Hsub H8 p s Hs Hp Hf Hb) as (q0 & Hq0 & Hq0p & Hq0s & Hqf & _).
  destruct (make_header_fields fuel L m0 m h HL Hsub Hout Hh H8 p s type size) as (m1 & fld & Hmk & Hc & Hfld); try done; [lia|].
  destruct (parse_composed fuel L m1 h fld (safe_name s) type size) as (q & Hq & Hqs); try done.
  - eapply literals_mono; [|done]. by eapply composed_sub.
  - apply Hc.
  - apply Hq0s.
  - exists m1, q. split; [done|]. split; [by eapply header_at_bytes, Hc|]. split; [apply Hc|]. split; [done|]. by rewrite safe_name_idem in Hqs.
Qed.

(** C29. A header that [ustar_make_header] composes is parsed back: for every name,
    type and size that fits an [int], the call refuses exactly the names that
    have more than 99 characters once their dangerous prefixes are dropped, and
    otherwise writes a header, and nothing around it, that
    [ustar_parse_header] accepts as an entry of the same type and (for a
    regular file) size, under the name without the prefixes; that name starts
    with none of the prefixes / ./ ../ and is neither empty nor .. *)
Theorem ustar_roundtrip (fuel : nat) (L : literals) (m0 m : mem) (h p : Z) (s : list Z) (type size : Z) :
  literals_ok m0 L -> cstr m0 p s -> m0 ⊆ m -> (forall a, in_header h a -> m0 !! a = None) ->
  0 < h -> 0 < p -> owned m h USTAR_HEADER_SIZE -> Forall is_byte s -> (length s < fuel)%nat -> (8 < fuel)%nat ->
  type = USTAR_REGULAR \/ type = USTAR_DIRECTORY -> 0 <= size < 2 ^ 31 ->
  harmless (safe_name s) /\ safe_name s <> [] /\ safe_name s <> chars ".." /\
  if decide (length (safe_name s) <= 99)%nat then
    exists m1 q, ustar_make_header fuel L m p type size h = Ok (m1, true) /\
      (forall a, ~ in_header h a -> m1 !! a = m !! a) /\
      ustar_parse_header fuel L m1 h = Ok (Entry q type (if type =? USTAR_REGULAR then size else 0)) /\
      cstr m1 q (safe_name s)
  else ustar_make_header fuel L m p type size h = Ok (m, false).
Proof.
  intros HL Hs Hsub Hout Hh Hp Ho Hb Hf H8 Hty Hsz. destruct (safe_name_harmless s) as (H1 & H2 & H3). split; [done|]. split; [done|]. split; [done|].
  destruct (stripped_name fuel L m0 m HL Hsub H8 p s Hs Hp Hf Hb) as (q0 & Hq0 & Hq0p & Hq0s & Hqf & _). case_decide as Hlen.
  - destruct (make_then_parse fuel L m0 m h p s type size) as (m1 & q & Hmk & _ & Hfr & Hq & Hqs); try done. by exists m1, q.
  - unfold ustar_make_header. rewrite bind_ASSERT by reflexivity. rewrite bind_ASSERT by (by destruct Hty as [->| ->]).
    rewrite Hq0, bind_ok. rewrite (strlen_spec _ _ _ (safe_name s)); [|unfold NULL; lia|by eapply cstr_mono|done]. rewrite bind_ok.
    by rewrite (proj2 (Z.ltb_lt 99 _)) by lia.
Qed.


Lemma tar_literals_ok (m : mem) : m = tar_strings "../bin/ls" -> literals_ok m tar_literals.
Proof.
  intros ->. unfold literals_ok. do 7 (split; [apply cstr_b_ok; by vm_compute|]). by vm_compute.
Qed.

Lemma tar_apart a : in_header 0x1000 a -> tar_strings "../bin/ls" !! a = None.
Proof.
  unfold in_header. change USTAR_HEADER_SIZE with 512. intros Ha. unfold tar_strings.
  do 8 (rewrite write_at_lookup, decide_False by (cbn; lia)). done.
Qed.

Lemma tar_sub : tar_strings "../bin/ls" ⊆ tar_memory "../bin/ls".
Proof.
  apply map_subseteq_spec. intros a b Ha. unfold tar_memory. rewrite write_at_lookup, decide_False; [done|].
  intros Hr. rewrite tar_apart in Ha; [done|]. exact Hr.
Qed.

(** A regular file of 5000 bytes named ../bin/ls. *)
Lemma ustar_roundtrip_witness :
  exists m1 q, ustar_make_header 200 tar_literals (tar_memory "../bin/ls") 0x200 USTAR_REGULAR 5000 0x1000 = Ok (m1, true) /\
    ustar_parse_header 200 tar_literals m1 0x1000 = Ok (Entry q USTAR_REGULAR 5000) /\ cstr m1 q (chars "bin/ls").
Proof.
  destruct (ustar_roundtrip 200 tar_literals (tar_strings "../bin/ls") (tar_memory "../bin/ls") 0x1000 0x200
              (chars "../bin/ls") USTAR_REGULAR 5000) as (_ & _ & _ & m1 & q & H1 & _ & H2 & H3).
  - by apply tar_literals_ok.
  - apply cstr_b_ok. by vm_compute.
  - apply tar_sub.
  - apply tar_apart.
  - lia.
  - lia.
  - intros a Ha. unfold tar_memory. rewrite write_at_lookup, decide_True by exact Ha. apply lookup_lt_is_Some_2.
    rewrite length_replicate. change USTAR_HEADER_SIZE with 512 in Ha. lia.
  - by apply chars_bytes.
  - cbn. lia.
  - lia.
  - by left.
  - lia.
  - exists m1, q. split; [exact H1|]. split; [exact H2|exact H3].
Defined.

(** The header of that file, and its size changed to one byte more. *)
Definition tar_header : mem :=
  match ustar_make_header 200 tar_literals (tar_memory "../bin/ls") 0x200 USTAR_REGULAR 5000 0x1000 with Ok (m, _) => m | _ => ∅ end.

Lemma ustar_detects_corruption_witness :
  tar_header !! (0x1000 + offsetof f_size + 10) = Some (ch "0") /\
  exists msg, ustar_parse_header 200 tar_literals (<[0x1000 + offsetof f_size + 10 := ch "1"]> tar_header) 0x1000 = Ok (Refused msg).
Proof.
  split; [by vm_compute|].
  apply (ustar_detects_corruption 200 tar_literals tar_header 0x1000 0x1000 USTAR_REGULAR 5000).
  - assert (forallb (fun i => match tar_header !! (0x1000 + i) with Some b => (0 <=? b) && (b <? 256) | None => false end) (seqZ 0 512) = true)
      as Hall by (by vm_compute).
    rewrite forallb_forall in Hall. intros a [Ha1 Ha2]. change USTAR_HEADER_SIZE with 512 in Ha2. specialize (Hall (a - 0x1000)).
    rewrite <- list_elem_of_In, elem_of_seqZ in Hall. replace (0x1000 + (a - 0x1000)) with a in Hall by lia.
    destruct (tar_header !! a) as [b|]; [|discriminate Hall; lia]. exists b. split; [reflexivity|]. specialize (Hall ltac:(lia)). unfold is_byte. lia.
  - unfold literals_ok. do 7 (split; [apply cstr_b_ok; by vm_compute|]). by vm_compute.
  - lia.
  - by vm_compute.
  - done.
  - by vm_compute.
  - by vm_compute; intros [].
  - by vm_compute.
  - by vm_compute.
Defined.

