(* ===== verification/FsUtil.v ===== *)
(** * File system utilities

    Models filesys/fsutil.c: listing, dumping and deleting files over the file
    system of [Directory], and the two utilities that copy files between the
    file system and a tar archive on the scratch disk, over any file system,
    disk and heap.  Memory is the kernel's: a block from the heap is where
    memory is, whatever it holds.  Messages are left out.

    [append_writes_archive] says what the archive then holds; its last sector
    shows that the end marker is written from one byte past the buffer. *)

From stdpp Require Import strings.
From S2P Require Import Prelude Vaddr Mem Str Stdio Disk RamDisk Alloc BufCache FileSys Directory FsRuns Files Ustar.

(** ** Memory blocks *)

Fixpoint load_block (n : nat) (m : mem) (p : Z) : res (list Z) :=
  match n with O => Ok [] | S n => b ← load m p; bs ← load_block n m (p + 1); Ok (b :: bs) end.
Fixpoint store_block (m : mem) (p : Z) (bs : list Z) : res mem :=
  match bs with [] => Ok m | b :: bs => m ← store m p b; store_block m (p + 1) bs end.

(** The C string at [p]. *)
Definition load_str (fuel : nat) (m : mem) (p : Z) : res (list Z) :=
  n ← strlen fuel m p; load_block (Z.to_nat n) m p.

(** ** append and extract *)

Record util (F D H : Type) : Type := mk_util {
  ut_files : F;
  ut_scratch : option D;        (* disk_get (1, 0) *)
  ut_heap : H;
  ut_mem : mem;
  append_sector : Z;            (* static disk_sector_t sector of fsutil_append *)
  extract_sector : Z;           (* and of fsutil_extract *)
}.
Arguments mk_util {F D H}. Arguments ut_files {F D H}. Arguments ut_scratch {F D H}. Arguments ut_heap {F D H}.
Arguments ut_mem {F D H}. Arguments append_sector {F D H}. Arguments extract_sector {F D H}.

Section fsutil.
Context {F D H : Type} `{Files F, BlockDevice D, Allocator H}.
Context (fuel : nat) (L : literals).
Abbreviation st := (util F D H).

Definition PANIC {A} : M st A := fail KernelPanic.

Definition on_files {A} (k : M F A) : M st A := fun s =>
  '(a, f) ← k (ut_files s); Ok (a, mk_util f (ut_scratch s) (ut_heap s) (ut_mem s) (append_sector s) (extract_sector s)).
Definition on_heap {A} (k : M H A) : M st A := fun s =>
  '(a, h) ← k (ut_heap s); Ok (a, mk_util (ut_files s) (ut_scratch s) h (ut_mem s) (append_sector s) (extract_sector s)).
Definition set_mem (m : mem) : M st unit := modify (fun s =>
  mk_util (ut_files s) (ut_scratch s) (ut_heap s) m (append_sector s) (extract_sector s)).
Definition set_append (n : Z) : M st unit := modify (fun s =>
  mk_util (ut_files s) (ut_scratch s) (ut_heap s) (ut_mem s) n (extract_sector s)).
Definition set_extract (n : Z) : M st unit := modify (fun s =>
  mk_util (ut_files s) (ut_scratch s) (ut_heap s) (ut_mem s) (append_sector s) n).
Definition on_disk {A} (k : M D A) : M st A := fun s =>
  match ut_scratch s with
  | None => Fail NullAccess
  | Some d => '(a, d) ← k d; Ok (a, mk_util (ut_files s) (Some d) (ut_heap s) (ut_mem s) (append_sector s) (extract_sector s))
  end.

(** [disk_get (1, 0)] is not a null pointer. *)
Definition has_disk : M st bool := gets (fun s => match ut_scratch s with Some _ => true | None => false end).

(** [disk_write] from, and [disk_read] to, memory. *)
Definition write_sector (sec p : Z) : M st unit :=
  m ← gets ut_mem; bs ← liftM (load_block 512 m p); on_disk (bd_write sec bs).
Definition read_sector (sec p : Z) : M st unit :=
  bs ← on_disk (bd_read sec); m ← gets ut_mem; m ← liftM (store_block m p bs); set_mem m.
Definition memset_mem (p v n : Z) : M st unit :=
  m ← gets ut_mem; '(m, _) ← liftM (memset m p v n); set_mem m.

(** [file_read] into memory, and [file_write] from it. *)
Definition read_file (file p n : Z) : M st Z :=
  bs ← on_files (fl_read file n); m ← gets ut_mem; m ← liftM (store_block m p bs); set_mem m ;; mret (Z.of_nat (length bs)).
Definition write_file (file p n : Z) : M st Z :=
  m ← gets ut_mem; on_files (fl_write file n (fun i => m !! (p + i))).

Definition open_file (file_name : Z) : M st Z :=
  m ← gets ut_mem; name ← liftM (load_str fuel m file_name); on_files (fl_open name).

(** The loop [Do copy] of [fsutil_append]; [n] bounds its rounds. *)
Fixpoint append_loop (n : nat) (src buffer size : Z) : M st unit :=
  if 0 <? size then
    match n with
    | O => fail NoFuel
    | S n =>
        let chunk_size := if DISK_SECTOR_SIZE <? size then DISK_SECTOR_SIZE else size in
        sector ← gets append_sector;
        room ← on_disk (gets bd_size);
        if room <=? sector then PANIC
        else
          r ← read_file src buffer chunk_size;
          if negb (r =? chunk_size) then PANIC
          else
            memset_mem (buffer + chunk_size) 0 (DISK_SECTOR_SIZE - chunk_size) ;;
            set_append (u32 (sector + 1)) ;;
            write_sector sector buffer ;;
            append_loop n src buffer (size - chunk_size)
    end
  else mret tt.

Definition fsutil_append (file_name : Z) : M st unit :=
  buffer ← on_heap (al_malloc DISK_SECTOR_SIZE);
  if buffer =? NULL then PANIC
  else
    src ← open_file file_name;
    if src =? NULL then PANIC
    else
      size ← on_files (fl_length src);
      dst ← has_disk;
      if negb dst then PANIC
      else
        m ← gets ut_mem;
        '(m, ok) ← liftM (ustar_make_header fuel L m file_name USTAR_REGULAR size buffer);
        if negb ok then PANIC
        else
          set_mem m ;;
          sector ← gets append_sector;
          set_append (u32 (sector + 1)) ;;
          write_sector sector buffer ;;
          append_loop (Z.to_nat size) src buffer size ;;
          memset_mem buffer 0 DISK_SECTOR_SIZE ;;
          sector ← gets append_sector;
          write_sector sector buffer ;;
          write_sector sector (buffer + 1) ;;
          on_files (fl_close src) ;;
          on_heap (al_free buffer).

(** The loop [Do copy] of [fsutil_extract]. *)
Fixpoint extract_loop (n : nat) (dst data size : Z) : M st unit :=
  if 0 <? size then
    match n with
    | O => fail NoFuel
    | S n =>
        let chunk_size := if DISK_SECTOR_SIZE <? size then DISK_SECTOR_SIZE else size in
        sector ← gets extract_sector;
        set_extract (u32 (sector + 1)) ;;
        read_sector sector data ;;
        r ← write_file dst data chunk_size;
        if negb (r =? chunk_size) then PANIC else extract_loop n dst data (size - chunk_size)
    end
  else mret tt.

(** One entry of the archive after another; [n] bounds their number. *)
Fixpoint entries_loop (n : nat) (header data : Z) : M st unit :=
  match n with
  | O => fail NoFuel
  | S n =>
      sector ← gets extract_sector;
      set_extract (u32 (sector + 1)) ;;
      read_sector sector header ;;
      m ← gets ut_mem;
      r ← liftM (ustar_parse_header fuel L m header);
      match r with
      | Refused _ => PANIC
      | Entry file_name type size =>
          if type =? USTAR_EOF then mret tt
          else if type =? USTAR_DIRECTORY then entries_loop n header data
          else if type =? USTAR_REGULAR then
            m ← gets ut_mem;
            name ← liftM (load_str fuel m file_name);
            ok ← on_files (fl_create name size);
            if negb ok then PANIC
            else
              dst ← on_files (fl_open name);
              if dst =? NULL then PANIC
              else
                extract_loop (Z.to_nat size) dst data size ;;
                on_files (fl_close dst) ;;
                entries_loop n header data
          else entries_loop n header data
      end
  end.

Definition fsutil_extract (n : nat) : M st unit :=
  header ← on_heap (al_malloc DISK_SECTOR_SIZE);
  data ← on_heap (al_malloc DISK_SECTOR_SIZE);
  if (header =? NULL) || (data =? NULL) then PANIC
  else
    src ← has_disk;
    if negb src then PANIC
    else
      entries_loop n header data ;;
      memset_mem header 0 DISK_SECTOR_SIZE ;;
      write_sector 0 header ;;
      write_sector 1 header ;;
      on_heap (al_free data) ;;
      on_heap (al_free header).
End fsutil.


(** ** ls, cat and rm

    [junk] is what the stack holds where the directory code reads entries.
    [fsutil_ls] returns the names it prints, [fsutil_cat] what it hands to
    [hex_dump]: positions and bytes; the page it reads into is left out. *)

Section tools.
Context {D A : Type} {HD : BlockDevice D} {HA : Allocator A}.
Context (junk : list Z).
Abbreviation fs := (@fs D A).

Fixpoint ls_loop (n : nat) (dir : Z) : M fs (list (list Z)) :=
  match n with
  | O => fail NoFuel
  | S n =>
      name ← dir_readdir dir junk;
      match name with
      | None => mret []
      | Some name => names ← ls_loop n dir; mret (name :: names)
      end
  end.

Definition fsutil_ls (n : nat) : M fs (list (list Z)) :=
  dir ← dir_open_root;
  if dir =? NULL then fail KernelPanic else ls_loop n dir.

Fixpoint cat_loop (n : nat) (file : Z) : M fs (list (Z * list Z)) :=
  match n with
  | O => fail NoFuel
  | S n =>
      pos ← file_tell file;
      bs ← file_read file PGSIZE;
      match bs with
      | [] => mret []
      | _ => rest ← cat_loop n file; mret ((pos, bs) :: rest)
      end
  end.

Definition fsutil_cat (n : nat) (file_name : list Z) : M fs (list (Z * list Z)) :=
  file ← filesys_open file_name junk;
  if file =? NULL then fail KernelPanic
  else out ← cat_loop n file; file_close file ;; mret out.

Definition fsutil_rm (file_name : list Z) : M fs unit :=
  ok ← filesys_remove file_name junk;
  if negb ok then fail KernelPanic else mret tt.
End tools.


(** ** What append writes *)

Lemma load_block_ok m p bs : bytes_at m p bs -> load_block (length bs) m p = Ok bs.
Proof.
  revert p. induction bs as [|b bs IH]; intros p Hb; [done|]. destruct Hb as [Hb Hbs]. cbn [length load_block].
  by rewrite (load_Ok _ _ _ Hb), bind_ok, IH.
Qed.

Lemma store_block_ok m p bs : owned m p (Z.of_nat (length bs)) -> Forall is_byte bs -> store_block m p bs = Ok (write_at m p bs).
Proof.
  revert m p. induction bs as [|b bs IH]; intros m p Ho Hb; [done|]. apply Forall_cons in Hb as [Hb Hbs]. cbn [store_block write_at length] in *.
  rewrite store_Ok by (first [apply Ho; lia|done]). rewrite bind_ok, IH; [by rewrite write_at_insert_lt by lia| |done].
  intros a Ha. destruct (decide (a = p)) as [->|]; [lia|]. rewrite lookup_insert_ne by done. apply Ho. lia.
Qed.

Lemma write_at_app m p bs cs : write_at (write_at m p bs) (p + Z.of_nat (length bs)) cs = write_at m p (bs ++ cs).
Proof.
  apply map_eq. intros a. rewrite !write_at_lookup, length_app. repeat case_decide; try lia.
  - rewrite lookup_app_r by lia. f_equal. lia.
  - by rewrite lookup_app_l by lia.
  - done.
Qed.

Lemma is_sector_iff bs : is_sector bs = true <-> length bs = 512%nat /\ Forall is_byte bs.
Proof.
  unfold is_sector. rewrite andb_true_iff, bool_decide_eq_true, forallb_forall, Forall_forall. split; intros [H1 H2]; (split; [done|]).
  - intros b Hb%list_elem_of_In. specialize (H2 b Hb). unfold is_byte. lia.
  - intros b Hb%list_elem_of_In. specialize (H2 b Hb). unfold is_byte in H2. lia.
Qed.

(** The sector of a file's data that starts at [pos], padded with zeros. *)
Definition data_sector (dat : list Z) (pos : Z) : sector :=
  slice dat pos 512 ++ replicate (512 - length (slice dat pos 512)) 0.
Definition data_sectors (size : Z) : Z := DIV_ROUND_UP size 512.

Section append.
Context {F D H : Type} `{FilesLaws F, BlockDeviceLaws D, AllocatorLaws H}.
Context (fuel : nat) (L : literals).

Lemma write_sector_ok (f : F) (d : D) (h : H) m k e sec p bs :
  bd_ok d -> 0 <= sec < bd_size d -> bytes_at m p bs -> is_sector bs = true ->
  exists d', write_sector sec p (mk_util f (Some d) h m k e) = Ok (tt, mk_util f (Some d') h m k e) /\
    bd_ok d' /\ bd_size d' = bd_size d /\ (forall j, 0 <= j -> bd_content d' j = if j =? sec then bs else bd_content d j).
Proof.
  intros Hd Hs Hb Hbs. destruct (bd_write_ok d sec bs Hd Hs Hbs) as (d' & Hw & Hd' & Hsz & Hc). exists d'. split; [|done].
  unfold write_sector, gets, liftM, on_disk, mbind, M_bind. cbn [ut_mem ut_scratch]. apply is_sector_iff in Hbs as [Hl _].
  rewrite <- Hl, (load_block_ok _ _ _ Hb). cbn [ut_scratch]. rewrite Hw. by cbn.
Qed.

Lemma memset_mem_ok (f : F) (d : option D) (h : H) m k e p n : 0 < p -> owned m p (Z.of_nat n) ->
  memset_mem p 0 (Z.of_nat n) (mk_util f d h m k e) = Ok (tt, mk_util f d h (write_at m p (replicate n 0)) k e).
Proof.
  intros Hp Ho. unfold memset_mem, gets, liftM, set_mem, modify, mbind, M_bind. cbn [ut_mem]. unfold memset.
  rewrite bind_ASSERT by (apply block_ok_intro; unfold NULL; lia). rewrite Nat2Z.id, memset_loop_spec by (done || by vm_compute). by cbn.
Qed.

Lemma read_file_ok (f : F) (d : option D) (h : H) m k e src dat pos n p :
  fl_ok f -> fl_file f src = Some (dat, pos) -> 0 <= n < FILE_MAX -> owned m p n ->
  exists f', read_file src p n (mk_util f d h m k e) =
      Ok (Z.of_nat (length (slice dat pos n)), mk_util f' d h (write_at m p (slice dat pos n)) k e) /\
    fl_ok f' /\ fl_file f' src = Some (dat, pos + Z.of_nat (length (slice dat pos n))) /\ others_same src f f'.
Proof.
  intros Hf Hsrc Hn Ho. destruct (fl_read_ok f src dat pos n Hf Hsrc ltac:(lia)) as (f' & Hr & Hf' & Hsrc' & Hoth).
  exists f'. split; [|done]. unfold read_file, on_files, gets, liftM, set_mem, modify, mbind, M_bind. cbn [ut_files ut_mem].
  rewrite Hr. cbn [mbind res_bind ut_mem]. destruct (fl_file_ok f src dat pos Hf Hsrc) as (_ & Hb & _).
  rewrite store_block_ok; [by cbn| |].
  - intros a Ha. apply Ho. assert (length (slice dat pos n) <= Z.to_nat n)%nat by (unfold slice; rewrite length_take; lia). lia.
  - unfold slice. by apply Forall_take, Forall_drop.
Qed.

(** One round of the loop fills the buffer with the next sector of the file. *)
Definition outside_buffer (buf : Z) (m m' : mem) : Prop := forall a, a < buf \/ buf + 512 <= a -> m' !! a = m !! a.

Lemma slice_rest dat pos n : 0 <= pos -> 0 < n -> n = Z.min 512 (Z.of_nat (length dat) - pos) ->
  slice dat pos n = slice dat pos 512 /\ Z.of_nat (length (slice dat pos n)) = n.
Proof.
  intros Hp Hn Hmin. unfold slice. assert (length (drop (Z.to_nat pos) dat) = length dat - Z.to_nat pos)%nat as Hl by apply length_drop.
  rewrite length_take, Hl. split; [|lia]. destruct (decide (n = 512)) as [->|]; [done|]. by rewrite !take_ge by lia.
Qed.

Lemma data_sectors_step n : 0 < n -> data_sectors n = 1 + data_sectors (n - Z.min 512 n) /\ 0 <= data_sectors (n - Z.min 512 n).
Proof. intros Hn. unfold data_sectors, DIV_ROUND_UP. zlia. Qed.

Lemma data_sector_ok (f : F) src dat pos pos' : fl_ok f -> fl_file f src = Some (dat, pos') -> is_sector (data_sector dat pos) = true.
Proof.
  intros Hf Hs. destruct (fl_file_ok f src dat pos' Hf Hs) as (_ & Hb & _). apply is_sector_iff. unfold data_sector.
  assert (length (slice dat pos 512) <= 512)%nat by (unfold slice; rewrite length_take; lia).
  rewrite length_app, length_replicate. split; [lia|]. apply Forall_app. split; [|by apply Forall_replicate].
  unfold slice. by apply Forall_take, Forall_drop.
Qed.

Lemma append_loop_spec (h : H) e src dat buf : 0 < buf -> forall n (f : F) (d : D) m k pos,
  fl_ok f -> fl_file f src = Some (dat, pos) -> pos <= Z.of_nat (length dat) -> Z.of_nat (length dat) - pos <= Z.of_nat n ->
  bd_ok d -> bd_size d < 2 ^ 32 -> 0 <= k -> k + data_sectors (Z.of_nat (length dat) - pos) <= bd_size d -> owned m buf 512 ->
  exists f' d' m', append_loop n src buf (Z.of_nat (length dat) - pos) (mk_util f (Some d) h m k e) =
      Ok (tt, mk_util f' (Some d') h m' (k + data_sectors (Z.of_nat (length dat) - pos)) e) /\
    fl_ok f' /\ fl_file f' src = Some (dat, Z.of_nat (length dat)) /\ others_same src f f' /\
    bd_ok d' /\ bd_size d' = bd_size d /\
    (forall j, 0 <= j -> bd_content d' j =
      if decide (k <= j < k + data_sectors (Z.of_nat (length dat) - pos)) then data_sector dat (pos + 512 * (j - k)) else bd_content d j) /\
    owned m' buf 512 /\ outside_buffer buf m m'.
Proof.
  intros Hbuf. induction n as [|n IH]; intros f d m k pos Hf Hsrc Hpos Hn Hd H32 Hk Hroom Ho; cbn [append_loop].
  all: destruct (Z.ltb_spec 0 (Z.of_nat (length dat) - pos)) as [Hgt|Hle]; [try lia|].
  1, 3: assert (Z.of_nat (length dat) - pos = 0) as E by lia; rewrite E; change (data_sectors 0) with 0; exists f, d, m;
    rewrite Z.add_0_r; split_and!; try done; [replace (Z.of_nat (length dat)) with pos by lia; done|];
    intros j Hj; by rewrite decide_False by lia.
  set (size := Z.of_nat (length dat) - pos) in *.
  destruct (fl_file_ok f src dat pos Hf Hsrc) as (_ & _ & Hmax & Hpos0).
  destruct (data_sectors_step size Hgt) as [Hstep Hstep0].
  assert ((if DISK_SECTOR_SIZE <? size then DISK_SECTOR_SIZE else size) = Z.min 512 size) as ->.
  { change DISK_SECTOR_SIZE with 512. destruct (Z.ltb_spec 512 size); lia. }
  set (chunk := Z.min 512 size) in *.
  destruct (slice_rest dat pos chunk Hpos0 ltac:(lia) ltac:(lia)) as [Hsl Hlen].
  destruct (read_file_ok f (Some d) h m k e src dat pos chunk buf Hf Hsrc) as (f1 & Hr & Hf1 & Hsrc1 & Hoth1);
    [unfold FILE_MAX in *; lia|intros a Ha; apply Ho; lia|].
  rewrite Hlen in Hr, Hsrc1. set (m1 := write_at m buf (slice dat pos chunk)) in *.
  assert (owned m1 buf 512) as Ho1 by (by apply owned_write_at).
  assert (write_at m1 (buf + chunk) (replicate (512 - Z.to_nat chunk) 0) = write_at m buf (data_sector dat pos)) as Hm2.
  { unfold m1. replace (buf + chunk) with (buf + Z.of_nat (length (slice dat pos chunk))) by lia. rewrite write_at_app. f_equal. unfold data_sector. rewrite <- Hsl. do 2 f_equal. lia. }
  set (m2 := write_at m buf (data_sector dat pos)) in *.
  pose proof (data_sector_ok f src dat pos pos Hf Hsrc) as Hsec. pose proof (proj1 (is_sector_iff _) Hsec) as [Hsecl _].
  destruct (write_sector_ok f1 d h m2 (k + 1) e k buf (data_sector dat pos) Hd ltac:(lia) (write_at_bytes _ _ _) Hsec)
    as (d1 & Hw & Hd1 & Hsz1 & Hc1).
  assert (Z.of_nat (length dat) - (pos + chunk) = size - chunk) as Hrem by (unfold size; lia).
  destruct (IH f1 d1 m2 (k + 1) (pos + chunk)) as (f2 & d2 & m3 & Hl & Hf2 & Hsrc2 & Hoth2 & Hd2 & Hsz2 & Hc2 & Ho2 & Hout2);
    try done; try lia; [rewrite Hrem; lia|unfold m2; by apply owned_write_at|].
  rewrite Hrem in Hl, Hc2. exists f2, d2, m3. split.
  - erewrite bindM_step by reflexivity. cbn [append_sector].
    erewrite bindM_step by reflexivity. rewrite (proj2 (Z.leb_gt (bd_size d) k)) by lia.
    rewrite (bindM_step _ _ _ _ _ Hr). rewrite Z.eqb_refl. cbn [negb].
    assert (memset_mem (buf + chunk) 0 (DISK_SECTOR_SIZE - chunk) (mk_util f1 (Some d) h m1 k e) = Ok (tt, mk_util f1 (Some d) h m2 k e)) as Hms.
    { change DISK_SECTOR_SIZE with 512. replace (512 - chunk) with (Z.of_nat (512 - Z.to_nat chunk)) by lia. rewrite <- Hm2.
      apply memset_mem_ok; [lia|]. intros a Ha. apply Ho1. lia. }
    rewrite (bindM_step _ _ _ _ _ Hms). erewrite bindM_step by reflexivity.
    replace (u32 (k + 1)) with (k + 1) by (unfold u32; rewrite Z.mod_small; lia).
    rewrite (bindM_step _ _ _ _ _ Hw), Hl. do 3 f_equal. lia.
  - split; [done|]. split; [done|]. split; [intros q Hq; by rewrite Hoth2, Hoth1|]. split; [done|]. split; [lia|]. split.
    + intros j Hj. rewrite Hc2, Hc1 by done. case_decide as E1; case_decide as E2; try lia.
      * f_equal. enough (chunk = 512) by lia. unfold chunk. clear - E1 Hgt. unfold data_sectors, DIV_ROUND_UP in E1. zlia.
      * assert (j = k) as -> by lia. rewrite Z.eqb_refl. f_equal. lia.
      * by rewrite (proj2 (Z.eqb_neq j k)) by lia.
    + split; [done|]. intros a Ha. rewrite Hout2 by done. unfold m2. by rewrite write_at_lookup, decide_False by lia.
Qed.

Lemma open_file_ok (f f1 : F) (d : option D) (h : H) m k e p name src :
  cstr m p name -> 0 < p -> (length name < fuel)%nat -> fl_open name f = Ok (src, f1) ->
  open_file fuel p (mk_util f d h m k e) = Ok (src, mk_util f1 d h m k e).
Proof.
  intros Hs Hp Hf Ho. unfold open_file. erewrite bindM_step by reflexivity. cbn [ut_mem].
  assert (load_str fuel m p = Ok name) as Hl.
  { unfold load_str. rewrite (strlen_spec _ _ _ name); [|unfold NULL; lia|done|done]. rewrite bind_ok, Nat2Z.id. apply load_block_ok.
    by apply (bytes_at_app _ _ _ [0]), Hs. }
  rewrite Hl. erewrite bindM_step by reflexivity. unfold on_files. cbn [ut_files]. rewrite Ho. by rewrite bind_ok.
Qed.

(** The memory in which a header was composed is the old one with the header
    written over it. *)
Lemma header_as_write m m1 h : header_bytes m1 h -> (forall a, ~ in_header h a -> m1 !! a = m !! a) ->
  exists hdr, is_sector hdr = true /\ m1 = write_at m h hdr.
Proof.
  intros Hb Hfr. exists ((fun i => header_byte m1 (h + i)) <$> seqZ 0 512). split.
  - apply is_sector_iff. rewrite length_fmap, length_seqZ. split; [done|]. apply Forall_fmap, Forall_seqZ. intros i Hi. cbn.
    unfold header_byte. destruct (Hb (h + i)) as (b & -> & Hbb); [unfold in_header; change USTAR_HEADER_SIZE with 512; lia|done].
  - apply map_eq. intros a. rewrite write_at_lookup, length_fmap, length_seqZ. case_decide as Ha.
    + destruct (Hb a) as (b & Hm & _); [unfold in_header; change USTAR_HEADER_SIZE with 512; lia|].
      rewrite list_lookup_fmap, lookup_seqZ_lt by lia. cbn. unfold header_byte. replace (h + (0 + Z.of_nat (Z.to_nat (a - h)))) with a by lia. by rewrite Hm.
    + apply Hfr. unfold in_header. change USTAR_HEADER_SIZE with 512. lia.
Qed.

(** What the last sector of the archive holds. *)
Definition end_sector (b : Z) : sector := replicate 511 0 ++ [b].

Lemma end_sector_ok b : is_byte b -> is_sector (end_sector b) = true.
Proof.
  intros Hb. apply is_sector_iff. split; [done|]. apply Forall_app. split; [by apply Forall_replicate|by apply Forall_singleton].
Qed.

Lemma end_marker_ok (f : F) (d : D) (h : H) m k e buf b : bd_ok d -> 0 <= k < bd_size d -> 0 < buf -> owned m buf 512 ->
  m !! (buf + 512) = Some b -> is_byte b ->
  exists d', (forall g : M (util F D H) unit,
      (memset_mem buf 0 DISK_SECTOR_SIZE ;; sector ← gets append_sector;
       write_sector sector buf ;; write_sector sector (buf + 1) ;; g) (mk_util f (Some d) h m k e) =
      g (mk_util f (Some d') h (write_at m buf (replicate 512 0)) k e)) /\
    bd_ok d' /\ bd_size d' = bd_size d /\ (forall j, 0 <= j -> bd_content d' j = if j =? k then end_sector b else bd_content d j).
Proof.
  intros Hd Hk Hbuf Ho Hm Hb. pose proof (memset_mem_ok f (Some d) h m k e buf 512 Hbuf Ho) as Hms.
  set (m1 := write_at m buf (replicate 512 0)) in *.
  assert (bytes_at m1 buf (replicate 512 0)) as Hz by apply write_at_bytes.
  assert (bytes_at m1 (buf + 1) (end_sector b)) as Hz1.
  { apply bytes_at_app. split; [by destruct Hz|]. rewrite length_replicate. split; [|done]. unfold m1.
    rewrite write_at_lookup, length_replicate, decide_False by lia. rewrite <- Hm. f_equal. lia. }
  destruct (write_sector_ok f d h m1 k e k buf (replicate 512 0) Hd Hk Hz) as (d1 & Hw1 & Hd1 & Hs1 & Hc1); [done|].
  destruct (write_sector_ok f d1 h m1 k e k (buf + 1) (end_sector b) Hd1 ltac:(lia) Hz1) as (d2 & Hw2 & Hd2 & Hs2 & Hc2);
    [by apply end_sector_ok|].
  exists d2. split; [|split; [done|]; split; [lia|]].
  - intros g. change DISK_SECTOR_SIZE with (Z.of_nat 512). rewrite (bindM_step _ _ _ _ _ Hms).
    erewrite bindM_step by reflexivity. cbn [append_sector]. rewrite (bindM_step _ _ _ _ _ Hw1), (bindM_step _ _ _ _ _ Hw2). done.
  - intros j Hj. rewrite Hc2, Hc1 by done. by destruct (j =? k).
Qed.

(** Up to the header. *)
Lemma append_prologue (f f1 : F) (d : D) (h h1 : H) m m1 k e p name src size buf :
  al_malloc DISK_SECTOR_SIZE h = Ok (buf, h1) -> 0 < buf -> cstr m p name -> 0 < p -> (length name < fuel)%nat ->
  fl_open name f = Ok (src, f1) -> src <> NULL -> fl_length src f1 = Ok (size, f1) ->
  ustar_make_header fuel L m p USTAR_REGULAR size buf = Ok (m1, true) -> 0 <= k < 2 ^ 32 - 1 ->
  fsutil_append fuel L p (mk_util f (Some d) h m k e) =
  (write_sector k buf ;; append_loop (Z.to_nat size) src buf size ;;
   memset_mem buf 0 DISK_SECTOR_SIZE ;; sector ← gets append_sector; write_sector sector buf ;; write_sector sector (buf + 1) ;;
   on_files (fl_close src) ;; on_heap (al_free buf)) (mk_util f1 (Some d) h1 m1 (k + 1) e).
Proof.
  intros Hmal Hbuf Hs Hp Hnf Hopen Hsrc0 Hlen Hmk Hk.
  unfold fsutil_append. erewrite bindM_step; [|unfold on_heap; cbn [ut_heap]; rewrite Hmal; reflexivity].
  cbn [ut_files ut_scratch ut_mem append_sector extract_sector]. rewrite (proj2 (Z.eqb_neq buf NULL)) by (unfold NULL; lia).
  rewrite (bindM_step _ _ _ _ _ (open_file_ok f f1 (Some d) h1 m k e p name src Hs Hp Hnf Hopen)).
  rewrite (proj2 (Z.eqb_neq src NULL)) by done.
  assert (on_files (fl_length src) (mk_util f1 (Some d) h1 m k e) = Ok (size, mk_util f1 (Some d) h1 m k e)) as Hl.
  { unfold on_files. cbn [ut_files]. by rewrite Hlen. }
  rewrite (bindM_step _ _ _ _ _ Hl). erewrite bindM_step by reflexivity. cbn [ut_scratch negb].
  erewrite bindM_step by reflexivity. cbn [ut_mem]. rewrite Hmk. erewrite bindM_step by reflexivity. cbn [negb].
  erewrite bindM_step by reflexivity. erewrite bindM_step by reflexivity. cbn [append_sector]. erewrite bindM_step by reflexivity.
  replace (u32 (k + 1)) with (k + 1) by (unfold u32; rewrite Z.mod_small; lia). reflexivity.
Qed.

(** C30. Appending a file to the archive on the scratch disk: when the file can be
    opened and its name is short enough, the call returns, moves its position
    past what it wrote, closes the file and changes these sectors only: first a
    header that parses back to the file's name and size, then the file's data
    padded to sectors, and last, where two sectors of zeros are meant to be, one
    sector whose first 511 bytes are zero and whose last one is the byte that
    memory holds after the buffer; unless that byte is zero, reading the archive
    back stops there with the message not a ustar archive. *)
Theorem append_writes_archive (m0 m : mem) (f f1 : F) (d : D) (h h1 : H) (live : list (Z * Z)) (k e p : Z) (name : list Z)
    (src : Z) (dat : list Z) (buf b : Z) :
  al_ok h live -> al_malloc DISK_SECTOR_SIZE h = Ok (buf, h1) -> 0 < buf -> owned m buf 512 -> m !! (buf + 512) = Some b -> is_byte b ->
  literals_ok m0 L -> cstr m0 p name -> m0 ⊆ m -> (forall a, in_header buf a -> m0 !! a = None) ->
  0 < p -> Forall is_byte name -> (length name < fuel)%nat -> (8 < fuel)%nat -> (length (safe_name name) <= 99)%nat ->
  fl_open name f = Ok (src, f1) -> fl_ok f1 -> fl_file f1 src = Some (dat, 0) ->
  bd_ok d -> bd_size d < 2 ^ 32 -> 0 <= k -> k + data_sectors (Z.of_nat (length dat)) + 1 < bd_size d ->
  let n := data_sectors (Z.of_nat (length dat)) in
  exists f2 d2 h2 m2 hdr q,
    fsutil_append fuel L p (mk_util f (Some d) h m k e) = Ok (tt, mk_util f2 (Some d2) h2 m2 (k + 1 + n) e) /\
    fl_file f2 src = None /\ others_same src f1 f2 /\ al_ok h2 live /\
    (forall j, 0 <= j -> bd_content d2 j =
       if j =? k then hdr
       else if decide (k < j <= k + n) then data_sector dat (512 * (j - k - 1))
       else if j =? k + n + 1 then end_sector b else bd_content d j) /\
    ustar_parse_header fuel L (write_at m buf hdr) buf = Ok (Entry q USTAR_REGULAR (Z.of_nat (length dat))) /\
    cstr (write_at m buf hdr) q (safe_name name) /\
    ustar_parse_header fuel L (write_at m buf (end_sector b)) buf =
      Ok (if b =? 0 then Entry NULL USTAR_EOF 0 else Refused "not a ustar archive").
Proof.
  intros Hh Hmal Hbuf Ho Hmb Hbb HL Hs Hsub Hout Hp Hnb Hnf H8 Hn99 Hopen Hf1 Hsrc Hd H32 Hk Hroom n.
  destruct (fl_file_ok f1 src dat 0 Hf1 Hsrc) as (Hsrc0 & _ & Hmax & _). unfold FILE_MAX in Hmax.
  assert (0 <= n) as Hn0 by (unfold n, data_sectors, DIV_ROUND_UP; apply Z.div_pos; lia).
  destruct (make_then_parse fuel L m0 m buf p name USTAR_REGULAR (Z.of_nat (length dat))) as (m1 & q & Hmk & Hmb1 & Hfr & Hq & Hqs);
    try done; [by left|lia|]. change (USTAR_REGULAR =? USTAR_REGULAR) with true in Hq. cbv iota in Hq.
  destruct (header_as_write m m1 buf Hmb1 Hfr) as (hdr & Hhdr & ->).
  pose proof (proj1 (is_sector_iff _) Hhdr) as [Hhl _].
  destruct (write_sector_ok f1 d h1 (write_at m buf hdr) (k + 1) e k buf hdr Hd ltac:(lia) (write_at_bytes _ _ _) Hhdr) as (d1 & Hw1 & Hd1 & Hs1 & Hc1).
  destruct (append_loop_spec h1 e src dat buf Hbuf (length dat) f1 d1 (write_at m buf hdr) (k + 1) 0)
    as (f2 & d2 & m2 & Hl & Hf2 & Hsrc2 & Hoth2 & Hd2 & Hs2 & Hc2 & Ho2 & Hout2); try done; try lia.
  { rewrite Z.sub_0_r. fold n. lia. } { by apply owned_write_at. }
  rewrite Z.sub_0_r in Hl, Hc2. fold n in Hl, Hc2.
  assert (m2 !! (buf + 512) = Some b) as Hmb2.
  { rewrite Hout2 by lia. rewrite write_at_lookup, decide_False by lia. done. }
  destruct (end_marker_ok f2 d2 h1 m2 (k + 1 + n) e buf b) as (d3 & Hend & Hd3 & Hs3 & Hc3); try done; [lia|].
  destruct (fl_close_ok f2 src dat _ Hf2 Hsrc2) as (f3 & Hcl & Hf3 & Hsrc3 & Hoth3).
  destruct (al_malloc_ok h live DISK_SECTOR_SIZE Hh) as (buf' & h1' & Hmal' & Hres); [by vm_compute|].
  rewrite Hmal in Hmal'. injection Hmal' as <- <-. destruct Hres as [[-> _]|[_ Hh1]]; [done|].
  destruct (al_free_ok h1 buf DISK_SECTOR_SIZE live Hh1) as (h2 & Hfree & Hh2).
  eexists f3, d3, h2, _, hdr, q. split.
  - rewrite (append_prologue f f1 d h h1 m (write_at m buf hdr) k e p name src (Z.of_nat (length dat)) buf); try done; cycle 1.
    { by eapply cstr_mono. } { by eapply fl_length_ok. } { lia. }
    rewrite (bindM_step _ _ _ _ _ Hw1), Nat2Z.id, (bindM_step _ _ _ _ _ Hl), Hend.
    erewrite bindM_step; [|unfold on_files; cbn [ut_files]; rewrite Hcl; reflexivity].
    unfold on_heap. cbn [ut_heap]. rewrite Hfree. reflexivity.
  - split; [done|]. split; [intros x Hx; by rewrite Hoth3, Hoth2|]. split; [done|]. split; [|split; [done|split; [done|]]].
    + intros j Hj. rewrite Hc3, Hc2, Hc1 by done. case_decide as E1; case_decide as E2; try lia.
      * rewrite (proj2 (Z.eqb_neq j (k + 1 + n))), (proj2 (Z.eqb_neq j k)) by lia. f_equal. lia.
      * destruct (Z.eqb_spec j (k + 1 + n)), (Z.eqb_spec j (k + n + 1)), (Z.eqb_spec j k); try lia; done.
    + apply parse_zeros; [done|apply write_at_bytes|]. eapply literals_mono; [|done]. apply map_subseteq_spec. intros a x Ha.
      rewrite write_at_lookup, decide_False; [by eapply lookup_weaken|]. intros Hin. by rewrite Hout in Ha.
Qed.
End append.


(** A file of 600 bytes named ../bin/ls, appended to a disk of 8 sectors; the byte
    after the buffer at 0x1000 is 42. *)
Definition tar_files : ramfs := mk_ramfs [(chars "../bin/ls", 0%nat)] [replicate 600 9] ∅.
Definition tar_kmem : mem := write_at (tar_strings "../bin/ls") 0x1000 (replicate 513 42).
Definition tar_disk : list sector := replicate 8 (replicate 512 1).

Lemma append_writes_archive_witness :
  exists f2 d2 h2 m2 hdr q,
    fsutil_append 200 tar_literals 0x200 (mk_util tar_files (Some tar_disk) 0x1000 tar_kmem 0 0) =
      Ok (tt, mk_util f2 (Some d2) h2 m2 3 0) /\
    bd_content d2 0 = hdr /\ bd_content d2 2 = replicate 88 9 ++ replicate 424 0 /\ bd_content d2 3 = end_sector 42 /\
    ustar_parse_header 200 tar_literals (write_at tar_kmem 0x1000 hdr) 0x1000 = Ok (Entry q USTAR_REGULAR 600) /\
    ustar_parse_header 200 tar_literals (write_at tar_kmem 0x1000 (end_sector 42)) 0x1000 = Ok (Refused "not a ustar archive").
Proof.
  set (src := fresh (dom (rf_open tar_files) ∪ {[NULL]})).
  destruct (append_writes_archive 200 tar_literals (tar_strings "../bin/ls") tar_kmem tar_files
    (rf_set_open tar_files (<[src := (0%nat, 0)]> (rf_open tar_files))) tar_disk 0x1000 0x1200 [] 0 0 0x200 (chars "../bin/ls")
    src (replicate 600 9) 0x1000 42) as (f2 & d2 & h2 & m2 & hdr & q & H1 & _ & _ & _ & H2 & H3 & _ & H4).
  - split; [lia|constructor].
  - reflexivity.
  - lia.
  - intros a Ha. unfold tar_kmem. rewrite write_at_lookup, length_replicate, decide_True by lia.
    apply lookup_lt_is_Some_2. rewrite length_replicate. lia.
  - unfold tar_kmem. rewrite write_at_lookup, length_replicate, decide_True by lia. apply lookup_replicate_2. lia.
  - by vm_compute.
  - by apply tar_literals_ok.
  - apply cstr_b_ok. by vm_compute.
  - apply map_subseteq_spec. intros a x Ha. unfold tar_kmem. rewrite write_at_lookup, length_replicate, decide_False; [done|].
    intros Hr. destruct (decide (a < 0x1200)) as [Hlt|Hge].
    + rewrite tar_apart in Ha; [done|]. unfold in_header. change USTAR_HEADER_SIZE with 512. lia.
    + assert (a = 0x1200) as -> by lia. vm_compute in Ha. done.
  - apply tar_apart.
  - lia.
  - by apply chars_bytes.
  - cbn. lia.
  - lia.
  - vm_compute. lia.
  - by vm_compute.
  - cbn [fl_ok ramfs_files]. split; [|split].
    + constructor; [|constructor]. rewrite length_replicate. split; [by apply Forall_replicate|by vm_compute].
    + by vm_compute.
    + intros i x Hi. cbn in Hi. apply lookup_singleton_Some in Hi as [_ <-]. cbn. lia.
  - by vm_compute.
  - apply Forall_replicate. by vm_compute.
  - by vm_compute.
  - lia.
  - by vm_compute.
  - exists f2, d2, h2, m2, hdr, q. split; [exact H1|]. split; [exact (H2 0 ltac:(lia))|]. split; [exact (H2 2 ltac:(lia))|].
    split; [exact (H2 3 ltac:(lia))|]. split; [exact H3|exact H4].
Defined.


(** Listing the root directory prints the names in it and leaves the directory
    open for good: [fsutil_ls] does not close it. *)
Lemma ls_leaves_directory_open :
  value_of
    ((boot true ;;
      filesys_create name_a 0 stack_junk ;;
      n0 ← gets (fun s => size (dirs s));
      names ← fsutil_ls stack_junk 20;
      n1 ← gets (fun s => size (dirs s));
      mret (n0, names, n1)) (mount blank_disk))
  = Ok (0%nat, [name_a], 1%nat).
Proof. vm_compute. reflexivity. Qed.

