(* ===== verification/Boot.v ===== *)
(** * The kernel command line

    Models the part of threads/init.c that reads the command line the loader
    left in memory: [ram_init], [read_command_line], [parse_options] and
    [run_actions].  What an action does is a parameter; printing is left out.

    Theorems: the words of the command line are found where the loader put
    them; options have the effects their help text says, except that a seed
    given with -rs is overwritten; actions run in the order of the words, up to
    the first word that is not one. *)

From Stdlib Require Import Ascii.
From stdpp Require Import strings.
From S2P Require Import Prelude Vaddr Mem Sort Str Stdio StdioSpec Random.

(** ** Data *)

(** threads/loader.h. *)
Definition LOADER_END : Z := 0x7e00.
Definition LOADER_SIG_LEN : Z := 2.
Definition LOADER_ARGS_LEN : Z := 128.
Definition LOADER_ARG_CNT_LEN : Z := 4.
Definition LOADER_RAM_PGS_LEN : Z := 4.
Definition LOADER_SIG : Z := LOADER_END - LOADER_SIG_LEN.
Definition LOADER_ARGS : Z := LOADER_SIG - LOADER_ARGS_LEN.
Definition LOADER_ARG_CNT : Z := LOADER_ARGS - LOADER_ARG_CNT_LEN.
Definition LOADER_RAM_PGS : Z := LOADER_ARG_CNT - LOADER_RAM_PGS_LEN.

(** The variables that options set, the random number generator and memory. *)
Record kopts : Type := mk_kopts {
  power_off_when_done : bool;
  reboot_when_done : bool;
  format_filesys : bool;
  thread_mlfqs : bool;
  user_page_limit : Z;
  generator : rng;
}.

(** The actions, in the order of the table in [run_actions]. *)
Inductive action : Type := run_task | fsutil_ls | fsutil_cat | fsutil_rm | fsutil_extract | fsutil_append.

#[global] Instance action_eq_dec : EqDecision action.
Proof. solve_decision. Defined.

Definition actions : list (string * nat * action) :=
  [("run", 2%nat, run_task); ("ls", 1%nat, fsutil_ls); ("cat", 2%nat, fsutil_cat);
   ("rm", 2%nat, fsutil_rm); ("extract", 1%nat, fsutil_extract); ("append", 2%nat, fsutil_append)]%string.

(** ** Operations *)

(** A little-endian word. *)
Definition load_word (m : mem) (p : Z) : res Z :=
  b0 ← load m p; b1 ← load m (p + 1); b2 ← load m (p + 2); b3 ← load m (p + 3);
  Ok (b0 + 256 * b1 + 65536 * b2 + 16777216 * b3).

(** Clears the segment BSS, and the number of pages of memory. *)
Definition ram_init (m : mem) (start_bss end_bss : Z) : res (mem * Z) :=
  '(m, _) ← memset m start_bss 0 (end_bss - start_bss);
  p ← ptov LOADER_RAM_PGS;
  ram_pages ← load_word m p;
  Ok (m, ram_pages).

Section command_line.
(** [lit] is where a string literal of the code is, [now] what
    [rtc_get_time ()] returns. *)
Context (fuel : nat) (lit : string -> Z) (now : Z).

(** [static char *argv[LOADER_ARGS_LEN / 2 + 1]]: the list has the elements
    that are filled in; the last one is the null pointer. *)
Definition argv_len : Z := LOADER_ARGS_LEN / 2 + 1.

Fixpoint read_words (n : nat) (m : mem) (i p end_ : Z) : res (list Z) :=
  match n with
  | O => if (0 <=? i) && (i <? argv_len) then Ok [] else Fail BadAccess
  | S n =>
      if end_ <=? p then Fail KernelPanic
      else if argv_len <=? i then Fail BadAccess
      else
        len ← strnlen fuel m p (end_ - p);
        argv ← read_words n m (i + 1) (p + (len + 1)) end_;
        Ok (p :: argv)
  end.

Definition read_command_line (m : mem) : res (list Z) :=
  q ← ptov LOADER_ARG_CNT;
  argc ← load_word m q;
  p ← ptov LOADER_ARGS;
  let argc := s32 argc in
  if argc <? 0 then Fail BadAccess
  else read_words (Z.to_nat argc) m 0 p (p + LOADER_ARGS_LEN).

(** [!strcmp (p, "...")]. *)
Definition is_word (m : mem) (p : Z) (s : string) : res bool :=
  r ← strcmp fuel m p (lit s); Ok (r =? 0).

(** One option; the result is false when the machine is powered off. *)
Definition set_option (m : mem) (name value : Z) (o : kopts) : res (bool * kopts) :=
  let '(mk_kopts q r f mlfqs ul g) := o in
  b ← is_word m name "-h"; if (b : bool) then Ok (false, o) else
  b ← is_word m name "-q"; if (b : bool) then Ok (true, mk_kopts true r f mlfqs ul g) else
  b ← is_word m name "-r"; if (b : bool) then Ok (true, mk_kopts q true f mlfqs ul g) else
  b ← is_word m name "-f"; if (b : bool) then Ok (true, mk_kopts q r true mlfqs ul g) else
  b ← is_word m name "-rs"; if (b : bool) then
    v ← atoi fuel m value; g ← random_init (u32 v); Ok (true, mk_kopts q r f mlfqs ul g) else
  b ← is_word m name "-mlfqs"; if (b : bool) then Ok (true, mk_kopts q r f true ul g) else
  b ← is_word m name "-ul"; if (b : bool) then
    v ← atoi fuel m value; Ok (true, mk_kopts q r f mlfqs (u32 v) g) else
  Fail KernelPanic.

(** Returns the words that are left ([None]: powered off), memory, in which the
    words were cut, and the variables. *)
Fixpoint parse_options (argv : list Z) (m : mem) (o : kopts) : res (option (list Z) * mem * kopts) :=
  let finish := g ← random_init (u32 now);
    Ok (Some argv, m, mk_kopts (power_off_when_done o) (reboot_when_done o) (format_filesys o) (thread_mlfqs o) (user_page_limit o) g) in
  match argv with
  | [] => finish
  | p :: rest =>
      c ← load m p;
      if c =? ch "-" then
        '(m, name, save_ptr) ← strtok_r fuel m p (lit "=") NULL;
        '(m, value, _) ← strtok_r fuel m NULL (lit "") save_ptr;
        '(go, o) ← set_option m name value o;
        if (go : bool) then parse_options rest m o else Ok (None, m, o)
      else finish
  end.

(** The entry of the table with the name at [p]. *)
Fixpoint find_action (m : mem) (p : Z) (table : list (string * nat * action)) : res (nat * action) :=
  match table with
  | [] => Fail KernelPanic
  | (name, argc, a) :: table => b ← is_word m p name; if (b : bool) then Ok (argc, a) else find_action m p table
  end.

Context {S : Type} (perform : action -> list Z -> M S unit).

(** [perform a argv] runs action [a]; [argv] starts with the action's name. *)
Fixpoint run_actions (n : nat) (m : mem) (argv : list Z) : M S unit :=
  match argv with
  | [] => mret tt
  | p :: _ =>
      match n with
      | O => fail NoFuel
      | Datatypes.S n =>
          '(argc, a) ← liftM (find_action m p actions);
          if bool_decide (length argv < argc)%nat then fail KernelPanic
          else perform a (take argc argv) ;; run_actions n m (drop argc argv)
      end
  end.
End command_line.


(** ** The words of the command line *)

(** The loader's layout: words, each followed by a null byte. *)
Definition words_text (ws : list (list Z)) : list Z := mjoin ((fun w => w ++ [0]) <$> ws).
Definition words_at (m : mem) (p : Z) (ws : list (list Z)) : Prop :=
  bytes_at m p (words_text ws) /\ Forall (fun w => 0 ∉ w) ws.
Fixpoint word_ptrs (p : Z) (ws : list (list Z)) : list Z :=
  match ws with [] => [] | w :: ws => p :: word_ptrs (p + Z.of_nat (length w) + 1) ws end.

Lemma words_text_cons w ws : words_text (w :: ws) = (w ++ [0]) ++ words_text ws.
Proof. done. Qed.
Lemma words_text_length w ws : length (words_text (w :: ws)) = S (length w + length (words_text ws)).
Proof. rewrite words_text_cons, !length_app. cbn [length]. lia. Qed.

Lemma words_at_cons m p w ws : words_at m p (w :: ws) <-> cstr m p w /\ words_at m (p + Z.of_nat (length w) + 1) ws.
Proof.
  unfold words_at, cstr. rewrite words_text_cons, bytes_at_app, Forall_cons, length_app. cbn [length].
  replace (p + Z.of_nat (length w + 1)) with (p + Z.of_nat (length w) + 1) by lia. tauto.
Qed.

Lemma words_at_frame m m' p ws : words_at m p ws ->
  (forall a, p <= a < p + Z.of_nat (length (words_text ws)) -> m' !! a = m !! a) -> words_at m' p ws.
Proof.
  intros [Hb Hn] Hm. split; [|done]. apply bytes_at_intro. intros i b Hi. pose proof (lookup_lt_Some _ _ _ Hi).
  rewrite Hm by lia. by eapply bytes_at_lookup.
Qed.

Lemma read_words_spec fuel m ws : forall i p end_,
  words_at m p ws -> p + Z.of_nat (length (words_text ws)) <= end_ -> 0 <= i -> i + Z.of_nat (length ws) < argv_len ->
  (length (words_text ws) < fuel)%nat -> read_words fuel (length ws) m i p end_ = Ok (word_ptrs p ws).
Proof.
  induction ws as [|w ws IH]; intros i p end_ Hw Hend Hi Hlen Hf; cbn [length read_words word_ptrs] in *.
  { by rewrite (proj2 (Z.leb_le 0 i)), (proj2 (Z.ltb_lt i _)) by lia. }
  apply words_at_cons in Hw as [Hc Hw]. rewrite words_text_length in Hend, Hf.
  rewrite (proj2 (Z.leb_gt end_ p)), (proj2 (Z.leb_gt argv_len i)) by lia.
  unfold strnlen. pose proof (strnlen_loop_spec m p (end_ - p) w fuel []) as Hs. cbn [length Nat.add] in Hs. rewrite Z.add_0_r in Hs.
  change (Z.of_nat 0) with 0 in Hs. rewrite Hs by (done || lia). cbn [mbind res_bind].
  rewrite Z.add_assoc. rewrite IH by (done || lia). done.
Qed.

(** What the loader leaves in memory for the command line [ws]. *)
Definition command_line_at (m : mem) (ws : list (list Z)) : Prop :=
  words_at m (LOADER_ARGS + PHYS_BASE) ws /\
  bytes_at m (LOADER_ARG_CNT + PHYS_BASE) [Z.of_nat (length ws); 0; 0; 0] /\
  (length ws <= 64)%nat /\ Z.of_nat (length (words_text ws)) <= LOADER_ARGS_LEN.

Lemma read_command_line_spec fuel m ws : command_line_at m ws -> (128 < fuel)%nat ->
  read_command_line fuel m = Ok (word_ptrs (LOADER_ARGS + PHYS_BASE) ws).
Proof.
  intros (Hw & (H0 & H1 & H2 & H3 & _) & Hlen & Htot) Hf. unfold read_command_line.
  rewrite !ptov_ok by (by vm_compute). cbn [mbind res_bind]. set (q := LOADER_ARG_CNT + PHYS_BASE) in *.
  unfold load_word. rewrite (load_Ok _ _ _ H0), (load_Ok _ _ _ H1). cbn [mbind res_bind].
  replace (q + 2) with (q + 1 + 1) by lia. rewrite (load_Ok _ _ _ H2). cbn [mbind res_bind].
  replace (q + 3) with (q + 1 + 1 + 1) by lia. rewrite (load_Ok _ _ _ H3). cbn [mbind res_bind].
  rewrite !Z.mul_0_r, !Z.add_0_r. rewrite s32_small by lia. rewrite (proj2 (Z.ltb_ge _ 0)) by lia. rewrite Nat2Z.id.
  change LOADER_ARGS_LEN with 128 in *. change argv_len with 65 in *.
  apply read_words_spec; try done; try lia. change argv_len with 65. lia.
Qed.


(** ** Options *)

(** Well-formed options, as they are written, and what they do; [ds] are the
    digits of a number. *)
Inductive opt : Type := Opt_q | Opt_r | Opt_f | Opt_mlfqs | Opt_rs (ds : list Z) | Opt_ul (ds : list Z).

Definition digits_text (ds : list Z) : list Z := (fun d => 48 + d) <$> ds.
Definition opt_text (o : opt) : list Z :=
  match o with
  | Opt_q => chars "-q" | Opt_r => chars "-r" | Opt_f => chars "-f" | Opt_mlfqs => chars "-mlfqs"
  | Opt_rs ds => chars "-rs=" ++ digits_text ds
  | Opt_ul ds => chars "-ul=" ++ digits_text ds
  end.
Definition opt_wf (o : opt) : Prop :=
  match o with
  | Opt_rs ds | Opt_ul ds => ds <> [] /\ Forall (fun d => 0 <= d <= 9) ds /\ dec_value ds < 2 ^ 31
  | _ => True
  end.

(** The variables after an option, the generator left out. *)
Definition apply_opt (o : opt) (k : kopts) : kopts :=
  let '(mk_kopts q r f mlfqs ul g) := k in
  match o with
  | Opt_q => mk_kopts true r f mlfqs ul g
  | Opt_r => mk_kopts q true f mlfqs ul g
  | Opt_f => mk_kopts q r true mlfqs ul g
  | Opt_mlfqs => mk_kopts q r f true ul g
  | Opt_rs _ => k
  | Opt_ul ds => mk_kopts q r f mlfqs (dec_value ds) g
  end.

Definition with_generator (g : rng) (k : kopts) : kopts :=
  mk_kopts (power_off_when_done k) (reboot_when_done k) (format_filesys k) (thread_mlfqs k) (user_page_limit k) g.

(** Its name and value. *)
Definition opt_name (o : opt) : list Z :=
  match o with
  | Opt_q => chars "-q" | Opt_r => chars "-r" | Opt_f => chars "-f" | Opt_mlfqs => chars "-mlfqs"
  | Opt_rs _ => chars "-rs" | Opt_ul _ => chars "-ul"
  end.
Definition opt_value (o : opt) : list Z := match o with Opt_rs ds | Opt_ul ds => digits_text ds | _ => [] end.

Lemma opt_tokens o : opt_wf o ->
  ltrim (chars "=") (opt_text o) = opt_text o /\ token_of (chars "=") (opt_text o) = opt_name o /\
  after_token (chars "=") (opt_text o) = opt_value o.
Proof. by destruct o. Qed.

Lemma opt_text_bytes o : opt_wf o -> Forall is_byte (opt_text o) /\ exists t, opt_text o = ch "-" :: t.
Proof.
  assert (forall ds, Forall (fun d => 0 <= d <= 9) ds -> Forall is_byte (digits_text ds)) as Hd.
  { intros ds Hds. apply Forall_fmap. eapply Forall_impl; [exact Hds|]. intros d Hr. cbv beta in Hr. change (0 <= 48 + d < 256). lia. }
  destruct o; cbn [opt_wf opt_text]; intros Hwf; (split; [|by eexists]); try (by repeat constructor);
    (apply Forall_app; split; [by repeat constructor|]; apply Hd; tauto).
Qed.

Section options.
Context (fuel : nat) (lit : string -> Z) (now : Z) (m0 : mem).
(** Where the literals are: [m0], which the command line is not part of. *)
Context (Hlit : forall s, s ∈ ["="; ""; "-h"; "-q"; "-r"; "-f"; "-rs"; "-mlfqs"; "-ul"]%string -> 0 < lit s /\ cstr m0 (lit s) (chars s)).
Context (Hfuel : (160 < fuel)%nat).

Lemma is_word_ok m p w s : m0 ⊆ m -> 0 < p -> cstr m p w -> (length w < fuel)%nat -> 0 < lit s -> cstr m0 (lit s) (chars s) ->
  is_word fuel lit m p s = Ok (bool_decide (w = chars s)).
Proof.
  clear Hlit Hfuel. intros Hsub Hp Hw Hf Hl Hc. unfold is_word, strcmp. rewrite !bind_ASSERT by (apply negb_true_iff, Z.eqb_neq; unfold NULL; lia).
  destruct (strcmp_loop_spec fuel m p (lit s) w (chars s)) as (r & -> & Hr); [done| |done|by cbn; rewrite Hr].
  destruct Hc as [Hb Hn]. split; [|done]. apply bytes_at_intro. intros i b Hi. eapply lookup_weaken; [|done]. by eapply bytes_at_lookup.
Qed.

Lemma atoi_digits m p ds : p <> 0 -> cstr m p (digits_text ds) -> ds <> [] -> Forall (fun d => 0 <= d <= 9) ds -> dec_value ds < 2 ^ 31 ->
  (length ds < fuel)%nat -> atoi fuel m p = Ok (dec_value ds).
Proof.
  intros Hp [Hb _] Hne Hd Hv Hf. rewrite (atoi_correct fuel m p [] [] ds 0 []); try done.
  - left.
  - rewrite decide_False by done. lia.
Qed.

(** The effect of an option whose name and value are at [name] and [value]. *)
Lemma set_option_ok m name value o k : m0 ⊆ m -> opt_wf o -> 0 < name -> cstr m name (opt_name o) ->
  (opt_value o <> [] -> 0 < value /\ cstr m value (opt_value o) /\ (length (opt_value o) < fuel)%nat) ->
  exists g, set_option fuel lit m name value k = Ok (true, with_generator g (apply_opt o k)).
Proof.
  intros Hsub Hwf Hn Hcn Hv. unfold set_option. destruct k as [q r f mlfqs ul g].
  assert (length (opt_name o) < fuel)%nat as Hl by (destruct o; cbn; lia).
  assert (forall s, s ∈ ["="; ""; "-h"; "-q"; "-r"; "-f"; "-rs"; "-mlfqs"; "-ul"]%string ->
    is_word fuel lit m name s = Ok (bool_decide (opt_name o = chars s))) as Hw.
  { intros s Hs. destruct (Hlit s Hs). by apply is_word_ok. }
  rewrite !Hw by (by repeat constructor).
  assert (forall ds, opt_value o = digits_text ds -> ds <> [] /\ Forall (fun d => 0 <= d <= 9) ds /\ dec_value ds < 2 ^ 31 ->
    atoi fuel m value = Ok (dec_value ds)) as Ha.
  { intros ds E (Hne & Hd & Hmax). rewrite E in Hv. destruct Hv as (Hv0 & Hc & Hf); [by destruct ds|].
    unfold digits_text in Hf. rewrite length_fmap in Hf. apply atoi_digits; try done. lia. }
  destruct o as [| | | |ds|ds]; try (exists g; reflexivity).
  - rewrite (Ha ds) by done. destruct (random_init_ok (u32 (dec_value ds))) as (g1 & Hg & _).
    exists g1. cbn -[random_init dec_value]. rewrite Hg. reflexivity.
  - rewrite (Ha ds) by done. exists g. cbn -[dec_value u32]. do 3 f_equal. unfold with_generator. cbn. f_equal.
    apply u32_small. pose proof (foldl_digits_ge ds 0). destruct Hwf as (_ & Hd & Hmax). unfold dec_value in *. specialize (H Hd). lia.
Qed.

(** With no delimiters the rest of the string is the token, and stays as it is. *)
Lemma no_delims v : ltrim [] v = v /\ token_of [] v = v.
Proof. split; induction v as [|c v IH]; cbn [ltrim token_of]; [done|by rewrite decide_False by apply not_elem_of_nil|done|].
  rewrite decide_False by apply not_elem_of_nil. by rewrite IH. Qed.

Lemma strtok_rest m save v : m0 ⊆ m -> 0 < save -> cstr m save v -> Forall is_byte v -> (length v < fuel)%nat ->
  exists q s, strtok_r fuel m NULL (lit "") save = Ok (m, q, s) /\ (v <> [] -> q = save).
Proof.
  intros Hsub Hp Hc Hb Hf. destruct (Hlit "") as [Hl Hlc]; [by repeat constructor|].
  destruct (no_delims v) as [Et Ek].
  assert (cstr m (lit "") []) as Hlm by (split; [|apply not_elem_of_nil]; cbn; split; [|done]; eapply lookup_weaken; [|done]; apply cstr_nil, Hlc).
  destruct (strtok_r_total fuel m NULL (lit "") save [] v Hp Hl Hlm Hc Hb ltac:(cbn; lia)) as [[E1 E2]|(E1 & m' & q & s & E2 & Hq & Hct & _ & Hfr & _)].
  - rewrite Et in E1. exists NULL, (save + Z.of_nat (length v)). split; [exact E2|done].
  - rewrite Et in E1, Hq, Hct. rewrite Ek in Hct. cbn [Z.eqb] in Hfr, Hq. change (NULL =? NULL) with true in Hfr, Hq. cbv iota in Hfr, Hq.
    rewrite Nat.sub_diag, Z.add_0_r in Hq. subst q. exists save, s. split; [|done]. rewrite E2. do 3 f_equal. apply map_eq. intros a.
    destruct (decide (save <= a < save + Z.of_nat (length v))) as [Hin|Hout]; [|apply Hfr; lia].
    destruct (lookup_lt_is_Some_2 (v ++ [0]) (Z.to_nat (a - save))) as [b Hbl]; [rewrite length_app; lia|].
    pose proof (bytes_at_lookup _ _ _ _ _ (proj1 Hct) Hbl) as H1. pose proof (bytes_at_lookup _ _ _ _ _ (proj1 Hc) Hbl) as H2.
    replace (save + Z.of_nat (Z.to_nat (a - save))) with a in * by lia. congruence.
Qed.

Lemma with_generator_apply g g' o k : with_generator g (apply_opt o (with_generator g' k)) = with_generator g (apply_opt o k).
Proof. by destruct k, o. Qed.
Lemma with_generator_fold g g' os k :
  with_generator g (foldl (flip apply_opt) (with_generator g' k) os) = with_generator g (foldl (flip apply_opt) k os).
Proof.
  revert k g'. induction os as [|o os IH]; intros k g'; [done|]. cbn [foldl flip].
  rewrite <- (IH (apply_opt o (with_generator g' k)) g'), with_generator_apply. apply IH.
Qed.

(** One option word at [p]. *)
Lemma option_word m p o k : m0 ⊆ m -> opt_wf o -> 0 < p -> cstr m p (opt_text o) -> (length (opt_text o) < 128)%nat ->
  (forall a, p <= a < p + Z.of_nat (length (opt_text o)) -> m0 !! a = None) ->
  exists m' g, m0 ⊆ m' /\ (forall a, a < p \/ p + Z.of_nat (length (opt_text o)) <= a -> m' !! a = m !! a) /\
    ('(m1, name, save_ptr) ← strtok_r fuel m p (lit "=") NULL;
     '(m1, value, _) ← strtok_r fuel m1 NULL (lit "") save_ptr;
     '(go, k) ← set_option fuel lit m1 name value k; Ok (go, m1, k)) = Ok (true, m', with_generator g (apply_opt o k)).
Proof.
  intros Hsub Hwf Hp Hc Hlen Hout. destruct (Hlit "=") as [Hl Hlc]; [by repeat constructor|].
  destruct (opt_tokens o Hwf) as (Et & Ek & Ea). destruct (opt_text_bytes o Hwf) as [Hb [t Eo]].
  assert (cstr m (lit "=") (chars "=")) as Hlm.
  { destruct Hlc as [Hlb Hln]. split; [|done]. apply bytes_at_intro. intros i b Hi. eapply lookup_weaken; [|done]. by eapply bytes_at_lookup. }
  assert ((p =? NULL) = false) as Hpn by (apply Z.eqb_neq; unfold NULL; lia).
  destruct (strtok_r_total fuel m p (lit "=") NULL (chars "=") (opt_text o)) as [[E1 _]|(_ & m1 & q & s & E2 & Hq & Hct & Hca & Hfr & Hps & Hse)];
    rewrite ?Hpn; try done; [cbn; lia|by rewrite Et, Eo in E1|].
  rewrite Hpn, ?Et, ?Ek, ?Ea in *. rewrite Nat.sub_diag, Z.add_0_r in Hq. subst q.
  assert (m0 ⊆ m1) as Hsub1.
  { apply map_subseteq_spec. intros a b Ha. destruct (decide (p <= a < p + Z.of_nat (length (opt_text o)))) as [Hin|Hnin].
    - by rewrite Hout in Ha.
    - rewrite Hfr by lia. by eapply lookup_weaken. }
  assert (Forall is_byte (opt_value o)) as Hbv by (clear - Hb; destruct o; try constructor; by apply Forall_app in Hb as [_ Hb]).
  destruct (strtok_rest m1 s (opt_value o) Hsub1 ltac:(lia) Hca Hbv ltac:(lia)) as (q & s2 & E3 & Hqs).
  destruct (set_option_ok m1 p q o k Hsub1 Hwf Hp Hct) as [g Hg].
  { intros Hne. rewrite (Hqs Hne). split; [lia|]. split; [done|]. lia. }
  exists m1, g. split; [done|]. split; [done|]. rewrite E2. cbn [mbind res_bind]. rewrite E3. cbn [mbind res_bind]. by rewrite Hg.
Qed.

(** The words after the options. *)
Definition no_option (ws : list (list Z)) : Prop := match ws with (c :: _) :: _ => c <> ch "-" | _ => True end.

Lemma parse_options_done m p ws k g : words_at m p ws -> no_option ws -> random_init (u32 now) = Ok g ->
  parse_options fuel lit now (word_ptrs p ws) m k = Ok (Some (word_ptrs p ws), m, with_generator g k).
Proof.
  intros Hw Hno Hg. destruct ws as [|w ws]; cbn [word_ptrs parse_options]; rewrite Hg; cbn [mbind res_bind]; [done|].
  apply words_at_cons in Hw as [Hc _]. destruct w as [|c w].
  - by rewrite (load_Ok _ _ _ (cstr_nil _ _ Hc)).
  - apply cstr_cons in Hc as (_ & Hm & _). rewrite (load_Ok _ _ _ Hm). cbn [mbind res_bind].
    cbn in Hno. by rewrite (proj2 (Z.eqb_neq c _)) by done.
Qed.

Lemma parse_options_spec g os ws : random_init (u32 now) = Ok g -> Forall opt_wf os -> no_option ws -> forall m p k,
  m0 ⊆ m -> 0 < p -> words_at m p ((opt_text <$> os) ++ ws) ->
  Z.of_nat (length (words_text ((opt_text <$> os) ++ ws))) <= 128 ->
  (forall a, p <= a < p + Z.of_nat (length (words_text ((opt_text <$> os) ++ ws))) -> m0 !! a = None) ->
  exists m' p', p <= p' /\ parse_options fuel lit now (word_ptrs p ((opt_text <$> os) ++ ws)) m k =
      Ok (Some (word_ptrs p' ws), m', with_generator g (foldl (flip apply_opt) k os)) /\
    words_at m' p' ws /\ m0 ⊆ m'.
Proof.
  intros Hg. induction os as [|o os IH]; intros Hwf Hno m p k Hsub Hp Hw Hlen Hout.
  { exists m, p. split; [lia|]. split; [by apply parse_options_done|done]. }
  apply Forall_cons in Hwf as [Hwo Hwf]. cbn [fmap list_fmap app] in *. apply words_at_cons in Hw as [Hc Hw].
  rewrite words_text_length in Hlen, Hout.
  destruct (option_word m p o k Hsub Hwo Hp Hc) as (m1 & g1 & Hsub1 & Hfr & Hrun); [lia|intros a Ha; apply Hout; lia|].
  assert (words_at m1 (p + Z.of_nat (length (opt_text o)) + 1) ((opt_text <$> os) ++ ws)) as Hw1.
  { eapply words_at_frame; [done|]. intros a Ha. apply Hfr. lia. }
  destruct (IH Hwf Hno m1 (p + Z.of_nat (length (opt_text o)) + 1) (with_generator g1 (apply_opt o k)) Hsub1) as (m2 & p2 & Hp2 & Hrun2 & Hw2 & Hsub2);
    [lia|done|lia|intros a Ha; apply Hout; lia|].
  exists m2, p2. split; [lia|]. split; [|done]. cbn [word_ptrs parse_options].
  destruct (opt_text_bytes o Hwo) as [_ [t Et]]. pose proof Hc as Hc'. rewrite Et in Hc'. apply cstr_cons in Hc' as (_ & Hm & _).
  rewrite (load_Ok _ _ _ Hm). cbn [mbind res_bind]. rewrite Z.eqb_refl. cbv iota.
  destruct (strtok_r fuel m p (lit "=") NULL) as [[[m1' name] save]|] in Hrun |- *; [|done]. cbn [mbind res_bind] in Hrun |- *.
  destruct (strtok_r fuel m1' NULL (lit "") save) as [[[m1'' value] save']|] in Hrun |- *; [|done]. cbn [mbind res_bind] in Hrun |- *.
  destruct (set_option fuel lit m1'' name value k) as [[go k']|] in Hrun |- *; [|done]. cbn [mbind res_bind] in Hrun |- *.
  injection Hrun as -> -> ->. rewrite Hrun2. do 2 f_equal. cbn [foldl flip]. apply with_generator_fold.
Qed.
End options.


(** ** Actions *)

Section actions.
Context (fuel : nat) (lit : string -> Z) {S : Type} (perform : action -> list Z -> M S unit).

(** What the words ask for: actions with their arguments up to the first word
    that is not an action or has too few arguments, and whether there is none
    such.  A word comes with its address. *)
Fixpoint plan (n : nat) (ws : list (Z * list Z)) : list (action * list Z) * bool :=
  match ws with
  | [] => ([], true)
  | (_, w) :: _ =>
      match n, List.find (fun e => bool_decide (w = chars e.1.1)) actions with
      | Datatypes.S n, Some (_, argc, a) =>
          if bool_decide (length ws < argc)%nat then ([], false)
          else let '(rest, ok) := plan n (drop argc ws) in ((a, (take argc ws).*1) :: rest, ok)
      | _, _ => ([], false)
      end
  end.

Fixpoint perform_all (l : list (action * list Z)) : M S unit :=
  match l with [] => mret tt | (a, argv) :: l => perform a argv ;; perform_all l end.

Context (m0 m : mem) (Hsub : m0 ⊆ m).
Context (Hlit : forall e, e ∈ actions -> 0 < lit e.1.1 /\ cstr m0 (lit e.1.1) (chars e.1.1)).

Lemma find_action_spec p w table : (forall e, e ∈ table -> e ∈ actions) -> 0 < p -> cstr m p w -> (length w < fuel)%nat ->
  find_action fuel lit m p table =
    match List.find (fun e => bool_decide (w = chars e.1.1)) table with Some (_, argc, a) => Ok (argc, a) | None => Fail KernelPanic end.
Proof.
  intros Ht Hp Hc Hf. induction table as [|[[name argc] a] table IH]; [done|]. cbn [find_action List.find fst].
  destruct (Hlit (name, argc, a)) as [Hl Hlc]; [apply Ht; left|]. cbn [fst] in Hl, Hlc.
  rewrite (is_word_ok fuel lit m0 m p w name) by done. cbn [mbind res_bind]. case_bool_decide; [done|].
  apply IH. intros e He. apply Ht. by right.
Qed.

Lemma actions_argc e : e ∈ actions -> (0 < e.1.2)%nat.
Proof. intros He. unfold actions in He. repeat (apply elem_of_cons in He as [->|He]; [cbn; lia|]). by apply elem_of_nil in He. Qed.

Lemma run_actions_spec n : forall ws s, (length ws <= n)%nat ->
  Forall (fun e => 0 < e.1 /\ cstr m e.1 e.2 /\ (length e.2 < fuel)%nat) ws ->
  run_actions fuel lit perform n m ws.*1 s =
    (perform_all (plan n ws).1 ;; if (plan n ws).2 then mret tt else fail KernelPanic) s.
Proof.
  induction n as [|n IH]; intros ws s Hn Hws; destruct ws as [|[p w] ws]; cbn [length] in Hn; try done; try lia.
  pose proof Hws as Hall. apply Forall_cons in Hws as [(Hp & Hc & Hf) _]. cbn [fst snd] in Hp, Hc, Hf.
  cbn [fmap list_fmap fst run_actions]. unfold mbind at 1, M_bind at 1, liftM. rewrite (find_action_spec p w actions) by done.
  cbn [plan]. destruct (List.find _ actions) as [[[name argc] a]|] eqn:Hfind; [|done].
  apply List.find_some in Hfind as [Hin _]. pose proof (actions_argc _ (proj2 (list_elem_of_In _ _) Hin)) as Hargc. cbn [fst snd] in Hargc.
  change (p :: ws.*1) with (((p, w) :: ws).*1). rewrite length_fmap. case_bool_decide as Hlen; [done|].
  rewrite <- fmap_take, <- fmap_drop. destruct (plan n (drop argc ((p, w) :: ws))) as [rest ok] eqn:Hplan. cbn [fst snd perform_all].
  unfold mbind, M_bind. destruct (perform a _ s) as [[[] s1]|e]; [|done].
  rewrite IH; [by rewrite Hplan| |by apply Forall_drop]. rewrite length_drop. cbn [length]. lia.
Qed.
End actions.

(** The words with their addresses. *)
Fixpoint located (p : Z) (ws : list (list Z)) : list (Z * list Z) :=
  match ws with [] => [] | w :: ws => (p, w) :: located (p + Z.of_nat (length w) + 1) ws end.

Lemma located_ptrs ws : forall p, (located p ws).*1 = word_ptrs p ws.
Proof. induction ws as [|w ws IH]; intros p; [done|]. cbn. by rewrite IH. Qed.

Lemma located_ok m fuel ws : forall p, 0 < p -> words_at m p ws -> (length (words_text ws) <= fuel)%nat ->
  Forall (fun e => 0 < e.1 /\ cstr m e.1 e.2 /\ (length e.2 < fuel)%nat) (located p ws).
Proof.
  induction ws as [|w ws IH]; intros p Hp Hw Hf; cbn [located]; constructor.
  - apply words_at_cons in Hw as [Hc _]. rewrite words_text_length in Hf. cbn. split; [done|]. split; [done|lia].
  - apply words_at_cons in Hw as [_ Hw]. rewrite words_text_length in Hf. apply IH; [lia|done|lia].
Qed.

(** The string literals of the code. *)
Definition boot_strings : list string :=
  (["="; ""; "-h"; "-q"; "-r"; "-f"; "-rs"; "-mlfqs"; "-ul"]%string) ++ ((fun e : string * nat * action => e.1.1) <$> actions).

(** C31. The kernel does what its command line says: for every command line of
    well-formed options and then other words that the loader can hold,
    [read_command_line] finds the words, [parse_options] returns with the
    variables set as the options say, in their order, and the first other word,
    and [run_actions] performs the actions that the remaining words name, in
    order and each with its own words, and panics at the first word that names
    none or whose arguments are missing.  The random number generator is
    that of the time of day, even where an option -rs asked for a seed. *)
Theorem command_line_obeyed {S : Type} (perform : action -> list Z -> M S unit) (fuel : nat) (lit : string -> Z) (now : Z) (m0 m : mem)
    (os : list opt) (ws : list (list Z)) (k : kopts) :
  command_line_at m ((opt_text <$> os) ++ ws) -> Forall opt_wf os -> no_option ws ->
  (forall s, s ∈ boot_strings -> 0 < lit s /\ cstr m0 (lit s) (chars s)) -> m0 ⊆ m ->
  (forall a, LOADER_ARGS + PHYS_BASE <= a < LOADER_ARGS + PHYS_BASE + LOADER_ARGS_LEN -> m0 !! a = None) -> (160 < fuel)%nat ->
  exists argv m' p g, read_command_line fuel m = Ok argv /\
    random_init (u32 now) = Ok g /\
    parse_options fuel lit now argv m k = Ok (Some (word_ptrs p ws), m', with_generator g (foldl (flip apply_opt) k os)) /\
    words_at m' p ws /\
    forall s, run_actions fuel lit perform (length ws) m' (word_ptrs p ws) s =
      (perform_all perform (plan (length ws) (located p ws)).1 ;;
       if (plan (length ws) (located p ws)).2 then mret tt else fail KernelPanic) s.
Proof.
  intros Hcl Hwf Hno Hlit Hsub Hout Hf. eexists _. destruct (random_init_ok (u32 now)) as (g & Hg & _).
  pose proof Hcl as (Hw & _ & _ & Htot). change LOADER_ARGS_LEN with 128 in *.
  destruct (parse_options_spec fuel lit now m0) with (g := g) (os := os) (ws := ws) (m := m) (p := LOADER_ARGS + PHYS_BASE) (k := k)
    as (m' & p' & Hp' & Hrun & Hw' & Hsub'); try done.
  { intros s Hs. apply Hlit. apply elem_of_app. by left. }
  { intros a Ha. apply Hout. lia. }
  exists m', p', g. split; [apply read_command_line_spec; [done|lia]|]. split; [done|]. split; [done|]. split; [done|].
  intros s. rewrite <- located_ptrs. apply run_actions_spec with (m0 := m0); try done.
  - intros e He. apply Hlit. apply elem_of_app. right. by apply (list_elem_of_fmap_2 (fun e : string * nat * action => e.1.1)).
  - clear. generalize p'. induction ws as [|w ws IH]; intros p; cbn [located length]; [lia|]. specialize (IH (p + Z.of_nat (length w) + 1)). lia.
  - apply located_ok; [|done|].
    + change (LOADER_ARGS + PHYS_BASE) with 3221257598 in Hp'. lia.
    + unfold words_text in Htot |- *. rewrite fmap_app, join_app, length_app in Htot. lia.
Qed.


(** The command line -q -rs=7 -ul=20 ls run x y: the last word is no action. *)
Definition demo_lit (s : string) : Z := 256 + 16 * Z.of_nat (default 0%nat (fst <$> list_find (s =.) boot_strings)).
Definition demo_m0 : mem := foldr (fun s m => write_at m (demo_lit s) (c_str s)) ∅ boot_strings.
Definition demo_opts : list opt := [Opt_q; Opt_rs [7]; Opt_ul [2; 0]].
Definition demo_words : list (list Z) := [chars "ls"; chars "run"; chars "x"; chars "y"].
Definition demo_cmdline : mem :=
  write_at (write_at demo_m0 (LOADER_ARGS + PHYS_BASE) (words_text ((opt_text <$> demo_opts) ++ demo_words)))
    (LOADER_ARG_CNT + PHYS_BASE) [7; 0; 0; 0].
Definition demo_kopts : kopts := mk_kopts false false false false (2 ^ 32 - 1) rng_boot.
Definition demo_perform (a : action) (argv : list Z) : M (list (action * nat)) unit := modify (fun l => l ++ [(a, length argv)]).

Lemma demo_m0_low a : 1024 <= a -> demo_m0 !! a = None.
Proof.
  intros Ha. assert (map_Forall (fun i _ => i < 1024) demo_m0) as Hm by (apply (bool_decide_eq_true _); by vm_compute).
  destruct (demo_m0 !! a) as [b|] eqn:E; [|done]. apply Hm in E. lia.
Qed.

Lemma command_line_obeyed_witness :
  exists argv m' p g, read_command_line 200 demo_cmdline = Ok argv /\ random_init 1000 = Ok g /\
    parse_options 200 demo_lit 1000 argv demo_cmdline demo_kopts =
      Ok (Some (word_ptrs p demo_words), m', mk_kopts true false false false 20 g) /\
    forall s, run_actions 200 demo_lit demo_perform 4 m' (word_ptrs p demo_words) s = Fail KernelPanic.
Proof.
  destruct (command_line_obeyed demo_perform 200 demo_lit 1000 demo_m0 demo_cmdline demo_opts demo_words demo_kopts)
    as (argv & m' & p & g & H1 & H2 & H3 & _ & H4).
  - split; [split; [|repeat constructor; apply (bool_decide_eq_true _); by vm_compute]|split; [|split; [vm_compute; lia|by vm_compute]]].
    + apply bytes_at_intro. intros i b Hi. unfold demo_cmdline. pose proof (lookup_lt_Some _ _ _ Hi) as Hl.
      change (length (words_text ((opt_text <$> demo_opts) ++ demo_words))) with 27%nat in Hl.
      rewrite write_at_lookup, decide_False by (change (LOADER_ARG_CNT + PHYS_BASE) with 3221257594; change (LOADER_ARGS + PHYS_BASE) with 3221257598; cbn [length]; lia).
      rewrite write_at_lookup, decide_True by (change (length (words_text ((opt_text <$> demo_opts) ++ demo_words))) with 27%nat; lia).
      rewrite <- Hi. f_equal. lia.
    + apply write_at_bytes.
  - repeat constructor; try done; lia.
  - done.
  - intros s Hs. unfold boot_strings, actions in Hs. cbn [fmap list_fmap app fst] in Hs.
    repeat (apply elem_of_cons in Hs as [->|Hs]; [split; [by vm_compute|apply cstr_b_ok; by vm_compute]|]). by apply elem_of_nil in Hs.
  - apply map_subseteq_spec. intros a b Ha. assert (a < 1024) as Hlt.
    { destruct (decide (a < 1024)); [done|]. rewrite demo_m0_low in Ha by lia. done. }
    unfold demo_cmdline. rewrite !write_at_lookup.
    rewrite decide_False by (change (LOADER_ARG_CNT + PHYS_BASE) with 3221257594; lia).
    rewrite decide_False by (change (LOADER_ARGS + PHYS_BASE) with 3221257598; lia). done.
  - intros a Ha. apply demo_m0_low. change (LOADER_ARGS + PHYS_BASE) with 3221257598 in Ha. lia.
  - lia.
  - exists argv, m', p, g. split; [exact H1|]. split; [exact H2|]. split; [exact H3|]. intros s. exact (H4 s).
Defined.

