(* ===== verification/Delay.v ===== *)
(** * Timer calibration and short delays

    Models the part of devices/timer.c that measures and uses the speed of the
    processor: [timer_calibrate], the busy-wait loop and the conversion of times
    to ticks and to loops.  Time is counted in rounds of the loop; the timer
    interrupts every [period] rounds.  The sleeping and alarm side of timer.c is
    in [Kernel].

    [calibration_bounds] says how good the measurement is. *)

From S2P Require Import Prelude.

Definition TIMER_FREQ : Z := 100.

(** The processor and the counter [loops_per_tick]. *)
Record cpu : Type := mk_cpu {
  period : Z;                   (* rounds of the loop between timer interrupts *)
  rounds : Z;                   (* rounds since the start *)
  loops_per_tick : Z;
}.

(** [ticks], which the timer interrupt counts. *)
Definition ticks (c : cpu) : Z := rounds c / period c.
Definition barrier : M cpu unit := modify (fun c => mk_cpu (period c) (rounds c + 1) (loops_per_tick c)).
Definition set_loops (n : Z) : M cpu unit := modify (fun c => mk_cpu (period c) (rounds c) n).

(** What [timer_init] writes to the ports of the 8254. *)
Definition timer_init : list (Z * Z) :=
  let count := u16 ((1193180 + TIMER_FREQ / 2) / TIMER_FREQ) in
  [(0x43, 0x34); (0x40, Z.land count 0xff); (0x40, Z.shiftr count 8)].

(** [while (loops-- > 0) barrier ();] *)
Fixpoint busy_rounds (n : nat) : M cpu unit :=
  match n with O => mret tt | S n => barrier ;; busy_rounds n end.
Definition busy_wait (loops : Z) : M cpu unit := busy_rounds (Z.to_nat loops).

(** [while (ticks == start) barrier ();] *)
Fixpoint wait_tick (fuel : nat) (start : Z) : M cpu unit :=
  match fuel with
  | O => fail NoFuel
  | S fuel => t ← gets ticks; if t =? start then barrier ;; wait_tick fuel start else mret tt
  end.

Section calibrate.
Context (fuel : nat).

Definition too_many_loops (loops : Z) : M cpu bool :=
  start ← gets ticks;
  wait_tick fuel start ;;
  start ← gets ticks;
  busy_wait loops ;;
  t ← gets ticks;
  mret (negb (start =? t)).

(** The first loop doubles at most 22 times before the counter is zero. *)
Fixpoint double_loop (n : nat) : M cpu unit :=
  match n with
  | O => fail NoFuel
  | S n =>
      l ← gets loops_per_tick;
      b ← too_many_loops (u32 (Z.shiftl l 1));
      if (b : bool) then mret tt
      else set_loops (u32 (Z.shiftl l 1)) ;; assertM (negb (u32 (Z.shiftl l 1) =? 0)) ;; double_loop n
  end.

Fixpoint refine_loop (n : nat) (high_bit test_bit : Z) : M cpu unit :=
  if test_bit =? Z.shiftr high_bit 10 then mret tt
  else
    match n with
    | O => fail NoFuel
    | S n =>
        b ← too_many_loops (Z.lor high_bit test_bit);
        (if (b : bool) then mret tt else l ← gets loops_per_tick; set_loops (Z.lor l test_bit)) ;;
        refine_loop n high_bit (Z.shiftr test_bit 1)
    end.

Definition timer_calibrate (intr_on : bool) : M cpu unit :=
  assertM intr_on ;;
  set_loops (u32 (Z.shiftl 1 10)) ;;
  double_loop 23 ;;
  high_bit ← gets loops_per_tick;
  refine_loop 10 high_bit (Z.shiftr high_bit 1).

(** 64-bit arithmetic, truncating. *)
Definition real_time_delay (num denom : Z) : M cpu unit :=
  assertM (Z.rem denom 1000 =? 0) ;;
  l ← gets loops_per_tick;
  busy_wait (Z.quot (s64 (Z.quot (s64 (l * num)) 1000 * TIMER_FREQ)) (Z.quot denom 1000)).

(** [timer_sleep] is that of the scheduler. *)
Definition real_time_sleep (intr_on : bool) (timer_sleep : Z -> M cpu unit) (num denom : Z) : M cpu unit :=
  let ticks := Z.quot (s64 (num * TIMER_FREQ)) denom in
  assertM intr_on ;;
  if 0 <? ticks then timer_sleep ticks else real_time_delay num denom.

Definition timer_msleep intr_on timer_sleep ms := real_time_sleep intr_on timer_sleep ms 1000.
Definition timer_usleep intr_on timer_sleep us := real_time_sleep intr_on timer_sleep us (1000 * 1000).
Definition timer_nsleep intr_on timer_sleep ns := real_time_sleep intr_on timer_sleep ns (1000 * 1000 * 1000).
Definition timer_mdelay ms := real_time_delay ms 1000.
Definition timer_udelay us := real_time_delay us (1000 * 1000).
Definition timer_ndelay ns := real_time_delay ns (1000 * 1000 * 1000).
End calibrate.

(** A processor that runs 1537 rounds in a tick is taken to run 2046. *)
Example calibrated_1537 :
  (timer_calibrate 1600 true ;; gets loops_per_tick) (mk_cpu 1537 0 0) = Ok (2046, mk_cpu 1537 17933 2046).
Proof. vm_compute. reflexivity. Qed.


(** ** The measurement *)

(** [c'] is [c] some time later. *)
Definition later (c c' : cpu) : Prop := period c' = period c /\ loops_per_tick c' = loops_per_tick c.

Lemma busy_rounds_spec n : forall c, busy_rounds n c = Ok (tt, mk_cpu (period c) (rounds c + Z.of_nat n) (loops_per_tick c)).
Proof.
  induction n as [|n IH]; intros c; cbn [busy_rounds]; [by destruct c; cbn; rewrite Z.add_0_r|].
  erewrite bindM_step by reflexivity. rewrite IH. cbn. do 3 f_equal. lia.
Qed.

Lemma wait_tick_spec fuel P L : forall r, 0 < P -> P - r mod P < Z.of_nat fuel ->
  wait_tick fuel (r / P) (mk_cpu P r L) = Ok (tt, mk_cpu P ((r / P + 1) * P) L).
Proof.
  induction fuel as [|fuel IH]; intros r HP Hf; [pose proof (Z.mod_pos_bound r P HP); lia|].
  cbn [wait_tick]. erewrite bindM_step by reflexivity. unfold ticks. cbn [rounds period]. rewrite Z.eqb_refl.
  erewrite bindM_step by reflexivity. cbn [rounds period loops_per_tick].
  destruct (decide (r mod P = P - 1)) as [E|E].
  - assert (r + 1 = (r / P + 1) * P) as -> by (pose proof (Z.div_mod r P ltac:(lia)); lia).
    destruct fuel as [|fuel]; [lia|]. cbn [wait_tick]. erewrite bindM_step by reflexivity. unfold ticks. cbn [rounds period].
    rewrite Z.div_mul by lia. by rewrite (proj2 (Z.eqb_neq _ _)) by lia.
  - assert (r / P = (r + 1) / P /\ (r + 1) mod P = r mod P + 1) as [Hd Hm].
    { pose proof (Z.mod_pos_bound r P HP). split; [apply Z.div_unique with (r mod P + 1)|symmetry; apply Z.mod_unique with (r / P)];
        pose proof (Z.div_mod r P ltac:(lia)); lia. }
    rewrite Hd at 1. rewrite IH by lia. by rewrite <- Hd.
Qed.

(** Exactly the counts that take at least a tick are too many. *)
Lemma too_many_spec fuel c n : 0 < period c < Z.of_nat fuel -> 0 <= n ->
  exists c', too_many_loops fuel n c = Ok (period c <=? n, c') /\ later c c'.
Proof.
  intros HP Hn. destruct c as [P r L]. cbn [period] in *. unfold too_many_loops. erewrite bindM_step by reflexivity.
  unfold ticks at 1. cbn [rounds period]. pose proof (Z.mod_pos_bound r P ltac:(lia)).
  rewrite (bindM_step _ _ _ _ _ (wait_tick_spec fuel P L r ltac:(lia) ltac:(lia))).
  erewrite bindM_step by reflexivity. unfold busy_wait. rewrite (bindM_step _ _ _ _ _ (busy_rounds_spec _ _)).
  cbn [rounds period loops_per_tick]. erewrite bindM_step by reflexivity. rewrite Z2Nat.id by lia. unfold ticks. cbn [rounds period].
  rewrite Z.div_mul, Z.div_add_l by lia. eexists. split; [unfold mret, M_ret; do 2 f_equal|by split].
  destruct (Z.leb_spec P n) as [Hle|Hlt].
  - apply negb_true_iff, Z.eqb_neq. pose proof (Z.div_le_mono P n P ltac:(lia) Hle). rewrite Z.div_same in * by lia. lia.
  - rewrite (Z.div_small n P) by lia. by rewrite Z.add_0_r, Z.eqb_refl.
Qed.

Lemma double_loop_spec fuel n : forall c k, loops_per_tick c = 2 ^ k -> 10 <= k -> 2 ^ k < period c <= 2 ^ 31 -> period c < Z.of_nat fuel ->
  31 - k < Z.of_nat n ->
  exists c' k', double_loop fuel n c = Ok (tt, c') /\ period c' = period c /\ loops_per_tick c' = 2 ^ k' /\ k <= k' /\
    2 ^ k' < period c <= 2 * 2 ^ k'.
Proof.
  induction n as [|n IH]; intros c k Hl Hk HP Hf Hn.
  { assert (k < 31); [|lia]. apply (Z.pow_lt_mono_r_iff 2); lia. }
  assert (k < 31) as Hk31 by (apply (Z.pow_lt_mono_r_iff 2); lia). assert (0 < 2 ^ k) by (apply Z.pow_pos_nonneg; lia).
  assert (u32 (Z.shiftl (2 ^ k) 1) = 2 ^ (k + 1)) as Hu.
  { rewrite Z.shiftl_mul_pow2, <- Z.pow_add_r by lia. apply u32_small. split; [apply Z.pow_nonneg; lia|]. apply Z.pow_lt_mono_r; lia. }
  cbn [double_loop]. erewrite bindM_step by reflexivity. rewrite Hl, Hu.
  destruct (too_many_spec fuel c (2 ^ (k + 1))) as (c1 & Ht & Hp1 & Hl1); [lia|apply Z.pow_nonneg; lia|].
  rewrite (bindM_step _ _ _ _ _ Ht). rewrite Z.pow_add_r in * by lia. change (2 ^ 1) with 2 in *.
  destruct (Z.leb_spec (period c) (2 ^ k * 2)) as [Hle|Hgt].
  - exists c1, k. split; [done|]. split; [done|]. split; [congruence|]. lia.
  - erewrite bindM_step by reflexivity. rewrite (proj2 (Z.eqb_neq (2 ^ k * 2) 0)) by lia. erewrite bindM_step by reflexivity.
    destruct (IH (mk_cpu (period c1) (rounds c1) (2 ^ k * 2)) (k + 1)) as (c' & k' & Hr & Hp' & Hl' & Hk' & HP');
      cbn [loops_per_tick period]; rewrite ?Hp1, ?Z.pow_add_r in * by lia; try done; try lia.
    exists c', k'. cbn [period] in Hp', HP'. rewrite ?Hp1 in HP'. split; [done|]. split; [congruence|]. split; [done|]. lia.
Qed.

(** A processor that is too fast for the counter. *)
Lemma double_loop_overflow fuel n : forall c k, loops_per_tick c = 2 ^ k -> 10 <= k <= 31 -> 2 ^ 31 < period c < Z.of_nat fuel ->
  31 - k < Z.of_nat n -> double_loop fuel n c = Fail AssertFailed.
Proof.
  induction n as [|n IH]; intros c k Hl Hk HP Hn; [lia|]. cbn [double_loop]. erewrite bindM_step by reflexivity. rewrite Hl.
  destruct (decide (k = 31)) as [->|Hk31].
  - change (u32 (Z.shiftl (2 ^ 31) 1)) with 0. destruct (too_many_spec fuel c 0) as (c1 & Ht & _); [lia|lia|].
    rewrite (bindM_step _ _ _ _ _ Ht). by rewrite (proj2 (Z.leb_gt (period c) 0)) by lia.
  - assert (u32 (Z.shiftl (2 ^ k) 1) = 2 ^ (k + 1)) as ->.
    { rewrite Z.shiftl_mul_pow2, <- Z.pow_add_r by lia. apply u32_small. split; [apply Z.pow_nonneg; lia|]. apply Z.pow_lt_mono_r; lia. }
    assert (2 ^ (k + 1) <= 2 ^ 31) by (apply Z.pow_le_mono_r; lia). assert (0 < 2 ^ (k + 1)) by (apply Z.pow_pos_nonneg; lia).
    destruct (too_many_spec fuel c (2 ^ (k + 1))) as (c1 & Ht & Hp1 & Hl1); [lia|lia|].
    rewrite (bindM_step _ _ _ _ _ Ht), (proj2 (Z.leb_gt _ _)) by lia. erewrite bindM_step by reflexivity.
    rewrite (proj2 (Z.eqb_neq (2 ^ (k + 1)) 0)) by lia. erewrite bindM_step by reflexivity.
    apply (IH _ (k + 1)); cbn [loops_per_tick period]; [done|lia|lia|lia].
Qed.


Lemma lor_low a n : 0 <= n -> Z.lor (a * 2 ^ (n + 1)) (2 ^ n) = a * 2 ^ (n + 1) + 2 ^ n.
Proof.
  intros Hn. symmetry. apply Z.add_nocarry_lor. apply Z.bits_inj'. intros i Hi. rewrite Z.land_spec, Z.bits_0, Z.pow2_bits_eqb by lia.
  destruct (Z.eqb_spec n i) as [->|]; [|apply andb_false_r]. by rewrite Z.mul_pow2_bits_low by lia.
Qed.

Section refine.
Context (fuel : nat) (P i : Z).
Context (Hi : 0 <= i) (HP : 1024 * 2 ^ i < P <= 2048 * 2 ^ i) (Hf : P < Z.of_nat fuel).
Abbreviation u := (2 ^ i).

(** What the loop has found before it tries bit [2 ^ e]: nothing yet, or [E] was
    the first bit that was not too many, and all bits since then are set. *)
Definition found (e : Z) (l : Z) : Prop :=
  l = 1024 * u /\ P <= (1024 + 2 * 2 ^ e) * u \/
  exists E, e < E <= 9 /\ (1024 + 2 ^ E) * u < P <= (1024 + 2 * 2 ^ E) * u /\ l = (1024 + 2 * 2 ^ E - 2 * 2 ^ e) * u.

Lemma u_pos : 0 < u.
Proof. apply Z.pow_pos_nonneg; lia. Qed.

(** [2 ^ e * u] is below every bit of what is found. *)
Lemma found_lor e l : 0 <= e <= 9 -> found e l -> Z.lor l (2 ^ e * u) = l + 2 ^ e * u.
Proof.
  intros He Hl. rewrite <- Z.pow_add_r by lia. assert (exists a, l = a * 2 ^ (e + i + 1)) as [a ->]; [|by apply lor_low; lia].
  assert (forall x, x * 2 ^ (e + i + 1) = x * (2 * 2 ^ e) * u) as Heq.
  { intros x. rewrite !Z.pow_add_r by lia. change (2 ^ 1) with 2. ring. }
  assert (1024 = 2 ^ (9 - e) * (2 * 2 ^ e)) as H1024.
  { replace (2 ^ (9 - e) * (2 * 2 ^ e)) with (2 * (2 ^ (9 - e) * 2 ^ e)) by ring. rewrite <- Z.pow_add_r by lia. by replace (9 - e + e) with 9 by lia. }
  destruct Hl as [[-> _]|(E & HE & _ & ->)].
  - exists (2 ^ (9 - e)). by rewrite Heq, <- H1024.
  - exists (2 ^ (9 - e) + 2 ^ (E - e) - 1). rewrite Heq. f_equal. rewrite Z.mul_sub_distr_r, Z.mul_add_distr_r, <- H1024.
    assert (2 ^ E = 2 ^ (E - e) * 2 ^ e) as -> by (rewrite <- Z.pow_add_r by lia; f_equal; lia). ring.
Qed.

Lemma measured_step e l (b : bool) : 0 < e <= 9 -> found e l -> b = (P <=? (1024 + 2 ^ e) * u) ->
  found (e - 1) (if b then l else l + 2 ^ e * u).
Proof.
  pose proof u_pos as Hu. intros He Hl ->. assert (2 ^ e = 2 * 2 ^ (e - 1)) as Hpow by (rewrite <- Z.pow_succ_r by lia; f_equal; lia).
  assert (0 < 2 ^ (e - 1)) by (apply Z.pow_pos_nonneg; lia).
  destruct (Z.leb_spec P ((1024 + 2 ^ e) * u)) as [Hle|Hgt]; destruct Hl as [[-> Hb]|(E & HE & Hb & ->)].
  - left. split; [done|]. rewrite Hpow in Hle. done.
  - exfalso. assert (2 ^ e <= 2 ^ E) by (apply Z.pow_le_mono_r; lia). nia.
  - right. exists e. split; [lia|]. split; [lia|]. rewrite Hpow. ring.
  - right. exists E. split; [lia|]. split; [done|]. rewrite Hpow. ring.
Qed.

Lemma refine_loop_spec n : forall e c, 0 <= e <= 9 -> e < Z.of_nat n -> period c = P -> found e (loops_per_tick c) ->
  exists c', refine_loop fuel n (1024 * u) (2 ^ e * u) c = Ok (tt, c') /\ period c' = P /\ found 0 (loops_per_tick c').
Proof.
  pose proof u_pos as Hu. assert (Z.shiftr (1024 * u) 10 = u) as Hsh.
  { rewrite Z.shiftr_div_pow2 by lia. change (2 ^ 10) with 1024. rewrite Z.mul_comm. by apply Z.div_mul. }
  induction n as [|n IH]; intros e c He Hn Hc Hl; [lia|]. cbn [refine_loop]. rewrite Hsh.
  destruct (Z.eqb_spec (2 ^ e * u) u) as [Heq|Hne].
  { assert (e = 0) as ->; [|by exists c]. destruct (Z.eq_dec e 0); [done|]. assert (2 ^ 1 <= 2 ^ e) by (apply Z.pow_le_mono_r; lia). nia. }
  assert (0 < e) as He0 by (destruct (Z.eq_dec e 0) as [->|]; [destruct Hne; lia|lia]).
  assert (Z.lor (1024 * u) (2 ^ e * u) = (1024 + 2 ^ e) * u) as ->.
  { destruct (Z.eq_dec e 9) as [->|].
    - rewrite (found_lor 9) by (first [lia|left; split; [done|]; change (2 * 2 ^ 9) with 1024; lia]). ring.
    - rewrite <- Z.pow_add_r by lia. replace (1024 * u) with (2 ^ (9 - e) * 2 ^ (e + i + 1)); [rewrite lor_low by lia|].
      + rewrite <- !Z.pow_add_r by lia. replace (9 - e + (e + i + 1)) with (10 + i) by lia. rewrite !Z.pow_add_r by lia. change (2 ^ 10) with 1024. ring.
      + rewrite <- !Z.pow_add_r by lia. replace (9 - e + (e + i + 1)) with (10 + i) by lia. by rewrite !Z.pow_add_r by lia. }
  destruct (too_many_spec fuel c ((1024 + 2 ^ e) * u)) as (c1 & Ht & Hp1 & Hl1); [lia|pose proof (Z.pow_nonneg 2 e); nia|].
  rewrite (bindM_step _ _ _ _ _ Ht), Hc. pose proof (measured_step e _ (P <=? (1024 + 2 ^ e) * u) ltac:(lia) Hl eq_refl) as Hstep.
  assert (Z.shiftr (2 ^ e * u) 1 = 2 ^ (e - 1) * u) as ->.
  { rewrite Z.shiftr_div_pow2 by lia. replace (2 ^ e) with (2 ^ (e - 1) * 2 ^ 1) by (rewrite <- Z.pow_add_r by lia; f_equal; lia).
    replace (2 ^ (e - 1) * 2 ^ 1 * u) with (2 ^ (e - 1) * u * 2 ^ 1) by ring. by apply Z.div_mul. }
  destruct (P <=? (1024 + 2 ^ e) * u).
  - erewrite bindM_step by reflexivity. apply IH; [lia|lia|congruence|by rewrite Hl1].
  - erewrite bindM_step; [|erewrite bindM_step by reflexivity; reflexivity].
    apply IH; cbn [period loops_per_tick]; [lia|lia|congruence|]. by rewrite Hl1, (found_lor e) by (done || lia).
Qed.
End refine.


(** C32. Calibration as bounds.  For a processor that runs the loop [period] times
    between timer interrupts, [timer_calibrate] returns with a count that falls
    short of [period] by at most one part in 512 and exceeds it by at most one
    third, if [period] is more than 1024 (where the search starts) and at most
    [2 ^ 31]; a faster processor fails the assertion on the overflow of the
    counter.  The count is not always less than a tick, as the comment in the
    code wants it: each bit is tested together with [high_bit] alone, so once
    one bit is not too many, all lower ones are set as well. *)
Theorem calibration_bounds (fuel : nat) (c : cpu) : 1024 < period c < Z.of_nat fuel ->
  if decide (period c <= 2 ^ 31) then
    exists c', timer_calibrate fuel true c = Ok (tt, c') /\ period c' = period c /\
      512 * (period c - loops_per_tick c') <= period c /\ 3 * loops_per_tick c' <= 4 * period c /\
      exists i E, 0 <= i /\ 0 <= E <= 9 /\ period c <= (1024 + 2 * 2 ^ E) * 2 ^ i /\
        (if decide (E = 0) then 1024 else 1024 + 2 ^ E) * 2 ^ i < period c /\
        loops_per_tick c' = (1024 + 2 * 2 ^ E - 2) * 2 ^ i
  else timer_calibrate fuel true c = Fail AssertFailed.
Proof.
  intros HP. unfold timer_calibrate. erewrite bindM_step by reflexivity. erewrite bindM_step by reflexivity.
  change (u32 (Z.shiftl 1 10)) with (2 ^ 10). set (c0 := mk_cpu _ _ _). case_decide as H31.
  - destruct (double_loop_spec fuel 23 c0 10) as (c1 & k & Hd & Hp1 & Hl1 & Hk & Hb); cbn [period loops_per_tick c0]; try done; try lia.
    cbn [period c0] in Hp1, Hb. rewrite (bindM_step _ _ _ _ _ Hd). erewrite bindM_step by reflexivity. rewrite Hl1.
    assert (2 ^ k = 1024 * 2 ^ (k - 10)) as Hk2 by (change 1024 with (2 ^ 10); rewrite <- Z.pow_add_r by lia; f_equal; lia).
    assert (0 < 2 ^ (k - 10)) as Hu by (apply Z.pow_pos_nonneg; lia).
    assert (Z.shiftr (2 ^ k) 1 = 2 ^ 9 * 2 ^ (k - 10)) as ->.
    { rewrite Z.shiftr_div_pow2, Hk2 by lia. symmetry. apply Z.div_unique with 0; lia. }
    rewrite Hk2. destruct (refine_loop_spec fuel (period c) (k - 10)) with (n := 10%nat) (e := 9) (c := c1) as (c2 & Hr & Hp2 & Hf2); try lia.
    { left. rewrite Hl1, Hk2. split; [done|]. change (2 * 2 ^ 9) with 1024. lia. }
    exists c2. split; [done|]. split; [done|].
    assert (exists E, 0 <= E <= 9 /\ period c <= (1024 + 2 * 2 ^ E) * 2 ^ (k - 10) /\
      (if decide (E = 0) then 1024 else 1024 + 2 ^ E) * 2 ^ (k - 10) < period c /\
      loops_per_tick c2 = (1024 + 2 * 2 ^ E - 2) * 2 ^ (k - 10)) as (E & HE & Hup & Hlow & Heq).
    { destruct Hf2 as [[-> Hb2]|(E & HE & Hb2 & ->)].
      - exists 0. rewrite decide_True by done. split; [lia|]. split; [done|]. split; [lia|]. ring.
      - exists E. rewrite decide_False by lia. split; [lia|]. split; [lia|]. split; [lia|]. by change (2 ^ 0) with 1; rewrite Z.mul_1_r. }
    split; [|split; [|exists (k - 10), E; split; [lia|done]]]; rewrite Heq.
    + nia.
    + assert (E = 0 \/ E = 1 \/ E = 2 \/ E = 3 \/ E = 4 \/ E = 5 \/ E = 6 \/ E = 7 \/ E = 8 \/ E = 9) as Hc by lia.
      clear - Hu Hlow Hc. repeat destruct Hc as [->|Hc]; [..|subst E];
        [rewrite decide_True in Hlow by done; lia|rewrite decide_False in Hlow by done..];
        match goal with Hx : (1024 + ?p) * _ < _ |- _ => let v := eval vm_compute in p in change p with v in *; lia end.
  - unfold mbind at 1, M_bind at 1. rewrite (double_loop_overflow fuel 23 c0 10); [done|done|lia|cbn [period c0]; lia|lia].
Qed.

(** A processor whose loop runs 1537 times between interrupts: 2046 is found. *)
Lemma calibration_bounds_witness :
  exists c', timer_calibrate 1600 true (mk_cpu 1537 0 0) = Ok (tt, c') /\ 1537 < loops_per_tick c' /\ 3 * loops_per_tick c' <= 4 * 1537.
Proof.
  pose proof (calibration_bounds 1600 (mk_cpu 1537 0 0) ltac:(cbn [period]; lia)) as H. cbn [period] in H.
  destruct (decide (1537 <= 2 ^ 31)) as [_|n]; [|lia]. destruct H as (c' & H1 & _ & _ & H2 & _).
  exists c'. split; [exact H1|]. split; [|exact H2]. assert (loops_per_tick c' = 2046) as ->; [|lia].
  assert (timer_calibrate 1600 true (mk_cpu 1537 0 0) = Ok (tt, mk_cpu 1537 17933 2046)) as E by (vm_compute; reflexivity).
  rewrite E in H1. injection H1 as <-. reflexivity.
Defined.

